(* ===== verification/_CoqProject ===== *)
-Q . S2P
Prelude.v
ByteOrder.v
Address.v
Checksum.v
Decoder.v
Ethernet.v
Ipv4.v
Udp.v
Tcp.v
Ipv4Reassembly.v
SomeIp.v
SomeIpSd.v
DoIP.v
Gptp.v
Rtps.v
Discovery.v
Dispatcher.v
Uds.v
UdsTables.v
UdsSession.v
Diagnostic.v
Correlator.v
Flash.v
Dtc.v
DiagnosticSession.v
Timestamp.v
Pcap.v
Pcapng.v
PacketView.v
Validation.v
Scenario.v
ScenarioRunner.v
Replay.v
Generators.v
Capture.v
World.v
PcapCapture.v
Devices.v
CaptureSetup.v
ScenarioDocument.v
JsonParser.v
YamlParser.v
Matchers.v
PacketSource.v
LiveCapture.v
RecordReplay.v
LiveAssert.v
DiagnosticMatchers.v
Report.v
ReportReaders.v
WadjetRun.v
CApi.v
CApiDecode.v
CApiHandles.v
CApiResults.v
RtpsTypes.v
UdsServices.v
