(* ===== verification/Prelude.v ===== *)
(** * Wadjet-Link: verification development

    Wadjet-Link decodes automotive network traffic.  A packet goes through a chain
    of decoders: [ProtocolDispatcher] (src/protocols/dispatcher.cpp) hands it to the
    Ethernet decoder, what that leaves to the IPv4 or the gPTP decoder, then to UDP
    or TCP, and the transport payload to DoIP, RTPS, SOME/IP or SOME/IP-SD.  Besides
    the chain there are three pieces of state: the cache of IPv4 fragments, the table
    of TCP connections and the SOME/IP-TP reassembler.  On top of DoIP a diagnostic
    layer decodes UDS messages and follows sessions, requests, flash programming and
    trouble codes.  Test scenarios match decoded packets of recorded or live captures
    against expectations.  This library models the decoders, the stateful parts, the
    dispatcher, the capture files, the scenario runner with its reports and the helpers
    for tests as executable functions, and proves what they compute and where they go
    wrong.

    ** How the program is modelled

    - A [std::byte] is [Byte.byte], a buffer or [std::span] a list of bytes, an
      unsigned integer of [w] bits a [Z] below [2 ^ w]; conversions that wrap are
      [uint] and [sint], and 32-bit sums that can wrap are written with them.
      Sizes and offsets ([std::size_t]) are exact: buffers are far below 2^63 bytes.
    - A function that can fail or read out of bounds returns a [res]: [Done] its
      value, [Fail] the error it reports, [Undef] where the execution reads or
      copies outside an object (or, in Dtc.v, locks a mutex it holds), which C++
      leaves undefined.  Every unchecked read,
      copy and [subspan] of the code goes through [byte_at], [memcpy] and [subspan]
      of Decoder.v, which are [Undef] outside their list.
    - Objects with state (a reassembler, a tracker, a dispatcher) are records or
      maps that the operations take and return.  Clocks are arguments.
    - Loops over a buffer are fixpoints whose fuel is the length of the buffer, or
      the loop bound of the code; each turn consumes at least one byte, so the fuel
      suffices.  The exactness and totality theorems prove it: they state the result
      of the function itself on every input, with no hypothesis on the fuel.
      [fold_carries] of Checksum.v has a fuel of three, and [fold_carries_total]
      shows that a 32-bit sum needs no more.

    ** The files

    - Prelude.v: [res] and its monad, bytes and machine integers, bit operations as
      arithmetic, automation ([case_step], [bool_to_prop], [bits_arith]), list lemmas.
    - ByteOrder.v: core/byte_order.hpp, reads and writes in both byte orders.
    - Address.v: core/address.hpp and core/types.hpp, the text of MAC and IPv4
      addresses and subnet membership.
    - Checksum.v: protocols/common/checksum.cpp, and sums modulo 65535.
    - Decoder.v: protocols/decoder.hpp, errors, contexts and bounds-checked reads;
      the class [DecoderContract], which states what a decoder promises the code that
      chains it: it never reads outside its data and its header is a nonempty part of
      the data, behind which the next context starts.  Ethernet, IPv4, UDP, TCP and
      DoIP are instances; the dispatcher's proofs use only the class for them.
    - Ethernet.v, Ipv4.v, Udp.v, Tcp.v, DoIP.v: the decoders of fixed headers.
      [decode_impl] is the decoder of the C++ class.  Each file states the wire format
      on its own as [encode_header] with [wf_header], and proves that the decoder is
      its inverse: it returns [h] if and only if the data is the layout of a
      well-formed [h] followed by the payload ([ethernet_decode_exact],
      [ipv4_decode_exact], [udp_decode_exact], [tcp_decode_exact],
      [doip_decode_exact]).  Ipv4.v and Tcp.v give the options grammar and prove the
      parsers exact, Ipv4.v and Udp.v what the checksum routines accept, DoIP.v that
      the payload parsers agree with the length checks of the decoder, and the round
      trips of the payloads.  Tcp.v also has the connection tracker (the state machine
      [next_state], [update_connection], the table and its expiry) and what a history
      of segments can do to a connection.
    - Ipv4Reassembly.v: protocols/ipv4_reassembler.cpp.  The cache by source,
      destination, protocol and identification; that a returned datagram is made of
      received fragments, that a complete one is returned in whatever order its
      fragments come, and that overlapping fragments block it.
    - SomeIp.v: protocols/someip.cpp.  The decoder as a function of the TP
      reassembler's state, the exact messages on which it overreads, and the
      reassembler: its invariant, reassembly in any order, completion and expiry.
    - SomeIpSd.v: protocols/someip_sd.cpp.  Entries and options, termination, the
      round trip with the message layout, and the 32-bit wrap of the entries length.
    - Gptp.v: protocols/gptp_decoder.cpp.  Header, bodies, the TLV array, the messages
      on which it overreads, and the peer delay on timestamps.
    - Rtps.v, Discovery.v: protocols/dds/rtps_decoder.cpp.  Submessage framing as the
      relation [tiles], bodies in both byte orders, the inline QoS overread, and the
      parameter lists of DDS discovery.
    - RtpsTypes.v: protocols/dds/rtps_types.hpp and the accessors of the RTPS headers: the
      orders of GUIDs and sequence numbers, exact differences of times, texts that identify
      their values, and which ports wrap, collide and are recognised.
    - Dispatcher.v: protocols/dispatcher.cpp.  The specification of a dispatch is
      [stack]: a list of layers in which each header is what its decoder returns on
      what the layers before it leave, and is announced by its predecessor.  The
      theorems show that [decode] and [decode_from_ip] refine it, where they can be
      undefined, that the packet filters are exact, which frames decode whole, and
      which options do nothing.
    - Uds.v, UdsTables.v: protocols/uds_decoder.cpp and the tables of
      protocols/uds/.  The decoder of UDS messages, with its errors, the types of its
      fields and the round trip; service and response-code tables; trouble codes.
    - UdsServices.v: protocols/uds/uds_services.hpp, the structures of the messages.  Their
      static members are classes whose laws ([RequestLaws], [ResponseLaws]) the decoder is
      shown to satisfy for every structure.
    - UdsSession.v: protocols/uds_session.cpp.  Security levels and lockout, the
      session of one ECU and the table of sessions.  [spec_step] is an abstract tracker
      that only knows the session type, the unlocked levels and the timing;
      [uds_session_refines] shows that the code implements it, notification by
      notification, and [uds_security_history] what must have happened before a level
      counts as unlocked.
    - Diagnostic.v: protocols/diagnostic/uds_doip_decoder.cpp, the composition of
      the DoIP and UDS decoders, and the types of the diagnostic components.
    - Correlator.v: protocols/diagnostic/request_correlator.cpp.  Queues of pending
      requests, matching in any order, timeouts, and the invariant of the counters.
    - Flash.v: protocols/diagnostic/flash_sequence.cpp.  The tracker of flash
      programming: its invariant, a complete transfer, isolation of the ECUs, and what
      repeated blocks and verifications do.
    - Dtc.v: protocols/diagnostic/dtc_manager.cpp.  Trouble codes with their limits.
      The order of the hash maps is a parameter.  The specification keeps the last
      reported status of each code; [dtc_manager_refines] shows that the manager
      implements it below its limits, [dtc_evicts_oldest] what happens at a limit, and
      [dtc_locks] on which calls the mutex is locked twice.
    - DiagnosticSession.v: protocols/diagnostic/diagnostic_session.cpp, which composes
      the DoIP and UDS decoders with the correlator.  The specification is an observer
      of the traffic as the combined decoder of Diagnostic.v sees it;
      [session_manager_refines] shows that the sessions are the observer's,
      [session_manager_events] which events can come and what they mean, and
      [diagnostic_exchange] all that a request and its response cause.
    - Timestamp.v: core/timestamp.hpp and protocols/common/timeout_manager.cpp.
    - Pcap.v: pcap/pcap_reader.cpp and pcap/pcap_writer.cpp, on a host of either byte
      order.  [records] is the relation between the bytes behind the file header and
      the packets they hold; the reader computes it ([pcap_reader_exact]) and returns
      what the writer wrote ([pcap_round_trip]).
    - Pcapng.v: pcap/pcapng_writer.cpp.  The specification is a capture, the list of
      blocks that a history of operations records, and [parse_file], a reader of the
      format written from its draft; [pcapng_file_exact] relates the three.
    - PacketView.v: net/packet_view.cpp, the accessors that read headers in place.
      [packet_view_exact] says what they return on any frame, [packet_view_agrees] that
      they agree with the chain of decoders.
    - Validation.v: protocols/validation.cpp, the validators of layering, lengths and
      checksums as a monad that collects or stops at errors.
    - Scenario.v: the expectations of scenario/scenario_types.hpp, count expressions and
      the packet matcher of scenario/runner.cpp, whose specification [meets] speaks of
      the layers that the dispatcher returns.
    - ScenarioRunner.v: the rest of scenario/runner.cpp.  Files, clocks, the stop flag,
      the capture session and the parser of scenarios are parameters.  A run on recorded
      captures needs no fuel ([offline_run_exact]); the loop on a live capture needs as
      much as there are clock readings until its deadline ([live_expect_ends]).
    - Replay.v: io/replay_session.cpp.  The specification of a replay is the list of
      frames of its passes ([passes]); [replay_exact] shows that the two loops send it,
      [replay_terminates] when they end, [replay_keeps_time] that the recorded timing is
      kept.  The fuel is the number of passes.
    - Generators.v: testing/generators.hpp, the builders of test packets and the random
      generator, over an engine of random numbers that is a parameter with the one law
      that draws are in range.  [yields] is the postcondition of a computation with the
      generator; built headers are compared with the decoders.
    - ScenarioDocument.v, JsonParser.v, YamlParser.v: scenario/json_parser.cpp and
      scenario/yaml_parser.cpp over documents that a library has parsed.  [scenario_tree]
      is the document of a scenario; [scenario_parsers_agree] shows that both parsers
      read it back, [duration_text_exact] and [hex_bytes_exact] what the texts mean.
    - World.v: the monad of functions on a world, [Result<T>], and the parameters that
      stand for the operating system and libpcap.
    - Capture.v: io/capture_session.cpp, reading packets.  The kernel that shares the
      ring is a step relation ([kernel_step]); [ring_v2_fifo] shows that ring and
      session implement a bounded queue, [ring_v3_block] that a block is returned
      whole, [ring_v3_search_ends] that the search for a block ends.
    - CaptureSetup.v: the rest of io/capture_session.cpp, with what a created session is
      ([capture_session_created], which gives the premises of [ring_v2_fifo] through
      [created_ring_starts]) and what its error paths do ([capture_create_errors]).
    - PcapCapture.v: io/pcap_capture_session.cpp.  Destructors are explicit, which shows
      that no session can be created ([pcap_sessions_undefined]); the capture loop,
      activation and filters are characterised for sessions as they were meant.
    - Devices.v: io/device.cpp and io/frame_filter.cpp.
    - Report.v, ReportReaders.v: scenario/report.cpp, the four generators as texts, and
      readers of the formats, written apart from the generators: a reader of JSON, one of
      TAP and one of XML attributes.  [json_report_reads_back] shows that every JSON
      report is read back as the results it was made of, [tap_verdict_of_run] when the
      tests of a TAP report tell the verdict of a scenario, [xml_attribute_exact] which
      texts survive in the XML report.
    - WadjetRun.v: tools/wadjet-run.cpp, the command line, the choice of scenario files
      and the exit code ([exit_code_exact]) on top of the runner and the reports.
    - PacketSource.v: core/packet_source.hpp, the interfaces of sources and sinks as
      classes with the PCAP reader and writer as instances.  [copied_file_reads_back]
      composes reader, writer and [copy_packets].
    - Matchers.v: testing/matchers.hpp.  [satisfies] is what a matcher asks of the decoded
      layers; [packet_matcher_exact] shows that the matchers compute it,
      [uds_matchers_exact] what the matchers of diagnostic messages accept,
      [vlan_id_exact] that the one that reads bytes agrees with the decoder.
    - LiveCapture.v: testing/live_capture_fixture.hpp.  The class [CaptureSession] is the
      capture session as the helpers for tests use it; [capture_loop] is the loop that all
      of them run on it until a deadline ([capture_loop_exact], [capture_loop_ends]: the
      fuel needed is the number of clock readings until the deadline).
    - RecordReplay.v, LiveAssert.v: testing/record_replay.hpp and testing/live_assert.hpp
      on that loop.  [has_sequence_exact] shows that the greedy search for a sequence of
      packets is complete, [record_n_matching_exact] what is recorded,
      [saved_stream_loads] that recordings survive their files; [run_for_exact] and
      [run_until_exact] say when live assertions pass and what they report.
    - DiagnosticMatchers.v: testing/diagnostic_matchers.hpp, over the pairs of Correlator.v
      and the sessions of DiagnosticSession.v.
    - CApi.v, CApiDecode.v: bindings/c/src/wadjet_c.cpp, the C interface over the files
      above.  The state is a heap of objects behind handles, the last error and the
      dispatcher that the process shares.
    - CApiHandles.v: the contract between the C interface and its callers.  The
      specification only knows which handles are alive and of which kind ([spec_step]);
      [api_handles_exact] shows that the interface refines it, call by call, and that
      every call that breaks the discipline is undefined.
    - CApiResults.v: what a C program gets for its buffers, addresses, headers and errors
      ([address_buffers], [header_of_exact], [udp_frame_through_interface]).

    ** What the theorems show

    Decoders: exact inverses of the wire formats, with their errors.  Memory safety:
    total, or undefined exactly on described inputs ([someip_overread],
    [gptp_overread], [rtps_overread], [sd_header_size_exact], [dispatcher_safe]); the
    diagnostic decoders are total ([uds_decode_exact], [uds_over_doip_exact]).
    Stateful parts: invariants over all histories ([reassembly_sound],
    [tcp_tracker_safety], [someip_tp_complete_at_once], [correlator_invariant],
    [flash_invariant]), correctness of their results ([reassembly_any_order],
    [someip_tp_reassembles], [correlator_any_order], [flash_transfer_completes]) and
    refinement of abstract specifications ([uds_session_refines],
    [dtc_manager_refines], [session_manager_refines], [pcapng_file_exact]).  Capture
    files are read back as they were written.  Live captures return what
    the kernel delivered, in order and once ([ring_v2_fifo]).  The verdicts of scenarios
    are those of their expectations ([matcher_exact], [offline_run_exact], [live_expect_exact]) and
    never vacuous ([run_passes_only_checked]), and the helpers for tests decide what their
    names say ([packet_matcher_exact], [run_for_exact]).  The C interface is safe for
    callers that keep its discipline, but for the named calls of [hazard]
    ([api_handles_exact]).  Deviations from the
    protocols or the documentation are stated as theorems about the code as it is.

    ** What is not modelled

    Most text output ([to_string] of headers, the explanations of matchers), the
    allocation of memory and the throwing of [std::bad_alloc], input and output (what the
    operating system does, files, threads), the libraries that parse JSON and YAML, the
    Python and Rust bindings, the examples, and the macros for tests.  Of the C interface,
    the functions that wadjet_c.h declares and no file defines; its callers are one thread.
    The stateful diagnostic components serialise their operations with
    a mutex, so their operations are modelled one at a time; callbacks are recorded,
    not run.  The capture files are byte lists: opening, flushing and failing streams
    are left out.  The
    parameters that stand for other code are classes of operations, with their documented
    behaviour in classes of laws ([KernelLaws], [RingLaws], [HandleLaws], [JsonLaws] and
    others), each of which has an instance. *)

From Stdlib Require Import ZArith Lia.
From Stdlib Require Import Strings.Byte.
From stdpp Require Import base numbers list gmap strings pretty.

#[global] Open Scope Z_scope.

(** ** Automation *)

(** [lia] decides goals with division and modulo by constants once they are
    rewritten to Euclidean equations. *)
Ltac Zify.zify_post_hook ::= Z.to_euclidean_division_equations.

Create HintDb wadjet.
Create Rewrite HintDb wadjet_rw.

(** Case analysis on the innermost scrutinee of the goal, remembering the equation. *)
Ltac case_step :=
  match goal with
  | |- context [match ?x with _ => _ end] =>
      lazymatch x with
      | context [match _ with _ => _ end] => fail
      | _ => destruct x eqn:?
      end
  end.

(** The same, in a hypothesis. *)
Ltac case_in H :=
  match type of H with
  | context [match ?x with _ => _ end] =>
      lazymatch x with
      | context [match _ with _ => _ end] => fail
      | _ => destruct x eqn:?
      end
  end.

(** Turns boolean comparisons of the context into propositions. *)
Ltac bool_to_prop :=
  repeat match goal with
  | H : (_ <=? _)%Z = true |- _ => apply Z.leb_le in H
  | H : (_ <=? _)%Z = false |- _ => apply Z.leb_gt in H
  | H : (_ <? _)%Z = true |- _ => apply Z.ltb_lt in H
  | H : (_ <? _)%Z = false |- _ => apply Z.ltb_ge in H
  | H : (_ =? _)%Z = true |- _ => apply Z.eqb_eq in H
  | H : (_ =? _)%Z = false |- _ => apply Z.eqb_neq in H
  | H : (_ && _)%bool = true |- _ => apply andb_prop in H; destruct H
  | H : (_ && _)%bool = false |- _ => apply andb_false_iff in H
  | H : (_ || _)%bool = true |- _ => apply orb_prop in H
  | H : (_ || _)%bool = false |- _ => apply orb_false_elim in H; destruct H
  | H : negb _ = true |- _ => apply negb_true_iff in H
  | H : negb _ = false |- _ => apply negb_false_iff in H
  end.

(** ** Results of C++ functions

    [Done a]: the function returns [a].  [Fail e]: it returns the error [e]
    ([make_error] and the other failure paths).  [Undef]: the execution reads
    or copies outside the bounds of an object, which C++ leaves undefined. *)
Inductive res (E A : Type) : Type :=
| Done (a : A)
| Fail (e : E)
| Undef.
Arguments Done {E A} a.
Arguments Fail {E A} e.
Arguments Undef {E A}.

#[global] Instance res_ret E : MRet (res E) := fun A a => Done a.
#[global] Instance res_bind E : MBind (res E) := fun A B k m =>
  match m with
  | Done a => k a
  | Fail e => Fail e
  | Undef => Undef
  end.

Definition defined {E A} (r : res E A) : Prop := r <> Undef.

Section res_lemmas.
Context {E A B : Type}.
Implicit Types (m : res E A) (k : A -> res E B).

Lemma bind_Done (a : A) k : (Done a ≫= k) = k a.
Proof. reflexivity. Qed.

Lemma bind_inv m k b : (m ≫= k) = Done b -> exists a, m = Done a /\ k a = Done b.
Proof. destruct m; cbn; [eauto | discriminate | discriminate]. Qed.

Lemma Done_inj (a a' : A) : Done (E:=E) a = Done a' -> a = a'.
Proof. intros [=]. assumption. Qed.

Lemma Done_pair_inj (a a' : A) (b b' : B) :
  Done (E:=E) (a, b) = Done (a', b') -> a = a' /\ b = b'.
Proof. intros [=]. split; assumption. Qed.

Lemma defined_Done (a : A) : defined (Done (E:=E) a).
Proof. discriminate. Qed.

Lemma defined_Fail e : defined (Fail (A:=A) (E:=E) e).
Proof. discriminate. Qed.

Lemma defined_bind m k :
  defined m -> (forall a, m = Done a -> defined (k a)) -> defined (m ≫= k).
Proof.
  intros Hm Hk. destruct m; cbn; [apply Hk; reflexivity | discriminate | contradiction].
Qed.

(** The computation returns a value. *)
Definition total (m : res E A) : Prop := exists a, m = Done a.

Lemma total_Done (a : A) : total (Done a).
Proof. exists a. reflexivity. Qed.

Lemma total_defined m : total m -> defined m.
Proof. intros [a ->]. discriminate. Qed.
End res_lemmas.

Lemma total_bind {E A B} (m : res E A) (k : A -> res E B) :
  total m -> (forall a, m = Done a -> total (k a)) -> total (m ≫= k).
Proof. intros [a ->] Hk. apply Hk. reflexivity. Qed.

#[export] Hint Rewrite @bind_Done : wadjet_rw.
#[export] Hint Resolve defined_Done defined_Fail : wadjet.

(** ** Bytes and machine integers *)

Abbreviation byte := Byte.byte.

#[export] Instance byte_eq_dec : EqDecision byte := Byte.byte_eq_dec.
#[export] Instance byte_countable : Countable byte.
Proof.
  refine (inj_countable Byte.to_N Byte.of_N _). intros b. apply Byte.of_to_N.
Defined.

(** [static_cast<std::uint8_t>(b)]. *)
Definition u8 (b : byte) : Z := Z.of_N (Byte.to_N b).

(** [static_cast<std::byte>(z)], which keeps the low eight bits. *)
Definition to_byte (z : Z) : byte :=
  match Byte.of_N (Z.to_N (z mod 256)) with Some b => b | None => x00 end.

(** Conversion to an unsigned integer type of [w] bits. *)
Definition uint (w z : Z) : Z := z mod 2 ^ w.

(** Range of an unsigned integer type of [w] bits. *)
Definition fits (w z : Z) : Prop := 0 <= z < 2 ^ w.

(** Conversion to a signed integer type of [w] bits. *)
Definition sint (w z : Z) : Z :=
  let u := uint w z in if u <? 2 ^ (w - 1) then u else u - 2 ^ w.

Definition fits_signed (w z : Z) : Prop := - 2 ^ (w - 1) <= z < 2 ^ (w - 1).

(** A signed 64-bit subtraction, whose overflow is undefined. *)
Definition sub64 {E} (a b : Z) : res E Z :=
  if (- 2 ^ 63 <=? a - b) && (a - b <? 2 ^ 63) then Done (a - b) else Undef.

(** [(w >> i) & 1] as a [bool]. *)
Definition bit (w i : Z) : bool := negb (Z.land (Z.shiftr w i) 1 =? 0).

Lemma u8_range b : 0 <= u8 b < 256.
Proof. unfold u8. pose proof (Byte.to_N_bounded b). lia. Qed.

Lemma u8_to_byte z : u8 (to_byte z) = z mod 256.
Proof.
  unfold to_byte, u8.
  destruct (Byte.of_N (Z.to_N (z mod 256))) as [b|] eqn:E.
  - apply Byte.to_of_N in E. rewrite E. rewrite Z2N.id; lia.
  - apply Byte.of_N_None_iff in E. lia.
Qed.

Lemma to_byte_u8 b : to_byte (u8 b) = b.
Proof.
  unfold to_byte. rewrite Z.mod_small by apply u8_range.
  unfold u8. rewrite N2Z.id, Byte.of_to_N. reflexivity.
Qed.

Lemma u8_inj a b : u8 a = u8 b -> a = b.
Proof. intros H. rewrite <- (to_byte_u8 a), <- (to_byte_u8 b), H. reflexivity. Qed.

Lemma uint_fits w z : 0 <= w -> fits w (uint w z).
Proof. intros. unfold uint, fits. apply Z.mod_pos_bound, Z.pow_pos_nonneg; lia. Qed.

Lemma uint_small w z : fits w z -> uint w z = z.
Proof. intros. apply Z.mod_small. assumption. Qed.

(** Intermediate wraps do not matter. *)
Lemma uint_add w a b : uint w (uint w a + b) = uint w (a + b).
Proof. unfold uint. apply Zplus_mod_idemp_l. Qed.

Lemma uint_step w a b : 0 <= w -> uint w (uint w (uint w a * 10) + b) = uint w (a * 10 + b).
Proof.
  intros Hw. unfold uint. rewrite Zplus_mod_idemp_l.
  rewrite <- Z.add_mod_idemp_l, Z.mul_mod_idemp_l, Z.add_mod_idemp_l; [reflexivity | lia ..].
Qed.

Lemma sint_uint w z : 0 < w -> fits_signed w z -> sint w (uint w z) = z.
Proof.
  intros Hw [Hlo Hhi]. unfold sint, uint. rewrite Z.mod_mod by (apply Z.pow_nonzero; lia).
  assert (Hp : 2 ^ w = 2 * 2 ^ (w - 1)).
  { rewrite <- Z.pow_succ_r by lia. f_equal. lia. }
  assert (H0 : 0 < 2 ^ (w - 1)) by (apply Z.pow_pos_nonneg; lia). rewrite Hp.
  destruct (Z.lt_ge_cases z 0).
  - rewrite <- (Z_mod_plus_full z 1), Z.mod_small by lia.
    rewrite (proj2 (Z.ltb_ge _ _)) by lia. lia.
  - rewrite Z.mod_small by lia. rewrite (proj2 (Z.ltb_lt _ _)) by lia. reflexivity.
Qed.

#[export] Hint Rewrite u8_to_byte to_byte_u8 : wadjet_rw.
#[export] Hint Resolve u8_range uint_fits : wadjet.

(** *** Bit operations as arithmetic *)

Lemma shiftr_div a n : 0 <= n -> Z.shiftr a n = a / 2 ^ n.
Proof. apply Z.shiftr_div_pow2. Qed.

Lemma land_mask a m n : 0 <= n -> m = Z.ones n -> Z.land a m = a mod 2 ^ n.
Proof. intros ? ->. apply Z.land_ones. assumption. Qed.

Lemma land_fits a m n : 0 <= n -> m = Z.ones n -> fits n (Z.land a m).
Proof. intros Hn Hm. rewrite (land_mask a m n Hn Hm). apply Z.mod_pos_bound. lia. Qed.

Lemma lor_shiftl_add a b n :
  0 <= n -> 0 <= b < 2 ^ n -> Z.lor (Z.shiftl a n) b = a * 2 ^ n + b.
Proof.
  intros Hn Hb. rewrite <- Z.shiftl_mul_pow2 by assumption.
  assert (Hd : Z.land (Z.shiftl a n) b = 0).
  { apply Z.bits_inj'. intros i Hi. rewrite Z.land_spec, Z.bits_0.
    destruct (Z.lt_ge_cases i n).
    - rewrite Z.shiftl_spec_low by assumption. reflexivity.
    - rewrite <- (Z.mod_small b (2 ^ n)) by assumption.
      rewrite Z.mod_pow2_bits_high by lia. apply andb_false_r. }
  rewrite <- Z.lxor_lor, Z.add_nocarry_lxor by assumption. reflexivity.
Qed.

(** Rewrites masks and shifts by literal amounts to [mod] and [/]. *)
Ltac bits_arith :=
  repeat match goal with
  | |- context [Z.shiftr ?a ?n] => rewrite (shiftr_div a n) by lia
  | |- context [Z.land ?a ?m] =>
      let n := eval vm_compute in (Z.log2 (m + 1)) in
      rewrite (land_mask a m n) by (first [lia | reflexivity])
  end;
  repeat match goal with
  | |- context [2 ^ ?n] => let v := eval vm_compute in (2 ^ n) in change (2 ^ n) with v
  end.

(** ** Lists *)

(** [Z]-valued length: [std::size_t] sizes of spans and vectors. *)
Abbreviation zlen l := (Z.of_nat (length l)).

Lemma drop_drop_Z {A} (l : list A) (m n : Z) :
  0 <= m -> 0 <= n ->
  drop (Z.to_nat m) (drop (Z.to_nat n) l) = drop (Z.to_nat (n + m)) l.
Proof. intros. rewrite drop_drop. f_equal. lia. Qed.

Lemma lookup_in_range {A} (l : list A) (i : Z) :
  0 <= i < zlen l -> exists x, l !! Z.to_nat i = Some x.
Proof. intros. apply lookup_lt_is_Some. lia. Qed.

(** Replaces a list of known literal length by its elements. *)
Ltac destruct_list l H :=
  match type of H with
  | length l = S _ =>
      let x := fresh "b" in let l' := fresh l in
      destruct l as [|x l']; [discriminate H|]; cbn [length] in H;
      apply eq_add_S in H; destruct_list l' H
  | length l = O => destruct l; [clear H | discriminate H]
  end.
