(* ===== verification/ByteOrder.v ===== *)
(** * Byte order (include/wadjet/core/byte_order.hpp)

    Reads and writes of 16, 32 and 64-bit integers in network (big-endian) and
    little-endian order.  A [const std::byte*] argument is the list of bytes
    from the pointer to the end of its object: a read that would pass that end
    is [None].  A write through [std::byte*] is the list of bytes it stores. *)

From Stdlib Require Import ZArith Lia.
From Stdlib Require Import Strings.Byte.
From stdpp Require Import base numbers list.
From S2P Require Import Prelude.

(** ** Reads *)

Definition read_be16 (data : list byte) : option Z :=
  match data with
  | d0 :: d1 :: _ => Some (Z.lor (Z.shiftl (u8 d0) 8) (u8 d1))
  | _ => None
  end.

Definition read_be32 (data : list byte) : option Z :=
  match data with
  | d0 :: d1 :: d2 :: d3 :: _ =>
      Some (Z.lor (Z.lor (Z.lor (Z.shiftl (u8 d0) 24) (Z.shiftl (u8 d1) 16))
                         (Z.shiftl (u8 d2) 8))
                  (u8 d3))
  | _ => None
  end.

Definition read_be64 (data : list byte) : option Z :=
  match read_be32 data, read_be32 (drop 4 data) with
  | Some hi, Some lo => Some (Z.lor (Z.shiftl hi 32) lo)
  | _, _ => None
  end.

Definition read_le16 (data : list byte) : option Z :=
  match data with
  | d0 :: d1 :: _ => Some (Z.lor (u8 d0) (Z.shiftl (u8 d1) 8))
  | _ => None
  end.

Definition read_le32 (data : list byte) : option Z :=
  match data with
  | d0 :: d1 :: d2 :: d3 :: _ =>
      Some (Z.lor (Z.lor (Z.lor (u8 d0) (Z.shiftl (u8 d1) 8)) (Z.shiftl (u8 d2) 16))
                  (Z.shiftl (u8 d3) 24))
  | _ => None
  end.

(** ** Writes *)

Definition write_be16 (value : Z) : list byte :=
  [to_byte (Z.shiftr value 8); to_byte (Z.land value 255)].

Definition write_be32 (value : Z) : list byte :=
  [to_byte (Z.shiftr value 24); to_byte (Z.land (Z.shiftr value 16) 255);
   to_byte (Z.land (Z.shiftr value 8) 255); to_byte (Z.land value 255)].

Definition write_be64 (value : Z) : list byte :=
  write_be32 (uint 32 (Z.shiftr value 32)) ++ write_be32 (Z.land value 4294967295).

Definition write_le16 (value : Z) : list byte :=
  [to_byte (Z.land value 255); to_byte (Z.shiftr value 8)].

Definition write_le32 (value : Z) : list byte :=
  [to_byte (Z.land value 255); to_byte (Z.land (Z.shiftr value 8) 255);
   to_byte (Z.land (Z.shiftr value 16) 255); to_byte (Z.shiftr value 24)].

(** ** The value of a big-endian read, as arithmetic *)

Definition be16 (b0 b1 : byte) : Z := u8 b0 * 256 + u8 b1.
Definition be32 (b0 b1 b2 b3 : byte) : Z :=
  u8 b0 * 16777216 + u8 b1 * 65536 + u8 b2 * 256 + u8 b3.

(** Replaces [u8 b] by a bounded integer variable, so that [lia] sees no bytes. *)
Ltac byte_ranges :=
  repeat match goal with
  | |- context [u8 ?b] =>
      let x := fresh "x" in
      pose proof (u8_range b); set (x := u8 b) in *; clearbody x
  | H : context [u8 ?b] |- _ =>
      let x := fresh "x" in
      pose proof (u8_range b); set (x := u8 b) in *; clearbody x
  end.

Lemma shiftl_mul_k a n k : k = 2 ^ n -> 0 <= n -> Z.shiftl a n = a * k.
Proof. intros -> Hn. apply Z.shiftl_mul_pow2. assumption. Qed.

Lemma be16_lor b0 b1 : Z.lor (Z.shiftl (u8 b0) 8) (u8 b1) = be16 b0 b1.
Proof. rewrite lor_shiftl_add; [reflexivity | lia | apply u8_range]. Qed.

Lemma be32_lor b0 b1 b2 b3 :
  Z.lor (Z.lor (Z.lor (Z.shiftl (u8 b0) 24) (Z.shiftl (u8 b1) 16)) (Z.shiftl (u8 b2) 8)) (u8 b3)
  = be32 b0 b1 b2 b3.
Proof.
  replace (Z.shiftl (u8 b0) 24) with (Z.shiftl (Z.shiftl (Z.shiftl (u8 b0) 8) 8) 8)
    by (rewrite !Z.shiftl_shiftl by lia; reflexivity).
  replace (Z.shiftl (u8 b1) 16) with (Z.shiftl (Z.shiftl (u8 b1) 8) 8)
    by (rewrite !Z.shiftl_shiftl by lia; reflexivity).
  rewrite <- !Z.shiftl_lor, !lor_shiftl_add by (try lia; apply u8_range).
  unfold be32. lia.
Qed.

Lemma read_be16_cons b0 b1 l : read_be16 (b0 :: b1 :: l) = Some (be16 b0 b1).
Proof. cbn [read_be16]. rewrite be16_lor. reflexivity. Qed.

Lemma read_be32_cons b0 b1 b2 b3 l :
  read_be32 (b0 :: b1 :: b2 :: b3 :: l) = Some (be32 b0 b1 b2 b3).
Proof. cbn [read_be32]. rewrite be32_lor. reflexivity. Qed.

Lemma read_le16_swap b0 b1 l : read_le16 (b0 :: b1 :: l) = Some (be16 b1 b0).
Proof. cbn [read_le16]. rewrite Z.lor_comm, be16_lor. reflexivity. Qed.

Lemma read_le32_swap b0 b1 b2 b3 l :
  read_le32 (b0 :: b1 :: b2 :: b3 :: l) = Some (be32 b3 b2 b1 b0).
Proof.
  cbn [read_le32]. rewrite <- be32_lor. f_equal.
  rewrite <- !Z.lor_assoc.
  rewrite (Z.lor_comm (u8 b0)), <- !Z.lor_assoc.
  rewrite (Z.lor_comm (Z.shiftl (u8 b1) 8)), <- !Z.lor_assoc.
  rewrite (Z.lor_comm (Z.shiftl (u8 b2) 16)), <- !Z.lor_assoc.
  f_equal. rewrite (Z.lor_comm (u8 b0)), !Z.lor_assoc. f_equal. apply Z.lor_comm.
Qed.

Lemma be16_fits b0 b1 : fits 16 (be16 b0 b1).
Proof. unfold fits, be16. byte_ranges. lia. Qed.

Lemma be32_fits b0 b1 b2 b3 : fits 32 (be32 b0 b1 b2 b3).
Proof. unfold fits, be32. byte_ranges. lia. Qed.

#[export] Hint Resolve be16_fits be32_fits : wadjet.

(** A read succeeds exactly when the object is long enough, and its value fits
    the type it has. *)
Lemma read_be16_some data : 2 <= zlen data -> exists v, read_be16 data = Some v /\ fits 16 v.
Proof.
  destruct data as [|b0 [|b1 l]]; cbn [length]; try lia. intros _.
  rewrite read_be16_cons. eauto with wadjet.
Qed.

Lemma read_be32_some data : 4 <= zlen data -> exists v, read_be32 data = Some v /\ fits 32 v.
Proof.
  destruct data as [|b0 [|b1 [|b2 [|b3 l]]]]; cbn [length]; try lia. intros _.
  rewrite read_be32_cons. eauto with wadjet.
Qed.

(** ** Round trips *)

Lemma read_write_be16 v l : fits 16 v -> read_be16 (write_be16 v ++ l) = Some v.
Proof.
  intros Hv. unfold write_be16. cbn [app]. rewrite read_be16_cons. unfold be16.
  rewrite !u8_to_byte. bits_arith. unfold fits in Hv. f_equal. lia.
Qed.

Lemma read_write_be32 v l : fits 32 v -> read_be32 (write_be32 v ++ l) = Some v.
Proof.
  intros Hv. unfold write_be32. cbn [app]. rewrite read_be32_cons. unfold be32.
  rewrite !u8_to_byte. bits_arith. unfold fits in Hv. f_equal. lia.
Qed.

Lemma read_write_be64 v l : fits 64 v -> read_be64 (write_be64 v ++ l) = Some v.
Proof.
  intros Hv. unfold read_be64, write_be64. rewrite <- app_assoc.
  change (drop 4 (write_be32 (uint 32 (Z.shiftr v 32)) ++ write_be32 (Z.land v 4294967295) ++ l))
    with (write_be32 (Z.land v 4294967295) ++ l).
  assert (Hlo : fits 32 (Z.land v 4294967295)).
  { bits_arith. unfold fits. lia. }
  rewrite !read_write_be32 by (first [assumption | apply uint_fits; lia]).
  rewrite lor_shiftl_add by (first [lia | exact Hlo]).
  rewrite uint_small by (bits_arith; unfold fits in *; lia).
  bits_arith. unfold fits in Hv. f_equal. lia.
Qed.

Lemma read_write_le16 v l : fits 16 v -> read_le16 (write_le16 v ++ l) = Some v.
Proof.
  intros Hv. unfold write_le16. cbn [app]. rewrite read_le16_swap. unfold be16.
  rewrite !u8_to_byte. bits_arith. unfold fits in Hv. f_equal. lia.
Qed.

Lemma read_write_le32 v l : fits 32 v -> read_le32 (write_le32 v ++ l) = Some v.
Proof.
  intros Hv. unfold write_le32. cbn [app]. rewrite read_le32_swap. unfold be32.
  rewrite !u8_to_byte. bits_arith. unfold fits in Hv. f_equal. lia.
Qed.

Lemma write_be16_be16 b0 b1 : write_be16 (be16 b0 b1) = [b0; b1].
Proof.
  unfold write_be16, be16. f_equal; [|f_equal]; apply u8_inj; rewrite u8_to_byte; bits_arith;
    byte_ranges; lia.
Qed.

Lemma write_be32_be32 b0 b1 b2 b3 : write_be32 (be32 b0 b1 b2 b3) = [b0; b1; b2; b3].
Proof.
  unfold write_be32, be32. repeat (apply f_equal2; [|]); try reflexivity; apply u8_inj;
    rewrite u8_to_byte; bits_arith; byte_ranges; lia.
Qed.

(** Every integer written in either byte order, at each width the header
    provides, is read back unchanged, whatever follows it in the buffer. *)
Theorem byte_order_round_trip v16 v32 v64 l :
  fits 16 v16 -> fits 32 v32 -> fits 64 v64 ->
  read_be16 (write_be16 v16 ++ l) = Some v16 /\ read_le16 (write_le16 v16 ++ l) = Some v16 /\
  read_be32 (write_be32 v32 ++ l) = Some v32 /\ read_le32 (write_le32 v32 ++ l) = Some v32 /\
  read_be64 (write_be64 v64 ++ l) = Some v64.
Proof.
  intros. split_and!;
    auto using read_write_be16, read_write_be32, read_write_be64, read_write_le16, read_write_le32.
Qed.

Lemma byte_order_round_trip_witness :
  let l := [x01; x02] in
  read_be16 (write_be16 0x1234 ++ l) = Some 0x1234 /\ read_le16 (write_le16 0x1234 ++ l) = Some 0x1234 /\
  read_be32 (write_be32 0xDEADBEEF ++ l) = Some 0xDEADBEEF /\
  read_le32 (write_le32 0xDEADBEEF ++ l) = Some 0xDEADBEEF /\
  read_be64 (write_be64 0x0123456789ABCDEF ++ l) = Some 0x0123456789ABCDEF.
Proof.
  intros l. apply byte_order_round_trip; vm_compute; split; first [discriminate | reflexivity].
Defined.
