(* ===== verification/Address.v ===== *)
(** * Network addresses (include/wadjet/core/address.hpp, types.hpp)

    [AddressBase<Derived, N>] stores [N] bytes; it is modelled by the list of
    those bytes, and a [std::string] by the list of its characters.  The parse
    helpers write into the storage while they read, so a parse that returns
    false leaves the bytes it has already stored: they return the storage along
    with the result, as [from_string] ignores the result. *)

From Stdlib Require Import ZArith Lia.
From Stdlib Require Import Strings.Byte.
From stdpp Require Import base numbers list strings pretty.
From S2P Require Import Prelude ByteOrder.

Arguments u8 b%_byte_scope.

(** [AddressBase::is_zero]. *)
Definition is_zero (bytes : list byte) : bool := forallb (fun b => u8 b =? 0) bytes.

(** ** Parsing and formatting in base 16 *)

(** The classification of a character in the loop of [parse_hex_with_delimiter]. *)
Definition hex_nibble (c : byte) : option Z :=
  let v := u8 c in
  if (u8 "0" <=? v) && (v <=? u8 "9") then Some (v - u8 "0")
  else if (u8 "a" <=? v) && (v <=? u8 "f") then Some (v - u8 "a" + 10)
  else if (u8 "A" <=? v) && (v <=? u8 "F") then Some (v - u8 "A" + 10)
  else None.

(** The inner loop: [k] digits of one byte.  The string cannot run out, since
    its size was checked before the loop. *)
Fixpoint parse_hex_digits (k : nat) (str : list byte) (value : Z) : option (Z * list byte) :=
  match k with
  | O => Some (value, str)
  | S k' =>
      match str with
      | [] => None
      | c :: rest =>
          match hex_nibble c with
          | Some nibble => parse_hex_digits k' rest (uint 8 (Z.lor (Z.shiftl value 4) nibble))
          | None => None
          end
      end
  end.

(** The outer loop, with [todo] bytes still to parse into [out] from index [byte_idx]. *)
Fixpoint parse_hex_loop (todo byte_idx : nat) (str out : list byte) (delimiter : byte)
    (chars_per_byte : nat) : bool * list byte :=
  match todo with
  | O => (true, out)
  | S todo' =>
      match parse_hex_digits chars_per_byte str 0 with
      | None => (false, out)
      | Some (value, rest) =>
          let out := <[byte_idx := to_byte value]> out in
          match todo' with
          | O => (true, out)
          | S _ =>
              match rest with
              | [] => (false, out)
              | d :: rest' =>
                  if decide (d = delimiter)
                  then parse_hex_loop todo' (S byte_idx) rest' out delimiter chars_per_byte
                  else (false, out)
              end
          end
      end
  end.

Definition parse_hex_with_delimiter (N : nat) (str out : list byte) (delimiter : byte)
    (chars_per_byte : nat) : bool * list byte :=
  let expected_len := (N * chars_per_byte + (N - 1))%nat in
  if decide (length str = expected_len)
  then parse_hex_loop N 0 str out delimiter chars_per_byte
  else (false, out).

(** [hex[i]] for the two digit tables. *)
Definition hex_digit (lowercase : bool) (i : Z) : byte :=
  if i <? 10 then to_byte (u8 "0" + i)
  else to_byte ((if lowercase then u8 "a" else u8 "A") + (i - 10)).

Fixpoint format_hex (data : list byte) (delimiter : byte) (lowercase : bool) : list byte :=
  match data with
  | [] => []
  | b :: data' =>
      hex_digit lowercase (Z.land (Z.shiftr (u8 b) 4) 15) ::
      hex_digit lowercase (Z.land (u8 b) 15) ::
      match data' with
      | [] => []
      | _ :: _ => delimiter :: format_hex data' delimiter lowercase
      end
  end.

(** ** Parsing and formatting in base 10 *)

(** The digits of one segment, [None] where the code returns false. *)
Fixpoint parse_decimal_digits (seg : list byte) (value : Z) : option Z :=
  match seg with
  | [] => Some value
  | c :: seg' =>
      if (u8 c <? u8 "0") || (u8 "9" <? u8 c) then None
      else
        let value := uint 32 (value * 10 + (u8 c - u8 "0")) in
        if 255 <? value then None else parse_decimal_digits seg' value
  end.

(** The end of a segment: an empty one is refused. *)
Definition decimal_segment (seg : list byte) : option Z :=
  match seg with
  | [] => None
  | _ :: _ => parse_decimal_digits seg 0
  end.

(** The loop over the characters; [seg] is the segment from [start] to [i].
    The loop stops as soon as [N] bytes are stored. *)
Fixpoint parse_decimal_loop (N byte_idx : nat) (seg str out : list byte) (delimiter : byte)
    : bool * list byte :=
  if decide (byte_idx < N)%nat then
    match str with
    | [] =>
        match decimal_segment seg with
        | None => (false, out)
        | Some value => (bool_decide (S byte_idx = N), <[byte_idx := to_byte value]> out)
        end
    | c :: str' =>
        if decide (c = delimiter) then
          match decimal_segment seg with
          | None => (false, out)
          | Some value =>
              parse_decimal_loop N (S byte_idx) [] str' (<[byte_idx := to_byte value]> out) delimiter
          end
        else parse_decimal_loop N byte_idx (seg ++ [c]) str' out delimiter
    end
  else (bool_decide (byte_idx = N), out).

Definition parse_decimal_with_delimiter (N : nat) (str out : list byte) (delimiter : byte)
    : bool * list byte := parse_decimal_loop N 0 [] str out delimiter.

(** [std::to_string] of an unsigned integer. *)
Definition std_to_string (z : Z) : list byte := String.list_byte_of_string (pretty z).

Fixpoint format_decimal (data : list byte) (delimiter : byte) : list byte :=
  match data with
  | [] => []
  | b :: data' =>
      std_to_string (u8 b) ++
      match data' with
      | [] => []
      | _ :: _ => delimiter :: format_decimal data' delimiter
      end
  end.

(** ** MAC addresses *)

Definition MacAddress_zero : list byte := replicate 6 x00.

Definition MacAddress_from_string (str : list byte) : list byte :=
  (parse_hex_with_delimiter 6 str MacAddress_zero ":"%byte 2).2.

Definition MacAddress_to_string (bytes : list byte) : list byte :=
  format_hex bytes ":"%byte true.

(** [bytes[i]] of an address; the index is below the address size. *)
Definition octet (bytes : list byte) (i : nat) : Z := u8 (nth i bytes x00).

Definition MacAddress_is_broadcast (a : list byte) : bool :=
  (octet a 0 =? 255) && (octet a 1 =? 255) && (octet a 2 =? 255) &&
  (octet a 3 =? 255) && (octet a 4 =? 255) && (octet a 5 =? 255).

Definition MacAddress_is_multicast (a : list byte) : bool := negb (Z.land (octet a 0) 1 =? 0).
Definition MacAddress_is_local (a : list byte) : bool := negb (Z.land (octet a 0) 2 =? 0).

Definition MacAddress_oui (a : list byte) : Z :=
  Z.lor (Z.lor (Z.shiftl (octet a 0) 16) (Z.shiftl (octet a 1) 8)) (octet a 2).

(** ** IPv4 addresses *)

Definition IPv4Address_zero : list byte := replicate 4 x00.

Definition IPv4Address_from_uint32 (value : Z) : list byte :=
  [to_byte (Z.land (Z.shiftr value 24) 255); to_byte (Z.land (Z.shiftr value 16) 255);
   to_byte (Z.land (Z.shiftr value 8) 255); to_byte (Z.land value 255)].

Definition IPv4Address_from_string (str : list byte) : list byte :=
  (parse_decimal_with_delimiter 4 str IPv4Address_zero "."%byte).2.

Definition IPv4Address_to_string (bytes : list byte) : list byte :=
  format_decimal bytes "."%byte.

Definition IPv4Address_to_uint32 (a : list byte) : Z :=
  Z.lor (Z.lor (Z.lor (Z.shiftl (octet a 0) 24) (Z.shiftl (octet a 1) 16))
               (Z.shiftl (octet a 2) 8))
        (octet a 3).

Definition IPv4Address_is_loopback (a : list byte) : bool := octet a 0 =? 127.
Definition IPv4Address_is_broadcast (a : list byte) : bool :=
  (octet a 0 =? 255) && (octet a 1 =? 255) && (octet a 2 =? 255) && (octet a 3 =? 255).
Definition IPv4Address_is_multicast (a : list byte) : bool := Z.land (octet a 0) 240 =? 224.
Definition IPv4Address_is_private (a : list byte) : bool :=
  if octet a 0 =? 10 then true
  else if (octet a 0 =? 172) && (Z.land (octet a 1) 240 =? 16) then true
  else (octet a 0 =? 192) && (octet a 1 =? 168).

(** [~0U << (32 - prefix_len)] on 32 bits. *)
Definition subnet_mask (prefix_len : Z) : Z :=
  if prefix_len =? 0 then 0 else uint 32 (Z.shiftl 4294967295 (32 - prefix_len)).

Definition IPv4Address_is_in_subnet (a network : list byte) (prefix_len : Z) : bool :=
  if 32 <? prefix_len then false
  else Z.land (IPv4Address_to_uint32 a) (subnet_mask prefix_len) =?
       Z.land (IPv4Address_to_uint32 network) (subnet_mask prefix_len).

(** ** Round trips of the textual forms *)

Section hex.
Context (delimiter : byte) (lowercase : bool).

Lemma parse_hex_digits_byte b rest :
  parse_hex_digits 2
    (hex_digit lowercase (Z.land (Z.shiftr (u8 b) 4) 15) ::
     hex_digit lowercase (Z.land (u8 b) 15) :: rest) 0
  = Some (u8 b, rest).
Proof. destruct lowercase, b; reflexivity. Qed.

Lemma length_format_hex data :
  length (format_hex data delimiter lowercase) = (length data * 2 + (length data - 1))%nat.
Proof.
  induction data as [|b [|b' data] IH]; [reflexivity | reflexivity |].
  change (format_hex (b :: b' :: data) delimiter lowercase) with
    (hex_digit lowercase (Z.land (Z.shiftr (u8 b) 4) 15) ::
     hex_digit lowercase (Z.land (u8 b) 15) :: delimiter ::
     format_hex (b' :: data) delimiter lowercase).
  cbn [length] in *. lia.
Qed.

Lemma parse_hex_loop_format data pre post :
  length post = length data ->
  parse_hex_loop (length data) (length pre) (format_hex data delimiter lowercase)
    (pre ++ post) delimiter 2 = (true, pre ++ data).
Proof.
  revert pre post. induction data as [|b data IH]; intros pre [|p post] Hlen; try discriminate.
  { reflexivity. }
  cbn [length parse_hex_loop].
  assert (Hrest : exists rest, format_hex (b :: data) delimiter lowercase =
    hex_digit lowercase (Z.land (Z.shiftr (u8 b) 4) 15) ::
    hex_digit lowercase (Z.land (u8 b) 15) :: rest /\ rest = match data with [] => [] | _ :: _ => delimiter :: format_hex data delimiter lowercase end)
    by (eexists; split; reflexivity).
  destruct Hrest as (rest & -> & ->).
  rewrite parse_hex_digits_byte, to_byte_u8.
  rewrite insert_app_r_alt, Nat.sub_diag by lia. cbn [list_insert insert].
  specialize (IH (pre ++ [b]) post).
  rewrite <- !app_assoc, length_app, Nat.add_1_r in IH. cbn [app] in IH.
  destruct data as [|b' data].
  - destruct post; [reflexivity | discriminate].
  - cbn [length]. rewrite decide_True by reflexivity.
    apply IH. cbn [length] in *. lia.
Qed.

(** Parsing inverts formatting, for any address size, delimiter and letter case. *)
Lemma parse_format_hex data out :
  length out = length data ->
  parse_hex_with_delimiter (length data) (format_hex data delimiter lowercase) out delimiter 2
  = (true, data).
Proof.
  intros Hlen. unfold parse_hex_with_delimiter.
  rewrite decide_True by apply length_format_hex.
  apply (parse_hex_loop_format data [] out). assumption.
Qed.
End hex.

Section decimal.
Context (delimiter : byte).

Lemma decimal_segment_to_string b : decimal_segment (std_to_string (u8 b)) = Some (u8 b).
Proof. destruct b; vm_compute; reflexivity. Qed.

(** A segment is accumulated up to the next delimiter. *)
Lemma parse_decimal_loop_segment N idx s seg rest out :
  (idx < N)%nat -> Forall (fun c => c <> delimiter) s ->
  parse_decimal_loop N idx seg (s ++ rest) out delimiter =
  parse_decimal_loop N idx (seg ++ s) rest out delimiter.
Proof.
  intros Hidx Hs. revert seg.
  induction Hs as [|c s Hc Hs IH]; intros seg; cbn [app].
  - rewrite app_nil_r. reflexivity.
  - cbn [parse_decimal_loop]. rewrite decide_True, decide_False by assumption.
    rewrite IH, <- app_assoc. reflexivity.
Qed.

Context (Hdelim : forall b, Forall (fun c => c <> delimiter) (std_to_string (u8 b))).

(** The loop consumes a whole printed address; what follows its last segment
    is either the end of the string or a delimiter and anything after it. *)
Lemma parse_decimal_loop_format data tail pre post :
  data <> [] -> length post = length data ->
  (tail = [] \/ exists t, tail = delimiter :: t) ->
  parse_decimal_loop (length pre + length data) (length pre) []
    (format_decimal data delimiter ++ tail) (pre ++ post) delimiter = (true, pre ++ data).
Proof.
  revert pre post. induction data as [|b data IH]; intros pre post Hne Hlen Htail; [done|].
  destruct post as [|p post]; [discriminate|].
  cbn [format_decimal]. rewrite <- app_assoc, parse_decimal_loop_segment by (cbn; auto with lia).
  cbn [app].
  assert (Hins : <[length pre := to_byte (u8 b)]> (pre ++ p :: post) = (pre ++ [b]) ++ post).
  { rewrite insert_app_r_alt, Nat.sub_diag, to_byte_u8 by lia. rewrite <- app_assoc. reflexivity. }
  destruct data as [|b' data].
  - destruct post; [|discriminate]. rewrite app_nil_r in Hins.
    destruct Htail as [-> | [t ->]]; cbn [app length parse_decimal_loop].
    + rewrite decide_True by lia. rewrite decimal_segment_to_string, Hins.
      f_equal. apply bool_decide_eq_true. lia.
    + rewrite !decide_True by (reflexivity || lia). rewrite decimal_segment_to_string, Hins.
      destruct t; cbn [parse_decimal_loop]; rewrite decide_False by lia;
        f_equal; apply bool_decide_eq_true; lia.
  - specialize (IH (pre ++ [b]) post ltac:(discriminate)).
    rewrite length_app in IH. cbn [length app] in IH |- *.
    cbn [parse_decimal_loop]. rewrite !decide_True by (reflexivity || lia).
    rewrite decimal_segment_to_string, Hins.
    replace (length pre + S (S (length data)))%nat with (length pre + 1 + S (length data))%nat by lia.
    replace (S (length pre)) with (length pre + 1)%nat by lia.
    rewrite IH by (cbn [length] in *; auto with lia).
    rewrite <- app_assoc. reflexivity.
Qed.
End decimal.

Lemma dot_not_in_decimal b : Forall (fun c => c <> "."%byte) (std_to_string (u8 b)).
Proof. apply (bool_decide_unpack _). destruct b; vm_compute; exact I. Qed.

(** A printed MAC address parses back to itself, in lower case as [to_string] prints it. *)
Lemma MacAddress_round_trip a :
  length a = 6%nat -> MacAddress_from_string (MacAddress_to_string a) = a.
Proof.
  intros Ha. unfold MacAddress_from_string, MacAddress_to_string.
  rewrite <- Ha, parse_format_hex by (rewrite Ha; reflexivity). reflexivity.
Qed.

Lemma IPv4Address_parse_prefix a tail :
  length a = 4%nat -> (tail = [] \/ exists t, tail = "."%byte :: t) ->
  parse_decimal_with_delimiter 4 (IPv4Address_to_string a ++ tail) IPv4Address_zero "."%byte
  = (true, a).
Proof.
  intros Ha Ht. unfold parse_decimal_with_delimiter, IPv4Address_to_string.
  pose proof (parse_decimal_loop_format "."%byte dot_not_in_decimal a tail [] IPv4Address_zero) as H.
  rewrite Ha in H. apply H; auto. intros ->. discriminate.
Qed.

(** The textual forms of addresses round trip: every MAC address and every
    IPv4 address printed by [to_string] is parsed back to the same bytes by
    [from_string]; for MAC addresses the parse also accepts the upper-case form. *)
Theorem address_text_round_trip (mac ip : list byte) :
  length mac = 6%nat -> length ip = 4%nat ->
  MacAddress_from_string (MacAddress_to_string mac) = mac /\
  MacAddress_from_string (format_hex mac ":"%byte false) = mac /\
  IPv4Address_from_string (IPv4Address_to_string ip) = ip.
Proof.
  intros Hmac Hip. split_and!.
  - apply MacAddress_round_trip. assumption.
  - unfold MacAddress_from_string.
    rewrite <- Hmac, parse_format_hex by (rewrite Hmac; reflexivity). reflexivity.
  - unfold IPv4Address_from_string.
    rewrite <- (app_nil_r (IPv4Address_to_string ip)), IPv4Address_parse_prefix by auto.
    reflexivity.
Qed.

Lemma address_text_round_trip_witness :
  MacAddress_from_string (MacAddress_to_string [x02; xab; x00; x10; xff; x7e])
    = [x02; xab; x00; x10; xff; x7e] /\
  MacAddress_from_string (format_hex [x02; xab; x00; x10; xff; x7e] ":"%byte false)
    = [x02; xab; x00; x10; xff; x7e] /\
  IPv4Address_from_string (IPv4Address_to_string [xc0; xa8; x01; xfe]) = [xc0; xa8; x01; xfe].
Proof.
  apply (address_text_round_trip [x02; xab; x00; x10; xff; x7e] [xc0; xa8; x01; xfe]);
    reflexivity.
Defined.

(** [parse_decimal_with_delimiter] stops at the fourth segment: it returns
    true on an address followed by a dot and any text at all, so [from_string]
    reads ["192.168.0.1.garbage"] as the address 192.168.0.1. *)
Theorem ipv4_parse_accepts_trailing_text (ip text : list byte) :
  length ip = 4%nat ->
  parse_decimal_with_delimiter 4 (IPv4Address_to_string ip ++ "."%byte :: text)
    IPv4Address_zero "."%byte = (true, ip).
Proof. intros Hip. apply IPv4Address_parse_prefix; eauto. Qed.

Lemma ipv4_parse_accepts_trailing_text_witness :
  parse_decimal_with_delimiter 4 (IPv4Address_to_string [xc0; xa8; x00; x01] ++ ["."; "x"]%byte)
    IPv4Address_zero "."%byte = (true, [xc0; xa8; x00; x01]).
Proof. apply (ipv4_parse_accepts_trailing_text [xc0; xa8; x00; x01]). reflexivity. Defined.

(** ** Addresses as 32-bit integers *)

Lemma IPv4Address_to_uint32_be32 b0 b1 b2 b3 :
  IPv4Address_to_uint32 [b0; b1; b2; b3] = be32 b0 b1 b2 b3.
Proof. unfold IPv4Address_to_uint32, octet. cbn [nth]. apply be32_lor. Qed.

Lemma list_eq_4 {A} (a b c d a' b' c' d' : A) :
  a = a' -> b = b' -> c = c' -> d = d' -> [a; b; c; d] = [a'; b'; c'; d'].
Proof. intros; subst; reflexivity. Qed.

Lemma IPv4Address_uint32_round_trip a :
  length a = 4%nat ->
  fits 32 (IPv4Address_to_uint32 a) /\ IPv4Address_from_uint32 (IPv4Address_to_uint32 a) = a.
Proof.
  destruct a as [|b0 [|b1 [|b2 [|b3 [|]]]]]; try discriminate. intros _.
  rewrite IPv4Address_to_uint32_be32. split; [apply be32_fits|].
  unfold IPv4Address_from_uint32.
  apply list_eq_4; apply u8_inj; rewrite !u8_to_byte; unfold be32; bits_arith; byte_ranges; lia.
Qed.

Lemma subnet_mask_testbit p i :
  0 <= p <= 32 -> 0 <= i ->
  Z.testbit (subnet_mask p) i = (32 - p <=? i) && (i <? 32).
Proof.
  intros Hp Hi. unfold subnet_mask. destruct (Z.eqb_spec p 0) as [->|Hne].
  - rewrite Z.bits_0. symmetry. apply andb_false_iff.
    destruct (Z.leb_spec (32 - 0) i); [right | left; reflexivity]. apply Z.ltb_ge. lia.
  - unfold uint. destruct (Z.ltb_spec i 32).
    + rewrite Z.mod_pow2_bits_low, andb_true_r by lia.
      destruct (Z.leb_spec (32 - p) i).
      * rewrite Z.shiftl_spec by lia. change 4294967295 with (Z.ones 32).
        apply Z.ones_spec_low. lia.
      * apply Z.shiftl_spec_low. lia.
    + rewrite Z.mod_pow2_bits_high, andb_false_r by lia. reflexivity.
Qed.

(** Masking keeps the top [p] bits. *)
Lemma land_subnet_mask x p :
  fits 32 x -> 0 <= p <= 32 ->
  Z.land x (subnet_mask p) = Z.shiftl (Z.shiftr x (32 - p)) (32 - p).
Proof.
  intros Hx Hp. apply Z.bits_inj'. intros i Hi.
  rewrite Z.land_spec, subnet_mask_testbit by assumption.
  destruct (Z.leb_spec (32 - p) i).
  - rewrite Z.shiftl_spec, Z.shiftr_spec by lia. replace (i - (32 - p) + (32 - p)) with i by lia.
    destruct (Z.ltb_spec i 32); [apply andb_true_r|].
    rewrite andb_false_r. rewrite <- (Z.mod_small x (2 ^ 32)) by assumption.
    rewrite Z.mod_pow2_bits_high by lia. reflexivity.
  - rewrite Z.shiftl_spec_low by lia. apply andb_false_r.
Qed.

(** [is_in_subnet] decides CIDR membership on every prefix length from 0 to
    32: two addresses match exactly when their first [prefix_len] bits agree,
    and a longer prefix never matches. *)
Theorem subnet_membership (a network : list byte) (prefix_len : Z) :
  length a = 4%nat -> length network = 4%nat -> 0 <= prefix_len ->
  IPv4Address_is_in_subnet a network prefix_len = true <->
  prefix_len <= 32 /\
  IPv4Address_to_uint32 a / 2 ^ (32 - prefix_len) =
  IPv4Address_to_uint32 network / 2 ^ (32 - prefix_len).
Proof.
  intros Ha Hn Hp. unfold IPv4Address_is_in_subnet.
  destruct (Z.ltb_spec 32 prefix_len); [split; [discriminate | lia]|].
  destruct (IPv4Address_uint32_round_trip a Ha) as [Hfa _].
  destruct (IPv4Address_uint32_round_trip network Hn) as [Hfn _].
  rewrite Z.eqb_eq, !land_subnet_mask, <- !Z.shiftr_div_pow2 by (assumption || lia).
  split; [intros Heq; split; [lia|] | intros [_ ->]; reflexivity].
  rewrite !Z.shiftl_mul_pow2 in Heq by lia.
  apply Z.mul_cancel_r in Heq; [assumption|]. apply Z.pow_nonzero; lia.
Qed.

Lemma subnet_membership_witness :
  IPv4Address_is_in_subnet [x0a; x01; x02; x03] [x0a; x01; xff; x00] 16 = true <->
  16 <= 32 /\
  IPv4Address_to_uint32 [x0a; x01; x02; x03] / 2 ^ (32 - 16) =
  IPv4Address_to_uint32 [x0a; x01; xff; x00] / 2 ^ (32 - 16).
Proof. apply subnet_membership; [reflexivity | reflexivity | lia]. Defined.
