(* ===== verification/Checksum.v ===== *)
(** * Internet checksums (src/protocols/common/checksum.cpp)

    [Checksum::ipv4_checksum] and [Checksum::transport_checksum], with the
    32-bit accumulator and its carry folding, and the arithmetic modulo 65535
    that explains them. *)

From Stdlib Require Import ZArith Lia.
From Stdlib Require Import Strings.Byte.
From stdpp Require Import base numbers list.
From S2P Require Import Prelude ByteOrder.

(** [while (sum >> 16) sum = (sum & 0xFFFF) + (sum >> 16);].  [None]: the fuel
    ran out, which three iterations exclude ([fold_carries_total]). *)
Fixpoint fold_carries (fuel : nat) (sum : Z) : option Z :=
  if Z.shiftr sum 16 =? 0 then Some sum
  else match fuel with
       | O => None
       | S fuel' => fold_carries fuel' (uint 32 (Z.land sum 65535 + Z.shiftr sum 16))
       end.

(** The fold and the final [~static_cast<std::uint16_t>(sum)]. *)
Definition complement_fold (sum : Z) : Z :=
  match fold_carries 3 sum with
  | Some s => uint 16 (Z.lnot (uint 16 s))
  | None => 0
  end.

(** [static_cast<std::uint16_t>(static_cast<std::uint16_t>(b) << 8)]. *)
Definition high_byte (b : byte) : Z := uint 16 (Z.shiftl (u8 b) 8).

(** The loop of [ipv4_checksum] from index [i], which skips the word at index 10. *)
Fixpoint sum_words_skip (i : Z) (buf : list byte) (sum : Z) : Z :=
  match buf with
  | [] => sum
  | [b] => if i =? 10 then sum else uint 32 (sum + high_byte b)
  | b0 :: b1 :: rest =>
      sum_words_skip (i + 2) rest
        (if i =? 10 then sum else uint 32 (sum + Z.lor (high_byte b0) (u8 b1)))
  end.

Definition ipv4_checksum (header : list byte) : Z :=
  complement_fold (sum_words_skip 0 header 0).

(** [process_buffer] of [transport_checksum]. *)
Fixpoint process_buffer (buf : list byte) (sum : Z) : Z :=
  match buf with
  | [] => sum
  | [b] => uint 32 (sum + high_byte b)
  | b0 :: b1 :: rest => process_buffer rest (uint 32 (sum + Z.lor (high_byte b0) (u8 b1)))
  end.

Definition pseudo_header_sum (src_ip dst_ip protocol length : Z) : Z :=
  let sum := uint 32 (0 + Z.land (Z.shiftr src_ip 16) 65535) in
  let sum := uint 32 (sum + Z.land src_ip 65535) in
  let sum := uint 32 (sum + Z.land (Z.shiftr dst_ip 16) 65535) in
  let sum := uint 32 (sum + Z.land dst_ip 65535) in
  let sum := uint 32 (sum + protocol) in
  uint 32 (sum + length).

Definition transport_checksum (header payload : list byte) (src_ip dst_ip protocol : Z) : Z :=
  let length := uint 16 (zlen header + zlen payload) in
  let sum := pseudo_header_sum src_ip dst_ip protocol length in
  complement_fold (process_buffer payload (process_buffer header sum)).

(** ** The words of a buffer and their sum *)

Fixpoint words_sum (buf : list byte) : Z :=
  match buf with
  | [] => 0
  | [b] => u8 b * 256
  | b0 :: b1 :: rest => be16 b0 b1 + words_sum rest
  end.

(** Induction two bytes at a time. *)
Lemma pair_ind {A} (P : list A -> Prop) :
  P [] -> (forall a, P [a]) -> (forall a b l, P l -> P (a :: b :: l)) -> forall l, P l.
Proof.
  intros H0 H1 H2 l. enough (P l /\ forall a, P (a :: l)) as [H _] by exact H.
  induction l as [|a l [IHl IHa]]; auto.
Qed.

Lemma high_byte_arith b : high_byte b = u8 b * 256.
Proof.
  unfold high_byte. rewrite (shiftl_mul_k _ _ 256) by (reflexivity || lia).
  apply uint_small. unfold fits. byte_ranges. lia.
Qed.

Lemma word_arith b0 b1 : Z.lor (high_byte b0) (u8 b1) = be16 b0 b1.
Proof.
  rewrite high_byte_arith, <- be16_lor. f_equal. symmetry. apply shiftl_mul_k; reflexivity || lia.
Qed.

Lemma words_sum_bounds buf : 0 <= 2 * words_sum buf <= 65535 * (zlen buf + 1).
Proof.
  induction buf as [|b|b0 b1 buf IH] using pair_ind; cbn [words_sum length].
  - lia.
  - byte_ranges. lia.
  - pose proof (be16_fits b0 b1) as Hf. unfold fits in Hf. lia.
Qed.

(** ** Carry folding *)

Lemma fold_carries_small fuel s : 0 <= s < 65536 -> fold_carries fuel s = Some s.
Proof.
  intros Hs. destruct fuel; cbn [fold_carries];
    replace (Z.shiftr s 16 =? 0) with true; try reflexivity;
    symmetry; apply Z.eqb_eq; bits_arith; lia.
Qed.

Lemma fold_carries_step fuel s :
  65536 <= s < 2 ^ 32 -> fold_carries (S fuel) s = fold_carries fuel (s mod 65536 + s / 65536).
Proof.
  intros Hs. cbn [fold_carries]. bits_arith.
  destruct (Z.eqb_spec (s / 65536) 0); [lia|].
  rewrite uint_small; [reflexivity | unfold fits; lia].
Qed.

(** Folding terminates within three iterations on any 32-bit accumulator; its
    result is the 16-bit representative of the sum modulo 65535, and is zero
    only for a zero sum. *)
Lemma fold_carries_total s :
  0 <= s < 2 ^ 32 ->
  exists r, fold_carries 3 s = Some r /\ 0 <= r < 65536 /\
            r mod 65535 = s mod 65535 /\ (r = 0 <-> s = 0).
Proof.
  intros Hs. destruct (Z.lt_ge_cases s 65536) as [Hlt|Hge].
  { exists s. rewrite fold_carries_small by lia. split_and!; auto; lia. }
  rewrite fold_carries_step by lia.
  set (s1 := s mod 65536 + s / 65536).
  assert (H1 : 0 < s1 < 131071 /\ s1 mod 65535 = s mod 65535) by (subst s1; lia).
  clearbody s1. destruct (Z.lt_ge_cases s1 65536) as [Hlt1|Hge1].
  { exists s1. rewrite fold_carries_small by lia. split_and!; auto; lia. }
  rewrite fold_carries_step by lia.
  exists (s1 mod 65536 + s1 / 65536). rewrite fold_carries_small by lia. split_and!; auto; lia.
Qed.

(** The checksum of a sum: [65535] minus its folded value. *)
Lemma complement_fold_spec s :
  0 <= s < 2 ^ 32 ->
  exists r, complement_fold s = 65535 - r /\ 0 <= r < 65536 /\
            r mod 65535 = s mod 65535 /\ (r = 0 <-> s = 0).
Proof.
  intros Hs. destruct (fold_carries_total s Hs) as (r & Hr & Hrange & Hmod & Hz).
  exists r. unfold complement_fold. rewrite Hr, (uint_small 16 r) by (unfold fits; lia).
  split_and!; try tauto; try lia. unfold uint, Z.lnot. lia.
Qed.

(** A nonzero sum verifies exactly when it is a multiple of 65535. *)
Lemma complement_fold_zero s :
  0 < s < 2 ^ 32 -> complement_fold s = 0 <-> s mod 65535 = 0.
Proof.
  intros Hs. destruct (complement_fold_spec s ltac:(lia)) as (r & -> & ? & Hmod & Hz). lia.
Qed.

(** Adding the checksum of a sum to it verifies, whatever the sum. *)
Lemma complement_fold_cancel s :
  0 <= s -> s + 65535 < 2 ^ 32 -> complement_fold (s + complement_fold s) = 0.
Proof.
  intros Hs Hlt. destruct (complement_fold_spec s ltac:(lia)) as (r & -> & ? & Hmod & Hz).
  apply complement_fold_zero; lia.
Qed.

(** ** The loops compute the sum of the words *)

Lemma process_buffer_sum buf sum :
  0 <= sum -> sum + words_sum buf < 2 ^ 32 -> process_buffer buf sum = sum + words_sum buf.
Proof.
  revert sum. induction buf as [|b|b0 b1 buf IH] using pair_ind; intros sum Hs Hlt;
    cbn [process_buffer words_sum length] in *.
  - lia.
  - rewrite high_byte_arith. apply uint_small. unfold fits. byte_ranges. lia.
  - rewrite word_arith. pose proof (be16_fits b0 b1) as Hf. unfold fits in Hf.
    pose proof (words_sum_bounds buf).
    rewrite uint_small by (unfold fits; lia). rewrite IH by lia. lia.
Qed.

Lemma process_buffer_spec buf sum :
  0 <= sum -> sum + 65535 * (zlen buf + 1) < 2 ^ 32 ->
  process_buffer buf sum = sum + words_sum buf.
Proof.
  intros Hs Hlt. pose proof (words_sum_bounds buf). apply process_buffer_sum; lia.
Qed.

(** [sum_words_skip] past the skipped word is the plain loop. *)
Lemma sum_words_skip_after i buf sum :
  10 < i -> sum_words_skip i buf sum = process_buffer buf sum.
Proof.
  revert i sum. induction buf as [|b|b0 b1 buf IH] using pair_ind; intros i sum Hi;
    cbn [sum_words_skip process_buffer];
    try rewrite (proj2 (Z.eqb_neq i 10)) by lia; auto. apply IH. lia.
Qed.

Lemma even_pred2 n : Nat.Even (S (S n)) -> Nat.Even n.
Proof. intros [k Hk]. exists (k - 1)%nat. lia. Qed.

Lemma odd_not_even_1 : ~ Nat.Even 1.
Proof. intros [k Hk]. lia. Qed.

Lemma process_buffer_app pre post sum :
  Nat.Even (length pre) ->
  process_buffer (pre ++ post) sum = process_buffer post (process_buffer pre sum).
Proof.
  revert sum. induction pre as [|b|b0 b1 pre IH] using pair_ind; intros sum He;
    cbn [app process_buffer length] in *; [reflexivity | destruct (odd_not_even_1 He) |].
  apply IH, even_pred2, He.
Qed.

(** [sum_words_skip] before the skipped word is the plain loop. *)
Lemma sum_words_skip_before i pre rest sum :
  i + zlen pre <= 10 -> Nat.Even (length pre) ->
  sum_words_skip i (pre ++ rest) sum = sum_words_skip (i + zlen pre) rest (process_buffer pre sum).
Proof.
  revert i sum. induction pre as [|b|b0 b1 pre IH] using pair_ind; intros i sum Hi He;
    cbn [app sum_words_skip process_buffer length] in *;
    [f_equal; lia | destruct (odd_not_even_1 He) |].
  rewrite (proj2 (Z.eqb_neq i 10)) by lia.
  rewrite IH by (try apply even_pred2; assumption || lia). f_equal. lia.
Qed.

(** The loop skips exactly the checksum field, bytes 10 and 11. *)
Lemma sum_words_skip_header pre c0 c1 post :
  length pre = 10%nat ->
  sum_words_skip 0 (pre ++ c0 :: c1 :: post) 0 = process_buffer (pre ++ post) 0.
Proof.
  intros Hpre. assert (He : Nat.Even (length pre)) by (exists 5%nat; lia).
  rewrite sum_words_skip_before, process_buffer_app by (assumption || lia).
  rewrite Hpre. change (0 + Z.of_nat 10) with 10. cbn [sum_words_skip Z.eqb Pos.eqb].
  apply sum_words_skip_after. lia.
Qed.

Lemma words_sum_app_even pre post :
  Nat.Even (length pre) -> words_sum (pre ++ post) = words_sum pre + words_sum post.
Proof.
  induction pre as [|b|b0 b1 pre IH] using pair_ind; intros He; cbn [app words_sum length] in *.
  - lia.
  - destruct (odd_not_even_1 He).
  - rewrite IH by (apply even_pred2, He). lia.
Qed.

(** [ipv4_checksum] ignores the two bytes of the checksum field. *)
Lemma ipv4_checksum_skips pre c0 c1 post :
  length pre = 10%nat ->
  ipv4_checksum (pre ++ c0 :: c1 :: post) = complement_fold (process_buffer (pre ++ post) 0).
Proof. intros. unfold ipv4_checksum. rewrite sum_words_skip_header by assumption. reflexivity. Qed.

(** The pseudo-header contributes the four address halves, the protocol and the length. *)
Lemma pseudo_header_sum_spec src dst proto len :
  fits 32 src -> fits 32 dst -> fits 8 proto -> fits 16 len ->
  pseudo_header_sum src dst proto len =
  src / 65536 + src mod 65536 + dst / 65536 + dst mod 65536 + proto + len.
Proof.
  unfold fits. intros Hs Hd Hp Hl.
  assert (0 <= src / 65536 < 65536 /\ 0 <= dst / 65536 < 65536) by lia.
  pose proof (Z.mod_pos_bound src 65536 eq_refl). pose proof (Z.mod_pos_bound dst 65536 eq_refl).
  unfold pseudo_header_sum. bits_arith. clear Hs Hd.
  generalize dependent (src / 65536); generalize dependent (dst / 65536);
    generalize dependent (src mod 65536); generalize dependent (dst mod 65536); intros.
  repeat match goal with
  | |- context [uint 32 ?x] =>
      lazymatch x with context [uint] => fail | _ => rewrite (uint_small 32 x) by (unfold fits; lia) end
  end. lia.
Qed.
