(* ===== verification/Decoder.v ===== *)
(** * The decoder framework (include/wadjet/protocols/decoder.hpp)

    [DecodeErrorCode], [DecodeError], [DecodeContext] with its bounds-checked
    reads, and the contract between the decoders and their clients.

    [std::span] operations: [subspan], [operator[]] and [memcpy] from a span
    are [Undef] outside the span.  Sizes and offsets are [std::size_t]; every
    sum of them in the decoders is below 2^63 because buffers are, so they are
    exact integers, except where the code computes in 32 bits. *)

From Stdlib Require Import ZArith Lia.
From Stdlib Require Import Strings.Byte.
From stdpp Require Import base numbers list strings pretty.
From S2P Require Import Prelude ByteOrder.

(** ** Errors *)

Inductive DecodeErrorCode :=
| Success | BufferTooSmall | InvalidHeader | InvalidChecksum | InvalidVersion
| InvalidLength | MalformedData | UnsupportedProtocol | TruncatedPayload.

#[export] Instance DecodeErrorCode_eq_dec : EqDecision DecodeErrorCode.
Proof. solve_decision. Defined.

Definition decode_error_string (code : DecodeErrorCode) : string :=
  match code with
  | Success => "Success"
  | BufferTooSmall => "Buffer too small"
  | InvalidHeader => "Invalid header"
  | InvalidChecksum => "Invalid checksum"
  | InvalidVersion => "Invalid version"
  | InvalidLength => "Invalid length"
  | MalformedData => "Malformed data"
  | UnsupportedProtocol => "Unsupported protocol"
  | TruncatedPayload => "Truncated payload"
  end.

Record DecodeError := mkDecodeError {
  err_code : DecodeErrorCode;
  err_offset : Z;
  err_message : string
}.

(** The constructor [DecodeError(code, off, msg)]. *)
Definition new_DecodeError (c : DecodeErrorCode) (off : Z) (msg : string) : DecodeError :=
  {| err_code := c; err_offset := off;
     err_message := if decide (msg = EmptyString) then decode_error_string c else msg |}.

(** Results of [decode_impl]: [make_success] is [Done], [make_error] is [Fail]. *)
Abbreviation decoded := (res DecodeError).

Definition make_error {A} (code : DecodeErrorCode) (msg : string) (offset : Z) : decoded A :=
  Fail (new_DecodeError code offset msg).

(** ** Contexts *)

Record LayerInfo := mkLayerInfo {
  li_ethertype : Z;
  li_ip_protocol : Z;
  li_src_port : Z;
  li_dst_port : Z
}.

Definition LayerInfo_default : LayerInfo := mkLayerInfo 0 0 0 0.

Record DecodeContext := mkDecodeContext {
  data : list byte;
  original_offset : Z;
  timestamp : Z;
  layer_info : LayerInfo
}.

(** A default-constructed context with its [data] set, as the callers build it. *)
Definition context_of (d : list byte) : DecodeContext :=
  mkDecodeContext d 0 0 LayerInfo_default.

Definition with_layer_info (ctx : DecodeContext) (li : LayerInfo) : DecodeContext :=
  mkDecodeContext (data ctx) (original_offset ctx) (timestamp ctx) li.

Abbreviation data_size ctx := (Z.of_nat (length (data ctx))).

(** [std::span::subspan(offset)] and [subspan(offset, count)]. *)
Definition subspan {E} (d : list byte) (offset : Z) : res E (list byte) :=
  if (0 <=? offset) && (offset <=? zlen d) then Done (drop (Z.to_nat offset) d) else Undef.

Definition subspan_count {E} (d : list byte) (offset count : Z) : res E (list byte) :=
  if (0 <=? offset) && (offset <=? zlen d) && (0 <=? count) && (count <=? zlen d - offset)
  then Done (take (Z.to_nat count) (drop (Z.to_nat offset) d)) else Undef.

(** [static_cast<std::uint8_t>(d[i])] on a span or a pointer into it. *)
Definition byte_at {E} (d : list byte) (i : Z) : res E Z :=
  if 0 <=? i then
    match d !! Z.to_nat i with Some b => Done (u8 b) | None => Undef end
  else Undef.

(** [memcpy(dst, src.data(), n)]: the bytes copied. *)
Definition memcpy {E} (src : list byte) (n : Z) : res E (list byte) :=
  if n <=? zlen src then Done (take (Z.to_nat n) src) else Undef.

Definition sub_context (ctx : DecodeContext) (header_size : Z) : DecodeContext :=
  if header_size <=? data_size ctx
  then mkDecodeContext (drop (Z.to_nat header_size) (data ctx))
                       (original_offset ctx + header_size) (timestamp ctx) (layer_info ctx)
  else mkDecodeContext [] (original_offset ctx + data_size ctx) (timestamp ctx) (layer_info ctx).

Definition has_bytes (ctx : DecodeContext) (n : Z) : bool := n <=? data_size ctx.

(** The bounds-checked reads: 0, or an empty span, outside the data.  The read
    behind the check never fails ([ctx_read_be16_in], [ctx_read_be32_in]). *)
Definition ctx_read_be16 (ctx : DecodeContext) (offset : Z) : Z :=
  if offset + 2 <=? data_size ctx
  then default 0 (read_be16 (drop (Z.to_nat offset) (data ctx))) else 0.

Definition ctx_read_be32 (ctx : DecodeContext) (offset : Z) : Z :=
  if offset + 4 <=? data_size ctx
  then default 0 (read_be32 (drop (Z.to_nat offset) (data ctx))) else 0.

Definition ctx_read_u8 (ctx : DecodeContext) (offset : Z) : Z :=
  if offset <? data_size ctx
  then default 0 (u8 <$> data ctx !! Z.to_nat offset) else 0.

Definition ctx_read_bytes (ctx : DecodeContext) (offset len : Z) : list byte :=
  if offset + len <=? data_size ctx
  then take (Z.to_nat len) (drop (Z.to_nat offset) (data ctx)) else [].

(** ** Lemmas on reads *)

Lemma ctx_read_be16_fits ctx off : fits 16 (ctx_read_be16 ctx off).
Proof.
  unfold ctx_read_be16. case_step; [|unfold fits; lia].
  destruct (drop _ _) as [|b0 [|b1 l]]; try (cbn; unfold fits; lia).
  rewrite read_be16_cons. apply be16_fits.
Qed.

Lemma ctx_read_be32_fits ctx off : fits 32 (ctx_read_be32 ctx off).
Proof.
  unfold ctx_read_be32. case_step; [|unfold fits; lia].
  destruct (drop _ _) as [|b0 [|b1 [|b2 [|b3 l]]]]; try (cbn; unfold fits; lia).
  rewrite read_be32_cons. apply be32_fits.
Qed.

#[export] Hint Resolve ctx_read_be16_fits ctx_read_be32_fits : wadjet.

Lemma ctx_read_be16_in ctx off :
  0 <= off -> off + 2 <= data_size ctx ->
  read_be16 (drop (Z.to_nat off) (data ctx)) = Some (ctx_read_be16 ctx off).
Proof.
  intros H0 Hle. unfold ctx_read_be16. rewrite (proj2 (Z.leb_le _ _) Hle).
  destruct (read_be16_some (drop (Z.to_nat off) (data ctx))) as (v & -> & _);
    [rewrite length_drop; lia | reflexivity].
Qed.

Lemma ctx_read_be32_in ctx off :
  0 <= off -> off + 4 <= data_size ctx ->
  read_be32 (drop (Z.to_nat off) (data ctx)) = Some (ctx_read_be32 ctx off).
Proof.
  intros H0 Hle. unfold ctx_read_be32. rewrite (proj2 (Z.leb_le _ _) Hle).
  destruct (read_be32_some (drop (Z.to_nat off) (data ctx))) as (v & -> & _);
    [rewrite length_drop; lia | reflexivity].
Qed.

Lemma length_ctx_read_bytes ctx off len :
  0 <= off -> 0 <= len -> off + len <= data_size ctx -> zlen (ctx_read_bytes ctx off len) = len.
Proof.
  intros. unfold ctx_read_bytes. rewrite (proj2 (Z.leb_le _ _)) by assumption.
  rewrite length_take, length_drop. lia.
Qed.

Lemma byte_at_in {E} d i :
  0 <= i < zlen d -> exists v, byte_at (E:=E) d i = Done v /\ fits 8 v.
Proof.
  intros Hi. unfold byte_at. rewrite (proj2 (Z.leb_le _ _)) by lia.
  destruct (lookup_in_range d i Hi) as [b ->]. exists (u8 b). split; [reflexivity | apply u8_range].
Qed.

Lemma byte_at_fits {E} d i v : byte_at (E:=E) d i = Done v -> fits 8 v.
Proof.
  unfold byte_at. intros H. repeat case_in H; try discriminate. injection H as <-. apply u8_range.
Qed.

Lemma defined_byte_at {E} d i : 0 <= i < zlen d -> defined (byte_at (E:=E) d i).
Proof. intros Hi. destruct (byte_at_in (E:=E) d i Hi) as (v & -> & _). discriminate. Qed.

Lemma defined_memcpy {E} src n : n <= zlen src -> defined (memcpy (E:=E) src n).
Proof. intros Hn. unfold memcpy. rewrite (proj2 (Z.leb_le _ _) Hn). discriminate. Qed.

Lemma memcpy_length {E} src n l : 0 <= n -> memcpy (E:=E) src n = Done l -> zlen l = n.
Proof.
  unfold memcpy. intros Hn H. case_in H; [|discriminate]. injection H as <-. bool_to_prop.
  rewrite length_take. lia.
Qed.

Lemma subspan_in {E} d n :
  0 <= n <= zlen d -> subspan (E:=E) d n = Done (drop (Z.to_nat n) d).
Proof. intros. unfold subspan. rewrite !(proj2 (Z.leb_le _ _)) by lia. reflexivity. Qed.

Lemma subspan_count_in {E} d i n :
  0 <= i -> 0 <= n -> i + n <= zlen d ->
  subspan_count (E:=E) d i n = Done (take (Z.to_nat n) (drop (Z.to_nat i) d)).
Proof. intros. unfold subspan_count. rewrite !(proj2 (Z.leb_le _ _)) by lia. reflexivity. Qed.

Lemma subspan_inv {E} d n d' :
  subspan (E:=E) d n = Done d' -> 0 <= n <= zlen d /\ d' = drop (Z.to_nat n) d.
Proof.
  unfold subspan. intros H. case_in H; [|discriminate]. bool_to_prop. injection H as <-.
  split; [lia | reflexivity].
Qed.

Lemma sub_context_in ctx n :
  n <= data_size ctx ->
  sub_context ctx n =
    mkDecodeContext (drop (Z.to_nat n) (data ctx)) (original_offset ctx + n)
                    (timestamp ctx) (layer_info ctx).
Proof. intros Hn. unfold sub_context. rewrite (proj2 (Z.leb_le _ _) Hn). reflexivity. Qed.

(** Reads from a buffer whose part from the offset on is known. *)
Lemma drop_app_Z {A} (pre post : list A) off :
  off = zlen pre -> drop (Z.to_nat off) (pre ++ post) = post.
Proof. intros ->. rewrite Nat2Z.id. apply drop_app_length. Qed.

Lemma drop_length_ge {A} (l bs post : list A) off :
  0 <= off -> bs <> [] -> drop (Z.to_nat off) l = bs ++ post -> off + zlen bs <= zlen l.
Proof.
  intros H0 Hne Hd. apply (f_equal length) in Hd. rewrite length_drop, length_app in Hd.
  destruct bs; [done|]. cbn [length] in *. lia.
Qed.

Lemma ctx_read_be16_drop ctx off v post :
  0 <= off -> drop (Z.to_nat off) (data ctx) = write_be16 v ++ post -> fits 16 v ->
  ctx_read_be16 ctx off = v.
Proof.
  intros H0 Hd Hv. unfold ctx_read_be16.
  pose proof (drop_length_ge _ (write_be16 v) _ _ H0 ltac:(discriminate) Hd) as Hlen. cbn in Hlen.
  rewrite Hd, read_write_be16, (proj2 (Z.leb_le _ _)) by (assumption || lia). reflexivity.
Qed.

Lemma ctx_read_be32_drop ctx off v post :
  0 <= off -> drop (Z.to_nat off) (data ctx) = write_be32 v ++ post -> fits 32 v ->
  ctx_read_be32 ctx off = v.
Proof.
  intros H0 Hd Hv. unfold ctx_read_be32.
  pose proof (drop_length_ge _ (write_be32 v) _ _ H0 ltac:(discriminate) Hd) as Hlen. cbn in Hlen.
  rewrite Hd, read_write_be32, (proj2 (Z.leb_le _ _)) by (assumption || lia). reflexivity.
Qed.

Lemma ctx_read_be16_bytes ctx off b0 b1 post :
  0 <= off -> drop (Z.to_nat off) (data ctx) = b0 :: b1 :: post ->
  ctx_read_be16 ctx off = be16 b0 b1.
Proof.
  intros H0 Hd. apply (ctx_read_be16_drop _ _ _ post H0); [|apply be16_fits].
  rewrite Hd, write_be16_be16. reflexivity.
Qed.

Lemma ctx_read_be32_bytes ctx off b0 b1 b2 b3 post :
  0 <= off -> drop (Z.to_nat off) (data ctx) = b0 :: b1 :: b2 :: b3 :: post ->
  ctx_read_be32 ctx off = be32 b0 b1 b2 b3.
Proof.
  intros H0 Hd. apply (ctx_read_be32_drop _ _ _ post H0); [|apply be32_fits].
  rewrite Hd, write_be32_be32. reflexivity.
Qed.

Lemma ctx_read_bytes_drop ctx off n bs post :
  0 <= off -> bs <> [] -> drop (Z.to_nat off) (data ctx) = bs ++ post -> n = zlen bs ->
  ctx_read_bytes ctx off n = bs.
Proof.
  intros H0 Hne Hd ->. unfold ctx_read_bytes. pose proof (drop_length_ge _ _ _ _ H0 Hne Hd).
  rewrite Hd, (proj2 (Z.leb_le _ _)), Nat2Z.id by lia. apply take_app_length.
Qed.

Lemma byte_at_drop {E} d i b post :
  0 <= i -> drop (Z.to_nat i) d = b :: post -> byte_at (E:=E) d i = Done (u8 b).
Proof.
  intros H0 Hd. unfold byte_at. rewrite (proj2 (Z.leb_le _ _)) by assumption.
  rewrite <- (Nat.add_0_r (Z.to_nat i)), <- lookup_drop, Hd. reflexivity.
Qed.

Lemma memcpy_all {E} bs n : n = zlen bs -> memcpy (E:=E) bs n = Done bs.
Proof.
  intros ->. unfold memcpy. rewrite (proj2 (Z.leb_le _ _)), Nat2Z.id, take_ge by lia. reflexivity.
Qed.

(** A copy of [n] bytes at an offset binds exactly those bytes. *)
Lemma bind_memcpy_drop {B} ctx off n bs post (k : list byte -> decoded B) :
  0 <= off -> bs <> [] -> drop (Z.to_nat off) (data ctx) = bs ++ post -> n = zlen bs ->
  (memcpy (ctx_read_bytes ctx off n) n ≫= k) = k bs.
Proof.
  intros H0 Hne Hd Hn. rewrite (ctx_read_bytes_drop _ _ _ _ _ H0 Hne Hd Hn), memcpy_all by assumption.
  reflexivity.
Qed.

(** The big-endian values that several decoders assemble from consecutive bytes
    behind a raw pointer. *)
Definition be16_at (d : list byte) (i : Z) : decoded Z :=
  b0 ← byte_at d i; b1 ← byte_at d (i + 1);
  Done (uint 16 (Z.lor (Z.shiftl b0 8) b1)).
Definition be32_at (d : list byte) (i : Z) : decoded Z :=
  b0 ← byte_at d i; b1 ← byte_at d (i + 1); b2 ← byte_at d (i + 2); b3 ← byte_at d (i + 3);
  Done (Z.lor (Z.lor (Z.lor (Z.shiftl b0 24) (Z.shiftl b1 16)) (Z.shiftl b2 8)) b3).

Lemma be16_at_in d i : 0 <= i -> i + 2 <= zlen d -> exists v, be16_at d i = Done v /\ fits 16 v.
Proof.
  intros Hi Hl. unfold be16_at.
  destruct (byte_at_in (E:=DecodeError) d i) as (? & -> & _); [lia|].
  destruct (byte_at_in (E:=DecodeError) d (i + 1)) as (? & -> & _); [lia|].
  rewrite !bind_Done. eexists. split; [reflexivity | apply uint_fits; lia].
Qed.

Lemma be16_at_drop d i v post :
  0 <= i -> drop (Z.to_nat i) d = write_be16 v ++ post -> fits 16 v -> be16_at d i = Done v.
Proof.
  intros Hi Hd Hv. unfold be16_at.
  rewrite (byte_at_drop d i _ _ Hi Hd), bind_Done.
  erewrite (byte_at_drop d (i + 1)), bind_Done
    by (first [lia | rewrite <- (drop_drop_Z _ 1 i), Hd by lia; reflexivity]).
  rewrite be16_lor, uint_small by apply be16_fits. f_equal.
  pose proof (read_write_be16 v [] Hv) as Hr. unfold write_be16 in Hr. cbn [app] in Hr.
  rewrite read_be16_cons in Hr. congruence.
Qed.

Lemma be32_at_drop d i v post :
  0 <= i -> drop (Z.to_nat i) d = write_be32 v ++ post -> fits 32 v -> be32_at d i = Done v.
Proof.
  intros Hi Hd Hv. unfold be32_at.
  assert (Hk : forall k, 0 <= k -> drop (Z.to_nat (i + k)) d = drop (Z.to_nat k) (write_be32 v ++ post)).
  { intros k Hk. rewrite <- Hd, drop_drop_Z by assumption. reflexivity. }
  rewrite (byte_at_drop d i _ _ Hi Hd), bind_Done.
  erewrite (byte_at_drop d (i + 1)), bind_Done by (first [lia | rewrite Hk by lia; reflexivity]).
  erewrite (byte_at_drop d (i + 2)), bind_Done by (first [lia | rewrite Hk by lia; reflexivity]).
  erewrite (byte_at_drop d (i + 3)), bind_Done by (first [lia | rewrite Hk by lia; reflexivity]).
  rewrite be32_lor. f_equal.
  pose proof (read_write_be32 v [] Hv) as Hr. unfold write_be32 in Hr. cbn [app] in Hr.
  rewrite read_be32_cons in Hr. congruence.
Qed.

Lemma be32_at_in d i : 0 <= i -> i + 4 <= zlen d -> exists v, be32_at d i = Done v /\ fits 32 v.
Proof.
  intros Hi Hl. destruct (drop (Z.to_nat i) d) as [|b0 [|b1 [|b2 [|b3 post]]]] eqn:E;
    try (apply (f_equal length) in E; rewrite length_drop in E; cbn [length] in E; lia).
  exists (be32 b0 b1 b2 b3). split; [|apply be32_fits].
  apply (be32_at_drop d i _ post Hi); [|apply be32_fits]. rewrite write_be32_be32. exact E.
Qed.

Lemma defined_be16_at d i : 0 <= i -> i + 2 <= zlen d -> defined (be16_at d i).
Proof. intros Hi Hl. destruct (be16_at_in d i Hi Hl) as (v & -> & _). discriminate. Qed.

Lemma defined_be32_at d i : 0 <= i -> i + 4 <= zlen d -> defined (be32_at d i).
Proof. intros Hi Hl. destruct (be32_at_in d i Hi Hl) as (v & -> & _). discriminate. Qed.

Lemma be16_at_bytes d i b0 b1 post :
  0 <= i -> drop (Z.to_nat i) d = b0 :: b1 :: post -> be16_at d i = Done (be16 b0 b1).
Proof.
  intros Hi Hd. apply (be16_at_drop d i _ post Hi); [|apply be16_fits]. rewrite write_be16_be16. exact Hd.
Qed.

Lemma be32_at_bytes d i b0 b1 b2 b3 post :
  0 <= i -> drop (Z.to_nat i) d = b0 :: b1 :: b2 :: b3 :: post -> be32_at d i = Done (be32 b0 b1 b2 b3).
Proof.
  intros Hi Hd. apply (be32_at_drop d i _ post Hi); [|apply be32_fits]. rewrite write_be32_be32. exact Hd.
Qed.

Lemma subspan_count_drop d i n bs post :
  0 <= i -> drop (Z.to_nat i) d = bs ++ post -> bs <> [] -> n = zlen bs ->
  subspan_count (E:=DecodeError) d i n = Done bs.
Proof.
  intros Hi Hd Hne ->. pose proof (drop_length_ge _ _ _ _ Hi Hne Hd).
  rewrite subspan_count_in, Hd, Nat2Z.id, take_app_length by lia. reflexivity.
Qed.

(** Evaluates the guards and reads of a decoder on a context whose bytes are
    known up to the payload ([Hd : data ctx = b0 :: ... :: payload]). *)
Ltac eval_guard Hd :=
  match goal with
  | |- context [has_bytes ?c ?n] =>
      replace (has_bytes c n) with true
        by (symmetry; apply Z.leb_le; rewrite Hd; cbn [length]; lia);
      cbn [negb]
  end.
Ltac eval_be16 Hd :=
  match goal with
  | |- context [ctx_read_be16 ?c ?n] =>
      erewrite (ctx_read_be16_drop c n) by (first [rewrite Hd; reflexivity | lia | eassumption])
  end.
Ltac eval_be32 Hd :=
  match goal with
  | |- context [ctx_read_be32 ?c ?n] =>
      erewrite (ctx_read_be32_drop c n) by (first [rewrite Hd; reflexivity | lia | eassumption])
  end.

(** The same on bytes that are not a known encoding. *)
Ltac eval_be16_bytes Hd :=
  match goal with
  | |- context [ctx_read_be16 ?c ?n] =>
      erewrite (ctx_read_be16_bytes c n) by (first [rewrite Hd; reflexivity | lia])
  end.
Ltac eval_be32_bytes Hd :=
  match goal with
  | |- context [ctx_read_be32 ?c ?n] =>
      erewrite (ctx_read_be32_bytes c n) by (first [rewrite Hd; reflexivity | lia])
  end.
Ltac eval_reads Hd := repeat eval_guard Hd; repeat first [eval_be16 Hd | eval_be32 Hd].
Ltac eval_memcpy Hd bs :=
  erewrite (bind_memcpy_drop _ _ _ bs)
    by (first [reflexivity | discriminate | lia | rewrite Hd; reflexivity]).

(** ** The contract of a decoder

    What a stateless decoder promises to the code that chains it: it never
    reads outside its data, and the header it returns takes up a nonempty part
    of the data, which the next context starts after.  The dispatcher relies on
    it to advance by [header_size()]. *)
Class DecoderContract {H} (decode : DecodeContext -> decoded (H * DecodeContext))
    (header_size : H -> Z) : Prop := {
  decode_defined : forall ctx, defined (decode ctx);
  decode_fits : forall ctx h next,
    decode ctx = Done (h, next) -> 0 < header_size h <= data_size ctx;
  decode_next : forall ctx h next,
    decode ctx = Done (h, next) ->
    data next = drop (Z.to_nat (header_size h)) (data ctx) /\
    original_offset next = original_offset ctx + header_size h
}.

(** Splits a [decode] computation along its guards, sub-reads and binds, keeping
    what each guard says. *)
Ltac decode_guards :=
  repeat first
    [ apply defined_Done
    | apply defined_Fail
    | match goal with
      | |- defined (make_error _ _ _) => apply defined_Fail
      | |- defined (if ?b then _ else _) => destruct b eqn:?; bool_to_prop
      | |- defined (byte_at _ _ ≫= _) =>
          apply defined_bind; [apply defined_byte_at | intros ? ?]
      | |- defined (memcpy _ _ ≫= _) =>
          apply defined_bind; [apply defined_memcpy | intros ? ?]
      end ].

(** Inverts [decode ctx = Done r], one guard or read at a time. *)
Ltac decode_inv H :=
  repeat match type of H with
  | (if ?b then _ else _) = Done _ => destruct b eqn:?; [| ]; bool_to_prop; try discriminate H
  | (_ ≫= _) = Done _ => apply bind_inv in H as (? & ? & H)
  | make_error _ _ _ = Done _ => discriminate H
  end.
