(* ===== verification/Ethernet.v ===== *)
(** * Ethernet frames (src/protocols/ethernet.cpp, include/wadjet/protocols/ethernet.hpp)

    The Ethernet II decoder with one or two VLAN tags, its contract, its
    behaviour on every branch, and the round trip with the frame layout. *)

From Stdlib Require Import ZArith Lia.
From Stdlib Require Import Strings.Byte.
From stdpp Require Import base numbers list strings.
From S2P Require Import Prelude ByteOrder Decoder.

Definition MIN_FRAME_SIZE : Z := 14.
Definition VLAN_TAG_SIZE : Z := 4.
Definition ETHERTYPE_QINQ : Z := 0x88A8.

(** [enum class EtherType] (core/types.hpp). *)
Definition EtherType_IPv4 : Z := 0x0800.
Definition EtherType_ARP : Z := 0x0806.
Definition EtherType_VLAN : Z := 0x8100.
Definition EtherType_IPv6 : Z := 0x86DD.
Definition EtherType_PTP : Z := 0x88F7.

Record VlanTag := mkVlanTag { tpid : Z; tci : Z }.

Definition pcp (t : VlanTag) : Z := Z.land (Z.shiftr (tci t) 13) 7.
Definition dei (t : VlanTag) : bool := negb (Z.land (tci t) 0x1000 =? 0).
Definition vid (t : VlanTag) : Z := Z.land (tci t) 0x0FFF.

(** The test on an ethertype that announces a VLAN tag, and [VlanTag::is_valid]. *)
Definition is_vlan_type (e : Z) : bool := (e =? EtherType_VLAN) || (e =? ETHERTYPE_QINQ).
Definition is_valid (t : VlanTag) : bool := is_vlan_type (tpid t).

Record EthernetHeader := mkEthernetHeader {
  eth_dst_mac : list byte;
  eth_src_mac : list byte;
  eth_vlan : option VlanTag;
  eth_vlan_inner : option VlanTag;
  eth_ethertype : Z;
  eth_header_len : Z
}.

Definition has_vlan (h : EthernetHeader) : bool := bool_decide (is_Some (eth_vlan h)).
Definition has_qinq (h : EthernetHeader) : bool := bool_decide (is_Some (eth_vlan_inner h)).
Definition vlan_id (h : EthernetHeader) : Z :=
  match eth_vlan h with Some t => vid t | None => 0 end.

(** [header_size()]. *)
Definition header_size (h : EthernetHeader) : Z := eth_header_len h.

Definition can_decode (ctx : DecodeContext) : bool := MIN_FRAME_SIZE <=? data_size ctx.

Definition parse_vlan (ctx : DecodeContext) (offset : Z) : option VlanTag :=
  if negb (has_bytes ctx (offset + VLAN_TAG_SIZE)) then None
  else
    let t := ctx_read_be16 ctx offset in
    if negb (t =? EtherType_VLAN) && negb (t =? ETHERTYPE_QINQ) then None
    else Some (mkVlanTag t (ctx_read_be16 ctx (offset + 2))).

(** [make_success] with the header built so far: its last two assignments and
    the context of the next layer. *)
Definition finish (ctx : DecodeContext) (dst src : list byte) (outer inner : option VlanTag)
    (ethertype offset : Z) : decoded (EthernetHeader * DecodeContext) :=
  let header := mkEthernetHeader dst src outer inner ethertype offset in
  let next := sub_context ctx offset in
  let li := layer_info next in
  Done (header,
        with_layer_info next
          (mkLayerInfo ethertype (li_ip_protocol li) (li_src_port li) (li_dst_port li))).

Definition decode_impl (ctx : DecodeContext) : decoded (EthernetHeader * DecodeContext) :=
  if negb (has_bytes ctx MIN_FRAME_SIZE)
  then make_error BufferTooSmall "Ethernet frame too small" 0
  else
    let offset := 0 in
    dst ← memcpy (ctx_read_bytes ctx offset 6) 6;
    let offset := offset + 6 in
    src ← memcpy (ctx_read_bytes ctx offset 6) 6;
    let offset := offset + 6 in
    let ethertype_or_len := ctx_read_be16 ctx offset in
    let offset := offset + 2 in
    if is_vlan_type ethertype_or_len then
      if negb (has_bytes ctx (offset + 2))
      then make_error BufferTooSmall "VLAN tag truncated" 0
      else
        let outer := mkVlanTag ethertype_or_len (ctx_read_be16 ctx offset) in
        let offset := offset + 2 in
        if negb (has_bytes ctx (offset + 2))
        then make_error BufferTooSmall "Ethertype after VLAN truncated" 0
        else
          let ethertype_or_len := ctx_read_be16 ctx offset in
          let offset := offset + 2 in
          if is_vlan_type ethertype_or_len then
            if negb (has_bytes ctx (offset + 2))
            then make_error BufferTooSmall "Inner VLAN tag truncated" 0
            else
              let inner := mkVlanTag ethertype_or_len (ctx_read_be16 ctx offset) in
              let offset := offset + 2 in
              if negb (has_bytes ctx (offset + 2))
              then make_error BufferTooSmall "Ethertype after inner VLAN truncated" 0
              else
                finish ctx dst src (Some outer) (Some inner) (ctx_read_be16 ctx offset)
                       (offset + 2)
          else finish ctx dst src (Some outer) None ethertype_or_len offset
    else finish ctx dst src None None ethertype_or_len offset.

(** ** The contract *)

#[export] Instance EthernetDecoder_contract : DecoderContract decode_impl header_size.
Proof.
  split.
  - intros ctx. unfold decode_impl, has_bytes, MIN_FRAME_SIZE.
    destruct (14 <=? data_size ctx) eqn:Hmin; cbn [negb]; [bool_to_prop | discriminate].
    do 2 (apply defined_bind; [apply defined_memcpy; rewrite length_ctx_read_bytes; lia | intros ? _]).
    cbn zeta. repeat case_step; discriminate.
  - intros ctx h next H. unfold decode_impl, has_bytes, MIN_FRAME_SIZE, finish in H. decode_inv H;
      injection H as <- <-; unfold header_size; cbn [eth_header_len]; lia.
  - intros ctx h next H. unfold decode_impl, has_bytes, MIN_FRAME_SIZE, finish in H. decode_inv H;
      injection H as <- <-; unfold header_size; cbn [eth_header_len];
      rewrite sub_context_in by lia; split; reflexivity.
Qed.

(** ** The frame layout

    The bytes of a header, as IEEE 802.3 and 802.1Q lay them out; the decoder
    never builds frames, so this is the specification it is compared with. *)
Definition encode_tag (t : VlanTag) : list byte := write_be16 (tpid t) ++ write_be16 (tci t).

Definition encode_header (h : EthernetHeader) : list byte :=
  eth_dst_mac h ++ eth_src_mac h ++ from_option encode_tag [] (eth_vlan h) ++
  from_option encode_tag [] (eth_vlan_inner h) ++ write_be16 (eth_ethertype h).

Record wf_tag (t : VlanTag) : Prop := {
  wf_tag_tpid : is_valid t = true;
  wf_tag_tci : fits 16 (tci t)
}.

(** The headers that [decode_impl] produces. *)
Record wf_header (h : EthernetHeader) : Prop := {
  wf_dst : length (eth_dst_mac h) = 6%nat;
  wf_src : length (eth_src_mac h) = 6%nat;
  wf_type : fits 16 (eth_ethertype h);
  wf_outer : forall t, eth_vlan h = Some t -> wf_tag t;
  wf_inner : forall t, eth_vlan_inner h = Some t -> wf_tag t;
  wf_nesting : eth_vlan h = None -> eth_vlan_inner h = None;
  wf_last : eth_vlan_inner h = None -> is_vlan_type (eth_ethertype h) = false;
  wf_len : eth_header_len h = zlen (encode_header h)
}.

Lemma wf_header_len h :
  wf_header h -> eth_header_len h = 14 \/ eth_header_len h = 18 \/ eth_header_len h = 22.
Proof.
  intros [Hd Hs _ _ _ Hn _ Hl]. rewrite Hl. unfold encode_header. rewrite !length_app, Hd, Hs.
  destruct (eth_vlan h), (eth_vlan_inner h); cbn; auto.
Qed.

Lemma is_vlan_type_fits e : is_vlan_type e = true -> fits 16 e.
Proof.
  unfold is_vlan_type, EtherType_VLAN, ETHERTYPE_QINQ, fits. intros H.
  apply orb_prop in H as [H|H]; bool_to_prop; lia.
Qed.

(** [next] carries the payload and the ethertype to the next decoder. *)
Definition next_of (ctx : DecodeContext) (h : EthernetHeader) (payload : list byte) : DecodeContext :=
  mkDecodeContext payload (original_offset ctx + eth_header_len h) (timestamp ctx)
    (mkLayerInfo (eth_ethertype h) (li_ip_protocol (layer_info ctx))
                 (li_src_port (layer_info ctx)) (li_dst_port (layer_info ctx))).

Lemma finish_spec ctx h payload :
  data ctx = encode_header h ++ payload -> wf_header h ->
  finish ctx (eth_dst_mac h) (eth_src_mac h) (eth_vlan h) (eth_vlan_inner h) (eth_ethertype h)
         (eth_header_len h) = Done (h, next_of ctx h payload).
Proof.
  intros Hd Hwf. destruct h as [d s o i e n]. unfold finish, next_of. cbn in *.
  pose proof (wf_len _ Hwf) as Hn. cbn in Hn.
  rewrite sub_context_in by (rewrite Hd, length_app; lia).
  rewrite Hd, drop_app_Z by assumption. reflexivity.
Qed.

(** The decoder inverts the frame layout: on the bytes of a well-formed header
    followed by any payload it returns that header and that payload. *)
Lemma ethernet_decode_encode ctx h payload :
  data ctx = encode_header h ++ payload -> wf_header h ->
  decode_impl ctx = Done (h, next_of ctx h payload).
Proof.
  intros Hd Hwf. pose proof (finish_spec ctx h payload Hd Hwf) as Hfin.
  destruct Hwf as [Hdst Hsrc Hty Hout Hin Hnest Hlast Hlen].
  destruct h as [dst src outer inner e n]. cbn in Hdst, Hsrc, Hty, Hout, Hin, Hnest, Hlast, Hlen, Hfin.
  destruct_list dst Hdst. destruct_list src Hsrc.
  unfold decode_impl, MIN_FRAME_SIZE.
  destruct outer as [[tp tc]|]; [|rewrite (Hnest eq_refl) in *];
    cbn [from_option encode_header eth_dst_mac eth_src_mac eth_vlan eth_vlan_inner eth_ethertype
         encode_tag tpid tci app write_be16] in Hd, Hlen.
  - destruct (Hout _ eq_refl) as [Hv Htc]. unfold is_valid in Hv. cbn in Hv, Htc.
    pose proof (is_vlan_type_fits _ Hv).
    destruct inner as [[tp2 tc2]|];
      [destruct (Hin _ eq_refl) as [Hv2 Htc2]; unfold is_valid in Hv2; cbn in Hv2, Htc2;
       pose proof (is_vlan_type_fits _ Hv2) | ];
      cbn [from_option encode_tag tpid tci app write_be16] in Hd, Hlen;
      eval_guard Hd; eval_memcpy Hd [b; b0; b1; b2; b3; b4];
      eval_memcpy Hd [b5; b6; b7; b8; b9; b10]; eval_reads Hd; rewrite Hv;
      [rewrite Hv2 | rewrite (Hlast eq_refl)]; rewrite <- Hfin, Hlen; reflexivity.
  - cbn [from_option encode_tag tpid tci app write_be16] in Hd, Hlen;
      eval_guard Hd; eval_memcpy Hd [b; b0; b1; b2; b3; b4];
      eval_memcpy Hd [b5; b6; b7; b8; b9; b10]; eval_reads Hd.
    rewrite (Hlast eq_refl), <- Hfin, Hlen. reflexivity.
Qed.

(** Closes a well-formedness goal on a header made of the bytes read. *)
Ltac wf_layout :=
  unfold header_size, encode_header, encode_tag;
  cbn [eth_dst_mac eth_src_mac eth_vlan eth_vlan_inner eth_ethertype eth_header_len from_option
       tpid tci]; rewrite ?write_be16_be16; split; [split; cbn; intros; simplify_eq;
         rewrite ?write_be16_be16; auto with wadjet;
         try (split; cbn; auto with wadjet) | reflexivity].

(** Conversely, a header that the decoder returns is well formed and is laid out
    in exactly the bytes it consumed. *)
Lemma ethernet_decode_sound ctx h next :
  decode_impl ctx = Done (h, next) ->
  wf_header h /\ data ctx = encode_header h ++ data next.
Proof.
  intros H. pose proof (decode_fits (header_size:=header_size) _ _ _ H) as Hfit.
  destruct (decode_next (header_size:=header_size) _ _ _ H) as [Hnext _].
  assert (Hd : exists d, data ctx = d) by eauto. destruct Hd as [d Hd].
  revert H. rewrite Hnext, Hd. unfold decode_impl, has_bytes, MIN_FRAME_SIZE. rewrite Hd.
  destruct (14 <=? zlen d) eqn:H14; [bool_to_prop; cbn [negb] | discriminate].
  do 14 (destruct d as [|? d]; [cbn in H14; lia|]).
  eval_memcpy Hd [b; b0; b1; b2; b3; b4]. eval_memcpy Hd [b5; b6; b7; b8; b9; b10].
  cbn zeta. repeat eval_be16_bytes Hd.
  destruct (is_vlan_type (be16 b11 b12)) eqn:Hv1; [|intros [= <- <-]; wf_layout].
  match goal with |- context [negb (?a <=? ?n)] => destruct (a <=? n) eqn:H16 end;
    cbn [negb]; [bool_to_prop | discriminate].
  match goal with |- context [negb (?a <=? ?n)] => destruct (a <=? n) eqn:H18 end;
    cbn [negb]; [bool_to_prop | discriminate].
  do 4 (destruct d as [|? d]; [cbn in H18; lia|]). repeat eval_be16_bytes Hd.
  destruct (is_vlan_type (be16 b15 b16)) eqn:Hv2; [|intros [= <- <-]; wf_layout].
  match goal with |- context [negb (?a <=? ?n)] => destruct (a <=? n) eqn:H20 end;
    cbn [negb]; [bool_to_prop | discriminate].
  match goal with |- context [negb (?a <=? ?n)] => destruct (a <=? n) eqn:H22 end;
    cbn [negb]; [bool_to_prop | discriminate].
  do 4 (destruct d as [|? d]; [cbn in H22; lia|]). repeat eval_be16_bytes Hd.
  intros [= <- <-]. wf_layout.
Qed.

Lemma ethernet_decode_next ctx h next : decode_impl ctx = Done (h, next) -> next = next_of ctx h (data next).
Proof.
  intros H. destruct (ethernet_decode_sound _ _ _ H) as [Hwf Hd].
  rewrite (ethernet_decode_encode ctx h (data next)) in H by assumption. injection H as H.
  rewrite <- H. reflexivity.
Qed.

(** The decoder inverts the frame layout exactly.  It returns a header and
    a next context if and only if the header is well formed (two 6-byte
    addresses, at most two nested tags with a VLAN TPID, an untagged final
    ethertype, [header_len] 14, 18 or 22), the data is the layout of that header
    followed by the next context's data, and the next context carries the
    ethertype and the advanced offset. *)
Theorem ethernet_decode_exact (ctx : DecodeContext) (h : EthernetHeader) (next : DecodeContext) :
  decode_impl ctx = Done (h, next) <->
  wf_header h /\ data ctx = encode_header h ++ data next /\ next = next_of ctx h (data next).
Proof.
  split.
  - intros H. destruct (ethernet_decode_sound _ _ _ H). eauto using ethernet_decode_next.
  - intros (Hwf & Hd & ->). apply ethernet_decode_encode; assumption.
Qed.

(** The Ethernet decoder is total and its only error is [BufferTooSmall] at
    offset 0: it fails exactly on the buffers that do not start with a
    well-formed header, all of them shorter than 22 bytes. *)
Theorem ethernet_decode_errors (ctx : DecodeContext) :
  (exists e, decode_impl ctx = Fail e /\ err_code e = BufferTooSmall /\ err_offset e = 0 /\
             data_size ctx < 22) <->
  ~ (exists h payload, wf_header h /\ data ctx = encode_header h ++ payload).
Proof.
  split.
  - intros (e & He & _) (h & payload & Hwf & Hd).
    rewrite (ethernet_decode_encode ctx h payload Hd Hwf) in He. discriminate.
  - intros Hno. destruct (decode_impl ctx) as [[h next]|e|] eqn:H.
    + destruct Hno. exists h, (data next). exact (ethernet_decode_sound _ _ _ H).
    + exists e. split; [reflexivity|]. revert H.
      unfold decode_impl, has_bytes, MIN_FRAME_SIZE. unfold finish, make_error.
      destruct (14 <=? data_size ctx) eqn:H14; bool_to_prop; cbn [negb].
      2:{ intros [= <-]. cbn. split_and!; auto; lia. }
      rewrite !memcpy_all, !bind_Done by (rewrite length_ctx_read_bytes; lia).
      cbn zeta. repeat case_step; bool_to_prop; try discriminate;
        intros [= <-]; cbn; split_and!; auto; lia.
    + destruct (decode_defined ctx H).
Qed.
