(* ===== verification/Ipv4.v ===== *)
(** * IPv4 headers (src/protocols/ipv4.cpp, include/wadjet/protocols/ipv4.hpp)

    The header decoder with its options parser and its checksum, and their
    contract: memory safety, the fields read, and the agreement with
    [Checksum::ipv4_checksum]. *)

From Stdlib Require Import ZArith Lia.
From Stdlib Require Import Strings.Byte.
From stdpp Require Import base numbers list strings pretty.
From S2P Require Import Prelude ByteOrder Address Checksum Decoder.

Definition MIN_HEADER_SIZE : Z := 20.

Definition IpProtocol_ICMP : Z := 1.
Definition IpProtocol_TCP : Z := 6.
Definition IpProtocol_UDP : Z := 17.

(** The decimal printed by [std::to_string] in the error messages. *)
Definition to_string (n : Z) : string := pretty n.

Record IPv4Flags := mkIPv4Flags { reserved : bool; dont_fragment : bool; more_fragments : bool }.

(** [IPv4Flags(flags_byte)]. *)
Definition IPv4Flags_of (flags_byte : Z) : IPv4Flags :=
  mkIPv4Flags (bit flags_byte 2) (bit flags_byte 1) (negb (Z.land flags_byte 1 =? 0)).

(** ** Options *)

Record Option := mkOption { opt_type : Z; opt_data : list byte }.

Record ParseOptionsResult := mkParseOptionsResult {
  po_options : list Option;
  po_malformed : bool
}.

Definition po_cons (o : Option) (r : ParseOptionsResult) : ParseOptionsResult :=
  mkParseOptionsResult (o :: po_options r) (po_malformed r).

(** The loop of [parseIpv4Options]; [raw] is the part of the options from index
    [i] on.  Every iteration that continues consumes at least one byte, so the
    length of the options is fuel enough ([parse_options_fuel]). *)
Fixpoint parse_options_loop (fuel : nat) (raw : list byte) : ParseOptionsResult :=
  match fuel with
  | O => mkParseOptionsResult [] false
  | S fuel' =>
      match raw with
      | [] => mkParseOptionsResult [] false
      | k :: rest =>
          let kind := u8 k in
          if kind =? 0 then mkParseOptionsResult [mkOption kind []] false
          else if kind =? 1 then po_cons (mkOption kind []) (parse_options_loop fuel' rest)
          else
            match rest with
            | [] => mkParseOptionsResult [] true
            | l :: _ =>
                let length := u8 l in
                if (length <? 2) || (zlen raw <? length) then mkParseOptionsResult [] true
                else
                  let data := if 2 <? length then take (Z.to_nat (length - 2)) (drop 2 raw) else [] in
                  po_cons (mkOption kind data)
                          (parse_options_loop fuel' (drop (Z.to_nat length) raw))
            end
      end
  end.

Definition parseIpv4Options (raw : list byte) : ParseOptionsResult :=
  parse_options_loop (S (length raw)) raw.

(** ** The header *)

Record IPv4Header := mkIPv4Header {
  ip_version : Z;
  ip_ihl : Z;
  ip_dscp : Z;
  ip_ecn : Z;
  ip_total_length : Z;
  ip_identification : Z;
  ip_flags : IPv4Flags;
  ip_fragment_offset : Z;
  ip_ttl : Z;
  ip_protocol : Z;
  ip_checksum : Z;
  ip_src : list byte;
  ip_dst : list byte;
  ip_options : list byte;
  ip_checksum_valid : bool;
  ip_parsed_options : list Option;
  ip_options_malformed : bool
}.

Definition header_size (h : IPv4Header) : Z := ip_ihl h * 4.

Definition payload_size (h : IPv4Header) : Z :=
  if header_size h <=? ip_total_length h then ip_total_length h - header_size h else 0.

Definition is_fragmented (h : IPv4Header) : bool :=
  more_fragments (ip_flags h) || (0 <? ip_fragment_offset h).
Definition is_tcp (h : IPv4Header) : bool := ip_protocol h =? IpProtocol_TCP.
Definition is_udp (h : IPv4Header) : bool := ip_protocol h =? IpProtocol_UDP.
Definition is_icmp (h : IPv4Header) : bool := ip_protocol h =? IpProtocol_ICMP.

Record Options := mkOptions { validate_checksum : bool; allow_bad_checksum : bool }.
Definition Options_default : Options := mkOptions true false.

Definition can_decode (ctx : DecodeContext) : bool := li_ethertype (layer_info ctx) =? 0x0800.

(** [IPv4Decoder::calculate_checksum]: the words, then an odd last byte. *)
Fixpoint sum_even_words (buf : list byte) (sum : Z) : Z :=
  match buf with
  | b0 :: b1 :: rest =>
      sum_even_words rest (uint 32 (sum + uint 16 (Z.lor (Z.shiftl (u8 b0) 8) (u8 b1))))
  | _ => sum
  end.

Definition calculate_checksum (header_data : list byte) : Z :=
  let sum := sum_even_words header_data 0 in
  let sum := if zlen header_data mod 2 =? 0 then sum
             else uint 32 (sum + Z.shiftl (u8 (List.last header_data x00)) 8) in
  complement_fold sum.

(** The raw and parsed options of a header of [header_len] bytes. *)
Definition read_options (ctx : DecodeContext) (header_len : Z) : list byte * ParseOptionsResult :=
  if MIN_HEADER_SIZE <? header_len then
    let opts := ctx_read_bytes ctx MIN_HEADER_SIZE (header_len - MIN_HEADER_SIZE) in
    (opts, parseIpv4Options opts)
  else ([], mkParseOptionsResult [] false).

Definition decode_impl (opts : Options) (ctx : DecodeContext) : decoded (IPv4Header * DecodeContext) :=
  if negb (has_bytes ctx MIN_HEADER_SIZE)
  then make_error BufferTooSmall "IPv4 header too small" 0
  else
    ver_ihl ← byte_at (data ctx) 0;
    let version := Z.land (Z.shiftr ver_ihl 4) 15 in
    let ihl := Z.land ver_ihl 15 in
    if negb (version =? 4)
    then make_error InvalidVersion ("Not IPv4 (version=" +:+ to_string version +:+ ")") 0
    else if ihl <? 5
    then make_error InvalidHeader ("IHL too small: " +:+ to_string ihl) 0
    else
      let header_len := ihl * 4 in
      if negb (has_bytes ctx header_len)
      then make_error BufferTooSmall
             ("IPv4 header truncated (need " +:+ to_string header_len +:+ " bytes)") 0
      else
        tos ← byte_at (data ctx) 1;
        let total_length := ctx_read_be16 ctx 2 in
        let flags_frag := ctx_read_be16 ctx 6 in
        ttl ← byte_at (data ctx) 8;
        protocol ← byte_at (data ctx) 9;
        src ← memcpy (ctx_read_bytes ctx 12 4) 4;
        dst ← memcpy (ctx_read_bytes ctx 16 4) 4;
        let raw_options := (read_options ctx header_len).1 in
        let parsed := (read_options ctx header_len).2 in
        let computed := calculate_checksum (ctx_read_bytes ctx 0 header_len) in
        let checksum_valid := if validate_checksum opts then computed =? 0 else true in
        if validate_checksum opts && negb checksum_valid && negb (allow_bad_checksum opts)
        then make_error InvalidChecksum "IPv4 header checksum mismatch" 0
        else if total_length <? header_len
        then make_error InvalidLength "Total length less than header length" 0
        else
          let header :=
            mkIPv4Header version ihl (Z.land (Z.shiftr tos 2) 63) (Z.land tos 3) total_length
              (ctx_read_be16 ctx 4) (IPv4Flags_of (Z.land (Z.shiftr flags_frag 13) 7))
              (Z.land flags_frag 0x1FFF) ttl protocol (ctx_read_be16 ctx 10) src dst
              raw_options checksum_valid (po_options parsed) (po_malformed parsed) in
          let next := sub_context ctx header_len in
          let li := layer_info next in
          Done (header,
                with_layer_info next
                  (mkLayerInfo (li_ethertype li) protocol (li_src_port li) (li_dst_port li))).

(** ** The contract *)

#[export] Instance IPv4Decoder_contract opts : DecoderContract (decode_impl opts) header_size.
Proof.
  split.
  - intros ctx. unfold decode_impl, has_bytes, MIN_HEADER_SIZE.
    decode_guards; try lia; rewrite length_ctx_read_bytes; lia.
  - intros ctx h next H. unfold decode_impl, has_bytes in H. decode_inv H.
    apply Done_pair_inj in H as [<- _]. unfold header_size. cbn [ip_ihl]. lia.
  - intros ctx h next H. unfold decode_impl, has_bytes in H. decode_inv H.
    apply Done_pair_inj in H as [<- <-]. unfold header_size. cbn [ip_ihl].
    rewrite sub_context_in by lia. split; reflexivity.
Qed.

(** ** The options parser *)

(** More fuel than bytes gives the same result: the loop terminates. *)
Lemma parse_options_fuel fuel fuel' raw :
  (length raw < fuel)%nat -> (length raw < fuel')%nat ->
  parse_options_loop fuel raw = parse_options_loop fuel' raw.
Proof.
  revert fuel' raw. induction fuel as [|fuel IH]; intros fuel' raw Hf Hf'; [lia|].
  destruct fuel' as [|fuel']; [lia|]. destruct raw as [|k rest]; [reflexivity|].
  cbn [length] in Hf, Hf'. cbn [parse_options_loop]. pose proof (u8_range k).
  destruct (u8 k =? 0); [reflexivity|]. destruct (u8 k =? 1); [f_equal; apply IH; lia|].
  destruct rest as [|l rest]; [reflexivity|].
  destruct ((u8 l <? 2) || (zlen (k :: l :: rest) <? u8 l)) eqn:Hlen; [reflexivity|].
  apply orb_false_elim in Hlen as [Hlen _]. bool_to_prop.
  f_equal; apply IH; rewrite length_drop; cbn [length] in *; lia.
Qed.

(** The layout of an option: one byte for EOL and NOP, else type, length, data. *)
Definition encode_option (o : Option) : list byte :=
  if opt_type o <=? 1 then [to_byte (opt_type o)]
  else to_byte (opt_type o) :: to_byte (zlen (opt_data o) + 2) :: opt_data o.

Definition encode_options (os : list Option) : list byte := concat (encode_option <$> os).

Record wf_option (o : Option) : Prop := {
  wf_opt_type : fits 8 (opt_type o);
  wf_opt_single : opt_type o <= 1 -> opt_data o = [];
  wf_opt_len : zlen (opt_data o) <= 253
}.

Lemma parse_options_cons o rest :
  wf_option o -> opt_type o <> 0 ->
  parseIpv4Options (encode_option o ++ rest) = po_cons o (parseIpv4Options rest).
Proof.
  intros [Ht Hs Hl] Hne. destruct o as [t d]. cbn in Ht, Hs, Hl, Hne. unfold fits in Ht.
  unfold parseIpv4Options at 1. unfold encode_option. cbn [opt_type opt_data].
  destruct (t <=? 1) eqn:Hle; bool_to_prop; cbn [app length].
  - rewrite (Hs Hle). remember (S (length rest)) as f eqn:Hf. cbn [parse_options_loop]. rewrite u8_to_byte.
    replace (t mod 256) with 1 by lia. cbn [Z.eqb Pos.eqb]. replace t with 1 by lia. rewrite Hf. reflexivity.
  - remember (S (S (length (d ++ rest)))) as f eqn:Hf. cbn [parse_options_loop]. rewrite !u8_to_byte.
    rewrite !Z.mod_small by lia.
    rewrite (proj2 (Z.eqb_neq t 0)), (proj2 (Z.eqb_neq t 1)) by lia.
    rewrite (proj2 (Z.ltb_ge (zlen d + 2) 2)), (proj2 (Z.ltb_ge _ (zlen d + 2)))
      by (cbn [length]; rewrite ?length_app; lia).
    cbn [orb]. replace (Z.to_nat (zlen d + 2)) with (2 + length d)%nat by lia.
    replace (Z.to_nat (zlen d + 2 - 2)) with (length d) by lia.
    cbn [drop Nat.add]. rewrite drop_0, take_app_length, drop_app_length.
    f_equal.
    + f_equal. destruct (2 <? zlen d + 2) eqn:H2; [reflexivity|]. bool_to_prop.
      destruct d; [reflexivity | cbn in H2; lia].
    + apply parse_options_fuel; rewrite ?Hf; cbn [length]; cbn [length]; rewrite ?length_app; lia.
Qed.

Lemma parse_options_eol rest :
  parseIpv4Options (x00 :: rest) = mkParseOptionsResult [mkOption 0 []] false.
Proof. reflexivity. Qed.

(** [po_options] of a list of options followed by a parsed tail. *)
Lemma parse_options_app os rest :
  Forall (fun o => wf_option o /\ opt_type o <> 0) os ->
  parseIpv4Options (encode_options os ++ rest) =
  mkParseOptionsResult (os ++ po_options (parseIpv4Options rest))
                       (po_malformed (parseIpv4Options rest)).
Proof.
  induction 1 as [|o os [Ho Hne] _ IH]; cbn [encode_options fmap list_fmap concat app].
  - destruct (parseIpv4Options rest); reflexivity.
  - rewrite <- app_assoc, parse_options_cons by assumption.
    fold (encode_options os). rewrite IH. reflexivity.
Qed.

(** What the parser returns on any bytes: the options read are well formed and
    laid out at the start of the bytes; parsing stopped at the end, after an
    EOL, or at an option whose length byte is missing or wrong, and only in the
    last case are the options reported malformed. *)
Definition options_read (raw : list byte) (r : ParseOptionsResult) : Prop :=
  Forall wf_option (po_options r) /\
  exists rest, raw = encode_options (po_options r) ++ rest /\
    if po_malformed r then
      exists k, head rest = Some k /\ 1 < u8 k /\
        (length rest = 1%nat \/ exists l, rest !! 1%nat = Some l /\ (u8 l < 2 \/ zlen rest < u8 l))
    else rest = [] \/ last (po_options r) = Some (mkOption 0 []).

Lemma options_read_cons o tail r :
  wf_option o -> options_read tail r -> options_read (encode_option o ++ tail) (po_cons o r).
Proof.
  intros Ho (Hall & rest & -> & Hend). split; [constructor; assumption|]. exists rest. split.
  - unfold encode_options. cbn [po_cons po_options fmap list_fmap concat]. apply app_assoc.
  - cbn [po_cons po_options po_malformed]. destruct (po_malformed r); [assumption|].
    destruct Hend as [->|Hlast]; [auto|]. right. destruct (po_options r); [discriminate | exact Hlast].
Qed.

(** The option of more than one byte at the start of the bytes. *)
Lemma option_bytes (k l : byte) (rest : list byte) :
  1 < u8 k -> 2 <= u8 l <= zlen (k :: l :: rest) ->
  let o := mkOption (u8 k) (if 2 <? u8 l then take (Z.to_nat (u8 l - 2)) (drop 2 (k :: l :: rest)) else []) in
  wf_option o /\ k :: l :: rest = encode_option o ++ drop (Z.to_nat (u8 l)) (k :: l :: rest).
Proof.
  intros Hk Hl o. cbn [length] in Hl. pose proof (u8_range k). pose proof (u8_range l).
  assert (Hd : opt_data o = take (Z.to_nat (u8 l - 2)) rest).
  { unfold o. cbn [opt_data]. destruct (2 <? u8 l) eqn:E; bool_to_prop; [reflexivity|].
    replace (u8 l - 2) with 0 by lia. reflexivity. }
  assert (Hdl : zlen (opt_data o) = u8 l - 2) by (rewrite Hd, length_take; lia).
  split; [split; [unfold fits; cbn; lia | cbn; lia | lia]|].
  unfold encode_option. rewrite Hdl, Hd. cbn [opt_type o]. rewrite (proj2 (Z.leb_gt _ _)) by lia. cbn [app].
  replace (u8 l - 2 + 2) with (u8 l) by lia. rewrite !to_byte_u8.
  replace (Z.to_nat (u8 l)) with (2 + Z.to_nat (u8 l - 2))%nat by lia.
  cbn [Nat.add drop]. rewrite take_drop. reflexivity.
Qed.

(** An option of one byte, EOL or NOP. *)
Lemma single_bytes (k : byte) (rest : list byte) :
  u8 k <= 1 -> wf_option (mkOption (u8 k) []) /\ k :: rest = encode_option (mkOption (u8 k) []) ++ rest.
Proof.
  intros Hk. pose proof (u8_range k). split; [split; cbn; [unfold fits; lia | auto | lia]|].
  unfold encode_option. cbn [opt_type]. rewrite (proj2 (Z.leb_le _ _)), to_byte_u8 by lia. reflexivity.
Qed.

Lemma parse_options_sound fuel raw :
  (length raw < fuel)%nat -> options_read raw (parse_options_loop fuel raw).
Proof.
  revert raw. induction fuel as [|fuel IH]; intros raw Hf; [lia|].
  destruct raw as [|k rest]; cbn [parse_options_loop]; [split; [constructor | exists []; cbn; auto]|].
  cbn [length] in Hf. pose proof (u8_range k) as Hk.
  destruct (u8 k =? 0) eqn:H0; bool_to_prop.
  { destruct (single_bytes k rest) as [Hwf Heq]; [lia|]. rewrite H0 in *. split; [repeat constructor; apply Hwf|].
    exists rest. cbn [po_options po_malformed]. split; [|auto].
    unfold encode_options. cbn [fmap list_fmap concat]. rewrite app_nil_r. exact Heq. }
  destruct (u8 k =? 1) eqn:H1; bool_to_prop.
  { destruct (single_bytes k rest) as [Hwf ->]; [lia|]. rewrite H1 in *.
    apply options_read_cons; [exact Hwf | apply IH; lia]. }
  destruct rest as [|l rest].
  { split; [constructor|]. exists [k]. cbn. split; [reflexivity|]. exists k. split_and!; auto. lia. }
  destruct ((u8 l <? 2) || (zlen (k :: l :: rest) <? u8 l)) eqn:Hlen.
  { split; [constructor|]. exists (k :: l :: rest). split; [reflexivity|]. exists k.
    cbn [po_malformed head lookup list_lookup]. split_and!; [reflexivity | lia |].
    right. exists l. split; [reflexivity|]. apply orb_prop in Hlen as [Hlen|Hlen]; bool_to_prop; auto. }
  apply orb_false_elim in Hlen as [Hl2 Hln]. bool_to_prop.
  destruct (option_bytes k l rest) as [Hwf Heq]; [lia | lia |].
  rewrite Heq at 1. apply options_read_cons; [exact Hwf|]. apply IH.
  rewrite length_drop. cbn [length] in Hf |- *. lia.
Qed.

(** The options parser is exact.  On the layout of any well-formed options
    it returns those options and reports nothing malformed, also when an EOL and
    padding follow; and on any bytes at all it returns well-formed options laid
    out at their start, malformed exactly when it stopped at an option of more
    than one byte whose length byte is missing, below 2 or past the end. *)
Theorem ipv4_options_exact (os : list Option) (raw padding : list byte) :
  (Forall (fun o => wf_option o /\ opt_type o <> 0) os ->
   parseIpv4Options (encode_options os) = mkParseOptionsResult os false /\
   parseIpv4Options (encode_options os ++ x00 :: padding) =
     mkParseOptionsResult (os ++ [mkOption 0 []]) false) /\
  options_read raw (parseIpv4Options raw).
Proof.
  split.
  - intros Hos. split.
    + rewrite <- (app_nil_r (encode_options os)), parse_options_app by assumption.
      cbn. rewrite app_nil_r. reflexivity.
    + rewrite parse_options_app by assumption. reflexivity.
  - apply parse_options_sound. lia.
Qed.

(** ** The checksum *)

Lemma words_sum_odd buf :
  zlen buf mod 2 <> 0 ->
  forall sum, 0 <= sum -> sum + 65535 * (zlen buf + 1) < 2 ^ 32 ->
  uint 32 (sum_even_words buf sum + Z.shiftl (u8 (List.last buf x00)) 8) = sum + words_sum buf.
Proof.
  induction buf as [|b|b0 b1 buf IH] using pair_ind; intros Hodd sum Hs Hlt;
    cbn [sum_even_words words_sum length] in *.
  - destruct Hodd. reflexivity.
  - cbn [List.last]. rewrite (shiftl_mul_k _ _ 256) by (reflexivity || lia).
    apply uint_small. unfold fits. byte_ranges. lia.
  - assert (Hne : buf <> []) by (intros ->; cbn in Hodd; lia).
    replace (List.last (b0 :: b1 :: buf) x00) with (List.last buf x00)
      by (destruct buf; [done | reflexivity]).
    rewrite be16_lor, (uint_small 16) by apply be16_fits.
    pose proof (be16_fits b0 b1) as Hf. unfold fits in Hf.
    rewrite (uint_small 32 (sum + be16 b0 b1)) by (unfold fits; lia). rewrite IH by lia. lia.
Qed.

Lemma words_sum_even buf :
  zlen buf mod 2 = 0 ->
  forall sum, 0 <= sum -> sum + 65535 * (zlen buf + 1) < 2 ^ 32 ->
  sum_even_words buf sum = sum + words_sum buf.
Proof.
  induction buf as [|b|b0 b1 buf IH] using pair_ind; intros Heven sum Hs Hlt;
    cbn [sum_even_words words_sum length] in *.
  - lia.
  - cbn in Heven. lia.
  - rewrite be16_lor, (uint_small 16) by apply be16_fits.
    pose proof (be16_fits b0 b1) as Hf. unfold fits in Hf.
    rewrite uint_small by (unfold fits; lia). rewrite IH by lia. lia.
Qed.

(** On any buffer of up to 64 KiB the decoder's checksum is the complement of the
    folded sum of its words. *)
Lemma calculate_checksum_spec buf :
  zlen buf <= 65534 -> calculate_checksum buf = complement_fold (words_sum buf).
Proof.
  intros Hlen. unfold calculate_checksum. destruct (zlen buf mod 2 =? 0) eqn:Hp; bool_to_prop.
  - rewrite words_sum_even by lia. reflexivity.
  - rewrite words_sum_odd by lia. reflexivity.
Qed.

(** Writes [c] into the checksum field, bytes 10 and 11. *)
Definition set_checksum (header : list byte) (c : Z) : list byte :=
  take 10 header ++ write_be16 c ++ drop 12 header.

Lemma header_split (header : list byte) :
  12 <= zlen header ->
  exists pre c0 c1 post, header = pre ++ c0 :: c1 :: post /\ length pre = 10%nat /\
    take 10 header = pre /\ drop 12 header = post.
Proof.
  intros Hlen. exists (take 10 header). destruct (drop 10 header) as [|c0 [|c1 post]] eqn:E.
  1,2: apply (f_equal length) in E; rewrite length_drop in E; cbn in E; lia.
  exists c0, c1, post. rewrite <- E. split_and!.
  - symmetry. apply take_drop.
  - rewrite length_take. lia.
  - reflexivity.
  - change (drop 12 header) with (drop (10 + 2) header).
    rewrite <- (drop_drop header), E. reflexivity.
Qed.

(** The decoder's checksum of a header with [v] in its checksum field. *)
Lemma calculate_checksum_set header v :
  12 <= zlen header <= 65532 -> fits 16 v ->
  calculate_checksum (set_checksum header v) = complement_fold (words_sum (take 10 header ++ drop 12 header) + v).
Proof.
  intros Hlen Hv. destruct (header_split header) as (pre & c0 & c1 & post & Hh & Hpre & Ht & Hdr); [lia|].
  assert (Hlens : zlen header = 12 + zlen post) by (rewrite Hh, length_app; cbn [length]; lia).
  assert (He : Nat.Even (length pre)) by (exists 5%nat; lia).
  rewrite calculate_checksum_spec
    by (unfold set_checksum; rewrite Ht, Hdr, !length_app; cbn [length write_be16]; lia).
  unfold set_checksum. rewrite Ht, Hdr, words_sum_app_even by assumption.
  unfold write_be16. cbn [app words_sum].
  replace (be16 (to_byte (Z.shiftr v 8)) (to_byte (Z.land v 255))) with v.
  - f_equal. rewrite words_sum_app_even by assumption. lia.
  - pose proof (read_write_be16 v [] Hv) as Hr. unfold write_be16 in Hr. cbn [app] in Hr.
    rewrite read_be16_cons in Hr. congruence.
Qed.

(** The two checksum routines agree and detect corruption as RFC 791 asks:
    for every header of at least 12 bytes, [Checksum::ipv4_checksum] is
    [IPv4Decoder::calculate_checksum] of the header with its checksum field
    zeroed; writing that value into the field makes [calculate_checksum] zero;
    and any field value that verifies is congruent to it modulo 65535. *)
Theorem ipv4_checksum_agreement (header : list byte) (c : Z) :
  12 <= zlen header <= 65532 -> fits 16 c ->
  ipv4_checksum header = calculate_checksum (set_checksum header 0) /\
  calculate_checksum (set_checksum header (ipv4_checksum header)) = 0 /\
  (calculate_checksum (set_checksum header c) = 0 -> c mod 65535 = ipv4_checksum header mod 65535).
Proof.
  intros Hlen Hc. destruct (header_split header) as (pre & c0 & c1 & post & Hh & Hpre & Ht & Hdr);
    [lia|].
  assert (Hlens : zlen header = 12 + zlen post) by (rewrite Hh, length_app; cbn [length]; lia).
  assert (He : Nat.Even (length pre)) by (exists 5%nat; lia).
  assert (Hset : forall v, fits 16 v ->
    calculate_checksum (set_checksum header v) = complement_fold (words_sum (pre ++ post) + v))
    by (intros v Hv; rewrite calculate_checksum_set, Ht, Hdr by assumption; reflexivity).
  assert (Hip : ipv4_checksum header = complement_fold (words_sum (pre ++ post))).
  { rewrite Hh, ipv4_checksum_skips by assumption. f_equal.
    rewrite process_buffer_spec; [lia | lia | rewrite length_app; lia]. }
  pose proof (words_sum_bounds (pre ++ post)) as Hb. rewrite length_app in Hb.
  destruct (complement_fold_spec (words_sum (pre ++ post))) as (r & Hr & Hr2 & Hrm & Hrz); [lia|].
  split_and!.
  - rewrite Hip, Hset by (unfold fits; lia). f_equal. lia.
  - rewrite Hset by (rewrite Hip, Hr; unfold fits; lia). rewrite Hip.
    apply complement_fold_cancel; lia.
  - rewrite Hset by assumption. intros Hz. rewrite Hip, Hr. unfold fits in Hc.
    destruct (complement_fold_spec (words_sum (pre ++ post) + c)) as (r' & Hr' & ? & Hm & _); [lia|].
    rewrite Hr' in Hz. lia.
Qed.

Lemma ipv4_checksum_agreement_witness :
  let header := [x45; x00; x00; x73; x00; x00; x40; x00; x40; x11; xb8; x61;
                 xc0; xa8; x00; x01; xc0; xa8; x00; xc7] in
  ipv4_checksum header = calculate_checksum (set_checksum header 0) /\
  calculate_checksum (set_checksum header (ipv4_checksum header)) = 0 /\
  (calculate_checksum (set_checksum header 0xb861) = 0 ->
   0xb861 mod 65535 = ipv4_checksum header mod 65535).
Proof. intros header. apply ipv4_checksum_agreement; vm_compute; split; congruence. Defined.

(** ** The header layout *)

Definition flags_value (f : IPv4Flags) : Z :=
  4 * Z.b2z (reserved f) + 2 * Z.b2z (dont_fragment f) + Z.b2z (more_fragments f).

(** The bytes of a header, as RFC 791 lays them out. *)
Definition encode_header (h : IPv4Header) : list byte :=
  to_byte (ip_version h * 16 + ip_ihl h) :: to_byte (ip_dscp h * 4 + ip_ecn h) ::
  write_be16 (ip_total_length h) ++ write_be16 (ip_identification h) ++
  write_be16 (flags_value (ip_flags h) * 8192 + ip_fragment_offset h) ++
  to_byte (ip_ttl h) :: to_byte (ip_protocol h) ::
  write_be16 (ip_checksum h) ++ ip_src h ++ ip_dst h ++ ip_options h.

(** The headers that the decoder accepts with options [opts]. *)
Record wf_header (opts : Options) (h : IPv4Header) : Prop := {
  wf_version : ip_version h = 4;
  wf_ihl : 5 <= ip_ihl h <= 15;
  wf_dscp : fits 6 (ip_dscp h);
  wf_ecn : fits 2 (ip_ecn h);
  wf_total : header_size h <= ip_total_length h < 2 ^ 16;
  wf_id : fits 16 (ip_identification h);
  wf_frag : fits 13 (ip_fragment_offset h);
  wf_ttl : fits 8 (ip_ttl h);
  wf_proto : fits 8 (ip_protocol h);
  wf_cksum : fits 16 (ip_checksum h);
  wf_src : length (ip_src h) = 4%nat;
  wf_dst : length (ip_dst h) = 4%nat;
  wf_options : zlen (ip_options h) = header_size h - MIN_HEADER_SIZE;
  wf_parsed : parseIpv4Options (ip_options h) =
              mkParseOptionsResult (ip_parsed_options h) (ip_options_malformed h);
  wf_valid : ip_checksum_valid h =
             if validate_checksum opts then calculate_checksum (encode_header h) =? 0 else true;
  wf_accept : ip_checksum_valid h || allow_bad_checksum opts = true
}.

Lemma flags_roundtrip f : IPv4Flags_of (flags_value f) = f.
Proof. destruct f as [[] [] []]; reflexivity. Qed.

Lemma flags_value_of x : 0 <= x < 8 -> flags_value (IPv4Flags_of x) = x.
Proof.
  intros Hx.
  assert (H : x = 0 \/ x = 1 \/ x = 2 \/ x = 3 \/ x = 4 \/ x = 5 \/ x = 6 \/ x = 7) by lia.
  destruct H as [->|[->|[->|[->|[->|[->|[->| ->]]]]]]]; reflexivity.
Qed.

Lemma flags_value_range f : 0 <= flags_value f < 8.
Proof. destruct f as [[] [] []]; vm_compute; split; congruence. Qed.

Definition next_of (ctx : DecodeContext) (h : IPv4Header) (payload : list byte) : DecodeContext :=
  mkDecodeContext payload (original_offset ctx + header_size h) (timestamp ctx)
    (mkLayerInfo (li_ethertype (layer_info ctx)) (ip_protocol h)
                 (li_src_port (layer_info ctx)) (li_dst_port (layer_info ctx))).

(** The options of a header are the bytes after the first twenty. *)
Lemma read_options_spec ctx fixed opts payload hl :
  length fixed = 20%nat -> data ctx = fixed ++ opts ++ payload -> zlen opts = hl - 20 ->
  read_options ctx hl = (opts, parseIpv4Options opts).
Proof.
  intros Hf Hd Hl. unfold read_options, MIN_HEADER_SIZE. destruct (20 <? hl) eqn:E; bool_to_prop.
  - rewrite (ctx_read_bytes_drop ctx 20 (hl - 20) opts payload); try lia; [reflexivity | |].
    + intros ->. cbn in Hl. lia.
    + rewrite Hd. apply drop_app_Z. lia.
  - destruct opts; [reflexivity | cbn in Hl; lia].
Qed.

Lemma read_header_bytes ctx hdr payload :
  data ctx = hdr ++ payload -> hdr <> [] -> ctx_read_bytes ctx 0 (zlen hdr) = hdr.
Proof.
  intros Hd Hne. apply (ctx_read_bytes_drop ctx 0 _ hdr payload); auto; lia.
Qed.

(** The packed fields come apart again. *)
Lemma subfield_ver_ihl ihl :
  5 <= ihl <= 15 ->
  Z.land (Z.shiftr ((4 * 16 + ihl) mod 256) 4) 15 = 4 /\ Z.land ((4 * 16 + ihl) mod 256) 15 = ihl.
Proof. intros. bits_arith. lia. Qed.

Lemma subfield_ds_ecn ds ecn :
  fits 6 ds -> fits 2 ecn ->
  Z.land (Z.shiftr (u8 (to_byte (ds * 4 + ecn))) 2) 63 = ds /\
  Z.land (u8 (to_byte (ds * 4 + ecn))) 3 = ecn.
Proof. unfold fits. intros. rewrite u8_to_byte. bits_arith. lia. Qed.

Lemma subfield_flags f off :
  0 <= f < 8 -> fits 13 off ->
  IPv4Flags_of (Z.land (Z.shiftr (f * 8192 + off) 13) 7) = IPv4Flags_of f /\
  Z.land (f * 8192 + off) 0x1FFF = off.
Proof.
  unfold fits. intros. split; [f_equal|]; bits_arith; lia.
Qed.

Lemma list_4 {A} (l : list A) : length l = 4%nat -> exists a b c d, l = [a; b; c; d].
Proof. intros H. destruct_list l H. eauto. Qed.

Lemma ipv4_decode_encode opts ctx h payload :
  data ctx = encode_header h ++ payload -> wf_header opts h ->
  decode_impl opts ctx = Done (h, next_of ctx h payload).
Proof.
  intros Hd [Hv Hihl Hds Hec Htot Hid Hfr Httl Hpr Hck Hsrc Hdst Hopt Hparse Hvalid Hacc].
  assert (Hlen : zlen (encode_header h) = ip_ihl h * 4).
  { unfold encode_header. cbn [length app write_be16]. rewrite !length_app.
    unfold header_size, MIN_HEADER_SIZE in Hopt. lia. }
  assert (Hne : encode_header h <> []) by discriminate.
  pose proof (read_header_bytes ctx _ _ Hd Hne) as Hall. rewrite Hlen in Hall.
  assert (Hsize : data_size ctx = ip_ihl h * 4 + zlen payload) by (rewrite Hd, length_app; lia).
  pose proof (flags_value_range (ip_flags h)) as Hfl.
  assert (Hff : fits 16 (flags_value (ip_flags h) * 8192 + ip_fragment_offset h))
    by (unfold fits in *; lia).
  destruct (list_4 _ Hsrc) as (s0 & s1 & s2 & s3 & Hs). destruct (list_4 _ Hdst) as (d0 & d1 & d2 & d3 & Ht).
  assert (Htl : fits 16 (ip_total_length h)) by (unfold fits, header_size in *; lia).
  assert (Hro : read_options ctx (ip_ihl h * 4) = (ip_options h, parseIpv4Options (ip_options h))).
  { apply (read_options_spec ctx (take 20 (encode_header h)) _ payload).
    - rewrite length_take. lia.
    - rewrite Hd. unfold encode_header. rewrite Hs, Ht. cbn. reflexivity.
    - unfold header_size, MIN_HEADER_SIZE in Hopt. lia. }
  destruct (subfield_ds_ecn _ _ Hds Hec) as [Hdsc Hecn].
  destruct (subfield_flags _ _ Hfl Hfr) as [Hflg Hoff]. rewrite flags_roundtrip in Hflg.
  pose proof Hd as Hd'.
  unfold decode_impl, has_bytes. rewrite Hsize. unfold MIN_HEADER_SIZE in *.
  rewrite (proj2 (Z.leb_le 20 _)) by lia. cbn [negb].
  unfold encode_header in Hd. rewrite Hs, Ht in Hd. cbn [app write_be16] in Hd.
  erewrite (byte_at_drop _ 0) by (first [rewrite Hd; reflexivity | lia]). rewrite bind_Done.
  rewrite u8_to_byte.
  destruct (subfield_ver_ihl _ Hihl) as [E1 E2]. rewrite Hv. cbn zeta. rewrite E1, E2. cbn [negb Z.eqb Pos.eqb].
  rewrite (proj2 (Z.ltb_ge (ip_ihl h) 5)), (proj2 (Z.leb_le (ip_ihl h * 4) _)) by lia. cbn [negb].
  erewrite (byte_at_drop _ 1), bind_Done by (first [rewrite Hd; reflexivity | lia]).
  erewrite (byte_at_drop _ 8), bind_Done by (first [rewrite Hd; reflexivity | lia]).
  erewrite (byte_at_drop _ 9), bind_Done by (first [rewrite Hd; reflexivity | lia]).
  eval_memcpy Hd [s0; s1; s2; s3]. eval_memcpy Hd [d0; d1; d2; d3]. eval_reads Hd.
  rewrite Hro, Hall, Hparse, <- Hvalid, Hdsc, Hecn, Hflg, Hoff. cbn [fst snd po_options po_malformed].
  rewrite !u8_to_byte, !(Z.mod_small _ 256) by assumption.
  rewrite (proj2 (Z.ltb_ge _ _)) by (unfold header_size in Htot; lia).
  replace (validate_checksum opts && negb (ip_checksum_valid h) && negb (allow_bad_checksum opts))
    with false by (destruct (ip_checksum_valid h), (allow_bad_checksum opts);
                   rewrite ?andb_false_r; [..| discriminate Hacc]; reflexivity).
  rewrite sub_context_in by lia. unfold next_of, header_size. rewrite Hd', drop_app_Z by lia.
  rewrite <- Hs, <- Ht, <- Hv. destruct h. reflexivity.
Qed.


(** Packing the subfields of a byte or word gives it back. *)
Lemma pack_ver_ihl b :
  Z.land (Z.shiftr (u8 b) 4) 15 = 4 -> to_byte (4 * 16 + Z.land (u8 b) 15) = b.
Proof.
  intros Hv. apply u8_inj. rewrite u8_to_byte. revert Hv. pose proof (u8_range b).
  bits_arith. lia.
Qed.

Lemma pack_ds_ecn b :
  to_byte (Z.land (Z.shiftr (u8 b) 2) 63 * 4 + Z.land (u8 b) 3) = b.
Proof. apply u8_inj. rewrite u8_to_byte. pose proof (u8_range b). bits_arith. lia. Qed.

Lemma pack_flags v :
  fits 16 v ->
  flags_value (IPv4Flags_of (Z.land (Z.shiftr v 13) 7)) * 8192 + Z.land v 0x1FFF = v.
Proof.
  intros Hv. unfold fits in Hv. rewrite flags_value_of by (bits_arith; lia). bits_arith. lia.
Qed.

(** The options the decoder stores are the bytes between the fixed header and
    the payload. *)
Lemma read_options_take ctx fixed rest hl :
  data ctx = fixed ++ rest -> length fixed = 20%nat -> 20 <= hl <= data_size ctx ->
  read_options ctx hl = (take (Z.to_nat (hl - 20)) rest, parseIpv4Options (take (Z.to_nat (hl - 20)) rest)).
Proof.
  intros Hd Hf Hl. apply (read_options_spec _ fixed _ (drop (Z.to_nat (hl - 20)) rest)).
  - assumption.
  - rewrite take_drop. assumption.
  - rewrite Hd, length_app, Hf in Hl. rewrite length_take. lia.
Qed.

Lemma take_header (fixed rest : list byte) hl :
  length fixed = 20%nat -> 20 <= hl ->
  take (Z.to_nat hl) (fixed ++ rest) = fixed ++ take (Z.to_nat (hl - 20)) rest.
Proof.
  intros Hf Hl. rewrite take_app, Hf, take_ge by lia. do 2 f_equal. lia.
Qed.

Lemma check_accepts v a c :
  v && negb (if v then c else true) && negb a = false -> (if v then c else true) || a = true.
Proof. destruct v, a, c; auto. Qed.

(** A header with the fields of twenty bytes is laid out in these bytes and its options. *)
Lemma encode_header_bytes (b b0 b1 b2 b3 b4 b5 b6 b7 b8 b9 b10 b11 b12 b13 b14 b15 b16 b17 b18 : byte)
    raw_options valid parsed malformed :
  Z.land (Z.shiftr (u8 b) 4) 15 = 4 ->
  encode_header
    (mkIPv4Header (Z.land (Z.shiftr (u8 b) 4) 15) (Z.land (u8 b) 15) (Z.land (Z.shiftr (u8 b0) 2) 63)
       (Z.land (u8 b0) 3) (be16 b1 b2) (be16 b3 b4) (IPv4Flags_of (Z.land (Z.shiftr (be16 b5 b6) 13) 7))
       (Z.land (be16 b5 b6) 0x1FFF) (u8 b7) (u8 b8) (be16 b9 b10) [b11; b12; b13; b14] [b15; b16; b17; b18]
       raw_options valid parsed malformed) =
  [b; b0; b1; b2; b3; b4; b5; b6; b7; b8; b9; b10; b11; b12; b13; b14; b15; b16; b17; b18] ++ raw_options.
Proof.
  intros Hver. unfold encode_header. cbn [ip_version ip_ihl ip_dscp ip_ecn ip_total_length ip_identification
    ip_flags ip_fragment_offset ip_ttl ip_protocol ip_checksum ip_src ip_dst ip_options].
  rewrite Hver, pack_ver_ihl, pack_ds_ecn, pack_flags by (assumption || apply be16_fits).
  rewrite !write_be16_be16, !to_byte_u8. reflexivity.
Qed.

(** The header bytes and the option bytes, when the header fits the data. *)
Lemma header_bytes_take ctx fixed d hl :
  data ctx = fixed ++ d -> length fixed = 20%nat -> 20 <= hl <= data_size ctx ->
  ctx_read_bytes ctx 0 hl = fixed ++ take (Z.to_nat (hl - 20)) d /\ zlen (take (Z.to_nat (hl - 20)) d) = hl - 20.
Proof.
  intros Hd Hf Hl. split.
  - unfold ctx_read_bytes. rewrite (proj2 (Z.leb_le _ _)) by lia. change (Z.to_nat 0) with O. rewrite drop_0.
    rewrite Hd, take_header; [reflexivity | assumption | lia].
  - rewrite Hd, length_app, Hf in Hl. rewrite length_take. lia.
Qed.

(** Conversely, a header that the decoder returns is one of the accepted ones,
    laid out in exactly the bytes it consumed. *)
Lemma ipv4_decode_sound opts ctx h next :
  decode_impl opts ctx = Done (h, next) ->
  wf_header opts h /\ data ctx = encode_header h ++ data next.
Proof.
  intros H. pose proof (decode_fits (header_size:=header_size) _ _ _ H) as Hfit.
  destruct (decode_next (header_size:=header_size) _ _ _ H) as [Hnext _].
  enough (Hw : wf_header opts h /\ encode_header h = take (Z.to_nat (header_size h)) (data ctx)).
  { destruct Hw as [? Hw]. split; [assumption|]. rewrite Hw, Hnext. symmetry. apply take_drop. }
  clear Hnext. assert (Hd : exists d, data ctx = d) by eauto. destruct Hd as [d Hd].
  revert H Hfit. unfold decode_impl, has_bytes, MIN_HEADER_SIZE.
  destruct (20 <=? data_size ctx) eqn:H20; [bool_to_prop; cbn [negb] | discriminate].
  rewrite Hd in H20. do 20 (destruct d as [|? d]; [cbn in H20; lia|]). clear H20.
  erewrite (byte_at_drop _ 0), bind_Done by (first [rewrite Hd; reflexivity | lia]). cbn zeta.
  destruct (Z.land (Z.shiftr (u8 b) 4) 15 =? 4) eqn:Hver; [bool_to_prop; cbn [negb] | discriminate].
  destruct (Z.land (u8 b) 15 <? 5) eqn:Hihl; [discriminate | bool_to_prop].
  assert (Hihl4 : fits 4 (Z.land (u8 b) 15)) by (apply land_fits; [lia | reflexivity]).
  destruct (Z.land (u8 b) 15 * 4 <=? data_size ctx) eqn:Hhl; [bool_to_prop; cbn [negb] | discriminate].
  erewrite (byte_at_drop _ 1), bind_Done by (first [rewrite Hd; reflexivity | lia]).
  erewrite (byte_at_drop _ 8), bind_Done by (first [rewrite Hd; reflexivity | lia]).
  erewrite (byte_at_drop _ 9), bind_Done by (first [rewrite Hd; reflexivity | lia]).
  eval_memcpy Hd [b11; b12; b13; b14]. eval_memcpy Hd [b15; b16; b17; b18].
  repeat eval_be16_bytes Hd.
  set (fixed := [b; b0; b1; b2; b3; b4; b5; b6; b7; b8; b9; b10; b11; b12; b13; b14; b15; b16; b17; b18]).
  assert (Hd' : data ctx = fixed ++ d) by exact Hd.
  rewrite (read_options_take ctx fixed d) by (unfold fits in Hihl4; first [assumption | reflexivity | lia]).
  cbn [fst snd].
  destruct (header_bytes_take ctx fixed d (Z.land (u8 b) 15 * 4)) as [Hhb Hob]; [exact Hd' | reflexivity | lia |].
  rewrite Hhb. set (ob := take _ d) in *.
  destruct (validate_checksum opts && _ && _) eqn:Hck; [discriminate|].
  apply check_accepts in Hck.
  destruct (be16 b1 b2 <? Z.land (u8 b) 15 * 4) eqn:Htl; [discriminate | bool_to_prop].
  intros H Hfit. apply Done_pair_inj in H as [<- _].
  unfold header_size. cbn [ip_ihl].
  match goal with |- wf_header _ ?h /\ _ => assert (Henc : encode_header h = fixed ++ ob) end.
  { apply encode_header_bytes, Hver. }
  split.
  - split; rewrite ?Henc;
      cbn [ip_version ip_ihl ip_dscp ip_ecn ip_total_length ip_identification
      ip_flags ip_fragment_offset ip_ttl ip_protocol ip_checksum ip_src ip_dst ip_options
      ip_checksum_valid ip_parsed_options ip_options_malformed header_size];
      try reflexivity; try apply be16_fits; try apply u8_range; try assumption;
      try (apply land_fits; [lia | reflexivity]).
    + unfold fits in Hihl4. lia.
    + unfold header_size. cbn [ip_ihl]. split; [assumption | apply be16_fits].
    + destruct (parseIpv4Options ob); reflexivity.
    + apply orb_true_iff. exact Hck.
  - rewrite Henc, Hd', take_header; [reflexivity | reflexivity | lia].
Qed.

Lemma ipv4_decode_next opts ctx h next : decode_impl opts ctx = Done (h, next) -> next = next_of ctx h (data next).
Proof.
  intros H. destruct (ipv4_decode_sound _ _ _ _ H) as [Hwf Hd].
  rewrite (ipv4_decode_encode opts ctx h (data next)) in H by assumption.
  apply Done_pair_inj in H as [_ H]. symmetry. exact H.
Qed.

(** [C4] The IPv4 decoder inverts the RFC 791 layout exactly, under every
    setting of its options.  It returns a header and a next context if and only
    if the header is one the options accept (version 4, IHL 5 to 15 matching the
    option bytes, total length at least the header's, every field in its width,
    the parsed options those of the option bytes, the checksum verdict that of
    [calculate_checksum] and accepted), the data is the layout of that header
    followed by the next context's data, and the next context carries the
    protocol and the advanced offset. *)
Theorem ipv4_decode_exact (opts : Options) (ctx : DecodeContext) (h : IPv4Header) (next : DecodeContext) :
  decode_impl opts ctx = Done (h, next) <->
  wf_header opts h /\ data ctx = encode_header h ++ data next /\ next = next_of ctx h (data next).
Proof.
  split.
  - intros H. destruct (ipv4_decode_sound _ _ _ _ H). eauto using ipv4_decode_next.
  - intros (Hwf & Hd & ->). apply ipv4_decode_encode; assumption.
Qed.
