(* ===== verification/Udp.v ===== *)
(** * UDP (src/protocols/udp.cpp, include/wadjet/protocols/udp.hpp)

    The datagram decoder, its contract and its exact inverse, and the checksum
    validator with the pseudo-header. *)

From Stdlib Require Import ZArith Lia.
From Stdlib Require Import Strings.Byte.
From stdpp Require Import base numbers list strings pretty.
From S2P Require Import Prelude ByteOrder Checksum Decoder.

Definition HEADER_SIZE : Z := 8.

(** [ports]. *)
Definition port_SOMEIP_SD : Z := 30490.
Definition port_DOIP : Z := 13400.

Record UdpHeader := mkUdpHeader {
  udp_src_port : Z;
  udp_dst_port : Z;
  udp_length : Z;
  udp_checksum : Z;
  udp_checksum_valid : bool
}.

Definition header_size (h : UdpHeader) : Z := HEADER_SIZE.
Definition payload_size (h : UdpHeader) : Z :=
  if HEADER_SIZE <=? udp_length h then udp_length h - HEADER_SIZE else 0.

Definition is_someip_sd_port (h : UdpHeader) : bool :=
  (udp_src_port h =? port_SOMEIP_SD) || (udp_dst_port h =? port_SOMEIP_SD).
Definition is_doip_port (h : UdpHeader) : bool :=
  (udp_src_port h =? port_DOIP) || (udp_dst_port h =? port_DOIP).

Inductive ChecksumMode := DISABLED | WARNING | STRICT.
Record Options := mkOptions { validate_checksum_opt : bool; checksum_mode : ChecksumMode }.
Definition Options_default : Options := mkOptions false WARNING.

Definition can_decode (ctx : DecodeContext) : bool := li_ip_protocol (layer_info ctx) =? 17.

Definition decode_impl (opts : Options) (ctx : DecodeContext) : decoded (UdpHeader * DecodeContext) :=
  if negb (has_bytes ctx HEADER_SIZE)
  then make_error BufferTooSmall "UDP header too small" 0
  else
    let src_port := ctx_read_be16 ctx 0 in
    let dst_port := ctx_read_be16 ctx 2 in
    let length := ctx_read_be16 ctx 4 in
    let checksum := ctx_read_be16 ctx 6 in
    if length <? HEADER_SIZE
    then make_error InvalidLength ("UDP length too small: " +:+ pretty length) 0
    else
      let checksum_valid := (checksum =? 0) || negb (validate_checksum_opt opts) in
      let header := mkUdpHeader src_port dst_port length checksum checksum_valid in
      let next := sub_context ctx HEADER_SIZE in
      let li := layer_info next in
      Done (header,
            with_layer_info next
              (mkLayerInfo (li_ethertype li) (li_ip_protocol li) src_port dst_port)).

(** ** The checksum validator *)

(** A 32-bit address from four bytes of memory, most significant first. *)
Definition load_addr (ptr : list byte) : decoded Z :=
  b0 ← byte_at ptr 0; b1 ← byte_at ptr 1; b2 ← byte_at ptr 2; b3 ← byte_at ptr 3;
  Done (Z.lor (Z.lor (Z.lor (Z.shiftl b0 24) (Z.shiftl b1 16)) (Z.shiftl b2 8)) b3).

(** The vector constructors read [min(udp_length, 8)] bytes and the range from 8
    to [udp_length], which is no range when [udp_length] is below 8. *)
Definition calculate_checksum (src_ip dst_ip udp_data : list byte) (udp_len : Z) : decoded Z :=
  src_addr ← load_addr src_ip;
  dst_addr ← load_addr dst_ip;
  udp_header ← subspan_count udp_data 0 (Z.min udp_len 8);
  udp_payload ← subspan_count udp_data 8 (udp_len - 8);
  Done (transport_checksum udp_header udp_payload src_addr dst_addr 0x11).

Definition validate_checksum (src_ip dst_ip udp_data : list byte) (udp_len checksum_field : Z)
    : decoded bool :=
  if checksum_field =? 0 then Done true
  else
    calculated ← calculate_checksum src_ip dst_ip udp_data udp_len;
    let calculated := if calculated =? 0 then 0xFFFF else calculated in
    Done (calculated =? checksum_field).

Definition allow_zero_checksum (is_ipv6 : bool) : bool := negb is_ipv6.

(** ** The contract *)

#[export] Instance UdpDecoder_contract opts : DecoderContract (decode_impl opts) header_size.
Proof.
  split.
  - intros ctx. unfold decode_impl, has_bytes. decode_guards.
  - intros ctx h next H. unfold decode_impl, has_bytes, HEADER_SIZE in H. decode_inv H.
    apply Done_pair_inj in H as [<- _]. unfold header_size, HEADER_SIZE. lia.
  - intros ctx h next H. unfold decode_impl, has_bytes, HEADER_SIZE in H. decode_inv H.
    apply Done_pair_inj in H as [<- <-]. unfold header_size, HEADER_SIZE.
    rewrite sub_context_in by lia. split; reflexivity.
Qed.

(** ** The layout *)

Definition encode_header (h : UdpHeader) : list byte :=
  write_be16 (udp_src_port h) ++ write_be16 (udp_dst_port h) ++
  write_be16 (udp_length h) ++ write_be16 (udp_checksum h).

Record wf_header (opts : Options) (h : UdpHeader) : Prop := {
  wf_src : fits 16 (udp_src_port h);
  wf_dst : fits 16 (udp_dst_port h);
  wf_length : HEADER_SIZE <= udp_length h < 2 ^ 16;
  wf_checksum : fits 16 (udp_checksum h);
  wf_valid : udp_checksum_valid h = (udp_checksum h =? 0) || negb (validate_checksum_opt opts)
}.

Definition next_of (ctx : DecodeContext) (h : UdpHeader) (payload : list byte) : DecodeContext :=
  mkDecodeContext payload (original_offset ctx + 8) (timestamp ctx)
    (mkLayerInfo (li_ethertype (layer_info ctx)) (li_ip_protocol (layer_info ctx))
                 (udp_src_port h) (udp_dst_port h)).

Lemma udp_decode_encode opts ctx h payload :
  data ctx = encode_header h ++ payload -> wf_header opts h ->
  decode_impl opts ctx = Done (h, next_of ctx h payload).
Proof.
  intros Hd [Hs Ht Hl Hc Hv]. pose proof Hd as Hd'. unfold HEADER_SIZE in *.
  assert (Hl16 : fits 16 (udp_length h)) by (unfold fits; lia).
  cbn [encode_header app write_be16] in Hd.
  unfold decode_impl, HEADER_SIZE. eval_reads Hd.
  rewrite (proj2 (Z.ltb_ge _ _)) by lia.
  rewrite sub_context_in by (rewrite Hd'; cbn; lia). rewrite Hd', drop_app_Z by reflexivity.
  rewrite <- Hv. destruct h. reflexivity.
Qed.

Lemma udp_decode_sound opts ctx h next :
  decode_impl opts ctx = Done (h, next) ->
  wf_header opts h /\ data ctx = encode_header h ++ data next.
Proof.
  intros H. destruct (decode_next (header_size:=header_size) _ _ _ H) as [Hnext _].
  rewrite Hnext. assert (Hd : exists d, data ctx = d) by eauto. destruct Hd as [d Hd].
  revert H. unfold decode_impl, has_bytes, HEADER_SIZE.
  destruct (8 <=? data_size ctx) eqn:H8; [bool_to_prop; cbn [negb] | discriminate].
  rewrite Hd in H8. do 8 (destruct d as [|? d]; [cbn in H8; lia|]).
  cbn zeta. repeat eval_be16_bytes Hd.
  destruct (be16 b3 b4 <? 8) eqn:Hl; [discriminate | bool_to_prop].
  intros H. apply Done_pair_inj in H as [<- _]. rewrite Hd. split.
  - pose proof (be16_fits b3 b4) as [_ ?]. split; cbn; auto with wadjet; unfold HEADER_SIZE; auto with wadjet.
  - unfold encode_header. cbn [udp_src_port udp_dst_port udp_length udp_checksum].
    rewrite !write_be16_be16. reflexivity.
Qed.

(** The UDP decoder inverts the RFC 768 layout exactly: it returns a header
    and a next context if and only if every field is in its width, the length is
    at least 8, the data is the layout of the header followed by the next
    context's data, and the next context carries the ports.  The length field
    does not delimit the payload: the next context has all the bytes that
    follow, fewer or more than the length announces. *)
Theorem udp_decode_exact (opts : Options) (ctx : DecodeContext) (h : UdpHeader) (next : DecodeContext) :
  decode_impl opts ctx = Done (h, next) <->
  wf_header opts h /\ data ctx = encode_header h ++ data next /\ next = next_of ctx h (data next).
Proof.
  split.
  - intros H. destruct (udp_decode_sound _ _ _ _ H) as [Hwf Hd]. split_and!; [assumption | assumption |].
    rewrite (udp_decode_encode opts ctx h (data next)) in H by assumption.
    apply Done_pair_inj in H as [_ H]. symmetry. exact H.
  - intros (Hwf & Hd & ->). apply udp_decode_encode; assumption.
Qed.

(** ** What the validator accepts *)

Lemma load_addr_4 b0 b1 b2 b3 : load_addr [b0; b1; b2; b3] = Done (be32 b0 b1 b2 b3).
Proof. rewrite <- be32_lor. reflexivity. Qed.

(** The sum that the checksum complements: pseudo-header and datagram. *)
Definition address_sum (ip : list byte) : Z := words_sum ip.
Definition datagram_sum (src_ip dst_ip datagram : list byte) : Z :=
  address_sum src_ip + address_sum dst_ip + 0x11 + zlen datagram + words_sum datagram.

Lemma datagram_sum_bounds src dst d :
  length src = 4%nat -> length dst = 4%nat -> zlen d <= 65535 ->
  0 <= datagram_sum src dst d <= 65535 * 32768 + 65535 * 10 + 65552.
Proof.
  intros Hs Ht Hd. unfold datagram_sum, address_sum.
  pose proof (words_sum_bounds src). pose proof (words_sum_bounds dst). pose proof (words_sum_bounds d).
  lia.
Qed.

Lemma address_sum_spec b0 b1 b2 b3 :
  be32 b0 b1 b2 b3 / 65536 + be32 b0 b1 b2 b3 mod 65536 = address_sum [b0; b1; b2; b3].
Proof.
  unfold address_sum. cbn [words_sum]. unfold be32, be16. byte_ranges. lia.
Qed.

Lemma udp_checksum_spec src dst d :
  length src = 4%nat -> length dst = 4%nat -> 8 <= zlen d <= 65535 ->
  calculate_checksum src dst d (zlen d) = Done (complement_fold (datagram_sum src dst d)).
Proof.
  intros Hs Ht Hd. pose proof (datagram_sum_bounds src dst d Hs Ht ltac:(lia)) as Hb.
  destruct_list src Hs. destruct_list dst Ht.
  unfold calculate_checksum. rewrite !load_addr_4, !bind_Done.
  unfold subspan_count. rewrite !(proj2 (Z.leb_le _ _)) by lia. cbn [andb]. rewrite !bind_Done.
  rewrite Z.min_r by lia. change (Z.to_nat 0) with O. rewrite drop_0.
  rewrite (take_ge (drop _ d)) by (rewrite length_drop; lia).
  set (hd := take (Z.to_nat 8) d). set (pl := drop (Z.to_nat 8) d).
  assert (Hsplit : d = hd ++ pl) by (symmetry; apply take_drop).
  assert (Hh : length hd = 8%nat) by (unfold hd; rewrite length_take; lia).
  assert (Hp : zlen pl = zlen d - 8) by (unfold pl; rewrite length_drop; lia).
  assert (He : Nat.Even (length hd)) by (exists 4%nat; lia).
  assert (Hw : words_sum d = words_sum hd + words_sum pl)
    by (rewrite Hsplit; apply words_sum_app_even, He).
  pose proof (words_sum_bounds hd). pose proof (words_sum_bounds pl).
  pose proof (be32_fits b b0 b1 b2) as Hf1. pose proof (be32_fits b3 b4 b5 b6) as Hf2.
  unfold transport_checksum. do 2 f_equal.
  rewrite (uint_small 16) by (unfold fits; lia).
  rewrite pseudo_header_sum_spec by (first [assumption | unfold fits; lia]).
  pose proof (address_sum_spec b b0 b1 b2) as Ha. pose proof (address_sum_spec b3 b4 b5 b6) as Ha2.
  pose proof (words_sum_bounds [b; b0; b1; b2]) as Hc. pose proof (words_sum_bounds [b3; b4; b5; b6]) as Hc2.
  unfold datagram_sum in *.
  match goal with |- context [process_buffer hd ?s] =>
    replace s with (address_sum [b; b0; b1; b2] + address_sum [b3; b4; b5; b6] + 17 + zlen d) by lia
  end.
  clear Ha Ha2 Hf1 Hf2. unfold address_sum in *. cbn [length] in Hc, Hc2.
  rewrite (process_buffer_sum hd) by lia. rewrite process_buffer_sum by lia. lia.
Qed.

(** The datagram with [c] in its checksum field, bytes 6 and 7. *)
Definition set_checksum (d : list byte) (c : Z) : list byte := take 6 d ++ write_be16 c ++ drop 8 d.

(** The checksum RFC 768 has the sender transmit: the complement of the sum over
    the pseudo-header and the datagram with a zero field, sent as 0xFFFF if zero. *)
Definition rfc768_checksum (src_ip dst_ip datagram : list byte) : Z :=
  let c := complement_fold (datagram_sum src_ip dst_ip (set_checksum datagram 0)) in
  if c =? 0 then 0xFFFF else c.

Lemma set_checksum_length d c : 8 <= zlen d -> zlen (set_checksum d c) = zlen d.
Proof.
  intros Hd. unfold set_checksum. rewrite !length_app, length_take, length_drop.
  change (length (write_be16 c)) with 2%nat. lia.
Qed.

Lemma set_checksum_sum d c :
  8 <= zlen d -> fits 16 c -> words_sum (set_checksum d c) = words_sum (set_checksum d 0) + c.
Proof.
  intros Hd Hc. unfold set_checksum.
  assert (He : Nat.Even (length (take 6 d))) by (rewrite length_take; exists 3%nat; lia).
  rewrite !words_sum_app_even by (first [assumption | exists 1%nat; reflexivity]).
  assert (Hw : forall v, fits 16 v -> words_sum (write_be16 v) = v).
  { intros v Hv. pose proof (read_write_be16 v [] Hv) as Hr. unfold write_be16 in *. cbn [app] in Hr.
    rewrite read_be16_cons in Hr. cbn [words_sum]. injection Hr as Hr. lia. }
  rewrite !Hw by (first [assumption | unfold fits; lia]). lia.
Qed.

(** What the UDP validator computes.  On a datagram whose checksum field is
    zeroed it accepts a field value exactly when it is 0 or the RFC 768 checksum.
    On the datagram as it is on the wire, with its RFC 768 checksum in place, it
    includes the field in the sum and so accepts only when that checksum is
    0xFFFF: a datagram with any other correct checksum is rejected. *)
Theorem udp_validator_behaviour (src_ip dst_ip datagram : list byte) (c : Z) :
  length src_ip = 4%nat -> length dst_ip = 4%nat -> 8 <= zlen datagram <= 65535 -> fits 16 c ->
  validate_checksum src_ip dst_ip (set_checksum datagram 0) (zlen datagram) c =
    Done ((c =? 0) || (c =? rfc768_checksum src_ip dst_ip datagram)) /\
  (let sent := rfc768_checksum src_ip dst_ip datagram in
   validate_checksum src_ip dst_ip (set_checksum datagram sent) (zlen datagram) sent =
     Done (sent =? 0xFFFF)).
Proof.
  intros Hs Ht Hd Hc.
  pose proof (set_checksum_length datagram 0 ltac:(lia)) as Hl0.
  pose proof (datagram_sum_bounds src_ip dst_ip (set_checksum datagram 0) Hs Ht ltac:(lia)) as Hb.
  destruct (complement_fold_spec (datagram_sum src_ip dst_ip (set_checksum datagram 0)))
    as (r & Hr & Hr2 & Hm & Hz); [lia|].
  assert (Hval : forall v, fits 16 v -> v <> 0 -> forall f, fits 16 f ->
    validate_checksum src_ip dst_ip (set_checksum datagram f) (zlen datagram) v =
    Done ((if complement_fold (datagram_sum src_ip dst_ip (set_checksum datagram f)) =? 0 then 0xFFFF
           else complement_fold (datagram_sum src_ip dst_ip (set_checksum datagram f))) =? v)).
  { intros v Hv Hv0 f Hf. unfold validate_checksum. rewrite (proj2 (Z.eqb_neq v 0)) by assumption.
    rewrite <- (set_checksum_length datagram f) by lia.
    rewrite udp_checksum_spec by (rewrite ?set_checksum_length; assumption || lia).
    rewrite bind_Done. reflexivity. }
  split.
  - destruct (Z.eqb_spec c 0) as [->|Hc0]; [reflexivity|]. cbn [orb].
    rewrite Hval by (assumption || unfold fits; lia). unfold rfc768_checksum. f_equal. apply Z.eqb_sym.
  - set (sent := rfc768_checksum src_ip dst_ip datagram). cbn zeta.
    assert (Hsent : fits 16 sent /\ sent <> 0 /\
      (sent + datagram_sum src_ip dst_ip (set_checksum datagram 0)) mod 65535 = 0).
    { unfold sent, rfc768_checksum. rewrite Hr. unfold fits.
      destruct (Z.eqb_spec (65535 - r) 0); lia. }
    destruct Hsent as (Hf & Hn & Hsum). rewrite Hval by assumption.
    assert (Hds : datagram_sum src_ip dst_ip (set_checksum datagram sent) =
                  sent + datagram_sum src_ip dst_ip (set_checksum datagram 0)).
    { unfold datagram_sum. rewrite set_checksum_sum, !set_checksum_length by (lia || assumption). lia. }
    assert (Hz0 : complement_fold (datagram_sum src_ip dst_ip (set_checksum datagram sent)) = 0).
    { rewrite Hds. apply complement_fold_zero; [unfold fits in Hf; lia | assumption]. }
    rewrite Hz0. change (0 =? 0) with true. cbn match. f_equal. apply Z.eqb_sym.
Qed.

Lemma udp_validator_behaviour_witness :
  let src := [x0a; x00; x00; x01] in
  let dst := [x0a; x00; x00; x02] in
  let d := [x12; x34; x56; x78; x00; x0a; x00; x00; xab; xcd] in
  rfc768_checksum src dst d <> 0xFFFF /\
  (validate_checksum src dst (set_checksum d 0) (zlen d) 1 =
     Done ((1 =? 0) || (1 =? rfc768_checksum src dst d)) /\
   (let sent := rfc768_checksum src dst d in
    validate_checksum src dst (set_checksum d sent) (zlen d) sent = Done (sent =? 0xFFFF))).
Proof.
  intros src dst d. split; [vm_compute; congruence|].
  apply udp_validator_behaviour; vm_compute; split; congruence || reflexivity || congruence.
Defined.
