(* ===== verification/Tcp.v ===== *)
(** * TCP (src/protocols/tcp.cpp, include/wadjet/protocols/tcp.hpp)

    The segment decoder with its options parser, and the connection tracker:
    the per-connection state machine, retransmission detection and the table of
    connections with its expiry. *)

From Stdlib Require Import ZArith Lia.
From Stdlib Require Import Strings.Byte.
From stdpp Require Import base numbers list gmap strings pretty.
From S2P Require Import Prelude ByteOrder Decoder.

Definition MIN_HEADER_SIZE : Z := 20.

(** ** Data *)

Record TcpFlags := mkTcpFlags {
  fin : bool; syn : bool; rst : bool; psh : bool; ack : bool; urg : bool; ece : bool;
  cwr : bool; ns : bool
}.

(** [TcpFlags(flags_word)]. *)
Definition TcpFlags_of (w : Z) : TcpFlags :=
  mkTcpFlags (bit w 0) (bit w 1) (bit w 2) (bit w 3) (bit w 4) (bit w 5) (bit w 6) (bit w 7)
             (bit w 8).

(** [enum class TcpOptionKind : std::uint8_t]. *)
Definition EndOfOptions : Z := 0.
Definition NoOperation : Z := 1.
Definition MaxSegmentSize : Z := 2.
Definition WindowScale : Z := 3.
Definition SackPermitted : Z := 4.
Definition Timestamps : Z := 8.

Record TcpOption := mkTcpOption { opt_kind : Z; opt_data : list byte }.

Definition mss (o : TcpOption) : option Z :=
  if opt_kind o =? MaxSegmentSize then
    match opt_data o with
    | [d0; d1] => Some (uint 16 (Z.lor (Z.shiftl (u8 d0) 8) (u8 d1)))
    | _ => None
    end
  else None.

Definition window_scale (o : TcpOption) : option Z :=
  if opt_kind o =? WindowScale then
    match opt_data o with [d0] => Some (u8 d0) | _ => None end
  else None.

Definition timestamps (o : TcpOption) : option (Z * Z) :=
  if opt_kind o =? Timestamps then
    match opt_data o with
    | [d0; d1; d2; d3; d4; d5; d6; d7] =>
        Some (Z.lor (Z.lor (Z.lor (Z.shiftl (u8 d0) 24) (Z.shiftl (u8 d1) 16)) (Z.shiftl (u8 d2) 8)) (u8 d3),
              Z.lor (Z.lor (Z.lor (Z.shiftl (u8 d4) 24) (Z.shiftl (u8 d5) 16)) (Z.shiftl (u8 d6) 8)) (u8 d7))
    | _ => None
    end
  else None.

Record TcpHeader := mkTcpHeader {
  tcp_src_port : Z;
  tcp_dst_port : Z;
  seq_num : Z;
  ack_num : Z;
  data_offset : Z;
  tcp_flags : TcpFlags;
  tcp_window : Z;
  tcp_checksum : Z;
  urgent_ptr : Z;
  tcp_options : list TcpOption;
  tcp_checksum_valid : bool
}.

Definition header_size (h : TcpHeader) : Z := data_offset h * 4.

(** The first value a list of options has for a getter. *)
Fixpoint first_some {A} (f : TcpOption -> option A) (os : list TcpOption) : option A :=
  match os with
  | [] => None
  | o :: os' => match f o with Some v => Some v | None => first_some f os' end
  end.

Definition get_mss (h : TcpHeader) : option Z := first_some mss (tcp_options h).
Definition get_window_scale (h : TcpHeader) : option Z := first_some window_scale (tcp_options h).

Record Options := mkOptions { parse_options_opt : bool; validate_checksum_opt : bool }.
Definition Options_default : Options := mkOptions true false.

Definition can_decode (ctx : DecodeContext) : bool := li_ip_protocol (layer_info ctx) =? 6.

(** ** The decoder *)

(** The loop of [TcpDecoder::parse_options] on the bytes from [offset] on; the
    length is fuel enough ([parse_options_complete]). *)
Fixpoint parse_options_loop (fuel : nat) (raw : list byte) : list TcpOption :=
  match fuel with
  | O => []
  | S fuel' =>
      match raw with
      | [] => []
      | k :: rest =>
          let kind := u8 k in
          if kind =? EndOfOptions then []
          else if kind =? NoOperation then parse_options_loop fuel' rest
          else
            match rest with
            | [] => []
            | l :: _ =>
                let opt_len := u8 l in
                if (opt_len <? 2) || (zlen raw <? opt_len) then []
                else
                  let data := if 2 <? opt_len then take (Z.to_nat (opt_len - 2)) (drop 2 raw) else [] in
                  mkTcpOption kind data :: parse_options_loop fuel' (drop (Z.to_nat opt_len) raw)
            end
      end
  end.

Definition parse_options (opts_data : list byte) : list TcpOption :=
  parse_options_loop (S (length opts_data)) opts_data.

Definition decode_impl (opts : Options) (ctx : DecodeContext) : decoded (TcpHeader * DecodeContext) :=
  if negb (has_bytes ctx MIN_HEADER_SIZE)
  then make_error BufferTooSmall "TCP header too small" 0
  else
    let offset_flags := ctx_read_be16 ctx 12 in
    let data_offset := Z.land (Z.shiftr offset_flags 12) 15 in
    if data_offset <? 5
    then make_error InvalidHeader ("Data offset too small: " +:+ pretty data_offset) 0
    else
      let header_len := data_offset * 4 in
      if negb (has_bytes ctx header_len)
      then make_error BufferTooSmall
             ("TCP header truncated (need " +:+ pretty header_len +:+ " bytes)") 0
      else
        let options :=
          if parse_options_opt opts && (MIN_HEADER_SIZE <? header_len)
          then parse_options (ctx_read_bytes ctx MIN_HEADER_SIZE (header_len - MIN_HEADER_SIZE))
          else [] in
        let header :=
          mkTcpHeader (ctx_read_be16 ctx 0) (ctx_read_be16 ctx 2) (ctx_read_be32 ctx 4)
            (ctx_read_be32 ctx 8) data_offset (TcpFlags_of (Z.land offset_flags 0x01FF))
            (ctx_read_be16 ctx 14) (ctx_read_be16 ctx 16) (ctx_read_be16 ctx 18) options true in
        let next := sub_context ctx header_len in
        let li := layer_info next in
        Done (header,
              with_layer_info next
                (mkLayerInfo (li_ethertype li) (li_ip_protocol li) (tcp_src_port header)
                             (tcp_dst_port header))).

(** ** The connection tracker *)

Inductive TcpState :=
| Closed | Listen | SynSent | SynReceived | Established | FinWait1 | FinWait2 | Closing
| TimeWait | CloseWait | LastAck.

#[export] Instance TcpState_eq_dec : EqDecision TcpState.
Proof. solve_decision. Defined.

(** [struct TcpConnection], without [out_of_order_buffer], which no code touches.
    Times are [steady_clock] ticks in nanoseconds. *)
Record TcpConnection := mkTcpConnection {
  state : TcpState;
  local_seq : Z;
  remote_seq : Z;
  local_ack : Z;
  remote_ack : Z;
  conn_local_port : Z;
  conn_remote_port : Z;
  conn_local_ip : Z;
  conn_remote_ip : Z;
  local_window : Z;
  remote_window : Z;
  local_window_scale : Z;
  remote_window_scale : Z;
  last_seen : Z;
  has_sack_perm : bool;
  remote_mss : Z
}.

Record ConnectionKey := mkConnectionKey {
  key_local_ip : Z; key_remote_ip : Z; key_local_port : Z; key_remote_port : Z
}.

#[export] Instance ConnectionKey_eq_dec : EqDecision ConnectionKey.
Proof. solve_decision. Defined.
#[export] Instance ConnectionKey_countable : Countable ConnectionKey.
Proof.
  refine (inj_countable'
    (fun k => (key_local_ip k, key_remote_ip k, key_local_port k, key_remote_port k))
    (fun '(a, b, c, d) => mkConnectionKey a b c d) _).
  intros []. reflexivity.
Defined.

(** [connections_]. *)
Abbreviation Tracker := (gmap ConnectionKey TcpConnection).

(** The connection that [get_connection] creates. *)
Definition new_connection (k : ConnectionKey) (now : Z) : TcpConnection :=
  mkTcpConnection Closed 0 0 0 0 (key_local_port k) (key_remote_port k) (key_local_ip k)
    (key_remote_ip k) 65535 65535 0 0 now false 536.

(** [get_connection]: the pointer it returns designates the entry under the key,
    and is [nullptr] when the result is [false]. *)
Definition get_connection (t : Tracker) (key : ConnectionKey) (create_if_missing : bool) (now : Z)
    : Tracker * bool :=
  match t !! key with
  | Some _ => (t, true)
  | None => if create_if_missing then (<[key := new_connection key now]> t, true) else (t, false)
  end.

(** The [switch] of [update_connection]. *)
Definition next_state (s : TcpState) (f : TcpFlags) : TcpState :=
  match s with
  | Closed | Listen => if syn f && negb (ack f) then SynReceived else s
  | SynSent => if syn f && ack f then Established else if syn f then SynReceived else s
  | SynReceived => if ack f && negb (syn f) then Established else s
  | Established => if fin f then CloseWait else if rst f then Closed else s
  | FinWait1 =>
      if fin f && ack f then TimeWait
      else if fin f then Closing
      else if ack f then FinWait2
      else if rst f then Closed else s
  | FinWait2 => if fin f then TimeWait else if rst f then Closed else s
  | Closing => if ack f then TimeWait else if rst f then Closed else s
  | CloseWait => if rst f then Closed else s
  | LastAck => if ack f then Closed else if rst f then Closed else s
  | TimeWait => if rst f then Closed else s
  end.

Definition update_connection (conn : TcpConnection) (header : TcpHeader) (now : Z) : TcpConnection :=
  let f := tcp_flags header in
  mkTcpConnection
    (next_state (state conn) f)
    (local_seq conn)
    (if syn f then seq_num header else remote_seq conn)
    (local_ack conn)
    (if syn f then (if ack f then ack_num header else remote_ack conn)
     else if ack f then ack_num header else remote_ack conn)
    (conn_local_port conn) (conn_remote_port conn) (conn_local_ip conn) (conn_remote_ip conn)
    (local_window conn)
    (tcp_window header)
    (local_window_scale conn)
    (match get_window_scale header with Some w => w | None => remote_window_scale conn end)
    now
    (if existsb (fun o => opt_kind o =? SackPermitted) (tcp_options header) then true
     else has_sack_perm conn)
    (match get_mss header with Some m => m | None => remote_mss conn end).

(** [update_connection] through the pointer to the entry under [key]. *)
Definition update_entry (t : Tracker) (key : ConnectionKey) (header : TcpHeader) (now : Z) : Tracker :=
  alter (fun conn => update_connection conn header now) key t.

Definition exchanges_data (s : TcpState) : bool :=
  match s with
  | Established | FinWait1 | FinWait2 | CloseWait | Closing | LastAck => true
  | _ => false
  end.

Definition is_retransmission (conn : TcpConnection) (header : TcpHeader) : bool :=
  if negb (exchanges_data (state conn)) then false
  else if negb (syn (tcp_flags header)) && negb (fin (tcp_flags header))
  then seq_num header <=? remote_seq conn
  else false.

(** [duration_cast<seconds>(now - last_seen)], which truncates. *)
Definition elapsed_seconds (now then_ : Z) : Z := Z.quot (now - then_) 1000000000.

(** The verdict of the loop of [cleanup_expired] on one connection. *)
Definition should_erase (now : Z) (conn : TcpConnection) : bool :=
  match state conn with
  | Closed => true
  | TimeWait => 30 <=? elapsed_seconds now (last_seen conn)
  | SynSent | SynReceived => 120 <=? elapsed_seconds now (last_seen conn)
  | _ => false
  end.

Definition cleanup_expired (t : Tracker) (now : Z) : Tracker :=
  filter (fun kc => should_erase now kc.2 = false) t.

(** ** The contract of the decoder *)

#[export] Instance TcpDecoder_contract opts : DecoderContract (decode_impl opts) header_size.
Proof.
  split.
  - intros ctx. unfold decode_impl, has_bytes. decode_guards.
  - intros ctx h next H. unfold decode_impl, has_bytes in H. decode_inv H.
    apply Done_pair_inj in H as [<- _]. unfold header_size. cbn [data_offset]. lia.
  - intros ctx h next H. unfold decode_impl, has_bytes in H. decode_inv H.
    apply Done_pair_inj in H as [<- <-]. unfold header_size. cbn [data_offset].
    rewrite sub_context_in by lia. split; reflexivity.
Qed.

(** ** The options

    [option_layout raw os]: the bytes [raw] of an options field stand for the
    options [os], by RFC 793's grammar with the parser's stopping rule: an end
    mark, the end of the bytes, or an option whose length byte is missing, below
    2 or past the end. *)
Inductive option_layout : list byte -> list TcpOption -> Prop :=
| layout_end : option_layout [] []
| layout_eol k rest : u8 k = EndOfOptions -> option_layout (k :: rest) []
| layout_nop k rest os :
    u8 k = NoOperation -> option_layout rest os -> option_layout (k :: rest) os
| layout_option k l body rest os :
    1 < u8 k -> u8 l = zlen body + 2 -> option_layout rest os ->
    option_layout (k :: l :: body ++ rest) (mkTcpOption (u8 k) body :: os)
| layout_no_length k : 1 < u8 k -> option_layout [k] []
| layout_bad_length k l rest :
    1 < u8 k -> u8 l < 2 \/ zlen rest + 2 < u8 l -> option_layout (k :: l :: rest) [].

Lemma u8_kind_cases k : u8 k = EndOfOptions \/ u8 k = NoOperation \/ 1 < u8 k.
Proof. pose proof (u8_range k). unfold EndOfOptions, NoOperation. lia. Qed.

(** The loop computes the layout, with any fuel above the length. *)
Lemma parse_options_layout raw os :
  option_layout raw os -> forall fuel, (length raw < fuel)%nat -> parse_options_loop fuel raw = os.
Proof.
  induction 1 as [|k rest Hk|k rest os Hk _ IH|k l body rest os Hk Hl _ IH|k Hk|k l rest Hk Hl];
    intros fuel Hf; (destruct fuel as [|fuel]; [lia|]); cbn [parse_options_loop length] in *;
    try reflexivity; try rewrite Hk; unfold EndOfOptions, NoOperation in *.
  - reflexivity.
  - cbn [Z.eqb Pos.eqb]. apply IH. lia.
  - rewrite (proj2 (Z.eqb_neq (u8 k) 0)), (proj2 (Z.eqb_neq (u8 k) 1)) by lia.
    rewrite length_app in *. rewrite (proj2 (Z.ltb_ge (u8 l) 2)), (proj2 (Z.ltb_ge _ (u8 l))) by lia.
    cbn [orb]. rewrite Hl. replace (Z.to_nat (zlen body + 2)) with (2 + length body)%nat by lia.
    replace (Z.to_nat (zlen body + 2 - 2)) with (length body) by lia.
    cbn [drop Nat.add]. rewrite drop_0, take_app_length, drop_app_length, IH by lia.
    f_equal. f_equal. destruct (2 <? _) eqn:E; [reflexivity|]. bool_to_prop.
    destruct body; [reflexivity | cbn in E; lia].
  - rewrite (proj2 (Z.eqb_neq (u8 k) 0)), (proj2 (Z.eqb_neq (u8 k) 1)) by lia. reflexivity.
  - rewrite (proj2 (Z.eqb_neq (u8 k) 0)), (proj2 (Z.eqb_neq (u8 k) 1)) by lia.
    replace ((u8 l <? 2) || _) with true; [reflexivity|]. symmetry. apply orb_true_iff.
    destruct Hl; [left | right]; apply Z.ltb_lt; lia.
Qed.

(** Every byte string has a layout. *)
Lemma option_layout_total n raw : (length raw < n)%nat -> exists os, option_layout raw os.
Proof.
  revert raw. induction n as [|n IH]; intros raw Hn; [lia|].
  destruct raw as [|k rest]; [eexists; constructor|]. cbn [length] in Hn.
  destruct (u8_kind_cases k) as [Hk|[Hk|Hk]].
  - eexists. apply layout_eol, Hk.
  - destruct (IH rest) as [os Hos]; [lia|]. exists os. apply layout_nop; assumption.
  - destruct rest as [|l rest]; [eexists; apply layout_no_length, Hk|]. cbn [length] in Hn.
    destruct (decide (u8 l < 2 \/ zlen rest + 2 < u8 l)) as [Hl|Hl];
      [eexists; apply layout_bad_length; assumption|].
    destruct (IH (drop (Z.to_nat (u8 l - 2)) rest)) as [os Hos]; [rewrite length_drop; lia|].
    exists (mkTcpOption (u8 k) (take (Z.to_nat (u8 l - 2)) rest) :: os).
    rewrite <- (take_drop (Z.to_nat (u8 l - 2)) rest) at 1.
    apply layout_option; [assumption | rewrite length_take; lia | assumption].
Qed.

(** The TCP options parser terminates and computes the options grammar: for
    any bytes, its result is the unique list of options they are a layout of. *)
Theorem tcp_options_exact (raw : list byte) (os : list TcpOption) :
  parse_options raw = os <-> option_layout raw os.
Proof.
  split.
  - intros <-. destruct (option_layout_total (S (length raw)) raw) as [os Hos]; [lia|].
    unfold parse_options. rewrite (parse_options_layout raw os Hos) by lia. assumption.
  - intros Hos. apply (parse_options_layout raw os Hos). lia.
Qed.

(** ** The segment layout *)

Definition flags_value (f : TcpFlags) : Z :=
  Z.b2z (fin f) + 2 * Z.b2z (syn f) + 4 * Z.b2z (rst f) + 8 * Z.b2z (psh f) + 16 * Z.b2z (ack f) +
  32 * Z.b2z (urg f) + 64 * Z.b2z (ece f) + 128 * Z.b2z (cwr f) + 256 * Z.b2z (ns f).

(** A segment header: [reserved] are the three reserved bits and [raw] the bytes
    of the options, neither of which the decoded header keeps. *)
Definition encode_header (h : TcpHeader) (reserved : Z) (raw : list byte) : list byte :=
  write_be16 (tcp_src_port h) ++ write_be16 (tcp_dst_port h) ++
  write_be32 (seq_num h) ++ write_be32 (ack_num h) ++
  write_be16 (data_offset h * 4096 + reserved * 512 + flags_value (tcp_flags h)) ++
  write_be16 (tcp_window h) ++ write_be16 (tcp_checksum h) ++ write_be16 (urgent_ptr h) ++ raw.

Record wf_header (opts : Options) (h : TcpHeader) (reserved : Z) (raw : list byte) : Prop := {
  wf_src : fits 16 (tcp_src_port h);
  wf_dst : fits 16 (tcp_dst_port h);
  wf_seq : fits 32 (seq_num h);
  wf_ack : fits 32 (ack_num h);
  wf_offset : 5 <= data_offset h <= 15;
  wf_reserved : 0 <= reserved < 8;
  wf_window : fits 16 (tcp_window h);
  wf_checksum : fits 16 (tcp_checksum h);
  wf_urgent : fits 16 (urgent_ptr h);
  wf_raw : zlen raw = header_size h - MIN_HEADER_SIZE;
  wf_options : tcp_options h = if parse_options_opt opts then parse_options raw else [];
  wf_valid : tcp_checksum_valid h = true
}.

Definition next_of (ctx : DecodeContext) (h : TcpHeader) (payload : list byte) : DecodeContext :=
  mkDecodeContext payload (original_offset ctx + header_size h) (timestamp ctx)
    (mkLayerInfo (li_ethertype (layer_info ctx)) (li_ip_protocol (layer_info ctx))
                 (tcp_src_port h) (tcp_dst_port h)).

Lemma tcp_flags_round_trip f : TcpFlags_of (flags_value f) = f.
Proof. destruct f as [[] [] [] [] [] [] [] [] []]; reflexivity. Qed.

Lemma tcp_flags_value_range f : 0 <= flags_value f < 512.
Proof. destruct f as [[] [] [] [] [] [] [] [] []]; vm_compute; split; congruence. Qed.

Lemma bit_b2z w i : 0 <= i -> Z.b2z (bit w i) = w / 2 ^ i mod 2.
Proof.
  intros Hi. unfold bit. rewrite (land_mask _ 1 1), shiftr_div by (reflexivity || lia).
  change (2 ^ 1) with 2. pose proof (Z.mod_pos_bound (w / 2 ^ i) 2 eq_refl).
  destruct (Z.eqb_spec ((w / 2 ^ i) mod 2) 0); cbn; lia.
Qed.

Lemma tcp_flags_value_of w : 0 <= w < 512 -> flags_value (TcpFlags_of w) = w.
Proof.
  intros Hw. unfold flags_value. cbn [fin syn rst psh ack urg ece cwr ns TcpFlags_of].
  rewrite !bit_b2z by lia.
  repeat match goal with
  | |- context [2 ^ ?n] => let v := eval vm_compute in (2 ^ n) in change (2 ^ n) with v
  end. lia.
Qed.

Lemma subfields d r f :
  0 <= d < 16 -> 0 <= r < 8 -> 0 <= f < 512 ->
  Z.land (Z.shiftr (d * 4096 + r * 512 + f) 12) 15 = d /\
  Z.land (d * 4096 + r * 512 + f) 0x01FF = f.
Proof. intros. bits_arith. lia. Qed.

Lemma pack_offset_flags v :
  fits 16 v ->
  Z.land (Z.shiftr v 12) 15 * 4096 + v / 512 mod 8 * 512 + flags_value (TcpFlags_of (Z.land v 0x01FF)) = v.
Proof.
  unfold fits. intros Hv. rewrite tcp_flags_value_of by (bits_arith; lia). bits_arith. lia.
Qed.

Lemma tcp_decode_encode opts ctx h reserved raw payload :
  data ctx = encode_header h reserved raw ++ payload -> wf_header opts h reserved raw ->
  decode_impl opts ctx = Done (h, next_of ctx h payload).
Proof.
  intros Hd [Hs Ht Hsq Hak Hof Hre Hwi Hck Hur Hraw Hop Hval]. pose proof Hd as Hd'.
  pose proof (tcp_flags_value_range (tcp_flags h)) as Hfl.
  assert (Hff : fits 16 (data_offset h * 4096 + reserved * 512 + flags_value (tcp_flags h)))
    by (unfold fits; lia).
  assert (Hlen : zlen (encode_header h reserved raw) = data_offset h * 4).
  { unfold encode_header, header_size, MIN_HEADER_SIZE in *. cbn [app write_be16 write_be32 length]. lia. }
  destruct (subfields (data_offset h) _ _ ltac:(lia) Hre Hfl) as [Hdo Hfg].
  cbn [encode_header app write_be16 write_be32] in Hd.
  unfold decode_impl, has_bytes.
  rewrite (proj2 (Z.leb_le MIN_HEADER_SIZE _)) by (unfold MIN_HEADER_SIZE; rewrite Hd', length_app; lia).
  eval_reads Hd. cbn [negb]. cbn zeta. rewrite Hdo, Hfg.
  rewrite (proj2 (Z.ltb_ge _ _)), (proj2 (Z.leb_le _ (data_size ctx))) by (rewrite ?Hd', ?length_app; lia).
  cbn [negb]. rewrite sub_context_in by (rewrite Hd', length_app; lia).
  rewrite Hd', drop_app_Z by lia.
  replace (if parse_options_opt opts && _ then _ else _) with (tcp_options h).
  - rewrite tcp_flags_round_trip, <- Hval. unfold next_of, header_size. destruct h. reflexivity.
  - rewrite Hop. unfold MIN_HEADER_SIZE, header_size in *. destruct (parse_options_opt opts); [|reflexivity].
    cbn [andb]. destruct (20 <? _) eqn:E; bool_to_prop.
    + erewrite (ctx_read_bytes_drop ctx 20 _ raw payload);
        [reflexivity | lia | intros ->; cbn in Hraw; lia | | lia].
      rewrite Hd. reflexivity.
    + destruct raw; [reflexivity | cbn in Hraw; lia].
Qed.

Lemma tcp_decode_sound opts ctx h next :
  decode_impl opts ctx = Done (h, next) ->
  exists reserved raw, wf_header opts h reserved raw /\
    data ctx = encode_header h reserved raw ++ data next.
Proof.
  intros H. destruct (decode_next (header_size:=header_size) _ _ _ H) as [Hnext _]. rewrite Hnext.
  assert (Hd : exists d, data ctx = d) by eauto. destruct Hd as [d Hd].
  revert H. unfold decode_impl, has_bytes, MIN_HEADER_SIZE.
  destruct (20 <=? data_size ctx) eqn:H20; [bool_to_prop; cbn [negb] | discriminate].
  rewrite Hd in H20. do 20 (destruct d as [|? d]; [cbn in H20; lia|]). clear H20.
  cbn zeta. repeat eval_be16_bytes Hd.
  set (v := be16 b11 b12). assert (Hv : fits 16 v) by apply be16_fits.
  assert (Hdo4 : fits 4 (Z.land (Z.shiftr v 12) 15)) by (apply land_fits; [lia | reflexivity]).
  destruct (Z.land (Z.shiftr v 12) 15 <? 5) eqn:Hof; [discriminate | bool_to_prop].
  set (hl := Z.land (Z.shiftr v 12) 15 * 4) in *.
  destruct (hl <=? data_size ctx) eqn:Hhl; [bool_to_prop; cbn [negb] | discriminate].
  unfold fits in Hdo4.
  assert (Hhl20 : 20 <= hl <= 60) by (unfold hl; lia).
  set (raw := take (Z.to_nat (hl - 20)) d).
  assert (Hraw : zlen raw = hl - 20)
    by (unfold raw; rewrite Hd in Hhl; cbn [length] in Hhl; rewrite length_take; lia).
  assert (Hob : hl <> 20 -> ctx_read_bytes ctx 20 (hl - 20) = raw).
  { intros Hne. apply (ctx_read_bytes_drop ctx 20 _ raw (drop (Z.to_nat (hl - 20)) d));
      [lia | intros Hn; rewrite Hn in Hraw; cbn in Hraw; lia | rewrite Hd; symmetry; apply take_drop | lia]. }
  repeat eval_be32_bytes Hd.
  intros H. apply Done_pair_inj in H as [<- _]. exists (v / 512 mod 8), raw. split.
  - split; cbn [tcp_src_port tcp_dst_port seq_num ack_num data_offset tcp_flags tcp_window tcp_checksum
                urgent_ptr tcp_options tcp_checksum_valid header_size];
      try apply be16_fits; try apply be32_fits; try reflexivity; try assumption.
    + lia.
    + apply Z.mod_pos_bound. lia.
    + destruct (parse_options_opt opts); [|reflexivity]. cbn [andb].
      destruct (20 <? hl) eqn:E; bool_to_prop; [rewrite Hob by lia; reflexivity|].
      destruct raw; [reflexivity | cbn in Hraw; lia].
  - unfold encode_header, header_size.
    cbn [tcp_src_port tcp_dst_port seq_num ack_num data_offset tcp_flags tcp_window tcp_checksum urgent_ptr].
    rewrite pack_offset_flags by assumption. fold hl.
    replace (Z.to_nat hl) with (20 + Z.to_nat (hl - 20))%nat by lia. rewrite <- drop_drop.
    unfold v. rewrite !write_be16_be16, !write_be32_be32, Hd. change (drop 20 _) with d.
    cbn [app]. unfold raw. rewrite take_drop. reflexivity.
Qed.

(** The TCP decoder inverts the RFC 793 layout exactly: it returns a header
    and a next context if and only if, for some reserved bits and option bytes,
    every field is in its width, the data offset is between 5 and 15 and matches
    the option bytes, the options are those of the bytes (none when the decoder
    is told not to parse them), the data is the layout followed by the next
    context's data, and the next context carries the ports. *)
Theorem tcp_decode_exact (opts : Options) (ctx : DecodeContext) (h : TcpHeader) (next : DecodeContext) :
  decode_impl opts ctx = Done (h, next) <->
  exists reserved raw, wf_header opts h reserved raw /\
    data ctx = encode_header h reserved raw ++ data next /\ next = next_of ctx h (data next).
Proof.
  split.
  - intros H. destruct (tcp_decode_sound _ _ _ _ H) as (r & raw & Hwf & Hd). exists r, raw.
    split_and!; [assumption | assumption |].
    rewrite (tcp_decode_encode opts ctx h r raw (data next)) in H by assumption.
    apply Done_pair_inj in H as [_ H]. symmetry. exact H.
  - intros (r & raw & Hwf & Hd & ->). apply (tcp_decode_encode _ _ _ r raw); assumption.
Qed.

(** ** The connection state machine *)

(** A connection after a history of segments, each with its arrival time. *)
Definition run (conn : TcpConnection) (history : list (TcpHeader * Z)) : TcpConnection :=
  foldl (fun c hn => update_connection c hn.1 hn.2) conn history.

Definition is_syn (h : TcpHeader) : bool := syn (tcp_flags h) && negb (ack (tcp_flags h)).
Definition is_plain_ack (h : TcpHeader) : bool := ack (tcp_flags h) && negb (syn (tcp_flags h)).

Lemma run_snoc conn history h now :
  run conn (history ++ [(h, now)]) = update_connection (run conn history) h now.
Proof. unfold run. rewrite foldl_app. reflexivity. Qed.

(** What the history of a tracked connection says for each state it can be in. *)
Definition explains (s : TcpState) (history : list (TcpHeader * Z)) : Prop :=
  match s with
  | Closed => True
  | SynReceived => exists pre h now post, history = pre ++ (h, now) :: post /\ is_syn h = true
  | Established | CloseWait =>
      exists pre h now mid h' now' post,
        history = pre ++ (h, now) :: mid ++ (h', now') :: post /\
        is_syn h = true /\ is_plain_ack h' = true
  | _ => False
  end.

Lemma explains_snoc s history x :
  s = Closed \/ s = SynReceived \/ s = Established \/ s = CloseWait ->
  explains s history -> explains s (history ++ [x]).
Proof.
  intros [->|[->|[->| ->]]]; cbn; [trivial | | | ].
  - intros (pre & h & now & post & -> & Hs). exists pre, h, now, (post ++ [x]).
    rewrite <- app_assoc. auto.
  - intros (pre & h & now & mid & h' & now' & post & -> & Hs & Ha).
    exists pre, h, now, mid, h', now', (post ++ [x]).
    rewrite <- app_assoc. cbn. rewrite <- app_assoc. auto.
  - intros (pre & h & now & mid & h' & now' & post & -> & Hs & Ha).
    exists pre, h, now, mid, h', now', (post ++ [x]).
    rewrite <- app_assoc. cbn. rewrite <- app_assoc. auto.
Qed.

Lemma explains_established history h now :
  explains SynReceived history -> is_plain_ack h = true ->
  explains Established (history ++ [(h, now)]).
Proof.
  intros (pre & h0 & n0 & post & -> & Hs) Ha. exists pre, h0, n0, post, h, now, [].
  rewrite <- app_assoc. auto.
Qed.

(** [C7] The tracker follows the passive side only.  Whatever segments a tracked
    connection receives after [get_connection] creates it, its state is Closed,
    SynReceived, Established or CloseWait; and it is Established or CloseWait
    only if the history holds a SYN without ACK and, later, an ACK without SYN:
    no connection is established without a handshake.  The other seven states,
    whose transitions the code has, are never entered. *)
Theorem tcp_tracker_safety (key : ConnectionKey) (t0 : Z) (history : list (TcpHeader * Z)) :
  explains (state (run (new_connection key t0) history)) history.
Proof.
  induction history as [|[h now] history IH] using rev_ind; [exact I|].
  rewrite run_snoc. set (c := run _ history) in *. unfold update_connection. cbn [state].
  assert (Hs : state c = Closed \/ state c = SynReceived \/ state c = Established \/ state c = CloseWait).
  { destruct (state c); cbn in IH; tauto. }
  destruct (state c) eqn:E; try (destruct Hs as [?|[?|[?|?]]]; discriminate); cbn [next_state].
  - destruct (syn (tcp_flags h) && negb (ack (tcp_flags h))) eqn:Hsyn; [|exact I].
    exists history, h, now, []. auto.
  - destruct (ack (tcp_flags h) && negb (syn (tcp_flags h))) eqn:Hack.
    + apply explains_established; assumption.
    + apply explains_snoc; auto.
  - assert (Hcw : explains CloseWait history) by exact IH.
    destruct (fin (tcp_flags h)); [apply explains_snoc; auto|].
    destruct (rst (tcp_flags h)); [exact I | apply explains_snoc; auto].
  - destruct (rst (tcp_flags h)); [exact I | apply explains_snoc; auto].
Qed.

(** Resets: a segment with RST and neither SYN, ACK nor FIN closes the
    connection in every state from Established on, and leaves Listen, SynSent
    and SynReceived as they are: a refused handshake stays half open until it
    expires. *)
Theorem tcp_reset (conn : TcpConnection) (h : TcpHeader) (now : Z) :
  rst (tcp_flags h) = true -> syn (tcp_flags h) = false -> ack (tcp_flags h) = false ->
  fin (tcp_flags h) = false ->
  state (update_connection conn h now) =
    if decide (state conn = Listen \/ state conn = SynSent \/ state conn = SynReceived)
    then state conn else Closed.
Proof.
  intros Hr Hs Ha Hf. unfold update_connection. cbn [state].
  destruct (state conn); cbn [next_state]; rewrite ?Hr, ?Hs, ?Ha, ?Hf; cbn;
    destruct (decide _) as [Hd|Hd]; intuition congruence.
Qed.

Definition sample_header (flags seq : Z) : TcpHeader :=
  mkTcpHeader 1000 80 seq 0 5 (TcpFlags_of flags) 1024 0 0 [] true.

Lemma tcp_reset_witness :
  let conn := update_connection (new_connection (mkConnectionKey 1 2 3 4) 0) (sample_header 2 7) 1 in
  state conn = SynReceived /\
  state (update_connection conn (sample_header 4 8) 2) =
    if decide (state conn = Listen \/ state conn = SynSent \/ state conn = SynReceived)
    then state conn else Closed.
Proof. intros conn. split; [reflexivity | apply tcp_reset; reflexivity]. Defined.

(** ** Retransmissions *)

Lemma run_remote_seq conn history :
  Forall (fun hn => syn (tcp_flags hn.1) = false) history ->
  remote_seq (run conn history) = remote_seq conn.
Proof.
  induction history as [|[h now] history IH] using rev_ind; intros Hall; [reflexivity|].
  apply Forall_app in Hall as [Hh Hl]. inversion_clear Hl as [|? ? Hx _]. cbn [fst] in Hx.
  rewrite run_snoc. cbn [update_connection remote_seq]. rewrite Hx. auto.
Qed.

(** Retransmission detection compares with the sequence number of the last
    SYN only: whatever segments without SYN a connection has received since, the
    verdict on a segment is whether it is neither SYN nor FIN and its sequence
    number is at most that of the SYN, as plain 32-bit numbers.  So a data
    segment received twice is not reported, and after the sequence space wraps
    new data is. *)
Theorem tcp_retransmission_verdict (conn : TcpConnection) (history : list (TcpHeader * Z)) (h : TcpHeader) :
  Forall (fun hn => syn (tcp_flags hn.1) = false) history ->
  is_retransmission (run conn history) h =
    exchanges_data (state (run conn history)) && negb (syn (tcp_flags h)) && negb (fin (tcp_flags h)) &&
    (seq_num h <=? remote_seq conn).
Proof.
  intros Hall. unfold is_retransmission. rewrite run_remote_seq by assumption.
  destruct (exchanges_data _), (syn _), (fin _); reflexivity.
Qed.

(** The same data segment three times, none a retransmission to the tracker. *)
Lemma tcp_retransmission_verdict_witness :
  let conn := run (new_connection (mkConnectionKey 1 2 3 4) 0)
                  [(sample_header 2 100, 1); (sample_header 16 101, 2)] in
  let segment := sample_header 24 101 in
  let history := [(segment, 3); (segment, 4)] in
  state conn = Established /\
  is_retransmission (run conn history) segment = false /\
  is_retransmission (run conn history) segment =
    exchanges_data (state (run conn history)) && negb (syn (tcp_flags segment)) &&
    negb (fin (tcp_flags segment)) && (seq_num segment <=? remote_seq conn).
Proof.
  intros conn segment history. split; [reflexivity|]. split; [reflexivity|].
  apply tcp_retransmission_verdict. repeat constructor.
Defined.

(** ** The table *)

(** A connection that [cleanup_expired] removes. *)
Definition expired (now : Z) (conn : TcpConnection) : Prop :=
  match state conn with
  | Closed => True
  | TimeWait => now - last_seen conn >= 30 * 1000000000
  | SynSent | SynReceived => now - last_seen conn >= 120 * 1000000000
  | _ => False
  end.

Lemma elapsed_ge now t n : 0 < n -> n <= elapsed_seconds now t <-> now - t >= n * 1000000000.
Proof.
  unfold elapsed_seconds. intros Hn. destruct (Z.le_gt_cases 0 (now - t)) as [Hp|Hp].
  - rewrite Z.quot_div_nonneg by lia. lia.
  - pose proof (Z.quot_opp_l (now - t) 1000000000 ltac:(lia)) as Ho.
    rewrite (Z.quot_div_nonneg (- (now - t)) 1000000000) in Ho by lia. lia.
Qed.

Lemma should_erase_spec now conn : should_erase now conn = true <-> expired now conn.
Proof.
  unfold should_erase, expired.
  destruct (state conn);
    first [ rewrite Z.leb_le; apply elapsed_ge; lia | intuition congruence ].
Qed.

(** The table of connections: [get_connection] returns the entry under the
    four-tuple, creating a Closed one only when it is missing and asked to, and
    touches no other entry; [update_entry] changes that entry alone; and
    [cleanup_expired] keeps exactly the entries that have not expired: Closed
    ones go at once, TimeWait after 30 s, half-open ones after 120 s, and no
    other ever. *)
Theorem tcp_table (t : Tracker) (key : ConnectionKey) (now : Z) (h : TcpHeader) :
  (forall create k, (get_connection t key create now).1 !! k =
     if decide (k = key /\ create = true /\ t !! key = None) then Some (new_connection key now) else t !! k) /\
  (forall create, (get_connection t key create now).2 = true <-> create = true \/ is_Some (t !! key)) /\
  (forall k, update_entry t key h now !! k =
     if decide (k = key) then (fun c => update_connection c h now) <$> t !! k else t !! k) /\
  (forall k c, cleanup_expired t now !! k = Some c <-> t !! k = Some c /\ ~ expired now c).
Proof.
  split_and!.
  - intros create k. unfold get_connection. destruct (t !! key) eqn:E.
    + cbn. case_decide as Hd; [|reflexivity]. destruct Hd as (_ & _ & ?). discriminate.
    + destruct create; cbn; case_decide as Hd.
      * destruct Hd as (-> & _). apply lookup_insert_eq.
      * apply lookup_insert_ne. intros <-. apply Hd. auto.
      * destruct Hd as (_ & ? & _). discriminate.
      * reflexivity.
  - intros create. unfold get_connection. destruct (t !! key) eqn:E; [cbn; split; eauto|].
    destruct create; cbn; split; auto; intros [?|[? ?]]; discriminate.
  - intros k. unfold update_entry. case_decide as Hd; [subst; apply lookup_alter_eq | apply lookup_alter_ne; congruence].
  - intros k c. unfold cleanup_expired. rewrite map_lookup_filter_Some. cbn.
    rewrite <- should_erase_spec, not_true_iff_false. reflexivity.
Qed.
