(* ===== verification/Ipv4Reassembly.v ===== *)
(** * IPv4 fragment reassembly (src/protocols/ipv4_reassembler.cpp)

    The cache of incomplete datagrams, [add_fragment] and the expiry, and what
    they guarantee about the datagrams they return. *)

From Stdlib Require Import ZArith Lia.
From Stdlib Require Import Strings.Byte.
From Stdlib Require Import Sorting.Sorted.
From stdpp Require Import base numbers list gmap.
From S2P Require Import Prelude.

Record FragmentKey := mkFragmentKey { key_src : list byte; key_dst : list byte; key_proto : Z; key_id : Z }.

#[export] Instance FragmentKey_eq_dec : EqDecision FragmentKey.
Proof. solve_decision. Defined.
#[export] Instance FragmentKey_countable : Countable FragmentKey.
Proof.
  refine (inj_countable' (fun k => (key_src k, key_dst k, key_proto k, key_id k))
            (fun '(a, b, c, d) => mkFragmentKey a b c d) _).
  intros []. reflexivity.
Defined.

(** [IPv4Header::Ipv4Fragment]; the offset is in bytes. *)
Record Ipv4Fragment := mkIpv4Fragment {
  frag_src : list byte;
  frag_dst : list byte;
  frag_protocol : Z;
  frag_identification : Z;
  frag_offset : Z;
  frag_mf : bool;
  frag_payload : list byte
}.

Definition key_of (f : Ipv4Fragment) : FragmentKey :=
  mkFragmentKey (frag_src f) (frag_dst f) (frag_protocol f) (frag_identification f).

(** [std::map<std::size_t, std::vector<std::uint8_t>>]: pairs in increasing order
    of offset. *)
Abbreviation FragMap := (list (Z * list byte)).

(** [fragments[off] = data]. *)
Fixpoint assign (off : Z) (d : list byte) (m : FragMap) : FragMap :=
  match m with
  | [] => [(off, d)]
  | (o, d') :: m' =>
      if off <? o then (off, d) :: m
      else if off =? o then (off, d) :: m'
      else (o, d') :: assign off d m'
  end.

Record Entry := mkEntry {
  fragments : FragMap;
  seen_last : bool;
  total_size : Z;
  last_update : Z
}.
Definition Entry_default : Entry := mkEntry [] false 0 0.

(** [config_.timeout], in seconds; times are nanoseconds of the steady clock. *)
Record Config := mkConfig { timeout : Z }.
Definition Config_default : Config := mkConfig 30.

Abbreviation Cache := (gmap FragmentKey Entry).

Definition age_seconds (now : Z) (e : Entry) : Z := Z.quot (now - last_update e) 1000000000.

Definition cleanup_expired (cfg : Config) (now : Z) (cache : Cache) : Cache :=
  filter (fun ke => ~ (timeout cfg < age_seconds now ke.2)) cache.

(** The completeness loop: [None] at a gap, else the accumulated size. *)
Fixpoint accumulate (m : FragMap) (acc offset : Z) : option Z :=
  match m with
  | [] => Some acc
  | (off, d) :: m' =>
      if off =? offset then accumulate m' (acc + zlen d) (offset + zlen d) else None
  end.

(** [cache_[key]] with the fragment stored in it. *)
Definition store (e : Entry) (frag : Ipv4Fragment) (now : Z) : Entry :=
  let fr := assign (frag_offset frag) (frag_payload frag) (fragments e) in
  if frag_mf frag then mkEntry fr (seen_last e) (total_size e) now
  else mkEntry fr true (frag_offset frag + zlen (frag_payload frag)) now.

(** The datagram of a complete entry. *)
Definition complete (e : Entry) : option (list byte) :=
  if seen_last e then
    match accumulate (fragments e) 0 0 with
    | Some acc => if acc =? total_size e then Some (concat (snd <$> fragments e)) else None
    | None => None
    end
  else None.

(** [add_fragment]; the clock is read twice, for the cleanup and for the entry. *)
Definition add_fragment (cfg : Config) (cache : Cache) (frag : Ipv4Fragment) (now now' : Z)
    : Cache * option (list byte) :=
  let cache := cleanup_expired cfg now cache in
  let key := key_of frag in
  let entry := store (default Entry_default (cache !! key)) frag now' in
  match complete entry with
  | Some out => (delete key cache, Some out)
  | None => (<[key := entry]> cache, None)
  end.

(** A sequence of [add_fragment] calls, with the datagrams they return. *)
Fixpoint add_fragments (cfg : Config) (cache : Cache) (fs : list (Ipv4Fragment * Z * Z))
    : Cache * list (option (list byte)) :=
  match fs with
  | [] => (cache, [])
  | (f, now, now') :: fs' =>
      let '(cache, out) := add_fragment cfg cache f now now' in
      let '(cache, outs) := add_fragments cfg cache fs' in
      (cache, out :: outs)
  end.

(** ** The map of fragments *)

(** Increasing offsets: what [std::map] guarantees. *)
Definition ordered (m : FragMap) : Prop := StronglySorted (fun a b => a.1 < b.1) m.

Lemma ordered_cons off d m :
  ordered ((off, d) :: m) <-> ordered m /\ forall o d', (o, d') ∈ m -> off < o.
Proof.
  unfold ordered. split.
  - intros H. apply StronglySorted_inv in H as [Hs Hf]. split; [assumption|].
    intros o d' Hin. rewrite Forall_forall in Hf. apply (Hf (o, d') Hin).
  - intros [Hs Hf]. constructor; [assumption|]. apply Forall_forall. intros [o d'] Hin.
    apply (Hf o d' Hin).
Qed.

Lemma ordered_nil : ordered [].
Proof. constructor. Qed.

#[local] Hint Resolve ordered_nil : core.

Lemma elem_of_assign off d m o d' :
  ordered m ->
  (o, d') ∈ assign off d m <-> (o, d') = (off, d) \/ (o <> off /\ (o, d') ∈ m).
Proof.
  induction m as [|[o1 d1] m IH]; intros Ho; cbn [assign].
  - rewrite list_elem_of_singleton, elem_of_nil. split; [auto | intros [?|[_ []]]; assumption].
  - apply ordered_cons in Ho as [Ho Hlt]. specialize (IH Ho).
    destruct (Z.ltb_spec off o1) as [H|H]; [|destruct (Z.eqb_spec off o1) as [<-|Hne]].
    + rewrite !elem_of_cons. split; [|intros [?|[_ ?]]; auto].
      intros [?|[Heq|Hin]]; [auto | |]; right; split; auto.
      * injection Heq as -> ->. lia.
      * specialize (Hlt _ _ Hin). lia.
    + rewrite !elem_of_cons. split.
      * intros [?|Hin]; [auto|]. right. split; [specialize (Hlt _ _ Hin); lia | auto].
      * intros [?|[Hn [Heq|Hin]]]; [auto | congruence | auto].
    + rewrite !elem_of_cons, IH. split; [|intros [?|[? [?|?]]]; auto].
      intros [Heq|[?|[? ?]]]; auto. right. split; [congruence | auto].
Qed.

Lemma ordered_assign off d m : ordered m -> ordered (assign off d m).
Proof.
  induction m as [|[o1 d1] m IH]; intros Ho; cbn [assign].
  - apply ordered_cons. split; [constructor|]. intros ? ? Hin. apply elem_of_nil in Hin. contradiction.
  - pose proof Ho as Ho'. apply ordered_cons in Ho as [Ho Hlt].
    destruct (Z.ltb_spec off o1) as [H|H]; [|destruct (Z.eqb_spec off o1) as [<-|Hne]].
    + apply ordered_cons. split; [assumption|]. intros o d' Hin.
      apply elem_of_cons in Hin as [[= -> ->]|Hin]; [lia|]. specialize (Hlt _ _ Hin). lia.
    + apply ordered_cons. auto.
    + apply ordered_cons. split; [auto|]. intros o d' Hin.
      apply elem_of_assign in Hin as [[= -> ->]|[? Hin]]; [lia | eauto | assumption].
Qed.

(** The loop succeeds exactly on fragments that tile the bytes from [offset] on. *)
Fixpoint chunk_frags (offset : Z) (chunks : list (list byte)) : FragMap :=
  match chunks with
  | [] => []
  | c :: cs => (offset, c) :: chunk_frags (offset + zlen c) cs
  end.

Lemma chunk_frags_snd offset chunks : snd <$> chunk_frags offset chunks = chunks.
Proof. revert offset. induction chunks as [|c cs IH]; intros; cbn; [|rewrite IH]; reflexivity. Qed.

Lemma accumulate_tiles m acc offset n :
  accumulate m acc offset = Some n <->
  m = chunk_frags offset (snd <$> m) /\ n = acc + zlen (concat (snd <$> m)).
Proof.
  revert acc offset. induction m as [|[o d] m IH]; intros acc offset; cbn [accumulate].
  - cbn. split; [intros [= <-]; split; [reflexivity | lia] | intros [_ ->]; f_equal; lia].
  - cbn [fmap list_fmap chunk_frags concat snd]. rewrite length_app.
    destruct (Z.eqb_spec o offset) as [->|Hne].
    + rewrite IH. split.
      * intros [Hm ->]. split; [rewrite <- Hm; reflexivity | lia].
      * intros [Hm ->]. injection Hm as Hm. split; [assumption | lia].
    + split; [discriminate|]. intros [[= ? ?] _]. contradiction.
Qed.

(** A complete entry is a tiling of its total size, and conversely. *)
Lemma complete_spec e out :
  complete e = Some out <->
  seen_last e = true /\ fragments e = chunk_frags 0 (snd <$> fragments e) /\
  out = concat (snd <$> fragments e) /\ zlen out = total_size e.
Proof.
  unfold complete. destruct (seen_last e); [|split; [discriminate | intros [? _]; discriminate]].
  destruct (accumulate (fragments e) 0 0) as [n|] eqn:E.
  - apply accumulate_tiles in E as [Ht ->]. destruct (Z.eqb_spec (0 + zlen (concat (snd <$> fragments e))) (total_size e)).
    + split; [intros [= <-]; split_and!; auto; lia | intros (_ & _ & -> & _); reflexivity].
    + split; [discriminate|]. intros (_ & _ & -> & Hl). lia.
  - split; [discriminate|]. intros (_ & Ht & _ & _).
    rewrite (proj2 (accumulate_tiles (fragments e) 0 0 (0 + zlen (concat (snd <$> fragments e))))) in E;
      [discriminate | split; [exact Ht | reflexivity]].
Qed.

(** ** Facts on tilings *)

Lemma elem_of_chunk_frags offset chunks o d :
  (o, d) ∈ chunk_frags offset chunks ->
  offset <= o /\ o + zlen d <= offset + zlen (concat chunks) /\
  take (length d) (drop (Z.to_nat (o - offset)) (concat chunks)) = d.
Proof.
  revert offset. induction chunks as [|c cs IH]; intros offset Hin; cbn [chunk_frags concat] in *.
  - apply elem_of_nil in Hin. contradiction.
  - rewrite length_app. apply elem_of_cons in Hin as [[= -> ->]|Hin].
    + rewrite Z.sub_diag. change (Z.to_nat 0) with O. rewrite drop_0, take_app_length. split_and!; auto; lia.
    + destruct (IH _ Hin) as (Hlo & Hhi & Ht). split_and!; [lia | lia |].
      rewrite drop_app_ge by lia.
      replace (Z.to_nat (o - offset) - length c)%nat with (Z.to_nat (o - (offset + zlen c))) by lia.
      exact Ht.
Qed.

(** Two elements of a tiling do not overlap. *)
Lemma chunk_frags_disjoint offset chunks o1 d1 o2 d2 :
  (o1, d1) ∈ chunk_frags offset chunks -> (o2, d2) ∈ chunk_frags offset chunks ->
  o1 < o2 -> o1 + zlen d1 <= o2.
Proof.
  revert offset. induction chunks as [|c cs IH]; intros offset H1 H2 Hlt; cbn [chunk_frags] in *.
  - apply elem_of_nil in H1. contradiction.
  - apply elem_of_cons in H1 as [[= -> ->]|H1]; apply elem_of_cons in H2 as [[= -> ->]|H2].
    + lia.
    + apply elem_of_chunk_frags in H2 as (? & _). assumption.
    + apply elem_of_chunk_frags in H1 as (? & _). lia.
    + eauto.
Qed.

(** A gap-free subset of a tiling that adds up to its size is all of it. *)
Lemma tiling_unique offset chunks m :
  Forall (fun c => c <> []) chunks -> ordered m ->
  (forall x, x ∈ m -> x ∈ chunk_frags offset chunks) ->
  m = chunk_frags offset (snd <$> m) -> zlen (concat (snd <$> m)) = zlen (concat chunks) ->
  m = chunk_frags offset chunks.
Proof.
  revert offset m. induction chunks as [|c cs IH]; intros offset m Hne Ho Hsub Ht Hlen.
  - destruct m as [|x m]; [reflexivity|]. specialize (Hsub x (list_elem_of_here _ _)).
    apply elem_of_nil in Hsub. contradiction.
  - apply Forall_cons in Hne as [Hc Hne]. destruct m as [|[o d] m].
    + cbn [fmap list_fmap concat length] in Hlen. rewrite length_app in Hlen.
      destruct c; [contradiction | cbn [length] in Hlen; lia].
    + cbn [fmap list_fmap chunk_frags snd] in Ht. injection Ht as -> Ht.
      assert (Hd : d = c).
      { specialize (Hsub _ (list_elem_of_here _ _)). cbn [chunk_frags] in Hsub.
        apply elem_of_cons in Hsub as [[= ->]|Hin]; [reflexivity|].
        apply elem_of_chunk_frags in Hin as (Hlo & _). destruct c; [contradiction | cbn [length] in Hlo; lia]. }
      subst d. cbn [chunk_frags]. f_equal. apply ordered_cons in Ho as [Ho Hlt].
      apply IH; auto.
      * intros [o' d'] Hin. specialize (Hsub _ (list_elem_of_further _ _ _ Hin)).
        cbn [chunk_frags] in Hsub. apply elem_of_cons in Hsub as [[= -> ->]|?]; [|assumption].
        specialize (Hlt _ _ Hin). lia.
      * cbn [fmap list_fmap concat snd] in Hlen. rewrite !length_app in Hlen. lia.
Qed.

Lemma ordered_chunk_frags offset chunks :
  Forall (fun c => c <> []) chunks -> ordered (chunk_frags offset chunks).
Proof.
  revert offset. induction chunks as [|c cs IH]; intros offset Hne; cbn [chunk_frags]; [constructor|].
  apply Forall_cons in Hne as [Hc Hne]. apply ordered_cons. split; [auto|].
  intros o d Hin. apply elem_of_chunk_frags in Hin as [? _]. destruct c; [contradiction | cbn [length] in *; lia].
Qed.

(** A map is determined by its elements. *)
Lemma ordered_ext (m m' : FragMap) :
  ordered m -> ordered m' -> (forall x, x ∈ m <-> x ∈ m') -> m = m'.
Proof.
  revert m'. induction m as [|[o d] m IH]; intros m' Ho Ho' Hx.
  - destruct m' as [|x m']; [reflexivity|]. specialize (proj2 (Hx x) (list_elem_of_here _ _)) as Hin.
    apply elem_of_nil in Hin. contradiction.
  - destruct m' as [|[o' d'] m'].
    { specialize (proj1 (Hx _) (list_elem_of_here _ _)) as Hin. apply elem_of_nil in Hin. contradiction. }
    apply ordered_cons in Ho as [Ho Hlt]. apply ordered_cons in Ho' as [Ho' Hlt'].
    assert (Heq : (o, d) = (o', d')).
    { pose proof (proj1 (Hx (o, d)) (list_elem_of_here _ _)) as H1.
      pose proof (proj2 (Hx (o', d')) (list_elem_of_here _ _)) as H2.
      apply elem_of_cons in H1 as [?|H1]; [assumption|].
      apply elem_of_cons in H2 as [?|H2]; [congruence|].
      specialize (Hlt' _ _ H1). specialize (Hlt _ _ H2). lia. }
    injection Heq as <- <-. f_equal. apply IH; auto. intros [o1 d1]. split; intros Hin.
    + pose proof (proj1 (Hx _) (list_elem_of_further _ _ _ Hin)) as H1.
      apply elem_of_cons in H1 as [[= -> ->]|H1]; [specialize (Hlt _ _ Hin); lia | assumption].
    + pose proof (proj2 (Hx _) (list_elem_of_further _ _ _ Hin)) as H1.
      apply elem_of_cons in H1 as [[= -> ->]|H1]; [specialize (Hlt' _ _ Hin); lia | assumption].
Qed.

Lemma ordered_lookup m i j (x y : Z * list byte) :
  ordered m -> m !! i = Some x -> m !! j = Some y -> x.1 = y.1 -> i = j.
Proof.
  revert i j. induction m as [|[o d] m IH]; intros i j Ho Hi Hj He; [rewrite lookup_nil in Hi; discriminate|].
  apply ordered_cons in Ho as [Ho Hlt].
  destruct i as [|i], j as [|j]; cbn in Hi, Hj; [reflexivity | | | f_equal; eauto].
  - injection Hi as <-. apply list_elem_of_lookup_2 in Hj. destruct y as [o' d']. cbn in He. subst.
    specialize (Hlt _ _ Hj). lia.
  - injection Hj as <-. apply list_elem_of_lookup_2 in Hi. destruct x as [o' d']. cbn in He. subst.
    specialize (Hlt _ _ Hi). lia.
Qed.

Lemma chunk_frags_lookup offset chunks i :
  chunk_frags offset chunks !! i =
  (fun c => (offset + zlen (concat (take i chunks)), c)) <$> chunks !! i.
Proof.
  revert offset i. induction chunks as [|c cs IH]; intros offset i; [destruct i; reflexivity|].
  destruct i as [|i]; cbn [chunk_frags lookup list_lookup take concat length fmap option_fmap option_map].
  - cbn. f_equal. f_equal. lia.
  - change (chunk_frags (offset + zlen c) cs !! i = (fun c0 => (offset + zlen (c ++ concat (take i cs)), c0)) <$> cs !! i).
    rewrite IH, length_app. destruct (cs !! i); [|reflexivity]. cbn. f_equal. f_equal. lia.
Qed.

(** ** One step *)

Lemma age_within cfg now e t0 :
  0 <= timeout cfg -> t0 <= last_update e -> now <= t0 + timeout cfg * 1000000000 ->
  ~ timeout cfg < age_seconds now e.
Proof.
  unfold age_seconds. intros Hc Hl Hn Hlt. destruct (Z.le_gt_cases 0 (now - last_update e)) as [Hp|Hp].
  - rewrite Z.quot_div_nonneg in Hlt by lia. lia.
  - pose proof (Z.quot_opp_l (now - last_update e) 1000000000 ltac:(lia)) as Ho.
    rewrite (Z.quot_div_nonneg (- (now - last_update e)) 1000000000) in Ho by lia. lia.
Qed.

Lemma lookup_cleanup cfg now (cache : Cache) k e :
  cleanup_expired cfg now cache !! k = Some e <->
  cache !! k = Some e /\ ~ timeout cfg < age_seconds now e.
Proof. unfold cleanup_expired. rewrite map_lookup_filter_Some. reflexivity. Qed.

Lemma store_fragments e f now :
  fragments (store e f now) = assign (frag_offset f) (frag_payload f) (fragments e).
Proof. unfold store. destruct (frag_mf f); reflexivity. Qed.

(** Entries keep their fragments ordered, and remember where they came from:
    [sent] are the fragments received so far. *)
Record entry_ok (sent : list Ipv4Fragment) (k : FragmentKey) (e : Entry) : Prop := {
  ok_ordered : ordered (fragments e);
  ok_source : forall o d, (o, d) ∈ fragments e ->
    exists f, f ∈ sent /\ key_of f = k /\ frag_offset f = o /\ frag_payload f = d;
  ok_last : seen_last e = true ->
    exists f, f ∈ sent /\ key_of f = k /\ frag_mf f = false /\
              total_size e = frag_offset f + zlen (frag_payload f)
}.

Definition cache_ok (sent : list Ipv4Fragment) (cache : Cache) : Prop :=
  forall k e, cache !! k = Some e -> entry_ok sent k e.

Lemma entry_ok_default sent k : entry_ok sent k Entry_default.
Proof.
  split; cbn; [constructor | | discriminate]. intros o d Hin. apply elem_of_nil in Hin. contradiction.
Qed.

Lemma entry_ok_mono sent f k e : entry_ok sent k e -> entry_ok (sent ++ [f]) k e.
Proof.
  intros [Ho Hs Hl]. split; [assumption | |].
  - intros o d Hin. destruct (Hs o d Hin) as (g & ? & ?). exists g. rewrite elem_of_app. auto.
  - intros Hseen. destruct (Hl Hseen) as (g & ? & ?). exists g. rewrite elem_of_app. auto.
Qed.

Lemma entry_ok_store sent e f now :
  entry_ok sent (key_of f) e -> entry_ok (sent ++ [f]) (key_of f) (store e f now).
Proof.
  intros He. pose proof (ok_ordered _ _ _ He) as Ho. apply (entry_ok_mono _ f) in He as [_ Hs Hl].
  assert (Hf : f ∈ sent ++ [f]) by (rewrite elem_of_app, list_elem_of_singleton; auto).
  split.
  - rewrite store_fragments. apply ordered_assign, Ho.
  - intros o d. rewrite store_fragments, elem_of_assign by assumption.
    intros [[= -> ->]|[_ Hin]]; [exists f; auto | auto].
  - unfold store. destruct (frag_mf f) eqn:Hmf; cbn; [assumption|]. intros _. exists f. auto.
Qed.

Lemma cache_ok_cleanup sent cfg now cache :
  cache_ok sent cache -> cache_ok sent (cleanup_expired cfg now cache).
Proof. intros Hc k e Hk. apply lookup_cleanup in Hk as [Hk _]. auto. Qed.

Lemma default_entry_ok sent cache k :
  cache_ok sent cache -> entry_ok sent k (default Entry_default (cache !! k)).
Proof.
  intros Hc. destruct (cache !! k) eqn:E; [apply Hc; assumption | apply entry_ok_default].
Qed.

Lemma cache_ok_add sent cfg cache f now now' :
  cache_ok sent cache -> cache_ok (sent ++ [f]) (add_fragment cfg cache f now now').1.
Proof.
  intros Hc. apply (cache_ok_cleanup _ cfg now) in Hc. unfold add_fragment.
  set (cl := cleanup_expired cfg now cache) in *. cbn zeta.
  destruct (complete _); cbn [fst]; intros k e Hk.
  - apply lookup_delete_Some in Hk as [_ Hk]. apply entry_ok_mono, Hc, Hk.
  - apply lookup_insert_Some in Hk as [[<- <-]|[_ Hk]].
    + apply entry_ok_store, default_entry_ok, Hc.
    + apply entry_ok_mono, Hc, Hk.
Qed.

Lemma add_fragments_snoc cfg cache fs f now now' :
  (add_fragments cfg cache (fs ++ [(f, now, now')])) =
  ((add_fragment cfg (add_fragments cfg cache fs).1 f now now').1,
   (add_fragments cfg cache fs).2 ++ [(add_fragment cfg (add_fragments cfg cache fs).1 f now now').2]).
Proof.
  revert cache. induction fs as [|[[g t] t'] fs IH]; intros cache; cbn [app add_fragments].
  - cbn [fst snd]. destruct (add_fragment cfg cache f now now'). reflexivity.
  - destruct (add_fragment cfg cache g t t') as [c o]. rewrite IH.
    destruct (add_fragments cfg c fs) as [c' os].
    cbn [fst snd]. destruct (add_fragment cfg c' f now now'). reflexivity.
Qed.

Lemma cache_ok_run cfg fs : cache_ok (fst ∘ fst <$> fs) (add_fragments cfg ∅ fs).1.
Proof.
  induction fs as [|[[f now] now'] fs IH] using rev_ind.
  - intros k e Hk. change ((∅ : Cache) !! k = Some e) in Hk. rewrite lookup_empty in Hk. discriminate.
  - rewrite add_fragments_snoc, fmap_app. cbn. apply cache_ok_add, IH.
Qed.

(** The fragments of an entry as fragments received. *)
Lemma used_fragments (sent : list Ipv4Fragment) k (m : FragMap) :
  (forall o d, (o, d) ∈ m ->
     exists f, f ∈ sent /\ key_of f = k /\ frag_offset f = o /\ frag_payload f = d) ->
  exists used, Forall (fun f => f ∈ sent /\ key_of f = k) used /\
    (fun f => (frag_offset f, frag_payload f)) <$> used = m.
Proof.
  induction m as [|[o d] m IH]; intros Hm; [exists []; auto|].
  destruct IH as (used & Hu & <-); [intros; apply Hm, list_elem_of_further; assumption|].
  destruct (Hm o d (list_elem_of_here _ _)) as (f & ? & ? & <- & <-). exists (f :: used). auto.
Qed.

(** No datagram is made up.  After any sequence of fragments, with any
    arrival times, a datagram that [add_fragment] returns is the concatenation of
    payloads of fragments received for its source, destination, protocol and
    identification, each starting where the previous one ends, the first at
    offset 0; and its size is the end of a received fragment without the
    more-fragments flag. *)
Theorem reassembly_sound (cfg : Config) (fs : list (Ipv4Fragment * Z * Z)) (f : Ipv4Fragment)
    (now now' : Z) (out : list byte) :
  (add_fragment cfg (add_fragments cfg ∅ fs).1 f now now').2 = Some out ->
  exists used, Forall (fun g => g ∈ (fst ∘ fst <$> fs) ++ [f] /\ key_of g = key_of f) used /\
    ((fun g => (frag_offset g, frag_payload g)) <$> used) = chunk_frags 0 (frag_payload <$> used) /\
    out = concat (frag_payload <$> used) /\
    exists g, g ∈ (fst ∘ fst <$> fs) ++ [f] /\ key_of g = key_of f /\ frag_mf g = false /\
              zlen out = frag_offset g + zlen (frag_payload g).
Proof.
  pose proof (cache_ok_cleanup _ cfg now _ (cache_ok_run cfg fs)) as Hok.
  unfold add_fragment. set (cl := cleanup_expired _ _ _) in *. cbn zeta.
  pose proof (entry_ok_store _ _ f now' (default_entry_ok _ _ (key_of f) Hok)) as [_ Hsrc Hlast].
  destruct (complete _) as [o|] eqn:E; [|discriminate]. intros [= <-].
  apply complete_spec in E as (Hseen & Ht & -> & Hlen).
  destruct (used_fragments _ _ _ Hsrc) as (used & Hu & Hm). exists used.
  assert (Hp : frag_payload <$> used = snd <$> fragments (store (default Entry_default (cl !! key_of f)) f now')).
  { rewrite <- Hm, <- list_fmap_compose. reflexivity. }
  rewrite Hp, <- Ht. split_and!; auto.
  destruct (Hlast Hseen) as (g & ? & ? & ? & Hg). exists g. split_and!; auto. congruence.
Qed.

(** The witness: two fragments, the last one first. *)
Definition sample_fragment (off : Z) (mf : bool) (payload : list byte) : Ipv4Fragment :=
  mkIpv4Fragment [x0a; x00; x00; x01] [x0a; x00; x00; x02] 17 7 off mf payload.

Lemma reassembly_sound_witness :
  let f1 := sample_fragment 0 true [x61; x62] in
  let f2 := sample_fragment 2 false [x63] in
  let fs := [(f2, 0, 0)] in
  let out := [x61; x62; x63] in
  exists used, Forall (fun g => g ∈ (fst ∘ fst <$> fs) ++ [f1] /\ key_of g = key_of f1) used /\
    ((fun g => (frag_offset g, frag_payload g)) <$> used) = chunk_frags 0 (frag_payload <$> used) /\
    out = concat (frag_payload <$> used) /\
    exists g, g ∈ (fst ∘ fst <$> fs) ++ [f1] /\ key_of g = key_of f1 /\ frag_mf g = false /\
              zlen out = frag_offset g + zlen (frag_payload g).
Proof.
  intros f1 f2 fs out. apply (reassembly_sound Config_default fs f1 1 1 out). vm_compute. reflexivity.
Defined.

(** ** Any order, with duplicates *)

(** The fragments of a datagram cut into [chunks]. *)
Definition fragment_of (template : Ipv4Fragment) (chunks : list (list byte)) (i : nat) : Ipv4Fragment :=
  mkIpv4Fragment (frag_src template) (frag_dst template) (frag_protocol template)
    (frag_identification template) (zlen (concat (take i chunks)))
    (negb (Nat.eqb (S i) (length chunks))) (default [] (chunks !! i)).

Lemma key_fragment_of t chunks i : key_of (fragment_of t chunks i) = key_of t.
Proof. reflexivity. Qed.

Lemma length_pos {A} (l : list A) : l <> [] -> (0 < length l)%nat.
Proof. destruct l; [contradiction | cbn; lia]. Qed.

Section any_order.
Context (template : Ipv4Fragment) (chunks : list (list byte)).
Context (Hne : Forall (fun c => c <> []) chunks).

Let total := zlen (concat chunks).
Let target := chunk_frags 0 chunks.

Lemma target_lookup i c :
  chunks !! i = Some c -> target !! i = Some (zlen (concat (take i chunks)), c).
Proof. intros Hi. unfold target. rewrite chunk_frags_lookup, Hi. reflexivity. Qed.

Lemma chunk_last i : S i = length chunks ->
  zlen (concat (take i chunks)) + zlen (default [] (chunks !! i)) = total.
Proof.
  intros Hi. destruct (lookup_lt_is_Some_2 chunks i) as [c Hc]; [lia|]. rewrite Hc. cbn [default].
  unfold total. rewrite <- (take_drop_middle chunks i c Hc) at 2.
  rewrite concat_app, (drop_ge chunks (S i)) by lia. cbn [concat]. rewrite app_nil_r, length_app.
  cbn [from_option]. unfold id. lia.
Qed.

(** The entry after the fragments [got], not all of them. *)
Record progress (got : list nat) (e : Entry) : Prop := {
  pr_ordered : ordered (fragments e);
  pr_frags : forall x, x ∈ fragments e <-> exists i, i ∈ got /\ target !! i = Some x;
  pr_seen : seen_last e = true -> total_size e = total;
  pr_seen_iff : seen_last e = true <-> exists i, i ∈ got /\ S i = length chunks
}.

Lemma progress_nil : progress [] Entry_default.
Proof.
  split; cbn; try discriminate; [constructor | |].
  - intros x. split; [intros Hin; apply elem_of_nil in Hin; contradiction|].
    intros (i & Hi & _). apply elem_of_nil in Hi. contradiction.
  - split; [discriminate|]. intros (i & Hi & _). apply elem_of_nil in Hi. contradiction.
Qed.

(** Offsets identify chunks. *)
Lemma target_offset i x y : target !! i = Some x -> y ∈ target -> y.1 = x.1 -> y = x.
Proof.
  intros Hx Hy He. apply list_elem_of_lookup_1 in Hy as [j Hj].
  assert (Hij : j = i)
    by (apply (ordered_lookup target j i y x); [apply ordered_chunk_frags, Hne | assumption..]).
  subst j. congruence.
Qed.

Lemma progress_store got e i now :
  (i < length chunks)%nat -> progress got e ->
  progress (got ++ [i]) (store e (fragment_of template chunks i) now).
Proof.
  intros Hi [Ho Hf Hs Hsi]. destruct (lookup_lt_is_Some_2 chunks i Hi) as [c Hc].
  pose proof (target_lookup i c Hc) as Ht.
  set (f := fragment_of template chunks i).
  assert (Hfo : frag_offset f = zlen (concat (take i chunks))) by reflexivity.
  assert (Hfp : frag_payload f = c) by (unfold f, fragment_of; cbn; rewrite Hc; reflexivity).
  assert (Hfm : frag_mf f = negb (Nat.eqb (S i) (length chunks))) by reflexivity.
  assert (Hin1 : forall j, j ∈ got -> j ∈ got ++ [i]) by (intros; apply elem_of_app; auto).
  assert (Hin2 : i ∈ got ++ [i]) by (apply elem_of_app; right; apply list_elem_of_here).
  clearbody f. split.
  - rewrite store_fragments. apply ordered_assign, Ho.
  - intros [o d]. rewrite store_fragments, elem_of_assign, Hf by assumption. rewrite Hfo, Hfp. split.
    + intros [[= -> ->]|[_ (j & Hj & Hjt)]].
      * eauto.
      * eauto.
    + intros (j & Hj & Hjt). apply elem_of_app in Hj as [Hj|Hj].
      * destruct (decide (o = zlen (concat (take i chunks)))) as [->|Hn]; [|right; eauto].
        left. apply (target_offset _ _ _ Ht); [apply list_elem_of_lookup_2 in Hjt; exact Hjt | reflexivity].
      * apply list_elem_of_singleton in Hj as ->. left. congruence.
  - unfold store. destruct (frag_mf f) eqn:Hmf; cbn; [assumption|]. intros _. rewrite Hfo, Hfp.
    symmetry in Hfm. apply negb_false_iff, Nat.eqb_eq in Hfm.
    pose proof (chunk_last i Hfm) as Hl. rewrite Hc in Hl. exact Hl.
  - unfold store. destruct (frag_mf f) eqn:Hmf; cbn [seen_last]; symmetry in Hfm.
    + rewrite Hsi. apply negb_true_iff, Nat.eqb_neq in Hfm. split; intros (j & Hj & Hl); exists j.
      * auto.
      * apply elem_of_app in Hj as [Hj|Hj]; [auto|]. apply list_elem_of_singleton in Hj as ->. contradiction.
    + apply negb_false_iff, Nat.eqb_eq in Hfm. split; [|reflexivity]. intros _. eauto.
Qed.

Definition all_received (got : list nat) : Prop := forall i, (i < length chunks)%nat -> i ∈ got.

Lemma target_in x : x ∈ target -> exists i, (i < length chunks)%nat /\ target !! i = Some x.
Proof.
  intros Hin. apply list_elem_of_lookup_1 in Hin as [i Hi]. exists i. split; [|assumption].
  unfold target in Hi. rewrite chunk_frags_lookup in Hi.
  destruct (chunks !! i) eqn:E; [|discriminate]. apply lookup_lt_Some in E. exact E.
Qed.

(** An entry is complete exactly when every chunk has been received. *)
Lemma progress_complete got e :
  chunks <> [] -> progress got e ->
  (all_received got -> complete e = Some (concat chunks)) /\
  (~ all_received got -> complete e = None).
Proof.
  intros Hnn [Ho Hf Hs Hsi].
  assert (Hsub : forall x, x ∈ fragments e -> x ∈ target).
  { intros x Hx. apply Hf in Hx as (i & _ & Hi). apply list_elem_of_lookup_2 in Hi. exact Hi. }
  split.
  - intros Hall. apply complete_spec.
    assert (Hseen : seen_last e = true).
    { assert (0 < length chunks)%nat by (apply length_pos; exact Hnn).
      apply Hsi. exists (pred (length chunks)). split; [apply Hall|]; lia. }
    assert (Heq : fragments e = target).
    { apply (ordered_ext (fragments e) target); auto.
      - apply ordered_chunk_frags, Hne.
      - intros x. split; [auto|]. intros Hx. destruct (target_in x Hx) as (i & Hi & Hxi).
        apply Hf. eauto. }
    rewrite Heq. unfold target. rewrite chunk_frags_snd. split_and!; auto. rewrite Hs; auto.
  - intros Hn. destruct (complete e) as [out|] eqn:E; [|reflexivity]. destruct Hn.
    apply complete_spec in E as (Hseen & Ht & -> & Hlen).
    assert (Heq : fragments e = target).
    { apply tiling_unique; auto. rewrite Hlen, Hs by assumption. reflexivity. }
    intros i Hi. destruct (lookup_lt_is_Some_2 chunks i Hi) as [c Hc].
    pose proof (target_lookup i c Hc) as Hti.
    assert (Hin : (zlen (concat (take i chunks)), c) ∈ fragments e)
      by (rewrite Heq; apply list_elem_of_lookup_2 in Hti; exact Hti).
    apply Hf in Hin as (j & Hj & Htj). replace i with j; [assumption|].
    apply (ordered_lookup target j i _ _ (ordered_chunk_frags _ _ Hne) Htj Hti). reflexivity.
Qed.
End any_order.

(** Calls [(i, now, now')]: the [i]-th fragment arrives, the clock reads [now] at
    the cleanup and [now'] when the entry is stamped. *)
Definition deliver (template : Ipv4Fragment) (chunks : list (list byte)) (calls : list (nat * Z * Z))
    : list (Ipv4Fragment * Z * Z) :=
  (fun c => (fragment_of template chunks c.1.1, c.1.2, c.2)) <$> calls.

Definition indices (calls : list (nat * Z * Z)) : list nat := (fun c => c.1.1) <$> calls.

(** The calls concern existing chunks and happen within the timeout from [t0]. *)
Definition in_time (cfg : Config) (chunks : list (list byte)) (t0 : Z) (c : nat * Z * Z) : Prop :=
  (c.1.1 < length chunks)%nat /\ t0 <= c.1.2 <= t0 + timeout cfg * 1000000000 /\ t0 <= c.2.

(** The state of the cache while a datagram is being received. *)
Definition receiving (template : Ipv4Fragment) chunks (t0 : Z) (got : list nat) (cache : Cache) : Prop :=
  progress chunks got (default Entry_default (cache !! key_of template)) /\
  forall e, cache !! key_of template = Some e -> t0 <= last_update e.

Lemma receiving_cleanup cfg template chunks t0 got cache now :
  0 <= timeout cfg -> now <= t0 + timeout cfg * 1000000000 ->
  receiving template chunks t0 got cache ->
  cleanup_expired cfg now cache !! key_of template = cache !! key_of template.
Proof.
  intros Hc Hn [_ Hl]. destruct (cache !! key_of template) as [e|] eqn:E.
  - apply lookup_cleanup. split; [assumption|]. eapply age_within; eauto.
  - destruct (cleanup_expired _ _ _ !! _) eqn:E'; [|reflexivity].
    apply lookup_cleanup in E' as [E' _]. congruence.
Qed.

Lemma receiving_step cfg template chunks t0 got cache i now now' :
  Forall (fun c => c <> []) chunks -> chunks <> [] -> 0 <= timeout cfg ->
  in_time cfg chunks t0 (i, now, now') -> receiving template chunks t0 got cache ->
  let r := add_fragment cfg cache (fragment_of template chunks i) now now' in
  (~ all_received chunks (got ++ [i]) ->
     r.2 = None /\ receiving template chunks t0 (got ++ [i]) r.1) /\
  (all_received chunks (got ++ [i]) ->
     r.2 = Some (concat chunks) /\ r.1 !! key_of template = None).
Proof.
  intros Hne Hnn Hc (Hi & Hn & Hn') Hr. cbn [fst snd] in Hi, Hn, Hn'.
  pose proof (receiving_cleanup cfg template chunks t0 got cache now Hc ltac:(lia) Hr) as Hcl. destruct Hr as [Hp _].
  pose proof (progress_store template chunks Hne got _ i now' Hi Hp) as Hp'.
  destruct (progress_complete chunks Hne _ _ Hnn Hp') as [Hall Hnot].
  unfold add_fragment. rewrite key_fragment_of, Hcl.
  split; intros Hrec; [rewrite (Hnot Hrec) | rewrite (Hall Hrec)]; cbn [fst snd].
  - split; [reflexivity|]. unfold receiving. rewrite lookup_insert_eq. split; [exact Hp'|].
    intros e [= <-]. unfold store. destruct (frag_mf _); exact Hn'.
  - split; [reflexivity | apply lookup_delete_eq].
Qed.

Lemma indices_snoc calls c : indices (calls ++ [c]) = indices calls ++ [c.1.1].
Proof. unfold indices. rewrite fmap_app. reflexivity. Qed.

Lemma not_all_received_prefix (chunks : list (list byte)) got i :
  ~ all_received chunks (got ++ [i]) -> ~ all_received chunks got.
Proof. intros Hn Hall. apply Hn. intros j Hj. apply elem_of_app. auto. Qed.

Lemma receiving_run cfg template chunks t0 cache calls :
  Forall (fun c => c <> []) chunks -> chunks <> [] -> 0 <= timeout cfg ->
  cache !! key_of template = None -> Forall (in_time cfg chunks t0) calls ->
  ~ all_received chunks (indices calls) ->
  receiving template chunks t0 (indices calls) (add_fragments cfg cache (deliver template chunks calls)).1 /\
  (add_fragments cfg cache (deliver template chunks calls)).2 = replicate (length calls) None.
Proof.
  intros Hne Hnn Hc Hk. induction calls as [|[[i n] n'] calls IH] using rev_ind; intros Hall Hnot.
  - cbn. split; [|reflexivity]. split; [rewrite Hk; apply progress_nil | rewrite Hk; discriminate].
  - apply Forall_app in Hall as [Hall Hlast]. inversion_clear Hlast as [|? ? Hi _].
    rewrite indices_snoc in *. cbn [fst snd] in *.
    destruct IH as [Hr Ho]; [assumption | eapply not_all_received_prefix; eassumption |].
    destruct (receiving_step cfg template chunks t0 _ _ i n n' Hne Hnn Hc Hi Hr) as [Hstep _].
    destruct (Hstep Hnot) as [Hs1 Hs2].
    unfold deliver in *. rewrite fmap_app. cbn [fmap list_fmap fst snd].
    rewrite add_fragments_snoc. cbn [fst snd]. rewrite Ho, Hs1. split; [exact Hs2|].
    rewrite length_app, Nat.add_comm. cbn. symmetry. apply replicate_cons_app.
Qed.

(** [C2] Fragments may arrive in any order, and more than once.  A datagram cut
    into nonempty chunks, whose fragments all arrive within the timeout, the last
    missing one at the end, is returned by the call that supplies that fragment
    and by no earlier call; it is the original datagram, and its entry is gone. *)
Theorem reassembly_any_order (cfg : Config) (template : Ipv4Fragment) (chunks : list (list byte))
    (cache : Cache) (t0 : Z) (calls : list (nat * Z * Z)) (last : nat * Z * Z) :
  Forall (fun c => c <> []) chunks -> chunks <> [] -> 0 <= timeout cfg ->
  cache !! key_of template = None ->
  Forall (in_time cfg chunks t0) (calls ++ [last]) ->
  ~ all_received chunks (indices calls) -> all_received chunks (indices (calls ++ [last])) ->
  let r := add_fragments cfg cache (deliver template chunks (calls ++ [last])) in
  r.2 = replicate (length calls) None ++ [Some (concat chunks)] /\ r.1 !! key_of template = None.
Proof.
  intros Hne Hnn Hc Hk Hall Hnot Hfull. apply Forall_app in Hall as [Hall Hlast].
  inversion_clear Hlast as [|? ? Hi _]. destruct last as [[i n] n'].
  destruct (receiving_run cfg template chunks t0 cache calls Hne Hnn Hc Hk Hall Hnot) as [Hr Ho].
  destruct (receiving_step cfg template chunks t0 _ _ i n n' Hne Hnn Hc Hi Hr) as [_ Hstep].
  rewrite indices_snoc in Hfull. destruct (Hstep Hfull) as [Hs1 Hs2].
  cbn zeta. unfold deliver in *. rewrite fmap_app. cbn [fmap list_fmap fst snd].
  rewrite add_fragments_snoc. cbn [fst snd]. rewrite Ho, Hs1. auto.
Qed.

Lemma reassembly_any_order_witness :
  let chunks := [[x61; x62]; [x63]; [x64; x65]] in
  let template := sample_fragment 0 true [] in
  let calls : list (nat * Z * Z) := [(2%nat, 5, 6); (0%nat, 7, 8); (2%nat, 9, 10)] in
  let r := add_fragments Config_default ∅ (deliver template chunks (calls ++ [(1%nat, 11, 12)])) in
  r.2 = replicate (length calls) None ++ [Some (concat chunks)] /\ r.1 !! key_of template = None.
Proof.
  intros chunks template calls. apply (reassembly_any_order _ _ _ _ 0).
  - repeat constructor; discriminate.
  - discriminate.
  - vm_compute. discriminate.
  - reflexivity.
  - unfold calls, in_time. repeat constructor; cbn; lia.
  - intros Hall. specialize (Hall 1%nat ltac:(cbn; lia)). vm_compute in Hall.
    repeat (apply elem_of_cons in Hall as [Hall|Hall]; [discriminate Hall|]). apply elem_of_nil in Hall. exact Hall.
  - intros i Hi. cbn in Hi. destruct i as [|[|[|i]]]; [..|lia]; cbn; repeat constructor.
Defined.

(** ** Overlaps *)

Definition overlapping (o1 : Z) (d1 : list byte) (o2 : Z) : Prop := o1 < o2 < o1 + zlen d1.

Lemma overlap_incomplete e o1 d1 o2 d2 :
  (o1, d1) ∈ fragments e -> (o2, d2) ∈ fragments e -> overlapping o1 d1 o2 -> complete e = None.
Proof.
  intros H1 H2 Ho. destruct (complete e) eqn:E; [|reflexivity].
  apply complete_spec in E as (_ & Ht & _ & _). rewrite Ht in H1, H2.
  pose proof (chunk_frags_disjoint _ _ _ _ _ _ H1 H2) as Hd. unfold overlapping in Ho. lia.
Qed.

(** Overlapping fragments block a datagram: while an entry that is not
    expired holds two fragments that overlap, a further fragment of the datagram
    at any other offset returns nothing and leaves them there, so that the
    datagram is never returned, whatever arrives, until the entry expires. *)
Theorem reassembly_overlap_blocks (cfg : Config) (cache : Cache) (f : Ipv4Fragment) (now now' : Z)
    (e : Entry) (o1 : Z) (d1 : list byte) (o2 : Z) (d2 : list byte) :
  cleanup_expired cfg now cache !! key_of f = Some e -> ordered (fragments e) ->
  (o1, d1) ∈ fragments e -> (o2, d2) ∈ fragments e -> overlapping o1 d1 o2 ->
  frag_offset f <> o1 -> frag_offset f <> o2 ->
  let r := add_fragment cfg cache f now now' in
  r.2 = None /\
  exists e', r.1 !! key_of f = Some e' /\ ordered (fragments e') /\
             (o1, d1) ∈ fragments e' /\ (o2, d2) ∈ fragments e'.
Proof.
  intros Hk Ho H1 H2 Hov Hn1 Hn2. cbn zeta. unfold add_fragment. rewrite Hk.
  change (default Entry_default (Some e)) with e.
  set (e' := store e f now').
  assert (H1' : (o1, d1) ∈ fragments e').
  { unfold e'. rewrite store_fragments, elem_of_assign by assumption. right. auto. }
  assert (H2' : (o2, d2) ∈ fragments e').
  { unfold e'. rewrite store_fragments, elem_of_assign by assumption. right. auto. }
  rewrite (overlap_incomplete e' _ _ _ _ H1' H2' Hov). cbn [fst snd]. split; [reflexivity|].
  exists e'. rewrite lookup_insert_eq. split_and!; auto.
  unfold e'. rewrite store_fragments. apply ordered_assign, Ho.
Qed.

(** Bytes 0-2, then bytes 2-3 at the end: the last one changes nothing. *)
Lemma reassembly_overlap_blocks_witness :
  let f1 := sample_fragment 0 true [x61; x62; x63] in
  let f2 := sample_fragment 2 false [x63; x64] in
  let cache := (add_fragments Config_default ∅ [(f1, 0, 0); (f2, 1, 1)]).1 in
  let f := sample_fragment 3 true [x64] in
  let e := mkEntry [(0, [x61; x62; x63]); (2, [x63; x64])] true 4 1 in
  let r := add_fragment Config_default cache f 2 2 in
  r.2 = None /\
  exists e', r.1 !! key_of f = Some e' /\ ordered (fragments e') /\
             (0, [x61; x62; x63]) ∈ fragments e' /\ (2, [x63; x64]) ∈ fragments e'.
Proof.
  intros f1 f2 cache f e.
  apply (reassembly_overlap_blocks Config_default cache f 2 2 e);
    [vm_compute; reflexivity | | | | | |].
  - repeat constructor.
  - apply list_elem_of_here.
  - apply list_elem_of_further, list_elem_of_here.
  - vm_compute. split; reflexivity.
  - discriminate.
  - discriminate.
Defined.
