(* ===== verification/SomeIp.v ===== *)
(** * SOME/IP (src/protocols/someip.cpp, include/wadjet/protocols/someip.hpp)

    The message decoder and the SOME/IP-TP reassembler it feeds: the decoder as
    a function of the reassembler's state, where it reads past its data, the
    buffer the reassembler builds, and when it reports and drops messages. *)

From Stdlib Require Import ZArith Lia.
From Stdlib Require Import Strings.Byte.
From stdpp Require Import base numbers list gmap strings pretty.
From S2P Require Import Prelude ByteOrder Decoder.

Definition HEADER_SIZE : Z := 16.
Definition PROTOCOL_VERSION : Z := 1.
Definition SD_SERVICE_ID : Z := 0xFFFF.
Definition SD_METHOD_ID : Z := 0x8100.
Definition TP_FLAG : Z := 0x20.
Definition TP_MORE_SEGMENTS : Z := 1.
Definition MAX_MESSAGE_SIZE : Z := 16 * 1024 * 1024.
Definition TIMEOUT_MS : Z := 5000.

(** [enum class MessageType : std::uint8_t]; the wire byte is cast to it. *)
Definition Request : Z := 0x00.
Definition RequestNoReturn : Z := 0x01.
Definition Notification : Z := 0x02.
Definition RequestAck : Z := 0x40.
Definition RequestNoReturnAck : Z := 0x41.
Definition NotificationAck : Z := 0x42.
Definition Response : Z := 0x80.
Definition Error : Z := 0x81.
Definition ResponseAck : Z := 0xC0.
Definition ErrorAck : Z := 0xC1.

Record SomeIpHeader := mkSomeIpHeader {
  service_id : Z;
  method_id : Z;
  sip_length : Z;
  client_id : Z;
  session_id : Z;
  protocol_version : Z;
  interface_version : Z;
  message_type : Z;
  return_code : Z
}.

Definition header_size (h : SomeIpHeader) : Z := HEADER_SIZE.
Definition payload_size (h : SomeIpHeader) : Z := if 8 <=? sip_length h then sip_length h - 8 else 0.
Definition message_id (h : SomeIpHeader) : Z := Z.lor (Z.shiftl (service_id h) 16) (method_id h).
Definition request_id (h : SomeIpHeader) : Z := Z.lor (Z.shiftl (client_id h) 16) (session_id h).
Definition is_service_discovery (h : SomeIpHeader) : bool :=
  (service_id h =? SD_SERVICE_ID) && (method_id h =? SD_METHOD_ID).
Definition is_request (h : SomeIpHeader) : bool :=
  (message_type h =? Request) || (message_type h =? RequestNoReturn) ||
  (message_type h =? RequestAck) || (message_type h =? RequestNoReturnAck).
Definition is_response (h : SomeIpHeader) : bool :=
  (message_type h =? Response) || (message_type h =? ResponseAck).
Definition is_error (h : SomeIpHeader) : bool :=
  (message_type h =? Error) || (message_type h =? ErrorAck).
Definition is_notification (h : SomeIpHeader) : bool :=
  (message_type h =? Notification) || (message_type h =? NotificationAck).
Definition is_event (h : SomeIpHeader) : bool := negb (Z.land (method_id h) 0x8000 =? 0).

(** ** The TP reassembler *)

Record SomeipTpSegment := mkSomeipTpSegment { seg_offset : Z; more_segments : bool }.

(** [SomeipTpSegment::parse], from a pointer to the data. *)
Definition parse_segment (tp_data : list byte) : decoded SomeipTpSegment :=
  p0 ← byte_at tp_data 0; p1 ← byte_at tp_data 1; p2 ← byte_at tp_data 2; p3 ← byte_at tp_data 3;
  let offset_units := Z.lor (Z.lor (Z.shiftl p1 16) (Z.shiftl p2 8)) p3 in
  Done (mkSomeipTpSegment (uint 32 (offset_units * 4)) (negb (Z.land p0 TP_MORE_SEGMENTS =? 0))).

Record SomeipTpMessage := mkSomeipTpMessage {
  msg_message_id : Z;
  msg_request_id : Z;
  total_length : Z;
  msg_data : list byte;
  last_update_time : Z
}.

Definition is_complete (m : SomeipTpMessage) : bool :=
  (total_length m <=? zlen (msg_data m)) && (0 <? total_length m).

(** [data.resize(n)] when it grows, and [memcpy(data.data() + offset, seg, ...)]. *)
Definition grow (n : Z) (d : list byte) : list byte := d ++ replicate (Z.to_nat (n - zlen d)) x00.
Definition write_at (offset : Z) (seg d : list byte) : list byte :=
  take (Z.to_nat offset) d ++ seg ++ drop (Z.to_nat offset + length seg) d.

(** [SomeipTpMessage::add_segment]. *)
Definition buffer_segment (d : list byte) (offset : Z) (seg : list byte) : list byte :=
  write_at offset seg (grow (offset + zlen seg) d).

(** [messages_]: the key is (message_id, request_id). *)
Abbreviation Reassembler := (gmap (Z * Z) SomeipTpMessage).

(** [SomeipTpReassembler::add_segment]; [data] is what the pointer can read. *)
Definition add_segment (r : Reassembler) (mid rid : Z) (segment : SomeipTpSegment)
    (data : list byte) (data_size : Z) : decoded (bool * Reassembler) :=
  if MAX_MESSAGE_SIZE <? seg_offset segment then Done (false, r)
  else if MAX_MESSAGE_SIZE <? seg_offset segment + data_size then Done (false, r)
  else
    seg ← memcpy data data_size;
    let segment_end := uint 32 (seg_offset segment + uint 32 data_size) in
    let msg :=
      match r !! (mid, rid) with
      | None =>
          mkSomeipTpMessage mid rid segment_end (buffer_segment [] (seg_offset segment) seg) 0
      | Some m =>
          mkSomeipTpMessage (msg_message_id m) (msg_request_id m)
            (if total_length m <? segment_end then segment_end else total_length m)
            (buffer_segment (msg_data m) (seg_offset segment) seg) 0
      end in
    Done (is_complete msg, <[(mid, rid) := msg]> r).

Definition get_message (r : Reassembler) (mid rid : Z) : option SomeipTpMessage :=
  match r !! (mid, rid) with
  | Some m => if is_complete m then Some m else None
  | None => None
  end.

Definition remove_message (r : Reassembler) (mid rid : Z) : Reassembler := delete (mid, rid) r.

(** The test of [cleanup_timed_out] on one message. *)
Definition timed_out (current_time_ms : Z) (m : SomeipTpMessage) : bool :=
  (last_update_time m <? current_time_ms) &&
  (TIMEOUT_MS <? uint 64 (current_time_ms - last_update_time m)).

Definition cleanup_timed_out (r : Reassembler) (current_time_ms : Z) : Reassembler :=
  filter (fun km => timed_out current_time_ms km.2 = false) r.

(** ** The decoder *)

Record Options := mkOptions {
  validate_protocol_version : bool;
  allow_invalid_version : bool;
  enable_tp_reassembly : bool
}.
Definition Options_default : Options := mkOptions true false true.

Definition can_decode (ctx : DecodeContext) : bool := has_bytes ctx HEADER_SIZE.

Definition is_tp (message_type_byte : Z) : bool := negb (Z.land message_type_byte TP_FLAG =? 0).

(** The TP branch of [decode_impl]: the reassembler after it. *)
Definition decode_tp (opts : Options) (r : Reassembler) (ctx : DecodeContext) (header : SomeIpHeader)
    : decoded Reassembler :=
  if sip_length header <? 12
  then make_error InvalidLength
         ("SOME/IP-TP length too small: " +:+ pretty (sip_length header) +:+
          " (minimum: 12 bytes for TP overhead)") 0
  else if MAX_MESSAGE_SIZE <? sip_length header
  then make_error InvalidLength
         ("SOME/IP-TP message exceeds maximum size: " +:+ pretty (sip_length header) +:+
          " bytes (max: 16 MB)") 0
  else if enable_tp_reassembly opts then
    if negb (has_bytes ctx (HEADER_SIZE + 4))
    then make_error BufferTooSmall "SOME/IP-TP header too small" 0
    else
      tp_data ← subspan (data ctx) HEADER_SIZE;
      tp_segment ← parse_segment tp_data;
      payload ← subspan (data ctx) (HEADER_SIZE + 4);
      let payload_size := if 12 <? sip_length header then sip_length header - 12 else 0 in
      if MAX_MESSAGE_SIZE <? seg_offset tp_segment + payload_size
      then make_error InvalidLength
             ("SOME/IP-TP segment offset exceeds maximum: " +:+
              pretty (seg_offset tp_segment + payload_size) +:+ " bytes") 0
      else
        added ← add_segment r (message_id header) (request_id header) tp_segment payload payload_size;
        Done added.2
  else Done r.

(** [decode_impl] with the mutable reassembler of the decoder; an error leaves
    the reassembler as it was. *)
Definition decode_impl (opts : Options) (r : Reassembler) (ctx : DecodeContext)
    : decoded (SomeIpHeader * DecodeContext * Reassembler) :=
  if negb (has_bytes ctx HEADER_SIZE)
  then make_error BufferTooSmall "SOME/IP header too small" 0
  else
    version ← byte_at (data ctx) 12;
    if validate_protocol_version opts && negb (version =? PROTOCOL_VERSION) &&
       negb (allow_invalid_version opts)
    then make_error InvalidVersion
           ("SOME/IP protocol version " +:+ pretty version +:+ " (expected " +:+
            pretty PROTOCOL_VERSION +:+ ")") 0
    else
      interface ← byte_at (data ctx) 13;
      message_type_byte ← byte_at (data ctx) 14;
      code ← byte_at (data ctx) 15;
      let header :=
        mkSomeIpHeader (ctx_read_be16 ctx 0) (ctx_read_be16 ctx 2) (ctx_read_be32 ctx 4)
          (ctx_read_be16 ctx 8) (ctx_read_be16 ctx 10) version interface message_type_byte code in
      if sip_length header <? 8
      then make_error InvalidLength
             ("SOME/IP length too small: " +:+ pretty (sip_length header) +:+ " (minimum: 8 bytes)") 0
      else
        r' ← (if is_tp message_type_byte then decode_tp opts r ctx header else Done r);
        Done (header, sub_context ctx HEADER_SIZE, r').

(** ** The message layout *)

Definition encode_header (h : SomeIpHeader) : list byte :=
  write_be16 (service_id h) ++ write_be16 (method_id h) ++ write_be32 (sip_length h) ++
  write_be16 (client_id h) ++ write_be16 (session_id h) ++
  [to_byte (protocol_version h); to_byte (interface_version h); to_byte (message_type h);
   to_byte (return_code h)].

Record wf_header (opts : Options) (h : SomeIpHeader) : Prop := {
  wf_service : fits 16 (service_id h);
  wf_method : fits 16 (method_id h);
  wf_length : 8 <= sip_length h < 2 ^ 32;
  wf_client : fits 16 (client_id h);
  wf_session : fits 16 (session_id h);
  wf_version : fits 8 (protocol_version h);
  wf_interface : fits 8 (interface_version h);
  wf_type : fits 8 (message_type h);
  wf_code : fits 8 (return_code h);
  wf_accept : validate_protocol_version opts = true -> allow_invalid_version opts = false ->
              protocol_version h = PROTOCOL_VERSION
}.

(** The length a TP message must have. *)
Definition tp_length_ok (h : SomeIpHeader) : Prop := 12 <= sip_length h <= MAX_MESSAGE_SIZE.

Definition tp_offset (t1 t2 t3 : byte) : Z := (u8 t1 * 65536 + u8 t2 * 256 + u8 t3) * 4.
Definition tp_more (t0 : byte) : bool := negb (Z.land (u8 t0) TP_MORE_SEGMENTS =? 0).

(** A TP message that the decoder passes to the reassembler: its four TP header
    bytes and the bytes behind them. *)
Definition tp_segment_at (h : SomeIpHeader) (payload : list byte) (seg : SomeipTpSegment)
    (body : list byte) : Prop :=
  exists t0 t1 t2 t3, payload = t0 :: t1 :: t2 :: t3 :: body /\
    seg = mkSomeipTpSegment (tp_offset t1 t2 t3) (tp_more t0) /\
    tp_offset t1 t2 t3 + (sip_length h - 12) <= MAX_MESSAGE_SIZE.

Definition next_of (ctx : DecodeContext) (payload : list byte) : DecodeContext :=
  mkDecodeContext payload (original_offset ctx + 16) (timestamp ctx) (layer_info ctx).

Lemma someip_decode_encode opts r ctx h payload :
  data ctx = encode_header h ++ payload -> wf_header opts h ->
  decode_impl opts r ctx =
    (r' ← (if is_tp (message_type h) then decode_tp opts r ctx h else Done r);
     Done (h, next_of ctx payload, r')).
Proof.
  intros Hd [Hs Hm Hl Hc Hse Hv Hi Ht Hco Hacc]. pose proof Hd as Hd'.
  assert (Hl32 : fits 32 (sip_length h)) by (unfold fits; lia).
  cbn [encode_header app write_be16 write_be32] in Hd.
  unfold decode_impl, HEADER_SIZE. eval_reads Hd. cbn [negb].
  erewrite (byte_at_drop _ 12), bind_Done by (first [rewrite Hd; reflexivity | lia]).
  rewrite u8_to_byte, (Z.mod_small (protocol_version h)) by assumption.
  replace (validate_protocol_version opts && negb (protocol_version h =? PROTOCOL_VERSION) &&
           negb (allow_invalid_version opts)) with false.
  2:{ destruct (validate_protocol_version opts), (allow_invalid_version opts); cbn;
        rewrite ?andb_false_r; auto. rewrite Hacc by reflexivity. reflexivity. }
  erewrite (byte_at_drop _ 13), bind_Done by (first [rewrite Hd; reflexivity | lia]).
  erewrite (byte_at_drop _ 14), bind_Done by (first [rewrite Hd; reflexivity | lia]).
  erewrite (byte_at_drop _ 15), bind_Done by (first [rewrite Hd; reflexivity | lia]).
  rewrite !u8_to_byte, !(Z.mod_small _ 256) by assumption. cbn [sip_length].
  rewrite (proj2 (Z.ltb_ge _ _)) by lia.
  rewrite sub_context_in by (rewrite Hd'; cbn; lia). rewrite Hd', drop_app_Z by reflexivity.
  destruct h. reflexivity.
Qed.

(** Any context that is not an error of the fixed header starts with one. *)
Lemma decode_header_sound opts r ctx :
  (exists e, decode_impl opts r ctx = Fail e) \/
  (exists h payload, wf_header opts h /\ data ctx = encode_header h ++ payload).
Proof.
  assert (Hd : exists d, data ctx = d) by eauto. destruct Hd as [d Hd].
  unfold decode_impl, has_bytes, HEADER_SIZE.
  destruct (16 <=? data_size ctx) eqn:H16; [bool_to_prop; cbn [negb] | left; eexists; reflexivity].
  rewrite Hd in H16. do 16 (destruct d as [|? d]; [cbn in H16; lia|]). clear H16.
  erewrite (byte_at_drop _ 12), bind_Done by (first [rewrite Hd; reflexivity | lia]).
  destruct (validate_protocol_version opts && _ && _) eqn:Hacc; [left; eexists; reflexivity|].
  erewrite (byte_at_drop _ 13), bind_Done by (first [rewrite Hd; reflexivity | lia]).
  erewrite (byte_at_drop _ 14), bind_Done by (first [rewrite Hd; reflexivity | lia]).
  erewrite (byte_at_drop _ 15), bind_Done by (first [rewrite Hd; reflexivity | lia]).
  repeat eval_be16_bytes Hd. repeat eval_be32_bytes Hd. cbn zeta. cbn [sip_length].
  destruct (be32 b3 b4 b5 b6 <? 8) eqn:Hl; [left; eexists; reflexivity | right; bool_to_prop].
  exists (mkSomeIpHeader (be16 b b0) (be16 b1 b2) (be32 b3 b4 b5 b6) (be16 b7 b8) (be16 b9 b10)
            (u8 b11) (u8 b12) (u8 b13) (u8 b14)), d. split.
  - pose proof (be32_fits b3 b4 b5 b6) as [_ ?].
    split; cbn [service_id method_id sip_length client_id session_id protocol_version interface_version
      message_type return_code]; auto with wadjet; try apply u8_range.
    intros Hv Ha. rewrite Hv, Ha in Hacc.
    destruct (Z.eqb_spec (u8 b11) PROTOCOL_VERSION); [assumption | destruct Hacc as [Hacc|Hacc]; discriminate Hacc].
  - unfold encode_header. cbn [service_id method_id sip_length client_id session_id protocol_version
      interface_version message_type return_code].
    rewrite !write_be16_be16, write_be32_be32, !to_byte_u8. exact Hd.
Qed.

Lemma parse_segment_bytes t0 t1 t2 t3 body :
  parse_segment (t0 :: t1 :: t2 :: t3 :: body) =
  Done (mkSomeipTpSegment (tp_offset t1 t2 t3) (tp_more t0)).
Proof.
  transitivity (Done (E:=DecodeError)
    (mkSomeipTpSegment (uint 32 (Z.lor (Z.lor (Z.shiftl (u8 t1) 16) (Z.shiftl (u8 t2) 8)) (u8 t3) * 4))
       (tp_more t0))); [reflexivity|].
  replace (Z.lor (Z.lor (Z.shiftl (u8 t1) 16) (Z.shiftl (u8 t2) 8)) (u8 t3))
    with (u8 t1 * 65536 + u8 t2 * 256 + u8 t3).
  - unfold tp_offset. do 2 f_equal. apply uint_small. unfold fits. byte_ranges. lia.
  - replace (Z.shiftl (u8 t1) 16) with (Z.shiftl (Z.shiftl (u8 t1) 8) 8)
      by (rewrite Z.shiftl_shiftl by lia; reflexivity).
    rewrite <- Z.shiftl_lor, !lor_shiftl_add by (try lia; apply u8_range). lia.
Qed.

Lemma tp_offset_range t1 t2 t3 : 0 <= tp_offset t1 t2 t3 < 2 ^ 26.
Proof. unfold tp_offset. byte_ranges. lia. Qed.

(** The TP branch, evaluated on the layout. *)
Lemma decode_tp_spec opts r ctx h payload :
  data ctx = encode_header h ++ payload ->
  (forall r', decode_tp opts r ctx h = Done r' <->
     tp_length_ok h /\
     if enable_tp_reassembly opts then
       exists seg body, tp_segment_at h payload seg body /\ sip_length h - 12 <= zlen body /\
         exists done, add_segment r (message_id h) (request_id h) seg body (sip_length h - 12) = Done (done, r')
     else r' = r) /\
  (decode_tp opts r ctx h = Undef <->
     tp_length_ok h /\ enable_tp_reassembly opts = true /\
     exists seg body, tp_segment_at h payload seg body /\ zlen body < sip_length h - 12).
Proof.
  intros Hd. unfold decode_tp, tp_length_ok.
  assert (Hsz : data_size ctx = 16 + zlen payload) by (rewrite Hd, length_app; cbn; lia).
  destruct (sip_length h <? 12) eqn:H12; bool_to_prop;
    [split; [intros; split; [discriminate | intros [? _]; lia] | split; [discriminate | intros [? _]; lia]]|].
  destruct (MAX_MESSAGE_SIZE <? sip_length h) eqn:Hmax; bool_to_prop;
    [split; [intros; split; [discriminate | intros [? _]; lia] | split; [discriminate | intros [? _]; lia]]|].
  destruct (enable_tp_reassembly opts).
  2:{ split; [intros; split; [intros [= <-]; auto | intros [_ ->]; reflexivity]|].
      split; [discriminate | intros (_ & ? & _); discriminate]. }
  unfold has_bytes, HEADER_SIZE. rewrite Hsz.
  destruct payload as [|t0 [|t1 [|t2 [|t3 body]]]];
    try (cbn [length Z.of_nat]; cbn -[add_segment]; split; [intros; split; [discriminate|] | split; [discriminate|]];
         [intros (_ & seg & bd & (?&?&?&?&?&_) & _) | intros (_ & _ & seg & bd & (?&?&?&?&?&_) & _)]; discriminate).
  rewrite (proj2 (Z.leb_le _ _)) by (cbn [length]; lia). cbn [negb].
  rewrite !subspan_in by (rewrite Hsz; cbn [length]; lia). rewrite !bind_Done.
  rewrite Hd, (drop_app_Z _ _ 16) by reflexivity. rewrite parse_segment_bytes, bind_Done.
  replace (drop (Z.to_nat (16 + 4)) _) with body by (rewrite <- (drop_drop_Z _ 4 16) by lia; rewrite (drop_app_Z _ _ 16); reflexivity).
  rewrite bind_Done. cbn [seg_offset].
  replace (if 12 <? sip_length h then sip_length h - 12 else 0) with (sip_length h - 12)
    by (destruct (12 <? sip_length h) eqn:E; bool_to_prop; lia).
  assert (Hat : forall seg bd, tp_segment_at h (t0 :: t1 :: t2 :: t3 :: body) seg bd <->
    seg = mkSomeipTpSegment (tp_offset t1 t2 t3) (tp_more t0) /\ bd = body /\
    tp_offset t1 t2 t3 + (sip_length h - 12) <= MAX_MESSAGE_SIZE).
  { intros seg bd. split.
    - intros (? & ? & ? & ? & [= <- <- <- <- <-] & -> & ?). auto.
    - intros (-> & -> & ?). exists t0, t1, t2, t3. auto. }
  destruct (MAX_MESSAGE_SIZE <? tp_offset t1 t2 t3 + (sip_length h - 12)) eqn:Hoff; bool_to_prop.
  { split; [intros; split; [discriminate|] | split; [discriminate|]];
      [intros (_ & seg & bd & Hs & _) | intros (_ & _ & seg & bd & Hs & _)]; apply Hat in Hs; lia. }
  pose proof (tp_offset_range t1 t2 t3) as Hr.
  split.
  - intros r'. split.
    + intros H. apply bind_inv in H as ([done r1] & Ha & H). apply Done_inj in H as <-. split; [lia|].
      exists (mkSomeipTpSegment (tp_offset t1 t2 t3) (tp_more t0)), body. rewrite Hat.
      split; [auto|]. split; [|exists done; exact Ha].
      unfold add_segment in Ha. cbn [seg_offset] in Ha. rewrite !(proj2 (Z.ltb_ge _ _)) in Ha by lia.
      apply bind_inv in Ha as (s & Hm & _). unfold memcpy in Hm. case_in Hm; [bool_to_prop; assumption | discriminate].
    + intros (_ & seg & bd & Hs & _ & done & Ha). apply Hat in Hs as (-> & -> & _). rewrite Ha. reflexivity.
  - unfold add_segment. cbn [seg_offset]. rewrite !(proj2 (Z.ltb_ge _ _)) by lia. unfold memcpy.
    destruct (sip_length h - 12 <=? zlen body) eqn:Hle; bool_to_prop.
    + split; [discriminate|]. intros (_ & _ & seg & bd & Hs & Hlt). apply Hat in Hs as (_ & -> & _). lia.
    + split; [|reflexivity]. intros _. split_and!; [lia | lia | reflexivity |].
      exists (mkSomeipTpSegment (tp_offset t1 t2 t3) (tp_more t0)), body. rewrite Hat. auto.
Qed.


(** Where the SOME/IP decoder reads out of bounds: exactly on the messages
    with the TP flag, when reassembly is enabled, whose length is in range and
    announces more than the bytes behind the TP header, the offset being in
    range.  The length field of the message is never compared with the size of
    the data, so a short datagram makes the reassembler copy past its end. *)
Theorem someip_overread (opts : Options) (r : Reassembler) (ctx : DecodeContext) :
  decode_impl opts r ctx = Undef <->
  exists h payload, wf_header opts h /\ data ctx = encode_header h ++ payload /\
    is_tp (message_type h) = true /\ tp_length_ok h /\ enable_tp_reassembly opts = true /\
    exists seg body, tp_segment_at h payload seg body /\ zlen body < sip_length h - 12.
Proof.
  split.
  - intros H. destruct (decode_header_sound opts r ctx) as [[e He]|(h & payload & Hwf & Hd)];
      [congruence|].
    rewrite (someip_decode_encode _ _ _ _ _ Hd Hwf) in H. exists h, payload.
    destruct (is_tp (message_type h)); [|discriminate].
    destruct (decode_tp opts r ctx h) eqn:E; [discriminate | discriminate |].
    apply (decode_tp_spec opts r ctx h payload Hd) in E. auto.
  - intros (h & payload & Hwf & Hd & Htp & Hrest). rewrite (someip_decode_encode _ _ _ _ _ Hd Hwf), Htp.
    apply (decode_tp_spec opts r ctx h payload Hd) in Hrest. rewrite Hrest. reflexivity.
Qed.

(** A TP Notification of 4 bytes behind a TP header, the length field saying 100. *)
Definition sample_overread : list byte :=
  [x12; x34; x80; x01; x00; x00; x00; x70; x00; x00; x00; x01; x01; x01; x22; x00;
   x00; x00; x00; x00; xde; xad; xbe; xef].

Example sample_overread_undef :
  decode_impl Options_default ∅ (context_of sample_overread) = Undef.
Proof. vm_compute. reflexivity. Qed.

(** ** The buffer *)

Lemma length_grow n d : zlen (grow n d) = Z.max n (zlen d).
Proof. unfold grow. rewrite length_app, length_replicate. lia. Qed.

Lemma length_buffer_segment d offset seg :
  0 <= offset -> zlen (buffer_segment d offset seg) = Z.max (offset + zlen seg) (zlen d).
Proof.
  intros Ho. unfold buffer_segment, write_at. rewrite !length_app, length_take, length_drop.
  pose proof (length_grow (offset + zlen seg) d). lia.
Qed.

(** Byte [i] of the buffer after a segment is the segment's if it covers [i], else
    the byte it had. *)
Lemma lookup_buffer_segment d offset seg i :
  0 <= offset ->
  (Z.to_nat offset <= i < Z.to_nat offset + length seg)%nat ->
  buffer_segment d offset seg !! i = seg !! (i - Z.to_nat offset)%nat.
Proof.
  intros Ho Hi. unfold buffer_segment, write_at.
  pose proof (length_grow (offset + zlen seg) d) as Hg.
  assert (Ht : length (take (Z.to_nat offset) (grow (offset + zlen seg) d)) = Z.to_nat offset)
    by (rewrite length_take; lia).
  rewrite lookup_app_r by lia. rewrite Ht. apply lookup_app_l. lia.
Qed.

Lemma lookup_buffer_segment_ne d offset seg i :
  0 <= offset -> ~ (Z.to_nat offset <= i < Z.to_nat offset + length seg)%nat -> (i < length d)%nat ->
  buffer_segment d offset seg !! i = d !! i.
Proof.
  intros Ho Hi Hd. unfold buffer_segment, write_at.
  pose proof (length_grow (offset + zlen seg) d) as Hg.
  assert (Hgd : grow (offset + zlen seg) d !! i = d !! i) by (unfold grow; apply lookup_app_l; exact Hd).
  rewrite <- Hgd. destruct (Nat.lt_ge_cases i (Z.to_nat offset)).
  - rewrite lookup_app_l by (rewrite length_take; lia). apply lookup_take_lt. lia.
  - rewrite lookup_app_r by (rewrite length_take; lia). rewrite length_take, Nat.min_l by lia.
    rewrite lookup_app_r by lia. rewrite lookup_drop. f_equal. lia.
Qed.

(** ** Messages *)

(** Every message the reassembler holds. *)
Record msg_ok (m : SomeipTpMessage) : Prop := {
  ok_length : total_length m = zlen (msg_data m);
  ok_bound : total_length m <= MAX_MESSAGE_SIZE;
  ok_time : last_update_time m = 0
}.

Definition reassembler_ok (r : Reassembler) : Prop := forall k m, r !! k = Some m -> msg_ok m.

Definition in_bounds (segment : SomeipTpSegment) (size : Z) : Prop :=
  0 <= seg_offset segment /\ 0 <= size /\ seg_offset segment + size <= MAX_MESSAGE_SIZE.

Lemma segment_end_exact segment size :
  in_bounds segment size -> uint 32 (seg_offset segment + uint 32 size) = seg_offset segment + size.
Proof.
  unfold in_bounds, MAX_MESSAGE_SIZE. intros (? & ? & ?).
  rewrite (uint_small 32 size), uint_small by (unfold fits; lia). reflexivity.
Qed.

(** The buffer a message has, empty when there is none. *)
Definition buffer_of (r : Reassembler) (k : Z * Z) : list byte := default [] (msg_data <$> r !! k).

Lemma add_segment_step r mid rid segment data :
  reassembler_ok r -> in_bounds segment (zlen data) ->
  exists m, add_segment r mid rid segment data (zlen data) = Done (is_complete m, <[(mid, rid) := m]> r) /\
    msg_ok m /\ msg_data m = buffer_segment (buffer_of r (mid, rid)) (seg_offset segment) data.
Proof.
  intros Hr Hb. unfold add_segment. pose proof Hb as (Ho & _ & Hmax).
  rewrite !(proj2 (Z.ltb_ge MAX_MESSAGE_SIZE _)) by lia.
  rewrite memcpy_all, bind_Done by reflexivity. rewrite segment_end_exact by assumption. cbn zeta.
  eexists. split; [reflexivity|]. unfold buffer_of. destruct (r !! (mid, rid)) as [m|] eqn:E.
  - destruct (Hr _ _ E) as [Hl Hbd _]. cbn. split; [|reflexivity].
    split; cbn; [| | reflexivity]; rewrite ?length_buffer_segment by assumption;
      destruct (Z.ltb_spec (total_length m) (seg_offset segment + zlen data)); lia.
  - cbn. split; [|reflexivity]. split; cbn; [| lia | reflexivity].
    rewrite length_buffer_segment by assumption. cbn. lia.
Qed.

Lemma add_segment_ok r mid rid segment data size done r' :
  reassembler_ok r -> 0 <= seg_offset segment -> 0 <= size ->
  add_segment r mid rid segment data size = Done (done, r') -> reassembler_ok r'.
Proof.
  intros Hr Ho Hs Ha. unfold add_segment in Ha.
  destruct (MAX_MESSAGE_SIZE <? seg_offset segment); [injection Ha as _ <-; exact Hr|].
  destruct (MAX_MESSAGE_SIZE <? seg_offset segment + size) eqn:E; [injection Ha as _ <-; exact Hr|].
  bool_to_prop. apply bind_inv in Ha as (s & Hm & Ha). pose proof (memcpy_length _ _ _ Hs Hm) as Hl.
  destruct (add_segment_step r mid rid segment s Hr) as (m & Hadd & Hok & _);
    [unfold in_bounds; lia|].
  assert (Hsame : add_segment r mid rid segment s (zlen s) = Done (done, r')).
  { unfold add_segment. rewrite Hl, !(proj2 (Z.ltb_ge MAX_MESSAGE_SIZE _)) by lia.
    rewrite memcpy_all by (symmetry; exact Hl). exact Ha. }
  rewrite Hsame in Hadd. injection Hadd as _ ->. intros k m' Hk.
  apply lookup_insert_Some in Hk as [[_ <-]|[_ Hk]]; eauto.
Qed.

Lemma lookup_cleanup_timed_out r now k m :
  cleanup_timed_out r now !! k = Some m <-> r !! k = Some m /\ timed_out now m = false.
Proof. unfold cleanup_timed_out. apply map_lookup_filter_Some. Qed.

(** The reassembler's invariant: a message's total length is the size of its
    buffer and at most 16 MiB, and its update time is 0.  Every operation keeps
    it.  Hence a message is complete as soon as its buffer is not empty: the
    first nonempty segment of a message is already reported as the whole
    message, whatever its more-segments flag, and later ones as well. *)
Theorem someip_tp_complete_at_once (r : Reassembler) (mid rid : Z) (segment : SomeipTpSegment)
    (data : list byte) (now : Z) :
  reassembler_ok r -> in_bounds segment (zlen data) ->
  reassembler_ok ∅ /\
  reassembler_ok (remove_message r mid rid) /\ reassembler_ok (cleanup_timed_out r now) /\
  exists m, add_segment r mid rid segment data (zlen data) = Done (0 <? zlen (msg_data m), <[(mid, rid) := m]> r) /\
    reassembler_ok (<[(mid, rid) := m]> r) /\ seg_offset segment + zlen data <= zlen (msg_data m) /\
    (data <> [] -> get_message (<[(mid, rid) := m]> r) mid rid = Some m).
Proof.
  intros Hr Hb. split_and!.
  - intros k m Hk. rewrite lookup_empty in Hk. discriminate.
  - intros k m Hk. unfold remove_message in Hk. apply lookup_delete_Some in Hk as [_ Hk]. eauto.
  - intros k m Hk. apply lookup_cleanup_timed_out in Hk as [Hk _]. eauto.
  - destruct (add_segment_step r mid rid segment data Hr Hb) as (m & Ha & Hok & Hd).
    destruct Hok as [Hl Hbd Ht]. pose proof Hb as (Ho & _).
    assert (Hc : is_complete m = (0 <? zlen (msg_data m))).
    { unfold is_complete. rewrite Hl, Z.leb_refl. reflexivity. }
    assert (Hge : seg_offset segment + zlen data <= zlen (msg_data m))
      by (rewrite Hd, length_buffer_segment by assumption; lia).
    exists m. rewrite <- Hc. split_and!; auto.
    + intros k m' Hk. apply lookup_insert_Some in Hk as [[_ <-]|[_ Hk]]; [split; assumption | eauto].
    + intros Hne. unfold get_message. rewrite lookup_insert_eq, Hc.
      rewrite (proj2 (Z.ltb_lt _ _)); [reflexivity|].
      destruct data; [contradiction | cbn [length] in Hge; lia].
Qed.

(** The first of several segments. *)
Lemma someip_tp_complete_at_once_witness :
  let segment := mkSomeipTpSegment 0 true in
  let data := [x61; x62; x63; x64] in
  reassembler_ok ∅ /\
  reassembler_ok (remove_message ∅ 1 2) /\ reassembler_ok (cleanup_timed_out ∅ 7) /\
  exists m, add_segment ∅ 1 2 segment data (zlen data) = Done (0 <? zlen (msg_data m), <[(1, 2) := m]> ∅) /\
    reassembler_ok (<[(1, 2) := m]> ∅) /\ seg_offset segment + zlen data <= zlen (msg_data m) /\
    (data <> [] -> get_message (<[(1, 2) := m]> ∅) 1 2 = Some m).
Proof.
  intros segment data. apply someip_tp_complete_at_once.
  - intros k m Hk. rewrite lookup_empty in Hk. discriminate.
  - vm_compute. split; [|split]; congruence.
Defined.

(** Timeouts do not measure a message's age: whatever messages the
    reassembler holds and whenever their segments came, [cleanup_timed_out]
    removes all of them when the time given is above 5000 ms, and none when it is
    not. *)
Theorem someip_tp_cleanup_all_or_nothing (r : Reassembler) (now : Z) :
  reassembler_ok r -> fits 64 now ->
  cleanup_timed_out r now = if TIMEOUT_MS <? now then ∅ else r.
Proof.
  intros Hr Hn. apply map_eq. intros k. apply option_eq. intros m.
  rewrite lookup_cleanup_timed_out. unfold timed_out.
  assert (Ht : r !! k = Some m ->
    ((last_update_time m <? now) && (TIMEOUT_MS <? uint 64 (now - last_update_time m))) = (TIMEOUT_MS <? now)).
  { intros Hk. destruct (Hr _ _ Hk) as [_ _ ->]. rewrite Z.sub_0_r, uint_small by assumption.
    unfold TIMEOUT_MS. destruct (Z.ltb_spec 5000 now), (Z.ltb_spec 0 now); auto; lia. }
  destruct (TIMEOUT_MS <? now) eqn:E.
  - rewrite lookup_empty. split; [|discriminate]. intros [Hk Hf]. rewrite (Ht Hk) in Hf. discriminate.
  - split; [intros [? _]; assumption | intros Hk; rewrite (Ht Hk); auto].
Qed.

Definition sample_message : SomeipTpMessage := mkSomeipTpMessage 1 2 2 [x61; x62] 0.

Lemma someip_tp_cleanup_all_or_nothing_witness :
  let r : Reassembler := {[ (1, 2) := sample_message ]} in
  r !! (1, 2) = Some sample_message /\
  cleanup_timed_out r 5001 = (if TIMEOUT_MS <? 5001 then ∅ else r).
Proof.
  intros r. split; [reflexivity|]. apply someip_tp_cleanup_all_or_nothing.
  - intros k m Hk. apply lookup_singleton_Some in Hk as [_ <-]. split; vm_compute; congruence.
  - vm_compute. split; [discriminate | reflexivity].
Defined.

(** ** Reassembly *)

(** Segments of one message, added in turn: offsets, flags and data. *)
Fixpoint add_segments (r : Reassembler) (mid rid : Z) (segs : list (SomeipTpSegment * list byte))
    : decoded Reassembler :=
  match segs with
  | [] => Done r
  | (s, d) :: segs' =>
      added ← add_segment r mid rid s d (zlen d);
      add_segments added.2 mid rid segs'
  end.

(** A segment that carries the bytes of [payload] at its offset. *)
Definition slice_of (payload : list byte) (sd : SomeipTpSegment * list byte) : Prop :=
  0 <= seg_offset sd.1 /\ seg_offset sd.1 + zlen sd.2 <= zlen payload /\
  sd.2 = take (length sd.2) (drop (Z.to_nat (seg_offset sd.1)) payload).

Definition covers (segs : list (SomeipTpSegment * list byte)) (i : nat) : Prop :=
  exists sd, sd ∈ segs /\ (Z.to_nat (seg_offset sd.1) <= i < Z.to_nat (seg_offset sd.1) + length sd.2)%nat.

Lemma lookup_slice payload sd i :
  slice_of payload sd ->
  (Z.to_nat (seg_offset sd.1) <= i < Z.to_nat (seg_offset sd.1) + length sd.2)%nat ->
  sd.2 !! (i - Z.to_nat (seg_offset sd.1))%nat = payload !! i.
Proof.
  intros (Ho & Hl & Hs) Hi. rewrite Hs, lookup_take_lt by lia. rewrite lookup_drop. f_equal. lia.
Qed.

(** The buffer agrees with the payload where it has been covered. *)
Definition agrees (payload : list byte) (done : nat -> Prop) (buf : list byte) : Prop :=
  (length buf <= length payload)%nat /\ (forall i, done i -> (i < length buf)%nat /\ buf !! i = payload !! i).

Lemma agrees_segment payload done buf sd :
  agrees payload done buf -> slice_of payload sd ->
  agrees payload (fun i => done i \/
      (Z.to_nat (seg_offset sd.1) <= i < Z.to_nat (seg_offset sd.1) + length sd.2)%nat)
    (buffer_segment buf (seg_offset sd.1) sd.2).
Proof.
  intros [Hlen Hdone] Hs. pose proof Hs as (Ho & Hl & _).
  pose proof (length_buffer_segment buf (seg_offset sd.1) sd.2 Ho) as Hb. split; [lia|].
  intros i Hi.
  destruct (decide (Z.to_nat (seg_offset sd.1) <= i < Z.to_nat (seg_offset sd.1) + length sd.2)%nat) as [Hin|Hout].
  - split; [lia|]. rewrite lookup_buffer_segment by assumption. apply lookup_slice; assumption.
  - destruct Hi as [Hi|Hi]; [|contradiction]. destruct (Hdone i Hi) as [Hlt He].
    split; [lia|]. rewrite lookup_buffer_segment_ne by assumption. exact He.
Qed.

Lemma add_segments_spec payload mid rid segs r done :
  zlen payload <= MAX_MESSAGE_SIZE -> reassembler_ok r ->
  Forall (slice_of payload) segs -> agrees payload done (buffer_of r (mid, rid)) ->
  exists r', add_segments r mid rid segs = Done r' /\ reassembler_ok r' /\
    agrees payload (fun i => done i \/ covers segs i) (buffer_of r' (mid, rid)).
Proof.
  intros Hmax. revert r done. induction segs as [|[s d] segs IH]; intros r done Hr Hall Hag; cbn [add_segments].
  - exists r. split_and!; auto. destruct Hag as [? Hag]. split; [assumption|].
    intros i [Hi|(sd & Hin & _)]; [auto|]. apply elem_of_nil in Hin. contradiction.
  - apply Forall_cons in Hall as [Hs Hall]. pose proof Hs as (Ho & Hl & _). cbn [fst snd] in Ho, Hl.
    destruct (add_segment_step r mid rid s d Hr) as (m & Ha & Hok & Hd); [unfold in_bounds; lia|].
    rewrite Ha, bind_Done. cbn [snd].
    assert (Hr' : reassembler_ok (<[(mid, rid) := m]> r)).
    { intros k m' Hk. apply lookup_insert_Some in Hk as [[_ <-]|[_ Hk]]; eauto. }
    destruct (IH (<[(mid, rid) := m]> r) _ Hr' Hall
                 ltac:(unfold buffer_of; rewrite lookup_insert_eq; cbn; rewrite Hd;
                       exact (agrees_segment _ _ _ _ Hag Hs))) as (r' & Hadd & Hok' & [Hlen Hag']).
    exists r'. split_and!; auto. split; [assumption|]. intros i Hi. apply Hag'.
    destruct Hi as [Hi|(sd & Hin & Hi)]; [auto|]. apply elem_of_cons in Hin as [->|Hin]; [auto|].
    right. exists sd. auto.
Qed.

(** [C3] Reassembly is correct in any order: from a reassembler that holds nothing
    for the message, adding segments that carry slices of a payload of at most
    16 MiB and together cover it, in any order, with overlaps and repetitions,
    succeeds, and [get_message] then returns the payload. *)
Theorem someip_tp_reassembles (r : Reassembler) (mid rid : Z) (payload : list byte)
    (segs : list (SomeipTpSegment * list byte)) :
  reassembler_ok r -> r !! (mid, rid) = None -> payload <> [] -> zlen payload <= MAX_MESSAGE_SIZE ->
  Forall (slice_of payload) segs -> (forall i, (i < length payload)%nat -> covers segs i) ->
  exists r' m, add_segments r mid rid segs = Done r' /\
    get_message r' mid rid = Some m /\ msg_data m = payload.
Proof.
  intros Hr Hnone Hne Hmax Hall Hcov.
  destruct (add_segments_spec payload mid rid segs r (fun _ => False) Hmax Hr Hall) as (r' & Ha & Hok & [Hlen Hag]).
  { unfold buffer_of. rewrite Hnone. split; [cbn; lia | intros i []]. }
  assert (Hbuf : buffer_of r' (mid, rid) = payload).
  { apply list_eq. intros i. destruct (Nat.lt_ge_cases i (length payload)) as [Hi|Hi].
    - apply Hag. right. apply Hcov, Hi.
    - rewrite !lookup_ge_None_2 by lia. reflexivity. }
  unfold buffer_of in Hbuf. destruct (r' !! (mid, rid)) as [m|] eqn:E; [|destruct payload; [contradiction | discriminate]].
  cbn in Hbuf. exists r', m. split_and!; [assumption | | assumption].
  unfold get_message. rewrite E. destruct (Hok _ _ E) as [Hl _ _]. unfold is_complete.
  rewrite Hl, Z.leb_refl, Hbuf. rewrite (proj2 (Z.ltb_lt 0 _)); [reflexivity|].
  destruct payload; [contradiction | cbn [length]; lia].
Qed.

Lemma someip_tp_reassembles_witness :
  let payload := [x61; x62; x63; x64; x65; x66] in
  let segs := [(mkSomeipTpSegment 4 false, [x65; x66]); (mkSomeipTpSegment 0 true, [x61; x62; x63; x64]);
               (mkSomeipTpSegment 0 true, [x61; x62])] in
  exists r' m, add_segments ∅ 1 2 segs = Done r' /\ get_message r' 1 2 = Some m /\ msg_data m = payload.
Proof.
  intros payload segs. apply someip_tp_reassembles.
  - intros k m Hk. rewrite lookup_empty in Hk. discriminate.
  - reflexivity.
  - discriminate.
  - vm_compute. congruence.
  - unfold segs, slice_of. repeat constructor; try (vm_compute; congruence).
  - intros i Hi. cbn in Hi. destruct (decide (i < 4)%nat).
    + exists (mkSomeipTpSegment 0 true, [x61; x62; x63; x64]).
      split; [apply list_elem_of_further, list_elem_of_here | cbn; lia].
    + exists (mkSomeipTpSegment 4 false, [x65; x66]). split; [apply list_elem_of_here | cbn; lia].
Defined.
