(* ===== verification/SomeIpSd.v ===== *)
(** * SOME/IP service discovery (src/protocols/someip_sd.cpp, include/wadjet/protocols/someip_sd.hpp)

    The decoder of the entries and options arrays, with its loops, and what it
    guarantees: memory safety, termination, the bytes it accounts for, and the
    round trip with the message layout. *)

From Stdlib Require Import ZArith Lia.
From Stdlib Require Import Strings.Byte.
From stdpp Require Import base numbers list strings.
From S2P Require Import Prelude ByteOrder Decoder.

Definition SD_HEADER_SIZE : Z := 12.
Definition ENTRY_SIZE : Z := 16.

(** [enum class EntryType], [OptionType] and [L4Protocol], all on [std::uint8_t]. *)
Definition FindService : Z := 0x00.
Definition OfferService : Z := 0x01.
Definition StopOfferService : Z := 0x81.
Definition SubscribeEventgroup : Z := 0x06.
Definition StopSubscribeEventgroup : Z := 0x86.
Definition SubscribeEventgroupAck : Z := 0x07.
Definition SubscribeEventgroupNack : Z := 0x87.
Definition OptionType_IPv4Endpoint : Z := 0x04.
Definition OptionType_IPv4Multicast : Z := 0x14.
Definition OptionType_IPv4SDEndpoint : Z := 0x24.

Definition entry_type_string (type : Z) : string :=
  if type =? FindService then "FindService"
  else if type =? OfferService then "OfferService"
  else if type =? StopOfferService then "StopOfferService"
  else if type =? SubscribeEventgroup then "SubscribeEventgroup"
  else if type =? StopSubscribeEventgroup then "StopSubscribeEventgroup"
  else if type =? SubscribeEventgroupAck then "SubscribeEventgroupAck"
  else if type =? SubscribeEventgroupNack then "SubscribeEventgroupNack"
  else "Unknown".

Record IPv4EndpointOption := mkIPv4EndpointOption { ep_address : list byte; ep_port : Z; ep_protocol : Z }.

(** The fields that service and eventgroup entries share. *)
Record EntryCommon := mkEntryCommon {
  en_type : Z;
  index1_first_option : Z;
  index2_first_option : Z;
  num_options_1 : Z;
  num_options_2 : Z;
  en_service_id : Z;
  en_instance_id : Z;
  major_version : Z;
  ttl : Z
}.

(** [std::variant<ServiceEntry, EventgroupEntry>]. *)
Inductive SdEntry :=
| ServiceEntry (common : EntryCommon) (minor_version : Z)
| EventgroupEntry (common : EntryCommon) (counter eventgroup_id : Z).

Record SdOption := mkSdOption { opt_type : Z; opt_data : list byte }.

Record SomeIpSdHeader := mkSomeIpSdHeader {
  flags : Z;
  entries_length : Z;
  options_length : Z;
  entries : list SdEntry;
  options : list SdOption
}.

(** [header_size()], a sum of [std::size_t]. *)
Definition header_size (h : SomeIpSdHeader) : Z := SD_HEADER_SIZE + entries_length h + options_length h.
Definition payload_size (h : SomeIpSdHeader) : Z := 0.
Definition is_reboot (h : SomeIpSdHeader) : bool := negb (Z.land (flags h) 0x80 =? 0).
Definition is_unicast (h : SomeIpSdHeader) : bool := negb (Z.land (flags h) 0x40 =? 0).

Definition get_offers (h : SomeIpSdHeader) : list SdEntry :=
  List.filter (fun e => match e with ServiceEntry c _ => en_type c =? OfferService | _ => false end)
    (entries h).

Definition get_subscriptions (h : SomeIpSdHeader) : list SdEntry :=
  List.filter (fun e => match e with EventgroupEntry c _ _ => en_type c =? SubscribeEventgroup | _ => false end)
    (entries h).

(** [find_service]: the first service entry with the id, and the instance unless
    it is the wildcard. *)
Fixpoint find_service_in (es : list SdEntry) (service_id instance_id : Z) : option (EntryCommon * Z) :=
  match es with
  | [] => None
  | ServiceEntry c v :: es' =>
      if (en_service_id c =? service_id) &&
         ((instance_id =? 0xFFFF) || (en_instance_id c =? instance_id))
      then Some (c, v) else find_service_in es' service_id instance_id
  | EventgroupEntry _ _ _ :: es' => find_service_in es' service_id instance_id
  end.
Definition find_service (h : SomeIpSdHeader) (service_id instance_id : Z) : option (EntryCommon * Z) :=
  find_service_in (entries h) service_id instance_id.

(** [SdOption::as_ipv4_endpoint]. *)
Definition as_ipv4_endpoint (o : SdOption) : decoded (option IPv4EndpointOption) :=
  if negb (opt_type o =? OptionType_IPv4Endpoint) && negb (opt_type o =? OptionType_IPv4Multicast) &&
     negb (opt_type o =? OptionType_IPv4SDEndpoint)
  then Done None
  else if zlen (opt_data o) <? 9 then Done None
  else
    address ← memcpy (opt_data o) 4;
    protocol ← byte_at (opt_data o) 5;
    hi ← byte_at (opt_data o) 6;
    lo ← byte_at (opt_data o) 7;
    Done (Some (mkIPv4EndpointOption address (uint 16 (Z.lor (Z.shiftl hi 8) lo)) protocol)).

(** The loop [for (i = index; i < index + count && i < options.size(); ++i)]. *)
Definition option_range (os : list SdOption) (index count : Z) : list SdOption :=
  take (Z.to_nat count) (drop (Z.to_nat index) os).
Definition get_options_for_entry (os : list SdOption) (index1 num1 index2 num2 : Z) : list SdOption :=
  option_range os index1 num1 ++ option_range os index2 num2.

Record Options := mkOptions {
  parse_entries_opt : bool;
  parse_options_opt : bool;
  max_entries : Z;
  max_options : Z
}.
Definition Options_default : Options := mkOptions true true 1000 1000.

Definition can_decode (ctx : DecodeContext) : bool := has_bytes ctx SD_HEADER_SIZE.

(** ** The decoder *)

(** [parse_entry]: [None] when fewer than 16 bytes are left. *)
Definition parse_entry (ctx : DecodeContext) (offset : Z) : decoded (option SdEntry) :=
  if negb (has_bytes ctx (offset + ENTRY_SIZE)) then Done None
  else
    type ← byte_at (data ctx) offset;
    index1 ← byte_at (data ctx) (offset + 1);
    index2 ← byte_at (data ctx) (offset + 2);
    num_opts ← byte_at (data ctx) (offset + 3);
    major ← byte_at (data ctx) (offset + 8);
    t0 ← byte_at (data ctx) (offset + 9);
    t1 ← byte_at (data ctx) (offset + 10);
    t2 ← byte_at (data ctx) (offset + 11);
    let common :=
      mkEntryCommon type index1 index2 (Z.land (Z.shiftr num_opts 4) 15) (Z.land num_opts 15)
        (ctx_read_be16 ctx (offset + 4)) (ctx_read_be16 ctx (offset + 6)) major
        (Z.lor (Z.lor (Z.shiftl t0 16) (Z.shiftl t1 8)) t2) in
    let last := ctx_read_be32 ctx (offset + 12) in
    if Z.land type 0x06 =? 0x06
    then Done (Some (EventgroupEntry common (Z.land (Z.shiftr last 16) 15) (Z.land last 65535)))
    else Done (Some (ServiceEntry common last)).

(** [parse_option], with the value it leaves in [consumed] (0 on entry). *)
Definition parse_option (ctx : DecodeContext) (offset : Z) : decoded (option SdOption * Z) :=
  if negb (has_bytes ctx (offset + 3)) then Done (None, 0)
  else
    let length := ctx_read_be16 ctx offset in
    type ← byte_at (data ctx) (offset + 2);
    if length =? 0 then Done (None, 3)
    else
      let total_size := 2 + length in
      if negb (has_bytes ctx (offset + total_size)) then Done (None, 0)
      else
        let data := if 1 <? length then ctx_read_bytes ctx (offset + 3) (length - 1) else [] in
        Done (Some (mkSdOption type data), total_size).

Definition cons_option {A} (o : option A) (l : list A) : list A :=
  match o with Some a => a :: l | None => l end.

(** The loop over the entries; running out of fuel counts as [Undef], and
    [entries_loop_total] excludes it. *)
Fixpoint entries_loop (fuel : nat) (ctx : DecodeContext) (entries_end offset count max : Z)
    : decoded (list SdEntry) :=
  if (offset + ENTRY_SIZE <=? entries_end) && (count <? max) then
    match fuel with
    | O => Undef
    | S fuel' =>
        entry ← parse_entry ctx offset;
        rest ← entries_loop fuel' ctx entries_end (offset + ENTRY_SIZE) (count + 1) max;
        Done (cons_option entry rest)
    end
  else Done [].

(** The loop over the options, which stops when nothing was consumed. *)
Fixpoint options_loop (fuel : nat) (ctx : DecodeContext) (options_end offset count max : Z)
    : decoded (list SdOption) :=
  if (offset <? options_end) && (count <? max) then
    match fuel with
    | O => Undef
    | S fuel' =>
        oc ← parse_option ctx offset;
        if oc.2 =? 0 then Done (cons_option oc.1 [])
        else
          rest ← options_loop fuel' ctx options_end (offset + oc.2) (count + 1) max;
          Done (cons_option oc.1 rest)
    end
  else Done [].

(** [8 + header.entries_length] is an addition of 32-bit unsigned integers. *)
Definition entries_end_of (entries_length : Z) : Z := uint 32 (8 + entries_length).

Definition decode_impl (opts : Options) (ctx : DecodeContext)
    : decoded (SomeIpSdHeader * DecodeContext) :=
  if negb (has_bytes ctx SD_HEADER_SIZE)
  then make_error BufferTooSmall "SOME/IP-SD header too small" 0
  else
    flags ← byte_at (data ctx) 0;
    let entries_length := ctx_read_be32 ctx 4 in
    let entries_end := entries_end_of entries_length in
    if negb (has_bytes ctx entries_end)
    then make_error TruncatedPayload "SOME/IP-SD entries array truncated" 0
    else
      entries ← (if parse_entries_opt opts
                 then entries_loop (length (data ctx)) ctx entries_end 8 0 (max_entries opts)
                 else Done []);
      if negb (has_bytes ctx (entries_end + 4))
      then make_error TruncatedPayload "SOME/IP-SD options length truncated" 0
      else
        let options_length := ctx_read_be32 ctx entries_end in
        let options_end := entries_end + 4 + options_length in
        if negb (has_bytes ctx options_end)
        then make_error TruncatedPayload "SOME/IP-SD options array truncated" 0
        else
          options ← (if parse_options_opt opts
                     then options_loop (length (data ctx)) ctx options_end (entries_end + 4) 0
                            (max_options opts)
                     else Done []);
          Done (mkSomeIpSdHeader flags entries_length options_length entries options,
                sub_context ctx options_end).

(** [parse_sd_entries] and [parse_sd_options], the helpers on raw arrays. *)
Fixpoint parse_sd_entries_loop (n : nat) (ctx : DecodeContext) (i : Z) : decoded (list SdEntry) :=
  match n with
  | O => Done []
  | S n' =>
      if i * ENTRY_SIZE <? data_size ctx then
        entry ← parse_entry ctx (i * ENTRY_SIZE);
        rest ← parse_sd_entries_loop n' ctx (i + 1);
        Done (cons_option entry rest)
      else Done []
  end.

Definition parse_sd_entries (d : list byte) (num_entries : Z) : decoded (list SdEntry) :=
  parse_sd_entries_loop (Z.to_nat num_entries) (context_of d) 0.

Definition parse_sd_options (d : list byte) (num_options : Z) : decoded (list SdOption) :=
  options_loop (length d) (context_of d) (zlen d) 0 0 num_options.

(** ** Safety and termination *)

Lemma parse_entry_total ctx offset :
  0 <= offset ->
  exists e, parse_entry ctx offset = Done e /\ (is_Some e <-> offset + ENTRY_SIZE <= data_size ctx).
Proof.
  intros Ho. unfold parse_entry, has_bytes, ENTRY_SIZE.
  destruct (offset + 16 <=? data_size ctx) eqn:E; bool_to_prop; cbn [negb].
  2:{ exists None. split; [reflexivity|]. split; [intros [? ?]; discriminate | lia]. }
  do 8 (match goal with |- context [byte_at (data ctx) ?i ≫= _] =>
    destruct (byte_at_in (E:=DecodeError) (data ctx) i) as (? & -> & _); [lia|] end; rewrite bind_Done).
  cbn zeta. case_step; eexists; (split; [reflexivity | split; eauto]).
Qed.

Lemma entries_loop_total fuel ctx entries_end offset count max :
  0 <= offset -> entries_end <= data_size ctx -> entries_end - offset <= 16 * Z.of_nat fuel ->
  exists es, entries_loop fuel ctx entries_end offset count max = Done es /\
    (0 <= count -> zlen es = Z.max 0 (Z.min (max - count) ((entries_end - offset) / 16))).
Proof.
  revert offset count. induction fuel as [|fuel IH]; intros offset count Ho He Hf; cbn [entries_loop];
    unfold ENTRY_SIZE in *.
  - rewrite (proj2 (Z.leb_gt _ _)) by lia. cbn [andb]. exists []. split; [reflexivity|]. cbn. lia.
  - destruct (offset + 16 <=? entries_end) eqn:E; bool_to_prop; cbn [andb].
    2:{ exists []. split; [reflexivity|]. cbn. lia. }
    destruct (count <? max) eqn:Ec; bool_to_prop; cbn [andb].
    2:{ exists []. split; [reflexivity|]. cbn. lia. }
    destruct (parse_entry_total ctx offset Ho) as (e & -> & He').
    destruct (proj2 He') as [e' ->]; [unfold ENTRY_SIZE; lia|].
    rewrite bind_Done. destruct (IH (offset + 16) (count + 1)) as (es & -> & Hl); [lia..|].
    exists (e' :: es). split; [reflexivity|]. intros Hc. cbn [length]. specialize (Hl ltac:(lia)). lia.
Qed.

Lemma parse_option_total ctx offset :
  0 <= offset ->
  exists o c, parse_option ctx offset = Done (o, c) /\ (c = 0 \/ 3 <= c).
Proof.
  intros Ho. unfold parse_option, has_bytes.
  destruct (offset + 3 <=? data_size ctx) eqn:E; bool_to_prop; cbn [negb]; [|eauto].
  destruct (byte_at_in (E:=DecodeError) (data ctx) (offset + 2)) as (t & -> & _); [lia|].
  rewrite bind_Done. pose proof (ctx_read_be16_fits ctx offset) as Hf. unfold fits in Hf.
  destruct (ctx_read_be16 ctx offset =? 0) eqn:El; bool_to_prop; [do 2 eexists; split; [reflexivity | lia]|].
  case_step; do 2 eexists; (split; [reflexivity | lia]).
Qed.

Lemma options_loop_total fuel ctx options_end offset count max :
  0 <= offset -> options_end - offset <= Z.of_nat fuel ->
  exists os, options_loop fuel ctx options_end offset count max = Done os /\
    (0 <= count -> zlen os <= Z.max 0 (max - count)).
Proof.
  revert offset count. induction fuel as [|fuel IH]; intros offset count Ho Hf; cbn [options_loop].
  - rewrite (proj2 (Z.ltb_ge _ _)) by lia. exists []. split; [reflexivity | cbn; lia].
  - destruct ((offset <? options_end) && (count <? max)) eqn:E; [|exists []; split; [reflexivity | cbn; lia]].
    bool_to_prop. destruct (parse_option_total ctx offset Ho) as (o & c & -> & Hc).
    rewrite bind_Done. cbn [fst snd]. destruct (c =? 0) eqn:E0; bool_to_prop.
    + exists (cons_option o []). split; [reflexivity|]. destruct o; cbn; lia.
    + destruct (IH (offset + c) (count + 1)) as (os & -> & Hl); [lia..|].
      exists (cons_option o os). split; [reflexivity|]. intros Hc0. specialize (Hl ltac:(lia)).
      destruct o; cbn [cons_option length]; lia.
Qed.

Lemma entries_end_fits l : fits 32 (entries_end_of l).
Proof. apply uint_fits. lia. Qed.

Lemma decode_impl_bounded (opts : Options) (ctx : DecodeContext) :
  defined (decode_impl opts ctx) /\
  forall h next, decode_impl opts ctx = Done (h, next) ->
    zlen (entries h) = (if parse_entries_opt opts
      then Z.max 0 (Z.min (max_entries opts) ((entries_end_of (entries_length h) - 8) / 16)) else 0) /\
    zlen (options h) <= Z.max 0 (max_options opts).
Proof.
  unfold decode_impl, has_bytes, SD_HEADER_SIZE.
  destruct (12 <=? data_size ctx) eqn:H12; bool_to_prop; cbn [negb];
    [|split; [apply defined_Fail | discriminate]].
  destruct (byte_at_in (E:=DecodeError) (data ctx) 0) as (fl & -> & _); [lia|]. rewrite bind_Done. cbn zeta.
  set (el := ctx_read_be32 ctx 4). pose proof (entries_end_fits el) as Hf. unfold fits in Hf.
  destruct (entries_end_of el <=? data_size ctx) eqn:He; bool_to_prop; cbn [negb];
    [|split; [apply defined_Fail | discriminate]].
  destruct (entries_loop_total (length (data ctx)) ctx (entries_end_of el) 8 0 (max_entries opts))
    as (es & Hes & Hl); [lia..|].
  assert (Hes' : (if parse_entries_opt opts
                  then entries_loop (length (data ctx)) ctx (entries_end_of el) 8 0 (max_entries opts)
                  else Done []) = Done (if parse_entries_opt opts then es else []))
    by (destruct (parse_entries_opt opts); [exact Hes | reflexivity]).
  rewrite Hes', bind_Done.
  destruct (entries_end_of el + 4 <=? data_size ctx) eqn:He4; bool_to_prop; cbn [negb];
    [|split; [apply defined_Fail | discriminate]].
  set (ol := ctx_read_be32 ctx (entries_end_of el)).
  destruct (entries_end_of el + 4 + ol <=? data_size ctx) eqn:Ho; bool_to_prop; cbn [negb];
    [|split; [apply defined_Fail | discriminate]].
  destruct (options_loop_total (length (data ctx)) ctx (entries_end_of el + 4 + ol)
              (entries_end_of el + 4) 0 (max_options opts)) as (os & Hos & Hlo); [lia..|].
  assert (Hos' : (if parse_options_opt opts
                  then options_loop (length (data ctx)) ctx (entries_end_of el + 4 + ol) (entries_end_of el + 4) 0 (max_options opts)
                  else Done []) = Done (if parse_options_opt opts then os else []))
    by (destruct (parse_options_opt opts); [exact Hos | reflexivity]).
  rewrite Hos', bind_Done. split; [apply defined_Done|].
  intros h next H. apply Done_pair_inj in H as [<- _]. cbn [entries options entries_length].
  specialize (Hl ltac:(lia)). specialize (Hlo ltac:(lia)).
  destruct (parse_entries_opt opts), (parse_options_opt opts); cbn [length]; lia.
Qed.

(** The SD decoder always returns, and reads nothing out of bounds, whatever
    the data and the options; what it returns is bounded by them: exactly as many
    entries as the array holds up to [max_entries], and at most [max_options]
    options. *)
Theorem sd_decode_total (opts : Options) (ctx : DecodeContext) :
  defined (decode_impl opts ctx) /\
  forall h next, decode_impl opts ctx = Done (h, next) ->
    zlen (entries h) = (if parse_entries_opt opts
      then Z.max 0 (Z.min (max_entries opts) ((entries_end_of (entries_length h) - 8) / 16)) else 0) /\
    zlen (options h) <= Z.max 0 (max_options opts).
Proof. exact (decode_impl_bounded opts ctx). Qed.

Lemma decode_inv_sizes opts ctx h next :
  decode_impl opts ctx = Done (h, next) ->
  let e := entries_end_of (entries_length h) in
  12 <= data_size ctx /\ fits 32 (entries_length h) /\ fits 32 (options_length h) /\
  e + 4 + options_length h <= data_size ctx /\
  data next = drop (Z.to_nat (e + 4 + options_length h)) (data ctx).
Proof.
  unfold decode_impl, has_bytes, SD_HEADER_SIZE. intros H. decode_inv H.
  apply Done_pair_inj in H as [<- <-]. cbn [entries_length options_length].
  rewrite sub_context_in by assumption. split_and!; auto with wadjet.
Qed.

(** When the header an SD decode returns covers the bytes it consumed: on
    data of less than 4 GiB, exactly when the entries length is below 2^32 - 8.
    Then the next context starts [header_size] bytes on.  Above, the sum
    [8 + entries_length] wraps, the decode can still succeed, and [header_size]
    exceeds the data, so that the dispatcher's [data.subspan(header_size)] is
    undefined. *)
Theorem sd_header_size_exact (opts : Options) (ctx : DecodeContext) (h : SomeIpSdHeader)
    (next : DecodeContext) :
  decode_impl opts ctx = Done (h, next) -> data_size ctx < 2 ^ 32 ->
  (header_size h <= data_size ctx <-> entries_length h < 2 ^ 32 - 8) /\
  (entries_length h < 2 ^ 32 - 8 ->
   data next = drop (Z.to_nat (header_size h)) (data ctx) /\ 0 < header_size h).
Proof.
  intros H Hsz. destruct (decode_inv_sizes _ _ _ _ H) as (_ & Hf & Hfo & Hle & Hn).
  unfold header_size, SD_HEADER_SIZE, fits in *.
  assert (He : entries_length h < 2 ^ 32 - 8 -> entries_end_of (entries_length h) = 8 + entries_length h).
  { intros Hlt. apply uint_small. unfold fits. lia. }
  split; [split|].
  - intros Hhs. destruct (Z.lt_ge_cases (entries_length h) (2 ^ 32 - 8)); [assumption | lia].
  - intros Hlt. specialize (He Hlt). lia.
  - intros Hlt. specialize (He Hlt). rewrite Hn, He. split; [f_equal; lia | lia].
Qed.

(** Twelve bytes that decode, and announce a header of more than 4 GiB. *)
Definition sample_wrap : list byte :=
  [x00; x00; x00; x00; xff; xff; xff; xf8; x00; x00; x00; x00].

Lemma sd_header_size_exact_witness :
  let ctx := context_of sample_wrap in
  let h := mkSomeIpSdHeader 0 0xfffffff8 0 [] [] in
  let next := mkDecodeContext (drop 4 sample_wrap) 4 0 LayerInfo_default in
  header_size h = 4294967300 /\
  (header_size h <= data_size ctx <-> entries_length h < 2 ^ 32 - 8) /\
  (entries_length h < 2 ^ 32 - 8 ->
   data next = drop (Z.to_nat (header_size h)) (data ctx) /\ 0 < header_size h).
Proof.
  intros ctx h next. split; [reflexivity|].
  apply (sd_header_size_exact Options_default); vm_compute; reflexivity.
Defined.

(** ** The message layout *)

Definition write_be24 (v : Z) : list byte :=
  [to_byte (Z.shiftr v 16); to_byte (Z.land (Z.shiftr v 8) 255); to_byte (Z.land v 255)].

Definition encode_common (c : EntryCommon) : list byte :=
  to_byte (en_type c) :: to_byte (index1_first_option c) :: to_byte (index2_first_option c) ::
  to_byte (num_options_1 c * 16 + num_options_2 c) ::
  write_be16 (en_service_id c) ++ write_be16 (en_instance_id c) ++
  to_byte (major_version c) :: write_be24 (ttl c).

Definition encode_entry (e : SdEntry) : list byte :=
  match e with
  | ServiceEntry c minor => encode_common c ++ write_be32 minor
  | EventgroupEntry c counter eg => encode_common c ++ write_be32 (counter * 65536 + eg)
  end.

(** The length field counts the type byte and the data. *)
Definition encode_option (o : SdOption) : list byte :=
  write_be16 (zlen (opt_data o) + 1) ++ to_byte (opt_type o) :: opt_data o.

Record wf_common (c : EntryCommon) : Prop := {
  wf_type : fits 8 (en_type c);
  wf_index1 : fits 8 (index1_first_option c);
  wf_index2 : fits 8 (index2_first_option c);
  wf_num1 : fits 4 (num_options_1 c);
  wf_num2 : fits 4 (num_options_2 c);
  wf_service : fits 16 (en_service_id c);
  wf_instance : fits 16 (en_instance_id c);
  wf_major : fits 8 (major_version c);
  wf_ttl : fits 24 (ttl c)
}.

Definition wf_entry (e : SdEntry) : Prop :=
  match e with
  | ServiceEntry c minor => wf_common c /\ Z.land (en_type c) 0x06 <> 0x06 /\ fits 32 minor
  | EventgroupEntry c counter eg =>
      wf_common c /\ Z.land (en_type c) 0x06 = 0x06 /\ fits 4 counter /\ fits 16 eg
  end.

Definition wf_option (o : SdOption) : Prop := fits 8 (opt_type o) /\ zlen (opt_data o) + 1 < 2 ^ 16.

Definition encode_entries (es : list SdEntry) : list byte := concat (encode_entry <$> es).
Definition encode_options (os : list SdOption) : list byte := concat (encode_option <$> os).

Definition encode_header (h : SomeIpSdHeader) (reserved : list byte) : list byte :=
  to_byte (flags h) :: reserved ++ write_be32 (entries_length h) ++ encode_entries (entries h) ++
  write_be32 (options_length h) ++ encode_options (options h).

Record wf_header (opts : Options) (h : SomeIpSdHeader) : Prop := {
  wf_flags : fits 8 (flags h);
  wf_entries : Forall wf_entry (entries h);
  wf_options : Forall wf_option (options h);
  wf_entries_length : entries_length h = 16 * zlen (entries h) /\ entries_length h < 2 ^ 32 - 8;
  wf_options_length : options_length h = zlen (encode_options (options h)) /\ options_length h < 2 ^ 32;
  wf_max_entries : zlen (entries h) <= max_entries opts;
  wf_max_options : zlen (options h) <= max_options opts
}.

Lemma length_encode_entry e : length (encode_entry e) = 16%nat.
Proof. destruct e; reflexivity. Qed.

Lemma length_encode_entries es : zlen (encode_entries es) = 16 * zlen es.
Proof.
  induction es as [|e es IH]; [reflexivity|].
  unfold encode_entries in *. cbn [fmap list_fmap concat length]. rewrite length_app, length_encode_entry. lia.
Qed.

Lemma be24_lor b0 b1 b2 :
  Z.lor (Z.lor (Z.shiftl (u8 b0) 16) (Z.shiftl (u8 b1) 8)) (u8 b2) = u8 b0 * 65536 + u8 b1 * 256 + u8 b2.
Proof.
  replace (Z.shiftl (u8 b0) 16) with (Z.shiftl (Z.shiftl (u8 b0) 8) 8)
    by (rewrite Z.shiftl_shiftl by lia; reflexivity).
  rewrite <- Z.shiftl_lor, !lor_shiftl_add by (try lia; apply u8_range). lia.
Qed.

Lemma read_write_be24 v b0 b1 b2 :
  fits 24 v -> write_be24 v = [b0; b1; b2] -> u8 b0 * 65536 + u8 b1 * 256 + u8 b2 = v.
Proof.
  unfold fits, write_be24. intros Hv [= <- <- <-]. rewrite !u8_to_byte. bits_arith. lia.
Qed.

Lemma num_options_split a b :
  fits 4 a -> fits 4 b ->
  Z.land (Z.shiftr (u8 (to_byte (a * 16 + b))) 4) 15 = a /\ Z.land (u8 (to_byte (a * 16 + b))) 15 = b.
Proof. unfold fits. intros. rewrite u8_to_byte. bits_arith. lia. Qed.

Lemma counter_split c g :
  fits 4 c -> fits 16 g ->
  Z.land (Z.shiftr (c * 65536 + g) 16) 15 = c /\ Z.land (c * 65536 + g) 65535 = g.
Proof. unfold fits. intros. bits_arith. lia. Qed.

(** The reads of an entry at an offset, on the bytes found there. *)
Lemma parse_entry_bytes ctx offset c last post :
  0 <= offset -> drop (Z.to_nat offset) (data ctx) = encode_common c ++ write_be32 last ++ post ->
  wf_common c -> fits 32 last ->
  parse_entry ctx offset =
    if Z.land (en_type c) 0x06 =? 0x06
    then Done (Some (EventgroupEntry c (Z.land (Z.shiftr last 16) 15) (Z.land last 65535)))
    else Done (Some (ServiceEntry c last)).
Proof.
  intros Ho Hd [Ht H1 H2 Hn1 Hn2 Hs Hi Hm Htl] Hl.
  assert (Hk : forall k, 0 <= k -> drop (Z.to_nat (offset + k)) (data ctx) =
    drop (Z.to_nat k) (encode_common c ++ write_be32 last ++ post)).
  { intros k Hk. rewrite <- Hd, drop_drop_Z by assumption. reflexivity. }
  assert (Hsz : offset + 16 <= data_size ctx).
  { apply (f_equal length) in Hd. rewrite length_drop, !length_app in Hd.
    change (length (encode_common c)) with 12%nat in Hd. change (length (write_be32 last)) with 4%nat in Hd. lia. }
  unfold encode_common in Hd, Hk. cbn [app write_be16] in Hd, Hk.
  destruct (write_be24 (ttl c)) as [|t0 [|t1 [|t2 [|]]]] eqn:Et; try discriminate Et.
  cbn [app write_be32] in Hd, Hk.
  unfold parse_entry, has_bytes, ENTRY_SIZE. rewrite (proj2 (Z.leb_le _ _) Hsz). cbn [negb].
  erewrite (byte_at_drop _ offset), bind_Done by (first [exact Hd | lia]).
  repeat match goal with |- context [byte_at (data ctx) (offset + ?k) ≫= _] =>
    erewrite (byte_at_drop _ (offset + k)), bind_Done by (first [rewrite Hk by lia; reflexivity | lia]) end.
  repeat match goal with
  | |- context [ctx_read_be16 ctx (offset + ?k)] =>
      erewrite (ctx_read_be16_drop ctx (offset + k)) by (first [rewrite Hk by lia; reflexivity | lia | eassumption])
  | |- context [ctx_read_be32 ctx (offset + ?k)] =>
      erewrite (ctx_read_be32_drop ctx (offset + k)) by (first [rewrite Hk by lia; reflexivity | lia | eassumption])
  end.
  destruct (num_options_split _ _ Hn1 Hn2) as [E1 E2]. rewrite E1, E2, be24_lor, (read_write_be24 _ _ _ _ Htl Et).
  rewrite !u8_to_byte, !(Z.mod_small _ 256) by assumption. cbn zeta. destruct c. reflexivity.
Qed.

Lemma parse_encode_entry ctx offset e post :
  0 <= offset -> drop (Z.to_nat offset) (data ctx) = encode_entry e ++ post -> wf_entry e ->
  parse_entry ctx offset = Done (Some e).
Proof.
  intros Ho Hd Hwf. destruct e as [c minor|c counter eg]; cbn [encode_entry wf_entry] in *; rewrite <- app_assoc in Hd.
  - destruct Hwf as (Hc & Ht & Hm). rewrite (parse_entry_bytes _ _ _ _ _ Ho Hd Hc Hm).
    rewrite (proj2 (Z.eqb_neq _ _) Ht). reflexivity.
  - destruct Hwf as (Hc & Ht & Hco & Heg).
    assert (Hl : fits 32 (counter * 65536 + eg)) by (unfold fits in *; lia).
    rewrite (parse_entry_bytes _ _ _ _ _ Ho Hd Hc Hl), Ht. cbn [Z.eqb Pos.eqb].
    destruct (counter_split _ _ Hco Heg) as [-> ->]. reflexivity.
Qed.

Lemma parse_encode_option ctx offset o post :
  0 <= offset -> drop (Z.to_nat offset) (data ctx) = encode_option o ++ post -> wf_option o ->
  parse_option ctx offset = Done (Some o, zlen (encode_option o)).
Proof.
  intros Ho Hd [Ht Hl]. destruct o as [t d]. unfold encode_option in *. cbn [opt_type opt_data] in *.
  assert (Hsz : offset + 3 + zlen d <= data_size ctx).
  { apply (f_equal length) in Hd. rewrite length_drop, !length_app in Hd. cbn [length write_be16] in Hd. lia. }
  assert (Hk : forall k, 0 <= k -> drop (Z.to_nat (offset + k)) (data ctx) =
    drop (Z.to_nat k) ((write_be16 (zlen d + 1) ++ to_byte t :: d) ++ post)).
  { intros k Hk. rewrite <- Hd, drop_drop_Z by assumption. reflexivity. }
  unfold parse_option, has_bytes. rewrite (proj2 (Z.leb_le _ _)) by lia. cbn [negb].
  rewrite (ctx_read_be16_drop ctx offset (zlen d + 1) ((to_byte t :: d) ++ post))
    by (first [lia | rewrite Hd, <- app_assoc; reflexivity | unfold fits; lia]).
  erewrite (byte_at_drop _ (offset + 2)), bind_Done by (first [rewrite Hk by lia; reflexivity | lia]).
  rewrite u8_to_byte, Z.mod_small by assumption.
  rewrite (proj2 (Z.eqb_neq _ _)) by lia. rewrite (proj2 (Z.leb_le (offset + (2 + (zlen d + 1))) _)) by lia.
  cbn [negb].
  replace (if 1 <? zlen d + 1 then ctx_read_bytes ctx (offset + 3) (zlen d + 1 - 1) else []) with d.
  - rewrite length_app. cbn [length write_be16]. do 2 f_equal. lia.
  - destruct (1 <? zlen d + 1) eqn:E; bool_to_prop; [|destruct d; [reflexivity | cbn [length] in E; lia]].
    symmetry. apply (ctx_read_bytes_drop ctx (offset + 3) _ d post); [lia | intros ->; cbn in E; lia | | lia].
    rewrite Hk by lia. reflexivity.
Qed.

Lemma entries_loop_encode fuel ctx es offset count max post :
  0 <= offset -> drop (Z.to_nat offset) (data ctx) = encode_entries es ++ post -> Forall wf_entry es ->
  (length es <= fuel)%nat -> count + zlen es <= max ->
  entries_loop fuel ctx (offset + 16 * zlen es) offset count max = Done es.
Proof.
  intros Ho Hd Hwf. revert fuel offset count Ho Hd. induction Hwf as [|e es He _ IH]; intros fuel offset count Ho Hd Hf Hm.
  - destruct fuel; cbn [entries_loop]; unfold ENTRY_SIZE; rewrite (proj2 (Z.leb_gt _ _)) by (cbn; lia); reflexivity.
  - destruct fuel as [|fuel]; [cbn in Hf; lia|]. cbn [entries_loop length] in *. unfold ENTRY_SIZE.
    rewrite (proj2 (Z.leb_le _ _)), (proj2 (Z.ltb_lt count max)) by lia. cbn [andb].
    unfold encode_entries in Hd. cbn [fmap list_fmap concat] in Hd. rewrite <- app_assoc in Hd.
    rewrite (parse_encode_entry _ _ _ _ Ho Hd He), bind_Done.
    replace (offset + 16 * Z.of_nat (S (length es))) with (offset + 16 + 16 * zlen es) by lia.
    rewrite IH; [reflexivity | lia | | lia | lia].
    rewrite <- drop_drop_Z by lia. rewrite Hd. apply (drop_app_Z (encode_entry e) _ 16). rewrite length_encode_entry. reflexivity.
Qed.

Lemma options_loop_encode fuel ctx os offset count max post :
  0 <= offset -> drop (Z.to_nat offset) (data ctx) = encode_options os ++ post -> Forall wf_option os ->
  (length os <= fuel)%nat -> count + zlen os <= max ->
  options_loop fuel ctx (offset + zlen (encode_options os)) offset count max = Done os.
Proof.
  intros Ho Hd Hwf. revert fuel offset count Ho Hd. induction Hwf as [|o os Hop _ IH]; intros fuel offset count Ho Hd Hf Hm.
  - destruct fuel; cbn [options_loop]; rewrite (proj2 (Z.ltb_ge _ _)) by (cbn; lia); reflexivity.
  - destruct fuel as [|fuel]; [cbn in Hf; lia|]. cbn [length] in *. unfold encode_options in *.
    cbn [options_loop fmap list_fmap concat] in *. rewrite length_app.
    assert (Hlen : 3 <= zlen (encode_option o))
      by (unfold encode_option; rewrite length_app; cbn [length write_be16]; lia).
    rewrite (proj2 (Z.ltb_lt offset _)), (proj2 (Z.ltb_lt count max)) by lia. cbn [andb].
    rewrite <- app_assoc in Hd. rewrite (parse_encode_option _ _ _ _ Ho Hd Hop), bind_Done. cbn [fst snd].
    rewrite (proj2 (Z.eqb_neq _ _)) by lia.
    replace (offset + Z.of_nat (length (encode_option o) + length (concat (encode_option <$> os))))
      with (offset + zlen (encode_option o) + zlen (concat (encode_option <$> os))) by lia.
    rewrite IH; [reflexivity | lia | | lia | lia].
    rewrite <- drop_drop_Z by lia. rewrite Hd. apply drop_app_Z. reflexivity.
Qed.

Lemma length_encode_options os : zlen os <= zlen (encode_options os).
Proof.
  induction os as [|o os IH]; [cbn; lia|].
  unfold encode_options in *. cbn [fmap list_fmap concat length]. rewrite length_app.
  unfold encode_option at 1. rewrite length_app. cbn [length write_be16]. lia.
Qed.


Definition sample_header : SomeIpSdHeader :=
  let c := mkEntryCommon OfferService 0 0 1 0 0x1234 1 1 3 in
  mkSomeIpSdHeader 0xc0 16 12 [ServiceEntry c 7] [mkSdOption 4 [x0a; x00; x00; x01; x00; x11; x77; x1a; x00]].


(** ** Endpoint options *)

(** An IPv4 endpoint option as AUTOSAR lays it out: length 9, which does not count
    the type byte, then type, a reserved byte, address, reserved byte, protocol
    and port: twelve bytes. *)
Definition autosar_ipv4_endpoint (address : list byte) (protocol port : Z) : list byte :=
  write_be16 9 ++ to_byte OptionType_IPv4Endpoint :: x00 :: address ++ x00 :: to_byte protocol :: write_be16 port.

(** Endpoint options of real messages are not recognised: on an AUTOSAR IPv4
    endpoint option, which is twelve bytes, the parser consumes eleven and keeps
    eight bytes of data, from which [as_ipv4_endpoint], which wants nine, returns
    no endpoint. *)
Theorem sd_endpoint_missed (ctx : DecodeContext) (offset protocol port : Z) (address post : list byte) :
  length address = 4%nat -> 0 <= offset ->
  drop (Z.to_nat offset) (data ctx) = autosar_ipv4_endpoint address protocol port ++ post ->
  exists o, parse_option ctx offset = Done (Some o, 11) /\ opt_type o = OptionType_IPv4Endpoint /\
    zlen (opt_data o) = 8 /\ as_ipv4_endpoint o = Done None.
Proof.
  intros Ha Ho Hd. destruct_list address Ha.
  set (o := mkSdOption 4 [x00; b; b0; b1; b2; x00; to_byte protocol; to_byte (Z.shiftr port 8)]).
  exists o. split; [|split_and!; reflexivity].
  change 11 with (zlen (encode_option o)).
  apply (parse_encode_option ctx offset o (to_byte (Z.land port 255) :: post)); [assumption | | ].
  - rewrite Hd. reflexivity.
  - unfold wf_option, fits. cbn. lia.
Qed.

Lemma sd_endpoint_missed_witness :
  let ctx := context_of (autosar_ipv4_endpoint [x0a; x00; x00; x01] 0x11 30490) in
  exists o, parse_option ctx 0 = Done (Some o, 11) /\ opt_type o = OptionType_IPv4Endpoint /\
    zlen (opt_data o) = 8 /\ as_ipv4_endpoint o = Done None.
Proof.
  intros ctx. apply (sd_endpoint_missed ctx 0 0x11 30490 [x0a; x00; x00; x01] []);
    [reflexivity | lia | reflexivity].
Defined.
