(* ===== verification/DoIP.v ===== *)
(** * DoIP (src/protocols/doip.cpp, include/wadjet/protocols/doip.hpp)

    The ISO 13400-2 header decoder with its per-type length checks, and the
    payload parsers that its clients apply to the bytes behind the header. *)

From Stdlib Require Import ZArith Lia.
From Stdlib Require Import Strings.Byte.
From stdpp Require Import base numbers list strings.
From S2P Require Import Prelude ByteOrder Decoder.

Definition HEADER_SIZE : Z := 8.

(** [enum class PayloadType : std::uint16_t]. *)
Definition GenericNack : Z := 0x0000.
Definition VehicleIdentificationRequest : Z := 0x0001.
Definition VehicleIdentificationRequestWithEID : Z := 0x0002.
Definition VehicleIdentificationRequestWithVIN : Z := 0x0003.
Definition VehicleAnnouncementOrIdentificationResponse : Z := 0x0004.
Definition RoutingActivationRequest_t : Z := 0x0005.
Definition RoutingActivationResponse_t : Z := 0x0006.
Definition AliveCheckRequest : Z := 0x0007.
Definition AliveCheckResponse : Z := 0x0008.
Definition DoIPEntityStatusRequest : Z := 0x4001.
Definition DoIPEntityStatusResponse : Z := 0x4002.
Definition DiagnosticPowerModeRequest : Z := 0x4003.
Definition DiagnosticPowerModeResponse : Z := 0x4004.
Definition DiagnosticMessage : Z := 0x8001.
Definition DiagnosticMessagePositiveAck : Z := 0x8002.
Definition DiagnosticMessageNegativeAck : Z := 0x8003.

Definition payload_type_string (type : Z) : string :=
  if type =? GenericNack then "Generic NACK"
  else if type =? VehicleIdentificationRequest then "Vehicle Identification Request"
  else if type =? VehicleIdentificationRequestWithEID then "Vehicle Identification Request (EID)"
  else if type =? VehicleIdentificationRequestWithVIN then "Vehicle Identification Request (VIN)"
  else if type =? VehicleAnnouncementOrIdentificationResponse
       then "Vehicle Announcement/Identification Response"
  else if type =? RoutingActivationRequest_t then "Routing Activation Request"
  else if type =? RoutingActivationResponse_t then "Routing Activation Response"
  else if type =? AliveCheckRequest then "Alive Check Request"
  else if type =? AliveCheckResponse then "Alive Check Response"
  else if type =? DoIPEntityStatusRequest then "DoIP Entity Status Request"
  else if type =? DoIPEntityStatusResponse then "DoIP Entity Status Response"
  else if type =? DiagnosticPowerModeRequest then "Diagnostic Power Mode Request"
  else if type =? DiagnosticPowerModeResponse then "Diagnostic Power Mode Response"
  else if type =? DiagnosticMessage then "Diagnostic Message"
  else if type =? DiagnosticMessagePositiveAck then "Diagnostic Message Positive ACK"
  else if type =? DiagnosticMessageNegativeAck then "Diagnostic Message Negative ACK"
  else "Unknown".

Definition activation_type_string (type : Z) : string :=
  if type =? 0x00 then "Default"
  else if type =? 0x01 then "WWH-OBD"
  else if type =? 0x02 then "Central Security Unlock"
  else if type =? 0x03 then "Reserved"
  else if type =? 0xE0 then "Manufacturer-Specific (0xE0)"
  else if type =? 0xFE then "Manufacturer-Specific (0xFE)"
  else if type =? 0xFF then "Input/Output Control"
  else "Unknown".

Definition entity_type_string (type : Z) : string :=
  if type =? 0x00 then "Gateway" else if type =? 0x01 then "Node" else "Unknown".

(** [enum class PowerMode : std::uint8_t]. *)
Definition Ready : Z := 0x00.
Definition NotReady : Z := 0x01.
Definition NotSupported : Z := 0x02.

Definition power_mode_string (mode : Z) : string :=
  if mode =? Ready then "Ready"
  else if mode =? NotReady then "Not Ready"
  else if mode =? NotSupported then "Not Supported"
  else "Unknown".

Record DoIPHeader := mkDoIPHeader {
  protocol_version : Z;
  inverse_protocol_version : Z;
  payload_type : Z;
  payload_length : Z
}.

Definition header_size (h : DoIPHeader) : Z := HEADER_SIZE.
Definition payload_size (h : DoIPHeader) : Z := payload_length h.
Definition is_version_valid (h : DoIPHeader) : bool :=
  Z.lxor (protocol_version h) (inverse_protocol_version h) =? 0xFF.
Definition is_diagnostic_message (h : DoIPHeader) : bool := payload_type h =? DiagnosticMessage.
Definition is_routing_activation (h : DoIPHeader) : bool :=
  (payload_type h =? RoutingActivationRequest_t) || (payload_type h =? RoutingActivationResponse_t).
Definition is_vehicle_identification (h : DoIPHeader) : bool :=
  (0x0001 <=? payload_type h) && (payload_type h <=? 0x0004).

Record Options := mkOptions { validate_version : bool; allow_invalid_version : bool }.
Definition Options_default : Options := mkOptions true false.

Definition can_decode (ctx : DecodeContext) : bool := has_bytes ctx HEADER_SIZE.

(** The [switch] of [decode_impl] on the payload type: the least length it allows
    and the message of its error. *)
Definition length_check (type : Z) : Z * string :=
  if type =? GenericNack then (3, "GenericNack payload requires at least 3 bytes")
  else if type =? DiagnosticPowerModeResponse
       then (1, "DiagnosticPowerModeResponse requires at least 1 byte")
  else if type =? DoIPEntityStatusResponse
       then (5, "DoIPEntityStatusResponse requires at least 5 bytes")
  else if type =? AliveCheckResponse then (2, "AliveCheckResponse requires at least 2 bytes")
  else if type =? DiagnosticMessage then (4, "DiagnosticMessage requires at least 4 bytes")
  else if (type =? DiagnosticMessagePositiveAck) || (type =? DiagnosticMessageNegativeAck)
       then (3, "DiagnosticMessage ACK/NACK requires at least 3 bytes")
  else if type =? RoutingActivationRequest_t
       then (7, "RoutingActivationRequest requires at least 7 bytes")
  else if type =? RoutingActivationResponse_t
       then (9, "RoutingActivationResponse requires at least 9 bytes")
  else if type =? VehicleAnnouncementOrIdentificationResponse
       then (32, "VehicleAnnouncementOrIdentificationResponse requires at least 32 bytes")
  else (0, EmptyString).

Definition decode_impl (opts : Options) (ctx : DecodeContext) : decoded (DoIPHeader * DecodeContext) :=
  if negb (has_bytes ctx HEADER_SIZE)
  then make_error BufferTooSmall "DoIP header requires 8 bytes" 0
  else
    version ← byte_at (data ctx) 0;
    inverse ← byte_at (data ctx) 1;
    if validate_version opts && negb (Z.lxor version inverse =? 0xFF) && negb (allow_invalid_version opts)
    then make_error InvalidVersion "DoIP version validation failed (version XOR inverse != 0xFF)" 0
    else
      type ← be16_at (data ctx) 2;
      length ← be32_at (data ctx) 4;
      if negb (has_bytes ctx (HEADER_SIZE + length))
      then make_error BufferTooSmall "Incomplete DoIP payload" 0
      else if length <? (length_check type).1
      then make_error InvalidLength (length_check type).2 0
      else Done (mkDoIPHeader version inverse type length, sub_context ctx HEADER_SIZE).

(** ** The payload parsers *)

Record RoutingActivationRequest := mkRoutingActivationRequest {
  rq_source_address : Z; rq_activation_type : Z; rq_reserved : Z; rq_oem_specific : option Z
}.

Definition parse_routing_activation_request (payload : list byte)
    : decoded (option RoutingActivationRequest) :=
  if zlen payload <? 7 then Done None
  else
    source ← be16_at payload 0;
    activation ← byte_at payload 2;
    reserved ← be32_at payload 3;
    oem ← (if 11 <=? zlen payload then v ← be32_at payload 7; Done (Some v) else Done None);
    Done (Some (mkRoutingActivationRequest source activation reserved oem)).

Record RoutingActivationResponse := mkRoutingActivationResponse {
  rs_logical_address : Z; rs_entity_address : Z; rs_response_code : Z; rs_reserved : Z;
  rs_oem_specific : option Z
}.

Definition parse_routing_activation_response (payload : list byte)
    : decoded (option RoutingActivationResponse) :=
  if zlen payload <? 9 then Done None
  else
    logical ← be16_at payload 0;
    entity ← be16_at payload 2;
    code ← byte_at payload 4;
    reserved ← be32_at payload 5;
    oem ← (if 13 <=? zlen payload then v ← be32_at payload 9; Done (Some v) else Done None);
    Done (Some (mkRoutingActivationResponse logical entity code reserved oem)).

Record DiagnosticMessagePayload := mkDiagnosticMessagePayload {
  dm_source_address : Z; dm_target_address : Z; dm_user_data : list byte
}.

Definition parse_diagnostic_message (payload : list byte) : decoded (option DiagnosticMessagePayload) :=
  if zlen payload <? 4 then Done None
  else
    source ← be16_at payload 0;
    target ← be16_at payload 2;
    user_data ← (if 4 <? zlen payload then subspan payload 4 else Done []);
    Done (Some (mkDiagnosticMessagePayload source target user_data)).

Record VehicleIdentificationResponse := mkVehicleIdentificationResponse {
  vi_vin : list byte; vi_logical_address : Z; vi_eid : list byte; vi_gid : list byte;
  vi_further_action : Z; vi_sync_status : Z
}.

(** The byte loops [resp.vin[i] = data[off + i]] copy [n] bytes from [off]. *)
Definition copy_bytes (payload : list byte) (off n : Z) : decoded (list byte) :=
  subspan_count payload off n.

Definition parse_vehicle_identification_response (payload : list byte)
    : decoded (option VehicleIdentificationResponse) :=
  if zlen payload <? 32 then Done None
  else
    vin ← copy_bytes payload 0 17;
    logical ← be16_at payload 17;
    eid ← copy_bytes payload 19 6;
    gid ← copy_bytes payload 25 6;
    further ← byte_at payload 31;
    sync ← (if 33 <=? zlen payload then byte_at payload 32 else Done 0);
    Done (Some (mkVehicleIdentificationResponse vin logical eid gid further sync)).

Definition parse_diagnostic_power_mode (payload : list byte) : decoded (option Z) :=
  if zlen payload <? 1 then Done None
  else
    mode ← byte_at payload 0;
    if negb (mode =? Ready) && negb (mode =? NotReady) && negb (mode =? NotSupported)
    then Done None else Done (Some mode).

Definition parse_entity_status (payload : list byte) : decoded (option (Z * Z * Z * Z)) :=
  if zlen payload <? 5 then Done None
  else
    node_type ← byte_at payload 0;
    max_concurrent ← byte_at payload 1;
    current_concurrent ← byte_at payload 2;
    max_connections ← be16_at payload 3;
    Done (Some (node_type, max_concurrent, current_concurrent, max_connections)).

Definition parse_generic_nack (payload : list byte) : decoded (option (Z * Z)) :=
  if zlen payload <? 3 then Done None
  else
    nack_code ← byte_at payload 0;
    unknown_payload_type ← be16_at payload 1;
    Done (Some (nack_code, unknown_payload_type)).

Definition parse_alive_check_response (payload : list byte) : decoded (option Z) :=
  if zlen payload <? 2 then Done None
  else tester_source_address ← be16_at payload 0; Done (Some tester_source_address).

(** ** The contract *)

#[export] Instance DoIPDecoder_contract opts : DecoderContract (decode_impl opts) header_size.
Proof.
  split.
  - intros ctx. unfold decode_impl, has_bytes, HEADER_SIZE.
    destruct (8 <=? data_size ctx) eqn:H8; bool_to_prop; cbn [negb]; [|apply defined_Fail].
    do 2 (apply defined_bind; [apply defined_byte_at; lia | intros ? _]).
    destruct (validate_version opts && _ && _); [apply defined_Fail|].
    apply defined_bind; [apply defined_be16_at; lia | intros t _].
    apply defined_bind; [apply defined_be32_at; lia | intros n _]. decode_guards.
  - intros ctx h next H. unfold decode_impl, has_bytes in H. decode_inv H.
    unfold header_size, HEADER_SIZE in *. lia.
  - intros ctx h next H. unfold decode_impl, has_bytes in H. decode_inv H.
    apply Done_pair_inj in H as [<- <-]. unfold header_size, HEADER_SIZE in *.
    rewrite sub_context_in by lia. split; reflexivity.
Qed.

(** ** The header layout *)

Definition encode_header (h : DoIPHeader) : list byte :=
  to_byte (protocol_version h) :: to_byte (inverse_protocol_version h) ::
  write_be16 (payload_type h) ++ write_be32 (payload_length h).

Record wf_header (opts : Options) (h : DoIPHeader) : Prop := {
  wf_version : fits 8 (protocol_version h);
  wf_inverse : fits 8 (inverse_protocol_version h);
  wf_type : fits 16 (payload_type h);
  wf_length : fits 32 (payload_length h);
  wf_version_valid : validate_version opts = true -> allow_invalid_version opts = false ->
                     is_version_valid h = true;
  wf_min_length : (length_check (payload_type h)).1 <= payload_length h
}.

Definition next_of (ctx : DecodeContext) (payload : list byte) : DecodeContext :=
  mkDecodeContext payload (original_offset ctx + 8) (timestamp ctx) (layer_info ctx).

Lemma doip_decode_encode opts ctx h payload :
  data ctx = encode_header h ++ payload -> wf_header opts h -> payload_length h <= zlen payload ->
  decode_impl opts ctx = Done (h, next_of ctx payload).
Proof.
  intros Hd [Hv Hi Ht Hl Hvv Hmin] Hp.
  assert (Hsz : data_size ctx = 8 + zlen payload) by (rewrite Hd, length_app; cbn; lia).
  pose proof Hd as Hd'. unfold encode_header in Hd. cbn [app write_be16 write_be32] in Hd.
  unfold decode_impl, has_bytes, HEADER_SIZE. rewrite (proj2 (Z.leb_le 8 _)) by lia. cbn [negb].
  erewrite (byte_at_drop _ 0), bind_Done by (first [rewrite Hd; reflexivity | lia]).
  erewrite (byte_at_drop _ 1), bind_Done by (first [rewrite Hd; reflexivity | lia]).
  rewrite !u8_to_byte, !(Z.mod_small _ 256) by assumption.
  replace (validate_version opts && _ && _) with false.
  2:{ unfold is_version_valid in Hvv. destruct (validate_version opts), (allow_invalid_version opts);
        rewrite ?andb_false_r; auto. rewrite Hvv by reflexivity. reflexivity. }
  rewrite (be16_at_drop _ 2 (payload_type h) (write_be32 (payload_length h) ++ payload)), bind_Done
    by (first [lia | assumption | rewrite Hd; reflexivity]).
  rewrite (be32_at_drop _ 4 (payload_length h) payload), bind_Done
    by (first [lia | assumption | rewrite Hd; reflexivity]).
  rewrite (proj2 (Z.leb_le _ _)), (proj2 (Z.ltb_ge _ _)) by lia. cbn [negb].
  rewrite sub_context_in by lia. rewrite Hd', drop_app_Z by reflexivity. destruct h. reflexivity.
Qed.

Lemma doip_decode_sound opts ctx h next :
  decode_impl opts ctx = Done (h, next) ->
  wf_header opts h /\ data ctx = encode_header h ++ data next /\ payload_length h <= zlen (data next).
Proof.
  intros H. destruct (decode_next (header_size:=header_size) _ _ _ H) as [Hnext _]. rewrite Hnext.
  assert (Hd : exists d, data ctx = d) by eauto. destruct Hd as [d Hd].
  revert H. unfold decode_impl, has_bytes, HEADER_SIZE.
  destruct (8 <=? data_size ctx) eqn:H8; [bool_to_prop; cbn [negb] | discriminate].
  rewrite Hd in H8. do 8 (destruct d as [|? d]; [cbn in H8; lia|]). clear H8.
  erewrite (byte_at_drop _ 0), bind_Done by (first [rewrite Hd; reflexivity | lia]).
  erewrite (byte_at_drop _ 1), bind_Done by (first [rewrite Hd; reflexivity | lia]).
  destruct (validate_version opts && _ && _) eqn:Hv; [discriminate|].
  rewrite (be16_at_drop _ 2 (be16 b1 b2) (b3 :: b4 :: b5 :: b6 :: d)), bind_Done
    by (first [lia | apply be16_fits | rewrite Hd, write_be16_be16; reflexivity]).
  rewrite (be32_at_drop _ 4 (be32 b3 b4 b5 b6) d), bind_Done
    by (first [lia | apply be32_fits | rewrite Hd, write_be32_be32; reflexivity]).
  destruct (8 + be32 b3 b4 b5 b6 <=? data_size ctx) eqn:Hl; cbn [negb]; [|discriminate].
  destruct (be32 b3 b4 b5 b6 <? (length_check (be16 b1 b2)).1) eqn:Hm; [discriminate|].
  intros H. apply Done_pair_inj in H as [<- _].
  rewrite Hd in Hl. apply Z.leb_le in Hl. apply Z.ltb_ge in Hm. split_and!.
  - split; cbn [protocol_version inverse_protocol_version payload_type payload_length];
      auto with wadjet; try apply u8_range.
    unfold is_version_valid. cbn. intros H1 H2. rewrite H1, H2 in Hv.
    destruct (Z.lxor (u8 b) (u8 b0) =? 0xFF); [reflexivity | discriminate Hv].
  - unfold encode_header. cbn [protocol_version inverse_protocol_version payload_type payload_length].
    rewrite write_be16_be16, write_be32_be32, !to_byte_u8, Hd. reflexivity.
  - cbn [payload_length length] in *. rewrite Hd. unfold header_size, HEADER_SIZE.
    rewrite length_drop. cbn [length]. lia.
Qed.

(** The DoIP decoder inverts the ISO 13400-2 header exactly: it returns a
    header and a next context if and only if every field is in its width, the
    version and its inverse match when they are checked, the payload length is at
    least what the payload type needs, the data is the layout of the header
    followed by the next context's data, and that has the whole payload. *)
Theorem doip_decode_exact (opts : Options) (ctx : DecodeContext) (h : DoIPHeader) (next : DecodeContext) :
  decode_impl opts ctx = Done (h, next) <->
  wf_header opts h /\ data ctx = encode_header h ++ data next /\
  payload_length h <= zlen (data next) /\ next = next_of ctx (data next).
Proof.
  split.
  - intros H. destruct (doip_decode_sound _ _ _ _ H) as (Hwf & Hd & Hl).
    split_and!; try assumption.
    rewrite (doip_decode_encode opts ctx h (data next)) in H by assumption.
    apply Done_pair_inj in H as [_ H]. symmetry. exact H.
  - intros (Hwf & Hd & Hl & ->). apply doip_decode_encode; assumption.
Qed.

(** ** The payload parsers *)

Lemma copy_bytes_in d i n :
  0 <= i -> 0 <= n -> i + n <= zlen d -> exists v, copy_bytes d i n = Done v.
Proof.
  intros. unfold copy_bytes, subspan_count. rewrite !(proj2 (Z.leb_le _ _)) by lia. eexists. reflexivity.
Qed.

(** A parser that refuses exactly the payloads shorter than [n]. *)
Definition refuses_below {A} (parse : list byte -> decoded (option A)) (n : Z) : Prop :=
  forall payload,
    (zlen payload < n -> parse payload = Done None) /\
    (n <= zlen payload -> exists v, parse payload = Done (Some v)).

(** Steps through the reads of a parser on a payload that is long enough. *)
Ltac parser_reads :=
  repeat match goal with
  | |- exists v, (be16_at ?d ?i ≫= _) = _ =>
      destruct (be16_at_in d i) as (? & -> & _); [lia | lia | rewrite bind_Done]
  | |- exists v, (be32_at ?d ?i ≫= _) = _ =>
      destruct (be32_at_in d i) as (? & -> & _); [lia | lia | rewrite bind_Done]
  | |- exists v, (byte_at ?d ?i ≫= _) = _ =>
      destruct (byte_at_in (E:=DecodeError) d i) as (? & -> & _); [lia | rewrite bind_Done]
  | |- exists v, (copy_bytes ?d ?i ?n ≫= _) = _ =>
      destruct (copy_bytes_in d i n) as (? & ->); [lia | lia | lia | rewrite bind_Done]
  end; eauto.

Ltac parser_refuses :=
  intros payload; split; intros Hl;
  [ rewrite (proj2 (Z.ltb_lt _ _)) by lia; reflexivity
  | rewrite (proj2 (Z.ltb_ge (zlen payload) _)) by lia; parser_reads ].

(** The decoder's length checks are exactly what the parsers need: each
    payload parser returns nothing on the payloads that [decode_impl] rejects as
    too short for its type, and a value on all others; only the power mode parser
    also refuses unknown modes.  No parser reads out of bounds. *)
Theorem doip_parsers_match_length_checks :
  refuses_below parse_routing_activation_request (length_check RoutingActivationRequest_t).1 /\
  refuses_below parse_routing_activation_response (length_check RoutingActivationResponse_t).1 /\
  refuses_below parse_diagnostic_message (length_check DiagnosticMessage).1 /\
  refuses_below parse_vehicle_identification_response
    (length_check VehicleAnnouncementOrIdentificationResponse).1 /\
  refuses_below parse_entity_status (length_check DoIPEntityStatusResponse).1 /\
  refuses_below parse_generic_nack (length_check GenericNack).1 /\
  refuses_below parse_alive_check_response (length_check AliveCheckResponse).1 /\
  (forall payload, parse_diagnostic_power_mode payload = Done None \/
     exists mode, parse_diagnostic_power_mode payload = Done (Some mode) /\
       (length_check DiagnosticPowerModeResponse).1 <= zlen payload /\ mode ∈ [Ready; NotReady; NotSupported]).
Proof.
  split_and!; unfold parse_routing_activation_request, parse_routing_activation_response,
    parse_diagnostic_message, parse_vehicle_identification_response, parse_entity_status,
    parse_generic_nack, parse_alive_check_response; cbn [length_check fst Z.eqb Pos.eqb orb GenericNack
      DiagnosticPowerModeResponse DoIPEntityStatusResponse AliveCheckResponse DiagnosticMessage
      DiagnosticMessagePositiveAck DiagnosticMessageNegativeAck RoutingActivationRequest_t
      RoutingActivationResponse_t VehicleAnnouncementOrIdentificationResponse].
  - parser_refuses. destruct (11 <=? zlen payload) eqn:E; bool_to_prop; [|eexists; reflexivity].
    destruct (be32_at_in payload 7) as (v & -> & _); [lia | lia |]. eexists; reflexivity.
  - parser_refuses. destruct (13 <=? zlen payload) eqn:E; bool_to_prop; [|eexists; reflexivity].
    destruct (be32_at_in payload 9) as (v & -> & _); [lia | lia |]. eexists; reflexivity.
  - parser_refuses. destruct (4 <? zlen payload) eqn:E; bool_to_prop; [|eexists; reflexivity].
    rewrite subspan_in by lia. eexists; reflexivity.
  - parser_refuses. destruct (33 <=? zlen payload) eqn:E; bool_to_prop; [|eexists; reflexivity].
    destruct (byte_at_in (E:=DecodeError) payload 32) as (v & -> & _); [lia|]. eexists; reflexivity.
  - parser_refuses.
  - parser_refuses.
  - parser_refuses.
  - intros payload. unfold parse_diagnostic_power_mode.
    destruct (zlen payload <? 1) eqn:E; bool_to_prop; [auto|].
    destruct (byte_at_in (E:=DecodeError) payload 0) as (v & -> & _); [lia|]. rewrite bind_Done.
    destruct (negb (v =? Ready) && negb (v =? NotReady) && negb (v =? NotSupported)) eqn:Em; [auto|].
    right. exists v. split_and!; [reflexivity | cbn; lia |].
    rewrite !elem_of_cons. destruct (Z.eqb_spec v Ready), (Z.eqb_spec v NotReady), (Z.eqb_spec v NotSupported);
      cbn in Em; try discriminate; auto.
Qed.

(** The layouts of the payloads that carry more than one field. *)
Definition encode_routing_request (r : RoutingActivationRequest) : list byte :=
  write_be16 (rq_source_address r) ++ to_byte (rq_activation_type r) :: write_be32 (rq_reserved r) ++
  from_option write_be32 [] (rq_oem_specific r).

Definition encode_routing_response (r : RoutingActivationResponse) : list byte :=
  write_be16 (rs_logical_address r) ++ write_be16 (rs_entity_address r) ++
  to_byte (rs_response_code r) :: write_be32 (rs_reserved r) ++ from_option write_be32 [] (rs_oem_specific r).

Definition encode_diagnostic_message (m : DiagnosticMessagePayload) : list byte :=
  write_be16 (dm_source_address m) ++ write_be16 (dm_target_address m) ++ dm_user_data m.

Definition encode_vehicle_identification (r : VehicleIdentificationResponse) : list byte :=
  vi_vin r ++ write_be16 (vi_logical_address r) ++ vi_eid r ++ vi_gid r ++
  [to_byte (vi_further_action r); to_byte (vi_sync_status r)].

Ltac eval_payload Hd :=
  repeat match goal with
  | |- context [be16_at _ ?i ≫= _] =>
      erewrite (be16_at_drop _ i), bind_Done by (first [lia | reflexivity | eassumption])
  | |- context [be32_at _ ?i ≫= _] =>
      erewrite (be32_at_drop _ i), bind_Done by (first [lia | reflexivity | eassumption])
  | |- context [byte_at _ ?i ≫= _] =>
      erewrite (byte_at_drop _ i), bind_Done by (first [lia | reflexivity])
  end.

(** Payloads whose fields are in their widths. *)
Record wf_routing_request (r : RoutingActivationRequest) : Prop := {
  wf_rq_source : fits 16 (rq_source_address r);
  wf_rq_type : fits 8 (rq_activation_type r);
  wf_rq_reserved : fits 32 (rq_reserved r);
  wf_rq_oem : forall v, rq_oem_specific r = Some v -> fits 32 v
}.

Record wf_routing_response (r : RoutingActivationResponse) : Prop := {
  wf_rs_logical : fits 16 (rs_logical_address r);
  wf_rs_entity : fits 16 (rs_entity_address r);
  wf_rs_code : fits 8 (rs_response_code r);
  wf_rs_reserved : fits 32 (rs_reserved r);
  wf_rs_oem : forall v, rs_oem_specific r = Some v -> fits 32 v
}.

Record wf_diagnostic_message (m : DiagnosticMessagePayload) : Prop := {
  wf_dm_source : fits 16 (dm_source_address m);
  wf_dm_target : fits 16 (dm_target_address m)
}.

Record wf_vehicle_identification (r : VehicleIdentificationResponse) : Prop := {
  wf_vi_vin : length (vi_vin r) = 17%nat;
  wf_vi_logical : fits 16 (vi_logical_address r);
  wf_vi_eid : length (vi_eid r) = 6%nat;
  wf_vi_gid : length (vi_gid r) = 6%nat;
  wf_vi_action : fits 8 (vi_further_action r);
  wf_vi_sync : fits 8 (vi_sync_status r)
}.

Lemma parse_encode_routing_request rq :
  wf_routing_request rq -> parse_routing_activation_request (encode_routing_request rq) = Done (Some rq).
Proof.
  intros [Hq1 Hq2 Hq3 Hq4].
  destruct rq as [src act res [o|]]; cbn in Hq1, Hq2, Hq3, Hq4; unfold encode_routing_request,
    parse_routing_activation_request;
    cbn [rq_source_address rq_activation_type rq_reserved rq_oem_specific from_option app length
         write_be16 write_be32 Z.of_nat].
  - specialize (Hq4 _ eq_refl). change (_ <? 7) with false. change (11 <=? _) with true. cbn match.
    eval_payload tt. rewrite u8_to_byte, Z.mod_small by assumption. reflexivity.
  - change (_ <? 7) with false. change (11 <=? _) with false. cbn match.
    eval_payload tt. rewrite u8_to_byte, Z.mod_small by assumption. reflexivity.
Qed.

Lemma parse_encode_routing_response rs :
  wf_routing_response rs -> parse_routing_activation_response (encode_routing_response rs) = Done (Some rs).
Proof.
  intros [Hs1 Hs2 Hs3 Hs4 Hs5].
  destruct rs as [l e c res [o|]]; cbn in Hs1, Hs2, Hs3, Hs4, Hs5; unfold encode_routing_response,
    parse_routing_activation_response;
    cbn [rs_logical_address rs_entity_address rs_response_code rs_reserved rs_oem_specific from_option app length
         write_be16 write_be32 Z.of_nat].
  - specialize (Hs5 _ eq_refl). change (_ <? 9) with false. change (13 <=? _) with true. cbn match.
    eval_payload tt. rewrite u8_to_byte, Z.mod_small by assumption. reflexivity.
  - change (_ <? 9) with false. change (13 <=? _) with false. cbn match.
    eval_payload tt. rewrite u8_to_byte, Z.mod_small by assumption. reflexivity.
Qed.

Lemma parse_encode_diagnostic_message m :
  wf_diagnostic_message m -> parse_diagnostic_message (encode_diagnostic_message m) = Done (Some m).
Proof.
  intros [Hm1 Hm2].
  destruct m as [s t u]; cbn in Hm1, Hm2. unfold encode_diagnostic_message, parse_diagnostic_message.
  cbn [dm_source_address dm_target_address dm_user_data].
  assert (Hl : zlen (write_be16 s ++ write_be16 t ++ u) = 4 + zlen u)
    by (cbn [length app write_be16]; lia).
  rewrite Hl, (proj2 (Z.ltb_ge _ 4)) by lia.
  rewrite (be16_at_drop _ 0 s (write_be16 t ++ u)), bind_Done by (first [lia | reflexivity | assumption]).
  rewrite (be16_at_drop _ 2 t u), bind_Done by (first [lia | reflexivity | assumption]).
  destruct (4 <? 4 + zlen u) eqn:E; bool_to_prop.
  - rewrite subspan_in by lia. reflexivity.
  - destruct u; [reflexivity | cbn [length] in E; lia].
Qed.

Lemma parse_encode_vehicle_identification vi :
  wf_vehicle_identification vi ->
  parse_vehicle_identification_response (encode_vehicle_identification vi) = Done (Some vi).
Proof.
  intros [Hv1 Hv2 Hv3 Hv4 Hv5 Hv6].
  destruct vi as [vin la eid gid fa ss]; cbn in Hv1, Hv2, Hv3, Hv4, Hv5, Hv6.
  destruct_list vin Hv1. destruct_list eid Hv3. destruct_list gid Hv4.
  unfold encode_vehicle_identification, parse_vehicle_identification_response, copy_bytes.
  cbn [vi_vin vi_logical_address vi_eid vi_gid vi_further_action vi_sync_status app length write_be16 Z.of_nat].
  change (_ <? 32) with false. change (33 <=? _) with true. cbn match.
  unfold subspan_count. rewrite !(proj2 (Z.leb_le _ _)) by (cbn [length]; lia). cbn [andb].
  rewrite bind_Done.
  erewrite (be16_at_drop _ 17), bind_Done by (first [lia | reflexivity | eassumption]).
  rewrite !bind_Done.
  erewrite (byte_at_drop _ 31), bind_Done by (first [lia | reflexivity]).
  erewrite (byte_at_drop _ 32), bind_Done by (first [lia | reflexivity]).
  rewrite !u8_to_byte, !Z.mod_small by assumption. reflexivity.
Qed.

(** The routing activation and diagnostic message payloads round trip: every
    request, response and diagnostic message with fields in their widths, with or
    without the OEM field or user data, is recovered by its parser from its
    ISO 13400-2 layout, and a vehicle identification response as well. *)
Theorem doip_payload_round_trip (rq : RoutingActivationRequest) (rs : RoutingActivationResponse)
    (m : DiagnosticMessagePayload) (vi : VehicleIdentificationResponse) :
  wf_routing_request rq -> wf_routing_response rs -> wf_diagnostic_message m -> wf_vehicle_identification vi ->
  parse_routing_activation_request (encode_routing_request rq) = Done (Some rq) /\
  parse_routing_activation_response (encode_routing_response rs) = Done (Some rs) /\
  parse_diagnostic_message (encode_diagnostic_message m) = Done (Some m) /\
  parse_vehicle_identification_response (encode_vehicle_identification vi) = Done (Some vi).
Proof.
  auto using parse_encode_routing_request, parse_encode_routing_response, parse_encode_diagnostic_message,
    parse_encode_vehicle_identification.
Qed.

Lemma doip_payload_round_trip_witness :
  let rq := mkRoutingActivationRequest 0x0E00 0 0 (Some 7) in
  let rs := mkRoutingActivationResponse 0x0E00 0x1000 0x10 0 None in
  let m := mkDiagnosticMessagePayload 0x0E00 0x1000 [x22; xf1; x90] in
  let vi := mkVehicleIdentificationResponse (replicate 17 x41) 0x1000 (replicate 6 x01) (replicate 6 x02) 0 1 in
  parse_routing_activation_request (encode_routing_request rq) = Done (Some rq) /\
  parse_routing_activation_response (encode_routing_response rs) = Done (Some rs) /\
  parse_diagnostic_message (encode_diagnostic_message m) = Done (Some m) /\
  parse_vehicle_identification_response (encode_vehicle_identification vi) = Done (Some vi).
Proof.
  intros rq rs m vi. apply doip_payload_round_trip; split; unfold fits; cbn; try reflexivity; try lia; intros v [= <-]; lia.
Defined.
