(* ===== verification/Gptp.v ===== *)
(** * gPTP (src/protocols/gptp_decoder.cpp, include/wadjet/protocols/gptp/)

    The IEEE 802.1AS decoder: common header, message bodies, TLV array, and the
    peer delay computation on timestamps. *)

From Stdlib Require Import ZArith Lia.
From Stdlib Require Import Strings.Byte.
From stdpp Require Import base numbers list strings.
From S2P Require Import Prelude ByteOrder Decoder.

Definition COMMON_HEADER_SIZE : Z := 34.
Definition TLV_HEADER_SIZE : Z := 4.
Definition SYNC_MESSAGE_SIZE : Z := 10.
Definition FOLLOW_UP_MESSAGE_SIZE : Z := 10.
Definition PDELAY_REQ_MESSAGE_SIZE : Z := 20.
Definition PDELAY_RESP_MESSAGE_SIZE : Z := 20.
Definition PDELAY_RESP_FOLLOW_UP_MESSAGE_SIZE : Z := 20.
Definition ANNOUNCE_MESSAGE_SIZE : Z := 30.
Definition SIGNALING_MESSAGE_SIZE : Z := 10.

(** [enum class MessageType : std::uint8_t], of which a header has four bits. *)
Definition Sync : Z := 0x0.
Definition Delay_Req : Z := 0x1.
Definition Pdelay_Req : Z := 0x2.
Definition Pdelay_Resp : Z := 0x3.
Definition Follow_Up : Z := 0x8.
Definition Delay_Resp : Z := 0x9.
Definition Pdelay_Resp_Follow_Up : Z := 0xA.
Definition Announce : Z := 0xB.
Definition Signaling : Z := 0xC.
Definition MT_Management : Z := 0xD.

Definition message_type_string (type : Z) : string :=
  if type =? Sync then "Sync"
  else if type =? Delay_Req then "Delay_Req"
  else if type =? Pdelay_Req then "Pdelay_Req"
  else if type =? Pdelay_Resp then "Pdelay_Resp"
  else if type =? Follow_Up then "Follow_Up"
  else if type =? Delay_Resp then "Delay_Resp"
  else if type =? Pdelay_Resp_Follow_Up then "Pdelay_Resp_Follow_Up"
  else if type =? Announce then "Announce"
  else if type =? Signaling then "Signaling"
  else if type =? MT_Management then "Management"
  else "Reserved".

Definition is_event_message (type : Z) : bool :=
  (type =? Sync) || (type =? Delay_Req) || (type =? Pdelay_Req) || (type =? Pdelay_Resp).
Definition is_general_message (type : Z) : bool := negb (is_event_message type).

(** [TransportSpecific::IEEE_802_1AS]. *)
Definition IEEE_802_1AS : Z := 1.

(** [enum class TlvType : std::uint16_t], the types the decoder tests. *)
Definition TLV_Management : Z := 0x0001.
Definition TLV_ManagementErrorStatus : Z := 0x0002.
Definition ORGANIZATION_EXTENSION : Z := 0x0003.
Definition PATH_TRACE : Z := 0x0008.

(** ** Flags *)

Record GptpFlags := mkGptpFlags {
  alternate_master : bool; two_step : bool; unicast : bool;
  ptp_profile_specific_1 : bool; ptp_profile_specific_2 : bool; fl_reserved : bool;
  leap_61 : bool; leap_59 : bool; current_utc_offset_valid : bool;
  ptp_timescale : bool; time_traceable : bool; frequency_traceable : bool
}.

Definition flag (octet mask : Z) : bool := negb (Z.land octet mask =? 0).

Definition flags_from_bytes (octet0 octet1 : Z) : GptpFlags :=
  mkGptpFlags (flag octet0 0x01) (flag octet0 0x02) (flag octet0 0x04) (flag octet0 0x20)
    (flag octet0 0x40) false
    (flag octet1 0x01) (flag octet1 0x02) (flag octet1 0x04) (flag octet1 0x08)
    (flag octet1 0x10) (flag octet1 0x20).

Definition flags_from_raw (raw : Z) : GptpFlags :=
  flags_from_bytes (Z.land (Z.shiftr raw 8) 0xFF) (Z.land raw 0xFF).

(** [if (f) octet |= mask;]. *)
Definition or_if (octet : Z) (f : bool) (mask : Z) : Z := if f then Z.lor octet mask else octet.

Definition flags_to_bytes (f : GptpFlags) : Z * Z :=
  (or_if (or_if (or_if (or_if (or_if 0 (alternate_master f) 0x01) (two_step f) 0x02) (unicast f) 0x04)
            (ptp_profile_specific_1 f) 0x20) (ptp_profile_specific_2 f) 0x40,
   or_if (or_if (or_if (or_if (or_if (or_if 0 (leap_61 f) 0x01) (leap_59 f) 0x02)
            (current_utc_offset_valid f) 0x04) (ptp_timescale f) 0x08) (time_traceable f) 0x10)
            (frequency_traceable f) 0x20).

(** ** Clocks and times *)

(** The eight bytes of a [ClockIdentity]. *)
Abbreviation ClockIdentity := (list byte).

(** [ClockIdentity::from_mac]: EUI-48 to EUI-64. *)
Definition clock_from_mac (mac : list byte) : ClockIdentity :=
  take 3 mac ++ [xff; xfe] ++ drop 3 mac.

Definition clock_is_zero (id : ClockIdentity) : bool := forallb (fun b => u8 b =? 0) id.

Record PortIdentity := mkPortIdentity { clock_identity : ClockIdentity; port_number : Z }.

Record GptpTimestamp := mkGptpTimestamp { seconds_msb : Z; seconds_lsb : Z; nanoseconds : Z }.
Definition GptpTimestamp_of (sec nsec : Z) : GptpTimestamp :=
  mkGptpTimestamp (Z.land (Z.shiftr sec 32) 0xFFFF) (Z.land sec 0xFFFFFFFF) nsec.
Definition seconds (t : GptpTimestamp) : Z := Z.lor (Z.shiftl (seconds_msb t) 32) (seconds_lsb t).
Definition ts_is_zero (t : GptpTimestamp) : bool :=
  (seconds_msb t =? 0) && (seconds_lsb t =? 0) && (nanoseconds t =? 0).

(** [to_nanoseconds()], in [std::uint64_t]. *)
Definition to_nanoseconds (t : GptpTimestamp) : Z :=
  uint 64 (uint 64 (seconds t * 1000000000) + nanoseconds t).

(** [operator-]. *)
Definition ts_sub (a b : GptpTimestamp) : decoded Z :=
  sub64 (sint 64 (to_nanoseconds a)) (sint 64 (to_nanoseconds b)).

Definition calculate_peer_delay (t1 t2 t3 t4 : GptpTimestamp) : decoded Z :=
  round_trip ← ts_sub t4 t1;
  turnaround ← ts_sub t3 t2;
  d ← sub64 round_trip turnaround;
  Done (Z.quot d 2).

(** [ScaledNanoseconds::to_nanoseconds]. *)
Definition scaled_to_nanoseconds (scaled_ns : Z) : Z := Z.shiftr scaled_ns 16.

(** ** Reads behind a pointer *)

Definition read_be64 (d : list byte) (i : Z) : decoded Z :=
  b0 ← byte_at d i; b1 ← byte_at d (i + 1); b2 ← byte_at d (i + 2); b3 ← byte_at d (i + 3);
  b4 ← byte_at d (i + 4); b5 ← byte_at d (i + 5); b6 ← byte_at d (i + 6); b7 ← byte_at d (i + 7);
  Done (Z.lor (Z.lor (Z.lor (Z.lor (Z.lor (Z.lor (Z.lor (Z.shiftl b0 56) (Z.shiftl b1 48))
    (Z.shiftl b2 40)) (Z.shiftl b3 32)) (Z.shiftl b4 24)) (Z.shiftl b5 16)) (Z.shiftl b6 8)) b7).

Definition read_clock_identity (d : list byte) (i : Z) : decoded ClockIdentity := subspan_count d i 8.

Definition read_port_identity (d : list byte) (i : Z) : decoded PortIdentity :=
  clock ← read_clock_identity d i;
  port ← be16_at d (i + 8);
  Done (mkPortIdentity clock port).

Definition read_timestamp (d : list byte) (i : Z) : decoded GptpTimestamp :=
  msb ← be16_at d i;
  lsb ← be32_at d (i + 2);
  ns ← be32_at d (i + 6);
  Done (mkGptpTimestamp msb lsb ns).

(** ** TLVs *)

Record Tlv := mkTlv { tlv_type : Z; tlv_length : Z; tlv_value : list byte }.

(** [Tlv::parse] on the [remaining] bytes [d]: the TLV and the bytes consumed. *)
Definition Tlv_parse (d : list byte) : decoded (option (Tlv * Z)) :=
  if zlen d <? TLV_HEADER_SIZE then Done None
  else
    type ← be16_at d 0;
    length ← be16_at d 2;
    let total_size := TLV_HEADER_SIZE + length in
    if zlen d <? total_size then Done None
    else
      value ← (if 0 <? length then subspan_count d TLV_HEADER_SIZE length else Done []);
      Done (Some (mkTlv type length value, total_size)).

(** [parse_tlv_array]; the length of the bytes is fuel enough
    ([parse_tlv_array_total]), running out counts as [Undef]. *)
Fixpoint parse_tlv_loop (fuel : nat) (d : list byte) : decoded (list Tlv) :=
  if TLV_HEADER_SIZE <=? zlen d then
    match fuel with
    | O => Undef
    | S fuel' =>
        result ← Tlv_parse d;
        match result with
        | None => Done []
        | Some (tlv, consumed) =>
            rest ← parse_tlv_loop fuel' (drop (Z.to_nat consumed) d);
            Done (tlv :: rest)
        end
    end
  else Done [].

Definition parse_tlv_array (d : list byte) : decoded (list Tlv) := parse_tlv_loop (length d) d.

Record FollowUpTlv := mkFollowUpTlv {
  organization_id : list byte;
  organization_sub_type : list byte;
  cumulative_scaled_rate_offset : Z;
  gm_time_base_indicator : Z;
  last_gm_phase_change_ns_msb : Z;
  last_gm_phase_change_ns_lsb : Z;
  scaled_last_gm_freq_change : Z
}.

Definition FollowUpTlv_parse (value : list byte) : decoded (option FollowUpTlv) :=
  if zlen value <? 26 then Done None
  else
    oui ← subspan_count value 0 3;
    sub ← subspan_count value 3 3;
    rate ← be32_at value 6;
    base ← be16_at value 10;
    msb ← be32_at value 12;
    lsb ← read_be64 value 16;
    freq ← be32_at value 24;
    Done (Some (mkFollowUpTlv oui sub (sint 32 rate) base msb lsb (sint 32 freq))).

(** The loop of [PathTraceTlv::parse] over [n] clock identities. *)
Fixpoint path_loop (n : nat) (value : list byte) (i : Z) : decoded (list ClockIdentity) :=
  match n with
  | O => Done []
  | S n' =>
      id ← read_clock_identity value i;
      rest ← path_loop n' value (i + 8);
      Done (id :: rest)
  end.

Definition PathTraceTlv_parse (value : list byte) : decoded (option (list ClockIdentity)) :=
  if (zlen value <? 8) || negb (zlen value mod 8 =? 0) then Done None
  else path ← path_loop (Z.to_nat (zlen value / 8)) value 0; Done (Some path).

(** ** Message bodies *)

Record FollowUpMessage := mkFollowUpMessage {
  precise_origin_timestamp : GptpTimestamp;
  follow_up_info : option FollowUpTlv;
  fu_tlvs : list Tlv
}.

Record AnnounceMessage := mkAnnounceMessage {
  an_origin_timestamp : GptpTimestamp;
  current_utc_offset : Z;
  grandmaster_priority1 : Z;
  clock_class : Z;
  clock_accuracy : Z;
  offset_scaled_log_variance : Z;
  grandmaster_priority2 : Z;
  grandmaster_identity : ClockIdentity;
  steps_removed : Z;
  time_source : Z;
  path_trace : option (list ClockIdentity);
  an_tlvs : list Tlv
}.

(** [std::variant] of the message bodies; the reserved arrays are left out, which
    no code reads or writes. *)
Inductive MessageBody :=
| SyncMessage (origin_timestamp : GptpTimestamp)
| FollowUpBody (m : FollowUpMessage)
| PdelayReqMessage (origin_timestamp : GptpTimestamp)
| PdelayRespMessage (request_receipt_timestamp : GptpTimestamp) (requesting : PortIdentity)
| PdelayRespFollowUpMessage (response_origin_timestamp : GptpTimestamp) (requesting : PortIdentity)
| AnnounceBody (m : AnnounceMessage)
| SignalingMessage (target : PortIdentity).

Definition expected_body_size (type : Z) : Z :=
  if type =? Sync then 10
  else if type =? Follow_Up then 10
  else if (type =? Pdelay_Req) || (type =? Pdelay_Resp) || (type =? Pdelay_Resp_Follow_Up) then 20
  else if type =? Announce then 30
  else if type =? Signaling then 10
  else 0.

(** The loop over the TLVs of a Follow_Up: the last organisation extension that
    parses wins, and management TLVs are dropped. *)
Fixpoint follow_up_tlvs (tlvs : list Tlv) (info : option FollowUpTlv) (others : list Tlv)
    : decoded (option FollowUpTlv * list Tlv) :=
  match tlvs with
  | [] => Done (info, others)
  | t :: tlvs' =>
      if tlv_type t =? ORGANIZATION_EXTENSION then
        fu ← FollowUpTlv_parse (tlv_value t);
        follow_up_tlvs tlvs' (match fu with Some _ => fu | None => info end) others
      else if negb (tlv_type t =? TLV_Management) && negb (tlv_type t =? TLV_ManagementErrorStatus)
      then follow_up_tlvs tlvs' info (others ++ [t])
      else follow_up_tlvs tlvs' info others
  end.

Fixpoint announce_tlvs (tlvs : list Tlv) (path : option (list ClockIdentity)) (others : list Tlv)
    : decoded (option (list ClockIdentity) * list Tlv) :=
  match tlvs with
  | [] => Done (path, others)
  | t :: tlvs' =>
      if tlv_type t =? PATH_TRACE then
        p ← PathTraceTlv_parse (tlv_value t);
        announce_tlvs tlvs' (match p with Some _ => p | None => path end) others
      else announce_tlvs tlvs' path (others ++ [t])
  end.

Definition parse_body (type : Z) (d : list byte) : decoded (option MessageBody) :=
  if type =? Sync then
    if zlen d <? SYNC_MESSAGE_SIZE then Done None
    else ts ← read_timestamp d 0; Done (Some (SyncMessage ts))
  else if type =? Follow_Up then
    if zlen d <? FOLLOW_UP_MESSAGE_SIZE then Done None
    else
      ts ← read_timestamp d 0;
      extra ← (if FOLLOW_UP_MESSAGE_SIZE <? zlen d then
                 tlvs ← parse_tlv_array (drop (Z.to_nat FOLLOW_UP_MESSAGE_SIZE) d);
                 follow_up_tlvs tlvs None []
               else Done (None, []));
      Done (Some (FollowUpBody (mkFollowUpMessage ts extra.1 extra.2)))
  else if type =? Pdelay_Req then
    if zlen d <? PDELAY_REQ_MESSAGE_SIZE then Done None
    else ts ← read_timestamp d 0; Done (Some (PdelayReqMessage ts))
  else if type =? Pdelay_Resp then
    if zlen d <? PDELAY_RESP_MESSAGE_SIZE then Done None
    else ts ← read_timestamp d 0; port ← read_port_identity d 10;
         Done (Some (PdelayRespMessage ts port))
  else if type =? Pdelay_Resp_Follow_Up then
    if zlen d <? PDELAY_RESP_FOLLOW_UP_MESSAGE_SIZE then Done None
    else ts ← read_timestamp d 0; port ← read_port_identity d 10;
         Done (Some (PdelayRespFollowUpMessage ts port))
  else if type =? Announce then
    if zlen d <? ANNOUNCE_MESSAGE_SIZE then Done None
    else
      ts ← read_timestamp d 0;
      utc ← be16_at d 10;
      prio1 ← byte_at d 13;
      cls ← byte_at d 14;
      acc ← byte_at d 15;
      var ← be16_at d 16;
      prio2 ← byte_at d 18;
      gm ← read_clock_identity d 19;
      steps ← be16_at d 27;
      source ← byte_at d 29;
      extra ← (if ANNOUNCE_MESSAGE_SIZE <? zlen d then
                 tlvs ← parse_tlv_array (drop (Z.to_nat ANNOUNCE_MESSAGE_SIZE) d);
                 announce_tlvs tlvs None []
               else Done (None, []));
      Done (Some (AnnounceBody (mkAnnounceMessage ts (sint 16 utc) prio1 cls acc var prio2 gm steps
                                  source extra.1 extra.2)))
  else if type =? Signaling then
    if zlen d <? SIGNALING_MESSAGE_SIZE then Done None
    else port ← read_port_identity d 0; Done (Some (SignalingMessage port))
  else Done None.

(** ** The header *)

Record GptpHeader := mkGptpHeader {
  transport_specific : Z;
  message_type : Z;
  version_ptp : Z;
  minor_version_ptp : Z;
  message_length : Z;
  domain_number : Z;
  minor_sdo_id : Z;
  flags : GptpFlags;
  correction_field : Z;
  message_type_specific : Z;
  source_port_identity : PortIdentity;
  sequence_id : Z;
  control_field : Z;
  log_message_interval : Z;
  body : option MessageBody
}.

Definition header_size (h : GptpHeader) : Z := COMMON_HEADER_SIZE.
Definition payload_size (h : GptpHeader) : Z :=
  if COMMON_HEADER_SIZE <? message_length h then message_length h - COMMON_HEADER_SIZE else 0.
Definition is_two_step (h : GptpHeader) : bool := two_step (flags h).
Definition is_gptp_profile (h : GptpHeader) : bool := transport_specific h =? IEEE_802_1AS.

Definition with_body (h : GptpHeader) (b : option MessageBody) : GptpHeader :=
  mkGptpHeader (transport_specific h) (message_type h) (version_ptp h) (minor_version_ptp h)
    (message_length h) (domain_number h) (minor_sdo_id h) (flags h) (correction_field h)
    (message_type_specific h) (source_port_identity h) (sequence_id h) (control_field h)
    (log_message_interval h) b.

Definition parse_header (d : list byte) : decoded (option GptpHeader) :=
  if zlen d <? COMMON_HEADER_SIZE then Done None
  else
    byte0 ← byte_at d 0;
    byte1 ← byte_at d 1;
    length ← be16_at d 2;
    domain ← byte_at d 4;
    sdo ← byte_at d 5;
    flags_raw ← be16_at d 6;
    correction ← read_be64 d 8;
    specific ← be32_at d 16;
    port ← read_port_identity d 20;
    seq ← be16_at d 30;
    control ← byte_at d 32;
    interval ← byte_at d 33;
    Done (Some (mkGptpHeader (Z.land (Z.shiftr byte0 4) 15) (Z.land byte0 15) (Z.land byte1 15)
      (Z.land (Z.shiftr byte1 4) 15) length domain sdo (flags_from_raw flags_raw)
      (sint 64 correction) specific port seq control (sint 8 interval) None)).

Record GptpDecoderOptions := mkGptpDecoderOptions {
  parse_body_opt : bool; parse_tlvs_opt : bool; strict_version : bool; validate_length : bool
}.
Definition Options_default : GptpDecoderOptions := mkGptpDecoderOptions true true false true.

Definition can_decode (ctx : DecodeContext) : bool := has_bytes ctx COMMON_HEADER_SIZE.

Definition decode_impl (opts : GptpDecoderOptions) (ctx : DecodeContext)
    : decoded (GptpHeader * DecodeContext) :=
  if data_size ctx <? COMMON_HEADER_SIZE
  then make_error BufferTooSmall "Insufficient data for gPTP header" (original_offset ctx)
  else
    parsed ← parse_header (data ctx);
    match parsed with
    | None => make_error InvalidHeader "Failed to parse gPTP header" (original_offset ctx)
    | Some header =>
        if strict_version opts && negb (transport_specific header =? IEEE_802_1AS)
        then make_error InvalidVersion "Not an IEEE 802.1AS gPTP message" (original_offset ctx)
        else if validate_length opts &&
                ((message_length header <? COMMON_HEADER_SIZE) || (data_size ctx <? message_length header))
        then make_error InvalidLength "Invalid gPTP message length" (original_offset ctx)
        else
          header ← (if parse_body_opt opts && (COMMON_HEADER_SIZE <? data_size ctx) then
                      b ← parse_body (message_type header) (drop (Z.to_nat COMMON_HEADER_SIZE) (data ctx));
                      Done (with_body header b)
                    else Done header);
          Done (header, sub_context ctx (message_length header))
    end.

(** ** Reads *)

Lemma be64_lor b0 b1 b2 b3 b4 b5 b6 b7 :
  Z.lor (Z.lor (Z.lor (Z.lor (Z.lor (Z.lor (Z.lor (Z.shiftl (u8 b0) 56) (Z.shiftl (u8 b1) 48))
    (Z.shiftl (u8 b2) 40)) (Z.shiftl (u8 b3) 32)) (Z.shiftl (u8 b4) 24)) (Z.shiftl (u8 b5) 16))
    (Z.shiftl (u8 b6) 8)) (u8 b7) = be32 b0 b1 b2 b3 * 2 ^ 32 + be32 b4 b5 b6 b7.
Proof.
  rewrite <- lor_shiftl_add by (try lia; apply be32_fits). rewrite <- !be32_lor.
  rewrite !Z.shiftl_lor, !Z.shiftl_shiftl by lia. cbn [Z.add Pos.add Pos.succ].
  rewrite !Z.lor_assoc. reflexivity.
Qed.

Lemma read_be64_drop d i v post :
  0 <= i -> drop (Z.to_nat i) d = write_be64 v ++ post -> fits 64 v -> read_be64 d i = Done v.
Proof.
  intros Hi Hd Hv. pose proof (read_write_be64 v [] Hv) as Hr.
  destruct (write_be64 v) as [|b0 [|b1 [|b2 [|b3 [|b4 [|b5 [|b6 [|b7 [|]]]]]]]]] eqn:E; try discriminate E.
  unfold ByteOrder.read_be64 in Hr. cbn [app drop] in Hr. rewrite !read_be32_cons in Hr.
  injection Hr as Hr. rewrite lor_shiftl_add in Hr by (try lia; apply be32_fits).
  assert (Hk : forall k, 0 <= k -> drop (Z.to_nat (i + k)) d =
    drop (Z.to_nat k) ([b0; b1; b2; b3; b4; b5; b6; b7] ++ post)).
  { intros k Hk. rewrite <- Hd, drop_drop_Z by assumption. reflexivity. }
  unfold read_be64. rewrite (byte_at_drop d i _ _ Hi Hd), bind_Done.
  repeat match goal with |- context [byte_at d (i + ?k)] =>
    erewrite (byte_at_drop d (i + k)), bind_Done by (first [lia | rewrite Hk by lia; reflexivity]) end.
  rewrite be64_lor. f_equal. exact Hr.
Qed.

Lemma read_be64_in d i : 0 <= i -> i + 8 <= zlen d -> exists v, read_be64 d i = Done v.
Proof.
  intros Hi Hl. unfold read_be64.
  repeat match goal with |- exists v, (byte_at d ?k ≫= _) = _ =>
    destruct (byte_at_in (E:=DecodeError) d k) as (? & -> & _); [lia | rewrite bind_Done] end. eauto.
Qed.

Lemma read_port_identity_in d i : 0 <= i -> i + 10 <= zlen d -> exists v, read_port_identity d i = Done v.
Proof.
  intros Hi Hl. unfold read_port_identity, read_clock_identity. rewrite subspan_count_in, bind_Done by lia.
  destruct (be16_at_in d (i + 8)) as (? & -> & _); [lia | lia |]. eexists. reflexivity.
Qed.

Lemma read_timestamp_in d i : 0 <= i -> i + 10 <= zlen d -> exists v, read_timestamp d i = Done v.
Proof.
  intros Hi Hl. unfold read_timestamp.
  destruct (be16_at_in d i) as (? & -> & _); [lia | lia |].
  destruct (be32_at_in d (i + 2)) as (? & -> & _); [lia | lia |].
  destruct (be32_at_in d (i + 6)) as (? & -> & _); [lia | lia |]. eexists. reflexivity.
Qed.

(** ** TLV arrays *)

Definition encode_tlv (t : Tlv) : list byte :=
  write_be16 (tlv_type t) ++ write_be16 (tlv_length t) ++ tlv_value t.
Definition encode_tlvs (ts : list Tlv) : list byte := concat (encode_tlv <$> ts).

Record wf_tlv (t : Tlv) : Prop := {
  wf_tlv_type : fits 16 (tlv_type t);
  wf_tlv_length : tlv_length t = zlen (tlv_value t) /\ tlv_length t < 2 ^ 16
}.

(** Bytes that do not hold a whole TLV. *)
Definition incomplete (d : list byte) : Prop :=
  zlen d < 4 \/ exists ty len r, d = write_be16 ty ++ write_be16 len ++ r /\ fits 16 len /\ zlen r < len.

Lemma Tlv_parse_encode t rest :
  wf_tlv t -> Tlv_parse (encode_tlv t ++ rest) = Done (Some (t, zlen (encode_tlv t))).
Proof.
  intros [Ht [Hl Hl2]]. unfold Tlv_parse, TLV_HEADER_SIZE.
  assert (Hlen : zlen (encode_tlv t) = 4 + tlv_length t)
    by (unfold encode_tlv; cbn [length app write_be16]; lia).
  rewrite length_app, (proj2 (Z.ltb_ge _ 4)) by lia.
  rewrite (be16_at_drop _ 0 (tlv_type t) (write_be16 (tlv_length t) ++ tlv_value t ++ rest)), bind_Done
    by (first [lia | assumption | unfold encode_tlv; rewrite <- !app_assoc; reflexivity]).
  rewrite (be16_at_drop _ 2 (tlv_length t) (tlv_value t ++ rest)), bind_Done
    by (first [lia | unfold fits; lia | unfold encode_tlv; rewrite <- !app_assoc; reflexivity]).
  rewrite (proj2 (Z.ltb_ge _ (4 + tlv_length t))) by lia.
  replace (if 0 <? tlv_length t then _ else _) with (Done (E:=DecodeError) (tlv_value t)).
  - rewrite bind_Done, Hlen. destruct t. reflexivity.
  - destruct (0 <? tlv_length t) eqn:E; bool_to_prop.
    + rewrite subspan_count_in by (rewrite ?length_app; lia).
      replace (drop (Z.to_nat 4) (encode_tlv t ++ rest)) with (tlv_value t ++ rest).
      * rewrite Hl, Nat2Z.id, take_app_length. reflexivity.
      * unfold encode_tlv. rewrite <- !app_assoc. reflexivity.
    + destruct (tlv_value t) eqn:Ev; [reflexivity|]. rewrite Hl in E. cbn [length] in E. lia.
Qed.

(** One step of the parser on any bytes. *)
Lemma Tlv_parse_cases d :
  4 <= zlen d ->
  (Tlv_parse d = Done None /\ incomplete d) \/
  (exists t rest, wf_tlv t /\ d = encode_tlv t ++ rest /\ Tlv_parse d = Done (Some (t, zlen (encode_tlv t)))).
Proof.
  intros H4. destruct d as [|b0 [|b1 [|b2 [|b3 r]]]]; cbn [length] in H4; try lia.
  destruct (Z.lt_ge_cases (zlen r) (be16 b2 b3)) as [Hlt|Hge].
  - left. split.
    + unfold Tlv_parse, TLV_HEADER_SIZE. rewrite (proj2 (Z.ltb_ge _ 4)) by (cbn [length]; lia).
      rewrite (be16_at_drop _ 0 (be16 b0 b1) (b2 :: b3 :: r)), bind_Done
        by (first [lia | apply be16_fits | rewrite write_be16_be16; reflexivity]).
      rewrite (be16_at_drop _ 2 (be16 b2 b3) r), bind_Done
        by (first [lia | apply be16_fits | rewrite write_be16_be16; reflexivity]).
      rewrite (proj2 (Z.ltb_lt _ (4 + be16 b2 b3))) by (cbn [length]; lia). reflexivity.
    + right. exists (be16 b0 b1), (be16 b2 b3), r. rewrite !write_be16_be16.
      split_and!; [reflexivity | apply be16_fits | assumption].
  - right. set (n := be16 b2 b3) in *. pose proof (be16_fits b2 b3) as Hn. fold n in Hn.
    set (t := mkTlv (be16 b0 b1) n (take (Z.to_nat n) r)).
    assert (Hwf : wf_tlv t).
    { unfold fits in Hn. split; cbn [tlv_type tlv_length tlv_value t]; [apply be16_fits | rewrite length_take; lia]. }
    assert (Hd : b0 :: b1 :: b2 :: b3 :: r = encode_tlv t ++ drop (Z.to_nat n) r).
    { unfold encode_tlv. cbn [tlv_type tlv_length tlv_value t]. unfold n at 1. rewrite !write_be16_be16.
      cbn [app]. rewrite take_drop. reflexivity. }
    exists t, (drop (Z.to_nat n) r). split_and!; [exact Hwf | exact Hd |].
    rewrite Hd. apply Tlv_parse_encode, Hwf.
Qed.

Lemma write_be16_inj a b :
  fits 16 a -> fits 16 b -> write_be16 a = write_be16 b -> a = b.
Proof.
  intros Ha Hb He. pose proof (read_write_be16 a [] Ha) as R1. pose proof (read_write_be16 b [] Hb) as R2.
  rewrite He in R1. congruence.
Qed.

Lemma length_encode_tlv t : zlen (encode_tlv t) = 4 + zlen (tlv_value t).
Proof. unfold encode_tlv. cbn [app write_be16 length]. lia. Qed.

Lemma incomplete_no_tlv t rest : wf_tlv t -> ~ incomplete (encode_tlv t ++ rest).
Proof.
  intros [_ [Hl Hl2]] [Hlt|(ty & len & r & Hd & Hf & Hlt)].
  - rewrite length_app in Hlt. pose proof (length_encode_tlv t). lia.
  - unfold encode_tlv in Hd. rewrite <- !app_assoc in Hd.
    apply app_inj_1 in Hd as [_ Hd]; [|reflexivity].
    apply app_inj_1 in Hd as [Hlen Hd]; [|reflexivity].
    apply write_be16_inj in Hlen; [|unfold fits; lia | assumption].
    rewrite <- Hd, length_app in Hlt. lia.
Qed.

(** The first TLV of some bytes is unique. *)
Lemma encode_tlvs_cons t ts rest : encode_tlvs (t :: ts) ++ rest = encode_tlv t ++ encode_tlvs ts ++ rest.
Proof. unfold encode_tlvs. cbn [fmap list_fmap concat]. symmetry. apply app_assoc. Qed.

Lemma encode_tlv_inj t t' rest rest' :
  wf_tlv t -> wf_tlv t' -> encode_tlv t ++ rest = encode_tlv t' ++ rest' -> t = t' /\ rest = rest'.
Proof.
  intros Hwf Hwf' He. pose proof (Tlv_parse_encode t rest Hwf) as H1.
  rewrite He, (Tlv_parse_encode t' rest' Hwf') in H1. injection H1 as Ht Hl. subst t'.
  split; [reflexivity|]. apply app_inv_head in He. exact He.
Qed.

Lemma short_no_tlvs d ts rest : zlen d < 4 -> d = encode_tlvs ts ++ rest -> ts = [].
Proof.
  intros Hs Hd. destruct ts as [|t ts]; [reflexivity|]. exfalso.
  rewrite encode_tlvs_cons in Hd. rewrite Hd, length_app in Hs. pose proof (length_encode_tlv t). lia.
Qed.

Lemma parse_tlv_loop_spec fuel d ts :
  zlen d < 4 * (Z.of_nat fuel + 1) ->
  parse_tlv_loop fuel d = Done ts <->
  Forall wf_tlv ts /\ exists rest, d = encode_tlvs ts ++ rest /\ incomplete rest.
Proof.
  assert (Hnil : forall d ts, incomplete d ->
    Done (E:=DecodeError) [] = Done ts <->
    Forall wf_tlv ts /\ exists rest, d = encode_tlvs ts ++ rest /\ incomplete rest).
  { intros d0 ts0 Hinc. split.
    - intros [= <-]. split; [constructor|]. exists d0. auto.
    - intros [Hwf (rest & Hd & _)]. destruct ts0 as [|t ts0]; [reflexivity|].
      apply Forall_cons in Hwf as [Hwf _]. rewrite encode_tlvs_cons in Hd. subst d0.
      destruct (incomplete_no_tlv _ _ Hwf Hinc). }
  revert d ts. induction fuel as [|fuel IH]; intros d ts Hf; cbn [parse_tlv_loop]; unfold TLV_HEADER_SIZE.
  - rewrite (proj2 (Z.leb_gt 4 _)) by lia. apply Hnil. left. lia.
  - destruct (4 <=? zlen d) eqn:E; bool_to_prop; [|apply Hnil; left; lia].
    destruct (Tlv_parse_cases d E) as [[-> Hinc]|(t & rest & Hwf & -> & ->)]; rewrite bind_Done;
      [apply Hnil, Hinc|].
    rewrite drop_app_Z by reflexivity. rewrite length_app in Hf. pose proof (length_encode_tlv t).
    split.
    + intros H'. apply bind_inv in H' as (ts' & Hr & H'). injection H' as <-.
      apply IH in Hr as [Hwf' (rest' & -> & Hinc)]; [|lia].
      split; [constructor; assumption|]. exists rest'. rewrite encode_tlvs_cons. auto.
    + intros [Hwf' (rest' & Hd & Hinc)]. destruct ts as [|t' ts'].
      { cbn in Hd. subst rest'. destruct (incomplete_no_tlv _ _ Hwf Hinc). }
      apply Forall_cons in Hwf' as [Hwt Hwf']. rewrite encode_tlvs_cons in Hd.
      destruct (encode_tlv_inj _ _ _ _ Hwf Hwt Hd) as [<- ->].
      rewrite (proj2 (IH (encode_tlvs ts' ++ rest') ts' ltac:(lia))); [reflexivity | eauto].
Qed.

(** The TLV array parser terminates without reading out of bounds, and is
    exact: it returns the TLVs that the bytes are the layout of, up to the first
    place where no whole TLV is left. *)
Theorem gptp_tlv_array_exact (d : list byte) (ts : list Tlv) :
  parse_tlv_array d = Done ts <->
  Forall wf_tlv ts /\ exists rest, d = encode_tlvs ts ++ rest /\ incomplete rest.
Proof. apply parse_tlv_loop_spec. lia. Qed.

Lemma parse_tlv_array_total d : exists ts, parse_tlv_array d = Done ts.
Proof.
  unfold parse_tlv_array. enough (H : forall n d, (length d <= n)%nat -> exists ts, parse_tlv_loop n d = Done ts)
    by (apply H; lia).
  clear. induction n as [|n IH]; intros d Hn; cbn [parse_tlv_loop]; unfold TLV_HEADER_SIZE.
  - rewrite (proj2 (Z.leb_gt 4 _)) by lia. eauto.
  - destruct (4 <=? zlen d) eqn:E; bool_to_prop; [|eauto].
    destruct (Tlv_parse_cases d E) as [[-> _]|(t & rest & Hwf & -> & ->)]; rewrite bind_Done; [eauto|].
    rewrite drop_app_Z by reflexivity. pose proof (length_encode_tlv t).
    destruct (IH rest) as [ts ->]; [rewrite length_app in Hn; lia|]. eexists. reflexivity.
Qed.

(** ** Follow_Up information *)

(** A follow-up information TLV too short for the fields that are read. *)
Definition bad_follow_up (t : Tlv) : Prop :=
  tlv_type t = ORGANIZATION_EXTENSION /\ 26 <= zlen (tlv_value t) < 28.

Lemma FollowUpTlv_parse_cases value :
  (zlen value < 26 -> FollowUpTlv_parse value = Done None) /\
  (26 <= zlen value < 28 -> FollowUpTlv_parse value = Undef) /\
  (28 <= zlen value -> exists v, FollowUpTlv_parse value = Done (Some v)).
Proof.
  unfold FollowUpTlv_parse. split_and!.
  - intros Hl. rewrite (proj2 (Z.ltb_lt _ _)) by lia. reflexivity.
  - intros Hl. rewrite (proj2 (Z.ltb_ge _ _)) by lia. rewrite !subspan_count_in, !bind_Done by lia.
    destruct (be32_at_in value 6) as (? & -> & _); [lia | lia |].
    destruct (be16_at_in value 10) as (? & -> & _); [lia | lia |].
    destruct (be32_at_in value 12) as (? & -> & _); [lia | lia |].
    destruct (read_be64_in value 16) as (? & ->); [lia | lia |]. rewrite !bind_Done.
    assert (Hu : be32_at value 24 = Undef); [|rewrite Hu; reflexivity].
    unfold be32_at. destruct (byte_at_in (E:=DecodeError) value 24) as (? & -> & _); [lia|].
    destruct (byte_at_in (E:=DecodeError) value (24 + 1)) as (? & -> & _); [lia|]. rewrite !bind_Done.
    destruct (Z.lt_ge_cases (zlen value) 27).
    + assert (H26 : byte_at (E:=DecodeError) value (24 + 2) = Undef); [|rewrite H26; reflexivity].
      unfold byte_at. cbn [Z.leb Z.compare Z.add]. rewrite lookup_ge_None_2 by lia. reflexivity.
    + destruct (byte_at_in (E:=DecodeError) value (24 + 2)) as (? & -> & _); [lia|].
      assert (H27 : byte_at (E:=DecodeError) value (24 + 3) = Undef); [|rewrite H27; reflexivity].
      unfold byte_at. cbn [Z.leb Z.compare Z.add]. rewrite lookup_ge_None_2 by lia. reflexivity.
  - intros Hl. rewrite (proj2 (Z.ltb_ge _ _)) by lia. rewrite !subspan_count_in, !bind_Done by lia.
    destruct (be32_at_in value 6) as (? & -> & _); [lia | lia |].
    destruct (be16_at_in value 10) as (? & -> & _); [lia | lia |].
    destruct (be32_at_in value 12) as (? & -> & _); [lia | lia |].
    destruct (read_be64_in value 16) as (? & ->); [lia | lia |].
    destruct (be32_at_in value 24) as (? & -> & _); [lia | lia |]. eexists. reflexivity.
Qed.

Lemma follow_up_tlvs_cases tlvs info others :
  (Exists bad_follow_up tlvs /\ follow_up_tlvs tlvs info others = Undef) \/
  (~ Exists bad_follow_up tlvs /\ exists r, follow_up_tlvs tlvs info others = Done r).
Proof.
  revert info others. induction tlvs as [|t tlvs IH]; intros info others; cbn [follow_up_tlvs].
  - right. split; [|eauto]. intros He. apply Exists_nil in He. exact He.
  - destruct (FollowUpTlv_parse_cases (tlv_value t)) as (H1 & H2 & H3).
    destruct (Z.eqb_spec (tlv_type t) ORGANIZATION_EXTENSION) as [Ht|Ht].
    + destruct (decide (26 <= zlen (tlv_value t) < 28)) as [Hb|Hb].
      * left. rewrite (H2 Hb). split; [|reflexivity]. apply Exists_cons. left. split; assumption.
      * assert (Hp : exists fu, FollowUpTlv_parse (tlv_value t) = Done fu).
        { destruct (Z.lt_ge_cases (zlen (tlv_value t)) 26); [eauto|].
          destruct H3 as [v Hv]; [lia | eauto]. }
        destruct Hp as [fu ->]. rewrite bind_Done.
        destruct (IH (match fu with Some _ => fu | None => info end) others) as [[He Hu]|[Hn Hd]].
        -- left. split; [apply Exists_cons; auto | exact Hu].
        -- right. split; [|exact Hd]. intros He. apply Exists_cons in He as [[_ ?]|He]; auto.
    + assert (Hstep : forall i o, (Exists bad_follow_up (t :: tlvs) /\ follow_up_tlvs tlvs i o = Undef) \/
        (~ Exists bad_follow_up (t :: tlvs) /\ exists r, follow_up_tlvs tlvs i o = Done r)).
      { intros i o. destruct (IH i o) as [[He Hu]|[Hn Hd]].
        - left. split; [apply Exists_cons; auto | exact Hu].
        - right. split; [|exact Hd]. intros He. apply Exists_cons in He as [[? _]|He]; auto. }
      case_step; apply Hstep.
Qed.

Lemma PathTraceTlv_parse_total value : exists r, PathTraceTlv_parse value = Done r.
Proof.
  unfold PathTraceTlv_parse. destruct ((zlen value <? 8) || _) eqn:E; [eauto|].
  apply orb_false_elim in E as [_ E]. apply negb_false_iff, Z.eqb_eq in E.
  enough (H : forall n i, 0 <= i -> i + 8 * Z.of_nat n <= zlen value -> exists p, path_loop n value i = Done p).
  { destruct (H (Z.to_nat (zlen value / 8)) 0) as [p ->]; [lia | lia |]. eexists. reflexivity. }
  induction n as [|n IH]; intros i Hi Hn; cbn [path_loop]; [eauto|].
  unfold read_clock_identity. rewrite subspan_count_in, bind_Done by lia.
  destruct (IH (i + 8)) as [p ->]; [lia | lia |]. eexists. reflexivity.
Qed.

Lemma announce_tlvs_total tlvs path others : exists r, announce_tlvs tlvs path others = Done r.
Proof.
  revert path others. induction tlvs as [|t tlvs IH]; intros path others; cbn [announce_tlvs]; [eauto|].
  case_step; [|apply IH]. destruct (PathTraceTlv_parse_total (tlv_value t)) as [p ->].
  rewrite bind_Done. apply IH.
Qed.

(** The TLVs behind the timestamp of a Follow_Up body. *)
Definition follow_up_tlv_array (d : list byte) (ts : list Tlv) : Prop :=
  parse_tlv_array (drop (Z.to_nat FOLLOW_UP_MESSAGE_SIZE) d) = Done ts.

Ltac body_reads :=
  repeat match goal with
  | |- context [read_timestamp ?d ?i] =>
      destruct (read_timestamp_in d i) as (? & ->); [lia | lia |]
  | |- context [read_port_identity ?d ?i] =>
      destruct (read_port_identity_in d i) as (? & ->); [lia | lia |]
  | |- context [be16_at ?d ?i] => destruct (be16_at_in d i) as (? & -> & _); [lia | lia |]
  | |- context [byte_at ?d ?i ≫= _] =>
      destruct (byte_at_in (E:=DecodeError) d i) as (? & -> & _); [lia |]
  end; rewrite ?bind_Done.

Lemma parse_body_cases type d :
  (parse_body type d = Undef /\ type = Follow_Up /\ exists ts, follow_up_tlv_array d ts /\ Exists bad_follow_up ts) \/
  ((exists b, parse_body type d = Done b) /\
   ~ (type = Follow_Up /\ exists ts, follow_up_tlv_array d ts /\ Exists bad_follow_up ts)).
Proof.
  unfold parse_body. destruct (Z.eqb_spec type Sync) as [->|Hn0].
  { right. split; [|intros [? _]; discriminate]. unfold SYNC_MESSAGE_SIZE.
    destruct (zlen d <? 10) eqn:E; bool_to_prop; [eauto|]. body_reads. eauto. }
  destruct (Z.eqb_spec type Follow_Up) as [->|Hn1].
  - unfold FOLLOW_UP_MESSAGE_SIZE, follow_up_tlv_array. unfold FOLLOW_UP_MESSAGE_SIZE.
    destruct (parse_tlv_array_total (drop (Z.to_nat 10) d)) as [ts Hts].
    destruct (zlen d <? 10) eqn:E; bool_to_prop.
    { right. split; [eauto|]. intros (_ & ts' & Hp & He). rewrite (drop_ge d) in Hp by lia.
      injection Hp as <-. apply Exists_nil in He. exact He. }
    body_reads. destruct (10 <? zlen d) eqn:E2; bool_to_prop.
    + rewrite Hts, bind_Done. destruct (follow_up_tlvs_cases ts None []) as [[He ->]|[Hn [r ->]]].
      * left. split_and!; [reflexivity | reflexivity | eauto].
      * right. split; [eexists; reflexivity|]. intros (_ & ts' & Hp & He).
        assert (ts' = ts) by congruence. subst ts'. auto.
    + right. split; [eexists; reflexivity|]. intros (_ & ts' & Hp & He). rewrite (drop_ge d) in Hp by lia.
      injection Hp as <-. apply Exists_nil in He. exact He.
  - right. split; [|intros [? _]; contradiction].
    unfold PDELAY_REQ_MESSAGE_SIZE, PDELAY_RESP_MESSAGE_SIZE, PDELAY_RESP_FOLLOW_UP_MESSAGE_SIZE,
      ANNOUNCE_MESSAGE_SIZE, SIGNALING_MESSAGE_SIZE.
    destruct (type =? Pdelay_Req); [destruct (zlen d <? 20) eqn:E; bool_to_prop; [eauto|]; body_reads; eauto|].
    destruct (type =? Pdelay_Resp); [destruct (zlen d <? 20) eqn:E; bool_to_prop; [eauto|]; body_reads; eauto|].
    destruct (type =? Pdelay_Resp_Follow_Up);
      [destruct (zlen d <? 20) eqn:E; bool_to_prop; [eauto|]; body_reads; eauto|].
    destruct (type =? Announce).
    { destruct (zlen d <? 30) eqn:E; bool_to_prop; [eauto|].
      unfold read_clock_identity. rewrite subspan_count_in by lia. body_reads.
      destruct (30 <? zlen d); [|eexists; reflexivity].
      destruct (parse_tlv_array_total (drop (Z.to_nat 30) d)) as [ts ->]. rewrite bind_Done.
      destruct (announce_tlvs_total ts None []) as [r ->]. eexists. reflexivity. }
    destruct (type =? Signaling); [|eauto].
    destruct (zlen d <? 10) eqn:E; bool_to_prop; [eauto|]. body_reads. eauto.
Qed.

Lemma parse_header_total d : 34 <= zlen d -> exists h, parse_header d = Done (Some h).
Proof.
  intros Hl. unfold parse_header, COMMON_HEADER_SIZE. rewrite (proj2 (Z.ltb_ge _ _)) by lia.
  destruct (read_be64_in d 8) as (? & Hc); [lia | lia |].
  destruct (be32_at_in d 16) as (? & Hs & _); [lia | lia |]. rewrite Hc, Hs. body_reads. eauto.
Qed.

(** A header that [decode_impl] does not reject. *)
Definition accepted (opts : GptpDecoderOptions) (size : Z) (h : GptpHeader) : Prop :=
  (strict_version opts = true -> transport_specific h = IEEE_802_1AS) /\
  (validate_length opts = true -> COMMON_HEADER_SIZE <= message_length h <= size).

Lemma decode_unfold opts ctx h :
  34 <= data_size ctx -> parse_header (data ctx) = Done (Some h) ->
  (~ accepted opts (data_size ctx) h -> exists e, decode_impl opts ctx = Fail e) /\
  (accepted opts (data_size ctx) h ->
   decode_impl opts ctx =
     (h' ← (if parse_body_opt opts && (COMMON_HEADER_SIZE <? data_size ctx) then
              b ← parse_body (message_type h) (drop (Z.to_nat COMMON_HEADER_SIZE) (data ctx));
              Done (with_body h b)
            else Done h);
      Done (h', sub_context ctx (message_length h)))).
Proof.
  intros Hsz Hp. unfold decode_impl, accepted. unfold COMMON_HEADER_SIZE.
  rewrite (proj2 (Z.ltb_ge (data_size ctx) 34)) by lia. rewrite Hp, bind_Done. cbn match. split.
  - intros Hn. destruct (strict_version opts) eqn:Es; cbn [andb].
    + destruct (Z.eqb_spec (transport_specific h) IEEE_802_1AS) as [Et|Et]; cbn [negb]; [|eexists; reflexivity].
      destruct (validate_length opts) eqn:Ev; cbn [andb]; [|destruct Hn; split; [auto | discriminate]].
      destruct ((message_length h <? 34) || _) eqn:El; [eexists; reflexivity|].
      apply orb_false_elim in El as [El1 El2]. bool_to_prop. destruct Hn. split; [auto | lia].
    + destruct (validate_length opts) eqn:Ev; cbn [andb]; [|destruct Hn; split; discriminate].
      destruct ((message_length h <? 34) || _) eqn:El; [eexists; reflexivity|].
      apply orb_false_elim in El as [El1 El2]. bool_to_prop. destruct Hn. split; [discriminate | lia].
  - intros [Ha Hb].
    replace (strict_version opts && negb (transport_specific h =? IEEE_802_1AS)) with false.
    2:{ destruct (strict_version opts); [|reflexivity]. rewrite Ha by reflexivity. reflexivity. }
    replace (validate_length opts && _) with false.
    2:{ destruct (validate_length opts); [|reflexivity]. specialize (Hb eq_refl). cbn [andb].
        symmetry. apply orb_false_iff. split; apply Z.ltb_ge; lia. }
    destruct (parse_body_opt opts && (34 <? data_size ctx)); [|reflexivity].
    destruct (parse_body _ _); reflexivity.
Qed.

(** Where the gPTP decoder reads out of bounds: exactly on the Follow_Up
    messages it accepts whose TLV array, with body parsing on, holds an
    organisation extension of 26 or 27 bytes: the size check of
    [FollowUpTlv::parse] is two bytes short of the fields it reads. *)
Theorem gptp_overread (opts : GptpDecoderOptions) (ctx : DecodeContext) :
  decode_impl opts ctx = Undef <->
  parse_body_opt opts = true /\
  exists h ts, COMMON_HEADER_SIZE < data_size ctx /\ parse_header (data ctx) = Done (Some h) /\
    accepted opts (data_size ctx) h /\ message_type h = Follow_Up /\
    follow_up_tlv_array (drop (Z.to_nat COMMON_HEADER_SIZE) (data ctx)) ts /\ Exists bad_follow_up ts.
Proof.
  unfold COMMON_HEADER_SIZE. destruct (Z.lt_ge_cases (data_size ctx) 34) as [Hlt|Hge].
  { unfold decode_impl, COMMON_HEADER_SIZE. rewrite (proj2 (Z.ltb_lt _ _)) by lia. split; [discriminate|].
    intros (_ & h & ts & ? & _). lia. }
  destruct (parse_header_total (data ctx) ltac:(lia)) as [h Hh].
  destruct (decode_unfold opts ctx h Hge Hh) as [Hrej Hacc]. unfold COMMON_HEADER_SIZE in Hacc.
  assert (Hdec : Decision (accepted opts (data_size ctx) h)) by (unfold accepted; apply _).
  destruct (decide (accepted opts (data_size ctx) h)) as [Ha|Ha].
  2:{ destruct (Hrej Ha) as [e ->]. split; [discriminate|]. intros (_ & h' & ts & _ & Hh' & Ha' & _).
      assert (h' = h) by congruence. subst h'. contradiction. }
  rewrite (Hacc Ha). clear Hrej Hacc.
  destruct (parse_body_opt opts); cbn [andb]; [|split; [discriminate | intros [? _]; discriminate]].
  destruct (34 <? data_size ctx) eqn:E; bool_to_prop; [|split; [discriminate | intros (_ & h' & ts & ? & _); lia]].
  destruct (parse_body_cases (message_type h) (drop (Z.to_nat 34) (data ctx)))
    as [(-> & Ht & ts & Hts & He)|[[b ->] Hno]].
  - split; [|reflexivity]. intros _. split; [reflexivity|]. exists h, ts. split_and!; auto.
  - split; [discriminate|]. intros (_ & h' & ts & _ & Hh' & _ & Ht & Hts & He).
    assert (h' = h) by congruence. subst h'. destruct Hno. eauto.
Qed.

(** What a returned header says of the data. *)
Lemma decode_impl_accepted opts ctx h next :
  decode_impl opts ctx = Done (h, next) ->
  accepted opts (data_size ctx) h /\ next = sub_context ctx (message_length h).
Proof.
  intros H. destruct (Z.lt_ge_cases (data_size ctx) 34) as [Hlt|Hge].
  { unfold decode_impl, COMMON_HEADER_SIZE in H. rewrite (proj2 (Z.ltb_lt _ _)) in H by lia. discriminate. }
  destruct (parse_header_total (data ctx) ltac:(lia)) as [h0 Hh].
  destruct (decode_unfold opts ctx h0 Hge Hh) as [Hrej Hacc].
  assert (Hdec : Decision (accepted opts (data_size ctx) h0)) by (unfold accepted; apply _).
  destruct (decide (accepted opts (data_size ctx) h0)) as [Ha|Ha]; [|destruct (Hrej Ha) as [e He]; congruence].
  rewrite (Hacc Ha) in H. apply bind_inv in H as (h' & Hb & H). apply Done_pair_inj in H as [<- <-].
  case_in Hb; [apply bind_inv in Hb as (b & _ & Hb)|]; injection Hb as <-; auto.
Qed.

(** Progress of the gPTP decoder: with length validation, a decoded message
    is at least a header long and at most the data, and the next context starts
    exactly behind it. *)
Theorem gptp_next_context (opts : GptpDecoderOptions) (ctx next : DecodeContext) (h : GptpHeader) :
  validate_length opts = true -> decode_impl opts ctx = Done (h, next) ->
  header_size h <= message_length h <= data_size ctx /\
  data next = drop (Z.to_nat (message_length h)) (data ctx) /\
  original_offset next = original_offset ctx + message_length h.
Proof.
  intros Hv H. destruct (decode_impl_accepted _ _ _ _ H) as [[_ Ha] ->]. specialize (Ha Hv).
  unfold header_size. rewrite sub_context_in by lia. auto.
Qed.

(** A Follow_Up of 75 bytes: a header, a timestamp and an extension of 27 bytes. *)
Definition sample_follow_up : list byte :=
  [x18; x02; x00; x4b] ++ replicate 30 x00 ++ replicate 10 x00 ++ [x00; x03; x00; x1b] ++ replicate 27 x00.

Example sample_follow_up_undef : decode_impl Options_default (context_of sample_follow_up) = Undef.
Proof. vm_compute. reflexivity. Qed.

(** A Sync without padding. *)
Definition sample_sync : list byte := [x10; x02; x00; x2c] ++ replicate 30 x00 ++ replicate 10 x00.

Lemma gptp_next_context_witness :
  let ctx := context_of sample_sync in
  exists h next, decode_impl Options_default ctx = Done (h, next) /\
  (header_size h <= message_length h <= data_size ctx /\
   data next = drop (Z.to_nat (message_length h)) (data ctx) /\
   original_offset next = original_offset ctx + message_length h).
Proof.
  intros ctx.
  set (r := decode_impl Options_default ctx).
  assert (Hr : exists hn, r = Done hn) by (vm_compute; eauto). destruct Hr as [[h next] Hr].
  exists h, next. split; [exact Hr|].
  apply (gptp_next_context Options_default ctx next h); [reflexivity | exact Hr].
Defined.

(** ** The header layout *)

Definition encode_flags (f : GptpFlags) : list byte :=
  [to_byte (flags_to_bytes f).1; to_byte (flags_to_bytes f).2].

Definition encode_header (h : GptpHeader) : list byte :=
  to_byte (transport_specific h * 16 + message_type h) ::
  to_byte (minor_version_ptp h * 16 + version_ptp h) ::
  write_be16 (message_length h) ++ to_byte (domain_number h) :: to_byte (minor_sdo_id h) ::
  encode_flags (flags h) ++ write_be64 (uint 64 (correction_field h)) ++
  write_be32 (message_type_specific h) ++ clock_identity (source_port_identity h) ++
  write_be16 (port_number (source_port_identity h)) ++ write_be16 (sequence_id h) ++
  [to_byte (control_field h); to_byte (uint 8 (log_message_interval h))].

Record wf_header (h : GptpHeader) : Prop := {
  wf_transport : fits 4 (transport_specific h);
  wf_type : fits 4 (message_type h);
  wf_version : fits 4 (version_ptp h);
  wf_minor : fits 4 (minor_version_ptp h);
  wf_length : fits 16 (message_length h);
  wf_domain : fits 8 (domain_number h);
  wf_sdo : fits 8 (minor_sdo_id h);
  wf_flags : fl_reserved (flags h) = false;
  wf_correction : fits_signed 64 (correction_field h);
  wf_specific : fits 32 (message_type_specific h);
  wf_clock : length (clock_identity (source_port_identity h)) = 8%nat;
  wf_port : fits 16 (port_number (source_port_identity h));
  wf_sequence : fits 16 (sequence_id h);
  wf_control : fits 8 (control_field h);
  wf_interval : fits_signed 8 (log_message_interval h);
  wf_body : body h = None
}.

Lemma flags_round_trip f :
  fl_reserved f = false -> flags_from_raw (be16 (to_byte (flags_to_bytes f).1) (to_byte (flags_to_bytes f).2)) = f.
Proof.
  destruct f as [a b c d e r g h i j k l]. cbn. intros ->.
  destruct a, b, c, d, e, g, h, i, j, k, l; vm_compute; reflexivity.
Qed.

Lemma nibbles a b :
  fits 4 a -> fits 4 b ->
  Z.land (Z.shiftr (u8 (to_byte (a * 16 + b))) 4) 15 = a /\ Z.land (u8 (to_byte (a * 16 + b))) 15 = b.
Proof. unfold fits. intros. rewrite u8_to_byte. bits_arith. lia. Qed.

(** The gPTP header round trips: on the layout of any header with fields in
    their widths, signed and unsigned, followed by any bytes, [parse_header]
    returns that header. *)
Theorem gptp_header_round_trip (h : GptpHeader) (payload : list byte) :
  wf_header h -> parse_header (encode_header h ++ payload) = Done (Some h).
Proof.
  intros [Htr Hty Hve Hmi Hle Hdo Hsd Hfl Hco Hsp Hcl Hpo Hse Hct Hin Hbo].
  destruct h as [tr ty ve mi le dm sd fl co sp [cl po] se ct iv bd]. cbn in *. subst bd.
  destruct (nibbles _ _ Htr Hty) as [E1 E2]. destruct (nibbles _ _ Hmi Hve) as [E3 E4].
  pose proof (flags_round_trip fl Hfl) as Ef.
  assert (Hc64 : fits 64 (uint 64 co)) by (apply uint_fits; lia).
  match goal with |- parse_header ?x = _ => set (d := x) end.
  destruct_list cl Hcl.
  assert (Hd : d = to_byte (tr * 16 + ty) :: to_byte (mi * 16 + ve) :: write_be16 le ++ to_byte dm :: to_byte sd ::
    encode_flags fl ++ write_be64 (uint 64 co) ++ write_be32 sp ++ [b; b0; b1; b2; b3; b4; b5; b6] ++
    write_be16 po ++ write_be16 se ++ to_byte ct :: to_byte (uint 8 iv) :: payload).
  { unfold d, encode_header. cbn. reflexivity. }
  clearbody d.
  unfold parse_header, COMMON_HEADER_SIZE.
  rewrite (proj2 (Z.ltb_ge _ _)) by (rewrite Hd; cbn [length app write_be16 write_be32 write_be64 encode_flags]; lia).
  erewrite (byte_at_drop d 0), bind_Done by (first [lia | rewrite Hd; reflexivity]).
  erewrite (byte_at_drop d 1), bind_Done by (first [lia | rewrite Hd; reflexivity]).
  erewrite (be16_at_drop d 2 le), bind_Done by (first [lia | rewrite Hd; reflexivity | assumption]).
  erewrite (byte_at_drop d 4), bind_Done by (first [lia | rewrite Hd; reflexivity]).
  erewrite (byte_at_drop d 5), bind_Done by (first [lia | rewrite Hd; reflexivity]).
  erewrite (be16_at_drop d 6 (be16 (to_byte (flags_to_bytes fl).1) (to_byte (flags_to_bytes fl).2))), bind_Done
    by (first [lia | rewrite Hd, write_be16_be16; reflexivity | apply be16_fits]).
  erewrite (read_be64_drop d 8), bind_Done by (first [lia | rewrite Hd; reflexivity | assumption]).
  erewrite (be32_at_drop d 16 sp), bind_Done by (first [lia | rewrite Hd; reflexivity | assumption]).
  unfold read_port_identity, read_clock_identity.
  rewrite subspan_count_in
    by (first [lia | rewrite Hd; cbn [length app write_be16 write_be32 write_be64 encode_flags]; lia]).
  rewrite bind_Done.
  erewrite (be16_at_drop d (20 + 8) po), bind_Done by (first [lia | rewrite Hd; reflexivity | assumption]).
  rewrite bind_Done.
  erewrite (be16_at_drop d 30 se), bind_Done by (first [lia | rewrite Hd; reflexivity | assumption]).
  erewrite (byte_at_drop d 32), bind_Done by (first [lia | rewrite Hd; reflexivity]).
  erewrite (byte_at_drop d 33), bind_Done by (first [lia | rewrite Hd; reflexivity]).
  rewrite E1, E2, E3, E4, Ef. rewrite !u8_to_byte, !(Z.mod_small _ 256) by assumption.
  rewrite sint_uint by (lia || assumption).
  replace (sint 8 (uint 8 iv `mod` 256)) with iv.
  - replace (take (Z.to_nat 8) (drop (Z.to_nat 20) d)) with [b; b0; b1; b2; b3; b4; b5; b6]; [reflexivity|].
    rewrite Hd. reflexivity.
  - rewrite Z.mod_small by (apply (uint_fits 8); lia). symmetry. apply sint_uint; [lia | assumption].
Qed.

Lemma gptp_header_round_trip_witness :
  let h := mkGptpHeader 1 Sync 2 1 44 0 0 (flags_from_bytes 0x02 0x08) (-65536) 0
             (mkPortIdentity [x00; x11; x22; xff; xfe; x33; x44; x55] 1) 7 0 (-3) None in
  parse_header (encode_header h ++ [xaa]) = Done (Some h).
Proof.
  intros h. apply gptp_header_round_trip.
  split; first [reflexivity | vm_compute; split; [discriminate | reflexivity] | vm_compute; split; reflexivity].
Defined.

(** ** Peer delay *)

(** The time a timestamp stands for, in nanoseconds. *)
Definition total_ns (t : GptpTimestamp) : Z :=
  (seconds_msb t * 2 ^ 32 + seconds_lsb t) * 1000000000 + nanoseconds t.

(** Timestamps with fields in their widths and a time below 2^63 ns (292 years). *)
Definition wf_timestamp (t : GptpTimestamp) : Prop :=
  fits 16 (seconds_msb t) /\ fits 32 (seconds_lsb t) /\ fits 32 (nanoseconds t) /\ total_ns t < 2 ^ 63.

Lemma to_nanoseconds_exact t : wf_timestamp t -> sint 64 (to_nanoseconds t) = total_ns t.
Proof.
  unfold wf_timestamp, total_ns, to_nanoseconds, seconds. intros (Hm & Hl & Hn & Ht).
  rewrite lor_shiftl_add by (lia || exact Hl). unfold fits in *.
  set (s := seconds_msb t * 2 ^ 32 + seconds_lsb t) in *. assert (0 <= s) by (unfold s; lia). clearbody s.
  rewrite (uint_small 64 (s * 1000000000)), uint_small by (unfold fits; lia).
  unfold sint. rewrite uint_small by (unfold fits; lia).
  rewrite (proj2 (Z.ltb_lt _ _)); [reflexivity | change (2 ^ (64 - 1)) with (2 ^ 63); lia].
Qed.

Lemma ts_sub_exact a b :
  wf_timestamp a -> wf_timestamp b -> ts_sub a b = Done (total_ns a - total_ns b).
Proof.
  intros Ha Hb. unfold ts_sub. rewrite !to_nanoseconds_exact by assumption.
  assert (H0 : forall t, wf_timestamp t -> 0 <= total_ns t < 2 ^ 63).
  { intros t (Hm & Hl & Hn & Ht). unfold total_ns, fits in *. lia. }
  pose proof (H0 a Ha). pose proof (H0 b Hb). unfold sub64.
  rewrite (proj2 (Z.leb_le _ _)), (proj2 (Z.ltb_lt _ _)) by lia. reflexivity.
Qed.

(** The peer delay measurement is right: when the request leaves at [t1] on
    the local clock and arrives at [t2] on the peer's, whose offset to the local
    one is any [offset], and the response leaves at [t3] on the peer's clock and
    arrives at [t4] on the local one, with the same link delay both ways, the
    computed value is that delay, whatever the offset and the turnaround time, and
    no subtraction overflows. *)
Theorem gptp_peer_delay_correct (t1 t2 t3 t4 : GptpTimestamp) (delay offset : Z) :
  wf_timestamp t1 -> wf_timestamp t2 -> wf_timestamp t3 -> wf_timestamp t4 ->
  total_ns t2 = total_ns t1 + delay + offset -> total_ns t4 = total_ns t3 - offset + delay ->
  0 <= delay < 2 ^ 62 ->
  calculate_peer_delay t1 t2 t3 t4 = Done delay.
Proof.
  intros H1 H2 H3 H4 Hreq Hresp Hd. unfold calculate_peer_delay.
  rewrite !ts_sub_exact, !bind_Done by assumption.
  replace (total_ns t4 - total_ns t1) with (2 * delay + (total_ns t3 - total_ns t2)) by lia.
  unfold sub64. replace (2 * delay + (total_ns t3 - total_ns t2) - (total_ns t3 - total_ns t2)) with (2 * delay) by lia.
  rewrite (proj2 (Z.leb_le _ _)), (proj2 (Z.ltb_lt _ _)) by lia. cbn [andb]. rewrite bind_Done.
  f_equal. rewrite Z.quot_div_nonneg by lia. lia.
Qed.

Lemma gptp_peer_delay_correct_witness :
  calculate_peer_delay (GptpTimestamp_of 100 0) (GptpTimestamp_of 105 700) (GptpTimestamp_of 105 9000)
    (GptpTimestamp_of 100 9400) = Done 550.
Proof.
  apply (gptp_peer_delay_correct _ _ _ _ 550 5000000150); [..|lia];
    first [vm_compute; reflexivity | unfold wf_timestamp; split_and!; vm_compute; try reflexivity; split; congruence].
Defined.
