(* ===== verification/Rtps.v ===== *)
(** * RTPS (src/protocols/dds/rtps_decoder.cpp, include/wadjet/protocols/dds/rtps*.hpp)

    The RTPS wire format of DDS: the header, the framing of submessages and
    their bodies, in either byte order.

    A body parser receives a [std::span] into the message.  The model keeps, for
    such a span, the bytes from its pointer to the end of the message ([mem]) and
    its size: a read through [data()] is [Undef] only past the end of the
    message, which is the object the pointer points into. *)

From Stdlib Require Import ZArith Lia.
From Stdlib Require Import Strings.Byte.
From stdpp Require Import base numbers list strings.
From S2P Require Import Prelude ByteOrder Decoder.

(** ** Constants *)

Definition RTPS_HEADER_SIZE : Z := 20.
Definition SUBMESSAGE_HEADER_SIZE : Z := 4.
Definition GUID_SIZE : Z := 16.
Definition GUID_PREFIX_SIZE : Z := 12.
Definition LOCATOR_SIZE : Z := 24.
Definition RTPS_PORT_BASE : Z := 7400.
Definition RTPS_PORT_DOMAIN_GAIN : Z := 250.
Definition RTPS_DISCOVERY_MULTICAST_PORT_OFFSET : Z := 0.
Definition RTPS_DISCOVERY_UNICAST_PORT_OFFSET : Z := 10.

(** [SubmessageKind] *)
Definition PAD : Z := 0x01.
Definition ACKNACK : Z := 0x06.
Definition HEARTBEAT : Z := 0x07.
Definition GAP : Z := 0x08.
Definition INFO_TS : Z := 0x09.
Definition INFO_SRC : Z := 0x0C.
Definition INFO_REPLY_IP4 : Z := 0x0D.
Definition INFO_DST : Z := 0x0E.
Definition INFO_REPLY : Z := 0x0F.
Definition NACK_FRAG : Z := 0x12.
Definition HEARTBEAT_FRAG : Z := 0x13.
Definition DATA : Z := 0x15.
Definition DATA_FRAG : Z := 0x16.

Definition submessage_kind_string (kind : Z) : string :=
  if kind =? PAD then "PAD"
  else if kind =? ACKNACK then "ACKNACK"
  else if kind =? HEARTBEAT then "HEARTBEAT"
  else if kind =? GAP then "GAP"
  else if kind =? INFO_TS then "INFO_TS"
  else if kind =? INFO_SRC then "INFO_SRC"
  else if kind =? INFO_REPLY_IP4 then "INFO_REPLY_IP4"
  else if kind =? INFO_DST then "INFO_DST"
  else if kind =? INFO_REPLY then "INFO_REPLY"
  else if kind =? NACK_FRAG then "NACK_FRAG"
  else if kind =? HEARTBEAT_FRAG then "HEARTBEAT_FRAG"
  else if kind =? DATA then "DATA"
  else if kind =? DATA_FRAG then "DATA_FRAG"
  else "UNKNOWN".

Definition PID_SENTINEL : Z := 0x0001.

(** ** Reads with a byte order *)

(** The reads at a pointer into the message. *)
Definition le16_at (d : list byte) (i : Z) : decoded Z :=
  b0 ← byte_at d i; b1 ← byte_at d (i + 1);
  Done (uint 16 (Z.lor b0 (Z.shiftl b1 8))).
Definition le32_at (d : list byte) (i : Z) : decoded Z :=
  b0 ← byte_at d i; b1 ← byte_at d (i + 1); b2 ← byte_at d (i + 2); b3 ← byte_at d (i + 3);
  Done (Z.lor (Z.lor (Z.lor b0 (Z.shiftl b1 8)) (Z.shiftl b2 16)) (Z.shiftl b3 24)).

Definition read_u16 (d : list byte) (i : Z) (little_endian : bool) : decoded Z :=
  if little_endian then le16_at d i else be16_at d i.
Definition read_u32 (d : list byte) (i : Z) (little_endian : bool) : decoded Z :=
  if little_endian then le32_at d i else be32_at d i.
Definition read_i32 (d : list byte) (i : Z) (little_endian : bool) : decoded Z :=
  v ← read_u32 d i little_endian; Done (sint 32 v).

(** ** Data *)

Record ProtocolVersion := mkProtocolVersion { major : Z; minor : Z }.
(** [VendorIdValue] and [GuidPrefix] are byte arrays. *)
Abbreviation VendorIdValue := (list byte).
Abbreviation GuidPrefix := (list byte).
Record EntityId := mkEntityId { entity_key : list byte; kind : Z }.
Record GUID := mkGUID { prefix : GuidPrefix; entity_id : EntityId }.
Record SequenceNumber := mkSequenceNumber { high : Z; low : Z }.
Record Locator := mkLocator { loc_kind : Z; loc_port : Z; loc_address : list byte }.
Record Time := mkTime { time_seconds : Z; fraction : Z }.
Record SequenceNumberSet := mkSequenceNumberSet { base : SequenceNumber; num_bits : Z; bitmap : list Z }.

Definition is_builtin (e : EntityId) : bool := Z.land (kind e) 0xC0 =? 0xC0.
Definition EntityId_participant : EntityId := mkEntityId [x00; x00; x01] 0xC1.

(** [SequenceNumber::value()]. *)
Definition sn_value (sn : SequenceNumber) : Z := Z.lor (Z.shiftl (high sn) 32) (low sn).
Definition sn_zero : SequenceNumber := mkSequenceNumber 0 0.

(** [bitmap[word] & (1u << (31 - bit))]. *)
Definition bitmap_bit (words : list Z) (i : Z) : bool :=
  match words !! Z.to_nat (i / 32) with
  | Some w => negb (Z.land w (Z.shiftl 1 (31 - i mod 32)) =? 0)
  | None => false
  end.

Definition contains (s : SequenceNumberSet) (sn : SequenceNumber) : decoded bool :=
  offset ← sub64 (sn_value sn) (sn_value (base s));
  Done (if (offset <? 0) || (num_bits s <=? offset) then false else bitmap_bit (bitmap s) offset).

(** The loop of [SequenceNumberSet::count()] over the first [n] bits. *)
Fixpoint count_bits (words : list Z) (n : nat) : Z :=
  match n with
  | O => 0
  | S n' => count_bits words n' + (if bitmap_bit words (Z.of_nat n') then 1 else 0)
  end.
Definition count (s : SequenceNumberSet) : Z := count_bits (bitmap s) (Z.to_nat (num_bits s)).

(** ** Submessage bodies *)

Record DataSubmessage := mkDataSubmessage {
  extra_flags : Z;
  octets_to_inline_qos : Z;
  d_reader_id : EntityId;
  d_writer_id : EntityId;
  writer_sn : SequenceNumber;
  d_flags : Z;
  inline_qos : list byte;
  serialized_payload : list byte
}.

(** [std::variant] of the bodies.  The flag structures of the bodies are decoded
    from the flags byte, which each body keeps here as it is ([flag_bit]). *)
Inductive SubmessageBody :=
| Unparsed
| DataBody (m : DataSubmessage)
| HeartbeatBody (reader_id writer_id : EntityId) (first_sn last_sn : SequenceNumber) (count : Z) (flags : Z)
| AckNackBody (reader_id writer_id : EntityId) (reader_sn_state : SequenceNumberSet) (count : Z) (flags : Z)
| GapBody (reader_id writer_id : EntityId) (gap_start : SequenceNumber) (gap_list : SequenceNumberSet)
| InfoTimestampBody (timestamp : option Time) (flags : Z)
| InfoSourceBody (unused : Z) (version : ProtocolVersion) (vendor_id : VendorIdValue) (guid_prefix : GuidPrefix)
| InfoDestinationBody (guid_prefix : GuidPrefix)
| InfoReplyBody (unicast multicast : list Locator) (flags : Z)
| PadBody.

(** A flag of the flags byte: [DataFlags], [HeartbeatFlags], [AckNackFlags],
    [InfoTimestampFlags] and [InfoReplyFlags] ([from_byte]). *)
Definition flag_bit (flags mask : Z) : bool := negb (Z.land flags mask =? 0).
Definition is_little_endian (flags : Z) : bool := flag_bit flags 0x01.
Definition has_inline_qos (flags : Z) : bool := flag_bit flags 0x02.
Definition has_data (flags : Z) : bool := flag_bit flags 0x04.
Definition has_key (flags : Z) : bool := flag_bit flags 0x08.

Record Submessage := mkSubmessage {
  sub_kind : Z;
  sub_flags : Z;
  sub_length : Z;
  sub_body : SubmessageBody;
  raw_data : list byte
}.

Record RtpsHeader := mkRtpsHeader {
  version : ProtocolVersion;
  vendor_id : VendorIdValue;
  guid_prefix : GuidPrefix;
  submessages : list Submessage
}.

Definition header_size (h : RtpsHeader) : Z := RTPS_HEADER_SIZE.
Definition total_size (s : Submessage) : Z := SUBMESSAGE_HEADER_SIZE + sub_length s.
Definition payload_size (h : RtpsHeader) : Z :=
  foldr (fun s total => total_size s + total) 0 (submessages h).

(** ** Composite reads *)

Definition read_guid_prefix (d : list byte) (i : Z) : decoded GuidPrefix :=
  subspan_count d i GUID_PREFIX_SIZE.
Definition read_entity_id (d : list byte) (i : Z) : decoded EntityId :=
  key ← subspan_count d i 3; k ← byte_at d (i + 3); Done (mkEntityId key k).
Definition read_guid (d : list byte) (i : Z) : decoded GUID :=
  p ← read_guid_prefix d i; e ← read_entity_id d (i + GUID_PREFIX_SIZE); Done (mkGUID p e).
Definition read_sequence_number (d : list byte) (i : Z) (le : bool) : decoded SequenceNumber :=
  h ← read_i32 d i le; l ← read_u32 d (i + 4) le; Done (mkSequenceNumber h l).
Definition read_time (d : list byte) (i : Z) (le : bool) : decoded Time :=
  s ← read_i32 d i le; f ← read_u32 d (i + 4) le; Done (mkTime s f).
Definition read_vendor_id (d : list byte) (i : Z) : decoded VendorIdValue := subspan_count d i 2.
Definition read_protocol_version (d : list byte) (i : Z) : decoded ProtocolVersion :=
  a ← byte_at d i; b ← byte_at d (i + 1); Done (mkProtocolVersion a b).
Definition read_locator (d : list byte) (i : Z) (le : bool) : decoded Locator :=
  k ← read_i32 d i le; p ← read_u32 d (i + 4) le; a ← subspan_count d (i + 8) 16;
  Done (mkLocator k p a).

(** [(num_bits + 31) / 32], in [std::uint32_t]. *)
Definition num_words (num_bits : Z) : Z := uint 32 (num_bits + 31) / 32.

Fixpoint read_words (n : nat) (d : list byte) (i : Z) (le : bool) : decoded (list Z) :=
  match n with
  | O => Done []
  | S n' => w ← read_u32 d i le; rest ← read_words n' d (i + 4) le; Done (w :: rest)
  end.

Definition read_sequence_number_set (d : list byte) (i available_len : Z) (le : bool)
    : decoded SequenceNumberSet :=
  if available_len <? 12 then Done (mkSequenceNumberSet sn_zero 0 [])
  else
    b ← read_sequence_number d i le;
    n ← read_u32 d (i + 8) le;
    words ← (if 12 + num_words n * 4 <=? available_len
             then read_words (Z.to_nat (num_words n)) d (i + 12) le else Done []);
    Done (mkSequenceNumberSet b n words).

(** [((param_len + 3) / 4) * 4]. *)
Definition aligned (param_len : Z) : Z := (param_len + 3) / 4 * 4.

(** The loop that looks for the end of the inline QoS, on the part [q] of
    [qos_data] from [qos_offset] on: how far [qos_offset] still advances, which
    may be past the end of [q]. *)
Fixpoint qos_walk (fuel : nat) (q : list byte) (le : bool) : decoded Z :=
  match fuel with
  | O => Done 0
  | S fuel' =>
      if 4 <=? zlen q then
        param_id ← read_u16 q 0 le;
        param_len ← read_u16 q 2 le;
        let step := 4 + aligned param_len in
        if param_id =? PID_SENTINEL then Done step
        else n ← qos_walk fuel' (drop (Z.to_nat step) q) le; Done (step + n)
      else Done 0
  end.

(** The loops over a locator list from index [i] of [n]: the locators and the
    offset after them.  Each turn needs 24 bytes, so [size] bounds the turns. *)
Fixpoint read_locators (fuel : nat) (d : list byte) (i n offset size : Z) (le : bool)
    : decoded (list Locator * Z) :=
  match fuel with
  | O => Done ([], offset)
  | S fuel' =>
      if (i <? n) && (offset + LOCATOR_SIZE <=? size) then
        l ← read_locator d offset le;
        r ← read_locators fuel' d (i + 1) n (offset + LOCATOR_SIZE) size le;
        Done (l :: r.1, r.2)
      else Done ([], offset)
  end.

(** ** The decoder *)

Definition looks_like_rtps (d : list byte) : bool :=
  if zlen d <? RTPS_HEADER_SIZE then false
  else match d with
       | r :: t :: p :: s :: _ => (u8 r =? 0x52) && (u8 t =? 0x54) && (u8 p =? 0x50) && (u8 s =? 0x53)
       | _ => false
       end.

(** The cases of [parse_submessage_body] that have helper loops, one definition each. *)
Definition parse_data (flags : Z) (mem : list byte) (size : Z) : decoded SubmessageBody :=
  let le := is_little_endian flags in
  if size <? 20 then Done Unparsed
  else
    ef ← read_u16 mem 0 le;
    oq ← read_u16 mem 2 le;
    rid ← read_entity_id mem 4;
    wid ← read_entity_id mem 8;
    sn ← read_sequence_number mem 12 le;
    qos ← (if has_inline_qos flags && (20 <? size) then
             qos_data ← subspan_count mem 20 (size - 20);
             n ← qos_walk (length qos_data) qos_data le;
             subspan_count mem 20 n
           else Done []);
    let payload_offset := 20 + zlen qos in
    payload ← (if (has_data flags || has_key flags) && (payload_offset <? size)
               then subspan_count mem payload_offset (size - payload_offset) else Done []);
    Done (DataBody (mkDataSubmessage ef oq rid wid sn flags qos payload)).

Definition parse_info_reply (flags : Z) (mem : list byte) (size : Z) : decoded SubmessageBody :=
  let le := is_little_endian flags in
  u ← (if 4 <=? size then
         n ← read_u32 mem 0 le;
         read_locators (Z.to_nat size) mem 0 n 4 size le
       else Done ([], 0));
  m ← (if flag_bit flags 0x02 && (u.2 + 4 <=? size) then
         n ← read_u32 mem u.2 le;
         r ← read_locators (Z.to_nat size) mem 0 n (u.2 + 4) size le;
         Done r.1
       else Done []);
  Done (InfoReplyBody u.1 m flags).

Definition parse_acknack (flags : Z) (mem : list byte) (size : Z) : decoded SubmessageBody :=
  let le := is_little_endian flags in
  if size <? 24 then Done Unparsed
  else
    rid ← read_entity_id mem 0;
    wid ← read_entity_id mem 4;
    s ← read_sequence_number_set mem 8 (size - 8) le;
    let count_offset := 8 + 12 + num_words (num_bits s) * 4 in
    c ← (if count_offset + 4 <=? size then read_i32 mem count_offset le else Done 0);
    Done (AckNackBody rid wid s c flags).

Definition parse_submessage_body (kind flags : Z) (mem : list byte) (size : Z) : decoded SubmessageBody :=
  let le := is_little_endian flags in
  if kind =? PAD then Done PadBody
  else if kind =? DATA then parse_data flags mem size
  else if kind =? HEARTBEAT then
    if size <? 28 then Done Unparsed
    else
      rid ← read_entity_id mem 0;
      wid ← read_entity_id mem 4;
      first ← read_sequence_number mem 8 le;
      last ← read_sequence_number mem 16 le;
      c ← read_i32 mem 24 le;
      Done (HeartbeatBody rid wid first last c flags)
  else if kind =? ACKNACK then parse_acknack flags mem size
  else if kind =? GAP then
    if size <? 24 then Done Unparsed
    else
      rid ← read_entity_id mem 0;
      wid ← read_entity_id mem 4;
      start ← read_sequence_number mem 8 le;
      gaps ← read_sequence_number_set mem 16 (size - 16) le;
      Done (GapBody rid wid start gaps)
  else if kind =? INFO_TS then
    ts ← (if negb (flag_bit flags 0x02) && (8 <=? size)
          then t ← read_time mem 0 le; Done (Some t) else Done None);
    Done (InfoTimestampBody ts flags)
  else if kind =? INFO_SRC then
    if size <? 20 then Done Unparsed
    else
      unused ← read_u32 mem 0 le;
      v ← read_protocol_version mem 4;
      vendor ← read_vendor_id mem 6;
      p ← read_guid_prefix mem 8;
      Done (InfoSourceBody unused v vendor p)
  else if kind =? INFO_DST then
    if size <? 12 then Done Unparsed
    else p ← read_guid_prefix mem 0; Done (InfoDestinationBody p)
  else if kind =? INFO_REPLY then parse_info_reply flags mem size
  else Done Unparsed.

(** The loop of [parse_submessages] on the bytes from [offset] on. *)
Fixpoint submessages_loop (fuel : nat) (d : list byte) : decoded (list Submessage) :=
  match fuel with
  | O => Done []
  | S fuel' =>
      if SUBMESSAGE_HEADER_SIZE <=? zlen d then
        kind ← byte_at d 0;
        flags ← byte_at d 1;
        len ← read_u16 d 2 (is_little_endian flags);
        let submsg_size := if len =? 0 then zlen d else SUBMESSAGE_HEADER_SIZE + len in
        if zlen d <? submsg_size then Done []
        else
          raw ← subspan_count d 0 submsg_size;
          body ← (if (0 <? len) || ((len =? 0) && (SUBMESSAGE_HEADER_SIZE <? submsg_size)) then
                    let body_size := if 0 <? len then len else submsg_size - SUBMESSAGE_HEADER_SIZE in
                    parse_submessage_body kind flags (drop 4 d) body_size
                  else Done Unparsed);
          let submsg := mkSubmessage kind flags len body raw in
          if len =? 0 then Done [submsg]
          else rest ← submessages_loop fuel' (drop (Z.to_nat submsg_size) d); Done (submsg :: rest)
      else Done []
  end.

Definition parse_submessages (d : list byte) : decoded (list Submessage) :=
  submessages_loop (length d) d.

Definition decode (d : list byte) : decoded RtpsHeader :=
  if zlen d <? RTPS_HEADER_SIZE
  then make_error BufferTooSmall "Insufficient data for RTPS header" 0
  else if negb (looks_like_rtps d) then make_error InvalidHeader "Invalid RTPS magic bytes" 0
  else
    v ← read_protocol_version d 4;
    if negb (major v =? 2) then make_error InvalidVersion "Unsupported RTPS protocol version" 4
    else
      vendor ← read_vendor_id d 6;
      p ← read_guid_prefix d 8;
      subs ← (if RTPS_HEADER_SIZE <? zlen d
              then rest ← subspan d RTPS_HEADER_SIZE; parse_submessages rest else Done []);
      Done (mkRtpsHeader v vendor p subs).

Definition can_decode (ctx : DecodeContext) : bool := looks_like_rtps (data ctx).

(** [RtpsHeader::is_discovery()] and [count_submessages()]. *)
Definition is_discovery (h : RtpsHeader) : bool :=
  existsb (fun s => match sub_body s with DataBody m => is_builtin (d_writer_id m) | _ => false end)
          (submessages h).
Definition count_submessages (h : RtpsHeader) (k : Z) : Z :=
  zlen (List.filter (fun s => sub_kind s =? k) (submessages h)).

(** [is_likely_rtps_port]. *)
Definition is_likely_rtps_port (port : Z) : bool :=
  if port =? 13400 then false
  else if port <? RTPS_PORT_BASE then false
  else if RTPS_PORT_BASE + RTPS_PORT_DOMAIN_GAIN * 230 + 20 <? port then false
  else
    let offset := (port - RTPS_PORT_BASE) mod RTPS_PORT_DOMAIN_GAIN in
    (offset =? RTPS_DISCOVERY_MULTICAST_PORT_OFFSET) || (RTPS_DISCOVERY_UNICAST_PORT_OFFSET <=? offset).

(** ** The wire layout *)

Definition write_u16 (le : bool) (v : Z) : list byte := if le then write_le16 v else write_be16 v.
Definition write_u32 (le : bool) (v : Z) : list byte := if le then write_le32 v else write_be32 v.
Definition write_i32 (le : bool) (v : Z) : list byte := write_u32 le (uint 32 v).

Definition encode_entity (e : EntityId) : list byte := entity_key e ++ [to_byte (kind e)].
Definition encode_sn (le : bool) (sn : SequenceNumber) : list byte :=
  write_i32 le (high sn) ++ write_u32 le (low sn).
Definition encode_time (le : bool) (t : Time) : list byte :=
  write_i32 le (time_seconds t) ++ write_u32 le (fraction t).
Definition encode_locator (le : bool) (l : Locator) : list byte :=
  write_i32 le (loc_kind l) ++ write_u32 le (loc_port l) ++ loc_address l.
Definition encode_words (le : bool) (ws : list Z) : list byte := concat (write_u32 le <$> ws).
Definition encode_sn_set (le : bool) (s : SequenceNumberSet) : list byte :=
  encode_sn le (base s) ++ write_u32 le (num_bits s) ++ encode_words le (bitmap s).

Record wf_entity (e : EntityId) : Prop := {
  wf_key : length (entity_key e) = 3%nat;
  wf_kind : fits 8 (kind e)
}.
Record wf_sn (sn : SequenceNumber) : Prop := {
  wf_high : fits_signed 32 (high sn);
  wf_low : fits 32 (low sn)
}.
Record wf_time (t : Time) : Prop := {
  wf_seconds : fits_signed 32 (time_seconds t);
  wf_fraction : fits 32 (fraction t)
}.
Record wf_locator (l : Locator) : Prop := {
  wf_loc_kind : fits_signed 32 (loc_kind l);
  wf_loc_port : fits 32 (loc_port l);
  wf_loc_address : length (loc_address l) = 16%nat
}.
Record wf_sn_set (s : SequenceNumberSet) : Prop := {
  wf_base : wf_sn (base s);
  wf_num_bits : 0 <= num_bits s <= 2 ^ 32 - 32;
  wf_bitmap : zlen (bitmap s) = num_words (num_bits s);
  wf_words : Forall (fits 32) (bitmap s)
}.

(** ** Reading a layout back *)

Section reads.
Context (d : list byte) (i : Z) (Hi : 0 <= i) (le : bool).
Implicit Types post : list byte.

Lemma le16_at_drop v post :
  drop (Z.to_nat i) d = write_le16 v ++ post -> fits 16 v -> le16_at d i = Done v.
Proof using Hi.
  intros Hd Hv. unfold le16_at.
  rewrite (byte_at_drop d i _ _ Hi Hd), bind_Done.
  erewrite (byte_at_drop d (i + 1)), bind_Done
    by (first [lia | rewrite <- (drop_drop_Z _ 1 i), Hd by lia; reflexivity]).
  rewrite Z.lor_comm, be16_lor, uint_small by apply be16_fits. f_equal.
  pose proof (read_write_le16 v [] Hv) as Hr. unfold write_le16 in Hr. cbn [app] in Hr.
  rewrite read_le16_swap in Hr. congruence.
Qed.

Lemma le32_at_drop v post :
  drop (Z.to_nat i) d = write_le32 v ++ post -> fits 32 v -> le32_at d i = Done v.
Proof using Hi.
  intros Hd Hv. unfold le32_at.
  assert (Hk : forall k, 0 <= k -> drop (Z.to_nat (i + k)) d = drop (Z.to_nat k) (write_le32 v ++ post)).
  { intros k Hk. rewrite <- Hd, drop_drop_Z by assumption. reflexivity. }
  rewrite (byte_at_drop d i _ _ Hi Hd), bind_Done.
  erewrite (byte_at_drop d (i + 1)), bind_Done by (first [lia | rewrite Hk by lia; reflexivity]).
  erewrite (byte_at_drop d (i + 2)), bind_Done by (first [lia | rewrite Hk by lia; reflexivity]).
  erewrite (byte_at_drop d (i + 3)), bind_Done by (first [lia | rewrite Hk by lia; reflexivity]).
  f_equal. pose proof (read_write_le32 v [] Hv) as Hr. unfold write_le32 in Hr. cbn [app read_le32] in Hr.
  congruence.
Qed.

Lemma read_u16_drop v post :
  drop (Z.to_nat i) d = write_u16 le v ++ post -> fits 16 v -> read_u16 d i le = Done v.
Proof using Hi.
  unfold read_u16, write_u16. destruct le; intros; [eapply le16_at_drop | eapply be16_at_drop]; eassumption.
Qed.

Lemma read_u32_drop v post :
  drop (Z.to_nat i) d = write_u32 le v ++ post -> fits 32 v -> read_u32 d i le = Done v.
Proof using Hi.
  unfold read_u32, write_u32. destruct le; intros; [eapply le32_at_drop | eapply be32_at_drop]; eassumption.
Qed.

Lemma read_i32_drop v post :
  drop (Z.to_nat i) d = write_i32 le v ++ post -> fits_signed 32 v -> read_i32 d i le = Done v.
Proof using Hi.
  intros Hd Hv. unfold read_i32. rewrite (read_u32_drop _ _ Hd) by (apply uint_fits; lia).
  rewrite bind_Done, sint_uint by (lia || assumption). reflexivity.
Qed.

Lemma subspan_count_front bs post n :
  drop (Z.to_nat i) d = bs ++ post -> bs <> [] -> n = zlen bs ->
  subspan_count (E:=DecodeError) d i n = Done bs.
Proof using Hi.
  intros Hd Hne ->. pose proof (drop_length_ge _ _ _ _ Hi Hne Hd).
  rewrite subspan_count_in by lia. rewrite Hd, Nat2Z.id, take_app_length. reflexivity.
Qed.
End reads.

Lemma drop_skip {A} (d a r : list A) i j :
  0 <= i -> drop (Z.to_nat i) d = a ++ r -> j = i + zlen a -> drop (Z.to_nat j) d = r.
Proof.
  intros Hi Hd ->. rewrite <- drop_drop_Z, Hd by lia. rewrite Nat2Z.id. apply drop_app_length.
Qed.

Lemma length_write_u16 le v : length (write_u16 le v) = 2%nat.
Proof. destruct le; reflexivity. Qed.
Lemma length_write_u32 le v : length (write_u32 le v) = 4%nat.
Proof. destruct le; reflexivity. Qed.
Lemma length_write_i32 le v : length (write_i32 le v) = 4%nat.
Proof. apply length_write_u32. Qed.
Lemma length_encode_sn le sn : length (encode_sn le sn) = 8%nat.
Proof. unfold encode_sn. rewrite length_app, length_write_i32, length_write_u32. reflexivity. Qed.
Lemma length_encode_time le t : length (encode_time le t) = 8%nat.
Proof. unfold encode_time. rewrite length_app, length_write_i32, length_write_u32. reflexivity. Qed.
Lemma length_encode_entity e : wf_entity e -> length (encode_entity e) = 4%nat.
Proof. intros []. unfold encode_entity. rewrite length_app. cbn. lia. Qed.
Lemma length_encode_locator le l : wf_locator l -> length (encode_locator le l) = 24%nat.
Proof.
  intros []. unfold encode_locator. rewrite !length_app, length_write_i32, length_write_u32. lia.
Qed.
Lemma length_encode_words le ws : length (encode_words le ws) = (4 * length ws)%nat.
Proof.
  unfold encode_words. induction ws as [|w ws IH]; [reflexivity|].
  cbn [fmap list_fmap concat length]. rewrite length_app, length_write_u32, IH. lia.
Qed.

Create Rewrite HintDb rtps_len.
#[export] Hint Rewrite length_write_u16 length_write_u32 length_write_i32 length_encode_sn
  length_encode_time length_encode_words @length_app : rtps_len.
#[export] Hint Rewrite length_encode_entity length_encode_locator using assumption : rtps_len.

Section composite_reads.
Context (d : list byte) (i : Z) (Hi : 0 <= i) (le : bool).
Implicit Types post : list byte.

Lemma read_entity_id_drop e post :
  drop (Z.to_nat i) d = encode_entity e ++ post -> wf_entity e -> read_entity_id d i = Done e.
Proof using Hi.
  intros Hd [Hk Hb]. destruct e as [key k]. cbn in *. unfold read_entity_id.
  unfold encode_entity in Hd. cbn [entity_key kind] in Hd. rewrite <- app_assoc in Hd.
  erewrite subspan_count_front, bind_Done
    by (first [eassumption | lia | intros ->; discriminate Hk]).
  eapply (drop_skip _ _ _ _ (i + 3) Hi) in Hd; [|lia].
  erewrite byte_at_drop, bind_Done by (first [exact Hd | lia]).
  rewrite u8_to_byte, Z.mod_small by exact Hb. reflexivity.
Qed.

Lemma read_sequence_number_drop sn post :
  drop (Z.to_nat i) d = encode_sn le sn ++ post -> wf_sn sn -> read_sequence_number d i le = Done sn.
Proof using Hi.
  intros Hd [Hh Hl]. destruct sn as [h l]. cbn in *. unfold read_sequence_number.
  unfold encode_sn in Hd. cbn [high low] in Hd. rewrite <- app_assoc in Hd.
  erewrite read_i32_drop, bind_Done by eassumption.
  eapply (drop_skip _ _ _ _ (i + 4) Hi) in Hd; [|rewrite length_write_i32; lia].
  erewrite read_u32_drop, bind_Done by (first [eassumption | lia]). reflexivity.
Qed.

Lemma read_time_drop t post :
  drop (Z.to_nat i) d = encode_time le t ++ post -> wf_time t -> read_time d i le = Done t.
Proof using Hi.
  intros Hd [Hh Hl]. destruct t as [h l]. cbn in *. unfold read_time.
  unfold encode_time in Hd. cbn [time_seconds fraction] in Hd. rewrite <- app_assoc in Hd.
  erewrite read_i32_drop, bind_Done by eassumption.
  eapply (drop_skip _ _ _ _ (i + 4) Hi) in Hd; [|rewrite length_write_i32; lia].
  erewrite read_u32_drop, bind_Done by (first [eassumption | lia]). reflexivity.
Qed.

Lemma read_locator_drop l post :
  drop (Z.to_nat i) d = encode_locator le l ++ post -> wf_locator l -> read_locator d i le = Done l.
Proof using Hi.
  intros Hd [Hk Hp Ha]. destruct l as [k p a]. cbn in *. unfold read_locator.
  unfold encode_locator in Hd. cbn [loc_kind loc_port loc_address] in Hd. rewrite <- !app_assoc in Hd.
  erewrite read_i32_drop, bind_Done by eassumption.
  eapply (drop_skip _ _ _ _ (i + 4) Hi) in Hd; [|rewrite length_write_i32; lia].
  erewrite read_u32_drop, bind_Done by (first [eassumption | lia]).
  eapply (drop_skip _ _ _ _ (i + 8)) in Hd; [|lia | rewrite length_write_u32; lia].
  erewrite subspan_count_front, bind_Done
    by (first [eassumption | lia | intros ->; discriminate Ha]). reflexivity.
Qed.
End composite_reads.

Lemma read_words_drop le d i ws post :
  0 <= i -> drop (Z.to_nat i) d = encode_words le ws ++ post -> Forall (fits 32) ws ->
  read_words (length ws) d i le = Done ws.
Proof.
  intros Hi Hd Hws. revert i Hi Hd. induction Hws as [|w ws Hw _ IH]; intros i Hi Hd; [reflexivity|].
  unfold encode_words in Hd. cbn [fmap list_fmap concat] in Hd. rewrite <- app_assoc in Hd.
  cbn [length read_words]. erewrite read_u32_drop, bind_Done by eassumption.
  eapply (drop_skip _ _ _ _ (i + 4) Hi) in Hd; [|rewrite length_write_u32; lia].
  rewrite IH by (first [lia | exact Hd]). reflexivity.
Qed.

Lemma num_words_small n : 0 <= n <= 2 ^ 32 - 32 -> num_words n = (n + 31) / 32.
Proof. intros Hn. unfold num_words. rewrite uint_small by (unfold fits; lia). reflexivity. Qed.

Lemma length_encode_sn_set le s :
  wf_sn_set s -> zlen (encode_sn_set le s) = 12 + num_words (num_bits s) * 4.
Proof.
  intros [_ _ Hb _]. unfold encode_sn_set. autorewrite with rtps_len. lia.
Qed.

Lemma read_sequence_number_set_drop le d i n s post :
  0 <= i -> drop (Z.to_nat i) d = encode_sn_set le s ++ post -> wf_sn_set s ->
  zlen (encode_sn_set le s) <= n ->
  read_sequence_number_set d i n le = Done s.
Proof.
  intros Hi Hd Hwf Hn. pose proof (length_encode_sn_set le s Hwf) as Hl.
  destruct Hwf as [Hb Hnb Hbm Hw]. unfold read_sequence_number_set.
  pose proof (num_words_small _ Hnb) as Hnw.
  assert (0 <= num_words (num_bits s)) by lia.
  rewrite (proj2 (Z.ltb_ge n 12)) by lia.
  unfold encode_sn_set in Hd. rewrite <- !app_assoc in Hd.
  erewrite read_sequence_number_drop, bind_Done by eassumption.
  eapply (drop_skip _ _ _ _ (i + 8) Hi) in Hd; [|rewrite length_encode_sn; lia].
  erewrite read_u32_drop, bind_Done by (first [eassumption | lia | unfold fits; lia]).
  eapply (drop_skip _ _ _ _ (i + 12)) in Hd; [|lia | rewrite length_write_u32; lia].
  rewrite (proj2 (Z.leb_le _ _)) by lia.
  replace (Z.to_nat (num_words (num_bits s))) with (length (bitmap s)) by lia.
  erewrite read_words_drop, bind_Done by (first [eassumption | lia]).
  destruct s. reflexivity.
Qed.

Definition encode_locators (le : bool) (ls : list Locator) : list byte := concat (encode_locator le <$> ls).

Lemma length_encode_locators le ls :
  Forall wf_locator ls -> length (encode_locators le ls) = (24 * length ls)%nat.
Proof.
  unfold encode_locators. induction 1 as [|l ls Hl _ IH]; [reflexivity|].
  cbn [fmap list_fmap concat length]. rewrite length_app, IH, length_encode_locator by assumption. lia.
Qed.

#[export] Hint Rewrite length_encode_locators using assumption : rtps_len.

Lemma read_locators_drop le d ls fuel i n offset size post :
  0 <= offset -> drop (Z.to_nat offset) d = encode_locators le ls ++ post -> Forall wf_locator ls ->
  n = i + zlen ls -> offset + 24 * zlen ls <= size -> (length ls < fuel)%nat ->
  read_locators fuel d i n offset size le = Done (ls, offset + 24 * zlen ls).
Proof.
  intros Ho Hd Hls. revert fuel i offset Ho Hd.
  induction Hls as [|l ls Hl Hls IH]; intros fuel i offset Ho Hd Hn Hs Hf; (destruct fuel; [lia|]);
    cbn [read_locators].
  - rewrite (proj2 (Z.ltb_ge i n)) by (cbn [length] in *; lia). cbn [andb length]. f_equal. f_equal. lia.
  - cbn [length] in *. rewrite (proj2 (Z.ltb_lt i n)), (proj2 (Z.leb_le _ _)) by (unfold LOCATOR_SIZE; lia).
    cbn [andb]. unfold encode_locators in Hd. cbn [fmap list_fmap concat] in Hd. rewrite <- app_assoc in Hd.
    erewrite read_locator_drop, bind_Done by eassumption.
    eapply (drop_skip _ _ _ _ (offset + LOCATOR_SIZE) Ho) in Hd;
      [|rewrite length_encode_locator by assumption; reflexivity].
    unfold LOCATOR_SIZE in *. rewrite (IH fuel (i + 1)) by (first [lia | exact Hd]).
    rewrite bind_Done. cbn [fst snd]. f_equal. f_equal. lia.
Qed.

(** ** Inline QoS *)

(** [qos_extent le q n]: the parameters of [q] up to its sentinel, or as many as
    start in [q], declare that they take [n] bytes. *)
Inductive qos_extent (le : bool) : list byte -> Z -> Prop :=
| ext_short q : zlen q < 4 -> qos_extent le q 0
| ext_sentinel len r :
    fits 16 len -> qos_extent le (write_u16 le PID_SENTINEL ++ write_u16 le len ++ r) (4 + aligned len)
| ext_param id len r n :
    fits 16 id -> fits 16 len -> id <> PID_SENTINEL ->
    qos_extent le (drop (Z.to_nat (aligned len)) r) n ->
    qos_extent le (write_u16 le id ++ write_u16 le len ++ r) (4 + aligned len + n).

Lemma aligned_range len : 0 <= len -> len <= aligned len < len + 4.
Proof. unfold aligned. lia. Qed.

(** Every list starts with two integers of either byte order. *)
Lemma write_u16_surj le b0 b1 : exists v, fits 16 v /\ write_u16 le v = [b0; b1].
Proof.
  destruct le.
  - exists (be16 b1 b0). split; [apply be16_fits|]. unfold write_u16.
    pose proof (write_be16_be16 b1 b0) as H. unfold write_be16, write_le16 in *. congruence.
  - exists (be16 b0 b1). split; [apply be16_fits | apply write_be16_be16].
Qed.

Lemma split_u16_u16 le q :
  4 <= zlen q -> exists a b r, fits 16 a /\ fits 16 b /\ q = write_u16 le a ++ write_u16 le b ++ r.
Proof.
  intros Hq. destruct q as [|b0 [|b1 [|b2 [|b3 r]]]]; cbn [length] in Hq; try lia.
  destruct (write_u16_surj le b0 b1) as (a & Ha & Ea). destruct (write_u16_surj le b2 b3) as (b & Hb & Eb).
  exists a, b, r. rewrite Ea, Eb. auto.
Qed.

Lemma read_u16_u16 le a b r :
  fits 16 a -> fits 16 b ->
  read_u16 (write_u16 le a ++ write_u16 le b ++ r) 0 le = Done a /\
  read_u16 (write_u16 le a ++ write_u16 le b ++ r) 2 le = Done b.
Proof.
  intros Ha Hb. split.
  - eapply read_u16_drop; [lia | reflexivity | assumption].
  - eapply (read_u16_drop _ 2); [lia | | assumption].
    eapply (drop_skip _ _ _ 0); [lia | reflexivity | rewrite length_write_u16; lia].
Qed.

(** The walk stops within [length q] turns and computes the extent. *)
Lemma qos_walk_extent le q n fuel :
  qos_extent le q n -> (length q <= fuel)%nat -> qos_walk fuel q le = Done n.
Proof.
  intros Hq. revert fuel. induction Hq as [q Hs|len r Hl|id len r n Hid Hl Hne Hq IH]; intros fuel Hf;
    (destruct fuel as [|fuel]; [|cbn [qos_walk]]).
  - reflexivity.
  - rewrite (proj2 (Z.leb_gt _ _)) by lia. reflexivity.
  - autorewrite with rtps_len in Hf. lia.
  - destruct (read_u16_u16 le PID_SENTINEL len r) as [R1 R2]; [unfold fits, PID_SENTINEL; lia | assumption |].
    rewrite (proj2 (Z.leb_le _ _)) by (autorewrite with rtps_len; lia).
    rewrite R1, bind_Done, R2, bind_Done. reflexivity.
  - autorewrite with rtps_len in Hf. lia.
  - destruct (read_u16_u16 le id len r) as [R1 R2]; [assumption | assumption |].
    rewrite (proj2 (Z.leb_le _ _)) by (autorewrite with rtps_len; lia).
    rewrite R1, bind_Done, R2, bind_Done, (proj2 (Z.eqb_neq _ _)) by assumption.
    unfold fits in Hl. pose proof (aligned_range len (proj1 Hl)).
    rewrite app_assoc, <- drop_drop_Z with (n := 4) by lia.
    replace (Z.to_nat 4) with (length (write_u16 le id ++ write_u16 le len))
      by (autorewrite with rtps_len; lia).
    rewrite drop_app_length, IH by (rewrite length_drop; autorewrite with rtps_len in Hf; lia).
    reflexivity.
Qed.

Lemma qos_extent_total le q : exists n, qos_extent le q n.
Proof.
  revert q. apply (induction_ltof1 _ (@length byte)). intros q IH. unfold ltof in IH.
  destruct (Z.lt_ge_cases (zlen q) 4) as [Hs|Hs]; [exists 0; constructor; exact Hs|].
  destruct (split_u16_u16 le q Hs) as (id & len & r & Hid & Hl & ->).
  destruct (Z.eq_dec id PID_SENTINEL) as [->|Hne]; [eexists; constructor; assumption|].
  destruct (IH (drop (Z.to_nat (aligned len)) r)) as [n Hn].
  - rewrite length_drop. autorewrite with rtps_len. lia.
  - eexists. constructor; eassumption.
Qed.

Lemma qos_extent_nonneg le q n : qos_extent le q n -> 0 <= n.
Proof. induction 1 as [|len r [Hl _]|id len r n _ [Hl _] _ _ IH]; pose proof (aligned_range 0); try pose proof (aligned_range len Hl); lia. Qed.

(** ** The layout of the bodies *)

Definition kind_of (b : SubmessageBody) : Z :=
  match b with
  | Unparsed => 0
  | DataBody _ => DATA
  | HeartbeatBody _ _ _ _ _ _ => HEARTBEAT
  | AckNackBody _ _ _ _ _ => ACKNACK
  | GapBody _ _ _ _ => GAP
  | InfoTimestampBody _ _ => INFO_TS
  | InfoSourceBody _ _ _ _ => INFO_SRC
  | InfoDestinationBody _ => INFO_DST
  | InfoReplyBody _ _ _ => INFO_REPLY
  | PadBody => PAD
  end.

Definition encode_data (le : bool) (m : DataSubmessage) : list byte :=
  write_u16 le (extra_flags m) ++ write_u16 le (octets_to_inline_qos m) ++
  encode_entity (d_reader_id m) ++ encode_entity (d_writer_id m) ++ encode_sn le (writer_sn m) ++
  inline_qos m ++ serialized_payload m.

Definition encode_body (le : bool) (b : SubmessageBody) : list byte :=
  match b with
  | Unparsed | PadBody => []
  | DataBody m => encode_data le m
  | HeartbeatBody rid wid first last c _ =>
      encode_entity rid ++ encode_entity wid ++ encode_sn le first ++ encode_sn le last ++ write_i32 le c
  | AckNackBody rid wid s c _ =>
      encode_entity rid ++ encode_entity wid ++ encode_sn_set le s ++ write_i32 le c
  | GapBody rid wid start gaps =>
      encode_entity rid ++ encode_entity wid ++ encode_sn le start ++ encode_sn_set le gaps
  | InfoTimestampBody ts _ => match ts with Some t => encode_time le t | None => [] end
  | InfoSourceBody unused v vendor p =>
      write_u32 le unused ++ [to_byte (major v); to_byte (minor v)] ++ vendor ++ p
  | InfoDestinationBody p => p
  | InfoReplyBody u m flags =>
      write_u32 le (zlen u) ++ encode_locators le u ++
      (if flag_bit flags 0x02 then write_u32 le (zlen m) ++ encode_locators le m else [])
  end.

Record wf_data (le : bool) (flags : Z) (m : DataSubmessage) : Prop := {
  wfd_extra : fits 16 (extra_flags m);
  wfd_octets : fits 16 (octets_to_inline_qos m);
  wfd_reader : wf_entity (d_reader_id m);
  wfd_writer : wf_entity (d_writer_id m);
  wfd_sn : wf_sn (writer_sn m);
  wfd_flags : d_flags m = flags;
  (** the inline QoS is a parameter list, and is there exactly with its flag *)
  wfd_qos : if has_inline_qos flags
            then qos_extent le (inline_qos m ++ serialized_payload m) (zlen (inline_qos m)) /\ inline_qos m <> []
            else inline_qos m = [];
  wfd_payload : has_data flags || has_key flags = false -> serialized_payload m = []
}.

(** The bodies a writer can send in byte order [le] with the flags byte [flags]. *)
Definition wf_body (le : bool) (flags : Z) (b : SubmessageBody) : Prop :=
  match b with
  | Unparsed => False
  | PadBody => True
  | DataBody m => wf_data le flags m
  | HeartbeatBody rid wid first last c fl =>
      wf_entity rid /\ wf_entity wid /\ wf_sn first /\ wf_sn last /\ fits_signed 32 c /\ fl = flags
  | AckNackBody rid wid s c fl =>
      wf_entity rid /\ wf_entity wid /\ wf_sn_set s /\ fits_signed 32 c /\ fl = flags
  | GapBody rid wid start gaps => wf_entity rid /\ wf_entity wid /\ wf_sn start /\ wf_sn_set gaps
  | InfoTimestampBody ts fl =>
      fl = flags /\ match ts with
                    | Some t => flag_bit flags 0x02 = false /\ wf_time t
                    | None => flag_bit flags 0x02 = true
                    end
  | InfoSourceBody unused v vendor p =>
      fits 32 unused /\ fits 8 (major v) /\ fits 8 (minor v) /\ length vendor = 2%nat /\ length p = 12%nat
  | InfoDestinationBody p => length p = 12%nat
  | InfoReplyBody u m fl =>
      fl = flags /\ Forall wf_locator u /\ Forall wf_locator m /\ zlen u < 2 ^ 32 /\ zlen m < 2 ^ 32 /\
      (flag_bit flags 0x02 = false -> m = [])
  end.

(** Reads the field at offset [i] with [lem] and moves [Hd] past it, to offset [j]. *)
Ltac read_field lem mem i Hd j :=
  erewrite (lem mem i), ?bind_Done by (first [exact Hd | lia | assumption | eassumption]);
  eapply (drop_skip _ _ _ _ j) in Hd; [|lia | autorewrite with rtps_len; cbn [length]; lia].

Lemma parse_data_encode le flags m after :
  is_little_endian flags = le -> wf_data le flags m ->
  parse_data flags (encode_data le m ++ after) (zlen (encode_data le m)) = Done (DataBody m).
Proof.
  intros Hle [He Ho Hr Hw Hs Hf Hq Hp]. unfold parse_data. rewrite Hle. clear Hle.
  assert (Hlen : zlen (encode_data le m) = 20 + zlen (inline_qos m ++ serialized_payload m)).
  { unfold encode_data. autorewrite with rtps_len. lia. }
  destruct m as [ef oq rid wid sn fl qos pay]. cbn in He, Ho, Hr, Hw, Hs, Hf, Hq, Hp, Hlen. subst fl.
  rewrite Hlen, (proj2 (Z.ltb_ge _ 20)) by lia.
  set (mem := _ ++ after).
  assert (Hd : drop (Z.to_nat 0) mem = encode_data le (mkDataSubmessage ef oq rid wid sn flags qos pay) ++ after)
    by reflexivity.
  unfold encode_data in Hd. cbn in Hd. rewrite <- !app_assoc in Hd. clearbody mem.
  read_field read_u16_drop mem 0 Hd 2. read_field read_u16_drop mem 2 Hd 4.
  read_field read_entity_id_drop mem 4 Hd 8. read_field read_entity_id_drop mem 8 Hd 12.
  read_field read_sequence_number_drop mem 12 Hd 20.
  assert (Hml : 20 + zlen (qos ++ pay ++ after) <= zlen mem \/ qos ++ pay ++ after = []).
  { destruct (qos ++ pay ++ after) eqn:E; [right; reflexivity | left].
    rewrite <- E in *. eapply (drop_length_ge mem _ []); [lia | rewrite E; discriminate | rewrite app_nil_r; exact Hd]. }
  rewrite length_app in Hlen |- *.
  replace (if has_inline_qos flags && _ then _ else _) with (Done (E:=DecodeError) qos).
  - rewrite bind_Done.
    destruct (has_data flags || has_key flags) eqn:Eh; [|rewrite Hp by reflexivity; reflexivity].
    destruct (20 + zlen qos <? 20 + Z.of_nat (length qos + length pay)) eqn:El; bool_to_prop; cbn [andb].
    + eapply (drop_skip _ _ _ _ (20 + zlen qos)) in Hd; [|lia | lia].
      erewrite subspan_count_front, bind_Done by (first [exact Hd | lia | intros ->; cbn [length] in El; lia]).
      reflexivity.
    + destruct pay; [reflexivity | cbn [length] in El; lia].
  - destruct (has_inline_qos flags) eqn:Eq; cbn [andb]; [|subst qos; reflexivity].
    destruct Hq as [Hq Hne].
    assert (0 < zlen qos) by (destruct qos; [congruence | cbn [length]; lia]).
    rewrite (proj2 (Z.ltb_lt _ _)) by lia.
    erewrite (subspan_count_front mem 20 ltac:(lia) (qos ++ pay) after), bind_Done
      by (first [lia | rewrite <- app_assoc; exact Hd | destruct qos; [cbn [length] in *; lia | discriminate]
                | rewrite length_app; lia]).
    rewrite (qos_walk_extent _ _ _ _ Hq), bind_Done by lia.
    erewrite subspan_count_front by (first [exact Hd | lia | reflexivity | assumption]). reflexivity.
Qed.

Lemma num_words_nonneg s : wf_sn_set s -> 0 <= num_words (num_bits s).
Proof. intros [_ Hn _ _]. rewrite (num_words_small _ Hn). lia. Qed.

(** Starts reading a layout at its first byte: [Hd] says what follows offset 0. *)
Ltac start_reading mem Hd :=
  match goal with
  | |- context [parse_submessage_body _ _ ?m _] =>
      set (mem := m); assert (Hd : drop (Z.to_nat 0) mem = m) by reflexivity;
      rewrite <- ?app_assoc in Hd; clearbody mem
  end.

Ltac body_case Hle :=
  unfold parse_submessage_body; rewrite Hle;
  cbn [Z.eqb PAD DATA HEARTBEAT ACKNACK GAP INFO_TS INFO_SRC INFO_DST Pos.eqb].

Lemma parse_heartbeat_encode le flags rid wid first last c after :
  is_little_endian flags = le -> wf_body le flags (HeartbeatBody rid wid first last c flags) ->
  let b := HeartbeatBody rid wid first last c flags in
  parse_submessage_body HEARTBEAT flags (encode_body le b ++ after) (zlen (encode_body le b)) = Done b.
Proof.
  intros Hle (Hr & Hw & Hf & Hl & Hc & _). cbn [encode_body]. start_reading mem Hd.
  body_case Hle. rewrite (proj2 (Z.ltb_ge _ 28)) by (autorewrite with rtps_len; lia).
  read_field read_entity_id_drop mem 0 Hd 4. read_field read_entity_id_drop mem 4 Hd 8.
  read_field read_sequence_number_drop mem 8 Hd 16. read_field read_sequence_number_drop mem 16 Hd 24.
  erewrite (read_i32_drop mem 24), bind_Done by (first [exact Hd | lia | assumption]). reflexivity.
Qed.

Lemma parse_gap_encode le flags rid wid start gaps after :
  is_little_endian flags = le -> wf_body le flags (GapBody rid wid start gaps) ->
  let b := GapBody rid wid start gaps in
  parse_submessage_body GAP flags (encode_body le b ++ after) (zlen (encode_body le b)) = Done b.
Proof.
  intros Hle (Hr & Hw & Hs & Hg). cbn [encode_body]. start_reading mem Hd.
  pose proof (length_encode_sn_set le gaps Hg) as Hl. pose proof (num_words_nonneg gaps Hg).
  body_case Hle. rewrite (proj2 (Z.ltb_ge _ 24)) by (autorewrite with rtps_len; lia).
  read_field read_entity_id_drop mem 0 Hd 4. read_field read_entity_id_drop mem 4 Hd 8.
  read_field read_sequence_number_drop mem 8 Hd 16.
  erewrite read_sequence_number_set_drop, bind_Done
    by (first [exact Hd | lia | assumption | autorewrite with rtps_len; lia]). reflexivity.
Qed.

Lemma parse_info_source_encode le flags unused v vendor p after :
  is_little_endian flags = le -> wf_body le flags (InfoSourceBody unused v vendor p) ->
  let b := InfoSourceBody unused v vendor p in
  parse_submessage_body INFO_SRC flags (encode_body le b ++ after) (zlen (encode_body le b)) = Done b.
Proof.
  intros Hle (Hu & Hv1 & Hv2 & Hvd & Hp). cbn [encode_body]. start_reading mem Hd.
  body_case Hle. rewrite (proj2 (Z.ltb_ge _ 20)) by (autorewrite with rtps_len; cbn [length]; lia).
  read_field read_u32_drop mem 0 Hd 4. unfold read_protocol_version, read_vendor_id, read_guid_prefix.
  pose proof (drop_skip _ [to_byte (major v)] _ 4 5 ltac:(lia) Hd ltac:(reflexivity)) as Hd5.
  erewrite (byte_at_drop mem 4), bind_Done by (first [exact Hd | lia]).
  erewrite (byte_at_drop mem (4 + 1)), bind_Done by (first [exact Hd5 | lia]).
  eapply (drop_skip _ _ _ _ 6) in Hd; [|lia | reflexivity]. rewrite !bind_Done.
  erewrite (subspan_count_front mem 6), bind_Done by (first [exact Hd | lia | intros ->; discriminate]).
  eapply (drop_skip _ _ _ _ 8) in Hd; [|lia | lia].
  erewrite (subspan_count_front mem 8), bind_Done
    by (first [exact Hd | unfold GUID_PREFIX_SIZE; lia | intros ->; discriminate]).
  rewrite !u8_to_byte, !Z.mod_small by assumption. destruct v. reflexivity.
Qed.

Lemma parse_acknack_encode le flags rid wid s c after :
  is_little_endian flags = le -> wf_body le flags (AckNackBody rid wid s c flags) ->
  parse_acknack flags (encode_body le (AckNackBody rid wid s c flags) ++ after)
    (zlen (encode_body le (AckNackBody rid wid s c flags))) = Done (AckNackBody rid wid s c flags).
Proof.
  intros Hle (Hr & Hw & Hs & Hc & _). unfold parse_acknack. rewrite Hle. clear Hle.
  pose proof (length_encode_sn_set le s Hs) as Hl.
  pose proof (num_words_nonneg s Hs).
  cbn [encode_body].
  assert (Hlen : zlen (encode_entity rid ++ encode_entity wid ++ encode_sn_set le s ++ write_i32 le c)
                 = 24 + num_words (num_bits s) * 4).
  { autorewrite with rtps_len. lia. }
  rewrite Hlen, (proj2 (Z.ltb_ge _ 24)) by lia.
  set (mem := _ ++ after).
  assert (Hd : drop (Z.to_nat 0) mem = encode_entity rid ++ encode_entity wid ++ encode_sn_set le s ++ write_i32 le c ++ after)
    by (unfold mem; rewrite <- !app_assoc; reflexivity).
  clearbody mem.
  read_field read_entity_id_drop mem 0 Hd 4. read_field read_entity_id_drop mem 4 Hd 8.
  erewrite read_sequence_number_set_drop, bind_Done by (first [exact Hd | lia | assumption]).
  eapply (drop_skip _ _ _ _ (8 + 12 + num_words (num_bits s) * 4)) in Hd; [|lia | lia].
  rewrite (proj2 (Z.leb_le _ _)) by lia.
  erewrite read_i32_drop, bind_Done by (first [exact Hd | lia | assumption]). reflexivity.
Qed.

Lemma parse_info_reply_encode le flags u m after :
  is_little_endian flags = le -> wf_body le flags (InfoReplyBody u m flags) ->
  parse_info_reply flags (encode_body le (InfoReplyBody u m flags) ++ after)
    (zlen (encode_body le (InfoReplyBody u m flags))) = Done (InfoReplyBody u m flags).
Proof.
  intros Hle (_ & Hu & Hm & Hun & Hmn & Hno). unfold parse_info_reply. rewrite Hle. clear Hle.
  cbn [encode_body].
  set (tail := if flag_bit flags 2 then _ else _).
  assert (Hlen : zlen (write_u32 le (zlen u) ++ encode_locators le u ++ tail) = 4 + 24 * zlen u + zlen tail).
  { autorewrite with rtps_len. lia. }
  set (mem := _ ++ after).
  assert (Hd : drop (Z.to_nat 0) mem = write_u32 le (zlen u) ++ encode_locators le u ++ tail ++ after)
    by (unfold mem; rewrite <- !app_assoc; reflexivity).
  clearbody mem. rewrite Hlen, (proj2 (Z.leb_le 4 _)) by lia.
  erewrite (read_u32_drop mem 0), bind_Done by (first [exact Hd | unfold fits; lia]).
  eapply (drop_skip _ _ _ _ 4) in Hd; [|lia | autorewrite with rtps_len; lia].
  erewrite read_locators_drop, bind_Done by (first [exact Hd | assumption | lia]).
  eapply (drop_skip _ _ _ _ (4 + 24 * zlen u)) in Hd; [|lia | autorewrite with rtps_len; lia].
  cbn [fst snd]. subst tail. destruct (flag_bit flags 2) eqn:Ef; cbn [andb].
  - rewrite <- app_assoc in Hd. autorewrite with rtps_len.
    rewrite (proj2 (Z.leb_le _ _)) by (autorewrite with rtps_len; lia).
    erewrite (read_u32_drop mem (4 + 24 * zlen u)), bind_Done by (first [exact Hd | unfold fits; lia]).
    eapply (drop_skip _ _ _ _ (4 + 24 * zlen u + 4)) in Hd; [|lia | autorewrite with rtps_len; lia].
    erewrite read_locators_drop by (first [exact Hd | assumption | autorewrite with rtps_len; lia]).
    reflexivity.
  - rewrite Hno by reflexivity. reflexivity.
Qed.

(** Submessage bodies round trip: for every body a writer can send (DATA
    with or without inline QoS and payload, HEARTBEAT, ACKNACK and GAP with their
    sequence number sets, INFO_TS, INFO_SRC, INFO_DST, INFO_REPLY with its
    locator lists, PAD), in either byte order, whatever follows it in the
    message, the parser returns that body. *)
Theorem rtps_body_round_trip (flags : Z) (b : SubmessageBody) (after : list byte) :
  let le := is_little_endian flags in
  wf_body le flags b ->
  parse_submessage_body (kind_of b) flags (encode_body le b ++ after) (zlen (encode_body le b)) = Done b.
Proof.
  intros le Hwf. assert (Hle : is_little_endian flags = le) by reflexivity. clearbody le.
  destruct b as [|m|rid wid first last c fl|rid wid s c fl|rid wid start gaps|ts fl|unused v vendor p|p|u m fl|];
    cbn [kind_of].
  - destruct Hwf.
  - apply parse_data_encode; assumption.
  - pose proof Hwf as (_ & _ & _ & _ & _ & ->). apply parse_heartbeat_encode; assumption.
  - pose proof Hwf as (_ & _ & _ & _ & ->). apply parse_acknack_encode; assumption.
  - apply parse_gap_encode; assumption.
  - destruct Hwf as [-> Hts]. body_case Hle. cbn [encode_body]. destruct ts as [t|].
    + destruct Hts as [-> Ht]. rewrite length_encode_time. cbn [negb andb Z.leb Z.of_nat].
      erewrite (read_time_drop _ 0) by (first [reflexivity | lia | assumption]). reflexivity.
    + rewrite Hts. reflexivity.
  - apply parse_info_source_encode; assumption.
  - body_case Hle. cbn [encode_body wf_body] in *. rewrite (proj2 (Z.ltb_ge _ 12)) by lia.
    unfold read_guid_prefix. erewrite (subspan_count_front _ 0), bind_Done
      by (first [reflexivity | unfold GUID_PREFIX_SIZE; lia | intros ->; discriminate]). reflexivity.
  - pose proof Hwf as [-> _]. apply parse_info_reply_encode; assumption.
  - reflexivity.
Qed.

Lemma rtps_body_round_trip_witness :
  let flags := 0x07 in
  let e := mkEntityId [x00; x01; x00] 0xC2 in
  let b := DataBody (mkDataSubmessage 0 16 e e (mkSequenceNumber (-1) 5) flags
                       (write_u16 true 0x70 ++ write_u16 true 3 ++ [x01; x02; x03; x00] ++
                        write_u16 true PID_SENTINEL ++ write_u16 true 0) [xaa; xbb]) in
  parse_submessage_body (kind_of b) flags (encode_body true b ++ [xcc]) (zlen (encode_body true b)) = Done b.
Proof.
  intros flags e b. apply (rtps_body_round_trip flags b).
  assert (He : wf_entity e) by (split; [reflexivity | vm_compute; split; [discriminate | reflexivity]]).
  split; try exact He; try (vm_compute; split; [discriminate | reflexivity]); try reflexivity.
  - split; vm_compute; split; first [discriminate | reflexivity].
  - change (has_inline_qos flags) with true. cbv iota. split; [|discriminate].
    change (zlen _) with (4 + aligned 3 + (4 + aligned 0)).
    refine (ext_param true 0x70 3 ([x01; x02; x03; x00] ++ write_u16 true PID_SENTINEL ++ write_u16 true 0 ++ [xaa; xbb])
              (4 + aligned 0) _ _ _ (ext_sentinel true 0 [xaa; xbb] _));
      first [discriminate | vm_compute; split; [discriminate | reflexivity]].
  - discriminate.
Defined.

(** ** Reads inside the message succeed *)

Lemma total_byte_at d i : 0 <= i < zlen d -> total (byte_at (E:=DecodeError) d i).
Proof. intros H. destruct (byte_at_in (E:=DecodeError) d i H) as (v & Hv & _). exists v. exact Hv. Qed.
Lemma total_le16_at d i : 0 <= i -> i + 2 <= zlen d -> total (le16_at d i).
Proof.
  intros. unfold le16_at. repeat (apply total_bind; [apply total_byte_at; lia | intros ? _]).
  apply total_Done.
Qed.
Lemma total_le32_at d i : 0 <= i -> i + 4 <= zlen d -> total (le32_at d i).
Proof.
  intros. unfold le32_at. repeat (apply total_bind; [apply total_byte_at; lia | intros ? _]).
  apply total_Done.
Qed.
Lemma total_read_u16 d i le : 0 <= i -> i + 2 <= zlen d -> total (read_u16 d i le).
Proof. intros. destruct le; [apply total_le16_at; assumption|]. destruct (be16_at_in d i) as (v & Hv & _); [assumption .. | exists v; exact Hv]. Qed.
Lemma total_read_u32 d i le : 0 <= i -> i + 4 <= zlen d -> total (read_u32 d i le).
Proof. intros. destruct le; [apply total_le32_at; assumption|]. destruct (be32_at_in d i) as (v & Hv & _); [assumption .. | exists v; exact Hv]. Qed.
Lemma total_read_i32 d i le : 0 <= i -> i + 4 <= zlen d -> total (read_i32 d i le).
Proof.
  intros. apply total_bind; [apply total_read_u32; assumption | intros ? _; apply total_Done].
Qed.
Lemma total_subspan_count d i n :
  0 <= i -> 0 <= n -> i + n <= zlen d -> total (subspan_count (E:=DecodeError) d i n).
Proof. intros. rewrite subspan_count_in by assumption. apply total_Done. Qed.

(** Proves that a computation made of reads succeeds, one read at a time. *)
Ltac total_reads :=
  repeat first
    [ apply total_Done
    | match goal with
      | |- total (_ ≫= _) => apply total_bind; [|intros ? ?]
      | |- total (byte_at _ _) => apply total_byte_at; lia
      | |- total (read_u16 _ _ _) => apply total_read_u16; lia
      | |- total (read_u32 _ _ _) => apply total_read_u32; lia
      | |- total (read_i32 _ _ _) => apply total_read_i32; lia
      | |- total (subspan_count _ _ _) => apply total_subspan_count; lia
      | |- total (if ?b then _ else _) => destruct b eqn:?; bool_to_prop
      end ].

Lemma total_read_entity_id d i : 0 <= i -> i + 4 <= zlen d -> total (read_entity_id d i).
Proof. intros. unfold read_entity_id. total_reads. Qed.
Lemma total_read_sequence_number d i le : 0 <= i -> i + 8 <= zlen d -> total (read_sequence_number d i le).
Proof. intros. unfold read_sequence_number. total_reads. Qed.
Lemma total_read_time d i le : 0 <= i -> i + 8 <= zlen d -> total (read_time d i le).
Proof. intros. unfold read_time. total_reads. Qed.
Lemma total_read_locator d i le : 0 <= i -> i + 24 <= zlen d -> total (read_locator d i le).
Proof. intros. unfold read_locator. total_reads. Qed.
Lemma total_read_words n d i le :
  0 <= i -> i + 4 * Z.of_nat n <= zlen d -> total (read_words n d i le).
Proof.
  revert i. induction n as [|n IH]; intros i Hi Hn; [apply total_Done|]. cbn [read_words].
  total_reads. apply IH; lia.
Qed.
Lemma total_read_sequence_number_set d i n le :
  0 <= i -> i + n <= zlen d -> total (read_sequence_number_set d i n le).
Proof.
  intros Hi Hn. unfold read_sequence_number_set. destruct (n <? 12) eqn:E; bool_to_prop; [apply total_Done|].
  apply total_bind; [apply total_read_sequence_number; lia | intros b _].
  total_reads. rename select Z into nb. apply total_read_words; [lia|].
  assert (0 <= num_words nb); [unfold num_words, uint; lia | lia].
Qed.
Lemma read_locators_range fuel d i n offset size le r :
  0 <= offset -> read_locators fuel d i n offset size le = Done r -> offset <= r.2.
Proof.
  revert i offset r. induction fuel as [|fuel IH]; intros i offset r Ho H; cbn [read_locators] in H.
  - apply Done_inj in H as <-. cbn. lia.
  - case_in H; [|apply Done_inj in H as <-; cbn; lia].
    apply bind_inv in H as (l & _ & H). apply bind_inv in H as (r' & Hr & H). apply Done_inj in H as <-.
    apply IH in Hr; unfold LOCATOR_SIZE in *; cbn [snd]; lia.
Qed.
Lemma total_read_locators fuel d i n offset size le :
  0 <= offset -> size <= zlen d -> total (read_locators fuel d i n offset size le).
Proof.
  revert i offset. induction fuel as [|fuel IH]; intros i offset Ho Hs; cbn [read_locators]; [apply total_Done|].
  destruct ((i <? n) && (offset + LOCATOR_SIZE <=? size)) eqn:E; [|apply total_Done]. bool_to_prop.
  unfold LOCATOR_SIZE in *.
  apply total_bind; [apply total_read_locator; lia | intros ? _].
  apply total_bind; [apply IH; lia | intros ? _]. apply total_Done.
Qed.

Ltac total_fields :=
  repeat first
    [ progress total_reads
    | match goal with
      | |- total (read_entity_id _ _) => apply total_read_entity_id; lia
      | |- total (read_sequence_number _ _ _) => apply total_read_sequence_number; lia
      | |- total (read_sequence_number_set _ _ _ _) => apply total_read_sequence_number_set; lia
      | |- total (read_time _ _ _) => apply total_read_time; lia
      | |- total (read_locator _ _ _) => apply total_read_locator; lia
      end ].

(** ** Where a body reads past the message *)

(** A DATA body whose inline QoS parameters declare more bytes than the message has. *)
Definition qos_overrun (flags : Z) (mem : list byte) (size : Z) : Prop :=
  has_inline_qos flags = true /\ 20 < size /\
  exists n, qos_extent (is_little_endian flags) (take (Z.to_nat (size - 20)) (drop 20 mem)) n /\
            zlen mem < 20 + n.


Lemma qos_extent_det le q n n' : qos_extent le q n -> qos_extent le q n' -> n = n'.
Proof.
  intros H H'. pose proof (qos_walk_extent _ _ _ _ H (le_n _)) as W.
  pose proof (qos_walk_extent _ _ _ _ H' (le_n _)) as W'. congruence.
Qed.

Lemma parse_data_undef flags mem size :
  0 <= size <= zlen mem -> parse_data flags mem size = Undef <-> qos_overrun flags mem size.
Proof.
  intros Hs. unfold parse_data, qos_overrun. set (le := is_little_endian flags).
  destruct (size <? 20) eqn:E; bool_to_prop; [split; [discriminate | lia]|].
  destruct (total_read_u16 mem 0 le) as [ef ->]; [lia | lia |].
  destruct (total_read_u16 mem 2 le) as [oq ->]; [lia | lia |].
  destruct (total_read_entity_id mem 4) as [rid ->]; [lia | lia |].
  destruct (total_read_entity_id mem 8) as [wid ->]; [lia | lia |].
  destruct (total_read_sequence_number mem 12 le) as [sn ->]; [lia | lia |].
  rewrite !bind_Done.
  assert (Hpay : forall qos, total (E:=DecodeError) (
    payload ← (if (has_data flags || has_key flags) && (20 + zlen qos <? size)
               then subspan_count mem (20 + zlen qos) (size - (20 + zlen qos)) else Done []);
    Done (DataBody (mkDataSubmessage ef oq rid wid sn flags qos payload)))).
  { intros qos. total_fields. }
  destruct (has_inline_qos flags && (20 <? size)) eqn:Eq.
  - apply andb_prop in Eq as [-> Eq]. bool_to_prop.
    rewrite subspan_count_in, bind_Done by lia. set (q := take _ _).
    destruct (qos_extent_total le q) as [n Hn]. pose proof (qos_extent_nonneg _ _ _ Hn).
    rewrite (qos_walk_extent _ _ _ _ Hn), bind_Done by lia.
    destruct (Z.lt_ge_cases (zlen mem) (20 + n)) as [Hlt|Hge].
    + assert (Hu : subspan_count (E:=DecodeError) mem 20 n = Undef).
      { unfold subspan_count. rewrite (proj2 (Z.leb_gt n _)), !andb_false_r by lia. reflexivity. }
      rewrite Hu. split; [intros _ | reflexivity]. split_and!; [reflexivity | lia | exists n; split; [exact Hn | lia]].
    + rewrite subspan_count_in, bind_Done by lia. split.
      * destruct (Hpay (take (Z.to_nat n) (drop (Z.to_nat 20) mem))) as [b ->]. discriminate.
      * intros (_ & _ & n' & Hn' & Hlt). rewrite (qos_extent_det _ _ _ _ Hn' Hn) in Hlt. lia.
  - rewrite bind_Done. destruct (Hpay []) as [b ->]. split; [discriminate|].
    intros (Hq & Hlt & _). rewrite Hq, (proj2 (Z.ltb_lt _ _)) in Eq by lia. discriminate.
Qed.

Lemma parse_body_undef kind flags mem size :
  0 <= size <= zlen mem ->
  parse_submessage_body kind flags mem size = Undef <-> kind = DATA /\ qos_overrun flags mem size.
Proof.
  intros Hs. unfold parse_submessage_body. destruct (kind =? PAD) eqn:E0; bool_to_prop; [subst; split; [discriminate | intros [[=] _]]|].
  destruct (kind =? DATA) eqn:E1; bool_to_prop; [rewrite parse_data_undef by exact Hs; tauto|].
  assert (Ht : forall m : decoded SubmessageBody, total m -> m = Undef <-> kind = DATA /\ qos_overrun flags mem size).
  { intros m [b ->]. split; [discriminate | tauto]. }
  apply Ht. clear Ht.
  destruct (kind =? HEARTBEAT); [total_fields|].
  destruct (kind =? ACKNACK).
  { unfold parse_acknack. total_fields; try lia.
    apply total_read_i32; [|lia]. unfold num_words, uint. lia. }
  destruct (kind =? GAP); [total_fields|].
  destruct (kind =? INFO_TS); [total_fields|].
  destruct (kind =? INFO_SRC); [unfold read_protocol_version, read_vendor_id, read_guid_prefix, GUID_PREFIX_SIZE; total_fields|].
  destruct (kind =? INFO_DST); [unfold read_guid_prefix, GUID_PREFIX_SIZE; total_fields|].
  destruct (kind =? INFO_REPLY); [|total_fields].
  unfold parse_info_reply. apply total_bind.
  { destruct (4 <=? size) eqn:E4; bool_to_prop; [|total_fields].
    total_fields. apply total_read_locators; lia. }
  intros [u off] Hu.
  assert (0 <= off).
  { destruct (4 <=? size); [|apply Done_pair_inj in Hu as [_ <-]; lia].
    apply bind_inv in Hu as (n & _ & Hu). apply read_locators_range in Hu; cbn [snd] in Hu; lia. }
  cbn [fst snd]. total_fields. apply total_read_locators; lia.
Qed.

(** ** The framing of submessages *)

(** The bytes of a submessage with flags byte [f]: the length is in the byte order of [f]. *)
Definition frame (k f : byte) (len : Z) (body : list byte) : list byte :=
  k :: f :: write_u16 (is_little_endian (u8 f)) len ++ body.

(** No submessage starts in [d]: it is too short for a header or for the length
    its header declares. *)
Definition stops (d : list byte) : Prop :=
  zlen d < 4 \/ exists k f len r, d = frame k f len r /\ 0 < len /\ fits 16 len /\ zlen r < len.

(** The body of a submessage whose [body] bytes are followed by [after]. *)
Definition body_of (k f : byte) (body after : list byte) : decoded SubmessageBody :=
  if zlen body =? 0 then Done Unparsed
  else parse_submessage_body (u8 k) (u8 f) (body ++ after) (zlen body).

(** [tiles d subs]: the submessages of [d] in order, each starting where the
    previous one ends.  A submessage of length 0 takes all that is left. *)
Inductive tiles : list byte -> list Submessage -> Prop :=
| tiles_end d : stops d -> tiles d []
| tiles_last k f body b :
    body_of k f body [] = Done b ->
    tiles (frame k f 0 body) [mkSubmessage (u8 k) (u8 f) 0 b (frame k f 0 body)]
| tiles_cons k f body rest b subs :
    0 < zlen body -> fits 16 (zlen body) -> body_of k f body rest = Done b -> tiles rest subs ->
    tiles (frame k f (zlen body) body ++ rest)
          (mkSubmessage (u8 k) (u8 f) (zlen body) b (frame k f (zlen body) body) :: subs).

(** [reaches d d']: after whole submessages of [d] with parsed bodies the parser is at [d']. *)
Inductive reaches : list byte -> list byte -> Prop :=
| reaches_here d : reaches d d
| reaches_next k f body rest b d' :
    0 < zlen body -> fits 16 (zlen body) -> body_of k f body rest = Done b -> reaches rest d' ->
    reaches (frame k f (zlen body) body ++ rest) d'.

(** A DATA submessage at the start of [d] whose inline QoS runs past the end of [d]. *)
Definition overruns (d : list byte) : Prop :=
  exists f len body after,
    d = frame (to_byte DATA) f len (body ++ after) /\ fits 16 len /\
    (0 < len /\ zlen body = len \/ len = 0 /\ after = []) /\
    qos_overrun (u8 f) (body ++ after) (zlen body).

Lemma length_frame k f len body : zlen (frame k f len body) = 4 + zlen body.
Proof. unfold frame. cbn [length]. autorewrite with rtps_len. lia. Qed.

Lemma frame_app k f len body rest : frame k f len body ++ rest = frame k f len (body ++ rest).
Proof. unfold frame. cbn [app]. rewrite app_assoc. reflexivity. Qed.

Lemma split_frame d : 4 <= zlen d -> exists k f len r, fits 16 len /\ d = frame k f len r.
Proof.
  intros Hd. destruct d as [|k [|f [|b0 [|b1 r]]]]; cbn [length] in Hd; try lia.
  destruct (write_u16_surj (is_little_endian (u8 f)) b0 b1) as (len & Hl & He).
  exists k, f, len, r. split; [exact Hl|]. unfold frame. rewrite He. reflexivity.
Qed.

(** One turn of the loop on a submessage header. *)
Lemma submessages_loop_frame fuel k f len r :
  fits 16 len ->
  submessages_loop (S fuel) (frame k f len r) =
    if (0 <? len) && (zlen r <? len) then Done []
    else
      let body := if len =? 0 then r else take (Z.to_nat len) r in
      b ← body_of k f body (drop (length body) r);
      let s := mkSubmessage (u8 k) (u8 f) len b (frame k f len body) in
      if len =? 0 then Done [s]
      else rest ← submessages_loop fuel (drop (length body) r); Done (s :: rest).
Proof.
  intros Hl. cbn [submessages_loop]. set (d := frame k f len r).
  pose proof (length_frame k f len r) as Hn. fold d in Hn. unfold SUBMESSAGE_HEADER_SIZE.
  rewrite (proj2 (Z.leb_le 4 _)) by lia.
  erewrite (byte_at_drop d 0), bind_Done by (first [reflexivity | lia]).
  erewrite (byte_at_drop d 1), bind_Done by (first [reflexivity | lia]).
  erewrite (read_u16_drop d 2), bind_Done by (first [reflexivity | lia | exact Hl]).
  unfold fits in Hl. destruct (len =? 0) eqn:E0; bool_to_prop.
  - subst len. rewrite (proj2 (Z.ltb_ge (zlen d) _)) by lia. cbn [Z.ltb Z.compare andb orb].
    rewrite subspan_count_in, bind_Done by lia. rewrite Hn.
    unfold body_of. cbv zeta. rewrite (drop_ge r (length r)), app_nil_r by lia.
    replace (take _ (drop (Z.to_nat 0) d)) with d by (rewrite take_ge; [reflexivity | change (drop (Z.to_nat 0) d) with d; lia]).
    replace (drop 4 d) with r by (unfold d, frame; destruct (is_little_endian (u8 f)); reflexivity).
    replace (4 + zlen r - 4) with (zlen r) by lia.
    destruct (zlen r =? 0) eqn:Er; bool_to_prop;
      [rewrite (proj2 (Z.ltb_ge 4 _)) by lia | rewrite (proj2 (Z.ltb_lt 4 _)) by lia]; reflexivity.
  - rewrite (proj2 (Z.ltb_lt 0 len)) by lia. cbn [andb orb].
    destruct (zlen r <? len) eqn:El; bool_to_prop.
    { rewrite (proj2 (Z.ltb_lt (zlen d) _)) by lia. reflexivity. }
    rewrite (proj2 (Z.ltb_ge (zlen d) _)) by lia.
    rewrite subspan_count_in, bind_Done by lia. unfold body_of.
    assert (Hb : length (take (Z.to_nat len) r) = Z.to_nat len) by (rewrite length_take; lia).
    rewrite Hb, (proj2 (Z.eqb_neq _ 0)), take_drop by lia.
    replace (drop 4 d) with r by (unfold d, frame; destruct (is_little_endian (u8 f)); reflexivity).
    replace (Z.of_nat (Z.to_nat len)) with len by lia.
    replace (take (Z.to_nat (4 + len)) (drop (Z.to_nat 0) d)) with (frame k f len (take (Z.to_nat len) r)).
    + replace (drop (Z.to_nat (4 + len)) d) with (drop (Z.to_nat len) r); [reflexivity|].
      unfold d, frame. rewrite Z2Nat.inj_add by lia. destruct (is_little_endian (u8 f)); reflexivity.
    + unfold d, frame. rewrite Z2Nat.inj_add by lia. destruct (is_little_endian (u8 f)); reflexivity.
Qed.

Lemma loop_stops fuel d : stops d -> submessages_loop fuel d = Done [].
Proof.
  intros [Hs|(k & f & len & r & -> & H0 & Hl & Hr)]; (destruct fuel as [|fuel]; [reflexivity|]).
  - cbn [submessages_loop]. unfold SUBMESSAGE_HEADER_SIZE. rewrite (proj2 (Z.leb_gt _ _)) by lia. reflexivity.
  - rewrite submessages_loop_frame, (proj2 (Z.ltb_lt 0 len)), (proj2 (Z.ltb_lt _ len)) by assumption.
    reflexivity.
Qed.

Lemma loop_last fuel k f body :
  submessages_loop (S fuel) (frame k f 0 body) =
    (b ← body_of k f body []; Done [mkSubmessage (u8 k) (u8 f) 0 b (frame k f 0 body)]).
Proof.
  rewrite submessages_loop_frame by (unfold fits; lia). cbn [Z.ltb Z.compare andb Z.eqb]. cbv zeta.
  rewrite drop_ge by lia. reflexivity.
Qed.

Lemma loop_cons fuel k f body rest :
  0 < zlen body -> fits 16 (zlen body) ->
  submessages_loop (S fuel) (frame k f (zlen body) body ++ rest) =
    (b ← body_of k f body rest;
     r ← submessages_loop fuel rest;
     Done (mkSubmessage (u8 k) (u8 f) (zlen body) b (frame k f (zlen body) body) :: r)).
Proof.
  intros H0 Hl. rewrite frame_app, submessages_loop_frame by assumption.
  rewrite length_app, (proj2 (Z.ltb_ge (Z.of_nat (length body + length rest)) _)), andb_false_r, (proj2 (Z.eqb_neq _ 0)) by lia.
  cbv zeta. rewrite Nat2Z.id, take_app_length, drop_app_length. reflexivity.
Qed.

Lemma frame_cases d :
  stops d \/ (exists k f body, d = frame k f 0 body) \/
  (exists k f body rest, 0 < zlen body /\ fits 16 (zlen body) /\ d = frame k f (zlen body) body ++ rest).
Proof.
  destruct (Z.lt_ge_cases (zlen d) 4) as [Hs|Hs]; [left; left; exact Hs|].
  destruct (split_frame d Hs) as (k & f & len & r & Hl & ->).
  destruct (Z.eq_dec len 0) as [->|H0]; [right; left; eauto|]. unfold fits in Hl.
  destruct (Z.lt_ge_cases (zlen r) len) as [Hr|Hr].
  { left. right. exists k, f, len, r. unfold fits. split_and!; [reflexivity | lia ..]. }
  right. right. exists k, f, (take (Z.to_nat len) r), (drop (Z.to_nat len) r).
  assert (Hz : zlen (take (Z.to_nat len) r) = len) by (rewrite length_take; lia).
  rewrite Hz, frame_app, take_drop. unfold fits. split_and!; [lia .. | reflexivity].
Qed.

Lemma length_rest k f body rest fuel :
  (length (frame k f (zlen body) body ++ rest) <= S fuel)%nat -> (length rest <= fuel)%nat.
Proof. intros H. pose proof (length_frame k f (zlen body) body). rewrite length_app in H. lia. Qed.

(** The loop computes the tiling, within [length d] turns. *)
Lemma submessages_exact fuel d subs :
  (length d <= fuel)%nat -> submessages_loop fuel d = Done subs <-> tiles d subs.
Proof.
  intros Hf. split.
  - revert d subs Hf. induction fuel as [|fuel IH]; intros d subs Hf H.
    + cbn in H. apply Done_inj in H as <-. constructor. left. lia.
    + destruct (frame_cases d) as [Hs|[(k & f & body & ->)|(k & f & body & rest & H0 & Hl & ->)]].
      * rewrite loop_stops in H by exact Hs. apply Done_inj in H as <-. constructor. exact Hs.
      * rewrite loop_last in H. apply bind_inv in H as (b & Hb & H). apply Done_inj in H as <-.
        constructor. exact Hb.
      * rewrite loop_cons in H by assumption. apply bind_inv in H as (b & Hb & H).
        apply bind_inv in H as (r & Hr & H). apply Done_inj in H as <-.
        constructor; [assumption .. |]. apply IH; [eapply length_rest; exact Hf | exact Hr].
  - intros Ht. revert fuel Hf. induction Ht as [d Hs|k f body b Hb|k f body rest b subs H0 Hl Hb _ IH];
      intros fuel Hf.
    + apply loop_stops, Hs.
    + pose proof (length_frame k f 0 body). destruct fuel; [lia|]. rewrite loop_last, Hb. reflexivity.
    + pose proof (length_frame k f (zlen body) body). rewrite length_app in Hf. destruct fuel; [lia|].
      rewrite loop_cons, Hb, bind_Done, IH by (assumption || lia). reflexivity.
Qed.

(** The loop is undefined exactly where the parser reaches an inline QoS that runs
    past the message. *)
Lemma body_of_undef k f body after :
  body_of k f body after = Undef <-> k = to_byte DATA /\ qos_overrun (u8 f) (body ++ after) (zlen body).
Proof.
  unfold body_of. destruct (zlen body =? 0) eqn:E; bool_to_prop.
  - split; [discriminate | intros (_ & _ & Hlt & _); lia].
  - rewrite parse_body_undef by (rewrite length_app; lia).
    enough (Hk : u8 k = DATA <-> k = to_byte DATA) by (rewrite Hk; reflexivity).
    split; [intros <-; symmetry; apply to_byte_u8 | intros ->; reflexivity].
Qed.

Lemma submessages_undef fuel d :
  (length d <= fuel)%nat ->
  submessages_loop fuel d = Undef <-> exists d', reaches d d' /\ overruns d'.
Proof.
  intros Hf. split.
  - revert d Hf. induction fuel as [|fuel IH]; intros d Hf H; [discriminate H|].
    destruct (frame_cases d) as [Hs|[(k & f & body & ->)|(k & f & body & rest & H0 & Hl & ->)]].
    + rewrite loop_stops in H by exact Hs. discriminate H.
    + rewrite loop_last in H. destruct (body_of k f body []) eqn:Eb; [discriminate H | discriminate H|].
      apply body_of_undef in Eb as [-> Hq]. exists (frame (to_byte DATA) f 0 body). split; [constructor|].
      exists f, 0, body, []. rewrite app_nil_r in *. unfold fits. split_and!; [reflexivity | lia .. | right; auto | exact Hq].
    + rewrite loop_cons in H by assumption. destruct (body_of k f body rest) as [b|e|] eqn:Eb; [| discriminate H |].
      * destruct (submessages_loop fuel rest) eqn:Er; [discriminate H | discriminate H|].
        destruct (IH rest) as (d' & Hd' & Ho); [eapply length_rest; exact Hf | exact Er |].
        exists d'. split; [econstructor; eassumption | exact Ho].
      * apply body_of_undef in Eb as [-> Hq]. exists (frame (to_byte DATA) f (zlen body) body ++ rest). split; [constructor|].
        exists f, (zlen body), body, rest. rewrite frame_app. split_and!; [reflexivity | exact Hl | left; auto | exact Hq].
  - intros (d' & Hr & Ho). revert fuel Hf. induction Hr as [d|k f body rest b d' H0 Hl Hb _ IH]; intros fuel Hf.
    + destruct Ho as (f & len & body & after & -> & Hl & Hlen & Hq).
      pose proof (length_frame (to_byte DATA) f len (body ++ after)). destruct fuel; [lia|].
      assert (Hu : body_of (to_byte DATA) f body after = Undef) by (apply body_of_undef; auto).
      destruct Hlen as [[H0 <-]|[-> ->]].
      * rewrite <- frame_app, loop_cons, Hu by assumption. reflexivity.
      * rewrite app_nil_r, loop_last, Hu. reflexivity.
    + pose proof (length_frame k f (zlen body) body). rewrite length_app in Hf. destruct fuel; [lia|].
      rewrite loop_cons, Hb, bind_Done, IH by (assumption || lia). reflexivity.
Qed.

(** ** Messages *)

Definition encode_header (h : RtpsHeader) : list byte :=
  [x52; x54; x50; x53; to_byte (major (version h)); to_byte (minor (version h))] ++
  vendor_id h ++ guid_prefix h.

Record wf_header (h : RtpsHeader) : Prop := {
  wf_major : major (version h) = 2;
  wf_minor : fits 8 (minor (version h));
  wf_vendor : length (vendor_id h) = 2%nat;
  wf_prefix : length (guid_prefix h) = 12%nat
}.

Definition with_submessages (h : RtpsHeader) (subs : list Submessage) : RtpsHeader :=
  mkRtpsHeader (version h) (vendor_id h) (guid_prefix h) subs.

Lemma looks_like_rtps_iff d :
  looks_like_rtps d = true <-> RTPS_HEADER_SIZE <= zlen d /\ take 4 d = [x52; x54; x50; x53].
Proof.
  unfold looks_like_rtps. destruct (zlen d <? RTPS_HEADER_SIZE) eqn:E; bool_to_prop;
    [split; [discriminate | lia]|].
  unfold RTPS_HEADER_SIZE in *. destruct d as [|r [|t [|p [|s d]]]]; cbn [length] in E; try lia.
  cbn [take firstn]. split.
  - intros H. bool_to_prop. split; [exact E|].
    repeat f_equal; apply u8_inj; assumption.
  - intros [_ [= -> -> -> ->]]. reflexivity.
Qed.

(** Decoding a message whose header is well formed leaves the submessages. *)
Lemma decode_encode_header h tail :
  wf_header h ->
  decode (encode_header h ++ tail) =
    (subs ← submessages_loop (length tail) tail; Done (with_submessages h subs)).
Proof.
  intros [Hma Hmi Hv Hp]. destruct h as [[ma mi] v p subs0]. cbn in Hma, Hmi, Hv, Hp. subst ma.
  unfold decode, with_submessages. cbn [version vendor_id guid_prefix].
  set (d := encode_header _ ++ tail).
  assert (Hd : drop (Z.to_nat 4) d = to_byte 2 :: to_byte mi :: v ++ p ++ tail)
    by (unfold d, encode_header; cbn; rewrite <- app_assoc; reflexivity).
  assert (Hlen : zlen d = 20 + zlen tail)
    by (unfold d, encode_header; cbn; rewrite !length_app; lia).
  assert (Hm : looks_like_rtps d = true).
  { apply looks_like_rtps_iff. unfold RTPS_HEADER_SIZE. split; [lia | reflexivity]. }
  rewrite (proj2 (Z.ltb_ge (zlen d) _)), Hm by (unfold RTPS_HEADER_SIZE; lia). cbn [negb]. clearbody d.
  unfold read_protocol_version, read_vendor_id, read_guid_prefix.
  erewrite (byte_at_drop d 4), bind_Done by (first [exact Hd | lia]).
  pose proof (drop_skip _ [to_byte 2] _ 4 5 ltac:(lia) Hd ltac:(reflexivity)) as Hd5.
  erewrite (byte_at_drop d (4 + 1)), bind_Done by (first [exact Hd5 | lia]).
  rewrite bind_Done. change (negb (major _ =? 2)) with false. cbv iota.
  eapply (drop_skip _ [_; _] _ _ 6) in Hd; [|lia | reflexivity].
  erewrite (subspan_count_front d 6), bind_Done by (first [exact Hd | lia | intros ->; discriminate]).
  eapply (drop_skip _ _ _ _ 8) in Hd; [|lia | lia].
  erewrite (subspan_count_front d 8), bind_Done
    by (first [exact Hd | unfold GUID_PREFIX_SIZE; lia | intros ->; discriminate]).
  eapply (drop_skip _ _ _ _ 20) in Hd; [|lia | lia].
  rewrite !u8_to_byte, (Z.mod_small mi) by assumption. unfold RTPS_HEADER_SIZE.
  destruct (20 <? zlen d) eqn:E; bool_to_prop.
  - rewrite subspan_in, bind_Done, Hd by lia. reflexivity.
  - destruct tail; [reflexivity | cbn [length] in *; lia].
Qed.

(** A message that the decoder does not reject has a well-formed header. *)
Lemma decode_header_inv d :
  (exists e, decode d = Fail e) \/ (exists h tail, wf_header h /\ d = encode_header h ++ tail).
Proof.
  unfold decode. destruct (zlen d <? RTPS_HEADER_SIZE) eqn:E; [left; eexists; reflexivity|].
  destruct (looks_like_rtps d) eqn:Em; [|left; eexists; reflexivity]. cbn [negb].
  apply looks_like_rtps_iff in Em as [Hl Hm]. unfold RTPS_HEADER_SIZE in *.
  assert (Hd : d = [x52; x54; x50; x53] ++ drop 4 d) by (rewrite <- Hm; symmetry; apply take_drop).
  destruct (drop 4 d) as [|b0 [|b1 r]] eqn:Er;
    try (apply (f_equal length) in Hd; rewrite length_app in Hd; cbn [length] in Hd; lia).
  unfold read_protocol_version.
  rewrite (byte_at_drop d 4 b0 (b1 :: r)), bind_Done by (first [lia | exact Er]).
  rewrite (byte_at_drop d (4 + 1) b1 r), bind_Done
    by (first [lia | exact (drop_skip d [b0] (b1 :: r) 4 5 ltac:(lia) Er ltac:(reflexivity))]).
  rewrite bind_Done. cbn [major].
  destruct (u8 b0 =? 2) eqn:Eb; cbn [negb]; [|left; eexists; reflexivity]. right. bool_to_prop.
  assert (Hr : (14 <= length r)%nat).
  { apply (f_equal length) in Hd. rewrite length_app in Hd. cbn [length] in Hd. lia. }
  exists (mkRtpsHeader (mkProtocolVersion 2 (u8 b1)) (take 2 r) (take 12 (drop 2 r)) []), (drop 12 (drop 2 r)).
  split.
  - split; cbn; [reflexivity | apply u8_range | rewrite length_take; lia | rewrite length_take, length_drop; lia].
  - rewrite Hd. unfold encode_header. cbn [version vendor_id guid_prefix major minor].
    rewrite <- Eb, !to_byte_u8, <- !app_assoc. cbn [app]. do 6 f_equal.
    rewrite take_drop, take_drop. reflexivity.
Qed.

(** [C6] RTPS decoding is exact: the decoder returns [h] exactly on the messages
    that consist of the 20-byte layout of its version 2 header and of bytes that
    [h]'s submessages tile, in order and without gaps.  What follows the last one
    is too short for a submessage, and a submessage of length 0 takes all that is
    left, whatever its kind. *)
Theorem rtps_decode_exact (d : list byte) (h : RtpsHeader) :
  decode d = Done h <->
  exists tail, wf_header h /\ d = encode_header h ++ tail /\ tiles tail (submessages h).
Proof.
  split.
  - intros H. destruct (decode_header_inv d) as [[e He]|(h' & tail & Hwf & ->)]; [congruence|].
    rewrite decode_encode_header in H by exact Hwf. apply bind_inv in H as (subs & Hs & H).
    apply Done_inj in H as <-. exists tail. destruct Hwf. split_and!; [split; assumption | reflexivity|].
    apply submessages_exact in Hs; [exact Hs | lia].
  - intros (tail & Hwf & -> & Ht). rewrite decode_encode_header by exact Hwf.
    apply (submessages_exact (length tail)) in Ht; [|lia]. rewrite Ht, bind_Done. destruct h. reflexivity.
Qed.

(** The decoder reads past the end of a message exactly when, after whole
    submessages, it reaches a DATA submessage with inline QoS whose parameters
    declare more bytes than the message holds: the copy of the inline QoS is the
    only unchecked read of the decoder. *)
Theorem rtps_overread (d : list byte) :
  decode d = Undef <->
  exists h tail d', wf_header h /\ d = encode_header h ++ tail /\ reaches tail d' /\ overruns d'.
Proof.
  split.
  - intros H. destruct (decode_header_inv d) as [[e He]|(h & tail & Hwf & ->)]; [congruence|].
    rewrite decode_encode_header in H by exact Hwf.
    destruct (submessages_loop (length tail) tail) eqn:E; [discriminate H | discriminate H|].
    apply submessages_undef in E as (d' & Hr & Ho); [|lia]. exists h, tail, d'. auto.
  - intros (h & tail & d' & Hwf & -> & Hr & Ho). rewrite decode_encode_header by exact Hwf.
    rewrite (proj2 (submessages_undef _ tail (le_n _))) by eauto. reflexivity.
Qed.

(** A 48-byte message: a DATA submessage of 24 bytes whose only QoS parameter,
    at the end of the message, declares eight bytes. *)
Definition sample_data (f : byte) (qos_len : byte) : list byte :=
  [x52; x54; x50; x53; x02; x04; x01; x0f] ++ replicate 12 x00 ++
  [x15; f; x18; x00] ++ replicate 20 x00 ++ [x70; x00; qos_len; x00].

Example sample_overrun : decode (sample_data x03 x08) = Undef.
Proof. vm_compute. reflexivity. Qed.

Example sample_no_qos_flag : exists h, decode (sample_data x01 x08) = Done h /\ zlen (submessages h) = 1.
Proof. eexists. vm_compute. split; reflexivity. Qed.
