(* ===== verification/Discovery.v ===== *)
(** * DDS discovery (src/protocols/dds/rtps_decoder.cpp 542-849,
    include/wadjet/protocols/dds/discovery.hpp)

    [DiscoveryParser]: the parameter lists of SPDP and SEDP announcements and the
    participant and endpoint data read from them. *)

From Stdlib Require Import ZArith Lia.
From Stdlib Require Import Strings.Byte.
From stdpp Require Import base numbers list strings.
From S2P Require Import Prelude ByteOrder Decoder Rtps.

(** ** Parameters *)

(** [ParameterId] *)
Definition PID_PAD : Z := 0x0000.
Definition PID_PARTICIPANT_LEASE_DURATION : Z := 0x0002.
Definition PID_TOPIC_NAME : Z := 0x0005.
Definition PID_TYPE_NAME : Z := 0x0007.
Definition PID_PROTOCOL_VERSION : Z := 0x0015.
Definition PID_VENDOR_ID : Z := 0x0016.
Definition PID_RELIABILITY : Z := 0x001A.
Definition PID_DURABILITY : Z := 0x001D.
Definition PID_USER_DATA : Z := 0x002C.
Definition PID_UNICAST_LOCATOR : Z := 0x002F.
Definition PID_MULTICAST_LOCATOR : Z := 0x0030.
Definition PID_DEFAULT_UNICAST_LOCATOR : Z := 0x0031.
Definition PID_METATRAFFIC_UNICAST_LOCATOR : Z := 0x0032.
Definition PID_METATRAFFIC_MULTICAST_LOCATOR : Z := 0x0033.
Definition PID_DEFAULT_MULTICAST_LOCATOR : Z := 0x0048.
Definition PID_PARTICIPANT_GUID : Z := 0x0050.
Definition PID_BUILTIN_ENDPOINT_SET : Z := 0x0058.
Definition PID_ENDPOINT_GUID : Z := 0x005A.
Definition PID_ENTITY_NAME : Z := 0x0062.

Record DiscoveryParameter := mkDiscoveryParameter { id : Z; value : list byte }.

(** [DiscoveryParameter::as_string()]: without one trailing null. *)
Definition as_string (p : DiscoveryParameter) : list byte :=
  match last (value p) with
  | None => []
  | Some b => if u8 b =? 0 then take (length (value p) - 1) (value p) else value p
  end.

(** [ParameterList::find] and [get_string]. *)
Fixpoint find_parameter (ps : list DiscoveryParameter) (i : Z) : option DiscoveryParameter :=
  match ps with
  | [] => None
  | p :: ps' => if id p =? i then Some p else find_parameter ps' i
  end.
Definition get_string (ps : list DiscoveryParameter) (i : Z) : option (list byte) :=
  as_string <$> find_parameter ps i.

(** The loop of [parse_parameter_list] on the bytes from [offset] on. *)
Fixpoint parameters_loop (fuel : nat) (d : list byte) (le : bool) : decoded (list DiscoveryParameter) :=
  match fuel with
  | O => Done []
  | S fuel' =>
      if 4 <=? zlen d then
        param_id ← read_u16 d 0 le;
        param_len ← read_u16 d 2 le;
        if param_id =? PID_SENTINEL then Done []
        else if param_id =? PID_PAD then parameters_loop fuel' (drop 4 d) le
        else if zlen d <? 4 + param_len then Done []
        else
          v ← subspan_count d 4 param_len;
          rest ← parameters_loop fuel' (drop (Z.to_nat (4 + aligned param_len)) d) le;
          Done (mkDiscoveryParameter param_id v :: rest)
      else Done []
  end.

Definition parse_parameter_list (d : list byte) (little_endian : bool) : decoded (list DiscoveryParameter) :=
  parameters_loop (length d) d little_endian.

(** The encapsulation header that the three parsers skip: where the parameters
    start and their byte order. *)
Definition skip_encapsulation (d : list byte) (little_endian : bool) : Z * bool :=
  match d with
  | b0 :: b1 :: _ :: _ :: _ =>
      let encap := Z.lor (Z.shiftl (u8 b0) 8) (u8 b1) in
      if (encap =? 1) || (encap =? 0) then (4, encap =? 1) else (0, little_endian)
  | _ => (0, little_endian)
  end.

(** ** Participants (SPDP) *)

Record ParticipantBuiltinTopicData := mkParticipant {
  participant_guid : GUID;
  participant_name : list byte;
  protocol_version : ProtocolVersion;
  p_vendor_id : VendorIdValue;
  builtin_endpoints : Z;
  metatraffic_unicast_locators : list Locator;
  metatraffic_multicast_locators : list Locator;
  default_unicast_locators : list Locator;
  default_multicast_locators : list Locator;
  lease_duration : Time;
  user_data : list byte;
  raw_parameters : list DiscoveryParameter
}.

Definition EntityId_unknown : EntityId := mkEntityId [x00; x00; x00] 0.
Definition GUID_unknown : GUID := mkGUID (replicate 12 x00) EntityId_unknown.
Definition Time_infinite : Time := mkTime 0x7FFFFFFF 0xFFFFFFFF.

Definition new_participant (raw : list DiscoveryParameter) : ParticipantBuiltinTopicData :=
  mkParticipant GUID_unknown [] (mkProtocolVersion 2 4) [x00; x00] 0 [] [] [] [] Time_infinite [] raw.

(** One turn of the loop over the parameters: the [switch] on the identifier. *)
Definition participant_step (le : bool) (p : ParticipantBuiltinTopicData) (q : DiscoveryParameter)
    : decoded ParticipantBuiltinTopicData :=
  let '(mkParticipant guid name ver vendor endpoints mu mm du dm lease ud raw) := p in
  let v := value q in
  let i := id q in
  if i =? PID_PARTICIPANT_GUID then
    if GUID_SIZE <=? zlen v
    then g ← read_guid v 0; Done (mkParticipant g name ver vendor endpoints mu mm du dm lease ud raw) else Done p
  else if i =? PID_PROTOCOL_VERSION then
    if 2 <=? zlen v
    then x ← read_protocol_version v 0; Done (mkParticipant guid name x vendor endpoints mu mm du dm lease ud raw)
    else Done p
  else if i =? PID_VENDOR_ID then
    if 2 <=? zlen v
    then x ← read_vendor_id v 0; Done (mkParticipant guid name ver x endpoints mu mm du dm lease ud raw) else Done p
  else if i =? PID_BUILTIN_ENDPOINT_SET then
    if 4 <=? zlen v
    then x ← read_u32 v 0 le; Done (mkParticipant guid name ver vendor x mu mm du dm lease ud raw) else Done p
  else if i =? PID_PARTICIPANT_LEASE_DURATION then
    if 8 <=? zlen v
    then x ← read_time v 0 le; Done (mkParticipant guid name ver vendor endpoints mu mm du dm x ud raw) else Done p
  else if i =? PID_DEFAULT_UNICAST_LOCATOR then
    if LOCATOR_SIZE <=? zlen v
    then x ← read_locator v 0 le; Done (mkParticipant guid name ver vendor endpoints mu mm (du ++ [x]) dm lease ud raw)
    else Done p
  else if i =? PID_DEFAULT_MULTICAST_LOCATOR then
    if LOCATOR_SIZE <=? zlen v
    then x ← read_locator v 0 le; Done (mkParticipant guid name ver vendor endpoints mu mm du (dm ++ [x]) lease ud raw)
    else Done p
  else if i =? PID_METATRAFFIC_UNICAST_LOCATOR then
    if LOCATOR_SIZE <=? zlen v
    then x ← read_locator v 0 le; Done (mkParticipant guid name ver vendor endpoints (mu ++ [x]) mm du dm lease ud raw)
    else Done p
  else if i =? PID_METATRAFFIC_MULTICAST_LOCATOR then
    if LOCATOR_SIZE <=? zlen v
    then x ← read_locator v 0 le; Done (mkParticipant guid name ver vendor endpoints mu (mm ++ [x]) du dm lease ud raw)
    else Done p
  else if i =? PID_ENTITY_NAME then
    Done (mkParticipant guid (as_string q) ver vendor endpoints mu mm du dm lease ud raw)
  else if i =? PID_USER_DATA then
    Done (mkParticipant guid name ver vendor endpoints mu mm du dm lease v raw)
  else Done p.

Fixpoint fold_parameters {A} (step : A -> DiscoveryParameter -> decoded A) (a : A)
    (ps : list DiscoveryParameter) : decoded A :=
  match ps with
  | [] => Done a
  | q :: ps' => a' ← step a q; fold_parameters step a' ps'
  end.

Definition parse_participant_data (d : list byte) (little_endian : bool)
    : decoded ParticipantBuiltinTopicData :=
  let '(start, le) := skip_encapsulation d little_endian in
  body ← subspan d start;
  params ← parse_parameter_list body le;
  fold_parameters (participant_step le) (new_participant params) params.

(** ** Endpoints (SEDP)

    [PublicationBuiltinTopicData] and [SubscriptionBuiltinTopicData] have the same
    members and their parsers the same body, which reads [writer_guid] there and
    [reader_guid] here: one record with [endpoint_guid].  The QoS members that no
    code writes keep their defaults and are left out. *)

Record EndpointBuiltinTopicData := mkEndpoint {
  endpoint_guid : GUID;
  e_participant_guid : GUID;
  topic_name : list byte;
  type_name : list byte;
  reliability : Z;
  durability : Z;
  unicast_locators : list Locator;
  multicast_locators : list Locator;
  e_raw_parameters : list DiscoveryParameter
}.

Definition new_endpoint (raw : list DiscoveryParameter) : EndpointBuiltinTopicData :=
  mkEndpoint GUID_unknown GUID_unknown [] [] 1 0 [] [] raw.

Definition endpoint_step (le : bool) (p : EndpointBuiltinTopicData) (q : DiscoveryParameter)
    : decoded EndpointBuiltinTopicData :=
  let '(mkEndpoint guid part topic type rel dur uni multi raw) := p in
  let v := value q in
  let i := id q in
  if i =? PID_ENDPOINT_GUID then
    if GUID_SIZE <=? zlen v then g ← read_guid v 0; Done (mkEndpoint g part topic type rel dur uni multi raw)
    else Done p
  else if i =? PID_PARTICIPANT_GUID then
    if GUID_SIZE <=? zlen v then g ← read_guid v 0; Done (mkEndpoint guid g topic type rel dur uni multi raw)
    else Done p
  else if i =? PID_TOPIC_NAME then Done (mkEndpoint guid part (as_string q) type rel dur uni multi raw)
  else if i =? PID_TYPE_NAME then Done (mkEndpoint guid part topic (as_string q) rel dur uni multi raw)
  else if i =? PID_RELIABILITY then
    if 4 <=? zlen v then x ← read_u32 v 0 le; Done (mkEndpoint guid part topic type x dur uni multi raw)
    else Done p
  else if i =? PID_DURABILITY then
    if 4 <=? zlen v then x ← read_u32 v 0 le; Done (mkEndpoint guid part topic type rel x uni multi raw)
    else Done p
  else if i =? PID_UNICAST_LOCATOR then
    if LOCATOR_SIZE <=? zlen v
    then x ← read_locator v 0 le; Done (mkEndpoint guid part topic type rel dur (uni ++ [x]) multi raw) else Done p
  else if i =? PID_MULTICAST_LOCATOR then
    if LOCATOR_SIZE <=? zlen v
    then x ← read_locator v 0 le; Done (mkEndpoint guid part topic type rel dur uni (multi ++ [x]) raw) else Done p
  else Done p.

Definition parse_endpoint_data (d : list byte) (little_endian : bool) : decoded EndpointBuiltinTopicData :=
  let '(start, le) := skip_encapsulation d little_endian in
  body ← subspan d start;
  params ← parse_parameter_list body le;
  fold_parameters (endpoint_step le) (new_endpoint params) params.

Definition parse_publication_data := parse_endpoint_data.
Definition parse_subscription_data := parse_endpoint_data.

(** ** Every parser returns a value on every input *)

Lemma aligned_nonneg len : 0 <= len -> 0 <= aligned len.
Proof. pose proof (aligned_range len). lia. Qed.

Lemma read_u16_fits d i le v : read_u16 d i le = Done v -> fits 16 v.
Proof.
  unfold read_u16, le16_at, be16_at. intros H.
  destruct le; apply bind_inv in H as (b0 & _ & H); apply bind_inv in H as (b1 & _ & H);
    apply Done_inj in H as <-; apply uint_fits; lia.
Qed.

Lemma total_parameters_loop fuel d le : total (parameters_loop fuel d le).
Proof.
  revert d. induction fuel as [|fuel IH]; intros d; cbn [parameters_loop]; [apply total_Done|].
  destruct (4 <=? zlen d) eqn:E; bool_to_prop; [|apply total_Done].
  total_reads; try apply IH.
  match goal with H : read_u16 d 2 le = Done _ |- _ => apply read_u16_fits in H end.
  unfold fits in *. apply total_subspan_count; lia.
Qed.

Lemma total_fold_parameters {A} (step : A -> DiscoveryParameter -> decoded A) a ps :
  (forall a q, total (step a q)) -> total (fold_parameters step a ps).
Proof.
  intros Hs. revert a. induction ps as [|q ps IH]; intros a; cbn [fold_parameters]; [apply total_Done|].
  apply total_bind; [apply Hs | intros a' _; apply IH].
Qed.

Lemma total_read_guid d i : 0 <= i -> i + 16 <= zlen d -> total (read_guid d i).
Proof. intros. unfold read_guid, read_guid_prefix, GUID_PREFIX_SIZE. total_fields. Qed.

(** ** The fields of an announcement *)

(** The value that a parameter gives to a field: it has the field's identifier
    and is not too short. *)
Definition field {A} (pid min : Z) (read : list byte -> decoded A) (q : DiscoveryParameter) : option A :=
  if (id q =? pid) && (min <=? zlen (value q)) then
    match read (value q) with Done a => Some a | _ => None end
  else None.

(** The last parameter that gives a value to the field. *)
Definition last_of {A} (f : DiscoveryParameter -> option A) (ps : list DiscoveryParameter) : option A :=
  last (omap f ps).

Lemma default_last_cons {A} (f : DiscoveryParameter -> option A) (x : A) q ps :
  default (default x (f q)) (last_of f ps) = default x (last_of f (q :: ps)).
Proof.
  unfold last_of. cbn [omap list_omap]. destruct (f q) as [a|]; [|reflexivity]. cbn [default].
  rewrite last_cons. destruct (last (omap f ps)); reflexivity.
Qed.

Lemma omap_cons_app {A} (f : DiscoveryParameter -> option A) (l : list A) q ps :
  (l ++ option_list (f q)) ++ omap f ps = l ++ omap f (q :: ps).
Proof. cbn [omap list_omap]. destruct (f q); cbn [option_list]; rewrite <- app_assoc; reflexivity. Qed.

Lemma last_of_one {A} (f : DiscoveryParameter -> option A) q : last_of f [q] = f q.
Proof. unfold last_of. cbn [omap list_omap]. destruct (f q); reflexivity. Qed.

Lemma omap_one {A} (f : DiscoveryParameter -> option A) q : omap f [q] = option_list (f q).
Proof. cbn [omap list_omap]. destruct (f q); reflexivity. Qed.

Definition string_of (q : DiscoveryParameter) : list byte -> decoded (list byte) := fun _ => Done (as_string q).

Section fields.
Context (le : bool).
Definition guid_field (pid : Z) := field pid GUID_SIZE (fun v => read_guid v 0).
Definition version_field := field PID_PROTOCOL_VERSION 2 (fun v => read_protocol_version v 0).
Definition vendor_field := field PID_VENDOR_ID 2 (fun v => read_vendor_id v 0).
Definition u32_field (pid : Z) := field pid 4 (fun v => read_u32 v 0 le).
Definition lease_field := field PID_PARTICIPANT_LEASE_DURATION 8 (fun v => read_time v 0 le).
Definition locator_field (pid : Z) := field pid LOCATOR_SIZE (fun v => read_locator v 0 le).
Definition string_field (pid : Z) (q : DiscoveryParameter) := field pid 0 (string_of q) q.
Definition bytes_field (pid : Z) := field pid 0 (fun v => Done v).

(** The participant that the parameters [ps] describe, on top of [p]. *)
Definition describe_participant (p : ParticipantBuiltinTopicData) (ps : list DiscoveryParameter)
    : ParticipantBuiltinTopicData := {|
  participant_guid := default (participant_guid p) (last_of (guid_field PID_PARTICIPANT_GUID) ps);
  participant_name := default (participant_name p) (last_of (string_field PID_ENTITY_NAME) ps);
  protocol_version := default (protocol_version p) (last_of version_field ps);
  p_vendor_id := default (p_vendor_id p) (last_of vendor_field ps);
  builtin_endpoints := default (builtin_endpoints p) (last_of (u32_field PID_BUILTIN_ENDPOINT_SET) ps);
  metatraffic_unicast_locators :=
    metatraffic_unicast_locators p ++ omap (locator_field PID_METATRAFFIC_UNICAST_LOCATOR) ps;
  metatraffic_multicast_locators :=
    metatraffic_multicast_locators p ++ omap (locator_field PID_METATRAFFIC_MULTICAST_LOCATOR) ps;
  default_unicast_locators :=
    default_unicast_locators p ++ omap (locator_field PID_DEFAULT_UNICAST_LOCATOR) ps;
  default_multicast_locators :=
    default_multicast_locators p ++ omap (locator_field PID_DEFAULT_MULTICAST_LOCATOR) ps;
  lease_duration := default (lease_duration p) (last_of lease_field ps);
  user_data := default (user_data p) (last_of (bytes_field PID_USER_DATA) ps);
  raw_parameters := raw_parameters p
|}.

Definition describe_endpoint (p : EndpointBuiltinTopicData) (ps : list DiscoveryParameter)
    : EndpointBuiltinTopicData := {|
  endpoint_guid := default (endpoint_guid p) (last_of (guid_field PID_ENDPOINT_GUID) ps);
  e_participant_guid := default (e_participant_guid p) (last_of (guid_field PID_PARTICIPANT_GUID) ps);
  topic_name := default (topic_name p) (last_of (string_field PID_TOPIC_NAME) ps);
  type_name := default (type_name p) (last_of (string_field PID_TYPE_NAME) ps);
  reliability := default (reliability p) (last_of (u32_field PID_RELIABILITY) ps);
  durability := default (durability p) (last_of (u32_field PID_DURABILITY) ps);
  unicast_locators := unicast_locators p ++ omap (locator_field PID_UNICAST_LOCATOR) ps;
  multicast_locators := multicast_locators p ++ omap (locator_field PID_MULTICAST_LOCATOR) ps;
  e_raw_parameters := e_raw_parameters p
|}.

Lemma describe_participant_cons p q ps :
  describe_participant (describe_participant p [q]) ps = describe_participant p (q :: ps).
Proof.
  unfold describe_participant. cbn [participant_guid participant_name protocol_version p_vendor_id
    builtin_endpoints metatraffic_unicast_locators metatraffic_multicast_locators
    default_unicast_locators default_multicast_locators lease_duration user_data raw_parameters].
  rewrite !last_of_one, !omap_one, !default_last_cons, !omap_cons_app. reflexivity.
Qed.
End fields.

(** Decides the identifier tests on a known identifier. *)
Ltac known_id :=
  cbn [Z.eqb Pos.eqb PID_PAD PID_PARTICIPANT_LEASE_DURATION PID_TOPIC_NAME PID_TYPE_NAME PID_PROTOCOL_VERSION
       PID_VENDOR_ID PID_RELIABILITY PID_DURABILITY PID_USER_DATA PID_UNICAST_LOCATOR PID_MULTICAST_LOCATOR
       PID_DEFAULT_UNICAST_LOCATOR PID_METATRAFFIC_UNICAST_LOCATOR PID_METATRAFFIC_MULTICAST_LOCATOR
       PID_DEFAULT_MULTICAST_LOCATOR PID_PARTICIPANT_GUID PID_BUILTIN_ENDPOINT_SET PID_ENDPOINT_GUID
       PID_ENTITY_NAME andb default from_option option_list].

(** The parameter of a known identifier: too short and ignored, or read by [lem]. *)
Ltac step_on lem :=
  subst; known_id; rewrite ?app_nil_r;
  match goal with
  | |- context [?m <=? zlen ?v] =>
      destruct (m <=? zlen v) eqn:?; bool_to_prop; [|known_id; rewrite ?app_nil_r; reflexivity]
  end;
  unfold GUID_SIZE, LOCATOR_SIZE in *;
  match goal with
  | |- context [?r ≫= _] =>
      let H := fresh in
      assert (H : total r) by (lem; lia); destruct H as [? H]; rewrite H, bind_Done; reflexivity
  end.

Section steps.
Context (le : bool).

Lemma participant_step_spec p q : participant_step le p q = Done (describe_participant le p [q]).
Proof.
  destruct p as [guid name ver vendor endpoints mu mm du dm lease ud raw]. destruct q as [i v].
  unfold participant_step, describe_participant. rewrite !last_of_one, !omap_one.
  unfold guid_field, version_field, vendor_field, u32_field, lease_field, locator_field, string_field,
    bytes_field, string_of, field.
  cbn [id value participant_guid participant_name protocol_version p_vendor_id builtin_endpoints
    metatraffic_unicast_locators metatraffic_multicast_locators default_unicast_locators
    default_multicast_locators lease_duration user_data raw_parameters].
  destruct (i =? PID_PARTICIPANT_GUID) eqn:E0; bool_to_prop; [step_on ltac:(apply total_read_guid)|].
  destruct (i =? PID_PROTOCOL_VERSION) eqn:E1; bool_to_prop; [step_on ltac:(unfold read_protocol_version; total_reads)|].
  destruct (i =? PID_VENDOR_ID) eqn:E2; bool_to_prop; [step_on ltac:(apply total_subspan_count)|].
  destruct (i =? PID_BUILTIN_ENDPOINT_SET) eqn:E3; bool_to_prop; [step_on ltac:(apply total_read_u32)|].
  destruct (i =? PID_PARTICIPANT_LEASE_DURATION) eqn:E4; bool_to_prop; [step_on ltac:(apply total_read_time)|].
  destruct (i =? PID_DEFAULT_UNICAST_LOCATOR) eqn:E5; bool_to_prop; [step_on ltac:(apply total_read_locator)|].
  destruct (i =? PID_DEFAULT_MULTICAST_LOCATOR) eqn:E6; bool_to_prop; [step_on ltac:(apply total_read_locator)|].
  destruct (i =? PID_METATRAFFIC_UNICAST_LOCATOR) eqn:E7; bool_to_prop; [step_on ltac:(apply total_read_locator)|].
  destruct (i =? PID_METATRAFFIC_MULTICAST_LOCATOR) eqn:E8; bool_to_prop; [step_on ltac:(apply total_read_locator)|].
  destruct (i =? PID_ENTITY_NAME) eqn:E9; bool_to_prop.
  { subst. known_id. rewrite (proj2 (Z.leb_le 0 _)), !app_nil_r by lia. reflexivity. }
  destruct (i =? PID_USER_DATA) eqn:E10; bool_to_prop.
  { subst. known_id. rewrite (proj2 (Z.leb_le 0 _)), !app_nil_r by lia. reflexivity. }
  known_id. rewrite !app_nil_r. reflexivity.
Qed.

Lemma endpoint_step_spec p q : endpoint_step le p q = Done (describe_endpoint le p [q]).
Proof.
  destruct p as [guid part topic type rel dur uni multi raw]. destruct q as [i v].
  unfold endpoint_step, describe_endpoint. rewrite !last_of_one, !omap_one.
  unfold guid_field, u32_field, locator_field, string_field, string_of, field.
  cbn [id value endpoint_guid e_participant_guid topic_name type_name reliability durability
    unicast_locators multicast_locators e_raw_parameters].
  destruct (i =? PID_ENDPOINT_GUID) eqn:E0; bool_to_prop; [step_on ltac:(apply total_read_guid)|].
  destruct (i =? PID_PARTICIPANT_GUID) eqn:E1; bool_to_prop; [step_on ltac:(apply total_read_guid)|].
  destruct (i =? PID_TOPIC_NAME) eqn:E2; bool_to_prop.
  { subst. known_id. rewrite (proj2 (Z.leb_le 0 _)), !app_nil_r by lia. reflexivity. }
  destruct (i =? PID_TYPE_NAME) eqn:E3; bool_to_prop.
  { subst. known_id. rewrite (proj2 (Z.leb_le 0 _)), !app_nil_r by lia. reflexivity. }
  destruct (i =? PID_RELIABILITY) eqn:E4; bool_to_prop; [step_on ltac:(apply total_read_u32)|].
  destruct (i =? PID_DURABILITY) eqn:E5; bool_to_prop; [step_on ltac:(apply total_read_u32)|].
  destruct (i =? PID_UNICAST_LOCATOR) eqn:E6; bool_to_prop; [step_on ltac:(apply total_read_locator)|].
  destruct (i =? PID_MULTICAST_LOCATOR) eqn:E7; bool_to_prop; [step_on ltac:(apply total_read_locator)|].
  known_id. rewrite !app_nil_r. reflexivity.
Qed.
End steps.

Lemma fold_participant le p ps :
  fold_parameters (participant_step le) p ps = Done (describe_participant le p ps).
Proof.
  revert p. induction ps as [|q ps IH]; intros p; cbn [fold_parameters].
  - unfold describe_participant. cbn. rewrite !app_nil_r. destruct p. reflexivity.
  - rewrite participant_step_spec, bind_Done, IH, describe_participant_cons. reflexivity.
Qed.

Lemma describe_endpoint_cons le p q ps :
  describe_endpoint le (describe_endpoint le p [q]) ps = describe_endpoint le p (q :: ps).
Proof.
  unfold describe_endpoint. cbn [endpoint_guid e_participant_guid topic_name type_name reliability durability
    unicast_locators multicast_locators e_raw_parameters].
  rewrite !last_of_one, !omap_one, !default_last_cons, !omap_cons_app. reflexivity.
Qed.

Lemma fold_endpoint le p ps :
  fold_parameters (endpoint_step le) p ps = Done (describe_endpoint le p ps).
Proof.
  revert p. induction ps as [|q ps IH]; intros p; cbn [fold_parameters].
  - unfold describe_endpoint. cbn. rewrite !app_nil_r. destruct p. reflexivity.
  - rewrite endpoint_step_spec, bind_Done, IH, describe_endpoint_cons. reflexivity.
Qed.

(** ** The layout of a parameter list *)

Definition encode_parameter (le : bool) (q : DiscoveryParameter) : list byte :=
  write_u16 le (id q) ++ write_u16 le (zlen (value q)) ++ value q ++
  replicate (Z.to_nat (aligned (zlen (value q)) - zlen (value q))) x00.
Definition encode_parameters (le : bool) (ps : list DiscoveryParameter) : list byte :=
  concat (encode_parameter le <$> ps).
(** A parameter without value, as the sentinel and the padding are. *)
Definition marker (le : bool) (pid len : Z) : list byte := write_u16 le pid ++ write_u16 le len.
Definition encapsulation (le : bool) (o1 o2 : byte) : list byte := [x00; if le then x01 else x00; o1; o2].

Record wf_parameter (q : DiscoveryParameter) : Prop := {
  wf_id : fits 16 (id q);
  wf_not_marker : id q <> PID_PAD /\ id q <> PID_SENTINEL;
  wf_value : zlen (value q) < 2 ^ 16
}.

Lemma parameters_loop_marker fuel le pid len r :
  fits 16 len -> pid = PID_SENTINEL \/ pid = PID_PAD ->
  parameters_loop (S fuel) (marker le pid len ++ r) le =
    if pid =? PID_SENTINEL then Done [] else parameters_loop fuel r le.
Proof.
  intros Hl Hp. cbn [parameters_loop]. unfold marker. rewrite <- app_assoc.
  destruct (read_u16_u16 le pid len r) as [-> ->];
    [destruct Hp as [-> | ->]; unfold fits, PID_SENTINEL, PID_PAD; lia | exact Hl |].
  rewrite !bind_Done, (proj2 (Z.leb_le 4 _)) by (autorewrite with rtps_len; lia).
  replace (drop 4 _) with r by (destruct le; reflexivity).
  destruct Hp as [-> | ->]; reflexivity.
Qed.

Lemma length_encode_parameter le q :
  zlen (encode_parameter le q) = 4 + aligned (zlen (value q)).
Proof.
  unfold encode_parameter. autorewrite with rtps_len. rewrite length_replicate.
  pose proof (aligned_range (zlen (value q))). lia.
Qed.

Lemma parameters_loop_parameter fuel le q r :
  wf_parameter q ->
  parameters_loop (S fuel) (encode_parameter le q ++ r) le =
    (rest ← parameters_loop fuel r le; Done (q :: rest)).
Proof.
  intros [Hi [Hp Hs] Hv]. cbn [parameters_loop].
  pose proof (length_encode_parameter le q) as Hl. pose proof (aligned_range (zlen (value q))) as Ha.
  set (d := encode_parameter le q ++ r).
  assert (Hd : d = write_u16 le (id q) ++ write_u16 le (zlen (value q)) ++
                   (value q ++ replicate (Z.to_nat (aligned (zlen (value q)) - zlen (value q))) x00 ++ r))
    by (unfold d, encode_parameter; rewrite <- !app_assoc; reflexivity).
  assert (Hn : zlen d = 4 + aligned (zlen (value q)) + zlen r) by (unfold d; rewrite length_app; lia).
  rewrite (proj2 (Z.leb_le 4 _)) by lia.
  destruct (read_u16_u16 le (id q) (zlen (value q)) (value q ++
    replicate (Z.to_nat (aligned (zlen (value q)) - zlen (value q))) x00 ++ r)) as [R1 R2];
    [exact Hi | unfold fits; lia |]. rewrite <- Hd in R1, R2.
  rewrite R1, bind_Done, R2, bind_Done, !(proj2 (Z.eqb_neq _ _)), (proj2 (Z.ltb_ge (zlen d) _)) by (assumption || lia).
  replace (drop (Z.to_nat (4 + aligned (zlen (value q)))) d) with r
    by (unfold d; rewrite <- Hl, Nat2Z.id, drop_app_length; reflexivity).
  replace (subspan_count d 4 (zlen (value q))) with (Done (E:=DecodeError) (value q)).
  - rewrite bind_Done. destruct q. reflexivity.
  - rewrite subspan_count_in by lia. rewrite Hd, Nat2Z.id.
    replace (drop (Z.to_nat 4) _) with
      (value q ++ replicate (Z.to_nat (aligned (zlen (value q)) - zlen (value q))) x00 ++ r)
      by (destruct le; reflexivity).
    rewrite take_app_length. reflexivity.
Qed.

(** The fuel [length d] is enough: every turn passes at least four bytes. *)
Lemma parameters_loop_fuel f1 f2 d le :
  (length d <= f1)%nat -> (length d <= f2)%nat -> parameters_loop f1 d le = parameters_loop f2 d le.
Proof.
  revert f2 d. induction f1 as [|f1 IH]; intros f2 d H1 H2.
  - destruct f2; [reflexivity|]. cbn [parameters_loop]. rewrite (proj2 (Z.leb_gt 4 _)) by lia. reflexivity.
  - destruct f2 as [|f2]; cbn [parameters_loop]; [rewrite (proj2 (Z.leb_gt 4 _)) by lia; reflexivity|].
    destruct (4 <=? zlen d) eqn:E; [|reflexivity]. bool_to_prop.
    destruct (read_u16 d 0 le) as [i| |]; [|reflexivity ..]. rewrite !bind_Done.
    destruct (read_u16 d 2 le) as [len| |] eqn:El; [|reflexivity ..]. rewrite !bind_Done.
    apply read_u16_fits in El. unfold fits in El. pose proof (aligned_range len).
    case_step; [reflexivity|]. case_step; [apply IH; rewrite length_drop; lia|].
    case_step; [reflexivity|]. destruct (subspan_count d 4 len); [|reflexivity ..]. rewrite !bind_Done.
    rewrite (IH f2) by (rewrite length_drop; lia). reflexivity.
Qed.

Lemma parse_parameter_list_encode le ps len rest :
  Forall wf_parameter ps -> fits 16 len ->
  parse_parameter_list (encode_parameters le ps ++ marker le PID_SENTINEL len ++ rest) le = Done ps.
Proof.
  intros Hps Hl. unfold parse_parameter_list.
  induction Hps as [|q ps Hq _ IH].
  - cbn [encode_parameters fmap list_fmap concat app].
    rewrite (parameters_loop_fuel _ (S (length (marker le PID_SENTINEL len ++ rest)))) by lia.
    rewrite parameters_loop_marker by auto. reflexivity.
  - change (encode_parameters le (q :: ps)) with (encode_parameter le q ++ encode_parameters le ps).
    rewrite <- app_assoc. set (tail := encode_parameters le ps ++ marker le PID_SENTINEL len ++ rest) in *.
    rewrite (parameters_loop_fuel _ (S (length (encode_parameter le q ++ tail)))) by lia.
    rewrite parameters_loop_parameter by exact Hq.
    rewrite (parameters_loop_fuel _ (length tail)) by (rewrite ?length_app; lia).
    rewrite IH. reflexivity.
Qed.

Lemma skip_encapsulation_spec le le0 o1 o2 d :
  skip_encapsulation (encapsulation le o1 o2 ++ d) le0 = (4, le).
Proof. destruct le; reflexivity. Qed.

(** [C9] Announcements round trip: from the encapsulated parameter list of any
    parameters, in the byte order of the encapsulation, the participant and the
    endpoint parsers return the parameters in order and each field with the value
    of the last parameter that gives it one, with the locators of each kind in
    order.  Parameters that are unknown or too short give no value. *)
Theorem discovery_round_trip (le le0 : bool) (o1 o2 : byte) (ps : list DiscoveryParameter)
    (len : Z) (rest : list byte) :
  Forall wf_parameter ps -> fits 16 len ->
  let d := encapsulation le o1 o2 ++ encode_parameters le ps ++ marker le PID_SENTINEL len ++ rest in
  parse_participant_data d le0 = Done (describe_participant le (new_participant ps) ps) /\
  parse_publication_data d le0 = Done (describe_endpoint le (new_endpoint ps) ps) /\
  parse_subscription_data d le0 = Done (describe_endpoint le (new_endpoint ps) ps).
Proof.
  intros Hps Hl d.
  assert (He : parse_endpoint_data d le0 = Done (describe_endpoint le (new_endpoint ps) ps)).
  { unfold parse_endpoint_data, d. rewrite skip_encapsulation_spec, subspan_in, bind_Done
      by (rewrite length_app; cbn [length encapsulation]; lia).
    change (drop (Z.to_nat 4) (encapsulation le o1 o2 ++ ?x)) with x.
    rewrite parse_parameter_list_encode, bind_Done by assumption. apply fold_endpoint. }
  split_and!; [|exact He | exact He].
  unfold parse_participant_data, d. rewrite skip_encapsulation_spec, subspan_in, bind_Done
    by (rewrite length_app; cbn [length encapsulation]; lia).
  change (drop (Z.to_nat 4) (encapsulation le o1 o2 ++ ?x)) with x.
  rewrite parse_parameter_list_encode, bind_Done by assumption. apply fold_participant.
Qed.

Lemma discovery_round_trip_witness :
  let guid := mkDiscoveryParameter PID_PARTICIPANT_GUID (replicate 15 x07 ++ [xc1]) in
  let name := mkDiscoveryParameter PID_ENTITY_NAME [x61; x62; x00] in
  let ps := [guid; name; mkDiscoveryParameter PID_VENDOR_ID [x01]] in
  let d := encapsulation true x00 x00 ++ encode_parameters true ps ++ marker true PID_SENTINEL 0 ++ [x55] in
  parse_participant_data d false = Done (describe_participant true (new_participant ps) ps) /\
  parse_publication_data d false = Done (describe_endpoint true (new_endpoint ps) ps) /\
  parse_subscription_data d false = Done (describe_endpoint true (new_endpoint ps) ps).
Proof.
  intros guid name ps d. apply discovery_round_trip; [|vm_compute; split; [discriminate | reflexivity]].
  repeat constructor; cbn; first [discriminate | lia].
Defined.

(** The witness describes the participant by its name, and ignores the short vendor. *)
Example announced_name :
  let ps := [mkDiscoveryParameter PID_ENTITY_NAME [x61; x62; x00]; mkDiscoveryParameter PID_VENDOR_ID [x01]] in
  let p := describe_participant true (new_participant ps) ps in
  participant_name p = [x61; x62] /\ p_vendor_id p = [x00; x00].
Proof. split; reflexivity. Qed.

(** The discovery parsers return a value, and read nothing outside their
    payload, on every sequence of bytes and in either byte order. *)
Theorem discovery_total (d : list byte) (le : bool) :
  total (parse_parameter_list d le) /\ total (parse_participant_data d le) /\
  total (parse_publication_data d le) /\ total (parse_subscription_data d le).
Proof.
  assert (Hs : 0 <= (skip_encapsulation d le).1 <= zlen d).
  { destruct d as [|b0 [|b1 [|b2 [|b3 r]]]]; cbn [skip_encapsulation length fst]; try lia.
    case_step; cbn [fst]; lia. }
  assert (He : total (parse_endpoint_data d le)).
  { unfold parse_endpoint_data. destruct (skip_encapsulation d le) as [start le']. cbn [fst] in Hs.
    rewrite subspan_in, bind_Done by exact Hs.
    destruct (total_parameters_loop (length (drop (Z.to_nat start) d)) (drop (Z.to_nat start) d) le') as [ps Hps].
    unfold parse_parameter_list. rewrite Hps, bind_Done, fold_endpoint. apply total_Done. }
  split_and!; [apply total_parameters_loop | | exact He | exact He].
  unfold parse_participant_data. destruct (skip_encapsulation d le) as [start le']. cbn [fst] in Hs.
  rewrite subspan_in, bind_Done by exact Hs.
  destruct (total_parameters_loop (length (drop (Z.to_nat start) d)) (drop (Z.to_nat start) d) le') as [ps Hps].
  unfold parse_parameter_list. rewrite Hps, bind_Done, fold_participant. apply total_Done.
Qed.

(** The length of a padding parameter is not skipped: parsing goes on inside
    its value, whatever length it declares.  So padding that holds the bytes of a
    sentinel ends the list, and the parameters after the padding are lost. *)
Theorem discovery_pad_length_ignored (le : bool) (len : Z) (r : list byte) :
  fits 16 len ->
  parse_parameter_list (marker le PID_PAD len ++ r) le = parse_parameter_list r le /\
  (forall n, fits 16 n ->
   parse_parameter_list (marker le PID_PAD len ++ marker le PID_SENTINEL n ++ r) le = Done []).
Proof.
  intros Hl. unfold parse_parameter_list.
  assert (Hpad : forall r, parameters_loop (length (marker le PID_PAD len ++ r)) (marker le PID_PAD len ++ r) le
                           = parameters_loop (length r) r le).
  { intros r'. rewrite (parameters_loop_fuel _ (S (length (marker le PID_PAD len ++ r')))) by lia.
    rewrite parameters_loop_marker by auto. cbn [PID_PAD PID_SENTINEL Z.eqb].
    apply parameters_loop_fuel; rewrite ?length_app; lia. }
  split; [apply Hpad|]. intros n Hn. rewrite Hpad.
  rewrite (parameters_loop_fuel _ (S (length (marker le PID_SENTINEL n ++ r)))) by lia.
  rewrite parameters_loop_marker by auto. reflexivity.
Qed.

Lemma discovery_pad_length_ignored_witness :
  let topic := encode_parameter true (mkDiscoveryParameter PID_TOPIC_NAME [x61; x00]) in
  parse_parameter_list (marker true PID_PAD 4 ++ topic) true = parse_parameter_list topic true /\
  (forall n, fits 16 n ->
   parse_parameter_list (marker true PID_PAD 4 ++ marker true PID_SENTINEL n ++ topic) true = Done []).
Proof. intros topic. apply discovery_pad_length_ignored. vm_compute; split; [discriminate | reflexivity]. Defined.
