(* ===== verification/Dispatcher.v ===== *)
(** * The protocol dispatcher (src/protocols/dispatcher.cpp,
    include/wadjet/protocols/dispatcher.hpp)

    [ProtocolDispatcher] chains the decoders over a packet: Ethernet, IPv4 or
    gPTP, UDP or TCP, and an application protocol chosen by the ports.  Its only
    state that decoding changes is the SOME/IP-TP reassembler of its SOME/IP
    decoder, which the model passes along.

    The [std::span& data] that the helpers advance is not read after they return,
    so it is an argument here. *)

From Stdlib Require Import ZArith Lia.
From Stdlib Require Import Strings.Byte.
From stdpp Require Import base numbers list gmap strings.
From S2P Require Import Prelude ByteOrder Decoder.
From S2P Require Ethernet Ipv4 Udp Tcp SomeIp SomeIpSd DoIP Gptp Rtps.

(** ** Data *)

(** [DecodedHeaderVariant] *)
Inductive DecodedHeader :=
| EthernetLayer (h : Ethernet.EthernetHeader)
| IPv4Layer (h : Ipv4.IPv4Header)
| UdpLayer (h : Udp.UdpHeader)
| TcpLayer (h : Tcp.TcpHeader)
| SomeIpLayer (h : SomeIp.SomeIpHeader)
| SomeIpSdLayer (h : SomeIpSd.SomeIpSdHeader)
| DoIPLayer (h : DoIP.DoIPHeader)
| GptpLayer (h : Gptp.GptpHeader)
| RtpsLayer (h : Rtps.RtpsHeader).

Record DecodeStackResult := mkResult {
  layers : list DecodedHeader;
  payload : list byte;
  error : option DecodeError;
  complete : bool
}.

Definition push (r : DecodeStackResult) (l : DecodedHeader) : DecodeStackResult :=
  mkResult (layers r ++ [l]) (payload r) (error r) (complete r).
Definition set_payload (r : DecodeStackResult) (d : list byte) : DecodeStackResult :=
  mkResult (layers r) d (error r) (complete r).
(** [result.error = e; result.complete = false;]. *)
Definition set_error (r : DecodeStackResult) (e : DecodeError) : DecodeStackResult :=
  mkResult (layers r) (payload r) (Some e) false.

Record DispatcherOptions := mkDispatcherOptions {
  stop_on_error : bool;
  decode_app : bool;
  max_layers : Z;
  validate_ipv4_checksum : bool
}.
Definition DispatcherOptions_default : DispatcherOptions := mkDispatcherOptions false true 16 false.

(** The dispatcher: its options, the options its IPv4 decoder was built with, and
    the state of its SOME/IP decoder. *)
Record ProtocolDispatcher := mkDispatcher {
  options : DispatcherOptions;
  ipv4_options : Ipv4.Options;
  tp_reassembler : SomeIp.Reassembler
}.

(** The constructor. *)
Definition new_dispatcher (opts : DispatcherOptions) : ProtocolDispatcher :=
  mkDispatcher opts (Ipv4.mkOptions (validate_ipv4_checksum opts) true) ∅.

Definition set_options (d : ProtocolDispatcher) (opts : DispatcherOptions) : ProtocolDispatcher :=
  mkDispatcher opts (ipv4_options d) (tp_reassembler d).

(** [layers.size() >= options_.max_layers]. *)
Definition layers_full (opts : DispatcherOptions) (r : DecodeStackResult) : bool :=
  max_layers opts <=? zlen (layers r).

(** What a dispatch does: it returns its result and the reassembler, or it is
    undefined; it has no error of its own. *)
Abbreviation run := (res Empty_set).
Abbreviation outcome := (run (DecodeStackResult * SomeIp.Reassembler)).

(** [auto r = decoder.decode(ctx); if (r) ... else ...]. *)
Definition attempt {A B} (m : decoded A) (ok : A -> run B) (err : DecodeError -> run B) : run B :=
  match m with
  | Done a => ok a
  | Fail e => err e
  | Undef => Undef
  end.

(** ** The helpers *)

Definition decode_gptp (opts : DispatcherOptions) (st : SomeIp.Reassembler) (r : DecodeStackResult)
    (data : list byte) : outcome :=
  if (zlen data =? 0) || layers_full opts r then Done (r, st)
  else
    let ctx := with_layer_info (context_of data) (mkLayerInfo Ethernet.EtherType_PTP 0 0 0) in
    attempt (Gptp.decode_impl Gptp.Options_default ctx)
      (fun hn =>
         let r := push r (GptpLayer hn.1) in
         let consumed := Gptp.message_length hn.1 in
         data ← (if consumed <=? zlen data then subspan data consumed else Done []);
         Done (set_payload r data, st))
      (fun e => let r := set_error r e in
                if stop_on_error opts then Done (r, st) else Done (r, st)).

Definition decode_rtps (opts : DispatcherOptions) (st : SomeIp.Reassembler) (r : DecodeStackResult)
    (data : list byte) : outcome :=
  if (zlen data =? 0) || layers_full opts r then Done (r, st)
  else
    attempt (Rtps.decode data)
      (fun h => Done (set_payload (push r (RtpsLayer h)) [], st))
      (fun e => let r := set_error r e in
                if stop_on_error opts then Done (r, st) else Done (r, st)).

(** The SOME/IP-SD branch of [decode_application]. *)
Definition decode_someip_sd (opts : DispatcherOptions) (st : SomeIp.Reassembler) (r : DecodeStackResult)
    (data : list byte) : outcome :=
  attempt (SomeIp.decode_impl SomeIp.Options_default st (context_of data))
    (fun hns =>
       let '(hdr, _, st) := hns in
       let r := push r (SomeIpLayer hdr) in
       data ← subspan data (SomeIp.header_size hdr);
       if SomeIp.is_service_discovery hdr && negb (layers_full opts r) then
         attempt (SomeIpSd.decode_impl SomeIpSd.Options_default (context_of data))
           (fun hn =>
              let r := push r (SomeIpSdLayer hn.1) in
              data ← subspan data (SomeIpSd.header_size hn.1 + SomeIpSd.payload_size hn.1);
              Done (set_payload r data, st))
           (fun _ => Done (r, st))
       else Done (set_payload r data, st))
    (fun e => Done (match error r with None => set_error r e | Some _ => r end, st)).

(** Its last branch, SOME/IP on any other port. *)
Definition decode_someip_heuristic (st : SomeIp.Reassembler) (r : DecodeStackResult) (data : list byte) : outcome :=
  if SomeIp.HEADER_SIZE <=? zlen data then
    attempt (SomeIp.decode_impl SomeIp.Options_default st (context_of data))
      (fun hns =>
         let '(hdr, _, st) := hns in
         if (8 <=? SomeIp.sip_length hdr) && (SomeIp.sip_length hdr <=? zlen data) then
           let r := push r (SomeIpLayer hdr) in
           data ← subspan data (SomeIp.header_size hdr);
           Done (set_payload r data, st)
         else Done (r, st))
      (fun _ => Done (r, st))
  else Done (r, st).

Definition has_rtps_magic (data : list byte) : bool :=
  match data with
  | r :: t :: p :: s :: _ => (u8 r =? 0x52) && (u8 t =? 0x54) && (u8 p =? 0x50) && (u8 s =? 0x53)
  | _ => false
  end.

Definition decode_application (opts : DispatcherOptions) (st : SomeIp.Reassembler) (r : DecodeStackResult)
    (data : list byte) (src_port dst_port : Z) : outcome :=
  if (zlen data =? 0) || layers_full opts r then Done (r, st)
  else if (src_port =? Udp.port_DOIP) || (dst_port =? Udp.port_DOIP) then
    attempt (DoIP.decode_impl DoIP.Options_default (context_of data))
      (fun hn =>
         let r := push r (DoIPLayer hn.1) in
         data ← subspan data (DoIP.header_size hn.1);
         Done (set_payload r data, st))
      (fun e => Done (match error r with None => set_error r e | Some _ => r end, st))
  else if (Rtps.is_likely_rtps_port src_port || Rtps.is_likely_rtps_port dst_port) && has_rtps_magic data then
    decode_rtps opts st r data
  else if (src_port =? Udp.port_SOMEIP_SD) || (dst_port =? Udp.port_SOMEIP_SD) then
    decode_someip_sd opts st r data
  else decode_someip_heuristic st r data.

Definition decode_transport (opts : DispatcherOptions) (st : SomeIp.Reassembler) (r : DecodeStackResult)
    (data : list byte) (ip_protocol : Z) : outcome :=
  if layers_full opts r then Done (r, st)
  else if ip_protocol =? Ipv4.IpProtocol_UDP then
    let ctx := with_layer_info (context_of data) (mkLayerInfo 0 ip_protocol 0 0) in
    attempt (Udp.decode_impl Udp.Options_default ctx)
      (fun hn =>
         let hdr := hn.1 in
         let r := push r (UdpLayer hdr) in
         data ← subspan data (Udp.header_size hdr);
         let r := set_payload r data in
         if decode_app opts
         then decode_application opts st r data (Udp.udp_src_port hdr) (Udp.udp_dst_port hdr)
         else Done (r, st))
      (fun e => let r := set_error r e in
                if stop_on_error opts then Done (r, st) else Done (r, st))
  else if ip_protocol =? Ipv4.IpProtocol_TCP then
    let ctx := with_layer_info (context_of data) (mkLayerInfo 0 ip_protocol 0 0) in
    attempt (Tcp.decode_impl Tcp.Options_default ctx)
      (fun hn =>
         let hdr := hn.1 in
         let r := push r (TcpLayer hdr) in
         data ← subspan data (Tcp.header_size hdr);
         let r := set_payload r data in
         if decode_app opts && negb (zlen data =? 0)
         then decode_application opts st r data (Tcp.tcp_src_port hdr) (Tcp.tcp_dst_port hdr)
         else Done (r, st))
      (fun e => let r := set_error r e in
                if stop_on_error opts then Done (r, st) else Done (r, st))
  else Done (r, st).

(** ** The entry points *)

Definition empty_packet (data : list byte) : DecodeStackResult :=
  set_error (mkResult [] data None true) (new_DecodeError BufferTooSmall 0 "Empty packet data").

(** [if (!result.error.has_value()) result.complete = true;]. *)
Definition mark_complete (r : DecodeStackResult) : DecodeStackResult :=
  match error r with
  | None => mkResult (layers r) (payload r) None true
  | Some _ => r
  end.

Definition decode_ethernet (opts : DispatcherOptions) (ip : Ipv4.Options) (st : SomeIp.Reassembler)
    (data : list byte) : outcome :=
  let r := mkResult [] data None true in
  if zlen data =? 0 then Done (empty_packet data, st)
  else
    attempt (Ethernet.decode_impl (context_of data))
      (fun hn =>
         let eth := hn.1 in
         let r := push r (EthernetLayer eth) in
         data ← subspan data (Ethernet.header_size eth);
         let r := set_payload r data in
         if Ethernet.eth_ethertype eth =? Ethernet.EtherType_IPv4 then
           let ctx := with_layer_info (context_of data) (mkLayerInfo (Ethernet.eth_ethertype eth) 0 0 0) in
           attempt (Ipv4.decode_impl ip ctx)
             (fun hn =>
                let iph := hn.1 in
                let r := push r (IPv4Layer iph) in
                data ← subspan data (Ipv4.header_size iph);
                let r := set_payload r data in
                out ← decode_transport opts st r data (Ipv4.ip_protocol iph);
                Done (mark_complete out.1, out.2))
             (fun e => let r := set_error r e in
                       if stop_on_error opts then Done (r, st) else Done (mark_complete r, st))
         else if Ethernet.eth_ethertype eth =? Ethernet.EtherType_PTP then
           out ← decode_gptp opts st r data;
           Done (mark_complete out.1, out.2)
         else Done (mark_complete r, st))
      (fun e => let r := set_error r e in
                if stop_on_error opts then Done (r, st) else Done (mark_complete r, st)).

Definition decode_ip (opts : DispatcherOptions) (ip : Ipv4.Options) (st : SomeIp.Reassembler)
    (data : list byte) : outcome :=
  let r := mkResult [] data None true in
  if zlen data =? 0 then Done (empty_packet data, st)
  else
    let ctx := with_layer_info (context_of data) (mkLayerInfo Ethernet.EtherType_IPv4 0 0 0) in
    attempt (Ipv4.decode_impl ip ctx)
      (fun hn =>
         let iph := hn.1 in
         let r := push r (IPv4Layer iph) in
         data ← subspan data (Ipv4.header_size iph);
         let r := set_payload r data in
         decode_transport opts st r data (Ipv4.ip_protocol iph))
      (fun e => Done (set_error r e, st)).

(** [ProtocolDispatcher::decode] and [decode_from_ip]: the result and the dispatcher after it. *)
Definition with_reassembler (d : ProtocolDispatcher) (st : SomeIp.Reassembler) : ProtocolDispatcher :=
  mkDispatcher (options d) (ipv4_options d) st.

Definition decode (d : ProtocolDispatcher) (data : list byte) : run (DecodeStackResult * ProtocolDispatcher) :=
  out ← decode_ethernet (options d) (ipv4_options d) (tp_reassembler d) data;
  Done (out.1, with_reassembler d out.2).

Definition decode_from_ip (d : ProtocolDispatcher) (data : list byte)
    : run (DecodeStackResult * ProtocolDispatcher) :=
  out ← decode_ip (options d) (ipv4_options d) (tp_reassembler d) data;
  Done (out.1, with_reassembler d out.2).

(** ** Queries and filters *)

(** [get_layer<HeaderT>()], for a projection to the header type. *)
Fixpoint get_layer {H} (as_header : DecodedHeader -> option H) (ls : list DecodedHeader) : option H :=
  match ls with
  | [] => None
  | l :: ls' => match as_header l with Some h => Some h | None => get_layer as_header ls' end
  end.
(** [get_all_layers<HeaderT>()] and [has_layer<HeaderT>()]. *)
Fixpoint get_all_layers {H} (as_header : DecodedHeader -> option H) (ls : list DecodedHeader) : list H :=
  match ls with
  | [] => []
  | l :: ls' =>
      match as_header l with Some h => h :: get_all_layers as_header ls' | None => get_all_layers as_header ls' end
  end.
Definition has_layer {H} (as_header : DecodedHeader -> option H) (ls : list DecodedHeader) : bool :=
  existsb (fun l => match as_header l with Some _ => true | None => false end) ls.
Definition as_ipv4 (l : DecodedHeader) := match l with IPv4Layer h => Some h | _ => None end.
Definition as_udp (l : DecodedHeader) := match l with UdpLayer h => Some h | _ => None end.
Definition as_tcp (l : DecodedHeader) := match l with TcpLayer h => Some h | _ => None end.
Definition as_someip (l : DecodedHeader) := match l with SomeIpLayer h => Some h | _ => None end.
Definition as_doip (l : DecodedHeader) := match l with DoIPLayer h => Some h | _ => None end.
Definition as_gptp (l : DecodedHeader) := match l with GptpLayer h => Some h | _ => None end.

Abbreviation ProtocolFilter := (DecodeStackResult -> bool).
Definition on_layer {H} (as_header : DecodedHeader -> option H) (p : H -> bool) : ProtocolFilter :=
  fun r => match get_layer as_header (layers r) with Some h => p h | None => false end.

Definition has_protocol {H} (as_header : DecodedHeader -> option H) : ProtocolFilter :=
  fun r => has_layer as_header (layers r).
Definition someip_service (sid : Z) : ProtocolFilter :=
  on_layer as_someip (fun h => SomeIp.service_id h =? sid).
Definition someip_method (sid mid : Z) : ProtocolFilter :=
  on_layer as_someip (fun h => (SomeIp.service_id h =? sid) && (SomeIp.method_id h =? mid)).
Definition doip_type (t : Z) : ProtocolFilter := on_layer as_doip (fun h => DoIP.payload_type h =? t).
Definition gptp_message (t : Z) : ProtocolFilter := on_layer as_gptp (fun h => Gptp.message_type h =? t).
Definition gptp_domain (n : Z) : ProtocolFilter := on_layer as_gptp (fun h => Gptp.domain_number h =? n).
Definition ip_address (a : list byte) : ProtocolFilter :=
  on_layer as_ipv4 (fun h => bool_decide (Ipv4.ip_src h = a) || bool_decide (Ipv4.ip_dst h = a)).
Definition port (n : Z) : ProtocolFilter :=
  fun r =>
    match get_layer as_udp (layers r) with
    | Some h => (Udp.udp_src_port h =? n) || (Udp.udp_dst_port h =? n)
    | None =>
        match get_layer as_tcp (layers r) with
        | Some h => (Tcp.tcp_src_port h =? n) || (Tcp.tcp_dst_port h =? n)
        | None => false
        end
    end.
Definition filter_and (f g : ProtocolFilter) : ProtocolFilter := fun r => f r && g r.
Definition filter_or (f g : ProtocolFilter) : ProtocolFilter := fun r => f r || g r.
Definition filter_not (f : ProtocolFilter) : ProtocolFilter := fun r => negb (f r).

(** The decoders of fixed headers keep the decoder contract. *)
#[local] Existing Instances Ethernet.EthernetDecoder_contract Ipv4.IPv4Decoder_contract
  Udp.UdpDecoder_contract Tcp.TcpDecoder_contract DoIP.DoIPDecoder_contract.

(** ** What a decoded stack is

    [layer_at l d d']: [l] is the header that its decoder, with the options the
    dispatcher gives it, returns on the data [d], and [d'] is what it leaves. *)
Definition layer_at (l : DecodedHeader) (d d' : list byte) : Prop :=
  exists ctx, data ctx = d /\
  match l with
  | EthernetLayer h => exists next, Ethernet.decode_impl ctx = Done (h, next) /\ d' = data next
  | IPv4Layer h => exists ip next, Ipv4.decode_impl ip ctx = Done (h, next) /\ d' = data next
  | UdpLayer h => exists next, Udp.decode_impl Udp.Options_default ctx = Done (h, next) /\ d' = data next
  | TcpLayer h => exists next, Tcp.decode_impl Tcp.Options_default ctx = Done (h, next) /\ d' = data next
  | SomeIpLayer h =>
      exists st next st', SomeIp.decode_impl SomeIp.Options_default st ctx = Done (h, next, st') /\
                          d' = drop (Z.to_nat (SomeIp.header_size h)) d
  | SomeIpSdLayer h =>
      exists next, SomeIpSd.decode_impl SomeIpSd.Options_default ctx = Done (h, next) /\
                   d' = drop (Z.to_nat (SomeIpSd.header_size h)) d
  | DoIPLayer h => exists next, DoIP.decode_impl DoIP.Options_default ctx = Done (h, next) /\ d' = data next
  | GptpLayer h =>
      exists next, Gptp.decode_impl Gptp.Options_default ctx = Done (h, next) /\
                   d' = drop (Z.to_nat (Gptp.message_length h)) d
  | RtpsLayer h => Rtps.decode d = Done h /\ d' = []
  end.

Definition ports_of (l : DecodedHeader) : option (Z * Z) :=
  match l with
  | UdpLayer h => Some (Udp.udp_src_port h, Udp.udp_dst_port h)
  | TcpLayer h => Some (Tcp.tcp_src_port h, Tcp.tcp_dst_port h)
  | _ => None
  end.
Definition on_port (p : Z -> bool) (l : DecodedHeader) : Prop :=
  exists s d, ports_of l = Some (s, d) /\ p s || p d = true.

(** [follows l l']: the fields of [l] announce the protocol of [l']. *)
Definition follows (l l' : DecodedHeader) : Prop :=
  match l, l' with
  | EthernetLayer e, IPv4Layer _ => Ethernet.eth_ethertype e = Ethernet.EtherType_IPv4
  | EthernetLayer e, GptpLayer _ => Ethernet.eth_ethertype e = Ethernet.EtherType_PTP
  | IPv4Layer i, UdpLayer _ => Ipv4.ip_protocol i = Ipv4.IpProtocol_UDP
  | IPv4Layer i, TcpLayer _ => Ipv4.ip_protocol i = Ipv4.IpProtocol_TCP
  | _, DoIPLayer _ => on_port (fun p => p =? Udp.port_DOIP) l
  | _, RtpsLayer _ => on_port Rtps.is_likely_rtps_port l
  | _, SomeIpLayer _ => is_Some (ports_of l) /\ ~ on_port (fun p => p =? Udp.port_DOIP) l
  | SomeIpLayer h, SomeIpSdLayer _ =>
      SomeIp.is_service_discovery h = true
  | _, _ => False
  end.

(** [stack first d ls rest]: the layers [ls] are decoded one after the other from
    [d], each announced by the one before, the first one as [first] says. *)
Inductive stack (first : DecodedHeader -> Prop) : list byte -> list DecodedHeader -> list byte -> Prop :=
| stack_nil d : stack first d [] d
| stack_cons l d d' ls rest :
    first l -> layer_at l d d' -> stack (follows l) d' ls rest -> stack first d (l :: ls) rest.

Definition is_ethernet (l : DecodedHeader) : Prop := match l with EthernetLayer _ => True | _ => False end.
Definition is_ipv4_layer (l : DecodedHeader) : Prop := match l with IPv4Layer _ => True | _ => False end.

(** The payload is what the layers leave.  The one exception is a SOME/IP message
    that announces service discovery content which is then rejected: its layer is
    kept, and the payload still starts with its header. *)
Definition payload_after (ls : list DecodedHeader) (rest payload : list byte) : Prop :=
  payload = rest \/
  exists h, last ls = Some (SomeIpLayer h) /\ SomeIp.is_service_discovery h = true /\
            rest = drop (Z.to_nat (SomeIp.header_size h)) payload.

(** [complete] says that there is no error. *)
Definition flags_agree (r : DecodeStackResult) : Prop := complete r = true <-> error r = None.

(** What a helper called on [data] with the result [r] does to the result. *)
Definition extends (first : DecodedHeader -> Prop) (opts : DispatcherOptions) (data : list byte)
    (r r' : DecodeStackResult) : Prop :=
  payload r = data -> flags_agree r ->
  exists ls rest,
    layers r' = layers r ++ ls /\ stack first data ls rest /\ payload_after ls rest (payload r') /\
    flags_agree r' /\ zlen (layers r') <= Z.max (zlen (layers r)) (max_layers opts).

Definition outcome_extends (first : DecodedHeader -> Prop) (opts : DispatcherOptions) (data : list byte)
    (r : DecodeStackResult) (o : outcome) : Prop :=
  forall r' st', o = Done (r', st') -> extends first opts data r r'.

Lemma extends_refl first opts data r : extends first opts data r r.
Proof.
  intros Hp Hf. exists [], data. rewrite app_nil_r.
  split_and!; [reflexivity | constructor | left; exact Hp | exact Hf | lia].
Qed.

Lemma extends_error first opts data r e : extends first opts data r (set_error r e).
Proof.
  intros Hp Hf. exists [], data. cbn [set_error layers payload]. rewrite app_nil_r.
  split_and!; [reflexivity | constructor | left; exact Hp | split; discriminate | lia].
Qed.

Lemma extends_error_if first opts data r e :
  extends first opts data r (match error r with None => set_error r e | Some _ => r end).
Proof. destruct (error r); [apply extends_refl | apply extends_error]. Qed.

(** One more layer, and then what a helper does after it. *)
Lemma extends_push first opts data l d' r r' :
  first l -> layer_at l data d' -> layers_full opts r = false ->
  extends (follows l) opts d' (set_payload (push r l) d') r' -> extends first opts data r r'.
Proof.
  intros Hl Hat Hfull H Hp Hf. unfold layers_full in Hfull. bool_to_prop.
  destruct H as (ls & rest & Hls & Hst & Hpay & Hfl & Hsz); [reflexivity | exact Hf|].
  cbn [set_payload push layers] in Hls, Hsz. rewrite <- app_assoc in Hls. rewrite length_app in Hsz. cbn [length] in Hsz.
  exists (l :: ls), rest. split_and!; [exact Hls | econstructor; eassumption | | exact Hfl | lia].
  destruct Hpay as [Hpay|(h & Hlast & Hh)]; [left; exact Hpay | right].
  exists h. split; [|exact Hh]. rewrite last_cons, Hlast. reflexivity.
Qed.

Lemma extends_last first opts data l d' r :
  first l -> layer_at l data d' -> layers_full opts r = false ->
  extends first opts data r (set_payload (push r l) d').
Proof. intros. eapply extends_push; [eassumption .. | apply extends_refl]. Qed.

Lemma attempt_inv {A B} (m : decoded A) (ok : A -> run B) (err : DecodeError -> run B) b :
  attempt m ok err = Done b -> (exists a, m = Done a /\ ok a = Done b) \/ (exists e, err e = Done b).
Proof. destruct m; cbn [attempt]; intros H; [eauto | eauto | discriminate H]. Qed.

(** What a decoder that keeps the contract leaves is what the dispatcher advances to. *)
Lemma advance {H} (dec : DecodeContext -> decoded (H * DecodeContext)) hs `{!DecoderContract dec hs} ctx h next :
  dec ctx = Done (h, next) -> subspan (E:=Empty_set) (data ctx) (hs h) = Done (data next).
Proof.
  intros E. destruct (decode_fits _ _ _ E), (decode_next _ _ _ E) as [-> _]. apply subspan_in. lia.
Qed.

Lemma decode_gptp_extends first opts st r d :
  (forall h, first (GptpLayer h)) -> outcome_extends first opts d r (decode_gptp opts st r d).
Proof.
  intros Hf r' st' H. unfold decode_gptp in H. case_in H; bool_to_prop.
  { apply Done_pair_inj in H as [<- _]. apply extends_refl. }
  apply attempt_inv in H as [([h next] & Ha & H)|[e H]]; cbn zeta in H.
  - apply bind_inv in H as (d' & Hd & H). apply Done_pair_inj in H as [<- _].
    apply extends_last; [apply Hf | | assumption].
    exists (with_layer_info (context_of d) (mkLayerInfo Ethernet.EtherType_PTP 0 0 0)). split; [reflexivity|].
    exists next. split; [exact Ha|]. cbn [fst] in Hd. destruct (Gptp.message_length h <=? zlen d) eqn:Hc.
    + apply subspan_inv in Hd as [_ ->]. reflexivity.
    + apply Done_inj in Hd as <-. apply Z.leb_gt in Hc. symmetry. apply drop_ge. cbn [fst]. lia.
  - assert (Hr : Done (E:=Empty_set) (set_error r e, st) = Done (r', st')) by (destruct (stop_on_error opts); exact H).
    apply Done_pair_inj in Hr as [<- _]. apply extends_error.
Qed.

Lemma decode_rtps_extends first opts st r d :
  (forall h, first (RtpsLayer h)) -> outcome_extends first opts d r (decode_rtps opts st r d).
Proof.
  intros Hf r' st' H. unfold decode_rtps in H. case_in H; bool_to_prop.
  { apply Done_pair_inj in H as [<- _]. apply extends_refl. }
  apply attempt_inv in H as [(h & Ha & H)|[e H]]; cbn zeta in H.
  - apply Done_pair_inj in H as [<- _]. apply extends_last; [apply Hf | | assumption].
    exists (context_of d). split; [reflexivity|]. split; [exact Ha | reflexivity].
  - assert (Hr : Done (E:=Empty_set) (set_error r e, st) = Done (r', st')) by (destruct (stop_on_error opts); exact H).
    apply Done_pair_inj in Hr as [<- _]. apply extends_error.
Qed.

Lemma someip_layer_at st d h next st' :
  SomeIp.decode_impl SomeIp.Options_default st (context_of d) = Done (h, next, st') ->
  layer_at (SomeIpLayer h) d (drop (Z.to_nat (SomeIp.header_size h)) d).
Proof. intros H. exists (context_of d). split; [reflexivity|]. exists st, next, st'. split; [exact H | reflexivity]. Qed.

Lemma decode_someip_sd_extends first opts st r d :
  (forall h, first (SomeIpLayer h)) -> layers_full opts r = false ->
  outcome_extends first opts d r (decode_someip_sd opts st r d).
Proof.
  intros Hf Hfull r' st' H. unfold decode_someip_sd in H.
  apply attempt_inv in H as [([[h next] st1] & Ha & H)|[e H]]; cbn zeta in H.
  2:{ apply Done_pair_inj in H as [<- _]. apply extends_error_if. }
  apply bind_inv in H as (d' & Hd & H). apply subspan_inv in Hd as [Hsz ->].
  set (d' := drop (Z.to_nat (SomeIp.header_size h)) d) in *.
  apply someip_layer_at in Ha. fold d' in Ha.
  case_in H; bool_to_prop.
  2:{ apply Done_pair_inj in H as [<- _]. apply extends_last; auto. }
  apply attempt_inv in H as [([hsd next'] & Hs & H)|[e H]]; cbn zeta in H.
  - apply bind_inv in H as (d2 & Hd2 & H). apply subspan_inv in Hd2 as [_ ->]. apply Done_pair_inj in H as [<- _].
    eapply extends_push; [apply Hf | exact Ha | exact Hfull|].
    apply (extends_last _ _ _ _ _ (set_payload (push r (SomeIpLayer h)) d')); [exact H0 | | exact H1].
    exists (context_of d'). split; [reflexivity|]. exists next'. split; [exact Hs|].
    unfold SomeIpSd.payload_size. rewrite Z.add_0_r. reflexivity.
  - apply Done_pair_inj in H as [<- _]. intros Hp Hfl. exists [SomeIpLayer h], d'.
    split_and!; [reflexivity | econstructor; [apply Hf | exact Ha | constructor] | | exact Hfl |].
    + right. exists h. split_and!; [reflexivity | exact H0 |]. cbn [push payload]. rewrite Hp. reflexivity.
    + unfold layers_full in Hfull. bool_to_prop. cbn [push layers]. rewrite length_app. cbn [length]. lia.
Qed.

Lemma decode_someip_heuristic_extends first opts st r d :
  (forall h, first (SomeIpLayer h)) -> layers_full opts r = false ->
  outcome_extends first opts d r (decode_someip_heuristic st r d).
Proof.
  intros Hf Hfull r' st' H. unfold decode_someip_heuristic in H. case_in H.
  2:{ apply Done_pair_inj in H as [<- _]. apply extends_refl. }
  apply attempt_inv in H as [([[h next] st1] & Ha & H)|[e H]]; cbn zeta in H.
  2:{ apply Done_pair_inj in H as [<- _]. apply extends_refl. }
  case_in H.
  2:{ apply Done_pair_inj in H as [<- _]. apply extends_refl. }
  apply bind_inv in H as (d' & Hd & H). apply subspan_inv in Hd as [_ ->]. apply Done_pair_inj in H as [<- _].
  apply extends_last; [apply Hf | eapply someip_layer_at; exact Ha | exact Hfull].
Qed.

Lemma on_port_iff p l s d : ports_of l = Some (s, d) -> on_port p l <-> p s || p d = true.
Proof.
  intros Hl. split; [intros (s' & d' & E & H) | intros H; exists s, d; auto].
  rewrite Hl in E. injection E as <- <-. exact H.
Qed.

Lemma decode_application_extends opts st r d l s p :
  ports_of l = Some (s, p) -> outcome_extends (follows l) opts d r (decode_application opts st r d s p).
Proof.
  intros Hl r' st' H. unfold decode_application in H.
  assert (Hdoip := on_port_iff (fun q => q =? Udp.port_DOIP) l s p Hl). cbv beta in Hdoip.
  assert (Hrtps := on_port_iff Rtps.is_likely_rtps_port l s p Hl).
  case_in H; bool_to_prop.
  { apply Done_pair_inj in H as [<- _]. apply extends_refl. }
  destruct (_ || _) eqn:Ed in H.
  { apply attempt_inv in H as [([h next] & Ha & H)|[e H]]; cbn zeta in H.
    2:{ apply Done_pair_inj in H as [<- _]. apply extends_error_if. }
    cbn [fst] in H. rewrite (advance _ _ _ _ _ Ha : subspan d _ = _), bind_Done in H.
    apply Done_pair_inj in H as [<- _]. apply extends_last; [destruct l; try discriminate Hl; apply Hdoip, Ed | | assumption].
    exists (context_of d). split; [reflexivity|]. exists next. auto. }
  assert (Hsip : forall h, follows l (SomeIpLayer h)).
  { intros h. assert (Hno : ~ on_port (fun q => q =? Udp.port_DOIP) l) by (rewrite Hdoip, Ed; discriminate).
    destruct l; try discriminate Hl; (split; [eauto | exact Hno]). }
  destruct (_ && _) eqn:Em in H.
  { apply andb_prop in Em as [Em _]. revert H. apply decode_rtps_extends.
    intros h. destruct l; try discriminate Hl; apply Hrtps, Em. }
  case_in H; revert H; [apply decode_someip_sd_extends | apply decode_someip_heuristic_extends]; auto.
Qed.

Lemma decode_transport_extends opts st r d h :
  outcome_extends (follows (IPv4Layer h)) opts d r (decode_transport opts st r d (Ipv4.ip_protocol h)).
Proof.
  intros r' st' H. unfold decode_transport in H.
  destruct (layers_full opts r) eqn:Hfull; [apply Done_pair_inj in H as [<- _]; apply extends_refl|].
  destruct (_ =? Ipv4.IpProtocol_UDP) eqn:Eu; [|destruct (_ =? Ipv4.IpProtocol_TCP) eqn:Et];
    [| |apply Done_pair_inj in H as [<- _]; apply extends_refl]; cbn zeta in H;
    (apply attempt_inv in H as [([hd next] & Ha & H)|[e H]];
     [|assert (Hr : Done (E:=Empty_set) (set_error r e, st) = Done (r', st')) by (destruct (stop_on_error opts); exact H);
       apply Done_pair_inj in Hr as [<- _]; apply extends_error]);
    cbn [fst] in H; rewrite (advance _ _ _ _ _ Ha : subspan d _ = _), bind_Done in H; bool_to_prop;
    (first [eapply (extends_push _ _ _ (UdpLayer hd)) | eapply (extends_push _ _ _ (TcpLayer hd))];
      [ | eexists; split; [|exists next; split; [exact Ha | reflexivity]]; reflexivity | exact Hfull | ];
      [assumption|]);
    (case_in H; [revert H; apply decode_application_extends; reflexivity
                |apply Done_pair_inj in H as [<- _]; apply extends_refl]).
Qed.

(** The rank of a layer grows along a stack, so no stack has more than five layers. *)
Definition rank (l : DecodedHeader) : Z :=
  match l with
  | EthernetLayer _ => 0 | IPv4Layer _ => 1 | UdpLayer _ | TcpLayer _ => 2
  | SomeIpLayer _ => 3 | _ => 4
  end.

Lemma follows_rank l l' : follows l l' -> rank l < rank l'.
Proof.
  assert (Hp : forall p, on_port p l -> rank l < 3).
  { intros p (s & d & E & _). destruct l; try discriminate E; cbn; lia. }
  assert (Hs : is_Some (ports_of l) -> rank l < 3).
  { intros [x E]. destruct l; try discriminate E; cbn; lia. }
  destruct l, l'; cbn [follows]; intros H; try contradiction; cbn [rank]; try lia;
    first [apply Hp in H | destruct H as [H _]; apply Hs in H]; cbn [rank] in H; lia.
Qed.

Lemma stack_length first d ls rest n :
  (forall l, first l -> n <= rank l) -> n <= 5 -> stack first d ls rest -> zlen ls <= 5 - n.
Proof.
  intros Hf Hn H. revert n Hf Hn. induction H as [first d|first l d d' ls rest Hl Hat Hst IH]; intros n Hf Hn; [cbn; lia|].
  specialize (IH (rank l + 1)). specialize (Hf l ltac:(assumption)).
  assert (Hr : rank l <= 4) by (destruct l; cbn; lia).
  cbn [length]. enough (zlen ls <= 5 - (rank l + 1)) by lia.
  apply IH; [intros l' Hl'; apply follows_rank in Hl'; lia | lia].
Qed.

Lemma flags_agree_mark r : flags_agree r -> flags_agree (mark_complete r).
Proof.
  unfold mark_complete, flags_agree. destruct (error r) eqn:E; [rewrite E; auto | intros; cbn; tauto].
Qed.

Lemma mark_complete_fields r :
  layers (mark_complete r) = layers r /\ payload (mark_complete r) = payload r /\ error (mark_complete r) = error r.
Proof. unfold mark_complete. destruct (error r) eqn:E; cbn; rewrite ?E; auto. Qed.

(** What the two entry points establish, [n] layers being decoded whatever [max_layers] says. *)
Definition decoded_stack (first : DecodedHeader -> Prop) (n : Z) (opts : DispatcherOptions) (data : list byte)
    (r : DecodeStackResult) : Prop :=
  exists rest,
    stack first data (layers r) rest /\ payload_after (layers r) rest (payload r) /\ flags_agree r /\
    zlen (layers r) <= Z.max n (max_layers opts).

Lemma decoded_stack_mark first n opts d r :
  decoded_stack first n opts d r -> decoded_stack first n opts d (mark_complete r).
Proof.
  intros (rest & Hs & Hp & Hf & Hz). exists rest.
  destruct (mark_complete_fields r) as (-> & -> & _). auto using flags_agree_mark.
Qed.

Lemma decoded_stack_nil first n opts d r :
  0 <= n -> layers r = [] -> payload r = d -> flags_agree r -> decoded_stack first n opts d r.
Proof.
  intros Hn Hl Hp Hf. exists d. rewrite Hl.
  split_and!; [constructor | left; exact Hp | exact Hf | cbn; lia].
Qed.

(** A first layer, and then what a helper does after it. *)
Lemma decoded_stack_first first n opts d l d' r r' :
  first l -> layer_at l d d' -> layers r = [l] -> payload r = d' -> flags_agree r -> 1 <= n ->
  extends (follows l) opts d' r r' -> decoded_stack first n opts d r'.
Proof.
  intros Hl Hat Hls Hp Hf Hn H. destruct H as (ls & rest & E & Hst & Hpay & Hfl & Hsz); [assumption..|].
  rewrite Hls in E, Hsz. cbn [length app] in E, Hsz. exists rest. rewrite E.
  split_and!; [econstructor; eassumption | | exact Hfl | rewrite <- E; lia].
  destruct Hpay as [Hpay|(h & Hlast & Hh)]; [left; exact Hpay | right].
  exists h. split; [|exact Hh]. rewrite last_cons, Hlast. reflexivity.
Qed.

Lemma decode_ip_stack opts ip st d r st' :
  decode_ip opts ip st d = Done (r, st') -> decoded_stack is_ipv4_layer 1 opts d r.
Proof.
  unfold decode_ip. intros H. case_in H.
  { apply Done_pair_inj in H as [<- _]. apply decoded_stack_nil; [lia | reflexivity.. | split; discriminate]. }
  cbn zeta in H. apply attempt_inv in H as [([h next] & Ha & H)|[e H]].
  2:{ apply Done_pair_inj in H as [<- _]. apply decoded_stack_nil; [lia | reflexivity.. | split; discriminate]. }
  cbn [fst] in H. rewrite (advance _ _ _ _ _ Ha : subspan d _ = _), bind_Done in H.
  eapply (decoded_stack_first _ _ _ _ (IPv4Layer h) (data next));
    [exact I | | | | | lia | exact (decode_transport_extends _ _ _ _ _ _ _ H)]; [|reflexivity | reflexivity | easy].
  eexists. split; [|exists ip, next; split; [exact Ha | reflexivity]]. reflexivity.
Qed.

Definition at_least_two (opts : DispatcherOptions) : DispatcherOptions :=
  mkDispatcherOptions (stop_on_error opts) (decode_app opts) (Z.max 2 (max_layers opts)) (validate_ipv4_checksum opts).

Lemma extends_at_least_two first opts d r r' : extends first opts d r r' -> extends first (at_least_two opts) d r r'.
Proof.
  intros H Hp Hf. destruct (H Hp Hf) as (ls & rest & ? & ? & ? & ? & ?). exists ls, rest.
  split_and!; try assumption. cbn [at_least_two max_layers]. lia.
Qed.

Lemma decode_ethernet_stack opts ip st d r st' :
  decode_ethernet opts ip st d = Done (r, st') -> decoded_stack is_ethernet 2 opts d r.
Proof.
  unfold decode_ethernet. intros H. case_in H.
  { apply Done_pair_inj in H as [<- _]. apply decoded_stack_nil; [lia | reflexivity.. | split; discriminate]. }
  cbn zeta in H. apply attempt_inv in H as [([h next] & Ha & H)|[e H]].
  2:{ case_in H; apply Done_pair_inj in H as [<- _]; [|apply decoded_stack_mark];
        (apply decoded_stack_nil; [lia | reflexivity.. | split; discriminate]). }
  cbn [fst] in H. rewrite (advance _ _ _ _ _ Ha : subspan d _ = _), bind_Done in H.
  set (r0 := set_payload (push (mkResult [] d None true) (EthernetLayer h)) (data next)) in *.
  enough (Hext : exists r1, (r = r1 \/ r = mark_complete r1) /\
      extends (follows (EthernetLayer h)) (at_least_two opts) (data next) r0 r1).
  { destruct Hext as (r1 & Hr & He).
    assert (Hs : decoded_stack is_ethernet 1 (at_least_two opts) d r1).
    { eapply (decoded_stack_first _ _ _ _ (EthernetLayer h) (data next));
        [exact I | | | | | lia | exact He]; [|reflexivity | reflexivity | easy].
      eexists. split; [|exists next; split; [exact Ha | reflexivity]]. reflexivity. }
    assert (Hs' : decoded_stack is_ethernet 2 opts d r1).
    { destruct Hs as (rest & ? & ? & ? & Hz). exists rest. cbn [at_least_two max_layers] in Hz.
      split_and!; try assumption. lia. }
    destruct Hr as [->| ->]; [exact Hs' | apply decoded_stack_mark, Hs']. }
  destruct (_ =? Ethernet.EtherType_IPv4) eqn:E4 in H.
  - cbn zeta in H. apply attempt_inv in H as [([hi nexti] & Hi & H)|[e H]].
    + cbn [fst] in H. rewrite (advance _ _ _ _ _ Hi : subspan (data next) _ = _), bind_Done in H.
      apply bind_inv in H as ([r1 st1] & Ht & H). apply Done_pair_inj in H as [<- _].
      exists r1. split; [right; reflexivity|]. bool_to_prop.
      eapply (extends_push _ _ _ (IPv4Layer hi) (data nexti)); [exact E4 | | |].
      * eexists. split; [|exists ip, nexti; split; [exact Hi | reflexivity]]. reflexivity.
      * apply Z.leb_gt. cbn. lia.
      * apply extends_at_least_two. exact (decode_transport_extends _ _ _ _ _ _ _ Ht).
    + exists (set_error r0 e). split; [|apply extends_error].
      case_in H; apply Done_pair_inj in H as [<- _]; auto.
  - destruct (_ =? Ethernet.EtherType_PTP) eqn:Ep in H.
    + apply bind_inv in H as ([r1 st1] & Hg & H). apply Done_pair_inj in H as [<- _].
      exists r1. split; [right; reflexivity|]. apply extends_at_least_two.
      revert Hg. apply decode_gptp_extends. intros. bool_to_prop. exact Ep.
    + apply Done_pair_inj in H as [<- _]. exists r0. split; [auto | apply extends_refl].
Qed.

(** ** Where a dispatch can be undefined *)

(** On the data [s], one of the four decoders that trust a length of the message
    reads past the end, or announces more bytes than there are. *)
Definition gptp_overreads (s : list byte) : Prop :=
  exists ctx, data ctx = s /\ Gptp.decode_impl Gptp.Options_default ctx = Undef.
Definition overreads (s : list byte) : Prop :=
  (exists st, SomeIp.decode_impl SomeIp.Options_default st (context_of s) = Undef) \/
  (exists h next, SomeIpSd.decode_impl SomeIpSd.Options_default (context_of s) = Done (h, next) /\
                  zlen s < SomeIpSd.header_size h) \/
  gptp_overreads s \/
  Rtps.decode s = Undef.

(** If [m] is undefined, there is a suffix of [d] with [P]. *)
Definition undef_in {A} (P : list byte -> Prop) (d : list byte) (m : run A) : Prop :=
  m = Undef -> exists s, s `suffix_of` d /\ P s.

Lemma undef_in_done {A} P d (a : A) : undef_in P d (Done a).
Proof. discriminate. Qed.

Lemma undef_in_here {A} (P : list byte -> Prop) d (m : run A) : (m = Undef -> P d) -> undef_in P d m.
Proof. intros H Hm. exists d. auto. Qed.

Lemma undef_in_suffix {A} P d n (m : run A) : undef_in P (drop n d) m -> undef_in P d m.
Proof.
  intros H Hm. destruct (H Hm) as (s & [k Hs] & Ho). exists s. split; [|exact Ho].
  exists (take n d ++ k). rewrite <- app_assoc, <- Hs. symmetry. apply take_drop.
Qed.

Lemma undef_in_map {A B} P d (m : run A) (f : A -> B) :
  undef_in P d m -> undef_in P d (a ← m; Done (f a)).
Proof. intros H Hm. apply H. destruct m; [discriminate Hm | destruct e | reflexivity]. Qed.

(** A step of the dispatcher with a decoder that keeps the contract. *)
Lemma undef_in_step {H A} P (dec : DecodeContext -> decoded (H * DecodeContext)) hs `{!DecoderContract dec hs}
    ctx (k : H * DecodeContext -> list byte -> run A) (err : DecodeError -> run A) :
  (forall h d', undef_in P d' (k h d')) -> (forall e, undef_in P (data ctx) (err e)) ->
  undef_in P (data ctx) (attempt (dec ctx) (fun hn => d' ← subspan (data ctx) (hs hn.1); k hn d') err).
Proof.
  intros Hk He Hu. destruct (dec ctx) as [[h next]|e|] eqn:E; cbn [attempt fst] in Hu.
  - rewrite (advance _ _ _ _ _ E), bind_Done in Hu. destruct (decode_next _ _ _ E) as [Hd _].
    rewrite Hd in Hu. exact (undef_in_suffix _ _ _ _ (Hk (h, next) _) Hu).
  - exact (He e Hu).
  - destruct (decode_defined ctx E).
Qed.

Lemma decode_gptp_overread opts st r d : undef_in gptp_overreads d (decode_gptp opts st r d).
Proof.
  apply undef_in_here. unfold decode_gptp, attempt. intros H. case_in H; [discriminate H|]. cbn zeta in H.
  destruct (Gptp.decode_impl _ _) as [[h next]|e|] eqn:E.
  - cbn [fst] in H. destruct (Gptp.message_length h <=? zlen d) eqn:Hl; [|discriminate H].
    destruct (subspan d (Gptp.message_length h)) eqn:Hs; [discriminate H | destruct e|].
    apply Z.leb_le in Hl.
    destruct (Gptp.decode_impl_accepted _ _ _ _ E) as [[_ Ha] _]. specialize (Ha eq_refl). unfold Gptp.COMMON_HEADER_SIZE in Ha.
    rewrite subspan_in in Hs by lia. discriminate Hs.
  - case_in H; discriminate H.
  - eexists. split; [|exact E]. reflexivity.
Qed.

Lemma decode_rtps_overread opts st r d : undef_in overreads d (decode_rtps opts st r d).
Proof.
  apply undef_in_here. unfold decode_rtps, attempt. intros H. case_in H; [discriminate H|].
  destruct (Rtps.decode d) eqn:E; [discriminate H | case_in H; discriminate H | right; right; right; exact E].
Qed.

Lemma someip_advance st d h next st' :
  SomeIp.decode_impl SomeIp.Options_default st (context_of d) = Done (h, next, st') ->
  subspan (E:=Empty_set) d (SomeIp.header_size h) = Done (drop 16 d).
Proof.
  intros E. unfold SomeIp.decode_impl, has_bytes in E. cbn [data context_of] in E.
  destruct (SomeIp.HEADER_SIZE <=? zlen d) eqn:Hs; [|discriminate E]. apply Z.leb_le in Hs.
  apply (subspan_in d SomeIp.HEADER_SIZE). unfold SomeIp.HEADER_SIZE in *. lia.
Qed.

Lemma decode_someip_sd_overread opts st r d : undef_in overreads d (decode_someip_sd opts st r d).
Proof.
  unfold decode_someip_sd.
  destruct (SomeIp.decode_impl _ st (context_of d)) as [[[h next] st']|e|] eqn:E; cbn [attempt].
  2: destruct (error r); discriminate.
  2:{ apply undef_in_here. intros _. left. eauto. }
  rewrite (someip_advance _ _ _ _ _ E), bind_Done. apply undef_in_suffix with 16%nat. cbn zeta.
  case_step; [|discriminate].
  destruct (SomeIpSd.decode_impl _ _) as [[hsd next']|e|] eqn:Es; cbn [attempt fst];
    [| discriminate | destruct (proj1 (SomeIpSd.decode_impl_bounded _ _) Es)].
  apply undef_in_here. intros H. right; left. exists hsd, next'. split; [exact Es|].
  destruct (Z.lt_ge_cases (zlen (drop 16 d)) (SomeIpSd.header_size hsd)) as [Hlt|Hge]; [exact Hlt|].
  destruct (SomeIpSd.decode_inv_sizes _ _ _ _ Es) as (_ & Hf & Hf' & _). unfold fits in Hf, Hf'.
  rewrite subspan_in in H; [discriminate H|].
  unfold SomeIpSd.payload_size, SomeIpSd.header_size, SomeIpSd.SD_HEADER_SIZE in *. lia.
Qed.

Lemma decode_someip_heuristic_overread st r d : undef_in overreads d (decode_someip_heuristic st r d).
Proof.
  apply undef_in_here. unfold decode_someip_heuristic. case_step; [|discriminate].
  destruct (SomeIp.decode_impl _ st (context_of d)) as [[[h next] st']|e|] eqn:E; cbn [attempt];
    [|discriminate | left; eauto].
  rewrite (someip_advance _ _ _ _ _ E), bind_Done. case_step; discriminate.
Qed.

Lemma decode_application_overread opts st r d s p :
  undef_in overreads d (decode_application opts st r d s p).
Proof.
  unfold decode_application. case_step; [apply undef_in_done|].
  destruct ((s =? Udp.port_DOIP) || (p =? Udp.port_DOIP));
    [|repeat case_step; auto using decode_rtps_overread, decode_someip_sd_overread, decode_someip_heuristic_overread].
  apply (undef_in_step _ (DoIP.decode_impl DoIP.Options_default) DoIP.header_size (context_of d));
    intros; [apply undef_in_done | destruct (error r); apply undef_in_done].
Qed.

(** The rest of the stack, for any [P] that covers the application protocols when they are decoded. *)
Section stack_overreads.
Context (P : list byte -> Prop) (opts : DispatcherOptions).
Context (Happ : decode_app opts = true ->
                forall st r d s p, undef_in P d (decode_application opts st r d s p)).

Lemma decode_transport_undef_in st r d proto : undef_in P d (decode_transport opts st r d proto).
Proof.
unfold decode_transport. destruct (layers_full opts r); [apply undef_in_done|].
destruct (proto =? Ipv4.IpProtocol_UDP); [|destruct (proto =? Ipv4.IpProtocol_TCP); [|apply undef_in_done]];
  cbn zeta;
  [ apply (undef_in_step _ (Udp.decode_impl Udp.Options_default) Udp.header_size
             (with_layer_info (context_of d) (mkLayerInfo 0 proto 0 0)))
  | apply (undef_in_step _ (Tcp.decode_impl Tcp.Options_default) Tcp.header_size
             (with_layer_info (context_of d) (mkLayerInfo 0 proto 0 0))) ];
  intros; cbv beta; case_step; bool_to_prop; auto using undef_in_done.
Qed.

Lemma decode_ip_undef_in ip st d : undef_in P d (decode_ip opts ip st d).
Proof.
unfold decode_ip. case_step; [apply undef_in_done|]. cbn zeta.
apply (undef_in_step _ (Ipv4.decode_impl ip) Ipv4.header_size
         (with_layer_info (context_of d) (mkLayerInfo Ethernet.EtherType_IPv4 0 0 0)));
  intros; cbv beta; auto using undef_in_done, decode_transport_undef_in.
Qed.

Lemma decode_ethernet_undef_in ip st d :
(forall r d, undef_in P d (decode_gptp opts st r d)) -> undef_in P d (decode_ethernet opts ip st d).
Proof.
intros Hgptp. unfold decode_ethernet. case_step; [apply undef_in_done|]. cbn zeta.
apply (undef_in_step _ Ethernet.decode_impl Ethernet.header_size (context_of d));
  intros; cbv beta; [|case_step; apply undef_in_done].
destruct (_ =? Ethernet.EtherType_IPv4).
- apply (undef_in_step _ (Ipv4.decode_impl ip) Ipv4.header_size
           (with_layer_info (context_of d') (mkLayerInfo (Ethernet.eth_ethertype h.1) 0 0 0)));
    intros; cbv beta; [apply undef_in_map, decode_transport_undef_in | case_step; apply undef_in_done].
- destruct (_ =? Ethernet.EtherType_PTP); [apply undef_in_map, Hgptp | apply undef_in_done].
Qed.
End stack_overreads.

Lemma undef_in_weaken {A} (P Q : list byte -> Prop) d (m : run A) :
  (forall s, P s -> Q s) -> undef_in P d m -> undef_in Q d m.
Proof. intros HPQ H Hm. destruct (H Hm) as (s & ? & ?). eauto. Qed.

(** [C8] Where a dispatch can be undefined.  Everything up to the transport layer
    is safe on any data: when application decoding is off, [decode_from_ip]
    always returns, and [decode] can only read out of bounds in the gPTP decoder.
    With it, the data ends in one of the messages that the SOME/IP-TP, SOME/IP-SD,
    gPTP or RTPS decoder is known to overread; DoIP never does. *)
Theorem dispatcher_safe (d : ProtocolDispatcher) (packet : list byte) :
  (decode d packet = Undef ->
   exists s, s `suffix_of` packet /\ if decode_app (options d) then overreads s else gptp_overreads s) /\
  (decode_from_ip d packet = Undef ->
   decode_app (options d) = true /\ exists s, s `suffix_of` packet /\ overreads s).
Proof.
  unfold decode, decode_from_ip. destruct (decode_app (options d)) eqn:Ha; split.
  - apply undef_in_map, decode_ethernet_undef_in; intros;
      [apply decode_application_overread|].
    eapply undef_in_weaken, decode_gptp_overread. unfold overreads. auto.
  - intros H. split; [reflexivity|]. revert H. apply undef_in_map, decode_ip_undef_in.
    intros. apply decode_application_overread.
  - apply undef_in_map, decode_ethernet_undef_in; intros; [congruence | apply decode_gptp_overread].
  - intros H. enough (Hu : undef_in (fun _ => False) packet (decode_ip (options d) (ipv4_options d) (tp_reassembler d) packet)).
    { apply (undef_in_map _ _ _ (fun out => (out.1, with_reassembler d out.2))) in Hu.
      destruct (Hu H) as (s & _ & []). }
    apply decode_ip_undef_in. congruence.
Qed.

(** ** What the options change *)

(** The result of a dispatch and the reassembler it leaves. *)
Definition result_of (m : run (DecodeStackResult * ProtocolDispatcher)) : outcome :=
  out ← m; Done (out.1, tp_reassembler out.2).

Lemma result_of_decode d packet :
  result_of (decode d packet) = decode_ethernet (options d) (ipv4_options d) (tp_reassembler d) packet.
Proof. unfold result_of, decode. destruct (decode_ethernet _ _ _ _) as [[]|[]|]; reflexivity. Qed.

Lemma result_of_decode_from_ip d packet :
  result_of (decode_from_ip d packet) = decode_ip (options d) (ipv4_options d) (tp_reassembler d) packet.
Proof. unfold result_of, decode_from_ip. destruct (decode_ip _ _ _ _) as [[]|[]|]; reflexivity. Qed.

Section options.
Context (o1 o2 : DispatcherOptions) (Happ : decode_app o1 = decode_app o2) (Hmax : max_layers o1 = max_layers o2).

Lemma layers_full_same r : layers_full o1 r = layers_full o2 r.
Proof. unfold layers_full. rewrite Hmax. reflexivity. Qed.

Lemma attempt_same {A B} (m : decoded A) (k k' : A -> run B) (e e' : DecodeError -> run B) :
  (forall a, k a = k' a) -> (forall x, e x = e' x) -> attempt m k e = attempt m k' e'.
Proof. intros Hk He. destruct m; cbn [attempt]; auto. Qed.

Lemma bind_same {A B} (m : run A) (k k' : A -> run B) : (forall a, k a = k' a) -> (m ≫= k) = (m ≫= k').
Proof. intros Hk. destruct m; cbn; auto. Qed.

Lemma decode_gptp_same st r d : decode_gptp o1 st r d = decode_gptp o2 st r d.
Proof.
  unfold decode_gptp. rewrite layers_full_same. case_step; [reflexivity|].
  apply attempt_same; [reflexivity|]. intros. cbn zeta. destruct (stop_on_error o1), (stop_on_error o2); reflexivity.
Qed.

Lemma decode_rtps_same st r d : decode_rtps o1 st r d = decode_rtps o2 st r d.
Proof.
  unfold decode_rtps. rewrite layers_full_same. case_step; [reflexivity|].
  apply attempt_same; [reflexivity|]. intros. cbn zeta. destruct (stop_on_error o1), (stop_on_error o2); reflexivity.
Qed.

Lemma decode_someip_sd_same st r d : decode_someip_sd o1 st r d = decode_someip_sd o2 st r d.
Proof.
  apply attempt_same; [|reflexivity]. intros [[h next] st']. apply bind_same. intros d'.
  rewrite layers_full_same. reflexivity.
Qed.

Lemma decode_application_same st r d s p :
  decode_application o1 st r d s p = decode_application o2 st r d s p.
Proof.
  unfold decode_application. rewrite layers_full_same, decode_rtps_same, decode_someip_sd_same. reflexivity.
Qed.

Lemma decode_transport_same st r d proto : decode_transport o1 st r d proto = decode_transport o2 st r d proto.
Proof.
  unfold decode_transport. rewrite layers_full_same, Happ.
  repeat (case_step; [reflexivity || (apply attempt_same;
    [ intros; apply bind_same; intros; rewrite decode_application_same; reflexivity
    | intros; cbn zeta; destruct (stop_on_error o1), (stop_on_error o2); reflexivity ])|]).
  reflexivity.
Qed.

Lemma decode_ip_same ip st d : decode_ip o1 ip st d = decode_ip o2 ip st d.
Proof.
  unfold decode_ip. case_step; [reflexivity|]. apply attempt_same; [|reflexivity].
  intros. apply bind_same. intros. apply decode_transport_same.
Qed.

Lemma mark_complete_error r e : mark_complete (set_error r e) = set_error r e.
Proof. reflexivity. Qed.

Lemma decode_ethernet_same ip st d : decode_ethernet o1 ip st d = decode_ethernet o2 ip st d.
Proof.
  unfold decode_ethernet. case_step; [reflexivity|]. apply attempt_same.
  2:{ intros. cbn zeta. destruct (stop_on_error o1), (stop_on_error o2); reflexivity. }
  intros. apply bind_same. intros. cbn zeta. rewrite decode_gptp_same. case_step; [|reflexivity].
  apply attempt_same.
  2:{ intros. destruct (stop_on_error o1), (stop_on_error o2); reflexivity. }
  intros. apply bind_same. intros. rewrite decode_transport_same. reflexivity.
Qed.
End options.

(** Two options do nothing on a dispatcher that exists: [stop_on_error], whose
    early returns leave the result that the normal path leaves, and
    [validate_ipv4_checksum], which [set_options] does not hand on to the IPv4
    decoder.  Dispatches after [set_options] agree whenever the other two options
    do; the checksum option counts only in the constructor. *)
Theorem dispatcher_idle_options (d : ProtocolDispatcher) (o1 o2 : DispatcherOptions) (packet : list byte) :
  decode_app o1 = decode_app o2 -> max_layers o1 = max_layers o2 ->
  result_of (decode (set_options d o1) packet) = result_of (decode (set_options d o2) packet) /\
  result_of (decode_from_ip (set_options d o1) packet) = result_of (decode_from_ip (set_options d o2) packet).
Proof.
  intros Ha Hm. rewrite !result_of_decode, !result_of_decode_from_ip.
  split; [apply decode_ethernet_same | apply decode_ip_same]; assumption.
Qed.

(** ** Frames that are decoded whole *)

Lemma attempt_step {H A} (dec : DecodeContext -> decoded (H * DecodeContext)) hs `{!DecoderContract dec hs}
    ctx d h next (k : H * DecodeContext -> list byte -> run A) (err : DecodeError -> run A) :
  data ctx = d -> dec ctx = Done (h, next) ->
  attempt (dec ctx) (fun hn => d' ← subspan d (hs hn.1); k hn d') err = k (h, next) (data next).
Proof. intros <- E. rewrite E. cbn [attempt fst]. rewrite (advance _ _ _ _ _ E). apply bind_Done. Qed.

Section frames.
Context (d : ProtocolDispatcher) (eth : Ethernet.EthernetHeader) (ip : Ipv4.IPv4Header) (udp : Udp.UdpHeader).

Definition udp_frame (p : list byte) : list byte :=
  Ethernet.encode_header eth ++ Ipv4.encode_header ip ++ Udp.encode_header udp ++ p.

(** The three headers are well formed and announce each other, and there is
    room for them. *)
Record wf_udp_frame : Prop := {
  wf_eth : Ethernet.wf_header eth;
  wf_eth_next : Ethernet.eth_ethertype eth = Ethernet.EtherType_IPv4;
  wf_ip : Ipv4.wf_header (ipv4_options d) ip;
  wf_ip_next : Ipv4.ip_protocol ip = Ipv4.IpProtocol_UDP;
  wf_udp : Udp.wf_header Udp.Options_default udp;
  wf_room : 3 <= max_layers (options d)
}.

Definition udp_layers : list DecodedHeader := [EthernetLayer eth; IPv4Layer ip; UdpLayer udp].

Lemma decode_udp_frame p :
  wf_udp_frame ->
  decode d (udp_frame p) =
    (let r := mkResult udp_layers p None true in
     out ← (if decode_app (options d)
            then decode_application (options d) (tp_reassembler d) r p (Udp.udp_src_port udp) (Udp.udp_dst_port udp)
            else Done (r, tp_reassembler d));
     Done (mark_complete out.1, with_reassembler d out.2)).
Proof.
  intros [He Het Hi Hip Hu Hm]. unfold decode, decode_ethernet.
  assert (Hne : (zlen (udp_frame p) =? 0) = false).
  { apply Z.eqb_neq. unfold udp_frame. rewrite !length_app. cbn [Udp.encode_header app length write_be16]. lia. }
  rewrite Hne. cbn zeta. clear Hne.
  erewrite (attempt_step Ethernet.decode_impl Ethernet.header_size (context_of _))
    by (reflexivity || (apply Ethernet.ethernet_decode_encode; [reflexivity | assumption])).
  cbn [fst Ethernet.next_of data]. rewrite Het, Z.eqb_refl.
  erewrite (attempt_step (Ipv4.decode_impl _) Ipv4.header_size (with_layer_info (context_of _) _))
    by (reflexivity || (apply Ipv4.ipv4_decode_encode; [reflexivity | assumption])).
  cbn [fst Ipv4.next_of data]. unfold decode_transport, layers_full.
  cbn [set_payload push layers app length]. rewrite (proj2 (Z.leb_gt _ _)) by (cbn; lia).
  rewrite Hip, Z.eqb_refl. cbn zeta.
  erewrite (attempt_step (Udp.decode_impl _) Udp.header_size (with_layer_info (context_of _) _))
    by (reflexivity || (apply Udp.udp_decode_encode; [reflexivity | assumption])).
  cbn [fst Udp.next_of data set_payload push layers payload error complete app]. fold udp_layers.
  destruct (if decode_app (options d) then _ else _) as [[r st]|[]|]; reflexivity.
Qed.

(** A port pair and a payload that [decode_application] tries as plain SOME/IP. *)
Definition plain_someip (p : list byte) : Prop :=
  let s := Udp.udp_src_port udp in let t := Udp.udp_dst_port udp in
  (s =? Udp.port_DOIP) || (t =? Udp.port_DOIP) = false /\
  (Rtps.is_likely_rtps_port s || Rtps.is_likely_rtps_port t) && has_rtps_magic p = false /\
  (s =? Udp.port_SOMEIP_SD) || (t =? Udp.port_SOMEIP_SD) = false.

Lemma decode_someip_frame p h body :
  wf_udp_frame -> decode_app (options d) = true -> 4 <= max_layers (options d) ->
  p = SomeIp.encode_header h ++ body -> SomeIp.wf_header SomeIp.Options_default h ->
  SomeIp.is_tp (SomeIp.message_type h) = false -> SomeIp.sip_length h <= zlen p -> plain_someip p ->
  decode d (udp_frame p) = Done (mkResult (udp_layers ++ [SomeIpLayer h]) body None true, d).
Proof.
  intros Hwf Happ Hmax Hp Hh Htp Hlen (Hdoip & Hrtps & Hsd).
  rewrite (decode_udp_frame p Hwf), Happ. cbn zeta.
  assert (Hd : with_reassembler d (tp_reassembler d) = d) by (destruct d; reflexivity).
  assert (H16 : zlen (SomeIp.encode_header h) = 16) by reflexivity.
  assert (Hp16 : 16 <= zlen p) by (rewrite Hp, length_app; lia).
  unfold decode_application, layers_full. cbn [layers udp_layers length].
  rewrite (proj2 (Z.eqb_neq _ _)), (proj2 (Z.leb_gt _ _)) by (cbn; lia). cbn [orb].
  rewrite Hdoip, Hrtps, Hsd. unfold decode_someip_heuristic, SomeIp.HEADER_SIZE.
  rewrite (proj2 (Z.leb_le 16 _)) by lia.
  rewrite (SomeIp.someip_decode_encode _ _ _ h body) by assumption. rewrite Htp, bind_Done. cbn [attempt].
  pose proof (SomeIp.wf_length _ _ Hh). rewrite !(proj2 (Z.leb_le _ _)) by lia. cbn [andb].
  rewrite subspan_in by (unfold SomeIp.header_size, SomeIp.HEADER_SIZE; lia). rewrite !bind_Done.
  cbn [fst snd]. rewrite Hd, Hp, drop_app_Z by reflexivity. reflexivity.
Qed.

(** Well-formed frames are decoded whole.  The three headers of a UDP frame
    come out as its layers and everything behind them as the payload, whatever
    the IPv4 total length, the fragment offset and the UDP length say: padding
    and fragments are handed on as payload.  With application decoding, on ports
    of no other protocol, a SOME/IP message whose length is at most the payload
    is the fourth layer. *)
Theorem dispatcher_udp_frame (p : list byte) :
  wf_udp_frame ->
  (decode_app (options d) = false -> decode d (udp_frame p) = Done (mkResult udp_layers p None true, d)) /\
  (forall h body,
     decode_app (options d) = true -> 4 <= max_layers (options d) ->
     p = SomeIp.encode_header h ++ body -> SomeIp.wf_header SomeIp.Options_default h ->
     SomeIp.is_tp (SomeIp.message_type h) = false -> SomeIp.sip_length h <= zlen p -> plain_someip p ->
     decode d (udp_frame p) = Done (mkResult (udp_layers ++ [SomeIpLayer h]) body None true, d)).
Proof.
  intros Hwf. split.
  - intros Happ. rewrite (decode_udp_frame p Hwf), Happ. cbn zeta. rewrite bind_Done. cbn [fst snd].
    destruct d. reflexivity.
  - intros h body. exact (decode_someip_frame p h body Hwf).
Qed.
End frames.

Section tcp_frames.
Context (d : ProtocolDispatcher) (eth : Ethernet.EthernetHeader) (ip : Ipv4.IPv4Header) (tcp : Tcp.TcpHeader).
Context (reserved : Z) (options_bytes : list byte).

Definition tcp_frame (p : list byte) : list byte :=
  Ethernet.encode_header eth ++ Ipv4.encode_header ip ++ Tcp.encode_header tcp reserved options_bytes ++ p.

Record wf_tcp_frame : Prop := {
  wf_tcp_eth : Ethernet.wf_header eth;
  wf_tcp_eth_next : Ethernet.eth_ethertype eth = Ethernet.EtherType_IPv4;
  wf_tcp_ip : Ipv4.wf_header (ipv4_options d) ip;
  wf_tcp_ip_next : Ipv4.ip_protocol ip = Ipv4.IpProtocol_TCP;
  wf_tcp : Tcp.wf_header Tcp.Options_default tcp reserved options_bytes;
  wf_tcp_room : 3 <= max_layers (options d)
}.

Definition tcp_layers : list DecodedHeader := [EthernetLayer eth; IPv4Layer ip; TcpLayer tcp].

Lemma decode_tcp_frame p :
  wf_tcp_frame ->
  decode d (tcp_frame p) =
    (let r := mkResult tcp_layers p None true in
     out ← (if decode_app (options d) && negb (zlen p =? 0)
            then decode_application (options d) (tp_reassembler d) r p (Tcp.tcp_src_port tcp) (Tcp.tcp_dst_port tcp)
            else Done (r, tp_reassembler d));
     Done (mark_complete out.1, with_reassembler d out.2)).
Proof.
  intros [He Het Hi Hip Ht Hm]. unfold decode, decode_ethernet.
  assert (Hne : (zlen (tcp_frame p) =? 0) = false).
  { apply Z.eqb_neq. unfold tcp_frame. rewrite !length_app. cbn [Tcp.encode_header app length write_be16]. lia. }
  rewrite Hne. cbn zeta. clear Hne.
  erewrite (attempt_step Ethernet.decode_impl Ethernet.header_size (context_of _))
    by (reflexivity || (apply Ethernet.ethernet_decode_encode; [reflexivity | assumption])).
  cbn [fst Ethernet.next_of data]. rewrite Het, Z.eqb_refl.
  erewrite (attempt_step (Ipv4.decode_impl _) Ipv4.header_size (with_layer_info (context_of _) _))
    by (reflexivity || (apply Ipv4.ipv4_decode_encode; [reflexivity | assumption])).
  cbn [fst Ipv4.next_of data]. unfold decode_transport, layers_full.
  cbn [set_payload push layers app length]. rewrite (proj2 (Z.leb_gt _ _)) by (cbn; lia).
  rewrite Hip. change (Ipv4.IpProtocol_TCP =? Ipv4.IpProtocol_UDP) with false. rewrite Z.eqb_refl. cbn zeta.
  erewrite (attempt_step (Tcp.decode_impl _) Tcp.header_size (with_layer_info (context_of _) _))
    by (reflexivity || (eapply Tcp.tcp_decode_encode; [reflexivity | eassumption])).
  cbn [fst Tcp.next_of data set_payload push layers payload error complete app]. fold tcp_layers.
  destruct (if decode_app (options d) && _ then _ else _) as [[r st]|[]|]; reflexivity.
Qed.

(** A DoIP message on its port is the fourth layer. *)
Lemma decode_doip_frame h body :
  wf_tcp_frame -> decode_app (options d) = true -> 4 <= max_layers (options d) ->
  DoIP.wf_header DoIP.Options_default h -> DoIP.payload_length h <= zlen body ->
  (Tcp.tcp_src_port tcp =? Udp.port_DOIP) || (Tcp.tcp_dst_port tcp =? Udp.port_DOIP) = true ->
  decode d (tcp_frame (DoIP.encode_header h ++ body)) =
    Done (mkResult (tcp_layers ++ [DoIPLayer h]) body None true, d).
Proof.
  intros Hwf Happ Hmax Hh Hl Hport. rewrite decode_tcp_frame, Happ by assumption. cbn zeta.
  assert (Hd : with_reassembler d (tp_reassembler d) = d) by (destruct d; reflexivity).
  assert (Hz : (zlen (DoIP.encode_header h ++ body) =? 0) = false) by (apply Z.eqb_neq; rewrite length_app; cbn [DoIP.encode_header length]; lia).
  unfold decode_application, layers_full. rewrite Hz. cbn [negb andb orb layers tcp_layers length].
  rewrite (proj2 (Z.leb_gt _ _)) by (cbn; lia). rewrite Hport.
  rewrite (attempt_step (DoIP.decode_impl _) DoIP.header_size (context_of _) _ h (DoIP.next_of (context_of (DoIP.encode_header h ++ body)) body)
             (fun hn d' => Done (set_payload (push (mkResult tcp_layers (DoIP.encode_header h ++ body) None true) (DoIPLayer hn.1)) d', tp_reassembler d)))
    by (reflexivity || (apply DoIP.doip_decode_encode; [reflexivity | assumption..])).
  rewrite bind_Done. cbn [fst snd]. rewrite Hd. reflexivity.
Qed.
End tcp_frames.

Definition sample_eth : Ethernet.EthernetHeader :=
  Ethernet.mkEthernetHeader [x02; x00; x00; x00; x00; x01] [x02; x00; x00; x00; x00; x02] None None 0x0800 14.
Definition sample_ip : Ipv4.IPv4Header :=
  Ipv4.mkIPv4Header 4 5 0 0 20 1 (Ipv4.mkIPv4Flags false false true) 8 64 17 0xbeef
    [x0a; x00; x00; x01] [x0a; x00; x00; x02] [] true [] false.
Definition sample_udp : Udp.UdpHeader := Udp.mkUdpHeader 40000 30501 8 0 true.
Definition sample_someip : SomeIp.SomeIpHeader := SomeIp.mkSomeIpHeader 0x1234 0x0001 8 1 1 1 1 0 0.

(** A fragment that claims an IPv4 packet and a UDP datagram without payload, with
    a SOME/IP message and two bytes of padding behind it. *)
Lemma dispatcher_udp_frame_witness :
  let frame := udp_frame sample_eth sample_ip sample_udp (SomeIp.encode_header sample_someip ++ [x00; x00]) in
  length frame = 60%nat /\
  decode (new_dispatcher DispatcherOptions_default) frame =
    Done (mkResult [EthernetLayer sample_eth; IPv4Layer sample_ip; UdpLayer sample_udp; SomeIpLayer sample_someip]
            [x00; x00] None true, new_dispatcher DispatcherOptions_default).
Proof.
  split; [reflexivity|].
  refine (proj2 (dispatcher_udp_frame (new_dispatcher DispatcherOptions_default) sample_eth sample_ip sample_udp
                   (SomeIp.encode_header sample_someip ++ [x00; x00]) _) sample_someip [x00; x00] _ _ _ _ _ _ _).
  - split; [ | reflexivity | | reflexivity | | ].
    + split; try reflexivity; (discriminate || (split; [discriminate | reflexivity])).
    + split; try reflexivity; split; (discriminate || reflexivity).
    + split; try reflexivity; split; (discriminate || reflexivity).
    + discriminate.
  - reflexivity.
  - discriminate.
  - reflexivity.
  - split; try reflexivity; (discriminate || (split; [discriminate | reflexivity])).
  - reflexivity.
  - discriminate.
  - vm_compute. auto.
Defined.

(** [C1] What a dispatch returns.  The layers are a protocol stack: from the start
    of the packet, each header is what its decoder returns on the bytes that the
    layers before it leave, and its predecessor announces it (ethertype, IP
    protocol, port, service id).  The payload is what the last layer leaves,
    [complete] holds exactly when there is no error, and there are never more
    than five layers, nor more than [max_layers] except that the network layers
    are decoded whatever it says. *)
Theorem dispatcher_stack (d d' : ProtocolDispatcher) (packet : list byte) (r : DecodeStackResult) :
  (decode d packet = Done (r, d') ->
   decoded_stack is_ethernet 2 (options d) packet r /\ zlen (layers r) <= 5 /\ options d' = options d) /\
  (decode_from_ip d packet = Done (r, d') ->
   decoded_stack is_ipv4_layer 1 (options d) packet r /\ zlen (layers r) <= 4 /\ options d' = options d).
Proof.
  split; intros H; apply bind_inv in H as ([r0 st] & H & Hr); apply Done_pair_inj in Hr as [<- <-];
    cbn [fst snd with_reassembler options];
    [apply decode_ethernet_stack in H | apply decode_ip_stack in H];
    (split; [exact H|]); destruct H as (rest & Hs & _); (split; [|reflexivity]);
    [ apply (stack_length _ _ _ _ 0) in Hs | apply (stack_length _ _ _ _ 1) in Hs ]; try lia;
    intros []; cbn; lia.
Qed.

Lemma dispatcher_stack_witness :
  let d := new_dispatcher DispatcherOptions_default in
  let frame := udp_frame sample_eth sample_ip sample_udp (SomeIp.encode_header sample_someip) in
  let layers := [EthernetLayer sample_eth; IPv4Layer sample_ip; UdpLayer sample_udp; SomeIpLayer sample_someip] in
  decoded_stack is_ethernet 2 (options d) frame (mkResult layers [] None true).
Proof.
  apply (dispatcher_stack (new_dispatcher DispatcherOptions_default) (new_dispatcher DispatcherOptions_default)).
  vm_compute. reflexivity.
Defined.

(** [max_layers = 0] still decodes the network layers. *)
Example max_layers_0 :
  let opts := mkDispatcherOptions false true 0 false in
  match decode (new_dispatcher opts) (udp_frame sample_eth sample_ip sample_udp []) with
  | Done (r, _) => layers r = [EthernetLayer sample_eth; IPv4Layer sample_ip] /\ complete r = true
  | _ => False
  end.
Proof. vm_compute. auto. Qed.

(** A UDP datagram from which a dispatch reads out of bounds. *)
Example dispatcher_overread :
  decode (new_dispatcher DispatcherOptions_default)
    (udp_frame sample_eth sample_ip (Udp.mkUdpHeader 40000 7400 8 0 true) (Rtps.sample_data x03 x08)) = Undef.
Proof. vm_compute. reflexivity. Qed.

(** The IPv4 checksum of [sample_ip] is wrong: only the constructor's option notices. *)
Lemma dispatcher_idle_options_witness :
  let o1 := mkDispatcherOptions true true 16 true in
  let d := new_dispatcher DispatcherOptions_default in
  let frame := udp_frame sample_eth sample_ip sample_udp [] in
  result_of (decode (set_options d o1) frame) = result_of (decode (set_options d DispatcherOptions_default) frame) /\
  result_of (decode (new_dispatcher o1) frame) <> result_of (decode d frame).
Proof.
  split.
  - apply (dispatcher_idle_options (new_dispatcher DispatcherOptions_default)
             (mkDispatcherOptions true true 16 true) DispatcherOptions_default); reflexivity.
  - vm_compute. discriminate.
Defined.

(** ** Filters *)

(** A projection whose layers all have one rank. *)
Definition one_rank {H} (as_header : DecodedHeader -> option H) (k : Z) : Prop :=
  forall l h, as_header l = Some h -> rank l = k.

Lemma stack_ranks first d ls rest n :
  (forall l, first l -> n < rank l) -> stack first d ls rest -> Forall (fun l => n < rank l) ls.
Proof.
  intros Hf H. revert n Hf. induction H as [first d|first l d d' ls rest Hl Hat Hst IH]; intros n Hf; constructor; auto.
  apply IH. intros l' Hl'. apply follows_rank in Hl'. specialize (Hf l Hl). lia.
Qed.

(** Where ranks grow, there is at most one layer of a type, so the first match is the only one. *)
Lemma get_layer_stack {H} (as_header : DecodedHeader -> option H) k first d ls rest h :
  one_rank as_header k -> stack first d ls rest ->
  get_layer as_header ls = Some h <-> exists l, l ∈ ls /\ as_header l = Some h.
Proof.
  intros Hk Hst0. induction Hst0 as [first d|first l d d' ls rest Hl Hat Hst IH].
  - cbn [get_layer]. split; [discriminate | intros (l & Hin & _); apply elem_of_nil in Hin; contradiction].
  - cbn [get_layer]. split.
    + destruct (as_header l) eqn:E; [intros [= ->]; exists l; split; [constructor | exact E]|].
      intros Hg. apply IH in Hg as (l' & Hin & Hl'). exists l'. split; [constructor; exact Hin | exact Hl'].
    + intros (l' & Hin & Hl'). apply elem_of_cons in Hin as [->|Hin]; [rewrite Hl'; reflexivity|].
      destruct (as_header l) eqn:E; [|apply IH; eauto].
      pose proof (stack_ranks _ _ _ _ (rank l) (follows_rank l) Hst) as Hr. rewrite Forall_forall in Hr.
      specialize (Hr l' Hin). apply Hk in E, Hl'. lia.
Qed.

Lemma on_layer_stack {H} (as_header : DecodedHeader -> option H) k p first d r rest :
  one_rank as_header k -> stack first d (layers r) rest ->
  on_layer as_header p r = true <-> exists l h, l ∈ layers r /\ as_header l = Some h /\ p h = true.
Proof.
  intros Hk Hst. unfold on_layer. split.
  - destruct (get_layer as_header (layers r)) as [h|] eqn:E; [|discriminate]. intros Hp.
    apply (get_layer_stack _ _ _ _ _ _ _ Hk Hst) in E as (l & ? & ?). eauto.
  - intros (l & h & Hin & Hl & Hp).
    rewrite (proj2 (get_layer_stack _ _ _ _ _ _ h Hk Hst)) by eauto. exact Hp.
Qed.

Lemma ports_of_rank : one_rank ports_of 2. Proof. intros [] ? [=]; reflexivity. Qed.
Lemma as_udp_rank : one_rank as_udp 2. Proof. intros [] ? [=]; reflexivity. Qed.
Lemma as_tcp_rank : one_rank as_tcp 2. Proof. intros [] ? [=]; reflexivity. Qed.
Lemma as_ipv4_rank : one_rank as_ipv4 1. Proof. intros [] ? [=]; reflexivity. Qed.
Lemma as_someip_rank : one_rank as_someip 3. Proof. intros [] ? [=]; reflexivity. Qed.

Lemma port_on_ports n first d r rest :
  stack first d (layers r) rest ->
  port n r = on_layer ports_of (fun sd => (sd.1 =? n) || (sd.2 =? n)) r.
Proof.
  intros Hst. unfold port, on_layer.
  pose proof ports_of_rank as Hrk.
  destruct (get_layer as_udp (layers r)) as [h|] eqn:Eu.
  - apply (get_layer_stack _ 2 _ _ _ _ _ as_udp_rank Hst) in Eu as (l & Hin & Hl).
    rewrite (proj2 (get_layer_stack _ 2 _ _ _ _ (Udp.udp_src_port h, Udp.udp_dst_port h) Hrk Hst)); [reflexivity|].
    exists l. split; [exact Hin|]. destruct l; try discriminate Hl. injection Hl as ->. reflexivity.
  - destruct (get_layer as_tcp (layers r)) as [h|] eqn:Et.
    + apply (get_layer_stack _ 2 _ _ _ _ _ as_tcp_rank Hst) in Et as (l & Hin & Hl).
      rewrite (proj2 (get_layer_stack _ 2 _ _ _ _ (Tcp.tcp_src_port h, Tcp.tcp_dst_port h) Hrk Hst)); [reflexivity|].
      exists l. split; [exact Hin|]. destruct l; try discriminate Hl. injection Hl as ->. reflexivity.
    + destruct (get_layer ports_of (layers r)) as [sd|] eqn:Ep; [exfalso|reflexivity].
      apply (get_layer_stack _ 2 _ _ _ _ _ Hrk Hst) in Ep as (l & Hin & Hl).
      destruct l as [| |h|h| | | | |]; try discriminate Hl.
      * rewrite (proj2 (get_layer_stack as_udp 2 _ _ _ _ h as_udp_rank Hst)) in Eu;
          [discriminate | eauto].
      * rewrite (proj2 (get_layer_stack as_tcp 2 _ _ _ _ h as_tcp_rank Hst)) in Et;
          [discriminate | eauto].
Qed.

(** The filters miss nothing.  They look at the first layer of a type only,
    and [port] at TCP only when there is no UDP layer; since a decoded stack has
    at most one layer of each rank, a packet passes [port], [someip_service] or
    [ip_address] exactly when some layer of it carries the value. *)
Theorem dispatcher_filters_exact (d d' : ProtocolDispatcher) (packet : list byte) (r : DecodeStackResult) :
  decode d packet = Done (r, d') \/ decode_from_ip d packet = Done (r, d') ->
  (forall n, port n r = true <->
     exists l s t, l ∈ layers r /\ ports_of l = Some (s, t) /\ (s = n \/ t = n)) /\
  (forall sid, someip_service sid r = true <->
     exists h, SomeIpLayer h ∈ layers r /\ SomeIp.service_id h = sid) /\
  (forall a, ip_address a r = true <->
     exists h, IPv4Layer h ∈ layers r /\ (Ipv4.ip_src h = a \/ Ipv4.ip_dst h = a)).
Proof.
  intros H. assert (Hst : exists first rest, stack first packet (layers r) rest).
  { destruct H as [H|H]; apply bind_inv in H as ([r0 st] & H & Hr); apply Done_pair_inj in Hr as [<- _];
      [apply decode_ethernet_stack in H | apply decode_ip_stack in H]; destruct H as (rest & H & _); eauto. }
  destruct Hst as (first & rest & Hst). split_and!.
  - intros n. rewrite (port_on_ports n _ _ _ _ Hst),
      (on_layer_stack ports_of 2 _ _ _ _ _ ports_of_rank Hst). split.
    + intros (l & [s t] & Hin & Hl & Hp). exists l, s, t. cbn in Hp. split_and!; auto.
      apply orb_prop in Hp as [?|?]; bool_to_prop; auto.
    + intros (l & s & t & Hin & Hl & Hn). exists l, (s, t). split_and!; auto. cbn. apply orb_true_iff.
      destruct Hn as [->| ->]; rewrite Z.eqb_refl; auto.
  - intros sid. unfold someip_service.
    rewrite (on_layer_stack as_someip 3 _ _ _ _ _ as_someip_rank Hst). split.
    + intros (l & h & Hin & Hl & Hp). bool_to_prop. exists h. destruct l; try discriminate Hl. injection Hl as ->. auto.
    + intros (h & Hin & <-). exists (SomeIpLayer h), h. rewrite Z.eqb_refl. auto.
  - intros a. unfold ip_address.
    rewrite (on_layer_stack as_ipv4 1 _ _ _ _ _ as_ipv4_rank Hst). split.
    + intros (l & h & Hin & Hl & Hp). exists h. destruct l; try discriminate Hl. injection Hl as ->.
      split; [exact Hin|]. apply orb_prop in Hp as [Hp|Hp]; apply bool_decide_eq_true in Hp; auto.
    + intros (h & Hin & Ha). exists (IPv4Layer h), h. split_and!; auto. apply orb_true_iff.
      destruct Ha as [Ha|Ha]; [left | right]; apply bool_decide_eq_true, Ha.
Qed.

Lemma dispatcher_filters_exact_witness :
  exists r d', decode (new_dispatcher DispatcherOptions_default)
                 (udp_frame sample_eth sample_ip sample_udp (SomeIp.encode_header sample_someip)) = Done (r, d') /\
  (someip_service 0x1234 r = true <->
   exists h, SomeIpLayer h ∈ layers r /\ SomeIp.service_id h = 0x1234).
Proof.
  eexists _, _. split; [vm_compute; reflexivity|].
  apply (dispatcher_filters_exact (new_dispatcher DispatcherOptions_default) (new_dispatcher DispatcherOptions_default)
           (udp_frame sample_eth sample_ip sample_udp (SomeIp.encode_header sample_someip))).
  left. vm_compute. reflexivity.
Defined.

(** ** What earlier packets change *)

(** Two computations that differ only in the state they leave. *)
Definition same_result {E A S} (m m' : res E (A * S)) : Prop :=
  match m, m' with
  | Done x, Done y => x.1 = y.1
  | Fail e, Fail e' => e = e'
  | Undef, Undef => True
  | _, _ => False
  end.

Lemma same_refl {E A S} (m : res E (A * S)) : same_result m m.
Proof. destruct m; cbn; auto. Qed.

Lemma same_bind {E A B S} (m : res E A) (k k' : A -> res E (B * S)) :
  (forall a, same_result (k a) (k' a)) -> same_result (m ≫= k) (m ≫= k').
Proof. intros Hk. destruct m; cbn; auto. Qed.

Lemma same_after {E A B S T} (m m' : res E (A * S)) (f : A -> B) (g : A * S -> T) :
  same_result m m' -> same_result (x ← m; Done (f x.1, g x)) (x ← m'; Done (f x.1, g x)).
Proof. destruct m, m'; cbn; intros H; try contradiction; congruence. Qed.

Lemma same_attempt {A B S} (m : decoded A) (k k' : A -> run (B * S)) (e e' : DecodeError -> run (B * S)) :
  (forall a, same_result (k a) (k' a)) -> (forall x, same_result (e x) (e' x)) ->
  same_result (attempt m k e) (attempt m k' e').
Proof. intros Hk He. destruct m; cbn [attempt same_result]; auto. Qed.

(** A decoder whose own state differs. *)
Lemma same_attempt_state {A T B S} (m m' : decoded (A * T)) (k k' : A * T -> run (B * S)) (e e' : DecodeError -> run (B * S)) :
  same_result m m' -> (forall a t t', same_result (k (a, t)) (k' (a, t'))) -> (forall x, same_result (e x) (e' x)) ->
  same_result (attempt m k e) (attempt m' k' e').
Proof.
  intros Hm Hk He. destruct m as [[a t]| |], m' as [[a' t']| |]; try contradiction Hm; cbn in Hm; subst; cbn [attempt same_result]; auto.
Qed.

Local Ltac same := first [apply same_refl | cbn [same_result fst]; reflexivity].

Section earlier_packets.
Context (opts : DispatcherOptions) (st st' : SomeIp.Reassembler).

(** The reassembler decides what a segment completes, not whether it is accepted. *)
Definition same_outcome {E A} (m m' : res E A) : Prop :=
  match m, m' with
  | Done _, Done _ => True
  | Fail e, Fail e' => e = e'
  | Undef, Undef => True
  | _, _ => False
  end.

Lemma outcome_bind {E A B} (m : res E A) (k k' : A -> res E B) :
  (forall a, same_outcome (k a) (k' a)) -> same_outcome (m ≫= k) (m ≫= k').
Proof. intros Hk. destruct m; cbn; auto. Qed.

Lemma add_segment_outcome mid rid seg payload n :
  same_outcome (SomeIp.add_segment st mid rid seg payload n) (SomeIp.add_segment st' mid rid seg payload n).
Proof. unfold SomeIp.add_segment. do 2 (case_step; [exact I|]). destruct (memcpy _ _); exact I || exact eq_refl. Qed.

Lemma decode_tp_outcome so ctx h : same_outcome (SomeIp.decode_tp so st ctx h) (SomeIp.decode_tp so st' ctx h).
Proof.
  unfold SomeIp.decode_tp. do 2 (case_step; [exact eq_refl|]). case_step; [|exact I]. case_step; [exact eq_refl|].
  do 3 (apply outcome_bind; intros ?). cbn zeta. destruct (SomeIp.MAX_MESSAGE_SIZE <? _ + _); [exact eq_refl|].
  match goal with |- same_outcome (SomeIp.add_segment _ ?a ?b ?c ?d ?n ≫= _) _ =>
    pose proof (add_segment_outcome a b c d n) as H end.
  destruct (SomeIp.add_segment _ _ _ _ _ _), (SomeIp.add_segment st' _ _ _ _ _); exact H.
Qed.

Lemma someip_same_result so ctx : same_result (SomeIp.decode_impl so st ctx) (SomeIp.decode_impl so st' ctx).
Proof.
  unfold SomeIp.decode_impl. case_step; [same|]. apply same_bind. intros version.
  case_step; [same|]. do 3 (apply same_bind; intros ?). cbn zeta. case_step; [same|].
  case_step; [|same]. pose proof (decode_tp_outcome so ctx) as H.
  match goal with |- same_result (SomeIp.decode_tp _ _ _ ?h ≫= _) _ => specialize (H h) end.
  destruct (SomeIp.decode_tp _ _ _ _), (SomeIp.decode_tp _ st' _ _); cbn in H |- *; auto.
Qed.

Lemma decode_someip_sd_state r d : same_result (decode_someip_sd opts st r d) (decode_someip_sd opts st' r d).
Proof.
  apply same_attempt_state; [apply someip_same_result | | intros; cbn; same].
  intros [h next] t t'. apply same_bind. intros d'. case_step; [|same].
  apply same_attempt; [|same]. intros hn. apply same_bind. same.
Qed.

Lemma decode_someip_heuristic_state r d :
  same_result (decode_someip_heuristic st r d) (decode_someip_heuristic st' r d).
Proof.
  unfold decode_someip_heuristic. case_step; [|same].
  apply same_attempt_state; [apply someip_same_result | | same].
  intros [h next] t t'. cbn beta iota. case_step; [|same]. apply same_bind. same.
Qed.

Lemma decode_gptp_state r d : same_result (decode_gptp opts st r d) (decode_gptp opts st' r d).
Proof.
  unfold decode_gptp. case_step; [same|]. apply same_attempt.
  - intros hn. apply same_bind. same.
  - intros. cbn zeta. case_step; same.
Qed.

Lemma decode_rtps_state r d : same_result (decode_rtps opts st r d) (decode_rtps opts st' r d).
Proof.
  unfold decode_rtps. case_step; [same|]. apply same_attempt; [same|].
  intros. cbn zeta. case_step; same.
Qed.

Lemma decode_application_state r d s p :
  same_result (decode_application opts st r d s p) (decode_application opts st' r d s p).
Proof.
  unfold decode_application. case_step; [same|]. case_step.
  - apply same_attempt; [|same]. intros hn. apply same_bind. same.
  - case_step; [apply decode_rtps_state|].
    case_step; [apply decode_someip_sd_state | apply decode_someip_heuristic_state].
Qed.

Lemma decode_transport_state r d proto :
  same_result (decode_transport opts st r d proto) (decode_transport opts st' r d proto).
Proof.
  unfold decode_transport. case_step; [same|].
  do 2 (case_step; [apply same_attempt;
    [ intros hn; apply same_bind; intros d'; cbn zeta; case_step; [apply decode_application_state | same]
    | intros; cbn zeta; case_step; same]|]).
  same.
Qed.

Lemma decode_ethernet_state ip d : same_result (decode_ethernet opts ip st d) (decode_ethernet opts ip st' d).
Proof.
  unfold decode_ethernet. case_step; [same|]. apply same_attempt.
  2:{ intros. cbn zeta. case_step; same. }
  intros hn. apply same_bind. intros d'. cbn zeta. case_step.
  - apply same_attempt.
    + intros ihn. apply same_bind. intros d''. apply same_after, decode_transport_state.
    + intros. case_step; same.
  - case_step; [|same]. apply same_after, decode_gptp_state.
Qed.
End earlier_packets.

(** The result of a dispatch depends on the dispatcher's options only, whatever packets
    it decoded before. *)
Lemma decode_state_irrelevant (d : ProtocolDispatcher) (st : SomeIp.Reassembler) packet :
  same_result (decode d packet) (decode (with_reassembler d st) packet).
Proof.
  unfold decode. cbn [with_reassembler options ipv4_options tp_reassembler].
  pose proof (decode_ethernet_state (options d) (tp_reassembler d) st (ipv4_options d) packet) as H.
  destruct (decode_ethernet _ _ _ _), (decode_ethernet _ _ st _); cbn in H |- *; auto.
Qed.

(** Above the transport layer a DoIP layer needs the DoIP port. *)
Lemma stack_without_doip l d ls rest :
  stack (follows l) d ls rest -> 2 <= rank l -> ~ on_port (fun p => p =? Udp.port_DOIP) l ->
  Forall (fun x => as_doip x = None) ls.
Proof.
  revert l d. induction ls as [|x ls IH]; intros l d Hst Hr Hno; [constructor|].
  inversion Hst as [|? ? d' ? ? Hf Hat Hrest]; subst. pose proof (follows_rank _ _ Hf) as Hlt.
  assert (Hx : as_doip x = None) by (destruct x; try reflexivity; destruct Hno; destruct l; try contradiction Hf; exact Hf).
  constructor; [exact Hx|]. apply (IH x d' Hrest); [lia|].
  intros (s & p & Hp & _). destruct x; try discriminate Hp; cbn [rank] in Hlt; lia.
Qed.

Section tcp_frames_off_port.
Context (d : ProtocolDispatcher) (eth : Ethernet.EthernetHeader) (ip : Ipv4.IPv4Header) (tcp : Tcp.TcpHeader).
Context (reserved : Z) (options_bytes : list byte).

(** Off its port a DoIP message is not recognised, whatever it is taken for. *)
Lemma decode_tcp_frame_off_port p r d' :
  wf_tcp_frame d eth ip tcp reserved options_bytes ->
  (Tcp.tcp_src_port tcp =? Udp.port_DOIP) || (Tcp.tcp_dst_port tcp =? Udp.port_DOIP) = false ->
  decode d (tcp_frame eth ip tcp reserved options_bytes p) = Done (r, d') -> get_layer as_doip (layers r) = None.
Proof.
  intros Hwf Hport H. rewrite decode_tcp_frame in H by exact Hwf. cbv zeta in H.
  apply bind_inv in H as ([r0 st0] & Ho & H). cbn [fst snd] in H. apply Done_pair_inj in H as [<- _].
  destruct (mark_complete_fields r0) as (-> & _).
  assert (Hall : Forall (fun x => as_doip x = None) (layers r0)).
  { destruct (decode_app (options d) && _); [|apply Done_pair_inj in Ho as [<- _]; repeat constructor].
    destruct (decode_application_extends (options d) (tp_reassembler d) _ _ (TcpLayer tcp) _ _ eq_refl _ _ Ho)
      as (ls & rest & -> & Hst & _); [reflexivity | split; reflexivity|].
    apply Forall_app. split; [repeat constructor|].
    apply (stack_without_doip _ _ _ _ Hst); [reflexivity || (cbn [rank]; lia)|].
    rewrite (on_port_iff _ (TcpLayer tcp) _ _ eq_refl), Hport. discriminate. }
  induction Hall as [|x ls Hx _ IH]; [reflexivity|]. cbn [get_layer]. rewrite Hx. exact IH.
Qed.
End tcp_frames_off_port.
