(* ===== verification/Uds.v ===== *)
(** * UDS messages (src/protocols/uds_decoder.cpp, include/wadjet/protocols/uds/)

    The ISO 14229 message decoder: requests, positive and negative responses, the
    sub-function byte and the parsers of the single services.

    [UdsServiceMessage] keeps the alternatives of the variant that the decoder
    builds; the other services are decoded to [Unparsed].  Enumeration values are
    their bytes, identifiers their 16-bit values. *)

From Stdlib Require Import ZArith Lia.
From Stdlib Require Import Strings.Byte.
From stdpp Require Import base numbers list strings.
From S2P Require Import Prelude ByteOrder Decoder.

Definition MIN_MESSAGE_SIZE : Z := 1.
Definition NEGATIVE_RESPONSE_SID : Z := 0x7F.
Definition RESPONSE_SID_OFFSET : Z := 0x40.

(** [ServiceID] *)
Definition DiagnosticSessionControl : Z := 0x10.
Definition ECUReset : Z := 0x11.
Definition ClearDiagnosticInformation : Z := 0x14.
Definition ReadDTCInformation : Z := 0x19.
Definition ReadDataByIdentifier : Z := 0x22.
Definition ReadMemoryByAddress : Z := 0x23.
Definition ReadScalingDataByIdentifier : Z := 0x24.
Definition SecurityAccess : Z := 0x27.
Definition CommunicationControl : Z := 0x28.
Definition ReadDataByPeriodicIdentifier : Z := 0x2A.
Definition DynamicallyDefineDataIdentifier : Z := 0x2C.
Definition WriteDataByIdentifier : Z := 0x2E.
Definition InputOutputControlByIdentifier : Z := 0x2F.
Definition RoutineControl : Z := 0x31.
Definition RequestDownload : Z := 0x34.
Definition RequestUpload : Z := 0x35.
Definition TransferData : Z := 0x36.
Definition RequestTransferExit : Z := 0x37.
Definition RequestFileTransfer : Z := 0x38.
Definition WriteMemoryByAddress : Z := 0x3D.
Definition TesterPresent : Z := 0x3E.
Definition AccessTimingParameter : Z := 0x83.
Definition SecuredDataTransmission : Z := 0x84.
Definition ControlDTCSetting : Z := 0x85.
Definition ResponseOnEvent : Z := 0x86.
Definition LinkControl : Z := 0x87.

(** [ResetType] values that carry a power-down time. *)
Definition EnableRapidPowerShutDown : Z := 0x04.
Definition DisableRapidPowerShutDown : Z := 0x05.

Inductive MessageDirection := Request | PositiveResponse | NegativeResponse.

Record UdsHeader := mkUdsHeader {
  service_id : Z;
  direction : MessageDirection;
  sub_function : option Z;
  suppress_positive_response : bool;
  rejected_service_id : option Z;
  negative_response_code : option Z;
  service_data : list byte;
  raw_data : list byte
}.

Definition header_size (h : UdsHeader) : Z :=
  match direction h with
  | NegativeResponse => 3
  | _ => match sub_function h with Some _ => 2 | None => 1 end
  end.

Inductive UdsServiceMessage :=
| Unparsed
| DiagnosticSessionControlRequest (session_type : Z) (suppress : bool)
| DiagnosticSessionControlResponse (session_type p2_server_max_ms p2_star_server_max_ms : Z)
| ECUResetRequest (reset_type : Z) (suppress : bool)
| ECUResetResponse (reset_type : Z) (power_down_time : option Z)
| SecurityAccessRequest (access_type : Z) (suppress : bool) (security_key : list byte)
| SecurityAccessResponse (access_type : Z) (security_seed : list byte)
| TesterPresentRequest (sub_function : Z) (suppress : bool)
| TesterPresentResponse (sub_function : Z)
| ReadDataByIdentifierRequest (data_identifiers : list Z)
| ReadDataByIdentifierResponse (records : list (Z * list byte))
| WriteDataByIdentifierRequest (data_identifier : Z) (data_record : list byte)
| WriteDataByIdentifierResponse (data_identifier : Z)
| RoutineControlRequest (routine_control_type : Z) (suppress : bool) (routine_identifier : Z)
    (routine_option_record : list byte)
| RoutineControlResponse (routine_control_type routine_identifier : Z) (routine_status_record : list byte)
| RequestDownloadRequest (compression_method encrypting_method memory_size_length memory_address_length : Z)
    (memory_address memory_size : Z)
| RequestDownloadResponse (length_format_identifier max_number_of_block_length : Z)
| TransferDataRequest (block_sequence_counter : Z) (parameter_record : list byte)
| TransferDataResponse (block_sequence_counter : Z) (parameter_record : list byte)
| RequestTransferExitRequest (parameter_record : list byte)
| RequestTransferExitResponse (parameter_record : list byte)
| NegativeResponseMessage (rejected_service_id negative_response_code : Z).

Record UdsDecodeResult := mkUdsDecodeResult { header : UdsHeader; message : UdsServiceMessage }.

Inductive UdsDecodeErrorCode :=
| MessageTooShort | InvalidServiceId | InvalidSubFunction | InvalidMessageLength | UdsMalformedData.
Record UdsDecodeError := mkUdsDecodeError { uds_code : UdsDecodeErrorCode; uds_message : string }.

Abbreviation uds := (res UdsDecodeError).

(** ** Helpers *)

Definition service_has_sub_function (sid : Z) : bool :=
  existsb (Z.eqb sid)
    [DiagnosticSessionControl; ECUReset; SecurityAccess; CommunicationControl; TesterPresent;
     ControlDTCSetting; ResponseOnEvent; LinkControl; ReadDTCInformation; RoutineControl].
Definition extract_sub_function (b : Z) : Z := Z.land b 0x7F.
Definition extract_suppress_positive_response (b : Z) : bool := negb (Z.land b 0x80 =? 0).
Definition make_sub_function_byte (sub_function : Z) (suppress : bool) : Z :=
  Z.lor (Z.land sub_function 0x7F) (if suppress then 0x80 else 0x00).
Definition get_security_level (sub_function : Z) : Z := uint 8 ((sub_function + 1) / 2).

Definition read_be16 (d : list byte) (i : Z) : uds Z :=
  b0 ← byte_at d i; b1 ← byte_at d (i + 1);
  Done (uint 16 (Z.lor (Z.shiftl b0 8) b1)).

(** [read_be_var(data + i, n)]. *)
Fixpoint be_var_loop (n : nat) (d : list byte) (i result : Z) : uds Z :=
  match n with
  | O => Done result
  | S n' => b ← byte_at d i; be_var_loop n' d (i + 1) (Z.lor (uint 64 (Z.shiftl result 8)) b)
  end.
Definition read_be_var (d : list byte) (i len : Z) : uds Z := be_var_loop (Z.to_nat len) d i 0.

(** [if (data.size() > i) record = to_vector(data.subspan(i));]. *)
Definition record_from (d : list byte) (i : Z) : uds (list byte) :=
  if i <? zlen d then subspan d i else Done [].

(** ** Requests *)

Definition parse_diagnostic_session_control_request (d : list byte) : uds UdsServiceMessage :=
  if zlen d <? 2 then Done Unparsed
  else
    sub_byte ← byte_at d 1;
    Done (DiagnosticSessionControlRequest (extract_sub_function sub_byte)
            (extract_suppress_positive_response sub_byte)).

Definition parse_ecu_reset_request (d : list byte) : uds UdsServiceMessage :=
  if zlen d <? 2 then Done Unparsed
  else
    sub_byte ← byte_at d 1;
    Done (ECUResetRequest (extract_sub_function sub_byte) (extract_suppress_positive_response sub_byte)).

Definition is_send_key (access_type : Z) : bool := Z.land access_type 0x01 =? 0.

Definition parse_security_access_request (d : list byte) : uds UdsServiceMessage :=
  if zlen d <? 2 then Done Unparsed
  else
    sub_byte ← byte_at d 1;
    let access_type := extract_sub_function sub_byte in
    key ← (if is_send_key access_type then record_from d 2 else Done []);
    Done (SecurityAccessRequest access_type (extract_suppress_positive_response sub_byte) key).

Definition parse_tester_present_request (d : list byte) : uds UdsServiceMessage :=
  if zlen d <? 2 then Done Unparsed
  else
    sub_byte ← byte_at d 1;
    Done (TesterPresentRequest (extract_sub_function sub_byte) (extract_suppress_positive_response sub_byte)).

(** [for (i = 1; i + 1 < data.size(); i += 2)]. *)
Fixpoint dids_loop (fuel : nat) (d : list byte) (i : Z) : uds (list Z) :=
  match fuel with
  | O => Done []
  | S fuel' =>
      if i + 1 <? zlen d then
        did ← read_be16 d i;
        rest ← dids_loop fuel' d (i + 2);
        Done (did :: rest)
      else Done []
  end.

Definition parse_read_data_by_identifier_request (d : list byte) : uds UdsServiceMessage :=
  if zlen d <? 3 then Done Unparsed
  else
    dids ← dids_loop (length d) d 1;
    Done (ReadDataByIdentifierRequest dids).

Definition parse_write_data_by_identifier_request (d : list byte) : uds UdsServiceMessage :=
  if zlen d <? 4 then Done Unparsed
  else
    did ← read_be16 d 1;
    record ← record_from d 3;
    Done (WriteDataByIdentifierRequest did record).

Definition parse_routine_control_request (d : list byte) : uds UdsServiceMessage :=
  if zlen d <? 4 then Done Unparsed
  else
    sub_byte ← byte_at d 1;
    rid ← read_be16 d 2;
    record ← record_from d 4;
    Done (RoutineControlRequest (extract_sub_function sub_byte)
            (extract_suppress_positive_response sub_byte) rid record).

Definition high_nibble (b : Z) : Z := Z.land (Z.shiftr b 4) 0x0F.
Definition low_nibble (b : Z) : Z := Z.land b 0x0F.

Definition parse_request_download_request (d : list byte) : uds UdsServiceMessage :=
  if zlen d <? 4 then Done Unparsed
  else
    fmt ← byte_at d 1;
    alfid ← byte_at d 2;
    let size_len := high_nibble alfid in
    let addr_len := low_nibble alfid in
    if 3 + addr_len + size_len <=? zlen d then
      address ← read_be_var d 3 addr_len;
      size ← read_be_var d (3 + addr_len) size_len;
      Done (RequestDownloadRequest (high_nibble fmt) (low_nibble fmt) size_len addr_len address size)
    else Done (RequestDownloadRequest (high_nibble fmt) (low_nibble fmt) size_len addr_len 0 0).

Definition parse_transfer_data_request (d : list byte) : uds UdsServiceMessage :=
  if zlen d <? 2 then Done Unparsed
  else
    counter ← byte_at d 1;
    record ← record_from d 2;
    Done (TransferDataRequest counter record).

Definition parse_request_transfer_exit_request (d : list byte) : uds UdsServiceMessage :=
  record ← record_from d 1;
  Done (RequestTransferExitRequest record).

(** ** Positive responses *)

Definition parse_diagnostic_session_control_response (d : list byte) : uds UdsServiceMessage :=
  if zlen d <? 2 then Done Unparsed
  else
    session_type ← byte_at d 1;
    if 6 <=? zlen d then
      p2 ← read_be16 d 2;
      p2_star ← read_be16 d 4;
      Done (DiagnosticSessionControlResponse session_type p2 p2_star)
    else Done (DiagnosticSessionControlResponse session_type 0 0).

Definition parse_ecu_reset_response (d : list byte) : uds UdsServiceMessage :=
  if zlen d <? 2 then Done Unparsed
  else
    reset_type ← byte_at d 1;
    if (3 <=? zlen d) && ((reset_type =? EnableRapidPowerShutDown) || (reset_type =? DisableRapidPowerShutDown))
    then t ← byte_at d 2; Done (ECUResetResponse reset_type (Some t))
    else Done (ECUResetResponse reset_type None).

Definition parse_security_access_response (d : list byte) : uds UdsServiceMessage :=
  if zlen d <? 2 then Done Unparsed
  else
    access_type ← byte_at d 1;
    seed ← (if negb (Z.land access_type 0x01 =? 0) then record_from d 2 else Done []);
    Done (SecurityAccessResponse access_type seed).

Definition parse_tester_present_response (d : list byte) : uds UdsServiceMessage :=
  if zlen d <? 2 then Done Unparsed
  else sub ← byte_at d 1; Done (TesterPresentResponse sub).

Definition parse_read_data_by_identifier_response (d : list byte) : uds UdsServiceMessage :=
  if zlen d <? 3 then Done Unparsed
  else
    did ← read_be16 d 1;
    record ← record_from d 3;
    Done (ReadDataByIdentifierResponse [(did, record)]).

Definition parse_write_data_by_identifier_response (d : list byte) : uds UdsServiceMessage :=
  if zlen d <? 3 then Done Unparsed
  else did ← read_be16 d 1; Done (WriteDataByIdentifierResponse did).

Definition parse_routine_control_response (d : list byte) : uds UdsServiceMessage :=
  if zlen d <? 4 then Done Unparsed
  else
    type ← byte_at d 1;
    rid ← read_be16 d 2;
    record ← record_from d 4;
    Done (RoutineControlResponse type rid record).

Definition parse_request_download_response (d : list byte) : uds UdsServiceMessage :=
  if zlen d <? 2 then Done Unparsed
  else
    lfid ← byte_at d 1;
    let num_bytes := high_nibble lfid in
    if (2 + num_bytes <=? zlen d) && (num_bytes <=? 4) then
      n ← read_be_var d 2 num_bytes;
      Done (RequestDownloadResponse lfid (uint 32 n))
    else Done (RequestDownloadResponse lfid 0).

Definition parse_transfer_data_response (d : list byte) : uds UdsServiceMessage :=
  if zlen d <? 2 then Done Unparsed
  else
    counter ← byte_at d 1;
    record ← record_from d 2;
    Done (TransferDataResponse counter record).

Definition parse_request_transfer_exit_response (d : list byte) : uds UdsServiceMessage :=
  record ← record_from d 1;
  Done (RequestTransferExitResponse record).

(** ** Messages *)

(** The [switch] of [parse_request]. *)
Definition request_message (sid : Z) (d : list byte) : uds UdsServiceMessage :=
  if sid =? DiagnosticSessionControl then parse_diagnostic_session_control_request d
  else if sid =? ECUReset then parse_ecu_reset_request d
  else if sid =? SecurityAccess then parse_security_access_request d
  else if sid =? TesterPresent then parse_tester_present_request d
  else if sid =? ReadDataByIdentifier then parse_read_data_by_identifier_request d
  else if sid =? WriteDataByIdentifier then parse_write_data_by_identifier_request d
  else if sid =? RoutineControl then parse_routine_control_request d
  else if sid =? RequestDownload then parse_request_download_request d
  else if sid =? TransferData then parse_transfer_data_request d
  else if sid =? RequestTransferExit then parse_request_transfer_exit_request d
  else Done Unparsed.

Definition parse_request (d : list byte) : uds UdsDecodeResult :=
  sid ← byte_at d 0;
  h ← (if service_has_sub_function sid && (2 <=? zlen d) then
         sub_byte ← byte_at d 1;
         rest ← subspan d 2;
         Done (mkUdsHeader sid Request (Some (extract_sub_function sub_byte))
                 (extract_suppress_positive_response sub_byte) None None rest d)
       else
         rest ← subspan d 1;
         Done (mkUdsHeader sid Request None false None None rest d));
  m ← request_message sid d;
  Done (mkUdsDecodeResult h m).

(** The [switch] of [parse_positive_response]. *)
Definition response_message (sid : Z) (d : list byte) : uds UdsServiceMessage :=
  if sid =? DiagnosticSessionControl then parse_diagnostic_session_control_response d
  else if sid =? ECUReset then parse_ecu_reset_response d
  else if sid =? SecurityAccess then parse_security_access_response d
  else if sid =? TesterPresent then parse_tester_present_response d
  else if sid =? ReadDataByIdentifier then parse_read_data_by_identifier_response d
  else if sid =? WriteDataByIdentifier then parse_write_data_by_identifier_response d
  else if sid =? RoutineControl then parse_routine_control_response d
  else if sid =? RequestDownload then parse_request_download_response d
  else if sid =? TransferData then parse_transfer_data_response d
  else if sid =? RequestTransferExit then parse_request_transfer_exit_response d
  else Done Unparsed.

Definition parse_positive_response (d : list byte) : uds UdsDecodeResult :=
  response_sid ← byte_at d 0;
  let sid := uint 8 (response_sid - RESPONSE_SID_OFFSET) in
  h ← (if service_has_sub_function sid && (2 <=? zlen d) then
         sub_byte ← byte_at d 1;
         rest ← subspan d 2;
         Done (mkUdsHeader sid PositiveResponse (Some (extract_sub_function sub_byte)) false None None rest d)
       else
         rest ← subspan d 1;
         Done (mkUdsHeader sid PositiveResponse None false None None rest d));
  m ← response_message sid d;
  Done (mkUdsDecodeResult h m).

Definition parse_negative_response (d : list byte) : uds UdsDecodeResult :=
  if zlen d <? 3
  then Fail (mkUdsDecodeError MessageTooShort "Negative response requires 3 bytes")
  else
    rejected_sid ← byte_at d 1;
    nrc ← byte_at d 2;
    rest ← subspan d 3;
    Done (mkUdsDecodeResult
            (mkUdsHeader rejected_sid NegativeResponse None false (Some rejected_sid) (Some nrc) rest d)
            (NegativeResponseMessage rejected_sid nrc)).

Definition decode (d : list byte) : uds UdsDecodeResult :=
  if zlen d <? MIN_MESSAGE_SIZE
  then Fail (mkUdsDecodeError MessageTooShort "Message too short for UDS")
  else
    sid ← byte_at d 0;
    if sid =? NEGATIVE_RESPONSE_SID then parse_negative_response d
    else if negb (Z.land sid 0x40 =? 0) then parse_positive_response d
    else parse_request d.

Definition is_request (d : list byte) : bool :=
  match d with
  | b :: _ => negb (u8 b =? NEGATIVE_RESPONSE_SID) && (Z.land (u8 b) 0x40 =? 0)
  | [] => false
  end.
Definition is_positive_response (d : list byte) : bool :=
  match d with
  | b :: _ => negb (u8 b =? NEGATIVE_RESPONSE_SID) && negb (Z.land (u8 b) 0x40 =? 0)
  | [] => false
  end.
Definition is_negative_response (d : list byte) : bool :=
  match d with b :: _ => u8 b =? NEGATIVE_RESPONSE_SID | [] => false end.

Definition known_services : list Z :=
  [DiagnosticSessionControl; ECUReset; SecurityAccess; CommunicationControl; TesterPresent;
   AccessTimingParameter; SecuredDataTransmission; ControlDTCSetting; ResponseOnEvent; LinkControl;
   ReadDataByIdentifier; ReadMemoryByAddress; ReadScalingDataByIdentifier; ReadDataByPeriodicIdentifier;
   DynamicallyDefineDataIdentifier; WriteDataByIdentifier; WriteMemoryByAddress;
   ClearDiagnosticInformation; ReadDTCInformation; InputOutputControlByIdentifier; RoutineControl;
   RequestDownload; RequestUpload; TransferData; RequestTransferExit; RequestFileTransfer].

Definition looks_like_uds (d : list byte) : bool :=
  match d with
  | [] => false
  | b :: _ =>
      let sid := u8 b in
      if sid =? NEGATIVE_RESPONSE_SID then 3 <=? zlen d
      else existsb (Z.eqb (Z.land sid (Z.lnot RESPONSE_SID_OFFSET))) known_services
  end.

(** ** The decoder never reads outside the message

    Every service parser checks the length before it reads: it returns the
    parsed message, or [Unparsed] for a message below its minimum size. *)

Lemma read_be16_total d i : 0 <= i -> i + 2 <= zlen d -> total (read_be16 d i).
Proof.
  intros Hi Hl. unfold read_be16.
  destruct (byte_at_in (E:=UdsDecodeError) d i) as (? & -> & _); [lia|].
  destruct (byte_at_in (E:=UdsDecodeError) d (i + 1)) as (? & -> & _); [lia|].
  apply total_Done.
Qed.

Lemma record_from_total d i : 0 <= i -> total (record_from d i).
Proof.
  intros Hi. unfold record_from. destruct (i <? zlen d) eqn:E; bool_to_prop; [|apply total_Done].
  rewrite subspan_in by lia. apply total_Done.
Qed.

Lemma be_var_loop_total n d i r : 0 <= i -> i + Z.of_nat n <= zlen d -> total (be_var_loop n d i r).
Proof.
  revert i r. induction n as [|n IH]; intros i r Hi Hl; cbn [be_var_loop]; [apply total_Done|].
  destruct (byte_at_in (E:=UdsDecodeError) d i) as (? & -> & _); [lia|]. apply IH; lia.
Qed.

Lemma dids_loop_total fuel d i : 0 <= i -> total (dids_loop fuel d i).
Proof.
  revert i. induction fuel as [|fuel IH]; intros i Hi; cbn [dids_loop]; [apply total_Done|].
  case_step; bool_to_prop; [|apply total_Done].
  destruct (read_be16_total d i) as [? ->]; [lia..|].
  destruct (IH (i + 2)) as [? ->]; [lia|]. apply total_Done.
Qed.

Lemma byte_at_total d i : 0 <= i < zlen d -> total (byte_at (E:=UdsDecodeError) d i).
Proof. intros Hi. destruct (byte_at_in (E:=UdsDecodeError) d i Hi) as (v & -> & _). apply total_Done. Qed.

Lemma nibbles_nonneg b : 0 <= high_nibble b /\ 0 <= low_nibble b.
Proof.
  pose proof (land_fits (Z.shiftr b 4) 0x0F 4 ltac:(lia) eq_refl) as H1.
  pose proof (land_fits b 0x0F 4 ltac:(lia) eq_refl) as H2.
  unfold fits in *. unfold high_nibble, low_nibble. lia.
Qed.

Lemma read_be_var_total d i len :
  0 <= i -> 0 <= len -> i + len <= zlen d -> total (read_be_var d i len).
Proof. intros. apply be_var_loop_total; lia. Qed.

Ltac nibble_range b :=
  lazymatch goal with
  | _ : 0 <= high_nibble b /\ _ |- _ => fail
  | _ => pose proof (nibbles_nonneg b)
  end.

(** Walks through a parser whose guards bound its reads. *)
Ltac uds_total :=
  repeat first
    [ apply total_Done
    | lia
    | match goal with
      | |- total (if ?b then _ else _) => destruct b eqn:?; bool_to_prop
      | |- total (byte_at _ _) => apply byte_at_total
      | |- total (read_be16 _ _) => apply read_be16_total
      | |- total (record_from _ _) => apply record_from_total
      | |- total (dids_loop _ _ _) => apply dids_loop_total
      | |- total (read_be_var _ _ _) => apply read_be_var_total
      | |- total (_ ≫= _) => apply total_bind; [|intros ? ?]
      | |- context [high_nibble ?b] => nibble_range b
      | |- context [low_nibble ?b] => nibble_range b
      end ].

Lemma request_message_total sid d : 1 <= zlen d -> total (request_message sid d).
Proof.
  intros Hd. unfold request_message, parse_diagnostic_session_control_request, parse_ecu_reset_request,
    parse_security_access_request, parse_tester_present_request, parse_read_data_by_identifier_request,
    parse_write_data_by_identifier_request, parse_routine_control_request, parse_request_download_request,
    parse_transfer_data_request, parse_request_transfer_exit_request.
  cbv zeta. uds_total.
Qed.

Lemma response_message_total sid d : 1 <= zlen d -> total (response_message sid d).
Proof.
  intros Hd. unfold response_message, parse_diagnostic_session_control_response, parse_ecu_reset_response,
    parse_security_access_response, parse_tester_present_response, parse_read_data_by_identifier_response,
    parse_write_data_by_identifier_response, parse_routine_control_response, parse_request_download_response,
    parse_transfer_data_response, parse_request_transfer_exit_response.
  cbv zeta. uds_total.
Qed.

(** What the header of a decoded message says of its bytes. *)
Record header_of_bytes (d : list byte) (h : UdsHeader) : Prop := {
  hb_raw : raw_data h = d;
  hb_size : 1 <= header_size h <= zlen d;
  hb_data : service_data h = drop (Z.to_nat (header_size h)) d;
  hb_direction : direction h =
    (if is_negative_response d then NegativeResponse
     else if is_positive_response d then PositiveResponse else Request);
  hb_service : byte_at (E:=UdsDecodeError) d (match direction h with NegativeResponse => 1 | _ => 0 end) =
    Done (service_id h + match direction h with PositiveResponse => RESPONSE_SID_OFFSET | _ => 0 end);
  hb_sub_function : direction h <> NegativeResponse ->
    sub_function h =
      if service_has_sub_function (service_id h)
      then b ← d !! 1%nat; Some (extract_sub_function (u8 b)) else None;
  hb_suppress : suppress_positive_response h = true ->
    direction h = Request /\ exists b, d !! 1%nat = Some b /\ extract_suppress_positive_response (u8 b) = true;
  hb_rejected : direction h = NegativeResponse ->
    rejected_service_id h = Some (service_id h) /\ negative_response_code h = (u8 <$> d !! 2%nat)
}.

Lemma zlen_cons_ltb {A} (a : A) l : (zlen (a :: l) <? 1) = false.
Proof. apply Z.ltb_ge. cbn [length]. lia. Qed.

Lemma positive_sid b : Z.land (u8 b) 0x40 <> 0 -> uint 8 (u8 b - 0x40) + 0x40 = u8 b.
Proof. destruct b; vm_compute; intros H; reflexivity || (exfalso; apply H; reflexivity). Qed.

(** Evaluates the two arms that look for a sub-function byte, on a message that
    is not empty. *)
Ltac header_arms sid d Es b1 Hh :=
  destruct (service_has_sub_function sid) eqn:Es; [destruct d as [|b1 d]|];
  [ | rewrite (proj2 (Z.leb_le 2 _)) in Hh by (cbn [length]; lia);
      change (byte_at _ 1) with (Done (E:=UdsDecodeError) (u8 b1)) in Hh; rewrite bind_Done in Hh | ];
  try change (_ && (2 <=? zlen [_])) with false in Hh; cbn [andb] in Hh;
  rewrite subspan_in, bind_Done in Hh by (cbn [length]; lia);
  apply Done_inj in Hh as <-.

Ltac header_fields :=
  split;
  cbn [raw_data header_size direction sub_function service_data service_id suppress_positive_response
       rejected_service_id negative_response_code length].

Lemma parse_request_header b d r :
  (u8 b =? NEGATIVE_RESPONSE_SID) = false -> negb (Z.land (u8 b) 0x40 =? 0) = false ->
  parse_request (b :: d) = Done r -> header_of_bytes (b :: d) (header r).
Proof.
  intros Hn Hp. unfold parse_request. change (byte_at (b :: d) 0) with (Done (E:=UdsDecodeError) (u8 b)).
  rewrite bind_Done. intros H. apply bind_inv in H as (h & Hh & H). apply bind_inv in H as (m & _ & [= <-]).
  cbn [header].
  header_arms (u8 b) d Es b1 Hh; header_fields;
    rewrite ?Z.add_0_r, ?Es; cbn [is_negative_response is_positive_response]; rewrite ?Hn, ?Hp;
    try reflexivity; try discriminate; try lia.
  intros Hs. split; [reflexivity|]. exists b1. split; [reflexivity | exact Hs].
Qed.

Lemma parse_positive_response_header b d r :
  (u8 b =? NEGATIVE_RESPONSE_SID) = false -> negb (Z.land (u8 b) 0x40 =? 0) = true ->
  parse_positive_response (b :: d) = Done r -> header_of_bytes (b :: d) (header r).
Proof.
  intros Hn Hp. unfold parse_positive_response.
  change (byte_at (b :: d) 0) with (Done (E:=UdsDecodeError) (u8 b)).
  rewrite bind_Done. cbv zeta. set (sid := uint 8 _).
  assert (Hsid : byte_at (E:=UdsDecodeError) (b :: d) 0 = Done (sid + RESPONSE_SID_OFFSET)).
  { bool_to_prop. unfold sid, RESPONSE_SID_OFFSET. rewrite positive_sid by assumption. reflexivity. }
  clearbody sid.
  intros H. apply bind_inv in H as (h & Hh & H). apply bind_inv in H as (m & _ & [= <-]).
  cbn [header].
  header_arms sid d Es b1 Hh; header_fields;
    rewrite ?Es; cbn [is_negative_response is_positive_response]; rewrite ?Hn, ?Hp;
    try reflexivity; try discriminate; try assumption; try lia.
Qed.

Lemma parse_negative_response_header b d r :
  (u8 b =? NEGATIVE_RESPONSE_SID) = true ->
  parse_negative_response (b :: d) = Done r -> header_of_bytes (b :: d) (header r).
Proof.
  intros Hn. unfold parse_negative_response. destruct (_ <? 3) eqn:El; [discriminate|]. bool_to_prop.
  destruct d as [|b1 [|b2 d]]; try (cbn [length] in El; lia).
  change (byte_at (b :: b1 :: b2 :: d) 1) with (Done (E:=UdsDecodeError) (u8 b1)).
  change (byte_at (b :: b1 :: b2 :: d) 2) with (Done (E:=UdsDecodeError) (u8 b2)).
  rewrite !bind_Done, subspan_in, bind_Done by (cbn [length]; lia). intros H. apply Done_inj in H as <-.
  cbn [header]. header_fields; cbn [is_negative_response]; rewrite ?Hn, ?Z.add_0_r;
    try reflexivity; try discriminate; try contradiction; try lia.
  split; reflexivity.
Qed.

Lemma parse_request_total d : 1 <= zlen d -> total (parse_request d).
Proof.
  intros Hd. unfold parse_request. apply total_bind; [apply byte_at_total; lia | intros sid _].
  apply total_bind; [|intros h _; apply total_bind; [apply request_message_total, Hd | intros; apply total_Done]].
  destruct (service_has_sub_function sid && (2 <=? zlen d)) eqn:E; bool_to_prop;
    [apply total_bind; [apply byte_at_total; lia | intros ? _]|];
    rewrite subspan_in by lia; apply total_Done.
Qed.

Lemma parse_positive_response_total d : 1 <= zlen d -> total (parse_positive_response d).
Proof.
  intros Hd. unfold parse_positive_response. apply total_bind; [apply byte_at_total; lia | intros sid _].
  cbv zeta. generalize (uint 8 (sid - RESPONSE_SID_OFFSET)). intros s.
  apply total_bind; [|intros h _; apply total_bind; [apply response_message_total, Hd | intros; apply total_Done]].
  destruct (service_has_sub_function s && (2 <=? zlen d)) eqn:E; bool_to_prop;
    [apply total_bind; [apply byte_at_total; lia | intros ? _]|];
    rewrite subspan_in by lia; apply total_Done.
Qed.

Lemma parse_negative_response_total d : 3 <= zlen d -> total (parse_negative_response d).
Proof.
  intros Hd. unfold parse_negative_response. rewrite (proj2 (Z.ltb_ge _ 3)) by lia.
  apply total_bind; [apply byte_at_total; lia | intros ? _].
  apply total_bind; [apply byte_at_total; lia | intros ? _].
  rewrite subspan_in by lia. apply total_Done.
Qed.

(** The UDS decoder reads only inside the message, whatever its bytes.  It
    fails on exactly two kinds of input, the empty message and a negative response
    of fewer than three bytes; on every other message it returns a header that says
    what the bytes say: its direction agrees with [is_request] and its companions,
    the service is the first byte (less 0x40 for a positive response, the second
    byte for a negative one), the sub-function is bits 0 to 6 of the second byte
    for the services that have one, and the service data is the rest of the message
    after the header.  Whatever [looks_like_uds] accepts decodes. *)
Theorem uds_decode_exact (d : list byte) :
  match decode d with
  | Undef => False
  | Fail e => looks_like_uds d = false /\
      ((d = [] /\ e = mkUdsDecodeError MessageTooShort "Message too short for UDS") \/
       (is_negative_response d = true /\ zlen d < 3 /\
        e = mkUdsDecodeError MessageTooShort "Negative response requires 3 bytes"))
  | Done r => header_of_bytes d (header r) /\ (is_negative_response d = true -> 3 <= zlen d)
  end.
Proof.
  destruct d as [|b d]; [split; [reflexivity | left; split; reflexivity]|].
  unfold decode, MIN_MESSAGE_SIZE. rewrite zlen_cons_ltb.
  change (byte_at (b :: d) 0) with (Done (E:=UdsDecodeError) (u8 b)). rewrite bind_Done.
  destruct (u8 b =? NEGATIVE_RESPONSE_SID) eqn:En.
  - destruct (zlen (b :: d) <? 3) eqn:El.
    + unfold parse_negative_response. rewrite El. split.
      * unfold looks_like_uds. rewrite En. bool_to_prop. apply Z.leb_gt, El.
      * right. bool_to_prop. split_and!; [apply Z.eqb_eq, En | exact El | reflexivity].
    + bool_to_prop. destruct (parse_negative_response_total (b :: d) El) as [r Hr]. rewrite Hr.
      split; [|intros _; exact El]. apply parse_negative_response_header; [apply Z.eqb_eq, En | exact Hr].
  - assert (Hd : 1 <= zlen (b :: d)) by (cbn [length]; lia).
    assert (Hneg : is_negative_response (b :: d) = false) by exact En.
    destruct (negb (Z.land (u8 b) 0x40 =? 0)) eqn:Ep.
    + destruct (parse_positive_response_total (b :: d) Hd) as [r Hr]. rewrite Hr, Hneg.
      split; [|discriminate]. apply parse_positive_response_header; assumption.
    + destruct (parse_request_total (b :: d) Hd) as [r Hr]. rewrite Hr, Hneg.
      split; [|discriminate]. apply parse_request_header; assumption.
Qed.

(** ** Round trip with the message layout of ISO 14229-1 *)

(** [n] bytes, most significant first. *)
Fixpoint write_be_var (n : nat) (v : Z) : list byte :=
  match n with
  | O => []
  | S n' => to_byte (v / 2 ^ (8 * Z.of_nat n')) :: write_be_var n' v
  end.

Definition join_nibbles (hi lo : Z) : byte := to_byte (hi * 16 + lo).

Definition message_service (m : UdsServiceMessage) : option (MessageDirection * Z) :=
  match m with
  | Unparsed => None
  | DiagnosticSessionControlRequest _ _ => Some (Request, DiagnosticSessionControl)
  | DiagnosticSessionControlResponse _ _ _ => Some (PositiveResponse, DiagnosticSessionControl)
  | ECUResetRequest _ _ => Some (Request, ECUReset)
  | ECUResetResponse _ _ => Some (PositiveResponse, ECUReset)
  | SecurityAccessRequest _ _ _ => Some (Request, SecurityAccess)
  | SecurityAccessResponse _ _ => Some (PositiveResponse, SecurityAccess)
  | TesterPresentRequest _ _ => Some (Request, TesterPresent)
  | TesterPresentResponse _ => Some (PositiveResponse, TesterPresent)
  | ReadDataByIdentifierRequest _ => Some (Request, ReadDataByIdentifier)
  | ReadDataByIdentifierResponse _ => Some (PositiveResponse, ReadDataByIdentifier)
  | WriteDataByIdentifierRequest _ _ => Some (Request, WriteDataByIdentifier)
  | WriteDataByIdentifierResponse _ => Some (PositiveResponse, WriteDataByIdentifier)
  | RoutineControlRequest _ _ _ _ => Some (Request, RoutineControl)
  | RoutineControlResponse _ _ _ => Some (PositiveResponse, RoutineControl)
  | RequestDownloadRequest _ _ _ _ _ _ => Some (Request, RequestDownload)
  | RequestDownloadResponse _ _ => Some (PositiveResponse, RequestDownload)
  | TransferDataRequest _ _ => Some (Request, TransferData)
  | TransferDataResponse _ _ => Some (PositiveResponse, TransferData)
  | RequestTransferExitRequest _ => Some (Request, RequestTransferExit)
  | RequestTransferExitResponse _ => Some (PositiveResponse, RequestTransferExit)
  | NegativeResponseMessage rejected _ => Some (NegativeResponse, rejected)
  end.

(** The bytes that follow the service identifier. *)
Definition message_body (m : UdsServiceMessage) : list byte :=
  match m with
  | Unparsed => []
  | DiagnosticSessionControlRequest t s | ECUResetRequest t s | TesterPresentRequest t s =>
      [to_byte (make_sub_function_byte t s)]
  | DiagnosticSessionControlResponse t p2 p2_star => to_byte t :: write_be16 p2 ++ write_be16 p2_star
  | ECUResetResponse t time => to_byte t :: from_option (fun v => [to_byte v]) [] time
  | SecurityAccessRequest t s key => to_byte (make_sub_function_byte t s) :: key
  | SecurityAccessResponse t seed => to_byte t :: seed
  | TesterPresentResponse t => [to_byte t]
  | ReadDataByIdentifierRequest dids => dids ≫= write_be16
  | ReadDataByIdentifierResponse records => records ≫= (fun r => write_be16 r.1 ++ r.2)
  | WriteDataByIdentifierRequest did record => write_be16 did ++ record
  | WriteDataByIdentifierResponse did => write_be16 did
  | RoutineControlRequest t s rid record => to_byte (make_sub_function_byte t s) :: write_be16 rid ++ record
  | RoutineControlResponse t rid record => to_byte t :: write_be16 rid ++ record
  | RequestDownloadRequest c e size_len addr_len address size =>
      join_nibbles c e :: join_nibbles size_len addr_len ::
      write_be_var (Z.to_nat addr_len) address ++ write_be_var (Z.to_nat size_len) size
  | RequestDownloadResponse lfid n => to_byte lfid :: write_be_var (Z.to_nat (high_nibble lfid)) n
  | TransferDataRequest counter record | TransferDataResponse counter record => to_byte counter :: record
  | RequestTransferExitRequest record | RequestTransferExitResponse record => record
  | NegativeResponseMessage rejected nrc => [to_byte rejected; to_byte nrc]
  end.

Definition encode_message (m : UdsServiceMessage) : list byte :=
  match message_service m with
  | None => []
  | Some (Request, sid) => to_byte sid :: message_body m
  | Some (PositiveResponse, sid) => to_byte (sid + RESPONSE_SID_OFFSET) :: message_body m
  | Some (NegativeResponse, _) => to_byte NEGATIVE_RESPONSE_SID :: message_body m
  end.

(** The messages that the layout can carry: fields in their widths, a key only in a
    sendKey request and a seed only in a requestSeed response, the power-down time
    with the rapid shutdown types only, one record in a read response. *)
Definition wf_message (m : UdsServiceMessage) : Prop :=
  match m with
  | Unparsed => False
  | DiagnosticSessionControlRequest t _ | ECUResetRequest t _ | TesterPresentRequest t _ => fits 7 t
  | DiagnosticSessionControlResponse t p2 p2_star => fits 8 t /\ fits 16 p2 /\ fits 16 p2_star
  | ECUResetResponse t time =>
      fits 8 t /\
      match time with
      | Some v => fits 8 v /\ (t = EnableRapidPowerShutDown \/ t = DisableRapidPowerShutDown)
      | None => True
      end
  | SecurityAccessRequest t _ key => fits 7 t /\ (is_send_key t = false -> key = [])
  | SecurityAccessResponse t seed => fits 8 t /\ (is_send_key t = true -> seed = [])
  | TesterPresentResponse t => fits 8 t
  | ReadDataByIdentifierRequest dids => dids <> [] /\ Forall (fits 16) dids
  | ReadDataByIdentifierResponse records => exists did record, records = [(did, record)] /\ fits 16 did
  | WriteDataByIdentifierRequest did record => fits 16 did /\ record <> []
  | WriteDataByIdentifierResponse did => fits 16 did
  | RoutineControlRequest t _ rid _ => fits 7 t /\ fits 16 rid
  | RoutineControlResponse t rid _ => fits 8 t /\ fits 16 rid
  | RequestDownloadRequest c e size_len addr_len address size =>
      fits 4 c /\ fits 4 e /\ fits 4 size_len /\ fits 4 addr_len /\ 0 < size_len + addr_len /\
      fits 64 address /\ fits (8 * addr_len) address /\ fits 64 size /\ fits (8 * size_len) size
  | RequestDownloadResponse lfid n =>
      fits 8 lfid /\ high_nibble lfid <= 4 /\ fits (8 * high_nibble lfid) n
  | TransferDataRequest counter _ | TransferDataResponse counter _ => fits 8 counter
  | RequestTransferExitRequest _ | RequestTransferExitResponse _ => True
  | NegativeResponseMessage rejected nrc => fits 8 rejected /\ fits 8 nrc
  end.

Lemma read_be16_drop d i v post :
  0 <= i -> drop (Z.to_nat i) d = write_be16 v ++ post -> fits 16 v -> read_be16 d i = Done v.
Proof.
  intros Hi Hd Hv. pose proof (be16_at_drop d i v post Hi Hd Hv) as Hr.
  unfold be16_at, read_be16 in *.
  assert (H1 : drop (Z.to_nat (i + 1)) d = to_byte (Z.land v 255) :: post).
  { rewrite <- (drop_drop_Z _ 1 i), Hd by lia. reflexivity. }
  rewrite (byte_at_drop d i _ _ Hi Hd), bind_Done, (byte_at_drop d (i + 1) _ _ ltac:(lia) H1), bind_Done in Hr.
  rewrite (byte_at_drop d i _ _ Hi Hd), bind_Done, (byte_at_drop d (i + 1) _ _ ltac:(lia) H1), bind_Done.
  apply Done_inj in Hr. rewrite Hr. reflexivity.
Qed.

Lemma record_from_drop d i post :
  0 <= i -> drop (Z.to_nat i) d = post -> record_from d i = Done post.
Proof.
  intros Hi Hd. unfold record_from. destruct (i <? zlen d) eqn:E; bool_to_prop.
  - rewrite subspan_in, Hd by lia. reflexivity.
  - rewrite <- Hd, drop_ge by lia. reflexivity.
Qed.

Lemma length_write_be_var n v : length (write_be_var n v) = n.
Proof. induction n; cbn [write_be_var length]; congruence. Qed.

(** [n] more bytes of a value whose bytes before were [r]. *)
Lemma be_var_loop_drop n d i r v post :
  0 <= i -> 0 <= r -> drop (Z.to_nat i) d = write_be_var n v ++ post ->
  r * 2 ^ (8 * Z.of_nat n) + v mod 2 ^ (8 * Z.of_nat n) < 2 ^ 64 ->
  be_var_loop n d i r = Done (r * 2 ^ (8 * Z.of_nat n) + v mod 2 ^ (8 * Z.of_nat n)).
Proof.
  revert i r. induction n as [|n IH]; intros i r Hi Hr Hd Hlt; cbn [be_var_loop].
  - rewrite Z.mod_1_r. f_equal. cbn. lia.
  - cbn [write_be_var app] in Hd. rewrite (byte_at_drop d i _ _ Hi Hd), bind_Done, u8_to_byte.
    rewrite Nat2Z.inj_succ, Z.mul_succ_r, Z.pow_add_r in Hlt |- * by lia.
    set (p := 2 ^ (8 * Z.of_nat n)) in *. change (2 ^ 8) with 256 in Hlt |- *.
    assert (Hp : 0 < p) by (apply Z.pow_pos_nonneg; lia).
    assert (Hv : v mod (p * 256) = v mod p + p * ((v / p) mod 256)) by (apply Z.rem_mul_r; lia).
    assert (Hm : 0 <= v mod p < p) by (apply Z.mod_pos_bound, Hp).
    assert (Hb : 0 <= (v / p) mod 256 < 256) by (apply Z.mod_pos_bound; lia).
    assert (Hr64 : 0 <= r * 256 < 2 ^ 64) by nia.
    unfold uint. rewrite Z.shiftl_mul_pow2 by lia. change (2 ^ 8) with 256.
    rewrite (Z.mod_small (r * 256)) by exact Hr64.
    rewrite <- Z.shiftl_mul_pow2 with (n := 8), lor_shiftl_add by (unfold fits; lia).
    change (2 ^ 8) with 256. rewrite IH.
    + fold p. f_equal. rewrite Hv. lia.
    + lia.
    + lia.
    + rewrite <- (drop_drop_Z _ 1 i), Hd by lia. reflexivity.
    + fold p. rewrite Hv in Hlt. nia.
Qed.

Lemma read_be_var_drop d i len v post :
  0 <= i -> 0 <= len -> drop (Z.to_nat i) d = write_be_var (Z.to_nat len) v ++ post ->
  fits 64 v -> fits (8 * len) v -> read_be_var d i len = Done v.
Proof.
  intros Hi Hlen Hd [H0 H64] [_ Hv]. unfold read_be_var.
  assert (Hs : v mod 2 ^ (8 * Z.of_nat (Z.to_nat len)) = v) by (rewrite Z2Nat.id, Z.mod_small by lia; reflexivity).
  rewrite (be_var_loop_drop _ d i 0 v post) by (rewrite ?Hs; lia || assumption).
  rewrite Hs. reflexivity.
Qed.

Lemma dids_loop_drop fuel d i dids :
  0 <= i -> (length dids <= fuel)%nat -> drop (Z.to_nat i) d = dids ≫= write_be16 -> Forall (fits 16) dids ->
  dids_loop fuel d i = Done dids.
Proof.
  revert fuel i. induction dids as [|did dids IH]; intros fuel i Hi Hf Hd Hfit.
  - destruct fuel; [reflexivity|]. cbn [dids_loop].
    rewrite (proj2 (Z.ltb_ge _ _)); [reflexivity|].
    apply (f_equal length) in Hd. rewrite length_drop in Hd. cbn in Hd. lia.
  - destruct fuel as [|fuel]; [cbn in Hf; lia|]. cbn [dids_loop length] in *.
    apply Forall_cons in Hfit as [Hfit1 Hfit].
    change (drop (Z.to_nat i) d = write_be16 did ++ (dids ≫= write_be16)) in Hd.
    pose proof (drop_length_ge _ (write_be16 did) _ _ Hi ltac:(discriminate) Hd) as Hl. cbn in Hl.
    rewrite (proj2 (Z.ltb_lt _ _)), (read_be16_drop d i did _ Hi Hd Hfit1), bind_Done by lia.
    rewrite IH by (lia || assumption || (rewrite <- (drop_drop_Z _ 2 i), Hd by lia; reflexivity)).
    reflexivity.
Qed.

Lemma sub_function_byte t s :
  fits 7 t ->
  extract_sub_function (u8 (to_byte (make_sub_function_byte t s))) = t /\
  extract_suppress_positive_response (u8 (to_byte (make_sub_function_byte t s))) = s.
Proof.
  intros Ht.
  assert (Hall : forallb (fun t => let b := u8 (to_byte (make_sub_function_byte (Z.of_nat t) s)) in
     (extract_sub_function b =? Z.of_nat t) && eqb (extract_suppress_positive_response b) s)
     (seq 0 128) = true) by (destruct s; vm_compute; reflexivity).
  rewrite forallb_forall in Hall. specialize (Hall (Z.to_nat t)).
  rewrite Z2Nat.id in Hall by apply Ht. cbv zeta in Hall.
  destruct (andb_prop _ _ (Hall ltac:(apply in_seq; unfold fits in Ht; lia))) as [H1 H2].
  split; [apply Z.eqb_eq, H1 | apply eqb_prop, H2].
Qed.

Lemma nibbles_join hi lo :
  fits 4 hi -> fits 4 lo -> high_nibble (u8 (join_nibbles hi lo)) = hi /\ low_nibble (u8 (join_nibbles hi lo)) = lo.
Proof.
  unfold fits, join_nibbles, high_nibble, low_nibble. intros Hh Hl.
  rewrite u8_to_byte, shiftr_div by lia.
  rewrite !(land_mask _ 0x0F 4) by (lia || reflexivity). lia.
Qed.

Lemma byte_at_1 {E} b b1 d : byte_at (E:=E) (b :: b1 :: d) 1 = Done (u8 b1).
Proof. reflexivity. Qed.

Lemma u8_to_byte_fits t : fits 8 t -> u8 (to_byte t) = t.
Proof. intros Ht. rewrite u8_to_byte. apply Z.mod_small, Ht. Qed.

(** Evaluates a parser's guards and reads on an encoded message. *)
Ltac uds_reads :=
  repeat first
    [ rewrite bind_Done
    | rewrite byte_at_1
    | match goal with
      | |- context [?a <? ?b] => rewrite (proj2 (Z.ltb_ge a b)) by (rewrite ?length_app, ?length_write_be_var; cbn [length app write_be16]; lia)
      | |- context [?a <=? ?b] => rewrite (proj2 (Z.leb_le a b)) by (rewrite ?length_app, ?length_write_be_var; cbn [length app write_be16]; lia)
      | |- context [read_be16 ?d ?i] => erewrite (read_be16_drop d i) by (first [lia | reflexivity | eassumption])
      | |- context [record_from ?d ?i] => erewrite (record_from_drop d i) by (first [lia | reflexivity])
      end ].

(** The arm of the service switch that a known service takes. *)
Ltac service_arm p :=
  match goal with |- _ ?sid ?d = ?r => change (p d = r); unfold p end.

Ltac sub_function t s Ht := destruct (sub_function_byte t s Ht) as [-> ->].

Lemma length_dids dids : length (dids ≫= write_be16) = (2 * length dids)%nat.
Proof. induction dids as [|did dids IH]; [reflexivity|]. cbn in *. lia. Qed.

Lemma parse_dids_encode b dids :
  dids <> [] -> Forall (fits 16) dids ->
  parse_read_data_by_identifier_request (b :: (dids ≫= write_be16)) = Done (ReadDataByIdentifierRequest dids).
Proof.
  intros Hne Hf. unfold parse_read_data_by_identifier_request. pose proof (length_dids dids) as Hl.
  destruct dids as [|did dids]; [done|].
  rewrite (proj2 (Z.ltb_ge _ 3)) by (cbn [length] in *; lia).
  rewrite (dids_loop_drop _ _ 1 (did :: dids)), bind_Done by
    (first [lia | assumption | reflexivity | cbn [length] in *; lia]).
  reflexivity.
Qed.

Lemma parse_request_download_encode b c e size_len addr_len address size :
  wf_message (RequestDownloadRequest c e size_len addr_len address size) ->
  parse_request_download_request
    (b :: message_body (RequestDownloadRequest c e size_len addr_len address size)) =
  Done (RequestDownloadRequest c e size_len addr_len address size).
Proof.
  intros (Hc & He & Hs & Ha & Hpos & Ha64 & Haf & Hs64 & Hsf).
  unfold parse_request_download_request. cbn [message_body].
  destruct (nibbles_join c e Hc He) as [Hn1 Hn2]. destruct (nibbles_join size_len addr_len Hs Ha) as [Hn3 Hn4].
  set (d := b :: _).
  assert (Hl : zlen d = 3 + addr_len + size_len).
  { subst d. cbn [length]. rewrite length_app, !length_write_be_var. unfold fits in *. lia. }
  rewrite Hl, (proj2 (Z.ltb_ge _ 4)) by lia.
  change (byte_at d 1) with (Done (E:=UdsDecodeError) (u8 (join_nibbles c e))).
  change (byte_at d 2) with (Done (E:=UdsDecodeError) (u8 (join_nibbles size_len addr_len))).
  rewrite !bind_Done. cbv zeta. rewrite Hn1, Hn2, Hn3, Hn4, Z.leb_refl.
  assert (Hd : drop (Z.to_nat 3) d = write_be_var (Z.to_nat addr_len) address ++
                 write_be_var (Z.to_nat size_len) size) by reflexivity.
  rewrite (read_be_var_drop d 3 addr_len address _), bind_Done by
    (first [exact Hd | assumption | unfold fits in *; lia]).
  rewrite (read_be_var_drop d (3 + addr_len) size_len size []), bind_Done;
    try assumption; try (unfold fits in *; lia); [reflexivity|].
  rewrite <- (drop_drop_Z _ addr_len 3), Hd, app_nil_r by (unfold fits in *; lia).
  apply drop_app_length'. symmetry. apply length_write_be_var.
Qed.

Lemma request_message_encode m sid b :
  message_service m = Some (Request, sid) -> wf_message m -> request_message sid (b :: message_body m) = Done m.
Proof.
  destruct m; try discriminate; intros [= <-] Hwf; cbn [wf_message] in Hwf.
  - service_arm parse_diagnostic_session_control_request. cbn [message_body]. uds_reads.
    sub_function session_type suppress Hwf. reflexivity.
  - service_arm parse_ecu_reset_request. cbn [message_body]. uds_reads.
    sub_function reset_type suppress Hwf. reflexivity.
  - destruct Hwf as [Hwf Hkey].
    service_arm parse_security_access_request. cbn [message_body]. uds_reads. cbv zeta.
    sub_function access_type suppress Hwf.
    destruct (is_send_key access_type); [uds_reads | rewrite Hkey by reflexivity]; reflexivity.
  - service_arm parse_tester_present_request. cbn [message_body]. uds_reads.
    sub_function sub_function0 suppress Hwf. reflexivity.
  - apply parse_dids_encode; apply Hwf.
  - destruct Hwf as [Hwf Hne]. destruct data_record as [|r0 data_record]; [done|].
    service_arm parse_write_data_by_identifier_request. cbn [message_body]. uds_reads. reflexivity.
  - destruct Hwf as [Hwf Hr].
    service_arm parse_routine_control_request. cbn [message_body]. uds_reads.
    sub_function routine_control_type suppress Hwf. reflexivity.
  - apply parse_request_download_encode, Hwf.
  - service_arm parse_transfer_data_request. cbn [message_body]. uds_reads.
    rewrite u8_to_byte_fits by exact Hwf. reflexivity.
  - service_arm parse_request_transfer_exit_request. cbn [message_body]. uds_reads. reflexivity.
Qed.

Lemma response_message_encode m sid b :
  message_service m = Some (PositiveResponse, sid) -> wf_message m ->
  response_message sid (b :: message_body m) = Done m.
Proof.
  destruct m; try discriminate; intros [= <-] Hwf; cbn [wf_message] in Hwf.
  - destruct Hwf as (Ht & Hp & Hps).
    service_arm parse_diagnostic_session_control_response. cbn [message_body]. uds_reads.
    rewrite u8_to_byte_fits by exact Ht. reflexivity.
  - destruct Hwf as (Ht & Htime).
    service_arm parse_ecu_reset_response. cbn [message_body]. uds_reads. rewrite u8_to_byte_fits by exact Ht.
    destruct power_down_time as [v|]; cbn [from_option].
    + destruct Htime as [Hv Ht45]. rewrite (proj2 (Z.leb_le 3 _)) by (cbn [length]; lia).
      replace (_ || _) with true by (destruct Ht45 as [-> | ->]; reflexivity). cbn [andb].
      change (byte_at _ 2) with (Done (E:=UdsDecodeError) (u8 (to_byte v))).
      rewrite bind_Done, u8_to_byte_fits by exact Hv. reflexivity.
    + reflexivity.
  - destruct Hwf as [Ht Hseed].
    service_arm parse_security_access_response. cbn [message_body]. uds_reads. rewrite u8_to_byte_fits by exact Ht.
    unfold is_send_key in Hseed.
    destruct (Z.land access_type 1 =? 0); cbn [negb]; [rewrite Hseed by reflexivity | uds_reads]; reflexivity.
  - service_arm parse_tester_present_response. cbn [message_body]. uds_reads.
    rewrite u8_to_byte_fits by exact Hwf. reflexivity.
  - destruct Hwf as (did & record & -> & Hdid).
    service_arm parse_read_data_by_identifier_response. cbn [message_body].
    change ([(did, record)] ≫= _) with ((write_be16 did ++ record) ++ []). rewrite app_nil_r.
    uds_reads. reflexivity.
  - service_arm parse_write_data_by_identifier_response. cbn [message_body].
    rewrite (proj2 (Z.ltb_ge _ 3)) by (cbn [length write_be16]; lia).
    rewrite (read_be16_drop _ 1 data_identifier [] ltac:(lia)), bind_Done by (first [reflexivity | assumption]). reflexivity.
  - destruct Hwf as [Ht Hr].
    service_arm parse_routine_control_response. cbn [message_body]. uds_reads.
    rewrite u8_to_byte_fits by exact Ht. reflexivity.
  - destruct Hwf as (Hl & Hn & Hf). pose proof (proj1 (nibbles_nonneg length_format_identifier)) as H0.
    service_arm parse_request_download_response. cbn [message_body]. uds_reads.
    rewrite u8_to_byte_fits by exact Hl. cbv zeta.
    rewrite !(proj2 (Z.leb_le _ _)) by (cbn [length]; rewrite ?length_write_be_var; lia). cbn [andb].
    assert (H32 : fits 32 max_number_of_block_length).
    { unfold fits in *. pose proof (Z.pow_le_mono_r 2 (8 * high_nibble length_format_identifier) 32). lia. }
    rewrite (read_be_var_drop _ 2 _ max_number_of_block_length []), bind_Done, uint_small;
      rewrite ?app_nil_r; first [assumption | lia | reflexivity | unfold fits in *; lia].
  - service_arm parse_transfer_data_response. cbn [message_body]. uds_reads.
    rewrite u8_to_byte_fits by exact Hwf. reflexivity.
  - service_arm parse_request_transfer_exit_response. cbn [message_body]. uds_reads. reflexivity.
Qed.

Lemma byte_at_0 {E} b d : byte_at (E:=E) (b :: d) 0 = Done (u8 b).
Proof. reflexivity. Qed.

Lemma decode_request_message b d m :
  (u8 b =? NEGATIVE_RESPONSE_SID) = false -> Z.land (u8 b) 0x40 = 0 ->
  request_message (u8 b) (b :: d) = Done m ->
  exists h, decode (b :: d) = Done (mkUdsDecodeResult h m) /\ direction h = Request /\ service_id h = u8 b.
Proof.
  intros Hn Hl Hm. unfold decode, MIN_MESSAGE_SIZE.
  rewrite zlen_cons_ltb, byte_at_0, bind_Done, Hn, Hl. cbn [negb Z.eqb].
  unfold parse_request. rewrite byte_at_0, bind_Done, Hm.
  destruct (_ && _) eqn:E; bool_to_prop.
  - destruct d as [|b1 d]; [cbn [length] in *; lia|].
    rewrite byte_at_1, bind_Done, subspan_in by (cbn [length]; lia). eexists. split_and!; reflexivity.
  - rewrite subspan_in by (cbn [length]; lia). eexists. split_and!; reflexivity.
Qed.

Lemma decode_response_message b d m :
  (u8 b =? NEGATIVE_RESPONSE_SID) = false -> Z.land (u8 b) 0x40 <> 0 ->
  response_message (uint 8 (u8 b - RESPONSE_SID_OFFSET)) (b :: d) = Done m ->
  exists h, decode (b :: d) = Done (mkUdsDecodeResult h m) /\
            direction h = PositiveResponse /\ service_id h = uint 8 (u8 b - RESPONSE_SID_OFFSET).
Proof.
  intros Hn Hl Hm. unfold decode, MIN_MESSAGE_SIZE.
  rewrite zlen_cons_ltb, byte_at_0, bind_Done, Hn, (proj2 (Z.eqb_neq _ _) Hl). cbn [negb].
  unfold parse_positive_response. rewrite byte_at_0, bind_Done. cbv zeta. rewrite Hm.
  destruct (_ && _) eqn:E; bool_to_prop.
  - destruct d as [|b1 d]; [cbn [length] in *; lia|].
    rewrite byte_at_1, bind_Done, subspan_in by (cbn [length]; lia). eexists. split_and!; reflexivity.
  - rewrite subspan_in by (cbn [length]; lia). eexists. split_and!; reflexivity.
Qed.

Lemma decode_encode_message (m : UdsServiceMessage) :
  wf_message m ->
  exists h, decode (encode_message m) = Done (mkUdsDecodeResult h m) /\
            message_service m = Some (direction h, service_id h).
Proof.
  intros Hwf. unfold encode_message. destruct (message_service m) as [[[] sid]|] eqn:Es.
  - destruct (decode_request_message (to_byte sid) (message_body m) m) as (h & Hd & <- & Hs).
    + destruct m; try discriminate Es; injection Es as <-; reflexivity.
    + destruct m; try discriminate Es; injection Es as <-; reflexivity.
    + replace (u8 (to_byte sid)) with sid by (destruct m; try discriminate Es; injection Es as <-; reflexivity).
      apply request_message_encode; assumption.
    + exists h. split; [exact Hd|]. rewrite Hs. do 2 f_equal.
      destruct m; try discriminate Es; injection Es as <-; reflexivity.
  - set (b := to_byte (sid + RESPONSE_SID_OFFSET)).
    assert (Hsid : uint 8 (u8 b - RESPONSE_SID_OFFSET) = sid)
      by (destruct m; try discriminate Es; injection Es as <-; reflexivity).
    destruct (decode_response_message b (message_body m) m) as (h & Hd & <- & Hs).
    + destruct m; try discriminate Es; injection Es as <-; reflexivity.
    + destruct m; try discriminate Es; injection Es as <-; discriminate.
    + rewrite Hsid. apply response_message_encode; assumption.
    + exists h. split; [exact Hd|]. rewrite Hs, Hsid. reflexivity.
  - destruct m as [| | | | | | | | | | | | | | | | | | | | | rejected nrc]; try discriminate Es.
    injection Es as <-. destruct Hwf as [Hr Hn]. cbn [message_body].
    eexists (mkUdsHeader rejected NegativeResponse None false (Some rejected) (Some nrc) [] _).
    split; [|reflexivity]. unfold decode, MIN_MESSAGE_SIZE. rewrite zlen_cons_ltb, byte_at_0, bind_Done.
    change (_ =? NEGATIVE_RESPONSE_SID) with true. cbn match. unfold parse_negative_response.
    change (_ <? 3) with false. cbn match.
    change (byte_at _ 1) with (Done (E:=UdsDecodeError) (u8 (to_byte rejected))).
    change (byte_at _ 2) with (Done (E:=UdsDecodeError) (u8 (to_byte nrc))).
    rewrite !bind_Done, !u8_to_byte_fits, subspan_in by (assumption || (cbn [length]; lia)). reflexivity.
  - destruct m; discriminate Es || contradiction.
Qed.

(** The UDS decoder inverts the ISO 14229-1 layout of every message type it
    builds: the ten requests, their positive responses and the negative response,
    with fields in their widths, decode to the same message under a header that
    names its service and direction.  Memory addresses and sizes of any announced
    length are recovered as long as their values fit 64 bits. *)
Theorem uds_round_trip (m : UdsServiceMessage) :
  wf_message m ->
  exists h, decode (encode_message m) = Done (mkUdsDecodeResult h m) /\
            message_service m = Some (direction h, service_id h).
Proof. apply decode_encode_message. Qed.

Lemma uds_round_trip_witness :
  exists h, decode (encode_message (RequestDownloadRequest 0 0 2 4 0x08000000 0x1000)) =
              Done (mkUdsDecodeResult h (RequestDownloadRequest 0 0 2 4 0x08000000 0x1000)) /\
            Some (Request, RequestDownload) = Some (direction h, service_id h).
Proof.
  apply (uds_round_trip (RequestDownloadRequest 0 0 2 4 0x08000000 0x1000)).
  cbn [wf_message]; unfold fits; lia.
Defined.

Lemma decode_defined d : defined (decode d).
Proof.
  destruct d as [|b d]; [apply defined_Fail|].
  unfold decode, MIN_MESSAGE_SIZE. rewrite zlen_cons_ltb, byte_at_0, bind_Done.
  destruct (u8 b =? NEGATIVE_RESPONSE_SID).
  - unfold parse_negative_response at 1. destruct (_ <? 3) eqn:El; [apply defined_Fail|].
    bool_to_prop. pose proof (parse_negative_response_total (b :: d) El) as Ht. unfold parse_negative_response in Ht.
    rewrite (proj2 (Z.ltb_ge _ 3) El) in Ht. apply total_defined, Ht.
  - destruct (negb _); apply total_defined;
      [apply parse_positive_response_total | apply parse_request_total]; cbn [length]; lia.
Qed.

(** ** Types of the decoded fields *)

(** The ranges of the fields of a message: those of their C++ types, narrowed to the
    seven bits of a sub-function and the four of a nibble. *)
Definition typed_message (m : UdsServiceMessage) : Prop :=
  match m with
  | Unparsed | RequestTransferExitRequest _ | RequestTransferExitResponse _ => True
  | DiagnosticSessionControlRequest t _ | ECUResetRequest t _ | TesterPresentRequest t _
  | SecurityAccessRequest t _ _ => fits 7 t
  | DiagnosticSessionControlResponse t p2 p2_star => fits 8 t /\ fits 16 p2 /\ fits 16 p2_star
  | ECUResetResponse t time => fits 8 t /\ (forall v, time = Some v -> fits 8 v)
  | SecurityAccessResponse t _ | TesterPresentResponse t => fits 8 t
  | ReadDataByIdentifierRequest dids => Forall (fits 16) dids
  | ReadDataByIdentifierResponse records => Forall (fun r => fits 16 r.1) records
  | WriteDataByIdentifierRequest did _ | WriteDataByIdentifierResponse did => fits 16 did
  | RoutineControlRequest t _ rid _ => fits 7 t /\ fits 16 rid
  | RoutineControlResponse t rid _ => fits 8 t /\ fits 16 rid
  | RequestDownloadRequest c e size_len addr_len address size =>
      fits 4 c /\ fits 4 e /\ fits 4 size_len /\ fits 4 addr_len /\ fits 64 address /\ fits 64 size
  | RequestDownloadResponse lfid n => fits 8 lfid /\ fits 32 n
  | TransferDataRequest counter _ | TransferDataResponse counter _ => fits 8 counter
  | NegativeResponseMessage rejected nrc => fits 8 rejected /\ fits 8 nrc
  end.

(** The header has the types of its fields, and the message in the variant, unless it
    is [Unparsed], is the one of the direction and service of the header. *)
Definition typed_result (r : UdsDecodeResult) : Prop :=
  typed_message (message r) /\
  (message r = Unparsed \/ message_service (message r) = Some (direction (header r), service_id (header r))) /\
  fits 8 (service_id (header r)) /\ (forall s, sub_function (header r) = Some s -> fits 7 s) /\
  (forall n, negative_response_code (header r) = Some n -> fits 8 n) /\
  (is_Some (negative_response_code (header r)) <-> direction (header r) = NegativeResponse).

Lemma extract_sub_function_fits b : fits 7 (extract_sub_function b).
Proof. apply land_fits; [lia | reflexivity]. Qed.
Lemma high_nibble_fits b : fits 4 (high_nibble b).
Proof. apply land_fits; [lia | reflexivity]. Qed.
Lemma low_nibble_fits b : fits 4 (low_nibble b).
Proof. apply land_fits; [lia | reflexivity]. Qed.

Lemma read_be16_fits d i v : read_be16 d i = Done v -> fits 16 v.
Proof.
  unfold read_be16. intros H. apply bind_inv in H as (b0 & _ & H). apply bind_inv in H as (b1 & _ & [= <-]).
  apply uint_fits. lia.
Qed.

Lemma be_var_loop_fits n d i acc v : fits 64 acc -> be_var_loop n d i acc = Done v -> fits 64 v.
Proof.
  revert i acc. induction n as [|n IH]; intros i acc Ha; cbn [be_var_loop]; [intros [= <-]; exact Ha|].
  intros H. apply bind_inv in H as (b & Hb & H). revert H. apply IH. apply byte_at_fits in Hb.
  unfold uint. rewrite Z.shiftl_mul_pow2 by lia.
  replace ((acc * 2 ^ 8) mod 2 ^ 64) with (Z.shiftl (acc mod 2 ^ 56) 8)
    by (rewrite Z.shiftl_mul_pow2 by lia; unfold fits in *; lia).
  rewrite lor_shiftl_add by (unfold fits in *; lia). unfold fits in *. lia.
Qed.

Lemma dids_loop_fits fuel d i v : dids_loop fuel d i = Done v -> Forall (fits 16) v.
Proof.
  revert i v. induction fuel as [|fuel IH]; cbn; intros i v; [intros [= <-]; constructor|].
  destruct (_ <? _); [|intros [= <-]; constructor]. intros H.
  apply bind_inv in H as (did & Hd & H). apply bind_inv in H as (rest & Hr & [= <-]).
  constructor; [exact (read_be16_fits _ _ _ Hd) | exact (IH _ _ Hr)].
Qed.

Lemma read_be_var_fits d i n v : read_be_var d i n = Done v -> fits 64 v.
Proof. apply be_var_loop_fits. split; lia. Qed.

Lemma fits_0 w : 0 <= w -> fits w 0.
Proof. intros. split; [lia | apply Z.pow_pos_nonneg; lia]. Qed.

Create HintDb uds_types.
#[local] Hint Resolve extract_sub_function_fits high_nibble_fits low_nibble_fits read_be16_fits dids_loop_fits
  read_be_var_fits uint_fits byte_at_fits : uds_types.
#[local] Hint Extern 1 (fits _ 0) => apply fits_0; lia : uds_types.
#[local] Hint Extern 1 (0 <= _) => lia : uds_types.

(** Follows a parser to the message it returns. *)
Ltac follow H :=
  repeat (lazymatch type of H with
    | Done _ = Done _ => apply Done_inj in H
    | (match _ with _ => _ end) = Done _ => case_in H
    | (?m ≫= _) = Done _ => let a := fresh "a" in let Ha := fresh "Ha" in apply bind_inv in H as (a & Ha & H)
    | (let _ := _ in _) = Done _ => cbv zeta in H
    end).

(** The message of a followed parser has the types of its fields. *)
Ltac typed_parser H :=
  follow H; try discriminate; subst; cbn [typed_message];
  repeat match goal with |- _ /\ _ => split end;
  repeat (first [apply Forall_nil_2 | apply Forall_cons_2 | intros ? [= <-] | exact I]);
  eauto with uds_types.

Lemma request_message_typed sid d m : request_message sid d = Done m -> typed_message m.
Proof.
  unfold request_message, parse_diagnostic_session_control_request, parse_ecu_reset_request,
    parse_security_access_request, parse_tester_present_request, parse_read_data_by_identifier_request,
    parse_write_data_by_identifier_request, parse_routine_control_request, parse_request_download_request,
    parse_transfer_data_request, parse_request_transfer_exit_request.
  intros H. typed_parser H.
Qed.

Lemma request_message_service sid d m :
  request_message sid d = Done m -> m = Unparsed \/ message_service m = Some (Request, sid).
Proof.
  unfold request_message, parse_diagnostic_session_control_request, parse_ecu_reset_request,
    parse_security_access_request, parse_tester_present_request, parse_read_data_by_identifier_request,
    parse_write_data_by_identifier_request, parse_routine_control_request, parse_request_download_request,
    parse_transfer_data_request, parse_request_transfer_exit_request.
  intros H. follow H; try discriminate; bool_to_prop; subst; auto.
Qed.

Lemma response_message_typed sid d m : response_message sid d = Done m -> typed_message m.
Proof.
  unfold response_message, parse_diagnostic_session_control_response, parse_ecu_reset_response,
    parse_security_access_response, parse_tester_present_response, parse_read_data_by_identifier_response,
    parse_write_data_by_identifier_response, parse_routine_control_response, parse_request_download_response,
    parse_transfer_data_response, parse_request_transfer_exit_response.
  intros H. typed_parser H.
Qed.

Lemma response_message_service sid d m :
  response_message sid d = Done m -> m = Unparsed \/ message_service m = Some (PositiveResponse, sid).
Proof.
  unfold response_message, parse_diagnostic_session_control_response, parse_ecu_reset_response,
    parse_security_access_response, parse_tester_present_response, parse_read_data_by_identifier_response,
    parse_write_data_by_identifier_response, parse_routine_control_response, parse_request_download_response,
    parse_transfer_data_response, parse_request_transfer_exit_response.
  intros H. follow H; try discriminate; bool_to_prop; subst; auto.
Qed.

(** The header that both parsers with a sub-function build. *)
Ltac typed_header_arms H :=
  follow H;
  repeat match goal with Ha : (if _ then _ else _) = Done _ |- _ => follow Ha end;
  subst; unfold typed_result; cbn;
  repeat match goal with |- _ /\ _ => split end;
  try (intros ? [= <-]); try discriminate; eauto using request_message_typed, response_message_typed,
    request_message_service, response_message_service with uds_types;
  try (split; [intros [? ?]; discriminate | discriminate]).

Lemma parse_request_typed d r : parse_request d = Done r -> typed_result r.
Proof. unfold parse_request. intros H. typed_header_arms H. Qed.

Lemma parse_positive_response_typed d r : parse_positive_response d = Done r -> typed_result r.
Proof. unfold parse_positive_response. intros H. typed_header_arms H. Qed.

Lemma parse_negative_response_typed d r : parse_negative_response d = Done r -> typed_result r.
Proof.
  unfold parse_negative_response. intros H. typed_header_arms H. split; [reflexivity | eauto].
Qed.

(** [C39] Decoded UDS messages are well typed: every field of the message and of the
    header is in the range of its C++ type, sub-functions of requests are seven bits
    and nibbles four, the message in the variant, unless it is the unparsed one, is that
    of the direction and service of the header, and a response code is present exactly
    in negative responses. *)
Theorem uds_fields_typed (d : list byte) (r : UdsDecodeResult) (Hr : decode d = Done r) : typed_result r.
Proof.
  unfold decode in Hr. follow Hr; try discriminate;
    eauto using parse_request_typed, parse_positive_response_typed, parse_negative_response_typed.
Qed.

Lemma uds_fields_typed_witness :
  exists r, decode [x36; x01; xaa] = Done r /\ message r = TransferDataRequest 1 [xaa] /\ typed_result r.
Proof.
  eexists. split; [reflexivity|]. split; [reflexivity|]. apply (uds_fields_typed [x36; x01; xaa]). reflexivity.
Defined.
