(* ===== verification/UdsTables.v ===== *)
(** * UDS tables (include/wadjet/protocols/uds/uds_types.hpp, uds_nrc.hpp)

    The enumerations of ISO 14229, their names, the classification and the
    descriptions of the negative response codes, trouble codes and the bit fields.
    A C++ enumeration with a fixed underlying type holds any of its values, so a
    service, a code or a type is a [Z] of 8 bits.  A [switch] that returns constants
    is a list of its cases, each with the labels that share it, and its default. *)

From Stdlib Require Import ZArith Lia.
From Stdlib Require Import Strings.Byte.
From stdpp Require Import base numbers list strings.
From S2P Require Import Prelude Uds.

Fixpoint switch {A} (z : Z) (cases : list (list Z * A)) (default_case : A) : A :=
  match cases with
  | [] => default_case
  | (labels, a) :: cases' => if existsb (Z.eqb z) labels then a else switch z cases' default_case
  end.

(** ** Services *)

Definition service_id_string (sid : Z) : string :=
  switch sid
    [([DiagnosticSessionControl], "DiagnosticSessionControl");
     ([ECUReset], "ECUReset");
     ([SecurityAccess], "SecurityAccess");
     ([CommunicationControl], "CommunicationControl");
     ([TesterPresent], "TesterPresent");
     ([AccessTimingParameter], "AccessTimingParameter");
     ([SecuredDataTransmission], "SecuredDataTransmission");
     ([ControlDTCSetting], "ControlDTCSetting");
     ([ResponseOnEvent], "ResponseOnEvent");
     ([LinkControl], "LinkControl");
     ([ReadDataByIdentifier], "ReadDataByIdentifier");
     ([ReadMemoryByAddress], "ReadMemoryByAddress");
     ([ReadScalingDataByIdentifier], "ReadScalingDataByIdentifier");
     ([ReadDataByPeriodicIdentifier], "ReadDataByPeriodicIdentifier");
     ([DynamicallyDefineDataIdentifier], "DynamicallyDefineDataIdentifier");
     ([WriteDataByIdentifier], "WriteDataByIdentifier");
     ([WriteMemoryByAddress], "WriteMemoryByAddress");
     ([ClearDiagnosticInformation], "ClearDiagnosticInformation");
     ([ReadDTCInformation], "ReadDTCInformation");
     ([InputOutputControlByIdentifier], "InputOutputControlByIdentifier");
     ([RoutineControl], "RoutineControl");
     ([RequestDownload], "RequestDownload");
     ([RequestUpload], "RequestUpload");
     ([TransferData], "TransferData");
     ([RequestTransferExit], "RequestTransferExit");
     ([RequestFileTransfer], "RequestFileTransfer")] "Unknown".

Definition is_response_sid (sid : Z) : bool :=
  negb (Z.land sid 0x40 =? 0) && negb (sid =? NEGATIVE_RESPONSE_SID).
Definition is_negative_response_sid (sid : Z) : bool := sid =? NEGATIVE_RESPONSE_SID.
Definition response_to_request_sid (response_sid : Z) : Z := uint 8 (response_sid - RESPONSE_SID_OFFSET).
Definition request_to_response_sid (request_sid : Z) : Z := uint 8 (request_sid + RESPONSE_SID_OFFSET).

(** ** Sub-functions *)

(** [SessionType]. *)
Definition DefaultSession : Z := 0x01.
Definition ProgrammingSession : Z := 0x02.
Definition ExtendedDiagnosticSession : Z := 0x03.
Definition SafetySystemDiagnosticSession : Z := 0x04.

Definition session_type_string (type : Z) : string :=
  switch type
    [([DefaultSession], "DefaultSession");
     ([ProgrammingSession], "ProgrammingSession");
     ([ExtendedDiagnosticSession], "ExtendedDiagnosticSession");
     ([SafetySystemDiagnosticSession], "SafetySystemDiagnosticSession")]
    (if (0x40 <=? type) && (type <=? 0x5F) then "VehicleManufacturerSpecific"
     else if (0x60 <=? type) && (type <=? 0x7E) then "SystemSupplierSpecific"
     else "Reserved").

(** [ResetType]; the two other values are in Uds.v. *)
Definition HardReset : Z := 0x01.
Definition KeyOffOnReset : Z := 0x02.
Definition SoftReset : Z := 0x03.

Definition reset_type_string (type : Z) : string :=
  switch type
    [([HardReset], "HardReset");
     ([KeyOffOnReset], "KeyOffOnReset");
     ([SoftReset], "SoftReset");
     ([EnableRapidPowerShutDown], "EnableRapidPowerShutDown");
     ([DisableRapidPowerShutDown], "DisableRapidPowerShutDown")] "Unknown".

(** [SecurityAccessType]. *)
Definition RequestSeed : Z := 0x01.
Definition SendKey : Z := 0x02.
Definition RequestSeedLevel2 : Z := 0x03.
Definition SendKeyLevel2 : Z := 0x04.

Definition is_request_seed (sub_function : Z) : bool := negb (Z.land sub_function 0x01 =? 0).

(** [RoutineControlType]. *)
Definition StartRoutine : Z := 0x01.
Definition StopRoutine : Z := 0x02.
Definition RequestRoutineResults : Z := 0x03.

Definition routine_control_type_string (type : Z) : string :=
  switch type
    [([StartRoutine], "StartRoutine");
     ([StopRoutine], "StopRoutine");
     ([RequestRoutineResults], "RequestRoutineResults")] "Unknown".

(** [CommunicationControlType]. *)
Definition EnableRxAndTx : Z := 0x00.
Definition EnableRxAndDisableTx : Z := 0x01.
Definition DisableRxAndEnableTx : Z := 0x02.
Definition DisableRxAndTx : Z := 0x03.

Definition communication_control_type_string (type : Z) : string :=
  switch type
    [([EnableRxAndTx], "EnableRxAndTx");
     ([EnableRxAndDisableTx], "EnableRxAndDisableTx");
     ([DisableRxAndEnableTx], "DisableRxAndEnableTx");
     ([DisableRxAndTx], "DisableRxAndTx")] "Unknown".

(** [IOControlParameter]. *)
Definition ReturnControlToECU : Z := 0x00.
Definition ResetToDefault : Z := 0x01.
Definition FreezeCurrentState : Z := 0x02.
Definition ShortTermAdjustment : Z := 0x03.

Definition io_control_parameter_string (param : Z) : string :=
  switch param
    [([ReturnControlToECU], "ReturnControlToECU");
     ([ResetToDefault], "ResetToDefault");
     ([FreezeCurrentState], "FreezeCurrentState");
     ([ShortTermAdjustment], "ShortTermAdjustment")] "ControlState".

(** [ReadDTCSubFunction]. *)
Definition ReportNumberOfDTCByStatusMask : Z := 0x01.
Definition ReportDTCByStatusMask : Z := 0x02.
Definition ReportDTCSnapshotIdentification : Z := 0x03.
Definition ReportDTCSnapshotRecordByDTCNumber : Z := 0x04.
Definition ReportDTCStoredDataByRecordNumber : Z := 0x05.
Definition ReportDTCExtDataRecordByDTCNumber : Z := 0x06.
Definition ReportNumberOfDTCBySeverityMaskRecord : Z := 0x07.
Definition ReportDTCBySeverityMaskRecord : Z := 0x08.
Definition ReportSeverityInformationOfDTC : Z := 0x09.
Definition ReportSupportedDTC : Z := 0x0A.
Definition ReportFirstTestFailedDTC : Z := 0x0B.
Definition ReportFirstConfirmedDTC : Z := 0x0C.
Definition ReportMostRecentTestFailedDTC : Z := 0x0D.
Definition ReportMostRecentConfirmedDTC : Z := 0x0E.
Definition ReportMirrorMemoryDTCByStatusMask : Z := 0x0F.
Definition ReportMirrorMemoryDTCExtDataRecordByDTCNumber : Z := 0x10.
Definition ReportNumberOfMirrorMemoryDTCByStatusMask : Z := 0x11.
Definition ReportNumberOfEmissionsOBDDTCByStatusMask : Z := 0x12.
Definition ReportEmissionsOBDDTCByStatusMask : Z := 0x13.
Definition ReportDTCFaultDetectionCounter : Z := 0x14.
Definition ReportDTCWithPermanentStatus : Z := 0x15.
Definition ReportDTCExtDataRecordByRecordNumber : Z := 0x16.
Definition ReportUserDefMemoryDTCByStatusMask : Z := 0x17.
Definition ReportUserDefMemoryDTCSnapshotRecordByDTCNumber : Z := 0x18.
Definition ReportUserDefMemoryDTCExtDataRecordByDTCNumber : Z := 0x19.
Definition ReportWWHOBDDTCByMaskRecord : Z := 0x42.
Definition ReportWWHOBDDTCWithPermanentStatus : Z := 0x55.

(** ** Negative response codes *)

(** [NRC]; its [PositiveResponse] is [NotNegative] here. *)
Definition NotNegative : Z := 0x00.
Definition GeneralReject : Z := 0x10.
Definition ServiceNotSupported : Z := 0x11.
Definition SubFunctionNotSupported : Z := 0x12.
Definition IncorrectMessageLengthOrInvalidFormat : Z := 0x13.
Definition ResponseTooLong : Z := 0x14.
Definition BusyRepeatRequest : Z := 0x21.
Definition ConditionsNotCorrect : Z := 0x22.
Definition RequestSequenceError : Z := 0x24.
Definition NoResponseFromSubnetComponent : Z := 0x25.
Definition FailurePreventsExecutionOfRequestedAction : Z := 0x26.
Definition RequestOutOfRange : Z := 0x31.
Definition SecurityAccessDenied : Z := 0x33.
Definition InvalidKey : Z := 0x35.
Definition ExceededNumberOfAttempts : Z := 0x36.
Definition RequiredTimeDelayNotExpired : Z := 0x37.
Definition UploadDownloadNotAccepted : Z := 0x70.
Definition TransferDataSuspended : Z := 0x71.
Definition GeneralProgrammingFailure : Z := 0x72.
Definition WrongBlockSequenceCounter : Z := 0x73.
Definition RequestCorrectlyReceivedResponsePending : Z := 0x78.
Definition SubFunctionNotSupportedInActiveSession : Z := 0x7E.
Definition ServiceNotSupportedInActiveSession : Z := 0x7F.
Definition RpmTooHigh : Z := 0x81.
Definition RpmTooLow : Z := 0x82.
Definition EngineIsRunning : Z := 0x83.
Definition EngineIsNotRunning : Z := 0x84.
Definition EngineRunTimeTooLow : Z := 0x85.
Definition TemperatureTooHigh : Z := 0x87.
Definition TemperatureTooLow : Z := 0x88.
Definition VehicleSpeedTooHigh : Z := 0x89.
Definition VehicleSpeedTooLow : Z := 0x8A.
Definition ThrottlePedalTooHigh : Z := 0x8B.
Definition ThrottlePedalTooLow : Z := 0x8C.
Definition TransmissionRangeNotInNeutral : Z := 0x8D.
Definition TransmissionRangeNotInGear : Z := 0x8E.
Definition BrakeSwitchNotClosed : Z := 0x90.
Definition ShifterLeverNotInPark : Z := 0x91.
Definition TorqueConverterClutchLocked : Z := 0x92.
Definition VoltageTooHigh : Z := 0x93.
Definition VoltageTooLow : Z := 0x94.

Definition nrc_string (nrc : Z) : string :=
  switch nrc
    [([NotNegative], "PositiveResponse");
     ([GeneralReject], "GeneralReject");
     ([ServiceNotSupported], "ServiceNotSupported");
     ([SubFunctionNotSupported], "SubFunctionNotSupported");
     ([IncorrectMessageLengthOrInvalidFormat], "IncorrectMessageLengthOrInvalidFormat");
     ([ResponseTooLong], "ResponseTooLong");
     ([BusyRepeatRequest], "BusyRepeatRequest");
     ([ConditionsNotCorrect], "ConditionsNotCorrect");
     ([RequestSequenceError], "RequestSequenceError");
     ([NoResponseFromSubnetComponent], "NoResponseFromSubnetComponent");
     ([FailurePreventsExecutionOfRequestedAction], "FailurePreventsExecutionOfRequestedAction");
     ([RequestOutOfRange], "RequestOutOfRange");
     ([SecurityAccessDenied], "SecurityAccessDenied");
     ([InvalidKey], "InvalidKey");
     ([ExceededNumberOfAttempts], "ExceededNumberOfAttempts");
     ([RequiredTimeDelayNotExpired], "RequiredTimeDelayNotExpired");
     ([UploadDownloadNotAccepted], "UploadDownloadNotAccepted");
     ([TransferDataSuspended], "TransferDataSuspended");
     ([GeneralProgrammingFailure], "GeneralProgrammingFailure");
     ([WrongBlockSequenceCounter], "WrongBlockSequenceCounter");
     ([RequestCorrectlyReceivedResponsePending], "RequestCorrectlyReceivedResponsePending");
     ([SubFunctionNotSupportedInActiveSession], "SubFunctionNotSupportedInActiveSession");
     ([ServiceNotSupportedInActiveSession], "ServiceNotSupportedInActiveSession");
     ([RpmTooHigh], "RpmTooHigh");
     ([RpmTooLow], "RpmTooLow");
     ([EngineIsRunning], "EngineIsRunning");
     ([EngineIsNotRunning], "EngineIsNotRunning");
     ([EngineRunTimeTooLow], "EngineRunTimeTooLow");
     ([TemperatureTooHigh], "TemperatureTooHigh");
     ([TemperatureTooLow], "TemperatureTooLow");
     ([VehicleSpeedTooHigh], "VehicleSpeedTooHigh");
     ([VehicleSpeedTooLow], "VehicleSpeedTooLow");
     ([ThrottlePedalTooHigh], "ThrottlePedalTooHigh");
     ([ThrottlePedalTooLow], "ThrottlePedalTooLow");
     ([TransmissionRangeNotInNeutral], "TransmissionRangeNotInNeutral");
     ([TransmissionRangeNotInGear], "TransmissionRangeNotInGear");
     ([BrakeSwitchNotClosed], "BrakeSwitchNotClosed");
     ([ShifterLeverNotInPark], "ShifterLeverNotInPark");
     ([TorqueConverterClutchLocked], "TorqueConverterClutchLocked");
     ([VoltageTooHigh], "VoltageTooHigh");
     ([VoltageTooLow], "VoltageTooLow")] "Unknown".

Definition nrc_description (nrc : Z) : string :=
  switch nrc
    [([NotNegative], "The request was successfully processed");
     ([GeneralReject], "Service request rejected for unspecified reason");
     ([ServiceNotSupported], "The requested service identifier is not supported");
     ([SubFunctionNotSupported], "The requested sub-function is not supported");
     ([IncorrectMessageLengthOrInvalidFormat], "Message length is incorrect or format is invalid");
     ([ResponseTooLong], "Response message would exceed maximum transport layer capacity");
     ([BusyRepeatRequest], "Server is busy, client should repeat the request");
     ([ConditionsNotCorrect], "Conditions are not correct to perform the requested action");
     ([RequestSequenceError], "Message sequence error - request received in wrong order");
     ([NoResponseFromSubnetComponent], "Gateway received no response from the subnet component");
     ([FailurePreventsExecutionOfRequestedAction], "A failure condition prevents execution of the request");
     ([RequestOutOfRange], "Request contains a parameter value that is out of range");
     ([SecurityAccessDenied], "Security access was denied - authentication required");
     ([InvalidKey], "Security key sent by the client does not match");
     ([ExceededNumberOfAttempts], "Number of failed security access attempts exceeded limit");
     ([RequiredTimeDelayNotExpired], "Security access delay timer has not yet expired");
     ([UploadDownloadNotAccepted], "Data transfer request (upload/download) was not accepted");
     ([TransferDataSuspended], "Data transfer has been suspended");
     ([GeneralProgrammingFailure], "A programming operation has failed");
     ([WrongBlockSequenceCounter], "Block sequence counter in request is incorrect");
     ([RequestCorrectlyReceivedResponsePending], "Request received, response pending - continue waiting");
     ([SubFunctionNotSupportedInActiveSession], "Sub-function is not supported in the active diagnostic session");
     ([ServiceNotSupportedInActiveSession], "Service is not supported in the active diagnostic session");
     ([RpmTooHigh], "Engine RPM is too high to perform the requested action");
     ([RpmTooLow], "Engine RPM is too low to perform the requested action");
     ([EngineIsRunning], "Engine is running but must be stopped for this operation");
     ([EngineIsNotRunning], "Engine is not running but must be running for this operation");
     ([EngineRunTimeTooLow], "Engine run time is too low for this operation");
     ([TemperatureTooHigh], "Temperature is too high for this operation");
     ([TemperatureTooLow], "Temperature is too low for this operation");
     ([VehicleSpeedTooHigh], "Vehicle speed is too high for this operation");
     ([VehicleSpeedTooLow], "Vehicle speed is too low for this operation");
     ([ThrottlePedalTooHigh], "Throttle/pedal position is too high for this operation");
     ([ThrottlePedalTooLow], "Throttle/pedal position is too low for this operation");
     ([TransmissionRangeNotInNeutral], "Transmission is not in neutral");
     ([TransmissionRangeNotInGear], "Transmission is not in gear");
     ([BrakeSwitchNotClosed], "Brake switch is not closed (brake pedal not applied)");
     ([ShifterLeverNotInPark], "Shifter lever is not in park position");
     ([TorqueConverterClutchLocked], "Torque converter clutch is locked");
     ([VoltageTooHigh], "System voltage is too high for this operation");
     ([VoltageTooLow], "System voltage is too low for this operation")] "Unknown or reserved negative response code".

Inductive NRCCategory :=
| Success | ServiceError | Busy | ConditionError | ParameterError | SecurityError | TransferError
| CategoryPending | SessionError | VehicleCondition | Reserved.
#[export] Instance NRCCategory_eq_dec : EqDecision NRCCategory.
Proof. solve_decision. Defined.

Definition classify_nrc (value : Z) : NRCCategory :=
  if value =? 0x00 then Success
  else if (0x10 <=? value) && (value <=? 0x14) then ServiceError
  else if value =? 0x21 then Busy
  else if (0x22 <=? value) && (value <=? 0x26) then ConditionError
  else if value =? 0x31 then ParameterError
  else if (0x33 <=? value) && (value <=? 0x37) then SecurityError
  else if (0x70 <=? value) && (value <=? 0x73) then TransferError
  else if value =? 0x78 then CategoryPending
  else if (0x7E <=? value) && (value <=? 0x7F) then SessionError
  else if (0x81 <=? value) && (value <=? 0x94) then VehicleCondition
  else Reserved.

Definition is_temporary_nrc (nrc : Z) : bool :=
  switch nrc
    [([BusyRepeatRequest; RequestCorrectlyReceivedResponsePending; RequiredTimeDelayNotExpired], true)] false.

Definition is_security_nrc (nrc : Z) : bool := bool_decide (classify_nrc nrc = SecurityError).
Definition is_session_nrc (nrc : Z) : bool := bool_decide (classify_nrc nrc = SessionError).
Definition is_transfer_nrc (nrc : Z) : bool := bool_decide (classify_nrc nrc = TransferError).
Definition is_vehicle_condition_nrc (nrc : Z) : bool := bool_decide (classify_nrc nrc = VehicleCondition).
Definition is_oem_specific_nrc (nrc : Z) : bool := (0xF0 <=? nrc) && (nrc <=? 0xFE).
Definition is_supplier_specific_nrc (nrc : Z) : bool := (0x95 <=? nrc) && (nrc <=? 0xEF).

(** The meaning of a code in the answer of a service. *)
Definition request_out_of_range_context (service_id : Z) : string :=
  switch service_id
    [([0x22], "The requested Data Identifier (DID) is not supported or does not exist");
     ([0x23], "The requested memory address or size is outside the valid range");
     ([0x24], "The requested scaling DID is not supported");
     ([0x2A], "The requested periodic identifier is not supported");
     ([0x2C], "The DID definition parameters are invalid or out of range");
     ([0x2E], "The DID value to write is out of the allowed range");
     ([0x2F], "The I/O control parameter or DID is out of range");
     ([0x31], "The routine ID or option record parameter is out of range");
     ([0x34], "The memory address, size, or format identifier is out of range");
     ([0x35], "The memory address, size, or format identifier is out of range");
     ([0x36], "The block sequence counter or data length is invalid");
     ([0x38], "The file path, name, or parameters are invalid");
     ([0x3D], "The memory address or data to write is out of valid range")] "Request contains a parameter value that is out of range".

Definition conditions_not_correct_context (service_id : Z) : string :=
  switch service_id
    [([0x10], "Session transition not allowed due to current vehicle/ECU state");
     ([0x11], "ECU reset not allowed - vehicle conditions not met (e.g., ignition state)");
     ([0x27], "Security access not allowed - preconditions not met or wrong session");
     ([0x28], "Communication control not allowed in current session or vehicle state");
     ([0x2E], "DID cannot be written - security level or session requirements not met");
     ([0x2F], "I/O control not allowed - safety conditions or prerequisites not met");
     ([0x31], "Routine cannot execute - preconditions not met (session, security, sequence)");
     ([0x34], "Download not allowed - programming session not active or security not unlocked");
     ([0x35], "Upload not allowed - programming session not active or security not unlocked");
     ([0x36], "Data transfer not allowed - no active download/upload session");
     ([0x37], "Transfer exit not allowed - transfer not complete or not in progress");
     ([0x85], "DTC setting control not allowed in current diagnostic session")] "Conditions are not correct to perform the requested action".

Definition sub_function_not_supported_context (service_id : Z) : string :=
  switch service_id
    [([0x10], "The requested diagnostic session type is not supported by this ECU");
     ([0x11], "The requested reset type is not supported by this ECU");
     ([0x19], "The requested DTC report type (sub-function) is not supported");
     ([0x27], "The requested security access type/level is not supported");
     ([0x28], "The requested communication control type is not supported");
     ([0x31], "The requested routine control type (start/stop/result) is not supported");
     ([0x3E], "The requested sub-function for TesterPresent is not supported");
     ([0x85], "The requested DTC setting control type is not supported");
     ([0x86], "The requested event type is not supported");
     ([0x87], "The requested link control mode is not supported")] "The requested sub-function is not supported".

Definition security_access_denied_context (service_id : Z) : string :=
  switch service_id
    [([0x22], "Reading this DID requires a higher security level");
     ([0x23], "Reading this memory region requires security unlock");
     ([0x2E], "Writing this DID requires security authentication");
     ([0x2F], "I/O control for this identifier requires security access");
     ([0x31], "This routine requires security unlock before execution");
     ([0x34], "Download to this memory area requires security authentication");
     ([0x35], "Upload from this memory area requires security authentication");
     ([0x3D], "Writing to this memory region requires security unlock")] "Security access was denied - authentication required".

Definition service_not_supported_context (service_id : Z) : string :=
  switch service_id
    [([0x22], "ReadDataByIdentifier service is not implemented in this ECU");
     ([0x23], "ReadMemoryByAddress service is not implemented in this ECU");
     ([0x2E], "WriteDataByIdentifier service is not implemented in this ECU");
     ([0x2F], "InputOutputControlByIdentifier service is not implemented in this ECU");
     ([0x31], "RoutineControl service is not implemented in this ECU");
     ([0x34], "RequestDownload service is not implemented (no flash programming support)");
     ([0x35], "RequestUpload service is not implemented (no memory upload support)");
     ([0x36], "TransferData service is not implemented in this ECU")] "The requested service identifier is not supported".

Definition transfer_data_suspended_context (service_id : Z) : string :=
  switch service_id
    [([0x34], "Download operation has been suspended due to an error");
     ([0x35], "Upload operation has been suspended due to an error");
     ([0x36], "Data block transfer suspended - verify data integrity");
     ([0x38], "File transfer operation has been suspended")] "Data transfer has been suspended".

Definition general_programming_failure_context (service_id : Z) : string :=
  switch service_id
    [([0x34], "Failed to initialize memory for download (erase/prepare failure)");
     ([0x36], "Failed to program data block to memory (write/flash failure)");
     ([0x37], "Programming verification failed - data integrity error")] "A programming operation has failed".

Definition service_specific_nrc_description (service_id nrc : Z) : string :=
  switch nrc
    [([RequestOutOfRange], request_out_of_range_context service_id);
     ([ConditionsNotCorrect], conditions_not_correct_context service_id);
     ([SubFunctionNotSupported], sub_function_not_supported_context service_id);
     ([SecurityAccessDenied], security_access_denied_context service_id);
     ([ServiceNotSupported], service_not_supported_context service_id);
     ([TransferDataSuspended], transfer_data_suspended_context service_id);
     ([GeneralProgrammingFailure], general_programming_failure_context service_id)]
    (nrc_description nrc).

(** ** Identifiers *)

Definition EraseMemory : Z := 0xFF00.
Definition CheckProgrammingDependencies : Z := 0xFF01.
Definition EraseMirrorMemoryDTCs : Z := 0xFF02.
Definition RoutineIdentifier_is_oem_specific (value : Z) : bool := 0xF000 <=? value.
Definition DataIdentifier_is_oem_specific (value : Z) : bool :=
  ((0xF100 <=? value) && (value <=? 0xF17F)) || ((0xF180 <=? value) && (value <=? 0xF1FF)).
Definition DataIdentifier_is_identification (value : Z) : bool := (0xF180 <=? value) && (value <=? 0xF19F).

(** ** Trouble codes and bit fields *)

Record DTC := mkDTC { high_byte : Z; middle_byte : Z; low_byte : Z }.
#[export] Instance DTC_eq_dec : EqDecision DTC.
Proof. solve_decision. Defined.

Definition DTC_from_value (value : Z) : DTC :=
  mkDTC (Z.land (Z.shiftr value 16) 0xFF) (Z.land (Z.shiftr value 8) 0xFF) (Z.land value 0xFF).
Definition DTC_to_value (d : DTC) : Z :=
  Z.lor (Z.lor (Z.shiftl (high_byte d) 16) (Z.shiftl (middle_byte d) 8)) (low_byte d).

Definition DTC_prefix (nibble : Z) : string :=
  switch nibble
    [([0x0; 0x1; 0x2; 0x3], "P"); ([0x4; 0x5], "C"); ([0x6; 0x7], "B");
     ([0x8; 0x9; 0xA; 0xB; 0xC; 0xD; 0xE; 0xF], "U")] "?".

(** The conversions [%04X] and [%02X] of [snprintf]. *)
Definition hex_upper (nibble : Z) : string :=
  switch nibble
    [([0], "0"); ([1], "1"); ([2], "2"); ([3], "3"); ([4], "4"); ([5], "5"); ([6], "6"); ([7], "7");
     ([8], "8"); ([9], "9"); ([10], "A"); ([11], "B"); ([12], "C"); ([13], "D"); ([14], "E")] "F".
Definition hex2 (v : Z) : string := hex_upper (Z.shiftr v 4 mod 16) +:+ hex_upper (v mod 16).
Definition hex4 (v : Z) : string := hex2 (Z.shiftr v 8) +:+ hex2 v.

Definition DTC_to_string (d : DTC) : string :=
  let prefix := DTC_prefix (Z.land (Z.shiftr (high_byte d) 4) 0x0F) in
  let code := uint 16 (Z.lor (Z.shiftl (Z.land (high_byte d) 0x3F) 8) (middle_byte d)) in
  prefix +:+ hex4 code.

Record DTCStatusMask := mkDTCStatusMask {
  test_failed : bool;
  test_failed_this_operation_cycle : bool;
  pending_dtc : bool;
  confirmed_dtc : bool;
  test_not_completed_since_last_clear : bool;
  test_failed_since_last_clear : bool;
  test_not_completed_this_operation_cycle : bool;
  warning_indicator_requested : bool
}.
Definition DTCStatusMask_default : DTCStatusMask :=
  mkDTCStatusMask false false false false false false false false.

Definition flag_set (byte flag : Z) : bool := negb (Z.land byte flag =? 0).
Definition DTCStatusMask_from_byte (byte : Z) : DTCStatusMask :=
  mkDTCStatusMask (flag_set byte 0x01) (flag_set byte 0x02) (flag_set byte 0x04) (flag_set byte 0x08)
    (flag_set byte 0x10) (flag_set byte 0x20) (flag_set byte 0x40) (flag_set byte 0x80).

(** [if (set) byte |= flag;]. *)
Definition or_flag (set : bool) (flag byte : Z) : Z := if set then Z.lor byte flag else byte.
Definition DTCStatusMask_to_byte (m : DTCStatusMask) : Z :=
  let byte := or_flag (test_failed m) 0x01 0 in
  let byte := or_flag (test_failed_this_operation_cycle m) 0x02 byte in
  let byte := or_flag (pending_dtc m) 0x04 byte in
  let byte := or_flag (confirmed_dtc m) 0x08 byte in
  let byte := or_flag (test_not_completed_since_last_clear m) 0x10 byte in
  let byte := or_flag (test_failed_since_last_clear m) 0x20 byte in
  let byte := or_flag (test_not_completed_this_operation_cycle m) 0x40 byte in
  or_flag (warning_indicator_requested m) 0x80 byte.

(** [CommunicationType], as its two flags. *)
Definition CommunicationType_from_byte (byte : Z) : bool * bool := (flag_set byte 0x01, flag_set byte 0x02).
Definition CommunicationType_to_byte (ct : bool * bool) : Z := or_flag ct.2 0x02 (or_flag ct.1 0x01 0).

(** [DataFormatIdentifier] and [AddressAndLengthFormatIdentifier], as their two
    nibbles, the high one first. *)
Definition Format_from_byte (byte : Z) : Z * Z := (Z.land (Z.shiftr byte 4) 0x0F, Z.land byte 0x0F).
Definition Format_to_byte (fmt : Z * Z) : Z :=
  uint 8 (Z.lor (Z.shiftl (Z.land fmt.1 0x0F) 4) (Z.land fmt.2 0x0F)).

(** [UdsHeader::to_string]. *)
Definition UdsHeader_to_string (h : UdsHeader) : string :=
  match direction h with
  | NegativeResponse =>
      "UDS Negative Response: " +:+
      match rejected_service_id h with
      | Some sid =>
          service_id_string sid +:+ " -> NRC=" +:+
          match negative_response_code h with Some nrc => "0x" +:+ hex2 nrc | None => "" end
      | None => ""
      end
  | dir =>
      (match dir with Request => "UDS Request: " | _ => "UDS Response: " end) +:+
      service_id_string (service_id h) +:+
      match sub_function h with
      | Some sub =>
          " [0x" +:+ hex2 sub +:+ "]" +:+
          (if suppress_positive_response h then " (suppressPosRsp)" else "")
      | None => ""
      end
  end.

(** ** Checking a table on all bytes *)

Definition all_bytes : list byte := map to_byte (seqZ 0 256).

Lemma elem_of_all_bytes b : b ∈ all_bytes.
Proof.
  apply list_elem_of_fmap. exists (u8 b). split; [symmetry; apply to_byte_u8|].
  apply elem_of_seqZ. pose proof (u8_range b). lia.
Qed.

(** A decidable statement on bytes holds if evaluating it on each of them says so. *)
Lemma byte_decide (P : byte -> Prop) `{!forall b, Decision (P b)} :
  forallb (fun b => bool_decide (P b)) all_bytes = true -> forall b, P b.
Proof.
  intros Hall b. apply (bool_decide_unpack (P b)), Is_true_true, (proj1 (forallb_forall _ _) Hall).
  apply list_elem_of_In, elem_of_all_bytes.
Qed.

Ltac on_all_bytes := refine (byte_decide _ _); vm_compute; reflexivity.

Definition unnamed_codes : list Z := [0x23; 0x34; 0x86; 0x8F].

(** Every code has a name exactly when it has a description. *)
Lemma code_names_described :
  forall b, nrc_string (u8 b) = "Unknown" <-> nrc_description (u8 b) = "Unknown or reserved negative response code".
Proof. on_all_bytes. Qed.

(** Named codes have a category; the categories also hold four codes without a name. *)
Lemma code_names_classified :
  forall b, nrc_string (u8 b) = "Unknown" <-> (classify_nrc (u8 b) = Reserved \/ u8 b ∈ unnamed_codes).
Proof. on_all_bytes. Qed.

Lemma code_ranges :
  forall b, is_oem_specific_nrc (u8 b) = true \/ is_supplier_specific_nrc (u8 b) = true ->
    classify_nrc (u8 b) = Reserved /\ is_oem_specific_nrc (u8 b) <> is_supplier_specific_nrc (u8 b).
Proof. on_all_bytes. Qed.

Lemma service_names_known : forall b, service_id_string (u8 b) = "Unknown" <-> u8 b ∉ known_services.
Proof. on_all_bytes. Qed.

Lemma switch_eq {A} z cases (d a : A) :
  Forall (fun c => z ∈ c.1 -> c.2 = a) cases -> d = a -> switch z cases d = a.
Proof.
  intros H Hd. induction cases as [|[labels x] cases IH]; [exact Hd|]. apply Forall_cons in H as [Hx H]. cbn.
  destruct (existsb (Z.eqb z) labels) eqn:E; [|apply IH, H].
  apply Hx. apply existsb_exists in E as (y & Hy & Ey). apply Z.eqb_eq in Ey as ->. apply list_elem_of_In, Hy.
Qed.

Definition contexts : list (Z * (Z -> string)) :=
  [(RequestOutOfRange, request_out_of_range_context);
   (ConditionsNotCorrect, conditions_not_correct_context);
   (SubFunctionNotSupported, sub_function_not_supported_context);
   (SecurityAccessDenied, security_access_denied_context);
   (ServiceNotSupported, service_not_supported_context);
   (TransferDataSuspended, transfer_data_suspended_context);
   (GeneralProgrammingFailure, general_programming_failure_context)].

Lemma contexts_default :
  forall b, service_id_string (u8 b) = "Unknown" ->
    Forall (fun kf => kf.2 (u8 b) = nrc_description kf.1) contexts.
Proof. on_all_bytes. Qed.

Lemma service_specific_contexts service_id nrc :
  service_specific_nrc_description service_id nrc =
    switch nrc (map (fun kf => ([kf.1], kf.2 service_id)) contexts) (nrc_description nrc).
Proof. reflexivity. Qed.

Lemma services_without_context (b : byte) nrc :
  service_id_string (u8 b) = "Unknown" ->
  service_specific_nrc_description (u8 b) nrc = nrc_description nrc.
Proof.
  intros Hb. pose proof (contexts_default b Hb) as H. rewrite service_specific_contexts.
  apply switch_eq; [|reflexivity]. apply Forall_map. eapply Forall_impl; [exact H|].
  intros [k f] Hf Hk. apply list_elem_of_singleton in Hk as ->. exact Hf.
Qed.

(** Distinct named values have distinct names. *)
Definition distinct_names (f : Z -> string) : bool :=
  let named := filter (fun b => f (u8 b) <> "Unknown") all_bytes in
  forallb (fun b => forallb (fun c => bool_decide (f (u8 b) = f (u8 c) -> b = c)) named) named.

Lemma distinct_names_spec f (b c : byte) :
  distinct_names f = true -> f (u8 b) = f (u8 c) -> b = c \/ f (u8 b) = "Unknown".
Proof.
  intros H E. destruct (decide (f (u8 b) = "Unknown")) as [|Hb]; [right; assumption | left].
  assert (Hin : forall x, f (u8 x) <> "Unknown" -> In x (filter (fun b => f (u8 b) <> "Unknown") all_bytes)).
  { intros x Hx. apply list_elem_of_In, list_elem_of_filter. split; [exact Hx | apply elem_of_all_bytes]. }
  pose proof (proj1 (forallb_forall _ _) H b (Hin b Hb)) as Hrow. cbv beta in Hrow.
  pose proof (proj1 (forallb_forall _ _) Hrow c (Hin c ltac:(congruence))) as Hc.
  apply (bool_decide_unpack (f (u8 b) = f (u8 c) -> b = c)); [apply Is_true_true, Hc | exact E].
Qed.

Lemma nrc_names_distinct : distinct_names nrc_string = true.
Proof. vm_compute. reflexivity. Qed.

Lemma service_names_distinct : distinct_names service_id_string = true.
Proof. vm_compute. reflexivity. Qed.

(** The tables of negative response codes and services agree with each other.
    A code has a name exactly when it has a description, and then a category; the
    ranges of the categories also hold four codes that have no name.  The codes of
    manufacturers and of suppliers are disjoint and unclassified.  The services with
    a name are those the decoder recognises; for any other service the description of
    a code does not depend on the service.  Distinct named codes and services have
    distinct names. *)
Theorem uds_tables_agree (b c : byte) :
  (nrc_string (u8 b) = "Unknown" <-> nrc_description (u8 b) = "Unknown or reserved negative response code") /\
  (nrc_string (u8 b) = "Unknown" <-> (classify_nrc (u8 b) = Reserved \/ u8 b ∈ [0x23; 0x34; 0x86; 0x8F])) /\
  (is_oem_specific_nrc (u8 b) = true \/ is_supplier_specific_nrc (u8 b) = true ->
     classify_nrc (u8 b) = Reserved /\ is_oem_specific_nrc (u8 b) <> is_supplier_specific_nrc (u8 b)) /\
  (service_id_string (u8 b) = "Unknown" <-> u8 b ∉ known_services) /\
  (service_id_string (u8 b) = "Unknown" ->
     service_specific_nrc_description (u8 b) (u8 c) = nrc_description (u8 c)) /\
  (nrc_string (u8 b) = nrc_string (u8 c) -> b = c \/ nrc_string (u8 b) = "Unknown") /\
  (service_id_string (u8 b) = service_id_string (u8 c) -> b = c \/ service_id_string (u8 b) = "Unknown").
Proof.
  split_and!; [apply code_names_described | apply code_names_classified | apply code_ranges
    | apply service_names_known | apply services_without_context | apply distinct_names_spec, nrc_names_distinct
    | apply distinct_names_spec, service_names_distinct].
Qed.

(** The service identifiers on the wire. *)
Lemma service_ids_on_the_wire :
  forall b, response_to_request_sid (request_to_response_sid (u8 b)) = u8 b /\
    (u8 b ∈ known_services ->
       is_response_sid (u8 b) = false /\ is_response_sid (request_to_response_sid (u8 b)) = true /\
       is_negative_response_sid (request_to_response_sid (u8 b)) = false).
Proof. on_all_bytes. Qed.

(** *** Trouble codes *)

(** The text of a trouble code in SAE J2012 and ISO 15031-6: the two upper bits
    select the letter, the other fourteen of the first two bytes are the digits. *)
Definition sae_text (high middle : Z) : string :=
  nth (Z.to_nat (high / 64)) ["P"; "C"; "B"; "U"]%string "" +:+ hex4 (high mod 64 * 256 + middle).

Lemma prefix_agrees :
  forall b, DTC_prefix (Z.land (Z.shiftr (u8 b) 4) 0x0F) =
            nth (Z.to_nat (u8 b / 64)) ["P"; "C"; "B"; "U"]%string "" <->
            ~ (0x60 <= u8 b < 0xC0).
Proof. on_all_bytes. Qed.

Lemma prefix_letter :
  forall b, String.length (DTC_prefix (Z.land (Z.shiftr (u8 b) 4) 0x0F)) = 1%nat /\
            String.length (nth (Z.to_nat (u8 b / 64)) ["P"; "C"; "B"; "U"]%string "") = 1%nat.
Proof. on_all_bytes. Qed.

Lemma prefix_eq s s' t : String.length s = 1%nat -> String.length s' = 1%nat -> (s +:+ t = s' +:+ t <-> s = s').
Proof.
  destruct s as [|a [|]], s' as [|a' [|]]; try discriminate. intros _ _. cbn. split; [|congruence].
  intros [= ->]. reflexivity.
Qed.

Lemma dtc_digits (h m : byte) :
  uint 16 (Z.lor (Z.shiftl (Z.land (u8 h) 0x3F) 8) (u8 m)) = u8 h mod 64 * 256 + u8 m.
Proof.
  pose proof (u8_range h). pose proof (u8_range m). rewrite lor_shiftl_add by lia. bits_arith.
  apply uint_small. unfold fits. lia.
Qed.

Definition dtc_of (h m l : byte) : DTC := mkDTC (u8 h) (u8 m) (u8 l).

Lemma uds_trouble_value v : DTC_to_value (DTC_from_value v) = v mod 2 ^ 24.
Proof.
  unfold DTC_from_value, DTC_to_value. cbn [high_byte middle_byte low_byte].
  rewrite <- (Z.shiftl_shiftl _ 8 8), <- Z.shiftl_lor by lia. bits_arith. rewrite !lor_shiftl_add by lia. bits_arith. lia.
Qed.

(** Trouble codes and their bit fields survive their encodings: a code and its
    24-bit value determine each other, a status mask and its byte, the two nibbles of
    a format and its byte.  The text of a code is the one of SAE J2012 exactly when
    the high byte is outside 0x60 to 0xBF; in that range the letter is wrong. *)
Theorem uds_trouble_codes (h m l b : byte) (v : Z) (mask : DTCStatusMask) :
  DTC_from_value (DTC_to_value (dtc_of h m l)) = dtc_of h m l /\
  DTC_to_value (DTC_from_value v) = v mod 2 ^ 24 /\
  DTCStatusMask_from_byte (DTCStatusMask_to_byte mask) = mask /\
  DTCStatusMask_to_byte (DTCStatusMask_from_byte (u8 b)) = u8 b /\
  Format_to_byte (Format_from_byte (u8 b)) = u8 b /\
  (DTC_to_string (dtc_of h m l) = sae_text (u8 h) (u8 m) <-> ~ (0x60 <= u8 h < 0xC0)).
Proof.
  split_and!.
  - unfold DTC_from_value, DTC_to_value, dtc_of. cbn [high_byte middle_byte low_byte].
    pose proof (u8_range h). pose proof (u8_range m). pose proof (u8_range l).
    rewrite <- (Z.shiftl_shiftl _ 8 8), <- Z.shiftl_lor, !lor_shiftl_add by lia. bits_arith. f_equal; lia.
  - apply uds_trouble_value.
  - destruct mask as [[] [] [] [] [] [] [] []]; reflexivity.
  - revert b. on_all_bytes.
  - revert b. on_all_bytes.
  - unfold DTC_to_string, sae_text, dtc_of. cbn [high_byte middle_byte].
    rewrite dtc_digits, prefix_eq by apply prefix_letter. apply prefix_agrees.
Qed.
