(* ===== verification/UdsSession.v ===== *)
(** * UDS session tracking (src/protocols/uds_session.cpp, include/wadjet/protocols/uds/uds_session.hpp)

    The security levels with their lockouts ([SecurityState]), the tracker of one
    ECU ([UdsSession]) and the table of trackers ([UdsSessionManager]).

    [std::chrono::steady_clock::now()] is the argument [now] of every operation that
    reads it, in nanoseconds; one operation reads one time.  Durations of
    [TimingParameters] are in milliseconds.  A callback is a number; its invocations,
    which receive a const session, are recorded in order in [calls].  The maps from
    levels and addresses are finite maps: no result depends on an iteration order
    except that of [active_sessions]. *)

From Stdlib Require Import ZArith Lia.
From Stdlib Require Import Strings.Byte.
From stdpp Require Import base numbers list gmap strings.
From S2P Require Import Prelude ByteOrder Decoder Uds UdsTables.

Definition MILLISECOND : Z := 1000000.

(** ** Timing parameters *)

Record TimingParameters := mkTimingParameters {
  p2_server_max : Z;
  p2_star_server_max : Z;
  s3_server : Z
}.
Definition default_values : TimingParameters := mkTimingParameters 50 5000 5000.
Definition programming_values : TimingParameters := mkTimingParameters 50 5000 5000.

(** ** Security levels *)

Record SecurityLevelState := mkSecurityLevelState {
  level : Z;
  unlocked : bool;
  failed_attempts : Z;
  lockout_until : option Z;
  current_seed : list byte
}.
Definition new_level : SecurityLevelState := mkSecurityLevelState 0 false 0 None [].

Definition level_locked_out (now : Z) (st : SecurityLevelState) : bool :=
  match lockout_until st with
  | None => false
  | Some until => now <? until
  end.

Definition level_reset (st : SecurityLevelState) : SecurityLevelState :=
  mkSecurityLevelState (level st) false (failed_attempts st) (lockout_until st) [].

Definition MAX_FAILED_ATTEMPTS : Z := 3.
Definition DEFAULT_LOCKOUT_DURATION : Z := 10 * 1000 * MILLISECOND.

(** [levels_], the only field of [SecurityState]. *)
Abbreviation SecurityState := (gmap Z SecurityLevelState).

(** [unlocked && !is_locked_out()]. *)
Definition level_unlocked (now : Z) (st : SecurityLevelState) : bool :=
  unlocked st && negb (level_locked_out now st).

Definition is_unlocked (now : Z) (levels : SecurityState) (l : Z) : bool :=
  match levels !! l with
  | None => false
  | Some st => level_unlocked now st
  end.

Definition highest_unlocked_level (now : Z) (levels : SecurityState) : Z :=
  map_fold (fun l st highest => if level_unlocked now st && (highest <? l) then l else highest) 0 levels.

Definition any_unlocked (now : Z) (levels : SecurityState) : bool :=
  existsb (fun p => level_unlocked now p.2) (map_to_list levels).

(** [levels_[level]], which inserts a new level. *)
Definition get_or_new (levels : SecurityState) (l : Z) : SecurityLevelState :=
  default new_level (levels !! l).

Definition seed_requested (l : Z) (seed : list byte) (levels : SecurityState) : SecurityState :=
  let st := get_or_new levels l in
  <[l := mkSecurityLevelState l (unlocked st) (failed_attempts st) (lockout_until st) seed]> levels.

Definition key_accepted (l : Z) (levels : SecurityState) : SecurityState :=
  <[l := mkSecurityLevelState l true 0 None []]> levels.

Definition key_rejected (now : Z) (l : Z) (levels : SecurityState) : SecurityState :=
  let st := get_or_new levels l in
  let attempts := uint 8 (failed_attempts st + 1) in
  <[l := mkSecurityLevelState l (unlocked st) attempts
           (if MAX_FAILED_ATTEMPTS <=? attempts then Some (now + DEFAULT_LOCKOUT_DURATION) else lockout_until st)
           []]> levels.

Definition is_locked_out (now : Z) (levels : SecurityState) (l : Z) : bool :=
  match levels !! l with
  | None => false
  | Some st => level_locked_out now st
  end.

Definition lockout_remaining (now : Z) (levels : SecurityState) (l : Z) : Z :=
  match levels !! l with
  | None => 0
  | Some st =>
      match lockout_until st with
      | None => 0
      | Some until => if until <=? now then 0 else Z.quot (until - now) MILLISECOND
      end
  end.

Definition security_reset (levels : SecurityState) : SecurityState := level_reset <$> levels.

(** ** The tracker of one ECU *)

Inductive SessionState := Idle | Active | TimedOut.
#[export] Instance SessionState_eq_dec : EqDecision SessionState.
Proof. solve_decision. Defined.

Inductive SessionEvent :=
| SessionStarted | SessionChanged | SessionEnded | SecurityUnlocked | SecurityLocked
| ResponsePending | TesterPresentReceived.

Record UdsSession := mkUdsSession {
  ecu_address : Z;
  session_type : Z;
  state_ : SessionState;
  timing : TimingParameters;
  security : SecurityState;
  last_activity : Z;
  session_start : Z;
  callbacks : list nat;
  calls : list (nat * SessionEvent)
}.

Definition new_session (now address : Z) : UdsSession :=
  mkUdsSession address DefaultSession Idle default_values ∅ now now [] [].

(** Assignments to one field. *)
Definition set_timing (v : TimingParameters) (s : UdsSession) : UdsSession :=
  mkUdsSession (ecu_address s) (session_type s) (state_ s) v (security s) (last_activity s)
    (session_start s) (callbacks s) (calls s).
Definition set_security (v : SecurityState) (s : UdsSession) : UdsSession :=
  mkUdsSession (ecu_address s) (session_type s) (state_ s) (timing s) v (last_activity s)
    (session_start s) (callbacks s) (calls s).
Definition set_callbacks (v : list nat) (s : UdsSession) : UdsSession :=
  mkUdsSession (ecu_address s) (session_type s) (state_ s) (timing s) (security s) (last_activity s)
    (session_start s) v (calls s).

Definition emit_event (event : SessionEvent) (s : UdsSession) : UdsSession :=
  mkUdsSession (ecu_address s) (session_type s) (state_ s) (timing s) (security s) (last_activity s)
    (session_start s) (callbacks s) (calls s ++ map (fun callback => (callback, event)) (callbacks s)).

Definition update_activity (now : Z) (s : UdsSession) : UdsSession :=
  mkUdsSession (ecu_address s) (session_type s) (state_ s) (timing s) (security s) now
    (session_start s) (callbacks s) (calls s).

Definition reset_internal (now : Z) (s : UdsSession) : UdsSession :=
  emit_event SessionEnded
    (mkUdsSession (ecu_address s) DefaultSession Idle default_values (security_reset (security s)) now
       (session_start s) (callbacks s) (calls s)).

Definition transition_to_session (now new_type : Z) (s : UdsSession) : UdsSession :=
  mkUdsSession (ecu_address s) new_type Active
    (if new_type =? ProgrammingSession then programming_values else timing s)
    (if negb (session_type s =? new_type) then security_reset (security s) else security s)
    (last_activity s) now (callbacks s) (calls s).

(** [p2_star_ms]: the response carries units of 10 ms. *)
Definition p2_star_ms (p2_star : Z) : Z := uint 32 (p2_star * 10).

Definition handle_diagnostic_session_control_response (now t p2 p2_star : Z) (s : UdsSession) : UdsSession :=
  let s1 := transition_to_session now t s in
  let t1 := if 0 <? p2
            then mkTimingParameters p2 (p2_star_server_max (timing s1)) (s3_server (timing s1)) else timing s1 in
  let t2 := if 0 <? p2_star
            then mkTimingParameters (p2_server_max t1) (p2_star_ms p2_star) (s3_server t1) else t1 in
  let s2 := set_timing t2 s1 in
  if decide (state_ s = Idle) then emit_event SessionStarted s2
  else if negb (session_type s =? t) then emit_event SessionChanged s2
  else s2.

Definition handle_security_access_response (access_type : Z) (s : UdsSession) : UdsSession :=
  if negb (Z.land access_type 0x01 =? 0) then s
  else emit_event SecurityUnlocked (set_security (key_accepted (get_security_level access_type) (security s)) s).

Definition handle_tester_present (now : Z) (s : UdsSession) : UdsSession :=
  emit_event TesterPresentReceived (update_activity now s).

Definition handle_ecu_reset (now : Z) (s : UdsSession) : UdsSession := reset_internal now s.

Definition handle_negative_response (rejected nrc : Z) (s : UdsSession) : UdsSession :=
  if nrc =? RequestCorrectlyReceivedResponsePending then emit_event ResponsePending s
  else if (rejected =? SecurityAccess) && ((nrc =? InvalidKey) || (nrc =? ExceededNumberOfAttempts))
  then emit_event SecurityLocked s
  else s.

Definition process_decoded (now : Z) (h : UdsHeader) (m : UdsServiceMessage) (is_request : bool)
    (s : UdsSession) : UdsSession :=
  let s := update_activity now s in
  match direction h with
  | NegativeResponse =>
      match m with NegativeResponseMessage rejected nrc => handle_negative_response rejected nrc s | _ => s end
  | _ =>
      if service_id h =? DiagnosticSessionControl then
        match m, is_request with
        | DiagnosticSessionControlResponse t p2 p2_star, false =>
            handle_diagnostic_session_control_response now t p2 p2_star s
        | _, _ => s
        end
      else if service_id h =? SecurityAccess then
        match m, is_request with
        | SecurityAccessResponse t _, false => handle_security_access_response t s
        | _, _ => s
        end
      else if service_id h =? TesterPresent then handle_tester_present now s
      else if service_id h =? ECUReset then
        match m, is_request with
        | ECUResetRequest _ _, true => handle_ecu_reset now s
        | _, _ => s
        end
      else s
  end.

(** The result is the boolean returned and the new session. *)
Definition process_message (now : Z) (d : list byte) (is_request : bool) (s : UdsSession) :
    uds (bool * UdsSession) :=
  match decode d with
  | Done r => Done (true, process_decoded now (header r) (message r) is_request s)
  | Fail _ => Done (false, s)
  | Undef => Undef
  end.

(** Queries *)
Definition is_timed_out (now : Z) (s : UdsSession) : bool :=
  if decide (state_ s = Idle) then false
  else s3_server (timing s) * MILLISECOND <? now - last_activity s.

Definition state (now : Z) (s : UdsSession) : SessionState :=
  if is_timed_out now s then TimedOut else state_ s.

Definition is_active (now : Z) (s : UdsSession) : bool :=
  bool_decide (state_ s = Active) && negb (is_timed_out now s).

Definition time_since_activity (now : Z) (s : UdsSession) : Z := Z.quot (now - last_activity s) MILLISECOND.

Definition timeout_remaining (now : Z) (s : UdsSession) : Z :=
  if decide (state_ s = Idle) then 2 ^ 63 - 1
  else
    let elapsed_ms := Z.quot (now - last_activity s) MILLISECOND in
    if s3_server (timing s) <=? elapsed_ms then 0 else s3_server (timing s) - elapsed_ms.

Definition is_security_unlocked (now : Z) (s : UdsSession) (l : Z) : bool := is_unlocked now (security s) l.
Definition highest_security_level (now : Z) (s : UdsSession) : Z := highest_unlocked_level now (security s).

(** Control *)
Definition update_timing (params : TimingParameters) (s : UdsSession) : UdsSession := set_timing params s.
Definition on_event (callback : nat) (s : UdsSession) : UdsSession := set_callbacks (callbacks s ++ [callback]) s.
Definition clear_callbacks (s : UdsSession) : UdsSession := set_callbacks [] s.
Definition reset (now : Z) (s : UdsSession) : UdsSession := reset_internal now s.
Definition refresh_timeout (now : Z) (s : UdsSession) : UdsSession :=
  emit_event TesterPresentReceived (update_activity now s).
Definition force_session_type (now t : Z) (s : UdsSession) : UdsSession := transition_to_session now t s.

(** ** The table of trackers *)

Record UdsSessionManager := mkUdsSessionManager {
  sessions : gmap Z UdsSession;
  global_callbacks : list nat
}.
Definition new_manager : UdsSessionManager := mkUdsSessionManager ∅ [].

(** The session at the address, and the table in which it is. *)
Definition get_session (now address : Z) (m : UdsSessionManager) : UdsSession * UdsSessionManager :=
  match sessions m !! address with
  | Some s => (s, m)
  | None =>
      let s := foldl (fun s callback => on_event callback s) (new_session now address) (global_callbacks m) in
      (s, mkUdsSessionManager (<[address := s]> (sessions m)) (global_callbacks m))
  end.

Definition has_session (address : Z) (m : UdsSessionManager) : bool := bool_decide (is_Some (sessions m !! address)).

Definition manager_process_message (now address : Z) (d : list byte) (is_request : bool)
    (m : UdsSessionManager) : uds (bool * UdsSessionManager) :=
  let '(s, m) := get_session now address m in
  '(ok, s') ← process_message now d is_request s;
  Done (ok, mkUdsSessionManager (<[address := s']> (sessions m)) (global_callbacks m)).

Definition active_sessions (now : Z) (m : UdsSessionManager) : list Z :=
  (filter (fun p => is_active now p.2 = true) (map_to_list (sessions m))).*1.

Definition reset_all (now : Z) (m : UdsSessionManager) : UdsSessionManager :=
  mkUdsSessionManager (reset now <$> sessions m) (global_callbacks m).

Definition remove_session (address : Z) (m : UdsSessionManager) : UdsSessionManager :=
  mkUdsSessionManager (delete address (sessions m)) (global_callbacks m).

Definition manager_on_event (callback : nat) (m : UdsSessionManager) : UdsSessionManager :=
  mkUdsSessionManager (on_event callback <$> sessions m) (global_callbacks m ++ [callback]).

(** ** Histories of a tracker *)

Inductive SessionOp :=
| ProcessMessage (d : list byte) (is_request : bool)
| UpdateTiming (params : TimingParameters)
| OnEvent (callback : nat)
| ClearCallbacks
| Reset
| RefreshTimeout
| ForceSessionType (t : Z).

Definition step (now : Z) (op : SessionOp) (s : UdsSession) : uds UdsSession :=
  match op with
  | ProcessMessage d is_request => '(_, s') ← process_message now d is_request s; Done s'
  | UpdateTiming params => Done (update_timing params s)
  | OnEvent callback => Done (on_event callback s)
  | ClearCallbacks => Done (clear_callbacks s)
  | Reset => Done (reset now s)
  | RefreshTimeout => Done (refresh_timeout now s)
  | ForceSessionType t => Done (force_session_type now t s)
  end.

Fixpoint run (history : list (Z * SessionOp)) (s : UdsSession) : uds UdsSession :=
  match history with
  | [] => Done s
  | (now, op) :: history' => s' ← step now op s; run history' s'
  end.

(** ** What the bytes of a message mean to the tracker

    The specification reads the message itself: no decoder, no headers. *)

Inductive Meaning :=
| Granted (t p2 p2_star : Z)     (* positive response to DiagnosticSessionControl *)
| KeyOk (l : Z)                  (* positive response to sendKey *)
| KeepAlive                      (* TesterPresent, request or response *)
| ResetRequested                 (* ECUReset request *)
| Pending                        (* requestCorrectlyReceivedResponsePending *)
| KeyRefused                     (* invalidKey or exceededNumberOfAttempts *)
| Other.

(** [None]: not a UDS message. *)
Definition meaning (d : list byte) (is_request : bool) : option Meaning :=
  match d with
  | [] => None
  | sid :: rest =>
      if u8 sid =? 0x7F then
        match rest with
        | rejected :: nrc :: _ =>
            Some (if u8 nrc =? 0x78 then Pending
                  else if (u8 rejected =? 0x27) && ((u8 nrc =? 0x35) || (u8 nrc =? 0x36)) then KeyRefused
                  else Other)
        | _ => None
        end
      else Some
        match rest with
        | t :: rest' =>
            if (u8 sid =? 0x50) && negb is_request then
              match rest' with
              | p0 :: p1 :: q0 :: q1 :: _ => Granted (u8 t) (u8 p0 * 256 + u8 p1) (u8 q0 * 256 + u8 q1)
              | _ => Granted (u8 t) 0 0
              end
            else if (u8 sid =? 0x67) && negb is_request then
              if Z.even (u8 t) then KeyOk (u8 t / 2) else Other
            else if (u8 sid =? 0x11) && is_request then ResetRequested
            else if (u8 sid =? 0x3E) || (u8 sid =? 0x7E) then KeepAlive else Other
        | [] => if (u8 sid =? 0x3E) || (u8 sid =? 0x7E) then KeepAlive else Other
        end
  end.

(** The handler that each meaning reaches. *)
Definition handle (now : Z) (m : Meaning) (s : UdsSession) : UdsSession :=
  match m with
  | Granted t p2 p2_star => handle_diagnostic_session_control_response now t p2 p2_star s
  | KeyOk l => emit_event SecurityUnlocked (set_security (key_accepted l (security s)) s)
  | KeepAlive => handle_tester_present now s
  | ResetRequested => handle_ecu_reset now s
  | Pending => emit_event ResponsePending s
  | KeyRefused => emit_event SecurityLocked s
  | Other => s
  end.

Lemma send_key_level t :
  0 <= t < 256 ->
  (Z.land t 0x01 =? 0) = Z.even t /\ (Z.even t = true -> get_security_level t = t / 2).
Proof.
  intros Ht.
  assert (Hall : forallb (fun n => let t := Z.of_nat n in
     eqb (Z.land t 0x01 =? 0) (Z.even t) && (negb (Z.even t) || (get_security_level t =? t / 2))) (seq 0 256) = true)
    by (vm_compute; reflexivity).
  rewrite forallb_forall in Hall. specialize (Hall (Z.to_nat t) ltac:(apply in_seq; lia)).
  cbv zeta in Hall. rewrite Z2Nat.id in Hall by lia. apply andb_prop in Hall as [H1 H2].
  split; [apply eqb_prop, H1|]. intros He. rewrite He in H2. apply Z.eqb_eq, H2.
Qed.

Lemma read_be16_bytes d i p0 p1 post :
  0 <= i -> drop (Z.to_nat i) d = p0 :: p1 :: post -> read_be16 d i = Done (u8 p0 * 256 + u8 p1).
Proof.
  intros Hi Hd. change (u8 p0 * 256 + u8 p1) with (ByteOrder.be16 p0 p1).
  apply (read_be16_drop d i _ post Hi); [|apply ByteOrder.be16_fits].
  rewrite ByteOrder.write_be16_be16. exact Hd.
Qed.

Lemma session_response_granted b t rest :
  parse_diagnostic_session_control_response (b :: t :: rest) =
  Done match rest with
       | p0 :: p1 :: q0 :: q1 :: _ =>
           DiagnosticSessionControlResponse (u8 t) (u8 p0 * 256 + u8 p1) (u8 q0 * 256 + u8 q1)
       | _ => DiagnosticSessionControlResponse (u8 t) 0 0
       end.
Proof.
  unfold parse_diagnostic_session_control_response.
  rewrite (proj2 (Z.ltb_ge _ 2)), byte_at_1, bind_Done by (cbn [length]; lia).
  destruct rest as [|p0 [|p1 [|q0 [|q1 rest]]]]; try reflexivity.
  rewrite (proj2 (Z.leb_le 6 _)) by (cbn [length]; lia).
  rewrite (read_be16_bytes _ 2 p0 p1 (q0 :: q1 :: rest)), (read_be16_bytes _ 4 q0 q1 rest) by (lia || reflexivity).
  reflexivity.
Qed.

Lemma decode_request_exact b d :
  (u8 b =? NEGATIVE_RESPONSE_SID) = false -> Z.land (u8 b) 0x40 = 0 ->
  exists h m, decode (b :: d) = Done (mkUdsDecodeResult h m) /\ direction h = Request /\
              service_id h = u8 b /\ request_message (u8 b) (b :: d) = Done m.
Proof.
  intros Hn Hl. destruct (request_message_total (u8 b) (b :: d)) as [m Hm]; [cbn [length]; lia|].
  destruct (decode_request_message b d m Hn Hl Hm) as (h & Hd & Hdir & Hs). eauto 10.
Qed.

Lemma decode_response_exact b d :
  (u8 b =? NEGATIVE_RESPONSE_SID) = false -> Z.land (u8 b) 0x40 <> 0 ->
  exists h m, decode (b :: d) = Done (mkUdsDecodeResult h m) /\ direction h = PositiveResponse /\
              service_id h = uint 8 (u8 b - RESPONSE_SID_OFFSET) /\
              response_message (uint 8 (u8 b - RESPONSE_SID_OFFSET)) (b :: d) = Done m.
Proof.
  intros Hn Hl. destruct (response_message_total (uint 8 (u8 b - RESPONSE_SID_OFFSET)) (b :: d)) as [m Hm];
    [cbn [length]; lia|].
  destruct (decode_response_message b d m Hn Hl Hm) as (h & Hd & Hdir & Hs). eauto 10.
Qed.

Lemma parse_negative_response_exact rejected nrc rest :
  exists h, decode (x7f :: rejected :: nrc :: rest) =
              Done (mkUdsDecodeResult h (NegativeResponseMessage (u8 rejected) (u8 nrc))) /\
            direction h = NegativeResponse.
Proof.
  unfold decode, MIN_MESSAGE_SIZE. rewrite zlen_cons_ltb, byte_at_0, bind_Done. cbn [Z.eqb].
  change (_ =? NEGATIVE_RESPONSE_SID) with true. cbn match. unfold parse_negative_response.
  rewrite (proj2 (Z.ltb_ge _ 3)) by (cbn [length]; lia).
  change (byte_at _ 1) with (Done (E:=UdsDecodeError) (u8 rejected)).
  change (byte_at _ 2) with (Done (E:=UdsDecodeError) (u8 nrc)).
  rewrite !bind_Done, Decoder.subspan_in, bind_Done by (cbn [length]; lia). eexists. split; reflexivity.
Qed.

Section meaning.
Context (now : Z) (is_request : bool) (s : UdsSession).

(** What a decoded message does to the session. *)
Definition outcome (d : list byte) (m : Meaning) : Prop :=
  process_message now d is_request s = Done (true, handle now m (update_activity now s)).

Lemma outcome_decoded d h m mng :
  decode d = Done (mkUdsDecodeResult h m) ->
  process_decoded now h m is_request s = handle now mng (update_activity now s) -> outcome d mng.
Proof. intros Hd Hp. unfold outcome, process_message. rewrite Hd. cbn [header message]. rewrite Hp. reflexivity. Qed.

(** A service that the tracker ignores. *)
Lemma process_decoded_other h m :
  direction h <> NegativeResponse ->
  service_id h ∉ [DiagnosticSessionControl; SecurityAccess; TesterPresent; ECUReset] ->
  process_decoded now h m is_request s = update_activity now s.
Proof.
  intros Hd Hs. rewrite !not_elem_of_cons in Hs. destruct Hs as (H1 & H2 & H3 & H4 & _).
  apply Z.eqb_neq in H1, H2, H3, H4. unfold process_decoded. rewrite H1, H2, H3, H4.
  destruct (direction h); reflexivity || contradiction.
Qed.

Ltac via_request Hm :=
  match goal with
  | |- outcome (?b :: ?d) _ =>
      destruct (decode_request_exact b d eq_refl eq_refl) as (h & m & Hdec & Hdir & Hsid & Hm);
      apply (outcome_decoded _ _ _ _ Hdec); unfold process_decoded; rewrite Hdir, Hsid; cbv zeta
  end.
Ltac via_response Hm :=
  match goal with
  | |- outcome (?b :: ?d) _ =>
      destruct (decode_response_exact b d eq_refl ltac:(discriminate)) as (h & m & Hdec & Hdir & Hsid & Hm);
      apply (outcome_decoded _ _ _ _ Hdec); unfold process_decoded; rewrite Hdir, Hsid; cbv zeta
  end.

Lemma outcome_granted t rest :
  is_request = false ->
  outcome (x50 :: t :: rest)
    match rest with
    | p0 :: p1 :: q0 :: q1 :: _ => Granted (u8 t) (u8 p0 * 256 + u8 p1) (u8 q0 * 256 + u8 q1)
    | _ => Granted (u8 t) 0 0
    end.
Proof.
  intros Hr. via_response Hm. change (parse_diagnostic_session_control_response (x50 :: t :: rest) = Done m) in Hm.
  rewrite session_response_granted in Hm. apply Done_inj in Hm as <-. cbn match. rewrite Hr.
  destruct rest as [|p0 [|p1 [|q0 [|q1 rest]]]]; reflexivity.
Qed.

Lemma outcome_key t rest :
  is_request = false -> outcome (x67 :: t :: rest) (if Z.even (u8 t) then KeyOk (u8 t / 2) else Other).
Proof.
  intros Hr. via_response Hm. change (parse_security_access_response (x67 :: t :: rest) = Done m) in Hm.
  unfold parse_security_access_response in Hm.
  rewrite (proj2 (Z.ltb_ge _ 2)), byte_at_1, bind_Done in Hm by (cbn [length]; lia).
  assert (exists seed, m = SecurityAccessResponse (u8 t) seed) as [seed ->].
  { destruct (negb _); [apply bind_inv in Hm as (seed & _ & Hm)|]; apply Done_inj in Hm as <-; eauto. }
  cbn match. rewrite Hr. cbn match. unfold handle_security_access_response.
  destruct (send_key_level (u8 t) (u8_range t)) as [-> Hl].
  destruct (Z.even (u8 t)); cbn [negb handle]; [rewrite Hl by reflexivity|]; reflexivity.
Qed.

(** The message is one that a session does not react to, whatever it holds. *)
Ltac message_kinds Hm :=
  repeat match type of Hm with
  | (if ?b then _ else _) = Done _ => destruct b
  | (_ ≫= _) = Done _ => apply bind_inv in Hm as (? & _ & Hm)
  end;
  apply Done_inj in Hm as <-; cbn match; destruct is_request; reflexivity || discriminate.

Lemma outcome_session_request d : outcome (x10 :: d) Other.
Proof.
  via_request Hm. change (parse_diagnostic_session_control_request (x10 :: d) = Done m) in Hm.
  unfold parse_diagnostic_session_control_request in Hm. message_kinds Hm.
Qed.

Lemma outcome_session_response d : is_request = true \/ d = [] -> outcome (x50 :: d) Other.
Proof.
  intros Hd. via_response Hm. change (parse_diagnostic_session_control_response (x50 :: d) = Done m) in Hm.
  destruct Hd as [Hr | ->].
  - unfold parse_diagnostic_session_control_response in Hm. rewrite Hr in *. destruct m; reflexivity.
  - apply Done_inj in Hm as <-. reflexivity.
Qed.

Lemma outcome_security_request d : outcome (x27 :: d) Other.
Proof.
  via_request Hm. change (parse_security_access_request (x27 :: d) = Done m) in Hm.
  unfold parse_security_access_request in Hm. message_kinds Hm.
Qed.

Lemma outcome_security_response d : is_request = true \/ d = [] -> outcome (x67 :: d) Other.
Proof.
  intros Hd. via_response Hm. change (parse_security_access_response (x67 :: d) = Done m) in Hm.
  destruct Hd as [Hr | ->].
  - rewrite Hr. destruct m; reflexivity.
  - apply Done_inj in Hm as <-. reflexivity.
Qed.

Lemma outcome_tester_present b d : b = x3e \/ b = x7e -> outcome (b :: d) KeepAlive.
Proof. intros [-> | ->]; [via_request Hm | via_response Hm]; reflexivity. Qed.

Lemma outcome_reset_request t rest : is_request = true -> outcome (x11 :: t :: rest) ResetRequested.
Proof.
  intros Hr. via_request Hm. change (parse_ecu_reset_request (x11 :: t :: rest) = Done m) in Hm.
  unfold parse_ecu_reset_request in Hm.
  rewrite (proj2 (Z.ltb_ge _ 2)), byte_at_1, bind_Done in Hm by (cbn [length]; lia).
  apply Done_inj in Hm as <-. rewrite Hr. reflexivity.
Qed.

Lemma outcome_reset_ignored d : is_request = false \/ d = [] -> outcome (x11 :: d) Other.
Proof.
  intros Hd. via_request Hm. change (parse_ecu_reset_request (x11 :: d) = Done m) in Hm.
  destruct Hd as [Hr | ->].
  - rewrite Hr. destruct m; reflexivity.
  - apply Done_inj in Hm as <-. reflexivity.
Qed.

Lemma outcome_reset_response d : outcome (x51 :: d) Other.
Proof.
  via_response Hm. change (parse_ecu_reset_response (x51 :: d) = Done m) in Hm.
  unfold parse_ecu_reset_response in Hm. message_kinds Hm.
Qed.

Lemma outcome_other b d :
  u8 b ∉ [0x7F; 0x10; 0x50; 0x27; 0x67; 0x3E; 0x7E; 0x11; 0x51] -> outcome (b :: d) Other.
Proof.
  rewrite !not_elem_of_cons. intros (Hn & H10 & H50 & H27 & H67 & H3E & H7E & H11 & H51 & _).
  apply Z.eqb_neq in Hn.
  destruct (Z.eq_dec (Z.land (u8 b) 0x40) 0) as [Hl|Hl].
  - destruct (decode_request_exact b d Hn Hl) as (h & m & Hdec & Hdir & Hsid & _).
    apply (outcome_decoded _ _ _ _ Hdec), process_decoded_other; [rewrite Hdir; discriminate|].
    rewrite Hsid, !not_elem_of_cons. split_and!; assumption || apply not_elem_of_nil.
  - destruct (decode_response_exact b d Hn Hl) as (h & m & Hdec & Hdir & Hsid & _).
    apply (outcome_decoded _ _ _ _ Hdec), process_decoded_other; [rewrite Hdir; discriminate|].
    pose proof (positive_sid b Hl) as Hp. rewrite Hsid, !not_elem_of_cons. unfold RESPONSE_SID_OFFSET.
    unfold DiagnosticSessionControl, SecurityAccess, TesterPresent, ECUReset.
    split_and!; lia || apply not_elem_of_nil.
Qed.

Lemma outcome_negative rejected nrc rest :
  outcome (x7f :: rejected :: nrc :: rest)
    (if u8 nrc =? 0x78 then Pending
     else if (u8 rejected =? 0x27) && ((u8 nrc =? 0x35) || (u8 nrc =? 0x36)) then KeyRefused else Other).
Proof.
  destruct (parse_negative_response_exact rejected nrc rest) as (h & Hdec & Hdir).
  apply (outcome_decoded _ _ _ _ Hdec). unfold process_decoded. rewrite Hdir.
  unfold handle_negative_response, RequestCorrectlyReceivedResponsePending, SecurityAccess, InvalidKey,
    ExceededNumberOfAttempts.
  repeat case_step; reflexivity || discriminate.
Qed.
End meaning.

(** The tracker does to the session what the message means. *)
Lemma process_message_meaning now d is_request s :
  process_message now d is_request s =
  Done match meaning d is_request with
       | None => (false, s)
       | Some m => (true, handle now m (update_activity now s))
       end.
Proof.
  destruct d as [|b d]; [reflexivity|]. cbn [meaning].
  destruct (u8 b =? 0x7F) eqn:E7F; [apply Z.eqb_eq in E7F; change 0x7F with (u8 x7f) in E7F; apply u8_inj in E7F as ->|].
  { destruct d as [|rejected [|nrc d]]; [reflexivity | reflexivity | apply outcome_negative]. }
  destruct (decide (u8 b ∈ [0x10; 0x50; 0x27; 0x67; 0x3E; 0x7E; 0x11; 0x51])) as [Hin|Hout].
  - rewrite !elem_of_cons in Hin.
    destruct Hin as [Hb|[Hb|[Hb|[Hb|[Hb|[Hb|[Hb|[Hb|Hb]]]]]]]];
      [change 0x10 with (u8 x10) in Hb | change 0x50 with (u8 x50) in Hb | change 0x27 with (u8 x27) in Hb
      |change 0x67 with (u8 x67) in Hb | change 0x3E with (u8 x3e) in Hb | change 0x7E with (u8 x7e) in Hb
      |change 0x11 with (u8 x11) in Hb | change 0x51 with (u8 x51) in Hb | inversion Hb];
      apply u8_inj in Hb as ->; clear E7F; cbn match.
    + destruct d; apply outcome_session_request.
    + destruct d as [|t d]; [apply outcome_session_response; auto|].
      destruct is_request; [apply outcome_session_response; auto | apply outcome_granted; reflexivity].
    + destruct d; apply outcome_security_request.
    + destruct d as [|t d]; [apply outcome_security_response; auto|].
      destruct is_request; [apply outcome_security_response; auto | apply outcome_key; reflexivity].
    + destruct d; apply outcome_tester_present; auto.
    + destruct d; apply outcome_tester_present; auto.
    + destruct d as [|t d]; [apply outcome_reset_ignored; auto|].
      destruct is_request; [apply outcome_reset_request; reflexivity | apply outcome_reset_ignored; auto].
    + destruct d; apply outcome_reset_response.
  - rewrite !not_elem_of_cons in Hout. destruct Hout as (H10 & H50 & H27 & H67 & H3E & H7E & H11 & H51 & _).
    apply Z.eqb_neq in H50, H67, H3E, H7E, H11. rewrite H50, H67, H3E, H7E, H11.
    destruct d; apply outcome_other; rewrite !not_elem_of_cons; bool_to_prop;
      split_and!; assumption || apply not_elem_of_nil.
Qed.

(** ** The specification of a tracker

    What a tracker knows, as a function of the history: the session type granted
    last, the set of unlocked levels, the timing, the time of the last activity and
    the calls of the callbacks. *)

Record Tracked := mkTracked {
  tr_type : Z;
  tr_active : bool;
  tr_unlocked : gset Z;
  tr_timing : TimingParameters;
  tr_last : Z;
  tr_callbacks : list nat;
  tr_calls : list (nat * SessionEvent)
}.

Definition tracked_init (t0 : Z) : Tracked := mkTracked DefaultSession false ∅ default_values t0 [] [].

Definition notify (event : SessionEvent) (k : Tracked) : Tracked :=
  mkTracked (tr_type k) (tr_active k) (tr_unlocked k) (tr_timing k) (tr_last k) (tr_callbacks k)
    (tr_calls k ++ map (fun callback => (callback, event)) (tr_callbacks k)).

(** A session of another type locks every level. *)
Definition enter (t : Z) (k : Tracked) : Tracked :=
  mkTracked t true (if decide (tr_type k = t) then tr_unlocked k else ∅)
    (if decide (t = ProgrammingSession) then programming_values else tr_timing k)
    (tr_last k) (tr_callbacks k) (tr_calls k).

Definition granted_timing (p2 p2_star : Z) (t : TimingParameters) : TimingParameters :=
  mkTimingParameters (if 0 <? p2 then p2 else p2_server_max t)
    (if 0 <? p2_star then p2_star_ms p2_star else p2_star_server_max t) (s3_server t).

Definition with_timing (t : TimingParameters) (k : Tracked) : Tracked :=
  mkTracked (tr_type k) (tr_active k) (tr_unlocked k) t (tr_last k) (tr_callbacks k) (tr_calls k).
Definition with_unlocked (u : gset Z) (k : Tracked) : Tracked :=
  mkTracked (tr_type k) (tr_active k) u (tr_timing k) (tr_last k) (tr_callbacks k) (tr_calls k).
Definition with_last (now : Z) (k : Tracked) : Tracked :=
  mkTracked (tr_type k) (tr_active k) (tr_unlocked k) (tr_timing k) now (tr_callbacks k) (tr_calls k).
Definition with_callbacks (l : list nat) (k : Tracked) : Tracked :=
  mkTracked (tr_type k) (tr_active k) (tr_unlocked k) (tr_timing k) (tr_last k) l (tr_calls k).

Definition ended (now : Z) (k : Tracked) : Tracked :=
  notify SessionEnded (mkTracked DefaultSession false ∅ default_values now (tr_callbacks k) (tr_calls k)).

Definition learn (now : Z) (m : Meaning) (k : Tracked) : Tracked :=
  match m with
  | Granted t p2 p2_star =>
      let k' := enter t k in
      let k'' := with_timing (granted_timing p2 p2_star (tr_timing k')) k' in
      if negb (tr_active k) then notify SessionStarted k''
      else if decide (tr_type k = t) then k'' else notify SessionChanged k''
  | KeyOk l => notify SecurityUnlocked (with_unlocked ({[l]} ∪ tr_unlocked k) k)
  | KeepAlive => notify TesterPresentReceived k
  | ResetRequested => ended now k
  | Pending => notify ResponsePending k
  | KeyRefused => notify SecurityLocked k
  | Other => k
  end.

Definition spec_step (now : Z) (op : SessionOp) (k : Tracked) : Tracked :=
  match op with
  | ProcessMessage d is_request =>
      match meaning d is_request with
      | Some m => learn now m (with_last now k)
      | None => k
      end
  | UpdateTiming params => with_timing params k
  | OnEvent callback => with_callbacks (tr_callbacks k ++ [callback]) k
  | ClearCallbacks => with_callbacks [] k
  | Reset => ended now k
  | RefreshTimeout => notify TesterPresentReceived (with_last now k)
  | ForceSessionType t => enter t k
  end.

Fixpoint spec_run (history : list (Z * SessionOp)) (k : Tracked) : Tracked :=
  match history with
  | [] => k
  | (now, op) :: history' => spec_run history' (spec_step now op k)
  end.

(** The levels hold the unlocked set, and none has ever been locked out. *)
Definition holds_unlocked (levels : SecurityState) (u : gset Z) : Prop :=
  forall l, match levels !! l with
            | Some st => lockout_until st = None /\ unlocked st = bool_decide (l ∈ u)
            | None => l ∉ u
            end.

Record tracks (s : UdsSession) (k : Tracked) : Prop := {
  tk_type : session_type s = tr_type k;
  tk_state : state_ s = if tr_active k then Active else Idle;
  tk_security : holds_unlocked (security s) (tr_unlocked k);
  tk_timing : timing s = tr_timing k;
  tk_last : last_activity s = tr_last k;
  tk_callbacks : callbacks s = tr_callbacks k;
  tk_calls : calls s = tr_calls k
}.

Section security.
Implicit Types (levels : SecurityState) (u : gset Z).

Lemma holds_empty : holds_unlocked ∅ ∅.
Proof. intros l. rewrite lookup_empty. set_solver. Qed.

Lemma holds_reset levels u : holds_unlocked levels u -> holds_unlocked (security_reset levels) ∅.
Proof.
  intros H l. specialize (H l). unfold security_reset. rewrite lookup_fmap.
  destruct (levels !! l) as [st|]; cbn; [|apply not_elem_of_empty].
  split; [apply H|]. symmetry. apply bool_decide_eq_false, not_elem_of_empty.
Qed.

Lemma holds_key_accepted levels u l :
  holds_unlocked levels u -> holds_unlocked (key_accepted l levels) ({[l]} ∪ u).
Proof.
  intros H l'. unfold key_accepted. destruct (decide (l = l')) as [<-|Hne].
  - rewrite lookup_insert_eq. cbn. split; [reflexivity|]. symmetry. apply bool_decide_eq_true, elem_of_union_l, elem_of_singleton_2. reflexivity.
  - rewrite lookup_insert_ne by exact Hne. specialize (H l').
    destruct (levels !! l') as [st|]; [|rewrite elem_of_union, elem_of_singleton; intros [-> | Hu]; contradiction].
    destruct H as [H1 H2]. split; [exact H1|]. rewrite H2. apply bool_decide_ext. rewrite elem_of_union, elem_of_singleton.
    split; [auto | intros [-> | Hu]; [contradiction | exact Hu]].
Qed.

Lemma holds_level_unlocked levels u now l st :
  holds_unlocked levels u -> levels !! l = Some st -> level_unlocked now st = bool_decide (l ∈ u).
Proof.
  intros H Hl. specialize (H l). rewrite Hl in H. destruct H as [H1 H2].
  unfold level_unlocked, level_locked_out. rewrite H1, H2. apply andb_true_r.
Qed.

Lemma holds_is_unlocked levels u now l :
  holds_unlocked levels u -> is_unlocked now levels l = bool_decide (l ∈ u).
Proof.
  intros H. unfold is_unlocked. destruct (levels !! l) as [st|] eqn:E.
  - exact (holds_level_unlocked _ _ _ _ _ H E).
  - symmetry. apply bool_decide_eq_false. specialize (H l). rewrite E in H. exact H.
Qed.

(** [highest_unlocked_level] is the greatest unlocked level above 0, or 0. *)
Lemma highest_unlocked_spec levels now :
  let highest := highest_unlocked_level now levels in
  0 <= highest /\
  (forall l st, levels !! l = Some st -> level_unlocked now st = true -> l <= highest) /\
  (highest = 0 \/ exists st, levels !! highest = Some st /\ level_unlocked now st = true).
Proof.
  cbv zeta. unfold highest_unlocked_level.
  apply (map_fold_weak_ind (fun h m => 0 <= h /\
    (forall l st, m !! l = Some st -> level_unlocked now st = true -> l <= h) /\
    (h = 0 \/ exists st, m !! h = Some st /\ level_unlocked now st = true))).
  - split_and!; [lia | intros l st H; rewrite lookup_empty in H; discriminate | auto].
  - intros l st m h Hl (H0 & Hle & Hh).
    destruct (level_unlocked now st && (h <? l)) eqn:E; bool_to_prop; split_and!; try lia.
    + intros l' st'. destruct (decide (l = l')) as [<-|Hne]; [lia|].
      rewrite lookup_insert_ne by exact Hne. intros Hl' Hu. specialize (Hle l' st' Hl' Hu). lia.
    + right. exists st. rewrite lookup_insert_eq. auto.
    + intros l' st'. destruct (decide (l = l')) as [<-|Hne].
      * rewrite lookup_insert_eq. intros [= <-] Hu. destruct E as [E|E]; [congruence|]. apply Z.ltb_ge in E. exact E.
      * rewrite lookup_insert_ne by exact Hne. apply Hle.
    + destruct Hh as [->|(st' & Hs & Hu)]; [left; reflexivity|]. right. exists st'.
      rewrite lookup_insert_ne by congruence. auto.
Qed.
End security.

(** ** The simulation

    One lemma per kind of change of the tracker. *)

Lemma tracks_init t0 address : tracks (new_session t0 address) (tracked_init t0).
Proof. split; try reflexivity. apply holds_empty. Qed.

Lemma tracks_notify s k event : tracks s k -> tracks (emit_event event s) (notify event k).
Proof. intros []. split; cbn; congruence || assumption. Qed.

Lemma tracks_last s k now : tracks s k -> tracks (update_activity now s) (with_last now k).
Proof. intros []. split; cbn; congruence || assumption. Qed.

Lemma tracks_timing s k t : tracks s k -> tracks (set_timing t s) (with_timing t k).
Proof. intros []. split; cbn; congruence || assumption. Qed.

Lemma tracks_callbacks s k l : tracks s k -> tracks (set_callbacks l s) (with_callbacks l k).
Proof. intros []. split; cbn; congruence || assumption. Qed.

Lemma tracks_ended s k now : tracks s k -> tracks (reset_internal now s) (ended now k).
Proof.
  intros H. apply tracks_notify. destruct H.
  split; cbn; try congruence. eapply holds_reset; eassumption.
Qed.

Lemma tracks_enter s k now t : tracks s k -> tracks (transition_to_session now t s) (enter t k).
Proof.
  intros []. unfold transition_to_session, enter. split; cbn; try congruence.
  - rewrite tk_type0. destruct (Z.eqb_spec (tr_type k) t), (decide (tr_type k = t)); try contradiction; cbn;
      [assumption | eapply holds_reset; eassumption].
  - destruct (Z.eqb_spec t ProgrammingSession), (decide (t = ProgrammingSession)); congruence || contradiction.
Qed.

Lemma tracks_key s k l :
  tracks s k -> tracks (set_security (key_accepted l (security s)) s) (with_unlocked ({[l]} ∪ tr_unlocked k) k).
Proof. intros []. split; cbn; try congruence. apply holds_key_accepted. assumption. Qed.

Lemma tracks_granted s k now t p2 p2_star :
  tracks s k ->
  tracks (handle_diagnostic_session_control_response now t p2 p2_star s) (learn now (Granted t p2 p2_star) k).
Proof.
  intros H. pose proof (tracks_enter s k now t H) as He.
  unfold handle_diagnostic_session_control_response. cbv zeta. cbn [learn].
  set (s1 := transition_to_session now t s) in *. set (k1 := enter t k) in *.
  set (t2 := if 0 <? p2_star then _ else _).
  assert (Ht : tracks (set_timing t2 s1) (with_timing (granted_timing p2 p2_star (tr_timing k1)) k1)).
  { replace (granted_timing p2 p2_star (tr_timing k1)) with t2; [apply tracks_timing, He|].
    unfold t2, granted_timing. rewrite (tk_timing _ _ He).
    destruct (0 <? p2), (0 <? p2_star), (tr_timing k1); reflexivity. }
  rewrite (tk_state _ _ H), (tk_type _ _ H).
  destruct (tr_active k); cbn [negb]; (destruct (decide _); [|]); try discriminate; try contradiction.
  - destruct (Z.eqb_spec (tr_type k) t), (decide (tr_type k = t)); try contradiction; cbn [negb];
      [assumption | apply tracks_notify, Ht].
  - apply tracks_notify, Ht.
Qed.

Lemma tracks_learn s k now m : tr_last k = now -> tracks s k -> tracks (handle now m s) (learn now m k).
Proof.
  intros Hnow H. destruct m; cbn [handle learn].
  - apply tracks_granted, H.
  - apply tracks_notify, tracks_key, H.
  - apply tracks_notify. destruct H. split; cbn; congruence || assumption.
  - apply tracks_ended, H.
  - apply tracks_notify, H.
  - apply tracks_notify, H.
  - exact H.
Qed.

Lemma tracks_step s k now op :
  tracks s k -> exists s', step now op s = Done s' /\ tracks s' (spec_step now op k).
Proof.
  intros H. destruct op; cbn [step spec_step]; try (eexists; split; [reflexivity|]).
  - rewrite process_message_meaning. destruct (meaning d is_request); eexists; (split; [reflexivity|]);
      [apply tracks_learn; [reflexivity | apply tracks_last, H] | exact H].
  - apply tracks_timing, H.
  - unfold on_event. rewrite (tk_callbacks _ _ H). apply tracks_callbacks, H.
  - apply tracks_callbacks, H.
  - apply tracks_ended, H.
  - apply tracks_notify, tracks_last, H.
  - apply tracks_enter, H.
Qed.

Lemma tracks_run history s k :
  tracks s k -> exists s', run history s = Done s' /\ tracks s' (spec_run history k).
Proof.
  revert s k. induction history as [|[now op] history IH]; intros s k H; cbn [run spec_run]; [eauto|].
  destruct (tracks_step s k now op H) as (s' & -> & H'). apply IH, H'.
Qed.

Lemma holds_not_locked_out levels u now l : holds_unlocked levels u -> is_locked_out now levels l = false.
Proof.
  intros H. unfold is_locked_out. specialize (H l). destruct (levels !! l) as [st|]; [|reflexivity].
  destruct H as [H _]. unfold level_locked_out. rewrite H. reflexivity.
Qed.

Lemma holds_highest levels u now :
  holds_unlocked levels u ->
  let highest := highest_unlocked_level now levels in
  (forall l, l ∈ u -> l <= highest) /\ (highest = 0 \/ highest ∈ u).
Proof.
  intros H. destruct (highest_unlocked_spec levels now) as (_ & Hle & Hh). cbv zeta in *. split.
  - intros l Hl. pose proof (H l) as Hs. destruct (levels !! l) as [st|] eqn:E; [|contradiction].
    apply (Hle l st E). rewrite (holds_level_unlocked _ _ _ _ _ H E). apply bool_decide_eq_true. exact Hl.
  - destruct Hh as [->|(st & E & Hu)]; [left; reflexivity | right].
    rewrite (holds_level_unlocked _ _ _ _ _ H E) in Hu. apply bool_decide_eq_true in Hu. exact Hu.
Qed.

(** [C11] The tracker of an ECU refines its specification.  After any history of
    messages (given as bytes and decoded by the UDS decoder), callback
    registrations, timing updates, resets and forced session types, the tracker
    has the session type, the timing, the last activity and the callback calls of
    [spec_run], which reads the bytes directly.  A level is reported unlocked
    exactly when it is in the specification's set, the highest level is the
    greatest of the set, and no traffic ever locks a level out. *)
Theorem uds_session_refines (t0 address : Z) (history : list (Z * SessionOp)) :
  let k := spec_run history (tracked_init t0) in
  exists s, run history (new_session t0 address) = Done s /\ tracks s k /\
    forall now,
      (forall l, is_security_unlocked now s l = bool_decide (l ∈ tr_unlocked k) /\
                 is_locked_out now (security s) l = false) /\
      (forall l, l ∈ tr_unlocked k -> l <= highest_security_level now s) /\
      (highest_security_level now s = 0 \/ highest_security_level now s ∈ tr_unlocked k).
Proof.
  cbv zeta. destruct (tracks_run history _ _ (tracks_init t0 address)) as (s & Hr & H).
  exists s. split_and!; [exact Hr | exact H|]. intros now. pose proof (tk_security _ _ H) as Hs. split.
  - intros l. split; [apply holds_is_unlocked, Hs | apply (holds_not_locked_out _ _ _ _ Hs)].
  - apply holds_highest, Hs.
Qed.

(** ** When a level is unlocked *)

(** The operation is the positive response to a sendKey request for the level. *)
Definition unlocks (l : Z) (op : SessionOp) : Prop :=
  exists t rest, op = ProcessMessage (x67 :: t :: rest) false /\ Z.even (u8 t) = true /\ u8 t / 2 = l.

(** The operation locks all levels when the session has type [t]. *)
Definition relocks (t : Z) (op : SessionOp) : bool :=
  match op with
  | Reset => true
  | ForceSessionType t' => negb (t =? t')
  | ProcessMessage (x50 :: t' :: _) false => negb (t =? u8 t')
  | ProcessMessage (x11 :: _ :: _) true => true
  | _ => false
  end.

Definition type_after (t0 : Z) (history : list (Z * SessionOp)) : Z :=
  tr_type (spec_run history (tracked_init t0)).

Lemma spec_run_app h1 h2 k : spec_run (h1 ++ h2) k = spec_run h2 (spec_run h1 k).
Proof. revert k. induction h1 as [|[now op] h1 IH]; intros k; cbn; auto. Qed.

Lemma enter_unlocked l t k : l ∈ tr_unlocked (enter t k) <-> l ∈ tr_unlocked k /\ negb (tr_type k =? t) = false.
Proof.
  unfold enter. cbn. destruct (decide (tr_type k = t)) as [->|Hne].
  - rewrite Z.eqb_refl. tauto.
  - rewrite (proj2 (Z.eqb_neq _ _) Hne). cbn. split; [intros Hl; apply not_elem_of_empty in Hl; contradiction | intros [_ [=]]].
Qed.

Lemma granted_unlocked l now t p2 p2_star k :
  l ∈ tr_unlocked (learn now (Granted t p2 p2_star) k) <-> l ∈ tr_unlocked k /\ negb (tr_type k =? t) = false.
Proof.
  rewrite <- enter_unlocked. cbn [learn]. cbv zeta. destruct (tr_active k); cbn [negb]; [|reflexivity].
  destruct (decide _); reflexivity.
Qed.

Lemma relocks_meaning t d is_request :
  relocks t (ProcessMessage d is_request) =
  match meaning d is_request with
  | Some ResetRequested => true
  | Some (Granted t' _ _) => negb (t =? t')
  | _ => false
  end.
Proof.
  destruct d as [|b d]; [reflexivity|].
  destruct (decide (b = x50)) as [->|H50]; [|destruct (decide (b = x11)) as [->|H11]].
  - destruct is_request, d as [|t' [|p0 [|p1 [|q0 [|q1 d]]]]]; reflexivity.
  - destruct is_request, d; reflexivity.
  - transitivity false; [destruct b; reflexivity || contradiction|].
    assert (E50 : (u8 b =? 0x50) = false) by (apply Z.eqb_neq; intros E; apply H50, u8_inj, E).
    assert (E11 : (u8 b =? 0x11) = false) by (apply Z.eqb_neq; intros E; apply H11, u8_inj, E).
    cbn [meaning]. rewrite E50, E11. cbn [andb]. repeat case_step; try reflexivity; try discriminate; congruence.
Qed.

Lemma unlocks_meaning l d is_request :
  unlocks l (ProcessMessage d is_request) <-> meaning d is_request = Some (KeyOk l).
Proof.
  split.
  - intros (t & rest & [= -> ->] & He & <-). cbn [meaning]. cbn match. rewrite He. reflexivity.
  - destruct d as [|b d]; [discriminate|]. cbn [meaning]. intros H.
    repeat (case_in H; try discriminate H); injection H as <-; bool_to_prop.
    destruct is_request; [discriminate|].
    match goal with E : u8 b = 0x67 |- _ => change 0x67 with (u8 x67) in E; apply u8_inj in E as -> end.
    do 2 eexists. split_and!; [reflexivity | assumption | reflexivity].
Qed.

(** The unlocked set after a message, and after any operation. *)
Lemma unlocked_message l now d is_request k :
  l ∈ tr_unlocked (spec_step now (ProcessMessage d is_request) k) <->
  unlocks l (ProcessMessage d is_request) \/
  l ∈ tr_unlocked k /\ relocks (tr_type k) (ProcessMessage d is_request) = false.
Proof.
  rewrite unlocks_meaning, relocks_meaning. cbn [spec_step].
  destruct (meaning d is_request) as [[t p2 p2_star|l'| | | | |]|].
  - rewrite granted_unlocked. cbn [with_last tr_unlocked tr_type]. split; [auto | intros [[=]|H]; exact H].
  - cbn [learn notify with_unlocked with_last tr_unlocked]. rewrite elem_of_union, elem_of_singleton. split.
    + intros [->|H]; auto.
    + intros [[= ->]|[H _]]; auto.
  - cbn. split; [auto | intros [[=]|[H _]]; exact H].
  - cbn. split; [intros H; apply not_elem_of_empty in H; contradiction | intros [[=]|[_ [=]]]].
  - cbn. split; [auto | intros [[=]|[H _]]; exact H].
  - cbn. split; [auto | intros [[=]|[H _]]; exact H].
  - cbn. split; [auto | intros [[=]|[H _]]; exact H].
  - split; [auto | intros [[=]|[H _]]; exact H].
Qed.

Lemma unlocked_step l now op k :
  l ∈ tr_unlocked (spec_step now op k) <->
  unlocks l op \/ l ∈ tr_unlocked k /\ relocks (tr_type k) op = false.
Proof.
  destruct op as [d is_request|params|callback| | | |t]; [apply unlocked_message|..];
    try (cbn; split; [auto | intros [(? & ? & [=] & _)|[H _]]; exact H]).
  - cbn. split; [intros H; apply not_elem_of_empty in H; contradiction|].
    intros [(? & ? & [=] & _)|[_ [=]]].
  - cbn [spec_step relocks]. rewrite enter_unlocked. split; [auto | intros [(? & ? & [=] & _)|H]; exact H].
Qed.

(** The level was unlocked and no later operation locked it again. *)
Definition unlocked_by (t0 l : Z) (history : list (Z * SessionOp)) : Prop :=
  exists before now op after,
    history = before ++ (now, op) :: after /\ unlocks l op /\
    forall between now' op' rest,
      after = between ++ (now', op') :: rest ->
      relocks (type_after t0 (before ++ (now, op) :: between)) op' = false.

Lemma unlocked_by_snoc t0 l history now op :
  unlocked_by t0 l (history ++ [(now, op)]) <->
  unlocks l op \/ unlocked_by t0 l history /\ relocks (type_after t0 history) op = false.
Proof.
  split.
  - intros (before & now1 & op1 & after & Hh & Hu & Hr).
    destruct after as [|x after] using rev_ind.
    + apply app_inj_tail in Hh as [_ [= <- <-]]. left. exact Hu.
    + clear IHafter. destruct x as [now2 op2].
      rewrite app_comm_cons, app_assoc in Hh. apply app_inj_tail in Hh as [-> [= <- <-]].
      right. split; [|exact (Hr after now op [] eq_refl)].
      exists before, now1, op1, after. split_and!; [reflexivity | exact Hu|].
      intros between now' op' rest ->. apply (Hr between now' op' (rest ++ [(now, op)])).
      rewrite <- app_assoc. reflexivity.
  - intros [Hu|((before & now1 & op1 & after & -> & Hu & Hr) & Hrel)].
    + exists history, now, op, []. split_and!; [reflexivity | exact Hu|].
      intros between now' op' rest H. destruct between; discriminate.
    + exists before, now1, op1, (after ++ [(now, op)]). split_and!; [rewrite <- app_assoc; reflexivity | exact Hu|].
      intros between now' op' rest H. destruct rest as [|x rest _] using rev_ind.
      * apply app_inj_tail in H as [-> [= <- <-]]. exact Hrel.
      * rewrite app_comm_cons, app_assoc in H. apply app_inj_tail in H as [-> _].
        apply (Hr between now' op' rest eq_refl).
Qed.

Lemma spec_unlocked_by t0 l history :
  l ∈ tr_unlocked (spec_run history (tracked_init t0)) <-> unlocked_by t0 l history.
Proof.
  induction history as [|[now op] history IH] using rev_ind.
  - cbn. split; [intros H; apply not_elem_of_empty in H; contradiction|].
    intros (before & ? & ? & ? & H & _). destruct before; discriminate.
  - rewrite spec_run_app. cbn [spec_run]. rewrite unlocked_step, unlocked_by_snoc, IH. reflexivity.
Qed.

(** [C12] A security level is unlocked exactly when the ECU has accepted a key for
    it and nothing has locked it since: some message of the history is a positive
    response [67 t] with [t] even and [t / 2] the level, and no later operation is an
    ECU reset request, a reset of the tracker, or a session of another type than
    the one in force then.  Requests, seeds, refused keys, the passing of time and
    messages seen in the wrong direction never unlock a level nor lock one. *)
Theorem uds_security_history (t0 address now l : Z) (history : list (Z * SessionOp)) :
  exists s, run history (new_session t0 address) = Done s /\
    (is_security_unlocked now s l = true <-> unlocked_by t0 l history).
Proof.
  destruct (tracks_run history _ _ (tracks_init t0 address)) as (s & Hr & H).
  exists s. split; [exact Hr|]. unfold is_security_unlocked.
  rewrite (holds_is_unlocked _ _ now l (tk_security _ _ H)), bool_decide_eq_true. apply spec_unlocked_by.
Qed.

(** ** Timeouts *)

(** The S3 timeout is a matter of the queries alone.  For a session that is
    not idle, at a time at or after its last activity: it is timed out exactly when
    more than S3 has passed, [state] and [is_active] agree with that, and
    [timeout_remaining] counts whole milliseconds down to 0, which it reaches at S3
    itself, when the session is not yet timed out.  An idle session never times out.
    A timeout changes nothing: the security levels stay unlocked, and the next
    TesterPresent, however late, makes the session active again with its type and
    levels. *)
Theorem uds_timeout (s : UdsSession) (now : Z) :
  last_activity s <= now -> 0 <= s3_server (timing s) -> state_ s <> TimedOut ->
  let elapsed := now - last_activity s in
  let s3 := s3_server (timing s) * MILLISECOND in
  is_timed_out now s = bool_decide (state_ s <> Idle /\ s3 < elapsed) /\
  state now s = (if decide (state_ s <> Idle /\ s3 < elapsed) then TimedOut else state_ s) /\
  is_active now s = bool_decide (state now s = Active) /\
  (state_ s <> Idle ->
     0 <= timeout_remaining now s <= s3_server (timing s) /\
     (timeout_remaining now s = 0 <-> s3 <= elapsed) /\
     (elapsed < s3 -> s3 - elapsed <= timeout_remaining now s * MILLISECOND < s3 - elapsed + MILLISECOND)) /\
  (forall keep rest, u8 keep = 0x3E -> state_ s = Active ->
     exists s', process_message now (keep :: rest) true s = Done (true, s') /\
       state now s' = Active /\ session_type s' = session_type s /\ security s' = security s /\
       timing s' = timing s).
Proof.
  intros Hle Hs3 Hst. cbv zeta. unfold MILLISECOND in *.
  assert (Ht : is_timed_out now s =
    bool_decide (state_ s <> Idle /\ s3_server (timing s) * 1000000 < now - last_activity s)).
  { unfold is_timed_out, MILLISECOND. destruct (decide (state_ s = Idle)) as [Hi|Hi].
    - symmetry. apply bool_decide_eq_false. tauto.
    - destruct (Z.ltb_spec (s3_server (timing s) * 1000000) (now - last_activity s)); symmetry;
        [apply bool_decide_eq_true | apply bool_decide_eq_false]; lia || tauto. }
  split_and!.
  - exact Ht.
  - unfold state. rewrite Ht. case_bool_decide; destruct (decide _); tauto.
  - unfold is_active, state. rewrite Ht. repeat case_bool_decide; cbn; congruence || tauto || idtac.
  - intros Hi. unfold timeout_remaining, MILLISECOND. destruct (decide (state_ s = Idle)); [contradiction|].
    rewrite Z.quot_div_nonneg by lia. cbv zeta.
    destruct (Z.leb_spec (s3_server (timing s)) ((now - last_activity s) / 1000000)); split_and!; lia.
  - intros keep rest Hk Ha. change 0x3E with (u8 x3e) in Hk. apply u8_inj in Hk as ->.
    assert (Hm : meaning (x3e :: rest) true = Some KeepAlive) by (destruct rest; reflexivity).
    eexists. rewrite process_message_meaning, Hm. split; [reflexivity|].
    split_and!; [|reflexivity..]. unfold state, is_timed_out. cbn. rewrite Ha.
    destruct (decide _); [discriminate|]. unfold MILLISECOND.
    rewrite (proj2 (Z.ltb_ge _ _)) by lia. reflexivity.
Qed.

Lemma uds_timeout_witness :
  let s := force_session_type 0 3 (new_session 0 1) in
  last_activity s <= 60000000000 /\ is_timed_out 60000000000 s = true /\
  is_timed_out 60000000000 s = bool_decide (state_ s <> Idle /\ 5000 * MILLISECOND < 60000000000 - 0).
Proof.
  split; [cbn; lia|]. split; [reflexivity|].
  apply (uds_timeout (force_session_type 0 3 (new_session 0 1)) 60000000000); cbn; lia || discriminate.
Defined.

(** ** Lockouts *)

Section lockouts.
Implicit Types (levels : SecurityState).

(** Rejections of keys at the given times. *)
Definition rejections (times : list Z) (l : Z) levels : SecurityState :=
  foldl (fun levels now => key_rejected now l levels) levels times.

Lemma key_rejected_same now l levels :
  let st := get_or_new levels l in
  let attempts := uint 8 (failed_attempts st + 1) in
  key_rejected now l levels !! l =
  Some (mkSecurityLevelState l (unlocked st) attempts
          (if 3 <=? attempts then Some (now + DEFAULT_LOCKOUT_DURATION) else lockout_until st) []).
Proof. unfold key_rejected. cbv zeta. rewrite lookup_insert_eq. reflexivity. Qed.

Lemma get_or_new_some levels l st : levels !! l = Some st -> get_or_new levels l = st.
Proof. unfold get_or_new. intros ->. reflexivity. Qed.

(** The state of a fresh or accepted level after them, up to the wrap of the counter. *)
Lemma rejections_state times l levels :
  failed_attempts (get_or_new levels l) = 0 -> lockout_until (get_or_new levels l) = None ->
  zlen times < 256 ->
  let st := get_or_new (rejections times l levels) l in
  failed_attempts st = zlen times /\ unlocked st = unlocked (get_or_new levels l) /\
  lockout_until st =
    (t ← last times; if 3 <=? zlen times then Some (t + DEFAULT_LOCKOUT_DURATION) else None).
Proof.
  intros Hf Hn. induction times as [|t times IH] using rev_ind; intros Hl; cbv zeta; [split_and!; auto|].
  rewrite length_app in *. cbn [length] in *. cbv zeta in IH.
  destruct IH as (H1 & H2 & H3); [lia|].
  unfold rejections in *. rewrite foldl_app. cbn [foldl].
  rewrite (get_or_new_some _ _ _ (key_rejected_same t l _)), last_snoc.
  cbn [failed_attempts unlocked lockout_until]. rewrite H1, H2, H3, uint_small by (unfold fits; lia).
  replace (Z.of_nat (length times + 1)) with (Z.of_nat (length times) + 1) by lia.
  split_and!; [reflexivity..|]. cbn. destruct (3 <=? Z.of_nat (length times) + 1) eqn:E; [reflexivity|].
  bool_to_prop. rewrite (proj2 (Z.leb_gt 3 _)) by lia. destruct (last times); reflexivity.
Qed.

Lemma rejections_other times l l' levels : l <> l' -> rejections times l levels !! l' = levels !! l'.
Proof.
  intros Hne. unfold rejections. revert levels. induction times as [|t times IH]; intros levels; cbn; [reflexivity|].
  rewrite IH. apply lookup_insert_ne, Hne.
Qed.

Lemma rejections_present times l levels :
  times <> [] -> rejections times l levels !! l = Some (get_or_new (rejections times l levels) l).
Proof.
  destruct times as [|t times _] using rev_ind; [done|]. intros _. unfold rejections. rewrite foldl_app. cbn [foldl].
  rewrite (get_or_new_some _ _ _ (key_rejected_same t l _)). apply key_rejected_same.
Qed.

(** [C37] Lockouts of a security level, for the caller that reports keys itself.
    Starting from a level without failures, fewer than three rejected keys have no
    effect; from the third on (up to 255), the level is locked out for exactly ten
    seconds after the last rejection, and the remaining time is reported.  The
    lockout hides an unlocked level but does not lock it: ten seconds after the last
    rejection it is unlocked again, without a new key.  An accepted key ends the
    lockout, and other levels are not affected. *)
Theorem security_lockout (levels : SecurityState) (l l' now : Z) (times : list Z) :
  failed_attempts (get_or_new levels l) = 0 -> lockout_until (get_or_new levels l) = None ->
  zlen times < 256 -> l <> l' ->
  let levels' := rejections times l levels in
  let until := last times ≫= fun t => if 3 <=? zlen times then Some (t + DEFAULT_LOCKOUT_DURATION) else None in
  is_locked_out now levels' l = from_option (fun u => now <? u) false until /\
  is_unlocked now levels' l = unlocked (get_or_new levels l) && negb (is_locked_out now levels' l) /\
  lockout_remaining now levels' l = from_option (fun u => Z.max 0 (u - now) / MILLISECOND) 0 until /\
  is_locked_out now (key_accepted l levels') l = false /\ is_unlocked now (key_accepted l levels') l = true /\
  is_locked_out now levels' l' = is_locked_out now levels l' /\
  is_unlocked now levels' l' = is_unlocked now levels l'.
Proof.
  intros Hf Hn Hlt Hne. cbv zeta.
  destruct (rejections_state times l levels Hf Hn Hlt) as (_ & Hu & Hl).
  assert (Hst : match rejections times l levels !! l with
                | Some st => st = get_or_new (rejections times l levels) l
                | None => times = [] end).
  { destruct times as [|t times]; [cbn; unfold get_or_new; destruct (levels !! l); reflexivity|].
    rewrite rejections_present by discriminate. reflexivity. }
  set (until := last times ≫= _) in *.
  assert (Hlock : is_locked_out now (rejections times l levels) l = from_option (fun u => now <? u) false until).
  { unfold is_locked_out. destruct (rejections times l levels !! l) as [st|].
    - rewrite Hst. unfold level_locked_out. rewrite Hl. destruct until; reflexivity.
    - unfold until. rewrite Hst. reflexivity. }
  split_and!.
  - exact Hlock.
  - unfold is_unlocked, is_locked_out. destruct (rejections times l levels !! l) as [st|] eqn:E.
    + unfold level_unlocked. rewrite Hst at 1. rewrite Hu. reflexivity.
    + subst times. unfold rejections in E. cbn in E. unfold get_or_new. rewrite E. reflexivity.
  - unfold lockout_remaining. destruct (rejections times l levels !! l) as [st|].
    + rewrite Hst, Hl. destruct until as [u|]; [|reflexivity]. cbn.
      destruct (Z.leb_spec u now); [rewrite Z.max_l by lia; reflexivity|].
      unfold MILLISECOND. rewrite Z.max_r, Z.quot_div_nonneg by lia. reflexivity.
    + unfold until. rewrite Hst. reflexivity.
  - unfold is_locked_out, key_accepted. rewrite lookup_insert_eq. reflexivity.
  - unfold is_unlocked, key_accepted. rewrite lookup_insert_eq. reflexivity.
  - unfold is_locked_out. rewrite rejections_other by exact Hne. reflexivity.
  - unfold is_unlocked. rewrite rejections_other by exact Hne. reflexivity.
Qed.

Lemma security_lockout_witness :
  let levels := rejections [1; 2; 3] 1 (key_accepted 1 ∅) in
  is_locked_out 5 levels 1 = true /\ is_locked_out 5 levels 1 = (5 <? 3 + DEFAULT_LOCKOUT_DURATION).
Proof.
  split; [reflexivity|].
  apply (security_lockout (key_accepted 1 ∅) 1 2 5 [1; 2; 3]); reflexivity || discriminate.
Defined.

(** The counter has eight bits: the 256th rejection makes it 0 again, and neither it
    nor the two after it start or extend a lockout, whenever they come. *)
Lemma security_attempts_wrap times levels l t t' :
  failed_attempts (get_or_new levels l) = 0 -> lockout_until (get_or_new levels l) = None ->
  zlen times = 255 ->
  is_locked_out t' (rejections (times ++ [t; t'; t']) l levels) l =
    from_option (fun u => t' <? u + DEFAULT_LOCKOUT_DURATION) false (last times).
Proof.
  intros Hf Hn Hlen.
  destruct (rejections_state times l levels Hf Hn) as (H1 & _ & H3); [lia|].
  unfold rejections in *. rewrite foldl_app. set (L := foldl _ _ times) in *. clearbody L. cbn [foldl].
  unfold is_locked_out. rewrite key_rejected_same. cbv zeta.
  rewrite (get_or_new_some _ _ _ (key_rejected_same t' l _)). cbn [failed_attempts lockout_until]. cbv zeta.
  rewrite (get_or_new_some _ _ _ (key_rejected_same t l _)). cbn [failed_attempts lockout_until]. cbv zeta.
  rewrite H1, H3, Hlen. unfold level_locked_out. cbn [lockout_until].
  change (uint 8 (255 + 1)) with 0. change (uint 8 (0 + 1)) with 1. change (uint 8 (1 + 1)) with 2.
  change (3 <=? 0) with false. change (3 <=? 1) with false. change (3 <=? 2) with false. change (3 <=? 255) with true.
  destruct (last times); reflexivity.
Qed.
End lockouts.

(** ** Histories of the table *)

Inductive ManagerOp :=
| GetSession (address : Z)
| ManagerProcessMessage (address : Z) (d : list byte) (is_request : bool)
| ResetAll
| RemoveSession (address : Z)
| ManagerOnEvent (callback : nat).

Definition manager_step (now : Z) (op : ManagerOp) (m : UdsSessionManager) : uds UdsSessionManager :=
  match op with
  | GetSession address => Done (get_session now address m).2
  | ManagerProcessMessage address d is_request =>
      '(_, m') ← manager_process_message now address d is_request m; Done m'
  | ResetAll => Done (reset_all now m)
  | RemoveSession address => Done (remove_session address m)
  | ManagerOnEvent callback => Done (manager_on_event callback m)
  end.

Fixpoint manager_run (history : list (Z * ManagerOp)) (m : UdsSessionManager) : uds UdsSessionManager :=
  match history with
  | [] => Done m
  | (now, op) :: history' => m' ← manager_step now op m; manager_run history' m'
  end.

(** The operation concerns the session at the address. *)
Definition concerns (address : Z) (op : ManagerOp) : bool :=
  match op with
  | GetSession a | ManagerProcessMessage a _ _ | RemoveSession a => a =? address
  | ResetAll | ManagerOnEvent _ => true
  end.

Section manager.
Implicit Types (m : UdsSessionManager) (s : UdsSession).

Definition created (now address : Z) m : UdsSession :=
  set_callbacks (global_callbacks m) (new_session now address).

Lemma foldl_on_event l s :
  foldl (fun s callback => on_event callback s) s l = set_callbacks (callbacks s ++ l) s.
Proof.
  revert s. induction l as [|c l IH]; intros s; cbn [foldl].
  - rewrite app_nil_r. destruct s; reflexivity.
  - rewrite IH. unfold on_event, set_callbacks. cbn. rewrite <- app_assoc. reflexivity.
Qed.

(** The session at the address is the one in the table, or a new one that has the
    global callbacks. *)
Lemma get_session_spec now address m :
  let '(s, m') := get_session now address m in
  s = default (created now address m) (sessions m !! address) /\
  sessions m' = <[address := s]> (sessions m) /\ global_callbacks m' = global_callbacks m.
Proof.
  unfold get_session. destruct (sessions m !! address) as [s|] eqn:E.
  - cbn. split_and!; [reflexivity | symmetry; apply insert_id, E | reflexivity].
  - rewrite foldl_on_event. cbn. split_and!; reflexivity.
Qed.

(** What one operation does to the session at an address and to the callbacks. *)
Definition slot_step (now address : Z) (op : ManagerOp) (globals : list nat) (slot : option UdsSession) :
    option UdsSession :=
  let get := default (set_callbacks globals (new_session now address)) slot in
  match op with
  | GetSession a => if a =? address then Some get else slot
  | ManagerProcessMessage a d is_request =>
      if a =? address then
        Some match meaning d is_request with
             | Some mng => handle now mng (update_activity now get)
             | None => get
             end
      else slot
  | ResetAll => reset now <$> slot
  | RemoveSession a => if a =? address then None else slot
  | ManagerOnEvent callback => on_event callback <$> slot
  end.

Lemma manager_step_slot now op m :
  exists m', manager_step now op m = Done m' /\
    global_callbacks m' = match op with ManagerOnEvent c => global_callbacks m ++ [c] | _ => global_callbacks m end /\
    forall address, sessions m' !! address = slot_step now address op (global_callbacks m) (sessions m !! address).
Proof.
  destruct op as [a|a d is_request| |a|c]; cbn [manager_step slot_step].
  - pose proof (get_session_spec now a m) as H. destruct (get_session now a m) as [s m'].
    destruct H as (-> & Hs & Hg). exists m'. split_and!; [reflexivity | exact Hg|].
    intros address. rewrite Hs. destruct (Z.eqb_spec a address) as [<-|Hne];
      [apply lookup_insert_eq | apply lookup_insert_ne, Hne].
  - unfold manager_process_message. pose proof (get_session_spec now a m) as H.
    destruct (get_session now a m) as [s m']. destruct H as (-> & Hs & Hg).
    rewrite process_message_meaning.
    set (g := default _ _). set (s' := match meaning d is_request with Some _ => _ | None => _ end).
    exists (mkUdsSessionManager (<[a := s'.2]> (sessions m')) (global_callbacks m')).
    split; [destruct s'; reflexivity|]. split; [exact Hg|].
    intros address. cbn [sessions]. rewrite Hs, insert_insert_eq.
    destruct (Z.eqb_spec a address) as [<-|Hne]; [|apply lookup_insert_ne, Hne].
    rewrite lookup_insert_eq. unfold s', g, created. destruct (meaning d is_request); reflexivity.
  - eexists. split_and!; [reflexivity..|]. intros address. apply lookup_fmap.
  - eexists. split_and!; [reflexivity..|]. intros address. cbn [remove_session sessions].
    destruct (Z.eqb_spec a address) as [<-|Hne]; [apply lookup_delete_eq | apply lookup_delete_ne, Hne].
  - eexists. split_and!; [reflexivity..|]. intros address. apply lookup_fmap.
Qed.

Lemma slot_step_unconcerned now address op globals slot :
  concerns address op = false -> slot_step now address op globals slot = slot.
Proof. destruct op; cbn; discriminate || (intros ->; reflexivity). Qed.

Lemma manager_run_slot history m1 m2 address :
  global_callbacks m1 = global_callbacks m2 -> sessions m1 !! address = sessions m2 !! address ->
  exists m1' m2',
    manager_run history m1 = Done m1' /\
    manager_run (filter (fun x => concerns address x.2 = true) history) m2 = Done m2' /\
    global_callbacks m1' = global_callbacks m2' /\ sessions m1' !! address = sessions m2' !! address.
Proof.
  revert m1 m2. induction history as [|[now op] history IH]; intros m1 m2 Hg Hs; [cbn; eauto 10|].
  cbn [manager_run]. destruct (manager_step_slot now op m1) as (m1' & -> & Hg1 & Hs1). rewrite bind_Done.
  rewrite filter_cons. cbn [snd]. destruct (decide _) as [Hc|Hc].
  - cbn [manager_run]. destruct (manager_step_slot now op m2) as (m2' & -> & Hg2 & Hs2). rewrite bind_Done.
    apply IH; [rewrite Hg1, Hg2, Hg; reflexivity | rewrite Hs1, Hs2, Hg, Hs; reflexivity].
  - apply not_true_is_false in Hc. apply IH.
    + rewrite Hg1, <- Hg. destruct op; reflexivity || discriminate.
    + rewrite Hs1, slot_step_unconcerned by exact Hc. exact Hs.
Qed.

Definition callbacks_registered m : Prop :=
  forall address s, sessions m !! address = Some s -> callbacks s = global_callbacks m.

Lemma handle_callbacks now mng s : callbacks (handle now mng s) = callbacks s.
Proof.
  destruct mng; try reflexivity. cbn [handle]. unfold handle_diagnostic_session_control_response.
  cbv zeta. destruct (decide _); [reflexivity|]. destruct (negb _); reflexivity.
Qed.

Lemma callbacks_registered_step now op m :
  callbacks_registered m ->
  exists m', manager_step now op m = Done m' /\ callbacks_registered m'.
Proof.
  intros Hm. destruct (manager_step_slot now op m) as (m' & Hs & Hg & Hslot). exists m'. split; [exact Hs|].
  intros address s. rewrite Hslot, Hg. specialize (Hm address).
  destruct op as [a|a d is_request| |a|c]; cbn [slot_step];
    try (destruct (a =? address); [|apply Hm]); destruct (sessions m !! address) as [s0|]; cbn; try discriminate;
    try (specialize (Hm s0 eq_refl)); intros [= <-]; try assumption; try reflexivity.
  - destruct (meaning d is_request); [rewrite handle_callbacks|]; exact Hm.
  - destruct (meaning d is_request); [rewrite handle_callbacks|]; reflexivity.
  - unfold on_event. cbn. rewrite Hm. reflexivity.
Qed.
End manager.

(** The sessions of different ECUs do not interfere.  After any history of the
    table, the session of an address is what the operations that concern this
    address alone would have left (messages to it, its removal, and the global
    resets and registrations): traffic of other ECUs is invisible to it.  At all
    times every session has exactly the callbacks registered with the table, also
    when it was created before or after their registration. *)
Theorem uds_manager_isolation (history : list (Z * ManagerOp)) (address : Z) :
  exists m m',
    manager_run history new_manager = Done m /\
    manager_run (filter (fun x => concerns address x.2 = true) history) new_manager = Done m' /\
    sessions m !! address = sessions m' !! address /\ callbacks_registered m.
Proof.
  destruct (manager_run_slot history new_manager new_manager address eq_refl eq_refl)
    as (m & m' & Hm & Hm' & _ & Hs).
  exists m, m'. split_and!; try assumption.
  assert (H0 : callbacks_registered new_manager) by (intros a s; cbn; rewrite lookup_empty; discriminate).
  clear Hs Hm'. revert Hm H0. generalize new_manager. clear m'.
  induction history as [|[now op] history IH]; intros m0 Hm H0; cbn [manager_run] in Hm.
  - apply Done_inj in Hm as <-. exact H0.
  - destruct (callbacks_registered_step now op m0 H0) as (m1 & Hs & H1). rewrite Hs, bind_Done in Hm.
    exact (IH _ Hm H1).
Qed.
