(* ===== verification/Diagnostic.v ===== *)
(** * Diagnostics over IP: common types and the combined decoder
    (src/protocols/diagnostic/uds_doip_decoder.cpp, include/wadjet/protocols/diagnostic/)

    Addresses, timing and transport information shared by the diagnostic
    components, and the decoder that opens a DoIP packet and the UDS message in
    it: the composition of [DoIP.decode_impl] and [Uds.decode]. *)

From Stdlib Require Import ZArith Lia.
From Stdlib Require Import Strings.Byte.
From stdpp Require Import base numbers list strings.
From S2P Require Import Prelude ByteOrder Decoder.
From S2P Require DoIP Uds.

#[local] Existing Instances DoIP.DoIPDecoder_contract.

(** ** Timing and transport *)

(** Milliseconds, as in [std::chrono::milliseconds]. *)
Record DiagnosticTiming := mkDiagnosticTiming {
  p2_server_max : Z;
  p2_star_server_max : Z;
  s3_server : Z;
  p3_client : Z;
  p4_server : Z
}.
Definition timing_defaults : DiagnosticTiming := mkDiagnosticTiming 50 5000 5000 50 0.
Definition timing_programming : DiagnosticTiming := mkDiagnosticTiming 50 5000 5000 50 0.
Definition within_p2 (t : DiagnosticTiming) (elapsed : Z) : bool := elapsed <=? p2_server_max t.
Definition within_p2_star (t : DiagnosticTiming) (elapsed : Z) : bool := elapsed <=? p2_star_server_max t.

Inductive Direction := Request | Response | Unknown.
Definition direction_string (dir : Direction) : string :=
  match dir with Request => "Request" | Response => "Response" | Unknown => "Unknown" end.

Inductive TransportType := TransportDoIP | ISO_TP | Raw_UDP | Raw_TCP | UnknownTransport.

Record TransportInfo := mkTransportInfo {
  transport_type : TransportType;
  source_address : Z;
  target_address : Z;
  timestamp : Z;
  sequence_number : option Z
}.

(** [VIN::is_valid], with [std::isalnum] of the "C" locale. *)
Definition is_alnum (c : Z) : bool :=
  ((48 <=? c) && (c <=? 57)) || ((65 <=? c) && (c <=? 90)) || ((97 <=? c) && (c <=? 122)).
Definition vin_char_valid (b : byte) : bool :=
  let c := u8 b in
  negb (c =? 0) && is_alnum c && negb ((c =? 73) || (c =? 79) || (c =? 81)).
Definition vin_is_valid (vin : list byte) : bool := forallb vin_char_valid vin.

(** ** The combined decoder *)

Record UdsOverDoipResult := mkUdsOverDoipResult {
  doip_header : DoIP.DoIPHeader;
  ecu_source : Z;
  ecu_target : Z;
  uds_header : Uds.UdsHeader;
  uds_message : Uds.UdsServiceMessage;
  message_direction : Direction
}.

Inductive UdsOverDoipErrorCode :=
| DoipDecodeFailed | NotDiagnosticMessage | PayloadTooShort | UdsDecodeFailed | InvalidDoipVersion.
Record UdsOverDoipError := mkUdsOverDoipError { doip_code : UdsOverDoipErrorCode; doip_message : string }.

Abbreviation diag := (res UdsOverDoipError).

(** [decode] of a parsed header and its payload. *)
Definition decode_payload (h : DoIP.DoIPHeader) (payload : list byte) : diag UdsOverDoipResult :=
  if negb (DoIP.is_diagnostic_message h)
  then Fail (mkUdsOverDoipError NotDiagnosticMessage "DoIP message is not a diagnostic message")
  else if zlen payload <? 5
  then Fail (mkUdsOverDoipError PayloadTooShort "Diagnostic message payload too short")
  else
    s0 ← byte_at payload 0; s1 ← byte_at payload 1;
    t0 ← byte_at payload 2; t1 ← byte_at payload 3;
    let source := uint 16 (Z.lor (Z.shiftl s0 8) s1) in
    let target := uint 16 (Z.lor (Z.shiftl t0 8) t1) in
    uds_data ← subspan payload 4;
    match Uds.decode uds_data with
    | Done r =>
        Done (mkUdsOverDoipResult h source target (Uds.header r) (Uds.message r)
                (if Uds.is_request uds_data then Request
                 else if Uds.is_positive_response uds_data || Uds.is_negative_response uds_data then Response
                 else Unknown))
    | Fail _ => Fail (mkUdsOverDoipError UdsDecodeFailed "Failed to decode UDS message")
    | Undef => Undef
    end.

(** [decode] of a raw packet, with the default options of the DoIP decoder. *)
Definition decode_packet (d : list byte) : diag UdsOverDoipResult :=
  match DoIP.decode_impl DoIP.Options_default (context_of d) with
  | Undef => Undef
  | Fail _ => Fail (mkUdsOverDoipError DoipDecodeFailed "Failed to decode DoIP header")
  | Done (h, _) =>
      if negb (DoIP.is_diagnostic_message h)
      then Fail (mkUdsOverDoipError NotDiagnosticMessage "DoIP message is not a diagnostic message")
      else if zlen d <? DoIP.HEADER_SIZE + DoIP.payload_length h
      then Fail (mkUdsOverDoipError PayloadTooShort "Insufficient data for DoIP payload")
      else payload ← subspan_count d DoIP.HEADER_SIZE (DoIP.payload_length h); decode_payload h payload
  end.

Definition looks_like_diagnostic_message (d : list byte) : diag bool :=
  if zlen d <? DoIP.HEADER_SIZE then Done false
  else
    version ← byte_at d 0; inverse ← byte_at d 1;
    if negb (Z.lxor version inverse =? 0xFF) then Done false
    else
      t0 ← byte_at d 2; t1 ← byte_at d 3;
      Done (uint 16 (Z.lor (Z.shiftl t0 8) t1) =? DoIP.DiagnosticMessage).

(** ** The decoder is total, and what it accepts *)

Lemma be16_bytes b0 b1 : uint 16 (Z.lor (Z.shiftl (u8 b0) 8) (u8 b1)) = be16 b0 b1.
Proof. rewrite be16_lor. apply uint_small, be16_fits. Qed.

(** A payload decodes to what its addresses and its UDS message are. *)
Lemma decode_payload_done h payload r :
  decode_payload h payload = Done r <->
  exists s t ud m,
    payload = write_be16 s ++ write_be16 t ++ ud /\ fits 16 s /\ fits 16 t /\ 1 <= zlen ud /\
    DoIP.is_diagnostic_message h = true /\ Uds.decode ud = Done m /\
    r = mkUdsOverDoipResult h s t (Uds.header m) (Uds.message m)
          (if Uds.is_request ud then Request else Response).
Proof.
  unfold decode_payload. split.
  - destruct (DoIP.is_diagnostic_message h) eqn:Eh; [cbn [negb] | discriminate].
    destruct (zlen payload <? 5) eqn:El; [discriminate|]. bool_to_prop.
    destruct payload as [|s0 [|s1 [|t0 [|t1 ud]]]]; try (cbn [length] in El; lia).
    change (byte_at _ 0) with (Done (E:=UdsOverDoipError) (u8 s0)).
    change (byte_at _ 1) with (Done (E:=UdsOverDoipError) (u8 s1)).
    change (byte_at _ 2) with (Done (E:=UdsOverDoipError) (u8 t0)).
    change (byte_at _ 3) with (Done (E:=UdsOverDoipError) (u8 t1)).
    rewrite !bind_Done. cbv zeta. rewrite subspan_in, bind_Done by lia.
    change (drop (Z.to_nat 4) _) with ud. destruct (Uds.decode ud) as [m|e|] eqn:Em; try discriminate.
    intros H. apply Done_inj in H as <-.
    exists (be16 s0 s1), (be16 t0 t1), ud, m. rewrite !write_be16_be16, !be16_bytes.
    split_and!; try assumption; try reflexivity; try apply be16_fits; try (cbn [length] in El; lia).
    destruct ud as [|b ud]; [cbn [length] in El; lia|]. f_equal. cbn.
    destruct (u8 b =? Uds.NEGATIVE_RESPONSE_SID); [reflexivity|]. cbn [negb andb orb].
    destruct (Z.land (u8 b) 64 =? 0); reflexivity.
  - intros (s & t & ud & m & -> & Hs & Ht & Hl & -> & Hm & ->). cbn [negb write_be16 app].
    rewrite (proj2 (Z.ltb_ge _ 5)) by (cbn [length]; lia).
    match goal with |- context [byte_at (?b0 :: ?b1 :: ?b2 :: ?b3 :: ?l) 0] =>
      change (byte_at (b0 :: b1 :: b2 :: b3 :: l) 0) with (Done (E:=UdsOverDoipError) (u8 b0));
      change (byte_at (b0 :: b1 :: b2 :: b3 :: l) 1) with (Done (E:=UdsOverDoipError) (u8 b1));
      change (byte_at (b0 :: b1 :: b2 :: b3 :: l) 2) with (Done (E:=UdsOverDoipError) (u8 b2));
      change (byte_at (b0 :: b1 :: b2 :: b3 :: l) 3) with (Done (E:=UdsOverDoipError) (u8 b3))
    end.
    rewrite !bind_Done. cbv zeta. rewrite subspan_in, bind_Done by (cbn [length]; lia).
    change (drop (Z.to_nat 4) _) with ud. rewrite Hm, !be16_bytes.
    assert (Hbe : forall v, fits 16 v -> be16 (to_byte (Z.shiftr v 8)) (to_byte (Z.land v 255)) = v).
    { intros v Hv. pose proof (read_write_be16 v [] Hv) as Hr. unfold write_be16 in Hr. cbn [app] in Hr.
      rewrite read_be16_cons in Hr. congruence. }
    rewrite !Hbe by assumption. f_equal. f_equal.
    destruct ud as [|b ud]; [cbn [length] in Hl; lia|]. cbn.
    destruct (u8 b =? Uds.NEGATIVE_RESPONSE_SID); [reflexivity|]. cbn [negb andb orb].
    destruct (Z.land (u8 b) 64 =? 0); reflexivity.
Qed.

Lemma decode_payload_defined h payload : defined (decode_payload h payload).
Proof.
  unfold decode_payload. destruct (DoIP.is_diagnostic_message h); [cbn [negb] | apply defined_Fail].
  destruct (zlen payload <? 5) eqn:E; bool_to_prop; [apply defined_Fail|].
  do 4 (apply defined_bind; [apply defined_byte_at; lia | intros ? _]). cbv zeta.
  rewrite subspan_in, bind_Done by lia.
  pose proof (Uds.decode_defined (drop (Z.to_nat 4) payload)) as Hd.
  destruct (Uds.decode _); [apply defined_Done | apply defined_Fail | contradiction].
Qed.

Lemma encode_header_length h : length (DoIP.encode_header h) = 8%nat.
Proof. reflexivity. Qed.

(** The payload that an accepted header announces. *)
Lemma packet_payload d h next :
  DoIP.decode_impl DoIP.Options_default (context_of d) = Done (h, next) ->
  subspan_count (E:=UdsOverDoipError) d DoIP.HEADER_SIZE (DoIP.payload_length h) =
    Done (take (Z.to_nat (DoIP.payload_length h)) (data next)) /\
  (zlen d <? DoIP.HEADER_SIZE + DoIP.payload_length h) = false /\
  DoIP.wf_header DoIP.Options_default h /\ d = DoIP.encode_header h ++ data next /\
  DoIP.payload_length h <= zlen (data next).
Proof.
  intros H. destruct (DoIP.doip_decode_sound _ _ _ _ H) as (Hwf & Hd & Hl). cbn [data context_of] in Hd.
  assert (Hz : zlen d = 8 + zlen (data next)) by (rewrite Hd, length_app, encode_header_length; lia).
  pose proof (DoIP.wf_length _ _ Hwf) as [H0 _]. unfold DoIP.HEADER_SIZE.
  split_and!; try assumption; [|apply Z.ltb_ge; lia].
  rewrite subspan_count_in by lia. rewrite Hd at 1. rewrite drop_app_Z by (rewrite encode_header_length; lia).
  reflexivity.
Qed.

Lemma decode_packet_defined d : defined (decode_packet d).
Proof.
  unfold decode_packet.
  pose proof (decode_defined (decode:=DoIP.decode_impl DoIP.Options_default) (context_of d)) as Hd.
  destruct (DoIP.decode_impl _ _) as [[h next]|e|] eqn:E; [|apply defined_Fail|contradiction].
  destruct (DoIP.is_diagnostic_message h); [cbn [negb] | apply defined_Fail].
  destruct (packet_payload _ _ _ E) as (-> & -> & _). rewrite bind_Done. apply decode_payload_defined.
Qed.

(** The combined decoder opens exactly the diagnostic packets.  It returns a
    result if and only if the packet is a DoIP header of the diagnostic message type
    whose payload length covers two addresses and a UDS message that the UDS decoder
    accepts, followed by any bytes; the result has the header, the addresses, what
    the UDS decoder returns, and a direction that is never unknown.  On all other
    bytes it returns an error, without reading outside them. *)
Theorem uds_over_doip_exact (d : list byte) (r : UdsOverDoipResult) :
  defined (decode_packet d) /\
  (decode_packet d = Done r <->
   exists ud m trailing,
     d = DoIP.encode_header (doip_header r) ++ write_be16 (ecu_source r) ++ write_be16 (ecu_target r) ++
           ud ++ trailing /\
     DoIP.wf_header DoIP.Options_default (doip_header r) /\
     DoIP.payload_type (doip_header r) = DoIP.DiagnosticMessage /\
     DoIP.payload_length (doip_header r) = 4 + zlen ud /\ 1 <= zlen ud /\
     fits 16 (ecu_source r) /\ fits 16 (ecu_target r) /\
     Uds.decode ud = Done m /\ uds_header r = Uds.header m /\ uds_message r = Uds.message m /\
     message_direction r = (if Uds.is_request ud then Request else Response)).
Proof.
  split; [apply decode_packet_defined|]. unfold decode_packet. split.
  - destruct (DoIP.decode_impl _ _) as [[h next]|e|] eqn:E; try discriminate.
    destruct (DoIP.is_diagnostic_message h) eqn:Eh; [cbn [negb] | discriminate].
    destruct (packet_payload _ _ _ E) as (-> & -> & Hwf & Hd & Hl). rewrite bind_Done.
    intros H. apply decode_payload_done in H as (s & t & ud & m & Hp & Hs & Ht & Hu & _ & Hm & ->).
    cbn [doip_header ecu_source ecu_target uds_header uds_message message_direction].
    exists ud, m, (drop (Z.to_nat (DoIP.payload_length h)) (data next)).
    pose proof (DoIP.wf_length _ _ Hwf) as [H0 _].
    split_and!; try assumption; try reflexivity.
    + rewrite Hd at 1. f_equal. rewrite <- (take_drop (Z.to_nat (DoIP.payload_length h)) (data next)) at 1.
      rewrite Hp, <- !app_assoc. reflexivity.
    + apply Z.eqb_eq, Eh.
    + apply (f_equal length) in Hp. rewrite length_take, !length_app in Hp. cbn [length write_be16] in Hp. lia.
  - intros (ud & m & trailing & Hd & Hwf & Ht & Hl & Hu & Hs & Htg & Hm & Hh & Hmsg & Hdir).
    rewrite (DoIP.doip_decode_encode _ (context_of d) (doip_header r)
               (write_be16 (ecu_source r) ++ write_be16 (ecu_target r) ++ ud ++ trailing)); try assumption.
    2:{ rewrite !length_app. cbn [length write_be16]. lia. }
    unfold DoIP.is_diagnostic_message. rewrite Ht, Z.eqb_refl. cbn [negb].
    assert (Hz : zlen d = 8 + (4 + zlen ud) + zlen trailing).
    { rewrite Hd, !length_app, encode_header_length. cbn [length write_be16]. lia. }
    unfold DoIP.HEADER_SIZE. rewrite (proj2 (Z.ltb_ge _ _)) by lia.
    rewrite subspan_count_in, bind_Done by lia. rewrite Hd at 1.
    rewrite drop_app_Z by (rewrite encode_header_length; lia).
    apply decode_payload_done. exists (ecu_source r), (ecu_target r), ud, m.
    split_and!; try assumption.
    + rewrite !app_assoc, take_app_length'; [reflexivity|]. rewrite !length_app. cbn [length write_be16]. lia.
    + unfold DoIP.is_diagnostic_message. rewrite Ht. reflexivity.
    + destruct r. cbn in *. subst. reflexivity.
Qed.
