(* ===== verification/Correlator.v ===== *)
(** * Request and response correlation (src/protocols/diagnostic/request_correlator.cpp)

    Pending requests are queued per pair of addresses; a response takes the oldest
    request of its service, or the oldest of all.

    [std::chrono::steady_clock::now()] is the argument [now] of [check_timeouts].
    Counters wrap at their widths.  A callback is a number; the calls, with the
    objects that their pointers refer to at the time, are recorded in [calls]. *)

From Stdlib Require Import ZArith Lia.
From Stdlib Require Import Strings.Byte.
From stdpp Require Import base numbers list gmap strings.
From S2P Require Import Prelude Diagnostic.
From S2P Require Uds.

Definition MILLISECOND : Z := 1000000.
Definition MAX_COMPLETED_HISTORY : Z := 1000.

(** ** Pairs *)

Record Request := mkRequest {
  rq_header : Uds.UdsHeader;
  rq_message : Uds.UdsServiceMessage;
  rq_transport : TransportInfo;
  rq_timestamp : Z
}.

Record Response := mkResponse {
  rs_header : Uds.UdsHeader;
  rs_message : Uds.UdsServiceMessage;
  rs_transport : TransportInfo;
  rs_timestamp : Z;
  rs_pending_count : Z
}.

Record RequestResponsePair := mkPair {
  request : Request;
  response : option Response
}.

Definition is_negative_header (h : Uds.UdsHeader) : bool :=
  match Uds.direction h with Uds.NegativeResponse => true | _ => false end.

Definition is_complete (p : RequestResponsePair) : bool := bool_decide (is_Some (response p)).
Definition is_positive (p : RequestResponsePair) : bool :=
  match response p with Some r => negb (is_negative_header (rs_header r)) | None => false end.
Definition is_negative (p : RequestResponsePair) : bool :=
  match response p with Some r => is_negative_header (rs_header r) | None => false end.
Definition get_nrc (p : RequestResponsePair) : option Z :=
  if is_negative p then r ← response p; Uds.negative_response_code (rs_header r) else None.
Definition response_time (p : RequestResponsePair) : option Z :=
  r ← response p; Some (Z.quot (rs_timestamp r - rq_timestamp (request p)) MILLISECOND).
Definition pair_within_p2 (p : RequestResponsePair) (t : DiagnosticTiming) : bool :=
  match response_time p with Some rt => within_p2 t rt | None => false end.
Definition pair_within_p2_star (p : RequestResponsePair) (t : DiagnosticTiming) : bool :=
  match response_time p with Some rt => within_p2_star t rt | None => false end.

(** ** Pending requests *)

Record PendingRequest := mkPending {
  pd_request : Request;
  pending_count : Z;
  suppress_positive_response : bool
}.

Definition elapsed (now : Z) (p : PendingRequest) : Z := Z.quot (now - rq_timestamp (pd_request p)) MILLISECOND.

Definition is_timed_out (now : Z) (t : DiagnosticTiming) (p : PendingRequest) : bool :=
  if 0 <? pending_count p then p2_star_server_max t <? elapsed now p else p2_server_max t <? elapsed now p.

Definition pending_service (p : PendingRequest) : Z := Uds.service_id (rq_header (pd_request p)).

(** ** The correlator *)

Inductive CorrelationEvent :=
| RequestSent | ResponseReceived | ResponsePending | RequestTimeout | UnmatchedResponse
| PositiveResponse | NegativeResponse.

Record Options := mkOptions {
  max_pending_per_address : Z;
  max_total_pending : Z;
  auto_timeout_check : bool;
  timing : DiagnosticTiming
}.
Definition Options_default : Options := mkOptions 100 1000 true timing_defaults.

Record Statistics := mkStatistics {
  requests_recorded : Z;
  responses_matched : Z;
  responses_unmatched : Z;
  pending_timeouts : Z;
  positive_responses : Z;
  negative_responses : Z;
  response_pending_count : Z
}.
Definition Statistics_zero : Statistics := mkStatistics 0 0 0 0 0 0 0.

Record Call := mkCall {
  call_callback : nat;
  call_event : CorrelationEvent;
  call_pair : option RequestResponsePair;
  call_pending : option PendingRequest
}.

Record RequestCorrelator := mkCorrelator {
  options : Options;
  stats : Statistics;
  pending_requests : gmap (Z * Z) (list PendingRequest);
  completed : list RequestResponsePair;
  callbacks : list nat;
  calls : list Call
}.

Definition new_correlator (opts : Options) : RequestCorrelator := mkCorrelator opts Statistics_zero ∅ [] [] [].

Definition set_stats (st : Statistics) (c : RequestCorrelator) : RequestCorrelator :=
  mkCorrelator (options c) st (pending_requests c) (completed c) (callbacks c) (calls c).
Definition set_pending (m : gmap (Z * Z) (list PendingRequest)) (c : RequestCorrelator) : RequestCorrelator :=
  mkCorrelator (options c) (stats c) m (completed c) (callbacks c) (calls c).
Definition set_completed (l : list RequestResponsePair) (c : RequestCorrelator) : RequestCorrelator :=
  mkCorrelator (options c) (stats c) (pending_requests c) l (callbacks c) (calls c).
Definition set_callbacks (l : list nat) (c : RequestCorrelator) : RequestCorrelator :=
  mkCorrelator (options c) (stats c) (pending_requests c) (completed c) l (calls c).
Definition set_options (o : Options) (c : RequestCorrelator) : RequestCorrelator :=
  mkCorrelator o (stats c) (pending_requests c) (completed c) (callbacks c) (calls c).

Definition emit_event (event : CorrelationEvent) (pair : option RequestResponsePair)
    (pending : option PendingRequest) (c : RequestCorrelator) : RequestCorrelator :=
  mkCorrelator (options c) (stats c) (pending_requests c) (completed c) (callbacks c)
    (calls c ++ map (fun callback => mkCall callback event pair pending) (callbacks c)).

(** Increments of the 64-bit counters. *)
Definition count_request (s : Statistics) : Statistics :=
  mkStatistics (uint 64 (requests_recorded s + 1)) (responses_matched s) (responses_unmatched s)
    (pending_timeouts s) (positive_responses s) (negative_responses s) (response_pending_count s).
Definition count_unmatched (s : Statistics) : Statistics :=
  mkStatistics (requests_recorded s) (responses_matched s) (uint 64 (responses_unmatched s + 1))
    (pending_timeouts s) (positive_responses s) (negative_responses s) (response_pending_count s).
Definition count_response_pending (s : Statistics) : Statistics :=
  mkStatistics (requests_recorded s) (responses_matched s) (responses_unmatched s)
    (pending_timeouts s) (positive_responses s) (negative_responses s) (uint 64 (response_pending_count s + 1)).
Definition count_timeouts (n : Z) (s : Statistics) : Statistics :=
  mkStatistics (requests_recorded s) (responses_matched s) (responses_unmatched s)
    (uint 64 (pending_timeouts s + n)) (positive_responses s) (negative_responses s) (response_pending_count s).
Definition count_matched (negative : bool) (s : Statistics) : Statistics :=
  mkStatistics (requests_recorded s) (uint 64 (responses_matched s + 1)) (responses_unmatched s)
    (pending_timeouts s) (if negative then positive_responses s else uint 64 (positive_responses s + 1))
    (if negative then uint 64 (negative_responses s + 1) else negative_responses s) (response_pending_count s).

(** [std::deque::pop_front] of an empty deque is undefined. *)
Definition pop_front {A} (l : list A) : res Empty_set (list A) :=
  match l with
  | [] => Undef
  | _ :: l' => Done l'
  end.

Definition record_request (h : Uds.UdsHeader) (m : Uds.UdsServiceMessage) (transport : TransportInfo)
    (c : RequestCorrelator) : res Empty_set RequestCorrelator :=
  let pending := mkPending (mkRequest h m transport (timestamp transport)) 0 (Uds.suppress_positive_response h) in
  let key := (source_address transport, target_address transport) in
  let l := default [] (pending_requests c !! key) in
  l ← (if max_pending_per_address (options c) <=? zlen l then pop_front l else Done l);
  Done (emit_event RequestSent None (Some pending)
          (set_stats (count_request (stats c)) (set_pending (<[key := l ++ [pending]]> (pending_requests c)) c))).

(** The first element with the property, with what precedes and follows it. *)
Fixpoint split_first {A} (f : A -> bool) (l : list A) : option (list A * A * list A) :=
  match l with
  | [] => None
  | x :: l' =>
      if f x then Some ([], x, l')
      else '(before, y, after) ← split_first f l'; Some (x :: before, y, after)
  end.

Definition same_service (h : Uds.UdsHeader) (p : PendingRequest) : bool := pending_service p =? Uds.service_id h.

(** The element that [find_pending_for_response] points to, in its queue. *)
Definition find_pending_for_response (h : Uds.UdsHeader) (l : list PendingRequest) :
    option (list PendingRequest * PendingRequest * list PendingRequest) :=
  match split_first (same_service h) l with
  | Some s => Some s
  | None => match l with [] => None | p :: l' => Some ([], p, l') end
  end.

(** [list.erase] of the first request of the service. *)
Definition erase_service (h : Uds.UdsHeader) (l : list PendingRequest) : list PendingRequest :=
  match split_first (same_service h) l with
  | Some (before, _, after) => before ++ after
  | None => l
  end.

Definition is_response_pending (h : Uds.UdsHeader) : bool :=
  is_negative_header h && bool_decide (Uds.negative_response_code h = Some 0x78).

Definition keep_history (l : list RequestResponsePair) : list RequestResponsePair :=
  if MAX_COMPLETED_HISTORY <? zlen l then drop 1 l else l.

Definition process_response (h : Uds.UdsHeader) (m : Uds.UdsServiceMessage) (transport : TransportInfo)
    (c : RequestCorrelator) : option RequestResponsePair * RequestCorrelator :=
  let key := (target_address transport, source_address transport) in
  let l := default [] (pending_requests c !! key) in
  match find_pending_for_response h l with
  | None =>
      (None, emit_event UnmatchedResponse None None (set_stats (count_unmatched (stats c)) c))
  | Some (before, pending, after) =>
      if is_response_pending h then
        let pending' := mkPending (pd_request pending) (uint 32 (pending_count pending + 1))
                          (suppress_positive_response pending) in
        (None, emit_event ResponsePending None (Some pending')
                 (set_stats (count_response_pending (stats c))
                    (set_pending (<[key := before ++ pending' :: after]> (pending_requests c)) c)))
      else
        let pair := mkPair (pd_request pending)
                      (Some (mkResponse h m transport (timestamp transport) (pending_count pending))) in
        let negative := is_negative_header h in
        let c := set_stats (count_matched negative (stats c)) c in
        let c := emit_event (if negative then NegativeResponse else PositiveResponse) (Some pair) None c in
        let c := emit_event ResponseReceived (Some pair) None c in
        let c := set_pending (<[key := erase_service h l]> (pending_requests c)) c in
        (Some pair, set_completed (keep_history (completed c ++ [pair])) c)
  end.

(** Queries *)
Definition pending_count_of (source target : Z) (c : RequestCorrelator) : Z :=
  zlen (default [] (pending_requests c !! (source, target))).
Definition total_pending (c : RequestCorrelator) : Z :=
  map_fold (fun _ l total => total + zlen l) 0 (pending_requests c).
Definition get_pending (source target : Z) (c : RequestCorrelator) : list PendingRequest :=
  default [] (pending_requests c !! (source, target)).
Definition get_completed (max_count : nat) (c : RequestCorrelator) : list RequestResponsePair :=
  take max_count (rev (completed c)).
Definition get_completed_by_service (service : Z) (max_count : nat) (c : RequestCorrelator) :
    list RequestResponsePair :=
  take max_count (filter (fun p => Uds.service_id (rq_header (request p)) = service) (rev (completed c))).

(** The requests that [check_timeouts] removes, in the order of the map. *)
Definition timed_out (now : Z) (c : RequestCorrelator) : list PendingRequest :=
  flat_map (fun kl => filter (fun p => is_timed_out now (timing (options c)) p = true) kl.2)
    (map_to_list (pending_requests c)).

Definition check_timeouts (now : Z) (c : RequestCorrelator) : Z * RequestCorrelator :=
  let removed := timed_out now c in
  let pending' := (fun l => filter (fun p => is_timed_out now (timing (options c)) p = false) l) <$>
                    pending_requests c in
  (zlen removed,
   set_stats (count_timeouts (zlen removed) (stats c))
     (set_pending pending' (foldl (fun c p => emit_event RequestTimeout None (Some p) c) c removed))).

(** Control *)
Definition set_timing (t : DiagnosticTiming) (c : RequestCorrelator) : RequestCorrelator :=
  set_options (mkOptions (max_pending_per_address (options c)) (max_total_pending (options c))
                 (auto_timeout_check (options c)) t) c.
Definition on_event (callback : nat) (c : RequestCorrelator) : RequestCorrelator :=
  set_callbacks (callbacks c ++ [callback]) c.
Definition clear_callbacks (c : RequestCorrelator) : RequestCorrelator := set_callbacks [] c.
Definition clear_pending (c : RequestCorrelator) : RequestCorrelator := set_pending ∅ c.
Definition clear_history (c : RequestCorrelator) : RequestCorrelator := set_completed [] c.
Definition reset (c : RequestCorrelator) : RequestCorrelator := set_completed [] (set_pending ∅ c).
Definition reset_statistics (c : RequestCorrelator) : RequestCorrelator := set_stats Statistics_zero c.

(** ** Histories *)

Inductive CorrelatorOp :=
| RecordRequest (h : Uds.UdsHeader) (m : Uds.UdsServiceMessage) (transport : TransportInfo)
| ProcessResponse (h : Uds.UdsHeader) (m : Uds.UdsServiceMessage) (transport : TransportInfo)
| CheckTimeouts (now : Z)
| SetTiming (t : DiagnosticTiming)
| OnEvent (callback : nat)
| ClearCallbacks
| ClearPending
| ClearHistory
| Reset
| ResetStatistics.

Definition step (op : CorrelatorOp) (c : RequestCorrelator) : res Empty_set RequestCorrelator :=
  match op with
  | RecordRequest h m t => record_request h m t c
  | ProcessResponse h m t => Done (process_response h m t c).2
  | CheckTimeouts now => Done (check_timeouts now c).2
  | SetTiming t => Done (set_timing t c)
  | OnEvent callback => Done (on_event callback c)
  | ClearCallbacks => Done (clear_callbacks c)
  | ClearPending => Done (clear_pending c)
  | ClearHistory => Done (clear_history c)
  | Reset => Done (reset c)
  | ResetStatistics => Done (reset_statistics c)
  end.

Fixpoint run (ops : list CorrelatorOp) (c : RequestCorrelator) : res Empty_set RequestCorrelator :=
  match ops with
  | [] => Done c
  | op :: ops' => c' ← step op c; run ops' c'
  end.

(** ** Queues *)

Section queues.
Context {A : Type}.
Implicit Types (f : A -> bool) (l : list A).

Lemma split_first_spec f l :
  match split_first f l with
  | Some (before, x, after) => l = before ++ x :: after /\ f x = true /\ Forall (fun y => f y = false) before
  | None => Forall (fun y => f y = false) l
  end.
Proof.
  induction l as [|x l IH]; cbn; [constructor|].
  destruct (f x) eqn:E; [split_and!; [reflexivity | exact E | constructor]|].
  destruct (split_first f l) as [[[before y] after]|]; cbn; [|constructor; assumption].
  destruct IH as (-> & Hy & Hb). split_and!; [reflexivity | exact Hy | constructor; assumption].
Qed.

Lemma split_first_app f before x after :
  Forall (fun y => f y = false) before -> f x = true -> split_first f (before ++ x :: after) = Some (before, x, after).
Proof.
  intros Hb Hx. induction before as [|y before IH]; cbn; [rewrite Hx; reflexivity|].
  apply Forall_cons in Hb as [Hy Hb]. rewrite Hy, (IH Hb). reflexivity.
Qed.

Lemma split_first_none f l : Forall (fun y => f y = false) l -> split_first f l = None.
Proof.
  induction 1 as [|x l Hx _ IH]; cbn; [reflexivity|]. rewrite Hx, IH. reflexivity.
Qed.
End queues.

Lemma find_pending_spec h l :
  match find_pending_for_response h l with
  | None => l = []
  | Some (before, p, after) =>
      l = before ++ p :: after /\
      (same_service h p = true /\ Forall (fun q => same_service h q = false) before /\
         erase_service h l = before ++ after \/
       before = [] /\ Forall (fun q => same_service h q = false) l /\ erase_service h l = l)
  end.
Proof.
  unfold find_pending_for_response, erase_service. pose proof (split_first_spec (same_service h) l) as H.
  destruct (split_first _ l) as [[[before p] after]|].
  - destruct H as (Hl & Hp & Hb). split; [exact Hl|]. left. auto.
  - destruct l as [|p l]; [reflexivity|]. split; [reflexivity|]. right. auto.
Qed.

(** ** Invariant *)

(** The bounds of the queues and of the history, and what the entries have in common. *)
Record well_formed (c : RequestCorrelator) : Prop := {
  wf_queue_bound : forall key l, pending_requests c !! key = Some l -> zlen l <= max_pending_per_address (options c);
  wf_queue_key : forall key l p, pending_requests c !! key = Some l -> p ∈ l ->
    (source_address (rq_transport (pd_request p)), target_address (rq_transport (pd_request p))) = key;
  wf_history_bound : zlen (completed c) <= MAX_COMPLETED_HISTORY;
  wf_history : forall p, p ∈ completed c -> exists r, response p = Some r /\
    is_response_pending (rs_header r) = false /\
    source_address (rs_transport r) = target_address (rq_transport (request p)) /\
    target_address (rs_transport r) = source_address (rq_transport (request p));
  wf_matched : responses_matched (stats c) =
    uint 64 (positive_responses (stats c) + negative_responses (stats c))
}.

Lemma uint_succ_l w a b : 0 <= w -> uint w (uint w a + b) = uint w (a + b).
Proof. intros Hw. unfold uint. apply Zplus_mod_idemp_l. Qed.

Lemma count_matched_ok negative st :
  responses_matched st = uint 64 (positive_responses st + negative_responses st) ->
  let st' := count_matched negative st in
  responses_matched st' = uint 64 (positive_responses st' + negative_responses st').
Proof.
  intros H. destruct negative; unfold count_matched;
    cbn [responses_matched positive_responses negative_responses]; rewrite H, uint_succ_l by lia.
  - rewrite (Z.add_comm (positive_responses st) (uint _ _)), uint_succ_l by lia. apply f_equal. lia.
  - rewrite uint_succ_l by lia. apply f_equal. lia.
Qed.

(** Operations that leave the queues, the history and the counters of matches. *)
Lemma wf_same c c' :
  well_formed c -> pending_requests c' = pending_requests c -> completed c' = completed c ->
  max_pending_per_address (options c') = max_pending_per_address (options c) ->
  responses_matched (stats c') = responses_matched (stats c) ->
  positive_responses (stats c') = positive_responses (stats c) ->
  negative_responses (stats c') = negative_responses (stats c) -> well_formed c'.
Proof. intros [] H1 H2 H3 H4 H5 H6. split; rewrite ?H1, ?H2, ?H3, ?H4, ?H5, ?H6; assumption. Qed.

(** A queue is replaced. *)
Lemma wf_set_queue key l c :
  well_formed c -> zlen l <= max_pending_per_address (options c) ->
  (forall p, p ∈ l -> (source_address (rq_transport (pd_request p)), target_address (rq_transport (pd_request p))) = key) ->
  well_formed (set_pending (<[key := l]> (pending_requests c)) c).
Proof.
  intros [] Hl Hk. split; cbn; try assumption.
  - intros key' l'. destruct (decide (key = key')) as [<-|Hne];
      [rewrite lookup_insert_eq; intros [= <-]; exact Hl | rewrite lookup_insert_ne by exact Hne; apply wf_queue_bound0].
  - intros key' l' p. destruct (decide (key = key')) as [<-|Hne];
      [rewrite lookup_insert_eq; intros [= <-]; apply Hk | rewrite lookup_insert_ne by exact Hne; apply wf_queue_key0].
Qed.

Lemma wf_queue_default c key :
  well_formed c -> 0 <= max_pending_per_address (options c) ->
  let l := default [] (pending_requests c !! key) in
  zlen l <= max_pending_per_address (options c) /\
  forall p, p ∈ l -> (source_address (rq_transport (pd_request p)), target_address (rq_transport (pd_request p))) = key.
Proof.
  intros [] H0. destruct (pending_requests c !! key) as [l|] eqn:E; cbn; [eauto|].
  split; [lia | intros p Hp; apply not_elem_of_nil in Hp; contradiction].
Qed.

Lemma wf_emit event pair pending c : well_formed c -> well_formed (emit_event event pair pending c).
Proof. intros H. apply (wf_same c); auto. Qed.

Lemma wf_set_stats st c :
  well_formed c -> responses_matched st = responses_matched (stats c) ->
  positive_responses st = positive_responses (stats c) ->
  negative_responses st = negative_responses (stats c) -> well_formed (set_stats st c).
Proof. intros. apply (wf_same c); auto. Qed.

Lemma wf_record h m t c :
  well_formed c -> 1 <= max_pending_per_address (options c) ->
  exists c', record_request h m t c = Done c' /\ well_formed c' /\ options c' = options c.
Proof.
  intros Hwf H1. unfold record_request. cbv zeta.
  destruct (wf_queue_default c (source_address t, target_address t) Hwf ltac:(lia)) as [Hl Hk].
  set (l := default [] _) in *.
  assert (Hpop : exists l', (if max_pending_per_address (options c) <=? zlen l then pop_front l else Done l) = Done l' /\
                   zlen l' < max_pending_per_address (options c) /\ forall p, p ∈ l' -> p ∈ l).
  { destruct (_ <=? zlen l) eqn:E; bool_to_prop; [|eauto].
    destruct l as [|x l0]; [cbn in E; lia|]. exists l0. cbn [length] in *. split_and!; [reflexivity | lia|].
    intros p Hp. apply elem_of_cons. auto. }
  destruct Hpop as (l' & -> & Hl' & Hsub). rewrite bind_Done. eexists. split_and!; [reflexivity| |reflexivity].
  apply wf_emit, wf_set_stats; [|reflexivity..].
  apply wf_set_queue; [exact Hwf | rewrite length_app; cbn [length]; lia|].
  intros p. rewrite elem_of_app, list_elem_of_singleton. intros [Hp | ->]; [auto | reflexivity].
Qed.

Lemma keep_history_bound l : zlen l <= MAX_COMPLETED_HISTORY + 1 -> zlen (keep_history l) <= MAX_COMPLETED_HISTORY.
Proof.
  unfold keep_history, MAX_COMPLETED_HISTORY. intros H. destruct (_ <? zlen l) eqn:E; bool_to_prop; [rewrite length_drop; lia | lia].
Qed.

Lemma keep_history_sub l p : p ∈ keep_history l -> p ∈ l.
Proof.
  unfold keep_history. destruct (_ <? zlen l); [|auto]. intros Hp. destruct l as [|x l]; [exact Hp|].
  cbn in Hp. rewrite drop_0 in Hp. apply elem_of_cons. auto.
Qed.

Lemma wf_process_response h m t c :
  well_formed c -> 1 <= max_pending_per_address (options c) ->
  well_formed (process_response h m t c).2 /\ options (process_response h m t c).2 = options c.
Proof.
  intros Hwf H1. unfold process_response. cbv zeta.
  destruct (wf_queue_default c (target_address t, source_address t) Hwf ltac:(lia)) as [Hl Hk].
  set (l := default [] _) in *. set (key := (target_address t, source_address t)) in *.
  pose proof (find_pending_spec h l) as Hf.
  destruct (find_pending_for_response h l) as [[[before p] after]|]; [|split; [apply wf_emit, (wf_same c); auto | reflexivity]].
  destruct Hf as [Hll Hcase].
  assert (Hp : p ∈ l) by (rewrite Hll; apply elem_of_app; right; left).
  destruct (is_response_pending h) eqn:Erp; cbn [snd]; (split; [|reflexivity]).
  - apply wf_emit, wf_set_stats; [|reflexivity..].
    apply wf_set_queue; [exact Hwf | rewrite Hll in Hl; rewrite length_app in *; exact Hl|].
    intros q. rewrite elem_of_app, elem_of_cons. intros [Hq | [-> | Hq]]; [|exact (Hk p Hp)|];
      apply Hk; rewrite Hll, elem_of_app, elem_of_cons; auto.
  - assert (Herase : zlen (erase_service h l) <= zlen l /\ forall q, q ∈ erase_service h l -> q ∈ l).
    { destruct Hcase as [(_ & _ & ->)|(_ & _ & ->)]; [|split; [lia | auto]]. rewrite Hll, !length_app.
      cbn [length]. split; [lia|]. intros q. rewrite !elem_of_app, elem_of_cons. tauto. }
    pose proof (wf_set_queue key (erase_service h l) c Hwf ltac:(lia) ltac:(intros q Hq; apply Hk, Herase, Hq)) as [].
    pose proof (Hk p Hp) as Hkey. injection Hkey as Hks Hkt.
    split; cbn; try assumption.
    + apply keep_history_bound. rewrite length_app. cbn [length] in *. cbn in wf_history_bound0. lia.
    + intros q Hq. apply keep_history_sub, elem_of_app in Hq as [Hq | Hq]; [apply wf_history0, Hq|].
      apply list_elem_of_singleton in Hq as ->. cbn. eexists. split_and!; [reflexivity | exact Erp | cbn; congruence..].
    + apply count_matched_ok, Hwf.
Qed.

Lemma emit_all_fields removed c :
  let c' := foldl (fun c p => emit_event RequestTimeout None (Some p) c) c removed in
  options c' = options c /\ stats c' = stats c /\ pending_requests c' = pending_requests c /\
  completed c' = completed c /\ callbacks c' = callbacks c.
Proof.
  revert c. induction removed as [|p removed IH]; intros c; cbn; [auto|].
  destruct (IH (emit_event RequestTimeout None (Some p) c)) as (-> & -> & -> & -> & ->). cbn. auto.
Qed.

Lemma wf_check_timeouts now c :
  well_formed c -> well_formed (check_timeouts now c).2 /\ options (check_timeouts now c).2 = options c.
Proof.
  intros []. unfold check_timeouts. cbv zeta. cbn [snd].
  destruct (emit_all_fields (timed_out now c) c) as (Ho & Hs & Hp & Hc & Hcb).
  split; [|cbn; rewrite Ho; reflexivity].
  split; cbn; rewrite ?Ho, ?Hc; try assumption.
  - intros key l. rewrite lookup_fmap. destruct (pending_requests c !! key) as [l0|] eqn:E; cbn; [|discriminate].
    intros [= <-]. pose proof (wf_queue_bound0 _ _ E). pose proof (length_filter (fun p => is_timed_out now (timing (options c)) p = false) l0). lia.
  - intros key l p. rewrite lookup_fmap. destruct (pending_requests c !! key) as [l0|] eqn:E; cbn; [|discriminate].
    intros [= <-] Hin. apply list_elem_of_filter in Hin as [_ Hin]. eauto.
Qed.

Lemma wf_step op c :
  well_formed c -> 1 <= max_pending_per_address (options c) ->
  exists c', step op c = Done c' /\ well_formed c' /\
    max_pending_per_address (options c') = max_pending_per_address (options c).
Proof.
  intros Hwf H1. destruct op; cbn [step].
  - destruct (wf_record h m transport c Hwf H1) as (c' & -> & Hwf' & Ho). exists c'. rewrite Ho. auto.
  - destruct (wf_process_response h m transport c Hwf H1) as [Hwf' Ho].
    exists (process_response h m transport c).2. rewrite Ho. auto.
  - destruct (wf_check_timeouts now c Hwf) as [Hwf' Ho]. exists (check_timeouts now c).2. rewrite Ho. auto.
  - eexists. split_and!; [reflexivity | apply (wf_same c); auto | reflexivity].
  - eexists. split_and!; [reflexivity | apply (wf_same c); auto | reflexivity].
  - eexists. split_and!; [reflexivity | apply (wf_same c); auto | reflexivity].
  - eexists. split_and!; [reflexivity | | reflexivity].
    destruct Hwf. split; cbn; try assumption; intros key l; rewrite lookup_empty; discriminate.
  - eexists. split_and!; [reflexivity | | reflexivity].
    destruct Hwf. split; cbn; try assumption; [unfold MAX_COMPLETED_HISTORY; lia|].
    intros p Hp. apply not_elem_of_nil in Hp. contradiction.
  - eexists. split_and!; [reflexivity | | reflexivity].
    destruct Hwf. split; cbn; try assumption; try (intros key l; rewrite lookup_empty; discriminate);
      [unfold MAX_COMPLETED_HISTORY; lia|].
    intros p Hp. apply not_elem_of_nil in Hp. contradiction.
  - eexists. split_and!; [reflexivity | | reflexivity].
    destruct Hwf. split; cbn; assumption || reflexivity.
Qed.

(** The invariant of the correlator.  When the limit per address pair is at least
    one, no history of operations is undefined, and after it: every queue is within
    the limit and holds only requests of its own address pair; the history has at
    most 1000 pairs, each complete, with a final response that travelled in the
    opposite direction of its request; and the matched responses are the positive
    and the negative ones (modulo 2^64). *)
Theorem correlator_invariant (opts : Options) (ops : list CorrelatorOp) :
  1 <= max_pending_per_address opts ->
  exists c, run ops (new_correlator opts) = Done c /\ well_formed c.
Proof.
  intros H1.
  assert (H0 : well_formed (new_correlator opts)).
  { split; cbn; try (intros key l; rewrite lookup_empty; discriminate); try reflexivity;
      [unfold MAX_COMPLETED_HISTORY; lia|]. intros p Hp. apply not_elem_of_nil in Hp. contradiction. }
  assert (Hm : 1 <= max_pending_per_address (options (new_correlator opts))) by exact H1.
  clear H1. revert H0 Hm. generalize (new_correlator opts). clear opts.
  induction ops as [|op ops IH]; intros c H0 Hm; cbn [run]; [eauto|].
  destruct (wf_step op c H0 Hm) as (c' & -> & Hwf & Ho). rewrite bind_Done. apply IH; [exact Hwf | lia].
Qed.

Lemma correlator_invariant_witness :
  exists c, run [CheckTimeouts 5; Reset] (new_correlator Options_default) = Done c /\ well_formed c.
Proof. apply correlator_invariant. cbn. lia. Defined.

(** ** Matching *)

Section matching.
Context (a b : Z).

(** A request from [a] to [b], and a final response from [b] to [a]. *)
Definition request_message := (Uds.UdsHeader * Uds.UdsServiceMessage * TransportInfo)%type.
Definition from_to (x y : Z) (r : request_message) : Prop := source_address r.2 = x /\ target_address r.2 = y.
Definition service (r : request_message) : Z := Uds.service_id r.1.1.

Definition pending_of (r : request_message) : PendingRequest :=
  mkPending (mkRequest r.1.1 r.1.2 r.2 (timestamp r.2)) 0 (Uds.suppress_positive_response r.1.1).

(** The pair that a request and a response form. *)
Definition pair_of (req resp : request_message) : RequestResponsePair :=
  mkPair (pd_request (pending_of req)) (Some (mkResponse resp.1.1 resp.1.2 resp.2 (timestamp resp.2) 0)).

Fixpoint record_all (reqs : list request_message) (c : RequestCorrelator) : res Empty_set RequestCorrelator :=
  match reqs with
  | [] => Done c
  | (h, m, t) :: reqs' => c' ← record_request h m t c; record_all reqs' c'
  end.

Fixpoint respond_all (resps : list request_message) (c : RequestCorrelator) :
    list (option RequestResponsePair) * RequestCorrelator :=
  match resps with
  | [] => ([], c)
  | (h, m, t) :: resps' =>
      let '(p, c') := process_response h m t c in
      let '(ps, c'') := respond_all resps' c' in (p :: ps, c'')
  end.

Definition queue (c : RequestCorrelator) : list PendingRequest := default [] (pending_requests c !! (a, b)).

Lemma record_all_queue reqs c :
  Forall (from_to a b) reqs -> zlen (queue c) + zlen reqs <= max_pending_per_address (options c) ->
  exists c', record_all reqs c = Done c' /\ queue c' = queue c ++ map pending_of reqs /\ options c' = options c.
Proof.
  revert c. induction reqs as [|[[h m] t] reqs IH]; intros c Hf Hl; cbn [record_all map].
  - exists c. rewrite app_nil_r. auto.
  - apply Forall_cons in Hf as [[Hs Ht] Hf]. cbn in Hs, Ht. cbn [length] in Hl.
    unfold record_request. cbv zeta. rewrite Hs, Ht. change (default [] _) with (queue c).
    rewrite (proj2 (Z.leb_gt _ _)) by lia. rewrite !bind_Done.
    match goal with |- context [record_all reqs ?x] => set (c1 := x) end.
    assert (Hq : queue c1 = queue c ++ [pending_of (h, m, t)]).
    { unfold queue at 1, c1. cbn. rewrite lookup_insert_eq. reflexivity. }
    destruct (IH c1 Hf) as (c' & -> & Hq' & Ho).
    + rewrite Hq, length_app. cbn [length]. cbn. lia.
    + exists c'. split_and!; [reflexivity | rewrite Hq', Hq, <- app_assoc; reflexivity | exact Ho].
Qed.

Lemma service_pending r : pending_service (pending_of r) = service r.
Proof. destruct r as [[h m] t]. reflexivity. Qed.

(** A final response to a queue of requests of different services. *)
Lemma respond_one before req after c h m t :
  queue c = map pending_of (before ++ req :: after) -> NoDup (map service (before ++ req :: after)) ->
  source_address t = b -> target_address t = a -> Uds.service_id h = service req -> is_response_pending h = false ->
  exists c', process_response h m t c = (Some (pair_of req (h, m, t)), c') /\
    queue c' = map pending_of (before ++ after).
Proof.
  intros Hq Hnd Hs Ht Hsid Hrp. unfold process_response. cbv zeta. rewrite Hs, Ht.
  change (default [] _) with (queue c). rewrite Hq, map_app. cbn [map].
  assert (Hb : Forall (fun y => same_service h y = false) (map pending_of before)).
  { rewrite Forall_map. apply Forall_forall. intros r Hr. cbn. unfold same_service. rewrite service_pending, Hsid.
    apply Z.eqb_neq. intros Heq. rewrite map_app in Hnd. cbn [map] in Hnd.
    apply NoDup_app in Hnd as (_ & Hnd & _). apply (Hnd (service r)); [apply list_elem_of_fmap; eauto|].
    rewrite Heq. left. }
  assert (Hm : same_service h (pending_of req) = true)
    by (unfold same_service; rewrite service_pending, Hsid; apply Z.eqb_refl).
  unfold find_pending_for_response, erase_service. rewrite !split_first_app by assumption. rewrite Hrp.
  eexists. split; [reflexivity|]. unfold queue. cbn. rewrite lookup_insert_eq, map_app. reflexivity.
Qed.

Lemma respond_all_queue resps reqs c :
  queue c = map pending_of reqs -> NoDup (map service reqs) -> map service resps ≡ₚ map service reqs ->
  Forall (from_to b a) resps -> Forall (fun r => is_response_pending r.1.1 = false) resps ->
  exists ps c', respond_all resps c = (map Some ps, c') /\ queue c' = [] /\
    Forall2 (fun resp p => exists req, req ∈ reqs /\ service req = service resp /\ p = pair_of req resp) resps ps.
Proof.
  revert reqs c. induction resps as [|[[h m] t] resps IH]; intros reqs c Hq Hnd Hperm Hf Hrp.
  - cbn in Hperm. apply Permutation_nil_l in Hperm. symmetry in Hperm. apply map_eq_nil in Hperm as ->.
    exists [], c. split_and!; [reflexivity | exact Hq | constructor].
  - apply Forall_cons in Hf as [[Hs Ht] Hf]. apply Forall_cons in Hrp as [Hrp1 Hrp]. cbn in Hs, Ht, Hrp1.
    assert (Hin : service (h, m, t) ∈ map service reqs).
    { rewrite <- Hperm. left. }
    apply list_elem_of_fmap in Hin as (req & Hreq & Hin).
    apply list_elem_of_split in Hin as (before & after & ->).
    destruct (respond_one before req after c h m t Hq Hnd Hs Ht Hreq Hrp1) as (c1 & Hp & Hq1).
    assert (Hperm' : map service resps ≡ₚ map service (before ++ after)).
    { rewrite map_app in Hperm |- *. cbn [map] in Hperm. rewrite Hreq, <- Permutation_middle in Hperm.
      apply Permutation_cons_inv in Hperm. exact Hperm. }
    assert (Hnd' : NoDup (map service (before ++ after))).
    { rewrite map_app in Hnd |- *. cbn [map] in Hnd. rewrite <- Permutation_middle in Hnd. apply NoDup_cons in Hnd. apply Hnd. }
    destruct (IH _ c1 Hq1 Hnd' Hperm' Hf Hrp) as (ps & c' & Hr & Hq' & H2).
    exists (pair_of req (h, m, t) :: ps), c'. cbn [respond_all]. rewrite Hp, Hr. split_and!; [reflexivity | exact Hq'|].
    constructor; [exists req; split_and!; [apply elem_of_app; right; left | congruence | reflexivity]|].
    eapply Forall2_impl; [exact H2|]. intros resp p (r & Hr' & ?). exists r. split; [|assumption].
    rewrite elem_of_app, elem_of_cons. apply elem_of_app in Hr'. tauto.
Qed.
End matching.

(** [C16] Responses are matched in any order.  When the requests sent from one address to
    another are of different services and no more than the limit, and one final
    response to each comes back in whatever order, then every response yields the
    pair of the request of its service and of itself, and nothing is pending
    afterwards. *)
Theorem correlator_any_order (a b : Z) (opts : Options) (reqs resps : list request_message) :
  Forall (from_to a b) reqs -> NoDup (map service reqs) -> zlen reqs <= max_pending_per_address opts ->
  Forall (from_to b a) resps -> Forall (fun r => is_response_pending r.1.1 = false) resps ->
  map service resps ≡ₚ map service reqs ->
  exists c pairs c',
    record_all reqs (new_correlator opts) = Done c /\ respond_all resps c = (map Some pairs, c') /\
    get_pending a b c' = [] /\
    Forall2 (fun resp p => exists req, req ∈ reqs /\ service req = service resp /\ p = pair_of req resp) resps pairs.
Proof.
  intros Hreq Hnd Hl Hresp Hrp Hperm.
  destruct (record_all_queue a b reqs (new_correlator opts) Hreq) as (c & Hc & Hq & _).
  { unfold queue. cbn. rewrite lookup_empty. cbn. lia. }
  assert (Hq0 : queue a b c = map pending_of reqs).
  { rewrite Hq. unfold queue. cbn. rewrite lookup_empty. reflexivity. }
  destruct (respond_all_queue a b resps reqs c Hq0 Hnd Hperm Hresp Hrp) as (ps & c' & Hr & Hq' & H2).
  exists c, ps, c'. auto.
Qed.

(** Two requests, answered in the opposite order, one of them negatively. *)
Definition example_request (sid : Z) : request_message :=
  (Uds.mkUdsHeader sid Uds.Request None false None None [] [], Uds.Unparsed,
   mkTransportInfo TransportDoIP 0x0E00 0x1000 0 None).
Definition example_response (sid : Z) : request_message :=
  (Uds.mkUdsHeader sid Uds.NegativeResponse None false (Some sid) (Some 0x31) [] [], Uds.NegativeResponseMessage sid 0x31,
   mkTransportInfo TransportDoIP 0x1000 0x0E00 5000000 None).

Lemma correlator_any_order_witness :
  exists c pairs c',
    record_all [example_request 0x22; example_request 0x10] (new_correlator Options_default) = Done c /\
    respond_all [example_response 0x10; example_response 0x22] c = (map Some pairs, c') /\
    get_pending 0x0E00 0x1000 c' = [] /\
    Forall2 (fun resp p => exists req, req ∈ [example_request 0x22; example_request 0x10] /\
                             service req = service resp /\ p = pair_of req resp)
      [example_response 0x10; example_response 0x22] pairs.
Proof.
  apply (correlator_any_order 0x0E00 0x1000 Options_default
           [example_request 0x22; example_request 0x10] [example_response 0x10; example_response 0x22]).
  - repeat constructor.
  - cbn. repeat constructor; rewrite ?list_elem_of_singleton; try discriminate. apply not_elem_of_nil.
  - cbn. lia.
  - repeat constructor.
  - repeat constructor.
  - cbn. constructor.
Defined.

(** A response whose service was not requested still takes the oldest pending
    request of the addresses, whose pair is returned and counted, but only requests
    of the response's service are removed: the request stays pending.  Any number of
    such responses all complete the same request, which can then still be answered
    or time out. *)
Theorem correlator_fallback (h : Uds.UdsHeader) (m : Uds.UdsServiceMessage) (t : TransportInfo)
    (c : RequestCorrelator) (p : PendingRequest) (l : list PendingRequest) (n : nat) :
  pending_requests c !! (target_address t, source_address t) = Some (p :: l) ->
  Forall (fun q => same_service h q = false) (p :: l) -> is_response_pending h = false ->
  let pair := mkPair (pd_request p) (Some (mkResponse h m t (timestamp t) (pending_count p))) in
  let '(pairs, c') := respond_all (replicate n (h, m, t)) c in
  pairs = replicate n (Some pair) /\ pending_requests c' = pending_requests c.
Proof.
  intros Hl Hs Hrp. cbv zeta. revert c Hl. induction n as [|n IH]; intros c Hl; cbn [replicate respond_all]; [auto|].
  destruct (process_response h m t c) as [r c1] eqn:E. unfold process_response in E. cbv zeta in E.
  rewrite Hl in E. cbn [default from_option id] in E.
  unfold find_pending_for_response, erase_service in E. rewrite split_first_none, Hrp in E by exact Hs.
  injection E as <- <-.
  match goal with |- context [respond_all _ ?x] => set (c1 := x) end.
  assert (Hc1 : pending_requests c1 = pending_requests c) by (unfold c1; cbn; apply insert_id, Hl).
  specialize (IH c1). rewrite Hc1 in IH. specialize (IH Hl).
  destruct (respond_all (replicate n (h, m, t)) c1) as [ps c2]. destruct IH as [-> ->].
  split; reflexivity.
Qed.

Lemma correlator_fallback_witness :
  match record_all [example_request 0x22] (new_correlator Options_default) with
  | Done c =>
      let '(pairs, c') := respond_all (replicate 2 (example_response 0x10)) c in
      pairs = replicate 2 (Some (pair_of (example_request 0x22) (example_response 0x10))) /\
      pending_requests c' = pending_requests c
  | _ => False
  end.
Proof.
  destruct (record_all [example_request 0x22] (new_correlator Options_default)) as [c| |] eqn:E;
    [|discriminate E | discriminate E].
  apply (correlator_fallback (example_response 0x10).1.1 (example_response 0x10).1.2 (example_response 0x10).2
           c (pending_of (example_request 0x22)) [] 2);
    injection E as <-; [reflexivity | repeat constructor | reflexivity].
Defined.

(** ** Timeouts *)

Lemma timed_out_elem now c p :
  p ∈ timed_out now c <->
  exists key l, pending_requests c !! key = Some l /\ p ∈ l /\ is_timed_out now (timing (options c)) p = true.
Proof.
  unfold timed_out. rewrite list_elem_of_In, in_flat_map. setoid_rewrite <- list_elem_of_In. split.
  - intros ([key l] & Hkl & Hp). apply elem_of_map_to_list in Hkl. apply list_elem_of_filter in Hp as [Ht Hp]. eauto 6.
  - intros (key & l & Hl & Hp & Ht). exists (key, l). split; [apply elem_of_map_to_list, Hl|].
    apply list_elem_of_filter. auto.
Qed.

(** The number of pending requests, as a sum over the entries of the map. *)
Definition total_of (m : gmap (Z * Z) (list PendingRequest)) : Z := map_fold (fun _ l total => total + zlen l) 0 m.

Lemma total_of_insert m key l : m !! key = None -> total_of (<[key := l]> m) = total_of m + zlen l.
Proof.
  intros Hm. unfold total_of.
  rewrite (map_fold_insert_L (fun _ (l : list PendingRequest) total => total + zlen l)) by (auto; intros; lia). reflexivity.
Qed.

(** What is removed and what stays make up what was pending. *)
Lemma total_of_split (f : PendingRequest -> bool) m :
  total_of ((fun l => filter (fun p => f p = false) l) <$> m) +
  zlen (flat_map (fun kl => filter (fun p => f p = true) kl.2) (map_to_list m)) = total_of m.
Proof.
  induction m as [|key l m Hm IH] using map_ind.
  - rewrite fmap_empty, map_to_list_empty. reflexivity.
  - rewrite fmap_insert, !total_of_insert by (rewrite ?lookup_fmap, ?Hm; reflexivity).
    assert (Hperm : zlen (flat_map (fun kl => filter (fun p => f p = true) kl.2) (map_to_list (<[key:=l]> m))) =
      zlen (filter (fun p => f p = true) l) +
      zlen (flat_map (fun kl => filter (fun p => f p = true) kl.2) (map_to_list m))).
    { rewrite (Permutation_flat_map _ (map_to_list_insert m key l Hm)). cbn. rewrite length_app. lia. }
    rewrite Hperm. clear Hperm.
    assert (Hl : zlen (filter (fun p => f p = true) l) + zlen (filter (fun p => f p = false) l) = zlen l).
    { clear. induction l as [|p l IH]; [reflexivity|]. rewrite !filter_cons. cbn [length].
      repeat case_decide; destruct (f p); try congruence; cbn [length]; lia. }
    lia.
Qed.

(** A timeout check removes exactly the requests that have timed out.  Afterwards
    a queue is what it was without them, the number returned is the number of requests
    gone, and every callback has been called once for each of them.  The time allowed
    is P2, or P2* once a response-pending has come, in both cases counted in whole
    milliseconds from the request itself. *)
Theorem correlator_timeouts_exact (now : Z) (c : RequestCorrelator) :
  let '(count, c') := check_timeouts now c in
  (forall key p, p ∈ get_pending key.1 key.2 c' <->
     p ∈ get_pending key.1 key.2 c /\
     elapsed now p <= (if 0 <? pending_count p then p2_star_server_max (timing (options c))
                       else p2_server_max (timing (options c)))) /\
  total_pending c' + count = total_pending c /\
  calls c' = calls c ++ flat_map (fun p => map (fun cb => mkCall cb RequestTimeout None (Some p)) (callbacks c))
                          (timed_out now c) /\
  (forall p, p ∈ timed_out now c <->
     exists key, p ∈ get_pending key.1 key.2 c /\ is_timed_out now (timing (options c)) p = true) /\
  completed c' = completed c /\ pending_timeouts (stats c') = uint 64 (pending_timeouts (stats c) + count).
Proof.
  unfold check_timeouts. cbv zeta. set (removed := timed_out now c).
  pose proof (emit_all_fields removed c) as Hf. cbv zeta in Hf. destruct Hf as (Ho & Hs & Hp & Hc & Hcb).
  split_and!.
  - intros [a b] p. unfold get_pending. cbn. rewrite lookup_fmap.
    destruct (pending_requests c !! (a, b)) as [l|]; cbn.
    + rewrite list_elem_of_filter. unfold is_timed_out. destruct (0 <? pending_count p); rewrite Z.ltb_ge; tauto.
    + split; [intros H; apply not_elem_of_nil in H; contradiction | tauto].
  - unfold total_pending. cbn. exact (total_of_split (is_timed_out now (timing (options c))) (pending_requests c)).
  - cbn. clearbody removed. clear Ho Hs Hp Hc Hcb. revert c. induction removed as [|p removed IH]; intros c; cbn; [rewrite app_nil_r; reflexivity|].
    rewrite IH. cbn. rewrite <- app_assoc. reflexivity.
  - intros p. unfold removed. rewrite timed_out_elem. split.
    + intros (key & l & Hl & Hin & Ht). exists key. unfold get_pending. destruct key as [a b]. cbn. rewrite Hl. auto.
    + intros ([a b] & Hin & Ht). unfold get_pending in Hin. cbn in Hin.
      destruct (pending_requests c !! (a, b)) as [l|] eqn:E; cbn in Hin; [|apply not_elem_of_nil in Hin; contradiction].
      eauto 6.
  - cbn. exact Hc.
  - cbn. reflexivity.
Qed.

(** Every request is eventually resolved: at a time that is beyond both limits for
    the newest of the pending requests, one check leaves nothing pending. *)
Theorem correlator_drains (now : Z) (c : RequestCorrelator) :
  (forall key p, p ∈ get_pending key.1 key.2 c ->
     rq_timestamp (pd_request p) +
       (Z.max 0 (Z.max (p2_server_max (timing (options c))) (p2_star_server_max (timing (options c)))) + 1) *
         MILLISECOND <= now) ->
  total_pending (check_timeouts now c).2 = 0 /\ (check_timeouts now c).1 = total_pending c.
Proof.
  intros H.
  assert (Hall : forall key l, pending_requests c !! key = Some l ->
            filter (fun p => is_timed_out now (timing (options c)) p = false) l = []).
  { intros key l Hl. destruct (filter _ l) as [|p l'] eqn:E; [reflexivity|]. exfalso.
    assert (Hin : p ∈ filter (fun p => is_timed_out now (timing (options c)) p = false) l) by (rewrite E; left).
    apply list_elem_of_filter in Hin as [Ht Hin].
    specialize (H key p). unfold get_pending in H. destruct key as [a b]. cbn [fst snd] in H. rewrite Hl in H.
    specialize (H Hin). unfold is_timed_out, elapsed, MILLISECOND in *.
    rewrite Z.quot_div_nonneg in Ht by lia. destruct (0 <? pending_count p); apply Z.ltb_ge in Ht; lia. }
  pose proof (total_of_split (is_timed_out now (timing (options c))) (pending_requests c)) as Hsum.
  assert (Hz : total_of ((fun l => filter (fun p => is_timed_out now (timing (options c)) p = false) l) <$>
                           pending_requests c) = 0).
  { clear Hsum H. revert Hall. generalize (pending_requests c). intros m Hm.
    induction m as [|key l m Hn IH] using map_ind; [rewrite fmap_empty; reflexivity|].
    rewrite fmap_insert, total_of_insert by (rewrite lookup_fmap, Hn; reflexivity).
    rewrite (Hm key l) by apply lookup_insert_eq. cbn [length]. rewrite IH; [reflexivity|].
    intros key' l' Hl'. apply (Hm key'). rewrite lookup_insert_ne; [exact Hl'|]. congruence. }
  unfold check_timeouts, total_pending. cbn. unfold total_of in *. split; [exact Hz|]. unfold timed_out. lia.
Qed.

Lemma correlator_drains_witness :
  match record_all [example_request 0x22] (new_correlator Options_default) with
  | Done c => total_pending (check_timeouts (5001 * MILLISECOND) c).2 = 0 /\
              (check_timeouts (5001 * MILLISECOND) c).1 = total_pending c
  | _ => False
  end.
Proof.
  destruct (record_all [example_request 0x22] (new_correlator Options_default)) as [c| |] eqn:E;
    [|discriminate E | discriminate E].
  apply (correlator_drains (5001 * MILLISECOND) c). injection E as <-. intros [a b] p. unfold get_pending. cbn [fst snd].
  destruct (decide ((0x0E00, 0x1000) = (a, b))) as [[= <- <-]|Hne].
  - cbn. intros Hp. apply list_elem_of_singleton in Hp as ->. vm_compute. discriminate.
  - change (pending_requests _) with
      (<[(0x0E00, 0x1000) := [pending_of (example_request 0x22)]]> (∅ : gmap (Z * Z) (list PendingRequest))).
    rewrite lookup_insert_ne by exact Hne. rewrite lookup_empty. cbn.
    intros Hp. apply not_elem_of_nil in Hp. contradiction.
Defined.
