(* ===== verification/Flash.v ===== *)
(** * Flash programming sequences (src/protocols/diagnostic/flash_sequence.cpp)

    The tracker of downloads, uploads, erasures and verifications: one sequence per
    ECU in [active_sequences], and the archived ones in [history].

    Time points are nanoseconds with 0 as the epoch of the clock, [total_duration]
    and [erase_duration] milliseconds, [sequence_timeout] seconds.
    [std::chrono::steady_clock::now()] is the argument [now] of the operations that
    read it.  Counters wrap at 64 bits.  A callback is a number; its calls, with the
    sequence as it is then, are recorded in [calls].  The messages of services are
    given by the fields that the tracker reads. *)

From Stdlib Require Import ZArith Lia.
From Stdlib Require Import Strings.Byte.
From stdpp Require Import base numbers list gmap strings.
From S2P Require Import Prelude Uds UdsTables.

Definition MILLISECOND : Z := 1000000.
Definition SECOND : Z := 1000000000.

(** ** Sequences *)

Inductive FlashOperationType := Download | Upload.

Inductive FlashSequenceState :=
| Idle | EraseStarted | Erasing | EraseComplete | EraseFailed | Downloading | Transferring | Verifying
| Complete | Failed | Aborted.
#[export] Instance FlashSequenceState_eq_dec : EqDecision FlashSequenceState.
Proof. solve_decision. Defined.

Definition flash_sequence_state_string (st : FlashSequenceState) : string :=
  match st with
  | Idle => "Idle"
  | EraseStarted => "EraseStarted"
  | Erasing => "Erasing"
  | EraseComplete => "EraseComplete"
  | EraseFailed => "EraseFailed"
  | Downloading => "Downloading"
  | Transferring => "Transferring"
  | Verifying => "Verifying"
  | Complete => "Complete"
  | Failed => "Failed"
  | Aborted => "Aborted"
  end.

Record FlashBlock := mkFlashBlock {
  sequence_counter : Z;
  data_size : Z;
  timestamp : Z;
  acknowledged : bool;
  error_code : option Z
}.
Definition acknowledge_block (b : FlashBlock) : FlashBlock :=
  mkFlashBlock (sequence_counter b) (data_size b) (timestamp b) true (error_code b).
Definition fail_block (nrc : Z) (b : FlashBlock) : FlashBlock :=
  mkFlashBlock (sequence_counter b) (data_size b) (timestamp b) (acknowledged b) (Some nrc).

Record FlashRegion := mkFlashRegion {
  start_address : Z;
  size : Z;
  data_format : Z;
  max_block_size : Z
}.
(** Addresses are 64-bit, and the sum wraps. *)
Definition region_contains (r : FlashRegion) (address : Z) : bool :=
  (start_address r <=? address) && (address <? uint 64 (start_address r + size r)).

Record FlashSequence := mkFlashSequence {
  ecu_address : Z;
  tester_address : Z;
  operation_type : FlashOperationType;
  region : FlashRegion;
  state : FlashSequenceState;
  start_time : Z;
  end_time : Z;
  total_duration : Z;
  blocks : list FlashBlock;
  total_bytes_transferred : Z;
  expected_sequence_counter : Z;
  retry_count : Z;
  last_error : option Z;
  error_message : string;
  erase_performed : bool;
  erase_duration : Z;
  checksum_verified : bool;
  checksum_value : option Z
}.
Definition new_sequence : FlashSequence :=
  mkFlashSequence 0 0 Download (mkFlashRegion 0 0 0 0) Idle 0 0 0 [] 0 1 0 None "" false 0 false None.

Definition set_ecu_address (x : Z) (s : FlashSequence) : FlashSequence :=
  mkFlashSequence x (tester_address s) (operation_type s) (region s) (state s) (start_time s) (end_time s)
    (total_duration s) (blocks s) (total_bytes_transferred s) (expected_sequence_counter s) (retry_count s)
    (last_error s) (error_message s) (erase_performed s) (erase_duration s) (checksum_verified s)
    (checksum_value s).
Definition set_tester_address (x : Z) (s : FlashSequence) : FlashSequence :=
  mkFlashSequence (ecu_address s) x (operation_type s) (region s) (state s) (start_time s) (end_time s)
    (total_duration s) (blocks s) (total_bytes_transferred s) (expected_sequence_counter s) (retry_count s)
    (last_error s) (error_message s) (erase_performed s) (erase_duration s) (checksum_verified s)
    (checksum_value s).
Definition set_operation_type (x : FlashOperationType) (s : FlashSequence) : FlashSequence :=
  mkFlashSequence (ecu_address s) (tester_address s) x (region s) (state s) (start_time s) (end_time s)
    (total_duration s) (blocks s) (total_bytes_transferred s) (expected_sequence_counter s) (retry_count s)
    (last_error s) (error_message s) (erase_performed s) (erase_duration s) (checksum_verified s)
    (checksum_value s).
Definition set_region (x : FlashRegion) (s : FlashSequence) : FlashSequence :=
  mkFlashSequence (ecu_address s) (tester_address s) (operation_type s) x (state s) (start_time s)
    (end_time s) (total_duration s) (blocks s) (total_bytes_transferred s) (expected_sequence_counter s)
    (retry_count s) (last_error s) (error_message s) (erase_performed s) (erase_duration s)
    (checksum_verified s) (checksum_value s).
Definition set_state (x : FlashSequenceState) (s : FlashSequence) : FlashSequence :=
  mkFlashSequence (ecu_address s) (tester_address s) (operation_type s) (region s) x (start_time s)
    (end_time s) (total_duration s) (blocks s) (total_bytes_transferred s) (expected_sequence_counter s)
    (retry_count s) (last_error s) (error_message s) (erase_performed s) (erase_duration s)
    (checksum_verified s) (checksum_value s).
Definition set_start_time (x : Z) (s : FlashSequence) : FlashSequence :=
  mkFlashSequence (ecu_address s) (tester_address s) (operation_type s) (region s) (state s) x (end_time s)
    (total_duration s) (blocks s) (total_bytes_transferred s) (expected_sequence_counter s) (retry_count s)
    (last_error s) (error_message s) (erase_performed s) (erase_duration s) (checksum_verified s)
    (checksum_value s).
Definition set_end_time (x : Z) (s : FlashSequence) : FlashSequence :=
  mkFlashSequence (ecu_address s) (tester_address s) (operation_type s) (region s) (state s) (start_time s)
    x (total_duration s) (blocks s) (total_bytes_transferred s) (expected_sequence_counter s)
    (retry_count s) (last_error s) (error_message s) (erase_performed s) (erase_duration s)
    (checksum_verified s) (checksum_value s).
Definition set_total_duration (x : Z) (s : FlashSequence) : FlashSequence :=
  mkFlashSequence (ecu_address s) (tester_address s) (operation_type s) (region s) (state s) (start_time s)
    (end_time s) x (blocks s) (total_bytes_transferred s) (expected_sequence_counter s) (retry_count s)
    (last_error s) (error_message s) (erase_performed s) (erase_duration s) (checksum_verified s)
    (checksum_value s).
Definition set_blocks (x : list FlashBlock) (s : FlashSequence) : FlashSequence :=
  mkFlashSequence (ecu_address s) (tester_address s) (operation_type s) (region s) (state s) (start_time s)
    (end_time s) (total_duration s) x (total_bytes_transferred s) (expected_sequence_counter s)
    (retry_count s) (last_error s) (error_message s) (erase_performed s) (erase_duration s)
    (checksum_verified s) (checksum_value s).
Definition set_total_bytes_transferred (x : Z) (s : FlashSequence) : FlashSequence :=
  mkFlashSequence (ecu_address s) (tester_address s) (operation_type s) (region s) (state s) (start_time s)
    (end_time s) (total_duration s) (blocks s) x (expected_sequence_counter s) (retry_count s)
    (last_error s) (error_message s) (erase_performed s) (erase_duration s) (checksum_verified s)
    (checksum_value s).
Definition set_expected_sequence_counter (x : Z) (s : FlashSequence) : FlashSequence :=
  mkFlashSequence (ecu_address s) (tester_address s) (operation_type s) (region s) (state s) (start_time s)
    (end_time s) (total_duration s) (blocks s) (total_bytes_transferred s) x (retry_count s) (last_error s)
    (error_message s) (erase_performed s) (erase_duration s) (checksum_verified s) (checksum_value s).
Definition set_retry_count (x : Z) (s : FlashSequence) : FlashSequence :=
  mkFlashSequence (ecu_address s) (tester_address s) (operation_type s) (region s) (state s) (start_time s)
    (end_time s) (total_duration s) (blocks s) (total_bytes_transferred s) (expected_sequence_counter s) x
    (last_error s) (error_message s) (erase_performed s) (erase_duration s) (checksum_verified s)
    (checksum_value s).
Definition set_last_error (x : option Z) (s : FlashSequence) : FlashSequence :=
  mkFlashSequence (ecu_address s) (tester_address s) (operation_type s) (region s) (state s) (start_time s)
    (end_time s) (total_duration s) (blocks s) (total_bytes_transferred s) (expected_sequence_counter s)
    (retry_count s) x (error_message s) (erase_performed s) (erase_duration s) (checksum_verified s)
    (checksum_value s).
Definition set_error_message (x : string) (s : FlashSequence) : FlashSequence :=
  mkFlashSequence (ecu_address s) (tester_address s) (operation_type s) (region s) (state s) (start_time s)
    (end_time s) (total_duration s) (blocks s) (total_bytes_transferred s) (expected_sequence_counter s)
    (retry_count s) (last_error s) x (erase_performed s) (erase_duration s) (checksum_verified s)
    (checksum_value s).
Definition set_erase_performed (x : bool) (s : FlashSequence) : FlashSequence :=
  mkFlashSequence (ecu_address s) (tester_address s) (operation_type s) (region s) (state s) (start_time s)
    (end_time s) (total_duration s) (blocks s) (total_bytes_transferred s) (expected_sequence_counter s)
    (retry_count s) (last_error s) (error_message s) x (erase_duration s) (checksum_verified s)
    (checksum_value s).
Definition set_erase_duration (x : Z) (s : FlashSequence) : FlashSequence :=
  mkFlashSequence (ecu_address s) (tester_address s) (operation_type s) (region s) (state s) (start_time s)
    (end_time s) (total_duration s) (blocks s) (total_bytes_transferred s) (expected_sequence_counter s)
    (retry_count s) (last_error s) (error_message s) (erase_performed s) x (checksum_verified s)
    (checksum_value s).
Definition set_checksum_verified (x : bool) (s : FlashSequence) : FlashSequence :=
  mkFlashSequence (ecu_address s) (tester_address s) (operation_type s) (region s) (state s) (start_time s)
    (end_time s) (total_duration s) (blocks s) (total_bytes_transferred s) (expected_sequence_counter s)
    (retry_count s) (last_error s) (error_message s) (erase_performed s) (erase_duration s) x
    (checksum_value s).
Definition set_checksum_value (x : option Z) (s : FlashSequence) : FlashSequence :=
  mkFlashSequence (ecu_address s) (tester_address s) (operation_type s) (region s) (state s) (start_time s)
    (end_time s) (total_duration s) (blocks s) (total_bytes_transferred s) (expected_sequence_counter s)
    (retry_count s) (last_error s) (error_message s) (erase_performed s) (erase_duration s)
    (checksum_verified s) x.

Definition is_active (s : FlashSequence) : bool :=
  match state s with Downloading | Transferring | Erasing | Verifying => true | _ => false end.
Definition is_successful (s : FlashSequence) : bool := match state s with Complete => true | _ => false end.
Definition is_failed (s : FlashSequence) : bool :=
  match state s with Failed | Aborted | EraseFailed => true | _ => false end.
Definition has_error (b : FlashBlock) : bool := bool_decide (is_Some (error_code b)).
Definition successful_blocks (s : FlashSequence) : Z :=
  zlen (filter (fun b => acknowledged b && negb (has_error b) = true) (blocks s)).
Definition failed_blocks (s : FlashSequence) : Z := zlen (filter (fun b => has_error b = true) (blocks s)).

(** [duration_cast<milliseconds>(timestamp - seq.start_time)]. *)
Definition since_start (time : Z) (s : FlashSequence) : Z := Z.quot (time - start_time s) MILLISECOND.

(** ** Events *)

Inductive FlashEvent :=
| EraseStartedEvent | EraseProgress | EraseCompleted | EraseFailedEvent | DownloadStarted | UploadStarted
| BlockTransferred | BlockAcknowledged | BlockFailed | TransferExitOk | TransferExitFail
| VerificationStart | VerificationOk | VerificationFail | SequenceComplete | SequenceFailed | SequenceAborted.

Definition flash_event_string (event : FlashEvent) : string :=
  match event with
  | EraseStartedEvent => "EraseStarted"
  | EraseProgress => "EraseProgress"
  | EraseCompleted => "EraseCompleted"
  | EraseFailedEvent => "EraseFailed"
  | DownloadStarted => "DownloadStarted"
  | UploadStarted => "UploadStarted"
  | BlockTransferred => "BlockTransferred"
  | BlockAcknowledged => "BlockAcknowledged"
  | BlockFailed => "BlockFailed"
  | TransferExitOk => "TransferExitOk"
  | TransferExitFail => "TransferExitFail"
  | VerificationStart => "VerificationStart"
  | VerificationOk => "VerificationOk"
  | VerificationFail => "VerificationFail"
  | SequenceComplete => "SequenceComplete"
  | SequenceFailed => "SequenceFailed"
  | SequenceAborted => "SequenceAborted"
  end.

(** ** The tracker *)

Record Options := mkOptions {
  track_erase_routines : bool;
  track_verification : bool;
  max_history : nat;
  sequence_timeout : Z
}.
Definition Options_default : Options := mkOptions true true 100 300.

Record Statistics := mkStatistics {
  sequences_started : Z;
  sequences_completed : Z;
  sequences_failed : Z;
  sequences_aborted : Z;
  bytes_transferred : Z;
  blocks_transferred : Z;
  erase_operations : Z;
  verification_operations : Z
}.
Definition Statistics_zero : Statistics := mkStatistics 0 0 0 0 0 0 0 0.

Record Call := mkCall { call_callback : nat; call_event : FlashEvent; call_sequence : FlashSequence }.

Record FlashSequenceTracker := mkTracker {
  options : Options;
  stats : Statistics;
  active_sequences : gmap Z FlashSequence;
  history : gmap Z (list FlashSequence);
  callbacks : list nat;
  calls : list Call
}.
Definition new_tracker (opts : Options) : FlashSequenceTracker := mkTracker opts Statistics_zero ∅ ∅ [] [].

Definition set_stats (x : Statistics) (t : FlashSequenceTracker) : FlashSequenceTracker :=
  mkTracker (options t) x (active_sequences t) (history t) (callbacks t) (calls t).
Definition set_active_sequences (x : gmap Z FlashSequence) (t : FlashSequenceTracker) : FlashSequenceTracker :=
  mkTracker (options t) (stats t) x (history t) (callbacks t) (calls t).
Definition set_history (x : gmap Z (list FlashSequence)) (t : FlashSequenceTracker) : FlashSequenceTracker :=
  mkTracker (options t) (stats t) (active_sequences t) x (callbacks t) (calls t).
Definition set_callbacks (x : list nat) (t : FlashSequenceTracker) : FlashSequenceTracker :=
  mkTracker (options t) (stats t) (active_sequences t) (history t) x (calls t).
Definition set_calls (x : list Call) (t : FlashSequenceTracker) : FlashSequenceTracker :=
  mkTracker (options t) (stats t) (active_sequences t) (history t) (callbacks t) x.

(** Increments of the counters, modulo 2^64. *)
Definition count_started (st : Statistics) : Statistics :=
  mkStatistics (uint 64 (sequences_started st + 1)) (sequences_completed st) (sequences_failed st)
    (sequences_aborted st) (bytes_transferred st) (blocks_transferred st) (erase_operations st)
    (verification_operations st).
Definition count_completed (st : Statistics) : Statistics :=
  mkStatistics (sequences_started st) (uint 64 (sequences_completed st + 1)) (sequences_failed st)
    (sequences_aborted st) (bytes_transferred st) (blocks_transferred st) (erase_operations st)
    (verification_operations st).
Definition count_failed (st : Statistics) : Statistics :=
  mkStatistics (sequences_started st) (sequences_completed st) (uint 64 (sequences_failed st + 1))
    (sequences_aborted st) (bytes_transferred st) (blocks_transferred st) (erase_operations st)
    (verification_operations st).
Definition count_aborted (st : Statistics) : Statistics :=
  mkStatistics (sequences_started st) (sequences_completed st) (sequences_failed st)
    (uint 64 (sequences_aborted st + 1)) (bytes_transferred st) (blocks_transferred st)
    (erase_operations st) (verification_operations st).
Definition count_block (bytes : Z) (st : Statistics) : Statistics :=
  mkStatistics (sequences_started st) (sequences_completed st) (sequences_failed st) (sequences_aborted st)
    (uint 64 (bytes_transferred st + bytes)) (uint 64 (blocks_transferred st + 1)) (erase_operations st)
    (verification_operations st).
Definition count_erase (st : Statistics) : Statistics :=
  mkStatistics (sequences_started st) (sequences_completed st) (sequences_failed st) (sequences_aborted st)
    (bytes_transferred st) (blocks_transferred st) (uint 64 (erase_operations st + 1))
    (verification_operations st).
Definition count_verification (st : Statistics) : Statistics :=
  mkStatistics (sequences_started st) (sequences_completed st) (sequences_failed st) (sequences_aborted st)
    (bytes_transferred st) (blocks_transferred st) (erase_operations st)
    (uint 64 (verification_operations st + 1)).

(** ** Private helpers *)

Definition emit_event (event : FlashEvent) (seq : FlashSequence) (t : FlashSequenceTracker) : FlashSequenceTracker :=
  set_calls (calls t ++ map (fun callback => mkCall callback event seq) (callbacks t)) t.

(** A write to the sequence of [ecu] through the reference into the map. *)
Definition put (ecu : Z) (seq : FlashSequence) (t : FlashSequenceTracker) : FlashSequenceTracker :=
  set_active_sequences (<[ecu := seq]> (active_sequences t)) t.
Definition count (f : Statistics -> Statistics) (t : FlashSequenceTracker) : FlashSequenceTracker :=
  set_stats (f (stats t)) t.

(** Pushes the sequence and erases from the front down to [max_history]. *)
Definition push_history (max : nat) (hist : list FlashSequence) (seq : FlashSequence) : list FlashSequence :=
  let hist := hist ++ [seq] in drop (length hist - max) hist.

Definition archive_sequence (ecu : Z) (t : FlashSequenceTracker) : FlashSequenceTracker :=
  match active_sequences t !! ecu with
  | None => t
  | Some seq =>
      let hist := push_history (max_history (options t)) (default [] (history t !! ecu)) seq in
      set_active_sequences (delete ecu (active_sequences t)) (set_history (<[ecu := hist]> (history t)) t)
  end.

Definition get_or_create_sequence (ecu tester : Z) (t : FlashSequenceTracker) : FlashSequence * FlashSequenceTracker :=
  let create t :=
    let seq := set_state Idle (set_tester_address tester (set_ecu_address ecu new_sequence)) in
    (seq, put ecu seq t) in
  match active_sequences t !! ecu with
  | Some seq => if is_active seq then (seq, t) else create (archive_sequence ecu t)
  | None => create t
  end.

(** The new state of the sequence, and the counter that [complete_sequence] increments. *)
Definition complete_sequence (success : bool) (seq : FlashSequence) : FlashSequence :=
  set_state (if success then Complete else Failed) seq.
Definition count_outcome (success : bool) : Statistics -> Statistics :=
  if success then count_completed else count_failed.

(** ** Requests and responses *)

Definition start_transfer (operation : FlashOperationType) (event : FlashEvent)
    (data_format : Z * Z) (memory_address memory_size source target time : Z)
    (t : FlashSequenceTracker) : FlashSequenceTracker :=
  let '(seq, t) := get_or_create_sequence target source t in
  let seq := set_start_time time (set_state Downloading (set_operation_type operation seq)) in
  let seq := set_region (mkFlashRegion memory_address memory_size (Format_to_byte data_format)
                           (max_block_size (region seq))) seq in
  emit_event event seq (count count_started (put target seq t)).

Definition process_request_download := start_transfer Download DownloadStarted.
Definition process_request_upload := start_transfer Upload UploadStarted.

Definition accept_transfer (max_number_of_block_length source time : Z) (t : FlashSequenceTracker) :
    FlashSequenceTracker :=
  match active_sequences t !! source with
  | None => t
  | Some seq =>
      let r := region seq in
      let seq := set_region (mkFlashRegion (start_address r) (size r) (data_format r)
                               (uint 16 max_number_of_block_length)) seq in
      let seq := set_state Transferring seq in
      put source (set_total_duration (since_start time seq) seq) t
  end.

Definition process_request_download_response := accept_transfer.
Definition process_request_upload_response := accept_transfer.

Definition next_counter (counter : Z) : Z :=
  let c := uint 8 (counter mod 255 + 1) in if c =? 0 then 1 else c.

Definition process_transfer_data (block_sequence_counter : Z) (parameter_record : list byte)
    (target time : Z) (t : FlashSequenceTracker) : FlashSequenceTracker :=
  match active_sequences t !! target with
  | None => t
  | Some seq =>
      let block := mkFlashBlock block_sequence_counter (zlen parameter_record) time false None in
      let seq := set_blocks (blocks seq ++ [block]) seq in
      let seq := set_total_bytes_transferred (uint 64 (total_bytes_transferred seq + data_size block)) seq in
      let seq := set_expected_sequence_counter (next_counter block_sequence_counter) seq in
      let seq := set_total_duration (since_start time seq) seq in
      emit_event BlockTransferred seq (count (count_block (data_size block)) (put target seq t))
  end.

(** The first block with the counter that is not acknowledged. *)
Fixpoint acknowledge (counter : Z) (l : list FlashBlock) : option (list FlashBlock) :=
  match l with
  | [] => None
  | b :: l' =>
      if (sequence_counter b =? counter) && negb (acknowledged b) then Some (acknowledge_block b :: l')
      else l'' ← acknowledge counter l'; Some (b :: l'')
  end.

Definition process_transfer_data_response (block_sequence_counter source time : Z) (t : FlashSequenceTracker) :
    FlashSequenceTracker :=
  match active_sequences t !! source with
  | None => t
  | Some seq =>
      match acknowledge block_sequence_counter (blocks seq) with
      | None => t
      | Some bs =>
          let seq := set_blocks bs seq in
          let seq := set_total_duration (since_start time seq) seq in
          emit_event BlockAcknowledged seq (put source seq t)
      end
  end.

(** [process_transfer_exit] does nothing. *)
Definition process_transfer_exit (t : FlashSequenceTracker) : FlashSequenceTracker := t.

Definition process_transfer_exit_response (source time : Z) (t : FlashSequenceTracker) : FlashSequenceTracker :=
  match active_sequences t !! source with
  | None => t
  | Some seq =>
      let seq := set_end_time time seq in
      let seq := set_total_duration (since_start time seq) seq in
      let seq := complete_sequence true seq in
      let t := count (count_outcome true) (put source seq t) in
      emit_event SequenceComplete seq (emit_event TransferExitOk seq t)
  end.

Definition flash_related (sid : Z) : bool :=
  (sid =? RequestDownload) || (sid =? RequestUpload) || (sid =? TransferData) || (sid =? RequestTransferExit).

(** [seq.blocks.back().error_code = nrc]. *)
Fixpoint fail_last (nrc : Z) (l : list FlashBlock) : list FlashBlock :=
  match l with
  | [] => []
  | [b] => [fail_block nrc b]
  | b :: l' => b :: fail_last nrc l'
  end.

Definition process_negative_response (sid nrc source time : Z) (t : FlashSequenceTracker) : FlashSequenceTracker :=
  match active_sequences t !! source with
  | None => t
  | Some seq =>
      if negb (flash_related sid) then t
      else
        let seq := set_error_message (nrc_string nrc) (set_last_error (Some nrc) seq) in
        if sid =? TransferData then
          let seq := set_blocks (fail_last nrc (blocks seq)) seq in
          let seq := set_retry_count (uint 64 (retry_count seq + 1)) seq in
          let t := emit_event BlockFailed seq (put source seq t) in
          if 3 <? retry_count seq then
            let seq := set_end_time time seq in
            let seq := set_total_duration (since_start time seq) seq in
            let seq := complete_sequence false seq in
            emit_event SequenceFailed seq (count (count_outcome false) (put source seq t))
          else t
        else
          let t := put source seq t in
          let t := if sid =? RequestTransferExit then emit_event TransferExitFail seq t else t in
          let seq := complete_sequence false (set_end_time time seq) in
          emit_event SequenceFailed seq (count (count_outcome false) (put source seq t))
  end.

(** The part on erasures. *)
Definition erase_request (routine_control_type routine_identifier source target : Z)
    (t : FlashSequenceTracker) : FlashSequenceTracker :=
  if routine_identifier =? EraseMemory then
    let '(seq, t) := get_or_create_sequence target source t in
    if routine_control_type =? StartRoutine then
      let seq := set_erase_performed true (set_state EraseStarted seq) in
      emit_event EraseStartedEvent seq (count count_erase (put target seq t))
    else if routine_control_type =? RequestRoutineResults then emit_event EraseProgress seq t
    else t
  else t.

Definition is_verification (routine_identifier : Z) : bool :=
  (routine_identifier =? CheckProgrammingDependencies) ||
  (RoutineIdentifier_is_oem_specific routine_identifier && negb (routine_identifier =? EraseMemory)).

(** The part on verifications. *)
Definition verification_request (routine_identifier target : Z) (t : FlashSequenceTracker) : FlashSequenceTracker :=
  if track_verification (options t) && is_verification routine_identifier then
    match active_sequences t !! target with
    | None => t
    | Some seq =>
        let seq := set_state Verifying seq in
        emit_event VerificationStart seq (count count_verification (put target seq t))
    end
  else t.

Definition process_routine_control (routine_control_type routine_identifier source target : Z)
    (t : FlashSequenceTracker) : FlashSequenceTracker :=
  if negb (track_erase_routines (options t)) then t
  else verification_request routine_identifier target
         (erase_request routine_control_type routine_identifier source target t).

(** [checksum = (checksum << 8) | record[i]] over the first four bytes. *)
Definition checksum_of (status_record : list byte) : Z :=
  foldl (fun checksum b => Z.lor (uint 32 (Z.shiftl checksum 8)) (u8 b)) 0 (take 4 status_record).

Definition erase_response (routine_identifier source time : Z) (seq : FlashSequence)
    (t : FlashSequenceTracker) : FlashSequence * FlashSequenceTracker :=
  if (routine_identifier =? EraseMemory) && (bool_decide (state seq = EraseStarted) || bool_decide (state seq = Erasing))
  then
    let seq := set_state EraseComplete seq in
    let seq := if start_time seq =? 0 then seq else set_erase_duration (since_start time seq) seq in
    (seq, emit_event EraseCompleted seq (put source seq t))
  else (seq, t).

Definition verification_response (status_record : list byte) (source : Z) (seq : FlashSequence)
    (t : FlashSequenceTracker) : FlashSequenceTracker :=
  if bool_decide (state seq = Verifying) then
    let seq := set_checksum_verified true seq in
    let seq := if 4 <=? zlen status_record then set_checksum_value (Some (checksum_of status_record)) seq
               else seq in
    emit_event VerificationOk seq (put source seq t)
  else t.

Definition process_routine_control_response (routine_identifier : Z) (status_record : list byte)
    (source time : Z) (t : FlashSequenceTracker) : FlashSequenceTracker :=
  match active_sequences t !! source with
  | None => t
  | Some seq =>
      let '(seq, t) := erase_response routine_identifier source time seq t in
      verification_response status_record source seq t
  end.

(** ** Access *)

Definition get_active_sequence (ecu : Z) (t : FlashSequenceTracker) : option FlashSequence :=
  match active_sequences t !! ecu with
  | Some seq => if is_active seq then Some seq else None
  | None => None
  end.
Definition get_sequence (ecu : Z) (t : FlashSequenceTracker) : option FlashSequence :=
  match active_sequences t !! ecu with
  | Some seq => Some seq
  | None => hist ← history t !! ecu; last hist
  end.
(** In the order of the map, which the code does not specify. *)
Definition get_active_sequences (t : FlashSequenceTracker) : list FlashSequence :=
  filter (fun seq => is_active seq = true) (map snd (map_to_list (active_sequences t))).
Definition get_history (ecu : Z) (max_count : nat) (t : FlashSequenceTracker) : list FlashSequence :=
  match history t !! ecu with
  | None => []
  | Some hist => drop (length hist - Nat.min max_count (length hist)) hist
  end.
Definition has_active_sequence (ecu : Z) (t : FlashSequenceTracker) : bool :=
  bool_decide (is_Some (get_active_sequence ecu t)).

(** ** Control *)

Definition on_event (callback : nat) (t : FlashSequenceTracker) : FlashSequenceTracker :=
  set_callbacks (callbacks t ++ [callback]) t.
Definition clear_callbacks (t : FlashSequenceTracker) : FlashSequenceTracker := set_callbacks [] t.

Definition abort_sequence (ecu now : Z) (t : FlashSequenceTracker) : FlashSequenceTracker :=
  match active_sequences t !! ecu with
  | None => t
  | Some seq =>
      if negb (is_active seq) then t
      else
        let seq := set_end_time now (set_state Aborted seq) in
        let seq := set_total_duration (since_start (end_time seq) seq) seq in
        archive_sequence ecu (emit_event SequenceAborted seq (count count_aborted (put ecu seq t)))
  end.

Definition clear_history (ecu : Z) (t : FlashSequenceTracker) : FlashSequenceTracker :=
  set_history (delete ecu (history t)) t.
Definition reset (t : FlashSequenceTracker) : FlashSequenceTracker :=
  set_stats Statistics_zero (set_history ∅ (set_active_sequences ∅ t)).
Definition reset_statistics (t : FlashSequenceTracker) : FlashSequenceTracker := set_stats Statistics_zero t.

Definition expired (now : Z) (t : FlashSequenceTracker) (seq : FlashSequence) : bool :=
  is_active seq && (sequence_timeout (options t) <? Z.quot (now - start_time seq) SECOND).
Definition to_timeout (now : Z) (t : FlashSequenceTracker) : list Z :=
  map fst (filter (fun es => expired now t es.2 = true) (map_to_list (active_sequences t))).

Definition time_out (now ecu : Z) (t : FlashSequenceTracker) : FlashSequenceTracker :=
  let seq := default new_sequence (active_sequences t !! ecu) in
  let seq := set_end_time now (set_error_message "Sequence timed out" (set_state Failed seq)) in
  archive_sequence ecu (emit_event SequenceFailed seq (count count_failed (put ecu seq t))).

Definition check_timeouts (now : Z) (t : FlashSequenceTracker) : Z * FlashSequenceTracker :=
  let ecus := to_timeout now t in
  (zlen ecus, foldl (fun t ecu => time_out now ecu t) t ecus).

(** ** Histories *)

Inductive FlashOp :=
| RequestDownloadOp (data_format : Z * Z) (memory_address memory_size source target time : Z)
| RequestUploadOp (data_format : Z * Z) (memory_address memory_size source target time : Z)
| TransferAccepted (max_number_of_block_length source time : Z)
| TransferDataOp (counter : Z) (parameter_record : list byte) (target time : Z)
| TransferDataAcknowledged (counter source time : Z)
| TransferExitAcknowledged (source time : Z)
| Rejected (sid nrc source time : Z)
| RoutineControlOp (routine_control_type routine_identifier source target : Z)
| RoutineControlAcknowledged (routine_identifier : Z) (status_record : list byte) (source time : Z)
| OnEvent (callback : nat)
| ClearCallbacks
| AbortSequence (ecu now : Z)
| ClearHistory (ecu : Z)
| Reset
| ResetStatistics
| CheckTimeouts (now : Z).

Definition step (op : FlashOp) (t : FlashSequenceTracker) : FlashSequenceTracker :=
  match op with
  | RequestDownloadOp f a s source target time => process_request_download f a s source target time t
  | RequestUploadOp f a s source target time => process_request_upload f a s source target time t
  | TransferAccepted m source time => process_request_download_response m source time t
  | TransferDataOp c r target time => process_transfer_data c r target time t
  | TransferDataAcknowledged c source time => process_transfer_data_response c source time t
  | TransferExitAcknowledged source time => process_transfer_exit_response source time t
  | Rejected sid nrc source time => process_negative_response sid nrc source time t
  | RoutineControlOp ty id source target => process_routine_control ty id source target t
  | RoutineControlAcknowledged id r source time => process_routine_control_response id r source time t
  | OnEvent callback => on_event callback t
  | ClearCallbacks => clear_callbacks t
  | AbortSequence ecu now => abort_sequence ecu now t
  | ClearHistory ecu => clear_history ecu t
  | Reset => reset t
  | ResetStatistics => reset_statistics t
  | CheckTimeouts now => (check_timeouts now t).2
  end.

Definition run (ops : list FlashOp) (t : FlashSequenceTracker) : FlashSequenceTracker :=
  foldl (fun t op => step op t) t ops.

(** ** The invariant of the tracker *)

Fixpoint sum_sizes (l : list FlashBlock) : Z :=
  match l with [] => 0 | b :: l' => data_size b + sum_sizes l' end.

(** What a sequence of [ecu] says about its transfer agrees with its blocks. *)
Record wf_sequence (ecu : Z) (s : FlashSequence) : Prop := {
  wf_ecu : ecu_address s = ecu;
  wf_bytes : total_bytes_transferred s = uint 64 (sum_sizes (blocks s));
  wf_expected : expected_sequence_counter s = default 1 (next_counter ∘ sequence_counter <$> last (blocks s))
}.

Definition wf_archived (ecu : Z) (s : FlashSequence) : Prop := wf_sequence ecu s /\ is_active s = false.

Record wf_tracker (t : FlashSequenceTracker) : Prop := {
  wf_active : map_Forall wf_sequence (active_sequences t);
  wf_history : map_Forall (fun ecu l => (length l <= max_history (options t))%nat /\ Forall (wf_archived ecu) l)
                 (history t)
}.

Lemma sum_sizes_app l b : sum_sizes (l ++ [b]) = sum_sizes l + data_size b.
Proof. induction l as [|x l IH]; cbn; [|rewrite IH]; lia. Qed.

Lemma next_counter_range c : 1 <= next_counter c <= 255.
Proof. unfold next_counter. unfold uint. change (2 ^ 8) with 256. case_step; bool_to_prop; lia. Qed.

Lemma wf_sequence_ext ecu s s' :
  wf_sequence ecu s -> ecu_address s' = ecu_address s -> blocks s' = blocks s ->
  total_bytes_transferred s' = total_bytes_transferred s ->
  expected_sequence_counter s' = expected_sequence_counter s -> wf_sequence ecu s'.
Proof. intros [H1 H2 H3] E1 E2 E3 E4. constructor; congruence. Qed.

(** Assignments to the fields that [wf_sequence] does not mention. *)
Ltac wf_assign H := apply (wf_sequence_ext _ _ _ H); reflexivity.

Lemma wf_new_sequence ecu tester :
  wf_sequence ecu (set_state Idle (set_tester_address tester (set_ecu_address ecu new_sequence))).
Proof. constructor; reflexivity. Qed.

(** Rewriting blocks without touching their counters and sizes. *)
Definition same_block (b b' : FlashBlock) : Prop :=
  sequence_counter b' = sequence_counter b /\ data_size b' = data_size b.
#[export] Instance same_block_refl : Reflexive same_block.
Proof. split; reflexivity. Qed.

Lemma wf_set_blocks ecu s bs :
  wf_sequence ecu s -> Forall2 same_block (blocks s) bs -> wf_sequence ecu (set_blocks bs s).
Proof.
  intros [H1 H2 H3] H. constructor; cbn; [assumption | rewrite H2; f_equal; clear -H | rewrite H3; clear -H].
  - induction H as [|b b' l l' [_ Hb] _ IH]; cbn; [reflexivity | rewrite Hb, IH; reflexivity].
  - induction H as [|b b' l l' [Hb _] H IH]; [reflexivity|]. destruct H; [cbn; rewrite Hb; reflexivity | exact IH].
Qed.

Lemma acknowledge_same c l l' : acknowledge c l = Some l' -> Forall2 same_block l l'.
Proof.
  revert l'. induction l as [|b l IH]; cbn; [discriminate|]. intros l'.
  destruct (_ && _); [intros [= <-]; constructor; [split; reflexivity | reflexivity]|].
  destruct (acknowledge c l) as [l''|]; cbn; [|discriminate]. intros [= <-].
  constructor; [reflexivity | apply IH; reflexivity].
Qed.

Lemma fail_last_same nrc l : Forall2 same_block l (fail_last nrc l).
Proof.
  induction l as [|b [|b' l] IH]; cbn; [constructor | constructor; [split; reflexivity | constructor]|].
  constructor; [reflexivity | exact IH].
Qed.

Lemma wf_push ecu s c n time :
  wf_sequence ecu s ->
  wf_sequence ecu
    (set_expected_sequence_counter (next_counter c)
       (set_total_bytes_transferred (uint 64 (total_bytes_transferred s + n))
          (set_blocks (blocks s ++ [mkFlashBlock c n time false None]) s))).
Proof.
  intros [H1 H2 H3]. constructor; cbn; [assumption | | rewrite last_snoc; reflexivity].
  rewrite H2, sum_sizes_app. cbn [data_size]. unfold uint. rewrite Zplus_mod_idemp_l. reflexivity.
Qed.

(** *** The maps *)

(** [wf_tracker] only reads the maps and the history limit. *)
Lemma wf_tracker_ext t t' :
  wf_tracker t -> active_sequences t' = active_sequences t -> history t' = history t ->
  options t' = options t -> wf_tracker t'.
Proof. intros [Ha Hh] Ea Eh Eo. constructor; rewrite ?Ea, ?Eh, ?Eo; assumption. Qed.

Lemma flash_wf_emit event seq t : wf_tracker t -> wf_tracker (emit_event event seq t).
Proof. intros H. apply (wf_tracker_ext _ _ H); reflexivity. Qed.
Lemma flash_wf_count f t : wf_tracker t -> wf_tracker (count f t).
Proof. intros H. apply (wf_tracker_ext _ _ H); reflexivity. Qed.
Lemma flash_wf_put ecu s t : wf_tracker t -> wf_sequence ecu s -> wf_tracker (put ecu s t).
Proof. intros [Ha Hh] Hs. constructor; [apply map_Forall_insert_2; assumption | exact Hh]. Qed.

Lemma push_history_length max hist s : (length (push_history max hist s) <= max)%nat.
Proof. unfold push_history. rewrite length_drop, length_app. cbn. lia. Qed.

Lemma wf_archive ecu t :
  wf_tracker t -> (forall s, active_sequences t !! ecu = Some s -> is_active s = false) ->
  wf_tracker (archive_sequence ecu t).
Proof.
  intros H Hi. unfold archive_sequence. destruct (active_sequences t !! ecu) as [s|] eqn:E; [|exact H].
  destruct H as [Ha Hh]. constructor; cbn.
  - apply map_Forall_delete, Ha.
  - apply map_Forall_insert_2; [|exact Hh]. split; [apply push_history_length|].
    apply Forall_drop, Forall_app. split; [|constructor; [|constructor]].
    + destruct (history t !! ecu) as [l|] eqn:El; [apply (Hh ecu l El) | constructor].
    + split; [apply (Ha ecu s E) | apply Hi; reflexivity].
Qed.

Lemma wf_get_or_create ecu tester t :
  wf_tracker t ->
  wf_sequence ecu (get_or_create_sequence ecu tester t).1 /\ wf_tracker (get_or_create_sequence ecu tester t).2.
Proof.
  intros H. unfold get_or_create_sequence. destruct (active_sequences t !! ecu) as [s|] eqn:E.
  - destruct (is_active s) eqn:Ea; cbn [fst snd].
    + split; [apply (wf_active t H ecu s E) | exact H].
    + split; [apply wf_new_sequence | apply flash_wf_put, wf_new_sequence]. apply wf_archive; [exact H | congruence].
  - split; [apply wf_new_sequence | apply flash_wf_put, wf_new_sequence; exact H].
Qed.

#[export] Hint Resolve flash_wf_emit flash_wf_count flash_wf_put wf_push wf_set_blocks acknowledge_same fail_last_same : wadjet.

Lemma wf_start_transfer op ev f a n source target time t :
  wf_tracker t -> wf_tracker (start_transfer op ev f a n source target time t).
Proof.
  intros H. unfold start_transfer. destruct (wf_get_or_create target source t H) as [Hs Ht].
  destruct (get_or_create_sequence target source t) as [s t']. cbn [fst snd] in Hs, Ht.
  apply flash_wf_emit, flash_wf_count, flash_wf_put; [exact Ht | wf_assign Hs].
Qed.

(** An operation on the sequence of an address, if there is one. *)
Lemma wf_on_active ecu t (f : FlashSequence -> FlashSequenceTracker) :
  wf_tracker t -> (forall s, active_sequences t !! ecu = Some s -> wf_sequence ecu s -> wf_tracker (f s)) ->
  wf_tracker (match active_sequences t !! ecu with None => t | Some s => f s end).
Proof.
  intros H Hf. destruct (active_sequences t !! ecu) as [s|] eqn:E; [|exact H].
  apply Hf; [reflexivity | apply (wf_active t H ecu s E)].
Qed.

Lemma wf_transfer_data c r target time t : wf_tracker t -> wf_tracker (process_transfer_data c r target time t).
Proof.
  intros H. unfold process_transfer_data. apply wf_on_active; [exact H|]. intros s _ Hs.
  apply flash_wf_emit, flash_wf_count, flash_wf_put; [exact H|]. pose proof (wf_push target s c (zlen r) time Hs) as Hp. wf_assign Hp.
Qed.

Lemma wf_transfer_data_response c source time t :
  wf_tracker t -> wf_tracker (process_transfer_data_response c source time t).
Proof.
  intros H. unfold process_transfer_data_response. apply wf_on_active; [exact H|]. intros s _ Hs.
  destruct (acknowledge c (blocks s)) as [bs|] eqn:E; [|exact H].
  apply flash_wf_emit, flash_wf_put; [exact H|].
  pose proof (wf_set_blocks source s bs Hs (acknowledge_same _ _ _ E)) as Hb. wf_assign Hb.
Qed.

Lemma wf_negative_response sid nrc source time t :
  wf_tracker t -> wf_tracker (process_negative_response sid nrc source time t).
Proof.
  intros H. unfold process_negative_response. apply wf_on_active; [exact H|]. intros s _ Hs.
  destruct (flash_related sid); [cbn [negb] | exact H].
  destruct (sid =? TransferData).
  - pose proof (wf_set_blocks source s _ Hs (fail_last_same nrc (blocks s))) as Hb.
    assert (Ht : wf_tracker (put source (set_retry_count (uint 64 (retry_count s + 1))
      (set_blocks (fail_last nrc (blocks s)) (set_error_message (nrc_string nrc) (set_last_error (Some nrc) s)))) t)).
    { apply flash_wf_put; [exact H | wf_assign Hb]. }
    destruct (3 <? _); [|apply flash_wf_emit, Ht].
    apply flash_wf_emit, flash_wf_count, flash_wf_put; [apply flash_wf_emit, Ht | wf_assign Hb].
  - apply flash_wf_emit, flash_wf_count, flash_wf_put; [|wf_assign Hs].
    destruct (sid =? RequestTransferExit); [apply flash_wf_emit|]; (apply flash_wf_put; [exact H | wf_assign Hs]).
Qed.

Lemma wf_erase_request ty id source target t :
  wf_tracker t -> wf_tracker (erase_request ty id source target t).
Proof.
  intros H. unfold erase_request. destruct (id =? EraseMemory); [|exact H].
  destruct (wf_get_or_create target source t H) as [Hs Ht].
  destruct (get_or_create_sequence target source t) as [s t']. cbn [fst snd] in Hs, Ht.
  destruct (ty =? StartRoutine); [apply flash_wf_emit, flash_wf_count, flash_wf_put; [exact Ht | wf_assign Hs]|].
  destruct (ty =? RequestRoutineResults); [apply flash_wf_emit|]; exact Ht.
Qed.

Lemma wf_verification_request id target t : wf_tracker t -> wf_tracker (verification_request id target t).
Proof.
  intros H. unfold verification_request. destruct (_ && _); [|exact H]. apply wf_on_active; [exact H|].
  intros s _ Hs. apply flash_wf_emit, flash_wf_count, flash_wf_put; [exact H | wf_assign Hs].
Qed.

Lemma wf_routine_control ty id source target t :
  wf_tracker t -> wf_tracker (process_routine_control ty id source target t).
Proof.
  intros H. unfold process_routine_control. destruct (negb _); [exact H|].
  apply wf_verification_request, wf_erase_request, H.
Qed.

Lemma wf_erase_response id source time s t :
  wf_tracker t -> wf_sequence source s ->
  wf_sequence source (erase_response id source time s t).1 /\ wf_tracker (erase_response id source time s t).2.
Proof.
  intros H Hs. unfold erase_response. destruct (_ && _); [|split; assumption].
  set (s' := if _ =? 0 then _ else _).
  assert (Hs' : wf_sequence source s') by (unfold s'; destruct (_ =? 0); wf_assign Hs).
  split; [exact Hs' | apply flash_wf_emit, flash_wf_put; assumption].
Qed.

Lemma wf_routine_control_response id r source time t :
  wf_tracker t -> wf_tracker (process_routine_control_response id r source time t).
Proof.
  intros H. unfold process_routine_control_response. apply wf_on_active; [exact H|]. intros s _ Hs.
  destruct (wf_erase_response id source time s t H Hs) as [Hs' Ht'].
  destruct (erase_response id source time s t) as [s' t']. cbn [fst snd] in Hs', Ht'.
  unfold verification_response. destruct (bool_decide _); [|exact Ht'].
  apply flash_wf_emit, flash_wf_put; [exact Ht'|]. destruct (4 <=? _); wf_assign Hs'.
Qed.

Lemma wf_abort ecu now t : wf_tracker t -> wf_tracker (abort_sequence ecu now t).
Proof.
  intros H. unfold abort_sequence. apply wf_on_active; [exact H|]. intros s _ Hs.
  destruct (is_active s); [cbn [negb] | exact H]. apply wf_archive.
  - apply flash_wf_emit, flash_wf_count, flash_wf_put; [exact H | wf_assign Hs].
  - cbn. intros s'. rewrite lookup_insert_eq. intros [= <-]. reflexivity.
Qed.

Lemma wf_time_out now ecu t :
  wf_tracker t -> ecu ∈ dom (active_sequences t) -> wf_tracker (time_out now ecu t).
Proof.
  intros H [s Hs]%elem_of_dom. unfold time_out. rewrite Hs. pose proof (wf_active t H ecu s Hs) as Hw. apply wf_archive.
  - apply flash_wf_emit, flash_wf_count, flash_wf_put; [exact H | wf_assign Hw].
  - cbn. intros s'. rewrite lookup_insert_eq. intros [= <-]. reflexivity.
Qed.

Lemma dom_time_out now ecu t :
  ecu ∈ dom (active_sequences t) ->
  dom (active_sequences (time_out now ecu t)) = dom (active_sequences t) ∖ {[ecu]}.
Proof.
  intros [s Hs]%elem_of_dom. unfold time_out, archive_sequence. rewrite Hs. cbn.
  rewrite lookup_insert_eq. cbn. rewrite delete_insert_eq, dom_delete_L. reflexivity.
Qed.

Lemma wf_time_outs now ecus t :
  NoDup ecus -> list_to_set ecus ⊆ dom (active_sequences t) -> wf_tracker t ->
  wf_tracker (foldl (fun t ecu => time_out now ecu t) t ecus).
Proof.
  intros Hnd. revert t. induction Hnd as [|ecu ecus Hn _ IH]; intros t Hsub H; cbn; [exact H|].
  assert (Hin : ecu ∈ dom (active_sequences t)) by (apply Hsub; set_solver).
  apply IH; [rewrite dom_time_out by exact Hin; set_solver | apply wf_time_out; assumption].
Qed.

Lemma to_timeout_spec now t ecu :
  ecu ∈ to_timeout now t <-> exists s, active_sequences t !! ecu = Some s /\ expired now t s = true.
Proof.
  unfold to_timeout. rewrite list_elem_of_fmap. split.
  - intros ([e s] & -> & Hin). apply list_elem_of_filter in Hin as [Hx Hin]. cbn in *.
    apply elem_of_map_to_list in Hin. eauto.
  - intros (s & Hs & Hx). exists (ecu, s). split; [reflexivity|].
    apply list_elem_of_filter. split; [exact Hx | apply elem_of_map_to_list, Hs].
Qed.

Lemma to_timeout_NoDup now t : NoDup (to_timeout now t).
Proof.
  unfold to_timeout. apply (NoDup_fmap_fst).
  - intros e s s' [_ H]%list_elem_of_filter [_ H']%list_elem_of_filter.
    apply elem_of_map_to_list in H, H'. congruence.
  - apply NoDup_filter, NoDup_map_to_list.
Qed.

Lemma flash_wf_check_timeouts now t : wf_tracker t -> wf_tracker (check_timeouts now t).2.
Proof.
  intros H. apply wf_time_outs; [apply to_timeout_NoDup | | exact H].
  intros ecu Hin. apply elem_of_list_to_set, to_timeout_spec in Hin as (s & Hs & _).
  apply elem_of_dom. eauto.
Qed.

Lemma flash_wf_step op t : wf_tracker t -> wf_tracker (step op t).
Proof.
  intros H. destruct op; cbn [step].
  - apply wf_start_transfer, H.
  - apply wf_start_transfer, H.
  - unfold process_request_download_response, accept_transfer. apply wf_on_active; [exact H|]. intros s _ Hs.
    apply flash_wf_put; [exact H | wf_assign Hs].
  - apply wf_transfer_data, H.
  - apply wf_transfer_data_response, H.
  - unfold process_transfer_exit_response. apply wf_on_active; [exact H|]. intros s _ Hs.
    apply flash_wf_emit, flash_wf_emit, flash_wf_count, flash_wf_put; [exact H | wf_assign Hs].
  - apply wf_negative_response, H.
  - apply wf_routine_control, H.
  - apply wf_routine_control_response, H.
  - apply (wf_tracker_ext _ _ H); reflexivity.
  - apply (wf_tracker_ext _ _ H); reflexivity.
  - apply wf_abort, H.
  - destruct H as [Ha Hh]. constructor; cbn; [exact Ha | apply map_Forall_delete, Hh].
  - constructor; cbn; apply map_Forall_empty.
  - apply (wf_tracker_ext _ _ H); reflexivity.
  - apply flash_wf_check_timeouts, H.
Qed.

Lemma flash_wf_run ops t : wf_tracker t -> wf_tracker (run ops t).
Proof. revert t. induction ops as [|op ops IH]; intros t H; [exact H | apply IH, flash_wf_step, H]. Qed.

Lemma wf_new_tracker opts : wf_tracker (new_tracker opts).
Proof. constructor; apply map_Forall_empty. Qed.

(** *** The options do not change *)

Lemma options_archive ecu t : options (archive_sequence ecu t) = options t.
Proof. unfold archive_sequence. destruct (_ !! _); reflexivity. Qed.

Lemma options_get_or_create ecu tester t : options (get_or_create_sequence ecu tester t).2 = options t.
Proof.
  unfold get_or_create_sequence. destruct (_ !! _) as [s|]; [|reflexivity].
  destruct (is_active s); [reflexivity | apply options_archive].
Qed.

Lemma options_start_transfer op ev f a n source target time t :
  options (start_transfer op ev f a n source target time t) = options t.
Proof.
  unfold start_transfer. rewrite <- (options_get_or_create target source t).
  destruct (get_or_create_sequence _ _ _). reflexivity.
Qed.

Lemma options_time_outs now ecus t : options (foldl (fun t ecu => time_out now ecu t) t ecus) = options t.
Proof.
  revert t. induction ecus as [|ecu ecus IH]; intros t; [reflexivity|]. cbn. rewrite IH.
  unfold time_out. rewrite options_archive. reflexivity.
Qed.

Lemma options_routine_control ty id source target t :
  options (process_routine_control ty id source target t) = options t.
Proof.
  unfold process_routine_control. destruct (negb _); [reflexivity|].
  transitivity (options (erase_request ty id source target t)).
  - unfold verification_request. destruct (_ && _); [|reflexivity]. destruct (_ !! _); reflexivity.
  - unfold erase_request. destruct (_ =? _); [|reflexivity]. rewrite <- (options_get_or_create target source t).
    destruct (get_or_create_sequence _ _ _). destruct (_ =? _); [|destruct (_ =? _)]; reflexivity.
Qed.

Lemma options_step op t : options (step op t) = options t.
Proof.
  destruct op; cbn [step]; try reflexivity; try apply options_start_transfer; try apply options_routine_control;
    try apply options_time_outs;
    unfold process_request_download_response, accept_transfer, process_transfer_data, process_transfer_data_response,
      process_transfer_exit_response, process_negative_response, process_routine_control_response, erase_response,
      verification_response, abort_sequence;
    (destruct (_ !! _); [|reflexivity]).
  - reflexivity.
  - reflexivity.
  - destruct (acknowledge _ _); reflexivity.
  - reflexivity.
  - destruct (negb _); [reflexivity|]. destruct (_ =? _); [|destruct (_ =? _); reflexivity].
    cbv zeta. destruct (3 <? _); reflexivity.
  - destruct (_ && _); cbv zeta; destruct (bool_decide _); reflexivity.
  - destruct (negb _); [reflexivity | cbv zeta; rewrite options_archive; reflexivity].
Qed.

Lemma options_run ops t : options (run ops t) = options t.
Proof.
  revert t. induction ops as [|op ops IH]; intros t; [reflexivity|]. cbn. etransitivity; [apply IH | apply options_step].
Qed.

(** [C18] Whatever messages, aborts and timeouts a tracker sees, every sequence it
    holds belongs to the ECU it is filed under, its number of transferred bytes is the
    sum of the sizes of its blocks, and its expected counter is the successor of the
    counter of its last block, between 1 and 255.  The archived sequences are not
    active, and there are never more than [max_history] of them per ECU. *)
Theorem flash_invariant (opts : Options) (ops : list FlashOp) :
  let t := run ops (new_tracker opts) in
  (forall ecu s, get_sequence ecu t = Some s ->
     ecu_address s = ecu /\
     total_bytes_transferred s = uint 64 (sum_sizes (blocks s)) /\
     expected_sequence_counter s = default 1 (next_counter ∘ sequence_counter <$> last (blocks s)) /\
     1 <= expected_sequence_counter s <= 255) /\
  (forall ecu n, (length (get_history ecu n t) <= Nat.min n (max_history opts))%nat /\
     Forall (fun s => is_active s = false /\ ecu_address s = ecu) (get_history ecu n t)).
Proof.
  cbv zeta. destruct (flash_wf_run ops _ (wf_new_tracker opts)) as [Ha Hh]. rewrite options_run in Hh.
  change (options (new_tracker opts)) with opts in Hh. split.
  - intros ecu s Hs.
    assert (Hw : wf_sequence ecu s).
    { unfold get_sequence in Hs. destruct (active_sequences _ !! ecu) as [s'|] eqn:E; [injection Hs as <-; eauto|].
      destruct (history _ !! ecu) as [l|] eqn:El; [cbn in Hs|discriminate Hs].
      apply last_Some in Hs as (l' & ->). destruct (Hh ecu _ El) as [_ Hl].
      apply Forall_app in Hl as [_ Hl]. apply Forall_inv in Hl as [Hl _]. exact Hl. }
    destruct Hw as [H1 H2 H3]. split_and!; try assumption; rewrite H3;
      destruct (last (blocks s)); cbn; try lia; apply next_counter_range.
  - intros ecu n. unfold get_history. destruct (history _ !! ecu) as [l|] eqn:El; [|split; [cbn; lia | constructor]].
    destruct (Hh ecu l El) as [Hlen Hl]. split; [rewrite length_drop; lia|].
    apply Forall_drop. eapply Forall_impl; [exact Hl|]. intros s [Hw Hi]. split; [exact Hi | apply Hw].
Qed.

(** ** Sequences of different ECUs do not interfere *)

(** Whether an operation can change the sequences of [ecu]. *)
Definition touches (op : FlashOp) (ecu : Z) : bool :=
  match op with
  | RequestDownloadOp _ _ _ _ e _ | RequestUploadOp _ _ _ _ e _ | TransferAccepted _ e _
  | TransferDataOp _ _ e _ | TransferDataAcknowledged _ e _ | TransferExitAcknowledged e _
  | Rejected _ _ e _ | RoutineControlOp _ _ _ e | RoutineControlAcknowledged _ _ e _
  | AbortSequence e _ | ClearHistory e => e =? ecu
  | OnEvent _ | ClearCallbacks | ResetStatistics => false
  | Reset | CheckTimeouts _ => true
  end.

(** The two trackers hold the same sequences of [e]. *)
Definition same_at (e : Z) (t t' : FlashSequenceTracker) : Prop :=
  active_sequences t' !! e = active_sequences t !! e /\ history t' !! e = history t !! e.

Lemma same_at_refl e t : same_at e t t.
Proof. split; reflexivity. Qed.
Lemma same_at_trans e t t' t'' : same_at e t t' -> same_at e t' t'' -> same_at e t t''.
Proof. intros [] []. split; congruence. Qed.
Lemma same_at_emit e event s t t' : same_at e t t' -> same_at e t (emit_event event s t').
Proof. intros H. exact H. Qed.
Lemma same_at_count e f t t' : same_at e t t' -> same_at e t (count f t').
Proof. intros H. exact H. Qed.
Lemma same_at_put e ecu s t t' : ecu <> e -> same_at e t t' -> same_at e t (put ecu s t').
Proof. intros Hne [Ha Hh]. split; [cbn; rewrite lookup_insert_ne by exact Hne; exact Ha | exact Hh]. Qed.
Lemma same_at_archive e ecu t t' : ecu <> e -> same_at e t t' -> same_at e t (archive_sequence ecu t').
Proof.
  intros Hne [Ha Hh]. unfold archive_sequence. destruct (_ !! ecu); [|split; assumption].
  split; cbn; [rewrite lookup_delete_ne by exact Hne | rewrite lookup_insert_ne by exact Hne]; assumption.
Qed.
Lemma same_at_get_or_create e ecu tester t : ecu <> e -> same_at e t (get_or_create_sequence ecu tester t).2.
Proof.
  intros Hne. unfold get_or_create_sequence. destruct (_ !! ecu) as [s|].
  - destruct (is_active s); cbn [snd]; [apply same_at_refl|].
    apply same_at_put, same_at_archive, same_at_refl; exact Hne.
  - apply same_at_put, same_at_refl; exact Hne.
Qed.

Create HintDb same_at.
#[local] Hint Resolve same_at_refl same_at_emit same_at_count same_at_put same_at_archive : same_at.

Lemma same_at_start_transfer e op ev f a n source target time t :
  target <> e -> same_at e t (start_transfer op ev f a n source target time t).
Proof.
  intros Hne. unfold start_transfer. pose proof (same_at_get_or_create e target source t Hne) as H.
  destruct (get_or_create_sequence target source t). auto with same_at.
Qed.

Lemma same_at_routine_control e ty id source target t :
  target <> e -> same_at e t (process_routine_control ty id source target t).
Proof.
  intros Hne. unfold process_routine_control. destruct (negb _); [apply same_at_refl|].
  apply (same_at_trans e t (erase_request ty id source target t)).
  - unfold erase_request. destruct (_ =? _); [|apply same_at_refl].
    pose proof (same_at_get_or_create e target source t Hne) as H.
    destruct (get_or_create_sequence target source t). destruct (_ =? _); [|destruct (_ =? _)]; auto with same_at.
  - unfold verification_request. destruct (_ && _); [|apply same_at_refl].
    destruct (_ !! _); auto with same_at.
Qed.

Lemma same_at_step e op t : touches op e = false -> same_at e t (step op t).
Proof.
  destruct op; cbn [touches step]; try discriminate; intros Hne; bool_to_prop;
    try (apply same_at_start_transfer; assumption); try (apply same_at_routine_control; assumption);
    try (split; reflexivity);
    unfold process_request_download_response, accept_transfer, process_transfer_data, process_transfer_data_response,
      process_transfer_exit_response, process_negative_response, process_routine_control_response, erase_response,
      verification_response, abort_sequence.
  8: { split; [reflexivity | cbn; apply lookup_delete_ne; assumption]. }
  all: destruct (_ !! _); [|apply same_at_refl]; auto with same_at.
  - destruct (acknowledge _ _); auto with same_at.
  - destruct (negb _); [apply same_at_refl|]. destruct (_ =? _); [|destruct (_ =? _)]; cbv zeta;
      [destruct (3 <? _) | |]; auto 8 with same_at.
  - destruct (_ && _); cbv zeta; destruct (bool_decide _); auto with same_at.
  - destruct (negb _); cbv zeta; auto with same_at.
Qed.

Lemma same_at_run e ops t : Forall (fun op => touches op e = false) ops -> same_at e t (run ops t).
Proof.
  intros H. revert t. induction H as [|op ops Ho _ IH]; intros t; [apply same_at_refl|].
  eapply same_at_trans; [apply same_at_step, Ho | apply IH].
Qed.

Lemma same_at_get_sequence e t t' : same_at e t t' -> get_sequence e t' = get_sequence e t.
Proof. intros [Ha Hh]. unfold get_sequence. rewrite Ha, Hh. reflexivity. Qed.

(** ** A transfer *)

(** A block as it is sent: its counter and data, when it is sent and acknowledged. *)
Record SentBlock := mkSentBlock { sb_counter : Z; sb_data : list byte; sb_sent : Z; sb_acknowledged : Z }.

Definition block_ops (ecu : Z) (b : SentBlock) : list FlashOp :=
  [TransferDataOp (sb_counter b) (sb_data b) ecu (sb_sent b);
   TransferDataAcknowledged (sb_counter b) ecu (sb_acknowledged b)].
Definition block_sent (b : SentBlock) : FlashBlock :=
  mkFlashBlock (sb_counter b) (zlen (sb_data b)) (sb_sent b) true None.
Definition data_sent (bs : list SentBlock) : Z := zlen (concat (map sb_data bs)).

Definition transfer_ops (ecu tester : Z) (format : Z * Z) (address size t0 : Z) (max t1 : Z)
    (bs : list SentBlock) (t2 : Z) : list FlashOp :=
  RequestDownloadOp format address size tester ecu t0 :: TransferAccepted max ecu t1 ::
  flat_map (block_ops ecu) bs ++ [TransferExitAcknowledged ecu t2].

Definition all_acknowledged (l : list FlashBlock) : Prop := Forall (fun b => acknowledged b = true) l.

(** With all earlier blocks acknowledged, the response is for the last one. *)
Lemma acknowledge_last l c n time err :
  all_acknowledged l ->
  acknowledge c (l ++ [mkFlashBlock c n time false err]) = Some (l ++ [mkFlashBlock c n time true err]).
Proof.
  intros H. induction H as [|b l Hb _ IH]; cbn; [rewrite Z.eqb_refl; reflexivity|].
  rewrite Hb, andb_false_r, IH. reflexivity.
Qed.

(** The fields of a sequence that a transfer leaves as they are. *)
Record same_transfer (s s' : FlashSequence) : Prop := {
  st_state : state s' = state s;
  st_region : region s' = region s;
  st_start : start_time s' = start_time s;
  st_operation : operation_type s' = operation_type s;
  st_tester : tester_address s' = tester_address s;
  st_error : last_error s' = last_error s
}.

Lemma step_block ecu b t s :
  active_sequences t !! ecu = Some s -> all_acknowledged (blocks s) ->
  exists s', active_sequences (run (block_ops ecu b) t) !! ecu = Some s' /\
    same_transfer s s' /\ blocks s' = blocks s ++ [block_sent b] /\
    total_bytes_transferred s' = uint 64 (total_bytes_transferred s + zlen (sb_data b)).
Proof.
  intros Hs Hack. destruct b as [c r ts ta]. unfold block_ops, run. cbn [foldl step sb_counter sb_data sb_sent sb_acknowledged].
  unfold process_transfer_data. rewrite Hs. cbv zeta. unfold process_transfer_data_response. cbn.
  rewrite lookup_insert_eq. cbn. rewrite acknowledge_last by exact Hack. cbn. rewrite lookup_insert_eq.
  eexists. split; [reflexivity|]. split; [constructor; reflexivity|]. split; reflexivity.
Qed.

Lemma run_app ops ops' t : run (ops ++ ops') t = run ops' (run ops t).
Proof. apply foldl_app. Qed.

Lemma step_blocks ecu bs t s :
  active_sequences t !! ecu = Some s -> all_acknowledged (blocks s) -> fits 64 (total_bytes_transferred s) ->
  exists s', active_sequences (run (flat_map (block_ops ecu) bs) t) !! ecu = Some s' /\
    same_transfer s s' /\ blocks s' = blocks s ++ map block_sent bs /\
    total_bytes_transferred s' = uint 64 (total_bytes_transferred s + data_sent bs).
Proof.
  revert t s. induction bs as [|b bs IH]; intros t s Hs Hack Hf.
  - exists s. cbn. rewrite app_nil_r, Z.add_0_r, uint_small by exact Hf.
    split_and!; try reflexivity; [exact Hs | constructor; reflexivity].
  - cbn [flat_map]. rewrite run_app. destruct (step_block ecu b t s Hs Hack) as (s1 & Hs1 & Hst & Hb & Ht).
    destruct (IH (run (block_ops ecu b) t) s1 Hs1) as (s2 & Hs2 & Hst2 & Hb2 & Ht2).
    { rewrite Hb. apply Forall_app. split; [exact Hack | constructor; [reflexivity | constructor]]. }
    { rewrite Ht. apply uint_fits. lia. }
    exists s2. split; [exact Hs2|]. split_and!.
    + destruct Hst, Hst2. constructor; congruence.
    + rewrite Hb2, Hb, <- app_assoc. reflexivity.
    + rewrite Ht2, Ht. unfold data_sent. cbn. rewrite length_app. unfold uint.
      rewrite Zplus_mod_idemp_l. f_equal. lia.
Qed.

Lemma fresh_sequence ecu tester t :
  get_active_sequence ecu t = None ->
  (get_or_create_sequence ecu tester t).1 =
    set_state Idle (set_tester_address tester (set_ecu_address ecu new_sequence)).
Proof.
  unfold get_active_sequence, get_or_create_sequence. destruct (_ !! ecu) as [s|]; [|reflexivity].
  destruct (is_active s); [discriminate | reflexivity].
Qed.

Lemma touches_transfer_ops e ecu tester f a n t0 max t1 bs t2 :
  e <> ecu -> Forall (fun op => touches op e = false) (transfer_ops ecu tester f a n t0 max t1 bs t2).
Proof.
  intros Hne. assert (He : (ecu =? e) = false) by (apply Z.eqb_neq; congruence).
  unfold transfer_ops. repeat constructor; try exact He. apply Forall_app. split; [|repeat constructor; exact He].
  induction bs as [|b bs IH]; cbn; [constructor|]. repeat constructor; assumption.
Qed.

Lemma successful_all bs :
  filter (fun b => acknowledged b && negb (has_error b) = true) (map block_sent bs) = map block_sent bs.
Proof. induction bs as [|b bs IH]; [reflexivity|]. cbn [map]. rewrite filter_cons_True by reflexivity. rewrite IH. reflexivity. Qed.

Lemma failed_none bs : filter (fun b => has_error b = true) (map block_sent bs) = [].
Proof. induction bs as [|b bs IH]; [reflexivity|]. cbn [map]. rewrite filter_cons_False by discriminate. exact IH. Qed.

(** [C19] A download whose blocks are acknowledged one by one completes.  When no
    sequence of the ECU is active, then after the request, its acceptance, any blocks
    with any counters (repeated or not), each with its acknowledgement, and the
    acknowledged exit, the sequence of the ECU is complete and no longer active, has
    exactly these blocks, all successful, their total size, the requested region and
    the times of the transfer; the sequences of the other ECUs are what they were. *)
Theorem flash_transfer_completes (t : FlashSequenceTracker) (ecu tester : Z) (format : Z * Z)
    (address n t0 max t1 : Z) (bs : list SentBlock) (t2 : Z)
    (Hidle : get_active_sequence ecu t = None) :
  let t' := run (transfer_ops ecu tester format address n t0 max t1 bs t2) t in
  (exists s, get_sequence ecu t' = Some s /\ is_successful s = true /\ is_active s = false /\
     operation_type s = Download /\ tester_address s = tester /\
     blocks s = map block_sent bs /\ successful_blocks s = zlen bs /\ failed_blocks s = 0 /\
     total_bytes_transferred s = uint 64 (data_sent bs) /\
     region s = mkFlashRegion address n (Format_to_byte format) (uint 16 max) /\
     start_time s = t0 /\ end_time s = t2 /\ total_duration s = Z.quot (t2 - t0) MILLISECOND /\
     last_error s = None) /\
  get_active_sequence ecu t' = None /\
  (forall e, e <> ecu -> get_sequence e t' = get_sequence e t).
Proof.
  cbv zeta.
  pose proof (fun e (He : e <> ecu) => same_at_get_sequence e t _
                (same_at_run e _ t (touches_transfer_ops e ecu tester format address n t0 max t1 bs t2 He))) as Hother.
  unfold transfer_ops in *.
  set (t3 := step (TransferAccepted max ecu t1) (step (RequestDownloadOp format address n tester ecu t0) t)).
  change (run (_ :: _ :: ?l) t) with (run l t3) in *. rewrite run_app in *.
  assert (H3 : exists s, active_sequences t3 !! ecu = Some s /\ state s = Transferring /\
    region s = mkFlashRegion address n (Format_to_byte format) (uint 16 max) /\ start_time s = t0 /\
    operation_type s = Download /\ tester_address s = tester /\ last_error s = None /\ blocks s = [] /\
    total_bytes_transferred s = 0).
  { unfold t3. cbn [step]. unfold process_request_download, start_transfer.
    pose proof (fresh_sequence ecu tester t Hidle) as Hf.
    destruct (get_or_create_sequence ecu tester t) as [s0 t0']. cbn [fst] in Hf. subst s0.
    unfold process_request_download_response, accept_transfer. cbn. rewrite lookup_insert_eq. cbn.
    rewrite lookup_insert_eq. eexists. split; [reflexivity|]. split_and!; reflexivity. }
  destruct H3 as (s3 & Hs3 & H1 & H2 & H4 & H5 & H6 & H7 & Hb & Ht).
  destruct (step_blocks ecu bs t3 s3 Hs3) as (s4 & Hs4 & [] & Hb4 & Ht4).
  { rewrite Hb. constructor. }
  { rewrite Ht. split; lia. }
  rewrite Hb in Hb4. rewrite Ht, Z.add_0_l in Ht4. cbn [app] in Hb4.
  revert Hs4 Hother. generalize (run (flat_map (block_ops ecu) bs) t3). intros t4 Hs4 Hother.
  unfold run in *. cbn [foldl step] in *. unfold process_transfer_exit_response in *. rewrite Hs4 in *. cbv zeta in *.
  split_and!; [|unfold get_active_sequence; cbn; rewrite lookup_insert_eq; reflexivity | exact Hother].
  unfold get_sequence. cbn. rewrite lookup_insert_eq. eexists. split; [reflexivity|].
  unfold successful_blocks, failed_blocks. cbn [blocks complete_sequence set_state set_total_duration set_end_time].
  rewrite Hb4, successful_all, failed_none, length_map. unfold since_start. cbn.
  split_and!; congruence || reflexivity.
Qed.

Definition example_blocks : list SentBlock :=
  [mkSentBlock 1 [x41; x42] 2000000 3000000; mkSentBlock 2 [x43] 4000000 5000000].

Lemma flash_transfer_completes_witness :
  get_active_sequence 0x10 (new_tracker Options_default) = None /\
  (get_sequence 0x10 (run (transfer_ops 0x10 0x0E00 (0, 0) 0x8000 3 0 0x402 1000000 example_blocks 6000000)
     (new_tracker Options_default)) ≫= fun s => Some (state s, total_bytes_transferred s, total_duration s)) =
  Some (Complete, 3, 6).
Proof.
  split; [reflexivity|].
  destruct (flash_transfer_completes (new_tracker Options_default) 0x10 0x0E00 (0, 0) 0x8000 3 0 0x402 1000000
              example_blocks 6000000 eq_refl) as [(s & -> & Hs & _ & _ & _ & _ & _ & _ & Ht & _ & _ & _ & Hd & _) _].
  cbn [mbind option_bind]. unfold is_successful in Hs. destruct (state s); try discriminate Hs.
  rewrite Ht, Hd. reflexivity.
Defined.

(** ** A repeated block *)

Lemma fail_last_snoc nrc l b : fail_last nrc (l ++ [b]) = l ++ [fail_block nrc b].
Proof.
  induction l as [|x l IH]; [reflexivity|]. cbn. rewrite IH. destruct l; reflexivity.
Qed.

(** A block that is rejected and then repeated successfully counts as failed.
    In a sequence whose blocks are all acknowledged, send a block, reject it with any
    code, send it again and acknowledge it: the acknowledgement goes to the rejected
    block, which keeps its error, the repetition stays unacknowledged, the number of
    successful blocks does not change, and the data counts twice. *)
Theorem flash_repeated_block (t : FlashSequenceTracker) (ecu : Z) (s : FlashSequence) (c nrc : Z) (r : list byte)
    (t1 t2 t3 t4 : Z)
    (Hs : active_sequences t !! ecu = Some s) (Hack : all_acknowledged (blocks s)) (Hr : 0 <= retry_count s < 3) :
  let t' := run [TransferDataOp c r ecu t1; Rejected TransferData nrc ecu t2;
                 TransferDataOp c r ecu t3; TransferDataAcknowledged c ecu t4] t in
  exists s', get_sequence ecu t' = Some s' /\ state s' = state s /\
    blocks s' = blocks s ++ [mkFlashBlock c (zlen r) t1 true (Some nrc); mkFlashBlock c (zlen r) t3 false None] /\
    successful_blocks s' = successful_blocks s /\ failed_blocks s' = failed_blocks s + 1 /\
    total_bytes_transferred s' = uint 64 (total_bytes_transferred s + 2 * zlen r) /\
    retry_count s' = retry_count s + 1.
Proof.
  cbv zeta. unfold run. cbn [foldl step].
  unfold process_transfer_data at 2. rewrite Hs. cbv zeta.
  unfold process_negative_response. cbn [active_sequences emit_event set_calls count set_stats put set_active_sequences].
  rewrite lookup_insert_eq. change (flash_related TransferData) with true. change (TransferData =? TransferData) with true.
  cbn [negb]. cbv zeta. cbn [retry_count set_retry_count set_blocks set_error_message set_last_error
    set_total_duration set_expected_sequence_counter set_total_bytes_transferred blocks].
  rewrite fail_last_snoc.
  assert (Hu : uint 64 (retry_count s + 1) = retry_count s + 1) by (apply uint_small; split; lia).
  rewrite Hu. rewrite (proj2 (Z.ltb_ge 3 _)) by lia.
  unfold process_transfer_data. cbn [active_sequences emit_event set_calls count set_stats put set_active_sequences].
  rewrite lookup_insert_eq. cbv zeta. unfold process_transfer_data_response.
  cbn [active_sequences emit_event set_calls count set_stats put set_active_sequences].
  rewrite lookup_insert_eq. cbn [blocks set_total_duration set_expected_sequence_counter set_total_bytes_transferred
    set_blocks set_retry_count].
  rewrite <- app_assoc. unfold fail_block. cbn [app sequence_counter data_size timestamp acknowledged].
  assert (Ha : acknowledge c (blocks s ++ [mkFlashBlock c (zlen r) t1 false (Some nrc); mkFlashBlock c (zlen r) t3 false None])
    = Some (blocks s ++ [mkFlashBlock c (zlen r) t1 true (Some nrc); mkFlashBlock c (zlen r) t3 false None])).
  { clear -Hack. induction Hack as [|b l Hb _ IH]; cbn; [rewrite Z.eqb_refl; reflexivity|].
    rewrite Hb, andb_false_r, IH. reflexivity. }
  rewrite Ha. unfold get_sequence. cbn [active_sequences emit_event set_calls put set_active_sequences].
  rewrite lookup_insert_eq. eexists. split; [reflexivity|].
  unfold successful_blocks, failed_blocks. cbn.
  split_and!; try reflexivity.
  - rewrite filter_app. cbn. rewrite app_nil_r. reflexivity.
  - rewrite filter_app, length_app, Nat2Z.inj_add. reflexivity.
  - unfold uint. rewrite Zplus_mod_idemp_l. f_equal. lia.
Qed.

Lemma flash_repeated_block_witness :
  let t := run [RequestDownloadOp (0, 0) 0x8000 3 0x0E00 0x10 0; TransferAccepted 0x402 0x10 1] (new_tracker Options_default) in
  exists s, get_sequence 0x10 (run [TransferDataOp 1 [x41] 0x10 2; Rejected TransferData GeneralProgrammingFailure 0x10 3;
                 TransferDataOp 1 [x41] 0x10 4; TransferDataAcknowledged 1 0x10 5] t) = Some s /\
    successful_blocks s = 0 /\ total_bytes_transferred s = 2.
Proof.
  cbv zeta.
  set (t := run [RequestDownloadOp (0, 0) 0x8000 3 0x0E00 0x10 0; TransferAccepted 0x402 0x10 1] (new_tracker Options_default)).
  destruct (active_sequences t !! 0x10) as [s|] eqn:E; [|vm_compute in E; discriminate E].
  assert (Hs : blocks s = [] /\ retry_count s = 0 /\ total_bytes_transferred s = 0).
  { vm_compute in E. injection E as <-. split_and!; reflexivity. }
  destruct Hs as (Hb & Hr & Ht).
  destruct (flash_repeated_block t 0x10 s 1 GeneralProgrammingFailure [x41] 2 3 4 5 E) as (s' & -> & _ & _ & H1 & _ & H2 & _).
  - rewrite Hb. constructor.
  - rewrite Hr. lia.
  - exists s'. split; [reflexivity|]. unfold successful_blocks in H1 at 2. rewrite Hb in H1. rewrite Ht in H2.
    split; [exact H1 | rewrite H2; reflexivity].
Defined.

(** ** Verification *)

Lemma time_outs_same_at e now ecus t :
  e ∉ ecus -> same_at e t (foldl (fun t ecu => time_out now ecu t) t ecus).
Proof.
  revert t. induction ecus as [|ecu ecus IH]; intros t Hn; [apply same_at_refl|]. cbn.
  apply not_elem_of_cons in Hn as [Hne Hn].
  apply (same_at_trans e t (time_out now ecu t)); [|apply IH, Hn]. unfold time_out. auto with same_at.
Qed.

(** An expired sequence is archived as failed. *)
Lemma check_timeouts_expired now t ecu s :
  active_sequences t !! ecu = Some s -> expired now t s = true -> (0 < max_history (options t))%nat ->
  get_active_sequence ecu (check_timeouts now t).2 = None /\
  exists s', get_sequence ecu (check_timeouts now t).2 = Some s' /\ state s' = Failed /\ blocks s' = blocks s.
Proof.
  intros Hs Hx Hm. unfold check_timeouts. cbn [snd].
  assert (Hin : ecu ∈ to_timeout now t) by (apply to_timeout_spec; eauto).
  pose proof (to_timeout_NoDup now t) as Hnd.
  apply list_elem_of_split in Hin as (l1 & l2 & El). rewrite El in Hnd |- *.
  apply NoDup_app in Hnd as (_ & Hd & Hnd). apply NoDup_cons in Hnd as [Hn2 _].
  assert (Hn1 : ecu ∉ l1) by (intros H; apply (Hd ecu H); left).
  rewrite foldl_app. cbn [foldl].
  destruct (time_outs_same_at ecu now l1 t Hn1) as [Ha1 Hh1]. rewrite Hs in Ha1.
  pose proof (options_time_outs now l1 t) as Ho1.
  revert Ha1 Hh1 Ho1. generalize (foldl (fun t ecu => time_out now ecu t) t l1). intros t1 Ha1 Hh1 Ho1.
  destruct (time_outs_same_at ecu now l2 (time_out now ecu t1) Hn2) as [Ha2 Hh2].
  revert Ha2 Hh2. generalize (foldl (fun t ecu => time_out now ecu t) (time_out now ecu t1) l2). intros t2 Ha2 Hh2.
  unfold time_out, archive_sequence in Ha2, Hh2. rewrite Ha1 in Ha2, Hh2. cbn in Ha2, Hh2.
  rewrite lookup_insert_eq in Ha2, Hh2. cbn in Ha2, Hh2.
  rewrite lookup_delete_eq in Ha2. rewrite lookup_insert_eq in Hh2.
  unfold get_active_sequence, get_sequence. rewrite Ha2, Hh2. split; [reflexivity|]. cbn.
  unfold push_history. rewrite drop_app_le by (rewrite length_app, Ho1; cbn; lia). rewrite last_snoc.
  eexists. split; [reflexivity|]. split; reflexivity.
Qed.

(** A verification never ends.  Let the tracker watch erasures and
    verifications, and let the transfer of an ECU be complete.  After a started check of
    the programming dependencies and its positive response the sequence is marked
    verified, but is active again and stays so: a next download continues it, with the
    blocks, byte count and verification mark of the old one, and when it is older than
    the timeout it is archived as failed. *)
Theorem flash_verification_never_ends (t : FlashSequenceTracker) (ecu tester tv : Z) (s : FlashSequence)
    (status_record : list byte)
    (Hs : active_sequences t !! ecu = Some s) (Hok : is_successful s = true)
    (Herase : track_erase_routines (options t) = true) (Hver : track_verification (options t) = true)
    (Hmax : (0 < max_history (options t))%nat) :
  let t' := run [RoutineControlOp StartRoutine CheckProgrammingDependencies tester ecu;
                 RoutineControlAcknowledged CheckProgrammingDependencies status_record ecu tv] t in
  (exists s1, get_active_sequence ecu t' = Some s1 /\ state s1 = Verifying /\ checksum_verified s1 = true /\
     blocks s1 = blocks s) /\
  (forall format address n time,
     exists s2, get_sequence ecu (process_request_download format address n tester ecu time t') = Some s2 /\
       state s2 = Downloading /\ blocks s2 = blocks s /\
       total_bytes_transferred s2 = total_bytes_transferred s /\ checksum_verified s2 = true) /\
  (forall now, sequence_timeout (options t) < Z.quot (now - start_time s) SECOND ->
     get_active_sequence ecu (check_timeouts now t').2 = None /\
     exists s3, get_sequence ecu (check_timeouts now t').2 = Some s3 /\ state s3 = Failed).
Proof.
  cbv zeta.
  set (t' := run _ t).
  assert (Ho : options t' = options t) by apply options_run.
  assert (H1 : exists s1, active_sequences t' !! ecu = Some s1 /\ state s1 = Verifying /\
    checksum_verified s1 = true /\ blocks s1 = blocks s /\ total_bytes_transferred s1 = total_bytes_transferred s /\
    start_time s1 = start_time s).
  { unfold t', run. cbn [foldl step]. unfold process_routine_control. rewrite Herase. cbn [negb].
    unfold erase_request. change (CheckProgrammingDependencies =? EraseMemory) with false. cbv iota.
    unfold verification_request. rewrite Hver. change (is_verification CheckProgrammingDependencies) with true.
    cbn [andb]. rewrite Hs. unfold process_routine_control_response. cbn. rewrite lookup_insert_eq.
    unfold erase_response. change (CheckProgrammingDependencies =? EraseMemory) with false. cbn [andb].
    unfold verification_response. rewrite bool_decide_true by reflexivity. cbn. rewrite lookup_insert_eq.
    eexists. split; [reflexivity|]. destruct (4 <=? _); split_and!; reflexivity. }
  destruct H1 as (s1 & Ha & Hst & Hcv & Hb & Ht & Htime).
  assert (Hact : is_active s1 = true) by (unfold is_active; rewrite Hst; reflexivity).
  split_and!.
  - exists s1. unfold get_active_sequence. rewrite Ha, Hact. split_and!; auto.
  - intros format address n time. unfold process_request_download, start_transfer, get_or_create_sequence.
    rewrite Ha, Hact. unfold get_sequence. cbn. rewrite lookup_insert_eq. eexists. split; [reflexivity|].
    cbn. split_and!; auto.
  - intros now Hnow.
    destruct (check_timeouts_expired now t' ecu s1 Ha) as [H1 (s3 & H3 & H4 & _)].
    + unfold expired. rewrite Hact, Ho, Htime. apply Z.ltb_lt, Hnow.
    + rewrite Ho. exact Hmax.
    + split; [exact H1 | eauto].
Qed.

Lemma flash_verification_never_ends_witness :
  let t := run (transfer_ops 0x10 0x0E00 (0, 0) 0x8000 3 0 0x402 1 example_blocks 9) (new_tracker Options_default) in
  let t' := run [RoutineControlOp StartRoutine CheckProgrammingDependencies 0x0E00 0x10;
                 RoutineControlAcknowledged CheckProgrammingDependencies [] 0x10 10] t in
  get_active_sequence 0x10 (check_timeouts (301 * SECOND) t').2 = None.
Proof.
  cbv zeta. set (t := run _ (new_tracker Options_default)).
  destruct (active_sequences t !! 0x10) as [s|] eqn:E; [|vm_compute in E; discriminate E].
  assert (Hs : is_successful s = true /\ start_time s = 0) by (vm_compute in E; injection E as <-; split; reflexivity).
  destruct Hs as [Hok Hst].
  assert (Ho : options t = Options_default) by reflexivity.
  destruct (flash_verification_never_ends t 0x10 0x0E00 10 s [] E Hok) as (_ & _ & H).
  - rewrite Ho. reflexivity.
  - rewrite Ho. reflexivity.
  - rewrite Ho. cbn. lia.
  - apply (H (301 * SECOND)). rewrite Ho, Hst. vm_compute. reflexivity.
Defined.

(** Asking for the progress of an erasure loses it: an erasing sequence is not active,
    so the request archives it and starts an empty one, whose state the response to the
    erasure does not match; a download request does the same. *)
Lemma flash_erasure_lost (t : FlashSequenceTracker) (ecu tester : Z) (s : FlashSequence)
    (Hs : active_sequences t !! ecu = Some s) (Hst : state s = EraseStarted)
    (Herase : track_erase_routines (options t) = true) :
  let t' := process_routine_control RequestRoutineResults EraseMemory tester ecu t in
  exists s', get_sequence ecu t' = Some s' /\ state s' = Idle /\ erase_performed s' = false.
Proof.
  cbv zeta. unfold process_routine_control. rewrite Herase. cbn [negb]. unfold verification_request.
  change (is_verification EraseMemory) with false. rewrite andb_false_r.
  unfold erase_request, get_or_create_sequence. change (EraseMemory =? EraseMemory) with true. cbv iota.
  rewrite Hs. unfold is_active. rewrite Hst. change (RequestRoutineResults =? StartRoutine) with false.
  change (RequestRoutineResults =? RequestRoutineResults) with true. cbv iota.
  unfold get_sequence. cbn. rewrite lookup_insert_eq. eexists. split; [reflexivity|]. split; reflexivity.
Qed.
