(* ===== verification/Dtc.v ===== *)
(** * Trouble code management (src/protocols/diagnostic/dtc_manager.cpp)

    The records of trouble codes per ECU, filled from ReadDTCInformation responses
    and emptied by ClearDiagnosticInformation, with limits, a history of cleared
    codes, filters and statistics.

    - The mutex is not recursive: an operation that locks it while its caller holds
      it is undefined.  [held] says whether the caller does.
    - The order of a [std::unordered_map] is not specified: the definitions take it
      as [iterate], and the theorems hold for every order of the elements.
    - [std::chrono::steady_clock::now()] is a [now] argument; an operation that reads
      the clock several times takes a function from the number of the reading.  Time
      points are nanoseconds, with 0 as the epoch.
    - A callback is a number; its calls, with the record as it is then, are recorded
      in [calls]. *)

From Stdlib Require Import ZArith Lia.
From Stdlib Require Import Strings.Byte.
From stdpp Require Import base numbers list gmap strings.
From S2P Require Import Prelude Uds UdsTables.

Definition MILLISECOND : Z := 1000000.

(** ** Records *)

Record SnapshotRecord := mkSnapshot { record_number : Z; snapshot_data : list byte; snapshot_timestamp : Z }.

Record DTCRecord := mkDTCRecord {
  dtc : DTC;
  status : DTCStatusMask;
  ecu_address : Z;
  first_seen : Z;
  last_updated : Z;
  occurrence_count : Z;
  severity : option Z;
  functional_unit : option Z;
  extended_data : list byte;
  snapshots : list SnapshotRecord
}.
Definition new_record : DTCRecord :=
  mkDTCRecord (mkDTC 0 0 0) DTCStatusMask_default 0 0 0 1 None None [] [].

Definition set_dtc (x : DTC) (r : DTCRecord) : DTCRecord :=
  mkDTCRecord x (status r) (ecu_address r) (first_seen r) (last_updated r) (occurrence_count r) (severity r)
    (functional_unit r) (extended_data r) (snapshots r).
Definition set_status (x : DTCStatusMask) (r : DTCRecord) : DTCRecord :=
  mkDTCRecord (dtc r) x (ecu_address r) (first_seen r) (last_updated r) (occurrence_count r) (severity r)
    (functional_unit r) (extended_data r) (snapshots r).
Definition set_ecu_address (x : Z) (r : DTCRecord) : DTCRecord :=
  mkDTCRecord (dtc r) (status r) x (first_seen r) (last_updated r) (occurrence_count r) (severity r)
    (functional_unit r) (extended_data r) (snapshots r).
Definition set_first_seen (x : Z) (r : DTCRecord) : DTCRecord :=
  mkDTCRecord (dtc r) (status r) (ecu_address r) x (last_updated r) (occurrence_count r) (severity r)
    (functional_unit r) (extended_data r) (snapshots r).
Definition set_last_updated (x : Z) (r : DTCRecord) : DTCRecord :=
  mkDTCRecord (dtc r) (status r) (ecu_address r) (first_seen r) x (occurrence_count r) (severity r)
    (functional_unit r) (extended_data r) (snapshots r).
Definition set_occurrence_count (x : Z) (r : DTCRecord) : DTCRecord :=
  mkDTCRecord (dtc r) (status r) (ecu_address r) (first_seen r) (last_updated r) x (severity r)
    (functional_unit r) (extended_data r) (snapshots r).
Definition set_extended_data (x : list byte) (r : DTCRecord) : DTCRecord :=
  mkDTCRecord (dtc r) (status r) (ecu_address r) (first_seen r) (last_updated r) (occurrence_count r)
    (severity r) (functional_unit r) x (snapshots r).
Definition set_snapshots (x : list SnapshotRecord) (r : DTCRecord) : DTCRecord :=
  mkDTCRecord (dtc r) (status r) (ecu_address r) (first_seen r) (last_updated r) (occurrence_count r)
    (severity r) (functional_unit r) (extended_data r) x.

Definition dtc_string (r : DTCRecord) : string := DTC_to_string (dtc r).
Definition is_active (r : DTCRecord) : bool := test_failed (status r).
Definition is_confirmed (r : DTCRecord) : bool := confirmed_dtc (status r).
Definition is_pending (r : DTCRecord) : bool := pending_dtc (status r).
Definition failed_since_clear (r : DTCRecord) : bool := test_failed_since_last_clear (status r).
Definition age (now : Z) (r : DTCRecord) : Z := Z.quot (now - first_seen r) MILLISECOND.
Definition time_since_update (now : Z) (r : DTCRecord) : Z := Z.quot (now - last_updated r) MILLISECOND.

(** A record after its members were moved: vectors are emptied, the rest is copied. *)
Definition moved_from (r : DTCRecord) : DTCRecord := set_extended_data [] (set_snapshots [] r).

(** [DTCSeverity]. *)
Definition NoSeverityAvailable : Z := 0x00.
Definition MaintenanceOnly : Z := 0x20.
Definition CheckAtNextHalt : Z := 0x40.
Definition CheckImmediately : Z := 0x80.
Definition MaintenanceOrCheckHalt : Z := 0x60.
Definition MaintenanceOrCheckImmediate : Z := 0xA0.
Definition CheckHaltOrImmediate : Z := 0xC0.
Definition AllSeverities : Z := 0xE0.
Definition dtc_severity_string (severity : Z) : string :=
  switch severity
    [([NoSeverityAvailable], "NoSeverityAvailable");
     ([MaintenanceOnly], "MaintenanceOnly");
     ([CheckAtNextHalt], "CheckAtNextHalt");
     ([CheckImmediately], "CheckImmediately");
     ([MaintenanceOrCheckHalt], "MaintenanceOrCheckHalt");
     ([MaintenanceOrCheckImmediate], "MaintenanceOrCheckImmediate");
     ([CheckHaltOrImmediate], "CheckHaltOrImmediate");
     ([AllSeverities], "AllSeverities")] "Unknown".

Inductive DTCEvent :=
| DTCAdded | DTCUpdated | DTCCleared | AllDTCsCleared | SnapshotReceived | ExtendedReceived | DTCCountChanged.
Definition dtc_event_string (event : DTCEvent) : string :=
  match event with
  | DTCAdded => "DTCAdded"
  | DTCUpdated => "DTCUpdated"
  | DTCCleared => "DTCCleared"
  | AllDTCsCleared => "AllDTCsCleared"
  | SnapshotReceived => "SnapshotReceived"
  | ExtendedReceived => "ExtendedReceived"
  | DTCCountChanged => "DTCCountChanged"
  end.

(** ** Filters *)

Record DTCFilter := mkDTCFilter {
  filter_ecu_address : Z;
  status_mask : option DTCStatusMask;
  filter_severity : option Z;
  active_only : bool;
  confirmed_only : bool;
  pending_only : bool;
  max_age : option Z;
  category_prefix : option Ascii.ascii
}.
Definition filter_all : DTCFilter := mkDTCFilter 0 None None false false false None None.
Definition filter_active : DTCFilter := mkDTCFilter 0 None None true false false None None.
Definition filter_confirmed : DTCFilter := mkDTCFilter 0 None None false true false None None.
Definition filter_for_ecu (addr : Z) : DTCFilter := mkDTCFilter addr None None false false false None None.

(** Whether a condition that may be absent holds. *)
Definition holds_if {A} (o : option A) (p : A -> bool) : bool := match o with Some a => p a | None => true end.

Definition status_matches (mask st : DTCStatusMask) : bool :=
  (test_failed mask && test_failed st) || (confirmed_dtc mask && confirmed_dtc st) ||
  (pending_dtc mask && pending_dtc st) || (test_failed_since_last_clear mask && test_failed_since_last_clear st).

Definition matches_filter (now : Z) (r : DTCRecord) (f : DTCFilter) : bool :=
  if negb (filter_ecu_address f =? 0) && negb (filter_ecu_address f =? ecu_address r) then false
  else if active_only f && negb (is_active r) then false
  else if confirmed_only f && negb (is_confirmed r) then false
  else if pending_only f && negb (is_pending r) then false
  else if negb (holds_if (max_age f) (fun a => negb (a <? age now r))) then false
  else if negb (holds_if (category_prefix f) (fun c =>
                  match dtc_string r with
                  | EmptyString => false
                  | String c' _ => bool_decide (c' = c)
                  end)) then false
  else holds_if (status_mask f) (fun mask => status_matches mask (status r)).

(** ** The manager *)

Record Options := mkOptions {
  max_dtcs_per_ecu : Z;
  max_total_dtcs : Z;
  keep_cleared_history : bool;
  max_cleared_history : nat;
  track_occurrences : bool
}.
Definition Options_default : Options := mkOptions 1000 10000 true 100 true.

Record GlobalStatistics := mkStatistics {
  total_dtcs : Z;
  total_ecus : Z;
  active_dtcs : Z;
  confirmed_dtcs : Z;
  dtc_events_processed : Z;
  clear_operations : Z
}.
Definition GlobalStatistics_zero : GlobalStatistics := mkStatistics 0 0 0 0 0 0.

Record Call := mkCall { call_callback : nat; call_event : DTCEvent; call_ecu : Z; call_record : option DTCRecord }.

Record ECUData := mkECUData {
  dtcs : gmap Z DTCRecord;
  cleared_history : list DTCRecord;
  last_read : Z;
  last_clear : Z
}.
Definition new_ecu_data : ECUData := mkECUData ∅ [] 0 0.
Definition set_dtcs (x : gmap Z DTCRecord) (d : ECUData) : ECUData :=
  mkECUData x (cleared_history d) (last_read d) (last_clear d).
Definition set_cleared_history (x : list DTCRecord) (d : ECUData) : ECUData :=
  mkECUData (dtcs d) x (last_read d) (last_clear d).
Definition set_last_read (x : Z) (d : ECUData) : ECUData :=
  mkECUData (dtcs d) (cleared_history d) x (last_clear d).
Definition set_last_clear (x : Z) (d : ECUData) : ECUData :=
  mkECUData (dtcs d) (cleared_history d) (last_read d) x.

Record DTCManager := mkManager {
  options : Options;
  stats : GlobalStatistics;
  ecu_data : gmap Z ECUData;
  callbacks : list nat;
  calls : list Call
}.
Definition new_manager (opts : Options) : DTCManager := mkManager opts GlobalStatistics_zero ∅ [] [].
Definition set_stats (x : GlobalStatistics) (m : DTCManager) : DTCManager :=
  mkManager (options m) x (ecu_data m) (callbacks m) (calls m).
Definition set_ecu_data (x : gmap Z ECUData) (m : DTCManager) : DTCManager :=
  mkManager (options m) (stats m) x (callbacks m) (calls m).
Definition set_callbacks (x : list nat) (m : DTCManager) : DTCManager :=
  mkManager (options m) (stats m) (ecu_data m) x (calls m).
Definition set_calls (x : list Call) (m : DTCManager) : DTCManager :=
  mkManager (options m) (stats m) (ecu_data m) (callbacks m) x.

Definition emit_event (event : DTCEvent) (ecu : Z) (r : option DTCRecord) (m : DTCManager) : DTCManager :=
  set_calls (calls m ++ map (fun callback => mkCall callback event ecu r) (callbacks m)) m.

(** [ecu_data_[ecu]], which creates an empty entry where there is none. *)
Definition data_of (ecu : Z) (m : DTCManager) : ECUData := default new_ecu_data (ecu_data m !! ecu).
Definition put_data (ecu : Z) (d : ECUData) (m : DTCManager) : DTCManager :=
  set_ecu_data (<[ecu := d]> (ecu_data m)) m.
(** A write to a record through the reference to it. *)
Definition put_record (ecu key : Z) (r : DTCRecord) (m : DTCManager) : DTCManager :=
  let d := data_of ecu m in put_data ecu (set_dtcs (<[key := r]> (dtcs d)) d) m.

Definition count_event (st : GlobalStatistics) : GlobalStatistics :=
  mkStatistics (total_dtcs st) (total_ecus st) (active_dtcs st) (confirmed_dtcs st)
    (uint 64 (dtc_events_processed st + 1)) (clear_operations st).
Definition count_clear (st : GlobalStatistics) : GlobalStatistics :=
  mkStatistics (total_dtcs st) (total_ecus st) (active_dtcs st) (confirmed_dtcs st)
    (dtc_events_processed st) (uint 64 (clear_operations st + 1)).
Definition add_if (b : bool) (n : Z) : Z := if b then uint 64 (n + 1) else n.
Definition count_added (s : DTCStatusMask) (st : GlobalStatistics) : GlobalStatistics :=
  mkStatistics (uint 64 (total_dtcs st + 1)) (total_ecus st) (add_if (test_failed s) (active_dtcs st))
    (add_if (confirmed_dtc s) (confirmed_dtcs st)) (dtc_events_processed st) (clear_operations st).

Section manager.
(** The elements of a map in the order of its iterators. *)
Context (iterate : forall A : Type, gmap Z A -> list (Z * A)).

(** *** Limits *)

Definition older (best x : Z * DTCRecord) : Z * DTCRecord :=
  if first_seen x.2 <? first_seen best.2 then x else best.
Definition oldest (l : list (Z * DTCRecord)) : option (Z * DTCRecord) :=
  match l with [] => None | x :: l' => Some (foldl older x (x :: l')) end.

Definition erase_oldest (m : gmap Z DTCRecord) : gmap Z DTCRecord :=
  match oldest (iterate DTCRecord m) with Some (key, _) => delete key m | None => m end.

(** The fuel is the number of records: each turn erases one. *)
Fixpoint limit_ecu (fuel : nat) (max : Z) (m : gmap Z DTCRecord) : gmap Z DTCRecord :=
  match fuel with
  | O => m
  | S fuel' => if max <? Z.of_nat (size m) then limit_ecu fuel' max (erase_oldest m) else m
  end.

Definition total_size (data : gmap Z ECUData) : Z :=
  foldl (fun total ed => total + Z.of_nat (size (dtcs ed.2))) 0 (iterate ECUData data).

Definition larger (best : Z * Z) (ed : Z * ECUData) : Z * Z :=
  if best.2 <? Z.of_nat (size (dtcs ed.2)) then (ed.1, Z.of_nat (size (dtcs ed.2))) else best.
(** The address of the ECU with most records; 0 when there is none. *)
Definition max_ecu (data : gmap Z ECUData) : Z := (foldl larger (0, 0) (iterate ECUData data)).1.

(** Each turn erases one record, and [total] is their number. *)
Fixpoint limit_total (fuel : nat) (max total : Z) (data : gmap Z ECUData) : gmap Z ECUData :=
  match fuel with
  | O => data
  | S fuel' =>
      if max <? total then
        let e := max_ecu data in
        if e =? 0 then data
        else
          let d := default new_ecu_data (data !! e) in
          if bool_decide (dtcs d = ∅) then data
          else limit_total fuel' max (total - 1) (<[e := set_dtcs (erase_oldest (dtcs d)) d]> data)
      else data
  end.

Definition enforce_limits (ecu : Z) (m : DTCManager) : DTCManager :=
  let d := data_of ecu m in
  let d := set_dtcs (limit_ecu (size (dtcs d)) (max_dtcs_per_ecu (options m)) (dtcs d)) d in
  let m := put_data ecu d m in
  let total := total_size (ecu_data m) in
  set_ecu_data (limit_total (Z.to_nat total) (max_total_dtcs (options m)) total (ecu_data m)) m.

(** The record, whether it is new, and the manager that holds it. *)
Definition get_or_create_dtc (now ecu : Z) (d : DTC) (m : DTCManager) : DTCRecord * bool * DTCManager :=
  let key := DTC_to_value d in
  let m := put_data ecu (data_of ecu m) m in
  match dtcs (data_of ecu m) !! key with
  | Some r => (r, false, m)
  | None =>
      let r := set_occurrence_count 1 (set_last_updated now (set_first_seen now (set_ecu_address ecu (set_dtc d new_record)))) in
      let m := enforce_limits ecu (put_record ecu key r m) in
      let r := default new_record (dtcs (data_of ecu m) !! key) in
      (r, true, put_record ecu key r m)
  end.

(** *** Adding *)

Definition status_changed (old new : DTCStatusMask) : bool :=
  negb (eqb (test_failed old) (test_failed new)) || negb (eqb (confirmed_dtc old) (confirmed_dtc new)) ||
  negb (eqb (pending_dtc old) (pending_dtc new)).

Definition add_dtc (now : Z) (d : DTC) (st : DTCStatusMask) (ecu timestamp : Z) (m : DTCManager) : DTCManager :=
  let '(r, is_new, m) := get_or_create_dtc now ecu d m in
  let changed := status_changed (status r) st in
  let r := set_last_updated timestamp (set_status st r) in
  let r := if negb is_new && track_occurrences (options m)
           then set_occurrence_count (uint 32 (occurrence_count r + 1)) r else r in
  let m := put_record ecu (DTC_to_value d) r m in
  if is_new then emit_event DTCAdded ecu (Some r) (set_stats (count_added st (stats m)) m)
  else if changed then emit_event DTCUpdated ecu (Some r) m
  else m.

(** [std::lock_guard lock(mutex_)]. *)
Definition lock (held : bool) : res Empty_set unit := if held then Undef else Done tt.

Definition add_snapshot (held : bool) (now : Z) (d : DTC) (ecu number : Z) (bytes : list byte) (timestamp : Z)
    (m : DTCManager) : res Empty_set DTCManager :=
  _ ← lock held;
  let '(r, _, m) := get_or_create_dtc now ecu d m in
  let r := set_snapshots (snapshots r ++ [mkSnapshot number bytes timestamp]) r in
  Done (emit_event SnapshotReceived ecu (Some r) (put_record ecu (DTC_to_value d) r m)).

Definition add_extended_data (held : bool) (now : Z) (d : DTC) (ecu : Z) (bytes : list byte) (timestamp : Z)
    (m : DTCManager) : res Empty_set DTCManager :=
  _ ← lock held;
  let '(r, _, m) := get_or_create_dtc now ecu d m in
  let r := set_last_updated timestamp (set_extended_data bytes r) in
  Done (emit_event ExtendedReceived ecu (Some r) (put_record ecu (DTC_to_value d) r m)).

(** *** Responses *)

(** The fields of [ReadDTCInformationResponse] that the manager reads. *)
Record ReadDTCInformationResponse := mkReadResponse {
  read_sub_function : Z;
  dtc_list : list (DTC * DTCStatusMask);
  dtc_record_data : list byte
}.

(** The loop over the list; the [i]-th element reads the clock at [now i]. *)
Fixpoint add_dtcs (now : nat -> Z) (i : nat) (l : list (DTC * DTCStatusMask)) (ecu timestamp : Z) (m : DTCManager) :
    DTCManager :=
  match l with
  | [] => m
  | (d, st) :: l' => add_dtcs now (S i) l' ecu timestamp (add_dtc (now i) d st ecu timestamp m)
  end.

Definition dtc_of_bytes (h md l : byte) : DTC := mkDTC (u8 h) (u8 md) (u8 l).

(** The data behind the list, with the mutex held. *)
Definition process_record_data (now : Z) (resp : ReadDTCInformationResponse) (ecu timestamp : Z) (m : DTCManager) :
    res Empty_set DTCManager :=
  let sub := read_sub_function resp in
  match dtc_record_data resp with
  | h :: md :: l :: rest =>
      let d := dtc_of_bytes h md l in
      if (sub =? ReportDTCSnapshotRecordByDTCNumber) || (sub =? ReportDTCSnapshotIdentification) then
        match rest with
        | number :: ((_ :: _) as bytes) => add_snapshot true now d ecu (u8 number) bytes timestamp m
        | _ => Done m
        end
      else if (sub =? ReportDTCExtDataRecordByDTCNumber) || (sub =? ReportDTCExtDataRecordByRecordNumber) then
        match rest with
        | [] => Done m
        | bytes => add_extended_data true now d ecu bytes timestamp m
        end
      else Done m
  | _ => Done m
  end.

Definition process_read_dtc_response (now : nat -> Z) (resp : ReadDTCInformationResponse) (ecu timestamp : Z)
    (m : DTCManager) : res Empty_set DTCManager :=
  let m := set_stats (count_event (stats m)) m in
  let m := put_data ecu (set_last_read timestamp (data_of ecu m)) m in
  let old_count := size (dtcs (data_of ecu m)) in
  let m := add_dtcs now 0 (dtc_list resp) ecu timestamp m in
  m ← process_record_data (now (length (dtc_list resp))) resp ecu timestamp m;
  Done (if bool_decide (size (dtcs (data_of ecu m)) = old_count) then m
        else emit_event DTCCountChanged ecu None m).

(** [push_back] and the erasures from the front. *)
Definition push_cleared (max : nat) (hist : list DTCRecord) (r : DTCRecord) : list DTCRecord :=
  let hist := hist ++ [r] in drop (length hist - max) hist.

Definition process_clear_dtc_response (group_of_dtc ecu : Z) (success : bool) (timestamp : Z) (m : DTCManager) :
    DTCManager :=
  if negb success then m
  else
    let m := set_stats (count_clear (stats m)) m in
    let d := set_last_clear timestamp (data_of ecu m) in
    if group_of_dtc =? 0xFFFFFF then
      let d := if keep_cleared_history (options m) then
                 set_cleared_history
                   (foldl (push_cleared (max_cleared_history (options m))) (cleared_history d)
                      (map snd (iterate DTCRecord (dtcs d)))) d
               else d in
      let cleared_count := size (dtcs d) in
      let m := put_data ecu (set_dtcs ∅ d) m in
      if (0 <? Z.of_nat cleared_count) then emit_event AllDTCsCleared ecu None m else m
    else
      let key := DTC_to_value (DTC_from_value group_of_dtc) in
      match dtcs d !! key with
      | None => put_data ecu d m
      | Some r =>
          let '(d, r) := if keep_cleared_history (options m)
                         then (set_cleared_history (cleared_history d ++ [r]) d, moved_from r) else (d, r) in
          emit_event DTCCleared ecu (Some r) (put_data ecu (set_dtcs (delete key (dtcs d)) d) m)
      end.

(** *** Queries *)

Definition ecu_visible (f : DTCFilter) (ecu : Z) : bool :=
  (filter_ecu_address f =? 0) || (filter_ecu_address f =? ecu).

(** The records of one ECU that match; the clock is read for each. *)
Definition matching (now : Z -> Z -> Z) (f : DTCFilter) (ed : Z * ECUData) : list DTCRecord :=
  map snd (filter (fun kr => matches_filter (now ed.1 kr.1) kr.2 f = true) (iterate DTCRecord (dtcs ed.2))).

Definition get_dtcs (now : Z -> Z -> Z) (f : DTCFilter) (m : DTCManager) : list DTCRecord :=
  flat_map (fun ed => if ecu_visible f ed.1 then matching now f ed else []) (iterate ECUData (ecu_data m)).

Definition count_dtcs (now : Z -> Z -> Z) (f : DTCFilter) (m : DTCManager) : Z :=
  foldl (fun count ed => if ecu_visible f ed.1 then count + zlen (matching now f ed) else count) 0
    (iterate ECUData (ecu_data m)).

Definition get_dtc (d : DTC) (ecu : Z) (m : DTCManager) : option DTCRecord :=
  data ← ecu_data m !! ecu; dtcs data !! DTC_to_value d.
Definition get_ecu_dtcs (now : Z -> Z -> Z) (ecu : Z) (m : DTCManager) : list DTCRecord :=
  get_dtcs now (filter_for_ecu ecu) m.
Definition has_dtc (d : DTC) (ecu : Z) (m : DTCManager) : bool := bool_decide (is_Some (get_dtc d ecu m)).
Definition get_ecus_with_dtcs (m : DTCManager) : list Z :=
  map fst (filter (fun ed => dtcs ed.2 <> ∅) (iterate ECUData (ecu_data m))).
Definition get_cleared_history (ecu : Z) (max_count : nat) (m : DTCManager) : list DTCRecord :=
  match ecu_data m !! ecu with
  | None => []
  | Some d => let hist := cleared_history d in drop (length hist - Nat.min max_count (length hist)) hist
  end.

Record ECUDTCStatistics := mkECUStatistics {
  stat_ecu : Z;
  stat_total : Z;
  stat_active : Z;
  stat_confirmed : Z;
  stat_pending : Z;
  stat_since_clear : Z;
  stat_last_read : Z;
  stat_last_clear : Z
}.

(** The number of records with a property. *)
Definition count_records (p : DTCRecord -> bool) (d : ECUData) : Z :=
  zlen (filter (fun kr => p kr.2 = true) (iterate DTCRecord (dtcs d))).

Definition get_ecu_statistics (held : bool) (ecu : Z) (m : DTCManager) : res Empty_set ECUDTCStatistics :=
  _ ← lock held;
  match ecu_data m !! ecu with
  | None => Done (mkECUStatistics ecu 0 0 0 0 0 0 0)
  | Some d =>
      Done (mkECUStatistics ecu (Z.of_nat (size (dtcs d))) (count_records is_active d) (count_records is_confirmed d)
              (count_records is_pending d) (count_records failed_since_clear d) (last_read d) (last_clear d))
  end.

Fixpoint statistics_loop (l : list (Z * ECUData)) (m : DTCManager) : res Empty_set (list ECUDTCStatistics) :=
  match l with
  | [] => Done []
  | (ecu, _) :: l' => s ← get_ecu_statistics true ecu m; rest ← statistics_loop l' m; Done (s :: rest)
  end.
Definition get_all_statistics (m : DTCManager) : res Empty_set (list ECUDTCStatistics) :=
  statistics_loop (iterate ECUData (ecu_data m)) m.

Definition sum_over (f : ECUData -> Z) (m : DTCManager) : Z :=
  foldl (fun n ed => n + f ed.2) 0 (iterate ECUData (ecu_data m)).
Definition statistics (m : DTCManager) : GlobalStatistics :=
  mkStatistics (sum_over (fun d => Z.of_nat (size (dtcs d))) m) (Z.of_nat (size (ecu_data m)))
    (sum_over (count_records is_active) m) (sum_over (count_records is_confirmed) m)
    (dtc_events_processed (stats m)) (clear_operations (stats m)).

(** *** Control *)

Definition on_event (callback : nat) (m : DTCManager) : DTCManager := set_callbacks (callbacks m ++ [callback]) m.
Definition clear_callbacks (m : DTCManager) : DTCManager := set_callbacks [] m.
Definition clear_ecu (ecu : Z) (m : DTCManager) : DTCManager :=
  match ecu_data m !! ecu with
  | None => m
  | Some d => emit_event AllDTCsCleared ecu None (put_data ecu (set_dtcs ∅ d) m)
  end.
Definition clear_all (m : DTCManager) : DTCManager :=
  let ecus := map fst (iterate ECUData (ecu_data m)) in
  foldl (fun m ecu => emit_event AllDTCsCleared ecu None m)
    (set_ecu_data (set_dtcs ∅ <$> ecu_data m) m) ecus.
Definition reset (m : DTCManager) : DTCManager := set_stats GlobalStatistics_zero (set_ecu_data ∅ m).

(** ** Histories *)

Inductive DTCOp :=
| ReadResponse (now : nat -> Z) (resp : ReadDTCInformationResponse) (ecu timestamp : Z)
| ClearResponse (group_of_dtc ecu : Z) (success : bool) (timestamp : Z)
| AddDtc (now : Z) (d : DTC) (st : DTCStatusMask) (ecu timestamp : Z)
| AddSnapshot (now : Z) (d : DTC) (ecu number : Z) (bytes : list byte) (timestamp : Z)
| AddExtendedData (now : Z) (d : DTC) (ecu : Z) (bytes : list byte) (timestamp : Z)
| OnEvent (callback : nat)
| ClearCallbacks
| ClearEcu (ecu : Z)
| ClearAll
| Reset.

Definition step (op : DTCOp) (m : DTCManager) : res Empty_set DTCManager :=
  match op with
  | ReadResponse now resp ecu timestamp => process_read_dtc_response now resp ecu timestamp m
  | ClearResponse group ecu success timestamp => Done (process_clear_dtc_response group ecu success timestamp m)
  | AddDtc now d st ecu timestamp => Done (add_dtc now d st ecu timestamp m)
  | AddSnapshot now d ecu number bytes timestamp => add_snapshot false now d ecu number bytes timestamp m
  | AddExtendedData now d ecu bytes timestamp => add_extended_data false now d ecu bytes timestamp m
  | OnEvent callback => Done (on_event callback m)
  | ClearCallbacks => Done (clear_callbacks m)
  | ClearEcu ecu => Done (clear_ecu ecu m)
  | ClearAll => Done (clear_all m)
  | Reset => Done (reset m)
  end.

Fixpoint run (ops : list DTCOp) (m : DTCManager) : res Empty_set DTCManager :=
  match ops with
  | [] => Done m
  | op :: ops' => m' ← step op m; run ops' m'
  end.
End manager.

(** ** Looking records up *)

Definition lookup_record (ecu key : Z) (m : DTCManager) : option DTCRecord :=
  d ← ecu_data m !! ecu; dtcs d !! key.
Definition status_at (ecu key : Z) (m : DTCManager) : option DTCStatusMask := status <$> lookup_record ecu key m.

Lemma lookup_data_of ecu key m : lookup_record ecu key m = dtcs (data_of ecu m) !! key.
Proof. unfold lookup_record, data_of. destruct (ecu_data m !! ecu); reflexivity. Qed.

Lemma data_of_put e ecu d m : data_of e (put_data ecu d m) = if decide (e = ecu) then d else data_of e m.
Proof.
  unfold data_of, put_data. cbn. destruct (decide (e = ecu)) as [->|Hne].
  - rewrite lookup_insert_eq. reflexivity.
  - rewrite lookup_insert_ne by congruence. reflexivity.
Qed.

Lemma lookup_put_data e k ecu d m :
  lookup_record e k (put_data ecu d m) = if decide (e = ecu) then dtcs d !! k else lookup_record e k m.
Proof. rewrite !lookup_data_of, data_of_put. destruct (decide (e = ecu)); reflexivity. Qed.

(** Replacing the data of an ECU by data with the same records. *)
Lemma lookup_same_dtcs e k ecu d m :
  dtcs d = dtcs (data_of ecu m) -> lookup_record e k (put_data ecu d m) = lookup_record e k m.
Proof.
  intros H. rewrite lookup_put_data. destruct (decide (e = ecu)) as [->|]; [|reflexivity].
  rewrite H, lookup_data_of. reflexivity.
Qed.

Lemma lookup_put_record e k ecu key r m :
  lookup_record e k (put_record ecu key r m) =
  if decide (e = ecu /\ k = key) then Some r else lookup_record e k m.
Proof.
  unfold put_record. rewrite lookup_put_data. cbn. destruct (decide (e = ecu)) as [->|Hne].
  - destruct (decide (k = key)) as [->|Hk].
    + rewrite lookup_insert_eq, decide_True by auto. reflexivity.
    + rewrite lookup_insert_ne, decide_False, lookup_data_of by (intuition congruence). reflexivity.
  - rewrite decide_False by (intuition congruence). reflexivity.
Qed.

Lemma put_record_twice ecu key r r' m : put_record ecu key r' (put_record ecu key r m) = put_record ecu key r' m.
Proof.
  unfold put_record. cbv zeta. rewrite data_of_put, decide_True by reflexivity.
  unfold put_data. cbn. rewrite !insert_insert_eq. reflexivity.
Qed.

Lemma lookup_emit e k event ecu r m : lookup_record e k (emit_event event ecu r m) = lookup_record e k m.
Proof. reflexivity. Qed.

(** *** The number of records *)

Fixpoint sizes (l : list (Z * ECUData)) : Z :=
  match l with [] => 0 | ed :: l' => Z.of_nat (size (dtcs ed.2)) + sizes l' end.

#[export] Instance sizes_perm : Proper ((≡ₚ) ==> (=)) sizes.
Proof. intros l l' H. induction H; cbn; lia. Qed.

Definition records (m : DTCManager) : Z := sizes (map_to_list (ecu_data m)).

Lemma sizes_nonneg l : 0 <= sizes l.
Proof. induction l; cbn; lia. Qed.

Lemma sizes_delete (data : gmap Z ECUData) ecu :
  sizes (map_to_list data) =
  Z.of_nat (size (dtcs (default new_ecu_data (data !! ecu)))) + sizes (map_to_list (delete ecu data)).
Proof.
  destruct (data !! ecu) as [d|] eqn:E.
  - rewrite <- (insert_delete_id data ecu d E) at 1.
    rewrite map_to_list_insert by apply lookup_delete_eq. reflexivity.
  - rewrite delete_id by exact E. cbn. change (size (∅ : gmap Z DTCRecord)) with 0%nat. lia.
Qed.

Lemma records_put_data ecu d m :
  records (put_data ecu d m) = Z.of_nat (size (dtcs d)) - Z.of_nat (size (dtcs (data_of ecu m))) + records m.
Proof.
  unfold records, put_data. cbn.
  rewrite (sizes_delete (<[ecu := d]> (ecu_data m)) ecu), (sizes_delete (ecu_data m) ecu).
  rewrite lookup_insert_eq, delete_insert_eq. cbn. unfold data_of. lia.
Qed.

Lemma data_size_le ecu m : Z.of_nat (size (dtcs (data_of ecu m))) <= records m.
Proof.
  unfold records. rewrite (sizes_delete (ecu_data m) ecu). unfold data_of.
  pose proof (sizes_nonneg (map_to_list (delete ecu (ecu_data m)))). lia.
Qed.

Lemma records_put_record_new ecu key r m :
  lookup_record ecu key m = None -> records (put_record ecu key r m) = records m + 1.
Proof.
  intros H. unfold put_record. rewrite records_put_data. cbn. rewrite lookup_data_of in H.
  rewrite map_size_insert_None by exact H. lia.
Qed.

Lemma records_put_record_old ecu key r m :
  is_Some (lookup_record ecu key m) -> records (put_record ecu key r m) = records m.
Proof.
  intros H. unfold put_record. rewrite records_put_data. cbn. rewrite lookup_data_of in H.
  rewrite map_size_insert_Some by exact H. lia.
Qed.

Section any_order.
Context (iterate : forall A : Type, gmap Z A -> list (Z * A)).
(** A map is iterated over each of its elements once. *)
Context (iterate_perm : forall A m, iterate A m ≡ₚ map_to_list m).

Lemma elem_of_iterate {A} (m : gmap Z A) k a : (k, a) ∈ iterate A m <-> m !! k = Some a.
Proof. rewrite iterate_perm. apply elem_of_map_to_list. Qed.

Lemma total_size_sizes data : total_size iterate data = sizes (map_to_list data).
Proof.
  unfold total_size. rewrite <- (iterate_perm ECUData data). generalize (iterate ECUData data). intros l.
  assert (H : forall n, foldl (fun total ed => total + Z.of_nat (size (dtcs ed.2))) n l = n + sizes l).
  { induction l as [|ed l IH]; intros n; cbn; [lia|]. rewrite IH. lia. }
  rewrite H. lia.
Qed.

(** *** Below the limits nothing is erased *)

(** Space for [n] more records. *)
Definition room (n : Z) (m : DTCManager) : Prop :=
  records m + n <= max_dtcs_per_ecu (options m) /\ records m + n <= max_total_dtcs (options m).

Lemma limit_ecu_room fuel max m : Z.of_nat (size m) <= max -> limit_ecu iterate fuel max m = m.
Proof. intros H. destruct fuel; [reflexivity|]. cbn. rewrite (proj2 (Z.ltb_ge _ _)) by lia. reflexivity. Qed.

Lemma limit_total_room fuel max total data : total <= max -> limit_total iterate fuel max total data = data.
Proof. intros H. destruct fuel; [reflexivity|]. cbn. rewrite (proj2 (Z.ltb_ge _ _)) by lia. reflexivity. Qed.

Lemma put_data_data_of ecu m : is_Some (ecu_data m !! ecu) -> put_data ecu (data_of ecu m) m = m.
Proof.
  intros [d Hd]. unfold put_data, data_of. rewrite Hd. cbn. rewrite insert_id by exact Hd. destruct m. reflexivity.
Qed.

Lemma set_dtcs_id d : set_dtcs (dtcs d) d = d.
Proof. destruct d. reflexivity. Qed.

Lemma enforce_limits_room ecu m :
  is_Some (ecu_data m !! ecu) -> room 0 m -> enforce_limits iterate ecu m = m.
Proof.
  intros Hs [H1 H2]. unfold enforce_limits.
  rewrite limit_ecu_room by (pose proof (data_size_le ecu m); lia).
  rewrite set_dtcs_id, put_data_data_of by exact Hs.
  rewrite total_size_sizes. unfold records in H2. rewrite limit_total_room by lia. destruct m. reflexivity.
Qed.

(** The record of a new trouble code. *)
Definition fresh_record (now ecu : Z) (d : DTC) : DTCRecord :=
  mkDTCRecord d DTCStatusMask_default ecu now now 1 None None [] [].

Lemma get_or_create_old now ecu d m r :
  lookup_record ecu (DTC_to_value d) m = Some r ->
  get_or_create_dtc iterate now ecu d m = (r, false, m).
Proof.
  intros H. unfold get_or_create_dtc.
  assert (Hs : is_Some (ecu_data m !! ecu)).
  { unfold lookup_record in H. destruct (ecu_data m !! ecu); [eauto | discriminate H]. }
  rewrite put_data_data_of by exact Hs. rewrite lookup_data_of in H. rewrite H. reflexivity.
Qed.

Lemma get_or_create_new now ecu d m :
  lookup_record ecu (DTC_to_value d) m = None -> room 1 m ->
  get_or_create_dtc iterate now ecu d m =
    (fresh_record now ecu d, true, put_record ecu (DTC_to_value d) (fresh_record now ecu d) m).
Proof.
  intros H [H1 H2]. unfold get_or_create_dtc. rewrite data_of_put, decide_True by reflexivity.
  rewrite lookup_data_of in H. rewrite H.
  change (set_occurrence_count 1 _) with (fresh_record now ecu d).
  assert (Hput : forall r, put_record ecu (DTC_to_value d) r (put_data ecu (data_of ecu m) m) =
                           put_record ecu (DTC_to_value d) r m).
  { intros r. unfold put_record. rewrite data_of_put, decide_True by reflexivity.
    unfold put_data. cbn. rewrite insert_insert_eq. reflexivity. }
  rewrite Hput.
  rewrite enforce_limits_room.
  - rewrite <- lookup_data_of, lookup_put_record, decide_True by auto. cbn [default].
    cbn [id]. rewrite put_record_twice. reflexivity.
  - unfold put_record, put_data. cbn. rewrite lookup_insert_eq. eauto.
  - assert (Hr : records (put_record ecu (DTC_to_value d) (fresh_record now ecu d) m) = records m + 1)
      by (apply records_put_record_new; rewrite lookup_data_of; exact H).
    unfold room. rewrite Hr. cbn. lia.
Qed.

(** What an operation that adds or updates one record does. *)
Record touched (ecu key : Z) (m m' : DTCManager) : Prop := {
  touched_other : forall e k, ~ (e = ecu /\ k = key) -> lookup_record e k m' = lookup_record e k m;
  touched_records : records m' <= records m + 1;
  touched_options : options m' = options m
}.

Lemma touched_put ecu key r r' now d m :
  get_or_create_dtc iterate now ecu d m = r -> room 1 m -> key = DTC_to_value d ->
  touched ecu key m (put_record ecu key r' r.2) /\
  lookup_record ecu key (put_record ecu key r' r.2) = Some r' /\
  (r.1.1 = fresh_record now ecu d \/ lookup_record ecu key m = Some r.1.1).
Proof.
  intros <- Hroom ->. destruct (lookup_record ecu (DTC_to_value d) m) as [r0|] eqn:E.
  - rewrite (get_or_create_old now ecu d m r0 E). cbn [fst snd]. split_and!; [constructor| |right; reflexivity].
    + intros e k Hn. rewrite lookup_put_record, decide_False by exact Hn. reflexivity.
    + rewrite records_put_record_old by eauto. lia.
    + reflexivity.
    + rewrite lookup_put_record, decide_True by auto. reflexivity.
  - rewrite (get_or_create_new now ecu d m E Hroom). cbn [fst snd]. split_and!; [constructor| |left; reflexivity].
    + intros e k Hn. rewrite !lookup_put_record, !decide_False by exact Hn. reflexivity.
    + rewrite records_put_record_old by (rewrite lookup_put_record, decide_True by auto; eauto).
      rewrite records_put_record_new by exact E. lia.
    + reflexivity.
    + rewrite lookup_put_record, decide_True by auto. reflexivity.
Qed.

Lemma touched_ext ecu key m m' m'' :
  touched ecu key m m' -> ecu_data m'' = ecu_data m' -> options m'' = options m' -> touched ecu key m m''.
Proof.
  intros [H1 H2 H3] Ed Eo. unfold records, lookup_record in *.
  constructor; unfold records, lookup_record; rewrite ?Ed, ?Eo; assumption.
Qed.

Lemma add_dtc_touched now d st ecu timestamp m :
  room 1 m -> touched ecu (DTC_to_value d) m (add_dtc iterate now d st ecu timestamp m) /\
  status_at ecu (DTC_to_value d) (add_dtc iterate now d st ecu timestamp m) = Some st.
Proof.
  intros Hroom. unfold add_dtc.
  destruct (get_or_create_dtc iterate now ecu d m) as [[r is_new] m'] eqn:E. cbv zeta.
  set (r' := if negb is_new && track_occurrences (options m') then _ else _).
  destruct (touched_put ecu (DTC_to_value d) _ r' now d m E Hroom eq_refl) as (Ht & Hl & _). cbn [snd] in Ht, Hl.
  assert (Hst : status r' = st) by (unfold r'; destruct (_ && _); reflexivity).
  clearbody r'.
  unfold status_at. destruct is_new; [|destruct (status_changed _ _)]; (split; [apply (touched_ext _ _ _ _ _ Ht); reflexivity|]);
    rewrite ?lookup_emit; try (change (lookup_record ecu (DTC_to_value d) (set_stats ?s ?x)) with (lookup_record ecu (DTC_to_value d) x));
    rewrite Hl; cbn; rewrite Hst; reflexivity.
Qed.

(** *** The specification: the last reported status of each code *)

Definition SNAPSHOT_REPORTS : list Z := [ReportDTCSnapshotRecordByDTCNumber; ReportDTCSnapshotIdentification].
Definition EXTENDED_REPORTS : list Z := [ReportDTCExtDataRecordByDTCNumber; ReportDTCExtDataRecordByRecordNumber].

(** The responses that make the manager lock its mutex twice. *)
Definition relocks (op : DTCOp) : bool :=
  match op with
  | ReadResponse _ resp _ _ =>
      (existsb (Z.eqb (read_sub_function resp)) SNAPSHOT_REPORTS && (5 <=? zlen (dtc_record_data resp))) ||
      (existsb (Z.eqb (read_sub_function resp)) EXTENDED_REPORTS && (4 <=? zlen (dtc_record_data resp)))
  | _ => false
  end.

(** The number of codes an operation can add. *)
Definition reports (op : DTCOp) : Z :=
  match op with
  | ReadResponse _ resp _ _ => zlen (dtc_list resp)
  | AddDtc _ _ _ _ _ | AddSnapshot _ _ _ _ _ _ | AddExtendedData _ _ _ _ _ => 1
  | _ => 0
  end.

Definition report (ecu : Z) (R : gmap (Z * Z) DTCStatusMask) (ds : DTC * DTCStatusMask) : gmap (Z * Z) DTCStatusMask :=
  <[(ecu, DTC_to_value ds.1) := ds.2]> R.
Definition mention (ecu : Z) (d : DTC) (R : gmap (Z * Z) DTCStatusMask) : gmap (Z * Z) DTCStatusMask :=
  match R !! (ecu, DTC_to_value d) with Some _ => R | None => report ecu R (d, DTCStatusMask_default) end.
Definition forget_ecu (ecu : Z) (R : gmap (Z * Z) DTCStatusMask) : gmap (Z * Z) DTCStatusMask :=
  filter (fun kv => kv.1.1 <> ecu) R.

Definition spec_step (op : DTCOp) (R : gmap (Z * Z) DTCStatusMask) : gmap (Z * Z) DTCStatusMask :=
  match op with
  | ReadResponse _ resp ecu _ => foldl (report ecu) R (dtc_list resp)
  | ClearResponse group ecu success _ =>
      if success then
        if group =? 0xFFFFFF then forget_ecu ecu R else delete (ecu, group mod 2 ^ 24) R
      else R
  | AddDtc _ d st ecu _ => report ecu R (d, st)
  | AddSnapshot _ d ecu _ _ _ | AddExtendedData _ d ecu _ _ => mention ecu d R
  | ClearEcu ecu => forget_ecu ecu R
  | ClearAll | Reset => ∅
  | OnEvent _ | ClearCallbacks => R
  end.
Definition spec_run (ops : list DTCOp) : gmap (Z * Z) DTCStatusMask := foldl (fun R op => spec_step op R) ∅ ops.

Definition implements (m : DTCManager) (R : gmap (Z * Z) DTCStatusMask) : Prop :=
  forall e k, status_at e k m = R !! (e, k).

(** The result of a step that adds at most [n] records. *)
Definition refined (m : DTCManager) (n : Z) (R : gmap (Z * Z) DTCStatusMask) (m' : DTCManager) : Prop :=
  implements m' R /\ records m' <= records m + n /\ options m' = options m.

Lemma room_le n n' m : n' <= n -> room n m -> room n' m.
Proof. intros ? []. split; lia. Qed.

Lemma implements_touched ecu key st m m' R :
  implements m R -> touched ecu key m m' -> status_at ecu key m' = Some st ->
  implements m' (<[(ecu, key) := st]> R).
Proof.
  intros H Ht Hs e k. destruct (decide (e = ecu /\ k = key)) as [[-> ->]|Hn].
  - rewrite Hs, lookup_insert_eq. reflexivity.
  - rewrite lookup_insert_ne by (intros [= <- <-]; apply Hn; split; reflexivity). rewrite <- H. unfold status_at.
    rewrite (touched_other _ _ _ _ Ht) by exact Hn. reflexivity.
Qed.

Lemma add_dtc_refines now d st ecu timestamp m R :
  implements m R -> room 1 m -> refined m 1 (report ecu R (d, st)) (add_dtc iterate now d st ecu timestamp m).
Proof.
  intros H Hroom. destruct (add_dtc_touched now d st ecu timestamp m Hroom) as [Ht Hs].
  split_and!; [exact (implements_touched _ _ _ _ _ _ H Ht Hs) | apply Ht | apply Ht].
Qed.

Lemma add_dtcs_refines now i l ecu timestamp m R :
  implements m R -> room (zlen l) m ->
  refined m (zlen l) (foldl (report ecu) R l) (add_dtcs iterate now i l ecu timestamp m).
Proof.
  revert i m R. induction l as [|[d st] l IH]; intros i m R H Hroom.
  - split_and!; [exact H | cbn; lia | reflexivity].
  - cbn [add_dtcs foldl length] in *.
    destruct (add_dtc_refines (now i) d st ecu timestamp m R H) as (H1 & H2 & H3); [apply (room_le (zlen l + 1) _ m); [lia|]|].
    { eapply room_le; [|exact Hroom]. lia. }
    destruct (IH (S i) _ _ H1) as (H4 & H5 & H6).
    { destruct Hroom as [Ha Hb]. unfold room. rewrite H3. lia. }
    split_and!; [exact H4 | lia | congruence].
Qed.

(** Adding data to a record keeps its status. *)
Lemma mention_refines now d ecu m R f :
  implements m R -> room 1 m -> (forall r, status (f r) = status r) ->
  let g := get_or_create_dtc iterate now ecu d m in
  refined m 1 (mention ecu d R) (put_record ecu (DTC_to_value d) (f g.1.1) g.2).
Proof.
  intros H Hroom Hf. cbv zeta.
  destruct (touched_put ecu (DTC_to_value d) _ (f (get_or_create_dtc iterate now ecu d m).1.1) now d m eq_refl Hroom eq_refl)
    as (Ht & Hl & Hr).
  split_and!; [|apply Ht | apply Ht]. unfold mention. rewrite <- H. unfold status_at at 1.
  destruct Hr as [Hr|Hr].
  - destruct (lookup_record ecu (DTC_to_value d) m) as [r0|] eqn:E; cbn.
    + intros e k. rewrite (get_or_create_old _ _ _ _ _ E) in Ht, Hl |- *. cbn [fst snd] in *.
      destruct (decide (e = ecu /\ k = DTC_to_value d)) as [[-> ->]|Hn].
      * unfold status_at. rewrite Hl. cbn. rewrite Hf. rewrite <- H. unfold status_at. rewrite E. reflexivity.
      * unfold status_at. rewrite (touched_other _ _ _ _ Ht) by exact Hn. apply H.
    + apply (implements_touched _ _ _ _ _ _ H Ht). unfold status_at. rewrite Hl. cbn. rewrite Hf, Hr. reflexivity.
  - rewrite Hr. cbn. intros e k. destruct (decide (e = ecu /\ k = DTC_to_value d)) as [[-> ->]|Hn].
    + unfold status_at. rewrite Hl. cbn. rewrite Hf. rewrite <- H. unfold status_at. rewrite Hr. reflexivity.
    + unfold status_at. rewrite (touched_other _ _ _ _ Ht) by exact Hn. apply H.
Qed.

Lemma refined_ext m n R m' m'' :
  refined m n R m' -> ecu_data m'' = ecu_data m' -> options m'' = options m' -> refined m n R m''.
Proof.
  intros (H1 & H2 & H3) Ed Eo. unfold refined, implements, status_at, lookup_record, records in *.
  rewrite Ed, Eo. split_and!; assumption.
Qed.

Lemma process_record_data_spec now resp ecu timestamp m clock :
  process_record_data iterate now resp ecu timestamp m =
  if relocks (ReadResponse clock resp ecu timestamp) then Undef else Done m.
Proof.
  unfold process_record_data, relocks. cbn [read_sub_function dtc_record_data].
  destruct resp as [sub l data]. cbn [read_sub_function dtc_record_data].
  assert (Es : existsb (Z.eqb sub) SNAPSHOT_REPORTS =
               (sub =? ReportDTCSnapshotRecordByDTCNumber) || (sub =? ReportDTCSnapshotIdentification)).
  { cbn. rewrite orb_false_r. reflexivity. }
  assert (Ee : existsb (Z.eqb sub) EXTENDED_REPORTS =
               (sub =? ReportDTCExtDataRecordByDTCNumber) || (sub =? ReportDTCExtDataRecordByRecordNumber)).
  { cbn. rewrite orb_false_r. reflexivity. }
  assert (Hdisj : existsb (Z.eqb sub) SNAPSHOT_REPORTS = true -> existsb (Z.eqb sub) EXTENDED_REPORTS = false).
  { rewrite Es. intros [H|H]%orb_prop; apply Z.eqb_eq in H as ->; reflexivity. }
  rewrite <- Es, <- Ee. destruct data as [|h [|md [|lo rest]]]; cbn [length];
    try (rewrite !(proj2 (Z.leb_gt _ _)) by lia; rewrite !andb_false_r; reflexivity).
  destruct (existsb (Z.eqb sub) SNAPSHOT_REPORTS) eqn:E1.
  - rewrite (Hdisj eq_refl). cbn [andb orb].
    destruct rest as [|number [|b rest]]; cbn [length];
      [rewrite (proj2 (Z.leb_gt _ _)) by lia; reflexivity | rewrite (proj2 (Z.leb_gt _ _)) by lia; reflexivity |].
    rewrite (proj2 (Z.leb_le _ _)) by lia. reflexivity.
  - cbn [andb orb]. destruct (existsb (Z.eqb sub) EXTENDED_REPORTS); [cbn [andb] | reflexivity].
    destruct rest as [|b rest]; cbn [length]; [rewrite (proj2 (Z.leb_gt _ _)) by lia; reflexivity|].
    rewrite (proj2 (Z.leb_le _ _)) by lia. reflexivity.
Qed.

Lemma forget_ecu_lookup ecu R e k : forget_ecu ecu R !! (e, k) = if decide (e = ecu) then None else R !! (e, k).
Proof.
  unfold forget_ecu. destruct (decide (e = ecu)) as [->|Hne].
  - apply map_lookup_filter_None. right. intros x _ Hx. apply Hx. reflexivity.
  - destruct (R !! (e, k)) as [x|] eqn:E.
    + apply map_lookup_filter_Some. split; [exact E | exact Hne].
    + apply map_lookup_filter_None. left. exact E.
Qed.

(** Erasing the records of an ECU. *)
Lemma refined_clear ecu d m R :
  implements m R -> dtcs d = ∅ -> refined m 0 (forget_ecu ecu R) (put_data ecu d m).
Proof.
  intros H Hd. split_and!; [|rewrite records_put_data, Hd; cbn; change (size (∅ : gmap Z DTCRecord)) with 0%nat; lia
                            | reflexivity].
  intros e k. rewrite forget_ecu_lookup. unfold status_at. rewrite lookup_put_data.
  destruct (decide (e = ecu)); [rewrite Hd, lookup_empty; reflexivity | apply H].
Qed.

Lemma dtc_key_mod group : DTC_to_value (DTC_from_value group) = group mod 2 ^ 24.
Proof. apply (uds_trouble_value group). Qed.

Lemma clear_response_refines group ecu success timestamp m R :
  implements m R ->
  refined m 0 (spec_step (ClearResponse group ecu success timestamp) R)
    (process_clear_dtc_response iterate group ecu success timestamp m).
Proof.
  intros H. unfold process_clear_dtc_response. cbn [spec_step].
  destruct success; cbn [negb]; [|split_and!; [exact H | lia | reflexivity]].
  set (m1 := set_stats (count_clear (stats m)) m).
  assert (H1 : implements m1 R) by exact H.
  assert (Hm1 : forall n R' m', refined m1 n R' m' -> refined m n R' m') by (intros n R' m' Hr; exact Hr).
  clearbody m1. apply Hm1. destruct (group =? 0xFFFFFF).
  - cbv zeta. set (d := if keep_cleared_history _ then _ else _). destruct (0 <? _).
    + apply (refined_ext _ _ _ (put_data ecu (set_dtcs ∅ d) m1)); [|reflexivity|reflexivity].
      apply refined_clear; [exact H1 | reflexivity].
    + apply refined_clear; [exact H1 | reflexivity].
  - cbv zeta. rewrite dtc_key_mod. set (key := group mod 2 ^ 24).
    assert (Hk : dtcs (set_last_clear timestamp (data_of ecu m1)) = dtcs (data_of ecu m1)) by reflexivity.
    rewrite Hk. destruct (dtcs (data_of ecu m1) !! key) as [r|] eqn:Er.
    + set (d := if keep_cleared_history _ then _ else _). assert (Hd : dtcs d.1 = dtcs (data_of ecu m1)).
      { unfold d. destruct (keep_cleared_history _); reflexivity. }
      clearbody d. destruct d as [d r']. cbn [fst] in Hd.
      apply (refined_ext _ _ _ (put_data ecu (set_dtcs (delete key (dtcs d)) d) m1)); [|reflexivity|reflexivity].
      split_and!; [|rewrite records_put_data; cbn; rewrite Hd, map_size_delete, Er; lia | reflexivity].
      intros e k. unfold status_at. rewrite lookup_put_data. cbn. rewrite Hd.
      destruct (decide (e = ecu)) as [->|Hne].
      * destruct (decide (k = key)) as [->|Hkk]; [rewrite !lookup_delete_eq; reflexivity|].
        rewrite !lookup_delete_ne by congruence. rewrite <- H1. unfold status_at. rewrite lookup_data_of. reflexivity.
      * rewrite lookup_delete_ne by congruence. apply H1.
    + split_and!; [|rewrite records_put_data, Hk; lia | reflexivity].
      intros e k. unfold status_at. rewrite lookup_same_dtcs by exact Hk.
      destruct (decide ((e, k) = (ecu, key))) as [[= -> ->]|Hne].
      * rewrite lookup_delete_eq, lookup_data_of, Er. reflexivity.
      * rewrite lookup_delete_ne by congruence. apply H1.
Qed.

Lemma emit_all_data event ecus m :
  ecu_data (foldl (fun m ecu => emit_event event ecu None m) m ecus) = ecu_data m /\
  options (foldl (fun m ecu => emit_event event ecu None m) m ecus) = options m.
Proof. revert m. induction ecus as [|ecu ecus IH]; intros m; [split; reflexivity | exact (IH (emit_event event ecu None m))]. Qed.

Lemma clear_all_refines m : refined m 0 ∅ (clear_all iterate m).
Proof.
  unfold clear_all. destruct (emit_all_data AllDTCsCleared (map fst (iterate ECUData (ecu_data m)))
                                (set_ecu_data (set_dtcs ∅ <$> ecu_data m) m)) as [Hd Ho].
  apply (refined_ext _ _ _ (set_ecu_data (set_dtcs ∅ <$> ecu_data m) m)); [|exact Hd | exact Ho].
  split_and!; [| |reflexivity].
  - intros e k. unfold status_at, lookup_record. cbn. rewrite lookup_fmap, lookup_empty.
    destruct (ecu_data m !! e); reflexivity.
  - assert (H0 : records (set_ecu_data (set_dtcs ∅ <$> ecu_data m) m) = 0); [|pose proof (sizes_nonneg (map_to_list (ecu_data m))) as Hn; unfold records in *; lia].
    unfold records. cbn. rewrite map_to_list_fmap. generalize (map_to_list (ecu_data m)). intros l.
    induction l as [|[e d] l IH]; [reflexivity|]. cbn in *. exact IH.
Qed.

Lemma refined_same m R m' :
  implements m R -> ecu_data m' = ecu_data m -> options m' = options m -> refined m 0 R m'.
Proof. intros H. apply refined_ext. split_and!; [exact H | lia | reflexivity]. Qed.

(** Every operation that does not lock twice implements the specification. *)
Lemma step_refines op m R :
  implements m R -> room (reports op) m -> relocks op = false ->
  exists m', step iterate op m = Done m' /\ refined m (reports op) (spec_step op R) m'.
Proof.
  intros H Hroom Hl.
  destruct op as [now resp ecu timestamp | group ecu success timestamp | now d st ecu timestamp
    | now d ecu number bytes timestamp | now d ecu bytes timestamp | | | ecu | | ]; cbn [step reports spec_step] in *.
  - unfold process_read_dtc_response. set (m1 := put_data _ _ _).
    assert (Hd1 : dtcs (set_last_read timestamp (data_of ecu (set_stats (count_event (stats m)) m))) = dtcs (data_of ecu m))
      by reflexivity.
    assert (H1 : implements m1 R).
    { intros e k. unfold status_at, m1. rewrite lookup_same_dtcs by exact Hd1. apply H. }
    assert (Hrec : records m1 = records m) by (unfold m1; rewrite records_put_data, Hd1; change (data_of ecu (set_stats _ m)) with (data_of ecu m); change (records (set_stats _ m)) with (records m); lia).
    assert (Hroom1 : room (zlen (dtc_list resp)) m1) by (unfold room; rewrite Hrec; exact Hroom).
    destruct (add_dtcs_refines now 0 (dtc_list resp) ecu timestamp m1 R H1 Hroom1) as (H2 & H3 & H4).
    rewrite (process_record_data_spec _ _ _ _ _ now), Hl, bind_Done. rewrite Hrec in H3. cbv zeta.
    eexists. split; [reflexivity|]. change (options m1) with (options m) in H4.
    destruct (bool_decide _); (split_and!; [exact H2 | exact H3 | exact H4]).
  - eexists. split; [reflexivity|]. apply clear_response_refines, H.
  - eexists. split; [reflexivity|]. apply add_dtc_refines; assumption.
  - unfold add_snapshot. cbn [lock]. rewrite bind_Done.
    pose proof (mention_refines now d ecu m R (fun r => set_snapshots (snapshots r ++ [mkSnapshot number bytes timestamp]) r)
                  H Hroom (fun r => eq_refl)) as Hr. cbv zeta in Hr.
    destruct (get_or_create_dtc iterate now ecu d m) as [[r b] m']. cbn [fst snd] in Hr.
    eexists. split; [reflexivity | exact Hr].
  - unfold add_extended_data. cbn [lock]. rewrite bind_Done.
    pose proof (mention_refines now d ecu m R (fun r => set_last_updated timestamp (set_extended_data bytes r))
                  H Hroom (fun r => eq_refl)) as Hr. cbv zeta in Hr.
    destruct (get_or_create_dtc iterate now ecu d m) as [[r b] m']. cbn [fst snd] in Hr.
    eexists. split; [reflexivity | exact Hr].
  - eexists. split; [reflexivity|]. apply (refined_same m); [exact H | reflexivity | reflexivity].
  - eexists. split; [reflexivity|]. apply (refined_same m); [exact H | reflexivity | reflexivity].
  - eexists. split; [reflexivity|]. unfold clear_ecu. destruct (ecu_data m !! ecu) as [d|] eqn:E.
    + apply (refined_ext _ _ _ (put_data ecu (set_dtcs ∅ d) m)); [|reflexivity|reflexivity].
      apply refined_clear; [exact H | reflexivity].
    + split_and!; [|lia|reflexivity]. intros e k. rewrite forget_ecu_lookup.
      destruct (decide (e = ecu)) as [->|]; [|apply H]. unfold status_at, lookup_record. rewrite E. reflexivity.
  - eexists. split; [reflexivity | apply clear_all_refines].
  - eexists. split; [reflexivity|]. split_and!; [|change (records (reset m)) with 0; pose proof (sizes_nonneg (map_to_list (ecu_data m))) as Hn; unfold records; lia | reflexivity].
    intros e k. rewrite lookup_empty. reflexivity.
Qed.

Definition total_reports (ops : list DTCOp) : Z := foldr (fun op n => reports op + n) 0 ops.

Lemma reports_nonneg op : 0 <= reports op.
Proof. destruct op; cbn; lia. Qed.

Lemma run_refines ops m R :
  implements m R -> room (total_reports ops) m -> Forall (fun op => relocks op = false) ops ->
  exists m', run iterate ops m = Done m' /\ implements m' (foldl (fun R op => spec_step op R) R ops).
Proof.
  intros H Hroom Hf. revert m R H Hroom.
  induction Hf as [|op ops Hl _ IH]; intros m R H Hroom; [eexists; split; [reflexivity | exact H]|].
  change (total_reports (op :: ops)) with (reports op + total_reports ops) in Hroom.
  assert (Hn : 0 <= total_reports ops).
  { clear. induction ops as [|op ops IH]; [reflexivity|].
    change (total_reports (op :: ops)) with (reports op + total_reports ops). pose proof (reports_nonneg op). lia. }
  destruct (step_refines op m R H) as (m1 & Hs & H1 & H2 & H3); [apply (room_le (reports op + total_reports ops)); [lia | exact Hroom] | exact Hl |].
  cbn [run foldl]. rewrite Hs, bind_Done. apply IH; [exact H1|].
  destruct Hroom as [Ha Hb]. unfold room. rewrite H3. lia.
Qed.
End any_order.

(** [C17] As long as the limits are not reached, the manager holds the last reported
    status of every trouble code.  Whatever the order in which the hash maps are
    iterated and whatever the clock reads, a history of responses, additions and
    clearings that reports no more codes than the limits and carries no record data
    runs to the end, and [get_dtc] then finds a code of an ECU exactly when it was
    reported (or mentioned in snapshot or extended data) after it was last cleared, with
    the status of its last report. *)
Theorem dtc_manager_refines (iterate : forall A : Type, gmap Z A -> list (Z * A)) (opts : Options) (ops : list DTCOp)
    (Hiterate : forall A m, iterate A m ≡ₚ map_to_list m)
    (Hecu : total_reports ops <= max_dtcs_per_ecu opts) (Htotal : total_reports ops <= max_total_dtcs opts)
    (Hlocks : Forall (fun op => relocks op = false) ops) :
  exists m, run iterate ops (new_manager opts) = Done m /\
    forall d ecu, status <$> get_dtc d ecu m = spec_run ops !! (ecu, DTC_to_value d).
Proof.
  destruct (run_refines iterate Hiterate ops (new_manager opts) ∅) as (m & Hm & H).
  - intros e k. rewrite lookup_empty. reflexivity.
  - split; assumption.
  - exact Hlocks.
  - exists m. split; [exact Hm|]. intros d ecu. exact (H ecu (DTC_to_value d)).
Qed.

Definition map_order (A : Type) (m : gmap Z A) : list (Z * A) := map_to_list m.

Definition example_ops : list DTCOp :=
  [ReadResponse (fun i => Z.of_nat i) (mkReadResponse ReportDTCByStatusMask
     [(mkDTC 1 2 3, DTCStatusMask_from_byte 1); (mkDTC 4 5 6, DTCStatusMask_from_byte 8);
      (mkDTC 1 2 3, DTCStatusMask_from_byte 9)] []) 0x10 7;
   ClearResponse 0x040506 0x10 true 8].

Lemma dtc_manager_refines_witness :
  exists m, run map_order example_ops (new_manager Options_default) = Done m /\
    status <$> get_dtc (mkDTC 1 2 3) 0x10 m = Some (DTCStatusMask_from_byte 9) /\
    status <$> get_dtc (mkDTC 4 5 6) 0x10 m = None.
Proof.
  destruct (dtc_manager_refines map_order Options_default example_ops) as (m & Hm & H).
  - intros A m. reflexivity.
  - vm_compute. discriminate.
  - vm_compute. discriminate.
  - repeat constructor.
  - exists m. split; [exact Hm|]. rewrite !H. split; reflexivity.
Defined.

(** [C40] The manager deadlocks on the responses it was written for.  A step is
    undefined, because it locks a mutex that is already held, exactly on a
    ReadDTCInformation response whose record data reaches its snapshot (sub-functions
    3 and 4, more than four bytes) or extended data (6 and 0x16, more than three);
    the statistics of all ECUs are undefined as soon as one ECU is known. *)
Theorem dtc_locks (iterate : forall A : Type, gmap Z A -> list (Z * A)) (m : DTCManager)
    (Hiterate : forall A (m : gmap Z A), iterate A m ≡ₚ map_to_list m) :
  (forall op, step iterate op m = Undef <-> relocks op = true) /\
  (get_all_statistics iterate m = Undef <-> ecu_data m <> ∅).
Proof.
  split.
  - intros op.
    destruct op as [now resp ecu timestamp | | | now d ecu number bytes timestamp | now d ecu bytes timestamp | | | | | ];
      try (cbn; split; discriminate).
    + cbn [step]. unfold process_read_dtc_response. cbv zeta. rewrite (process_record_data_spec iterate _ _ _ _ _ now).
      destruct (relocks _); [split; reflexivity | rewrite bind_Done; split; discriminate].
    + cbn [step]. unfold add_snapshot. cbn [lock]. rewrite bind_Done.
      destruct (get_or_create_dtc _ _ _ _ _) as [[? ?] ?]. split; discriminate.
    + cbn [step]. unfold add_extended_data. cbn [lock]. rewrite bind_Done.
      destruct (get_or_create_dtc _ _ _ _ _) as [[? ?] ?]. split; discriminate.
  - unfold get_all_statistics. pose proof (Hiterate ECUData (ecu_data m)) as Hp.
    destruct (iterate ECUData (ecu_data m)) as [|[e d] l].
    + symmetry in Hp. apply Permutation_nil_r, map_to_list_empty_iff in Hp. cbn. split; [discriminate | contradiction].
    + cbn. split; [|reflexivity]. intros _ He. rewrite He, map_to_list_empty in Hp.
      apply Permutation_nil_r in Hp. discriminate Hp.
Qed.

Lemma dtc_locks_witness :
  step map_order (ReadResponse (fun _ => 0) (mkReadResponse ReportDTCSnapshotRecordByDTCNumber []
    [x01; x02; x03; x01; xff]) 0x10 0) (new_manager Options_default) = Undef.
Proof.
  apply (dtc_locks map_order (new_manager Options_default)); [intros A m; reflexivity | reflexivity].
Defined.

(** ** Eviction *)

Section eviction.
Context (iterate : forall A : Type, gmap Z A -> list (Z * A)).
Context (iterate_perm : forall A m, iterate A m ≡ₚ map_to_list m).

Lemma older_fold l b :
  foldl older b l ∈ b :: l /\ (forall y, y ∈ b :: l -> first_seen (foldl older b l).2 <= first_seen y.2).
Proof.
  revert b. induction l as [|x l IH]; intros b; cbn [foldl].
  - split; [left|]. intros y Hy. apply list_elem_of_singleton in Hy as ->. lia.
  - destruct (IH (older b x)) as [H1 H2].
    assert (Hb : older b x = b /\ first_seen b.2 <= first_seen x.2 \/ older b x = x /\ first_seen x.2 < first_seen b.2).
    { unfold older. destruct (first_seen x.2 <? first_seen b.2) eqn:E; bool_to_prop; [right | left]; split; auto; lia. }
    split.
    + apply elem_of_cons in H1 as [H1|H1]; [|right; right; exact H1]. rewrite H1.
      destruct Hb as [[-> _]|[-> _]]; [left | right; left].
    + intros y Hy. pose proof (H2 (older b x) ltac:(left)) as Hm.
      apply elem_of_cons in Hy as [->|Hy]; [destruct Hb as [[Eb ?]|[Eb ?]]; rewrite Eb in *; lia|].
      apply elem_of_cons in Hy as [->|Hy]; [destruct Hb as [[Eb ?]|[Eb ?]]; rewrite Eb in *; lia|].
      apply H2. right. exact Hy.
Qed.

(** [erase_oldest] deletes an element with the smallest time. *)
Lemma erase_oldest_spec m :
  m <> ∅ -> exists k r, m !! k = Some r /\ (forall k' r', m !! k' = Some r' -> first_seen r <= first_seen r') /\
    erase_oldest iterate m = delete k m.
Proof.
  intros Hm. unfold erase_oldest, oldest. destruct (iterate DTCRecord m) as [|x l] eqn:E.
  - pose proof (iterate_perm DTCRecord m) as Hp. rewrite E in Hp. symmetry in Hp.
    apply Permutation_nil_r, map_to_list_empty_iff in Hp. contradiction.
  - destruct (older_fold (x :: l) x) as [H1 H2].
    assert (H1' : foldl older x (x :: l) ∈ iterate DTCRecord m).
    { rewrite E. apply elem_of_cons in H1 as [->|H1]; [left | exact H1]. }
    destruct (foldl older x (x :: l)) as [k r]. apply elem_of_iterate in H1'; [|exact iterate_perm].
    exists k, r. split; [exact H1'|]. split; [|reflexivity].
    intros k' r' Hr. apply (H2 (k', r')). right. rewrite <- E. apply elem_of_iterate; assumption.
Qed.

(** Inserting a newest record into a full map erases the oldest of the old ones. *)
Lemma limit_ecu_full max m key r :
  m !! key = None -> Z.of_nat (size m) = max -> 1 <= max ->
  (forall k r', m !! k = Some r' -> first_seen r' < first_seen r) ->
  exists k0 r0, m !! k0 = Some r0 /\ (forall k r', m !! k = Some r' -> first_seen r0 <= first_seen r') /\
    limit_ecu iterate (size (<[key := r]> m)) max (<[key := r]> m) = delete k0 (<[key := r]> m).
Proof.
  intros Hk Hs Hmax Hnew.
  destruct (erase_oldest_spec (<[key := r]> m)) as (k0 & r0 & H0 & Hmin & He); [apply insert_non_empty|].
  assert (Hne : k0 <> key).
  { intros ->. rewrite lookup_insert_eq in H0. injection H0 as <-.
    destruct (map_choose m) as (k & r' & Hr').
    { intros ->. change (size (∅ : gmap Z DTCRecord)) with 0%nat in Hs. lia. }
    assert (k <> key) by congruence.
    pose proof (Hmin k r' ltac:(rewrite lookup_insert_ne by congruence; exact Hr')) as H1.
    pose proof (Hnew k r' Hr'). lia. }
  rewrite lookup_insert_ne in H0 by congruence.
  exists k0, r0. split; [exact H0|]. split.
  { intros k r' Hr'. apply (Hmin k). rewrite lookup_insert_ne by congruence. exact Hr'. }
  assert (Hsz : size (<[key := r]> m) = S (size m)) by (apply map_size_insert_None, Hk).
  rewrite Hsz. cbn [limit_ecu]. rewrite Hsz, (proj2 (Z.ltb_lt _ _)) by lia. rewrite He.
  apply limit_ecu_room. rewrite map_size_delete, lookup_insert_ne, H0, Hsz by congruence. cbn. lia.
Qed.
End eviction.

(** A full ECU gives up its oldest code.  When the records of an ECU are as
    many as the limit allows, and the clock is past all their times, adding a code
    that is not among them stores it with the given status and erases one of those
    seen first, whatever the order of the hash maps; every other record of every ECU
    stays as it is. *)
Theorem dtc_evicts_oldest (iterate : forall A : Type, gmap Z A -> list (Z * A)) (m : DTCManager)
    (now ecu timestamp : Z) (d : DTC) (st : DTCStatusMask)
    (Hiterate : forall A m, iterate A m ≡ₚ map_to_list m)
    (Hfull : Z.of_nat (size (dtcs (data_of ecu m))) = max_dtcs_per_ecu (options m))
    (Hmax : 1 <= max_dtcs_per_ecu (options m)) (Htotal : records m <= max_total_dtcs (options m))
    (Hnew : lookup_record ecu (DTC_to_value d) m = None)
    (Hclock : forall k r, lookup_record ecu k m = Some r -> first_seen r < now) :
  exists k0 r0, lookup_record ecu k0 m = Some r0 /\
    (forall k r, lookup_record ecu k m = Some r -> first_seen r0 <= first_seen r) /\
    forall e k, lookup_record e k (add_dtc iterate now d st ecu timestamp m) =
      if decide (e = ecu /\ k = DTC_to_value d)
      then Some (set_last_updated timestamp (set_status st (fresh_record now ecu d)))
      else if decide (e = ecu /\ k = k0) then None else lookup_record e k m.
Proof.
  rewrite lookup_data_of in Hnew. set (key := DTC_to_value d) in *. set (fresh := fresh_record now ecu d).
  destruct (limit_ecu_full iterate Hiterate _ _ key fresh Hnew Hfull Hmax) as (k0 & r0 & H0 & Hmin & Hlim).
  { intros k r Hr. apply (Hclock k). rewrite lookup_data_of. exact Hr. }
  exists k0, r0. split; [rewrite lookup_data_of; exact H0|]. split; [intros k r; rewrite lookup_data_of; apply Hmin|].
  assert (Hne : k0 <> key) by congruence.
  set (m2 := put_data ecu (set_dtcs (delete k0 (<[key := fresh]> (dtcs (data_of ecu m)))) (data_of ecu m)) m).
  assert (Hg : get_or_create_dtc iterate now ecu d m = (fresh, true, put_record ecu key fresh m2)).
  { unfold get_or_create_dtc. rewrite data_of_put, decide_True by reflexivity. fold key. rewrite Hnew.
    change (set_occurrence_count 1 _) with fresh.
    assert (He : enforce_limits iterate ecu (put_record ecu key fresh (put_data ecu (data_of ecu m) m)) = m2).
    { unfold enforce_limits, put_record. cbv zeta. rewrite !data_of_put, !decide_True by reflexivity.
      cbn [dtcs set_dtcs]. change (options (put_data _ _ _)) with (options m). rewrite Hlim.
      match goal with |- set_ecu_data _ ?x = _ => assert (Hx : x = m2) end.
      { unfold m2, put_data. cbn. rewrite !insert_insert_eq. reflexivity. }
      rewrite Hx. change (set_dtcs _ (set_dtcs _ _)) with (set_dtcs (delete k0 (<[key := fresh]> (dtcs (data_of ecu m)))) (data_of ecu m)) in *.
      rewrite total_size_sizes by exact Hiterate. rewrite limit_total_room.
      - destruct m2. reflexivity.
      - change (sizes (map_to_list (ecu_data m2))) with (records m2). unfold m2. rewrite records_put_data. cbn.
        rewrite map_size_delete, lookup_insert_ne, H0, map_size_insert_None by congruence. cbn. lia. }
    rewrite He. rewrite <- lookup_data_of. unfold m2 at 1 2. rewrite lookup_put_data, decide_True by reflexivity. cbn.
    rewrite lookup_delete_ne, lookup_insert_eq by congruence. reflexivity. }
  intros e k. unfold add_dtc. rewrite Hg. cbn [negb andb]. cbv zeta. rewrite lookup_emit.
  change (lookup_record e k (set_stats ?s ?x)) with (lookup_record e k x).
  fold key. rewrite put_record_twice, lookup_put_record.
  destruct (decide (e = ecu /\ k = key)) as [|Hn]; [reflexivity|].
  unfold m2. rewrite lookup_put_data. cbn. destruct (decide (e = ecu)) as [->|Hecu].
  - assert (k <> key) by (intros ->; apply Hn; split; reflexivity).
    destruct (decide (ecu = ecu /\ k = k0)) as [[_ ->]|Hk0]; [apply lookup_delete_eq|].
    rewrite lookup_delete_ne, lookup_insert_ne, lookup_data_of by (intuition congruence). reflexivity.
  - rewrite decide_False by intuition. reflexivity.
Qed.

Definition small_options : Options := mkOptions 1 10 true 1 true.
Definition full_manager : DTCManager :=
  put_record 0x10 0x010203 (fresh_record 5 0x10 (mkDTC 1 2 3)) (new_manager small_options).

Lemma dtc_evicts_oldest_witness :
  lookup_record 0x10 0x010203 (add_dtc map_order 9 (mkDTC 4 5 6) DTCStatusMask_default 0x10 9 full_manager) = None.
Proof.
  assert (Hl : forall k r, lookup_record 0x10 k full_manager = Some r -> k = 0x010203 /\ first_seen r = 5).
  { intros k r. unfold full_manager. rewrite lookup_put_record.
    destruct (decide (0x10 = 0x10 /\ k = 0x010203)) as [[_ ->]|]; [|discriminate]. intros [= <-]. split; reflexivity. }
  destruct (dtc_evicts_oldest map_order full_manager 9 0x10 9 (mkDTC 4 5 6) DTCStatusMask_default)
    as (k0 & r0 & H0 & _ & H).
  - intros A m. reflexivity.
  - vm_compute. reflexivity.
  - vm_compute. discriminate.
  - vm_compute. discriminate.
  - vm_compute. reflexivity.
  - intros k r Hr. destruct (Hl k r Hr) as [_ ->]. reflexivity.
  - destruct (Hl k0 r0 H0) as [-> _]. rewrite H. reflexivity.
Defined.

(** ** Queries *)

(** The filters are exact: a query returns, for every order of the hash maps, the
    records of the visible ECUs that match the filter, [count_dtcs] is the
    length of the result, and the severity of the filter plays no part. *)
Theorem dtc_filters_exact (iterate : forall A : Type, gmap Z A -> list (Z * A)) (now : Z -> Z -> Z)
    (f : DTCFilter) (m : DTCManager) (severity : option Z)
    (Hiterate : forall A m, iterate A m ≡ₚ map_to_list m) :
  (forall r, r ∈ get_dtcs iterate now f m <->
     exists ecu k, lookup_record ecu k m = Some r /\
       (filter_ecu_address f = 0 \/ filter_ecu_address f = ecu) /\ matches_filter (now ecu k) r f = true) /\
  count_dtcs iterate now f m = zlen (get_dtcs iterate now f m) /\
  get_dtcs iterate now (mkDTCFilter (filter_ecu_address f) (status_mask f) severity (active_only f)
    (confirmed_only f) (pending_only f) (max_age f) (category_prefix f)) m = get_dtcs iterate now f m.
Proof.
  split_and!.
  - intros r. unfold get_dtcs. rewrite list_elem_of_In, in_flat_map. split.
    + intros ([ecu d] & Hin & Hr). apply list_elem_of_In, elem_of_iterate in Hin; [|exact Hiterate]. cbn [fst] in Hr.
      destruct (ecu_visible f ecu) eqn:Ev; [|destruct Hr].
      apply list_elem_of_In, list_elem_of_fmap in Hr as ([k r'] & -> & Hr).
      apply list_elem_of_filter in Hr as [Hmatch Hr]. apply elem_of_iterate in Hr; [|exact Hiterate]. cbn in *.
      exists ecu, k. unfold lookup_record. rewrite Hin. split_and!; [exact Hr | | exact Hmatch].
      unfold ecu_visible in Ev. bool_to_prop. destruct Ev; bool_to_prop; auto.
    + intros (ecu & k & Hl & Hv & Hmatch). unfold lookup_record in Hl.
      destruct (ecu_data m !! ecu) as [d|] eqn:Ed; [cbn in Hl | discriminate Hl].
      exists (ecu, d). split; [apply list_elem_of_In, elem_of_iterate; assumption|]. cbn [fst].
      assert (Ev : ecu_visible f ecu = true).
      { unfold ecu_visible. destruct Hv as [->| ->]; [reflexivity | rewrite Z.eqb_refl; apply orb_true_r]. }
      rewrite Ev. apply list_elem_of_In, list_elem_of_fmap. exists (k, r). split; [reflexivity|].
      apply list_elem_of_filter. split; [exact Hmatch | apply elem_of_iterate; assumption].
  - unfold count_dtcs, get_dtcs. generalize (iterate ECUData (ecu_data m)). intros l.
    assert (H : forall n, foldl (fun count ed => if ecu_visible f ed.1 then count + zlen (matching iterate now f ed) else count) n l =
                n + zlen (flat_map (fun ed => if ecu_visible f ed.1 then matching iterate now f ed else []) l)).
    { induction l as [|ed l IH]; intros n; cbn [foldl flat_map length]; [lia|].
      rewrite IH, length_app. destruct (ecu_visible f ed.1); cbn [length]; lia. }
    rewrite H. lia.
  - reflexivity.
Qed.

Lemma dtc_filters_exact_witness :
  count_dtcs map_order (fun _ _ => 9) (filter_for_ecu 0x10) full_manager =
  zlen (get_dtcs map_order (fun _ _ => 9) (filter_for_ecu 0x10) full_manager).
Proof.
  apply (dtc_filters_exact map_order (fun _ _ => 9) (filter_for_ecu 0x10) full_manager None). intros A m. reflexivity.
Defined.

(** ** The history of cleared codes *)

Lemma push_cleared_length max hist r : (length (push_cleared max hist r) <= max)%nat.
Proof. unfold push_cleared. rewrite length_drop, length_app. cbn. lia. Qed.

(** Clearing one code appends to the history whatever its limit, and the callbacks
    are told about a record whose snapshots and extended data are gone. *)
Lemma clear_one_history iterate group ecu timestamp m r :
  keep_cleared_history (options m) = true -> group <> 0xFFFFFF -> lookup_record ecu (group mod 2 ^ 24) m = Some r ->
  let m' := process_clear_dtc_response iterate group ecu true timestamp m in
  cleared_history (data_of ecu m') = cleared_history (data_of ecu m) ++ [r] /\
  calls m' = calls m ++ map (fun callback => mkCall callback DTCCleared ecu (Some (moved_from r))) (callbacks m).
Proof.
  intros Hk Hg Hr. cbv zeta. unfold process_clear_dtc_response. cbn [negb].
  rewrite (proj2 (Z.eqb_neq _ _) Hg). cbv zeta. rewrite dtc_key_mod. rewrite lookup_data_of in Hr.
  change (dtcs (set_last_clear _ _)) with (dtcs (data_of ecu m)). rewrite Hr.
  change (options (set_stats _ _)) with (options m). rewrite Hk. cbn.
  split; [|reflexivity]. unfold data_of at 1. cbn. rewrite lookup_insert_eq. reflexivity.
Qed.
