(* ===== verification/DiagnosticSession.v ===== *)
(** * Diagnostic session manager (src/protocols/diagnostic/diagnostic_session.cpp)

    The manager takes DoIP packets or UDS messages, decodes them, hands them to the
    correlator of requests and responses, and keeps the session of each ECU.

    - The constructor registers a function of the manager as the first callback of its
      correlator; it is [MANAGER_CALLBACK] there, and [on_correlation] is what it does.
      [correlator()] gives everybody access to the correlator: [correlator_step].
    - [std::chrono::steady_clock::now()] is a [now] argument, a function from the number
      of the reading where an operation reads it several times; [check_timeouts] reads
      it once for the correlator and once for each ECU.
    - The order of a [std::unordered_map] is a parameter, [iterate].
    - A callback is a number; its calls, with the session and the pair that it can see
      then, are recorded in [calls].
    - [update_session_state] also tests for the responses of ReadDTCInformation and
      ClearDiagnosticInformation.  The decoder never builds them and they are not
      constructors of [Uds.UdsServiceMessage], so those two tests, which would emit
      [DTCsRead] and [DTCsCleared], have no counterpart here. *)

From Stdlib Require Import ZArith Lia.
From Stdlib Require Import Strings.Byte.
From stdpp Require Import base numbers list gmap strings.
From S2P Require Import Prelude ByteOrder Decoder UdsTables Diagnostic.
From S2P Require DoIP Uds Correlator.

#[local] Existing Instances DoIP.DoIPDecoder_contract.

(** ** Events and state *)

Inductive DiagnosticEvent :=
| RoutingActivated | RoutingDeactivated | ConnectionLost
| SessionStarted | SessionChanged | SessionTimeout | SessionEnded
| SecurityUnlocked | SecurityLocked | SecurityLockout
| RequestSent | ResponseReceived | ResponsePending | ResponseTimeout | NegativeResponse
| DTCsRead | DTCsCleared | DataIdentifierRead
| FlashStarted | FlashProgress | FlashCompleted | FlashFailed.
#[export] Instance DiagnosticEvent_eq_dec : EqDecision DiagnosticEvent.
Proof. solve_decision. Defined.

Definition diagnostic_event_string (event : DiagnosticEvent) : string :=
  match event with
  | RoutingActivated => "RoutingActivated"
  | RoutingDeactivated => "RoutingDeactivated"
  | ConnectionLost => "ConnectionLost"
  | SessionStarted => "SessionStarted"
  | SessionChanged => "SessionChanged"
  | SessionTimeout => "SessionTimeout"
  | SessionEnded => "SessionEnded"
  | SecurityUnlocked => "SecurityUnlocked"
  | SecurityLocked => "SecurityLocked"
  | SecurityLockout => "SecurityLockout"
  | RequestSent => "RequestSent"
  | ResponseReceived => "ResponseReceived"
  | ResponsePending => "ResponsePending"
  | ResponseTimeout => "ResponseTimeout"
  | NegativeResponse => "NegativeResponse"
  | DTCsRead => "DTCsRead"
  | DTCsCleared => "DTCsCleared"
  | DataIdentifierRead => "DataIdentifierRead"
  | FlashStarted => "FlashStarted"
  | FlashProgress => "FlashProgress"
  | FlashCompleted => "FlashCompleted"
  | FlashFailed => "FlashFailed"
  end.

Record DiagnosticSessionState := mkState {
  routing_active : bool;
  tester_address : Z;
  gateway_address : Z;
  session_type : Z;
  session_active : bool;
  session_start : Z;
  last_activity : Z;
  security_level : Z;
  timing : DiagnosticTiming;
  requests_sent : Z;
  responses_received : Z;
  negative_responses : Z;
  timeouts : Z
}.
Definition new_state : DiagnosticSessionState :=
  mkState false 0 0 DefaultSession false 0 0 0 timing_defaults 0 0 0 0.

Definition is_programming (s : DiagnosticSessionState) : bool := session_type s =? ProgrammingSession.
Definition is_extended (s : DiagnosticSessionState) : bool := session_type s =? ExtendedDiagnosticSession.
Definition is_security_unlocked (level : Z) (s : DiagnosticSessionState) : bool := level <=? security_level s.
Definition time_since_activity (now : Z) (s : DiagnosticSessionState) : Z :=
  Z.quot (now - last_activity s) Correlator.MILLISECOND.
Definition is_potentially_timed_out (now : Z) (s : DiagnosticSessionState) : bool :=
  session_active s && (s3_server (timing s) <? time_since_activity now s).

(** Assignments to groups of fields. *)
Definition set_routing (active : bool) (tester gateway : Z) (s : DiagnosticSessionState) : DiagnosticSessionState :=
  mkState active tester gateway (session_type s) (session_active s) (session_start s) (last_activity s)
    (security_level s) (timing s) (requests_sent s) (responses_received s) (negative_responses s) (timeouts s).
Definition set_session (type : Z) (active : bool) (s : DiagnosticSessionState) : DiagnosticSessionState :=
  mkState (routing_active s) (tester_address s) (gateway_address s) type active (session_start s) (last_activity s)
    (security_level s) (timing s) (requests_sent s) (responses_received s) (negative_responses s) (timeouts s).
Definition set_session_start (t : Z) (s : DiagnosticSessionState) : DiagnosticSessionState :=
  mkState (routing_active s) (tester_address s) (gateway_address s) (session_type s) (session_active s) t
    (last_activity s) (security_level s) (timing s) (requests_sent s) (responses_received s)
    (negative_responses s) (timeouts s).
Definition set_last_activity (t : Z) (s : DiagnosticSessionState) : DiagnosticSessionState :=
  mkState (routing_active s) (tester_address s) (gateway_address s) (session_type s) (session_active s)
    (session_start s) t (security_level s) (timing s) (requests_sent s) (responses_received s)
    (negative_responses s) (timeouts s).
Definition set_security_level (level : Z) (s : DiagnosticSessionState) : DiagnosticSessionState :=
  mkState (routing_active s) (tester_address s) (gateway_address s) (session_type s) (session_active s)
    (session_start s) (last_activity s) level (timing s) (requests_sent s) (responses_received s)
    (negative_responses s) (timeouts s).
Definition set_state_timing (t : DiagnosticTiming) (s : DiagnosticSessionState) : DiagnosticSessionState :=
  mkState (routing_active s) (tester_address s) (gateway_address s) (session_type s) (session_active s)
    (session_start s) (last_activity s) (security_level s) t (requests_sent s) (responses_received s)
    (negative_responses s) (timeouts s).
(** Increments of the 64-bit counters. *)
Definition count_message (is_request negative : bool) (s : DiagnosticSessionState) : DiagnosticSessionState :=
  mkState (routing_active s) (tester_address s) (gateway_address s) (session_type s) (session_active s)
    (session_start s) (last_activity s) (security_level s) (timing s)
    (if is_request then uint 64 (requests_sent s + 1) else requests_sent s)
    (if is_request then responses_received s else uint 64 (responses_received s + 1))
    (if negb is_request && negative then uint 64 (negative_responses s + 1) else negative_responses s)
    (timeouts s).
Definition count_timeout (s : DiagnosticSessionState) : DiagnosticSessionState :=
  mkState (routing_active s) (tester_address s) (gateway_address s) (session_type s) (session_active s)
    (session_start s) (last_activity s) (security_level s) (timing s) (requests_sent s) (responses_received s)
    (negative_responses s) (uint 64 (timeouts s + 1)).

Record ECUInfo := mkECUInfo {
  logical_address : Z;
  vin : option (list byte);
  hardware_id : option string;
  software_id : option string;
  supplier_id : option string;
  ecu_name : option string;
  serial_number : list byte
}.
Definition new_info : ECUInfo := mkECUInfo 0 None None None None None [].
Definition has_identification (i : ECUInfo) : bool :=
  bool_decide (is_Some (hardware_id i)) || bool_decide (is_Some (software_id i)).
Definition set_logical_address (a : Z) (i : ECUInfo) : ECUInfo :=
  mkECUInfo a (vin i) (hardware_id i) (software_id i) (supplier_id i) (ecu_name i) (serial_number i).
Definition set_vin (v : list byte) (i : ECUInfo) : ECUInfo :=
  mkECUInfo (logical_address i) (Some v) (hardware_id i) (software_id i) (supplier_id i) (ecu_name i)
    (serial_number i).

(** ** The manager *)

Record Options := mkOptions {
  enable_correlation : bool;
  enable_timeout_detection : bool;
  max_ecus : Z;
  default_timing : DiagnosticTiming;
  correlator_options : Correlator.Options
}.
Definition Options_default : Options := mkOptions true true 256 timing_defaults Correlator.Options_default.

Record Statistics := mkStatistics {
  doip_packets_processed : Z;
  diagnostic_messages : Z;
  routing_activations : Z;
  vehicle_identifications : Z;
  uds_requests : Z;
  uds_responses : Z;
  decode_errors : Z
}.
Definition Statistics_zero : Statistics := mkStatistics 0 0 0 0 0 0 0.

Definition count_packet (s : Statistics) : Statistics :=
  mkStatistics (uint 64 (doip_packets_processed s + 1)) (diagnostic_messages s) (routing_activations s)
    (vehicle_identifications s) (uds_requests s) (uds_responses s) (decode_errors s).
Definition count_diagnostic (s : Statistics) : Statistics :=
  mkStatistics (doip_packets_processed s) (uint 64 (diagnostic_messages s + 1)) (routing_activations s)
    (vehicle_identifications s) (uds_requests s) (uds_responses s) (decode_errors s).
Definition count_activation (s : Statistics) : Statistics :=
  mkStatistics (doip_packets_processed s) (diagnostic_messages s) (uint 64 (routing_activations s + 1))
    (vehicle_identifications s) (uds_requests s) (uds_responses s) (decode_errors s).
Definition count_identification (s : Statistics) : Statistics :=
  mkStatistics (doip_packets_processed s) (diagnostic_messages s) (routing_activations s)
    (uint 64 (vehicle_identifications s + 1)) (uds_requests s) (uds_responses s) (decode_errors s).
Definition count_uds (is_request : bool) (s : Statistics) : Statistics :=
  mkStatistics (doip_packets_processed s) (diagnostic_messages s) (routing_activations s) (vehicle_identifications s)
    (if is_request then uint 64 (uds_requests s + 1) else uds_requests s)
    (if is_request then uds_responses s else uint 64 (uds_responses s + 1)) (decode_errors s).
Definition count_error (s : Statistics) : Statistics :=
  mkStatistics (doip_packets_processed s) (diagnostic_messages s) (routing_activations s)
    (vehicle_identifications s) (uds_requests s) (uds_responses s) (uint 64 (decode_errors s + 1)).

Record Call := mkCall {
  call_callback : nat;
  call_event : DiagnosticEvent;
  call_state : DiagnosticSessionState;
  call_pair : option Correlator.RequestResponsePair
}.

Record DiagnosticSessionManager := mkManager {
  options : Options;
  stats : Statistics;
  correlator : Correlator.RequestCorrelator;
  sessions : gmap Z DiagnosticSessionState;
  ecu_info : gmap Z ECUInfo;
  callbacks : list nat;
  calls : list Call
}.

Definition MANAGER_CALLBACK : nat := 0.

Definition new_manager (opts : Options) : DiagnosticSessionManager :=
  mkManager opts Statistics_zero
    (Correlator.on_event MANAGER_CALLBACK (Correlator.new_correlator (correlator_options opts))) ∅ ∅ [] [].

Definition set_stats (x : Statistics) (m : DiagnosticSessionManager) : DiagnosticSessionManager :=
  mkManager (options m) x (correlator m) (sessions m) (ecu_info m) (callbacks m) (calls m).
Definition set_correlator (x : Correlator.RequestCorrelator) (m : DiagnosticSessionManager) : DiagnosticSessionManager :=
  mkManager (options m) (stats m) x (sessions m) (ecu_info m) (callbacks m) (calls m).
Definition set_sessions (x : gmap Z DiagnosticSessionState) (m : DiagnosticSessionManager) : DiagnosticSessionManager :=
  mkManager (options m) (stats m) (correlator m) x (ecu_info m) (callbacks m) (calls m).
Definition set_ecu_info (x : gmap Z ECUInfo) (m : DiagnosticSessionManager) : DiagnosticSessionManager :=
  mkManager (options m) (stats m) (correlator m) (sessions m) x (callbacks m) (calls m).
Definition set_callbacks (x : list nat) (m : DiagnosticSessionManager) : DiagnosticSessionManager :=
  mkManager (options m) (stats m) (correlator m) (sessions m) (ecu_info m) x (calls m).

Definition emit_event (event : DiagnosticEvent) (state : DiagnosticSessionState)
    (pair : option Correlator.RequestResponsePair) (m : DiagnosticSessionManager) : DiagnosticSessionManager :=
  mkManager (options m) (stats m) (correlator m) (sessions m) (ecu_info m) (callbacks m)
    (calls m ++ map (fun callback => mkCall callback event state pair) (callbacks m)).

(** Assigns to the session of the address. *)
Definition put (address : Z) (state : DiagnosticSessionState) (m : DiagnosticSessionManager) : DiagnosticSessionManager :=
  set_sessions (<[address := state]> (sessions m)) m.

Definition get_or_create_state (now : Z) (address : Z) (m : DiagnosticSessionManager) :
    DiagnosticSessionState * DiagnosticSessionManager :=
  match sessions m !! address with
  | Some state => (state, m)
  | None =>
      let state := set_last_activity now (set_state_timing (default_timing (options m)) new_state) in
      (state, put address state m)
  end.

(** ** Events of the correlator *)

(** The [switch] of the callback that the constructor registers. *)
Definition forwarded_event (event : Correlator.CorrelationEvent) : option DiagnosticEvent :=
  match event with
  | Correlator.RequestTimeout => Some ResponseTimeout
  | Correlator.ResponsePending => Some ResponsePending
  | Correlator.NegativeResponse => Some NegativeResponse
  | _ => None
  end.

Definition on_correlation (c : Correlator.Call) (m : DiagnosticSessionManager) : DiagnosticSessionManager :=
  match forwarded_event (Correlator.call_event c), Correlator.call_pair c with
  | Some event, Some p =>
      match sessions m !! target_address (Correlator.rq_transport (Correlator.request p)) with
      | Some state => emit_event event state (Some p) m
      | None => m
      end
  | _, _ => m
  end.

Fixpoint run_callbacks (l : list Correlator.Call) (m : DiagnosticSessionManager) : DiagnosticSessionManager :=
  match l with
  | [] => m
  | c :: l' =>
      run_callbacks l' (if Nat.eqb (Correlator.call_callback c) MANAGER_CALLBACK then on_correlation c m else m)
  end.

(** The correlator becomes [c]; the calls that it made on the way reach the manager. *)
Definition correlated (c : Correlator.RequestCorrelator) (m : DiagnosticSessionManager) : DiagnosticSessionManager :=
  run_callbacks (drop (length (Correlator.calls (correlator m))) (Correlator.calls c)) (set_correlator c m).

(** ** Messages *)

(** What a response does to the session of its ECU, and the event it emits.  A message
    passes at most one of the tests for its type, and each emits its event last. *)
Definition response_effect (now : Z) (h : Uds.UdsHeader) (message : Uds.UdsServiceMessage)
    (s : DiagnosticSessionState) : DiagnosticSessionState * option DiagnosticEvent :=
  let positive := negb (Correlator.is_negative_header h) in
  match message with
  | Uds.DiagnosticSessionControlResponse type p2 p2_star =>
      let old_session := session_type s in
      let s := set_session_start now (set_session type true s) in
      let s := set_state_timing (mkDiagnosticTiming p2 (p2_star * 10) (s3_server (timing s))
                                   (p3_client (timing s)) (p4_server (timing s))) s in
      (s, if negb (old_session =? session_type s) then Some SessionChanged
          else if negb (session_active s) then Some SessionStarted else None)
  | Uds.SecurityAccessResponse access_type _ =>
      if positive then
        let level := uint 8 ((access_type + 1) / 2) in
        if access_type mod 2 =? 1 then (s, None)
        else (set_security_level (Z.max (security_level s) level) s, Some SecurityUnlocked)
      else (s, None)
  | Uds.ECUResetResponse _ _ =>
      if positive then (set_security_level 0 (set_session DefaultSession false s), Some SessionEnded) else (s, None)
  | Uds.ReadDataByIdentifierResponse _ => (s, Some DataIdentifierRead)
  | Uds.RequestDownloadResponse _ _ => (s, if positive then Some FlashStarted else None)
  | Uds.TransferDataResponse _ _ => (s, if positive then Some FlashProgress else None)
  | Uds.RequestTransferExitResponse _ => (s, Some (if positive then FlashCompleted else FlashFailed))
  | _ => (s, None)
  end.

Definition update_session_state (now : nat -> Z) (ecu_address : Z) (h : Uds.UdsHeader)
    (message : Uds.UdsServiceMessage) (is_request : bool) (m : DiagnosticSessionManager) : DiagnosticSessionManager :=
  let '(state, m) := get_or_create_state (now 0%nat) ecu_address m in
  let state := count_message is_request (Correlator.is_negative_header h) (set_last_activity (now 1%nat) state) in
  if is_request then put ecu_address state m
  else
    let '(state, event) := response_effect (now 2%nat) h message state in
    let m := put ecu_address state m in
    match event with Some e => emit_event e state None m | None => m end.

Definition update_ecu_info (address : Z) (m : DiagnosticSessionManager) : DiagnosticSessionManager :=
  set_ecu_info (<[address := set_logical_address address (default new_info (ecu_info m !! address))]> (ecu_info m)) m.

Definition correlate (h : Uds.UdsHeader) (message : Uds.UdsServiceMessage) (transport : TransportInfo)
    (is_request : bool) (m : DiagnosticSessionManager) : res Empty_set DiagnosticSessionManager :=
  if enable_correlation (options m) then
    if is_request then
      c ← Correlator.record_request h message transport (correlator m); Done (correlated c m)
    else Done (correlated (Correlator.process_response h message transport (correlator m)).2 m)
  else Done m.

Definition emit_message (h : Uds.UdsHeader) (is_request : bool) (state : DiagnosticSessionState)
    (m : DiagnosticSessionManager) : DiagnosticSessionManager :=
  if is_request then emit_event RequestSent state None m
  else
    let m := emit_event ResponseReceived state None m in
    if Correlator.is_negative_header h then emit_event NegativeResponse state None m else m.

Definition handle_uds_message (now : nat -> Z) (h : Uds.UdsHeader) (message : Uds.UdsServiceMessage)
    (source target : Z) (is_request : bool) (timestamp : Z) (m : DiagnosticSessionManager) :
    res Empty_set DiagnosticSessionManager :=
  let transport := mkTransportInfo TransportDoIP source target timestamp None in
  m ← correlate h message transport is_request (set_stats (count_uds is_request (stats m)) m);
  let ecu_address := if is_request then target else source in
  let m := update_session_state now ecu_address h message is_request m in
  let m := update_ecu_info ecu_address m in
  let '(state, m) := get_or_create_state (now 3%nat) ecu_address m in
  Done (emit_message h is_request state m).

Definition process_uds_message (now : nat -> Z) (uds_data : list byte) (source target : Z) (is_request : bool)
    (timestamp : Z) (m : DiagnosticSessionManager) : res Empty_set (bool * DiagnosticSessionManager) :=
  match Uds.decode uds_data with
  | Undef => Undef
  | Fail _ => Done (false, set_stats (count_error (stats m)) m)
  | Done r =>
      m ← handle_uds_message now (Uds.header r) (Uds.message r) source target is_request timestamp m;
      Done (true, m)
  end.

(** ** DoIP packets *)

Definition process_diagnostic_message (now : nat -> Z) (msg : DoIP.DiagnosticMessagePayload) (timestamp : Z)
    (m : DiagnosticSessionManager) : res Empty_set DiagnosticSessionManager :=
  let m := set_stats (count_diagnostic (stats m)) m in
  match Uds.decode (DoIP.dm_user_data msg) with
  | Undef => Undef
  | Fail _ => Done (set_stats (count_error (stats m)) m)
  | Done r =>
      handle_uds_message now (Uds.header r) (Uds.message r) (DoIP.dm_source_address msg) (DoIP.dm_target_address msg)
        (Uds.is_request (DoIP.dm_user_data msg)) timestamp m
  end.

Definition SuccessfullyActivated : Z := 0x10.

Definition process_routing_activation (now : Z) (resp : option DoIP.RoutingActivationResponse)
    (m : DiagnosticSessionManager) : DiagnosticSessionManager :=
  match resp with
  | None => m
  | Some r =>
      let '(state, m) := get_or_create_state now (DoIP.rs_entity_address r) m in
      let state := set_routing (DoIP.rs_response_code r =? SuccessfullyActivated) (DoIP.rs_logical_address r)
                     (DoIP.rs_entity_address r) state in
      let m := put (DoIP.rs_entity_address r) state m in
      if routing_active state then emit_event RoutingActivated state None m else m
  end.

Definition process_vehicle_identification (resp : DoIP.VehicleIdentificationResponse)
    (m : DiagnosticSessionManager) : DiagnosticSessionManager :=
  let a := DoIP.vi_logical_address resp in
  let info := set_logical_address a (default new_info (ecu_info m !! a)) in
  set_ecu_info (<[a := set_vin (DoIP.vi_vin resp) info]> (ecu_info m)) m.

(** The parsers return [std::optional]: they have no error of their own. *)
Definition parsed {A} (r : decoded (option A)) : res Empty_set (option A) :=
  match r with
  | Done o => Done o
  | Fail _ | Undef => Undef
  end.

Definition process_doip_packet (now : nat -> Z) (h : DoIP.DoIPHeader) (payload : list byte) (timestamp : Z)
    (m : DiagnosticSessionManager) : res Empty_set (bool * DiagnosticSessionManager) :=
  let m := set_stats (count_packet (stats m)) m in
  let type := DoIP.payload_type h in
  if type =? DoIP.DiagnosticMessage then
    msg ← parsed (DoIP.parse_diagnostic_message payload);
    match msg with
    | Some msg => m ← process_diagnostic_message now msg timestamp m; Done (true, m)
    | None => Done (false, m)
    end
  else if type =? DoIP.RoutingActivationRequest_t then
    req ← parsed (DoIP.parse_routing_activation_request payload);
    match req with
    | Some _ =>
        let m := process_routing_activation (now 0%nat) None m in
        Done (true, set_stats (count_activation (stats m)) m)
    | None => Done (false, m)
    end
  else if type =? DoIP.RoutingActivationResponse_t then
    resp ← parsed (DoIP.parse_routing_activation_response payload);
    match resp with
    | Some resp =>
        let m := process_routing_activation (now 0%nat) (Some resp) m in
        Done (true, set_stats (count_activation (stats m)) m)
    | None => Done (false, m)
    end
  else if type =? DoIP.VehicleAnnouncementOrIdentificationResponse then
    resp ← parsed (DoIP.parse_vehicle_identification_response payload);
    match resp with
    | Some resp =>
        let m := process_vehicle_identification resp m in
        Done (true, set_stats (count_identification (stats m)) m)
    | None => Done (false, m)
    end
  else Done (false, m).

Definition process_doip_raw (now : nat -> Z) (d : list byte) (timestamp : Z) (m : DiagnosticSessionManager) :
    res Empty_set (bool * DiagnosticSessionManager) :=
  match DoIP.decode_impl DoIP.Options_default (context_of d) with
  | Undef => Undef
  | Fail _ => Done (false, set_stats (count_error (stats m)) m)
  | Done (h, _) =>
      if zlen d <? DoIP.HEADER_SIZE + DoIP.payload_length h
      then Done (false, set_stats (count_error (stats m)) m)
      else
        payload ← subspan_count d DoIP.HEADER_SIZE (DoIP.payload_length h);
        process_doip_packet now h payload timestamp m
  end.

(** ** Queries and control *)

Section iteration.
Context (iterate : forall A : Type, gmap Z A -> list (Z * A)).

Definition get_session_state (address : Z) (m : DiagnosticSessionManager) : option DiagnosticSessionState :=
  sessions m !! address.
Definition get_tracked_ecus (m : DiagnosticSessionManager) : list Z := map fst (iterate _ (sessions m)).
Definition is_tracking (address : Z) (m : DiagnosticSessionManager) : bool :=
  bool_decide (is_Some (sessions m !! address)).

(** The loop of [get_completed_pairs], which leaves when it has enough. *)
Fixpoint collect_pairs (address : Z) (max_count : nat) (result l : list Correlator.RequestResponsePair) :
    list Correlator.RequestResponsePair :=
  match l with
  | [] => result
  | p :: l' =>
      if target_address (Correlator.rq_transport (Correlator.request p)) =? address then
        let result := result ++ [p] in
        if (max_count <=? length result)%nat then result else collect_pairs address max_count result l'
      else collect_pairs address max_count result l'
  end.
Definition get_completed_pairs (address : Z) (max_count : nat) (m : DiagnosticSessionManager) :
    list Correlator.RequestResponsePair :=
  collect_pairs address max_count [] (Correlator.get_completed (max_count * 2) (correlator m)).

Definition get_ecu_info (address : Z) (m : DiagnosticSessionManager) : option ECUInfo := ecu_info m !! address.
Definition get_all_ecu_info (m : DiagnosticSessionManager) : list ECUInfo := map snd (iterate _ (ecu_info m)).

Definition set_timing (now : Z) (address : Z) (t : DiagnosticTiming) (m : DiagnosticSessionManager) :
    DiagnosticSessionManager :=
  let '(state, m) := get_or_create_state now address m in put address (set_state_timing t state) m.
Definition get_timing (address : Z) (m : DiagnosticSessionManager) : DiagnosticTiming :=
  match sessions m !! address with
  | Some state => timing state
  | None => default_timing (options m)
  end.

(** One turn of the loop of [check_timeouts]. *)
Definition check_session (now : Z) (address : Z) (m : DiagnosticSessionManager) : DiagnosticSessionManager :=
  match sessions m !! address with
  | None => m
  | Some state =>
      if is_potentially_timed_out now state then
        let state := count_timeout (set_security_level 0 (set_session DefaultSession false state)) in
        emit_event SessionTimeout state None (put address state m)
      else m
  end.
Fixpoint check_sessions (now : Z -> Z) (addresses : list Z) (m : DiagnosticSessionManager) :
    DiagnosticSessionManager :=
  match addresses with
  | [] => m
  | a :: addresses' => check_sessions now addresses' (check_session (now a) a m)
  end.
Definition check_timeouts (now : Z) (session_now : Z -> Z) (m : DiagnosticSessionManager) :
    Z * DiagnosticSessionManager :=
  if enable_timeout_detection (options m) then
    let '(count, c) := Correlator.check_timeouts now (correlator m) in
    let m := correlated c m in
    (count, check_sessions session_now (map fst (iterate _ (sessions m))) m)
  else (0, m).

Definition on_event (callback : nat) (m : DiagnosticSessionManager) : DiagnosticSessionManager :=
  set_callbacks (callbacks m ++ [callback]) m.
Definition clear_callbacks (m : DiagnosticSessionManager) : DiagnosticSessionManager := set_callbacks [] m.
Definition reset_ecu (address : Z) (m : DiagnosticSessionManager) : DiagnosticSessionManager :=
  set_ecu_info (delete address (ecu_info m)) (set_sessions (delete address (sessions m)) m).
Definition reset (m : DiagnosticSessionManager) : DiagnosticSessionManager :=
  set_correlator (Correlator.reset (correlator m)) (set_ecu_info ∅ (set_sessions ∅ m)).
Definition reset_statistics (m : DiagnosticSessionManager) : DiagnosticSessionManager := set_stats Statistics_zero m.

(** An operation through [correlator()].  Callbacks that others register there are not
    the manager's. *)
Definition correlator_step (op : Correlator.CorrelatorOp) (m : DiagnosticSessionManager) :
    res Empty_set DiagnosticSessionManager :=
  let op := match op with Correlator.OnEvent callback => Correlator.OnEvent (S callback) | _ => op end in
  c ← Correlator.step op (correlator m); Done (correlated c m).

(** ** Histories *)

Inductive SessionOp :=
| ProcessDoipPacket (now : nat -> Z) (h : DoIP.DoIPHeader) (payload : list byte) (timestamp : Z)
| ProcessDoipRaw (now : nat -> Z) (d : list byte) (timestamp : Z)
| ProcessUdsMessage (now : nat -> Z) (uds_data : list byte) (source target : Z) (is_request : bool) (timestamp : Z)
| SetTiming (now : Z) (address : Z) (t : DiagnosticTiming)
| CheckTimeouts (now : Z) (session_now : Z -> Z)
| OnEvent (callback : nat)
| ClearCallbacks
| ResetEcu (address : Z)
| Reset
| ResetStatistics
| UseCorrelator (op : Correlator.CorrelatorOp).

Definition step (op : SessionOp) (m : DiagnosticSessionManager) : res Empty_set DiagnosticSessionManager :=
  match op with
  | ProcessDoipPacket now h payload t => r ← process_doip_packet now h payload t m; Done r.2
  | ProcessDoipRaw now d t => r ← process_doip_raw now d t m; Done r.2
  | ProcessUdsMessage now d s t q ts => r ← process_uds_message now d s t q ts m; Done r.2
  | SetTiming now a t => Done (set_timing now a t m)
  | CheckTimeouts now session_now => Done (check_timeouts now session_now m).2
  | OnEvent callback => Done (on_event callback m)
  | ClearCallbacks => Done (clear_callbacks m)
  | ResetEcu a => Done (reset_ecu a m)
  | Reset => Done (reset m)
  | ResetStatistics => Done (reset_statistics m)
  | UseCorrelator op => correlator_step op m
  end.

Fixpoint run (ops : list SessionOp) (m : DiagnosticSessionManager) : res Empty_set DiagnosticSessionManager :=
  match ops with
  | [] => Done m
  | op :: ops' => m' ← step op m; run ops' m'
  end.
End iteration.

(** ** The correlator inside the manager *)

(** The calls that an operation of the correlator makes: only a final negative response
    reaches the manager, since timeouts and pending responses come without a pair. *)
Definition quiet_or_negative (c : Correlator.Call) : Prop :=
  match forwarded_event (Correlator.call_event c), Correlator.call_pair c with
  | Some e, Some p => e = NegativeResponse /\ Correlator.is_negative p = true
  | _, _ => True
  end.

Definition extends (c c' : Correlator.RequestCorrelator) : Prop :=
  exists l, Correlator.calls c' = Correlator.calls c ++ l /\ Forall quiet_or_negative l.

Lemma adds_calls_refl c c' : Correlator.calls c' = Correlator.calls c -> extends c c'.
Proof. intros H. exists []. rewrite app_nil_r. auto. Qed.

Lemma adds_calls_trans a b c : extends a b -> extends b c -> extends a c.
Proof.
  intros (l & Hb & Hl) (k & Hc & Hk). exists (l ++ k). rewrite Hc, Hb, app_assoc. split; [reflexivity | apply Forall_app; auto].
Qed.

(** What [emit_event] adds, after steps that make no call. *)
Lemma adds_calls_emit c e p pd c0 :
  extends c c0 ->
  match forwarded_event e, p with Some x, Some q => x = NegativeResponse /\ Correlator.is_negative q = true | _, _ => True end ->
  extends c (Correlator.emit_event e p pd c0).
Proof.
  intros Hc H. eapply adds_calls_trans; [exact Hc|]. eexists. split; [reflexivity|].
  apply Forall_map, Forall_forall. intros cb _. exact H.
Qed.

Lemma adds_calls_same c c0 c' : extends c c0 -> Correlator.calls c' = Correlator.calls c0 -> extends c c'.
Proof. intros Hc H. eapply adds_calls_trans; [exact Hc | apply adds_calls_refl, H]. Qed.

Lemma adds_calls_record h msg t c c' : Correlator.record_request h msg t c = Done c' -> extends c c'.
Proof.
  unfold Correlator.record_request. cbv zeta. intros H. apply bind_inv in H as (l & _ & H). apply Done_inj in H as <-.
  apply adds_calls_emit; [apply adds_calls_refl; reflexivity | exact I].
Qed.

Lemma adds_calls_response h msg t c : extends c (Correlator.process_response h msg t c).2.
Proof.
  unfold Correlator.process_response. cbv zeta.
  destruct (Correlator.find_pending_for_response _ _) as [[[before p] after]|];
    [|apply adds_calls_emit; [apply adds_calls_refl; reflexivity | exact I]].
  destruct (Correlator.is_response_pending h); cbn [snd].
  - apply adds_calls_emit; [apply adds_calls_refl; reflexivity | exact I].
  - match goal with |- extends _ (Correlator.set_completed _ (Correlator.set_pending _ ?c0)) =>
      apply (adds_calls_same _ c0); [|reflexivity] end.
    apply adds_calls_emit; [apply adds_calls_emit; [apply adds_calls_refl; reflexivity|] | exact I].
    destruct (Correlator.is_negative_header h) eqn:E; cbn; auto.
Qed.

Lemma adds_calls_timeouts now c : extends c (Correlator.check_timeouts now c).2.
Proof.
  unfold Correlator.check_timeouts. cbv zeta. cbn [snd]. generalize (Correlator.timed_out now c). intros l.
  match goal with |- extends _ (Correlator.set_stats _ (Correlator.set_pending _ ?c0)) =>
    apply (adds_calls_same _ c0); [|reflexivity] end.
  assert (H : extends c c) by (apply adds_calls_refl; reflexivity). revert H. generalize c at 2 4.
  induction l as [|p l IH]; intros c0 H; cbn; [exact H|]. apply IH, adds_calls_emit; [exact H | exact I].
Qed.

Lemma adds_calls_step op c c' : Correlator.step op c = Done c' -> extends c c'.
Proof.
  destruct op; cbn [Correlator.step]; try (intros [= <-]; apply adds_calls_refl; reflexivity);
    [apply adds_calls_record | intros [= <-]; apply adds_calls_response | intros [= <-]; apply adds_calls_timeouts].
Qed.

(** What [correlated] leaves alone, and the calls it adds. *)
Definition forwarded_call (m : DiagnosticSessionManager) (k : Call) : Prop :=
  call_event k = NegativeResponse /\
  exists p, call_pair k = Some p /\ Correlator.is_negative p = true /\
    sessions m !! target_address (Correlator.rq_transport (Correlator.request p)) = Some (call_state k).

Definition same_but_calls (m m' : DiagnosticSessionManager) : Prop :=
  options m' = options m /\ stats m' = stats m /\ correlator m' = correlator m /\ sessions m' = sessions m /\
  ecu_info m' = ecu_info m /\ callbacks m' = callbacks m /\
  exists l, calls m' = calls m ++ l /\ Forall (forwarded_call m) l.

Lemma same_but_calls_refl m : same_but_calls m m.
Proof. unfold same_but_calls. split_and!; try reflexivity. exists []. rewrite app_nil_r. auto. Qed.

Lemma on_correlation_same c m : quiet_or_negative c -> same_but_calls m (on_correlation c m).
Proof.
  unfold quiet_or_negative, on_correlation. destruct (forwarded_event _) as [e|]; [|intros _; apply same_but_calls_refl].
  destruct (Correlator.call_pair c) as [p|]; [|intros _; apply same_but_calls_refl]. intros [-> Hp].
  destruct (sessions m !! _) as [s|] eqn:E; [|apply same_but_calls_refl].
  unfold same_but_calls. cbn. split_and!; try reflexivity. eexists. split; [reflexivity|].
  apply Forall_map, Forall_forall. intros cb _. split; [reflexivity|]. exists p. auto.
Qed.

Lemma run_callbacks_same l m : Forall quiet_or_negative l -> same_but_calls m (run_callbacks l m).
Proof.
  intros Hl. revert m. induction Hl as [|c l Hc _ IH]; intros m; cbn [run_callbacks]; [apply same_but_calls_refl|].
  assert (H : same_but_calls m (if Nat.eqb (Correlator.call_callback c) MANAGER_CALLBACK then on_correlation c m else m)).
  { destruct (Nat.eqb _ _); [apply on_correlation_same, Hc | apply same_but_calls_refl]. }
  destruct H as (H1 & H2 & H3 & H4 & H5 & H6 & k & H7 & Hk).
  set (m1 := if Nat.eqb _ _ then _ else _) in *. clearbody m1.
  destruct (IH m1) as (G1 & G2 & G3 & G4 & G5 & G6 & j & G7 & Hj). unfold same_but_calls.
  rewrite G1, G2, G3, G4, G5, G6. split_and!; try assumption.
  exists (k ++ j). rewrite G7, H7, app_assoc. split; [reflexivity|]. apply Forall_app. split; [exact Hk|].
  eapply Forall_impl; [exact Hj|]. unfold forwarded_call. rewrite H4. auto.
Qed.

Lemma correlated_same c m : extends (correlator m) c -> same_but_calls (set_correlator c m) (correlated c m).
Proof.
  intros (l & Hc & Hl). unfold correlated. rewrite Hc, drop_app_length. apply run_callbacks_same, Hl.
Qed.

(** The correlator of every reachable manager is well formed. *)
Definition good_correlator (m : DiagnosticSessionManager) : Prop :=
  Correlator.well_formed (correlator m) /\ 1 <= Correlator.max_pending_per_address (Correlator.options (correlator m)).

Lemma correlate_total h msg t q m :
  good_correlator m -> exists m', correlate h msg t q m = Done m' /\ good_correlator m' /\
    options m' = options m /\ sessions m' = sessions m /\ callbacks m' = callbacks m /\
    exists l, calls m' = calls m ++ l /\ Forall (forwarded_call m) l.
Proof.
  intros [Hwf H1]. unfold correlate.
  destruct (enable_correlation (options m)).
  2:{ exists m. split_and!; try reflexivity; [exact (conj Hwf H1) | exists []; rewrite app_nil_r; auto]. }
  assert (H : exists c, (if q then Correlator.record_request h msg t (correlator m)
                         else Done (Correlator.process_response h msg t (correlator m)).2) = Done c /\
                extends (correlator m) c /\ Correlator.well_formed c /\
                Correlator.options c = Correlator.options (correlator m)).
  { destruct q.
    - destruct (Correlator.wf_record h msg t _ Hwf H1) as (c & Hc & Hw & Ho). exists c.
      split_and!; [exact Hc | eapply adds_calls_record, Hc | assumption..].
    - eexists. split_and!; [reflexivity | apply adds_calls_response | apply Correlator.wf_process_response; assumption..]. }
  destruct H as (c & Hc & He & Hw & Ho).
  destruct (correlated_same c m He) as (G1 & G2 & G3 & G4 & G5 & G6 & l & G7 & Hl).
  exists (correlated c m). split_and!; try assumption.
  - destruct q; [rewrite Hc; reflexivity | apply Done_inj in Hc as ->; reflexivity].
  - unfold good_correlator. rewrite G3. cbn. rewrite Ho. auto.
  - exists l. auto.
Qed.

Lemma correlator_step_total op m :
  good_correlator m -> exists m', correlator_step op m = Done m' /\ good_correlator m' /\
    options m' = options m /\ sessions m' = sessions m /\ callbacks m' = callbacks m /\
    exists l, calls m' = calls m ++ l /\ Forall (forwarded_call m) l.
Proof.
  intros [Hwf H1]. unfold correlator_step. cbv zeta. set (op' := match op with Correlator.OnEvent _ => _ | _ => _ end).
  destruct (Correlator.wf_step op' _ Hwf H1) as (c & Hc & Hw & Ho). rewrite Hc, bind_Done.
  destruct (correlated_same c m (adds_calls_step _ _ _ Hc)) as (G1 & G2 & G3 & G4 & G5 & G6 & l & G7 & Hl).
  eexists. split_and!; [reflexivity | | assumption..|].
  - unfold good_correlator. rewrite G3. cbn. rewrite Ho. auto.
  - exists l. auto.
Qed.

(** ** Specification

    An abstract observer of the traffic, which knows of each ECU the session, the
    unlocked level, the timing and when it was last heard of.  It sees packets through
    the combined decoder of Diagnostic.v. *)

Record Ecu := mkEcu { e_type : Z; e_active : bool; e_level : Z; e_timing : DiagnosticTiming; e_last : Z }.

Inductive Observation :=
| Message (source target : Z) (is_request : bool) (message : Uds.UdsServiceMessage)
| Activation (entity : Z)
| Nothing.

Definition observe_activation (h : DoIP.DoIPHeader) (payload : list byte) : Observation :=
  if DoIP.payload_type h =? DoIP.RoutingActivationResponse_t then
    match DoIP.parse_routing_activation_response payload with
    | Done (Some r) => Activation (DoIP.rs_entity_address r)
    | _ => Nothing
    end
  else Nothing.

Definition observe_result (r : UdsOverDoipResult) : Observation :=
  Message (ecu_source r) (ecu_target r)
    (match message_direction r with Request => true | _ => false end) (uds_message r).

Definition observe_payload (h : DoIP.DoIPHeader) (payload : list byte) : Observation :=
  match decode_payload h payload with
  | Done r => observe_result r
  | _ => observe_activation h payload
  end.

Definition observe_packet (d : list byte) : Observation :=
  match decode_packet d with
  | Done r => observe_result r
  | _ =>
      match DoIP.decode_impl DoIP.Options_default (context_of d) with
      | Done (h, next) => observe_activation h (take (Z.to_nat (DoIP.payload_length h)) (data next))
      | _ => Nothing
      end
  end.

Definition observe_uds (d : list byte) (source target : Z) (is_request : bool) : Observation :=
  match Uds.decode d with
  | Done r => Message source target is_request (Uds.message r)
  | _ => Nothing
  end.

(** What a response says about its ECU: the session and its timing, the level that a
    key unlocked (two sub-functions per level), or that everything is over. *)
Definition learn (message : Uds.UdsServiceMessage) (e : Ecu) : Ecu :=
  match message with
  | Uds.DiagnosticSessionControlResponse type p2 p2_star =>
      mkEcu type true (e_level e)
        (mkDiagnosticTiming p2 (10 * p2_star) (s3_server (e_timing e)) (p3_client (e_timing e)) (p4_server (e_timing e)))
        (e_last e)
  | Uds.SecurityAccessResponse access_type _ =>
      if Z.even access_type
      then mkEcu (e_type e) (e_active e) (Z.max (e_level e) (access_type / 2)) (e_timing e) (e_last e) else e
  | Uds.ECUResetResponse _ _ => mkEcu DefaultSession false 0 (e_timing e) (e_last e)
  | _ => e
  end.

Section specification.
Context (opts : Options).

Definition first_seen (now : Z) : Ecu := mkEcu DefaultSession false 0 (default_timing opts) now.
Definition heard (now : Z) (e : Ecu) : Ecu := mkEcu (e_type e) (e_active e) (e_level e) (e_timing e) now.
Definition known (now : Z) (R : gmap Z Ecu) (a : Z) : Ecu := default (first_seen now) (R !! a).

Definition observed (now : nat -> Z) (o : Observation) (R : gmap Z Ecu) : gmap Z Ecu :=
  match o with
  | Message source target true _ => <[target := heard (now 1%nat) (known (now 0%nat) R target)]> R
  | Message source target false message =>
      <[source := learn message (heard (now 1%nat) (known (now 0%nat) R source))]> R
  | Activation entity => <[entity := known (now 0%nat) R entity]> R
  | Nothing => R
  end.

(** S3: the session is over when the ECU was silent for more than that. *)
Definition expire (now : Z) (e : Ecu) : Ecu :=
  if e_active e && (s3_server (e_timing e) <? Z.quot (now - e_last e) 1000000)
  then mkEcu DefaultSession false 0 (e_timing e) (e_last e) else e.

Definition spec_step (R : gmap Z Ecu) (op : SessionOp) : gmap Z Ecu :=
  match op with
  | ProcessDoipPacket now h payload _ => observed now (observe_payload h payload) R
  | ProcessDoipRaw now d _ => observed now (observe_packet d) R
  | ProcessUdsMessage now d source target is_request _ => observed now (observe_uds d source target is_request) R
  | SetTiming now a t =>
      let e := known now R a in <[a := mkEcu (e_type e) (e_active e) (e_level e) t (e_last e)]> R
  | CheckTimeouts _ now => if enable_timeout_detection opts then map_imap (fun a e => Some (expire (now a) e)) R else R
  | ResetEcu a => delete a R
  | Reset => ∅
  | _ => R
  end.
End specification.

(** ** Refinement *)

Definition view (s : DiagnosticSessionState) : Ecu :=
  mkEcu (session_type s) (session_active s) (security_level s) (timing s) (last_activity s).

(** What the calls of callbacks have in common. *)
Definition reportable (k : Call) : Prop :=
  let s := call_state k in
  match call_event k with
  | NegativeResponse => forall p, call_pair k = Some p -> Correlator.is_negative p = true
  | RoutingActivated => routing_active s = true /\ call_pair k = None
  | SessionChanged => session_active s = true /\ call_pair k = None
  | SessionTimeout | SessionEnded =>
      session_type s = DefaultSession /\ session_active s = false /\ security_level s = 0 /\ call_pair k = None
  | SecurityUnlocked | RequestSent | ResponseReceived | DataIdentifierRead | FlashStarted | FlashProgress
  | FlashCompleted => call_pair k = None
  | _ => False
  end.

(** The manager goes on, with these sessions, and reports only what it should. *)
Record goes_to (m : DiagnosticSessionManager) (R : gmap Z Ecu) (m' : DiagnosticSessionManager) : Prop := {
  gt_correlator : good_correlator m';
  gt_options : options m' = options m;
  gt_sessions : view <$> sessions m' = R;
  gt_calls : exists l, calls m' = calls m ++ l /\ Forall reportable l
}.

Lemma goes_to_refl m : good_correlator m -> goes_to m (view <$> sessions m) m.
Proof. intros H. split; auto. exists []. rewrite app_nil_r. auto. Qed.

Lemma goes_to_trans m R m1 R' m2 : goes_to m R m1 -> goes_to m1 R' m2 -> goes_to m R' m2.
Proof.
  intros [_ Ho _ (l & Hl & Fl)] [Hc Ho' Hs (k & Hk & Fk)]. split; [assumption | congruence | assumption|].
  exists (l ++ k). rewrite Hk, Hl, app_assoc. split; [reflexivity | apply Forall_app; auto].
Qed.

Lemma goes_to_same m R m1 m2 :
  goes_to m R m1 -> options m2 = options m1 -> correlator m2 = correlator m1 -> sessions m2 = sessions m1 ->
  calls m2 = calls m1 -> goes_to m R m2.
Proof.
  intros [[Hw H1] Ho Hs Hl] Ho' Hc' Hs' Hl'. split; [| congruence | congruence | rewrite Hl'; exact Hl].
  unfold good_correlator. rewrite Hc'. auto.
Qed.

Lemma goes_to_emit m R m1 e s p :
  goes_to m R m1 -> (forall cb, reportable (mkCall cb e s p)) -> goes_to m R (emit_event e s p m1).
Proof.
  intros H He. eapply goes_to_trans; [exact H|]. destruct H as [Hc Ho Hs _]. split; try assumption; try reflexivity.
  eexists. split; [reflexivity|]. apply Forall_map, Forall_forall. intros cb _. apply He.
Qed.

Lemma goes_to_put m R m1 a s : goes_to m R m1 -> goes_to m (<[a := view s]> R) (put a s m1).
Proof.
  intros [Hc Ho Hs Hl]. split; try assumption. cbn. rewrite fmap_insert, Hs. reflexivity.
Qed.

Lemma forwarded_reportable m l : Forall (forwarded_call m) l -> Forall reportable l.
Proof.
  intros H. eapply Forall_impl; [exact H|]. intros k (He & p & Hp & Hn & _). unfold reportable. rewrite He, Hp.
  intros q [= <-]. exact Hn.
Qed.

Lemma insert_view (R : gmap Z Ecu) a e : R !! a = Some e -> <[a := e]> R = R.
Proof. apply insert_id. Qed.

(** [get_or_create_state] makes the address known. *)
Lemma get_or_create_goes now a m s m' :
  get_or_create_state now a m = (s, m') -> good_correlator m ->
  let e := known (options m) now (view <$> sessions m) a in
  view s = e /\ sessions m' !! a = Some s /\ goes_to m (<[a := e]> (view <$> sessions m)) m'.
Proof.
  unfold get_or_create_state, known. rewrite lookup_fmap. intros H Hc.
  destruct (sessions m !! a) as [s0|] eqn:E; injection H as <- <-; cbn.
  - split_and!; [reflexivity | exact E|].
    rewrite insert_view by (rewrite lookup_fmap, E; reflexivity). apply goes_to_refl, Hc.
  - split_and!; [reflexivity | apply lookup_insert_eq|].
    refine (goes_to_put m _ m a (set_last_activity now (set_state_timing (default_timing (options m)) new_state)) _).
    apply goes_to_refl, Hc.
Qed.

(** A message as the decoder returns it: its variant agrees with the header. *)
Definition agrees (h : Uds.UdsHeader) (message : Uds.UdsServiceMessage) : Prop :=
  Uds.typed_message message /\
  (message = Uds.Unparsed \/ Uds.message_service message = Some (Uds.direction h, Uds.service_id h)).

Lemma decode_agrees d r : Uds.decode d = Done r -> agrees (Uds.header r) (Uds.message r).
Proof.
  intros H.
  assert (Ht : Uds.typed_result r).
  { unfold Uds.decode in H. Uds.follow H; try discriminate;
      eauto using Uds.parse_request_typed, Uds.parse_positive_response_typed, Uds.parse_negative_response_typed. }
  destruct Ht as (H1 & H2 & _). split; assumption.
Qed.

(** The tests of [is_negative_response] in the handlers never fail. *)
Lemma agrees_positive h message :
  agrees h message ->
  match message with
  | Uds.SecurityAccessResponse _ _ | Uds.ECUResetResponse _ _ | Uds.RequestDownloadResponse _ _
  | Uds.TransferDataResponse _ _ | Uds.RequestTransferExitResponse _ => Correlator.is_negative_header h = false
  | _ => True
  end.
Proof.
  intros [_ [-> | H]]; [exact I|]. unfold Correlator.is_negative_header.
  destruct message; try exact I; cbn in H; injection H as <- _; reflexivity.
Qed.

Lemma key_level t : fits 8 t -> (t mod 2 =? 1) = negb (Z.even t) /\ (Z.even t = true -> uint 8 ((t + 1) / 2) = t / 2).
Proof.
  intros Ht. rewrite Zmod_odd, <- Z.negb_even. unfold fits in Ht. destruct (Z.even t) eqn:E; cbn.
  - split; [reflexivity|]. intros _. apply Z.even_spec in E as [k ->]. unfold uint. lia.
  - split; [reflexivity | discriminate].
Qed.

Lemma response_effect_learns now h message s s' ev :
  agrees h message -> response_effect now h message s = (s', ev) ->
  view s' = learn message (view s) /\ routing_active s' = routing_active s /\
  (forall e cb, ev = Some e -> reportable (mkCall cb e s' None)).
Proof.
  intros Ha H. pose proof (agrees_positive h message Ha) as Hp. destruct Ha as [Ht _].
  unfold response_effect in H. cbv zeta in H.
  destruct message; try (injection H as <- <-; split_and!; [reflexivity | reflexivity | intros e cb; discriminate]);
    try rewrite Hp in H; cbn [negb] in H.
  - injection H as <- <-. split_and!; [cbn; rewrite Z.mul_comm; reflexivity | reflexivity|].
    intros e cb. cbn. destruct (negb _); intros [= <-]. split; reflexivity.
  - injection H as <- <-. split_and!; [reflexivity | reflexivity|]. intros e cb [= <-]. cbn. auto.
  - destruct (key_level access_type Ht) as [Hm Hl]. rewrite Hm in H. cbn [learn]. destruct (Z.even access_type); cbn [negb] in H;
      injection H as <- <-; (split_and!; [| reflexivity | intros e cb; try discriminate; intros [= <-]; reflexivity]);
      [|reflexivity]. cbn. rewrite Hl by reflexivity. reflexivity.
  - injection H as <- <-. split_and!; [reflexivity | reflexivity | intros e cb [= <-]; reflexivity].
  - injection H as <- <-. split_and!; [reflexivity | reflexivity | intros e cb [= <-]; reflexivity].
  - injection H as <- <-. split_and!; [reflexivity | reflexivity | intros e cb [= <-]; reflexivity].
  - injection H as <- <-. split_and!; [reflexivity | reflexivity | intros e cb [= <-]; reflexivity].
Qed.

(** A session that was looked up and assigned. *)
Lemma get_put now a m s m' s' :
  get_or_create_state now a m = (s, m') -> good_correlator m ->
  goes_to m (<[a := view s']> (view <$> sessions m)) (put a s' m') /\ sessions (put a s' m') !! a = Some s'.
Proof.
  intros H Hc. destruct (get_or_create_goes _ _ _ _ _ H Hc) as (_ & _ & Hg). split; [|apply lookup_insert_eq].
  apply (goes_to_put _ _ _ a s') in Hg. rewrite insert_insert_eq in Hg. exact Hg.
Qed.

Lemma update_session_goes now a h message q m :
  agrees h message -> good_correlator m ->
  let R := view <$> sessions m in
  let e := heard (now 1%nat) (known (options m) (now 0%nat) R a) in
  let m' := update_session_state now a h message q m in
  goes_to m (<[a := if q then e else learn message e]> R) m' /\ is_Some (sessions m' !! a).
Proof.
  intros Ha Hc. cbv zeta. unfold update_session_state.
  destruct (get_or_create_state (now 0%nat) a m) as [s m1] eqn:E. cbv zeta.
  destruct (get_or_create_goes _ _ _ _ _ E Hc) as (Hv & _ & _). rewrite <- Hv.
  set (s1 := count_message q _ _). assert (Hs1 : view s1 = heard (now 1%nat) (view s)) by reflexivity.
  rewrite <- Hs1. clearbody s1. destruct q.
  - destruct (get_put _ _ _ _ _ s1 E Hc) as [Hg Hl]. split; [exact Hg | rewrite Hl; eauto].
  - destruct (response_effect (now 2%nat) h message s1) as [s2 ev] eqn:Er.
    destruct (response_effect_learns _ _ _ _ _ _ Ha Er) as (<- & _ & He).
    destruct (get_put _ _ _ _ _ s2 E Hc) as [Hg Hl].
    destruct ev as [e|]; [|split; [exact Hg | rewrite Hl; eauto]].
    split; [|cbn in *; rewrite Hl; eauto]. apply goes_to_emit; [exact Hg|]. intros cb. apply He. reflexivity.
Qed.

Lemma emit_message_goes h q s m R m1 : goes_to m R m1 -> goes_to m R (emit_message h q s m1).
Proof.
  intros H. unfold emit_message. destruct q; [apply goes_to_emit; [exact H | reflexivity]|]. cbv zeta.
  assert (H1 : goes_to m R (emit_event ResponseReceived s None m1)) by (apply goes_to_emit; [exact H | reflexivity]).
  destruct (Correlator.is_negative_header h); [|exact H1]. apply goes_to_emit; [exact H1|]. intros cb p. discriminate.
Qed.

Lemma handle_goes now h message source target q ts m :
  agrees h message -> good_correlator m ->
  exists m', handle_uds_message now h message source target q ts m = Done m' /\
    goes_to m (observed (options m) now (Message source target q message) (view <$> sessions m)) m'.
Proof.
  intros Ha Hc. unfold handle_uds_message. cbv zeta.
  destruct (correlate_total h message (mkTransportInfo TransportDoIP source target ts None) q
              (set_stats (count_uds q (stats m)) m) Hc) as (m1 & -> & Hc1 & Ho1 & Hs1 & _ & l & Hl & Hf).
  rewrite bind_Done. cbn [set_stats options sessions calls] in Ho1, Hs1, Hl.
  set (ecu := if q then target else source).
  destruct (update_session_goes now ecu h message q m1 Ha Hc1) as [Hg [s Hs]]. cbv zeta in Hg.
  set (m2 := update_session_state now ecu h message q m1) in *. clearbody m2.
  assert (H3 : get_or_create_state (now 3%nat) ecu (update_ecu_info ecu m2) = (s, update_ecu_info ecu m2)).
  { unfold get_or_create_state. cbn. rewrite Hs. reflexivity. }
  rewrite H3. eexists. split; [reflexivity|]. apply emit_message_goes.
  apply (goes_to_same _ _ m2); try reflexivity. apply (goes_to_trans m (view <$> sessions m1) m1).
  - split; [exact Hc1 | exact Ho1 | reflexivity|]. exists l. split; [exact Hl|]. eapply forwarded_reportable, Hf.
  - rewrite Ho1, Hs1 in Hg. unfold ecu in Hg. destruct q; exact Hg.
Qed.

Lemma uds_goes now d s t q ts m :
  good_correlator m ->
  exists b m', process_uds_message now d s t q ts m = Done (b, m') /\
    goes_to m (observed (options m) now (observe_uds d s t q) (view <$> sessions m)) m'.
Proof.
  intros Hc. unfold process_uds_message, observe_uds.
  pose proof (Uds.decode_defined d) as Hd. destruct (Uds.decode d) as [r|e|] eqn:E; [| |contradiction].
  - destruct (handle_goes now (Uds.header r) (Uds.message r) s t q ts m (decode_agrees _ _ E) Hc) as (m' & -> & Hg).
    rewrite bind_Done. eauto.
  - do 2 eexists. split; [reflexivity|]. eapply goes_to_same; [apply goes_to_refl, Hc | reflexivity..].
Qed.

(** ** Packets *)

Lemma parsed_some {A} (parse : list byte -> decoded (option A)) n payload :
  DoIP.refuses_below parse n -> exists o, parse payload = Done o.
Proof.
  intros H. destruct (H payload) as [H1 H2]. destruct (Z.lt_ge_cases (zlen payload) n) as [Hl|Hl]; [eauto|].
  destruct (H2 Hl) as [v ->]. eauto.
Qed.

Lemma parsers_total payload :
  (exists o, DoIP.parse_diagnostic_message payload = Done o) /\
  (exists o, DoIP.parse_routing_activation_request payload = Done o) /\
  (exists o, DoIP.parse_routing_activation_response payload = Done o) /\
  (exists o, DoIP.parse_vehicle_identification_response payload = Done o).
Proof.
  destruct DoIP.doip_parsers_match_length_checks as (H1 & H2 & H3 & H4 & _).
  split_and!; eapply parsed_some; eassumption.
Qed.

Lemma parse_diagnostic_message_inv payload msg :
  DoIP.parse_diagnostic_message payload = Done (Some msg) ->
  payload = write_be16 (DoIP.dm_source_address msg) ++ write_be16 (DoIP.dm_target_address msg) ++ DoIP.dm_user_data msg /\
  fits 16 (DoIP.dm_source_address msg) /\ fits 16 (DoIP.dm_target_address msg).
Proof.
  unfold DoIP.parse_diagnostic_message. destruct (zlen payload <? 4) eqn:El; [discriminate|]. bool_to_prop.
  destruct payload as [|s0 [|s1 [|t0 [|t1 ud]]]]; try (cbn [length] in El; lia). clear El.
  rewrite (be16_at_drop _ 0 (be16 s0 s1) (t0 :: t1 :: ud)), bind_Done
    by (first [lia | apply be16_fits | rewrite write_be16_be16; reflexivity]).
  rewrite (be16_at_drop _ 2 (be16 t0 t1) ud), bind_Done
    by (first [lia | apply be16_fits | rewrite write_be16_be16; reflexivity]).
  intros H. apply bind_inv in H as (u & Hu & H). apply Done_inj in H. injection H as <-.
  cbn [DoIP.dm_source_address DoIP.dm_target_address DoIP.dm_user_data].
  assert (u = ud) as ->.
  { destruct (4 <? _) eqn:E; [rewrite subspan_in in Hu by (cbn [length] in *; lia); apply Done_inj in Hu as <-; reflexivity|].
    apply Done_inj in Hu as <-. bool_to_prop. destruct ud; [reflexivity | cbn [length] in E; lia]. }
  rewrite !write_be16_be16. split_and!; [reflexivity | apply be16_fits..].
Qed.

(** The manager's parser and the combined decoder read the same message. *)
Lemma diagnostic_payload h payload :
  DoIP.payload_type h = DoIP.DiagnosticMessage ->
  match decode_payload h payload with
  | Done r => exists ud m, Uds.decode ud = Done m /\
      DoIP.parse_diagnostic_message payload =
        Done (Some (DoIP.mkDiagnosticMessagePayload (ecu_source r) (ecu_target r) ud)) /\
      observe_result r = Message (ecu_source r) (ecu_target r) (Uds.is_request ud) (Uds.message m)
  | _ => DoIP.parse_diagnostic_message payload = Done None \/
         exists msg e, DoIP.parse_diagnostic_message payload = Done (Some msg) /\
           Uds.decode (DoIP.dm_user_data msg) = Fail e
  end.
Proof.
  intros Ht. assert (Hd : DoIP.is_diagnostic_message h = true) by (apply Z.eqb_eq; exact Ht).
  destruct (decode_payload h payload) as [r|e|] eqn:E.
  - apply decode_payload_done in E as (s & t & ud & m & -> & Hs & Htg & Hl & _ & Hm & ->). exists ud, m.
    split_and!; [exact Hm | | unfold observe_result; cbn; destruct (Uds.is_request ud); reflexivity].
    apply (DoIP.parse_encode_diagnostic_message (DoIP.mkDiagnosticMessagePayload s t ud)). split; assumption.
  - destruct (parsers_total payload) as ([[msg|] Hp] & _); [right | left; exact Hp].
    pose proof (Uds.decode_defined (DoIP.dm_user_data msg)) as Hud.
    destruct (Uds.decode (DoIP.dm_user_data msg)) as [m|e'|] eqn:Em; [exfalso | eauto | contradiction].
    assert (Hx : decode_payload h payload =
      Done (mkUdsOverDoipResult h (DoIP.dm_source_address msg) (DoIP.dm_target_address msg) (Uds.header m)
              (Uds.message m) (if Uds.is_request (DoIP.dm_user_data msg) then Request else Response))); [|congruence].
    apply decode_payload_done. apply parse_diagnostic_message_inv in Hp as (-> & Hs & Htg).
    exists (DoIP.dm_source_address msg), (DoIP.dm_target_address msg), (DoIP.dm_user_data msg), m.
    split_and!; try assumption; try reflexivity.
    destruct (DoIP.dm_user_data msg) as [|b0 ud0]; [cbv in Em; discriminate Em | cbn [length]; lia].
  - exfalso. exact (decode_payload_defined h payload E).
Qed.

Lemma routing_goes now r m :
  good_correlator m ->
  goes_to m (observed (options m) now (Activation (DoIP.rs_entity_address r)) (view <$> sessions m))
    (process_routing_activation (now 0%nat) (Some r) m).
Proof.
  intros Hc. unfold process_routing_activation. destruct (get_or_create_state _ _ m) as [s m1] eqn:E. cbv zeta.
  destruct (get_or_create_goes _ _ _ _ _ E Hc) as (Hv & _ & _). cbn [observed]. rewrite <- Hv.
  set (s1 := set_routing _ _ _ s). change (view s) with (view s1).
  destruct (get_put _ _ _ _ _ s1 E Hc) as [Hg _]. destruct (routing_active s1) eqn:Er; [|exact Hg].
  apply goes_to_emit; [exact Hg|]. intros cb. split; [exact Er | reflexivity].
Qed.

Lemma goes_to_quiet m m' :
  good_correlator m -> options m' = options m -> correlator m' = correlator m -> sessions m' = sessions m ->
  calls m' = calls m -> goes_to m (view <$> sessions m) m'.
Proof. intros Hc. apply goes_to_same, goes_to_refl, Hc. Qed.

Lemma diagnostic_goes now h payload ts m :
  DoIP.payload_type h = DoIP.DiagnosticMessage -> good_correlator m ->
  exists o b m', DoIP.parse_diagnostic_message payload = Done o /\
    match o with
    | Some msg => m' ← process_diagnostic_message now msg ts m; Done (true, m')
    | None => Done (false, m)
    end = Done (E:=Empty_set) (b, m') /\
    goes_to m (observed (options m) now (observe_payload h payload) (view <$> sessions m)) m'.
Proof.
  intros Ht Hc. pose proof (diagnostic_payload h payload Ht) as Hd. unfold observe_payload.
  assert (Hno : observe_activation h payload = Nothing) by (unfold observe_activation; rewrite Ht; reflexivity).
  assert (Hq : goes_to m (view <$> sessions m) m) by (apply goes_to_refl, Hc).
  assert (Herr : forall msg e, Uds.decode (DoIP.dm_user_data msg) = Fail e -> exists m',
            process_diagnostic_message now msg ts m = Done m' /\ goes_to m (view <$> sessions m) m').
  { intros msg e He. unfold process_diagnostic_message. rewrite He. eexists. split; [reflexivity|].
    apply goes_to_quiet; [exact Hc | reflexivity..]. }
  destruct (decode_payload h payload) as [r|e|].
  - destruct Hd as (ud & mm & Hm & Hp & ->). rewrite Hp.
    destruct (handle_goes now (Uds.header mm) (Uds.message mm) (ecu_source r) (ecu_target r) (Uds.is_request ud) ts
                (set_stats (count_diagnostic (stats m)) m) (decode_agrees _ _ Hm) Hc) as (m' & Hh & Hg).
    exists (Some (DoIP.mkDiagnosticMessagePayload (ecu_source r) (ecu_target r) ud)), true, m'.
    split_and!; [reflexivity | | eapply goes_to_trans; [|exact Hg]; apply goes_to_quiet; [exact Hc | reflexivity..]].
    unfold process_diagnostic_message. cbn [DoIP.dm_user_data DoIP.dm_source_address DoIP.dm_target_address].
    rewrite Hm. cbv zeta. rewrite Hh. reflexivity.
  - rewrite Hno. destruct Hd as [Hp | (msg & e' & Hp & He)]; rewrite Hp.
    + exists None, false, m. auto.
    + destruct (Herr msg e' He) as (m' & Hm' & Hg). exists (Some msg), true, m'. rewrite Hm'. auto.
  - rewrite Hno. destruct Hd as [Hp | (msg & e' & Hp & He)]; rewrite Hp.
    + exists None, false, m. auto.
    + destruct (Herr msg e' He) as (m' & Hm' & Hg). exists (Some msg), true, m'. rewrite Hm'. auto.
Qed.

Lemma observe_other h payload :
  DoIP.payload_type h <> DoIP.DiagnosticMessage -> observe_payload h payload = observe_activation h payload.
Proof.
  intros Ht. unfold observe_payload, decode_payload, DoIP.is_diagnostic_message.
  rewrite (proj2 (Z.eqb_neq _ _) Ht). reflexivity.
Qed.

Lemma packet_goes now h payload ts m :
  good_correlator m ->
  exists b m', process_doip_packet now h payload ts m = Done (b, m') /\
    goes_to m (observed (options m) now (observe_payload h payload) (view <$> sessions m)) m'.
Proof.
  intros Hc. set (m0 := set_stats (count_packet (stats m)) m).
  assert (H0 : good_correlator m0) by exact Hc.
  enough (exists b m', process_doip_packet now h payload ts m = Done (b, m') /\
    goes_to m0 (observed (options m0) now (observe_payload h payload) (view <$> sessions m0)) m') as (b & m' & Hp & Hg).
  { exists b, m'. split; [exact Hp|]. eapply goes_to_trans; [|exact Hg]. apply goes_to_quiet; [exact Hc | reflexivity..]. }
  unfold process_doip_packet. fold m0. cbv zeta. clearbody m0. clear m Hc.
  destruct (DoIP.payload_type h =? DoIP.DiagnosticMessage) eqn:E1; bool_to_prop.
  { destruct (diagnostic_goes now h payload ts m0 E1 H0) as (o & b & m' & -> & Hp & Hg).
    cbn [parsed]. rewrite bind_Done. eauto. }
  rewrite observe_other by exact E1. unfold observe_activation.
  destruct (parsers_total payload) as (_ & [q Hq] & [r Hr] & [v Hv]). rewrite Hq, Hr, Hv. cbn [parsed].
  rewrite !bind_Done.
  destruct (DoIP.payload_type h =? DoIP.RoutingActivationRequest_t) eqn:E2; bool_to_prop.
  { rewrite E2. change (_ =? _) with false. cbn match.
    destruct q; do 2 eexists; (split; [reflexivity|]); (apply goes_to_quiet; [exact H0 | reflexivity..]). }
  destruct (DoIP.payload_type h =? DoIP.RoutingActivationResponse_t).
  { destruct r as [r|]; do 2 eexists; (split; [reflexivity|]); [|apply goes_to_refl, H0].
    eapply goes_to_same; [apply routing_goes, H0 | reflexivity..]. }
  destruct (DoIP.payload_type h =? DoIP.VehicleAnnouncementOrIdentificationResponse);
    [destruct v|]; do 2 eexists; (split; [reflexivity|]); (apply goes_to_quiet; [exact H0 | reflexivity..]).
Qed.

Lemma raw_goes now d ts m :
  good_correlator m ->
  exists b m', process_doip_raw now d ts m = Done (b, m') /\
    goes_to m (observed (options m) now (observe_packet d) (view <$> sessions m)) m'.
Proof.
  intros Hc. unfold process_doip_raw, observe_packet, decode_packet.
  pose proof (decode_defined (decode:=DoIP.decode_impl DoIP.Options_default) (header_size:=DoIP.header_size)
                (context_of d)) as Hd.
  destruct (DoIP.decode_impl _ _) as [[h next]|e|] eqn:E; [| |contradiction].
  2:{ do 2 eexists. split; [reflexivity|]. apply goes_to_quiet; [exact Hc | reflexivity..]. }
  destruct (packet_payload _ _ _ E) as (Hs & -> & Hwf & Hd' & Hl).
  assert (Hs' : subspan_count (E:=Empty_set) d DoIP.HEADER_SIZE (DoIP.payload_length h) =
            Done (take (Z.to_nat (DoIP.payload_length h)) (data next))).
  { unfold subspan_count in *. destruct (_ && _); [|discriminate Hs]. apply Done_inj in Hs as ->. reflexivity. }
  rewrite Hs, Hs', !bind_Done. set (payload := take _ _).
  destruct (packet_goes now h payload ts m Hc) as (b & m' & Hp & Hg). exists b, m'. split; [exact Hp|].
  replace (match _ with Done r => observe_result r | _ => _ end) with (observe_payload h payload); [exact Hg|].
  unfold observe_payload. unfold decode_payload at 1. destruct (DoIP.is_diagnostic_message h) eqn:Ed; [|reflexivity].
  cbn [negb]. unfold decode_payload. rewrite Ed. reflexivity.
Qed.

(** ** Timeouts *)

Lemma check_session_goes now a m :
  good_correlator m ->
  goes_to m (alter (expire now) a (view <$> sessions m)) (check_session now a m).
Proof.
  intros Hc. unfold check_session. destruct (sessions m !! a) as [s|] eqn:E.
  - assert (Ha : alter (expire now) a (view <$> sessions m) = <[a := expire now (view s)]> (view <$> sessions m)).
    { apply map_eq. intros b. destruct (decide (a = b)) as [<-|Hne];
        [rewrite lookup_alter_eq, lookup_insert_eq, lookup_fmap, E; reflexivity |
         rewrite lookup_alter_ne, lookup_insert_ne by exact Hne; reflexivity]. }
    rewrite Ha. unfold expire, is_potentially_timed_out, time_since_activity, Correlator.MILLISECOND. cbn [view e_active e_timing e_last].
    destruct (_ && _).
    + apply goes_to_emit; [|intros cb; cbn; auto].
      refine (goes_to_put m _ m a (count_timeout (set_security_level 0 (set_session DefaultSession false s))) _).
      apply goes_to_refl, Hc.
    + change (mkEcu _ _ _ _ _) with (view s). rewrite insert_id by (rewrite lookup_fmap, E; reflexivity). apply goes_to_refl, Hc.
  - rewrite alter_id; [apply goes_to_refl, Hc|]. intros x. rewrite lookup_fmap, E. discriminate.
Qed.

Fixpoint expire_all (now : Z -> Z) (addresses : list Z) (R : gmap Z Ecu) : gmap Z Ecu :=
  match addresses with
  | [] => R
  | a :: addresses' => expire_all now addresses' (alter (expire (now a)) a R)
  end.

Lemma check_sessions_goes now l m :
  good_correlator m -> goes_to m (expire_all now l (view <$> sessions m)) (check_sessions now l m).
Proof.
  revert m. induction l as [|a l IH]; intros m Hc; cbn [check_sessions expire_all]; [apply goes_to_refl, Hc|].
  pose proof (check_session_goes (now a) a m Hc) as H. eapply goes_to_trans; [exact H|].
  rewrite <- (gt_sessions _ _ _ H). apply IH, (gt_correlator _ _ _ H).
Qed.

Lemma expire_all_lookup now l R a :
  NoDup l -> expire_all now l R !! a = if bool_decide (a ∈ l) then expire (now a) <$> R !! a else R !! a.
Proof.
  intros Hl. revert R. induction Hl as [|b l Hb _ IH]; intros R; cbn [expire_all].
  { rewrite bool_decide_eq_false_2 by apply not_elem_of_nil. reflexivity. }
  rewrite IH. destruct (decide (b = a)) as [->|Hne].
  - rewrite bool_decide_eq_false_2 by exact Hb. rewrite bool_decide_eq_true_2 by left. apply lookup_alter_eq.
  - rewrite lookup_alter_ne by exact Hne. rewrite (bool_decide_ext _ (a ∈ b :: l)); [reflexivity|].
    rewrite elem_of_cons. split; [auto | intros [H|H]; [congruence | exact H]].
Qed.

(** ** Histories *)

Section histories.
Context (iterate : forall A : Type, gmap Z A -> list (Z * A)).
Context (iterate_perm : forall A m, iterate A m ≡ₚ map_to_list m).

Lemma expire_all_iterate now {A} (M : gmap Z A) (R : gmap Z Ecu) :
  dom R = dom M -> expire_all now (map fst (iterate A M)) R = map_imap (fun a e => Some (expire (now a) e)) R.
Proof.
  intros Hd. apply map_eq. intros a. rewrite map_lookup_imap, expire_all_lookup.
  2:{ rewrite (iterate_perm A M). apply NoDup_fst_map_to_list. }
  destruct (R !! a) as [e|] eqn:E; cbn; [|destruct (bool_decide _); reflexivity].
  rewrite bool_decide_eq_true_2; [reflexivity|]. rewrite (iterate_perm A M).
  assert (Ha : a ∈ dom M) by (rewrite <- Hd; apply elem_of_dom; eauto).
  apply elem_of_dom in Ha as [x Hx]. apply list_elem_of_fmap. exists (a, x).
  split; [reflexivity | apply elem_of_map_to_list, Hx].
Qed.

Lemma timeouts_goes now session_now m :
  good_correlator m ->
  goes_to m (spec_step (options m) (view <$> sessions m) (CheckTimeouts now session_now))
    (check_timeouts iterate now session_now m).2.
Proof.
  intros Hc. unfold check_timeouts. cbn [spec_step].
  destruct (enable_timeout_detection (options m)); [|apply goes_to_refl, Hc].
  destruct Hc as [Hw H1].
  assert (Hx : extends (correlator m) (Correlator.check_timeouts now (correlator m)).2) by apply adds_calls_timeouts.
  destruct (Correlator.wf_check_timeouts now _ Hw) as [Hw' Ho].
  destruct (Correlator.check_timeouts now (correlator m)) as [n c]. cbn [fst snd] in *.
  destruct (correlated_same c m Hx) as (G1 & _ & G3 & G4 & _ & _ & l & G7 & Hl). cbn [set_correlator options correlator sessions calls] in *.
  assert (Hc' : good_correlator (correlated c m)) by (unfold good_correlator; rewrite G3, Ho; auto).
  set (m1 := correlated c m) in *. clearbody m1.
  apply (goes_to_trans m (view <$> sessions m1) m1).
  { split; [exact Hc' | exact G1 | reflexivity|]. exists l. split; [exact G7|]. eapply forwarded_reportable, Hl. }
  rewrite <- (expire_all_iterate session_now (sessions m1)) by (rewrite dom_fmap_L, G4; reflexivity).
  rewrite <- G4. apply check_sessions_goes, Hc'.
Qed.

Lemma step_goes op m :
  good_correlator m -> exists m', step iterate op m = Done m' /\ goes_to m (spec_step (options m) (view <$> sessions m) op) m'.
Proof.
  intros Hc. destruct op; cbn [step spec_step].
  - destruct (packet_goes now h payload timestamp m Hc) as (b & m' & -> & Hg). eauto.
  - destruct (raw_goes now d timestamp m Hc) as (b & m' & -> & Hg). eauto.
  - destruct (uds_goes now uds_data source target is_request timestamp m Hc) as (b & m' & -> & Hg). eauto.
  - eexists. split; [reflexivity|]. unfold set_timing. destruct (get_or_create_state now address m) as [s m1] eqn:E.
    destruct (get_or_create_goes _ _ _ _ _ E Hc) as (Hv & _ & _). rewrite <- Hv.
    exact (proj1 (get_put _ _ _ _ _ (set_state_timing t s) E Hc)).
  - eexists. split; [reflexivity|]. exact (timeouts_goes now session_now m Hc).
  - eexists. split; [reflexivity|]. apply goes_to_quiet; [exact Hc | reflexivity..].
  - eexists. split; [reflexivity|]. apply goes_to_quiet; [exact Hc | reflexivity..].
  - eexists. split; [reflexivity|]. split; [exact Hc | reflexivity | apply fmap_delete|].
    exists []. rewrite app_nil_r. auto.
  - destruct Hc as [Hw H1].
    destruct (Correlator.wf_step Correlator.Reset _ Hw H1) as (c & [= <-] & Hw' & Ho).
    eexists. split; [reflexivity|]. split; [split; [exact Hw' | exact H1] | reflexivity | apply fmap_empty|].
    exists []. rewrite app_nil_r. auto.
  - eexists. split; [reflexivity|]. apply goes_to_quiet; [exact Hc | reflexivity..].
  - destruct (correlator_step_total op m Hc) as (m' & -> & Hc' & Ho & Hs & _ & l & Hl & Hf). exists m'.
    split; [reflexivity|]. rewrite <- Hs. split; [exact Hc' | exact Ho | reflexivity|].
    exists l. split; [exact Hl | eapply forwarded_reportable, Hf].
Qed.

Lemma run_goes ops m :
  good_correlator m -> exists m', run iterate ops m = Done m' /\ goes_to m (foldl (spec_step (options m)) (view <$> sessions m) ops) m'.
Proof.
  revert m. induction ops as [|op ops IH]; intros m Hc; cbn [run foldl]; [eauto using goes_to_refl|].
  destruct (step_goes op m Hc) as (m1 & -> & Hg). rewrite bind_Done.
  destruct (IH m1 (gt_correlator _ _ _ Hg)) as (m2 & Hr & Hg2). exists m2. split; [exact Hr|].
  rewrite (gt_options _ _ _ Hg), (gt_sessions _ _ _ Hg) in Hg2. exact (goes_to_trans _ _ _ _ _ Hg Hg2).
Qed.

Lemma new_manager_good opts :
  1 <= Correlator.max_pending_per_address (correlator_options opts) -> good_correlator (new_manager opts).
Proof.
  intros H1. split; [|exact H1]. cbn. split; cbn; try (intros key l; rewrite lookup_empty; discriminate); try reflexivity;
    [unfold Correlator.MAX_COMPLETED_HISTORY; lia|]. intros p Hp. apply not_elem_of_nil in Hp. contradiction.
Qed.

(** [C13] The session manager implements an observer of the traffic.  When the correlator may
    queue at least one request per address pair, every history of operations is defined
    (also with direct use of the correlator), and the sessions, unlocked levels, timings
    and times of activity of the ECUs are then those of the observer, which sees raw
    packets through the combined UDS-over-DoIP decoder: the manager takes the same
    packets for diagnostic messages, with the same addresses and direction.  The iteration
    order of the hash map has no influence. *)
Theorem session_manager_refines (opts : Options) (ops : list SessionOp) :
  1 <= Correlator.max_pending_per_address (correlator_options opts) ->
  exists m, run iterate ops (new_manager opts) = Done m /\
    view <$> sessions m = foldl (spec_step opts) ∅ ops.
Proof.
  intros H1. destruct (run_goes ops (new_manager opts) (new_manager_good opts H1)) as (m & Hr & Hg).
  exists m. split; [exact Hr|]. rewrite (gt_sessions _ _ _ Hg). cbn. rewrite fmap_empty. reflexivity.
Qed.

(** [C15] Events tell the truth, and ten of them never come.  After any history, every call of
    a callback for a session that ended or timed out shows the default session, inactive
    and locked; one for a changed session shows it active; one for an activated routing
    shows it active; a pair comes only with a negative response, and is one.  The events
    for the start of a session, for pending, timed-out and failed responses, for locked
    security, for trouble codes, for failed programming and for lost connections are
    never emitted. *)
Theorem session_manager_events (opts : Options) (ops : list SessionOp) :
  1 <= Correlator.max_pending_per_address (correlator_options opts) ->
  exists m, run iterate ops (new_manager opts) = Done m /\
    Forall reportable (calls m) /\
    Forall (fun k => call_event k ∉ [RoutingDeactivated; ConnectionLost; SessionStarted; SecurityLocked; SecurityLockout;
                       ResponsePending; ResponseTimeout; DTCsRead; DTCsCleared; FlashFailed]) (calls m).
Proof.
  intros H1. destruct (run_goes ops (new_manager opts) (new_manager_good opts H1)) as (m & Hr & Hg).
  exists m. split; [exact Hr|]. destruct (gt_calls _ _ _ Hg) as (l & Hl & Hf). cbn [new_manager calls app] in Hl.
  rewrite Hl. split; [exact Hf|]. eapply Forall_impl; [exact Hf|].
  intros [cb e s p] Hk. unfold reportable in Hk. cbn [call_event] in *. rewrite !not_elem_of_cons.
  destruct e; try contradiction; split_and!; try discriminate; apply not_elem_of_nil.
Qed.
End histories.

(** Two UDS messages, a packet around the first, and silence: what the observer knows. *)
Definition example_ops : list SessionOp :=
  [ProcessDoipRaw (fun _ => 5) [x02; xfd; x80; x01; x00; x00; x00; x0a; x10; x00; x0e; x00; x50; x03; x00; x32; x01; xf4] 5;
   ProcessUdsMessage (fun _ => 6) [x67; x02] 0x1000 0x0E00 false 6;
   OnEvent 7;
   CheckTimeouts 0 (fun _ => 5001000006)].

Lemma session_manager_refines_witness :
  foldl (spec_step Options_default) ∅ (firstn 3 example_ops) =
    {[0x1000 := mkEcu ExtendedDiagnosticSession true 1 (mkDiagnosticTiming 50 5000 5000 50 0) 6]} /\
  exists m, run (fun A m => map_to_list m) example_ops (new_manager Options_default) = Done m /\
    view <$> sessions m = foldl (spec_step Options_default) ∅ example_ops.
Proof.
  split; [vm_compute; reflexivity|].
  apply (session_manager_refines (fun A m => map_to_list m)); [reflexivity | cbn; lia].
Defined.

Lemma session_manager_events_witness :
  exists m, run (fun A m => map_to_list m) (OnEvent 7 :: example_ops) (new_manager Options_default) = Done m /\
    Forall reportable (calls m) /\
    Forall (fun k => call_event k ∉ [RoutingDeactivated; ConnectionLost; SessionStarted; SecurityLocked; SecurityLockout;
                       ResponsePending; ResponseTimeout; DTCsRead; DTCsCleared; FlashFailed]) (calls m).
Proof. apply (session_manager_events (fun A m => map_to_list m)); [reflexivity | cbn; lia]. Defined.

Example example_events :
  match run (fun A m => map_to_list m) (OnEvent 7 :: example_ops) (new_manager Options_default) with
  | Done m => map call_event (calls m) =
      [SessionChanged; ResponseReceived; SecurityUnlocked; ResponseReceived; SessionTimeout; SessionTimeout]
  | _ => False
  end.
Proof. vm_compute. reflexivity. Qed.

(** ** An exchange *)

(** A packet that the combined decoder opens. *)
Lemma raw_message now d ts m r :
  decode_packet d = Done r ->
  process_doip_raw now d ts m =
    (m' ← handle_uds_message now (uds_header r) (uds_message r) (ecu_source r) (ecu_target r)
            (match message_direction r with Request => true | _ => false end) ts
            (set_stats (count_diagnostic (count_packet (stats m))) m);
     Done (true, m')).
Proof.
  unfold decode_packet, process_doip_raw.
  destruct (DoIP.decode_impl _ _) as [[h next]|e|] eqn:E; try discriminate.
  destruct (packet_payload _ _ _ E) as (Hs & -> & _).
  destruct (DoIP.is_diagnostic_message h) eqn:Ed; [cbn [negb] | discriminate].
  assert (Hs' : subspan_count (E:=Empty_set) d DoIP.HEADER_SIZE (DoIP.payload_length h) =
            Done (take (Z.to_nat (DoIP.payload_length h)) (data next))).
  { unfold subspan_count in *. destruct (_ && _); [|discriminate Hs]. apply Done_inj in Hs as ->. reflexivity. }
  rewrite Hs, Hs', !bind_Done. intros H. apply decode_payload_done in H as (s & t & ud & mm & Hp & Hfs & Hft & _ & _ & Hm & ->).
  unfold process_doip_packet. cbv zeta. unfold DoIP.is_diagnostic_message in Ed. rewrite Ed, Hp.
  change (write_be16 s ++ write_be16 t ++ ud) with
    (DoIP.encode_diagnostic_message (DoIP.mkDiagnosticMessagePayload s t ud)).
  rewrite DoIP.parse_encode_diagnostic_message by (split; assumption). cbn [parsed]. rewrite bind_Done.
  unfold process_diagnostic_message. cbn [DoIP.dm_user_data DoIP.dm_source_address DoIP.dm_target_address].
  rewrite Hm. cbn [uds_header uds_message ecu_source ecu_target message_direction].
  destruct (Uds.is_request ud); reflexivity.
Qed.

Section exchange.
Context (cb : nat).

(** A manager with one callback, whose correlator only has the manager's. *)
Record watched (m : DiagnosticSessionManager) : Prop := {
  wt_good : good_correlator m;
  wt_enabled : enable_correlation (options m) = true;
  wt_forward : Correlator.callbacks (correlator m) = [MANAGER_CALLBACK];
  wt_callbacks : callbacks m = [cb]
}.

Definition exchanged (r : UdsOverDoipResult) (ts : Z) : Correlator.request_message :=
  (uds_header r, uds_message r, mkTransportInfo TransportDoIP (ecu_source r) (ecu_target r) ts None).

Definition report (k : Call) : nat * DiagnosticEvent * option Correlator.RequestResponsePair :=
  (call_callback k, call_event k, call_pair k).

(** What a callback is told of a response by its type. *)
Definition response_event (message : Uds.UdsServiceMessage) (old_session : Z) : option DiagnosticEvent :=
  match message with
  | Uds.DiagnosticSessionControlResponse t _ _ => if old_session =? t then None else Some SessionChanged
  | Uds.SecurityAccessResponse t _ => if Z.even t then Some SecurityUnlocked else None
  | Uds.ECUResetResponse _ _ => Some SessionEnded
  | Uds.ReadDataByIdentifierResponse _ => Some DataIdentifierRead
  | Uds.RequestDownloadResponse _ _ => Some FlashStarted
  | Uds.TransferDataResponse _ _ => Some FlashProgress
  | Uds.RequestTransferExitResponse _ => Some FlashCompleted
  | _ => None
  end.

Lemma response_effect_event now h message s :
  agrees h message -> (response_effect now h message s).2 = response_event message (session_type s).
Proof.
  intros Ha. pose proof (agrees_positive h message Ha) as Hp. destruct Ha as [Ht _]. unfold response_effect. cbv zeta.
  destruct message; try reflexivity; rewrite ?Hp; cbn [negb snd response_event]; try reflexivity.
  - cbn. destruct (_ =? _); reflexivity.
  - destruct (key_level access_type Ht) as [-> _]. destruct (Z.even access_type); reflexivity.
Qed.

(** The session of a message, and what is reported of it. *)
Lemma update_session_reports now a h message q m :
  agrees h message -> callbacks m = [cb] ->
  let s0 := (get_or_create_state (now 0%nat) a m).1 in
  let m' := update_session_state now a h message q m in
  correlator m' = correlator m /\ options m' = options m /\ callbacks m' = callbacks m /\
  map report (calls m') = map report (calls m) ++
    (if q then [] else match response_event message (session_type s0) with Some e => [(cb, e, None)] | None => [] end) /\
  exists s, sessions m' !! a = Some s /\ (q = true -> session_type s = session_type s0).
Proof.
  intros Ha Hcb. cbv zeta. unfold update_session_state. 
  assert (Hg : let '(s, m1) := get_or_create_state (now 0%nat) a m in correlator m1 = correlator m /\
            options m1 = options m /\ callbacks m1 = callbacks m /\ calls m1 = calls m).
  { unfold get_or_create_state. destruct (sessions m !! a); auto. }
  destruct (get_or_create_state (now 0%nat) a m) as [s m1]. destruct Hg as (H1 & H2 & H3 & H4). cbn [fst]. cbv zeta.
  set (s1 := count_message q _ _). assert (Hs1 : session_type s1 = session_type s) by reflexivity. rewrite <- Hs1. clearbody s1.
  destruct q.
  - cbn. rewrite H4, app_nil_r. split_and!; try assumption; [reflexivity|]. exists s1. split; [apply lookup_insert_eq | auto].
  - pose proof (response_effect_event (now 2%nat) h message s1 Ha) as He.
    destruct (response_effect (now 2%nat) h message s1) as [s2 ev]. cbn [snd] in He. subst ev.
    destruct (response_event message (session_type s1)) as [e|]; cbn.
    + rewrite H4, H3, Hcb, map_app. cbn. split_and!; auto. exists s2. split; [apply lookup_insert_eq | discriminate].
    + rewrite H4, app_nil_r. split_and!; auto. exists s2. split; [apply lookup_insert_eq | discriminate].
Qed.

(** Recording a request tells the manager nothing. *)
Lemma correlated_quiet c m k :
  Correlator.calls c = Correlator.calls (correlator m) ++ map (fun cb => Correlator.mkCall cb (Correlator.call_event k)
     (Correlator.call_pair k) (Correlator.call_pending k)) [MANAGER_CALLBACK] ->
  forwarded_event (Correlator.call_event k) = None -> correlated c m = set_correlator c m.
Proof.
  intros Hc Hk. unfold correlated. rewrite Hc, drop_app_length. cbn [map run_callbacks Correlator.call_callback Nat.eqb MANAGER_CALLBACK].
  unfold on_correlation. cbn [Correlator.call_event]. rewrite Hk. reflexivity.
Qed.

Definition session_of (m : DiagnosticSessionManager) (a : Z) (s : DiagnosticSessionState) : Prop := sessions m !! a = Some s.

(** The parts of the manager that an exchange does not change. *)
Definition steady (m m' : DiagnosticSessionManager) : Prop :=
  options m' = options m /\ callbacks m' = callbacks m /\
  Correlator.callbacks (correlator m') = Correlator.callbacks (correlator m).

Lemma correlate_request h msg t m :
  watched m -> Correlator.queue (source_address t) (target_address t) (correlator m) = [] ->
  exists c, correlate h msg t true m = Done (set_correlator c m) /\
    Correlator.callbacks c = [MANAGER_CALLBACK] /\ Correlator.completed c = Correlator.completed (correlator m) /\
    Correlator.queue (source_address t) (target_address t) c = [Correlator.pending_of (h, msg, t)].
Proof.
  intros [[Hw H1] He Hf Hcb] Hq. unfold correlate. rewrite He.
  unfold Correlator.record_request. cbv zeta. fold (Correlator.queue (source_address t) (target_address t) (correlator m)).
  rewrite Hq, (proj2 (Z.leb_gt _ _)) by (cbn [length]; lia). rewrite !bind_Done.
  match goal with |- context [Correlator.emit_event ?e ?p ?pd ?c0] => set (c1 := c0); set (p1 := pd) end.
  eexists. split.
  - rewrite (correlated_quiet _ _ (Correlator.mkCall 0 Correlator.RequestSent None p1));
      [reflexivity | cbn; rewrite Hf; reflexivity | reflexivity].
  - split_and!; [exact Hf | reflexivity|]. unfold Correlator.queue. cbn. rewrite lookup_insert_eq. reflexivity.
Qed.

Lemma correlate_response req h msg t m s :
  watched m -> session_of m (source_address t) s -> target_address (req.2) = source_address t ->
  Correlator.queue (target_address t) (source_address t) (correlator m) = [Correlator.pending_of req] ->
  Uds.service_id h = Correlator.service req -> Correlator.is_response_pending h = false ->
  let pair := Correlator.pair_of req (h, msg, t) in
  exists m', correlate h msg t false m = Done m' /\ steady m m' /\ sessions m' = sessions m /\
    Correlator.completed (correlator m') = Correlator.keep_history (Correlator.completed (correlator m) ++ [pair]) /\
    Correlator.queue (target_address t) (source_address t) (correlator m') = [] /\
    map report (calls m') = map report (calls m) ++
      (if Correlator.is_negative_header h then [(cb, NegativeResponse, Some pair)] else []).
Proof.
  intros [[Hw H1] He Hf Hcb] Hs Htg Hq Hsid Hrp. cbv zeta. unfold correlate. rewrite He.
  unfold Correlator.process_response. cbv zeta. fold (Correlator.queue (target_address t) (source_address t) (correlator m)).
  rewrite Hq. unfold Correlator.find_pending_for_response, Correlator.erase_service.
  assert (Hm : Correlator.same_service h (Correlator.pending_of req) = true)
    by (unfold Correlator.same_service; rewrite Correlator.service_pending, Hsid; apply Z.eqb_refl).
  cbn [Correlator.split_first]. rewrite Hm, Hrp. cbn [snd app].
  match goal with |- context [Correlator.mkPair ?a ?b] => change (Correlator.mkPair a b) with (Correlator.pair_of req (h, msg, t)) end.
  set (pair := Correlator.pair_of req (h, msg, t)).
  eexists. split; [reflexivity|]. unfold correlated. cbn [Correlator.calls Correlator.set_completed Correlator.set_pending Correlator.emit_event
    Correlator.set_stats Correlator.callbacks Correlator.options Correlator.stats Correlator.pending_requests Correlator.completed].
  rewrite Hf. cbn [map]. rewrite <- app_assoc, drop_app_length. cbn [app run_callbacks Correlator.call_callback Nat.eqb MANAGER_CALLBACK].
  unfold on_correlation. cbn [Correlator.call_event Correlator.call_pair forwarded_event].
  destruct (Correlator.is_negative_header h); cbn [forwarded_event].
  - cbn [set_correlator sessions]. replace (target_address _) with (source_address t) by (symmetry; exact Htg).
    unfold session_of in Hs. rewrite Hs. cbn. rewrite Hcb, map_app. unfold Correlator.queue. cbn. rewrite lookup_insert_eq.
    unfold steady. cbn. rewrite Hf. auto 10.
  - cbn. rewrite app_nil_r. unfold Correlator.queue. cbn. rewrite lookup_insert_eq. unfold steady. cbn. rewrite Hf. auto 10.
Qed.

(** What is reported of a message, after the correlator has seen it. *)
Lemma handled now h msg src tgt q ts m mc :
  agrees h msg -> callbacks mc = [cb] ->
  correlate h msg (mkTransportInfo TransportDoIP src tgt ts None) q (set_stats (count_uds q (stats m)) m) = Done mc ->
  let ecu := if q then tgt else src in
  let s0 := (get_or_create_state (now 0%nat) ecu mc).1 in
  exists m', handle_uds_message now h msg src tgt q ts m = Done m' /\ correlator m' = correlator mc /\
    options m' = options mc /\ callbacks m' = callbacks mc /\
    (exists s, session_of m' ecu s /\ (q = true -> session_type s = session_type s0)) /\
    map report (calls m') = map report (calls mc) ++
      (if q then [(cb, RequestSent, None)]
       else match response_event msg (session_type s0) with Some e => [(cb, e, None)] | None => [] end ++
            [(cb, ResponseReceived, None)] ++
            if Correlator.is_negative_header h then [(cb, NegativeResponse, None)] else []).
Proof.
  intros Ha Hcb Hc. cbv zeta. unfold handle_uds_message. cbv zeta. rewrite Hc, bind_Done. clear Hc.
  set (ecu := if q then tgt else src).
  pose proof (update_session_reports now ecu h msg q mc Ha Hcb) as H. cbv zeta in H.
  set (s0 := (get_or_create_state (now 0%nat) ecu mc).1) in *.
  destruct H as (H1 & H2 & H3 & H4 & s & Hs & Hst).
  set (m2 := update_session_state now ecu h msg q mc) in *. clearbody m2 ecu s0.
  assert (Hg : get_or_create_state (now 3%nat) ecu (update_ecu_info ecu m2) = (s, update_ecu_info ecu m2)).
  { unfold get_or_create_state. cbn. rewrite Hs. reflexivity. }
  rewrite Hg. eexists. split; [reflexivity|]. rewrite Hcb in H3.
  destruct q; unfold emit_message; cbv zeta.
  - rewrite app_nil_r in H4. unfold emit_event, session_of. cbn. rewrite map_app, H4, H3. cbn. rewrite Hcb.
    split_and!; auto. exists s. auto.
  - destruct (Correlator.is_negative_header h); unfold emit_event, session_of; cbn; rewrite ?map_app, H4, H3, Hcb; cbn;
      rewrite <- ?app_assoc; cbn; (split_and!; auto; exists s; split; [exact Hs | discriminate]).
Qed.

Lemma packet_agrees d r : decode_packet d = Done r -> agrees (uds_header r) (uds_message r).
Proof.
  unfold decode_packet. destruct (DoIP.decode_impl _ _) as [[h next]|e|] eqn:E; try discriminate.
  destruct (packet_payload _ _ _ E) as (-> & -> & _). destruct (DoIP.is_diagnostic_message h); [cbn [negb] | discriminate].
  rewrite bind_Done. intros H. apply decode_payload_done in H as (s & t & ud & mm & _ & _ & _ & _ & _ & Hm & ->).
  exact (decode_agrees _ _ Hm).
Qed.
End exchange.

(** The request of an exchange. *)
Lemma request_exchange cb now d ts m r :
  watched cb m -> Correlator.queue (ecu_source r) (ecu_target r) (correlator m) = [] ->
  decode_packet d = Done r -> message_direction r = Request ->
  exists m1 s, process_doip_raw now d ts m = Done (true, m1) /\ watched cb m1 /\
    Correlator.completed (correlator m1) = Correlator.completed (correlator m) /\
    Correlator.queue (ecu_source r) (ecu_target r) (correlator m1) = [Correlator.pending_of (exchanged r ts)] /\
    session_of m1 (ecu_target r) s /\
    session_type s = default DefaultSession (session_type <$> sessions m !! ecu_target r) /\
    map report (calls m1) = map report (calls m) ++ [(cb, RequestSent, None)].
Proof.
  intros Hw Hq Hd Hdir. pose proof (packet_agrees _ _ Hd) as Ha.
  destruct (raw_goes now d ts m (wt_good _ _ Hw)) as (b & m1 & Hr & Hg).
  pose proof (raw_message now d ts m r Hd) as Hraw. rewrite Hdir in Hraw. rewrite Hr in Hraw. symmetry in Hraw.
  set (m0 := set_stats (count_diagnostic (count_packet (stats m))) m) in Hraw.
  assert (Hw0 : watched cb (set_stats (count_uds true (stats m0)) m0)) by (destruct Hw; split; assumption).
  destruct (correlate_request cb (uds_header r) (uds_message r)
              (mkTransportInfo TransportDoIP (ecu_source r) (ecu_target r) ts None) _ Hw0 Hq)
    as (c & Hc & Hcb & Hcompl & Hqueue).
  destruct (handled cb now (uds_header r) (uds_message r) (ecu_source r) (ecu_target r) true ts m0
              (set_correlator c (set_stats (count_uds true (stats m0)) m0)) Ha
              (wt_callbacks _ _ Hw0) Hc) as (m' & Hh & H1 & H2 & H3 & (s & Hs & Hst) & H4).
  rewrite Hh, bind_Done in Hraw. apply Done_pair_inj in Hraw as [<- <-].
  exists m', s. split_and!; try assumption; try (rewrite H1; assumption).
  - destruct Hw as [_ He _ Hcbs]. split; [exact (gt_correlator _ _ _ Hg) | rewrite H2; exact He | rewrite H1; exact Hcb |
      rewrite H3; exact Hcbs].
  - rewrite Hst by reflexivity. unfold get_or_create_state. cbn [set_correlator set_stats sessions].
    change (sessions m0) with (sessions m). destruct (sessions m !! ecu_target r); reflexivity.
Qed.

(** The response. *)
Lemma response_exchange cb now d ts m r req s :
  watched cb m -> Correlator.queue (ecu_target r) (ecu_source r) (correlator m) = [Correlator.pending_of req] ->
  decode_packet d = Done r -> message_direction r = Response ->
  session_of m (ecu_source r) s -> target_address req.2 = ecu_source r ->
  Uds.service_id (uds_header r) = Correlator.service req -> Correlator.is_response_pending (uds_header r) = false ->
  let p := Correlator.pair_of req (exchanged r ts) in
  let negative := Correlator.is_negative_header (uds_header r) in
  exists m1, process_doip_raw now d ts m = Done (true, m1) /\
    Correlator.completed (correlator m1) = Correlator.keep_history (Correlator.completed (correlator m) ++ [p]) /\
    Correlator.queue (ecu_target r) (ecu_source r) (correlator m1) = [] /\
    map report (calls m1) = map report (calls m) ++ (if negative then [(cb, NegativeResponse, Some p)] else []) ++
      match response_event (uds_message r) (session_type s) with Some e => [(cb, e, None)] | None => [] end ++
      [(cb, ResponseReceived, None)] ++ (if negative then [(cb, NegativeResponse, None)] else []).
Proof.
  intros Hw Hq Hd Hdir Hs Htg Hsid Hrp. cbv zeta. pose proof (packet_agrees _ _ Hd) as Ha.
  pose proof (raw_message now d ts m r Hd) as Hraw. rewrite Hdir in Hraw. rewrite Hraw. clear Hraw.
  set (m0 := set_stats (count_diagnostic (count_packet (stats m))) m).
  assert (Hw0 : watched cb (set_stats (count_uds false (stats m0)) m0)) by (destruct Hw; split; assumption).
  pose proof (correlate_response cb req (uds_header r) (uds_message r)
              (mkTransportInfo TransportDoIP (ecu_source r) (ecu_target r) ts None) _ s Hw0 Hs Htg Hq Hsid Hrp) as H.
  cbv zeta in H. destruct H as (mc & Hc & (Ho & Hcb & _) & Hsess & Hcompl & Hqueue & Hcalls).
  assert (Hcb' : callbacks mc = [cb]) by (rewrite Hcb; exact (wt_callbacks _ _ Hw0)).
  destruct (handled cb now (uds_header r) (uds_message r) (ecu_source r) (ecu_target r) false ts m0 _ Ha Hcb' Hc)
    as (m' & Hh & H1 & H2 & H3 & _ & H4).
  rewrite Hh, bind_Done. exists m'. rewrite H1. split_and!; [reflexivity | exact Hcompl | exact Hqueue|].
  assert (Hst : (get_or_create_state (now 0%nat) (ecu_source r) mc).1 = s).
  { unfold get_or_create_state. rewrite Hsess. unfold session_of in Hs. cbn [set_stats sessions].
    change (sessions m0) with (sessions m). rewrite Hs. reflexivity. }
  rewrite Hst in H4. rewrite H4, Hcalls, <- app_assoc. reflexivity.
Qed.

Lemma newest_pair l p : exists l', rev (Correlator.keep_history (l ++ [p])) = p :: l'.
Proof.
  unfold Correlator.keep_history. destruct (_ <? _) eqn:E; [|rewrite rev_app_distr; eexists; reflexivity].
  destruct l as [|x l]; [cbn in E; discriminate|]. cbn. rewrite drop_0, rev_app_distr. eexists. reflexivity.
Qed.

(** [C14] A request and its response, as packets.  When nothing is pending between the two
    addresses, a diagnostic packet with a request and then one with a final response
    of the service the other way are both accepted; the newest completed pair of the
    ECU is the one of the two messages, and nothing is pending.  A callback is told: the request;
    of a negative response, the pair; what the response means by its type (a session
    only when it differs from the one before); the response; and, of a negative one,
    that it is negative for a second time. *)
Theorem diagnostic_exchange (cb : nat) (m : DiagnosticSessionManager) (now1 now2 : nat -> Z) (d1 d2 : list byte)
    (t1 t2 : Z) (r1 r2 : UdsOverDoipResult) :
  watched cb m -> Correlator.queue (ecu_source r1) (ecu_target r1) (correlator m) = [] ->
  decode_packet d1 = Done r1 -> message_direction r1 = Request ->
  decode_packet d2 = Done r2 -> message_direction r2 = Response ->
  ecu_source r2 = ecu_target r1 -> ecu_target r2 = ecu_source r1 ->
  Uds.service_id (uds_header r2) = Uds.service_id (uds_header r1) ->
  Correlator.is_response_pending (uds_header r2) = false ->
  let p := Correlator.pair_of (exchanged r1 t1) (exchanged r2 t2) in
  let negative := Correlator.is_negative_header (uds_header r2) in
  let old_session := default DefaultSession (session_type <$> sessions m !! ecu_target r1) in
  exists m1 m2, process_doip_raw now1 d1 t1 m = Done (true, m1) /\ process_doip_raw now2 d2 t2 m1 = Done (true, m2) /\
    get_completed_pairs (ecu_target r1) 1 m2 = [p] /\
    Correlator.get_pending (ecu_source r1) (ecu_target r1) (correlator m2) = [] /\
    map report (calls m2) = map report (calls m) ++ [(cb, RequestSent, None)] ++
      (if negative then [(cb, NegativeResponse, Some p)] else []) ++
      match response_event (uds_message r2) old_session with Some e => [(cb, e, None)] | None => [] end ++
      [(cb, ResponseReceived, None)] ++ (if negative then [(cb, NegativeResponse, None)] else []).
Proof.
  intros Hw Hq Hd1 Hr1 Hd2 Hr2 Hsrc Htgt Hsid Hrp. cbv zeta.
  destruct (request_exchange cb now1 d1 t1 m r1 Hw Hq Hd1 Hr1) as (m1 & s & Hp1 & Hw1 & Hc1 & Hq1 & Hs & Hst & Hl1).
  rewrite <- Hsrc, <- Htgt in Hq1. rewrite <- Hsrc in Hs.
  pose proof (response_exchange cb now2 d2 t2 m1 r2 (exchanged r1 t1) s Hw1 Hq1 Hd2 Hr2 Hs (eq_sym Hsrc) Hsid Hrp) as H.
  cbv zeta in H. destruct H as (m2 & Hp2 & Hc2 & Hq2 & Hl2). exists m1, m2.
  split_and!; [exact Hp1 | exact Hp2 | | rewrite <- Hsrc, <- Htgt; exact Hq2 | rewrite Hl2, Hl1, Hst, <- !app_assoc; reflexivity].
  unfold get_completed_pairs, Correlator.get_completed. rewrite Hc2.
  destruct (newest_pair (Correlator.completed (correlator m1)) (Correlator.pair_of (exchanged r1 t1) (exchanged r2 t2))) as [l' ->].
  cbn [Nat.mul Nat.add take collect_pairs]. cbn [Correlator.pair_of Correlator.request Correlator.pending_of
    Correlator.pd_request Correlator.rq_transport exchanged fst snd target_address]. rewrite Z.eqb_refl. reflexivity.
Qed.

(** A request for the extended session, refused. *)
Definition example_request_packet : list byte :=
  [x02; xfd; x80; x01; x00; x00; x00; x06; x0e; x00; x10; x00; x10; x03].
Definition example_refusal_packet : list byte :=
  [x02; xfd; x80; x01; x00; x00; x00; x07; x10; x00; x0e; x00; x7f; x10; x12].

Lemma diagnostic_exchange_witness :
  exists m1 m2,
    process_doip_raw (fun _ => 1) example_request_packet 1 (on_event 7 (new_manager Options_default)) = Done (true, m1) /\
    process_doip_raw (fun _ => 2) example_refusal_packet 2 m1 = Done (true, m2) /\
    length (get_completed_pairs 0x1000 1 m2) = 1%nat /\
    map call_event (calls m2) = [RequestSent; NegativeResponse; ResponseReceived; NegativeResponse].
Proof.
  destruct (decode_packet example_request_packet) as [r1| |] eqn:E1; [|vm_compute in E1; discriminate E1..].
  destruct (decode_packet example_refusal_packet) as [r2| |] eqn:E2; [|vm_compute in E2; discriminate E2..].
  pose proof E1 as E1'. pose proof E2 as E2'. vm_compute in E1', E2'. apply Done_inj in E1', E2'.
  assert (Hw : watched 7 (on_event 7 (new_manager Options_default))).
  { split; try reflexivity. apply new_manager_good. cbn. lia. }
  pose proof (diagnostic_exchange 7 (on_event 7 (new_manager Options_default)) (fun _ => 1) (fun _ => 2)
    example_request_packet example_refusal_packet 1 2 r1 r2 Hw) as H.
  subst r1 r2.
  destruct (H eq_refl E1 eq_refl E2 eq_refl eq_refl eq_refl eq_refl eq_refl) as (m1 & m2 & H1 & H2 & H3 & _ & H4).
  exists m1, m2. split_and!; [exact H1 | exact H2 | cbn [ecu_target] in H3; rewrite H3; reflexivity|].
  apply (f_equal (map (fun k => k.1.2))) in H4. rewrite map_map in H4. exact H4.
Defined.
