(* ===== verification/Timestamp.v ===== *)
(** * Timestamps and timeouts (include/wadjet/core/timestamp.hpp,
    src/protocols/common/timeout_manager.cpp)

    A [Timestamp] is its only field, a [time_point] in nanoseconds since the epoch; its
    arithmetic is in 64 bits and the conversions truncate towards zero, as
    [std::chrono::duration_cast] does.  [Clock::now()] is a [now] argument. *)

From Stdlib Require Import ZArith Lia.
From stdpp Require Import base numbers list gmap.
From S2P Require Import Prelude.

Definition SECOND : Z := 1000000000.

Definition Timestamp : Type := Z.

(** A signed 64-bit result, whose overflow is undefined. *)
Definition int64 {E} (z : Z) : res E Z := if (- 2 ^ 63 <=? z) && (z <? 2 ^ 63) then Done z else Undef.

Definition from_unix {E} (seconds nanoseconds : Z) : res E Timestamp :=
  s ← int64 (seconds * SECOND); int64 (s + nanoseconds).
Definition from_unix_usec {E} (seconds microseconds : Z) : res E Timestamp :=
  n ← int64 (microseconds * 1000); from_unix seconds n.

Definition seconds (t : Timestamp) : Z := Z.quot t SECOND.
Definition nanoseconds (t : Timestamp) : Z := t - seconds t * SECOND.
Definition microseconds (t : Timestamp) : Z := Z.quot (nanoseconds t) 1000.
Definition total_nanoseconds (t : Timestamp) : Z := t.
Definition total_microseconds (t : Timestamp) : Z := Z.quot t 1000.

Lemma from_unix_small {E} s n : fits 32 s -> fits 32 n -> from_unix (E:=E) s n = Done (s * SECOND + n).
Proof.
  unfold from_unix, int64, fits, SECOND. intros Hs Hn.
  rewrite (proj2 (Z.leb_le _ (s * _))), (proj2 (Z.ltb_lt (s * _) _)) by lia. cbn [andb]. rewrite bind_Done.
  rewrite (proj2 (Z.leb_le _ _)), (proj2 (Z.ltb_lt _ _)) by lia. reflexivity.
Qed.

Lemma from_unix_usec_small {E} s n : fits 32 s -> fits 32 n -> from_unix_usec (E:=E) s n = Done (s * SECOND + n * 1000).
Proof.
  unfold from_unix_usec, from_unix, int64, fits, SECOND. intros Hs Hn.
  rewrite (proj2 (Z.leb_le _ (n * _))), (proj2 (Z.ltb_lt (n * _) _)) by lia. cbn [andb]. rewrite bind_Done.
  rewrite (proj2 (Z.leb_le _ (s * _))), (proj2 (Z.ltb_lt (s * _) _)) by lia. cbn [andb]. rewrite bind_Done.
  rewrite (proj2 (Z.leb_le _ _)), (proj2 (Z.ltb_lt _ _)) by lia. reflexivity.
Qed.

(** The parts of a time after the epoch. *)
Lemma timestamp_parts t :
  0 <= t -> 0 <= nanoseconds t < SECOND /\ t = seconds t * SECOND + nanoseconds t /\
  microseconds t = nanoseconds t / 1000 /\ 0 <= seconds t.
Proof.
  intros Ht. unfold microseconds, nanoseconds, seconds, SECOND. rewrite !(Z.quot_div_nonneg t) by lia.
  rewrite Z.quot_div_nonneg by lia. lia.
Qed.

(** ** Timeouts *)

Record TimeoutEntry := mkTimeoutEntry { expiry : Z; entry_data : Z }.
Abbreviation TimeoutManager := (gmap Z TimeoutEntry).

Definition set_timeout (now id duration data : Z) (m : TimeoutManager) : TimeoutManager :=
  <[id := mkTimeoutEntry (now + duration * SECOND) data]> m.
Definition is_expired (now id : Z) (m : TimeoutManager) : bool :=
  match m !! id with
  | None => false
  | Some e => expiry e <? now
  end.
Definition remove (id : Z) (m : TimeoutManager) : TimeoutManager := delete id m.

Inductive TimeoutOp := SetTimeout (now id duration data : Z) | Remove (id : Z).
Definition timeout_step (m : TimeoutManager) (op : TimeoutOp) : TimeoutManager :=
  match op with
  | SetTimeout now id duration data => set_timeout now id duration data m
  | Remove id => remove id m
  end.

(** What the last operation on an identifier set. *)
Fixpoint last_deadline (id : Z) (ops : list TimeoutOp) : option Z :=
  match ops with
  | [] => None
  | SetTimeout now i duration _ :: ops' => if i =? id then Some (now + duration * SECOND) else last_deadline id ops'
  | Remove i :: ops' => if i =? id then None else last_deadline id ops'
  end.

(** An identifier is expired exactly when the last operation on it set a timeout whose
    deadline is past; the operations are given latest first. *)
Theorem timeout_exact (ops : list TimeoutOp) (now id : Z) :
  is_expired now id (foldl timeout_step ∅ (rev ops)) = true <->
  exists deadline, last_deadline id ops = Some deadline /\ deadline < now.
Proof.
  assert (H : expiry <$> foldl timeout_step ∅ (rev ops) !! id = last_deadline id ops).
  { induction ops as [|op ops IH]; [reflexivity|]. cbn [rev]. rewrite foldl_app. cbn [foldl].
    destruct op as [t i d x|i]; cbn [timeout_step last_deadline]; unfold set_timeout, remove;
      destruct (i =? id) eqn:E; bool_to_prop; subst;
      rewrite ?lookup_insert_eq, ?lookup_insert_ne, ?lookup_delete_eq, ?lookup_delete_ne by congruence; auto. }
  unfold is_expired. destruct (foldl timeout_step ∅ (rev ops) !! id) as [e|]; cbn in H; rewrite <- H.
  - rewrite Z.ltb_lt. split; [eauto | intros (d & [= <-] & ?); assumption].
  - split; [discriminate | intros (d & ? & ?); discriminate].
Qed.
