(* ===== verification/Pcap.v ===== *)
(** * PCAP files (src/pcap/pcap_reader.cpp, src/pcap/pcap_writer.cpp, include/wadjet/pcap/)

    The reader of a file in memory and the writer.  The structures of the files are
    copied to and from memory, so their integers are in the byte order of the host,
    [big] for a big-endian one; the reader swaps them when the magic number says so.

    - [open] reads the same bytes through [std::ifstream]; only the buffer of
      [from_memory] is modelled.
    - The writer is the bytes it has written; the stream accepts every write.
    - [orig_len], [thiszone] and [sigfigs] are read and not used. *)

From Stdlib Require Import ZArith Lia.
From Stdlib Require Import Strings.Byte.
From stdpp Require Import base numbers list strings pretty.
From S2P Require Import Prelude ByteOrder Timestamp.

(** ** Integers in the order of the host *)

Definition store16 (big : bool) (v : Z) : list byte := if big then write_be16 v else write_le16 v.
Definition store32 (big : bool) (v : Z) : list byte := if big then write_be32 v else write_le32 v.

(** The integers of a structure of enough bytes. *)
Definition load16 (big : bool) (d : list byte) : Z := default 0 (if big then read_be16 d else read_le16 d).
Definition load32 (big : bool) (d : list byte) : Z := default 0 (if big then read_be32 d else read_le32 d).

Definition swap16 (v : Z) : Z := uint 16 (Z.lor (Z.shiftr v 8) (Z.shiftl v 8)).
Definition swap32 (v : Z) : Z :=
  Z.lor (Z.lor (Z.lor (Z.land (Z.shiftr v 24) 0xFF) (Z.land (Z.shiftr v 8) 0xFF00))
               (Z.land (uint 32 (Z.shiftl v 8)) 0xFF0000))
        (Z.land (uint 32 (Z.shiftl v 24)) 0xFF000000).

Lemma land_shiftl a m n : 0 <= n -> Z.land a (Z.shiftl m n) = Z.shiftl (Z.land (Z.shiftr a n) m) n.
Proof.
  intros Hn. apply Z.bits_inj'. intros i Hi. rewrite Z.land_spec. destruct (Z.lt_ge_cases i n).
  - rewrite !Z.shiftl_spec_low by assumption. apply andb_false_r.
  - rewrite !Z.shiftl_spec by assumption. rewrite Z.land_spec, Z.shiftr_spec by lia.
    replace (i - n + n) with i by lia. reflexivity.
Qed.

Lemma swap32_bytes b0 b1 b2 b3 : swap32 (be32 b0 b1 b2 b3) = be32 b3 b2 b1 b0.
Proof.
  assert (H : read_le32 [b0; b1; b2; b3] = Some (be32 b3 b2 b1 b0)) by apply read_le32_swap.
  cbn [read_le32] in H. injection H as <-. unfold swap32.
  change 0xFF00 with (Z.shiftl 255 8). change 0xFF0000 with (Z.shiftl 255 16). change 0xFF000000 with (Z.shiftl 255 24).
  rewrite !land_shiftl by lia. unfold uint. rewrite !Z.shiftl_mul_pow2 by lia. bits_arith.
  f_equal; [f_equal; [f_equal|]|]; unfold be32; byte_ranges; lia.
Qed.

Lemma swap16_bytes b0 b1 : swap16 (be16 b0 b1) = be16 b1 b0.
Proof.
  unfold swap16. rewrite Z.lor_comm.
  replace (Z.shiftr (be16 b0 b1) 8) with (u8 b0) by (bits_arith; unfold be16; byte_ranges; lia).
  rewrite lor_shiftl_add by (try lia; apply u8_range). unfold uint, be16. byte_ranges. lia.
Qed.

(** Four bytes are an integer in either order. *)
Lemma store32_inv big d :
  length d = 4%nat -> fits 32 (load32 big d) /\ store32 big (load32 big d) = d.
Proof.
  intros Hl. destruct_list d Hl. unfold load32, store32. destruct big.
  - rewrite read_be32_cons. cbn. split; [apply be32_fits | apply write_be32_be32].
  - rewrite read_le32_swap. cbn. split; [apply be32_fits|].
    pose proof (write_be32_be32 b2 b1 b0 b) as H. unfold write_be32 in H. unfold write_le32.
    injection H as -> -> -> ->. reflexivity.
Qed.

Lemma store16_inv big d :
  length d = 2%nat -> fits 16 (load16 big d) /\ store16 big (load16 big d) = d.
Proof.
  intros Hl. destruct_list d Hl. unfold load16, store16. destruct big.
  - rewrite read_be16_cons. cbn. split; [apply be16_fits | apply write_be16_be16].
  - rewrite read_le16_swap. cbn. split; [apply be16_fits|].
    pose proof (write_be16_be16 b0 b) as H. unfold write_be16 in H. unfold write_le16.
    injection H as -> ->. reflexivity.
Qed.

Lemma load_store32 big v l : fits 32 v -> load32 big (store32 big v ++ l) = v.
Proof.
  intros Hv. unfold load32, store32.
  destruct big; [rewrite read_write_be32 | rewrite read_write_le32]; auto.
Qed.

Lemma load_store16 big v l : fits 16 v -> load16 big (store16 big v ++ l) = v.
Proof.
  intros Hv. unfold load16, store16.
  destruct big; [rewrite read_write_be16 | rewrite read_write_le16]; auto.
Qed.

Lemma length_store32 big v : length (store32 big v) = 4%nat.
Proof. destruct big; reflexivity. Qed.
Lemma length_store16 big v : length (store16 big v) = 2%nat.
Proof. destruct big; reflexivity. Qed.

(** An integer of the other order, swapped. *)
Lemma swap_load32 big d : length d = 4%nat -> swap32 (load32 big d) = load32 (negb big) d.
Proof.
  intros Hl. destruct_list d Hl. unfold load32.
  destruct big; cbn [negb]; rewrite read_be32_cons, read_le32_swap; apply swap32_bytes.
Qed.

Lemma swap_load16 big d : length d = 2%nat -> swap16 (load16 big d) = load16 (negb big) d.
Proof.
  intros Hl. destruct_list d Hl. unfold load16.
  destruct big; cbn [negb]; rewrite read_be16_cons, read_le16_swap; apply swap16_bytes.
Qed.

(** ** Formats *)

Definition PCAP_MAGIC_NATIVE : Z := 0xA1B2C3D4.
Definition PCAP_MAGIC_SWAPPED : Z := 0xD4C3B2A1.
Definition PCAP_MAGIC_NSEC_NATIVE : Z := 0xA1B23C4D.
Definition PCAP_MAGIC_NSEC_SWAPPED : Z := 0x4D3CB2A1.
Definition MAX_FRAME_SIZE : Z := 1522.

Record PcapFileHeader := mkFileHeader {
  magic_number : Z;
  version_major : Z;
  version_minor : Z;
  thiszone : Z;
  sigfigs : Z;
  fh_snaplen : Z;
  network : Z
}.
Definition FILE_HEADER_SIZE : Z := 24.

Record PcapPacketHeader := mkPacketHeader {
  ts_sec : Z;
  ts_usec : Z;
  incl_len : Z;
  orig_len : Z
}.
Definition PACKET_HEADER_SIZE : Z := 16.

(** The images of the structures in memory. *)
Definition file_header_bytes (big : bool) (h : PcapFileHeader) : list byte :=
  store32 big (magic_number h) ++ store16 big (version_major h) ++ store16 big (version_minor h) ++
  store32 big (thiszone h) ++ store32 big (sigfigs h) ++ store32 big (fh_snaplen h) ++ store32 big (network h).
Definition file_header_of (big : bool) (d : list byte) : PcapFileHeader :=
  mkFileHeader (load32 big d) (load16 big (drop 4 d)) (load16 big (drop 6 d)) (load32 big (drop 8 d))
    (load32 big (drop 12 d)) (load32 big (drop 16 d)) (load32 big (drop 20 d)).
Definition packet_header_bytes (big : bool) (h : PcapPacketHeader) : list byte :=
  store32 big (ts_sec h) ++ store32 big (ts_usec h) ++ store32 big (incl_len h) ++ store32 big (orig_len h).
Definition packet_header_of (big : bool) (d : list byte) : PcapPacketHeader :=
  mkPacketHeader (load32 big d) (load32 big (drop 4 d)) (load32 big (drop 8 d)) (load32 big (drop 12 d)).

Record Packet := mkPacket { pk_data : list byte; pk_timestamp : Timestamp }.

Record Error := mkError { error_code : Z; error_message : string }.
Abbreviation result := (res Error).

(** ** The reader *)

Record PcapReader := mkReader {
  memory_data : list byte;
  memory_offset : Z;
  eof : bool;
  link_type : Z;
  snaplen : Z;
  is_nanosecond : bool;
  is_swapped : bool
}.
Definition has_more (r : PcapReader) : bool := negb (eof r).
Definition position (r : PcapReader) : Z := memory_offset r.

Definition set_offset (x : Z) (r : PcapReader) : PcapReader :=
  mkReader (memory_data r) x (eof r) (link_type r) (snaplen r) (is_nanosecond r) (is_swapped r).
Definition set_eof (x : bool) (r : PcapReader) : PcapReader :=
  mkReader (memory_data r) (memory_offset r) x (link_type r) (snaplen r) (is_nanosecond r) (is_swapped r).

(** The bytes that [read_bytes] copies, if there are enough. *)
Definition read_bytes (size : Z) (r : PcapReader) : option (list byte * PcapReader) :=
  if zlen (memory_data r) <? memory_offset r + size then None
  else Some (take (Z.to_nat size) (drop (Z.to_nat (memory_offset r)) (memory_data r)),
             set_offset (memory_offset r + size) r).

(** Whether the magic number is of the other byte order, and of nanoseconds. *)
Definition magic_kind (magic : Z) : option (bool * bool) :=
  if magic =? PCAP_MAGIC_NATIVE then Some (false, false)
  else if magic =? PCAP_MAGIC_SWAPPED then Some (true, false)
  else if magic =? PCAP_MAGIC_NSEC_NATIVE then Some (false, true)
  else if magic =? PCAP_MAGIC_NSEC_SWAPPED then Some (true, true)
  else None.

Definition swap_file_header (h : PcapFileHeader) : PcapFileHeader :=
  mkFileHeader (magic_number h) (swap16 (version_major h)) (swap16 (version_minor h)) (thiszone h) (sigfigs h)
    (swap32 (fh_snaplen h)) (swap32 (network h)).
Definition swap_packet_header (h : PcapPacketHeader) : PcapPacketHeader :=
  mkPacketHeader (swap32 (ts_sec h)) (swap32 (ts_usec h)) (swap32 (incl_len h)) (swap32 (orig_len h)).

Definition read_header (big : bool) (r : PcapReader) : result PcapReader :=
  match read_bytes FILE_HEADER_SIZE r with
  | None => Fail (mkError (-1) "Failed to read PCAP header")
  | Some (b, r) =>
      let h := file_header_of big b in
      match magic_kind (magic_number h) with
      | None => Fail (mkError (-1) "Invalid PCAP magic number")
      | Some (swapped, nanosecond) =>
          let h := if swapped then swap_file_header h else h in
          if negb (version_major h =? 2) || negb (version_minor h =? 4)
          then Fail (mkError (-1) ("Unsupported PCAP version: " +:+ pretty (version_major h) +:+ "." +:+
                                     pretty (version_minor h)))
          else Done (mkReader (memory_data r) (memory_offset r) (eof r) (network h) (fh_snaplen h) nanosecond swapped)
      end
  end.

Definition from_memory (big : bool) (d : list byte) : result PcapReader :=
  read_header big (mkReader d 0 false 1 65535 false false).

Definition next_packet (big : bool) (r : PcapReader) : result (option Packet * PcapReader) :=
  if eof r then Done (None, r)
  else
    match read_bytes PACKET_HEADER_SIZE r with
    | None => Done (None, set_eof true r)
    | Some (b, r) =>
        let h := packet_header_of big b in
        let h := if is_swapped r then swap_packet_header h else h in
        if (snaplen r <? incl_len h) || (MAX_FRAME_SIZE * 10 <? incl_len h) then Done (None, set_eof true r)
        else
          match read_bytes (incl_len h) r with
          | None => Done (None, set_eof true r)
          | Some (d, r) =>
              ts ← (if is_nanosecond r then from_unix (ts_sec h) (ts_usec h)
                    else from_unix_usec (ts_sec h) (ts_usec h));
              Done (Some (mkPacket d ts), r)
          end
    end.

(** The loop of [read_all]; every turn but the last consumes a packet header. *)
Fixpoint read_loop (fuel : nat) (big : bool) (r : PcapReader) : result (list Packet * PcapReader) :=
  match fuel with
  | O => Done ([], r)
  | S fuel =>
      pr ← next_packet big r;
      match pr with
      | (None, r) => Done ([], r)
      | (Some p, r) => psr ← read_loop fuel big r; Done (p :: psr.1, psr.2)
      end
  end.
Definition read_all (big : bool) (r : PcapReader) : result (list Packet * PcapReader) :=
  read_loop (S (length (memory_data r))) big r.

Definition reset (r : PcapReader) : PcapReader := set_offset FILE_HEADER_SIZE (set_eof false r).

(** ** The writer *)

Record PcapWriterOptions := mkOptions {
  w_link_type : Z;
  w_snaplen : Z;
  nanosecond_precision : bool
}.
Definition PcapWriterOptions_default : PcapWriterOptions := mkOptions 1 65535 false.

Record PcapWriter := mkWriter {
  file : list byte;
  w_options : PcapWriterOptions;
  packet_count : Z;
  bytes_written : Z
}.

Definition create (big : bool) (opts : PcapWriterOptions) : PcapWriter :=
  let h := mkFileHeader (if nanosecond_precision opts then PCAP_MAGIC_NSEC_NATIVE else PCAP_MAGIC_NATIVE) 2 4 0 0
             (w_snaplen opts) (w_link_type opts) in
  mkWriter (file_header_bytes big h) opts 0 0.

Definition write_packet (big : bool) (view : Packet) (w : PcapWriter) : PcapWriter :=
  let opts := w_options w in
  let ts := pk_timestamp view in
  let incl := uint 32 (Z.min (zlen (pk_data view)) (w_snaplen opts)) in
  let h := mkPacketHeader (uint 32 (seconds ts))
             (uint 32 (if nanosecond_precision opts then nanoseconds ts else microseconds ts)) incl
             (uint 32 (zlen (pk_data view))) in
  mkWriter (file w ++ packet_header_bytes big h ++ take (Z.to_nat incl) (pk_data view)) opts
    (packet_count w + 1) (bytes_written w + (PACKET_HEADER_SIZE + incl)).

Fixpoint write_all (big : bool) (views : list Packet) (w : PcapWriter) : PcapWriter :=
  match views with
  | [] => w
  | view :: views' => write_all big views' (write_packet big view w)
  end.

(** ** Images *)

Lemma load32_at big d n v post : fits 32 v -> drop n d = store32 big v ++ post -> load32 big (drop n d) = v.
Proof. intros Hv ->. apply load_store32, Hv. Qed.
Lemma load16_at big d n v post : fits 16 v -> drop n d = store16 big v ++ post -> load16 big (drop n d) = v.
Proof. intros Hv ->. apply load_store16, Hv. Qed.

Record wf_packet_header (h : PcapPacketHeader) : Prop := {
  wf_sec : fits 32 (ts_sec h);
  wf_usec : fits 32 (ts_usec h);
  wf_incl : fits 32 (incl_len h);
  wf_orig : fits 32 (orig_len h)
}.
Record wf_file_header (h : PcapFileHeader) : Prop := {
  wf_magic : fits 32 (magic_number h);
  wf_major : fits 16 (version_major h);
  wf_minor : fits 16 (version_minor h);
  wf_zone : fits 32 (thiszone h);
  wf_sigfigs : fits 32 (sigfigs h);
  wf_snaplen : fits 32 (fh_snaplen h);
  wf_network : fits 32 (network h)
}.

Lemma length_packet_header big h : length (packet_header_bytes big h) = 16%nat.
Proof. unfold packet_header_bytes. rewrite !length_app, !length_store32. reflexivity. Qed.
Lemma length_file_header big h : length (file_header_bytes big h) = 24%nat.
Proof. unfold file_header_bytes. rewrite !length_app, !length_store32, !length_store16. reflexivity. Qed.

Lemma packet_header_of_bytes big h : wf_packet_header h -> packet_header_of big (packet_header_bytes big h) = h.
Proof.
  intros [H1 H2 H3 H4]. unfold packet_header_of, packet_header_bytes. rewrite load_store32 by exact H1.
  rewrite (load32_at big _ 4 (ts_usec h) (store32 big (incl_len h) ++ store32 big (orig_len h))),
    (load32_at big _ 8 (incl_len h) (store32 big (orig_len h))), (load32_at big _ 12 (orig_len h) []);
    try assumption; try (rewrite app_nil_r); try (destruct big; reflexivity). destruct h; reflexivity.
Qed.

Lemma file_header_of_bytes big h : wf_file_header h -> file_header_of big (file_header_bytes big h) = h.
Proof.
  intros [H1 H2 H3 H4 H5 H6 H7]. unfold file_header_of, file_header_bytes. rewrite load_store32 by exact H1.
  set (t7 := store32 big (network h)). set (t6 := store32 big (fh_snaplen h) ++ t7).
  set (t5 := store32 big (sigfigs h) ++ t6). set (t4 := store32 big (thiszone h) ++ t5).
  set (t3 := store16 big (version_minor h) ++ t4).
  rewrite (load16_at big _ 4 (version_major h) t3), (load16_at big _ 6 (version_minor h) t4),
    (load32_at big _ 8 (thiszone h) t5), (load32_at big _ 12 (sigfigs h) t6), (load32_at big _ 16 (fh_snaplen h) t7),
    (load32_at big _ 20 (network h) []);
    try assumption; try (rewrite app_nil_r); try (destruct big; reflexivity). destruct h; reflexivity.
Qed.

(** Any bytes of the right length are the image of a header. *)
Lemma packet_header_image big d :
  length d = 16%nat -> wf_packet_header (packet_header_of big d) /\ packet_header_bytes big (packet_header_of big d) = d.
Proof.
  intros Hl. destruct_list d Hl. unfold packet_header_of, packet_header_bytes.
  cbn [drop ts_sec ts_usec incl_len orig_len].
  assert (Hx : forall b0 b1 b2 b3 l, load32 big (b0 :: b1 :: b2 :: b3 :: l) = load32 big [b0; b1; b2; b3])
    by (intros; unfold load32; destruct big; reflexivity).
  rewrite !(Hx _ _ _ _ (_ :: _)).
  pose proof (store32_inv big [b; b0; b1; b2] eq_refl) as [F1 S1].
  pose proof (store32_inv big [b3; b4; b5; b6] eq_refl) as [F2 S2].
  pose proof (store32_inv big [b7; b8; b9; b10] eq_refl) as [F3 S3].
  pose proof (store32_inv big [b11; b12; b13; b14] eq_refl) as [F4 S4].
  split; [split; cbn; assumption|]. rewrite S1, S2, S3, S4. reflexivity.
Qed.

(** A swapped header is the one in the other order. *)
Lemma swap_packet_header_of big d :
  length d = 16%nat -> swap_packet_header (packet_header_of big d) = packet_header_of (negb big) d.
Proof.
  intros Hl. destruct_list d Hl. unfold swap_packet_header, packet_header_of. cbn [drop ts_sec ts_usec incl_len orig_len].
  assert (Hx : forall h b0 b1 b2 b3 l, load32 h (b0 :: b1 :: b2 :: b3 :: l) = load32 h [b0; b1; b2; b3])
    by (intros h; intros; unfold load32; destruct h; reflexivity).
  rewrite !(Hx _ _ _ _ _ (_ :: _)), !swap_load32 by reflexivity. reflexivity.
Qed.

(** ** The format, on its own *)

Section format.
Context (order nano : bool) (snap : Z).

(** Records that the reader accepts. *)
Definition acceptable (h : PcapPacketHeader) : Prop :=
  wf_packet_header h /\ incl_len h <= snap /\ incl_len h <= MAX_FRAME_SIZE * 10.
Definition stamp (h : PcapPacketHeader) : Timestamp :=
  ts_sec h * SECOND + (if nano then ts_usec h else ts_usec h * 1000).
Definition record_bytes (h : PcapPacketHeader) (d : list byte) : list byte := packet_header_bytes order h ++ d.

(** As many records as the bytes begin with. *)
Inductive records : list byte -> list Packet -> Prop :=
| records_end rest :
    (forall h d post, rest = record_bytes h d ++ post -> zlen d = incl_len h -> ~ acceptable h) -> records rest []
| records_more h d rest ps :
    acceptable h -> zlen d = incl_len h -> records rest ps ->
    records (record_bytes h d ++ rest) (mkPacket d (stamp h) :: ps).

Lemma records_exist rest : exists ps, records rest ps.
Proof.
  remember (length rest) as n eqn:Hn. revert rest Hn.
  induction n as [n IH] using lt_wf_ind. intros rest ->.
  destruct (decide (length rest < 16)%nat) as [Hs|Hs].
  { exists []. constructor. intros h d post -> _. unfold record_bytes in Hs. rewrite !length_app, length_packet_header in Hs. lia. }
  destruct (packet_header_image order (take 16 rest)) as [Hwf Hb]; [rewrite length_take; lia|].
  set (h := packet_header_of order (take 16 rest)) in *.
  assert (Hrest : rest = packet_header_bytes order h ++ drop 16 rest) by (rewrite Hb, take_drop; reflexivity).
  assert (Hdet : forall h' d post, rest = record_bytes h' d ++ post -> wf_packet_header h' -> h' = h).
  { intros h' d post -> Hw. unfold h, record_bytes. rewrite <- app_assoc, take_app_length' by (rewrite length_packet_header; reflexivity).
    symmetry. apply packet_header_of_bytes, Hw. }
  destruct (decide (incl_len h <= snap /\ incl_len h <= MAX_FRAME_SIZE * 10 /\ incl_len h <= zlen (drop 16 rest)))
    as [(H1 & H2 & H3)|Hno].
  - destruct (wf_incl _ Hwf) as [H0 _].
    destruct (IH (length (drop (Z.to_nat (incl_len h)) (drop 16 rest)))) with (rest := drop (Z.to_nat (incl_len h)) (drop 16 rest))
      as [ps Hps]; [rewrite !length_drop in *; lia | reflexivity|].
    exists (mkPacket (take (Z.to_nat (incl_len h)) (drop 16 rest)) (stamp h) :: ps).
    rewrite Hrest at 1. rewrite <- (take_drop (Z.to_nat (incl_len h)) (drop 16 rest)) at 1.
    rewrite app_assoc. apply (records_more h); [split; auto | rewrite length_take; lia | exact Hps].
  - exists []. constructor. intros h' d post Hr Hd (Hw & H1 & H2). apply Hno.
    pose proof (Hdet h' d post Hr Hw) as ->. split_and!; try assumption.
    rewrite Hr. unfold record_bytes. rewrite length_drop, !length_app, length_packet_header. lia.
Qed.

(** ** The reader on the format *)

Context (big : bool).

(** A reader of this format whose unread bytes are [rest]. *)
Definition reading (r : PcapReader) (rest : list byte) : Prop :=
  eof r = false /\ 0 <= memory_offset r <= zlen (memory_data r) /\
  drop (Z.to_nat (memory_offset r)) (memory_data r) = rest /\
  is_nanosecond r = nano /\ is_swapped r = xorb big order /\ snaplen r = snap.

Lemma read_bytes_in n r d rest :
  reading r (d ++ rest) -> zlen d = n ->
  read_bytes n r = Some (d, set_offset (memory_offset r + n) r) /\ reading (set_offset (memory_offset r + n) r) rest.
Proof.
  intros (He & Ho & Hd & Hn & Hs & Hp) Hl.
  assert (Hz : zlen (memory_data r) = memory_offset r + n + zlen rest).
  { apply (f_equal length) in Hd. rewrite length_drop, length_app in Hd. lia. }
  unfold read_bytes. rewrite (proj2 (Z.ltb_ge _ _)) by lia. rewrite Hd, take_app_length' by lia.
  split; [reflexivity|]. split_and!; cbn; try assumption; try lia.
  rewrite <- drop_drop_Z by lia. rewrite Hd. apply drop_app_length'. lia.
Qed.

Lemma read_bytes_short n r rest :
  reading r rest -> zlen rest < n -> read_bytes n r = None.
Proof.
  intros (He & Ho & Hd & _) Hl. unfold read_bytes. rewrite (proj2 (Z.ltb_lt _ _)); [reflexivity|].
  rewrite <- Hd, length_drop in Hl. lia.
Qed.

Lemma header_read b :
  length b = 16%nat ->
  (if xorb big order then swap_packet_header (packet_header_of big b) else packet_header_of big b) = packet_header_of order b.
Proof.
  intros Hl. rewrite swap_packet_header_of by exact Hl. destruct big, order; reflexivity.
Qed.

Lemma next_packet_record r h d rest :
  reading r (record_bytes h d ++ rest) -> acceptable h -> zlen d = incl_len h ->
  exists r', next_packet big r = Done (Some (mkPacket d (stamp h)), r') /\ reading r' rest.
Proof.
  intros Hr (Hwf & H1 & H2) Hl. unfold next_packet. rewrite (proj1 Hr).
  unfold record_bytes in Hr. rewrite <- app_assoc in Hr.
  destruct (read_bytes_in PACKET_HEADER_SIZE r _ _ Hr) as [-> Hr1]; [rewrite length_packet_header; reflexivity|].
  pose proof Hr1 as (_ & _ & _ & _ & Hs & Hp).
  rewrite Hs, header_read by apply length_packet_header. rewrite packet_header_of_bytes by exact Hwf.
  rewrite Hp, (proj2 (Z.ltb_ge _ _)), (proj2 (Z.ltb_ge _ (incl_len h))) by lia. cbn [orb].
  destruct (read_bytes_in (incl_len h) (set_offset (memory_offset r + PACKET_HEADER_SIZE) r) d rest) as [-> Hr2];
    [exact Hr1 | exact Hl|].
  eexists. split; [|exact Hr2]. destruct Hr2 as (_ & _ & _ & -> & _). destruct Hwf. unfold stamp.
  destruct nano; [rewrite from_unix_small | rewrite from_unix_usec_small]; auto.
Qed.

Lemma next_packet_end r rest :
  reading r rest ->
  (forall h d post, rest = record_bytes h d ++ post -> zlen d = incl_len h -> ~ acceptable h) ->
  exists r', next_packet big r = Done (None, r') /\ eof r' = true.
Proof.
  intros Hr Hno. unfold next_packet. rewrite (proj1 Hr).
  destruct (Z.lt_ge_cases (zlen rest) PACKET_HEADER_SIZE) as [Hs|Hs].
  { rewrite (read_bytes_short _ r rest) by assumption. eauto. }
  unfold PACKET_HEADER_SIZE in Hs.
  destruct (packet_header_image order (take 16 rest)) as [Hwf Hb]; [rewrite length_take; lia|].
  set (h := packet_header_of order (take 16 rest)) in *.
  assert (Hrest : rest = packet_header_bytes order h ++ drop 16 rest) by (rewrite Hb, take_drop; reflexivity).
  rewrite Hrest in Hr.
  destruct (read_bytes_in PACKET_HEADER_SIZE r _ _ Hr) as [-> Hr1]; [rewrite length_packet_header; reflexivity|].
  pose proof Hr1 as (_ & _ & _ & _ & Hsw & Hp).
  rewrite Hsw, header_read by apply length_packet_header. rewrite packet_header_of_bytes by exact Hwf. rewrite Hp.
  destruct (_ || _) eqn:E; [eauto|]. bool_to_prop. destruct (wf_incl _ Hwf) as [Hpos _].
  rewrite (read_bytes_short _ _ (drop 16 rest)); [eauto | exact Hr1|].
  destruct (Z.lt_ge_cases (zlen (drop 16 rest)) (incl_len h)) as [?|Hge]; [assumption|]. exfalso.
  apply (Hno h (take (Z.to_nat (incl_len h)) (drop 16 rest)) (drop (Z.to_nat (incl_len h)) (drop 16 rest))).
  - unfold record_bytes. rewrite <- app_assoc, take_drop. exact Hrest.
  - rewrite length_take. lia.
  - split; auto.
Qed.

Lemma read_loop_records rest ps :
  records rest ps -> forall fuel r, reading r rest -> (length rest < fuel)%nat ->
  exists r', read_loop fuel big r = Done (ps, r') /\ eof r' = true.
Proof.
  induction 1 as [rest Hno|h d rest ps Ha Hl _ IH]; intros fuel r Hr Hf; (destruct fuel as [|fuel]; [lia|]); cbn [read_loop].
  - destruct (next_packet_end r rest Hr Hno) as (r' & -> & He). rewrite bind_Done. eauto.
  - destruct (next_packet_record r h d rest Hr Ha Hl) as (r1 & -> & Hr1). rewrite bind_Done.
    destruct (IH fuel r1 Hr1) as (r' & -> & He);
      [unfold record_bytes in Hf; rewrite !length_app, length_packet_header in Hf; lia|].
    rewrite bind_Done. eauto.
Qed.
End format.

(** ** The file header *)

Lemma file_header_image big d :
  length d = 24%nat -> wf_file_header (file_header_of big d) /\ file_header_bytes big (file_header_of big d) = d.
Proof.
  intros Hl. destruct_list d Hl. unfold file_header_of, file_header_bytes.
  cbn [drop magic_number version_major version_minor thiszone sigfigs fh_snaplen network].
  assert (Hx : forall b0 b1 b2 b3 l, load32 big (b0 :: b1 :: b2 :: b3 :: l) = load32 big [b0; b1; b2; b3])
    by (intros; unfold load32; destruct big; reflexivity).
  assert (Hy : forall b0 b1 l, load16 big (b0 :: b1 :: l) = load16 big [b0; b1])
    by (intros; unfold load16; destruct big; reflexivity).
  rewrite !(Hx _ _ _ _ (_ :: _)), !(Hy _ _ (_ :: _)).
  pose proof (store32_inv big [b; b0; b1; b2] eq_refl) as [F1 S1].
  pose proof (store16_inv big [b3; b4] eq_refl) as [F2 S2].
  pose proof (store16_inv big [b5; b6] eq_refl) as [F3 S3].
  pose proof (store32_inv big [b7; b8; b9; b10] eq_refl) as [F4 S4].
  pose proof (store32_inv big [b11; b12; b13; b14] eq_refl) as [F5 S5].
  pose proof (store32_inv big [b15; b16; b17; b18] eq_refl) as [F6 S6].
  pose proof (store32_inv big [b19; b20; b21; b22] eq_refl) as [F7 S7].
  split; [split; cbn; assumption|]. rewrite S1, S2, S3, S4, S5, S6, S7. reflexivity.
Qed.

(** What the reader makes of a header in the order of the file. *)
Lemma file_header_read big order d :
  length d = 24%nat ->
  let h := file_header_of big d in
  let h' := if xorb big order then swap_file_header h else h in
  let h0 := file_header_of order d in
  magic_number h = (if xorb big order then swap32 (magic_number h0) else magic_number h0) /\
  version_major h' = version_major h0 /\ version_minor h' = version_minor h0 /\
  fh_snaplen h' = fh_snaplen h0 /\ network h' = network h0.
Proof.
  intros Hl. cbv zeta.
  destruct (xorb big order) eqn:E.
  - assert (order = negb big) as -> by (destruct big, order; cbn in *; congruence). destruct_list d Hl.
    unfold swap_file_header, file_header_of.
    cbn [drop magic_number version_major version_minor thiszone sigfigs fh_snaplen network].
    assert (Hx : forall h b0 b1 b2 b3 l, load32 h (b0 :: b1 :: b2 :: b3 :: l) = load32 h [b0; b1; b2; b3])
      by (intros h; intros; unfold load32; destruct h; reflexivity).
    assert (Hy : forall h b0 b1 l, load16 h (b0 :: b1 :: l) = load16 h [b0; b1])
      by (intros h; intros; unfold load16; destruct h; reflexivity).
    rewrite !(Hx _ _ _ _ _ (_ :: _)), !(Hy _ _ _ (_ :: _)), !swap_load32, !swap_load16 by reflexivity.
    rewrite negb_involutive. auto.
  - assert (order = big) as -> by (destruct big, order; cbn in *; congruence). auto.
Qed.

Definition magic (nano : bool) : Z := if nano then PCAP_MAGIC_NSEC_NATIVE else PCAP_MAGIC_NATIVE.

Lemma swap32_involutive v : fits 32 v -> swap32 (swap32 v) = v.
Proof.
  intros Hv. pose proof (load_store32 true v [] Hv) as H. rewrite app_nil_r in H.
  assert (Hl : length (store32 true v) = 4%nat) by reflexivity.
  rewrite <- H at 1. rewrite swap_load32 by exact Hl. cbn [negb].
  change (load32 false) with (load32 (negb true)). rewrite <- H at 2. rewrite <- (swap_load32 true) by exact Hl.
  assert (H' : forall w, fits 32 w -> exists b0 b1 b2 b3, w = be32 b0 b1 b2 b3).
  { intros w Hw. pose proof (read_write_be32 w [] Hw) as Hr. rewrite app_nil_r in Hr. unfold write_be32 in Hr.
    rewrite read_be32_cons in Hr. injection Hr as <-. eauto. }
  rewrite H. destruct (H' v Hv) as (b0 & b1 & b2 & b3 & ->). rewrite !swap32_bytes. reflexivity.
Qed.

Lemma magic_kind_spec m swapped nano :
  fits 32 m -> magic_kind m = Some (swapped, nano) <-> m = if swapped then swap32 (magic nano) else magic nano.
Proof.
  intros _. unfold magic_kind. split.
  - intros H. repeat case_in H; try discriminate; bool_to_prop; injection H as <- <-; subst; reflexivity.
  - intros ->. destruct swapped, nano; reflexivity.
Qed.

Definition opened (d : list byte) (big order nano : bool) (h : PcapFileHeader) : PcapReader :=
  mkReader d 24 false (network h) (fh_snaplen h) nano (xorb big order).

(** A PCAP file: a header in one of the byte orders, and what follows it. *)
Definition pcap_file (d : list byte) (order nano : bool) (h : PcapFileHeader) (body : list byte) : Prop :=
  d = file_header_bytes order h ++ body /\ wf_file_header h /\ magic_number h = magic nano /\
  version_major h = 2 /\ version_minor h = 4.

Lemma magic_fits nano : fits 32 (magic nano).
Proof. destruct nano; split; (reflexivity || discriminate). Qed.

Lemma from_memory_opens big order nano h body d :
  pcap_file d order nano h body -> from_memory big d = Done (opened d big order nano h).
Proof.
  intros (-> & Hwf & Hm & Hv1 & Hv2). unfold from_memory, read_header, read_bytes.
  cbn [memory_data memory_offset]. rewrite (proj2 (Z.ltb_ge _ _)) by (rewrite length_app, length_file_header; unfold FILE_HEADER_SIZE; lia).
  change (drop (Z.to_nat 0) ?l) with l.
  rewrite take_app_length' by (rewrite length_file_header; reflexivity).
  pose proof (file_header_read big order _ (length_file_header order h)) as H. cbv zeta in H.
  rewrite (file_header_of_bytes order h Hwf) in H. destruct H as (H1 & H2 & H3 & H4 & H5).
  set (fh := file_header_of big (file_header_bytes order h)) in *. clearbody fh.
  assert (Hk : magic_kind (magic_number fh) = Some (xorb big order, nano)).
  { rewrite H1, Hm. apply magic_kind_spec; [|reflexivity].
    destruct (xorb big order); [|apply magic_fits]. destruct nano; split; (reflexivity || discriminate). }
  rewrite Hk, H2, H3, H4, H5, Hv1, Hv2. reflexivity.
Qed.

Lemma from_memory_inv big d r :
  from_memory big d = Done r ->
  exists order nano h body, pcap_file d order nano h body /\ r = opened d big order nano h.
Proof.
  unfold from_memory, read_header, read_bytes. cbn [memory_data memory_offset].
  destruct (zlen d <? 0 + FILE_HEADER_SIZE) eqn:El; [discriminate|]. bool_to_prop. unfold FILE_HEADER_SIZE in *.
  change (drop (Z.to_nat 0) ?l) with l. change (Z.to_nat 24) with 24%nat.
  assert (Hl : length (take 24 d) = 24%nat) by (rewrite length_take; lia).
  pose proof (take_drop 24 d) as Hd. set (b := take 24 d) in *. clearbody b. intros H.
  destruct (magic_kind (magic_number (file_header_of big b))) as [[swapped nano]|] eqn:Ek; [|discriminate].
  set (order := xorb big swapped). assert (Hs : swapped = xorb big order) by (unfold order; destruct big, swapped; reflexivity).
  pose proof (file_header_read big order b Hl) as Hr. cbv zeta in Hr. rewrite <- Hs in Hr.
  destruct (file_header_image order b Hl) as [Hwf Hb]. destruct (file_header_image big b Hl) as [Hwf' _].
  set (h0 := file_header_of order b) in *. set (fh := file_header_of big b) in *. destruct Hr as (H1 & H2 & H3 & H4 & H5).
  rewrite H2, H3, H4, H5 in H. destruct (_ || _) eqn:Ev; [discriminate|]. bool_to_prop. apply Done_inj in H as <-.
  exists order, nano, h0, (drop 24 d). unfold pcap_file. rewrite Hb. split; [|unfold opened; rewrite Hs; reflexivity].
  split_and!; [symmetry; exact Hd | exact Hwf | | assumption..].
  apply magic_kind_spec in Ek; [|apply Hwf']. rewrite H1 in Ek. destruct swapped; [|exact Ek].
  rewrite <- (swap32_involutive (magic_number h0)) by apply Hwf. rewrite Ek. apply swap32_involutive, magic_fits.
Qed.

(** Reads of other bytes report an error: they are not undefined. *)
Lemma from_memory_defined big d : defined (from_memory big d).
Proof.
  unfold from_memory, read_header. destruct (read_bytes _ _) as [[b r]|]; [|apply defined_Fail].
  destruct (magic_kind _) as [[s n]|]; [|apply defined_Fail]. destruct (_ || _); [apply defined_Fail | apply defined_Done].
Qed.

Lemma opened_reading d big order nano h body :
  pcap_file d order nano h body -> reading order nano (fh_snaplen h) big (opened d big order nano h) body.
Proof.
  intros (-> & _). unfold reading, opened. cbn [eof memory_offset memory_data is_nanosecond is_swapped snaplen].
  split_and!; try reflexivity; [lia | rewrite length_app, length_file_header; lia|].
  apply drop_app_length'. rewrite length_file_header. reflexivity.
Qed.

(** [C23] The reader reads exactly the PCAP files, in any combination of the byte orders of
    the file and of the host.  It opens the bytes that are a header, with one of the
    two magic numbers and version 2.4, followed by anything; it takes over link
    type, snap length, resolution and byte order; and [read_all] returns the records
    that the rest begins with, as long as each fits the snap length, ten frames and the
    file, with its data and its time, and then is at its end.  Nothing is read out of
    bounds, and [read_all] terminates. *)
Theorem pcap_reader_exact (big : bool) (d : list byte) (r : PcapReader) (ps : list Packet) :
  defined (from_memory big d) /\
  ((from_memory big d = Done r /\ exists r', read_all big r = Done (ps, r') /\ eof r' = true) <->
   exists order nano h body, pcap_file d order nano h body /\ r = opened d big order nano h /\
     records order nano (fh_snaplen h) body ps).
Proof.
  split; [apply from_memory_defined|].
  assert (Hloop : forall order nano h body ps', pcap_file d order nano h body -> records order nano (fh_snaplen h) body ps' ->
            exists r', read_all big (opened d big order nano h) = Done (ps', r') /\ eof r' = true).
  { intros order nano h body ps' Hf Hps. unfold read_all.
    apply (read_loop_records order nano (fh_snaplen h) big body ps' Hps); [apply (opened_reading d big order nano h body Hf)|].
    destruct Hf as (-> & _). cbn [opened memory_data]. rewrite length_app. lia. }
  split.
  - intros (Hr & r' & Ha & He). destruct (from_memory_inv big d r Hr) as (order & nano & h & body & Hf & ->).
    exists order, nano, h, body. split_and!; [exact Hf | reflexivity|].
    destruct (records_exist order nano (fh_snaplen h) body) as [ps' Hps].
    destruct (Hloop _ _ _ _ _ Hf Hps) as (r2 & Ha2 & _). rewrite Ha2 in Ha. apply Done_pair_inj in Ha as [-> _]. exact Hps.
  - intros (order & nano & h & body & Hf & -> & Hps). split; [apply (from_memory_opens big order nano h body d Hf)|].
    exact (Hloop _ _ _ _ _ Hf Hps).
Qed.

(** ** Round trip *)

(** What a file keeps of a packet. *)
Definition kept (opts : PcapWriterOptions) (view : Packet) : Packet :=
  mkPacket (take (Z.to_nat (w_snaplen opts)) (pk_data view))
    (if nanosecond_precision opts then pk_timestamp view else pk_timestamp view - pk_timestamp view mod 1000).

(** Times that the 32 bits of the seconds hold. *)
Definition in_range (view : Packet) : Prop := 0 <= pk_timestamp view < 2 ^ 32 * SECOND.
(** What is kept is not longer than the reader accepts. *)
Definition short_enough (opts : PcapWriterOptions) (view : Packet) : Prop :=
  Z.min (zlen (pk_data view)) (w_snaplen opts) <= MAX_FRAME_SIZE * 10.

Definition header_of_view (opts : PcapWriterOptions) (view : Packet) : PcapPacketHeader :=
  let ts := pk_timestamp view in
  mkPacketHeader (seconds ts) (if nanosecond_precision opts then nanoseconds ts else microseconds ts)
    (Z.min (zlen (pk_data view)) (w_snaplen opts)) (uint 32 (zlen (pk_data view))).

Lemma header_of_view_ok opts view :
  in_range view -> fits 32 (w_snaplen opts) ->
  wf_packet_header (header_of_view opts view) /\
  stamp (nanosecond_precision opts) (header_of_view opts view) = pk_timestamp (kept opts view) /\
  incl_len (header_of_view opts view) = zlen (pk_data (kept opts view)).
Proof.
  intros [H0 Ht] Hs. destruct (timestamp_parts (pk_timestamp view) H0) as (Hn & Hsum & Hm & Hsec).
  unfold fits in Hs. unfold header_of_view, kept, stamp. cbn [ts_sec ts_usec incl_len orig_len pk_data pk_timestamp].
  set (t := pk_timestamp view) in *. rewrite Hm. clearbody t. unfold SECOND in *. clear Hm.
  set (s := seconds t) in *. set (n := nanoseconds t) in *. clearbody s n.
  split_and!.
  - split; cbn; [unfold fits; lia | destruct (nanosecond_precision opts); unfold fits; lia | unfold fits; lia | apply uint_fits; lia].
  - destruct (nanosecond_precision opts); [lia|]. subst t.
    replace ((s * 1000000000 + n) mod 1000) with (n mod 1000) by lia. lia.
  - rewrite length_take. lia.
Qed.

Lemma write_packet_file big view w :
  in_range view -> fits 32 (w_snaplen (w_options w)) ->
  let opts := w_options w in
  let w' := write_packet big view w in
  file w' = file w ++ record_bytes big (header_of_view opts view) (pk_data (kept opts view)) /\
  w_options w' = opts /\ packet_count w' = packet_count w + 1 /\
  bytes_written w' = bytes_written w + zlen (record_bytes big (header_of_view opts view) (pk_data (kept opts view))).
Proof.
  intros Hr Hs. cbv zeta. destruct (header_of_view_ok (w_options w) view Hr Hs) as ([F1 F2 F3 F4] & _ & Hl).
  unfold write_packet. cbv zeta. cbn [file w_options packet_count bytes_written].
  unfold header_of_view in F1, F2, F3. cbn [ts_sec ts_usec incl_len] in F1, F2, F3.
  rewrite !uint_small by assumption. cbn [header_of_view incl_len] in Hl.
  assert (Htake : take (Z.to_nat (Z.min (zlen (pk_data view)) (w_snaplen (w_options w)))) (pk_data view) =
            pk_data (kept (w_options w) view)).
  { cbn [kept pk_data]. unfold fits in Hs. destruct (Z.le_ge_cases (zlen (pk_data view)) (w_snaplen (w_options w))).
    - rewrite Z.min_l by assumption. rewrite !take_ge by lia. reflexivity.
    - rewrite Z.min_r by assumption. reflexivity. }
  rewrite Htake. split_and!; try reflexivity. unfold record_bytes. rewrite length_app, length_packet_header.
  unfold PACKET_HEADER_SIZE. lia.
Qed.

Fixpoint all_records (big : bool) (opts : PcapWriterOptions) (views : list Packet) : list byte :=
  match views with
  | [] => []
  | view :: views' => record_bytes big (header_of_view opts view) (pk_data (kept opts view)) ++ all_records big opts views'
  end.

Lemma write_all_file big views w :
  Forall in_range views -> fits 32 (w_snaplen (w_options w)) ->
  let opts := w_options w in
  let w' := write_all big views w in
  file w' = file w ++ all_records big opts views /\ packet_count w' = packet_count w + zlen views /\
  bytes_written w' = bytes_written w + zlen (all_records big opts views).
Proof.
  intros Hv. revert w. induction Hv as [|view views Hr _ IH]; intros w Hs; cbv zeta; cbn [write_all all_records].
  - rewrite app_nil_r. cbn. split_and!; [reflexivity | lia | lia].
  - destruct (write_packet_file big view w Hr Hs) as (H1 & H2 & H3 & H4). cbv zeta in H1, H4.
    specialize (IH (write_packet big view w)). cbv zeta in IH. rewrite H2 in IH. destruct (IH Hs) as (I1 & I2 & I3).
    rewrite I1, I2, I3, H1, H3, H4. rewrite length_app. cbn [length].
    split_and!; [rewrite <- app_assoc; reflexivity | lia | lia].
Qed.

Lemma records_of_views big opts views rest ps :
  Forall in_range views -> Forall (short_enough opts) views -> fits 32 (w_snaplen opts) ->
  records big (nanosecond_precision opts) (w_snaplen opts) rest ps ->
  records big (nanosecond_precision opts) (w_snaplen opts) (all_records big opts views ++ rest) (map (kept opts) views ++ ps).
Proof.
  intros Hv He Hs Hps. induction Hv as [|view views Hr _ IH]; cbn [all_records map app]; [exact Hps|].
  apply Forall_cons in He as [He1 He]. destruct (header_of_view_ok opts view Hr Hs) as (Hwf & Hst & Hl).
  rewrite <- app_assoc.
  replace (kept opts view) with (mkPacket (pk_data (kept opts view)) (stamp (nanosecond_precision opts) (header_of_view opts view))) at 2
    by (rewrite Hst; destruct (kept opts view); reflexivity).
  apply records_more; [|symmetry; exact Hl | exact (IH He)].
  split; [exact Hwf|]. unfold short_enough in He1. cbn [header_of_view incl_len]. lia.
Qed.

Lemma written_records big opts views :
  Forall in_range views -> Forall (short_enough opts) views -> fits 32 (w_snaplen opts) ->
  records big (nanosecond_precision opts) (w_snaplen opts) (all_records big opts views) (map (kept opts) views).
Proof.
  intros Hv He Hs. rewrite <- (app_nil_r (all_records _ _ _)), <- (app_nil_r (map _ _)).
  apply records_of_views; try assumption. constructor. intros h0 d post H _. apply (f_equal length) in H.
  unfold record_bytes in H. rewrite !length_app, length_packet_header in H. cbn in H. lia.
Qed.

Lemma created_file big opts views :
  fits 32 (w_snaplen opts) -> fits 32 (w_link_type opts) -> Forall in_range views ->
  exists h, pcap_file (file (write_all big views (create big opts))) big (nanosecond_precision opts) h
              (all_records big opts views) /\ network h = w_link_type opts /\ fh_snaplen h = w_snaplen opts.
Proof.
  intros Hs Hl Hv. destruct (write_all_file big views (create big opts) Hv Hs) as (Hf & _).
  cbv zeta in Hf. rewrite Hf. unfold create. cbn [file w_options].
  set (h := mkFileHeader _ _ _ _ _ _ _). exists h. unfold pcap_file. split_and!; try reflexivity.
  split; unfold h; cbn; try assumption; try exact (magic_fits (nanosecond_precision opts)); split; lia.
Qed.

(** What the writer wrote is what the reader reads. *)
Lemma written_file_read (writer_big reader_big : bool) (opts : PcapWriterOptions) (views : list Packet) :
  fits 32 (w_snaplen opts) -> fits 32 (w_link_type opts) -> Forall in_range views ->
  Forall (short_enough opts) views ->
  let w := write_all writer_big views (create writer_big opts) in
  exists r r', from_memory reader_big (file w) = Done r /\ link_type r = w_link_type opts /\
    snaplen r = w_snaplen opts /\ is_nanosecond r = nanosecond_precision opts /\
    is_swapped r = xorb reader_big writer_big /\
    read_all reader_big r = Done (map (kept opts) views, r') /\ eof r' = true.
Proof.
  intros Hs Hl Hv He. cbv zeta. destruct (created_file writer_big opts views Hs Hl Hv) as (h & Hf & Hnet & Hsnap).
  set (w := write_all _ _ _) in *.
  assert (Hps : records writer_big (nanosecond_precision opts) (fh_snaplen h) (all_records writer_big opts views)
                  (map (kept opts) views)).
  { rewrite Hsnap. apply written_records; assumption. }
  destruct (read_loop_records _ _ _ reader_big _ _ Hps (S (length (file w))) (opened (file w) reader_big writer_big (nanosecond_precision opts) h))
    as (r' & Ha & He'); [apply (opened_reading _ _ _ _ _ _ Hf) | destruct Hf as (-> & _); rewrite length_app; lia|].
  exists (opened (file w) reader_big writer_big (nanosecond_precision opts) h), r'.
  split_and!; try reflexivity; try assumption; try (apply (from_memory_opens _ _ _ _ _ _ Hf)).
Qed.

(** A capture survives its file.  Packets from 1970 to 2106 of any length are written to
    a file on a host of either byte order and read on a host of either byte order;
    as long as none is longer than ten frames after the cut to the snap length, the
    reader returns them all, in order, cut to the snap length, with their times to
    the nanosecond, or else to the microsecond below, and the link type and the snap
    length of the writer, whose counters give the number of packets and the size. *)
Theorem pcap_round_trip (writer_big reader_big : bool) (opts : PcapWriterOptions) (views : list Packet) :
  fits 32 (w_snaplen opts) -> fits 32 (w_link_type opts) -> Forall in_range views ->
  Forall (short_enough opts) views ->
  let w := write_all writer_big views (create writer_big opts) in
  exists r r', from_memory reader_big (file w) = Done r /\ link_type r = w_link_type opts /\
    snaplen r = w_snaplen opts /\ is_nanosecond r = nanosecond_precision opts /\
    is_swapped r = xorb reader_big writer_big /\
    read_all reader_big r = Done (map (kept opts) views, r') /\ eof r' = true /\
    packet_count w = zlen views /\ FILE_HEADER_SIZE + bytes_written w = zlen (file w).
Proof.
  intros Hs Hl Hv He. cbv zeta.
  destruct (written_file_read writer_big reader_big opts views Hs Hl Hv He) as (r & r' & H). exists r, r'.
  destruct (write_all_file writer_big views (create writer_big opts) Hv Hs) as (Hfile & Hc & Hb). cbv zeta in Hfile, Hc, Hb.
  rewrite Hb, Hc, Hfile. unfold create, FILE_HEADER_SIZE. cbn [file w_options bytes_written packet_count].
  rewrite length_app, length_file_header. rewrite Hfile in H. unfold create in H. cbn [file w_options] in H.
  split_and!; try apply H; lia.
Qed.

Definition example_views : list Packet := [mkPacket [x01; x02; x03] 1700000000123456789; mkPacket [] 5].

Lemma pcap_round_trip_witness :
  let opts := mkOptions 1 2 false in
  let w := write_all false example_views (create false opts) in
  exists r r', from_memory true (file w) = Done r /\ link_type r = 1 /\ snaplen r = 2 /\ is_nanosecond r = false /\
    is_swapped r = true /\
    read_all true r = Done ([mkPacket [x01; x02] 1700000000123456000; mkPacket [] 0], r') /\ eof r' = true /\
    packet_count w = 2 /\ 24 + bytes_written w = zlen (file w).
Proof.
  apply (pcap_round_trip false true (mkOptions 1 2 false) example_views);
    repeat constructor; cbn; try lia; try (unfold in_range, SECOND; cbn; lia); unfold short_enough, MAX_FRAME_SIZE; cbn; lia.
Defined.

(** A packet that is longer than ten frames, which the writer writes when the snap
    length allows it, ends the reading of its file: neither it nor any packet behind it
    is returned. *)
Theorem pcap_long_packet_ends (writer_big reader_big : bool) (opts : PcapWriterOptions) (before after : list Packet)
    (long : Packet) :
  fits 32 (w_snaplen opts) -> fits 32 (w_link_type opts) -> Forall in_range (before ++ long :: after) ->
  Forall (short_enough opts) before -> ~ short_enough opts long ->
  let w := write_all writer_big (before ++ long :: after) (create writer_big opts) in
  exists r r', from_memory reader_big (file w) = Done r /\
    read_all reader_big r = Done (map (kept opts) before, r') /\ eof r' = true /\
    packet_count w = zlen before + 1 + zlen after.
Proof.
  intros Hs Hl Hv He Hlong. cbv zeta.
  destruct (created_file writer_big opts _ Hs Hl Hv) as (h & Hf & Hnet & Hsnap).
  destruct (write_all_file writer_big _ (create writer_big opts) Hv Hs) as (_ & Hc & _). cbv zeta in Hc.
  set (w := write_all _ _ _) in *. apply Forall_app in Hv as [Hv1 Hv2]. apply Forall_cons in Hv2 as [Hvl _].
  assert (Hall : all_records writer_big opts (before ++ long :: after) =
            all_records writer_big opts before ++ all_records writer_big opts (long :: after)).
  { clear. induction before as [|v l IH]; [reflexivity|]. cbn [app all_records]. rewrite IH, <- app_assoc. reflexivity. }
  assert (Hps : records writer_big (nanosecond_precision opts) (fh_snaplen h)
                  (all_records writer_big opts (before ++ long :: after)) (map (kept opts) before)).
  { rewrite Hall, Hsnap, <- (app_nil_r (map _ _)). apply records_of_views; try assumption. constructor.
    intros h0 d post H Hd (Hw & H1 & H2). apply Hlong.
    destruct (header_of_view_ok opts long Hvl Hs) as (Hwf & _).
    assert (h0 = header_of_view opts long) as ->; [|exact H2].
    cbn [all_records] in H. unfold record_bytes in H. rewrite <- !app_assoc in H.
    apply (f_equal (fun l => packet_header_of writer_big (take 16 l))) in H.
    rewrite !take_app_length' in H by (rewrite length_packet_header; reflexivity).
    rewrite !packet_header_of_bytes in H by assumption. symmetry. exact H. }
  destruct (read_loop_records _ _ _ reader_big _ _ Hps (S (length (file w))) (opened (file w) reader_big writer_big (nanosecond_precision opts) h))
    as (r' & Ha & He'); [apply (opened_reading _ _ _ _ _ _ Hf) | destruct Hf as (-> & _); rewrite length_app; lia|].
  exists (opened (file w) reader_big writer_big (nanosecond_precision opts) h), r'.
  split_and!; [apply (from_memory_opens _ _ _ _ _ _ Hf) | exact Ha | exact He'|].
  rewrite Hc. cbn [create packet_count]. rewrite length_app. cbn [length]. lia.
Qed.
