(* ===== verification/Pcapng.v ===== *)
(** * PCAPNG files (src/pcap/pcapng_writer.cpp, include/wadjet/pcap/pcapng_file.hpp)

    The writer of sections, interfaces, packets and statistics.  As in Pcap.v, integers
    are in the byte order of the host, [big], and a writer is the bytes it has written;
    it exists only with its file open, and the stream accepts every write.  The name of
    the operating system, which [uname] gives, is the argument [os_info], and
    [Timestamp::now()] is a [now] argument. *)

From Stdlib Require Import ZArith Lia.
From Stdlib Require Import Strings.Byte.
From stdpp Require Import base numbers list strings.
From S2P Require Import Prelude ByteOrder Timestamp.
From S2P Require Import Pcap.

(** ** Formats *)

Definition SectionHeader : Z := 0x0A0D0D0A.
Definition InterfaceDescription : Z := 0x00000001.
Definition EnhancedPacket : Z := 0x00000006.
Definition InterfaceStatistics : Z := 0x00000005.
Definition PCAPNG_BYTE_ORDER_MAGIC : Z := 0x1A2B3C4D.

Definition Comment : Z := 1.
Definition SHB_Hardware : Z := 2.
Definition SHB_OS : Z := 3.
Definition SHB_UserAppl : Z := 4.
Definition IDB_Name : Z := 2.
Definition IDB_Description : Z := 3.
Definition IDB_Speed : Z := 8.
Definition IDB_TSResol : Z := 9.
Definition ISB_IFRecv : Z := 4.
Definition ISB_IFDrop : Z := 5.

Definition PCAPNG_TSRESOL_NANO : Z := 9.
Definition PCAPNG_TSRESOL_MICRO : Z := 6.

Definition pcapng_padding (len : Z) : Z := Z.land (4 - Z.land len 3) 3.

Record InterfaceInfo := mkInterface {
  if_name : string;
  description : string;
  if_link_type : Z;
  snap_len : Z;
  speed : Z;
  use_nanoseconds : bool
}.
Definition InterfaceInfo_default : InterfaceInfo := mkInterface EmptyString EmptyString 1 65535 0 true.

Record PcapngWriterOptions := mkOptions {
  hardware : string;
  os : string;
  user_application : string;
  comment : string;
  o_use_nanoseconds : bool
}.
Definition PcapngWriterOptions_default : PcapngWriterOptions :=
  mkOptions EmptyString EmptyString EmptyString EmptyString true.

Record PcapngWriter := mkWriter {
  file : list byte;
  options : PcapngWriterOptions;
  interfaces : list InterfaceInfo;
  packet_count : Z;
  bytes_written : Z
}.

(** ** Writing *)

(** Options of a block: their types and values. *)
Abbreviation Options := (list (Z * list byte)).

Definition string_to_bytes (s : string) : list byte := String.list_byte_of_string s.

(** [write_u64]. *)
Definition store64 (big : bool) (v : Z) : list byte :=
  let hi := store32 big (uint 32 (Z.shiftr v 32)) in
  let lo := store32 big (uint 32 v) in
  if big then hi ++ lo else lo ++ hi.

Definition write_padded (data : list byte) : list byte :=
  data ++ repeat x00 (Z.to_nat (pcapng_padding (uint 32 (zlen data)))).

Fixpoint write_options (big : bool) (opts : Options) : list byte :=
  match opts with
  | [] => store16 big 0 ++ store16 big 0
  | (type, value) :: opts' =>
      store16 big type ++ store16 big (uint 16 (zlen value)) ++
      (match value with [] => [] | _ => write_padded value end) ++ write_options big opts'
  end.

(** The loops that calculate the size of the options. *)
Fixpoint options_size (opts : Options) : Z :=
  match opts with
  | [] => 4
  | (_, value) :: opts' => 4 + zlen value + pcapng_padding (uint 32 (zlen value)) + options_size opts'
  end.

(** [if (!s.empty()) options.emplace_back(type, string_to_bytes(s))]. *)
Definition string_option (type : Z) (s : string) : Options :=
  match s with EmptyString => [] | _ => [(type, string_to_bytes s)] end.

Definition append (bytes : list byte) (block_len : Z) (w : PcapngWriter) : PcapngWriter :=
  mkWriter (file w ++ bytes) (options w) (interfaces w) (packet_count w) (bytes_written w + block_len).

Definition section_options (o : PcapngWriterOptions) : Options :=
  string_option Comment (comment o) ++ string_option SHB_Hardware (hardware o) ++ string_option SHB_OS (os o) ++
  string_option SHB_UserAppl (user_application o).

Definition write_section_header (big : bool) (w : PcapngWriter) : PcapngWriter :=
  let opts := section_options (options w) in
  let block_len := uint 32 (24 + options_size opts + 4) in
  append (store32 big SectionHeader ++ store32 big block_len ++ store32 big PCAPNG_BYTE_ORDER_MAGIC ++
          store16 big 1 ++ store16 big 0 ++ store64 big (uint 64 (-1)) ++ write_options big opts ++
          store32 big block_len) block_len w.

Definition interface_options (big : bool) (info : InterfaceInfo) : Options :=
  string_option IDB_Name (if_name info) ++ string_option IDB_Description (description info) ++
  (if 0 <? speed info then [(IDB_Speed, store64 big (speed info))] else []) ++
  [(IDB_TSResol, [to_byte (if use_nanoseconds info then PCAPNG_TSRESOL_NANO else PCAPNG_TSRESOL_MICRO)])].

Definition write_interface_block (big : bool) (info : InterfaceInfo) (w : PcapngWriter) : PcapngWriter :=
  let opts := interface_options big info in
  let block_len := uint 32 (16 + options_size opts + 4) in
  append (store32 big InterfaceDescription ++ store32 big block_len ++ store16 big (uint 16 (if_link_type info)) ++
          store16 big 0 ++ store32 big (snap_len info) ++ write_options big opts ++ store32 big block_len) block_len w.

Definition create (big : bool) (os_info : string) (o : PcapngWriterOptions) : PcapngWriter :=
  let o := mkOptions (hardware o) (match os o with EmptyString => os_info | _ => os o end)
             (match user_application o with EmptyString => "Wadjet-Link" | _ => user_application o end)
             (comment o) (o_use_nanoseconds o) in
  write_section_header big (mkWriter [] o [] 0 0).

Definition add_interface (big : bool) (info : InterfaceInfo) (w : PcapngWriter) : Z * PcapngWriter :=
  (uint 32 (zlen (interfaces w)),
   write_interface_block big info
     (mkWriter (file w) (options w) (interfaces w ++ [info]) (packet_count w) (bytes_written w))).

Definition default_interface (o : PcapngWriterOptions) : InterfaceInfo :=
  mkInterface "default" EmptyString 1 65535 0 (o_use_nanoseconds o).

Definition ensure_interface (big : bool) (w : PcapngWriter) : PcapngWriter :=
  match interfaces w with
  | [] => (add_interface big (default_interface (options w)) w).2
  | _ => w
  end.

Definition comment_options (c : option string) : Options :=
  match c with Some s => string_option Comment s | None => [] end.

(** The block of a packet on the interface [iface]. *)
Definition packet_block (big : bool) (view : Packet) (interface_id : Z) (iface : InterfaceInfo) (c : option string)
    (w : PcapngWriter) : PcapngWriter :=
  let data := pk_data view in
  let timestamp := uint 64 (if use_nanoseconds iface then total_nanoseconds (pk_timestamp view)
                            else total_microseconds (pk_timestamp view)) in
  let captured_len := uint 32 (Z.min (zlen data) (snap_len iface)) in
  let original_len := uint 32 (zlen data) in
  let data_padding := pcapng_padding captured_len in
  let opts := comment_options c in
  let block_len := uint 32 (28 + captured_len + data_padding + options_size opts + 4) in
  let w := append (store32 big EnhancedPacket ++ store32 big block_len ++ store32 big interface_id ++
                   store32 big (uint 32 (Z.shiftr timestamp 32)) ++ store32 big (Z.land timestamp 0xFFFFFFFF) ++
                   store32 big captured_len ++ store32 big original_len ++
                   take (Z.to_nat captured_len) data ++ repeat x00 (Z.to_nat data_padding) ++
                   write_options big opts ++ store32 big block_len) block_len w in
  mkWriter (file w) (options w) (interfaces w) (packet_count w + 1) (bytes_written w).

(** The result is the error, if any; the default interface is written even then. *)
Definition write_enhanced_packet_block (big : bool) (view : Packet) (interface_id : Z) (c : option string)
    (w : PcapngWriter) : option Error * PcapngWriter :=
  let w := ensure_interface big w in
  match interfaces w !! Z.to_nat interface_id with
  | None => (Some (mkError (-1) "Invalid interface ID"), w)
  | Some iface => (None, packet_block big view interface_id iface c w)
  end.

(** [now.total_microseconds()] or nanoseconds, by the option or the interface, whose index
    is not checked. *)
Definition statistics_time (now : Timestamp) (interface_id : Z) (w : PcapngWriter) : res Empty_set Z :=
  match interfaces w with
  | [] => Done (uint 64 (if o_use_nanoseconds (options w) then total_nanoseconds now else total_microseconds now))
  | _ =>
      match interfaces w !! Z.to_nat interface_id with
      | None => Undef
      | Some iface =>
          Done (uint 64 (if use_nanoseconds iface then total_nanoseconds now else total_microseconds now))
      end
  end.

Definition statistics_options (big : bool) (packets_received packets_dropped : Z) : Options :=
  [(ISB_IFRecv, store64 big packets_received); (ISB_IFDrop, store64 big packets_dropped)].

Definition write_statistics (big : bool) (now : Timestamp) (interface_id packets_received packets_dropped : Z)
    (w : PcapngWriter) : res Empty_set PcapngWriter :=
  let opts := statistics_options big packets_received packets_dropped in
  let block_len := uint 32 (20 + options_size opts + 4) in
  ts ← statistics_time now interface_id w;
  Done (append (store32 big InterfaceStatistics ++ store32 big block_len ++ store32 big interface_id ++
                store32 big (uint 32 (Z.shiftr ts 32)) ++ store32 big (Z.land ts 0xFFFFFFFF) ++
                write_options big opts ++ store32 big block_len) block_len w).

Inductive WriterOp :=
| AddInterface (info : InterfaceInfo)
| WritePacket (view : Packet) (interface_id : Z) (c : option string)
| WriteStatistics (now : Timestamp) (interface_id packets_received packets_dropped : Z).

Definition step (big : bool) (op : WriterOp) (w : PcapngWriter) : res Empty_set PcapngWriter :=
  match op with
  | AddInterface info => Done (add_interface big info w).2
  | WritePacket view id c => Done (write_enhanced_packet_block big view id c w).2
  | WriteStatistics now id received dropped => write_statistics big now id received dropped w
  end.
Fixpoint run (big : bool) (ops : list WriterOp) (w : PcapngWriter) : res Empty_set PcapngWriter :=
  match ops with
  | [] => Done w
  | op :: ops' => w' ← step big op w; run big ops' w'
  end.

(** ** A reader of the format

    The blocks of a file, as the PCAPNG draft describes them: a type, a length that is a
    multiple of four and is repeated at the end, a body of fixed fields and options. *)

Inductive Block :=
| SectionBlock (opts : Options)
| InterfaceBlock (link snap : Z) (opts : Options)
| PacketBlock (interface_id timestamp original_len : Z) (data : list byte) (opts : Options)
| StatisticsBlock (interface_id timestamp : Z) (opts : Options).

Section reader.
Context (big : bool).

Definition load64 (d : list byte) : Z :=
  if big then load32 big d * 2 ^ 32 + load32 big (drop 4 d) else load32 big (drop 4 d) * 2 ^ 32 + load32 big d.

(** The size of a value with its padding. *)
Definition padded (len : Z) : Z := (len + 3) / 4 * 4.

(** Options up to the end of the body, where the end-of-options must stand. *)
Fixpoint parse_options (fuel : nat) (d : list byte) : option Options :=
  match fuel with
  | O => None
  | S fuel =>
      if zlen d <? 4 then None
      else
        let type := load16 big d in
        let len := load16 big (drop 2 d) in
        if type =? 0 then (if zlen d =? 4 then Some [] else None)
        else if zlen d <? 4 + padded len then None
        else rest ← parse_options fuel (drop (Z.to_nat (4 + padded len)) d);
             Some ((type, take (Z.to_nat len) (drop 4 d)) :: rest)
  end.
Definition options_at (n : Z) (d : list byte) : option Options :=
  if zlen d <? n then None else parse_options (S (length d)) (drop (Z.to_nat n) d).

Definition parse_body (type : Z) (body : list byte) : option Block :=
  if type =? 0x0A0D0D0A then
    opts ← options_at 16 body;
    if (load32 big body =? 0x1A2B3C4D) && (load16 big (drop 4 body) =? 1) && (load16 big (drop 6 body) =? 0) &&
       (load64 (drop 8 body) =? 2 ^ 64 - 1)
    then Some (SectionBlock opts) else None
  else if type =? 1 then
    opts ← options_at 8 body; Some (InterfaceBlock (load16 big body) (load32 big (drop 4 body)) opts)
  else if type =? 6 then
    let len := load32 big (drop 12 body) in
    opts ← options_at (20 + padded len) body;
    Some (PacketBlock (load32 big body) (load32 big (drop 4 body) * 2 ^ 32 + load32 big (drop 8 body))
            (load32 big (drop 16 body)) (take (Z.to_nat len) (drop 20 body)) opts)
  else if type =? 5 then
    opts ← options_at 12 body;
    Some (StatisticsBlock (load32 big body) (load32 big (drop 4 body) * 2 ^ 32 + load32 big (drop 8 body)) opts)
  else None.

Definition parse_block (d : list byte) : option (Block * list byte) :=
  let len := load32 big (drop 4 d) in
  if (12 <=? len) && (len <=? zlen d) && (len mod 4 =? 0) && (load32 big (drop (Z.to_nat (len - 4)) d) =? len)
  then b ← parse_body (load32 big d) (take (Z.to_nat (len - 12)) (drop 8 d)); Some (b, drop (Z.to_nat len) d)
  else None.

Fixpoint parse_blocks (fuel : nat) (d : list byte) : option (list Block) :=
  match fuel with
  | O => None
  | S fuel =>
      match d with
      | [] => Some []
      | _ => '(b, rest) ← parse_block d; bs ← parse_blocks fuel rest; Some (b :: bs)
      end
  end.
Definition parse_file (d : list byte) : option (list Block) := parse_blocks (S (length d)) d.

(** ** Options *)

Definition wf_option (o : Z * list byte) : Prop := fits 16 o.1 /\ o.1 <> 0 /\ fits 16 (zlen o.2).

Lemma padding_padded len : 0 <= len -> len + pcapng_padding len = padded len.
Proof.
  intros Hl. unfold pcapng_padding, padded. bits_arith. lia.
Qed.

Lemma write_padded_length d : fits 32 (zlen d) -> zlen (write_padded d) = padded (zlen d).
Proof.
  intros Hd. unfold write_padded. rewrite uint_small by exact Hd. rewrite length_app, repeat_length, <- padding_padded by lia.
  unfold pcapng_padding. bits_arith. lia.
Qed.

Lemma fits_16_32 v : fits 16 v -> fits 32 v.
Proof. unfold fits. lia. Qed.

(** An option with its value padded, also an empty one. *)
Lemma write_options_cons type value opts :
  wf_option (type, value) ->
  write_options big ((type, value) :: opts) =
    store16 big type ++ store16 big (zlen value) ++ write_padded value ++ write_options big opts /\
  zlen (write_padded value) = padded (zlen value) /\ zlen value + pcapng_padding (uint 32 (zlen value)) = padded (zlen value).
Proof.
  intros (H1 & H2 & H3). cbn [fst snd] in *. cbn [write_options]. rewrite uint_small by exact H3.
  pose proof (fits_16_32 _ H3) as H32.
  split_and!; [|apply write_padded_length, H32 | rewrite uint_small by exact H32; apply padding_padded; lia].
  destruct value; reflexivity.
Qed.

Lemma write_options_length opts : Forall wf_option opts -> zlen (write_options big opts) = options_size opts.
Proof.
  induction 1 as [|[type value] opts Ho _ IH].
  - cbn. rewrite length_app, !length_store16. reflexivity.
  - destruct (write_options_cons type value opts Ho) as (-> & Hl & Hp). cbn [options_size].
    rewrite !length_app, !length_store16. cbn [snd] in *. lia.
Qed.

Lemma padded_ge n : 0 <= n -> n <= padded n /\ padded n mod 4 = 0.
Proof. unfold padded. intros. lia. Qed.

Lemma options_size_mod opts : Forall wf_option opts -> options_size opts mod 4 = 0 /\ 4 <= options_size opts.
Proof.
  induction 1 as [|[type value] opts Ho _ IH]; [cbn; lia|]. cbn [options_size].
  destruct (write_options_cons type value opts Ho) as (_ & _ & Hp). cbn [snd] in *.
  pose proof (padded_ge (zlen value) ltac:(lia)). lia.
Qed.

Lemma parse_write_options opts fuel :
  Forall wf_option opts -> zlen (write_options big opts) < Z.of_nat fuel * 4 ->
  parse_options fuel (write_options big opts) = Some opts.
Proof.
  intros Ho. revert fuel. induction Ho as [|[type value] opts Ho _ IH]; intros fuel Hf;
    (destruct fuel as [|fuel]; [lia|]).
  - cbn [parse_options write_options]. rewrite length_app, !length_store16.
    rewrite load_store16 by (split; lia). reflexivity.
  - destruct (write_options_cons type value opts Ho) as (Hw & Hl & _). rewrite Hw in Hf |- *.
    destruct Ho as (H1 & H2 & H3). cbn [fst snd] in *.
    cbn [parse_options]. rewrite load_store16 by exact H1.
    rewrite (load16_at big _ 2 (zlen value) (write_padded value ++ write_options big opts)), (proj2 (Z.eqb_neq _ _) H2);
      [|exact H3 | destruct big; reflexivity].
    rewrite !length_app, !length_store16 in *. pose proof (padded_ge (zlen value) ltac:(lia)) as [Hp _].
    rewrite !(proj2 (Z.ltb_ge _ _)) by lia.
    assert (Hd4 : drop 4 (store16 big type ++ store16 big (zlen value) ++ write_padded value ++ write_options big opts) =
                  write_padded value ++ write_options big opts) by (destruct big; reflexivity).
    rewrite Z2Nat.inj_add, <- drop_drop by lia. change (Z.to_nat 4) with 4%nat. rewrite Hd4.
    rewrite drop_app_length' by lia. rewrite IH by lia. cbn. repeat f_equal.
    unfold write_padded. rewrite <- app_assoc. apply take_app_length'. lia.
Qed.

Lemma options_at_drop n pre opts :
  Forall wf_option opts -> zlen pre = n -> options_at n (pre ++ write_options big opts) = Some opts.
Proof.
  intros Ho Hn. unfold options_at. rewrite length_app, (proj2 (Z.ltb_ge _ _)) by lia.
  rewrite drop_app_length' by lia. apply parse_write_options; [exact Ho | lia].
Qed.

(** ** Blocks *)

(** A block around a body. *)
Definition framed (type : Z) (body : list byte) : list byte :=
  store32 big type ++ store32 big (12 + zlen body) ++ body ++ store32 big (12 + zlen body).

Lemma framed_length type body : zlen (framed type body) = 12 + zlen body.
Proof. unfold framed. rewrite !length_app, !length_store32. lia. Qed.

Lemma parse_framed type body rest b :
  fits 32 type -> fits 32 (12 + zlen body) -> zlen body mod 4 = 0 -> parse_body type body = Some b ->
  parse_block (framed type body ++ rest) = Some (b, rest).
Proof.
  intros Ht Hl Hm Hb. unfold parse_block, framed. rewrite <- !app_assoc. set (n := 12 + zlen body) in *.
  rewrite load_store32 by exact Ht.
  rewrite (load32_at big _ 4 n (body ++ store32 big n ++ rest)) by (assumption || (destruct big; reflexivity)).
  assert (H8 : drop 8 (store32 big type ++ store32 big n ++ body ++ store32 big n ++ rest) = body ++ store32 big n ++ rest)
    by (destruct big; reflexivity).
  rewrite !length_app, !length_store32.
  assert (Hend : drop (Z.to_nat (n - 4)) (store32 big type ++ store32 big n ++ body ++ store32 big n ++ rest) = store32 big n ++ rest).
  { replace (Z.to_nat (n - 4)) with (8 + length body)%nat by lia. rewrite <- drop_drop, H8. apply drop_app_length. }
  rewrite Hend, load_store32 by exact Hl.
  rewrite !(proj2 (Z.leb_le _ _)), !(proj2 (Z.eqb_eq _ _)) by lia. cbn [andb]. rewrite H8.
  rewrite take_app_length' by lia. rewrite Hb. cbn. repeat f_equal.
  replace (Z.to_nat n) with (4 + Z.to_nat (n - 4))%nat by lia. rewrite Nat.add_comm, <- drop_drop, Hend.
  destruct big; reflexivity.
Qed.

(** The concatenation of framed bodies is a file of their blocks. *)
Inductive file_of : list byte -> list Block -> Prop :=
| file_nil : file_of [] []
| file_snoc d bs type body b :
    file_of d bs -> fits 32 type -> fits 32 (12 + zlen body) -> zlen body mod 4 = 0 -> parse_body type body = Some b ->
    file_of (d ++ framed type body) (bs ++ [b]).

Lemma parse_blocks_file d bs :
  file_of d bs -> forall rest bs' fuel, parse_blocks fuel rest = Some bs' ->
  parse_blocks (fuel + length bs) (d ++ rest) = Some (bs ++ bs').
Proof.
  induction 1 as [|d bs type body b _ IH Ht Hl Hm Hb]; intros rest bs' fuel Hr.
  - cbn. rewrite Nat.add_0_r. exact Hr.
  - rewrite length_app. cbn [length]. rewrite <- !app_assoc. cbn [app].
    replace (fuel + (length bs + 1))%nat with (S fuel + length bs)%nat by lia. apply IH. cbn [parse_blocks].
    destruct (framed type body ++ rest) as [|x l] eqn:E.
    { apply (f_equal length) in E. rewrite length_app in E. pose proof (framed_length type body). cbn in E. lia. }
    rewrite <- E, (parse_framed type body rest b) by assumption. cbn. rewrite Hr. reflexivity.
Qed.

Lemma file_of_length d bs : file_of d bs -> (length bs <= length d)%nat.
Proof.
  induction 1 as [|d bs type body b _ IH Ht Hl Hm Hb]; [cbn; lia|]. rewrite !length_app. cbn [length].
  pose proof (framed_length type body). lia.
Qed.

Lemma parse_blocks_more fuel k d bs : parse_blocks fuel d = Some bs -> parse_blocks (fuel + k) d = Some bs.
Proof.
  revert d bs. induction fuel as [|fuel IH]; intros d bs; cbn [parse_blocks Nat.add]; [discriminate|].
  destruct d as [|x d]; [auto|]. destruct (parse_block (x :: d)) as [[b rest]|]; cbn; [|discriminate].
  destruct (parse_blocks fuel rest) as [bs'|] eqn:E; cbn; [|discriminate]. rewrite (IH _ _ E). auto.
Qed.

Lemma parse_file_of d bs : file_of d bs -> parse_file d = Some bs.
Proof.
  intros H. unfold parse_file. pose proof (file_of_length d bs H).
  pose proof (parse_blocks_file d bs H [] [] 1 eq_refl) as Hp. rewrite !app_nil_r in Hp.
  replace (S (length d)) with (1 + length bs + (length d - length bs))%nat by lia. apply parse_blocks_more, Hp.
Qed.
End reader.

(** ** What a history of operations records *)

Record Capture := mkCapture { c_interfaces : list InterfaceInfo; c_blocks : list Block }.

Definition ticks (nanosecond : bool) (t : Timestamp) : Z := if nanosecond then t else t / 1000.

Section capture.
Context (big : bool) (opts : PcapngWriterOptions).

Definition add (info : InterfaceInfo) (c : Capture) : Capture :=
  mkCapture (c_interfaces c ++ [info])
    (c_blocks c ++ [InterfaceBlock (if_link_type info) (snap_len info) (interface_options big info)]).
Definition add_block (b : Block) (c : Capture) : Capture := mkCapture (c_interfaces c) (c_blocks c ++ [b]).

(** A packet brings a default interface when there is none; one for an unknown interface
    is refused, statistics of an unknown interface are undefined. *)
Definition capture_step (op : WriterOp) (c : Capture) : option Capture :=
  match op with
  | AddInterface info => Some (add info c)
  | WritePacket view id cm =>
      let c := if decide (c_interfaces c = []) then add (default_interface opts) c else c in
      Some (match c_interfaces c !! Z.to_nat id with
            | None => c
            | Some i =>
                add_block (PacketBlock id (ticks (use_nanoseconds i) (pk_timestamp view)) (zlen (pk_data view))
                             (take (Z.to_nat (snap_len i)) (pk_data view)) (comment_options cm)) c
            end)
  | WriteStatistics now id received dropped =>
      n ← (if decide (c_interfaces c = []) then Some (o_use_nanoseconds opts)
           else use_nanoseconds <$> c_interfaces c !! Z.to_nat id);
      Some (add_block (StatisticsBlock id (ticks n now) (statistics_options big received dropped)) c)
  end.
Fixpoint capture_run (ops : list WriterOp) (c : Capture) : option Capture :=
  match ops with
  | [] => Some c
  | op :: ops' => c' ← capture_step op c; capture_run ops' c'
  end.
End capture.

(** Texts that an option can hold, and integers in their widths. *)
Definition short_text (s : string) : Prop := zlen (string_to_bytes s) < 2 ^ 16.
Definition wf_time (t : Timestamp) : Prop := 0 <= t < 2 ^ 63.
Definition wf_interface (i : InterfaceInfo) : Prop :=
  short_text (if_name i) /\ short_text (description i) /\ fits 16 (if_link_type i) /\ fits 32 (snap_len i).
Definition wf_op (op : WriterOp) : Prop :=
  match op with
  | AddInterface info => wf_interface info
  | WritePacket view id cm =>
      wf_time (pk_timestamp view) /\ fits 32 id /\ zlen (pk_data view) < 2 ^ 31 /\ (forall s, cm = Some s -> short_text s)
  | WriteStatistics now id _ _ => wf_time now /\ fits 32 id
  end.
Definition wf_options (o : PcapngWriterOptions) : Prop :=
  short_text (comment o) /\ short_text (hardware o) /\ short_text (os o) /\ short_text (user_application o).

(** ** The writer writes it *)

Section writer.
Context (big : bool).

Lemma wf_string_option type s : fits 16 type -> type <> 0 -> short_text s -> Forall wf_option (string_option type s).
Proof.
  intros H1 H2 Hs. destruct s as [|a s]; [constructor|]. constructor; [|constructor]. unfold wf_option. cbn [fst snd].
  split_and!; try assumption. unfold short_text in Hs. unfold string_to_bytes in *. split; [lia | exact Hs].
Qed.

Lemma string_option_size type s : short_text s -> options_size (string_option type s) <= 4 + 4 + 2 ^ 16.
Proof.
  intros Hs. destruct s as [|a s]; [cbn; lia|]. unfold string_option. cbn [options_size].
  unfold short_text in Hs. set (n := zlen (string_to_bytes _)) in *.
  assert (0 <= n) by (unfold n; lia). rewrite (uint_small 32) by (split; lia).
  rewrite <- (Z.add_assoc 4 n), padding_padded by lia. unfold padded. lia.
Qed.

Lemma options_size_app o1 o2 : options_size (o1 ++ o2) = options_size o1 + options_size o2 - 4.
Proof. induction o1 as [|[t v] o1 IH]; cbn [options_size app]; lia. Qed.

Lemma length_store64 v : length (store64 big v) = 8%nat.
Proof. unfold store64. destruct big; rewrite length_app, !length_store32; reflexivity. Qed.

Lemma load_store64 v l : fits 64 v -> load64 big (store64 big v ++ l) = v.
Proof.
  intros Hv. unfold load64, store64. unfold fits in Hv.
  assert (H1 : fits 32 (uint 32 (Z.shiftr v 32))) by (apply uint_fits; lia).
  assert (H2 : fits 32 (uint 32 v)) by (apply uint_fits; lia).
  assert (Hs : uint 32 (Z.shiftr v 32) * 2 ^ 32 + uint 32 v = v).
  { unfold uint. rewrite shiftr_div by lia. lia. }
  destruct big; rewrite <- app_assoc, load_store32 by assumption.
  - rewrite (load32_at true _ 4 (uint 32 v) l) by (assumption || reflexivity). exact Hs.
  - rewrite (load32_at false _ 4 (uint 32 (Z.shiftr v 32)) l) by (assumption || reflexivity). exact Hs.
Qed.

(** A block that is appended. *)
Definition appends (w : PcapngWriter) (type : Z) (body : list byte) (w' : PcapngWriter) : Prop :=
  w' = append (framed big type body) (12 + zlen body) w.

Lemma framed_block type body len post w :
  12 + zlen body = len -> post = store32 big len -> fits 32 len ->
  append (store32 big type ++ store32 big (uint 32 len) ++ body ++ post) (uint 32 len) w =
  append (framed big type body) (12 + zlen body) w.
Proof. intros <- -> Hl. rewrite uint_small by exact Hl. reflexivity. Qed.

(** The state of the writer, as a capture. *)
Record recorded (c : Capture) (w : PcapngWriter) : Prop := {
  rd_file : file_of big (file w) (c_blocks c);
  rd_interfaces : interfaces w = c_interfaces c;
  rd_bytes : bytes_written w = zlen (file w);
  rd_wf : Forall wf_interface (interfaces w)
}.

Lemma recorded_append c w type body b ifs n :
  recorded c w -> fits 32 type -> fits 32 (12 + zlen body) -> zlen body mod 4 = 0 -> parse_body big type body = Some b ->
  Forall wf_interface ifs ->
  let w' := append (framed big type body) (12 + zlen body) w in
  recorded (mkCapture ifs (c_blocks c ++ [b])) (mkWriter (file w') (options w') ifs n (bytes_written w')).
Proof.
  intros [H1 H2 H3 H4] Ht Hl Hm Hb Hi. split; cbn; [| reflexivity | | exact Hi].
  - apply file_snoc; assumption.
  - rewrite H3, length_app. pose proof (framed_length big type body). lia.
Qed.

Definition section_body (o : PcapngWriterOptions) : list byte :=
  store32 big PCAPNG_BYTE_ORDER_MAGIC ++ store16 big 1 ++ store16 big 0 ++ store64 big (uint 64 (-1)) ++
  write_options big (section_options o).

Lemma wf_section_options o :
  wf_options o -> Forall wf_option (section_options o) /\ options_size (section_options o) <= 4 * (4 + 4 + 2 ^ 16).
Proof.
  intros (H1 & H2 & H3 & H4). unfold section_options. split.
  - rewrite !Forall_app. split_and!; apply wf_string_option; auto; split; (reflexivity || discriminate).
  - rewrite !options_size_app.
    pose proof (string_option_size Comment _ H1). pose proof (string_option_size SHB_Hardware _ H2).
    pose proof (string_option_size SHB_OS _ H3). pose proof (string_option_size SHB_UserAppl _ H4). lia.
Qed.

Lemma parse_section o : wf_options o -> parse_body big SectionHeader (section_body o) = Some (SectionBlock (section_options o)).
Proof.
  intros Ho. destruct (wf_section_options o Ho) as [Hf _]. unfold parse_body. change (SectionHeader =? 0x0A0D0D0A) with true. cbv iota.
  set (pre := store32 big PCAPNG_BYTE_ORDER_MAGIC ++ store16 big 1 ++ store16 big 0 ++ store64 big (uint 64 (-1))).
  assert (Hb : section_body o = pre ++ write_options big (section_options o))
    by (unfold section_body, pre; rewrite <- !app_assoc; reflexivity).
  assert (Hpre : zlen pre = 16) by (unfold pre; rewrite !length_app, !length_store16, length_store32, length_store64; reflexivity).
  rewrite Hb, (options_at_drop big 16) by assumption. cbn [mbind option_bind].
  replace (_ && _) with true; [reflexivity|]. symmetry. rewrite <- Hb. unfold section_body.
  rewrite load_store32 by (split; (reflexivity || discriminate)).
  rewrite (load16_at big _ 4 1 (store16 big 0 ++ store64 big (uint 64 (-1)) ++ write_options big (section_options o)));
    [|split; (reflexivity || discriminate) | destruct big; reflexivity].
  rewrite (load16_at big _ 6 0 (store64 big (uint 64 (-1)) ++ write_options big (section_options o)));
    [|split; (reflexivity || discriminate) | destruct big; reflexivity].
  assert (H8 : drop 8 (store32 big PCAPNG_BYTE_ORDER_MAGIC ++ store16 big 1 ++ store16 big 0 ++ store64 big (uint 64 (-1)) ++
                 write_options big (section_options o)) = store64 big (uint 64 (-1)) ++ write_options big (section_options o))
    by (destruct big; reflexivity).
  rewrite H8, load_store64 by (apply uint_fits; lia). reflexivity.
Qed.

Lemma create_recorded os_info o :
  let w := create big os_info o in
  wf_options (options w) -> recorded (mkCapture [] [SectionBlock (section_options (options w))]) w /\ packet_count w = 0.
Proof.
  unfold create. cbv zeta. set (o' := mkOptions _ _ _ _ _). intros Ho. change (options _) with o' in Ho |- *.
  destruct (wf_section_options o' Ho) as [Hf Hs]. pose proof (options_size_mod big _ Hf) as [Hm H4].
  assert (Hl : zlen (section_body o') = 16 + options_size (section_options o')).
  { unfold section_body. rewrite !length_app, !length_store16, length_store32, length_store64.
    pose proof (write_options_length big _ Hf). lia. }
  split; [|reflexivity]. unfold write_section_header. cbn [options]. cbv zeta.
  pose proof (recorded_append (mkCapture [] []) (mkWriter [] o' [] 0 0) SectionHeader (section_body o')
    (SectionBlock (section_options o')) [] 0) as H. cbv zeta in H. cbn [c_blocks app] in H.
  assert (Heq : append (store32 big SectionHeader ++ store32 big (uint 32 (24 + options_size (section_options o') + 4)) ++
      store32 big PCAPNG_BYTE_ORDER_MAGIC ++ store16 big 1 ++ store16 big 0 ++ store64 big (uint 64 (-1)) ++
      write_options big (section_options o') ++ store32 big (uint 32 (24 + options_size (section_options o') + 4)))
      (uint 32 (24 + options_size (section_options o') + 4)) (mkWriter [] o' [] 0 0) =
      append (framed big SectionHeader (section_body o')) (12 + zlen (section_body o')) (mkWriter [] o' [] 0 0)).
  { rewrite <- (framed_block SectionHeader (section_body o') (24 + options_size (section_options o') + 4)
        (store32 big (uint 32 (24 + options_size (section_options o') + 4)))); [| lia | | split; lia].
    - unfold section_body. rewrite <- !app_assoc. reflexivity.
    - rewrite uint_small by (split; lia). reflexivity. }
  rewrite Heq. apply H; [split; cbn; [constructor | reflexivity | reflexivity | constructor] |
    split; (reflexivity || discriminate) | split; lia | lia | apply parse_section, Ho | constructor].
Qed.

Lemma block_recorded c w type body b len ifs n :
  recorded c w -> fits 32 type -> len = 12 + zlen body -> fits 32 len -> zlen body mod 4 = 0 ->
  parse_body big type body = Some b -> Forall wf_interface ifs ->
  let w' := append (store32 big type ++ store32 big (uint 32 len) ++ body ++ store32 big (uint 32 len)) (uint 32 len) w in
  recorded (mkCapture ifs (c_blocks c ++ [b])) (mkWriter (file w') (options w') ifs n (bytes_written w')).
Proof.
  intros Hr Ht -> Hl Hm Hb Hi. cbv zeta. rewrite !uint_small by exact Hl. exact (recorded_append c w type body b ifs n Hr Ht Hl Hm Hb Hi).
Qed.

Lemma wf_interface_options info :
  wf_interface info -> Forall wf_option (interface_options big info) /\
  options_size (interface_options big info) <= 2 * (4 + 4 + 2 ^ 16) + 100.
Proof.
  intros (H1 & H2 & _). unfold interface_options. split.
  - rewrite !Forall_app. split_and!; try (apply wf_string_option; auto; split; (reflexivity || discriminate)).
    + destruct (0 <? speed info); [|constructor]. constructor; [|constructor]. unfold wf_option. cbn [fst snd].
      rewrite length_store64. split_and!; [split; (reflexivity || discriminate) | discriminate | split; lia].
    + constructor; [|constructor]. unfold wf_option. cbn [fst snd length].
      split_and!; [split; (reflexivity || discriminate) | discriminate | split; lia].
  - rewrite !options_size_app. pose proof (string_option_size IDB_Name _ H1).
    pose proof (string_option_size IDB_Description _ H2).
    assert (H3 : options_size (if 0 <? speed info then [(IDB_Speed, store64 big (speed info))] else []) <= 16).
    { destruct (0 <? speed info); cbn [options_size]; [|lia]. rewrite length_store64. vm_compute. discriminate. }
    assert (H4 : options_size [(IDB_TSResol, [to_byte (if use_nanoseconds info then PCAPNG_TSRESOL_NANO else PCAPNG_TSRESOL_MICRO)])] = 12)
      by reflexivity. lia.
Qed.

Lemma interface_recorded c w info :
  recorded c w -> wf_interface info -> recorded (add big info c) (add_interface big info w).2 /\
  options (add_interface big info w).2 = options w /\ packet_count (add_interface big info w).2 = packet_count w.
Proof.
  intros Hr Hi. split; [|split; reflexivity]. pose proof Hi as (_ & _ & Hlink & Hsnap).
  destruct (wf_interface_options info Hi) as [Hf Hs]. pose proof (options_size_mod big _ Hf) as [Hm H4].
  pose proof (write_options_length big _ Hf) as Hl.
  set (o := interface_options big info) in *.
  set (body := store16 big (if_link_type info) ++ store16 big 0 ++ store32 big (snap_len info) ++ write_options big o).
  assert (Hb : zlen body = 8 + options_size o).
  { unfold body. rewrite !length_app, !length_store16, length_store32. lia. }
  pose proof (block_recorded c w InterfaceDescription body (InterfaceBlock (if_link_type info) (snap_len info) o)
    (16 + options_size o + 4) (interfaces w ++ [info]) (packet_count w) Hr) as H. cbv zeta in H.
  unfold add_interface, write_interface_block, add. cbn [snd]. cbv zeta. fold o. rewrite (uint_small 16) by exact Hlink.
  rewrite <- (rd_interfaces _ _ Hr).
  replace (store32 big InterfaceDescription ++ _) with
    (store32 big InterfaceDescription ++ store32 big (uint 32 (16 + options_size o + 4)) ++ body ++
       store32 big (uint 32 (16 + options_size o + 4))) by (unfold body; rewrite <- !app_assoc; reflexivity).
  apply H; [split; (reflexivity || discriminate) | lia | split; lia | lia | |
    apply Forall_app; split; [exact (rd_wf _ _ Hr) | constructor; [exact Hi | constructor]]].
  unfold parse_body. change (InterfaceDescription =? 0x0A0D0D0A) with false. change (InterfaceDescription =? 1) with true. cbv iota.
  set (pre := store16 big (if_link_type info) ++ store16 big 0 ++ store32 big (snap_len info)).
  assert (Hpre : body = pre ++ write_options big o) by (unfold body, pre; rewrite <- !app_assoc; reflexivity).
  rewrite Hpre at 1. rewrite (options_at_drop big 8) by (try exact Hf; unfold pre; rewrite !length_app, !length_store16, length_store32; reflexivity).
  cbn [mbind option_bind]. unfold body. rewrite load_store16 by exact Hlink.
  rewrite (load32_at big _ 4 (snap_len info) (write_options big o)); [reflexivity | exact Hsnap | destruct big; reflexivity].
Qed.

Lemma timestamp_halves v :
  fits 64 v -> fits 32 (uint 32 (Z.shiftr v 32)) /\ fits 32 (Z.land v 0xFFFFFFFF) /\
  uint 32 (Z.shiftr v 32) * 2 ^ 32 + Z.land v 0xFFFFFFFF = v.
Proof.
  intros Hv. split_and!; [apply uint_fits; lia | apply land_fits; [lia | reflexivity]|].
  unfold uint. rewrite shiftr_div, (land_mask v _ 32) by (lia || reflexivity). unfold fits in Hv. lia.
Qed.

Lemma ticks_total (n : bool) t : wf_time t -> uint 64 (if n then total_nanoseconds t else total_microseconds t) = ticks n t.
Proof.
  intros Ht. unfold wf_time in Ht. unfold total_nanoseconds, total_microseconds, ticks. rewrite Z.quot_div_nonneg by lia.
  destruct n; apply uint_small; split; lia.
Qed.

Lemma ticks_fits n t : wf_time t -> fits 64 (ticks n t).
Proof. intros Ht. unfold wf_time in Ht. unfold ticks, fits. destruct n; lia. Qed.

Lemma wf_comment_options cm :
  (forall s, cm = Some s -> short_text s) ->
  Forall wf_option (comment_options cm) /\ options_size (comment_options cm) <= 4 + 4 + 2 ^ 16.
Proof.
  intros H. destruct cm as [s|]; [|split; [constructor | cbn; lia]]. specialize (H s eq_refl). cbn [comment_options].
  split; [apply wf_string_option; [split; (reflexivity || discriminate) | discriminate | exact H] | apply string_option_size, H].
Qed.

Lemma packet_recorded c w view id iface cm :
  recorded c w -> wf_interface iface -> wf_op (WritePacket view id cm) ->
  let w' := packet_block big view id iface cm w in
  recorded (add_block (PacketBlock id (ticks (use_nanoseconds iface) (pk_timestamp view)) (zlen (pk_data view))
              (take (Z.to_nat (snap_len iface)) (pk_data view)) (comment_options cm)) c) w' /\
  options w' = options w /\ packet_count w' = packet_count w + 1.
Proof.
  intros Hr (_ & _ & _ & Hsnap) (Ht & Hid & Hdata & Hcm). cbv zeta. split; [|split; reflexivity].
  destruct (wf_comment_options cm Hcm) as [Hf Hs]. pose proof (options_size_mod big _ Hf) as [Hm H4].
  pose proof (write_options_length big _ Hf) as Hl.
  unfold packet_block. cbv zeta. set (o := comment_options cm) in *. rewrite ticks_total by exact Ht.
  pose proof (ticks_fits (use_nanoseconds iface) _ Ht) as Hts. set (ts := ticks _ _) in *. clearbody ts.
  destruct (timestamp_halves ts Hts) as (Hhi & Hlo & Hsum).
  set (hi := uint 32 (Z.shiftr ts 32)) in *. set (lo := Z.land ts 0xFFFFFFFF) in *.
  unfold fits in Hsnap. set (d := pk_data view) in *. set (cap := Z.min (zlen d) (snap_len iface)).
  assert (Hcap : fits 32 cap) by (unfold cap; split; lia). assert (Horig : fits 32 (zlen d)) by (split; lia).
  rewrite !(uint_small 32 cap) by exact Hcap. rewrite !(uint_small 32 (zlen d)) by exact Horig.
  assert (Htake : take (Z.to_nat cap) d = take (Z.to_nat (snap_len iface)) d).
  { unfold cap. destruct (Z.le_ge_cases (zlen d) (snap_len iface));
      [rewrite Z.min_l by assumption; rewrite !take_ge by lia | rewrite Z.min_r by assumption]; reflexivity. }
  rewrite Htake. set (kept := take (Z.to_nat (snap_len iface)) d) in *.
  assert (Hk : zlen kept = cap) by (unfold kept, cap; rewrite length_take; lia).
  assert (H0 : 0 <= cap) by (destruct Hcap; assumption).
  pose proof (padding_padded cap H0) as Hp. pose proof (padded_ge cap H0) as [Hp1 Hp2].
  assert (Hpad : 0 <= pcapng_padding cap < 4) by (unfold pcapng_padding; bits_arith; lia).
  set (pad := repeat x00 (Z.to_nat (pcapng_padding cap))).
  set (body := store32 big id ++ store32 big hi ++ store32 big lo ++ store32 big cap ++ store32 big (zlen d) ++ kept ++ pad ++ write_options big o).
  assert (Hb : zlen body = 20 + padded cap + options_size o).
  { unfold body, pad. rewrite !length_app, !length_store32, repeat_length. lia. }
  set (len := 28 + cap + pcapng_padding cap + options_size o + 4).
  pose proof (block_recorded c w EnhancedPacket body (PacketBlock id ts (zlen d) kept o) len (interfaces w) (packet_count w + 1) Hr) as H.
  cbv zeta in H. unfold add_block. rewrite <- (rd_interfaces _ _ Hr).
  replace (store32 big EnhancedPacket ++ _) with
    (store32 big EnhancedPacket ++ store32 big (uint 32 len) ++ body ++ store32 big (uint 32 len))
    by (unfold body; rewrite <- !app_assoc; reflexivity).
  apply H; [split; (reflexivity || discriminate) | unfold len; lia | unfold len, cap in *; split; lia | lia | | exact (rd_wf _ _ Hr)].
  unfold parse_body. change (EnhancedPacket =? 0x0A0D0D0A) with false. change (EnhancedPacket =? 1) with false.
  change (EnhancedPacket =? 6) with true. cbv iota zeta.
  set (t5 := store32 big (zlen d) ++ kept ++ pad ++ write_options big o). set (t4 := store32 big cap ++ t5).
  set (t3 := store32 big lo ++ t4).
  assert (H12 : load32 big (drop 12 body) = cap) by (apply (load32_at big _ 12 cap t5); [exact Hcap | destruct big; reflexivity]).
  rewrite H12.
  set (pre := store32 big id ++ store32 big hi ++ store32 big lo ++ store32 big cap ++ store32 big (zlen d) ++ kept ++ pad).
  assert (Hpre : body = pre ++ write_options big o) by (unfold body, pre; rewrite <- !app_assoc; reflexivity).
  rewrite Hpre at 1. rewrite (options_at_drop big (20 + padded cap))
    by (try exact Hf; unfold pre, pad; rewrite !length_app, !length_store32, repeat_length; lia).
  cbn [mbind option_bind]. unfold body at 1. rewrite load_store32 by exact Hid.
  rewrite (load32_at big body 4 hi t3), (load32_at big body 8 lo t4), (load32_at big body 16 (zlen d) (kept ++ pad ++ write_options big o));
    try assumption; try (destruct big; reflexivity).
  rewrite Hsum. assert (H20 : drop 20 body = kept ++ pad ++ write_options big o) by (destruct big; reflexivity).
  rewrite H20, take_app_length' by lia. reflexivity.
Qed.

Lemma statistics_recorded c w now id received dropped n ts :
  recorded c w -> wf_time now -> fits 32 id -> ts = ticks n now ->
  let o := statistics_options big received dropped in
  let len := 20 + options_size o + 4 in
  let w' := append (store32 big InterfaceStatistics ++ store32 big (uint 32 len) ++ store32 big id ++
                store32 big (uint 32 (Z.shiftr ts 32)) ++ store32 big (Z.land ts 0xFFFFFFFF) ++
                write_options big o ++ store32 big (uint 32 len)) (uint 32 len) w in
  recorded (add_block (StatisticsBlock id ts o) c) w' /\ options w' = options w /\ packet_count w' = packet_count w.
Proof.
  intros Hr Ht Hid ->. cbv zeta. split; [|split; reflexivity]. pose proof (ticks_fits n _ Ht) as Hts.
  set (ts := ticks n now) in *. clearbody ts. destruct (timestamp_halves ts Hts) as (Hhi & Hlo & Hsum).
  set (hi := uint 32 (Z.shiftr ts 32)) in *. set (lo := Z.land ts 0xFFFFFFFF) in *.
  assert (Hf : Forall wf_option (statistics_options big received dropped)).
  { unfold statistics_options. repeat constructor; unfold wf_option; cbn [fst snd]; rewrite ?length_store64; try discriminate; split; lia. }
  pose proof (write_options_length big _ Hf) as Hl.
  assert (Ho : options_size (statistics_options big received dropped) = 28)
    by (unfold statistics_options; cbn [options_size]; rewrite !length_store64; reflexivity).
  set (o := statistics_options big received dropped) in *. rewrite Ho in *.
  set (body := store32 big id ++ store32 big hi ++ store32 big lo ++ write_options big o).
  assert (Hb : zlen body = 40) by (unfold body; rewrite !length_app, !length_store32; lia).
  pose proof (block_recorded c w InterfaceStatistics body (StatisticsBlock id ts o) (20 + 28 + 4) (interfaces w) (packet_count w) Hr) as H.
  cbv zeta in H. unfold add_block. rewrite <- (rd_interfaces _ _ Hr).
  replace (store32 big InterfaceStatistics ++ _) with
    (store32 big InterfaceStatistics ++ store32 big (uint 32 (20 + 28 + 4)) ++ body ++ store32 big (uint 32 (20 + 28 + 4)))
    by (unfold body; rewrite <- !app_assoc; reflexivity).
  apply H; [split; (reflexivity || discriminate) | lia | split; lia | rewrite Hb; reflexivity | | exact (rd_wf _ _ Hr)].
  unfold parse_body. change (InterfaceStatistics =? 0x0A0D0D0A) with false. change (InterfaceStatistics =? 1) with false.
  change (InterfaceStatistics =? 6) with false. change (InterfaceStatistics =? 5) with true. cbv iota.
  set (pre := store32 big id ++ store32 big hi ++ store32 big lo).
  assert (Hpre : body = pre ++ write_options big o) by (unfold body, pre; rewrite <- !app_assoc; reflexivity).
  rewrite Hpre at 1. rewrite (options_at_drop big 12)
    by (try exact Hf; unfold pre; rewrite !length_app, !length_store32; reflexivity).
  cbn [mbind option_bind]. unfold body at 1. rewrite load_store32 by exact Hid.
  rewrite (load32_at big body 4 hi (store32 big lo ++ write_options big o)), (load32_at big body 8 lo (write_options big o));
    try assumption; try (destruct big; reflexivity). rewrite Hsum. reflexivity.
Qed.
End writer.

Definition is_packet (b : Block) : bool := match b with PacketBlock _ _ _ _ _ => true | _ => false end.
Definition count_packets (bs : list Block) : Z := zlen (filter (fun b => is_packet b = true) bs).

Lemma count_packets_snoc bs b : count_packets (bs ++ [b]) = count_packets bs + (if is_packet b then 1 else 0).
Proof. unfold count_packets. rewrite filter_app, length_app, filter_cons, filter_nil. case_decide; destruct (is_packet b); try congruence; cbn [length]; lia. Qed.

(** The writer and the capture agree. *)
Definition agree (big : bool) (o : PcapngWriterOptions) (c : Capture) (w : PcapngWriter) : Prop :=
  recorded big c w /\ options w = o /\ packet_count w = count_packets (c_blocks c).

Lemma default_interface_wf o : wf_interface (default_interface o).
Proof. split_and!; cbn; try (vm_compute; reflexivity); split; lia. Qed.

Lemma agree_add big o c w info :
  agree big o c w -> wf_interface info -> agree big o (add big info c) (add_interface big info w).2.
Proof.
  intros (Hr & Ho & Hc) Hi. destruct (interface_recorded big c w info Hr Hi) as (Hr' & Ho' & Hc').
  split_and!; [exact Hr' | congruence|]. rewrite Hc', Hc. unfold add, add_block. cbn [c_blocks]. rewrite count_packets_snoc. cbn [is_packet]. lia.
Qed.

Lemma agree_ensure big o c w :
  agree big o c w ->
  agree big o (if decide (c_interfaces c = []) then add big (default_interface o) c else c) (ensure_interface big w).
Proof.
  intros Ha. pose proof Ha as (Hr & Ho & _). unfold ensure_interface. rewrite (rd_interfaces _ _ _ Hr), Ho.
  destruct (c_interfaces c) as [|i l] eqn:E.
  - rewrite decide_True by reflexivity. apply agree_add; [exact Ha | apply default_interface_wf].
  - rewrite decide_False by discriminate. exact Ha.
Qed.

Lemma agree_step big o c w op :
  agree big o c w -> wf_op op ->
  match capture_step big o op c with
  | Some c' => exists w', step big op w = Done w' /\ agree big o c' w'
  | None => step big op w = Undef
  end.
Proof.
  intros Ha Hop. destruct op as [info|view id cm|now id received dropped]; cbn [capture_step step].
  - eexists. split; [reflexivity | apply agree_add; assumption].
  - eexists. split; [reflexivity|]. pose proof (agree_ensure big o c w Ha) as He. cbv zeta.
    unfold write_enhanced_packet_block. cbv zeta. set (c1 := if decide _ then _ else _) in *. set (w1 := ensure_interface big w) in *.
    clearbody c1 w1. destruct He as (Hr & Ho & Hc). rewrite (rd_interfaces _ _ _ Hr).
    destruct (c_interfaces c1 !! Z.to_nat id) as [i|] eqn:E; cbn [snd]; [|split_and!; assumption].
    assert (Hi : wf_interface i).
    { pose proof (rd_wf _ _ _ Hr) as Hw. rewrite Forall_forall in Hw. apply Hw. rewrite (rd_interfaces _ _ _ Hr).
      eapply list_elem_of_lookup_2, E. }
    destruct (packet_recorded big c1 w1 view id i cm Hr Hi Hop) as (Hr' & Ho' & Hc').
    split_and!; [exact Hr' | congruence|]. rewrite Hc', Hc. unfold add, add_block. cbn [c_blocks]. rewrite count_packets_snoc. cbn [is_packet]. lia.
  - destruct Ha as (Hr & Ho & Hc). destruct Hop as (Ht & Hid). unfold write_statistics. cbv zeta. unfold statistics_time.
    rewrite (rd_interfaces _ _ _ Hr), Ho.
    destruct (c_interfaces c) as [|i0 l] eqn:E.
    + rewrite decide_True by reflexivity. cbn [mbind option_bind res_bind]. eexists. split; [reflexivity|].
      rewrite ticks_total by exact Ht.
      destruct (statistics_recorded big c w now id received dropped (o_use_nanoseconds o) _ Hr Ht Hid eq_refl) as (Hr' & Ho' & Hc').
      split_and!; [exact Hr' | exact (eq_trans Ho' Ho) | refine (eq_trans Hc' _)]. rewrite Hc. unfold add, add_block. cbn [c_blocks]. rewrite count_packets_snoc. cbn [is_packet]. lia.
    + rewrite decide_False by discriminate. destruct ((i0 :: l) !! Z.to_nat id) as [i|]; cbn [fmap option_fmap option_map mbind option_bind res_bind]; [|reflexivity].
      eexists. split; [reflexivity|]. rewrite ticks_total by exact Ht.
      destruct (statistics_recorded big c w now id received dropped (use_nanoseconds i) _ Hr Ht Hid eq_refl) as (Hr' & Ho' & Hc').
      split_and!; [exact Hr' | exact (eq_trans Ho' Ho) | refine (eq_trans Hc' _)]. rewrite Hc. unfold add, add_block. cbn [c_blocks]. rewrite count_packets_snoc. cbn [is_packet]. lia.
Qed.

Lemma agree_run big o ops c w :
  agree big o c w -> Forall wf_op ops ->
  match capture_run big o ops c with
  | Some c' => exists w', run big ops w = Done w' /\ agree big o c' w'
  | None => run big ops w = Undef
  end.
Proof.
  intros Ha Hops. revert c w Ha. induction Hops as [|op ops Hop _ IH]; intros c w Ha; cbn [capture_run run]; [eauto|].
  pose proof (agree_step big o c w op Ha Hop) as Hs. destruct (capture_step big o op c) as [c1|].
  - destruct Hs as (w1 & -> & Ha1). cbn [mbind option_bind res_bind]. exact (IH c1 w1 Ha1).
  - rewrite Hs. reflexivity.
Qed.

(** [C21] A PCAPNG file records the history of its writer.  Texts shorter than 65536 bytes and
    packets shorter than 2 GiB given, a reader of the format takes what any sequence of
    operations has written apart into exactly the blocks of this sequence: the section
    with its options, every interface, every packet on a known interface, cut to its
    snap length, with its time in the resolution of the interface, its length, and
    comment, and every statistics block; the first packet of a file without
    interfaces brings a default one, a packet for an unknown interface none.  The
    counters are the size of the file and the number of packets.  Statistics of an
    unknown interface of a file that has interfaces read outside the vector, and nothing else is
    undefined. *)
Theorem pcapng_file_exact (big : bool) (os_info : string) (o : PcapngWriterOptions) (ops : list WriterOp) :
  let w0 := create big os_info o in
  wf_options (options w0) -> Forall wf_op ops ->
  match capture_run big (options w0) ops (mkCapture [] [SectionBlock (section_options (options w0))]) with
  | Some c =>
      exists w, run big ops w0 = Done w /\ parse_file big (file w) = Some (c_blocks c) /\
        interfaces w = c_interfaces c /\ bytes_written w = zlen (file w) /\ packet_count w = count_packets (c_blocks c)
  | None => run big ops w0 = Undef
  end.
Proof.
  cbv zeta. intros Ho Hops. destruct (create_recorded big os_info o Ho) as [Hr Hc].
  pose proof (agree_run big (options (create big os_info o)) ops _ _ (conj Hr (conj eq_refl Hc)) Hops) as H.
  destruct (capture_run _ _ _ _) as [c|]; [|exact H]. destruct H as (w & Hw & Hrw & _ & Hcw). exists w.
  split_and!; [exact Hw | apply parse_file_of, (rd_file _ _ _ Hrw) | exact (rd_interfaces _ _ _ Hrw) | exact (rd_bytes _ _ _ Hrw) | exact Hcw].
Qed.

Definition example_ops : list WriterOp :=
  [WritePacket (mkPacket [x01; x02; x03] 1500) 0 (Some "hi"); WriteStatistics 2000 0 7 1].

Lemma pcapng_file_exact_witness :
  exists w, run false example_ops (create false "Linux" PcapngWriterOptions_default) = Done w /\
    parse_file false (file w) = Some
      [SectionBlock [(3, [x4c; x69; x6e; x75; x78]); (4, string_to_bytes "Wadjet-Link")];
       InterfaceBlock 1 65535 [(2, string_to_bytes "default"); (9, [x09])];
       PacketBlock 0 1500 3 [x01; x02; x03] [(1, string_to_bytes "hi")];
       StatisticsBlock 0 2000 (statistics_options false 7 1)] /\ bytes_written w = zlen (file w) /\ packet_count w = 1.
Proof.
  destruct (pcapng_file_exact false "Linux" PcapngWriterOptions_default example_ops) as (w & H1 & H2 & _ & H4 & H5).
  - split_and!; vm_compute; reflexivity.
  - repeat constructor; cbn; try lia; try (unfold wf_time; lia); try discriminate; intros s [= <-]; vm_compute; reflexivity.
  - exists w. split_and!; [exact H1 | exact H2 | exact H4 | exact H5].
Defined.
