(* ===== verification/PacketView.v ===== *)
(** * Packet views (src/net/packet_view.cpp, include/wadjet/net/packet_view.hpp)

    The accessors that read headers straight from the bytes of a captured frame: what
    each returns, that none reads outside the frame, and their agreement with the
    decoders of the protocol stack. *)

From Stdlib Require Import ZArith Lia.
From Stdlib Require Import Strings.Byte.
From stdpp Require Import base numbers list strings.
From S2P Require Import Prelude ByteOrder Decoder Ethernet Ipv4 Udp Tcp Timestamp.

Definition ETHERNET_HEADER_SIZE : Z := 14.
Definition VLAN_TAG_SIZE : Z := 4.

Record EthernetHeader := mkEthernetHeader { v_dst_mac : list byte; v_src_mac : list byte; v_ether_type : Z }.

Record VlanTag := mkVlanTag { tag_tci : Z; priority : Z; tag_dei : bool; tag_vlan_id : Z; inner_ether_type : Z }.

Record IPv4Header := mkIPv4Header {
  version : Z;
  ihl : Z;
  dscp : Z;
  ecn : Z;
  total_length : Z;
  identification : Z;
  dont_fragment : bool;
  more_fragments : bool;
  fragment_offset : Z;
  ttl : Z;
  protocol : Z;
  checksum : Z;
  src : list byte;
  dst : list byte
}.

Record UdpHeader := mkUdpHeader { u_src_port : Z; u_dst_port : Z; u_length : Z; u_checksum : Z }.

Record TcpHeader := mkTcpHeader {
  t_src_port : Z;
  t_dst_port : Z;
  t_seq_num : Z;
  t_ack_num : Z;
  t_data_offset : Z;
  t_flags : Z;
  t_window : Z;
  t_checksum : Z;
  t_urgent_ptr : Z
}.

Record PacketView := mkPacketView { view_data : list byte; view_timestamp : Timestamp }.

Definition size (v : PacketView) : Z := zlen (view_data v).
Definition empty (v : PacketView) : bool := size v =? 0.

(** ** Link layer *)

Definition ethernet_header (v : PacketView) : decoded (option EthernetHeader) :=
  if size v <? ETHERNET_HEADER_SIZE then Done None
  else
    dst ← subspan_count (view_data v) 0 6;
    src ← subspan_count (view_data v) 6 6;
    ether_type ← be16_at (view_data v) 12;
    Done (Some (mkEthernetHeader dst src ether_type)).

Definition has_vlan (v : PacketView) : decoded bool :=
  if size v <? ETHERNET_HEADER_SIZE then Done false
  else
    ether_type ← be16_at (view_data v) 12;
    Done ((ether_type =? EtherType_VLAN) || (ether_type =? ETHERTYPE_QINQ)).

Definition vlan_tag (v : PacketView) : decoded (option VlanTag) :=
  vlan ← has_vlan v;
  if negb vlan then Done None
  else if size v <? ETHERNET_HEADER_SIZE + VLAN_TAG_SIZE then Done None
  else
    before ← be16_at (view_data v) (ETHERNET_HEADER_SIZE - 2);
    tci ← be16_at (view_data v) 14;
    ether_type ← be16_at (view_data v) 16;
    Done (Some (mkVlanTag tci (Z.land (Z.shiftr tci 13) 0x07) (negb (Z.land (Z.shiftr tci 12) 0x01 =? 0))
                  (Z.land tci 0x0FFF) ether_type)).

Definition l3_offset (v : PacketView) : decoded Z :=
  let offset := ETHERNET_HEADER_SIZE in
  vlan ← has_vlan v;
  if (vlan : bool) then
    let offset := offset + VLAN_TAG_SIZE in
    if offset + 2 <? size v then
      inner_type ← be16_at (view_data v) (offset - 2);
      Done (if inner_type =? EtherType_VLAN then offset + VLAN_TAG_SIZE else offset)
    else Done offset
  else Done offset.

(** ** Network layer *)

(** The fields of the header at [ip_data]. *)
Definition parse_ipv4 (ip_data : list byte) : decoded (option IPv4Header) :=
  version_ihl ← byte_at ip_data 0;
  let version := Z.land (Z.shiftr version_ihl 4) 0x0F in
  let ihl := Z.land version_ihl 0x0F in
  if negb (version =? 4) then Done None
  else
    dscp_ecn ← byte_at ip_data 1;
    total_length ← be16_at ip_data 2;
    identification ← be16_at ip_data 4;
    flags_fragment ← be16_at ip_data 6;
    ttl ← byte_at ip_data 8;
    protocol ← byte_at ip_data 9;
    checksum ← be16_at ip_data 10;
    src ← subspan_count ip_data 12 4;
    dst ← subspan_count ip_data 16 4;
    Done (Some (mkIPv4Header version ihl (Z.land (Z.shiftr dscp_ecn 2) 0x3F) (Z.land dscp_ecn 0x03) total_length
                  identification (negb (Z.land (Z.shiftr flags_fragment 14) 0x01 =? 0))
                  (negb (Z.land (Z.shiftr flags_fragment 13) 0x01 =? 0)) (Z.land flags_fragment 0x1FFF) ttl protocol
                  checksum src dst)).

Definition ipv4_header (v : PacketView) : decoded (option IPv4Header) :=
  offset ← l3_offset v;
  if size v <? offset + 20 then Done None
  else
    eth_hdr ← ethernet_header v;
    match eth_hdr with
    | None => Done None
    | Some eth_hdr =>
        vlan ← has_vlan v;
        tag ← (if (vlan : bool) then vlan_tag v else Done None);
        let check_type := match tag with Some tag => inner_ether_type tag | None => v_ether_type eth_hdr end in
        if negb (check_type =? EtherType_IPv4) then Done None
        else ip_data ← subspan (view_data v) offset; parse_ipv4 ip_data
    end.

Definition l4_offset (v : PacketView) : decoded Z :=
  ip_hdr ← ipv4_header v;
  offset ← l3_offset v;
  Done (match ip_hdr with None => offset | Some h => offset + ihl h * 4 end).

(** ** Transport layer *)

Definition parse_udp (udp_data : list byte) : decoded UdpHeader :=
  src_port ← be16_at udp_data 0;
  dst_port ← be16_at udp_data 2;
  length ← be16_at udp_data 4;
  checksum ← be16_at udp_data 6;
  Done (mkUdpHeader src_port dst_port length checksum).

Definition parse_tcp (tcp_data : list byte) : decoded TcpHeader :=
  src_port ← be16_at tcp_data 0;
  dst_port ← be16_at tcp_data 2;
  seq_num ← be32_at tcp_data 4;
  ack_num ← be32_at tcp_data 8;
  data_offset_flags ← be16_at tcp_data 12;
  window ← be16_at tcp_data 14;
  checksum ← be16_at tcp_data 16;
  urgent_ptr ← be16_at tcp_data 18;
  Done (mkTcpHeader src_port dst_port seq_num ack_num (Z.land (Z.shiftr data_offset_flags 12) 0x0F)
          (Z.land data_offset_flags 0x3F) window checksum urgent_ptr).

(** The header of [n] bytes that [parse] reads behind an IPv4 header with protocol [p]. *)
Definition transport_header {A} (p n : Z) (parse : list byte -> decoded A) (v : PacketView) : decoded (option A) :=
  ip_hdr ← ipv4_header v;
  match ip_hdr with
  | None => Done None
  | Some h =>
      if negb (protocol h =? p) then Done None
      else
        offset ← l4_offset v;
        if size v <? offset + n then Done None
        else d ← subspan (view_data v) offset; h ← parse d; Done (Some h)
  end.

Definition udp_header (v : PacketView) : decoded (option UdpHeader) := transport_header IpProtocol_UDP 8 parse_udp v.
Definition tcp_header (v : PacketView) : decoded (option TcpHeader) := transport_header IpProtocol_TCP 20 parse_tcp v.

Definition payload (v : PacketView) : decoded (list byte) :=
  ip_hdr ← ipv4_header v;
  match ip_hdr with
  | None => Done []
  | Some h =>
      offset ← l4_offset v;
      offset ← (if protocol h =? IpProtocol_UDP then Done (offset + 8)
                else if protocol h =? IpProtocol_TCP then
                  tcp_hdr ← tcp_header v;
                  Done (match tcp_hdr with Some t => offset + t_data_offset t * 4 | None => offset end)
                else Done offset);
      if size v <=? offset then Done [] else subspan (view_data v) offset
  end.

(** ** Sub-views *)

Definition subview (offset : Z) (v : PacketView) : decoded PacketView :=
  if size v <=? offset then Done (mkPacketView [] (view_timestamp v))
  else d ← subspan (view_data v) offset; Done (mkPacketView d (view_timestamp v)).

Definition subview_length (offset length : Z) (v : PacketView) : decoded PacketView :=
  if size v <=? offset then Done (mkPacketView [] (view_timestamp v))
  else
    d ← subspan_count (view_data v) offset (Z.min length (size v - offset));
    Done (mkPacketView d (view_timestamp v)).

(** ** Layouts *)

(** The first twenty bytes of an IPv4 header; [reserved] is the unused flag bit. *)
Definition encode_ipv4 (reserved : bool) (h : IPv4Header) : list byte :=
  to_byte (version h * 16 + ihl h) :: to_byte (dscp h * 4 + ecn h) ::
  write_be16 (total_length h) ++ write_be16 (identification h) ++
  write_be16 ((4 * Z.b2z reserved + 2 * Z.b2z (dont_fragment h) + Z.b2z (more_fragments h)) * 8192 + fragment_offset h) ++
  to_byte (ttl h) :: to_byte (protocol h) :: write_be16 (checksum h) ++ src h ++ dst h.

Record wf_ipv4 (h : IPv4Header) : Prop := {
  wf_version : version h = 4;
  wf_ihl : fits 4 (ihl h);
  wf_dscp : fits 6 (dscp h);
  wf_ecn : fits 2 (ecn h);
  wf_total : fits 16 (total_length h);
  wf_id : fits 16 (identification h);
  wf_fragment : fits 13 (fragment_offset h);
  wf_ttl : fits 8 (ttl h);
  wf_protocol : fits 8 (protocol h);
  wf_checksum : fits 16 (checksum h);
  wf_src : length (src h) = 4%nat;
  wf_dst : length (dst h) = 4%nat
}.

(** *** Reads from known bytes *)

(** Evaluates the next read of a goal whose bytes are known by [Hd]. *)
Ltac view_read Hd :=
  match goal with
  | |- context [byte_at ?d ?i] =>
      erewrite (byte_at_drop d i) by (first [lia | rewrite ?Hd; reflexivity]); rewrite bind_Done
  | |- context [be16_at ?d ?i] =>
      erewrite (be16_at_bytes d i) by (first [lia | rewrite ?Hd; reflexivity]); rewrite bind_Done
  | |- context [be32_at ?d ?i] =>
      erewrite (be32_at_bytes d i) by (first [lia | rewrite ?Hd; reflexivity]); rewrite bind_Done
  end.

(** *** IPv4 *)

Lemma ipv4_flags_pack v :
  fits 16 v ->
  (4 * Z.b2z (negb (v / 32768 mod 2 =? 0)) + 2 * Z.b2z (negb (Z.land (Z.shiftr v 14) 0x01 =? 0)) +
   Z.b2z (negb (Z.land (Z.shiftr v 13) 0x01 =? 0))) * 8192 + Z.land v 0x1FFF = v.
Proof.
  unfold fits. intros Hv. bits_arith.
  destruct (v / 32768 mod 2 =? 0) eqn:E1, (v / 16384 mod 2 =? 0) eqn:E2, (v / 8192 mod 2 =? 0) eqn:E3;
    bool_to_prop; cbn [negb Z.b2z]; lia.
Qed.

Lemma ipv4_flags_unpack (r df mf : bool) off :
  fits 13 off ->
  let v := (4 * Z.b2z r + 2 * Z.b2z df + Z.b2z mf) * 8192 + off in
  fits 16 v /\ negb (Z.land (Z.shiftr v 14) 0x01 =? 0) = df /\ negb (Z.land (Z.shiftr v 13) 0x01 =? 0) = mf /\
  Z.land v 0x1FFF = off.
Proof.
  unfold fits. intros Ho. cbv zeta. bits_arith.
  destruct r, df, mf; cbn [Z.b2z]; split_and!; try lia;
    match goal with
    | |- negb (?a =? 0) = true => destruct (Z.eqb_spec a 0); [lia | reflexivity]
    | |- negb (?a =? 0) = false => destruct (Z.eqb_spec a 0); [reflexivity | lia]
    end.
Qed.

Lemma parse_ipv4_encode reserved h rest :
  wf_ipv4 h -> parse_ipv4 (encode_ipv4 reserved h ++ rest) = Done (Some h).
Proof.
  intros [Hv Hi Hd He Ht Hn Hf Htt Hp Hc Hs Ht']. unfold fits in Hi.
  destruct (list_4 _ Hs) as (s0 & s1 & s2 & s3 & Es). destruct (list_4 _ Ht') as (d0 & d1 & d2 & d3 & Ed).
  destruct (ipv4_flags_unpack reserved (dont_fragment h) (more_fragments h) _ Hf) as (Hff & Edf & Emf & Eof).
  destruct (subfield_ds_ecn _ _ Hd He) as [Eds Eec].
  assert (Hall : exists d, encode_ipv4 reserved h ++ rest = d) by eauto. destruct Hall as [d Hall]. rewrite Hall.
  unfold encode_ipv4 in Hall. rewrite Es, Ed in Hall. symmetry in Hall.
  pose proof Hall as Hb. cbn [app write_be16] in Hb.
  unfold parse_ipv4. erewrite (byte_at_drop d 0) by (first [lia | rewrite Hb; reflexivity]). rewrite bind_Done.
  rewrite u8_to_byte, Hv.
  assert (E4 : Z.land (Z.shiftr ((4 * 16 + ihl h) mod 256) 4) 0x0F = 4) by (bits_arith; lia).
  assert (Ei : Z.land ((4 * 16 + ihl h) mod 256) 0x0F = ihl h) by (bits_arith; lia).
  cbv zeta. rewrite E4, Ei. cbn [negb Z.eqb Pos.eqb].
  erewrite (byte_at_drop d 1), bind_Done by (first [lia | rewrite Hb; reflexivity]).
  erewrite (be16_at_drop d 2 (total_length h)), bind_Done by (first [rewrite Hb; reflexivity | lia | eassumption]).
  erewrite (be16_at_drop d 4 (identification h)), bind_Done by (first [rewrite Hb; reflexivity | lia | eassumption]).
  erewrite (be16_at_drop d 6 (_ * 8192 + fragment_offset h)), bind_Done by (first [exact Hff | rewrite Hb; reflexivity | lia]).
  erewrite (byte_at_drop d 8), bind_Done by (first [lia | rewrite Hb; reflexivity]).
  erewrite (byte_at_drop d 9), bind_Done by (first [lia | rewrite Hb; reflexivity]).
  erewrite (be16_at_drop d 10 (checksum h)), bind_Done by (first [rewrite Hb; reflexivity | lia | eassumption]).
  erewrite (subspan_count_drop d 12 4 [s0; s1; s2; s3]), bind_Done by (first [lia | discriminate | rewrite ?Hb; reflexivity]).
  erewrite (subspan_count_drop d 16 4 [d0; d1; d2; d3]), bind_Done by (first [lia | discriminate | rewrite ?Hb; reflexivity]).
  rewrite Eds, Eec, Edf, Emf, Eof, !u8_to_byte, !(Z.mod_small _ 256) by assumption.
  rewrite <- Es, <- Ed, <- Hv. destruct h. reflexivity.
Qed.

Lemma parse_ipv4_sound d :
  20 <= zlen d ->
  exists r, parse_ipv4 d = Done r /\
    forall h, r = Some h -> wf_ipv4 h /\ exists reserved, d = encode_ipv4 reserved h ++ drop 20 d.
Proof.
  intros Hl. assert (Hx : exists d0, d = d0) by eauto. destruct Hx as [d0 Hb]. rewrite Hb in Hl.
  do 20 (destruct d0 as [|? d0]; [cbn in Hl; lia|]). unfold parse_ipv4. view_read Hb. cbv zeta.
  destruct (negb _) eqn:Hv; [eexists; split; [reflexivity | discriminate]|]. bool_to_prop.
  repeat view_read Hb.
  erewrite (subspan_count_drop d 12 4 [_; _; _; _]), bind_Done by (first [lia | discriminate | rewrite ?Hb; reflexivity]).
  erewrite (subspan_count_drop d 16 4 [_; _; _; _]), bind_Done by (first [lia | discriminate | rewrite ?Hb; reflexivity]).
  eexists. split; [reflexivity|]. intros h Hh. apply (inj Some) in Hh as <-. split.
  - split; cbn [version ihl dscp ecn total_length identification fragment_offset ttl protocol checksum src dst];
      auto with wadjet; try assumption; try reflexivity; try apply u8_range; try apply be16_fits;
      (apply land_fits; [lia | reflexivity]).
  - exists (negb (be16 b5 b6 / 32768 mod 2 =? 0)). unfold encode_ipv4.
    cbn [version ihl dscp ecn total_length identification dont_fragment more_fragments fragment_offset ttl protocol
         checksum src dst].
    rewrite ipv4_flags_pack, Hv, pack_ver_ihl, pack_ds_ecn by (assumption || apply be16_fits).
    rewrite !write_be16_be16, !to_byte_u8. rewrite Hb at 1. rewrite Hb. reflexivity.
Qed.

(** *** UDP and TCP *)

Definition encode_udp (h : UdpHeader) : list byte :=
  write_be16 (u_src_port h) ++ write_be16 (u_dst_port h) ++ write_be16 (u_length h) ++ write_be16 (u_checksum h).

Definition wf_udp (h : UdpHeader) : Prop :=
  fits 16 (u_src_port h) /\ fits 16 (u_dst_port h) /\ fits 16 (u_length h) /\ fits 16 (u_checksum h).

(** [middle] are the six bits between the data offset and the flags, of which the view
    keeps nothing. *)
Definition encode_tcp (middle : Z) (h : TcpHeader) : list byte :=
  write_be16 (t_src_port h) ++ write_be16 (t_dst_port h) ++ write_be32 (t_seq_num h) ++ write_be32 (t_ack_num h) ++
  write_be16 (t_data_offset h * 4096 + middle * 64 + t_flags h) ++ write_be16 (t_window h) ++
  write_be16 (t_checksum h) ++ write_be16 (t_urgent_ptr h).

Definition wf_tcp (h : TcpHeader) : Prop :=
  fits 16 (t_src_port h) /\ fits 16 (t_dst_port h) /\ fits 32 (t_seq_num h) /\ fits 32 (t_ack_num h) /\
  fits 4 (t_data_offset h) /\ fits 6 (t_flags h) /\ fits 16 (t_window h) /\ fits 16 (t_checksum h) /\
  fits 16 (t_urgent_ptr h).

Lemma parse_udp_encode h rest : wf_udp h -> parse_udp (encode_udp h ++ rest) = Done h.
Proof.
  intros (Hs & Hd & Hl & Hc). assert (Hx : exists d, encode_udp h ++ rest = d) by eauto. destruct Hx as [d Hb].
  rewrite Hb. symmetry in Hb. cbn [encode_udp app write_be16] in Hb. unfold parse_udp.
  rewrite (be16_at_drop d 0 (u_src_port h) (drop 2 d)) by (first [rewrite Hb; reflexivity | lia | assumption]).
  rewrite (be16_at_drop d 2 (u_dst_port h) (drop 4 d)) by (first [rewrite Hb; reflexivity | lia | assumption]).
  rewrite (be16_at_drop d 4 (u_length h) (drop 6 d)) by (first [rewrite Hb; reflexivity | lia | assumption]).
  rewrite (be16_at_drop d 6 (u_checksum h) (drop 8 d)) by (first [rewrite Hb; reflexivity | lia | assumption]).
  destruct h. reflexivity.
Qed.

Lemma parse_udp_sound d :
  8 <= zlen d -> exists h, parse_udp d = Done h /\ wf_udp h /\ d = encode_udp h ++ drop 8 d.
Proof.
  intros Hl. assert (Hx : exists d0, d = d0) by eauto. destruct Hx as [d0 Hb]. rewrite Hb in Hl.
  do 8 (destruct d0 as [|? d0]; [cbn in Hl; lia|]). unfold parse_udp. repeat view_read Hb.
  eexists. split; [reflexivity|]. split; [split_and!; apply be16_fits|].
  unfold encode_udp. cbn [u_src_port u_dst_port u_length u_checksum]. rewrite !write_be16_be16. rewrite Hb. reflexivity.
Qed.

Lemma tcp_offset_flags d m f :
  fits 4 d -> 0 <= m < 64 -> fits 6 f ->
  let v := d * 4096 + m * 64 + f in fits 16 v /\ Z.land (Z.shiftr v 12) 0x0F = d /\ Z.land v 0x3F = f.
Proof. unfold fits. intros. cbv zeta. bits_arith. lia. Qed.

Lemma parse_tcp_encode middle h rest :
  0 <= middle < 64 -> wf_tcp h -> parse_tcp (encode_tcp middle h ++ rest) = Done h.
Proof.
  intros Hm (Hs & Hd & Hq & Ha & Ho & Hf & Hw & Hc & Hu).
  destruct (tcp_offset_flags _ _ _ Ho Hm Hf) as (Hof & Eo & Ef).
  assert (Hx : exists d, encode_tcp middle h ++ rest = d) by eauto. destruct Hx as [d Hb].
  rewrite Hb. symmetry in Hb. cbn [encode_tcp app write_be16 write_be32] in Hb. unfold parse_tcp.
  rewrite (be16_at_drop d 0 (t_src_port h) (drop 2 d)) by (first [rewrite Hb; reflexivity | lia | assumption]).
  rewrite (be16_at_drop d 2 (t_dst_port h) (drop 4 d)) by (first [rewrite Hb; reflexivity | lia | assumption]).
  rewrite (be32_at_drop d 4 (t_seq_num h) (drop 8 d)) by (first [rewrite Hb; reflexivity | lia | assumption]).
  rewrite (be32_at_drop d 8 (t_ack_num h) (drop 12 d)) by (first [rewrite Hb; reflexivity | lia | assumption]).
  rewrite (be16_at_drop d 12 (t_data_offset h * 4096 + middle * 64 + t_flags h) (drop 14 d))
    by (first [rewrite Hb; reflexivity | lia | assumption]).
  rewrite (be16_at_drop d 14 (t_window h) (drop 16 d)) by (first [rewrite Hb; reflexivity | lia | assumption]).
  rewrite (be16_at_drop d 16 (t_checksum h) (drop 18 d)) by (first [rewrite Hb; reflexivity | lia | assumption]).
  rewrite (be16_at_drop d 18 (t_urgent_ptr h) (drop 20 d)) by (first [rewrite Hb; reflexivity | lia | assumption]).
  rewrite !bind_Done, Eo, Ef. destruct h. reflexivity.
Qed.

Lemma tcp_offset_flags_pack v :
  fits 16 v -> Z.land (Z.shiftr v 12) 0x0F * 4096 + v / 64 mod 64 * 64 + Z.land v 0x3F = v.
Proof. unfold fits. intros Hv. bits_arith. lia. Qed.

Lemma parse_tcp_sound d :
  20 <= zlen d ->
  exists h middle, parse_tcp d = Done h /\ wf_tcp h /\ 0 <= middle < 64 /\ d = encode_tcp middle h ++ drop 20 d.
Proof.
  intros Hl. assert (Hx : exists d0, d = d0) by eauto. destruct Hx as [d0 Hb]. rewrite Hb in Hl.
  do 20 (destruct d0 as [|? d0]; [cbn in Hl; lia|]). unfold parse_tcp. repeat view_read Hb.
  eexists _, (be16 b11 b12 / 64 mod 64). split; [reflexivity|]. split_and!.
  - unfold wf_tcp. cbn [t_src_port t_dst_port t_seq_num t_ack_num t_data_offset t_flags t_window t_checksum t_urgent_ptr].
    split_and!; try apply be16_fits; try apply be32_fits; (apply land_fits; [lia | reflexivity]).
  - apply Z.mod_pos_bound. lia.
  - apply Z.mod_pos_bound. lia.
  - unfold encode_tcp.
    cbn [t_src_port t_dst_port t_seq_num t_ack_num t_data_offset t_flags t_window t_checksum t_urgent_ptr].
    rewrite tcp_offset_flags_pack by apply be16_fits. rewrite !write_be16_be16, !write_be32_be32. rewrite Hb. reflexivity.
Qed.

(** ** Frames *)

(** The type field behind the addresses: of the first tag, if there is one. *)
Definition outer_type (eh : Ethernet.EthernetHeader) : Z :=
  match eth_vlan eh with Some t => tpid t | None => eth_ethertype eh end.

Section frame.
Context (eh : Ethernet.EthernetHeader) (rest : list byte) (v : PacketView).
Context (Hwf : Ethernet.wf_header eh) (Hd : view_data v = Ethernet.encode_header eh ++ rest).

Lemma outer_type_fits : fits 16 (outer_type eh).
Proof.
  unfold outer_type. destruct (eth_vlan eh) as [t|] eqn:E; [|apply (wf_type _ Hwf)].
  apply is_vlan_type_fits, (wf_tag_tpid t (wf_outer _ Hwf t E)).
Qed.

Lemma frame_addresses :
  exists after, view_data v = eth_dst_mac eh ++ eth_src_mac eh ++ write_be16 (outer_type eh) ++ after /\
    drop 14 (view_data v) = after.
Proof.
  destruct Hwf as [Hs Ht _ _ _ Hn _ _]. destruct eh as [d s o i e n]. cbn in *. unfold outer_type. cbn [eth_vlan eth_ethertype].
  destruct_list d Hs. destruct_list s Ht. rewrite Hd. unfold Ethernet.encode_header. cbn.
  destruct o as [t|]; [|rewrite (Hn eq_refl)]; cbn; eexists; split; reflexivity.
Qed.

Lemma frame_size : size v = eth_header_len eh + zlen rest.
Proof. unfold size. rewrite Hd, length_app, (wf_len _ Hwf). lia. Qed.

Lemma frame_ethernet_header :
  ethernet_header v = Done (Some (mkEthernetHeader (eth_dst_mac eh) (eth_src_mac eh) (outer_type eh))).
Proof.
  destruct frame_addresses as (after & Hv & _). pose proof frame_size as Hsize.
  destruct (wf_header_len eh Hwf) as [Hn|Hl]; unfold ethernet_header, ETHERNET_HEADER_SIZE;
    rewrite (proj2 (Z.ltb_ge _ _)) by lia; pose proof (Ethernet.wf_dst _ Hwf) as Hs; pose proof (Ethernet.wf_src _ Hwf) as Ht;
    (rewrite (subspan_count_drop _ 0 6 (eth_dst_mac eh) (eth_src_mac eh ++ write_be16 (outer_type eh) ++ after)), bind_Done
      by (first [exact Hv | lia | intros E; rewrite E in Hs; discriminate]));
    (rewrite (subspan_count_drop _ 6 6 (eth_src_mac eh) (write_be16 (outer_type eh) ++ after)), bind_Done
      by (first [rewrite Hv; apply drop_app_Z; lia | lia | intros E; rewrite E in Ht; discriminate]));
    (rewrite (be16_at_drop _ 12 (outer_type eh) after)
      by (first [lia | apply outer_type_fits | rewrite Hv, (app_assoc (eth_dst_mac eh)); apply drop_app_Z; rewrite length_app; lia]));
    reflexivity.
Qed.

Lemma frame_type_read : be16_at (view_data v) 12 = Done (outer_type eh).
Proof.
  destruct frame_addresses as (after & Hv & _).
  apply (be16_at_drop _ 12 _ after); [lia | | apply outer_type_fits].
  rewrite Hv, (app_assoc (eth_dst_mac eh)). apply drop_app_Z. rewrite length_app, (Ethernet.wf_dst _ Hwf), (Ethernet.wf_src _ Hwf). reflexivity.
Qed.

Lemma frame_has_vlan : has_vlan v = Done (bool_decide (is_Some (eth_vlan eh))).
Proof.
  unfold has_vlan, ETHERNET_HEADER_SIZE. pose proof frame_size as Hsize.
  rewrite (proj2 (Z.ltb_ge _ _)) by (destruct (wf_header_len eh Hwf) as [|[|]]; lia).
  rewrite frame_type_read, bind_Done. f_equal. fold (is_vlan_type (outer_type eh)). unfold outer_type.
  destruct (eth_vlan eh) as [t|] eqn:E.
  - apply (wf_tag_tpid t), (wf_outer _ Hwf t E).
  - apply (wf_last _ Hwf), (wf_nesting _ Hwf E).
Qed.
End frame.

Section tagged.
Context (eh : Ethernet.EthernetHeader) (t : Ethernet.VlanTag) (rest : list byte) (v : PacketView).
Context (Hwf : Ethernet.wf_header eh) (Hd : view_data v = Ethernet.encode_header eh ++ rest).
Context (Ht : eth_vlan eh = Some t).

(** The type field behind the first tag. *)
Definition second_type : Z := match eth_vlan_inner eh with Some t' => tpid t' | None => eth_ethertype eh end.

Lemma second_type_fits : fits 16 second_type.
Proof using Hwf.
  unfold second_type. destruct (eth_vlan_inner eh) as [t'|] eqn:E; [|apply (wf_type _ Hwf)].
  apply is_vlan_type_fits, (wf_tag_tpid t' (wf_inner _ Hwf t' E)).
Qed.

Lemma tagged_bytes :
  exists after, drop 14 (view_data v) = write_be16 (Ethernet.tci t) ++ write_be16 second_type ++ after.
Proof using Hwf Hd Ht.
  rewrite Hd. destruct Hwf as [Hs Hs' _ _ _ _ _ _]. unfold second_type. destruct eh as [d s o i e n]. cbn in *. subst o.
  destruct_list d Hs. destruct_list s Hs'. destruct i as [t'|]; cbn; eexists; reflexivity.
Qed.

Lemma tagged_size : 18 <= size v.
Proof using Hwf Hd Ht.
  rewrite (frame_size eh rest v Hwf Hd), (wf_len _ Hwf). unfold Ethernet.encode_header. rewrite Ht, !length_app.
  rewrite (Ethernet.wf_dst _ Hwf), (Ethernet.wf_src _ Hwf). cbn. lia.
Qed.

Lemma tagged_reads :
  be16_at (view_data v) 14 = Done (Ethernet.tci t) /\ be16_at (view_data v) 16 = Done second_type.
Proof using Hwf Hd Ht.
  destruct tagged_bytes as [after Ha]. pose proof (wf_tag_tci t (wf_outer _ Hwf t Ht)).
  split; [eapply be16_at_drop; [lia | exact Ha | assumption]|].
  apply (be16_at_drop _ 16 _ after); [lia | | apply second_type_fits].
  change 16 with (14 + 2). rewrite <- drop_drop_Z by lia. change (Z.to_nat 14) with 14%nat. rewrite Ha. reflexivity.
Qed.

Lemma tagged_vlan_tag :
  vlan_tag v = Done (Some (mkVlanTag (Ethernet.tci t) (pcp t) (negb (Z.land (Z.shiftr (Ethernet.tci t) 12) 0x01 =? 0))
                       (vid t) second_type)).
Proof using Hwf Hd Ht.
  destruct tagged_reads as [R1 R2]. pose proof tagged_size as Hs.
  unfold vlan_tag. rewrite (frame_has_vlan eh rest v Hwf Hd), Ht, bind_Done. cbn [negb].
  change (bool_decide (is_Some (Some t))) with true. cbn [negb]. unfold ETHERNET_HEADER_SIZE, VLAN_TAG_SIZE.
  rewrite (proj2 (Z.ltb_ge _ _)) by lia. cbn [Z.sub Z.add Z.opp Pos.add Z.pos_sub].
  change (14 - 2) with 12. rewrite (frame_type_read eh rest v Hwf Hd), R1, R2. reflexivity.
Qed.

Lemma tagged_l3_offset :
  l3_offset v = Done (if (20 <? size v) && (second_type =? EtherType_VLAN) then 22 else 18).
Proof using Hwf Hd Ht.
  destruct tagged_reads as [R1 R2]. unfold l3_offset. rewrite (frame_has_vlan eh rest v Hwf Hd), Ht, bind_Done.
  change (bool_decide (is_Some (Some t))) with true. cbv iota zeta. unfold ETHERNET_HEADER_SIZE, VLAN_TAG_SIZE.
  change (14 + 4 + 2) with 20. change (14 + 4 - 2) with 16. destruct (20 <? size v); [|reflexivity].
  rewrite R2, bind_Done. destruct (second_type =? EtherType_VLAN); reflexivity.
Qed.
End tagged.

(** On a frame with at most one tag the view finds the network layer behind the
    Ethernet header; on a frame with two tags it finds none. *)
Lemma view_l3_offset eh rest v :
  Ethernet.wf_header eh -> view_data v = Ethernet.encode_header eh ++ rest -> eth_vlan_inner eh = None ->
  l3_offset v = Done (eth_header_len eh).
Proof.
  intros Hwf Hd Hi. rewrite (wf_len _ Hwf). unfold Ethernet.encode_header.
  rewrite !length_app, (Ethernet.wf_dst _ Hwf), (Ethernet.wf_src _ Hwf), Hi. destruct (eth_vlan eh) as [t|] eqn:Ht.
  - rewrite (tagged_l3_offset eh t rest v Hwf Hd Ht). unfold second_type. rewrite Hi.
    pose proof (wf_last _ Hwf Hi) as Hv. unfold is_vlan_type in Hv. apply orb_false_elim in Hv as [-> _].
    rewrite andb_false_r. reflexivity.
  - unfold l3_offset. rewrite (frame_has_vlan eh rest v Hwf Hd), Ht. reflexivity.
Qed.

Lemma view_ipv4_header eh rest v :
  Ethernet.wf_header eh -> view_data v = Ethernet.encode_header eh ++ rest ->
  ipv4_header v =
    if bool_decide (eth_vlan_inner eh = None) && (eth_ethertype eh =? EtherType_IPv4) && (20 <=? zlen rest)
    then parse_ipv4 rest else Done None.
Proof.
  intros Hwf Hd. pose proof (frame_size eh rest v Hwf Hd) as Hs. unfold ipv4_header.
  destruct (eth_vlan_inner eh) as [t'|] eqn:Hi; cbn [bool_decide decide decide_rel andb].
  - destruct (eth_vlan eh) as [t|] eqn:Ht; [|rewrite (wf_nesting _ Hwf Ht) in Hi; discriminate].
    rewrite (tagged_l3_offset eh t rest v Hwf Hd Ht), bind_Done. change (bool_decide (Some t' = None)) with false. cbn [andb].
    destruct (size v <? _); [reflexivity|]. rewrite (frame_ethernet_header eh rest v Hwf Hd), bind_Done.
    rewrite (frame_has_vlan eh rest v Hwf Hd), Ht, bind_Done. change (bool_decide (is_Some (Some t))) with true. cbv iota.
    rewrite (tagged_vlan_tag eh t rest v Hwf Hd Ht), bind_Done. cbv zeta. cbn [inner_ether_type].
    unfold second_type. rewrite Hi. pose proof (wf_tag_tpid t' (wf_inner _ Hwf t' Hi)) as Hv.
    unfold is_valid, is_vlan_type in Hv. destruct (tpid t' =? EtherType_IPv4) eqn:E; [|reflexivity].
    bool_to_prop. unfold EtherType_IPv4, EtherType_VLAN, ETHERTYPE_QINQ in *.
    destruct Hv; bool_to_prop; lia.
  - rewrite (view_l3_offset eh rest v Hwf Hd Hi), bind_Done, Hs. change (bool_decide (@None Ethernet.VlanTag = None)) with true.
    cbn [andb]. replace (eth_header_len eh + zlen rest <? eth_header_len eh + 20) with (negb (20 <=? zlen rest))
      by (destruct (Z.leb_spec 20 (zlen rest)); cbn; symmetry; [apply Z.ltb_ge | apply Z.ltb_lt]; lia).
    destruct (20 <=? zlen rest) eqn:E20; cbn [negb]; [|rewrite andb_false_r; reflexivity]. rewrite andb_true_r.
    rewrite (frame_ethernet_header eh rest v Hwf Hd), bind_Done, (frame_has_vlan eh rest v Hwf Hd), bind_Done.
    assert (Hsub : subspan (E:=DecodeError) (view_data v) (eth_header_len eh) = Done rest).
    { rewrite Hd, subspan_in by (pose proof (wf_header_len eh Hwf); rewrite length_app, (wf_len _ Hwf); lia).
      rewrite (wf_len _ Hwf), drop_app_Z by reflexivity. reflexivity. }
    destruct (eth_vlan eh) as [t|] eqn:Ht.
    + change (bool_decide (is_Some (Some t))) with true. cbv iota. rewrite (tagged_vlan_tag eh t rest v Hwf Hd Ht), bind_Done.
      cbv zeta. cbn [inner_ether_type]. unfold second_type. rewrite Hi.
      destruct (_ =? _); [|reflexivity]. cbn [negb]. rewrite Hsub. reflexivity.
    + change (bool_decide (is_Some (@None Ethernet.VlanTag))) with false. cbv iota. rewrite bind_Done. cbv zeta.
      cbn [v_ether_type]. unfold outer_type. rewrite Ht. destruct (_ =? _); [|reflexivity]. cbn [negb]. rewrite Hsub. reflexivity.
Qed.

(** ** Totality *)

Lemma has_vlan_total v : total (has_vlan v).
Proof.
  unfold has_vlan, ETHERNET_HEADER_SIZE. destruct (size v <? 14) eqn:E; [apply total_Done|]. bool_to_prop. unfold size in E.
  destruct (be16_at_in (view_data v) 12) as (x & -> & _); [lia | lia|]. apply total_Done.
Qed.

Lemma ethernet_header_total v : total (ethernet_header v).
Proof.
  unfold ethernet_header, ETHERNET_HEADER_SIZE. destruct (size v <? 14) eqn:E; [apply total_Done|]. bool_to_prop. unfold size in E.
  rewrite !subspan_count_in, !bind_Done by lia.
  destruct (be16_at_in (view_data v) 12) as (x & -> & _); [lia | lia|]. apply total_Done.
Qed.

Lemma vlan_tag_total v : total (vlan_tag v).
Proof.
  unfold vlan_tag, ETHERNET_HEADER_SIZE, VLAN_TAG_SIZE. apply total_bind; [apply has_vlan_total | intros b _].
  destruct (negb b); [apply total_Done|]. destruct (size v <? 14 + 4) eqn:E; [apply total_Done|]. bool_to_prop. unfold size in E.
  destruct (be16_at_in (view_data v) (14 - 2)) as (x & -> & _); [lia | lia|].
  destruct (be16_at_in (view_data v) 14) as (y & -> & _); [lia | lia|].
  destruct (be16_at_in (view_data v) 16) as (z & -> & _); [lia | lia|]. apply total_Done.
Qed.

Lemma l3_offset_total v : exists o, l3_offset v = Done o /\ 14 <= o.
Proof.
  unfold l3_offset, ETHERNET_HEADER_SIZE, VLAN_TAG_SIZE. destruct (has_vlan_total v) as [[] ->]; rewrite bind_Done; cbv zeta;
    [|eexists; split; [reflexivity | lia]].
  destruct (14 + 4 + 2 <? size v) eqn:E; [|eexists; split; [reflexivity | lia]]. bool_to_prop. unfold size in E.
  destruct (be16_at_in (view_data v) (14 + 4 - 2)) as (x & -> & _); [lia | lia|].
  eexists. split; [reflexivity|]. destruct (x =? _); lia.
Qed.

(** ** What a view returns *)

(** Frames long enough for an IPv4 header start with an Ethernet header. *)
Lemma view_frame v :
  22 <= size v -> exists eh rest, Ethernet.wf_header eh /\ view_data v = Ethernet.encode_header eh ++ rest.
Proof.
  intros Hs. destruct (Ethernet.decode_impl (context_of (view_data v))) as [[eh next]|e|] eqn:E.
  - exists eh, (data next). exact (ethernet_decode_sound _ _ _ E).
  - exfalso. assert (Hno : ~ exists eh rest, Ethernet.wf_header eh /\
      data (context_of (view_data v)) = Ethernet.encode_header eh ++ rest).
    { intros (eh & rest & Hw & Hd). rewrite (ethernet_decode_encode _ eh rest Hd Hw) in E. discriminate. }
    apply ethernet_decode_errors in Hno as (e' & _ & _ & _ & Hlt). cbn [context_of data] in Hlt. unfold size in Hs. lia.
  - destruct (decode_defined _ E).
Qed.

(** The view is of an IPv4 packet with header [h] in a frame with header [eh]. *)
Definition network (v : PacketView) (eh : Ethernet.EthernetHeader) (h : IPv4Header) : Prop :=
  Ethernet.wf_header eh /\ eth_vlan_inner eh = None /\ eth_ethertype eh = EtherType_IPv4 /\ wf_ipv4 h /\
  exists reserved rest, view_data v = Ethernet.encode_header eh ++ encode_ipv4 reserved h ++ rest.

Lemma length_encode_ipv4 reserved h : wf_ipv4 h -> length (encode_ipv4 reserved h) = 20%nat.
Proof.
  intros Hwf. unfold encode_ipv4. cbn [length app write_be16]. rewrite length_app, (wf_src _ Hwf), (wf_dst _ Hwf). reflexivity.
Qed.

Lemma ipv4_header_exact v :
  exists r, ipv4_header v = Done r /\ forall h, r = Some h <-> exists eh, network v eh h.
Proof.
  assert (Hback : forall eh h, network v eh h -> ipv4_header v = Done (Some h)).
  { intros eh h (Hwf & Hi & Ht & Hh & reserved & rest & Hd). rewrite (view_ipv4_header eh _ v Hwf Hd), Hi, Ht.
    rewrite (proj2 (Z.leb_le _ _)) by (rewrite length_app, length_encode_ipv4 by assumption; lia).
    cbn [bool_decide decide decide_rel andb Z.eqb]. apply parse_ipv4_encode, Hh. }
  assert (Hr : exists r, ipv4_header v = Done r /\ forall h, r = Some h -> exists eh, network v eh h).
  { destruct (Z.lt_ge_cases (size v) 34) as [Hs|Hs].
    - exists None. split; [|discriminate]. unfold ipv4_header. destruct (l3_offset_total v) as (o & -> & Ho).
      rewrite bind_Done, (proj2 (Z.ltb_lt _ _)) by lia. reflexivity.
    - destruct (view_frame v) as (eh & rest & Hwf & Hd); [lia|]. rewrite (view_ipv4_header eh rest v Hwf Hd).
      destruct (bool_decide _ && _ && _) eqn:E; [|exists None; split; [reflexivity | discriminate]].
      apply andb_prop in E as [E E3]. apply andb_prop in E as [E1 E2]. bool_to_prop. apply bool_decide_eq_true in E1.
      destruct (parse_ipv4_sound rest E3) as (r & -> & Hsound). exists r. split; [reflexivity|]. intros h Hh.
      destruct (Hsound h Hh) as [Hw [reserved Henc]]. exists eh. split_and!; try assumption. exists reserved, (drop 20 rest).
      rewrite <- Henc. exact Hd. }
  destruct Hr as (r & Hr & Hsound). exists r. split; [exact Hr|]. intros h. split; [apply Hsound|].
  intros [eh Hn]. rewrite (Hback eh h Hn) in Hr. apply Done_inj in Hr. symmetry. exact Hr.
Qed.

Lemma network_offsets v eh h :
  network v eh h -> l3_offset v = Done (eth_header_len eh) /\ l4_offset v = Done (eth_header_len eh + ihl h * 4).
Proof.
  intros Hn. pose proof Hn as (Hwf & Hi & _ & _ & reserved & rest & Hd).
  pose proof (view_l3_offset eh _ v Hwf Hd Hi) as H3. split; [exact H3|]. unfold l4_offset.
  destruct (ipv4_header_exact v) as (r & -> & Hr). rewrite (proj2 (Hr h) (ex_intro _ eh Hn)), bind_Done, H3. reflexivity.
Qed.

Lemma network_ipv4 v eh h : network v eh h -> ipv4_header v = Done (Some h).
Proof. intros Hn. destruct (ipv4_header_exact v) as (r & -> & Hr). rewrite (proj2 (Hr h) (ex_intro _ eh Hn)). reflexivity. Qed.

(** The bytes behind the IPv4 header. *)
Definition segment (v : PacketView) (eh : Ethernet.EthernetHeader) (h : IPv4Header) : list byte :=
  drop (Z.to_nat (eth_header_len eh + ihl h * 4)) (view_data v).

Lemma network_l4_range v eh h : network v eh h -> 14 <= eth_header_len eh + ihl h * 4.
Proof.
  intros (Hwf & _ & _ & Hh & _). pose proof (wf_header_len eh Hwf). destruct (wf_ihl _ Hh). lia.
Qed.

Lemma transport_header_exact {A} p n (parse : list byte -> decoded A) (layout : A -> list byte -> Prop) v :
  0 < n -> (forall d, n <= zlen d -> exists a, parse d = Done a /\ layout a d) ->
  (forall d a, layout a d -> n <= zlen d /\ parse d = Done a) ->
  exists r, transport_header p n parse v = Done r /\
    forall a, r = Some a <-> exists eh h, network v eh h /\ protocol h = p /\ layout a (segment v eh h).
Proof.
  intros Hn Hparse Hlay. unfold transport_header. destruct (ipv4_header_exact v) as (r & -> & Hr). rewrite bind_Done.
  destruct r as [h|].
  2:{ exists None. split; [reflexivity|]. intros a. split; [discriminate|]. intros (eh & h & Hnet & _).
      discriminate (proj2 (Hr h) (ex_intro _ eh Hnet)). }
  destruct (proj1 (Hr h) eq_refl) as [eh Hnet]. destruct (network_offsets v eh h Hnet) as [H3 H4].
  pose proof (network_l4_range v eh h Hnet) as Hge.
  assert (Huniq : forall eh' h', network v eh' h' -> h' = h /\ segment v eh' h' = segment v eh h).
  { intros eh' h' Hnet'. pose proof (proj2 (Hr h') (ex_intro _ eh' Hnet')) as [= ->]. split; [reflexivity|].
    destruct (network_offsets v eh' h' Hnet') as [_ H4']. rewrite H4 in H4'. apply Done_inj in H4'. unfold segment. rewrite H4'. reflexivity. }
  destruct (negb (protocol h =? p)) eqn:Hp; bool_to_prop.
  { exists None. split; [reflexivity|]. intros a. split; [discriminate|]. intros (eh' & h' & Hnet' & Hp' & _).
    destruct (Huniq eh' h' Hnet') as [-> _]. contradiction. }
  rewrite H4, bind_Done. destruct (size v <? _) eqn:Hs; bool_to_prop.
  - exists None. split; [reflexivity|]. intros a. split; [discriminate|]. intros (eh' & h' & Hnet' & _ & Hl).
    destruct (Huniq eh' h' Hnet') as [-> Hseg]. rewrite Hseg in Hl. destruct (Hlay _ _ Hl) as [Hlen _].
    unfold segment, size in *. rewrite length_drop in Hlen. lia.
  - rewrite subspan_in, bind_Done by (unfold size in Hs; lia). fold (segment v eh h).
    destruct (Hparse (segment v eh h)) as (a & Ha & Hla); [unfold segment, size in *; rewrite length_drop; lia|].
    rewrite Ha, bind_Done. exists (Some a). split; [reflexivity|]. intros a'. split.
    + intros [= <-]. eauto.
    + intros (eh' & h' & Hnet' & _ & Hl). destruct (Huniq eh' h' Hnet') as [-> Hseg]. rewrite Hseg in Hl.
      destruct (Hlay _ _ Hl) as [_ Ha']. rewrite Ha in Ha'. apply Done_inj in Ha'. congruence.
Qed.

Definition udp_layout (u : UdpHeader) (d : list byte) : Prop := wf_udp u /\ exists rest, d = encode_udp u ++ rest.
Definition tcp_layout (t : TcpHeader) (d : list byte) : Prop :=
  wf_tcp t /\ exists middle rest, 0 <= middle < 64 /\ d = encode_tcp middle t ++ rest.

Lemma udp_header_exact v :
  exists r, udp_header v = Done r /\
    forall u, r = Some u <-> exists eh h, network v eh h /\ protocol h = IpProtocol_UDP /\ udp_layout u (segment v eh h).
Proof.
  apply transport_header_exact; [lia | |].
  - intros d Hl. destruct (parse_udp_sound d Hl) as (u & Hu & Hw & Hd). exists u. split; [exact Hu|]. split; [exact Hw | eauto].
  - intros d u [Hw [rest ->]]. split; [rewrite length_app; cbn; lia | apply parse_udp_encode, Hw].
Qed.

Lemma tcp_header_exact v :
  exists r, tcp_header v = Done r /\
    forall t, r = Some t <-> exists eh h, network v eh h /\ protocol h = IpProtocol_TCP /\ tcp_layout t (segment v eh h).
Proof.
  apply transport_header_exact; [lia | |].
  - intros d Hl. destruct (parse_tcp_sound d Hl) as (t & m & Ht & Hw & Hm & Hd). exists t. split; [exact Ht|]. split; [exact Hw | eauto].
  - intros d t [Hw (m & rest & Hm & ->)]. split; [rewrite length_app; cbn; lia | apply parse_tcp_encode; assumption].
Qed.

(** How many bytes of the segment [payload] skips. *)
Definition transport_size (h : IPv4Header) (t : option TcpHeader) : Z :=
  if protocol h =? IpProtocol_UDP then 8
  else match t with Some t => t_data_offset t * 4 | None => 0 end.

Lemma payload_exact v eh h t :
  network v eh h -> tcp_header v = Done t ->
  payload v = Done (drop (Z.to_nat (transport_size h t)) (segment v eh h)).
Proof.
  intros Hn Ht. destruct (network_offsets v eh h Hn) as [_ H4]. pose proof (network_l4_range v eh h Hn) as Hge.
  assert (Hsize : 0 <= transport_size h t).
  { unfold transport_size. destruct (_ =? _); [lia|]. destruct t as [t|]; [|lia].
    destruct (tcp_header_exact v) as (r & Hr & Hx). rewrite Ht in Hr. apply Done_inj in Hr as <-.
    destruct (proj1 (Hx t) eq_refl) as (eh' & h' & _ & _ & (_ & _ & _ & _ & [Ho _] & _) & _). lia. }
  set (offset := eth_header_len eh + ihl h * 4) in *.
  assert (Hoff : (if protocol h =? IpProtocol_UDP then Done (offset + 8)
             else if protocol h =? IpProtocol_TCP then
               tcp_hdr ← tcp_header v;
               Done (match tcp_hdr with Some t => offset + t_data_offset t * 4 | None => offset end)
             else Done offset) = Done (E:=DecodeError) (offset + transport_size h t)).
  { unfold transport_size. destruct (protocol h =? IpProtocol_UDP); [reflexivity|].
    destruct (protocol h =? IpProtocol_TCP) eqn:Hp.
    - rewrite Ht, bind_Done. destruct t; f_equal; lia.
    - destruct t as [t|]; [|f_equal; lia]. destruct (tcp_header_exact v) as (r & Hr & Hx). rewrite Ht in Hr. apply Done_inj in Hr as <-.
      destruct (proj1 (Hx t) eq_refl) as (eh' & h' & Hn' & Hp' & _). apply network_ipv4 in Hn, Hn'. rewrite Hn in Hn'.
      apply Done_inj in Hn'. apply (inj Some) in Hn' as <-. rewrite Hp' in Hp. discriminate. }
  unfold payload. rewrite (network_ipv4 v eh h Hn), bind_Done. rewrite H4, bind_Done, Hoff, bind_Done.
  unfold segment. fold offset. rewrite drop_drop_Z, (Z.add_comm offset) by lia. rewrite Z.add_comm. destruct (size v <=? _) eqn:Hs; bool_to_prop; unfold size in Hs.
  - rewrite drop_ge by lia. reflexivity.
  - apply subspan_in. lia.
Qed.

(** The accessors are total on every frame and return exactly what is laid out in it.
    An IPv4 header is returned if and only if the frame is an Ethernet header with at
    most one VLAN tag and type IPv4, followed by the twenty bytes of this header,
    version 4; a UDP or TCP header if and only if its bytes lie [ihl] words behind
    the start of an IPv4 header with its protocol number; the payload is what follows
    the transport header, or the IPv4 header where there is none, and is empty without
    an IPv4 header. *)
Theorem packet_view_exact (v : PacketView) :
  total (ethernet_header v) /\ total (has_vlan v) /\ total (vlan_tag v) /\
  (exists r, ipv4_header v = Done r /\ forall h, r = Some h <-> exists eh, network v eh h) /\
  (exists r, udp_header v = Done r /\
     forall u, r = Some u <-> exists eh h, network v eh h /\ protocol h = IpProtocol_UDP /\ udp_layout u (segment v eh h)) /\
  (exists r, tcp_header v = Done r /\
     forall t, r = Some t <-> exists eh h, network v eh h /\ protocol h = IpProtocol_TCP /\ tcp_layout t (segment v eh h)) /\
  (exists p, payload v = Done p /\
     ((forall eh h, ~ network v eh h) -> p = []) /\
     (forall eh h t, network v eh h -> tcp_header v = Done t ->
        l3_offset v = Done (eth_header_len eh) /\ l4_offset v = Done (eth_header_len eh + ihl h * 4) /\
        p = drop (Z.to_nat (transport_size h t)) (segment v eh h))).
Proof.
  split_and!; [apply ethernet_header_total | apply has_vlan_total | apply vlan_tag_total | apply ipv4_header_exact |
               apply udp_header_exact | apply tcp_header_exact |].
  destruct (ipv4_header_exact v) as (r & Hr & Hx). destruct (tcp_header_exact v) as (t & Ht & _).
  destruct r as [h|].
  - destruct (proj1 (Hx h) eq_refl) as [eh Hn]. exists (drop (Z.to_nat (transport_size h t)) (segment v eh h)).
    split_and!; [apply payload_exact; assumption | intros Hno; destruct (Hno eh h Hn) |].
    intros eh' h' t' Hn' Ht'. destruct (network_offsets v eh' h' Hn') as [H3 H4]. split_and!; try assumption.
    pose proof (payload_exact v eh h t Hn Ht) as P. rewrite (payload_exact v eh' h' t' Hn' Ht') in P. apply Done_inj in P. symmetry. exact P.
  - exists []. split_and!; [unfold payload; rewrite Hr; reflexivity | reflexivity |].
    intros eh h t' Hn. discriminate (proj2 (Hx h) (ex_intro _ eh Hn)).
Qed.

(** ** Agreement with the decoders *)

Definition of_ethernet (eh : Ethernet.EthernetHeader) : EthernetHeader :=
  mkEthernetHeader (eth_dst_mac eh) (eth_src_mac eh) (outer_type eh).
Definition of_ipv4 (h : Ipv4.IPv4Header) : IPv4Header :=
  mkIPv4Header (ip_version h) (ip_ihl h) (ip_dscp h) (ip_ecn h) (ip_total_length h) (ip_identification h)
    (Ipv4.dont_fragment (ip_flags h)) (Ipv4.more_fragments (ip_flags h)) (ip_fragment_offset h) (ip_ttl h) (ip_protocol h)
    (ip_checksum h) (ip_src h) (ip_dst h).
Definition of_udp (h : Udp.UdpHeader) : UdpHeader :=
  mkUdpHeader (udp_src_port h) (udp_dst_port h) (udp_length h) (udp_checksum h).
(** The view keeps six of the nine flags. *)
Definition of_tcp (h : Tcp.TcpHeader) : TcpHeader :=
  mkTcpHeader (tcp_src_port h) (tcp_dst_port h) (seq_num h) (ack_num h) (data_offset h)
    (Tcp.flags_value (tcp_flags h) mod 64) (tcp_window h) (tcp_checksum h) (urgent_ptr h).

Lemma of_ipv4_layout opts ih :
  Ipv4.wf_header opts ih ->
  wf_ipv4 (of_ipv4 ih) /\
  Ipv4.encode_header ih = encode_ipv4 (Ipv4.reserved (ip_flags ih)) (of_ipv4 ih) ++ ip_options ih /\
  zlen (Ipv4.encode_header ih) = ip_ihl ih * 4.
Proof.
  intros [Hv Hihl Hds Hec Htot Hid Hfr Httl Hpr Hck Hsrc Hdst Hopt _ _ _]. split_and!.
  - split; cbn; try assumption; [unfold fits; lia | unfold fits, Ipv4.header_size in *; lia].
  - unfold Ipv4.encode_header, encode_ipv4, of_ipv4, Ipv4.flags_value.
    cbn [version ihl dscp ecn total_length identification dont_fragment more_fragments fragment_offset ttl protocol
         checksum src dst write_be16 app]. rewrite <- !app_assoc. reflexivity.
  - unfold Ipv4.encode_header. cbn [length app write_be16]. rewrite !length_app.
    unfold Ipv4.header_size, Ipv4.MIN_HEADER_SIZE in Hopt. lia.
Qed.

Lemma of_udp_layout opts uh rest :
  Udp.wf_header opts uh -> udp_layout (of_udp uh) (Udp.encode_header uh ++ rest).
Proof.
  intros [Hs Hd Hl Hc _]. split; [|exists rest; reflexivity]. unfold Udp.HEADER_SIZE in *. split_and!; cbn; try assumption. unfold fits. lia.
Qed.

Lemma of_tcp_layout opts th reserved raw rest :
  Tcp.wf_header opts th reserved raw -> tcp_layout (of_tcp th) (Tcp.encode_header th reserved raw ++ rest).
Proof.
  intros [Hs Hd Hq Ha Ho Hr Hw Hc Hu _ _ _]. pose proof (tcp_flags_value_range (tcp_flags th)) as Hf. split.
  - split_and!; cbn; try assumption; unfold fits; lia.
  - exists (reserved * 8 + Tcp.flags_value (tcp_flags th) / 64), (raw ++ rest). split; [lia|].
    unfold Tcp.encode_header, encode_tcp, of_tcp. cbn [t_src_port t_dst_port t_seq_num t_ack_num t_data_offset t_flags
      t_window t_checksum t_urgent_ptr]. rewrite <- !app_assoc. do 5 f_equal. f_equal. lia.
Qed.

Lemma udp_header_of v eh h u :
  network v eh h -> protocol h = IpProtocol_UDP -> udp_layout u (segment v eh h) ->
  udp_header v = Done (Some u) /\ tcp_header v = Done None.
Proof.
  intros Hn Hp Hl. destruct (udp_header_exact v) as (r & -> & Hr). rewrite (proj2 (Hr u)) by eauto. split; [reflexivity|].
  unfold tcp_header, transport_header. rewrite (network_ipv4 v eh h Hn), bind_Done, Hp. reflexivity.
Qed.

Lemma tcp_header_of v eh h t :
  network v eh h -> protocol h = IpProtocol_TCP -> tcp_layout t (segment v eh h) ->
  tcp_header v = Done (Some t) /\ udp_header v = Done None.
Proof.
  intros Hn Hp Hl. destruct (tcp_header_exact v) as (r & -> & Hr). rewrite (proj2 (Hr t)) by eauto. split; [reflexivity|].
  unfold udp_header, transport_header. rewrite (network_ipv4 v eh h Hn), bind_Done, Hp. reflexivity.
Qed.

(** [C27] On every frame that the decoders take apart, the views show what the decoders
    return: behind at most one VLAN tag the same IPv4, UDP and TCP header, under any
    decoder options, and the same payload.  On frames with two tags, which the
    Ethernet decoder accepts, they show no IPv4 header and no payload. *)
Theorem packet_view_agrees (v : PacketView) (iopts : Ipv4.Options) (eh : Ethernet.EthernetHeader) (c1 : DecodeContext) :
  Ethernet.decode_impl (context_of (view_data v)) = Done (eh, c1) ->
  ethernet_header v = Done (Some (of_ethernet eh)) /\ has_vlan v = Done (Ethernet.has_vlan eh) /\
  (Ethernet.has_qinq eh = true -> ipv4_header v = Done None /\ payload v = Done []) /\
  (forall ih c2, Ethernet.has_qinq eh = false -> Ipv4.can_decode c1 = true -> Ipv4.decode_impl iopts c1 = Done (ih, c2) ->
     ipv4_header v = Done (Some (of_ipv4 ih)) /\
     (forall uopts uh c3, Udp.can_decode c2 = true -> Udp.decode_impl uopts c2 = Done (uh, c3) ->
        udp_header v = Done (Some (of_udp uh)) /\ tcp_header v = Done None /\ payload v = Done (data c3)) /\
     (forall topts th c3, Tcp.can_decode c2 = true -> Tcp.decode_impl topts c2 = Done (th, c3) ->
        tcp_header v = Done (Some (of_tcp th)) /\ udp_header v = Done None /\ payload v = Done (data c3))).
Proof.
  intros He. pose proof (ethernet_decode_next _ _ _ He) as Hc1. apply ethernet_decode_sound in He as [Hwf Hd]. cbn [context_of data] in Hd.
  split_and!; [exact (frame_ethernet_header eh _ v Hwf Hd) | exact (frame_has_vlan eh _ v Hwf Hd) | |].
  { intros Hq. assert (Hip : ipv4_header v = Done None).
    { rewrite (view_ipv4_header eh _ v Hwf Hd). unfold has_qinq in Hq.
      destruct (eth_vlan_inner eh) as [t'|]; [reflexivity | discriminate]. }
    split; [exact Hip|]. unfold payload. rewrite Hip. reflexivity. }
  intros ih c2 Hq Hcan Hi. unfold Ethernet.has_qinq in Hq. destruct (eth_vlan_inner eh) eqn:Hinner; [discriminate|].
  unfold Ipv4.can_decode in Hcan. rewrite Hc1 in Hcan. cbn [Ethernet.next_of layer_info li_ethertype] in Hcan. bool_to_prop.
  pose proof (ipv4_decode_next _ _ _ _ Hi) as Hc2. apply ipv4_decode_sound in Hi as [Hwi Hdi]. destruct (of_ipv4_layout iopts ih Hwi) as (Hw & Henc & Hlen).
  assert (Hn : network v eh (of_ipv4 ih)).
  { split_and!; try assumption. exists (Ipv4.reserved (ip_flags ih)), (ip_options ih ++ data c2).
    rewrite Hd, Hdi, Henc, <- app_assoc. reflexivity. }
  assert (Hseg : segment v eh (of_ipv4 ih) = data c2).
  { unfold segment. rewrite Hd, Hdi, (wf_len _ Hwf). cbn [ihl of_ipv4]. rewrite app_assoc. apply drop_app_Z.
    rewrite length_app. lia. }
  split_and!; [exact (network_ipv4 v eh _ Hn) | |].
  - intros uopts uh c3 Hcan2 Hu. unfold Udp.can_decode in Hcan2. rewrite Hc2 in Hcan2. cbn [Ipv4.next_of layer_info li_ip_protocol] in Hcan2.
    bool_to_prop. apply udp_decode_sound in Hu as [Hwu Hdu].
    destruct (udp_header_of v eh _ (of_udp uh) Hn Hcan2) as [H1 H2]; [rewrite Hseg, Hdu; apply (of_udp_layout uopts), Hwu|].
    split_and!; [exact H1 | exact H2|]. rewrite (payload_exact v eh _ None Hn H2), Hseg, Hdu. unfold transport_size.
    cbn [protocol of_ipv4]. rewrite Hcan2. reflexivity.
  - intros topts th c3 Hcan2 Hu. unfold Tcp.can_decode in Hcan2. rewrite Hc2 in Hcan2. cbn [Ipv4.next_of layer_info li_ip_protocol] in Hcan2.
    bool_to_prop. apply tcp_decode_sound in Hu as (reserved & raw & Hwt & Hdt).
    destruct (tcp_header_of v eh _ (of_tcp th) Hn Hcan2) as [H1 H2]; [rewrite Hseg, Hdt; apply (of_tcp_layout topts), Hwt|].
    split_and!; [exact H1 | exact H2|]. rewrite (payload_exact v eh _ _ Hn H1), Hseg, Hdt. unfold transport_size.
    cbn [protocol of_ipv4]. rewrite Hcan2. cbn [Z.eqb Pos.eqb IpProtocol_TCP IpProtocol_UDP].
    pose proof (Tcp.wf_raw _ _ _ _ Hwt) as Hr. unfold Tcp.header_size, Tcp.MIN_HEADER_SIZE in Hr.
    change (6 =? 17) with false. cbv iota. f_equal. apply drop_app_Z. unfold Tcp.encode_header, of_tcp. cbn [t_data_offset length app write_be16 write_be32]. lia.
Qed.

(** A UDP datagram in a tagged frame. *)
Definition example_frame : list byte :=
  [x01; x02; x03; x04; x05; x06; x0a; x0b; x0c; x0d; x0e; x0f; x81; x00; x20; x05; x08; x00] ++
  [x45; x00; x00; x1e; x00; x01; x40; x00; x40; x11; x00; x00; x0a; x00; x00; x01; x0a; x00; x00; x02] ++
  [x00; x35; x04; xd2; x00; x0a; x00; x00; x68; x69].

Lemma packet_view_agrees_witness :
  let v := mkPacketView example_frame 0 in
  exists ih, ipv4_header v = Done (Some (of_ipv4 ih)) /\ ip_dst ih = [x0a; x00; x00; x02] /\
    udp_header v = Done (Some (mkUdpHeader 53 1234 10 0)) /\ tcp_header v = Done None /\ payload v = Done [x68; x69].
Proof.
  intros v. destruct (Ethernet.decode_impl (context_of (view_data v))) as [[eh c1]| |] eqn:E; [|discriminate E..].
  destruct (packet_view_agrees v (Ipv4.mkOptions false false) eh c1 E) as (_ & _ & _ & H).
  vm_compute in E. injection E as <- <-.
  destruct (H _ _ eq_refl eq_refl ltac:(vm_compute; reflexivity)) as (H1 & Hu & _).
  destruct (Hu Udp.Options_default _ _ eq_refl ltac:(vm_compute; reflexivity)) as (H2 & H3 & H4).
  eexists. split_and!; [exact H1 | reflexivity | exact H2 | exact H3 | exact H4].
Defined.

(** Sub-views are clipped to the frame and keep its time. *)
Lemma subview_exact v offset length :
  0 <= offset -> 0 <= length ->
  subview offset v = Done (mkPacketView (drop (Z.to_nat offset) (view_data v)) (view_timestamp v)) /\
  subview_length offset length v =
    Done (mkPacketView (take (Z.to_nat length) (drop (Z.to_nat offset) (view_data v))) (view_timestamp v)).
Proof.
  intros Ho Hl. unfold subview, subview_length, size. destruct (_ <=? offset) eqn:E; bool_to_prop.
  - rewrite drop_ge, take_nil by lia. split; reflexivity.
  - rewrite subspan_in, subspan_count_in, !bind_Done by lia. split; [reflexivity|]. do 2 f_equal.
    destruct (Z.le_ge_cases length (zlen (view_data v) - offset)).
    + rewrite Z.min_l by assumption. reflexivity.
    + rewrite Z.min_r by assumption. rewrite !take_ge by (rewrite length_drop; lia). reflexivity.
Qed.
