(* ===== verification/Validation.v ===== *)
(** * Cross-protocol validation (src/protocols/validation.cpp,
    include/wadjet/protocols/validation.hpp)

    The validator of decoded layers: their order, their lengths and their checksums, in
    the strict mode, which stops at the first error, and in the lenient one.  The
    layers are given by the caller, so their offsets and lengths are arbitrary 64-bit
    integers, whose sums wrap. *)

From Stdlib Require Import ZArith Lia.
From Stdlib Require Import Strings.Byte.
From stdpp Require Import base numbers list strings pretty.
From S2P Require Import Prelude ByteOrder Checksum Decoder.

Inductive ValidationMode := Strict | Lenient.

Record ValidationResult := mkResult { is_valid : bool; mode : ValidationMode; errors : list DecodeError }.

Definition new_result (m : ValidationMode) : ValidationResult := mkResult true m [].

Definition add_error (e : DecodeError) (r : ValidationResult) : ValidationResult :=
  mkResult false (mode r) (errors r ++ [e]).

Definition error_count (r : ValidationResult) : Z := zlen (errors r).

Record ProtocolLayer := mkLayer {
  name : string;
  offset : Z;
  header_length : Z;
  payload_length : Z;
  ethertype : Z;
  layer_checksum : Z;
  has_checksum : bool
}.

(** ** Validators

    A validator appends errors to its result and may return early ([None]); [mode_] is
    the mode of the [ProtocolValidator]. *)
Definition validator (A : Type) : Type := ValidationMode -> ValidationResult -> decoded (ValidationResult * option A).

Definition continue {A} (a : A) : validator A := fun _ r => Done (r, Some a).

Definition and_then {A B} (m : validator A) (k : A -> validator B) : validator B := fun mode_ r =>
  ra ← m mode_ r;
  match ra with
  | (r, Some a) => k a mode_ r
  | (r, None) => Done (r, None)
  end.

(** [result.add_error(code, offset, message); if (mode_ == Strict) return result;] *)
Definition report (code : DecodeErrorCode) (off : Z) (message : string) : validator unit := fun mode_ r =>
  Done (add_error (new_DecodeError code off message) r, match mode_ with Strict => None | Lenient => Some tt end).

Definition report_if (b : bool) (code : DecodeErrorCode) (off : Z) (message : string) : validator unit :=
  if b then report code off message else continue tt.

(** A read of the packet. *)
Definition reading {A} (m : decoded A) : validator A := fun _ r => a ← m; Done (r, Some a).

Declare Scope validator_scope.
Notation "x <- m ;; k" := (and_then m (fun x => k)) (at level 60, m at next level, right associativity) : validator_scope.
Notation "m ;;; k" := (and_then m (fun _ => k)) (at level 60, right associativity) : validator_scope.
#[local] Open Scope validator_scope.

(** The result that a call returns. *)
Definition run (m : validator unit) (mode_ : ValidationMode) : decoded ValidationResult :=
  ra ← m mode_ (new_result mode_); Done ra.1.

(** ** Layering *)

Record Seen := mkSeen { seen_ipv4 : bool; seen_ipv6 : bool; seen_transport : bool; seen_application : bool }.

Definition is_name (layer : ProtocolLayer) (s : string) : bool := String.eqb (name layer) s.

Definition check_first (layer : ProtocolLayer) : validator unit :=
  report_if (negb (is_name layer "Ethernet") && negb (is_name layer "VLAN") && negb (is_name layer "PPP") &&
             negb (is_name layer "Raw"))
    InvalidHeader (offset layer) "First layer must be link layer (Ethernet, VLAN, PPP, or Raw)".

(** One turn of the loop. *)
Definition check_layer (s : Seen) (layer : ProtocolLayer) : validator Seen :=
  if is_name layer "Ethernet" || is_name layer "VLAN" then continue s
  else if is_name layer "IPv4" then
    report_if (seen_ipv6 s) InvalidHeader (offset layer) "Cannot have IPv4 after IPv6" ;;;
    report_if (seen_transport s || seen_application s) InvalidHeader (offset layer)
      "Network layer (IPv4) must come before transport layer" ;;;
    continue (mkSeen true (seen_ipv6 s) (seen_transport s) (seen_application s))
  else if is_name layer "IPv6" then
    report_if (seen_ipv4 s) InvalidHeader (offset layer) "Cannot mix IPv4 and IPv6" ;;;
    report_if (seen_transport s || seen_application s) InvalidHeader (offset layer)
      "Network layer (IPv6) must come before transport layer" ;;;
    continue (mkSeen (seen_ipv4 s) true (seen_transport s) (seen_application s))
  else if is_name layer "UDP" || is_name layer "TCP" || is_name layer "SCTP" then
    report_if (negb (seen_ipv4 s) && negb (seen_ipv6 s)) InvalidHeader (offset layer)
      "Transport layer must follow network layer (IPv4 or IPv6)" ;;;
    report_if (seen_application s) InvalidHeader (offset layer) "Cannot have multiple transport layers" ;;;
    continue (mkSeen (seen_ipv4 s) (seen_ipv6 s) true (seen_application s))
  else if is_name layer "SOME/IP" || is_name layer "SOME/IP-SD" || is_name layer "DoIP" || is_name layer "UDS" ||
          is_name layer "DDS" || is_name layer "gPTP" then
    report_if (negb (is_name layer "gPTP") && negb (seen_transport s) && negb (seen_ipv4 s) && negb (seen_ipv6 s))
      InvalidHeader (offset layer) "Application layer must follow transport/network layers" ;;;
    continue (mkSeen (seen_ipv4 s) (seen_ipv6 s) (seen_transport s) true)
  else continue s.

Fixpoint layering_loop (i : nat) (s : Seen) (layers : list ProtocolLayer) : validator unit :=
  match layers with
  | [] => continue tt
  | layer :: layers' =>
      (match i with O => check_first layer | S _ => continue tt end) ;;;
      s <- check_layer s layer ;;
      layering_loop (S i) s layers'
  end.

Definition validateLayering (layers : list ProtocolLayer) (mode_ : ValidationMode) : decoded ValidationResult :=
  run (layering_loop 0 (mkSeen false false false false) layers) mode_.

(** ** Lengths *)

Definition layer_total (layer : ProtocolLayer) : Z := uint 64 (header_length layer + payload_length layer).
Definition layer_end (layer : ProtocolLayer) : Z := uint 64 (offset layer + layer_total layer).

(** The loop returns [expected_total]. *)
Fixpoint lengths_loop (expected_total last_end : Z) (layers : list ProtocolLayer) : validator Z :=
  match layers with
  | [] => continue expected_total
  | layer :: layers' =>
      report_if ((last_end <? offset layer) && negb (offset layer =? last_end)) InvalidLength (offset layer)
        ("Gap detected between " +:+ pretty last_end +:+ " and " +:+ pretty (offset layer) +:+ " in layer " +:+ name layer) ;;;
      report_if (layer_total layer <? header_length layer) InvalidLength (offset layer)
        ("Header length (" +:+ pretty (header_length layer) +:+ ") exceeds total layer length (" +:+
         pretty (layer_total layer) +:+ ") in " +:+ name layer) ;;;
      lengths_loop (Z.max expected_total (layer_end layer)) (layer_end layer) layers'
  end.

Definition validateLengths (layers : list ProtocolLayer) (total_packet_length : Z) (mode_ : ValidationMode)
    : decoded ValidationResult :=
  run (expected_total <- lengths_loop 0 0 layers ;;
       report_if (total_packet_length <? expected_total) InvalidLength 0
         ("Expected " +:+ pretty expected_total +:+ " bytes but packet is only " +:+ pretty total_packet_length))
    mode_.

(** ** Checksums *)

(** [static_cast<std::uint16_t>((d[i] << 8) | d[i + 1])] is [be16_at]; the sum of the words
    at the given indices. *)
Fixpoint sum_words (d : list byte) (indices : list Z) (sum : Z) : decoded Z :=
  match indices with
  | [] => Done sum
  | i :: indices' => word ← be16_at d i; sum_words d indices' (uint 32 (sum + word))
  end.

(** The carries, and [static_cast<std::uint16_t>(~sum)]. *)
Definition fold_complement (sum : Z) : Z :=
  match fold_carries 3 sum with Some s => uint 16 (Z.lnot s) | None => 0 end.

Definition calculate_ipv4_checksum (header_data : list byte) : decoded Z :=
  if zlen header_data <? 20 then Done 0
  else sum ← sum_words header_data [0; 2; 4; 6; 8; 10; 12; 14; 16; 18] 0; Done (fold_complement sum).

Definition calculate_pseudo_checksum (packet_data : list byte) (ipv4_layer : ProtocolLayer)
    (protocol_number transport_length : Z) : decoded Z :=
  if zlen packet_data <? uint 64 (offset ipv4_layer + 20) then Done 0
  else
    sum ← sum_words packet_data [offset ipv4_layer + 12; offset ipv4_layer + 14;
                                 offset ipv4_layer + 16; offset ipv4_layer + 18] 0;
    let sum := uint 32 (sum + protocol_number) in
    let sum := uint 32 (sum + uint 16 (Z.land transport_length 0xFFFF)) in
    let sum := if 0xFFFF <? transport_length then uint 32 (sum + uint 16 (Z.shiftr transport_length 16)) else sum in
    Done (fold_complement sum).

Definition validate_ipv4_checksum (packet_data : list byte) (layer : ProtocolLayer) : decoded bool :=
  if zlen packet_data <? uint 64 (offset layer + 20) then Done false
  else
    header_data ← subspan_count packet_data (offset layer) 20;
    calculated ← calculate_ipv4_checksum header_data;
    packet_checksum ← be16_at header_data 10;
    Done (calculated =? packet_checksum).

Definition validate_udp_checksum (packet_data : list byte) (udp_layer : ProtocolLayer) (ipv4_layer : option ProtocolLayer)
    : decoded bool :=
  if zlen packet_data <? uint 64 (offset udp_layer + 8) then Done false
  else
    packet_checksum ← be16_at packet_data (offset udp_layer + 6);
    match ipv4_layer with
    | None => Done true
    | Some ipv4_layer =>
        if packet_checksum =? 0 then Done true
        else
          calculated ← calculate_pseudo_checksum packet_data ipv4_layer 17
                         (uint 64 (header_length udp_layer + payload_length udp_layer));
          Done (calculated =? packet_checksum)
    end.

Definition validate_tcp_checksum (packet_data : list byte) (tcp_layer : ProtocolLayer) (ipv4_layer : option ProtocolLayer)
    : decoded bool :=
  if zlen packet_data <? uint 64 (offset tcp_layer + 20) then Done false
  else
    match ipv4_layer with
    | None => Done true
    | Some ipv4_layer =>
        packet_checksum ← be16_at packet_data (offset tcp_layer + 16);
        calculated ← calculate_pseudo_checksum packet_data ipv4_layer 6
                       (uint 64 (header_length tcp_layer + payload_length tcp_layer));
        Done (calculated =? packet_checksum)
    end.

(** The last layer of a name, which the pointers end up at. *)
Fixpoint find_layer (s : string) (layers : list ProtocolLayer) : option ProtocolLayer :=
  match layers with
  | [] => None
  | layer :: layers' =>
      match find_layer s layers' with
      | Some l => Some l
      | None => if is_name layer s then Some layer else None
      end
  end.

(** [if (layer != nullptr) if (!validate(layer)) ...]. *)
Definition check_layer_sum (layer : option ProtocolLayer) (check : ProtocolLayer -> decoded bool) (message : string)
    : validator unit :=
  match layer with
  | None => continue tt
  | Some layer =>
      ok <- reading (check layer) ;;
      report_if (negb ok) InvalidChecksum (offset layer) message
  end.

Definition validateChecksums (packet_data : list byte) (layers : list ProtocolLayer) (mode_ : ValidationMode)
    : decoded ValidationResult :=
  match packet_data, layers with
  | [], _ | _, [] => Done (new_result mode_)
  | _, _ =>
      let ipv4_layer := find_layer "IPv4" layers in
      run (check_layer_sum ipv4_layer (validate_ipv4_checksum packet_data) "IPv4 header checksum mismatch" ;;;
           check_layer_sum (find_layer "UDP" layers) (fun l => validate_udp_checksum packet_data l ipv4_layer)
             "UDP checksum mismatch" ;;;
           check_layer_sum (find_layer "TCP" layers) (fun l => validate_tcp_checksum packet_data l ipv4_layer)
             "TCP checksum mismatch") mode_
  end.

(** ** The two modes *)

Definition add_all (es : list DecodeError) (r : ValidationResult) : ValidationResult :=
  mkResult (is_valid r && (match es with [] => true | _ => false end)) (mode r) (errors r ++ es).

(** The validator finds the errors [es]: the lenient mode reports them all and goes on
    with [a], the strict mode stops with the first. *)
Definition reports {A} (m : validator A) (es : list DecodeError) (a : A) : Prop := forall r,
  m Lenient r = Done (add_all es r, Some a) /\
  m Strict r = Done (match es with [] => (r, Some a) | e :: _ => (add_error e r, None) end).

Lemma add_all_nil r : add_all [] r = r.
Proof. destruct r. unfold add_all. cbn. rewrite andb_true_r, app_nil_r. reflexivity. Qed.

Lemma add_all_app es es' r : add_all es' (add_all es r) = add_all (es ++ es') r.
Proof.
  unfold add_all. cbn. rewrite app_assoc. f_equal. destruct es; cbn; [rewrite andb_true_r; reflexivity|].
  rewrite andb_false_r. reflexivity.
Qed.

Lemma reports_continue {A} (a : A) : reports (continue a) [] a.
Proof. intros r. rewrite add_all_nil. split; reflexivity. Qed.

Lemma reports_report_if b c o m : reports (report_if b c o m) (if b then [new_DecodeError c o m] else []) tt.
Proof.
  destruct b; [|apply reports_continue]. intros r. split; [|reflexivity]. unfold report_if, report, add_all, add_error.
  rewrite andb_false_r. reflexivity.
Qed.

Lemma reports_and_then {A B} (m : validator A) (k : A -> validator B) es a es' b :
  reports m es a -> reports (k a) es' b -> reports (and_then m k) (es ++ es') b.
Proof.
  intros Hm Hk r. destruct (Hm r) as [Hl Hs]. unfold and_then. rewrite Hl, Hs, bind_Done. split.
  - rewrite (proj1 (Hk _)), add_all_app. reflexivity.
  - destruct es as [|e es]; cbn [app]; [rewrite bind_Done; exact (proj2 (Hk r)) | reflexivity].
Qed.

Lemma reports_reading {A} (m : decoded A) a : m = Done a -> reports (reading m) [] a.
Proof. intros -> r. rewrite add_all_nil. split; reflexivity. Qed.

(** What a caller gets. *)
Definition outcome (es : list DecodeError) (mode_ : ValidationMode) : ValidationResult :=
  mkResult (match es with [] => true | _ => false end) mode_ (match mode_ with Strict => take 1 es | Lenient => es end).

Lemma run_reports m es mode_ : reports m es tt -> run m mode_ = Done (outcome es mode_).
Proof.
  intros Hm. unfold run. destruct (Hm (new_result mode_)) as [Hl Hs]. destruct mode_.
  - rewrite Hs. destruct es; reflexivity.
  - rewrite Hl. reflexivity.
Qed.

(** ** Layering is a grammar on the names *)

Definition link (n : string) : bool := existsb (String.eqb n) ["Ethernet"; "VLAN"; "PPP"; "Raw"].
Definition network (n : string) : bool := String.eqb n "IPv4" || String.eqb n "IPv6".
Definition transport (n : string) : bool := existsb (String.eqb n) ["UDP"; "TCP"; "SCTP"].
Definition application (n : string) : bool :=
  existsb (String.eqb n) ["SOME/IP"; "SOME/IP-SD"; "DoIP"; "UDS"; "DDS"; "gPTP"].
Definition among (n : string) (names : list string) : bool := existsb (String.eqb n) names.

(** The layer may come behind the layers [before], of which there are some. *)
Definition admissible_behind (before : list string) (n : string) : Prop :=
  (n = "IPv4" -> among "IPv6" before = false) /\
  (n = "IPv6" -> among "IPv4" before = false) /\
  (network n = true -> existsb transport before = false /\ existsb application before = false) /\
  (transport n = true -> existsb network before = true /\ existsb application before = false) /\
  (application n = true -> n <> "gPTP" -> existsb network before = true \/ existsb transport before = true).

Definition admissible (before : list string) (n : string) : Prop :=
  (before = [] -> link n = true) /\ admissible_behind before n.

Definition well_layered (names : list string) : Prop :=
  forall before n after, names = before ++ n :: after -> admissible before n.

Definition seen_of (before : list string) : Seen :=
  mkSeen (among "IPv4" before) (among "IPv6" before) (existsb transport before) (existsb application before).

Lemma seen_of_snoc before n :
  seen_of (before ++ [n]) =
    mkSeen (among "IPv4" before || String.eqb "IPv4" n) (among "IPv6" before || String.eqb "IPv6" n)
      (existsb transport before || transport n) (existsb application before || application n).
Proof. unfold seen_of, among. rewrite !existsb_app. cbn [existsb]. rewrite !orb_false_r. reflexivity. Qed.

Lemma existsb_network before : existsb network before = among "IPv4" before || among "IPv6" before.
Proof.
  unfold among. induction before as [|m before IH]; [reflexivity|]. cbn [existsb]. rewrite IH. unfold network.
  rewrite (String.eqb_sym m "IPv4"), (String.eqb_sym m "IPv6").
  destruct (String.eqb "IPv4" m), (String.eqb "IPv6" m), (existsb (String.eqb "IPv4") before); reflexivity.
Qed.

Definition at_layer (layer : ProtocolLayer) (e : DecodeError) : Prop :=
  err_offset e = offset layer /\ err_code e = InvalidHeader.

Lemma at_layer_new layer m : at_layer layer (new_DecodeError InvalidHeader (offset layer) m).
Proof. split; reflexivity. Qed.

(** A validator that goes on with the layers [before ++ [n]] and has an error exactly if
    [P] fails. *)
Definition verdict (m : validator Seen) (layer : ProtocolLayer) (before : list string) (P : Prop) : Prop :=
  exists es, reports m es (seen_of before) /\ (es = [] <-> P) /\ Forall (at_layer layer) es.

Lemma verdict_pass s layer before (P : Prop) : s = seen_of before -> P -> verdict (continue s) layer before P.
Proof. intros -> HP. exists []. split_and!; [apply reports_continue | tauto | constructor]. Qed.

Lemma verdict_report b msg k layer before (P Q R : Prop) :
  (b = false <-> P) -> verdict k layer before Q -> (R <-> P /\ Q) ->
  verdict (report_if b InvalidHeader (offset layer) msg ;;; k) layer before R.
Proof.
  intros Hb (es & Hr & He & Hall) HR. eexists. split; [eapply reports_and_then; [apply reports_report_if | exact Hr]|].
  destruct b; cbn [app].
  - split; [|constructor; [apply at_layer_new | exact Hall]]. rewrite HR, <- Hb. intuition discriminate.
  - split; [|exact Hall]. rewrite He, HR, <- Hb. tauto.
Qed.

Lemma transport_eq n : transport n = String.eqb n "UDP" || String.eqb n "TCP" || String.eqb n "SCTP".
Proof. unfold transport. cbn [existsb]. rewrite orb_false_r, !orb_assoc. reflexivity. Qed.

Lemma application_eq n :
  application n = String.eqb n "SOME/IP" || String.eqb n "SOME/IP-SD" || String.eqb n "DoIP" || String.eqb n "UDS" ||
                  String.eqb n "DDS" || String.eqb n "gPTP".
Proof. unfold application. cbn [existsb]. rewrite orb_false_r, !orb_assoc. reflexivity. Qed.

(** Closes the goals about a known name. *)
Ltac by_name :=
  unfold admissible_behind; cbn [seen_ipv4 seen_ipv6 seen_transport seen_application seen_of];
  repeat match goal with
  | |- ?a = ?a => reflexivity
  | |- _ /\ _ => split
  | |- _ <-> _ => split
  | |- _ -> _ => intros
  end; intuition (try discriminate; auto).

Lemma check_layer_verdict before layer :
  verdict (check_layer (seen_of before) layer) layer (before ++ [name layer]) (admissible_behind before (name layer)).
Proof.
  unfold check_layer, is_name. pose proof (seen_of_snoc before (name layer)) as Hs.
  pose proof (existsb_network before) as Hnet. pose proof (transport_eq (name layer)) as Ht.
  pose proof (application_eq (name layer)) as Ha.
  set (n := name layer) in *. clearbody n.
  assert (Hcase : forall m, String.eqb n m = true -> n = m) by (intros m; apply String.eqb_eq).
  destruct (String.eqb n "Ethernet" || String.eqb n "VLAN") eqn:E1.
  { apply orb_prop in E1 as [E1|E1]; apply Hcase in E1; subst n; cbn in Hs; rewrite !orb_false_r in Hs;
      (apply verdict_pass; [symmetry; exact Hs | by_name]). }
  destruct (String.eqb n "IPv4") eqn:E2.
  { apply Hcase in E2; subst n; cbn in Hs; rewrite !orb_false_r, orb_true_r in Hs.
    apply (verdict_report _ _ _ _ _ (among "IPv6" before = false)
             (existsb transport before = false /\ existsb application before = false)); [by_name | |by_name].
    apply (verdict_report _ _ _ _ _ (existsb transport before = false /\ existsb application before = false) True);
      [cbn; rewrite orb_false_iff; tauto | apply verdict_pass; [symmetry; exact Hs | exact I] | tauto]. }
  destruct (String.eqb n "IPv6") eqn:E3.
  { apply Hcase in E3; subst n; cbn in Hs; rewrite !orb_false_r, orb_true_r in Hs.
    apply (verdict_report _ _ _ _ _ (among "IPv4" before = false)
             (existsb transport before = false /\ existsb application before = false)); [by_name | |by_name].
    apply (verdict_report _ _ _ _ _ (existsb transport before = false /\ existsb application before = false) True);
      [cbn; rewrite orb_false_iff; tauto | apply verdict_pass; [symmetry; exact Hs | exact I] | tauto]. }
  assert (Hnn : network n = false) by (unfold network; rewrite E2, E3; reflexivity).
  assert (N4 : n <> "IPv4") by (intros ->; discriminate). assert (N6 : n <> "IPv6") by (intros ->; discriminate).
  rewrite (String.eqb_sym "IPv4"), (String.eqb_sym "IPv6"), E2, E3, !orb_false_r in Hs.
  destruct (String.eqb n "UDP" || String.eqb n "TCP" || String.eqb n "SCTP") eqn:E4.
  { rewrite Ht, orb_true_r in Hs. assert (Hna : application n = false).
    { apply orb_prop in E4 as [E4|E4]; [apply orb_prop in E4 as [E4|E4]|]; apply Hcase in E4; subst n; reflexivity. }
    rewrite Hna, orb_false_r in Hs.
    apply (verdict_report _ _ _ _ _ (existsb network before = true) (existsb application before = false)).
    - cbn. rewrite Hnet, <- negb_orb, negb_false_iff. reflexivity.
    - apply (verdict_report _ _ _ _ _ (existsb application before = false) True);
        [cbn; reflexivity | apply verdict_pass; [symmetry; exact Hs | exact I] | tauto].
    - unfold admissible_behind. rewrite Hnn, Hna, Ht. intuition (try discriminate; try contradiction; auto). }
  rewrite Ht, orb_false_r in Hs.
  destruct (String.eqb n "SOME/IP" || _ || _ || _ || _ || _) eqn:E5.
  { rewrite Ha, orb_true_r in Hs.
    apply (verdict_report _ _ _ _ _ (n <> "gPTP" -> existsb network before = true \/ existsb transport before = true) True).
    - cbn. rewrite Hnet. destruct (String.eqb_spec n "gPTP") as [->|Hg]; cbn [negb andb]; [tauto|].
      destruct (existsb transport before), (among "IPv4" before), (among "IPv6" before); cbn; intuition congruence.
    - apply verdict_pass; [symmetry; exact Hs | exact I].
    - unfold admissible_behind. rewrite Hnn, Ht, Ha. intuition (try discriminate; try contradiction; auto). }
  rewrite Ha, orb_false_r in Hs. apply verdict_pass; [symmetry; exact Hs|].
  unfold admissible_behind. rewrite Hnn, Ht, Ha. intuition (try discriminate; try contradiction).
Qed.

(** The errors [es] are those of the layers that may not come where they are. *)
Definition misplaced (before : list string) (layers : list ProtocolLayer) (es : list DecodeError) : Prop :=
  (forall pre layer post, layers = pre ++ layer :: post -> ~ admissible (before ++ map name pre) (name layer) ->
     exists e, e ∈ es /\ at_layer layer e) /\
  (forall e, e ∈ es -> exists pre layer post, layers = pre ++ layer :: post /\
     ~ admissible (before ++ map name pre) (name layer) /\ at_layer layer e).

Lemma misplaced_cons before layer layers es1 es2 :
  (es1 = [] <-> admissible before (name layer)) -> Forall (at_layer layer) es1 ->
  misplaced (before ++ [name layer]) layers es2 -> misplaced before (layer :: layers) (es1 ++ es2).
Proof.
  intros H1 Hall [Hc Hs]. split.
  - intros [|l pre] layer' post Heq Hno; cbn [app map] in Heq, Hno; simplify_eq.
    + rewrite app_nil_r in Hno. destruct es1 as [|e es1]; [destruct Hno; apply H1; reflexivity|].
      exists e. split; [left | inversion Hall; assumption].
    + rewrite cons_middle, app_assoc in Hno. destruct (Hc pre layer' post eq_refl Hno) as (e & He & Hat).
      exists e. split; [apply elem_of_app; right; exact He | exact Hat].
  - intros e He. apply elem_of_app in He as [He|He].
    + exists [], layer, layers. split_and!; [reflexivity | |].
      * cbn [map]. rewrite app_nil_r. intros Ha. apply H1 in Ha. subst es1. inversion He.
      * rewrite Forall_forall in Hall. exact (Hall e He).
    + destruct (Hs e He) as (pre & l & post & -> & Hno & Hat). exists (layer :: pre), l, post.
      split_and!; [reflexivity | | exact Hat]. cbn [map]. rewrite cons_middle, app_assoc. exact Hno.
Qed.

Lemma check_first_reports layer :
  exists es, reports (check_first layer) es tt /\ (es = [] <-> link (name layer) = true) /\ Forall (at_layer layer) es.
Proof.
  eexists. split; [apply reports_report_if|]. unfold is_name, link. cbn [existsb]. rewrite orb_false_r.
  destruct (String.eqb (name layer) "Ethernet"), (String.eqb (name layer) "VLAN"), (String.eqb (name layer) "PPP"),
    (String.eqb (name layer) "Raw"); cbn; split; try constructor; try discriminate; auto using at_layer_new.
Qed.

Lemma layering_loop_reports before layers :
  exists es, reports (layering_loop (length before) (seen_of before) layers) es tt /\ misplaced before layers es.
Proof.
  revert before. induction layers as [|layer layers IH]; intros before; cbn [layering_loop].
  - exists []. split; [apply reports_continue|]. split; [intros [|? pre] ? ? [=] | intros e He; inversion He].
  - destruct (check_layer_verdict before layer) as (es2 & Hr2 & He2 & Hall2).
    destruct (IH (before ++ [name layer])) as (es3 & Hr3 & Hm). rewrite length_app, Nat.add_1_r in Hr3.
    assert (Hfirst : exists es1, reports (match length before with O => check_first layer | S _ => continue tt end) es1 tt /\
              (es1 = [] <-> (before = [] -> link (name layer) = true)) /\ Forall (at_layer layer) es1).
    { destruct before as [|n before]; cbn [length].
      - destruct (check_first_reports layer) as (es1 & Hr1 & He1 & Hall1). exists es1. split_and!; [exact Hr1 | rewrite He1; tauto | exact Hall1].
      - exists []. split_and!; [apply reports_continue | split; [discriminate | reflexivity] | constructor]. }
    destruct Hfirst as (es1 & Hr1 & He1 & Hall1).
    exists (es1 ++ es2 ++ es3). split.
    + eapply reports_and_then; [exact Hr1|]. eapply reports_and_then; [exact Hr2 | exact Hr3].
    + rewrite app_assoc. apply misplaced_cons; [|apply Forall_app_2; assumption | exact Hm].
      unfold admissible. rewrite <- He1, <- He2. apply app_nil.
Qed.

(** The validator of the layering accepts exactly the sequences of names in which every
    layer may come behind the layers before it: a link layer first; IPv4 and IPv6 not
    mixed, and behind no transport or application layer; a transport layer behind a
    network layer and no application; an application layer, except gPTP, behind a
    network or transport layer.  The lenient mode reports an error at the offset of
    every layer that may not come where it is, and at no other; the strict mode
    returns the first of these errors. *)
Theorem layering_exact (layers : list ProtocolLayer) :
  exists es, (forall m, validateLayering layers m = Done (outcome es m)) /\ misplaced [] layers es /\
    (forall m, is_valid (outcome es m) = true <-> well_layered (map name layers)).
Proof.
  destruct (layering_loop_reports [] layers) as (es & Hr & Hm). exists es.
  split_and!; [intros m; apply run_reports, Hr | exact Hm |]. intros m. destruct Hm as [Hc Hs].
  cbn [outcome is_valid]. split.
  - intros He before n after Heq. destruct es as [|e es]; [|discriminate].
    apply map_eq_app in Heq as (pre & rest & -> & <- & Heq). destruct rest as [|layer post]; [discriminate|].
    cbn in Heq. injection Heq as <- <-.
    assert (Hdec : admissible (map name pre) (name layer) \/ ~ admissible (map name pre) (name layer)).
    { destruct (check_layer_verdict (map name pre) layer) as (es2 & _ & He2 & _).
      unfold admissible. destruct (decide (es2 = [])) as [E|E]; rewrite He2 in E; [|tauto].
      destruct (map name pre), (link (name layer)); try (left; split; [auto; discriminate | exact E]).
      right. intros [H _]. discriminate (H eq_refl). }
    destruct Hdec as [Ha|Ha]; [exact Ha|]. destruct (Hc pre layer post eq_refl Ha) as (e & He' & _). inversion He'.
  - intros Hw. destruct es as [|e es]; [reflexivity|]. destruct (Hs e) as (pre & layer & post & -> & Hno & _); [left|].
    destruct Hno. apply (Hw _ _ (map name post)). rewrite map_app. reflexivity.
Qed.

(** ** Lengths *)

Definition wf_layer (layer : ProtocolLayer) : Prop :=
  fits 64 (offset layer) /\ fits 64 (header_length layer) /\ fits 64 (payload_length layer).

(** Every layer starts at or before the end of the one before it. *)
Fixpoint contiguous (last_end : Z) (layers : list ProtocolLayer) : Prop :=
  match layers with
  | [] => True
  | layer :: layers' => offset layer <= last_end /\ contiguous (layer_end layer) layers'
  end.

Definition no_overflow (layer : ProtocolLayer) : Prop := header_length layer + payload_length layer < 2 ^ 64.

Lemma layer_total_overflow layer :
  wf_layer layer -> (layer_total layer <? header_length layer) = false <-> no_overflow layer.
Proof.
  intros (_ & [Hh0 Hh] & [Hp0 Hp]). unfold layer_total, no_overflow, uint.
  rewrite Z.ltb_ge. split; intros H.
  - destruct (Z.lt_ge_cases (header_length layer + payload_length layer) (2 ^ 64)) as [|Hge]; [assumption|].
    rewrite <- (Z_mod_plus_full _ (-1)), Z.mod_small in H by lia. lia.
  - rewrite Z.mod_small by lia. lia.
Qed.

Lemma lengths_loop_reports expected last layers :
  Forall wf_layer layers ->
  exists es expected', reports (lengths_loop expected last layers) es expected' /\
    (es = [] <-> contiguous last layers /\ Forall no_overflow layers) /\
    (forall total, expected' <= total <-> expected <= total /\ Forall (fun l => layer_end l <= total) layers).
Proof.
  intros Hl. revert expected last. induction Hl as [|layer layers Hw _ IH]; intros expected last; cbn [lengths_loop contiguous].
  - exists [], expected. split_and!; [apply reports_continue | split; auto using Forall_nil | intuition auto using Forall_nil].
  - destruct (IH (Z.max expected (layer_end layer)) (layer_end layer)) as (es & expected' & Hr & He & Ht).
    eexists _, expected'. split.
    { eapply reports_and_then; [apply reports_report_if|]. eapply reports_and_then; [apply reports_report_if | exact Hr]. }
    split.
    + rewrite !app_nil, He, Forall_cons. rewrite <- (layer_total_overflow layer Hw).
      assert (Hgap : (last <? offset layer) && negb (offset layer =? last) = false <-> offset layer <= last).
      { destruct (Z.ltb_spec last (offset layer)), (Z.eqb_spec (offset layer) last); cbn; split; try discriminate; lia. }
      destruct ((last <? offset layer) && _); destruct (layer_total layer <? header_length layer);
        rewrite <- Hgap; intuition discriminate.
    + intros total. rewrite Ht, Forall_cons, Z.max_lub_iff. tauto.
Qed.

(** The validator of the lengths accepts exactly the layers of which each starts no later
    than the previous one ends, the first at 0, each has a header and a payload whose
    lengths add up within 64 bits, and each ends, modulo 2^64, within the packet.
    Overlaps are accepted, and so are bytes behind the last layer.  The strict mode
    returns the first error of the lenient one. *)
Theorem lengths_exact (layers : list ProtocolLayer) (total_packet_length : Z) :
  Forall wf_layer layers -> 0 <= total_packet_length ->
  exists es, (forall m, validateLengths layers total_packet_length m = Done (outcome es m)) /\
    (forall m, is_valid (outcome es m) = true <->
       contiguous 0 layers /\ Forall no_overflow layers /\ Forall (fun l => layer_end l <= total_packet_length) layers).
Proof.
  intros Hl Ht. destruct (lengths_loop_reports 0 0 layers Hl) as (es & expected & Hr & He & Hx).
  eexists. split; [intros m; apply run_reports; eapply reports_and_then; [exact Hr | apply reports_report_if]|].
  intros m. cbn [outcome is_valid]. specialize (Hx total_packet_length).
  destruct (total_packet_length <? expected) eqn:E; bool_to_prop.
  - split; [destruct es; discriminate|]. intros (_ & _ & H3). assert (expected <= total_packet_length) by (apply Hx; auto). lia.
  - rewrite app_nil_r. assert (Hes : (match es with [] => true | _ => false end) = true <-> es = [])
      by (destruct es; split; congruence). rewrite Hes, He. intuition.
Qed.

Lemma lengths_exact_witness :
  let layers := [mkLayer "Ethernet" 0 14 46 0 0 false; mkLayer "IPv4" 14 20 26 0 0 true] in
  exists es, validateLengths layers 60 Strict = Done (outcome es Strict) /\ is_valid (outcome es Strict) = true.
Proof.
  destruct (lengths_exact [mkLayer "Ethernet" 0 14 46 0 0 false; mkLayer "IPv4" 14 20 26 0 0 true] 60) as (es & H1 & H2).
  - repeat constructor; cbn; lia.
  - lia.
  - exists es. split; [apply H1 | apply H2]. cbn. unfold no_overflow, layer_end. split_and!; repeat constructor; vm_compute; congruence.
Defined.

(** ** Checksums *)

Fixpoint total_of (ws : list Z) : Z := match ws with [] => 0 | w :: ws' => w + total_of ws' end.

Lemma total_of_bounds ws : Forall (fits 16) ws -> 0 <= total_of ws <= 65535 * zlen ws.
Proof. induction 1 as [|w ws Hw _ IH]; cbn [total_of length]; [lia|]. unfold fits in Hw. lia. Qed.

Lemma sum_words_total d indices ws sum :
  Forall2 (fun i w => be16_at d i = Done w /\ fits 16 w) indices ws ->
  0 <= sum -> sum + 65535 * zlen ws < 2 ^ 32 ->
  sum_words d indices sum = Done (sum + total_of ws).
Proof.
  intros Hw. revert sum. induction Hw as [|i w indices ws [Hi Hf] Hws IH]; intros sum H0 Hs; cbn [sum_words total_of length] in *.
  - f_equal. lia.
  - unfold fits in Hf. rewrite Hi, bind_Done, uint_small by (unfold fits; lia).
    rewrite IH by lia. f_equal. lia.
Qed.

(** The folded complement of a sum, which is 65535 minus its folded value. *)
Lemma fold_complement_eq s : 0 <= s < 2 ^ 32 -> fold_complement s = complement_fold s.
Proof.
  intros Hs. unfold fold_complement, complement_fold. destruct (fold_carries_total s Hs) as (r & -> & Hr & _).
  rewrite (uint_small 16 r) by (unfold fits; lia). reflexivity.
Qed.

(** The four words at an offset. *)
Lemma four_words d i :
  0 <= i -> i + 8 <= zlen d ->
  exists ws, Forall2 (fun j w => be16_at d j = Done w /\ fits 16 w) [i; i + 2; i + 4; i + 6] ws /\
    total_of ws = words_sum (take 8 (drop (Z.to_nat i) d)).
Proof.
  intros Hi Hl. destruct (drop (Z.to_nat i) d) as [|b0 [|b1 [|b2 [|b3 [|b4 [|b5 [|b6 [|b7 post]]]]]]]] eqn:E;
    try (apply (f_equal length) in E; rewrite length_drop in E; cbn [length] in E; lia).
  assert (Hk : forall k, 0 <= k -> drop (Z.to_nat (i + k)) d = drop (Z.to_nat k) (drop (Z.to_nat i) d)).
  { intros k Hk. rewrite drop_drop_Z by assumption. reflexivity. }
  rewrite E in Hk. exists [be16 b0 b1; be16 b2 b3; be16 b4 b5; be16 b6 b7]. split.
  - repeat constructor; try apply be16_fits; (eapply be16_at_bytes; [lia|]); [exact E | rewrite Hk by lia; reflexivity..].
  - change (take 8 _) with [b0; b1; b2; b3; b4; b5; b6; b7]. cbn [total_of words_sum]. lia.
Qed.

Lemma ten_words h :
  length h = 20%nat ->
  exists ws, Forall2 (fun j w => be16_at h j = Done w /\ fits 16 w) [0; 2; 4; 6; 8; 10; 12; 14; 16; 18] ws /\
    length ws = 10%nat /\ total_of ws = words_sum h.
Proof.
  intros Hl. destruct_list h Hl.
  exists [be16 b b0; be16 b1 b2; be16 b3 b4; be16 b5 b6; be16 b7 b8; be16 b9 b10; be16 b11 b12; be16 b13 b14; be16 b15 b16; be16 b17 b18].
  split_and!; [|reflexivity | cbn [total_of words_sum]; lia].
  repeat constructor; try apply be16_fits; (eapply be16_at_bytes; [lia | reflexivity]).
Qed.

Definition in_range (layer : ProtocolLayer) : Prop := 0 <= offset layer /\ offset layer + 20 < 2 ^ 64.

(** *** IPv4 *)

Definition header_at (d : list byte) (layer : ProtocolLayer) : list byte := take 20 (drop (Z.to_nat (offset layer)) d).
(** The field at an index, or 0. *)
Definition field16 (d : list byte) (i : Z) : Z := default 0 (read_be16 (drop (Z.to_nat i) d)).

Lemma be16_at_field d i : 0 <= i -> i + 2 <= zlen d -> be16_at d i = Done (field16 d i) /\ fits 16 (field16 d i).
Proof.
  intros Hi Hl. unfold field16. destruct (drop (Z.to_nat i) d) as [|b0 [|b1 post]] eqn:E;
    try (apply (f_equal length) in E; rewrite length_drop in E; cbn [length] in E; lia).
  rewrite read_be16_cons. split; [|apply be16_fits]. exact (be16_at_bytes d i b0 b1 post Hi E).
Qed.

Definition ipv4_ok (d : list byte) (layer : ProtocolLayer) : bool :=
  (offset layer + 20 <=? zlen d) &&
  (complement_fold (words_sum (header_at d layer)) =? field16 (header_at d layer) 10).

Lemma validate_ipv4_checksum_ok d layer :
  in_range layer -> validate_ipv4_checksum d layer = Done (ipv4_ok d layer).
Proof.
  intros [H0 H64]. unfold validate_ipv4_checksum, ipv4_ok. rewrite uint_small by (unfold fits; lia).
  destruct (Z.leb_spec (offset layer + 20) (zlen d)) as [Hle|Hgt]; [|rewrite (proj2 (Z.ltb_lt _ _)) by lia; reflexivity].
  rewrite (proj2 (Z.ltb_ge _ _)) by lia. rewrite subspan_count_in, bind_Done by lia.
  change (Z.to_nat 20) with 20%nat. fold (header_at d layer).
  assert (Hlen : length (header_at d layer) = 20%nat) by (unfold header_at; rewrite length_take, length_drop; lia).
  destruct (ten_words _ Hlen) as (ws & Hws & Hwl & Hsum).
  assert (Hb : 0 <= total_of ws <= 65535 * 10).
  { replace 10 with (zlen ws) by lia. apply total_of_bounds. clear Hsum Hwl. induction Hws as [|? ? ? ? [_ Hf]]; constructor; assumption. }
  unfold calculate_ipv4_checksum. rewrite (proj2 (Z.ltb_ge _ _)) by lia.
  rewrite (sum_words_total _ _ ws) by (assumption || lia). rewrite !bind_Done, Z.add_0_l, fold_complement_eq, Hsum by lia.
  destruct (be16_at_field (header_at d layer) 10) as [-> _]; [lia | lia|]. reflexivity.
Qed.

Lemma field16_le_sum h : length h = 20%nat -> field16 h 10 <= words_sum h.
Proof.
  intros Hl. destruct_list h Hl. unfold field16. change (drop (Z.to_nat 10) _) with [b9; b10; b11; b12; b13; b14; b15; b16; b17; b18].
  rewrite read_be16_cons. unfold from_option, id. cbn [words_sum].
  repeat match goal with |- context [be16 ?a ?b] => pose proof (be16_fits a b) as [? _]; generalize dependent (be16 a b); intros end. lia.
Qed.

(** The validator adds the checksum field itself into the sum that it compares the
    field with. *)
Lemma ipv4_ok_exact d layer :
  let h := header_at d layer in
  offset layer + 20 <= zlen d -> 0 <= offset layer ->
  ipv4_ok d layer = true <->
  0 < words_sum h /\ field16 h 10 <> 65535 /\ (words_sum h + field16 h 10) mod 65535 = 0.
Proof.
  intros h Hl H0. unfold ipv4_ok. rewrite (proj2 (Z.leb_le _ _)) by assumption. cbn [andb]. fold h.
  assert (Hlen : length h = 20%nat) by (unfold h, header_at; rewrite length_take, length_drop; lia).
  pose proof (words_sum_bounds h) as Hb. rewrite Hlen in Hb.
  destruct (complement_fold_spec (words_sum h)) as (r & -> & Hr & Hmod & Hz); [lia|].
  destruct (be16_at_field h 10) as [_ Hf]; [lia | lia|]. unfold fits in Hf. rewrite Z.eqb_eq.
  pose proof (field16_le_sum h Hlen) as Hle.
  assert (Hk : exists k, words_sum h = r + k * 65535) by (exists (words_sum h / 65535 - r / 65535); lia).
  destruct Hk as [k Hk]. rewrite Hk in Hz, Hle |- *. clear Hmod Hk. set (c := field16 h 10) in *. clearbody c. split; [intros Hc|intros (Hp & Hc & Hm)].
  - split_and!; [lia | lia|]. replace (r + k * 65535 + c) with ((1 + k) * 65535) by lia. apply Z_mod_mult.
  - rewrite (Z.add_shuffle0 r), Z_mod_plus_full in Hm. lia.
Qed.

(** *** UDP and TCP *)

Definition length_words (n : Z) : Z := n mod 65536 + (if 0xFFFF <? n then n / 65536 mod 65536 else 0).

(** The checksum of the pseudo-header, and of nothing else. *)
Definition pseudo_checksum (d : list byte) (ipv4 : ProtocolLayer) (protocol_number transport_length : Z) : Z :=
  if zlen d <? offset ipv4 + 20 then 0
  else complement_fold (words_sum (take 8 (drop (Z.to_nat (offset ipv4 + 12)) d)) + protocol_number + length_words transport_length).

Lemma calculate_pseudo_checksum_eq d ipv4 p n :
  in_range ipv4 -> 0 <= p < 256 -> 0 <= n -> calculate_pseudo_checksum d ipv4 p n = Done (pseudo_checksum d ipv4 p n).
Proof.
  intros [H0 H64] Hp Hn. unfold calculate_pseudo_checksum, pseudo_checksum. rewrite (uint_small 64) by (unfold fits; lia).
  destruct (zlen d <? offset ipv4 + 20) eqn:E; [reflexivity|]. bool_to_prop.
  destruct (four_words d (offset ipv4 + 12)) as (ws & Hws & Hsum); [lia | lia|].
  replace (offset ipv4 + 12 + 2) with (offset ipv4 + 14) in Hws by lia.
  replace (offset ipv4 + 12 + 4) with (offset ipv4 + 16) in Hws by lia.
  replace (offset ipv4 + 12 + 6) with (offset ipv4 + 18) in Hws by lia.
  assert (Hwl : length ws = 4%nat) by (apply Forall2_length in Hws; symmetry; exact Hws).
  assert (Hb : 0 <= total_of ws <= 65535 * 4).
  { replace 4 with (zlen ws) by lia. apply total_of_bounds. clear Hsum Hwl. induction Hws as [|? ? ? ? [_ Hf]]; constructor; assumption. }
  rewrite (sum_words_total _ _ ws) by (assumption || lia). rewrite bind_Done, Z.add_0_l, Hsum.
  set (s := words_sum _) in *. rewrite Hsum in Hb. clearbody s. cbv zeta.
  assert (Hlo : uint 16 (Z.land n 0xFFFF) = n mod 65536) by (unfold uint; bits_arith; rewrite Z.mod_mod by lia; reflexivity).
  assert (Hhi : uint 16 (Z.shiftr n 16) = n / 65536 mod 65536) by (unfold uint; bits_arith; reflexivity).
  rewrite Hlo, Hhi. pose proof (Z.mod_pos_bound n 65536 eq_refl). pose proof (Z.mod_pos_bound (n / 65536) 65536 eq_refl).
  rewrite (uint_small 32 (s + p)) by (unfold fits; lia). rewrite (uint_small 32 (s + p + _)) by (unfold fits; lia).
  unfold length_words. destruct (0xFFFF <? n).
  - rewrite uint_small by (unfold fits; lia). rewrite fold_complement_eq, Z.add_assoc by lia. reflexivity.
  - rewrite fold_complement_eq, Z.add_0_r by lia. reflexivity.
Qed.

Definition transport_length (layer : ProtocolLayer) : Z := uint 64 (header_length layer + payload_length layer).

Definition udp_ok (d : list byte) (udp : ProtocolLayer) (ipv4 : option ProtocolLayer) : bool :=
  (offset udp + 8 <=? zlen d) &&
  match ipv4 with
  | None => true
  | Some ipv4 =>
      (field16 d (offset udp + 6) =? 0) || (pseudo_checksum d ipv4 17 (transport_length udp) =? field16 d (offset udp + 6))
  end.

Definition tcp_ok (d : list byte) (tcp : ProtocolLayer) (ipv4 : option ProtocolLayer) : bool :=
  (offset tcp + 20 <=? zlen d) &&
  match ipv4 with
  | None => true
  | Some ipv4 => pseudo_checksum d ipv4 6 (transport_length tcp) =? field16 d (offset tcp + 16)
  end.

Lemma transport_length_pos layer : 0 <= transport_length layer.
Proof. apply uint_fits. lia. Qed.

Lemma validate_udp_checksum_ok d udp ipv4 :
  in_range udp -> (forall l, ipv4 = Some l -> in_range l) -> validate_udp_checksum d udp ipv4 = Done (udp_ok d udp ipv4).
Proof.
  intros [H0 H64] Hip. unfold validate_udp_checksum, udp_ok. rewrite uint_small by (unfold fits; lia).
  destruct (Z.leb_spec (offset udp + 8) (zlen d)) as [Hle|Hgt]; [|rewrite (proj2 (Z.ltb_lt _ _)) by lia; reflexivity].
  rewrite (proj2 (Z.ltb_ge _ _)) by lia. destruct (be16_at_field d (offset udp + 6)) as [-> _]; [lia | lia|].
  rewrite bind_Done. destruct ipv4 as [l|]; [|reflexivity]. cbn [andb]. destruct (field16 d _ =? 0); [reflexivity|].
  fold (transport_length udp).
  rewrite calculate_pseudo_checksum_eq by (auto using transport_length_pos; lia). reflexivity.
Qed.

Lemma validate_tcp_checksum_ok d tcp ipv4 :
  in_range tcp -> (forall l, ipv4 = Some l -> in_range l) -> validate_tcp_checksum d tcp ipv4 = Done (tcp_ok d tcp ipv4).
Proof.
  intros [H0 H64] Hip. unfold validate_tcp_checksum, tcp_ok. rewrite uint_small by (unfold fits; lia).
  destruct (Z.leb_spec (offset tcp + 20) (zlen d)) as [Hle|Hgt]; [|rewrite (proj2 (Z.ltb_lt _ _)) by lia; reflexivity].
  rewrite (proj2 (Z.ltb_ge _ _)) by lia. destruct ipv4 as [l|]; [|reflexivity].
  destruct (be16_at_field d (offset tcp + 16)) as [-> _]; [lia | lia|]. rewrite bind_Done. cbn [andb].
  fold (transport_length tcp).
  rewrite calculate_pseudo_checksum_eq by (auto using transport_length_pos; lia). reflexivity.
Qed.

(** *** The whole validator *)

Lemma find_layer_in s layers l : find_layer s layers = Some l -> l ∈ layers /\ name l = s.
Proof.
  induction layers as [|layer layers IH]; cbn [find_layer]; [discriminate|].
  destruct (find_layer s layers) as [l'|].
  - intros [= ->]. destruct (IH eq_refl). split; [right; assumption | assumption].
  - destruct (is_name layer s) eqn:E; [|discriminate]. intros [= <-]. apply String.eqb_eq in E. split; [left | exact E].
Qed.

Definition passes (layer : option ProtocolLayer) (ok : ProtocolLayer -> bool) : Prop :=
  forall l, layer = Some l -> ok l = true.

Lemma check_layer_sum_reports layer check ok msg :
  (forall l, layer = Some l -> check l = Done (ok l)) ->
  exists es, reports (check_layer_sum layer check msg) es tt /\ (es = [] <-> passes layer ok).
Proof.
  intros Hc. unfold passes, check_layer_sum. destruct layer as [l|].
  - rewrite (Hc l eq_refl). eexists. split.
    + eapply reports_and_then; [apply reports_reading; reflexivity | apply reports_report_if].
    + destruct (ok l) eqn:E; cbn; split; try discriminate; [intros _ l' [= <-]; exact E | reflexivity |].
      intros H. rewrite (H l eq_refl) in E. discriminate.
  - exists []. split; [apply reports_continue | split; [discriminate | reflexivity]].
Qed.

(** The header verifies: its words add up to a multiple of 65535, as RFC 791 demands. *)
Definition verifies (h : list byte) : Prop := 0 < words_sum h /\ words_sum h mod 65535 = 0.

(** What the validator of the checksums computes.  It is total on layers below the end of
    the address space, and accepts exactly if the last IPv4, UDP and TCP layer pass,
    each if there is one; the strict mode returns the first error of the lenient one.
    It does not compute the checksums of the protocols: a correct IPv4 header passes
    only if its checksum field is 0, since the field is part of the sum it is compared
    with, and the verdict on UDP and TCP is the same for all packets of a size that
    share the IPv4 header and the checksum field, whatever the transport data. *)
Theorem checksums_exact (d : list byte) (layers : list ProtocolLayer) :
  Forall in_range layers ->
  let ipv4 := find_layer "IPv4" layers in
  (exists es, (forall m, validateChecksums d layers m = Done (outcome es m)) /\
     (forall m, is_valid (outcome es m) = true <->
        d = [] \/ passes ipv4 (ipv4_ok d) /\ passes (find_layer "UDP" layers) (fun l => udp_ok d l ipv4) /\
                  passes (find_layer "TCP" layers) (fun l => tcp_ok d l ipv4))) /\
  (forall l, ipv4 = Some l -> offset l + 20 <= zlen d -> verifies (header_at d l) ->
     ipv4_ok d l = true <-> field16 (header_at d l) 10 = 0) /\
  (forall l d', ipv4 = Some l -> zlen d' = zlen d -> header_at d' l = header_at d l ->
     (forall u, field16 d' (offset u + 6) = field16 d (offset u + 6) -> udp_ok d' u ipv4 = udp_ok d u ipv4) /\
     (forall t, field16 d' (offset t + 16) = field16 d (offset t + 16) -> tcp_ok d' t ipv4 = tcp_ok d t ipv4)).
Proof.
  intros Hin ipv4. assert (Hip : forall s l, find_layer s layers = Some l -> in_range l).
  { intros s l Hl. apply find_layer_in in Hl as [Hl _]. rewrite Forall_forall in Hin. exact (Hin l Hl). }
  split_and!.
  - destruct (check_layer_sum_reports ipv4 (validate_ipv4_checksum d) (ipv4_ok d) "IPv4 header checksum mismatch")
      as (e1 & R1 & V1); [intros l Hl; apply validate_ipv4_checksum_ok; eauto|].
    destruct (check_layer_sum_reports (find_layer "UDP" layers) (fun l => validate_udp_checksum d l ipv4) (fun l => udp_ok d l ipv4)
                "UDP checksum mismatch") as (e2 & R2 & V2); [intros l Hl; apply validate_udp_checksum_ok; eauto|].
    destruct (check_layer_sum_reports (find_layer "TCP" layers) (fun l => validate_tcp_checksum d l ipv4) (fun l => tcp_ok d l ipv4)
                "TCP checksum mismatch") as (e3 & R3 & V3); [intros l Hl; apply validate_tcp_checksum_ok; eauto|].
    destruct d as [|b d']; [|destruct layers as [|layer layers']].
    + exists []. split; [intros []; destruct layers; reflexivity | intros m; cbn; tauto].
    + exists []. split; [intros []; reflexivity | intros m; cbn; split; [right; split_and!; intros l [=] | reflexivity]].
    + exists (e1 ++ e2 ++ e3). split.
      { intros m. apply run_reports. eapply reports_and_then; [exact R1|]. eapply reports_and_then; [exact R2 | exact R3]. }
      intros m. cbn [outcome is_valid].
      assert (Hes : forall es : list DecodeError, (match es with [] => true | _ => false end) = true <-> es = [])
        by (intros []; split; congruence). rewrite Hes, !app_nil, V1, V2, V3. intuition discriminate.
  - intros l Hl Hle [Hp Hm]. destruct (Hip _ _ Hl) as [H0 _]. rewrite (ipv4_ok_exact d l Hle H0). set (h := header_at d l) in *.
    assert (Hlen : length h = 20%nat) by (unfold h, header_at; rewrite length_take, length_drop; lia).
    destruct (be16_at_field h 10) as [_ Hf]; [lia | lia|]. unfold fits in Hf. rewrite Z.add_mod, Hm, Z.add_0_l, Z.mod_mod by lia.
    split; [|intros ->; split_and!; [exact Hp | lia | reflexivity]].
    intros (_ & Hne & H). rewrite Z.mod_small in H by lia. exact H.
  - intros l d' Hl Hz Hh. destruct (Hip _ _ Hl) as [H0 _].
    assert (Hps : forall p n, pseudo_checksum d' l p n = pseudo_checksum d l p n).
    { intros p n. unfold pseudo_checksum. rewrite Hz.
      assert (Hw : forall x, take 8 (drop (Z.to_nat (offset l + 12)) x) = take 8 (drop 12 (header_at x l))).
      { intros x. unfold header_at. rewrite <- (drop_drop_Z x 12 (offset l)) by lia. change (Z.to_nat 12) with 12%nat.
        rewrite skipn_firstn_comm. change (20 - 12)%nat with 8%nat. rewrite take_take. reflexivity. }
      rewrite !Hw, Hh. reflexivity. }
    rewrite Hl. split; [intros u Hu | intros t Ht]; unfold udp_ok, tcp_ok; rewrite Hz, Hps; [rewrite Hu | rewrite Ht]; reflexivity.
Qed.

(** A correct header that is rejected. *)
Definition example_header : list byte :=
  [x45; x00; x00; x73; x00; x00; x40; x00; x40; x11; xb8; x61; xc0; xa8; x00; x01; xc0; xa8; x00; xc7].

Lemma checksums_exact_witness :
  let layers := [mkLayer "IPv4" 0 20 0 0 0 true] in
  verifies (header_at example_header (mkLayer "IPv4" 0 20 0 0 0 true)) /\
  ipv4_ok example_header (mkLayer "IPv4" 0 20 0 0 0 true) = false.
Proof.
  intros layers. assert (Hv : verifies (header_at example_header (mkLayer "IPv4" 0 20 0 0 0 true))) by (split; vm_compute; reflexivity).
  split; [exact Hv|].
  destruct (checksums_exact example_header layers) as (_ & H & _); [repeat constructor; cbn; lia|].
  specialize (H _ eq_refl ltac:(vm_compute; discriminate) Hv).
  destruct (ipv4_ok _ _); [|reflexivity]. destruct H as [H _]. specialize (H eq_refl). vm_compute in H. discriminate.
Defined.
