(* ===== verification/Scenario.v ===== *)
(** * Test scenarios (include/wadjet/scenario/scenario_types.hpp, and the packet matcher of
    src/scenario/runner.cpp)

    The data of a scenario, count expressions and their text, and the matcher that
    compares a packet, as the dispatcher decodes it, with the expectations of a step. *)

From Stdlib Require Import ZArith Lia.
From Stdlib Require Import Strings.Byte Strings.Ascii.
From stdpp Require Import base numbers list strings pretty.
From S2P Require Import Prelude Decoder Ethernet Ipv4 Udp Tcp SomeIp SomeIpSd DoIP Dispatcher.

(** ** Counts *)

Inductive CompareOp := Equal | NotEqual | GreaterThan | GreaterEqual | LessThan | LessEqual.

Definition parse_compare_op (str : string) : option CompareOp :=
  if String.eqb str "==" || String.eqb str "eq" || String.eqb str "" then Some Equal
  else if String.eqb str "!=" || String.eqb str "ne" then Some NotEqual
  else if String.eqb str ">" || String.eqb str "gt" then Some GreaterThan
  else if String.eqb str ">=" || String.eqb str "ge" then Some GreaterEqual
  else if String.eqb str "<" || String.eqb str "lt" then Some LessThan
  else if String.eqb str "<=" || String.eqb str "le" then Some LessEqual
  else None.

Record CountExpression := mkCount { op : CompareOp; value : Z }.

(** [std::isspace] in the C locale. *)
Definition isspace (c : ascii) : bool := let n := Ascii.N_of_ascii c in (n =? 32)%N || ((9 <=? n)%N && (n <=? 13)%N).

Fixpoint trim_front (str : list ascii) : list ascii :=
  match str with
  | [] => []
  | c :: str' => if isspace c then trim_front str' else str
  end.
Definition trim_back (str : list ascii) : list ascii := rev (trim_front (rev str)).

(** The operator prefix and what follows it. *)
Definition parse_operator (str : list ascii) : CompareOp * list ascii :=
  match str with
  | ">"%char :: "="%char :: str' => (GreaterEqual, str')
  | "<"%char :: "="%char :: str' => (LessEqual, str')
  | "="%char :: "="%char :: str' => (Equal, str')
  | "!"%char :: "="%char :: str' => (NotEqual, str')
  | ">"%char :: str' => (GreaterThan, str')
  | "<"%char :: str' => (LessThan, str')
  | _ => (GreaterEqual, str)
  end.

Definition digit (c : ascii) : option Z :=
  let n := Z.of_N (Ascii.N_of_ascii c) in if (48 <=? n) && (n <=? 57) then Some (n - 48) else None.

Fixpoint parse_number (str : list ascii) (value : Z) : option Z :=
  match str with
  | [] => Some value
  | c :: str' =>
      match digit c with
      | Some d => parse_number str' (uint 64 (uint 64 (value * 10) + d))
      | None => None
      end
  end.

(** [CountExpression::parse]. *)
Definition parse_count (str : string) : option CountExpression :=
  match trim_back (trim_front (String.list_ascii_of_string str)) with
  | [] => None
  | str =>
      let (op, str) := parse_operator str in
      mkCount op <$> parse_number (trim_front str) 0
  end.

Definition evaluate (e : CountExpression) (count : Z) : bool :=
  match op e with
  | Equal => count =? value e
  | NotEqual => negb (count =? value e)
  | GreaterThan => value e <? count
  | GreaterEqual => value e <=? count
  | LessThan => count <? value e
  | LessEqual => count <=? value e
  end.

Definition op_string (o : CompareOp) : string :=
  match o with
  | Equal => "==" | NotEqual => "!=" | GreaterThan => ">" | GreaterEqual => ">=" | LessThan => "<" | LessEqual => "<="
  end.
Definition count_expr_string (e : CountExpression) : string := op_string (op e) +:+ " " +:+ pretty (value e).

(** ** Expectations *)

Record EthernetExpect := mkEthernetExpect {
  src_mac : option string;
  dst_mac : option string;
  ethertype : option Z;
  vlan_id : option Z
}.

Record IPv4Expect := mkIPv4Expect {
  src_ip : option string;
  dst_ip : option string;
  protocol : option Z;
  ttl : option Z
}.

Record UDPExpect := mkUDPExpect { udp_src : option Z; udp_dst : option Z }.

Record TCPExpect := mkTCPExpect {
  tcp_src : option Z;
  tcp_dst : option Z;
  e_syn : option bool;
  e_ack : option bool;
  e_fin : option bool;
  e_rst : option bool
}.

Inductive SomeIpMessageTypeExpect :=
| SomeIpRequest | SomeIpRequestNoReturn | SomeIpNotification | SomeIpResponse | SomeIpError | SomeIpAny.

Record SomeIpExpect := mkSomeIpExpect {
  service_id : option Z;
  method_id : option Z;
  client_id : option Z;
  session_id : option Z;
  message_type : option SomeIpMessageTypeExpect;
  return_code : option Z
}.

Inductive SdEntryTypeExpect := SdFindService | SdOfferService | SdSubscribe | SdSubscribeAck | SdAny.

Record SomeIpSdExpect := mkSomeIpSdExpect {
  sd_service_id : option Z;
  sd_instance_id : option Z;
  entry_type : option SdEntryTypeExpect;
  sd_major_version : option Z
}.

Inductive DoIpPayloadTypeExpect :=
| ExpectIdentificationRequest | ExpectIdentificationResponse | ExpectActivationRequest | ExpectActivationResponse
| ExpectDiagnosticMessage | ExpectPositiveAck | ExpectNegativeAck | DoIpAny.

Record DoIpExpect := mkDoIpExpect {
  payload_type : option DoIpPayloadTypeExpect;
  source_address : option Z;
  target_address : option Z
}.

(** The service, response code and session type of [UdsExpect] are enumerations; the runner
    looks at none of its fields, so they are kept as their numbers. *)
Record UdsExpect := mkUdsExpect {
  service : option Z;
  is_request : option bool;
  is_negative_response : option bool;
  nrc : option Z;
  session_type : option Z;
  data_identifiers : option (list Z);
  routine_id : option Z;
  security_level : option Z;
  reset_type : option Z
}.

Record PayloadExpect := mkPayloadExpect {
  contains : option (list byte);
  equals : option (list byte);
  min_size : option Z;
  max_size : option Z
}.

(** [Duration] is a number of milliseconds. *)
Record ExpectStep := mkExpectStep {
  ethernet : option EthernetExpect;
  ipv4 : option IPv4Expect;
  udp : option UDPExpect;
  tcp : option TCPExpect;
  someip : option SomeIpExpect;
  someip_sd : option SomeIpSdExpect;
  doip : option DoIpExpect;
  uds : option UdsExpect;
  payload_expect : option PayloadExpect;
  within : Z;
  count : CountExpression;
  description : string;
  required : bool
}.

(** ** The matcher *)

(** [if (field && *field != x) return false;] *)
Definition holds {A} (field : option A) (check : A -> bool) : bool :=
  match field with None => true | Some x => check x end.

Definition as_ethernet (l : DecodedHeader) := match l with EthernetLayer h => Some h | _ => None end.
Definition as_someip_sd (l : DecodedHeader) := match l with SomeIpSdLayer h => Some h | _ => None end.

Definition has_vid (tag : option VlanTag) (v : Z) : bool := match tag with Some t => vid t =? v | None => false end.

Definition ethernet_matches (e : EthernetExpect) (h : EthernetHeader) : bool :=
  holds (ethertype e) (fun t => eth_ethertype h =? t) &&
  holds (vlan_id e) (fun v => has_vid (eth_vlan h) v || has_vid (eth_vlan_inner h) v).

Definition ipv4_matches (e : IPv4Expect) (h : IPv4Header) : bool :=
  holds (protocol e) (fun p => ip_protocol h =? p) && holds (ttl e) (fun t => ip_ttl h =? t).

Definition udp_matches (e : UDPExpect) (h : UdpHeader) : bool :=
  holds (udp_src e) (fun p => udp_src_port h =? p) && holds (udp_dst e) (fun p => udp_dst_port h =? p).

(** [TcpHeader::is_syn], without [ack]. *)
Definition is_syn (h : TcpHeader) : bool := syn (tcp_flags h) && negb (ack (tcp_flags h)).

Definition tcp_matches (e : TCPExpect) (h : TcpHeader) : bool :=
  holds (tcp_src e) (fun p => tcp_src_port h =? p) && holds (tcp_dst e) (fun p => tcp_dst_port h =? p) &&
  holds (e_syn e) (fun b => Bool.eqb (is_syn h) b) && holds (e_ack e) (fun b => Bool.eqb (ack (tcp_flags h)) b) &&
  holds (e_fin e) (fun b => Bool.eqb (fin (tcp_flags h)) b) && holds (e_rst e) (fun b => Bool.eqb (rst (tcp_flags h)) b).

Definition someip_type_matches (t : SomeIpMessageTypeExpect) (h : SomeIpHeader) : bool :=
  match t with
  | SomeIpRequest => SomeIp.is_request h
  | SomeIpResponse => SomeIp.is_response h
  | SomeIpNotification => SomeIp.is_notification h
  | SomeIpError => SomeIp.is_error h
  | SomeIpRequestNoReturn => SomeIp.message_type h =? SomeIp.RequestNoReturn
  | SomeIpAny => true
  end.

Definition someip_matches (e : SomeIpExpect) (h : SomeIpHeader) : bool :=
  holds (service_id e) (fun x => SomeIp.service_id h =? x) && holds (method_id e) (fun x => SomeIp.method_id h =? x) &&
  holds (client_id e) (fun x => SomeIp.client_id h =? x) && holds (session_id e) (fun x => SomeIp.session_id h =? x) &&
  holds (return_code e) (fun x => SomeIp.return_code h =? x) &&
  holds (message_type e) (fun t => someip_type_matches t h).

Definition sd_entry_matches (e : SomeIpSdExpect) (entry : SdEntry) : bool :=
  match entry with
  | ServiceEntry c _ =>
      holds (sd_service_id e) (fun x => en_service_id c =? x) && holds (sd_instance_id e) (fun x => en_instance_id c =? x)
  | EventgroupEntry _ _ _ => false
  end.

Definition someip_sd_matches (e : SomeIpSdExpect) (h : SomeIpSdHeader) : bool :=
  match sd_service_id e, sd_instance_id e with
  | None, None => true
  | _, _ => existsb (sd_entry_matches e) (SomeIpSd.entries h)
  end.

Definition doip_type_matches (t : DoIpPayloadTypeExpect) (h : DoIPHeader) : bool :=
  match t with
  | ExpectIdentificationRequest => DoIP.payload_type h =? VehicleIdentificationRequest
  | ExpectIdentificationResponse => DoIP.payload_type h =? VehicleAnnouncementOrIdentificationResponse
  | ExpectActivationRequest => DoIP.payload_type h =? RoutingActivationRequest_t
  | ExpectActivationResponse => DoIP.payload_type h =? RoutingActivationResponse_t
  | ExpectDiagnosticMessage => is_diagnostic_message h
  | ExpectPositiveAck => DoIP.payload_type h =? DiagnosticMessagePositiveAck
  | ExpectNegativeAck => DoIP.payload_type h =? DiagnosticMessageNegativeAck
  | DoIpAny => true
  end.

Definition doip_matches (e : DoIpExpect) (h : DoIPHeader) : bool := holds (payload_type e) (fun t => doip_type_matches t h).

(** [std::search]: the index of the first occurrence, or of the end. *)
Fixpoint search (hay needle : list byte) : nat :=
  if bool_decide (needle `prefix_of` hay) then O
  else match hay with [] => O | _ :: hay' => S (search hay' needle) end.

Definition payload_matches (e : PayloadExpect) (p : list byte) : bool :=
  holds (min_size e) (fun n => negb (zlen p <? n)) && holds (max_size e) (fun n => negb (n <? zlen p)) &&
  holds (contains e) (fun needle => negb (search p needle =? length p)%nat) &&
  holds (equals e) (fun expected => bool_decide (p = expected)).

(** [if (expectation) { auto* h = result.get_layer<H>(); if (!h) return false; ... }] *)
Definition on_expect {A H} (e : option A) (as_header : DecodedHeader -> option H) (check : A -> H -> bool)
    (r : DecodeStackResult) : bool :=
  holds e (fun e => on_layer as_header (check e) r).

Definition matches_result (e : ExpectStep) (r : DecodeStackResult) : bool :=
  on_expect (ethernet e) as_ethernet ethernet_matches r && on_expect (ipv4 e) as_ipv4 ipv4_matches r &&
  on_expect (udp e) as_udp udp_matches r && on_expect (tcp e) as_tcp tcp_matches r &&
  on_expect (someip e) as_someip someip_matches r && on_expect (someip_sd e) as_someip_sd someip_sd_matches r &&
  on_expect (doip e) as_doip doip_matches r && holds (payload_expect e) (fun p => payload_matches p (payload r)).

(** [ExpectStepMatcher::matches]; [decode_packet] uses a dispatcher that is shared by all
    calls and keeps the SOME/IP reassembler. *)
Definition matches (e : ExpectStep) (d : ProtocolDispatcher) (packet : list byte) : run (bool * ProtocolDispatcher) :=
  rd ← decode d packet; Done (matches_result e rd.1, rd.2).

Definition describe (e : ExpectStep) : string :=
  if negb (String.eqb (description e) "") then description e
  else
    "Expect" +:+
    (match someip e with
     | Some s => " SOME/IP" +:+ (match service_id s with Some x => " service=" +:+ pretty x | None => "" end)
     | None => ""
     end) +:+
    (match doip e with Some _ => " DoIP" | None => "" end) +:+
    (match udp e with
     | Some u => " UDP" +:+ (match udp_dst u with Some x => " port=" +:+ pretty x | None => "" end)
     | None => ""
     end).

(** * Properties *)

(** ** The text of a count *)

(** Strings as the lists of characters that the parser walks through. *)
Lemma chars_app (x y : string) :
  String.list_ascii_of_string (x +:+ y) = String.list_ascii_of_string x ++ String.list_ascii_of_string y.
Proof. induction x as [|c x IH]; [reflexivity|]. change (String c x +:+ y) with (String c (x +:+ y)). cbn. f_equal. exact IH. Qed.

Lemma trim_front_spaces w l : Forall (fun c => isspace c = true) w -> trim_front (w ++ l) = trim_front l.
Proof. induction 1 as [|c w Hc Hw IH]; [reflexivity|]. cbn [app trim_front]. rewrite Hc. exact IH. Qed.

Lemma trim_front_word c l : isspace c = false -> trim_front (c :: l) = c :: l.
Proof. intros Hc. cbn. rewrite Hc. reflexivity. Qed.

Lemma trim_back_spaces w l c : Forall (fun c => isspace c = true) w -> isspace c = false ->
  trim_back (l ++ [c] ++ w) = l ++ [c].
Proof.
  intros Hw Hc. unfold trim_back. rewrite app_assoc, rev_app_distr, trim_front_spaces, rev_app_distr.
  - cbn [rev app]. rewrite trim_front_word by exact Hc. cbn [rev]. rewrite rev_involutive. reflexivity.
  - rewrite Forall_forall in Hw |- *. intros x Hx. apply Hw. rewrite list_elem_of_In in Hx |- *. apply in_rev, Hx.
Qed.

Lemma ten_digits x : (x < 10)%N -> digit (pretty_N_char x) = Some (Z.of_N x).
Proof.
  intros Hx. assert (Hall : Forall (fun n => digit (pretty_N_char (Z.to_N n)) = Some n) (seqZ 0 10)).
  { repeat (constructor; [reflexivity|]). constructor. }
  rewrite Forall_forall in Hall. specialize (Hall (Z.of_N x)). rewrite N2Z.id in Hall.
  apply Hall. rewrite elem_of_seqZ. lia.
Qed.

Lemma digit_no_space c d : digit c = Some d -> isspace c = false.
Proof.
  unfold digit, isspace. intros H. case_match eqn:E; [|discriminate]. bool_to_prop.
  apply orb_false_iff. split; [apply N.eqb_neq; lia|]. apply andb_false_iff. right. apply N.leb_gt. lia.
Qed.

(** The digits of a number, most significant first, before any text. *)
Lemma parse_digits x str :
  parse_number (String.list_ascii_of_string (pretty_N_go x str)) 0 =
  parse_number (String.list_ascii_of_string str) (uint 64 (Z.of_N x)).
Proof.
  revert str. induction (N.lt_wf_0 x) as [x _ IH]. intros str.
  destruct (N.eq_dec x 0%N) as [->|Hx]; [rewrite pretty_N_go_0; reflexivity|].
  rewrite pretty_N_go_step by lia. rewrite IH by (apply N.div_lt; lia).
  cbn [String.list_ascii_of_string parse_number]. rewrite ten_digits by (apply N.mod_lt; lia).
  rewrite uint_step by lia. do 2 f_equal. rewrite N2Z.inj_div, N2Z.inj_mod.
  pose proof (Z.div_mod (Z.of_N x) 10 ltac:(lia)). lia.
Qed.

(** A number is a first and a last digit with digits between them. *)
Definition all_digits (l : list ascii) : Prop := Forall (fun c => is_Some (digit c)) l.

Lemma pretty_digits x str :
  all_digits (String.list_ascii_of_string str) -> all_digits (String.list_ascii_of_string (pretty_N_go x str)).
Proof.
  revert str. induction (N.lt_wf_0 x) as [x _ IH]. intros str Hs.
  destruct (N.eq_dec x 0%N) as [->|Hx]; [exact Hs|].
  rewrite pretty_N_go_step by lia. apply IH; [apply N.div_lt; lia|].
  constructor; [|exact Hs]. rewrite ten_digits by (apply N.mod_lt; lia). eauto.
Qed.

Lemma pretty_N_go_long x str : (String.length str <= String.length (pretty_N_go x str))%nat.
Proof.
  revert str. induction (N.lt_wf_0 x) as [x _ IH]. intros str.
  destruct (N.eq_dec x 0%N) as [->|Hx]; [reflexivity|].
  rewrite pretty_N_go_step by lia. etransitivity; [|apply IH, N.div_lt; lia]. cbn. lia.
Qed.

Lemma pretty_number n : 0 <= n ->
  exists c l, String.list_ascii_of_string (pretty n) = c :: l /\ all_digits (c :: l) /\
              parse_number (c :: l) 0 = Some (uint 64 n).
Proof.
  intros Hn. destruct n as [|p|]; [|clear Hn|lia].
  - exists "0"%char, []. split_and!; [reflexivity | repeat constructor; eexists; reflexivity | reflexivity].
  - assert (E : pretty (Z.pos p) = pretty_N_go (N.pos p) "") by reflexivity. rewrite E.
    pose proof (parse_digits (N.pos p) "") as Hp. pose proof (pretty_digits (N.pos p) "" ltac:(constructor)) as Hd.
    assert (Hl : (1 <= String.length (pretty_N_go (N.pos p) ""))%nat).
    { rewrite pretty_N_go_step by lia. etransitivity; [|apply pretty_N_go_long]. cbn. lia. }
    destruct (pretty_N_go (N.pos p) "") as [|c s]; [cbn in Hl; lia|].
    exists c, (String.list_ascii_of_string s). split_and!; [reflexivity | exact Hd | exact Hp].
Qed.

Definition spaces (w : list ascii) : Prop := Forall (fun c => isspace c = true) w.

Lemma trim_front_split l : exists w, l = w ++ trim_front l /\ spaces w.
Proof.
  induction l as [|c l (w & E & Hw)]; [exists []; split; [reflexivity | constructor]|].
  cbn [trim_front]. destruct (isspace c) eqn:Hc.
  - exists (c :: w). split; [cbn; congruence | constructor; assumption].
  - exists []. split; [reflexivity | constructor].
Qed.

Lemma trim_back_split l : exists w, l = trim_back l ++ w /\ spaces w.
Proof.
  destruct (trim_front_split (rev l)) as (w & E & Hw). exists (rev w). unfold trim_back. split.
  - rewrite <- rev_app_distr, <- E, rev_involutive. reflexivity.
  - unfold spaces in *. rewrite Forall_forall in Hw |- *. intros x Hx. apply Hw.
    rewrite list_elem_of_In in Hx |- *. apply in_rev, Hx.
Qed.

(** The value of decimal digits. *)
Definition decimal_from (v : Z) (ds : list ascii) : Z := foldl (fun v c => v * 10 + default 0 (digit c)) v ds.
Definition decimal (ds : list ascii) : Z := decimal_from 0 ds.

Lemma parse_number_digits ds v : all_digits ds -> parse_number ds (uint 64 v) = Some (uint 64 (decimal_from v ds)).
Proof.
  intros Hd. revert v. induction Hd as [|c ds [x Hx] Hd IH]; intros v; [reflexivity|].
  cbn [parse_number]. rewrite Hx, uint_step by lia. rewrite IH. unfold decimal_from. cbn [foldl]. rewrite Hx. reflexivity.
Qed.

Lemma parse_number_inv ds v n : parse_number ds v = Some n -> all_digits ds.
Proof.
  revert v. induction ds as [|c ds IH]; intros v H; [constructor|].
  cbn [parse_number] in H. destruct (digit c) as [x|] eqn:E; [|discriminate].
  constructor; [eauto | eapply IH, H].
Qed.

Abbreviation chars := String.list_ascii_of_string.

(** The operator that a text starts with, or none. *)
Definition operator_text (o : option CompareOp) : list ascii :=
  match o with Some o => chars (op_string o) | None => [] end.

Lemma parse_operator_inv l o rest :
  parse_operator l = (o, rest) ->
  exists o', l = operator_text o' ++ rest /\ default GreaterEqual o' = o.
Proof.
  assert (Hn : exists o', l = operator_text o' ++ l /\ default GreaterEqual o' = GreaterEqual) by (exists None; split; reflexivity).
  intros H. unfold parse_operator in H.
  repeat match type of H with
  | context [match ?x with _ => _ end] => is_var x; destruct x
  end;
  injection H as <- <-;
  first [ exact Hn | exists (Some Equal); split; reflexivity | exists (Some NotEqual); split; reflexivity
        | exists (Some GreaterEqual); split; reflexivity | exists (Some LessEqual); split; reflexivity
        | exists (Some GreaterThan); split; reflexivity | exists (Some LessThan); split; reflexivity ].
Qed.

(** What can follow an operator, or start a text without one. *)
Definition number_start (o : option CompareOp) (rest : list ascii) : Prop :=
  match rest with
  | [] => o <> None
  | c :: _ => is_Some (digit c) \/ (o <> None /\ isspace c = true)
  end.

Lemma parse_operator_text o rest :
  number_start o rest -> parse_operator (operator_text o ++ rest) = (default GreaterEqual o, rest).
Proof.
  destruct rest as [|c rest]; cbn [number_start].
  - intros Ho. destruct o as [[]|]; try contradiction; reflexivity.
  - intros H. destruct c as [[] [] [] [] [] [] [] []];
      (destruct o as [[]|]; try reflexivity; exfalso;
       destruct H as [[x H]|[Ho H]]; try congruence; discriminate H).
Qed.

Lemma trim_front_head l c l' : trim_front l = c :: l' -> isspace c = false.
Proof.
  induction l as [|x l IH]; cbn [trim_front]; [discriminate|].
  destruct (isspace x) eqn:E; [exact IH | intros [= -> _]; exact E].
Qed.

Lemma spaces_app w w' : spaces w -> spaces w' -> spaces (w ++ w').
Proof. apply Forall_app_2. Qed.

Lemma parse_count_chars str :
  parse_count str =
  match trim_back (trim_front (chars str)) with
  | [] => None
  | t => mkCount (parse_operator t).1 <$> parse_number (trim_front (parse_operator t).2) 0
  end.
Proof. unfold parse_count. destruct (trim_back _); [reflexivity|]. destruct (parse_operator _); reflexivity. Qed.

Definition count_layout (str : list ascii) (o : option CompareOp) (ds : list ascii) : Prop :=
  exists w1 w2 w3, str = w1 ++ operator_text o ++ w2 ++ ds ++ w3 /\ spaces w1 /\ spaces w2 /\ spaces w3.

Lemma parse_count_inv str e :
  parse_count str = Some e ->
  exists o ds, count_layout (chars str) o ds /\ all_digits ds /\ (o = None -> ds <> []) /\
    op e = default GreaterEqual o /\ value e = uint 64 (decimal ds).
Proof.
  rewrite parse_count_chars.
  destruct (trim_front_split (chars str)) as (w1 & E1 & Hw1), (trim_back_split (trim_front (chars str))) as (w3 & E3 & Hw3).
  pose proof (trim_front_head (chars str)) as Hhead.
  remember (trim_back (trim_front (chars str))) as t eqn:Et. destruct t as [|c t]; [discriminate|]. cbv beta iota zeta.
  destruct (parse_operator_inv (c :: t) _ _ (surjective_pairing _)) as (o & Eo & <-).
  set (rest := (parse_operator (c :: t)).2) in *. destruct (trim_front_split rest) as (w2 & E2 & Hw2).
  intros H. apply fmap_Some in H as (v & Hv & ->). pose proof (parse_number_inv _ _ _ Hv) as Hd.
  change 0 with (uint 64 0) in Hv. rewrite parse_number_digits in Hv by exact Hd. injection Hv as <-.
  exists o, (trim_front rest). split_and!; [ | exact Hd | | reflexivity | reflexivity].
  - exists w1, w2, w3. split_and!; auto. rewrite E1 at 1. rewrite E3, Eo, E2 at 1. rewrite <- !app_assoc. reflexivity.
  - intros -> Hds. rewrite Hds, app_nil_r in E2. cbn in Eo. rewrite E2 in Eo.
    specialize (Hhead c (t ++ w3) E3). rewrite <- Eo in Hw2. inversion Hw2. congruence.
Qed.

Lemma operator_text_last o : exists l c, chars (op_string o) = l ++ [c] /\ isspace c = false.
Proof.
  destruct o; [exists ["="%char], "="%char | exists ["!"%char], "="%char | exists [], ">"%char
    | exists [">"%char], "="%char | exists [], "<"%char | exists ["<"%char], "="%char]; split; reflexivity.
Qed.

Lemma operator_text_head o : exists c l, chars (op_string o) = c :: l /\ isspace c = false.
Proof. destruct o; eexists _, _; split; reflexivity. Qed.

(** Trimming a text that starts and ends with a word. *)
Lemma trim_word w1 w3 c1 c3 l l' t :
  spaces w1 -> spaces w3 -> isspace c1 = false -> isspace c3 = false -> t = c1 :: l -> t = l' ++ [c3] ->
  trim_back (trim_front (w1 ++ t ++ w3)) = t.
Proof.
  intros Hw1 Hw3 H1 H3 E1 E3. rewrite trim_front_spaces by exact Hw1.
  rewrite E1. change ((c1 :: l) ++ w3) with (c1 :: l ++ w3). rewrite trim_front_word by exact H1.
  change (c1 :: l ++ w3) with ((c1 :: l) ++ w3). rewrite <- E1, E3, <- app_assoc. apply trim_back_spaces; assumption.
Qed.

Lemma digits_last ds : all_digits ds -> ds <> [] -> exists l c, ds = l ++ [c] /\ isspace c = false.
Proof.
  intros Hd Hn. destruct ds as [|c ds _] using rev_ind; [contradiction|].
  exists ds, c. split; [reflexivity|]. apply Forall_app in Hd as [_ Hd]. inversion_clear Hd as [|? ? [x Hx] _].
  eapply digit_no_space, Hx.
Qed.

(** The text without the outer spaces. *)
Lemma trim_layout w1 w2 w3 o ds :
  spaces w1 -> spaces w2 -> spaces w3 -> all_digits ds -> (o = None -> w2 = [] /\ ds <> []) ->
  exists w2', trim_back (trim_front (w1 ++ operator_text o ++ w2 ++ ds ++ w3)) = operator_text o ++ w2' ++ ds /\
              spaces w2' /\ (o = None -> w2' = []).
Proof.
  intros Hw1 Hw2 Hw3 Hd Hn. destruct ds as [|d ds].
  - exists []. destruct o as [o|]; [|destruct (Hn eq_refl) as [_ []]; reflexivity].
    destruct (operator_text_last o) as (l & c & El & Hc), (operator_text_head o) as (c' & l' & El' & Hc').
    split_and!; [|constructor | congruence]. cbn [operator_text app]. rewrite app_nil_r.
    eapply (trim_word w1 (w2 ++ w3)); [exact Hw1 | apply spaces_app; assumption | exact Hc' | exact Hc | exact El' | exact El].
  - exists w2. split_and!; [|exact Hw2 | intros ->; apply Hn; reflexivity].
    destruct (digits_last (d :: ds) Hd ltac:(discriminate)) as (l & c & El & Hc).
    assert (Hh : exists c' l', operator_text o ++ w2 ++ d :: ds = c' :: l' /\ isspace c' = false).
    { destruct o as [o|].
      - destruct (operator_text_head o) as (c' & l' & El' & Hc'). exists c', (l' ++ w2 ++ d :: ds).
        cbn [operator_text]. rewrite El'. auto.
      - destruct (Hn eq_refl) as [-> _]. exists d, ds. inversion_clear Hd as [|? ? [x Hx] _].
        split; [reflexivity | eapply digit_no_space, Hx]. }
    destruct Hh as (c' & l' & Eh & Hc').
    replace (w1 ++ operator_text o ++ w2 ++ (d :: ds) ++ w3) with (w1 ++ (operator_text o ++ w2 ++ d :: ds) ++ w3)
      by (rewrite <- !app_assoc; reflexivity).
    eapply trim_word; [exact Hw1 | exact Hw3 | exact Hc' | exact Hc | exact Eh |].
    rewrite El, !app_assoc. reflexivity.
Qed.

(** Count expressions.  A text is a count exactly when it is an optional operator and
    decimal digits, with white space around and between them; the operator may stand
    without digits, and the digits without an operator mean "at least".  Its value is
    the number modulo 2^64. *)
Theorem count_parse_exact (str : string) (e : CountExpression) :
  parse_count str = Some e <->
  exists o ds, count_layout (chars str) o ds /\ all_digits ds /\ (o = None -> ds <> []) /\
    op e = default GreaterEqual o /\ value e = uint 64 (decimal ds).
Proof.
  split; [apply parse_count_inv|].
  intros (o & ds & (w1 & w2 & w3 & E & Hw1 & Hw2 & Hw3) & Hd & Hn & Ho & Hv).
  assert (Hl : exists w1 w2, chars str = w1 ++ operator_text o ++ w2 ++ ds ++ w3 /\ spaces w1 /\ spaces w2 /\
                             (o = None -> w2 = [] /\ ds <> [])).
  { destruct o; [exists w1, w2; split_and!; auto; discriminate|].
    exists (w1 ++ w2), []. split_and!; auto; [rewrite E, <- app_assoc; reflexivity | apply spaces_app; assumption | constructor]. }
  clear w1 w2 Hw1 Hw2 E Hn. destruct Hl as (w1 & w2 & E & Hw1 & Hw2 & Hn).
  destruct (trim_layout w1 w2 w3 o ds Hw1 Hw2 Hw3 Hd Hn) as (w2' & Et & Hw2' & Hn').
  rewrite parse_count_chars, E, Et.
  assert (Hs : number_start o (w2' ++ ds)).
  { destruct w2' as [|c w2'].
    - destruct ds as [|d ds]; [intros ->; destruct (Hn eq_refl) as [_ []]; reflexivity | left; inversion_clear Hd; assumption].
    - right. split; [intros ->; discriminate (Hn' eq_refl) | inversion_clear Hw2'; assumption]. }
  assert (Hne : operator_text o ++ w2' ++ ds <> []).
  { destruct o as [o|]; [destruct o; discriminate|]. rewrite (Hn' eq_refl). apply (Hn eq_refl). }
  destruct (operator_text o ++ w2' ++ ds) as [|c t] eqn:El; [contradiction|].
  cbv zeta. rewrite <- El, parse_operator_text by exact Hs. cbn [fst snd]. rewrite trim_front_spaces by exact Hw2'.
  replace (trim_front ds) with ds.
  2:{ destruct Hd as [|d ds [x Hx] Hd]; [reflexivity|]. symmetry. apply trim_front_word. eapply digit_no_space, Hx. }
  change 0 with (uint 64 0). rewrite parse_number_digits by exact Hd. cbn. destruct e. cbn in Ho, Hv. subst. reflexivity.
Qed.

(** The text that the runner prints for a count is read back as that count. *)
Theorem count_round_trip (e : CountExpression) : fits 64 (value e) -> parse_count (count_expr_string e) = Some e.
Proof.
  intros Hv. destruct (pretty_number (value e)) as (c & l & Ep & Hd & Hp); [destruct Hv; assumption|].
  destruct (trim_layout [] [" "%char] [] (Some (op e)) (c :: l)) as (w2 & Et & Hw2 & _);
    [constructor | repeat constructor | constructor | exact Hd | discriminate |].
  rewrite app_nil_r in Et. change ([] ++ ?x) with x in Et.
  rewrite parse_count_chars. unfold count_expr_string. rewrite !chars_app, Ep.
  change (chars (op_string (op e))) with (operator_text (Some (op e))). change (chars " ") with [" "%char].
  rewrite Et. destruct (operator_text (Some (op e)) ++ w2 ++ c :: l) as [|x t] eqn:El; [destruct (op e); discriminate El|].
  cbv zeta. rewrite <- El, parse_operator_text.
  - cbn [fst snd]. rewrite trim_front_spaces by exact Hw2. inversion Hd as [|? ? [x' Hx] _]; subst.
    rewrite trim_front_word by (eapply digit_no_space, Hx). rewrite Hp, uint_small by exact Hv. destruct e. reflexivity.
  - inversion_clear Hd. destruct w2; [left; assumption | right; split; [discriminate | inversion_clear Hw2; assumption]].
Qed.

Lemma count_round_trip_witness :
  parse_count (count_expr_string (mkCount LessEqual (2 ^ 64 - 1))) = Some (mkCount LessEqual (2 ^ 64 - 1)) /\
  parse_count " >=  18446744073709551617 " = Some (mkCount GreaterEqual 1) /\ parse_count "!=" = Some (mkCount NotEqual 0).
Proof. split; [apply count_round_trip; split; [discriminate | reflexivity] | split; reflexivity]. Defined.

(** ** What a step expects of a packet *)

(** A field that is present. *)
Definition field {A} (f : option A) (P : A -> Prop) : Prop := forall x, f = Some x -> P x.

Definition ethernet_meets (e : EthernetExpect) (h : EthernetHeader) : Prop :=
  field (ethertype e) (eq (eth_ethertype h)) /\
  field (vlan_id e) (fun v => exists t, (eth_vlan h = Some t \/ eth_vlan_inner h = Some t) /\ vid t = v).

Definition ipv4_meets (e : IPv4Expect) (h : IPv4Header) : Prop :=
  field (protocol e) (eq (ip_protocol h)) /\ field (ttl e) (eq (ip_ttl h)).

Definition udp_meets (e : UDPExpect) (h : UdpHeader) : Prop :=
  field (udp_src e) (eq (udp_src_port h)) /\ field (udp_dst e) (eq (udp_dst_port h)).

Definition tcp_meets (e : TCPExpect) (h : TcpHeader) : Prop :=
  field (tcp_src e) (eq (tcp_src_port h)) /\ field (tcp_dst e) (eq (tcp_dst_port h)) /\
  field (e_syn e) (fun b => b = true <-> syn (tcp_flags h) = true /\ ack (tcp_flags h) = false) /\
  field (e_ack e) (eq (ack (tcp_flags h))) /\ field (e_fin e) (eq (fin (tcp_flags h))) /\
  field (e_rst e) (eq (rst (tcp_flags h))).

Definition someip_meets (e : SomeIpExpect) (h : SomeIpHeader) : Prop :=
  field (service_id e) (eq (SomeIp.service_id h)) /\ field (method_id e) (eq (SomeIp.method_id h)) /\
  field (client_id e) (eq (SomeIp.client_id h)) /\ field (session_id e) (eq (SomeIp.session_id h)) /\
  field (return_code e) (eq (SomeIp.return_code h)) /\
  field (message_type e) (fun t => someip_type_matches t h = true).

Definition someip_sd_meets (e : SomeIpSdExpect) (h : SomeIpSdHeader) : Prop :=
  is_Some (sd_service_id e) \/ is_Some (sd_instance_id e) ->
  exists c ttl, ServiceEntry c ttl ∈ SomeIpSd.entries h /\
    field (sd_service_id e) (eq (en_service_id c)) /\ field (sd_instance_id e) (eq (en_instance_id c)).

Definition doip_meets (e : DoIpExpect) (h : DoIPHeader) : Prop :=
  field (payload_type e) (fun t => doip_type_matches t h = true).

Definition payload_meets (e : PayloadExpect) (p : list byte) : Prop :=
  field (min_size e) (fun n => n <= zlen p) /\ field (max_size e) (fun n => zlen p <= n) /\
  field (contains e) (fun needle => p <> [] /\ exists before after, p = before ++ needle ++ after) /\
  field (equals e) (eq p).

(** The layers that a step names are in the packet, with the fields it names. *)
Definition with_layer {A H} (f : option A) (layer : H -> DecodedHeader) (P : A -> H -> Prop) (r : DecodeStackResult) : Prop :=
  field f (fun a => exists h, layer h ∈ layers r /\ P a h).

Definition meets (e : ExpectStep) (r : DecodeStackResult) : Prop :=
  with_layer (ethernet e) EthernetLayer ethernet_meets r /\ with_layer (ipv4 e) IPv4Layer ipv4_meets r /\
  with_layer (udp e) UdpLayer udp_meets r /\ with_layer (tcp e) TcpLayer tcp_meets r /\
  with_layer (someip e) SomeIpLayer someip_meets r /\ with_layer (someip_sd e) SomeIpSdLayer someip_sd_meets r /\
  with_layer (doip e) DoIPLayer doip_meets r /\ field (payload_expect e) (fun p => payload_meets p (payload r)).

Lemma holds_field {A} (f : option A) c (P : A -> Prop) :
  (forall x, c x = true <-> P x) -> holds f c = true <-> field f P.
Proof.
  intros H. unfold field. destruct f as [a|]; cbn [holds].
  - rewrite H. split; [intros Ha x [= <-]; exact Ha | intros Ha; apply Ha; reflexivity].
  - split; [discriminate | reflexivity].
Qed.

Lemma eqb_field (f : option Z) x : holds f (fun y => x =? y) = true <-> field f (eq x).
Proof. apply holds_field. intros y. apply Z.eqb_eq. Qed.

Lemma flag_field (f : option bool) x : holds f (fun y => Bool.eqb x y) = true <-> field f (eq x).
Proof. apply holds_field. intros y. apply Bool.eqb_true_iff. Qed.

Lemma ethernet_matches_exact e h : ethernet_matches e h = true <-> ethernet_meets e h.
Proof.
  unfold ethernet_matches, ethernet_meets. rewrite andb_true_iff, eqb_field. f_equiv.
  apply holds_field. intros v. rewrite orb_true_iff. unfold has_vid.
  destruct (eth_vlan h) as [a|], (eth_vlan_inner h) as [b|]; rewrite ?Z.eqb_eq;
    (split; [ intros [H|H]; try discriminate H; eauto | intros (t & [H|H] & E); try discriminate H; injection H as ->; auto ]).
Qed.

Lemma ipv4_matches_exact e h : ipv4_matches e h = true <-> ipv4_meets e h.
Proof. unfold ipv4_matches, ipv4_meets. rewrite andb_true_iff, !eqb_field. reflexivity. Qed.

Lemma udp_matches_exact e h : udp_matches e h = true <-> udp_meets e h.
Proof. unfold udp_matches, udp_meets. rewrite andb_true_iff, !eqb_field. reflexivity. Qed.

Lemma tcp_matches_exact e h : tcp_matches e h = true <-> tcp_meets e h.
Proof.
  unfold tcp_matches, tcp_meets. rewrite !andb_true_iff, !eqb_field, !flag_field.
  assert (Hs : field (e_syn e) (eq (is_syn h)) <->
               field (e_syn e) (fun b => b = true <-> syn (tcp_flags h) = true /\ ack (tcp_flags h) = false)); [|tauto].
  assert (Hb : forall b, is_syn h = b <-> (b = true <-> syn (tcp_flags h) = true /\ ack (tcp_flags h) = false)).
  { intros b. unfold is_syn. destruct (syn _), (ack _), b; cbn; intuition congruence. }
  unfold field. split; intros H b Eb; apply Hb, H, Eb.
Qed.

Lemma someip_matches_exact e h : someip_matches e h = true <-> someip_meets e h.
Proof.
  unfold someip_matches, someip_meets. rewrite !andb_true_iff, !eqb_field.
  rewrite (holds_field (message_type e) _ (fun t => someip_type_matches t h = true)); [tauto|]. reflexivity.
Qed.

Lemma sd_entry_matches_exact e entry :
  sd_entry_matches e entry = true <->
  exists c ttl, entry = ServiceEntry c ttl /\
    field (sd_service_id e) (eq (en_service_id c)) /\ field (sd_instance_id e) (eq (en_instance_id c)).
Proof.
  destruct entry as [c t|c ? ?]; cbn [sd_entry_matches].
  - rewrite andb_true_iff, !eqb_field. split; [eauto | intros (c' & ttl' & [= <- <-] & H); exact H].
  - split; [discriminate | intros (? & ? & H & _); discriminate H].
Qed.

Lemma someip_sd_matches_exact e h : someip_sd_matches e h = true <-> someip_sd_meets e h.
Proof.
  unfold someip_sd_matches, someip_sd_meets.
  assert (Hex : existsb (sd_entry_matches e) (SomeIpSd.entries h) = true <->
    exists c ttl, ServiceEntry c ttl ∈ SomeIpSd.entries h /\
      field (sd_service_id e) (eq (en_service_id c)) /\ field (sd_instance_id e) (eq (en_instance_id c))).
  { rewrite existsb_exists. split.
    - intros (x & Hx & Hm). apply sd_entry_matches_exact in Hm as (c & t & -> & H).
      exists c, t. rewrite list_elem_of_In. auto.
    - intros (c & t & Hx & H). exists (ServiceEntry c t). rewrite <- list_elem_of_In.
      split; [exact Hx | apply sd_entry_matches_exact; eauto]. }
  destruct (sd_service_id e), (sd_instance_id e); try (rewrite Hex; split; [auto | intros H; apply H; eauto]).
  split; [intros _ [[]|[]]; discriminate | reflexivity].
Qed.

Lemma doip_matches_exact e h : doip_matches e h = true <-> doip_meets e h.
Proof. apply holds_field. reflexivity. Qed.

(** The search stops at an occurrence, or at the end. *)
Lemma search_exact hay needle :
  search hay needle <> length hay <-> hay <> [] /\ exists before after, hay = before ++ needle ++ after.
Proof.
  induction hay as [|b hay IH]; cbn [search].
  - case_bool_decide; cbn; split; [congruence | tauto | congruence | tauto].
  - case_bool_decide as Hp.
    + split; [|discriminate]. intros _. split; [discriminate|]. destruct Hp as [after ->]. exists [], after. reflexivity.
    + cbn [length]. split.
      * intros H. assert (H' : search hay needle <> length hay) by congruence.
        apply IH in H' as (_ & before & after & ->). split; [discriminate|]. exists (b :: before), after. reflexivity.
      * intros (_ & before & after & E) Hl. destruct before as [|b' before]; [apply Hp; exists after; exact E|].
        injection E as -> E. apply (proj2 IH); [|congruence]. split; [|eauto].
        intros ->. destruct before, needle, after; try discriminate E. apply Hp. exists (b' :: []). reflexivity.
Qed.

Lemma payload_matches_exact e p : payload_matches e p = true <-> payload_meets e p.
Proof.
  unfold payload_matches, payload_meets. rewrite !andb_true_iff.
  rewrite (holds_field (min_size e) _ (fun n => n <= zlen p)), (holds_field (max_size e) _ (fun n => zlen p <= n)),
    (holds_field (contains e) _ (fun needle => p <> [] /\ exists before after, p = before ++ needle ++ after)),
    (holds_field (equals e) _ (eq p)); [tauto | ..]; intros x.
  - apply bool_decide_eq_true.
  - rewrite negb_true_iff, Nat.eqb_neq. apply search_exact.
  - rewrite negb_true_iff, Z.ltb_ge. reflexivity.
  - rewrite negb_true_iff, Z.ltb_ge. reflexivity.
Qed.

Lemma on_expect_exact {A H} (f : option A) (as_header : DecodedHeader -> option H) (layer : H -> DecodedHeader)
    check (P : A -> H -> Prop) k first d rest r :
  one_rank as_header k -> (forall l h, as_header l = Some h <-> l = layer h) -> (forall a h, check a h = true <-> P a h) ->
  stack first d (layers r) rest ->
  on_expect f as_header check r = true <-> with_layer f layer P r.
Proof.
  intros Hk Hl Hc Hst. apply holds_field. intros a. rewrite (on_layer_stack as_header k _ _ _ _ _ Hk Hst). split.
  - intros (l & h & Hin & Ha & Hp). apply Hl in Ha as ->. apply Hc in Hp. eauto.
  - intros (h & Hin & Hp). exists (layer h), h. split_and!; [exact Hin | apply Hl; reflexivity | apply Hc, Hp].
Qed.

Local Ltac projection := intros [] ?; cbn; split; intros [= ->]; reflexivity.
Local Ltac ranked := intros [] ? [=]; reflexivity.

Lemma matches_result_exact e first d rest r :
  stack first d (layers r) rest -> matches_result e r = true <-> meets e r.
Proof.
  intros Hst. unfold matches_result, meets. rewrite !andb_true_iff.
  rewrite (on_expect_exact (ethernet e) as_ethernet EthernetLayer _ ethernet_meets 0 _ _ _ _)
    by (exact Hst || apply ethernet_matches_exact || ranked || projection).
  rewrite (on_expect_exact (ipv4 e) as_ipv4 IPv4Layer _ ipv4_meets 1 _ _ _ _)
    by (exact Hst || apply ipv4_matches_exact || ranked || projection).
  rewrite (on_expect_exact (udp e) as_udp UdpLayer _ udp_meets 2 _ _ _ _)
    by (exact Hst || apply udp_matches_exact || ranked || projection).
  rewrite (on_expect_exact (tcp e) as_tcp TcpLayer _ tcp_meets 2 _ _ _ _)
    by (exact Hst || apply tcp_matches_exact || ranked || projection).
  rewrite (on_expect_exact (someip e) as_someip SomeIpLayer _ someip_meets 3 _ _ _ _)
    by (exact Hst || apply someip_matches_exact || ranked || projection).
  rewrite (on_expect_exact (someip_sd e) as_someip_sd SomeIpSdLayer _ someip_sd_meets 4 _ _ _ _)
    by (exact Hst || apply someip_sd_matches_exact || ranked || projection).
  rewrite (on_expect_exact (doip e) as_doip DoIPLayer _ doip_meets 4 _ _ _ _)
    by (exact Hst || apply doip_matches_exact || ranked || projection).
  rewrite (holds_field (payload_expect e) _ (fun p => payload_meets p (payload r))) by (intros; apply payload_matches_exact).
  tauto.
Qed.

(** The verdict of the matcher, which is what a packet contributes to a count. *)
Definition verdict (e : ExpectStep) (d : ProtocolDispatcher) (packet : list byte) : run bool :=
  x ← matches e d packet; Done x.1.

(** It depends on nothing that the matcher saw before. *)
Lemma verdict_state e d st packet : verdict e (with_reassembler d st) packet = verdict e d packet.
Proof.
  pose proof (decode_state_irrelevant d st packet) as H. unfold verdict, matches.
  destruct (decode d packet) as [[r d1]| |], (decode _ packet) as [[r' d1']| |]; try contradiction H; cbn in H |- *;
    congruence.
Qed.

Lemma matches_verdict e d packet b d' :
  matches e d packet = Done (b, d') -> verdict e d packet = Done b /\ exists st, d' = with_reassembler d st.
Proof.
  intros H. unfold verdict. rewrite H. split; [reflexivity|].
  apply bind_inv in H as ([r d1] & H & Hb). apply Done_pair_inj in Hb as [_ <-].
  apply bind_inv in H as ([r1 st] & H & Hr). apply Done_pair_inj in Hr as [_ <-]. exists st. reflexivity.
Qed.


(** SYN means "SYN without ACK", so a step that expects both flags matches nothing. *)
Lemma syn_ack_never e d d' packet b :
  matches e d packet = Done (b, d') ->
  (exists t, tcp e = Some t /\ e_syn t = Some true /\ e_ack t = Some true) -> b = false.
Proof.
  intros H (t & Et & Es & Ea). apply bind_inv in H as ([r d1] & H & Hb). apply Done_pair_inj in Hb as [<- _].
  apply bind_inv in H as ([r1 st] & H & Hr). apply Done_pair_inj in Hr as [<- _].
  apply decode_ethernet_stack in H as (rest & Hst & _). apply not_true_iff_false. intros Hm.
  eapply matches_result_exact in Hm as (_ & _ & _ & Ht & _); [|exact Hst].
  destruct (Ht t Et) as (h & _ & _ & _ & Hs & Ha & _).
  specialize (Hs true Es). specialize (Ha true Ea). cbn in Ha. destruct (proj1 Hs eq_refl). congruence.
Qed.

(** A step that names nothing, and one for the SOME/IP messages of a service. *)
Definition no_expectation : ExpectStep :=
  mkExpectStep None None None None None None None None None 1000 (mkCount GreaterEqual 1) "" true.
Definition expect_service (service port : Z) : ExpectStep :=
  mkExpectStep None None (Some (mkUDPExpect None (Some port))) None
    (Some (mkSomeIpExpect (Some service) None None None (Some SomeIpAny) None)) None None None None
    1000 (mkCount GreaterEqual 1) "" true.

