(* ===== verification/ScenarioRunner.v ===== *)
(** * The scenario runner (src/scenario/runner.cpp, include/wadjet/scenario/runner.hpp,
    and the steps and results of include/wadjet/scenario/scenario_types.hpp)

    [execute_step] for each kind of step, [run], [run_all], the capture that is saved on
    failure, and the two batch functions.

    What the runner asks of its surroundings is a parameter: the contents of the files,
    whether a file can be created, the readings of the two clocks, the flag that
    [stop] sets from another thread, and the capture session, of which the runner uses
    [create], [set_filter] and [next_packet].  Sleeping shows in the trace only; the time
    that passes is in the readings of the clock. *)

From Stdlib Require Import ZArith Lia.
From Stdlib Require Import Strings.Byte Strings.Ascii.
From stdpp Require Import base numbers list strings pretty.
From S2P Require Import Prelude Decoder Dispatcher Timestamp Pcap Scenario.

(** ** Scenarios *)

(** Durations are milliseconds. *)
Record CaptureConfig := mkCaptureConfig {
  interface : string;
  filter : string;
  pcap_file : option string;
  capture_timeout : Z;
  promiscuous : bool
}.

Record SendStep := mkSendStep {
  send_interface : string;
  send_pcap : option string;
  raw_data : option (list byte);
  delay : Z
}.

Inductive Step :=
| CaptureStep (config : CaptureConfig)
| Send (s : SendStep)
| WaitStep (duration : Z)
| Expect (e : ExpectStep)
| LogStep (message level : string).

Record Scenario := mkScenario {
  name : string;
  scenario_description : string;
  version : string;
  tags : list string;
  scenario_timeout : Z;
  steps : list Step
}.

Definition has_expectations (sc : Scenario) : bool :=
  existsb (fun s => match s with Expect _ => true | _ => false end) (steps sc).

Fixpoint expectations (l : list Step) : list ExpectStep :=
  match l with
  | [] => []
  | Expect e :: l' => e :: expectations l'
  | _ :: l' => expectations l'
  end.
Definition get_expectations (sc : Scenario) : list ExpectStep := expectations (steps sc).

Record ExpectResult := mkExpectResult {
  er_description : string;
  er_passed : bool;
  failure_reason : string;
  packets_matched : Z;
  elapsed : Z
}.

Record ScenarioResult := mkScenarioResult {
  scenario_name : string;
  passed : bool;
  expect_results : list ExpectResult;
  total_elapsed : Z;
  error_message : string;
  failure_pcap : option string
}.

Definition passed_count (r : ScenarioResult) : Z := zlen (List.filter er_passed (expect_results r)).
Definition failed_count (r : ScenarioResult) : Z := uint 64 (zlen (expect_results r) - passed_count r).
Definition total_count (r : ScenarioResult) : Z := zlen (expect_results r).

(** ** The runner *)

Record RunnerOptions := mkRunnerOptions {
  verbose : bool;
  save_pcap_on_failure : bool;
  pcap_output_dir : string;
  dry_run : bool;
  stop_on_first_failure : bool;
  global_timeout : Z
}.

(** Which callbacks are set; what they are called with is the trace. *)
Record RunnerCallbacks := mkCallbacks {
  on_scenario_start : bool;
  on_scenario_end : bool;
  on_step_start : bool;
  on_expect_result : bool;
  on_log : bool;
  on_packet_captured : bool
}.

Inductive Event :=
| ScenarioStart (name : string)
| ScenarioEnd (r : ScenarioResult)
| StepStart (s : Step) (index : nat)
| ExpectDone (r : ExpectResult)
| Log (message : string)
| PacketCaptured (p : Packet)
| Stderr (line : string)
| Sleep (ms : Z).

(** The only failure of a model function is that it ran out of fuel. *)
Inductive Unfinished := OutOfFuel.
Abbreviation step_run := (res Unfinished).
Definition finished {A} (m : run A) : step_run A :=
  match m with Done a => Done a | Fail e => match e with end | Undef => Undef end.

(** What lives longer than a run: how often the clock and the stop flag were read, the
    shared dispatcher, and what was observed and written. *)
Record World := mkWorld {
  ticks : nat;
  polls : nat;
  dispatcher : ProtocolDispatcher;
  trace : list Event;
  saved : list (string * list byte)
}.

Definition tick (w : World) : World := mkWorld (S (ticks w)) (polls w) (dispatcher w) (trace w) (saved w).
Definition poll (w : World) : World := mkWorld (ticks w) (S (polls w)) (dispatcher w) (trace w) (saved w).
Definition set_dispatcher (d : ProtocolDispatcher) (w : World) : World :=
  mkWorld (ticks w) (polls w) d (trace w) (saved w).
Definition emit (wanted : bool) (e : Event) (w : World) : World :=
  if wanted then mkWorld (ticks w) (polls w) (dispatcher w) (trace w ++ [e]) (saved w) else w.
Definition save (file : string) (contents : list byte) (w : World) : World :=
  mkWorld (ticks w) (polls w) (dispatcher w) (trace w) (saved w ++ [(file, contents)]).

Definition millisecond : Z := 1000000.

Section runner.
(** The byte order of the host, the files, and the clocks ([steady] in nanoseconds and
    [system] in seconds, at each reading). *)
Context (big : bool) (files : string -> option (list byte)) (creatable : string -> bool).
Context (steady system : nat -> Z) (stopped : nat -> bool).
(** [io::CaptureSession]. *)
Context {Session : Type} (create_session : string -> bool -> option Session)
  (set_filter : string -> Session -> Session) (next : Z -> Session -> option Packet * Session).
Context (opts : RunnerOptions) (callbacks : RunnerCallbacks).

(** The locals of [run]. *)
Record State := mkState {
  world : World;
  capture : option Session;
  captured_packets : list Packet;
  results : list ExpectResult
}.

Definition on_world (f : World -> World) (s : State) : State :=
  mkState (f (world s)) (capture s) (captured_packets s) (results s).

(** A file is read the way its contents are read from memory. *)
Definition load (contents : option (list byte)) : step_run (list Packet) :=
  match contents with
  | None => Done []
  | Some d =>
      match from_memory big d with
      | Fail _ => Done []
      | Undef => Undef
      | Done r => match read_all big r with Done pr => Done pr.1 | _ => Undef end
      end
  end.

Definition execute_capture (config : CaptureConfig) (s : State) : step_run State :=
  match pcap_file config with
  | Some file => ps ← load (files file); Done (mkState (world s) None ps (results s))
  | None =>
      match create_session (interface config) (promiscuous config) with
      | None => Done (mkState (world s) None [] (results s))
      | Some c =>
          let c := if negb (String.eqb (filter config) "") then set_filter (filter config) c else c in
          Done (mkState (world s) (Some c) [] (results s))
      end
  end.

Definition execute_send (step : SendStep) (s : State) : State :=
  if 0 <? delay step then on_world (emit true (Sleep (delay step))) s else s.

Definition execute_wait (duration : Z) (s : State) : State := on_world (emit true (Sleep duration)) s.

Definition execute_log (message level : string) (s : State) : State :=
  on_world (fun w => emit (verbose opts) (Stderr ("[" +:+ level +:+ "] " +:+ message))
                       (emit (on_log callbacks) (Log ("[" +:+ level +:+ "] " +:+ message)) w)) s.

(** [if (matcher->matches(pkt)) ++match_count;]. *)
Definition match_packet (e : ExpectStep) (p : Packet) (count : Z) (w : World) : step_run (Z * World) :=
  bd ← finished (matches e (dispatcher w) (pk_data p));
  Done (if (bd.1 : bool) then uint 64 (count + 1) else count, set_dispatcher bd.2 w).

(** The loop over a recorded capture. *)
Fixpoint offline_loop (e : ExpectStep) (ps : list Packet) (count : Z) (w : World) : step_run (Z * World) :=
  match ps with
  | [] => Done (count, w)
  | p :: ps' => cw ← match_packet e p count w; offline_loop e ps' cw.1 cw.2
  end.

(** The loop on a live capture: it ends at the deadline, or after a packet with which
    the count is right. *)
Fixpoint live_loop (fuel : nat) (e : ExpectStep) (deadline : Z) (c : Session) (ps : list Packet) (n : Z) (w : World)
    : step_run (Z * Session * list Packet * World) :=
  match fuel with
  | O => Fail OutOfFuel
  | S fuel =>
      let now := steady (ticks w) in
      let w := tick w in
      if deadline <=? now then Done (n, c, ps, w)
      else
        let remaining := Z.quot (deadline - steady (ticks w)) millisecond in
        let w := tick w in
        let (pkt, c) := next remaining c in
        match pkt with
        | None => live_loop fuel e deadline c ps n w
        | Some p =>
            let ps := ps ++ [p] in
            let w := emit (on_packet_captured callbacks) (PacketCaptured p) w in
            nw ← match_packet e p n w;
            if evaluate (count e) nw.1 then Done (nw.1, c, ps, nw.2)
            else live_loop fuel e deadline c ps nw.1 nw.2
        end
  end.

Definition expect_outcome (e : ExpectStep) (match_count start stop : Z) : ExpectResult :=
  let ok := evaluate (count e) match_count in
  mkExpectResult (if String.eqb (description e) "" then describe e else description e) ok
    (if ok then "" else "Expected count " +:+ count_expr_string (count e) +:+ " but got " +:+ pretty match_count)
    match_count (Z.quot (stop - start) millisecond).

Definition execute_expect (fuel : nat) (e : ExpectStep) (s : State) : step_run State :=
  let start := steady (ticks (world s)) in
  let w := tick (world s) in
  out ← (match capture s with
         | Some c =>
             o ← live_loop fuel e (start + within e * millisecond) c (captured_packets s) 0 w;
             let '(n, c, ps, w) := o in Done (n, Some c, ps, w)
         | None => nw ← offline_loop e (captured_packets s) 0 w; Done (nw.1, None, captured_packets s, nw.2)
         end);
  let '(n, c, ps, w) := out in
  let r := expect_outcome e n start (steady (ticks w)) in
  let w := emit (on_expect_result callbacks) (ExpectDone r) (tick w) in
  Done (mkState w c ps (results s ++ [r])).

Definition execute_step (fuel : nat) (step : Step) (s : State) : step_run State :=
  match step with
  | CaptureStep config => execute_capture config s
  | Send step => Done (execute_send step s)
  | WaitStep duration => Done (execute_wait duration s)
  | Expect e => execute_expect fuel e s
  | LogStep message level => Done (execute_log message level s)
  end.

(** [!result.expect_results.empty() && !result.expect_results.back().passed]; the field
    [passed] of the result is false until the end of the run. *)
Definition last_failed (s : State) : bool :=
  match last (results s) with Some r => negb (er_passed r) | None => false end.

(** The loop over the steps: the error message and the state after it. *)
Fixpoint run_steps (fuel : nat) (step_index : nat) (l : list Step) (s : State) : step_run (string * State) :=
  match l with
  | [] => Done ("", s)
  | step :: l' =>
      let stop := stopped (polls (world s)) in
      let s := on_world poll s in
      if stop then Done ("Execution stopped by user", s)
      else
        let s := on_world (emit (on_step_start callbacks) (StepStart step step_index)) s in
        s ← execute_step fuel step s;
        if stop_on_first_failure opts && last_failed s then Done ("", s)
        else run_steps fuel (S step_index) l' s
  end.

(** [std::isalnum] in the C locale. *)
Definition isalnum (c : ascii) : bool :=
  let n := Ascii.N_of_ascii c in
  ((48 <=? n) && (n <=? 57) || (65 <=? n) && (n <=? 90) || (97 <=? n) && (n <=? 122))%N.
Definition safe_name (s : string) : string :=
  String.string_of_list_ascii
    (map (fun c => if isalnum c then c else "_"%char) (String.list_ascii_of_string s)).

(** The name of the file, which the function returns whether or not it could write it. *)
Definition save_failure_pcap (scenario : string) (packets : list Packet) (w : World) : string * World :=
  let file := pcap_output_dir opts +:+ "/" +:+ safe_name scenario +:+ "_" +:+ pretty (system (ticks w)) +:+ ".pcap" in
  let w := tick w in
  (file,
   if creatable file
   then save file (Pcap.file (write_all big packets (Pcap.create big PcapWriterOptions_default))) w
   else w).

Definition run_scenario (fuel : nat) (sc : Scenario) (w : World) : step_run (ScenarioResult * World) :=
  let start := steady (ticks w) in
  let w := tick w in
  let w := emit (on_scenario_start callbacks) (ScenarioStart (name sc)) w in
  if dry_run opts then Done (mkScenarioResult (name sc) true [] 0 "" None, w)
  else
    es ← run_steps fuel 0 (steps sc) (mkState w None [] []);
    let (error, s) := es : string * State in
    let ok := String.eqb error "" && forallb er_passed (results s) in
    let (pcap, w) :=
      if negb ok && save_pcap_on_failure opts && negb (zlen (captured_packets s) =? 0)
      then let (file, w) := save_failure_pcap (name sc) (captured_packets s) (world s) in (Some file, w)
      else (None, world s) in
    let result :=
      mkScenarioResult (name sc) ok (results s) (Z.quot (steady (ticks w) - start) millisecond) error pcap in
    Done (result, emit (on_scenario_end callbacks) (ScenarioEnd result) (tick w)).

Fixpoint run_all (fuel : nat) (l : list Scenario) (w : World) : step_run (list ScenarioResult * World) :=
  match l with
  | [] => Done ([], w)
  | sc :: l' =>
      if stopped (polls w) then Done ([], poll w)
      else
        rw ← run_scenario fuel sc (poll w);
        rsw ← run_all fuel l' rw.2;
        Done (rw.1 :: rsw.1, rsw.2)
  end.
(** ** Batches *)

Record BatchResult := mkBatch {
  batch_results : list ScenarioResult;
  batch_elapsed : Z;
  batch_passed : Z;
  batch_failed : Z;
  batch_skipped : Z
}.
Definition all_passed (b : BatchResult) : bool := batch_failed b =? 0.
Definition total (b : BatchResult) : Z := batch_passed b + batch_failed b + batch_skipped b.

(** [path::extension()]: the last dot of the file name and what follows it. *)
Fixpoint after_last (c : ascii) (l : list ascii) : option (list ascii * list ascii) :=
  match l with
  | [] => None
  | x :: l' =>
      match after_last c l' with
      | Some (before, after) => Some (x :: before, after)
      | None => if Ascii.eqb x c then Some ([], l') else None
      end
  end.
Definition extension (path : string) : string :=
  let l := String.list_ascii_of_string path in
  let file := match after_last "/"%char l with Some (_, file) => file | None => l end in
  if bool_decide (file = ["."%char]) || bool_decide (file = ["."; "."]%char) then ""
  else
    match after_last "."%char file with
    | Some (_ :: _, after) => String.string_of_list_ascii ("."%char :: after)
    | _ => ""
    end.

(** [std::tolower] in the C locale. *)
Definition tolower (c : ascii) : ascii :=
  let n := Ascii.N_of_ascii c in if ((65 <=? n) && (n <=? 90))%N then Ascii.ascii_of_N (n + 32) else c.
Definition lower (s : string) : string := String.string_of_list_ascii (map tolower (String.list_ascii_of_string s)).

Definition is_scenario_file (entry : string * bool) : bool :=
  let (path, is_regular_file) := entry in
  let ext := lower (extension path) in
  is_regular_file && (String.eqb ext ".yaml" || String.eqb ext ".yml" || String.eqb ext ".json").

Definition has_tag (wanted : list string) (sc : Scenario) : bool :=
  existsb (fun tag => existsb (String.eqb tag) (tags sc)) wanted.

(** [parse_scenario_file], and the text of its error. *)
Context (parse_scenario_file : string -> string + Scenario).

Definition parse_failure (file error : string) : ScenarioResult :=
  mkScenarioResult file false [] 0 ("Parse error: " +:+ error) None.

Definition add_result (r : ScenarioResult) (b : BatchResult) : BatchResult :=
  mkBatch (batch_results b ++ [r]) (batch_elapsed b) (if passed r then batch_passed b + 1 else batch_passed b)
    (if passed r then batch_failed b else batch_failed b + 1) (batch_skipped b).
Definition add_skipped (b : BatchResult) : BatchResult :=
  mkBatch (batch_results b) (batch_elapsed b) (batch_passed b) (batch_failed b) (batch_skipped b + 1).

Fixpoint batch_loop (fuel : nat) (wanted : list string) (l : list string) (b : BatchResult) (w : World)
    : step_run (BatchResult * World) :=
  match l with
  | [] => Done (b, w)
  | file :: l' =>
      match parse_scenario_file file with
      | inl error => batch_loop fuel wanted l' (add_result (parse_failure file error) b) w
      | inr sc =>
          if negb (zlen wanted =? 0) && negb (has_tag wanted sc)
          then batch_loop fuel wanted l' (add_skipped b) w
          else
            rw ← run_scenario fuel sc w;
            batch_loop fuel wanted l' (add_result rw.1 b) rw.2
      end
  end.

Definition run_batch (fuel : nat) (wanted l : list string) (w : World) : step_run (BatchResult * World) :=
  let start := steady (ticks w) in
  bw ← batch_loop fuel wanted l (mkBatch [] 0 0 0 0) (tick w);
  let (b, w) := bw : BatchResult * World in
  Done (mkBatch (batch_results b) (Z.quot (steady (ticks w) - start) millisecond) (batch_passed b) (batch_failed b)
          (batch_skipped b), tick w).

(** The entries of the directory, in the order of its iterator, with whether each is a regular file. *)
Definition run_scenarios_in_directory (fuel : nat) (entries : list (string * bool)) (wanted : list string) (w : World) :=
  run_batch fuel wanted (map fst (List.filter is_scenario_file entries)) w.
Definition run_scenario_files (fuel : nat) (l : list string) (w : World) := run_batch fuel [] l w.

End runner.

Example extensions : map extension ["a/b.YAML"; ".json"; "a.b/c"; "x."; "..yml"] = [".YAML"; ""; ""; "."; ".yml"].
Proof. reflexivity. Qed.

(** * Properties *)

(** ** Counting *)

Definition is_match (m : run bool) : bool := match m with Done b => b | _ => false end.

(** How many of the packets match, which is what a step counts. *)
Definition count_matching (d : ProtocolDispatcher) (e : ExpectStep) (ps : list Packet) : Z :=
  zlen (List.filter (fun p => is_match (verdict e d (pk_data p))) ps).
(** None of them makes a decoder read out of bounds. *)
Definition decided (d : ProtocolDispatcher) (e : ExpectStep) (ps : list Packet) : Prop :=
  Forall (fun p => verdict e d (pk_data p) <> Undef) ps.

(** A world with the dispatcher that decoded other packets before. *)
Definition after_packets (d : ProtocolDispatcher) (w : World) : Prop := exists st, dispatcher w = with_reassembler d st.

Lemma count_matching_app d e ps ps' : count_matching d e (ps ++ ps') = count_matching d e ps + count_matching d e ps'.
Proof. unfold count_matching. rewrite List.filter_app, length_app. lia. Qed.

Lemma count_matching_one d e p :
  count_matching d e [p] = if is_match (verdict e d (pk_data p)) then 1 else 0.
Proof. unfold count_matching. cbn [List.filter]. destruct (is_match _); reflexivity. Qed.

Lemma after_packets_set d st w : after_packets d w -> after_packets d (set_dispatcher (with_reassembler (dispatcher w) st) w).
Proof. intros [st' E]. exists st. cbn. rewrite E. reflexivity. Qed.

Lemma emit_after d b ev w : after_packets d w -> after_packets d (emit b ev w).
Proof. intros [st E]. exists st. destruct b; exact E. Qed.

(** What one packet does to a count, and to nothing else but the dispatcher. *)
Lemma match_packet_inv d e p n w out :
  after_packets d w -> match_packet e p (uint 64 n) w = Done out ->
  verdict e d (pk_data p) <> Undef /\ out.1 = uint 64 (n + count_matching d e [p]) /\
  exists st, out.2 = set_dispatcher (with_reassembler d st) w.
Proof.
  intros [st E] H. apply bind_inv in H as ([b d'] & H & Hout). apply Done_inj in Hout as <-.
  destruct (matches e (dispatcher w) (pk_data p)) as [bd|[]|] eqn:Hm; try discriminate H.
  apply Done_inj in H as ->. apply matches_verdict in Hm as [Hv [st' ->]].
  rewrite E, verdict_state in Hv. rewrite Hv. split_and!; [discriminate | | exists st'; cbn; rewrite E; reflexivity].
  rewrite count_matching_one, Hv. cbn [fst is_match]. destruct b; [apply uint_add | rewrite Z.add_0_r; reflexivity].
Qed.

Lemma match_packet_done d e p n w :
  after_packets d w -> verdict e d (pk_data p) <> Undef -> exists out, match_packet e p n w = Done out.
Proof.
  intros [st E] Hv. unfold match_packet. rewrite E. rewrite <- (verdict_state e d st) in Hv. unfold verdict in Hv.
  destruct (matches e _ (pk_data p)) as [bd|[]|]; [eexists; reflexivity | cbn in Hv; congruence].
Qed.

Lemma offline_loop_exact d e ps n w :
  after_packets d w -> decided d e ps ->
  exists st, offline_loop e ps (uint 64 n) w =
    Done (uint 64 (n + count_matching d e ps), set_dispatcher (with_reassembler d st) w).
Proof.
  intros Hw Hd. revert n w Hw. induction Hd as [|p ps Hp Hd IH]; intros n w Hw; cbn [offline_loop].
  - destruct Hw as [st E]. exists st. rewrite Z.add_0_r. destruct w. cbn in E |- *. rewrite E. reflexivity.
  - destruct (match_packet_done d e p (uint 64 n) w Hw Hp) as [[n1 w1] Hm]. rewrite Hm, bind_Done.
    destruct (match_packet_inv _ _ _ _ _ _ Hw Hm) as (_ & Hn & st & Hw1). cbn [fst snd] in Hn, Hw1 |- *. subst n1 w1.
    destruct (IH (n + count_matching d e [p]) (set_dispatcher (with_reassembler d st) w)) as [st' H']; [exists st; reflexivity|].
    exists st'. rewrite H'. rewrite <- Z.add_assoc, <- count_matching_app. reflexivity.
Qed.

Lemma forallb_Forall_true {A} (f : A -> bool) l : forallb f l = true <-> Forall (fun x => f x = true) l.
Proof. rewrite forallb_forall, List.Forall_forall. reflexivity. Qed.

(** ** Live captures *)

Section live.
Context (steady : nat -> Z) {Session : Type} (next : Z -> Session -> option Packet * Session) (callbacks : RunnerCallbacks).
Local Abbreviation live_loop := (live_loop steady next callbacks).
Local Abbreviation State := (State (Session := Session)).
Local Abbreviation execute_expect := (execute_expect steady next callbacks).


(** What the loop on a live capture does: [new] are the packets that it takes. *)
Definition live_outcome (d : ProtocolDispatcher) (e : ExpectStep) (deadline : Z) (n0 : Z) (t0 : nat)
    (new : list Packet) (n : Z) (t : nat) : Prop :=
  n = uint 64 (n0 + count_matching d e new) /\
  (forall k, (0 < k < length new)%nat -> evaluate (count e) (uint 64 (n0 + count_matching d e (take k new))) = false) /\
  (new <> [] /\ evaluate (count e) n = true \/
   (new = [] \/ evaluate (count e) n = false) /\ exists k, (t0 <= k < t)%nat /\ deadline <= steady k).

Lemma emit_ticks b ev w : ticks (emit b ev w) = ticks w. Proof. destruct b; reflexivity. Qed.

Lemma live_loop_exact fuel d e deadline c ps n0 w n c' ps' w' :
  after_packets d w -> live_loop fuel e deadline c ps (uint 64 n0) w = Done (n, c', ps', w') ->
  exists new, ps' = ps ++ new /\ after_packets d w' /\ live_outcome d e deadline n0 (ticks w) new n (ticks w').
Proof.
  revert c ps n0 w. induction fuel as [|fuel IH]; intros c ps n0 w Hw H; [discriminate|]. cbn [live_loop] in H.
  destruct (deadline <=? steady (ticks w)) eqn:Hdl.
  - apply Done_inj in H. injection H as <- <- <- <-. exists []. rewrite app_nil_r. split; [reflexivity|]. split; [exact Hw|].
    split; [cbn; rewrite Z.add_0_r; reflexivity|]. split; [cbn; lia|]. right. split; [left; reflexivity|].
    exists (ticks w). bool_to_prop. cbn. split; [lia | exact Hdl].
  - destruct (next _ c) as [[p|] c1].
    + set (w1 := emit _ _ (tick (tick w))) in H.
      assert (Hw1 : after_packets d w1) by (apply emit_after; exact Hw).
      apply bind_inv in H as ([n1 w2] & Hm & H). cbn [fst snd] in H.
      destruct (match_packet_inv d e p n0 w1 _ Hw1 Hm) as (_ & Hn & st & Hw2). cbn [fst snd] in Hn, Hw2. subst n1 w2.
      assert (Ht1 : ticks w1 = S (S (ticks w))) by apply emit_ticks.
      destruct (evaluate (count e) (uint 64 (n0 + count_matching d e [p]))) eqn:Hev.
      * apply Done_inj in H. injection H as <- <- <- <-. exists [p]. split; [reflexivity|].
        split; [exists st; reflexivity|]. split; [reflexivity|]. split; [cbn; lia|]. left. split; [discriminate | exact Hev].
      * apply IH in H as (new & -> & Hw' & Hn & Hk & Hend); [|exists st; reflexivity].
        exists (p :: new). rewrite <- app_assoc. split; [reflexivity|]. split; [exact Hw'|].
        rewrite <- Z.add_assoc, <- count_matching_app in Hn. cbn [app] in Hn. split; [exact Hn|]. split.
        { intros k Hlt. destruct k as [|k]; [lia|]. cbn [take]. destruct k as [|k]; [exact Hev|].
          change (p :: take (S k) new) with ([p] ++ take (S k) new). rewrite count_matching_app, Z.add_assoc. apply Hk. cbn in Hlt. lia. }
        destruct Hend as [[Hne Ht]|[Hor (k & Hk1 & Hk2)]]; [left; split; [discriminate | exact Ht] | right].
        split.
        { right. destruct Hor as [-> | Hor]; [|exact Hor]. rewrite Hn. exact Hev. }
        exists k. split; [|exact Hk2]. cbn [set_dispatcher ticks] in Hk1. rewrite Ht1 in Hk1. lia.
    + apply IH in H as (new & -> & Hw' & Hn & Hk & Hend); [|exact Hw].
      exists new. split; [reflexivity|]. split; [exact Hw'|]. split; [exact Hn|]. split; [exact Hk|].
      destruct Hend as [Hend|[Hor (k & Hk1 & Hk2)]]; [left; exact Hend | right].
      split; [exact Hor|]. exists k. split; [cbn in Hk1; lia | exact Hk2].
Qed.



(** It does end: the clock only has to pass the deadline. *)
Definition decides (d : ProtocolDispatcher) (e : ExpectStep) : Prop :=
  forall ms c p c', next ms c = (Some p, c') -> verdict e d (pk_data p) <> Undef.

Lemma live_loop_ends fuel d e deadline c ps n0 w k0 :
  decides d e -> after_packets d w -> (forall k, (k0 <= k)%nat -> deadline <= steady k) -> (k0 < fuel + ticks w)%nat ->
  (0 < fuel)%nat -> exists out, live_loop fuel e deadline c ps (uint 64 n0) w = Done out.
Proof.
  intros He. revert c ps n0 w. induction fuel as [|fuel IH]; intros c ps n0 w Hw Hk Hf H0; [lia|]. cbn [live_loop].
  destruct (deadline <=? steady (ticks w)) eqn:Hdl; [eexists; reflexivity|]. bool_to_prop.
  assert (Ht : (ticks w < k0)%nat).
  { destruct (Nat.lt_ge_cases (ticks w) k0) as [Hlt|Hge]; [exact Hlt|]. specialize (Hk _ Hge). lia. }
  destruct (next _ c) as [[p|] c1] eqn:Hnext.
  - set (w1 := emit _ _ (tick (tick w))). assert (Hw1 : after_packets d w1) by (apply emit_after; exact Hw).
    destruct (match_packet_done d e p (uint 64 n0) w1 Hw1 (He _ _ _ _ Hnext)) as [[n1 w2] Hm]. rewrite Hm, bind_Done.
    destruct (match_packet_inv d e p n0 w1 _ Hw1 Hm) as (_ & Hn & st & Hw2). cbn [fst snd] in Hn, Hw2 |- *. subst n1 w2.
    destruct (evaluate (count e) _); [eexists; reflexivity|]. apply IH; [exists st; reflexivity | exact Hk | |].
    + cbn [set_dispatcher ticks]. unfold w1. rewrite emit_ticks. cbn. lia.
    + lia.
  - apply IH; [exact Hw | exact Hk | cbn; lia | lia].
Qed.

(** An expectation on a live capture returns as soon as the clock has passed its deadline
    for good: the number of clock readings until then is enough fuel. *)
Theorem live_expect_ends (d : ProtocolDispatcher) (e : ExpectStep) (s : State) (k0 : nat) :
  decides d e -> decided d e (captured_packets s) -> after_packets d (world s) ->
  (forall k, (k0 <= k)%nat -> steady (ticks (world s)) + within e * millisecond <= steady k) ->
  forall fuel, (k0 < fuel)%nat -> exists s', execute_expect fuel e s = Done s'.
Proof.
  intros He Hdec Hd Hk fuel Hf. unfold execute_expect. destruct (capture s) as [c|].
  - destruct (live_loop_ends fuel d e (steady (ticks (world s)) + within e * millisecond) c (captured_packets s) 0
                (tick (world s)) k0 He Hd Hk) as [[[[n c'] ps] w'] H]; [lia | lia |].
    change (uint 64 0) with 0 in H. rewrite H, !bind_Done. eexists. reflexivity.
  - destruct (offline_loop_exact d e (captured_packets s) 0 (tick (world s)) Hd Hdec) as [st H].
    change (uint 64 0) with 0 in H. rewrite H, !bind_Done. eexists. reflexivity.
Qed.
End live.

Section properties.
Context (big : bool) (files : string -> option (list byte)) (creatable : string -> bool).
Context (steady system : nat -> Z) (stopped : nat -> bool).
Context {Session : Type} (create_session : string -> bool -> option Session)
  (set_filter : string -> Session -> Session) (next : Z -> Session -> option Packet * Session).
Context (opts : RunnerOptions) (callbacks : RunnerCallbacks) (parse_scenario_file : string -> string + Scenario).
Local Abbreviation load := (load big).
Local Abbreviation execute_capture := (execute_capture big files create_session set_filter).
Local Abbreviation State := (State (Session := Session)).
Local Abbreviation execute_expect := (execute_expect steady next callbacks).
Local Abbreviation execute_step := (execute_step big files steady create_session set_filter next opts callbacks).
Local Abbreviation run_steps := (run_steps big files steady stopped create_session set_filter next opts callbacks).
Local Abbreviation save_failure_pcap := (save_failure_pcap big creatable system opts).
Local Abbreviation run_scenario :=
  (run_scenario big files creatable steady system stopped create_session set_filter next opts callbacks).
Local Abbreviation batch_loop :=
  (batch_loop big files creatable steady system stopped create_session set_filter next opts callbacks parse_scenario_file).
Local Abbreviation run_batch :=
  (run_batch big files creatable steady system stopped create_session set_filter next opts callbacks parse_scenario_file).

(** ** The capture files *)

(** Loading always returns; an unreadable file has no packets. *)
Lemma load_total contents : exists ps, load contents = Done ps.
Proof.
  destruct contents as [d|]; [|exists []; reflexivity]. cbn [load].
  destruct (from_memory big d) as [r|e|] eqn:Hr; [|eexists; reflexivity | destruct (from_memory_defined big d Hr)].
  destruct (from_memory_inv big d r Hr) as (order & nano & h & body & Hf & ->).
  destruct (records_exist order nano (fh_snaplen h) body) as [ps Hps].
  destruct (read_loop_records _ _ _ big _ _ Hps (S (length d)) (opened d big order nano h)) as (r' & Ha & _).
  { exact (opened_reading _ _ _ _ _ _ Hf). }
  { destruct Hf as (-> & _). rewrite length_app. lia. }
  exists ps. unfold read_all. cbn [opened memory_data]. rewrite Ha. reflexivity.
Qed.

Definition recorded (file : string) : list Packet := match load (files file) with Done ps => ps | _ => [] end.

Lemma load_recorded file : load (files file) = Done (recorded file).
Proof. unfold recorded. destruct (load_total (files file)) as [ps ->]. reflexivity. Qed.

(** ** Recorded captures *)

Definition offline_step (s : Step) : Prop := match s with CaptureStep c => is_Some (pcap_file c) | _ => True end.

(** What the steps check: each expectation, with the packets of the last capture before it. *)
Fixpoint checks (l : list Step) (ps : list Packet) : list (ExpectStep * list Packet) :=
  match l with
  | [] => []
  | CaptureStep c :: l' => checks l' (match pcap_file c with Some file => recorded file | None => [] end)
  | Expect e :: l' => (e, ps) :: checks l' ps
  | _ :: l' => checks l' ps
  end.

Definition check_holds (d : ProtocolDispatcher) (c : ExpectStep * list Packet) : bool :=
  evaluate (count c.1) (uint 64 (count_matching d c.1 c.2)).

(** The result of a check; the clock decides on the time it took only. *)
Definition reports_check (d : ProtocolDispatcher) (c : ExpectStep * list Packet) (r : ExpectResult) : Prop :=
  exists start stop, r = expect_outcome c.1 (uint 64 (count_matching d c.1 c.2)) start stop.

Fixpoint until_failure {A} (ok : A -> bool) (l : list A) : list A :=
  match l with
  | [] => []
  | x :: l' => if ok x then x :: until_failure ok l' else [x]
  end.

Lemma reports_check_passed d c r : reports_check d c r -> er_passed r = check_holds d c.
Proof. intros (? & ? & ->). reflexivity. Qed.

Lemma forallb_until_failure {A} (ok : A -> bool) l : forallb ok (until_failure ok l) = forallb ok l.
Proof. induction l as [|x l IH]; [reflexivity|]. cbn. destruct (ok x) eqn:E; cbn; rewrite E; [rewrite IH; reflexivity | reflexivity]. Qed.

Lemma forallb_reports d cs rs : Forall2 (reports_check d) cs rs -> forallb er_passed rs = forallb (check_holds d) cs.
Proof. induction 1 as [|c r cs rs Hc _ IH]; [reflexivity|]. cbn. rewrite (reports_check_passed _ _ _ Hc), IH. reflexivity. Qed.

(** A state of a run on recorded captures. *)
Definition offline_state (d : ProtocolDispatcher) (ps : list Packet) (s : State) : Prop :=
  capture s = None /\ captured_packets s = ps /\ after_packets d (world s).

Lemma offline_on_world d ps f s :
  (after_packets d (world s) -> after_packets d (f (world s))) -> offline_state d ps s ->
  results (on_world f s) = results s /\ offline_state d ps (on_world f s).
Proof. intros Hf (Hc & Hp & Hd). split; [reflexivity|]. split; [exact Hc | split; [exact Hp | apply Hf, Hd]]. Qed.

Lemma offline_capture d ps c s :
  offline_state d ps s -> is_Some (pcap_file c) ->
  exists s', execute_capture c s = Done s' /\ results s' = results s /\
    offline_state d (match pcap_file c with Some file => recorded file | None => [] end) s'.
Proof.
  intros (_ & _ & Hd) [file Hf]. unfold execute_capture. rewrite Hf, load_recorded, bind_Done.
  eexists. split; [reflexivity|]. split; [reflexivity | split; [reflexivity | split; [reflexivity | exact Hd]]].
Qed.

Lemma offline_expect fuel d ps e s :
  offline_state d ps s -> decided d e ps ->
  exists s' r, execute_expect fuel e s = Done s' /\ results s' = results s ++ [r] /\ reports_check d (e, ps) r /\
    offline_state d ps s'.
Proof.
  intros (Hc & <- & Hd) Hdec. unfold execute_expect. rewrite Hc.
  destruct (offline_loop_exact d e (captured_packets s) 0 (tick (world s)) Hd Hdec) as [st H].
  change (uint 64 0) with 0 in H. rewrite H, !bind_Done. eexists _, _. split; [reflexivity|].
  cbn [fst snd]. split; [reflexivity|]. split; [eexists _, _; reflexivity|].
  split; [reflexivity | split; [reflexivity|]]. apply emit_after. exists st. reflexivity.
Qed.

(** The steps that are not expectations leave the results. *)
Lemma offline_step_exact fuel d ps step s :
  offline_state d ps s -> offline_step step ->
  (forall e, step = Expect e -> decided d e ps) ->
  exists s', execute_step fuel step s = Done s' /\
  match step with
  | CaptureStep c => results s' = results s /\
      offline_state d (match pcap_file c with Some file => recorded file | None => [] end) s'
  | Expect e => offline_state d ps s' /\ exists r, results s' = results s ++ [r] /\ reports_check d (e, ps) r
  | _ => results s' = results s /\ offline_state d ps s'
  end.
Proof.
  intros Hs Ho Hd. destruct step as [c|sd|t|e|m lv]; cbn [execute_step].
  - destruct (offline_capture d ps c s Hs Ho) as (s' & H1 & H2 & H3). eauto.
  - eexists. split; [reflexivity|]. unfold execute_send. case_match; [apply offline_on_world; [apply emit_after | exact Hs] | auto].
  - eexists. split; [reflexivity|]. apply offline_on_world; [apply emit_after | exact Hs].
  - destruct (offline_expect fuel d ps e s Hs (Hd e eq_refl)) as (s' & r & H1 & H2 & H3 & H4). eauto 6.
  - eexists. split; [reflexivity|]. apply offline_on_world; [intros; do 2 apply emit_after; assumption | exact Hs].
Qed.

Lemma last_failed_results (s s' : State) : results s' = results s -> last_failed s' = last_failed s.
Proof. unfold last_failed. intros ->. reflexivity. Qed.

Lemma run_steps_offline fuel i l d ps s :
  (forall k, stopped k = false) -> offline_state d ps s -> Forall offline_step l ->
  Forall (fun c => decided d c.1 c.2) (checks l ps) -> stop_on_first_failure opts && last_failed s = false ->
  exists s' rs, run_steps fuel i l s = Done ("", s') /\ results s' = results s ++ rs /\
    Forall2 (reports_check d) (if stop_on_first_failure opts then until_failure (check_holds d) (checks l ps) else checks l ps) rs.
Proof.
  intros Hstop. revert i ps s. induction l as [|step l IH]; intros i ps s Hs Ho Hd Hl.
  - exists s, []. rewrite app_nil_r. split_and!; try reflexivity. cbn. destruct (stop_on_first_failure opts); constructor.
  - apply Forall_cons in Ho as [Ho1 Ho]. cbn [run_steps]. rewrite Hstop. cbn zeta iota.
    set (s1 := on_world _ (on_world poll s)).
    assert (Hs1 : offline_state d ps s1).
    { apply offline_on_world; [intros; apply emit_after; assumption|]. apply offline_on_world; [auto | exact Hs]. }
    destruct (offline_step_exact fuel d ps step s1 Hs1 Ho1) as (s2 & H2 & Hstep).
    { intros e ->. cbn [checks] in Hd. apply Forall_cons in Hd as [Hd _]. exact Hd. }
    rewrite H2, bind_Done.
    assert (Hr1 : results s1 = results s) by reflexivity.
    destruct step as [c|sd|t|e|m lv]; cbn [checks] in Hd |- *;
      [ destruct Hstep as [Hr Hs2] | destruct Hstep as [Hr Hs2] | destruct Hstep as [Hr Hs2] | | destruct Hstep as [Hr Hs2] ];
      try (rewrite Hr1 in Hr; rewrite (last_failed_results _ _ Hr), Hl;
           destruct (IH (S i) _ s2 Hs2 Ho Hd) as (s' & rs & H & Hrs & HF); [rewrite (last_failed_results _ _ Hr); exact Hl|];
           exists s', rs; rewrite <- Hr; auto).
    destruct Hstep as (Hs2 & r & Hr & Hrep). rewrite Hr1 in Hr. apply Forall_cons in Hd as [_ Hd].
    assert (Hlf : last_failed s2 = negb (check_holds d (e, ps))).
    { unfold last_failed. rewrite Hr, last_snoc, (reports_check_passed _ _ _ Hrep). reflexivity. }
    rewrite Hlf. destruct (stop_on_first_failure opts) eqn:Hsf; cbn [andb until_failure];
      [destruct (check_holds d (e, ps)); cbn [negb]|].
    1,3: destruct (IH (S i) _ s2 Hs2 Ho Hd) as (s' & rs & H & Hrs & HF); [rewrite Hlf; reflexivity|];
      exists s', (r :: rs); split_and!; [exact H | rewrite Hrs, Hr, <- app_assoc; reflexivity | constructor; assumption].
    exists s2, [r]. split_and!; [reflexivity | exact Hr | repeat constructor; exact Hrep].
Qed.


(** [C31] A scenario on recorded captures.  As long as nobody stops the runner, every
    expectation is checked against all packets of the last capture file before it, an
    unreadable file being an empty one: the results are, in order, those of the
    expectations, up to the first failure if the options say so.  The scenario passes
    exactly when every expectation holds, whatever this option says and whatever the
    expectations are marked as, and the run needs no fuel. *)
Theorem offline_run_exact (fuel : nat) (sc : Scenario) (w : World) :
  dry_run opts = false -> (forall k, stopped k = false) -> Forall offline_step (steps sc) ->
  let cs := checks (steps sc) [] in
  let d := dispatcher w in
  Forall (fun c => decided d c.1 c.2) cs ->
  exists res w', run_scenario fuel sc w = Done (res, w') /\
    scenario_name res = name sc /\ error_message res = "" /\
    Forall2 (reports_check d) (if stop_on_first_failure opts then until_failure (check_holds d) cs else cs) (expect_results res) /\
    (passed res = true <-> Forall (fun c => check_holds d c = true) cs).
Proof.
  intros Hdry Hstop Ho cs d Hd. unfold run_scenario. rewrite Hdry.
  set (w1 := emit _ _ (tick w)).
  destruct (run_steps_offline fuel 0 (steps sc) d [] (mkState w1 None [] [])) as (s' & rs & H & Hrs & HF);
    [exact Hstop | | exact Ho | exact Hd | apply andb_false_r |].
  { split; [reflexivity | split; [reflexivity|]]. apply emit_after. exists (tp_reassembler (dispatcher w)).
    unfold d. cbn. destruct (dispatcher w). reflexivity. }
  rewrite H, bind_Done. cbn [results app] in Hrs.
  assert (Hok : forallb er_passed rs = true <-> Forall (fun c => check_holds d c = true) cs).
  { rewrite (forallb_reports d _ _ HF).
    destruct (stop_on_first_failure opts); [rewrite forallb_until_failure|]; apply forallb_Forall_true. }
  change (String.eqb "" "") with true. cbn [andb]. rewrite Hrs.
  destruct (negb (forallb er_passed rs) && save_pcap_on_failure opts && negb (zlen (captured_packets s') =? 0));
    [destruct (save_failure_pcap _ _ _)|]; eexists _, _; (split; [reflexivity|]);
    (split; [reflexivity|]; split; [reflexivity|]; split; [exact HF | exact Hok]).
Qed.

(** ** Any run *)

Definition described (e : ExpectStep) : string := if String.eqb (description e) "" then describe e else description e.

Lemma execute_step_results fuel step s s' :
  execute_step fuel step s = Done s' ->
  match step with
  | Expect e => exists r, results s' = results s ++ [r] /\ er_description r = described e
  | _ => results s' = results s
  end.
Proof.
  destruct step as [c|sd|t|e|m lv]; cbn [execute_step]; intros H.
  - unfold execute_capture in H. destruct (pcap_file c).
    + apply bind_inv in H as (ps & _ & H). apply Done_inj in H as <-. reflexivity.
    + destruct (create_session _ _); apply Done_inj in H as <-; reflexivity.
  - apply Done_inj in H as <-. unfold execute_send. case_match; reflexivity.
  - apply Done_inj in H as <-. reflexivity.
  - apply bind_inv in H as ([[[n c] ps] w] & _ & H). apply Done_inj in H as <-. eexists. split; reflexivity.
  - apply Done_inj in H as <-. reflexivity.
Qed.

Lemma run_steps_results fuel i l s error s' :
  run_steps fuel i l s = Done (error, s') ->
  exists rs, results s' = results s ++ rs /\
    map er_description rs `prefix_of` map described (expectations l) /\
    (error = "" -> forallb er_passed (results s') = true -> length rs = length (expectations l)).
Proof.
  revert i s. induction l as [|step l IH]; intros i s H; cbn [run_steps] in H.
  - apply Done_pair_inj in H as [<- <-]. exists []. rewrite app_nil_r. auto using prefix_nil.
  - destruct (stopped _).
    { apply Done_pair_inj in H as [<- <-]. exists []. rewrite app_nil_r. split_and!; [reflexivity | apply prefix_nil | discriminate]. }
    apply bind_inv in H as (s2 & Hs & H). apply execute_step_results in Hs.
    set (s1 := on_world _ _) in Hs. change (results s1) with (results s) in Hs. clearbody s1.
    assert (Hnext : exists rs, results s' = results s2 ++ rs /\
      map er_description rs `prefix_of` map described (expectations l) /\
      (error = "" -> forallb er_passed (results s') = true -> length rs = length (expectations l))).
    { destruct (stop_on_first_failure opts && last_failed s2) eqn:Hstop; [|exact (IH _ _ H)].
      apply Done_pair_inj in H as [<- <-]. exists []. rewrite app_nil_r. split_and!; [reflexivity | apply prefix_nil|].
      intros _ Hall. exfalso. apply andb_prop in Hstop as [_ Hl]. unfold last_failed in Hl.
      destruct (last (results s2)) as [r|] eqn:Hlast; [|discriminate].
      apply last_Some in Hlast as [l' E]. rewrite E, forallb_app in Hall. cbn in Hall.
      apply andb_prop in Hall as [_ Hall]. destruct (er_passed r); discriminate. }
    destruct Hnext as (rs & Hrs & Hp & Hlen). destruct step as [c|sd|t|e|m lv]; cbn [expectations];
      try (exists rs; rewrite <- Hs; auto).
    destruct Hs as (r & Hr & Hde). exists (r :: rs). rewrite Hr, <- app_assoc in Hrs. split_and!; [exact Hrs | |].
    + cbn [map]. rewrite Hde. apply prefix_cons, Hp.
    + intros He Hall. cbn [length]. rewrite Hlen by assumption. reflexivity.
Qed.

(** What [run] makes of the steps. *)
Lemma run_scenario_inv fuel sc w res w' :
  dry_run opts = false -> run_scenario fuel sc w = Done (res, w') ->
  exists s, run_steps fuel 0 (steps sc) (mkState (emit (on_scenario_start callbacks) (ScenarioStart (name sc)) (tick w)) None [] []) =
      Done (error_message res, s) /\
    expect_results res = results s /\ passed res = String.eqb (error_message res) "" && forallb er_passed (results s) /\
    scenario_name res = name sc /\
    if negb (passed res) && save_pcap_on_failure opts && negb (zlen (captured_packets s) =? 0)
    then failure_pcap res = Some (save_failure_pcap (name sc) (captured_packets s) (world s)).1 /\
         saved w' = saved (save_failure_pcap (name sc) (captured_packets s) (world s)).2
    else failure_pcap res = None /\ saved w' = saved (world s).
Proof.
  intros Hdry H. unfold run_scenario in H. rewrite Hdry in H. apply bind_inv in H as ([error s] & Hs & H).
  assert (Hem : forall b ev w0, saved (emit b ev w0) = saved w0) by (intros []; reflexivity).
  destruct (negb _ && _ && _) eqn:Hsave;
    [destruct (save_failure_pcap _ _ _) as [file w1] eqn:Hf|];
    apply Done_pair_inj in H as [<- <-]; exists s; cbn [error_message expect_results passed scenario_name failure_pcap];
    rewrite Hsave, Hem; split_and!; try reflexivity; try exact Hs; rewrite Hf; reflexivity.
Qed.

(** A verdict is never vacuous: the results of any run, live or recorded, are those of the
    scenario's expectations in their order, and a scenario passes exactly if the runner
    was not stopped and every result so far holds, which then are the results of all
    expectations.  A dry run passes without results. *)
Theorem run_passes_only_checked (fuel : nat) (sc : Scenario) (w w' : World) (res : ScenarioResult) :
  run_scenario fuel sc w = Done (res, w') ->
  (dry_run opts = true -> passed res = true /\ expect_results res = []) /\
  (dry_run opts = false ->
   map er_description (expect_results res) `prefix_of` map described (get_expectations sc) /\
   (passed res = true <-> error_message res = "" /\ Forall (fun r => er_passed r = true) (expect_results res)) /\
   (passed res = true -> length (expect_results res) = length (get_expectations sc) /\ failed_count res = 0)).
Proof.
  intros H. split.
  - intros Hd. unfold run_scenario in H. rewrite Hd in H. apply Done_pair_inj in H as [<- _]. split; reflexivity.
  - intros Hd. destruct (run_scenario_inv fuel sc w res w' Hd H) as (s & Hs & Hr & Hp & _ & _).
    apply run_steps_results in Hs as (rs & Hrs & Hpre & Hlen). cbn [results app] in Hrs.
    rewrite Hr. rewrite Hrs in *. split; [exact Hpre|]. split.
    + rewrite Hp, andb_true_iff, String.eqb_eq, forallb_Forall_true. reflexivity.
    + intros Hpass. rewrite Hp, andb_true_iff, String.eqb_eq in Hpass. destruct Hpass as [He Hall].
      split; [apply Hlen; assumption|]. unfold failed_count, passed_count. rewrite Hr.
      replace (List.filter er_passed rs) with rs; [rewrite Z.sub_diag; reflexivity|].
      clear -Hall. induction rs as [|r rs IH]; [reflexivity|]. cbn in Hall |- *. apply andb_prop in Hall as [-> Hall].
      rewrite <- IH by exact Hall. reflexivity.
Qed.

(** ** The capture of a failure *)

(** When a scenario fails with packets captured, the result names a file, and if it can be
    created it holds these packets: read on any host, they come back in order, cut to
    65535 bytes and with their times to the microsecond. *)
Theorem failure_capture_exact (fuel : nat) (sc : Scenario) (w w' : World) (res : ScenarioResult) :
  dry_run opts = false -> run_scenario fuel sc w = Done (res, w') -> passed res = false -> save_pcap_on_failure opts = true ->
  exists s : State, expect_results res = results s /\
    match captured_packets s with
    | [] => failure_pcap res = None /\ saved w' = saved (world s)
    | ps =>
        exists file bytes, failure_pcap res = Some file /\
          saved w' = (if creatable file then saved (world s) ++ [(file, bytes)] else saved (world s)) /\
          (Forall in_range ps -> Forall (short_enough PcapWriterOptions_default) ps -> forall reader_big, exists r r',
             from_memory reader_big bytes = Done r /\ read_all reader_big r = Done (map (kept PcapWriterOptions_default) ps, r'))
    end.
Proof.
  intros Hdry H Hp Hsv. destruct (run_scenario_inv fuel sc w res w' Hdry H) as (s & _ & Hr & _ & _ & Hf).
  rewrite Hp, Hsv in Hf. exists s. split; [exact Hr|]. destruct (captured_packets s) as [|p ps] eqn:Hps; [exact Hf|].
  replace (zlen (p :: ps) =? 0) with false in Hf by (symmetry; apply Z.eqb_neq; cbn; lia).
  destruct Hf as [Hf1 Hf2]. unfold save_failure_pcap in Hf1, Hf2. cbn [fst snd] in Hf1, Hf2.
  eexists _, _. split; [exact Hf1|]. split; [rewrite Hf2; destruct (creatable _); reflexivity|].
  intros Hin Hsh reader.
  destruct (written_file_read big reader PcapWriterOptions_default (p :: ps)) as (r & r' & H1 & _ & _ & _ & _ & H2 & _);
    [split; [discriminate | reflexivity] | split; [discriminate | reflexivity] | exact Hin | exact Hsh |].
  exists r, r'. split; assumption.
Qed.

(** ** Batches *)

Definition selected (wanted : list string) (file : string) : bool :=
  match parse_scenario_file file with inl _ => true | inr sc => (zlen wanted =? 0) || has_tag wanted sc end.

(** The result that a file leaves. *)
Definition file_result (file : string) (r : ScenarioResult) : Prop :=
  match parse_scenario_file file with
  | inl error => r = parse_failure file error
  | inr sc => scenario_name r = name sc
  end.

Definition counted (b : BatchResult) : Prop :=
  batch_passed b = zlen (List.filter passed (batch_results b)) /\
  batch_passed b + batch_failed b = zlen (batch_results b).

Lemma counted_add r b : counted b -> counted (add_result r b).
Proof.
  unfold counted, add_result. cbn [batch_passed batch_failed batch_results]. intros [Hp Ht].
  rewrite List.filter_app, !length_app. cbn [List.filter length]. destruct (passed r); cbn [length]; lia.
Qed.

Lemma run_scenario_name fuel sc w res w' : run_scenario fuel sc w = Done (res, w') -> scenario_name res = name sc.
Proof.
  intros H. destruct (dry_run opts) eqn:Hd.
  - unfold run_scenario in H. rewrite Hd in H. apply Done_pair_inj in H as [<- _]. reflexivity.
  - destruct (run_scenario_inv fuel sc w res w' Hd H) as (s & _ & _ & _ & Hn & _). exact Hn.
Qed.

Lemma batch_loop_exact fuel wanted l b w b' w' :
  batch_loop fuel wanted l b w = Done (b', w') -> counted b ->
  counted b' /\ batch_skipped b' = batch_skipped b + zlen (List.filter (fun f => negb (selected wanted f)) l) /\
  exists rs, batch_results b' = batch_results b ++ rs /\ Forall2 file_result (List.filter (selected wanted) l) rs.
Proof.
  revert b w. induction l as [|file l IH]; intros b w H Hb; cbn [batch_loop] in H.
  - apply Done_pair_inj in H as [<- _]. split; [exact Hb|]. split; [cbn; lia|]. exists []. rewrite app_nil_r. split; [reflexivity | constructor].
  - cbn [List.filter].
    assert (Hsel : selected wanted file =
      match parse_scenario_file file with inl _ => true | inr sc => (zlen wanted =? 0) || has_tag wanted sc end) by reflexivity.
    rewrite Hsel. clear Hsel. destruct (parse_scenario_file file) as [error|sc] eqn:Hp.
    + apply IH in H as (Hc & Hs & rs & Hr & HF); [|apply counted_add, Hb].
      split; [exact Hc|]. split; [exact Hs|]. exists (parse_failure file error :: rs).
      cbn [add_result batch_results] in Hr. rewrite Hr, <- app_assoc. split; [reflexivity|].
      constructor; [unfold file_result; rewrite Hp; reflexivity | exact HF].
    + destruct (zlen wanted =? 0) eqn:Hw; cbn [negb andb orb] in H |- *; [|destruct (has_tag wanted sc); cbn [negb] in H |- *].
      3:{ apply IH in H as (Hc & Hs & rs & Hr & HF); [|exact Hb]. split; [exact Hc|]. split; [|eauto].
          cbn [add_skipped batch_skipped] in Hs. cbn [length]. lia. }
      all: apply bind_inv in H as ([r w1] & Hrun & H); apply run_scenario_name in Hrun; cbn [fst snd] in H;
        apply IH in H as (Hc & Hs & rs & Hr & HF); [|apply counted_add, Hb];
        (split; [exact Hc|]); (split; [exact Hs|]); exists (r :: rs);
        cbn [add_result batch_results] in Hr; rewrite Hr, <- app_assoc; (split; [reflexivity|]);
        constructor; [unfold file_result; rewrite Hp; exact Hrun | exact HF].
Qed.

(** A batch accounts for every file: each is skipped, because its scenario has none of the
    tags asked for, or leaves one result, in the order of the files, a failure if it
    cannot be parsed; the counters count the passing, failing and skipped ones, and the
    batch has passed exactly if every result has. *)
Theorem batch_exact (fuel : nat) (wanted l : list string) (w w' : World) (b : BatchResult) :
  run_batch fuel wanted l w = Done (b, w') ->
  Forall2 file_result (List.filter (selected wanted) l) (batch_results b) /\
  total b = zlen l /\ batch_skipped b = zlen (List.filter (fun f => negb (selected wanted f)) l) /\
  batch_passed b = zlen (List.filter passed (batch_results b)) /\
  (all_passed b = true <-> Forall (fun r => passed r = true) (batch_results b)).
Proof.
  intros H. apply bind_inv in H as ([b1 w1] & H & E). apply Done_pair_inj in E as [<- _].
  apply batch_loop_exact in H as ([Hp Ht] & Hs & rs & Hr & HF); [|split; reflexivity].
  cbn [batch_results batch_skipped app] in Hr, Hs.
  cbn [batch_results batch_passed batch_failed batch_skipped total all_passed]. rewrite Hr in *.
  pose proof (List.filter_length (selected wanted) l) as Hl. pose proof (Forall2_length _ _ _ HF) as Hl2.
  split; [exact HF|]. split; [unfold total; cbn [batch_passed batch_failed batch_skipped]; lia|].
  split; [exact Hs|]. split; [exact Hp|].
  unfold all_passed. cbn [batch_failed]. rewrite Z.eqb_eq, <- forallb_Forall_true.
  pose proof (List.filter_length passed rs) as Hf.
  assert (Hz : forallb passed rs = true <-> length (List.filter (fun x => negb (passed x)) rs) = O).
  { clear. induction rs as [|r rs IH]; [split; reflexivity|]. cbn. destruct (passed r); cbn [negb andb length]; [exact IH | split; discriminate]. }
  rewrite Hz. lia.
Qed.
End properties.

(** ** Examples *)

(** Two SOME/IP messages of service 0x1234, in a file and on an interface. *)
Definition sample_packets : list Packet :=
  [mkPacket (udp_frame sample_eth sample_ip sample_udp (SomeIp.encode_header sample_someip)) 1000;
   mkPacket (udp_frame sample_eth sample_ip sample_udp (SomeIp.encode_header sample_someip)) 2000].
Definition sample_files (file : string) : option (list byte) :=
  if String.eqb file "a.pcap"
  then Some (Pcap.file (write_all false sample_packets (Pcap.create false PcapWriterOptions_default)))
  else None.
Definition sample_clock (k : nat) : Z := Z.of_nat k * 100000000.
Definition sample_next (ms : Z) (c : list Packet) : option Packet * list Packet :=
  match c with [] => (None, []) | p :: c => (Some p, c) end.
Definition sample_options : RunnerOptions := mkRunnerOptions false true "out" false true 60000.
Definition sample_callbacks : RunnerCallbacks := mkCallbacks true true true true true true.
Definition sample_world : World := mkWorld 0 0 (new_dispatcher DispatcherOptions_default) [] [].
Definition expect_count (service : Z) (c : CountExpression) : ExpectStep :=
  let e := expect_service service 30501 in
  mkExpectStep (ethernet e) (ipv4 e) (udp e) (tcp e) (someip e) (someip_sd e) (doip e) (uds e) (payload_expect e) 1000 c "" false.
Definition sample_scenario : Scenario :=
  mkScenario "a b" "" "1.0" ["x"] 30000
    [CaptureStep (mkCaptureConfig "" "" (Some "a.pcap") 5000 true); WaitStep 5;
     Expect (expect_count 0x1234 (mkCount Equal 2)); Expect (expect_count 0x4321 (mkCount GreaterEqual 1));
     Expect (expect_count 0x1234 (mkCount GreaterEqual 1))].

Abbreviation sample_run :=
  (run_scenario false sample_files (fun _ => true) sample_clock (fun _ => 7) (fun _ => false)
     (fun _ _ => Some sample_packets) (fun _ c => c) sample_next sample_options sample_callbacks 0).

Definition is_decided (d : ProtocolDispatcher) (e : ExpectStep) (ps : list Packet) : bool :=
  forallb (fun p => match verdict e d (pk_data p) with Undef => false | _ => true end) ps.
Lemma is_decided_true d e ps : is_decided d e ps = true -> decided d e ps.
Proof.
  intros H. apply forallb_Forall_true in H. eapply Forall_impl; [exact H|].
  intros p Hp E. cbn beta in Hp. rewrite E in Hp. discriminate.
Qed.

Lemma offline_run_exact_witness :
  exists res w', sample_run sample_scenario sample_world = Done (res, w') /\ passed res = false /\
    length (expect_results res) = 2%nat.
Proof.
  destruct (offline_run_exact false sample_files (fun _ => true) sample_clock (fun _ => 7) (fun _ => false)
    (fun _ _ => Some sample_packets) (fun _ c => c) sample_next sample_options sample_callbacks
    0 sample_scenario sample_world) as (res & w' & H & _ & _ & HF & Hp).
  - reflexivity.
  - reflexivity.
  - repeat constructor. eexists. reflexivity.
  - eapply Forall_impl; [apply (proj1 (forallb_Forall_true (fun c => is_decided (dispatcher sample_world) c.1 c.2) _));
      vm_compute; reflexivity | intros c Hc; apply is_decided_true, Hc].
  - exists res, w'. split; [exact H|]. split.
    + apply not_true_iff_false. intros Ht. apply Hp in Ht. apply forallb_Forall_true in Ht. vm_compute in Ht. discriminate Ht.
    + apply Forall2_length in HF. rewrite <- HF. vm_compute. reflexivity.
Defined.

(** A live expectation: "at least two" takes both packets, "at most one" is content with the first. *)
Definition live_state : State :=
  mkState sample_world (Some sample_packets) [] [].
Abbreviation sample_expect := (execute_expect sample_clock sample_next sample_callbacks).


(** An interface on which the same message comes again and again. *)
Definition endless_next (ms : Z) (c : Packet) : option Packet * Packet :=
  (Some (mkPacket (udp_frame sample_eth sample_ip sample_udp (SomeIp.encode_header sample_someip)) 0), c).

Lemma live_expect_ends_witness :
  exists s', execute_expect sample_clock endless_next sample_callbacks 11 (expect_count 0x4321 (mkCount GreaterEqual 1))
    (mkState sample_world (Some (mkPacket [] 0)) [] []) = Done s'.
Proof.
  apply (live_expect_ends sample_clock endless_next sample_callbacks (dispatcher sample_world) _ _ 10).
  - intros ms c p c' H. injection H as <- _.
    pose proof (is_decided_true (dispatcher sample_world) (expect_count 0x4321 (mkCount GreaterEqual 1))
      [mkPacket (udp_frame sample_eth sample_ip sample_udp (SomeIp.encode_header sample_someip)) 0]) as Hd.
    apply Forall_cons in Hd as [Hd _]; [exact Hd | vm_compute; reflexivity].
  - constructor.
  - exists ∅. reflexivity.
  - intros k Hk. unfold sample_clock, millisecond. cbn [world sample_world ticks expect_count within]. lia.
  - lia.
Defined.

Lemma run_passes_only_checked_witness :
  exists res w', sample_run sample_scenario sample_world = Done (res, w') /\
    map er_description (expect_results res) `prefix_of` map described (get_expectations sample_scenario).
Proof.
  assert (exists res w', sample_run sample_scenario sample_world = Done (res, w')) as (res & w' & H)
    by (eexists _, _; vm_compute; reflexivity).
  exists res, w'. split; [exact H|].
  apply (run_passes_only_checked false sample_files (fun _ => true) sample_clock (fun _ => 7) (fun _ => false)
    (fun _ _ => Some sample_packets) (fun _ c => c) sample_next sample_options sample_callbacks 0 sample_scenario
    sample_world w' res H). reflexivity.
Defined.

Lemma failure_capture_exact_witness :
  exists res w' bytes, sample_run sample_scenario sample_world = Done (res, w') /\
    failure_pcap res = Some "out/a_b_7.pcap" /\ saved w' = [("out/a_b_7.pcap", bytes)].
Proof.
  assert (exists res w', sample_run sample_scenario sample_world = Done (res, w') /\ passed res = false /\
    failure_pcap res = Some "out/a_b_7.pcap" /\ length (saved w') = 1%nat) as (res & w' & H & Hp & Hf & Hl)
    by (eexists _, _; vm_compute; split_and!; reflexivity).
  destruct (failure_capture_exact false sample_files (fun _ => true) sample_clock (fun _ => 7) (fun _ => false)
    (fun _ _ => Some sample_packets) (fun _ c => c) sample_next sample_options sample_callbacks 0 sample_scenario
    sample_world w' res eq_refl H Hp eq_refl) as (s & _ & Hs).
  destruct (captured_packets s) as [|p ps]; [destruct Hs as [Hs _]; congruence|].
  destruct Hs as (file & bytes & Hf' & Hsv & _). exists res, w', bytes. split; [exact H|]. split; [exact Hf|].
  rewrite Hsv in Hl |- *. rewrite length_app in Hl. cbn in Hl. destruct (saved (world s)); [|cbn in Hl; lia].
  rewrite Hf in Hf'. injection Hf' as <-. reflexivity.
Defined.

Lemma batch_exact_witness :
  exists b w', run_batch false sample_files (fun _ => true) sample_clock (fun _ => 7) (fun _ => false)
      (fun _ _ => Some sample_packets) (fun _ c => c) sample_next sample_options sample_callbacks
      (fun file => if String.eqb file "good" then inr sample_scenario else inl "no such file") 0 ["x"] ["good"; "bad"] sample_world =
    Done (b, w') /\ total b = 2.
Proof.
  match goal with |- exists b w', ?m = _ /\ _ =>
    assert (exists b w', m = Done (b, w')) as (b & w' & H) by (eexists _, _; vm_compute; reflexivity) end.
  exists b, w'. split; [exact H|]. apply (batch_exact _ _ _ _ _ _ _ _ _ _ _ _ _ _ _ _ _ _ H).
Defined.
