(* ===== verification/Replay.v ===== *)
(** * Replay of captures (src/io/replay_session.cpp, include/wadjet/io/replay_session.hpp)

    [ReplaySession]: creating a session, loading its packets, and [run], which sends them
    with the timing of the options.  The system calls are parameters: what [socket],
    [ioctl] and [bind] return, and what each call of [sendto] does.  The callbacks are
    functions of the number of calls before; they do not call [stop].  Sleeps and
    sent frames show in a trace. *)

From Stdlib Require Import ZArith Lia SpecFloat.
From Stdlib Require Import Strings.Byte.
From stdpp Require Import base numbers list strings.
From S2P Require Import Prelude Timestamp Pcap.

(** ** Sessions *)

Inductive ReplayTiming := AsRecorded | Immediate | FixedRate | Scaled.

(** A [double] is a number of the binary64 format. *)
Abbreviation double := spec_float.

Record ReplayStats := mkStats {
  packets_sent : Z;
  packets_failed : Z;
  bytes_sent : Z;
  iterations : Z;
  total_time : Z
}.
Definition no_stats : ReplayStats := mkStats 0 0 0 0 0.

Record ReplaySessionOptions := mkReplayOptions {
  timing : ReplayTiming;
  speed_factor : double;
  packets_per_second : Z;
  loop : bool;
  max_iterations : Z;
  max_packets : Z;
  promiscuous : bool
}.

Record ReplaySession := mkSession {
  socket_fd : Z;
  if_index : Z;
  interface : string;
  options : ReplaySessionOptions;
  packets : list Packet
}.

(** The system calls that prepare the socket: their value, [errno] and the index. *)
Record Kernel := mkKernel {
  sys_socket : Z;
  sys_ifindex : string -> Z * Z;
  sys_bind : Z -> Z;
  errno : Z
}.

Definition init_socket (k : Kernel) (s : ReplaySession) : result ReplaySession :=
  let fd := sys_socket k in
  if fd <? 0 then Fail (mkError (errno k) "Failed to create AF_PACKET socket (need root?)")
  else
    let (r, index) := sys_ifindex k (interface s) in
    if r <? 0 then Fail (mkError (errno k) ("Failed to get interface index for: " +:+ interface s))
    else if sys_bind k index <? 0 then Fail (mkError (errno k) ("Failed to bind to interface: " +:+ interface s))
    else Done (mkSession fd index (interface s) (options s) (packets s)).

(** The packets that [source->next_packet()] returns before it returns none. *)
Fixpoint load_loop (max : Z) (source loaded : list Packet) : list Packet :=
  match source with
  | [] => loaded
  | pkt :: source =>
      let loaded := loaded ++ [pkt] in
      if (0 <? max) && (max <=? zlen loaded) then loaded else load_loop max source loaded
  end.
Definition load_packets (source : list Packet) (s : ReplaySession) : result ReplaySession :=
  match load_loop (max_packets (options s)) source [] with
  | [] => Fail (mkError (-1) "No packets loaded from source")
  | ps => Done (mkSession (socket_fd s) (if_index s) (interface s) (options s) ps)
  end.

Definition new_session (interface : string) (opts : ReplaySessionOptions) (ps : list Packet) : ReplaySession :=
  mkSession (-1) 0 interface opts ps.

(** The three [create] functions. *)
Definition create_from_packets (k : Kernel) (interface : string) (ps : list Packet) (opts : ReplaySessionOptions) :=
  init_socket k (new_session interface opts ps).
Definition create_from_source (k : Kernel) (interface : string) (source : list Packet) (opts : ReplaySessionOptions) :=
  s ← load_packets source (new_session interface opts []); init_socket k s.
Definition create_from_file (big : bool) (k : Kernel) (interface path : string) (contents : option (list byte))
    (opts : ReplaySessionOptions) : result ReplaySession :=
  match contents with
  | None => Fail (mkError (-1) ("Failed to open file: " +:+ path))
  | Some d =>
      r ← from_memory big d;
      pr ← read_all big r;
      create_from_source k interface pr.1 opts
  end.

(** ** Timing *)

(** [static_cast<double>(n)], [x / y] and [static_cast<std::int64_t>(x)], which is
    undefined where the value does not fit. *)
Definition double_of_int (n : Z) : double := binary_normalize 53 1024 n 0 false.
Definition divide (x y : double) : double := SFdiv 53 1024 x y.
Definition truncate (x : double) : option Z :=
  match x with
  | S754_zero _ => Some 0
  | S754_finite s m e =>
      let v := if 0 <=? e then Z.pos m * 2 ^ e else Z.quot (Z.pos m) (2 ^ (- e)) in
      Some (if s then - v else v)
  | _ => None
  end.
Definition int64_of_double {E} (x : double) : res E Z :=
  match truncate x with Some v => int64 v | None => Undef end.

Inductive Unfinished := OutOfFuel.
Abbreviation replay := (res Unfinished).

(** How long [wait_for_timing] sleeps; 0 if it does not. *)
Definition delta (current_ts prev_ts : Timestamp) : replay Z :=
  int64 (total_nanoseconds current_ts - total_nanoseconds prev_ts).
Definition wait_for_timing (opts : ReplaySessionOptions) (current_ts prev_ts : Timestamp) : replay Z :=
  match timing opts with
  | Immediate => Done 0
  | AsRecorded => d ← delta current_ts prev_ts; Done (if 0 <? d then d else 0)
  | Scaled =>
      d ← delta current_ts prev_ts;
      if (0 <? d) && SFltb (S754_zero false) (speed_factor opts)
      then int64_of_double (divide (double_of_int d) (speed_factor opts))
      else Done 0
  | FixedRate => Done (if 0 <? packets_per_second opts then 1000000000 / packets_per_second opts else 0)
  end.

(** ** Running *)

Inductive Event :=
| Sleep (ns : Z)
| Send (frame : list byte) (ok : bool).

Record State := mkState {
  running : bool;
  stats : ReplayStats;
  total_packets_sent : Z;
  modified : nat;
  sends : nat;
  reports : nat;
  trace : list Event
}.

Definition set_running (b : bool) (s : State) : State :=
  mkState b (stats s) (total_packets_sent s) (modified s) (sends s) (reports s) (trace s).
Definition set_stats (f : ReplayStats -> ReplayStats) (s : State) : State :=
  mkState (running s) (f (stats s)) (total_packets_sent s) (modified s) (sends s) (reports s) (trace s).
Definition count_modified (s : State) : State :=
  mkState (running s) (stats s) (total_packets_sent s) (S (modified s)) (sends s) (reports s) (trace s).
Definition count_report (s : State) : State :=
  mkState (running s) (stats s) (total_packets_sent s) (modified s) (sends s) (S (reports s)) (trace s).
Definition sleep (ns : Z) (s : State) : State :=
  if 0 <? ns
  then mkState (running s) (stats s) (total_packets_sent s) (modified s) (sends s) (reports s) (trace s ++ [Sleep ns])
  else s.

Section replay.
(** What [sendto] returns for a frame, at each call. *)
Context (sys_sendto : nat -> list byte -> Z).
Context (modifier : option (nat -> Packet -> bool * Packet)).
Context (progress_callback : option (nat -> ReplayStats -> bool)) (progress_interval : Z).
Context (session : ReplaySession).

(** Whether [send_packet] succeeds, and the number of calls of [sendto] after it. *)
Definition send_packet (k : nat) (data : list byte) : bool * nat :=
  if socket_fd session <? 0 then (false, k)
  else if zlen data <? 14 then (false, k)
  else (sys_sendto k data =? zlen data, S k).

(** [modifier_(pkt)] *)
Definition modify (p : Packet) (s : State) : bool * Packet * State :=
  match modifier with
  | None => (true, p, s)
  | Some f => (f (modified s) p, count_modified s)
  end.

Definition count_sent (ok : bool) (size : Z) (st : ReplayStats) : ReplayStats :=
  if ok
  then mkStats (uint 64 (packets_sent st + 1)) (packets_failed st) (uint 64 (bytes_sent st + size)) (iterations st) (total_time st)
  else mkStats (packets_sent st) (uint 64 (packets_failed st + 1)) (bytes_sent st) (iterations st) (total_time st).

Definition send (p : Packet) (s : State) : State :=
  let (ok, k) := send_packet (sends s) (pk_data p) in
  mkState (running s) (count_sent ok (zlen (pk_data p)) (stats s)) (total_packets_sent s + 1) (modified s) k (reports s)
    (trace s ++ [Send (pk_data p) ok]).

(** Whether the progress callback wants to go on. *)
Definition report (s : State) : replay (bool * State) :=
  match progress_callback with
  | None => Done (true, s)
  | Some f =>
      if progress_interval =? 0 then Undef
      else if total_packets_sent s mod progress_interval =? 0 then Done (f (reports s) (stats s), count_report s)
      else Done (true, s)
  end.

Definition limit_reached (s : State) : bool :=
  (0 <? max_packets (options session)) && (max_packets (options session) <=? total_packets_sent s).

(** The [for] loop over the packets. *)
Fixpoint packets_loop (iteration : Z) (i : nat) (ps : list Packet) (prev_ts : Timestamp) (s : State) : replay State :=
  match ps with
  | [] => Done s
  | p :: ps' =>
      if negb (running s) then Done s
      else
        let '(keep, pkt, s) := modify p s in
        if negb keep then packets_loop iteration (S i) ps' prev_ts s
        else
          d ← (if (0 <? Z.of_nat i) || (0 <? iteration)
               then wait_for_timing (options session) (pk_timestamp pkt) prev_ts else Done 0);
          let s := send pkt (sleep d s) in
          go ← report s;
          if negb go.1 then Done (set_running false go.2)
          else if limit_reached go.2 then Done (set_running false go.2)
          else packets_loop iteration (S i) ps' (pk_timestamp pkt) go.2
  end.

Definition front_ts : Timestamp := match packets session with p :: _ => pk_timestamp p | [] => 0 end.
Definition set_iterations (n : Z) (st : ReplayStats) : ReplayStats :=
  mkStats (packets_sent st) (packets_failed st) (bytes_sent st) n (total_time st).

(** The [do] loop. *)
Fixpoint iterations_loop (fuel : nat) (iteration : Z) (s : State) : replay State :=
  match fuel with
  | O => Fail OutOfFuel
  | S fuel =>
      s ← packets_loop iteration 0 (packets session) front_ts s;
      let iteration := iteration + 1 in
      let s := set_stats (set_iterations iteration) s in
      if (0 <? max_iterations (options session)) && (max_iterations (options session) <=? iteration) then Done s
      else if loop (options session) && running s then iterations_loop fuel iteration s
      else Done s
  end.

Definition set_total_time (ns : Z) (st : ReplayStats) : ReplayStats :=
  mkStats (packets_sent st) (packets_failed st) (bytes_sent st) (iterations st) ns.

(** [run] between two readings of the clock: its error or the state after it. *)
Definition run (fuel : nat) (start_time end_time : Z) : replay (Error + State) :=
  match packets session with
  | [] => Done (inl (mkError (-1) "No packets to replay"))
  | _ =>
      s ← iterations_loop fuel 0 (mkState true no_stats 0 0 0 0 []);
      Done (inr (set_running false (set_stats (set_total_time (end_time - start_time)) s)))
  end.
End replay.

(** * Properties *)

(** ** What a replay should do *)

Section planning.
Context (modifier : option (nat -> Packet -> bool * Packet)) (session : ReplaySession).

(** The frames of one pass over the packets: those that the modifier keeps, as it leaves
    them, each with the time to sleep before it.  [k] counts the calls of the modifier. *)
Definition modified_packet (k : nat) (p : Packet) : bool * Packet :=
  match modifier with None => (true, p) | Some f => f k p end.
Definition next_call (k : nat) : nat := match modifier with None => k | Some _ => S k end.

Fixpoint plan_pass (iteration : Z) (i k : nat) (ps : list Packet) (prev_ts : Timestamp) : replay (list (Z * Packet)) :=
  match ps with
  | [] => Done []
  | p :: ps' =>
      let (keep, pkt) := modified_packet k p in
      if (keep : bool) then
        d ← (if (0 <? Z.of_nat i) || (0 <? iteration) then wait_for_timing (options session) (pk_timestamp pkt) prev_ts else Done 0);
        rest ← plan_pass iteration (S i) (next_call k) ps' (pk_timestamp pkt);
        Done ((d, pkt) :: rest)
      else plan_pass iteration (S i) (next_call k) ps' prev_ts
  end.

Fixpoint calls_after (n k : nat) : nat := match n with O => k | S n => calls_after n (next_call k) end.

(** The frames of [m] passes. *)
Fixpoint passes (m : nat) (iteration : Z) (k : nat) : replay (list (Z * Packet)) :=
  match m with
  | O => Done []
  | S m =>
      pl ← plan_pass iteration 0 k (packets session) (front_ts session);
      rest ← passes m (iteration + 1) (calls_after (length (packets session)) k);
      Done (pl ++ rest)
  end.

(** Recorded timing. *)
Fixpoint gaps (prev : Timestamp) (ps : list Packet) : list Z :=
  match ps with [] => [] | p :: ps' => pk_timestamp p - prev :: gaps (pk_timestamp p) ps' end.
(** Times that do not go back, from 1970 on. *)
Fixpoint ordered (prev : Timestamp) (ps : list Packet) : Prop :=
  match ps with [] => True | p :: ps' => prev <= pk_timestamp p < 2 ^ 63 /\ ordered (pk_timestamp p) ps' end.

Lemma plan_pass_recorded iteration i k ps prev :
  modifier = None -> timing (options session) = AsRecorded -> 0 <= prev -> ordered prev ps ->
  (i <> O \/ 0 < iteration \/ match ps with p :: _ => pk_timestamp p = prev | [] => True end) ->
  plan_pass iteration i k ps prev = Done (zip (gaps prev ps) ps).
Proof.
  intros Hmod Ht. revert i k prev. induction ps as [|p ps IH]; intros i k prev Hprev Ho Hi; [reflexivity|].
  cbn [plan_pass ordered gaps zip zip_with] in *. destruct Ho as [Hp Ho]. unfold modified_packet. rewrite Hmod.
  assert (Hd : (if (0 <? Z.of_nat i) || (0 <? iteration) then wait_for_timing (options session) (pk_timestamp p) prev else Done 0) =
    Done (pk_timestamp p - prev)).
  { destruct ((0 <? Z.of_nat i) || (0 <? iteration)) eqn:Hc.
    - unfold wait_for_timing, delta, int64, total_nanoseconds. rewrite Ht.
      rewrite (proj2 (Z.leb_le _ _)), (proj2 (Z.ltb_lt (_ - _) _)) by lia. cbn [andb]. rewrite bind_Done.
      destruct (0 <? pk_timestamp p - prev) eqn:Hd; bool_to_prop; [reflexivity | f_equal; lia].
    - bool_to_prop. destruct Hi as [Hi|[Hi|Hi]]; [lia | lia | f_equal; lia]. }
  rewrite Hd, bind_Done. rewrite (IH (S i)); [reflexivity | lia | exact Ho | left; discriminate].
Qed.

Lemma gaps_sum ps prev n p :
  ps !! n = Some p -> foldr Z.add 0 (take (S n) (gaps prev ps)) = pk_timestamp p - prev.
Proof.
  revert prev n. induction ps as [|q ps IH]; intros prev n Hn; [discriminate|]. destruct n as [|n].
  - injection Hn as ->. change (take 1 (gaps prev (p :: ps))) with [pk_timestamp p - prev]. cbn [foldr]. lia.
  - change (take (S (S n)) (gaps prev (q :: ps))) with ((pk_timestamp q - prev) :: take (S n) (gaps (pk_timestamp q) ps)).
    cbn [foldr]. rewrite (IH _ _ Hn). lia.
Qed.

Lemma length_gaps prev ps : length (gaps prev ps) = length ps.
Proof. revert prev. induction ps as [|p ps IH]; intros prev; cbn; [reflexivity | f_equal; apply IH]. Qed.

Definition recorded_pass : list (Z * Packet) := zip (gaps (front_ts session) (packets session)) (packets session).

Lemma passes_recorded m iteration k :
  modifier = None -> timing (options session) = AsRecorded -> 0 <= front_ts session -> ordered (front_ts session) (packets session) ->
  0 <= iteration -> passes m iteration k = Done (mjoin (replicate m recorded_pass)).
Proof.
  intros Hmod Ht H0 Ho. revert iteration k. induction m as [|m IH]; intros iteration k Hit; [reflexivity|]. cbn [passes replicate].
  rewrite (plan_pass_recorded iteration 0 k _ _ Hmod Ht H0 Ho).
  2:{ right. right. unfold front_ts. destruct (packets session); reflexivity || exact I. }
  rewrite bind_Done, IH by lia. reflexivity.
Qed.

(** With the recorded timing, and packets in the order of their times, one pass of a replay
    sends every packet after sleeps that add up to the time since the first packet; a
    loop starts over without a pause. *)
Theorem replay_keeps_time (m : nat) :
  modifier = None -> timing (options session) = AsRecorded -> 0 <= front_ts session -> ordered (front_ts session) (packets session) ->
  passes m 0 0 = Done (mjoin (replicate m recorded_pass)) /\ map snd recorded_pass = packets session /\
  (forall n p, packets session !! n = Some p -> foldr Z.add 0 (map fst (take (S n) recorded_pass)) = pk_timestamp p - front_ts session).
Proof.
  intros Hmod Ht H0 Ho. split; [apply passes_recorded; auto; lia|]. split.
  - apply snd_zip. rewrite length_gaps. reflexivity.
  - intros n p Hn. unfold recorded_pass. rewrite <- firstn_map. change (map fst (zip ?a ?b)) with ((zip a b).*1).
    rewrite fst_zip by (rewrite length_gaps; reflexivity). apply gaps_sum, Hn.
Qed.
End planning.

Section properties.
Context (sys_sendto : nat -> list byte -> Z).
Context (modifier : option (nat -> Packet -> bool * Packet)).
Context (progress_callback : option (nat -> ReplayStats -> bool)) (progress_interval : Z).
Context (session : ReplaySession).
Local Abbreviation send_packet := (send_packet sys_sendto session).
Local Abbreviation send := (send sys_sendto session).
Local Abbreviation report := (report progress_callback progress_interval).
Local Abbreviation packets_loop := (packets_loop sys_sendto modifier progress_callback progress_interval session).
Local Abbreviation iterations_loop := (iterations_loop sys_sendto modifier progress_callback progress_interval session).
Local Abbreviation run := (run sys_sendto modifier progress_callback progress_interval session).
Local Abbreviation limit := (max_packets (options session)).

Local Abbreviation plan_pass := (plan_pass modifier session).
Local Abbreviation calls_after := (calls_after modifier).
Local Abbreviation passes := (passes modifier session).
Local Abbreviation modified_packet := (modified_packet modifier).
Local Abbreviation next_call := (next_call modifier).

(** What sending them shows; [k] counts the calls of [sendto]. *)
Fixpoint perform (k : nat) (pl : list (Z * Packet)) : list Event * nat :=
  match pl with
  | [] => ([], k)
  | (d, p) :: pl' =>
      let (ok, k) := send_packet k (pk_data p) in
      let (evs, k) := perform k pl' in
      ((if 0 <? d then [Sleep d] else []) ++ Send (pk_data p) ok :: evs, k)
  end.

(** [max_packets] cuts the plan. *)
Definition cut (n : Z) (pl : list (Z * Packet)) : list (Z * Packet) :=
  if 0 <? limit then take (Z.to_nat (limit - n)) pl else pl.
Definition below_limit (n : Z) : Prop := 0 < limit -> n < limit.

(** The progress callback, if any, never stops the replay. *)
Definition keeps_going : Prop :=
  match progress_callback with None => True | Some f => progress_interval <> 0 /\ forall k st, f k st = true end.

(** The counters are those of the frames in the trace. *)
Definition sent_ok (e : Event) : bool := match e with Send _ ok => ok | Sleep _ => false end.
Definition sent_bad (e : Event) : bool := match e with Send _ ok => negb ok | Sleep _ => false end.
Definition size_sent (e : Event) : Z := match e with Send d true => zlen d | _ => 0 end.
Definition total_size (evs : list Event) : Z := foldr (fun e n => size_sent e + n) 0 evs.
Definition accounted (s : State) : Prop :=
  packets_sent (stats s) = uint 64 (zlen (List.filter sent_ok (trace s))) /\
  packets_failed (stats s) = uint 64 (zlen (List.filter sent_bad (trace s))) /\
  bytes_sent (stats s) = uint 64 (total_size (trace s)).

Lemma total_size_app a b : total_size (a ++ b) = total_size a + total_size b.
Proof. unfold total_size. induction a as [|e a IH]; [reflexivity|]. cbn. rewrite IH. lia. Qed.

Lemma accounted_sleep ns s : accounted s -> accounted (sleep ns s).
Proof.
  unfold sleep. destruct (0 <? ns); [|auto]. intros (H1 & H2 & H3). unfold accounted. cbn [stats trace].
  rewrite !List.filter_app, !length_app, total_size_app. cbn. rewrite !Z.add_0_r, !Nat.add_0_r. auto.
Qed.

Lemma accounted_send p s : accounted s -> accounted (send p s).
Proof.
  unfold Replay.send. destruct (send_packet _ _) as [ok k]. intros (H1 & H2 & H3). unfold accounted. cbn [stats trace].
  rewrite !List.filter_app, !length_app, total_size_app.
  destruct ok; cbn [count_sent packets_sent packets_failed bytes_sent List.filter sent_ok sent_bad negb length total_size foldr size_sent];
    rewrite ?H1, ?H2, ?H3, ?uint_add, ?Z.add_0_r, ?Nat.add_0_r; split_and!; try reflexivity; f_equal; lia.
Qed.

Lemma accounted_same s s' : stats s' = stats s -> trace s' = trace s -> accounted s -> accounted s'.
Proof. unfold accounted. intros -> ->. auto. Qed.

(** A report changes nothing but its own counter. *)
Lemma report_goes s : keeps_going ->
  exists s', report s = Done (true, s') /\ running s' = running s /\ stats s' = stats s /\
    total_packets_sent s' = total_packets_sent s /\ modified s' = modified s /\ sends s' = sends s /\ trace s' = trace s.
Proof.
  unfold keeps_going, Replay.report. intros Hg. destruct progress_callback as [f|]; [|exists s; auto 10].
  destruct Hg as [Hi Hf]. replace (progress_interval =? 0) with false by (symmetry; apply Z.eqb_neq, Hi).
  destruct (_ =? 0); [rewrite Hf; exists (count_report s) | exists s]; auto 10.
Qed.

Lemma perform_app k a b :
  perform k (a ++ b) = ((perform k a).1 ++ (perform (perform k a).2 b).1, (perform (perform k a).2 b).2).
Proof.
  revert k. induction a as [|[d p] a IH]; intros k; cbn [app perform]; [cbn [fst snd app]; destruct (perform k b); reflexivity|].
  destruct (send_packet k (pk_data p)) as [ok k']. rewrite IH. destruct (perform k' a) as [evs k'']. cbn [fst snd].
  rewrite <- app_assoc. reflexivity.
Qed.

Lemma send_event p d s :
  trace (send p (sleep d s)) = trace s ++ (if 0 <? d then [Sleep d] else []) ++ [Send (pk_data p) (send_packet (sends s) (pk_data p)).1] /\
  sends (send p (sleep d s)) = (send_packet (sends s) (pk_data p)).2 /\
  total_packets_sent (send p (sleep d s)) = total_packets_sent s + 1 /\
  running (send p (sleep d s)) = running s /\ modified (send p (sleep d s)) = modified s.
Proof.
  unfold Replay.send, sleep. destruct (0 <? d); cbn [sends pk_data trace total_packets_sent running modified];
    destruct (send_packet _ _); cbn; rewrite <- ?app_assoc; auto.
Qed.

Lemma perform_cons k d p pl :
  (perform k ((d, p) :: pl)).1 =
    (if 0 <? d then [Sleep d] else []) ++ [Send (pk_data p) (send_packet k (pk_data p)).1] ++
    (perform (send_packet k (pk_data p)).2 pl).1 /\
  (perform k ((d, p) :: pl)).2 = (perform (send_packet k (pk_data p)).2 pl).2.
Proof. cbn [perform]. destruct (send_packet k _) as [ok k']. cbn [fst snd]. destruct (perform k' pl). split; reflexivity. Qed.

(** How the loop over the packets should leave a state. *)
Definition sent_plan (s s' : State) (pl : list (Z * Packet)) (calls : nat) : Prop :=
  let n := cut (total_packets_sent s) pl in
  trace s' = trace s ++ (perform (sends s) n).1 /\ sends s' = (perform (sends s) n).2 /\
  total_packets_sent s' = total_packets_sent s + zlen n /\ accounted s' /\
  (running s' = true <-> below_limit (total_packets_sent s + zlen pl)) /\
  (running s' = true -> n = pl /\ modified s' = calls).

Lemma sent_plan_step s d p s1 s' pl calls :
  below_limit (total_packets_sent s + 1) ->
  trace s1 = trace (send p (sleep d s)) -> sends s1 = sends (send p (sleep d s)) ->
  total_packets_sent s1 = total_packets_sent s + 1 ->
  sent_plan s1 s' pl calls -> sent_plan s s' ((d, p) :: pl) calls.
Proof.
  intros Hb Ht1 Hs1 Hn1 (Ht & Hs & Hn & Ha & Hr & Hc). destruct (send_event p d s) as (Et & Es & _).
  rewrite Ht1, Et in Ht. rewrite Hs1, Es in Ht, Hs. rewrite Hn1 in *. unfold sent_plan.
  assert (Hcut : cut (total_packets_sent s) ((d, p) :: pl) = (d, p) :: cut (total_packets_sent s + 1) pl).
  { unfold cut, below_limit in *. destruct (0 <? limit) eqn:Hl; [|reflexivity]. bool_to_prop. specialize (Hb Hl).
    replace (Z.to_nat (limit - total_packets_sent s)) with (S (Z.to_nat (limit - (total_packets_sent s + 1)))) by lia. reflexivity. }
  rewrite Hcut. destruct (perform_cons (sends s) d p (cut (total_packets_sent s + 1) pl)) as [P1 P2]. rewrite P1, P2.
  cbn [length]. split_and!.
  - rewrite Ht, <- !app_assoc. reflexivity.
  - exact Hs.
  - lia.
  - exact Ha.
  - rewrite Hr. replace (total_packets_sent s + Z.of_nat (S (length pl))) with (total_packets_sent s + 1 + zlen pl) by lia. reflexivity.
  - intros H. apply Hc in H as [-> H]. auto.
Qed.

Lemma packets_loop_plan iteration ps i prev s pl :
  keeps_going -> running s = true -> below_limit (total_packets_sent s) -> accounted s ->
  plan_pass iteration i (modified s) ps prev = Done pl ->
  exists s', packets_loop iteration i ps prev s = Done s' /\ sent_plan s s' pl (calls_after (length ps) (modified s)).
Proof.
  intros Hg. revert i prev s pl. induction ps as [|p ps IH]; intros i prev s pl Hr Hb Ha Hp; cbn [Replay.plan_pass Replay.packets_loop] in *.
  - apply Done_inj in Hp as <-. exists s. split; [reflexivity|]. unfold sent_plan. cbn [length Replay.calls_after].
    assert (Hc : cut (total_packets_sent s) [] = []) by (unfold cut; destruct (0 <? limit); [apply take_nil | reflexivity]).
    rewrite Hc. cbn [perform fst snd length]. rewrite app_nil_r, Z.add_0_r. split_and!; try reflexivity; try assumption.
    + split; intros; assumption.
    + auto.
  - rewrite Hr. cbn [negb].
    assert (Hm : exists s1, modify modifier p s = (modified_packet (modified s) p, s1) /\
      modified s1 = next_call (modified s) /\ running s1 = true /\ total_packets_sent s1 = total_packets_sent s /\
      trace s1 = trace s /\ sends s1 = sends s /\ stats s1 = stats s).
    { unfold modify, Replay.modified_packet, Replay.next_call. destruct modifier as [f|]; [exists (count_modified s) | exists s]; auto 10. }
    destruct Hm as (s1 & Hm & Hmod & Hr1 & Hn1 & Ht1 & Hs1 & Hst1). rewrite Hm. cbn [length Replay.calls_after].
    rewrite <- Hmod in *. assert (Ha1 : accounted s1) by (eapply accounted_same; eassumption).
    destruct (modified_packet (modified s) p) as [[] pkt]; cbn [negb] in Hp |- *.
    2:{ rewrite <- Hn1 in Hb. destruct (IH (S i) prev s1 pl Hr1 Hb Ha1 Hp) as (s' & H & HP). exists s'. split; [exact H|].
        unfold sent_plan in *. rewrite Ht1, Hs1, Hn1 in HP. exact HP. }
    apply bind_inv in Hp as (d & Hd & Hp). apply bind_inv in Hp as (rest & Hrest & Hp). apply Done_inj in Hp as <-.
    rewrite Hd, bind_Done. destruct (send_event pkt d s1) as (Et & Es & En & Er & Em).
    destruct (report_goes (send pkt (sleep d s1)) Hg) as (s2 & Hrep & R1 & R2 & R3 & R4 & R5 & R6).
    rewrite Hrep, bind_Done. cbn [fst snd negb].
    assert (Ha2 : accounted s2) by (eapply accounted_same; [exact R2 | exact R6 | apply accounted_send, accounted_sleep, Ha1]).
    unfold limit_reached. rewrite R3, En, Hn1.
    destruct ((0 <? limit) && (limit <=? total_packets_sent s + 1)) eqn:Hlim.
    + eexists. split; [reflexivity|]. bool_to_prop. assert (limit = total_packets_sent s + 1) by (specialize (Hb H); lia).
      assert (Hcut : cut (total_packets_sent s) ((d, pkt) :: rest) = [(d, pkt)]).
      { unfold cut. rewrite (proj2 (Z.ltb_lt _ _)) by assumption.
        replace (Z.to_nat (limit - total_packets_sent s)) with 1%nat by lia. reflexivity. }
      unfold sent_plan. rewrite Hcut. destruct (perform_cons (sends s) d pkt []) as [P1 P2]. rewrite P1, P2.
      cbn [set_running trace sends total_packets_sent running length]. rewrite R6, Et, R5, Es, R3, En, Ht1, Hs1, Hn1.
      split_and!; [reflexivity | reflexivity | lia | eapply accounted_same; [reflexivity | reflexivity | exact Ha2] | | discriminate].
      unfold below_limit. split; [discriminate | intros Hx; cbn in Hx; specialize (Hx H); lia].
    + assert (Hb2 : below_limit (total_packets_sent s + 1)).
      { intros Hl. bool_to_prop. destruct Hlim; bool_to_prop; lia. }
      assert (Htot : total_packets_sent s2 = total_packets_sent s + 1) by (rewrite R3, En, Hn1; reflexivity).
      rewrite <- Em, <- R4 in Hrest.
      destruct (IH (S i) (pk_timestamp pkt) s2 rest) as (s' & H & HP);
        [rewrite R1, Er; exact Hr1 | rewrite Htot; exact Hb2 | exact Ha2 | exact Hrest |].
      exists s'. split; [exact H|]. rewrite R4, Em in HP.
      assert (HP1 : sent_plan s1 s' ((d, pkt) :: rest) (calls_after (length ps) (modified s1)))
        by (eapply sent_plan_step; [rewrite Hn1; exact Hb2 | exact R6 | exact R5 | rewrite Hn1; exact Htot | exact HP]).
      unfold sent_plan in *. rewrite Ht1, Hs1, Hn1 in HP1. exact HP1.
Qed.

Lemma cut_app n a b : below_limit (n + zlen a) -> cut n (a ++ b) = a ++ cut (n + zlen a) b.
Proof.
  unfold cut, below_limit. destruct (0 <? limit) eqn:Hl; [|reflexivity]. bool_to_prop. intros H. specialize (H Hl).
  rewrite take_app. replace (take (Z.to_nat (limit - n)) a) with a by (symmetry; apply take_ge; lia).
  do 2 f_equal. lia.
Qed.

Lemma cut_app_reached n a b : below_limit n -> ~ below_limit (n + zlen a) -> cut n (a ++ b) = cut n a.
Proof.
  unfold cut, below_limit. intros Hn H. destruct (0 <? limit) eqn:Hl; bool_to_prop; [|destruct H; lia].
  assert (limit <= n + zlen a) by (destruct (Z.le_gt_cases limit (n + zlen a)); [assumption | destruct H; lia]).
  apply take_app_le. specialize (Hn Hl). lia.
Qed.

Lemma below_limit_mono n m : m <= n -> below_limit n -> below_limit m.
Proof. unfold below_limit. intros ? H ?. specialize (H ltac:(assumption)). lia. Qed.

(** How many passes the options allow, and that [m] of them are the last ones. *)
Definition allowed (m : Z) : Prop :=
  (loop (options session) = false -> m <= 1) /\ (0 < max_iterations (options session) -> m <= max_iterations (options session)).
Definition last_pass (m n : Z) : Prop :=
  (loop (options session) = false /\ m = 1) \/ (0 < max_iterations (options session) /\ m = max_iterations (options session)) \/
  ~ below_limit n.

Lemma iterations_loop_plan m fuel iteration s pl :
  keeps_going -> running s = true -> below_limit (total_packets_sent s) -> accounted s -> 0 <= iteration ->
  passes (S m) iteration (modified s) = Done pl -> (m < fuel)%nat ->
  allowed (iteration + Z.of_nat (S m)) -> last_pass (iteration + Z.of_nat (S m)) (total_packets_sent s + zlen pl) ->
  exists s', iterations_loop fuel iteration s = Done s' /\ accounted s' /\
    trace s' = trace s ++ (perform (sends s) (cut (total_packets_sent s) pl)).1 /\
    iteration < iterations (stats s') <= iteration + Z.of_nat (S m) /\
    (running s' = true -> iterations (stats s') = iteration + Z.of_nat (S m)).
Proof.
  intros Hg. revert fuel iteration s pl. induction m as [|m IH]; intros fuel iteration s pl Hr Hb Ha Hi Hp Hf Hal Hla;
    (destruct fuel as [|fuel]; [lia|]); cbn [Replay.passes] in Hp; cbn [Replay.iterations_loop];
    apply bind_inv in Hp as (pl1 & Hp1 & Hp); apply bind_inv in Hp as (rest & Hp2 & Hp); apply Done_inj in Hp as <-;
    destruct (packets_loop_plan iteration (packets session) 0 (front_ts session) s pl1 Hg Hr Hb Ha Hp1)
      as (s1 & H1 & Ht & Hs & Hn & Ha1 & Hr1 & Hc); rewrite H1, bind_Done;
    set (s2 := set_stats (set_iterations (iteration + 1)) s1);
    assert (Ha2 : accounted s2) by exact Ha1; cbn zeta in Ht, Hs, Hn, Hr1, Hc.
  - apply Done_inj in Hp2 as <-. rewrite app_nil_r in *.
    exists s2. split; [|split; [exact Ha2|]; split; [exact Ht|]; cbn; split; [lia | intros; lia]].
    destruct ((0 <? _) && _) eqn:Hmax; [reflexivity|].
    replace (loop (options session) && running s2) with false; [reflexivity|].
    symmetry. apply andb_false_iff. destruct (running s2) eqn:Hrun; [left | auto].
    apply Hr1 in Hrun. destruct Hla as [[Hl _]|[[Hm1 Hm2]|Hl]]; [exact Hl | | destruct (Hl Hrun)].
    rewrite (proj2 (Z.ltb_lt _ _)), (proj2 (Z.leb_le _ _)) in Hmax by (cbn in Hm2; lia). discriminate.
  - destruct Hal as [Hal1 Hal2].
    destruct ((0 <? _) && _) eqn:Hmax; [bool_to_prop; specialize (Hal2 ltac:(assumption)); lia|].
    destruct (running s2) eqn:Hrun; [rewrite andb_true_r | rewrite andb_false_r].
    + destruct (loop (options session)) eqn:Hloop; [|specialize (Hal1 eq_refl); lia].
      destruct (Hc Hrun) as [Hcut Hmod]. apply Hr1 in Hrun as Hbel. rewrite Hcut in Ht, Hs, Hn.
      change (total_packets_sent s1) with (total_packets_sent s2) in Hn.
      change (modified s1) with (modified s2) in Hmod. rewrite <- Hmod in Hp2. rewrite <- Hn in Hbel.
      destruct (IH fuel (iteration + 1) s2 rest Hrun Hbel Ha2) as (s' & H & Ha' & Ht' & Hit & Hlast);
        [lia | exact Hp2 | lia | split; [congruence | intros Hx; specialize (Hal2 Hx); lia] | |].
      { replace (iteration + 1 + Z.of_nat (S m)) with (iteration + Z.of_nat (S (S m))) by lia.
        rewrite Hn, <- Z.add_assoc, <- Nat2Z.inj_add, <- length_app. exact Hla. }
      exists s'. split; [exact H|]. split; [exact Ha'|]. split; [|split; [lia | intros Hx; rewrite (Hlast Hx); lia]].
      rewrite Ht'. change (trace s2) with (trace s1). change (sends s2) with (sends s1). rewrite Ht, Hs, Hn.
      rewrite Hn in Hbel. rewrite (cut_app _ _ _ Hbel), perform_app. cbn [fst]. rewrite <- app_assoc. reflexivity.
    + exists s2. split; [reflexivity|]. split; [exact Ha2|].
      assert (Hno : ~ below_limit (total_packets_sent s + zlen pl1)) by (intros Hx; apply Hr1 in Hx; change (running s1) with (running s2) in Hx; congruence).
      rewrite (cut_app_reached _ _ _ Hb Hno). split; [exact Ht|]. cbn [s2 set_stats stats set_iterations iterations].
      split; [lia | intros Hx; congruence].
Qed.

(** ** Termination *)

Lemma iterations_loop_diverges fuel iteration s :
  keeps_going -> loop (options session) = true -> max_iterations (options session) <= 0 ->
  running s = true -> accounted s -> below_limit (total_packets_sent s) ->
  (forall m, exists pl, passes m iteration (modified s) = Done pl /\ below_limit (total_packets_sent s + zlen pl)) ->
  iterations_loop fuel iteration s = Fail OutOfFuel.
Proof.
  intros Hg Hl Hm. revert iteration s. induction fuel as [|fuel IH]; intros iteration s Hr Ha Hb H; [reflexivity|].
  cbn [Replay.iterations_loop]. destruct (H 1%nat) as (pl & Hp & Hbel). cbn [Replay.passes] in Hp.
  apply bind_inv in Hp as (pl1 & Hp1 & Hp). rewrite bind_Done, app_nil_r in Hp. apply Done_inj in Hp as <-.
  destruct (packets_loop_plan iteration (packets session) 0 (front_ts session) s pl1 Hg Hr Hb Ha Hp1)
    as (s1 & H1 & _ & _ & Hn & Ha1 & Hr1 & Hc). cbn zeta in Hn, Hr1, Hc. rewrite H1, bind_Done.
  apply Hr1 in Hbel as Hrun. destruct (Hc Hrun) as [Hcut Hmod]. rewrite Hcut in Hn.
  replace (0 <? max_iterations (options session)) with false by (symmetry; apply Z.ltb_ge, Hm).
  cbn [andb set_stats running]. rewrite Hl, Hrun. cbn [andb]. apply IH; [exact Hrun | exact Ha1 | cbn; rewrite Hn; exact Hbel|].
  intros m. destruct (H (S m)) as (pl & Hp & Hbel'). cbn [Replay.passes] in Hp. rewrite Hp1, bind_Done in Hp.
  apply bind_inv in Hp as (rest & Hp2 & Hp). apply Done_inj in Hp as <-. exists rest. cbn [set_stats modified total_packets_sent].
  rewrite Hmod, Hn. split; [exact Hp2|]. rewrite length_app, Nat2Z.inj_add, Z.add_assoc in Hbel'. exact Hbel'.
Qed.

Lemma zero_below_limit : below_limit 0.
Proof. unfold below_limit. auto. Qed.

(** [C36] When a replay ends.  It ends if it does not loop, or has a limit of iterations, or sends
    as many packets as the packet limit allows.  Otherwise it runs for ever: in
    particular, a packet limit does not stop a loop whose modifier rejects all packets,
    because only packets that are sent count. *)
Theorem replay_terminates (start_time end_time : Z) :
  keeps_going -> packets session <> [] -> 0 <= limit -> (forall m, exists pl, passes m 0 0 = Done pl) ->
  (loop (options session) = false \/ 0 < max_iterations (options session) \/
   (exists m pl, passes m 0 0 = Done pl /\ ~ below_limit (zlen pl)) ->
   exists fuel0, forall fuel, (fuel0 <= fuel)%nat -> exists s, run fuel start_time end_time = Done (inr s)) /\
  (loop (options session) = true -> max_iterations (options session) <= 0 ->
   (forall m pl, passes m 0 0 = Done pl -> below_limit (zlen pl)) ->
   forall fuel, run fuel start_time end_time = Fail OutOfFuel).
Proof.
  intros Hg Hne Hlim Hplan. split.
  - assert (Hend : forall m pl, passes (S m) 0 0 = Done pl -> allowed (Z.of_nat (S m)) -> last_pass (Z.of_nat (S m)) (zlen pl) ->
      exists fuel0, forall fuel, (fuel0 <= fuel)%nat -> exists s, run fuel start_time end_time = Done (inr s)).
    { intros m pl Hp Hal Hla. exists (S m). intros fuel Hf.
      destruct (iterations_loop_plan m fuel 0 (mkState true no_stats 0 0 0 0 []) pl Hg eq_refl) as (s & H & _);
        try assumption; [apply zero_below_limit | repeat split | lia |].
      unfold Replay.run. destruct (packets session) eqn:E; [contradiction|]. rewrite H, bind_Done. eexists. reflexivity. }
    intros Hcase. destruct (loop (options session)) eqn:Hloop.
    + destruct (Z.lt_ge_cases 0 (max_iterations (options session))) as [Hmax|Hmax].
      * destruct (Hplan (S (Nat.pred (Z.to_nat (max_iterations (options session)))))) as [pl Hp].
        apply (Hend _ _ Hp); [split; [congruence | lia] | right; left; split; [exact Hmax | lia]].
      * destruct Hcase as [Hx|[Hx|(m & pl & Hp & Hno)]]; [discriminate | lia |].
        destruct m as [|m]; [apply Done_inj in Hp as <-; destruct (Hno zero_below_limit)|].
        apply (Hend _ _ Hp); [split; [congruence | lia] | right; right; exact Hno].
    + destruct (Hplan 1%nat) as [pl Hp]. apply (Hend _ _ Hp); [split; lia | left; auto].
  - intros Hl Hm Hall fuel. unfold Replay.run. destruct (packets session) eqn:E; [contradiction|].
    rewrite (iterations_loop_diverges fuel 0 (mkState true no_stats 0 0 0 0 []) Hg Hl Hm);
      [reflexivity | reflexivity | repeat split | apply zero_below_limit |].
    intros m. destruct (Hplan m) as [pl Hp]. exists pl. split; [exact Hp | apply (Hall m pl Hp)].
Qed.
End properties.

(** ** Examples *)

Definition sample_frames : list Packet :=
  [mkPacket (replicate 14 x01) 1000; mkPacket (replicate 60 x02) 3500; mkPacket [x03] 4000].
Definition sample_options (max_packets max_iterations : Z) : ReplaySessionOptions :=
  mkReplayOptions AsRecorded (double_of_int 1) 1000 true max_iterations max_packets false.
Definition sample_session (max_packets max_iterations : Z) : ReplaySession :=
  mkSession 3 2 "eth0" (sample_options max_packets max_iterations) sample_frames.
Definition sample_sendto (k : nat) (frame : list byte) : Z := zlen frame.

(** Twice as fast, the sleeps are half as long. *)
Example scaled_half :
  wait_for_timing (mkReplayOptions Scaled (double_of_int 2) 0 false 0 0 false) 3500 1000 = Done 1250.
Proof. reflexivity. Qed.


(** A modifier that rejects everything, in a loop with a packet limit. *)
Lemma replay_terminates_witness :
  (exists fuel0, forall fuel, (fuel0 <= fuel)%nat ->
     exists s, run sample_sendto None None 100 (sample_session 4 0) fuel 0 0 = Done (inr s)) /\
  (forall fuel, run sample_sendto (Some (fun _ p => (false, p))) None 100 (sample_session 4 0) fuel 0 0 = Fail OutOfFuel).
Proof.
  assert (Hno : forall m it k, passes (Some (fun _ p => (false, p))) (sample_session 4 0) m it k = Done []).
  { intros m. induction m as [|m IH]; intros it k; [reflexivity|]. cbn. rewrite IH. reflexivity. }
  split.
  - apply (replay_terminates sample_sendto None None 100 (sample_session 4 0) 0 0); try exact I; try discriminate.
    + intros m. eexists. apply passes_recorded; [reflexivity | reflexivity | discriminate | repeat split; discriminate | discriminate].
    + right. right. exists 2%nat, (zip [0; 2500; 500; 0; 2500; 500] (sample_frames ++ sample_frames)). split; [reflexivity|].
      intros H. specialize (H eq_refl). discriminate H.
  - apply (replay_terminates sample_sendto (Some (fun _ p => (false, p))) None 100 (sample_session 4 0) 0 0); try exact I;
      try discriminate; try reflexivity.
    + intros m. exists []. apply Hno.
    + intros m pl H. rewrite Hno in H. apply Done_inj in H as <-. intros _. reflexivity.
Defined.

Lemma replay_keeps_time_witness :
  passes None (sample_session 0 2) 2 0 0 =
    Done (zip [0; 2500; 500; 0; 2500; 500] (sample_frames ++ sample_frames)).
Proof.
  refine (proj1 (replay_keeps_time None (sample_session 0 2) 2 eq_refl eq_refl _ _)); [discriminate | repeat split; discriminate].
Defined.
