(* ===== verification/Generators.v ===== *)
(** * Packet generators (include/wadjet/testing/generators.hpp)

    The builders that lay out frames, packets and messages byte by byte, and the
    generator of whole random packets.  The decoders are what they are compared
    with: a built header is the one that its decoder returns.

    The engine of the random numbers is a parameter, [Engine]: the standard leaves
    the numbers that a distribution draws to its implementation, and only promises
    that they are in the range asked for ([EngineLaws]).  All builders share one
    [Random] by reference, so it is the state of the computations [Gen]. *)

From Stdlib Require Import ZArith Lia SpecFloat.
From Stdlib Require Import Strings.Byte.
From stdpp Require Import base numbers list strings.
From S2P Require Import Prelude ByteOrder Checksum Decoder.
From S2P Require Ethernet Ipv4 Udp Tcp SomeIp DoIP Rtps Dispatcher Uds UdsTables Diagnostic.

Abbreviation run := (res Empty_set).

(** ** Random numbers *)

(** [std::mt19937_64] seeded, [std::uniform_int_distribution(min, max)] and
    [std::uniform_real_distribution<double>(0.0, 1.0)], each with the engine after it. *)
Class Engine (R : Type) := {
  seeded : Z -> R;
  uniform_int : Z -> Z -> R -> Z * R;
  uniform_real : R -> spec_float * R
}.

Class EngineLaws (R : Type) `{!Engine R} : Prop :=
  uniform_int_range lo hi e : lo <= hi -> lo <= (uniform_int lo hi e).1 <= hi.

Module Random.

Record t (R : Type) := mk { engine_ : R; seed_ : Z }.
Arguments mk {R} _ _.
Arguments engine_ {R} _.
Arguments seed_ {R} _.

(** A computation with the shared generator. *)
Definition Gen (R A : Type) : Type := t R -> run (A * t R).

#[export] Instance gen_ret R : MRet (Gen R) := fun A a g => Done (a, g).
#[export] Instance gen_bind R : MBind (Gen R) := fun A B k m g =>
  match m g with
  | Done (a, g') => k a g'
  | Fail e => Fail e
  | Undef => Undef
  end.

(** What the language leaves undefined. *)
Definition undefined {R A} : Gen R A := fun _ => Undef.

Section random.
Context {R : Type} `{!Engine R}.

Definition new (seed : Z) : t R := mk (seeded seed) seed.
Definition seed (g : t R) : Z := seed_ g.

(** A distribution with [min > max] is undefined. *)
Definition integer (min max : Z) : Gen R Z := fun g =>
  if max <? min then Undef
  else let out := uniform_int min max (engine_ g) in Done (out.1, mk out.2 (seed_ g)).

Definition u8 : Gen R Z := integer 0 255.
Definition u16 : Gen R Z := integer 0 65535.
Definition u32 : Gen R Z := integer 0 4294967295.

Fixpoint fill (count : nat) : Gen R (list byte) :=
  match count with
  | O => mret []
  | S count' => b ← u8; rest ← fill count'; mret (to_byte b :: rest)
  end.

Definition bytes (count : Z) : Gen R (list byte) := fill (Z.to_nat count).

(** [mac[0] &= 0xFE]. *)
Definition mac_address : Gen R (list byte) :=
  mac ← fill 6;
  mret (match mac with b :: rest => to_byte (Z.land (Prelude.u8 b) 0xFE) :: rest | [] => [] end).

Definition ipv4_address : Gen R Z := u32.
Definition port : Gen R Z := integer 1024 65535.
Definition any_port : Gen R Z := u16.

(** [c[idx]] with an index up to [c.size() - 1], a [std::size_t]. *)
Definition pick {A} (c : list A) : Gen R A :=
  idx ← integer 0 (uint 64 (zlen c - 1));
  match c !! Z.to_nat idx with Some a => mret a | None => undefined end.

Definition chance (probability : spec_float) : Gen R bool := fun g =>
  let out := uniform_real (engine_ g) in Done (SFltb out.1 probability, mk out.2 (seed_ g)).
End random.
End Random.

#[local] Existing Instances Random.gen_ret Random.gen_bind.
Abbreviation Gen := Random.Gen.

(** ** Builders *)

Module EthernetBuilder.
Record t := mk {
  dst_mac_ : list byte; src_mac_ : list byte; ethertype_ : Z;
  has_vlan_ : bool; vlan_id_ : Z; vlan_pcp_ : Z; payload_ : list byte
}.

Definition new {R} `{!Engine R} : Gen R t :=
  dst ← Random.mac_address; src ← Random.mac_address;
  mret (mk dst src 0x0800 false 0 0 []).

Definition with_dst_mac (mac : list byte) (b : t) : t :=
  mk mac (src_mac_ b) (ethertype_ b) (has_vlan_ b) (vlan_id_ b) (vlan_pcp_ b) (payload_ b).
Definition with_src_mac (mac : list byte) (b : t) : t :=
  mk (dst_mac_ b) mac (ethertype_ b) (has_vlan_ b) (vlan_id_ b) (vlan_pcp_ b) (payload_ b).
Definition with_ethertype (type : Z) (b : t) : t :=
  mk (dst_mac_ b) (src_mac_ b) type (has_vlan_ b) (vlan_id_ b) (vlan_pcp_ b) (payload_ b).
Definition with_vlan (vlan_id pcp : Z) (b : t) : t :=
  mk (dst_mac_ b) (src_mac_ b) (ethertype_ b) true vlan_id pcp (payload_ b).
Definition with_payload (payload : list byte) (b : t) : t :=
  mk (dst_mac_ b) (src_mac_ b) (ethertype_ b) (has_vlan_ b) (vlan_id_ b) (vlan_pcp_ b) payload.
Definition with_random_payload {R} `{!Engine R} (size : Z) (b : t) : Gen R t :=
  payload ← Random.bytes size; mret (with_payload payload b).

Definition tci (b : t) : Z := uint 16 (Z.lor (Z.shiftl (vlan_pcp_ b) 13) (Z.land (vlan_id_ b) 0x0FFF)).

Definition build (b : t) : list byte :=
  dst_mac_ b ++ src_mac_ b ++
  (if has_vlan_ b then [x81; x00] ++ write_be16 (tci b) else []) ++
  write_be16 (ethertype_ b) ++ payload_ b.
End EthernetBuilder.

Module IPv4Builder.
Record t := mk {
  src_ip_ : Z; dst_ip_ : Z; protocol_ : Z; ttl_ : Z; id_ : Z; payload_ : list byte
}.

Definition new {R} `{!Engine R} : Gen R t :=
  src ← Random.ipv4_address; dst ← Random.ipv4_address;
  mret (mk src dst 17 64 0 []).

Definition with_src_ip (ip : Z) (b : t) : t := mk ip (dst_ip_ b) (protocol_ b) (ttl_ b) (id_ b) (payload_ b).
Definition with_dst_ip (ip : Z) (b : t) : t := mk (src_ip_ b) ip (protocol_ b) (ttl_ b) (id_ b) (payload_ b).
Definition with_protocol (proto : Z) (b : t) : t := mk (src_ip_ b) (dst_ip_ b) proto (ttl_ b) (id_ b) (payload_ b).
Definition with_ttl (ttl : Z) (b : t) : t := mk (src_ip_ b) (dst_ip_ b) (protocol_ b) ttl (id_ b) (payload_ b).
Definition with_id (id : Z) (b : t) : t := mk (src_ip_ b) (dst_ip_ b) (protocol_ b) (ttl_ b) id (payload_ b).
Definition with_payload (payload : list byte) (b : t) : t :=
  mk (src_ip_ b) (dst_ip_ b) (protocol_ b) (ttl_ b) (id_ b) payload.

Definition total_len (b : t) : Z := uint 16 (20 + uint 16 (zlen (payload_ b))).

(** The header with the checksum placeholder. *)
Definition unsummed_header (b : t) : list byte :=
  [x45; x00] ++ write_be16 (total_len b) ++ write_be16 (id_ b) ++ [x40; x00] ++
  [to_byte (ttl_ b); to_byte (protocol_ b)] ++ [x00; x00] ++
  write_be32 (src_ip_ b) ++ write_be32 (dst_ip_ b).

(** The loop over the twenty bytes. *)
Fixpoint sum_words (packet : list byte) (sum : Z) : Z :=
  match packet with
  | b0 :: b1 :: rest => sum_words rest (uint 32 (sum + uint 32 (Z.lor (Z.shiftl (u8 b0) 8) (u8 b1))))
  | _ => sum
  end.

(** [~sum] after the loop that folds the carries, which ends in three rounds. *)
Definition checksum (packet : list byte) : Z :=
  match fold_carries 3 (sum_words packet 0) with
  | Some sum => uint 16 (uint 32 (Z.lnot sum))
  | None => 0
  end.

Definition build (b : t) : list byte :=
  let packet := unsummed_header b in
  let checksum := checksum packet in
  let packet := <[10%nat := to_byte (Z.shiftr checksum 8)]> packet in
  let packet := <[11%nat := to_byte (Z.land checksum 0xFF)]> packet in
  packet ++ payload_ b.
End IPv4Builder.

Module UDPBuilder.
Record t := mk { src_port_ : Z; dst_port_ : Z; payload_ : list byte }.

Definition new {R} `{!Engine R} : Gen R t :=
  src ← Random.port; dst ← Random.port; mret (mk src dst []).

Definition with_src_port (port : Z) (b : t) : t := mk port (dst_port_ b) (payload_ b).
Definition with_dst_port (port : Z) (b : t) : t := mk (src_port_ b) port (payload_ b).
Definition with_payload (payload : list byte) (b : t) : t := mk (src_port_ b) (dst_port_ b) payload.
Definition with_random_payload {R} `{!Engine R} (size : Z) (b : t) : Gen R t :=
  payload ← Random.bytes size; mret (with_payload payload b).

Definition length_ (b : t) : Z := uint 16 (8 + uint 16 (zlen (payload_ b))).

Definition build (b : t) : list byte :=
  write_be16 (src_port_ b) ++ write_be16 (dst_port_ b) ++ write_be16 (length_ b) ++ [x00; x00] ++ payload_ b.
End UDPBuilder.

Module TCPBuilder.
Record t := mk {
  src_port_ : Z; dst_port_ : Z; seq_num_ : Z; ack_num_ : Z; flags_ : Z; payload_ : list byte
}.

Definition new {R} `{!Engine R} : Gen R t :=
  src ← Random.port; dst ← Random.port; seq ← Random.u32; ack ← Random.u32;
  mret (mk src dst seq ack 0 []).

Definition with_src_port (port : Z) (b : t) : t :=
  mk port (dst_port_ b) (seq_num_ b) (ack_num_ b) (flags_ b) (payload_ b).
Definition with_dst_port (port : Z) (b : t) : t :=
  mk (src_port_ b) port (seq_num_ b) (ack_num_ b) (flags_ b) (payload_ b).
Definition with_seq (seq : Z) (b : t) : t :=
  mk (src_port_ b) (dst_port_ b) seq (ack_num_ b) (flags_ b) (payload_ b).
Definition with_ack (ack : Z) (b : t) : t :=
  mk (src_port_ b) (dst_port_ b) (seq_num_ b) ack (flags_ b) (payload_ b).
Definition with_flags (flags : Z) (b : t) : t :=
  mk (src_port_ b) (dst_port_ b) (seq_num_ b) (ack_num_ b) flags (payload_ b).
Definition with_syn (b : t) : t := with_flags (Z.lor (flags_ b) 0x02) b.
Definition with_ack_flag (b : t) : t := with_flags (Z.lor (flags_ b) 0x10) b.
Definition with_fin (b : t) : t := with_flags (Z.lor (flags_ b) 0x01) b.
Definition with_rst (b : t) : t := with_flags (Z.lor (flags_ b) 0x04) b.
Definition with_psh (b : t) : t := with_flags (Z.lor (flags_ b) 0x08) b.
Definition with_payload (payload : list byte) (b : t) : t :=
  mk (src_port_ b) (dst_port_ b) (seq_num_ b) (ack_num_ b) (flags_ b) payload.

Definition build (b : t) : list byte :=
  write_be16 (src_port_ b) ++ write_be16 (dst_port_ b) ++
  write_be32 (seq_num_ b) ++ write_be32 (ack_num_ b) ++
  [x50; to_byte (flags_ b); xff; xff; x00; x00; x00; x00] ++ payload_ b.
End TCPBuilder.

Module SOMEIPBuilder.
Record t := mk {
  service_id_ : Z; method_id_ : Z; client_id_ : Z; session_id_ : Z;
  protocol_version_ : Z; interface_version_ : Z; message_type_ : Z; return_code_ : Z;
  payload_ : list byte
}.

Definition new {R} `{!Engine R} : Gen R t :=
  service ← Random.u16; method ← Random.u16; client ← Random.u16; session ← Random.u16;
  mret (mk service method client session 1 1 SomeIp.Request 0 []).

Definition with_service_id (id : Z) (b : t) : t :=
  mk id (method_id_ b) (client_id_ b) (session_id_ b) (protocol_version_ b) (interface_version_ b)
     (message_type_ b) (return_code_ b) (payload_ b).
Definition with_method_id (id : Z) (b : t) : t :=
  mk (service_id_ b) id (client_id_ b) (session_id_ b) (protocol_version_ b) (interface_version_ b)
     (message_type_ b) (return_code_ b) (payload_ b).
Definition with_client_id (id : Z) (b : t) : t :=
  mk (service_id_ b) (method_id_ b) id (session_id_ b) (protocol_version_ b) (interface_version_ b)
     (message_type_ b) (return_code_ b) (payload_ b).
Definition with_session_id (id : Z) (b : t) : t :=
  mk (service_id_ b) (method_id_ b) (client_id_ b) id (protocol_version_ b) (interface_version_ b)
     (message_type_ b) (return_code_ b) (payload_ b).
Definition with_message_type (type : Z) (b : t) : t :=
  mk (service_id_ b) (method_id_ b) (client_id_ b) (session_id_ b) (protocol_version_ b) (interface_version_ b)
     type (return_code_ b) (payload_ b).
Definition with_return_code (code : Z) (b : t) : t :=
  mk (service_id_ b) (method_id_ b) (client_id_ b) (session_id_ b) (protocol_version_ b) (interface_version_ b)
     (message_type_ b) code (payload_ b).
Definition with_protocol_version (ver : Z) (b : t) : t :=
  mk (service_id_ b) (method_id_ b) (client_id_ b) (session_id_ b) ver (interface_version_ b)
     (message_type_ b) (return_code_ b) (payload_ b).
Definition with_interface_version (ver : Z) (b : t) : t :=
  mk (service_id_ b) (method_id_ b) (client_id_ b) (session_id_ b) (protocol_version_ b) ver
     (message_type_ b) (return_code_ b) (payload_ b).
Definition with_payload (payload : list byte) (b : t) : t :=
  mk (service_id_ b) (method_id_ b) (client_id_ b) (session_id_ b) (protocol_version_ b) (interface_version_ b)
     (message_type_ b) (return_code_ b) payload.
Definition with_random_payload {R} `{!Engine R} (size : Z) (b : t) : Gen R t :=
  payload ← Random.bytes size; mret (with_payload payload b).

Definition types : list Z :=
  [SomeIp.Request; SomeIp.RequestNoReturn; SomeIp.Notification; SomeIp.Response; SomeIp.Error].
Definition with_random_message_type {R} `{!Engine R} (b : t) : Gen R t :=
  type ← Random.pick types; mret (with_message_type type b).

Definition length_ (b : t) : Z := uint 32 (8 + uint 32 (zlen (payload_ b))).

Definition build (b : t) : list byte :=
  write_be16 (service_id_ b) ++ write_be16 (method_id_ b) ++ write_be32 (length_ b) ++
  write_be16 (client_id_ b) ++ write_be16 (session_id_ b) ++
  [to_byte (protocol_version_ b); to_byte (interface_version_ b); to_byte (message_type_ b);
   to_byte (return_code_ b)] ++ payload_ b.
End SOMEIPBuilder.

Module DoIPBuilder.
Record t := mk {
  protocol_version_ : Z; payload_type_ : Z; payload_ : list byte;
  is_diagnostic_ : bool; diagnostic_source_ : Z; diagnostic_target_ : Z
}.

(** The constructor draws nothing. *)
Definition new : t := mk 0x02 DoIP.DiagnosticMessage [] false 0 0.

Definition with_protocol_version (ver : Z) (b : t) : t :=
  mk ver (payload_type_ b) (payload_ b) (is_diagnostic_ b) (diagnostic_source_ b) (diagnostic_target_ b).
Definition with_payload_type (type : Z) (b : t) : t :=
  mk (protocol_version_ b) type (payload_ b) (is_diagnostic_ b) (diagnostic_source_ b) (diagnostic_target_ b).
Definition with_payload (payload : list byte) (b : t) : t :=
  mk (protocol_version_ b) (payload_type_ b) payload (is_diagnostic_ b) (diagnostic_source_ b)
     (diagnostic_target_ b).

Definition types : list Z :=
  [DoIP.VehicleIdentificationRequest; DoIP.VehicleAnnouncementOrIdentificationResponse;
   DoIP.RoutingActivationRequest_t; DoIP.RoutingActivationResponse_t; DoIP.DiagnosticMessage;
   DoIP.DiagnosticMessagePositiveAck; DoIP.DiagnosticMessageNegativeAck].
Definition with_random_payload_type {R} `{!Engine R} (b : t) : Gen R t :=
  type ← Random.pick types; mret (with_payload_type type b).

Definition as_diagnostic_message (source target : Z) (b : t) : t :=
  mk (protocol_version_ b) DoIP.DiagnosticMessage (payload_ b) true source target.

Definition inner_payload (b : t) : list byte :=
  if is_diagnostic_ b
  then write_be16 (diagnostic_source_ b) ++ write_be16 (diagnostic_target_ b) ++ payload_ b
  else payload_ b.

Definition build (b : t) : list byte :=
  [to_byte (protocol_version_ b); to_byte (Z.lnot (protocol_version_ b))] ++
  write_be16 (payload_type_ b) ++ write_be32 (uint 32 (zlen (inner_payload b))) ++ inner_payload b.
End DoIPBuilder.

Module UDSBuilder.
Record t := mk {
  service_id_ : Z; sub_function_ : Z; has_sub_function_ : bool; suppress_positive_response_ : bool;
  is_response_ : bool; is_negative_response_ : bool; nrc_ : Z; payload_ : list byte
}.

(** The constructor draws nothing. *)
Definition new : t := mk Uds.TesterPresent 0 false false false false UdsTables.GeneralReject [].

Definition with_service_id (sid : Z) (b : t) : t :=
  mk sid (sub_function_ b) (has_sub_function_ b) (suppress_positive_response_ b) (is_response_ b)
     (is_negative_response_ b) (nrc_ b) (payload_ b).
Definition with_sub_function (sf : Z) (b : t) : t :=
  mk (service_id_ b) sf true (suppress_positive_response_ b) (is_response_ b)
     (is_negative_response_ b) (nrc_ b) (payload_ b).
Definition without_sub_function (b : t) : t :=
  mk (service_id_ b) (sub_function_ b) false (suppress_positive_response_ b) (is_response_ b)
     (is_negative_response_ b) (nrc_ b) (payload_ b).
Definition with_suppress_positive_response (spr : bool) (b : t) : t :=
  mk (service_id_ b) (sub_function_ b) (has_sub_function_ b) spr (is_response_ b)
     (is_negative_response_ b) (nrc_ b) (payload_ b).
Definition with_payload (payload : list byte) (b : t) : t :=
  mk (service_id_ b) (sub_function_ b) (has_sub_function_ b) (suppress_positive_response_ b) (is_response_ b)
     (is_negative_response_ b) (nrc_ b) payload.
Definition with_random_payload {R} `{!Engine R} (size : Z) (b : t) : Gen R t :=
  payload ← Random.bytes size; mret (with_payload payload b).

Definition as_request (b : t) : t :=
  mk (service_id_ b) (sub_function_ b) (has_sub_function_ b) (suppress_positive_response_ b) false false
     (nrc_ b) (payload_ b).
Definition as_positive_response (b : t) : t :=
  mk (service_id_ b) (sub_function_ b) (has_sub_function_ b) (suppress_positive_response_ b) true false
     (nrc_ b) (payload_ b).
Definition as_negative_response (nrc : Z) (b : t) : t :=
  mk (service_id_ b) (sub_function_ b) (has_sub_function_ b) (suppress_positive_response_ b) true true
     nrc (payload_ b).

Definition as_diagnostic_session_control (session : Z) (b : t) : t :=
  with_sub_function session (with_service_id Uds.DiagnosticSessionControl b).
Definition as_security_access_request_seed (level : Z) (b : t) : t :=
  with_sub_function level (with_service_id Uds.SecurityAccess b).
Definition as_security_access_send_key (level : Z) (key : list byte) (b : t) : t :=
  with_payload key (with_sub_function (uint 8 (level + 1)) (with_service_id Uds.SecurityAccess b)).
Definition as_read_data_by_identifier (dids : list Z) (b : t) : t :=
  with_payload (dids ≫= write_be16) (without_sub_function (with_service_id Uds.ReadDataByIdentifier b)).
Definition as_write_data_by_identifier (did : Z) (data : list byte) (b : t) : t :=
  with_payload (write_be16 did ++ data) (without_sub_function (with_service_id Uds.WriteDataByIdentifier b)).
Definition as_ecu_reset (type : Z) (b : t) : t :=
  with_sub_function type (with_service_id Uds.ECUReset b).
Definition as_tester_present (suppress_response : bool) (b : t) : t :=
  with_suppress_positive_response suppress_response
    (with_sub_function 0x00 (with_service_id Uds.TesterPresent b)).
Definition as_routine_control (control_type routine_id : Z) (option_record : list byte) (b : t) : t :=
  with_payload (write_be16 routine_id ++ option_record)
    (with_sub_function control_type (with_service_id Uds.RoutineControl b)).

Definition services : list Z :=
  [Uds.DiagnosticSessionControl; Uds.ECUReset; Uds.SecurityAccess; Uds.TesterPresent;
   Uds.ReadDataByIdentifier; Uds.WriteDataByIdentifier; Uds.RoutineControl; Uds.ReadDTCInformation;
   Uds.ClearDiagnosticInformation].
Definition with_random_service {R} `{!Engine R} (b : t) : Gen R t :=
  sid ← Random.pick services; mret (with_service_id sid b).
Definition with_random_did_range {R} `{!Engine R} (min_did max_did : Z) (b : t) : Gen R t :=
  did ← Random.integer min_did max_did;
  mret (with_payload (write_be16 did) (without_sub_function (with_service_id Uds.ReadDataByIdentifier b))).

Definition build (b : t) : list byte :=
  if is_negative_response_ b
  then [x7f; to_byte (service_id_ b); to_byte (nrc_ b)]
  else
    let sid := if is_response_ b then uint 8 (service_id_ b + 0x40) else service_id_ b in
    [to_byte sid] ++
    (if has_sub_function_ b
     then [to_byte (if suppress_positive_response_ b && negb (is_response_ b)
                    then Z.lor (sub_function_ b) 0x80 else sub_function_ b)]
     else []) ++ payload_ b.
End UDSBuilder.

(** ** Whole packets *)

Module PacketGenerator.
Section generator.
Context {R : Type} `{!Engine R}.

(** [PacketGenerator(seed)], its [rng_] and its [seed()]. *)
Definition new (seed : Z) : Random.t R := Random.new seed.
Definition rng (g : Random.t R) : Random.t R := g.
Definition seed (g : Random.t R) : Z := Random.seed g.

Definition ethernet : Gen R EthernetBuilder.t := EthernetBuilder.new.
Definition ipv4 : Gen R IPv4Builder.t := IPv4Builder.new.
Definition udp : Gen R UDPBuilder.t := UDPBuilder.new.
Definition tcp : Gen R TCPBuilder.t := TCPBuilder.new.
Definition someip : Gen R SOMEIPBuilder.t := SOMEIPBuilder.new.
Definition doip : DoIPBuilder.t := DoIPBuilder.new.
Definition uds : UDSBuilder.t := UDSBuilder.new.

(** The last statements of the generators: [payload] in a datagram or a segment,
    in an IPv4 packet, in a frame. *)
Definition in_ethernet (ipv4_data : list byte) : Gen R (list byte) :=
  b ← ethernet;
  mret (EthernetBuilder.build (EthernetBuilder.with_payload ipv4_data (EthernetBuilder.with_ethertype 0x0800 b))).
Definition in_ipv4 (protocol : Z) (data : list byte) : Gen R (list byte) :=
  b ← ipv4; in_ethernet (IPv4Builder.build (IPv4Builder.with_payload data (IPv4Builder.with_protocol protocol b))).
Definition in_udp (payload : list byte) : Gen R (list byte) :=
  b ← udp; in_ipv4 17 (UDPBuilder.build (UDPBuilder.with_payload payload b)).
Definition in_tcp (payload : list byte) : Gen R (list byte) :=
  b ← tcp; in_ipv4 6 (TCPBuilder.build (TCPBuilder.with_payload payload b)).

Definition udp_packet (payload_size : Z) : Gen R (list byte) :=
  udp_payload ← (if 0 <? payload_size then Random.bytes payload_size else mret []);
  in_udp udp_payload.

Definition tcp_packet (payload_size : Z) : Gen R (list byte) :=
  tcp_payload ← (if 0 <? payload_size then Random.bytes payload_size else mret []);
  in_tcp tcp_payload.

Definition someip_udp_packet (payload_size : Z) : Gen R (list byte) :=
  b ← someip;
  b ← SOMEIPBuilder.with_random_message_type b;
  b ← SOMEIPBuilder.with_random_payload payload_size b;
  in_udp (SOMEIPBuilder.build b).

Definition doip_tcp_packet (payload_size : Z) : Gen R (list byte) :=
  b ← DoIPBuilder.with_random_payload_type doip;
  payload ← Random.bytes payload_size;
  in_tcp (DoIPBuilder.build (DoIPBuilder.with_payload payload b)).

Definition someip_service_packet (service_id msg_type : Z) : Gen R (list byte) :=
  b ← someip;
  in_udp (SOMEIPBuilder.build (SOMEIPBuilder.with_message_type msg_type (SOMEIPBuilder.with_service_id service_id b))).

Definition doip_diagnostic_packet (source target : Z) (uds_data : list byte) : Gen R (list byte) :=
  in_tcp (DoIPBuilder.build (DoIPBuilder.with_payload uds_data (DoIPBuilder.as_diagnostic_message source target doip))).

Definition uds_doip_packet (source target : Z) : Gen R (list byte) :=
  b ← UDSBuilder.with_random_service uds;
  doip_diagnostic_packet source target (UDSBuilder.build b).
Definition uds_session_control_packet (session source target : Z) : Gen R (list byte) :=
  doip_diagnostic_packet source target (UDSBuilder.build (UDSBuilder.as_diagnostic_session_control session uds)).
Definition uds_security_request_seed_packet (level source target : Z) : Gen R (list byte) :=
  doip_diagnostic_packet source target (UDSBuilder.build (UDSBuilder.as_security_access_request_seed level uds)).
Definition uds_read_did_packet (dids : list Z) (source target : Z) : Gen R (list byte) :=
  doip_diagnostic_packet source target (UDSBuilder.build (UDSBuilder.as_read_data_by_identifier dids uds)).
Definition uds_tester_present_packet (source target : Z) (suppress_response : bool) : Gen R (list byte) :=
  doip_diagnostic_packet source target (UDSBuilder.build (UDSBuilder.as_tester_present suppress_response uds)).
Definition uds_ecu_reset_packet (type source target : Z) : Gen R (list byte) :=
  doip_diagnostic_packet source target (UDSBuilder.build (UDSBuilder.as_ecu_reset type uds)).
Definition uds_negative_response_packet (rejected_service nrc source target : Z) : Gen R (list byte) :=
  doip_diagnostic_packet source target
    (UDSBuilder.build (UDSBuilder.as_negative_response nrc (UDSBuilder.with_service_id rejected_service uds))).

Definition random_uds_request : Gen R (list byte) :=
  b ← UDSBuilder.with_random_service uds; mret (UDSBuilder.build (UDSBuilder.as_request b)).
Definition random_oem_did_request : Gen R (list byte) :=
  b ← UDSBuilder.with_random_did_range 0xF100 0xF1FF uds; mret (UDSBuilder.build (UDSBuilder.as_request b)).
Definition random_vehicle_id_request : Gen R (list byte) :=
  b ← UDSBuilder.with_random_did_range 0xF190 0xF19F uds; mret (UDSBuilder.build (UDSBuilder.as_request b)).

Definition truncated_packet (max_size : Z) : Gen R (list byte) :=
  size ← Random.integer 1 max_size; Random.bytes size.

(** The bytes of the packet are accessed as if they were a [std::vector]. *)
Definition corrupted_ipv4_packet : Gen R (list byte) :=
  packet ← udp_packet 10; Random.undefined.

Definition random_bytes (size : Z) : Gen R (list byte) := Random.bytes size.
End generator.
End PacketGenerator.

(** ** Computations with the shared generator *)

(** From any state the computation returns, the seed stays what it was, and the
    result has the property. *)
Definition yields {R A} (m : Gen R A) (P : A -> Prop) : Prop :=
  forall g, exists a g', m g = Done (a, g') /\ Random.seed_ g' = Random.seed_ g /\ P a.

Lemma yields_ret {R A} (a : A) (P : A -> Prop) : P a -> yields (R:=R) (mret a) P.
Proof. intros Ha g. exists a, g. split_and!; [reflexivity.. | exact Ha]. Qed.

Lemma yields_bind {R A B} (m : Gen R A) (k : A -> Gen R B) (P : A -> Prop) (Q : B -> Prop) :
  yields m P -> (forall a, P a -> yields (k a) Q) -> yields (m ≫= k) Q.
Proof.
  intros Hm Hk g. destruct (Hm g) as (a & g1 & E1 & Hs1 & Ha). destruct (Hk a Ha g1) as (b & g2 & E2 & Hs2 & Hb).
  exists b, g2. split_and!; [|congruence | exact Hb].
  unfold mbind, Random.gen_bind. rewrite E1. exact E2.
Qed.

Lemma yields_weaken {R A} (m : Gen R A) (P Q : A -> Prop) : (forall a, P a -> Q a) -> yields m P -> yields m Q.
Proof. intros H Hm g. destruct (Hm g) as (a & g' & E & Hs & Ha). eauto 6. Qed.

Section drawn.
Context {R : Type} `{EngineLaws R}.

Lemma yields_integer lo hi : lo <= hi -> yields (Random.integer lo hi) (fun v => lo <= v <= hi).
Proof.
  intros Hle g. unfold Random.integer. rewrite (proj2 (Z.ltb_ge _ _)) by lia. cbv zeta.
  eexists _, _. split; [reflexivity|]. split; [reflexivity|]. apply (uniform_int_range lo hi (Random.engine_ g) Hle).
Qed.

Lemma yields_u16 : yields Random.u16 (fits 16).
Proof.
  apply (yields_weaken _ (fun v => 0 <= v <= 65535)); [unfold fits; lia | apply yields_integer; lia].
Qed.

Lemma yields_u32 : yields Random.u32 (fits 32).
Proof.
  apply (yields_weaken _ (fun v => 0 <= v <= 4294967295)); [unfold fits; lia | apply yields_integer; lia].
Qed.

Lemma yields_port : yields Random.port (fun v => 1024 <= v <= 65535).
Proof. apply yields_integer. lia. Qed.

Lemma yields_fill n : yields (Random.fill n) (fun l => length l = n).
Proof.
  induction n as [|n IH]; cbn [Random.fill]; [apply yields_ret; reflexivity|].
  eapply yields_bind; [apply yields_integer; lia | intros v _].
  eapply yields_bind; [exact IH | intros l Hl]. apply yields_ret. cbn [length]. congruence.
Qed.

Lemma yields_bytes n : 0 <= n -> yields (Random.bytes n) (fun l => zlen l = n).
Proof. intros Hn. eapply yields_weaken, yields_fill. intros l Hl. cbv beta in Hl. lia. Qed.

(** A MAC address of six bytes, the first of which has an even value. *)
Definition unicast (mac : list byte) : Prop :=
  length mac = 6%nat /\ match mac with b :: _ => Z.even (u8 b) = true | [] => False end.

Lemma yields_mac : yields Random.mac_address unicast.
Proof.
  eapply yields_bind; [apply yields_fill | intros mac Hm]. apply yields_ret.
  destruct mac as [|b mac]; [discriminate|]. split; [exact Hm|].
  apply (forallb_forall (fun b => Z.even (u8 (to_byte (Z.land (u8 b) 0xFE)))) (to_byte <$> seqZ 0 256)).
  - vm_compute. reflexivity.
  - rewrite <- (to_byte_u8 b). apply list_elem_of_In, list_elem_of_fmap. exists (u8 b). split; [reflexivity|].
    apply elem_of_seqZ. apply u8_range.
Qed.

Lemma yields_pick {A} (c : list A) : 0 < zlen c < 2 ^ 64 -> yields (Random.pick c) (fun a => a ∈ c).
Proof.
  intros Hc. unfold Random.pick. rewrite uint_small by (unfold fits; lia).
  eapply yields_bind; [apply yields_integer; lia | intros i Hi].
  cbv beta in Hi. destruct (lookup_in_range c i ltac:(lia)) as [a Ha]. rewrite Ha. apply yields_ret.
  exact (list_elem_of_lookup_2 _ _ _ Ha).
Qed.
End drawn.

(** ** Built headers are what the decoders return *)

(** *** Ethernet *)

Definition ethernet_header (b : EthernetBuilder.t) : Ethernet.EthernetHeader :=
  Ethernet.mkEthernetHeader (EthernetBuilder.dst_mac_ b) (EthernetBuilder.src_mac_ b)
    (if EthernetBuilder.has_vlan_ b then Some (Ethernet.mkVlanTag Ethernet.EtherType_VLAN (EthernetBuilder.tci b))
     else None)
    None (EthernetBuilder.ethertype_ b) (if EthernetBuilder.has_vlan_ b then 18 else 14).

Record wf_ethernet (b : EthernetBuilder.t) : Prop := {
  wf_dst_mac : length (EthernetBuilder.dst_mac_ b) = 6%nat;
  wf_src_mac : length (EthernetBuilder.src_mac_ b) = 6%nat;
  wf_ethertype : fits 16 (EthernetBuilder.ethertype_ b);
  wf_not_vlan : Ethernet.is_vlan_type (EthernetBuilder.ethertype_ b) = false
}.

Lemma ethernet_build b :
  EthernetBuilder.build b = Ethernet.encode_header (ethernet_header b) ++ EthernetBuilder.payload_ b.
Proof.
  unfold EthernetBuilder.build, Ethernet.encode_header, ethernet_header. cbn [Ethernet.eth_dst_mac
    Ethernet.eth_src_mac Ethernet.eth_vlan Ethernet.eth_vlan_inner Ethernet.eth_ethertype].
  rewrite <- !app_assoc. destruct (EthernetBuilder.has_vlan_ b); reflexivity.
Qed.

Lemma ethernet_header_wf b : wf_ethernet b -> Ethernet.wf_header (ethernet_header b).
Proof.
  intros [Hd Hs Ht Hv]. unfold ethernet_header. destruct b as [dst src type [] id pcp payload]; cbn in *;
    (split; cbn; try assumption; try discriminate; try (intros _; assumption); try reflexivity).
  - intros t [= <-]. split; [reflexivity | cbn [Ethernet.tci]; apply uint_fits; lia].
  - rewrite !length_app, Hd, Hs. reflexivity.
  - rewrite !length_app, Hd, Hs. reflexivity.
Qed.

(** The tag has the low twelve bits of the VLAN id and the low three of the priority. *)
Lemma ethernet_tag b :
  fits 8 (EthernetBuilder.vlan_pcp_ b) ->
  let t := Ethernet.mkVlanTag Ethernet.EtherType_VLAN (EthernetBuilder.tci b) in
  Ethernet.vid t = EthernetBuilder.vlan_id_ b mod 4096 /\ Ethernet.pcp t = EthernetBuilder.vlan_pcp_ b mod 8 /\
  Ethernet.dei t = false.
Proof.
  intros Hp. cbv zeta. unfold Ethernet.vid, Ethernet.pcp, Ethernet.dei, EthernetBuilder.tci.
  cbn [Ethernet.tci]. set (p := EthernetBuilder.vlan_pcp_ b) in *. set (i := EthernetBuilder.vlan_id_ b).
  rewrite (land_mask i 0xFFF 12) by (lia || reflexivity). change (2 ^ 12) with 4096.
  assert (Hi : 0 <= i mod 4096 < 4096) by (apply Z.mod_pos_bound; lia).
  rewrite lor_shiftl_add by lia. unfold uint.
  set (v := (p * 2 ^ 13 + i mod 4096) mod 2 ^ 16).
  assert (Hv : v = (p mod 8) * 8192 + i mod 4096).
  { unfold v. change (2 ^ 13) with 8192. change (2 ^ 16) with 65536. lia. }
  clearbody v. subst v. split_and!.
  - bits_arith. lia.
  - bits_arith. lia.
  - change 0x1000 with (Z.shiftl 1 12). apply negb_false_iff, Z.eqb_eq.
    apply Z.bits_inj'. intros n Hn. rewrite Z.land_spec, Z.shiftl_1_l, Z.pow2_bits_eqb, Z.bits_0 by lia.
    destruct (Z.eqb_spec 12 n) as [<-|]; [|apply andb_false_r]. rewrite andb_true_r.
    rewrite Z.testbit_odd, shiftr_div by lia.
    replace (_ / 2 ^ 12) with (2 * (p mod 8)) by (change (2 ^ 12) with 4096; lia).
    rewrite Z.odd_mul. reflexivity.
Qed.

(** *** IPv4 *)

Definition ipv4_header (b : IPv4Builder.t) : Ipv4.IPv4Header :=
  Ipv4.mkIPv4Header 4 5 0 0 (IPv4Builder.total_len b) (IPv4Builder.id_ b) (Ipv4.mkIPv4Flags false true false) 0
    (IPv4Builder.ttl_ b) (IPv4Builder.protocol_ b) (IPv4Builder.checksum (IPv4Builder.unsummed_header b))
    (write_be32 (IPv4Builder.src_ip_ b)) (write_be32 (IPv4Builder.dst_ip_ b)) [] true [] false.

Record wf_ipv4 (b : IPv4Builder.t) : Prop := {
  wf_id : fits 16 (IPv4Builder.id_ b);
  wf_ttl : fits 8 (IPv4Builder.ttl_ b);
  wf_protocol : fits 8 (IPv4Builder.protocol_ b);
  wf_total_len : zlen (IPv4Builder.payload_ b) <= 65515
}.

Lemma sum_words_even l s : IPv4Builder.sum_words l s = Ipv4.sum_even_words l s.
Proof.
  revert s. induction l as [| |b0 b1 l IH] using pair_ind; intros s; try reflexivity.
  cbn [IPv4Builder.sum_words Ipv4.sum_even_words]. rewrite be16_lor.
  pose proof (be16_fits b0 b1) as Hf.
  rewrite IH, (uint_small 32 (be16 b0 b1)), (uint_small 16 (be16 b0 b1)) by (unfold fits in *; lia). reflexivity.
Qed.

Lemma builder_checksum packet :
  zlen packet = 20 -> IPv4Builder.checksum packet = complement_fold (words_sum packet).
Proof.
  intros Hl. unfold IPv4Builder.checksum, complement_fold.
  rewrite sum_words_even, Ipv4.words_sum_even by lia. rewrite Z.add_0_l.
  destruct (fold_carries 3 (words_sum packet)) as [s|]; [|reflexivity].
  unfold uint, Z.lnot. change (2 ^ 16) with 65536. change (2 ^ 32) with 4294967296. lia.
Qed.

(** The builder's header is the placeholder header with the checksum written into it. *)
Lemma ipv4_encode b :
  Ipv4.encode_header (ipv4_header b) =
    Ipv4.set_checksum (IPv4Builder.unsummed_header b) (IPv4Builder.checksum (IPv4Builder.unsummed_header b)).
Proof.
  unfold ipv4_header. generalize (IPv4Builder.checksum (IPv4Builder.unsummed_header b)). intros c.
  unfold IPv4Builder.unsummed_header, Ipv4.encode_header, Ipv4.set_checksum, write_be16, write_be32. reflexivity.
Qed.

Lemma ipv4_build b :
  IPv4Builder.build b = Ipv4.encode_header (ipv4_header b) ++ IPv4Builder.payload_ b.
Proof.
  rewrite ipv4_encode. unfold IPv4Builder.build. cbv zeta.
  generalize (IPv4Builder.checksum (IPv4Builder.unsummed_header b)). intros c.
  unfold IPv4Builder.unsummed_header, Ipv4.set_checksum, write_be16, write_be32. reflexivity.
Qed.

Lemma ipv4_header_verifies b : Ipv4.calculate_checksum (Ipv4.encode_header (ipv4_header b)) = 0.
Proof.
  set (packet := IPv4Builder.unsummed_header b).
  assert (Hl : zlen packet = 20) by reflexivity.
  assert (Hz : words_sum packet = words_sum (take 10 packet ++ drop 12 packet)).
  { unfold packet, IPv4Builder.unsummed_header, write_be16, write_be32. cbn [app take drop words_sum].
    change (be16 x00 x00) with 0. lia. }
  pose proof (words_sum_bounds packet) as Hb.
  destruct (complement_fold_spec (words_sum packet)) as (r & Hr & Hr2 & _); [lia|].
  rewrite ipv4_encode. fold packet. rewrite builder_checksum by exact Hl.
  rewrite Ipv4.calculate_checksum_set, <- Hz by (rewrite ?Hr; unfold fits; lia).
  apply complement_fold_cancel; lia.
Qed.

Lemma ipv4_header_wf opts b : wf_ipv4 b -> Ipv4.wf_header opts (ipv4_header b).
Proof.
  intros [Hi Ht Hp Hl].
  assert (Hc : fits 16 (IPv4Builder.checksum (IPv4Builder.unsummed_header b))).
  { rewrite builder_checksum by reflexivity. pose proof (words_sum_bounds (IPv4Builder.unsummed_header b)) as Hb.
    change (zlen (IPv4Builder.unsummed_header b)) with 20 in Hb.
    destruct (complement_fold_spec (words_sum (IPv4Builder.unsummed_header b))) as (r & -> & ? & _);
      unfold fits; lia. }
  split; try assumption; try reflexivity; try (cbn; unfold fits; lia).
  - change (20 <= IPv4Builder.total_len b < 2 ^ 16). unfold IPv4Builder.total_len, uint. lia.
  - rewrite ipv4_header_verifies. destruct (Ipv4.validate_checksum opts); reflexivity.
Qed.

(** *** UDP and TCP *)

Definition udp_header (b : UDPBuilder.t) : Udp.UdpHeader :=
  Udp.mkUdpHeader (UDPBuilder.src_port_ b) (UDPBuilder.dst_port_ b) (UDPBuilder.length_ b) 0 true.

Record wf_udp (b : UDPBuilder.t) : Prop := {
  wf_udp_src : fits 16 (UDPBuilder.src_port_ b);
  wf_udp_dst : fits 16 (UDPBuilder.dst_port_ b);
  wf_udp_len : zlen (UDPBuilder.payload_ b) <= 65527
}.

Lemma udp_build b : UDPBuilder.build b = Udp.encode_header (udp_header b) ++ UDPBuilder.payload_ b.
Proof. reflexivity. Qed.

Lemma udp_header_wf opts b : wf_udp b -> Udp.wf_header opts (udp_header b).
Proof.
  intros [Hs Hd Hl]. split; try assumption; try reflexivity; [|split; reflexivity || lia].
  change (8 <= UDPBuilder.length_ b < 2 ^ 16). unfold UDPBuilder.length_, uint. lia.
Qed.

Definition tcp_header (b : TCPBuilder.t) : Tcp.TcpHeader :=
  Tcp.mkTcpHeader (TCPBuilder.src_port_ b) (TCPBuilder.dst_port_ b) (TCPBuilder.seq_num_ b) (TCPBuilder.ack_num_ b)
    5 (Tcp.TcpFlags_of (TCPBuilder.flags_ b)) 65535 0 0 [] true.

Record wf_tcp (b : TCPBuilder.t) : Prop := {
  wf_tcp_src : fits 16 (TCPBuilder.src_port_ b);
  wf_tcp_dst : fits 16 (TCPBuilder.dst_port_ b);
  wf_tcp_seq : fits 32 (TCPBuilder.seq_num_ b);
  wf_tcp_ack : fits 32 (TCPBuilder.ack_num_ b);
  wf_tcp_flags : fits 8 (TCPBuilder.flags_ b)
}.

Lemma tcp_build b :
  wf_tcp b -> TCPBuilder.build b = Tcp.encode_header (tcp_header b) 0 [] ++ TCPBuilder.payload_ b.
Proof.
  intros [_ _ _ _ Hf]. unfold TCPBuilder.build, Tcp.encode_header, tcp_header. cbn [Tcp.tcp_src_port
    Tcp.tcp_dst_port Tcp.seq_num Tcp.ack_num Tcp.data_offset Tcp.tcp_flags Tcp.tcp_window Tcp.tcp_checksum Tcp.urgent_ptr].
  rewrite Tcp.tcp_flags_value_of by (unfold fits in Hf; lia). rewrite <- !app_assoc. do 4 f_equal.
  assert (Hw : write_be16 (5 * 4096 + 0 * 512 + TCPBuilder.flags_ b) = [x50; to_byte (TCPBuilder.flags_ b)]).
  { unfold write_be16. unfold fits in Hf. bits_arith. f_equal; [apply u8_inj|f_equal; apply u8_inj];
      rewrite !u8_to_byte; [change (u8 x50) with 80|]; lia. }
  rewrite Hw. reflexivity.
Qed.

Lemma tcp_header_wf opts b : wf_tcp b -> Tcp.wf_header opts (tcp_header b) 0 [].
Proof.
  intros [Hs Hd Hq Ha Hf]. split; try assumption; try reflexivity; try (cbn; unfold fits; lia).
  cbn. destruct (Tcp.parse_options_opt opts); reflexivity.
Qed.

(** *** SOME/IP and DoIP *)

Definition someip_header (b : SOMEIPBuilder.t) : SomeIp.SomeIpHeader :=
  SomeIp.mkSomeIpHeader (SOMEIPBuilder.service_id_ b) (SOMEIPBuilder.method_id_ b) (SOMEIPBuilder.length_ b)
    (SOMEIPBuilder.client_id_ b) (SOMEIPBuilder.session_id_ b) (SOMEIPBuilder.protocol_version_ b)
    (SOMEIPBuilder.interface_version_ b) (SOMEIPBuilder.message_type_ b) (SOMEIPBuilder.return_code_ b).

Record wf_someip (b : SOMEIPBuilder.t) : Prop := {
  wf_service_id : fits 16 (SOMEIPBuilder.service_id_ b);
  wf_method_id : fits 16 (SOMEIPBuilder.method_id_ b);
  wf_client_id : fits 16 (SOMEIPBuilder.client_id_ b);
  wf_session_id : fits 16 (SOMEIPBuilder.session_id_ b);
  wf_protocol_version : SOMEIPBuilder.protocol_version_ b = 1;
  wf_interface_version : fits 8 (SOMEIPBuilder.interface_version_ b);
  wf_message_type : fits 8 (SOMEIPBuilder.message_type_ b);
  wf_return_code : fits 8 (SOMEIPBuilder.return_code_ b);
  wf_someip_len : zlen (SOMEIPBuilder.payload_ b) < 2 ^ 32 - 8
}.

Lemma someip_build b :
  SOMEIPBuilder.build b = SomeIp.encode_header (someip_header b) ++ SOMEIPBuilder.payload_ b.
Proof. unfold SOMEIPBuilder.build, SomeIp.encode_header, write_be16, write_be32. reflexivity. Qed.

Lemma someip_length b : wf_someip b -> SOMEIPBuilder.length_ b = 8 + zlen (SOMEIPBuilder.payload_ b).
Proof. intros [_ _ _ _ _ _ _ _ Hl]. unfold SOMEIPBuilder.length_. rewrite !uint_small; unfold fits; rewrite ?uint_small; unfold fits; lia. Qed.

Lemma someip_header_wf opts b : wf_someip b -> SomeIp.wf_header opts (someip_header b).
Proof.
  intros Hwf. pose proof (someip_length b Hwf) as Hlen. destruct Hwf as [Hs Hm Hc Hse Hv Hi Ht Hr Hl].
  split; try assumption.
  - cbn [someip_header SomeIp.sip_length]. lia.
  - cbn [someip_header SomeIp.protocol_version]. rewrite Hv. unfold fits. lia.
  - intros _ _. exact Hv.
Qed.

Definition doip_header (b : DoIPBuilder.t) : DoIP.DoIPHeader :=
  DoIP.mkDoIPHeader (DoIPBuilder.protocol_version_ b) (255 - DoIPBuilder.protocol_version_ b)
    (DoIPBuilder.payload_type_ b) (uint 32 (zlen (DoIPBuilder.inner_payload b))).

(** The payload has the least length that its type needs. *)
Record wf_doip (b : DoIPBuilder.t) : Prop := {
  wf_doip_version : fits 8 (DoIPBuilder.protocol_version_ b);
  wf_doip_type : fits 16 (DoIPBuilder.payload_type_ b);
  wf_doip_len : zlen (DoIPBuilder.inner_payload b) < 2 ^ 32;
  wf_doip_min : (DoIP.length_check (DoIPBuilder.payload_type_ b)).1 <= zlen (DoIPBuilder.inner_payload b)
}.

Lemma doip_build b :
  DoIPBuilder.build b = DoIP.encode_header (doip_header b) ++ DoIPBuilder.inner_payload b.
Proof.
  unfold DoIPBuilder.build, DoIP.encode_header, doip_header. cbn [DoIP.protocol_version
    DoIP.inverse_protocol_version DoIP.payload_type DoIP.payload_length].
  replace (to_byte (Z.lnot (DoIPBuilder.protocol_version_ b))) with (to_byte (255 - DoIPBuilder.protocol_version_ b)).
  - unfold write_be16, write_be32. reflexivity.
  - apply u8_inj. rewrite !u8_to_byte. unfold Z.lnot. lia.
Qed.

Lemma complement_byte v : fits 8 v -> Z.lxor v (255 - v) = 255.
Proof.
  intros Hv. replace (255 - v) with (Z.ldiff 255 v).
  - apply Z.bits_inj'. intros n Hn. rewrite Z.lxor_spec, Z.ldiff_spec.
    destruct (Z.lt_ge_cases n 8).
    + change 255 with (Z.ones 8). rewrite Z.ones_spec_low by lia. destruct (Z.testbit v n); reflexivity.
    + change 255 with (Z.ones 8). rewrite Z.ones_spec_high by lia.
      rewrite <- (Z.mod_small v (2 ^ 8)), Z.mod_pow2_bits_high by (exact Hv || lia). reflexivity.
  - symmetry. apply Z.sub_nocarry_ldiff. change 255 with (Z.ones 8). apply Z.ldiff_ones_r_low; [|].
    + apply Hv.
    + destruct (Z.eq_dec v 0) as [->|]; [reflexivity|]. apply Z.log2_lt_pow2; unfold fits in Hv; lia.
Qed.

Lemma doip_header_wf opts b : wf_doip b -> DoIP.wf_header opts (doip_header b).
Proof.
  intros [Hv Ht Hl Hm]. split; cbn [doip_header DoIP.protocol_version DoIP.inverse_protocol_version
    DoIP.payload_type DoIP.payload_length]; try assumption.
  - unfold fits in *. lia.
  - apply uint_fits. lia.
  - intros _ _. apply Z.eqb_eq, complement_byte, Hv.
  - rewrite uint_small by (unfold fits; lia). exact Hm.
Qed.

(** ** What the generator returns *)

(** The headers of a generated frame: no VLAN tag, unicast addresses, an IPv4 header
    without options or fragmentation that carries [len] bytes of protocol [proto] and
    verifies. *)
Record generated_ip (eth : Ethernet.EthernetHeader) (ip : Ipv4.IPv4Header) (proto len : Z) : Prop := {
  gen_eth : Ethernet.wf_header eth;
  gen_eth_type : Ethernet.eth_ethertype eth = Ethernet.EtherType_IPv4;
  gen_eth_plain : Ethernet.eth_vlan eth = None;
  gen_dst_mac : unicast (Ethernet.eth_dst_mac eth);
  gen_src_mac : unicast (Ethernet.eth_src_mac eth);
  gen_ip : forall opts, Ipv4.wf_header opts ip;
  gen_ip_proto : Ipv4.ip_protocol ip = proto;
  gen_ip_len : Ipv4.ip_total_length ip = 20 + len;
  gen_ip_whole : Ipv4.is_fragmented ip = false;
  gen_ip_valid : Ipv4.ip_checksum_valid ip = true
}.

Definition drawn_port (p : Z) : Prop := 1024 <= p <= 65535.

Section generated.
Context {R : Type} `{EngineLaws R}.

Lemma in_ipv4_spec proto payload :
  fits 8 proto -> zlen payload <= 65515 ->
  yields (PacketGenerator.in_ipv4 proto payload) (fun packet => exists eth ip,
    generated_ip eth ip proto (zlen payload) /\
    packet = Ethernet.encode_header eth ++ Ipv4.encode_header ip ++ payload).
Proof.
  intros Hp Hl. unfold PacketGenerator.in_ipv4, PacketGenerator.ipv4, IPv4Builder.new.
  eapply yields_bind with (P := fun b => IPv4Builder.ttl_ b = 64 /\ IPv4Builder.id_ b = 0).
  { eapply yields_bind; [apply yields_u32 | intros src _]. eapply yields_bind; [apply yields_u32 | intros dst _].
    apply yields_ret. split; reflexivity. }
  intros b [Ht Hi]. set (ib := IPv4Builder.with_payload payload (IPv4Builder.with_protocol proto b)).
  assert (Hwf : wf_ipv4 ib).
  { split; cbn [ib IPv4Builder.id_ IPv4Builder.ttl_ IPv4Builder.protocol_ IPv4Builder.payload_
      IPv4Builder.with_payload IPv4Builder.with_protocol]; try assumption; rewrite ?Ht, ?Hi; unfold fits; lia. }
  unfold PacketGenerator.in_ethernet, PacketGenerator.ethernet, EthernetBuilder.new.
  eapply yields_bind with (P := fun b => unicast (EthernetBuilder.dst_mac_ b) /\ unicast (EthernetBuilder.src_mac_ b) /\
    EthernetBuilder.has_vlan_ b = false).
  { eapply yields_bind; [apply yields_mac | intros dst Hd]. eapply yields_bind; [apply yields_mac | intros src Hs].
    apply yields_ret. split; [exact Hd|]. split; [exact Hs | reflexivity]. }
  intros eb (Hd & Hs & Hv). apply yields_ret. rewrite ethernet_build.
  set (eb' := EthernetBuilder.with_payload _ _). exists (ethernet_header eb'), (ipv4_header ib).
  assert (Hwe : wf_ethernet eb') by (split; [apply Hd | apply Hs | change (fits 16 0x0800); unfold fits; lia | reflexivity]).
  split; [|cbn [eb' EthernetBuilder.payload_ EthernetBuilder.with_payload]; rewrite ipv4_build; reflexivity].
  split; try reflexivity; try assumption.
  - apply ethernet_header_wf, Hwe.
  - cbn [ethernet_header Ethernet.eth_vlan eb' EthernetBuilder.has_vlan_ EthernetBuilder.with_payload
      EthernetBuilder.with_ethertype]. rewrite Hv. reflexivity.
  - intros opts. apply ipv4_header_wf, Hwf.
  - change (IPv4Builder.total_len ib = 20 + zlen payload). unfold IPv4Builder.total_len, uint.
    cbn [ib IPv4Builder.payload_ IPv4Builder.with_payload]. lia.
Qed.

Lemma in_udp_spec payload :
  zlen payload <= 65507 ->
  yields (PacketGenerator.in_udp payload) (fun packet => exists eth ip udp,
    generated_ip eth ip 17 (8 + zlen payload) /\ Udp.wf_header Udp.Options_default udp /\
    drawn_port (Udp.udp_src_port udp) /\ drawn_port (Udp.udp_dst_port udp) /\
    Udp.udp_length udp = 8 + zlen payload /\ packet = Dispatcher.udp_frame eth ip udp payload).
Proof.
  intros Hl. unfold PacketGenerator.in_udp, PacketGenerator.udp, UDPBuilder.new.
  eapply yields_bind with (P := fun b => drawn_port (UDPBuilder.src_port_ b) /\ drawn_port (UDPBuilder.dst_port_ b)).
  { eapply yields_bind; [apply yields_port | intros s Hs]. eapply yields_bind; [apply yields_port | intros t Ht].
    apply yields_ret. split; assumption. }
  intros b [Hs Ht]. set (ub := UDPBuilder.with_payload payload b).
  assert (Hwf : wf_udp ub).
  { unfold drawn_port in Hs, Ht.
    split; cbn [ub UDPBuilder.src_port_ UDPBuilder.dst_port_ UDPBuilder.payload_ UDPBuilder.with_payload];
      unfold fits; lia. }
  assert (Hz : zlen (UDPBuilder.build ub) = 8 + zlen payload)
    by (rewrite udp_build, length_app; cbn [ub UDPBuilder.payload_ UDPBuilder.with_payload]; cbn [Udp.encode_header app length write_be16]; lia).
  eapply yields_weaken; [|apply in_ipv4_spec; [unfold fits; lia | lia]].
  intros packet (eth & ip & Hip & ->). exists eth, ip, (udp_header ub). rewrite Hz in Hip.
  split; [exact Hip|]. split; [apply udp_header_wf, Hwf|]. split; [exact Hs|]. split; [exact Ht|]. split.
  - change (UDPBuilder.length_ ub = 8 + zlen payload). unfold UDPBuilder.length_, uint.
    cbn [ub UDPBuilder.payload_ UDPBuilder.with_payload]. lia.
  - rewrite udp_build. reflexivity.
Qed.

Lemma in_tcp_spec payload :
  zlen payload <= 65495 ->
  yields (PacketGenerator.in_tcp payload) (fun packet => exists eth ip tcp,
    generated_ip eth ip 6 (20 + zlen payload) /\ Tcp.wf_header Tcp.Options_default tcp 0 [] /\
    drawn_port (Tcp.tcp_src_port tcp) /\ drawn_port (Tcp.tcp_dst_port tcp) /\
    packet = Dispatcher.tcp_frame eth ip tcp 0 [] payload).
Proof.
  intros Hl. unfold PacketGenerator.in_tcp, PacketGenerator.tcp, TCPBuilder.new.
  eapply yields_bind with (P := fun b => drawn_port (TCPBuilder.src_port_ b) /\ drawn_port (TCPBuilder.dst_port_ b) /\
    fits 32 (TCPBuilder.seq_num_ b) /\ fits 32 (TCPBuilder.ack_num_ b) /\ TCPBuilder.flags_ b = 0).
  { eapply yields_bind; [apply yields_port | intros s Hs]. eapply yields_bind; [apply yields_port | intros t Ht].
    eapply yields_bind; [apply yields_u32 | intros q Hq]. eapply yields_bind; [apply yields_u32 | intros a Ha].
    apply yields_ret. split_and!; assumption || apply Hs || apply Ht || apply Hq || apply Ha || reflexivity. }
  intros b (Hs & Ht & Hq & Ha & Hf). set (tb := TCPBuilder.with_payload payload b).
  assert (Hwf : wf_tcp tb).
  { unfold drawn_port in Hs, Ht.
    split; cbn [tb TCPBuilder.src_port_ TCPBuilder.dst_port_ TCPBuilder.seq_num_ TCPBuilder.ack_num_
      TCPBuilder.flags_ TCPBuilder.with_payload]; try assumption; rewrite ?Hf; unfold fits; lia. }
  assert (Hz : zlen (TCPBuilder.build tb) = 20 + zlen payload)
    by (rewrite tcp_build, length_app by exact Hwf; cbn [tb TCPBuilder.payload_ TCPBuilder.with_payload]; cbn [Tcp.encode_header app length write_be16 write_be32]; lia).
  eapply yields_weaken; [|apply in_ipv4_spec; [unfold fits; lia | lia]].
  intros packet (eth & ip & Hip & ->). exists eth, ip, (tcp_header tb). rewrite Hz in Hip.
  split; [exact Hip|]. split; [apply tcp_header_wf, Hwf|]. split; [exact Hs|]. split; [exact Ht|].
  rewrite tcp_build by exact Hwf. reflexivity.
Qed.
End generated.

Lemma generated_udp_wf d eth ip udp len :
  generated_ip eth ip 17 len -> Udp.wf_header Udp.Options_default udp ->
  3 <= Dispatcher.max_layers (Dispatcher.options d) -> Dispatcher.wf_udp_frame d eth ip udp.
Proof. intros Hg Hu Hm. split; try apply Hg; assumption. Qed.

Lemma generated_tcp_wf d eth ip tcp len :
  generated_ip eth ip 6 len -> Tcp.wf_header Tcp.Options_default tcp 0 [] ->
  3 <= Dispatcher.max_layers (Dispatcher.options d) -> Dispatcher.wf_tcp_frame d eth ip tcp 0 [].
Proof. intros Hg Hu Hm. split; try apply Hg; assumption. Qed.

(** A sample engine: a counter, reduced into the range asked for. *)
#[local] Instance counter : Engine Z := {
  seeded seed := seed;
  uniform_int lo hi e := (lo + e mod (hi - lo + 1), e + 4097);
  uniform_real e := (S754_zero false, e + 1)
}.

#[local] Instance counter_laws : EngineLaws Z.
Proof. intros lo hi e Hle. cbn. pose proof (Z.mod_pos_bound e (hi - lo + 1)). lia. Qed.



(** Generated SOME/IP packets are SOME/IP packets.  For any engine that keeps its
    draws in range and any payload up to 65491 bytes, [someip_udp_packet] returns a
    frame of unicast addresses, a verifying unfragmented IPv4 packet, and a UDP
    datagram between ports from 1024 to 65535 whose lengths agree; the message has
    one of the five plain types and a random payload of the size asked for.  Unless
    the drawn ports or the drawn service identifier are those of another protocol,
    every dispatcher with room for four layers returns exactly these four layers. *)
Theorem generated_someip_decodes {R} `{EngineLaws R} (n : Z) (Hn : 0 <= n <= 65491) :
  yields (R:=R) (PacketGenerator.someip_udp_packet n) (fun packet => exists eth ip udp h body,
    generated_ip eth ip 17 (24 + n) /\ Udp.wf_header Udp.Options_default udp /\
    drawn_port (Udp.udp_src_port udp) /\ drawn_port (Udp.udp_dst_port udp) /\
    Udp.udp_length udp = 24 + n /\ SomeIp.wf_header SomeIp.Options_default h /\
    SomeIp.message_type h ∈ SOMEIPBuilder.types /\ SomeIp.sip_length h = 8 + n /\ zlen body = n /\
    packet = Dispatcher.udp_frame eth ip udp (SomeIp.encode_header h ++ body) /\
    forall d, Dispatcher.decode_app (Dispatcher.options d) = true ->
      4 <= Dispatcher.max_layers (Dispatcher.options d) ->
      Dispatcher.plain_someip udp (SomeIp.encode_header h ++ body) ->
      Dispatcher.decode d packet =
        Done (Dispatcher.mkResult [Dispatcher.EthernetLayer eth; Dispatcher.IPv4Layer ip; Dispatcher.UdpLayer udp;
                Dispatcher.SomeIpLayer h] body None true, d)).
Proof.
  unfold PacketGenerator.someip_udp_packet, PacketGenerator.someip, SOMEIPBuilder.new.
  eapply yields_bind with (P := fun b => fits 16 (SOMEIPBuilder.service_id_ b) /\ fits 16 (SOMEIPBuilder.method_id_ b) /\
    fits 16 (SOMEIPBuilder.client_id_ b) /\ fits 16 (SOMEIPBuilder.session_id_ b) /\
    SOMEIPBuilder.protocol_version_ b = 1 /\ SOMEIPBuilder.interface_version_ b = 1 /\ SOMEIPBuilder.return_code_ b = 0).
  { do 4 (eapply yields_bind; [apply yields_u16 | intros ? ?]). apply yields_ret. auto 10. }
  intros b (Hs & Hm & Hc & Hse & Hv & Hi & Hr).
  eapply yields_bind with (P := fun b' => exists type, type ∈ SOMEIPBuilder.types /\ b' = SOMEIPBuilder.with_message_type type b).
  { eapply yields_bind; [apply yields_pick; cbn; lia | intros type Ht]. apply yields_ret. exists type. split; [exact Ht | reflexivity]. }
  intros b' (type & Htype & ->).
  eapply yields_bind with (P := fun b' => exists body, zlen body = n /\
    b' = SOMEIPBuilder.with_payload body (SOMEIPBuilder.with_message_type type b)).
  { eapply yields_bind; [apply yields_bytes; lia | intros body Hb]. apply yields_ret. exists body. split; [exact Hb | reflexivity]. }
  intros b' (body & Hb & ->). set (sb := SOMEIPBuilder.with_payload _ _).
  assert (Hty : fits 8 type /\ SomeIp.is_tp type = false).
  { unfold SOMEIPBuilder.types in Htype. rewrite !elem_of_cons, elem_of_nil in Htype.
    destruct Htype as [->|[->|[->|[->|[->|[]]]]]]; split; reflexivity || (split; [discriminate | reflexivity]). }
  destruct Hty as [Hty8 Htp].
  assert (Hwf : wf_someip sb).
  { split; try assumption; cbn [sb SOMEIPBuilder.interface_version_ SOMEIPBuilder.return_code_
      SOMEIPBuilder.payload_ SOMEIPBuilder.with_payload SOMEIPBuilder.with_message_type];
      rewrite ?Hi, ?Hr; unfold fits; lia. }
  pose proof (someip_length sb Hwf) as Hlen. cbn [sb SOMEIPBuilder.payload_ SOMEIPBuilder.with_payload] in Hlen.
  rewrite someip_build. change (SOMEIPBuilder.payload_ sb) with body.
  assert (Hz : zlen (SomeIp.encode_header (someip_header sb) ++ body) = 16 + n) by (rewrite length_app; cbn; lia).
  eapply yields_weaken; [|apply in_udp_spec; lia].
  intros packet (eth & ip & udp & Hip & Hu & Hsp & Hdp & Hul & ->). rewrite Hz in Hip, Hul.
  replace (8 + (16 + n)) with (24 + n) in Hip, Hul by lia.
  exists eth, ip, udp, (someip_header sb), body.
  pose proof (someip_header_wf SomeIp.Options_default sb Hwf) as Hh.
  assert (Hsl : SomeIp.sip_length (someip_header sb) = 8 + n) by (cbn [someip_header SomeIp.sip_length]; lia).
  split_and!; try assumption; try apply Hsp; try apply Hdp; try reflexivity.
  intros d Happ Hmax Hplain.
  apply (Dispatcher.decode_someip_frame d eth ip udp _ (someip_header sb) body); try assumption; try reflexivity.
  - apply (generated_udp_wf d eth ip udp (24 + n)); try assumption. lia.
  - lia.
Qed.

(** What holds of the packet of a run, by evaluation. *)
Lemma checked_packet {R} (m : run (list byte * Random.t R)) (P : list byte -> Prop) packet g :
  match m with Done (p, _) => P p | _ => True end -> m = Done (packet, g) -> P packet.
Proof. intros H ->. exact H. Qed.

Lemma generated_someip_decodes_witness :
  exists packet g eth ip udp h body,
    PacketGenerator.someip_udp_packet 4 (Random.new (R:=Z) 7) = Done (packet, g) /\ Random.seed g = 7 /\
    packet = Dispatcher.udp_frame eth ip udp (SomeIp.encode_header h ++ body) /\ zlen body = 4 /\
    match Dispatcher.decode (Dispatcher.new_dispatcher Dispatcher.DispatcherOptions_default) packet with
    | Done (r, _) => zlen (Dispatcher.layers r) = 4 /\ Dispatcher.complete r = true
    | _ => False
    end.
Proof.
  destruct (generated_someip_decodes (R:=Z) 4 ltac:(lia) (Random.new 7))
    as (packet & g & E & Hseed & eth & ip & udp & h & body & Hip & Hu & Hs & Hd & Hul & Hh & Hty & Hl & Hb & Hp & Hdec).
  exists packet, g, eth, ip, udp, h, body. split_and!; [exact E | exact Hseed | exact Hp | exact Hb |].
  pattern packet. refine (checked_packet _ _ _ _ _ E). vm_compute. split; reflexivity.
Defined.

(** Generated diagnostic packets carry the diagnostic message, but rarely on the
    port that announces it.  For any engine that keeps its draws in range, any two
    addresses and up to 65483 bytes of UDS data, [doip_diagnostic_packet] returns a
    frame around a verifying IPv4 packet and a TCP segment without options between
    ports from 1024 to 65535; the segment holds a DoIP diagnostic message of version
    2, and the combined decoder returns from it the addresses and whatever the UDS
    decoder returns on the data.  A dispatcher returns the DoIP layer if one of the
    two drawn ports happens to be 13400, and no DoIP layer otherwise. *)
Theorem generated_doip_decodes {R} `{EngineLaws R} (source target : Z) (uds_data : list byte)
    (Hs : fits 16 source) (Ht : fits 16 target) (Hn : zlen uds_data <= 65483) :
  yields (R:=R) (PacketGenerator.doip_diagnostic_packet source target uds_data) (fun packet => exists eth ip tcp h,
    let message := DoIP.encode_header h ++ write_be16 source ++ write_be16 target ++ uds_data in
    generated_ip eth ip 6 (32 + zlen uds_data) /\
    drawn_port (Tcp.tcp_src_port tcp) /\ drawn_port (Tcp.tcp_dst_port tcp) /\
    h = DoIP.mkDoIPHeader 2 0xFD DoIP.DiagnosticMessage (4 + zlen uds_data) /\
    packet = Dispatcher.tcp_frame eth ip tcp 0 [] message /\
    (forall m, Uds.decode uds_data = Done m -> exists r,
       Diagnostic.decode_packet message = Done r /\ Diagnostic.ecu_source r = source /\
       Diagnostic.ecu_target r = target /\ Diagnostic.uds_message r = Uds.message m) /\
    forall d, Dispatcher.decode_app (Dispatcher.options d) = true ->
      4 <= Dispatcher.max_layers (Dispatcher.options d) ->
      if (Tcp.tcp_src_port tcp =? Udp.port_DOIP) || (Tcp.tcp_dst_port tcp =? Udp.port_DOIP)
      then Dispatcher.decode d packet =
             Done (Dispatcher.mkResult [Dispatcher.EthernetLayer eth; Dispatcher.IPv4Layer ip;
                     Dispatcher.TcpLayer tcp; Dispatcher.DoIPLayer h]
                     (write_be16 source ++ write_be16 target ++ uds_data) None true, d)
      else forall r d', Dispatcher.decode d packet = Done (r, d') ->
             Dispatcher.get_layer Dispatcher.as_doip (Dispatcher.layers r) = None).
Proof.
  unfold PacketGenerator.doip_diagnostic_packet, PacketGenerator.doip.
  set (b := DoIPBuilder.with_payload _ _).
  assert (Hz : zlen (DoIPBuilder.inner_payload b) = 4 + zlen uds_data)
    by (cbn [b DoIPBuilder.inner_payload DoIPBuilder.is_diagnostic_ DoIPBuilder.with_payload
          DoIPBuilder.as_diagnostic_message DoIPBuilder.payload_]; rewrite !length_app; cbn [length write_be16]; lia).
  assert (Hwf : wf_doip b).
  { split; rewrite ?Hz; [split; [discriminate | reflexivity] .. | lia |].
    change (4 <= 4 + zlen uds_data). lia. }
  rewrite doip_build. set (h := doip_header b). change (DoIPBuilder.inner_payload b) with
    (write_be16 source ++ write_be16 target ++ uds_data) in *.
  assert (Hh : h = DoIP.mkDoIPHeader 2 0xFD DoIP.DiagnosticMessage (4 + zlen uds_data)).
  { unfold h, doip_header. change (DoIPBuilder.inner_payload b) with (write_be16 source ++ write_be16 target ++ uds_data).
    rewrite Hz, uint_small by (unfold fits; lia). reflexivity. }
  pose proof (doip_header_wf DoIP.Options_default b Hwf) as Hhw. fold h in Hhw.
  assert (Hzm : zlen (DoIP.encode_header h ++ write_be16 source ++ write_be16 target ++ uds_data) = 12 + zlen uds_data).
  { rewrite length_app, Nat2Z.inj_add, Hz. change (zlen (DoIP.encode_header h)) with 8. lia. }
  eapply yields_weaken; [|apply in_tcp_spec; lia].
  intros packet (eth & ip & tcp & Hip & Htcp & Hsp & Hdp & ->). rewrite Hzm in Hip.
  replace (20 + (12 + zlen uds_data)) with (32 + zlen uds_data) in Hip by lia.
  exists eth, ip, tcp, h. cbv zeta. split; [exact Hip|]. split; [exact Hsp|]. split; [exact Hdp|]. split; [exact Hh|].
  split; [reflexivity|]. split.
  - intros m Hm. set (r := Diagnostic.mkUdsOverDoipResult h source target (Uds.header m) (Uds.message m)
      (if Uds.is_request uds_data then Diagnostic.Request else Diagnostic.Response)).
    exists r. split; [|split_and!; reflexivity].
    apply (Diagnostic.uds_over_doip_exact _ r). exists uds_data, m, []. rewrite app_nil_r.
    destruct uds_data as [|u0 uds_data]; [discriminate Hm|].
    split_and!; try assumption; try reflexivity; cbn [r Diagnostic.doip_header]; rewrite ?Hh; try reflexivity.
    cbn [length]. lia.
  - intros d Happ Hmax. pose proof (fun H => generated_tcp_wf d eth ip tcp _ Hip Htcp H) as Hwt.
    destruct (_ || _) eqn:Hport.
    + apply (Dispatcher.decode_doip_frame d eth ip tcp 0 [] h _); try assumption; [apply Hwt; lia|].
      rewrite Hh. cbn [DoIP.payload_length]. lia.
    + intros r d'. apply Dispatcher.decode_tcp_frame_off_port; [apply Hwt; lia | exact Hport].
Qed.

Lemma generated_doip_decodes_witness :
  exists packet g eth ip tcp h,
    PacketGenerator.doip_diagnostic_packet 0x0E00 0x0001 [x3e; x80] (Random.new (R:=Z) 7) = Done (packet, g) /\
    packet = Dispatcher.tcp_frame eth ip tcp 0 [] (DoIP.encode_header h ++ write_be16 0x0E00 ++ write_be16 1 ++ [x3e; x80]) /\
    match Dispatcher.decode (Dispatcher.new_dispatcher Dispatcher.DispatcherOptions_default) packet with
    | Done (r, _) => zlen (Dispatcher.layers r) = 3 /\ Dispatcher.complete r = true
    | _ => False
    end.
Proof.
  destruct (generated_doip_decodes (R:=Z) 0x0E00 1 [x3e; x80] ltac:(split; [discriminate | reflexivity])
              ltac:(split; [discriminate | reflexivity]) ltac:(discriminate) (Random.new 7))
    as (packet & g & E & Hseed & eth & ip & tcp & h & Hip & Hsp & Hdp & Hh & Hp & Hrest).
  exists packet, g, eth, ip, tcp, h. split; [exact E|]. split; [exact Hp|].
  pattern packet. refine (checked_packet _ _ _ _ _ E). vm_compute. split; reflexivity.
Defined.

(** ** UDS messages *)

(** A builder of a request without payload. *)
Record fresh (b : UDSBuilder.t) : Prop := {
  fresh_request : UDSBuilder.is_response_ b = false;
  fresh_positive : UDSBuilder.is_negative_response_ b = false;
  fresh_payload : UDSBuilder.payload_ b = []
}.

(** The message that each method of the builder is for. *)
Inductive builds (b : UDSBuilder.t) : UDSBuilder.t -> Uds.UdsServiceMessage -> Prop :=
| builds_session s : fits 7 s ->
    builds b (UDSBuilder.as_diagnostic_session_control s b)
      (Uds.DiagnosticSessionControlRequest s (UDSBuilder.suppress_positive_response_ b))
| builds_reset s : fits 7 s ->
    builds b (UDSBuilder.as_ecu_reset s b) (Uds.ECUResetRequest s (UDSBuilder.suppress_positive_response_ b))
| builds_tester_present spr :
    builds b (UDSBuilder.as_tester_present spr b) (Uds.TesterPresentRequest 0 spr)
| builds_seed level : fits 7 level ->
    builds b (UDSBuilder.as_security_access_request_seed level b)
      (Uds.SecurityAccessRequest level (UDSBuilder.suppress_positive_response_ b) [])
| builds_key level key : fits 7 (level + 1) -> Uds.is_send_key (level + 1) = true ->
    builds b (UDSBuilder.as_security_access_send_key level key b)
      (Uds.SecurityAccessRequest (level + 1) (UDSBuilder.suppress_positive_response_ b) key)
| builds_read dids : dids <> [] -> Forall (fits 16) dids ->
    builds b (UDSBuilder.as_read_data_by_identifier dids b) (Uds.ReadDataByIdentifierRequest dids)
| builds_write did data : fits 16 did -> data <> [] ->
    builds b (UDSBuilder.as_write_data_by_identifier did data b) (Uds.WriteDataByIdentifierRequest did data)
| builds_routine type rid record : fits 7 type -> fits 16 rid ->
    builds b (UDSBuilder.as_routine_control type rid record b)
      (Uds.RoutineControlRequest type (UDSBuilder.suppress_positive_response_ b) rid record)
| builds_negative sid nrc : fits 8 sid -> fits 8 nrc ->
    builds b (UDSBuilder.as_negative_response nrc (UDSBuilder.with_service_id sid b))
      (Uds.NegativeResponseMessage sid nrc).

Lemma built_sub_function s (spr : bool) :
  fits 7 s -> (if spr && negb false then Z.lor s 0x80 else s) = Uds.make_sub_function_byte s spr.
Proof.
  intros Hs. unfold Uds.make_sub_function_byte. rewrite (land_mask s 0x7F 7) by (lia || reflexivity).
  rewrite Z.mod_small by exact Hs. destruct spr; [reflexivity|]. cbn [andb]. symmetry. apply Z.lor_0_r.
Qed.

Lemma builds_encode b b' m : fresh b -> builds b b' m -> UDSBuilder.build b' = Uds.encode_message m.
Proof.
  intros [Hr Hn Hp] Hb. destruct b as [sid sf has spr resp neg nrc payload]. cbn in Hr, Hn, Hp. subst.
  destruct Hb; unfold UDSBuilder.build;
    cbn [UDSBuilder.as_diagnostic_session_control UDSBuilder.as_ecu_reset UDSBuilder.as_tester_present
      UDSBuilder.as_security_access_request_seed UDSBuilder.as_security_access_send_key
      UDSBuilder.as_read_data_by_identifier UDSBuilder.as_write_data_by_identifier UDSBuilder.as_routine_control
      UDSBuilder.as_negative_response UDSBuilder.with_service_id UDSBuilder.with_sub_function
      UDSBuilder.with_suppress_positive_response UDSBuilder.without_sub_function UDSBuilder.with_payload
      UDSBuilder.is_negative_response_ UDSBuilder.is_response_ UDSBuilder.has_sub_function_
      UDSBuilder.suppress_positive_response_ UDSBuilder.sub_function_ UDSBuilder.payload_ UDSBuilder.service_id_
      UDSBuilder.nrc_ app];
    unfold Uds.encode_message; cbn [Uds.message_service Uds.message_body]; cbv zeta;
    rewrite ?(uint_small 8 (level + 1)) by (unfold fits in *; lia);
    rewrite ?built_sub_function by (assumption || (unfold fits; lia)); reflexivity.
Qed.

Lemma builds_wf b b' m : builds b b' m -> Uds.wf_message m.
Proof.
  destruct 1; cbn [Uds.wf_message]; auto; try (unfold fits; lia).
  split; [assumption|]. intros E. congruence.
Qed.

(** Built UDS messages mean what the builder's methods say.  From a builder without
    payload, session control, reset, seed, key, tester present, read, write, routine
    and negative response methods lay out the message of ISO 14229-1, and the decoder
    returns that message, under a header with its direction and service.  There is
    one exception: [as_security_access_send_key] adds one to the level it is given,
    so from an even level it builds a request for a seed and its key is not decoded. *)
Theorem uds_builder_exact (b : UDSBuilder.t) (Hb : fresh b) :
  (forall b' m, builds b b' m ->
     UDSBuilder.build b' = Uds.encode_message m /\
     exists h, Uds.decode (UDSBuilder.build b') = Done (Uds.mkUdsDecodeResult h m) /\
               Uds.message_service m = Some (Uds.direction h, Uds.service_id h)) /\
  (forall level key, fits 7 (level + 1) -> Uds.is_send_key (level + 1) = false ->
     exists h, Uds.decode (UDSBuilder.build (UDSBuilder.as_security_access_send_key level key b)) =
       Done (Uds.mkUdsDecodeResult h
               (Uds.SecurityAccessRequest (level + 1) (UDSBuilder.suppress_positive_response_ b) []))).
Proof.
  split.
  - intros b' m Hm. rewrite (builds_encode _ _ _ Hb Hm). split; [reflexivity|].
    apply Uds.decode_encode_message, (builds_wf _ _ _ Hm).
  - intros level key Hl Hk. destruct Hb as [Hr Hn Hp].
    set (byte := Uds.make_sub_function_byte (level + 1) (UDSBuilder.suppress_positive_response_ b)).
    assert (E : UDSBuilder.build (UDSBuilder.as_security_access_send_key level key b) =
                to_byte Uds.SecurityAccess :: to_byte byte :: key).
    { unfold byte. rewrite <- built_sub_function by exact Hl. unfold UDSBuilder.build. cbn.
      rewrite Hn, Hr, (uint_small 8) by (unfold fits in *; lia). reflexivity. }
    rewrite E. destruct (Uds.decode_request_message (to_byte Uds.SecurityAccess) (to_byte byte :: key)
      (Uds.SecurityAccessRequest (level + 1) (UDSBuilder.suppress_positive_response_ b) [])) as (h & Hd & _);
      try reflexivity; [|exists h; exact Hd].
    change (Uds.parse_security_access_request (to_byte Uds.SecurityAccess :: to_byte byte :: key) = 
      Done (Uds.SecurityAccessRequest (level + 1) (UDSBuilder.suppress_positive_response_ b) [])).
    unfold Uds.parse_security_access_request. Uds.uds_reads. cbv zeta.
    destruct (Uds.sub_function_byte (level + 1) (UDSBuilder.suppress_positive_response_ b) Hl) as [Hf Hs].
    fold byte in Hf, Hs. rewrite Hf, Hs, Hk. reflexivity.
Qed.

Lemma uds_builder_exact_witness :
  exists h, Uds.decode (UDSBuilder.build (UDSBuilder.as_routine_control 1 0xFF00 [xaa] UDSBuilder.new)) =
    Done (Uds.mkUdsDecodeResult h (Uds.RoutineControlRequest 1 false 0xFF00 [xaa])).
Proof.
  destruct (proj1 (uds_builder_exact UDSBuilder.new ltac:(split; reflexivity)) _ _
    (builds_routine UDSBuilder.new 1 0xFF00 [xaa] ltac:(unfold fits; lia) ltac:(unfold fits; lia))) as (_ & h & Hd & _).
  exists h. exact Hd.
Defined.

(** "Any valid service" is not a valid request: [random_uds_request] always returns a
    single byte, a service identifier without the parameters that all nine services
    need, which the decoder leaves unparsed; the identifiers that
    [random_oem_did_request] draws are in their range and decoded. *)
Theorem random_uds_requests {R} `{EngineLaws R} :
  yields (R:=R) PacketGenerator.random_uds_request (fun message =>
    exists sid h, sid ∈ UDSBuilder.services /\ message = [to_byte sid] /\
      Uds.decode message = Done (Uds.mkUdsDecodeResult h Uds.Unparsed)) /\
  yields (R:=R) PacketGenerator.random_oem_did_request (fun message =>
    exists did h, 0xF100 <= did <= 0xF1FF /\
      Uds.decode message = Done (Uds.mkUdsDecodeResult h (Uds.ReadDataByIdentifierRequest [did]))).
Proof.
  split.
  - unfold PacketGenerator.random_uds_request, UDSBuilder.with_random_service, PacketGenerator.uds.
    eapply yields_bind with (P := fun b => exists sid, sid ∈ UDSBuilder.services /\ b = UDSBuilder.with_service_id sid UDSBuilder.new).
    { eapply yields_bind; [apply yields_pick; cbn; lia | intros sid Hs]. apply yields_ret. exists sid. auto. }
    intros b (sid & Hs & ->). apply yields_ret. exists sid.
    unfold UDSBuilder.services in Hs. rewrite !elem_of_cons, elem_of_nil in Hs.
    destruct Hs as [->|[->|[->|[->|[->|[->|[->|[->|[->|[]]]]]]]]]]; eexists; split_and!; try reflexivity;
      unfold UDSBuilder.services; rewrite !elem_of_cons; tauto.
  - unfold PacketGenerator.random_oem_did_request, UDSBuilder.with_random_did_range, PacketGenerator.uds.
    eapply yields_bind with (P := fun b => exists did, 0xF100 <= did <= 0xF1FF /\
      b = UDSBuilder.as_read_data_by_identifier [did] UDSBuilder.new).
    { eapply yields_bind; [apply yields_integer; lia | intros did Hd]. apply yields_ret. exists did. auto. }
    intros b (did & Hd & ->). apply yields_ret.
    destruct (Uds.decode_encode_message (Uds.ReadDataByIdentifierRequest [did])) as (h & Hh & _).
    { split; [discriminate|]. repeat constructor; unfold fits; lia. }
    exists did, h. split; [exact Hd|]. exact Hh.
Qed.

Lemma random_uds_requests_witness :
  exists message g sid, PacketGenerator.random_uds_request (Random.new (R:=Z) 3) = Done (message, g) /\
    sid ∈ UDSBuilder.services /\ message = [to_byte sid].
Proof.
  destruct (proj1 (random_uds_requests (R:=Z)) (Random.new 3)) as (message & g & E & _ & sid & h & Hs & Hm & _).
  exists message, g, sid. auto.
Defined.

(** ** The length fields wrap *)

Lemma be16_prefix_inj v w l l' : fits 16 v -> fits 16 w -> write_be16 v ++ l = write_be16 w ++ l' -> v = w.
Proof.
  intros Hv Hw E. pose proof (read_write_be16 v l Hv) as Hr. rewrite E, read_write_be16 in Hr by exact Hw. congruence.
Qed.

(** An IPv4 builder accepts payloads that its 16-bit total length cannot count: from
    65516 to 65535 bytes the field wraps below the size of the header, and the decoder
    rejects the packet. *)
Theorem ipv4_builder_oversized (b : IPv4Builder.t) (opts : Ipv4.Options) (ctx : DecodeContext) r
    (Hl : 65516 <= zlen (IPv4Builder.payload_ b) <= 65535) :
  data ctx = IPv4Builder.build b -> IPv4Builder.total_len b < 20 /\ Ipv4.decode_impl opts ctx <> Done r.
Proof.
  intros Hd. assert (Ht : IPv4Builder.total_len b < 20) by (unfold IPv4Builder.total_len, uint; lia).
  split; [exact Ht|]. intros H. destruct r as [h next].
  destruct (Ipv4.ipv4_decode_sound _ _ _ _ H) as [Hwf Hd']. rewrite Hd, ipv4_build in Hd'.
  assert (E : drop 2 (Ipv4.encode_header (ipv4_header b) ++ IPv4Builder.payload_ b) =
              drop 2 (Ipv4.encode_header h ++ data next)) by (rewrite Hd'; reflexivity).
  unfold Ipv4.encode_header in E. cbn [app drop] in E. rewrite <- !app_assoc in E.
  pose proof (Ipv4.wf_total _ _ Hwf) as Hwt. pose proof (Ipv4.wf_ihl _ _ Hwf) as Hi. unfold Ipv4.header_size in Hwt.
  apply be16_prefix_inj in E; [|apply uint_fits; lia | unfold fits; lia].
  cbn [ipv4_header Ipv4.ip_total_length] in E. lia.
Qed.
