(* ===== verification/Capture.v ===== *)
(** * Live capture (src/io/capture_session.cpp, include/wadjet/io/capture_session.hpp)

    Reading packets from the ring that the kernel shares with the session, frame by
    frame (TPACKET_V2) or block by block (TPACKET_V3), or from the socket, and the
    capture loop.  The setup of a session is in CaptureSetup.v.

    The system calls, the clock and what other threads do are parameters ([Kernel]).
    Ring memory is written by the kernel and by the session: [poll] returns the ring
    that the session finds after waiting, and between two calls the ring may change.
    The headers of frames and blocks are records of the fields that the code reads;
    packet data is read from the bytes of the whole ring, at the address that the
    code computes, so that a read outside the ring is undefined. *)

From Stdlib Require Import ZArith Lia.
From Stdlib Require Import Strings.Byte.
From stdpp Require Import base numbers list strings.
From S2P Require Import Prelude Decoder Timestamp.
From S2P Require Import Pcap.

(** ** State *)

Record CaptureStats := mkCaptureStats {
  packets_received : Z;
  packets_dropped : Z;
  packets_filtered : Z;
  bytes_received : Z
}.
Definition no_stats : CaptureStats := mkCaptureStats 0 0 0 0.

Inductive TpacketVersion := V2 | V3.

(** [Impl], with the pointers into the ring as offsets; [ring_buffer] is whether there is one. *)
Record Impl := mkImpl {
  socket_fd : Z;
  ring_buffer : bool;
  ring_size : Z;
  frame_size : Z;
  frame_count : Z;
  current_frame : Z;
  tpacket_version : TpacketVersion;
  block_size : Z;
  block_count : Z;
  current_block : Z;
  current_packet_in_block : Z;
  packets_remaining_in_block : Z;
  impl_stats : CaptureStats;
  hw_timestamp_enabled : bool
}.
Definition new_impl : Impl := mkImpl (-1) false 0 0 0 0 V2 0 0 0 0 0 no_stats false.

(** [TP_STATUS_KERNEL] and [TP_STATUS_USER] of the packet interface. *)
Definition TP_STATUS_KERNEL : Z := 0.
Definition TP_STATUS_USER : Z := 1.

(** A frame of the V2 ring: the fields of its [tpacket2_hdr], and its bytes. *)
Record Frame := mkFrame {
  tp_status : Z;
  tp_snaplen : Z;
  tp_mac : Z;
  tp_sec : Z;
  tp_nsec : Z;
  frame_memory : list byte
}.

(** A block of the V3 ring: the fields of its [tpacket_block_desc], and its bytes. *)
Record Block := mkBlock {
  block_status : Z;
  num_pkts : Z;
  offset_to_first_pkt : Z;
  block_memory : list byte
}.

(** The fields of a [tpacket3_hdr]. *)
Record tpacket3_hdr := mkTpacket3 {
  tp3_next_offset : Z;
  tp3_sec : Z;
  tp3_nsec : Z;
  tp3_snaplen : Z;
  tp3_mac : Z
}.

Record Ring := mkRing { frames : list Frame; blocks : list Block }.

(** The kernel, the clock and the other threads: [poll] with a timeout, which returns
    its result and the ring after it; [recvfrom] into a buffer of 65535 bytes; the
    layout of a packet header in a block; and [stopped], whether [stop()] has been
    called when the flag is read. *)
Class Kernel (E : Type) := {
  poll : Z -> Ring -> E -> Z * (Ring * E);
  recvfrom : E -> option (list byte) * E;
  now : E -> Z * E;
  stopped : E -> bool * E;
  packet_header_size : Z;
  packet_header : list byte -> tpacket3_hdr
}.

Inductive Unfinished := OutOfFuel.
Abbreviation run := (res Unfinished).

Record Capture (E : Type) := mkCapture { impl : Impl; ring : Ring; env : E }.
Arguments mkCapture {E} impl ring env.
Arguments impl {E} c.
Arguments ring {E} c.
Arguments env {E} c.

Definition set_impl {E} (i : Impl) (c : Capture E) : Capture E := mkCapture i (ring c) (env c).
Definition set_env {E} (e : E) (c : Capture E) : Capture E := mkCapture (impl c) (ring c) e.

Definition set_current_frame (n : Z) (i : Impl) : Impl :=
  mkImpl (socket_fd i) (ring_buffer i) (ring_size i) (frame_size i) (frame_count i) n (tpacket_version i)
    (block_size i) (block_count i) (current_block i) (current_packet_in_block i) (packets_remaining_in_block i)
    (impl_stats i) (hw_timestamp_enabled i).
Definition set_block (block packet remaining : Z) (i : Impl) : Impl :=
  mkImpl (socket_fd i) (ring_buffer i) (ring_size i) (frame_size i) (frame_count i) (current_frame i)
    (tpacket_version i) (block_size i) (block_count i) block packet remaining (impl_stats i) (hw_timestamp_enabled i).

(** [stats.packets_received++; stats.bytes_received += len;]. *)
Definition count_packet (len : Z) (i : Impl) : Impl :=
  let s := impl_stats i in
  mkImpl (socket_fd i) (ring_buffer i) (ring_size i) (frame_size i) (frame_count i) (current_frame i)
    (tpacket_version i) (block_size i) (block_count i) (current_block i) (current_packet_in_block i)
    (packets_remaining_in_block i)
    (mkCaptureStats (uint 64 (packets_received s + 1)) (packets_dropped s) (packets_filtered s)
       (uint 64 (bytes_received s + len)))
    (hw_timestamp_enabled i).

(** ** The frames of a V2 ring *)

Section capture.
Context {E : Type} `{!Kernel E}.
Implicit Types c : Capture E.

Definition wait (timeout_ms : Z) (c : Capture E) : Z * Capture E :=
  let out := poll timeout_ms (ring c) (env c) in (out.1, mkCapture (impl c) out.2.1 out.2.2).

Definition frame_at (c : Capture E) : run Frame :=
  match frames (ring c) !! Z.to_nat (current_frame (impl c)) with Some f => Done f | None => Undef end.

Definition frame_ready (f : Frame) : bool := negb (Z.land (tp_status f) TP_STATUS_USER =? 0).

Definition release_frame (f : Frame) : Frame :=
  mkFrame TP_STATUS_KERNEL (tp_snaplen f) (tp_mac f) (tp_sec f) (tp_nsec f) (frame_memory f).

(** [header->tp_status = TP_STATUS_KERNEL] and [(current_frame + 1) % frame_count]. *)
Definition next_frame (c : Capture E) : run (Capture E) :=
  let i := impl c in
  let cur := current_frame i in
  if frame_count i =? 0 then Undef
  else Done (mkCapture (set_current_frame ((cur + 1) mod frame_count i) i)
               (mkRing (alter release_frame (Z.to_nat cur) (frames (ring c))) (blocks (ring c))) (env c)).

Definition frames_memory (r : Ring) : list byte := frames r ≫= frame_memory.

Definition MAX_PACKET_LEN : Z := 65535.

Definition take_frame (c : Capture E) : run (option Packet * Capture E) :=
  header ← frame_at c;
  let data := current_frame (impl c) * frame_size (impl c) + tp_mac header in
  let len := tp_snaplen header in
  if (len =? 0) || (MAX_PACKET_LEN <? len) then c ← next_frame c; Done (None, c)
  else
    ts ← from_unix (tp_sec header) (tp_nsec header);
    bytes ← subspan_count (frames_memory (ring c)) data len;
    c ← next_frame c;
    Done (Some (mkPacket bytes ts), set_impl (count_packet len (impl c)) c).

Definition next_packet_v2 (timeout_ms : Z) (c : Capture E) : run (option Packet * Capture E) :=
  header ← frame_at c;
  if frame_ready header then take_frame c
  else
    let out := wait timeout_ms c in
    if out.1 <=? 0 then Done (None, out.2)
    else
      header ← frame_at out.2;
      if frame_ready header then take_frame out.2 else Done (None, out.2).

(** ** The blocks of a V3 ring *)

Definition block_at (c : Capture E) : run Block :=
  match blocks (ring c) !! Z.to_nat (current_block (impl c)) with Some b => Done b | None => Undef end.

Definition block_ready (b : Block) : bool := negb (Z.land (block_status b) TP_STATUS_USER =? 0).

Definition release_block (b : Block) : Block :=
  mkBlock TP_STATUS_KERNEL (num_pkts b) (offset_to_first_pkt b) (block_memory b).

(** The block goes back to the kernel, and the next one is the current one, with no
    packets remaining in it; the pointer into the block stays. *)
Definition next_block (c : Capture E) : run (Capture E) :=
  let i := impl c in
  let cur := current_block i in
  if block_count i =? 0 then Undef
  else Done (mkCapture (set_block ((cur + 1) mod block_count i) (current_packet_in_block i) 0 i)
               (mkRing (frames (ring c)) (alter release_block (Z.to_nat cur) (blocks (ring c)))) (env c)).

(** The loop of [next_packet_v3], which ends with a block that has packets ([true])
    or because there is none ([false]). *)
Fixpoint find_block (fuel : nat) (timeout_ms : Z) (c : Capture E) : run (bool * Capture E) :=
  match fuel with
  | O => Fail OutOfFuel
  | S fuel' =>
      if negb (packets_remaining_in_block (impl c) =? 0) then Done (true, c)
      else
        bd_hdr ← block_at c;
        let use (c : Capture E) : run (bool * Capture E) :=
          bd_hdr ← block_at c;
          if num_pkts bd_hdr =? 0 then c ← next_block c; find_block fuel' timeout_ms c
          else
            let i := impl c in
            find_block fuel' timeout_ms
              (set_impl (set_block (current_block i) (current_block i * block_size i + offset_to_first_pkt bd_hdr)
                           (num_pkts bd_hdr) i) c) in
        if block_ready bd_hdr then use c
        else
          let out := wait timeout_ms c in
          if out.1 <=? 0 then Done (false, out.2)
          else
            bd_hdr ← block_at out.2;
            if block_ready bd_hdr then use out.2 else Done (false, out.2)
  end.

Definition blocks_memory (r : Ring) : list byte := blocks r ≫= block_memory.

(** The header that [current_packet_in_block] points to. *)
Definition header_at (c : Capture E) : run tpacket3_hdr :=
  bytes ← subspan_count (blocks_memory (ring c)) (current_packet_in_block (impl c)) packet_header_size;
  Done (packet_header bytes).

Definition take_packet (c : Capture E) : run (option Packet * Capture E) :=
  pkt_hdr ← header_at c;
  let i := impl c in
  let len := tp3_snaplen pkt_hdr in
  if (len =? 0) || (block_size i <? len) || (tp3_mac pkt_hdr =? 0)
  then c ← next_block c; Done (None, c)
  else
    ts ← from_unix (tp3_sec pkt_hdr) (tp3_nsec pkt_hdr);
    bytes ← subspan_count (blocks_memory (ring c)) (current_packet_in_block i + tp3_mac pkt_hdr) len;
    let i := count_packet len i in
    let remaining := packets_remaining_in_block i - 1 in
    if (0 <? remaining) && negb (tp3_next_offset pkt_hdr =? 0)
    then Done (Some (mkPacket bytes ts),
               set_impl (set_block (current_block i) (current_packet_in_block i + tp3_next_offset pkt_hdr) remaining i) c)
    else c ← next_block (set_impl i c); Done (Some (mkPacket bytes ts), c).

Definition next_packet_v3 (fuel : nat) (timeout_ms : Z) (c : Capture E) : run (option Packet * Capture E) :=
  found ← find_block fuel timeout_ms c;
  if found.1 : bool then take_packet found.2 else Done (None, found.2).

(** ** The socket, and the capture loop *)

Definition next_packet_socket (timeout_ms : Z) (c : Capture E) : run (option Packet * Capture E) :=
  let out := wait timeout_ms c in
  let c := out.2 in
  if out.1 <=? 0 then Done (None, c)
  else
    let received := recvfrom (env c) in
    match received.1 with
    | None => Done (None, set_env received.2 c)
    | Some bytes =>
        if zlen bytes =? 0 then Done (None, set_env received.2 c)
        else
          let time := now received.2 in
          Done (Some (mkPacket bytes time.1), mkCapture (count_packet (zlen bytes) (impl c)) (ring c) time.2)
    end.

Definition next_packet_impl (fuel : nat) (timeout_ms : Z) (c : Capture E) : run (option Packet * Capture E) :=
  if socket_fd (impl c) <? 0 then Done (None, c)
  else if ring_buffer (impl c) then
    match tpacket_version (impl c) with
    | V3 => next_packet_v3 fuel timeout_ms c
    | V2 => next_packet_v2 timeout_ms c
    end
  else next_packet_socket timeout_ms c.

(** [capture_loop]: the packets it passes to the callback, whose effect is on the
    environment; [running_] is read before every packet.  [fuel] bounds the rounds,
    and [ring_fuel] those of the search for a block. *)
Fixpoint capture_rounds (callback : Packet -> E -> E) (fuel ring_fuel : nat) (timeout_ms max_packets count : Z)
    (c : Capture E) : run (list Packet * Capture E) :=
  match fuel with
  | O => Fail OutOfFuel
  | S fuel' =>
      let flag := stopped (env c) in
      let c := set_env flag.2 c in
      if flag.1 || negb ((max_packets =? 0) || (count <? max_packets)) then Done ([], c)
      else
        out ← next_packet_impl ring_fuel timeout_ms c;
        match out.1 with
        | Some packet =>
            rest ← capture_rounds callback fuel' ring_fuel timeout_ms max_packets (uint 64 (count + 1))
                     (set_env (callback packet (env out.2)) out.2);
            Done (packet :: rest.1, rest.2)
        | None => capture_rounds callback fuel' ring_fuel timeout_ms max_packets count out.2
        end
  end.

Definition capture_loop (callback : Packet -> E -> E) (fuel ring_fuel : nat) (timeout_ms max_packets : Z)
    (c : Capture E) : run (Z * Capture E) :=
  out ← capture_rounds callback fuel ring_fuel timeout_ms max_packets 0 c;
  Done (uint 64 (zlen out.1), out.2).
End capture.

(** ** The V2 ring is a queue *)

(** A frame of [size] bytes that holds a packet. *)
Record holds (size : Z) (p : Packet) (f : Frame) : Prop := {
  holds_ready : frame_ready f = true;
  holds_length : tp_snaplen f = zlen (pk_data p);
  holds_max : zlen (pk_data p) <= MAX_PACKET_LEN;
  holds_sec : fits 32 (tp_sec f);
  holds_nsec : fits 32 (tp_nsec f);
  holds_time : pk_timestamp p = tp_sec f * SECOND + tp_nsec f;
  holds_mac : 0 <= tp_mac f;
  holds_room : tp_mac f + zlen (pk_data p) <= size;
  holds_data : take (length (pk_data p)) (drop (Z.to_nat (tp_mac f)) (frame_memory f)) = pk_data p
}.

(** The kernel keeps a cursor into the frames.  It writes an arriving packet into the
    frame at its cursor if the session does not own that frame, and drops it otherwise. *)
Inductive kernel_step (size : Z) : Ring * nat -> list Packet -> Ring * nat -> Prop :=
| kernel_fills r head p f old :
    frames r !! head = Some old -> frame_ready old = false -> holds size p f -> zlen (frame_memory f) = size ->
    kernel_step size (r, head) [p] (mkRing (<[head := f]> (frames r)) (blocks r), (S head mod length (frames r))%nat)
| kernel_drops r head old :
    frames r !! head = Some old -> frame_ready old = true -> kernel_step size (r, head) [] (r, head).

Inductive kernel_run (size : Z) : Ring * nat -> list Packet -> Ring * nat -> Prop :=
| kernel_idle s : kernel_run size s [] s
| kernel_more s log s1 log' s2 :
    kernel_step size s log s1 -> kernel_run size s1 log' s2 -> kernel_run size s (log ++ log') s2.

(** What the kernel promises of [poll]: while the session waits it takes steps.  [head]
    is its cursor, [arrived] the packets that it has put into the ring so far. *)
Class KernelLaws (E : Type) `{!Kernel E} (size : Z) := {
  head : E -> nat;
  arrived : E -> list Packet;
  poll_runs t r e :
    exists log, kernel_run size (r, head e) log ((poll t r e).2.1, head (poll t r e).2.2) /\
                arrived (poll t r e).2.2 = arrived e ++ log
}.

Section fifo.
Context (size : Z).

(** [pending] is what the ring holds: from the session's cursor on, that many frames
    hold these packets and the others are free; the kernel's cursor is behind them. *)
Record ring_holds (i : Impl) (r : Ring) (h : nat) (pending : list Packet) : Prop := {
  rh_count : frame_count i = zlen (frames r);
  rh_current : 0 <= current_frame i < frame_count i;
  rh_size : frame_size i = size;
  rh_memory : Forall (fun f => zlen (frame_memory f) = size) (frames r);
  rh_head : h = rotate_nat_add (Z.to_nat (current_frame i)) (length pending) (length (frames r));
  rh_frames : exists filled free,
    rotate (Z.to_nat (current_frame i)) (frames r) = filled ++ free /\
    Forall2 (holds size) pending filled /\ Forall (fun f => frame_ready f = false) free
}.

(** The frame at the session's cursor holds the first pending packet, or is free. *)
Lemma ring_holds_front i r h pending :
  ring_holds i r h pending ->
  exists f, frames r !! Z.to_nat (current_frame i) = Some f /\
    match pending with p :: _ => holds size p f | [] => frame_ready f = false end.
Proof.
  intros [Hc Hcur _ _ _ (filled & free & Hrot & Hp & Hf)].
  assert (Hfront : rotate (Z.to_nat (current_frame i)) (frames r) !! 0%nat = frames r !! Z.to_nat (current_frame i))
    by (rewrite lookup_rotate_r, rotate_nat_add_0 by lia; reflexivity).
  rewrite <- Hfront, Hrot. pose proof (f_equal length Hrot) as Hl. rewrite length_rotate, length_app in Hl.
  destruct pending as [|p pending].
  - apply Forall2_nil_inv_l in Hp as ->. destruct free as [|f free]; [cbn in Hl; lia|].
    exists f. split; [reflexivity|]. apply Forall_cons in Hf. apply Hf.
  - apply Forall2_cons_inv_l in Hp as (f & filled' & Hpf & _ & ->). exists f. split; [reflexivity | exact Hpf].
Qed.

Lemma kernel_step_holds i r h r' h' pending log :
  kernel_step size (r, h) log (r', h') -> ring_holds i r h pending -> ring_holds i r' h' (pending ++ log).
Proof.
  intros Hstep Hring. pose proof (ring_holds_front _ _ _ _ Hring) as (f0 & Hf0 & Hfront).
  destruct Hring as [Hc Hcur Hsz Hmem Hh (filled & free & Hrot & Hp & Hf)].
  pose proof (f_equal length Hrot) as Hlr. rewrite length_rotate, length_app in Hlr.
  pose proof (Forall2_length _ _ _ Hp) as Hlp.
  inversion Hstep as [? ? p f old Hold Hnr Hhold Hfm|? ? old Hold Hr]; subst r' h'; subst.
  - assert (Hlt : (length pending < length (frames r))%nat).
    { destruct (decide (length pending < length (frames r))%nat) as [|Hge]; [assumption|exfalso].
      destruct pending as [|p0 pending]; [cbn in Hge; lia|].
      replace (length (p0 :: pending)) with (length (frames r)) in Hold by lia.
      unfold rotate_nat_add in Hold.
      replace (_ mod _) with (current_frame i) in Hold
        by (rewrite Z2Nat.id, <- Z.add_mod_idemp_r, Z_mod_same_full, Z.add_0_r, Z.mod_small by lia; reflexivity).
      rewrite Hold in Hf0. injection Hf0 as ->. pose proof (holds_ready _ _ _ Hfront). congruence. }
    destruct free as [|f1 free]; [cbn in Hlr; lia|].
    split; cbn [frames]; rewrite ?length_insert; try assumption.
    + apply Forall_insert; assumption.
    + rewrite length_app, Nat.add_comm. symmetry. apply rotate_nat_add_S. lia.
    + exists (filled ++ [f]), free. rewrite <- app_assoc. split; [|split].
      * rewrite rotate_insert_l, Hrot, Hlp, insert_app_r_alt, Nat.sub_diag by lia. reflexivity.
      * apply Forall2_app; [exact Hp | constructor; [exact Hhold | constructor]].
      * apply Forall_cons in Hf. apply Hf.
  - rewrite app_nil_r. split; eauto.
Qed.

Lemma kernel_run_holds i s log s' pending :
  kernel_run size s log s' -> ring_holds i s.1 s.2 pending -> ring_holds i s'.1 s'.2 (pending ++ log).
Proof.
  intros Hrun. revert pending. induction Hrun as [s|[r h] log [r1 h1] log' s2 Hs _ IH]; intros pending Hr.
  - rewrite app_nil_r. exact Hr.
  - rewrite app_assoc. apply IH, (kernel_step_holds _ _ _ _ _ _ _ Hs), Hr.
Qed.

(** Releasing the first frame and moving on. *)
Lemma rotate_next {A} (l : list A) n x :
  l !! n = Some x -> rotate (S n mod length l) l = tail (rotate n l) ++ [x].
Proof.
  intros Hx. pose proof (lookup_lt_Some _ _ _ Hx) as Hn. unfold rotate.
  rewrite Nat.Div0.mod_mod, (Nat.mod_small n) by lia.
  rewrite (drop_S l x n Hx). cbn [app tail].
  destruct (decide (S n = length l)) as [E|].
  - rewrite E, Nat.Div0.mod_same, drop_0, drop_ge by lia. cbn [take app].
    rewrite app_nil_r, <- (take_S_r l n x Hx), E, firstn_all. reflexivity.
  - rewrite Nat.mod_small, (take_S_r l n x Hx), app_assoc by lia. reflexivity.
Qed.

Lemma ring_holds_next i r h p pending :
  ring_holds i r h (p :: pending) ->
  ring_holds (set_current_frame ((current_frame i + 1) mod frame_count i) i)
    (mkRing (alter release_frame (Z.to_nat (current_frame i)) (frames r)) (blocks r)) h pending.
Proof.
  intros Hring. pose proof (ring_holds_front _ _ _ _ Hring) as (f & Hf & Hpf).
  destruct Hring as [Hc Hcur Hsz Hmem Hh (filled & free & Hrot & Hp & Hfree)].
  apply Forall2_cons_inv_l in Hp as (f' & filled' & _ & Hp & ->).
  set (n := Z.to_nat (current_frame i)) in *.
  assert (Halter : alter release_frame n (frames r) = <[n := release_frame f]> (frames r)).
  { apply list_eq. intros k. destruct (decide (n = k)) as [<-|Hne].
    - rewrite list_lookup_alter_eq, Hf, list_lookup_insert_eq by (apply lookup_lt_Some in Hf; lia); reflexivity.
    - rewrite list_lookup_alter_ne, list_lookup_insert_ne by assumption. reflexivity. }
  assert (Hz : Z.to_nat ((current_frame i + 1) mod frame_count i) = (S n mod length (frames r))%nat).
  { rewrite Hc. unfold n. rewrite <- (Z2Nat.id (current_frame i)) at 1 by lia.
    replace (Z.of_nat (Z.to_nat (current_frame i)) + 1) with (Z.of_nat (S (Z.to_nat (current_frame i)))) by lia.
    rewrite <- Nat2Z.inj_mod, Nat2Z.id. reflexivity. }
  split; cbn [frames current_frame frame_count frame_size set_current_frame]; rewrite ?length_alter; try assumption.
  - apply Z.mod_pos_bound. lia.
  - rewrite Halter. apply Forall_insert; [exact Hmem|]. cbn [release_frame frame_memory].
    apply (proj1 (Forall_lookup _ _) Hmem _ _ Hf).
  - rewrite Hz, Hh. cbn [length]. rewrite rotate_nat_add_S by lia.
    unfold rotate_nat_add. rewrite <- !Nat2Z.inj_add, <- !Nat2Z.inj_mod, !Nat2Z.id.
    rewrite Nat.Div0.add_mod_idemp_l, <- (Nat.add_1_l (_ mod _)), Nat.Div0.add_mod_idemp_r. f_equal; lia.
  - exists filled', (free ++ [release_frame f]). rewrite Hz. split; [|split; [exact Hp|]].
    + replace (length (frames r)) with (length (alter release_frame n (frames r))) by apply length_alter.
      rewrite (rotate_next _ n (release_frame f))
        by (rewrite list_lookup_alter_eq, Hf; reflexivity).
      rewrite Halter. replace n with (rotate_nat_add n 0 (length (frames r))) at 2
        by (apply rotate_nat_add_0; unfold n; lia).
      rewrite rotate_insert_l, Hrot by lia. cbn. rewrite app_assoc. reflexivity.
    + apply Forall_app. split; [exact Hfree | repeat constructor].
Qed.
End fifo.

(** ** What the session reads *)

Lemma memory_at {A} (memory : A -> list byte) (l : list A) n x size :
  Forall (fun y => zlen (memory y) = size) l -> l !! n = Some x ->
  exists rest, drop (Z.to_nat (Z.of_nat n * size)) (l ≫= memory) = memory x ++ rest.
Proof.
  intros Hl. revert n. induction Hl as [|y l Hy Hl IH]; intros n Hx; [discriminate|].
  destruct n as [|n].
  - injection Hx as <-. rewrite Z.mul_0_l. exists (l ≫= memory). reflexivity.
  - destruct (IH n Hx) as [rest Hr]. exists rest. rewrite <- Hr. change ((y :: l) ≫= memory) with (memory y ++ (l ≫= memory)).
    replace (Z.to_nat (Z.of_nat (S n) * size)) with (length (memory y) + Z.to_nat (Z.of_nat n * size))%nat by nia.
    rewrite <- drop_drop, drop_app_length. reflexivity.
Qed.

(** Reading inside one of the pieces of [size] bytes of a memory. *)
Lemma read_memory {E A} (memory : A -> list byte) (l : list A) (n : Z) x size off len :
  Forall (fun y => zlen (memory y) = size) l -> l !! Z.to_nat n = Some x -> 0 <= n ->
  0 <= off -> 0 <= len -> off + len <= size ->
  subspan_count (E:=E) (l ≫= memory) (n * size + off) len =
    Done (take (Z.to_nat len) (drop (Z.to_nat off) (memory x))).
Proof.
  intros Hl Hx Hn Ho Hlen Hroom. destruct (memory_at memory l _ x size Hl Hx) as [rest Hr].
  rewrite Z2Nat.id in Hr by lia.
  assert (Hz : zlen (memory x) = size) by exact (proj1 (Forall_lookup _ _) Hl _ _ Hx).
  pose proof (f_equal length Hr) as Hlr. rewrite length_drop, length_app in Hlr.
  assert (Hd : drop (Z.to_nat (n * size + off)) (l ≫= memory) = drop (Z.to_nat off) (memory x) ++ rest).
  { rewrite <- drop_drop_Z, Hr, drop_app_le by nia. reflexivity. }
  rewrite subspan_count_in by nia. rewrite Hd, take_app_le by (rewrite length_drop; lia). reflexivity.
Qed.

(** Packets without data are skipped, the others returned. *)
Definition deliverable (p : Packet) : bool := negb (zlen (pk_data p) =? 0).
Definition deliver (p : Packet) : option Packet := if deliverable p then Some p else None.

(** The statistics of a list of returned packets. *)
Definition counts (s : CaptureStats) (ps : list Packet) : Prop :=
  packets_received s = uint 64 (zlen ps) /\ bytes_received s = uint 64 (Z.of_nat (sum_list_with (fun p => length (pk_data p)) ps)).

Lemma counts_snoc i ps p :
  counts (impl_stats i) ps -> counts (impl_stats (count_packet (zlen (pk_data p)) i)) (ps ++ [p]).
Proof.
  intros [Hn Hb]. unfold counts. cbn [count_packet impl_stats packets_received bytes_received].
  rewrite Hn, Hb, !uint_add, length_app, sum_list_with_app. cbn [length sum_list_with]. split; f_equal; lia.
Qed.

Section fifo_reads.
Context {E : Type} `{!Kernel E} (size : Z).

Lemma take_frame_spec (c : Capture E) p pending delivered h :
  ring_holds size (impl c) (ring c) h (p :: pending) -> counts (impl_stats (impl c)) delivered ->
  exists c', take_frame c = Done (deliver p, c') /\ env c' = env c /\
    ring_holds size (impl c') (ring c') h pending /\
    counts (impl_stats (impl c')) (delivered ++ option_list (deliver p)).
Proof.
  intros Hring Hcount. pose proof (ring_holds_front _ _ _ _ _ Hring) as (f & Hf & Hp).
  pose proof (ring_holds_next _ _ _ _ _ _ Hring) as Hnext.
  destruct Hring as [Hc Hcur Hsz Hmem _ _]. destruct Hp as [_ Hl Hmax Hs Hns Ht Hmac Hroom Hdata].
  unfold take_frame, frame_at. rewrite Hf, bind_Done. cbv zeta. rewrite Hl.
  unfold next_frame. rewrite (proj2 (Z.eqb_neq (frame_count (impl c)) 0)) by lia. cbv zeta.
  unfold deliver, deliverable. rewrite (proj2 (Z.ltb_ge _ _) Hmax), orb_false_r.
  destruct (zlen (pk_data p) =? 0) eqn:Hz; cbn [negb].
  - rewrite bind_Done. eexists. split; [reflexivity|]. cbn [env impl ring option_list]. rewrite app_nil_r. auto.
  - rewrite from_unix_small, bind_Done by assumption.
    unfold frames_memory. rewrite Hsz. rewrite (read_memory frame_memory _ _ f) by (assumption || lia).
    rewrite !bind_Done. rewrite Nat2Z.id, Hdata, <- Ht. eexists. split; [destruct p; reflexivity|].
    cbn [env impl ring set_impl option_list]. split; [reflexivity|]. split; [|apply counts_snoc, Hcount].
    destruct Hnext as [? ? ? ? ? ?]. split; assumption.
Qed.

Lemma next_packet_v2_ready (c : Capture E) t p pending h :
  ring_holds size (impl c) (ring c) h (p :: pending) -> next_packet_v2 t c = take_frame c.
Proof.
  intros Hring. pose proof (ring_holds_front _ _ _ _ _ Hring) as (f & Hf & Hp).
  unfold next_packet_v2. replace (frame_at c) with (Done (E:=Unfinished) f) by (unfold frame_at; rewrite Hf; reflexivity).
  rewrite bind_Done, (holds_ready _ _ _ Hp). reflexivity.
Qed.
End fifo_reads.

(** ** The refinement *)

Section fifo_refinement.
Context {E : Type} `{!Kernel E} (size : Z) `{!KernelLaws E size}.

(** The states that a session on a fresh ring can be in, with the packets that its
    calls have returned: between two calls the kernel may write into the ring, and the
    calls have any timeouts. *)
Inductive capture_history : Capture E -> list Packet -> Prop :=
| history_start i r e :
    ring_holds size i r (head e) [] -> impl_stats i = no_stats -> arrived e = [] ->
    capture_history (mkCapture i r e) []
| history_kernel c delivered r e log :
    capture_history c delivered -> kernel_run size (ring c, head (env c)) log (r, head e) ->
    arrived e = arrived (env c) ++ log -> capture_history (mkCapture (impl c) r e) delivered
| history_call c delivered t out c' :
    capture_history c delivered -> next_packet_v2 t c = Done (out, c') ->
    capture_history c' (delivered ++ option_list out).

(** The abstract state: a queue of packets, of which [delivered] have been taken. *)
Definition queue_state (c : Capture E) (delivered pending : list Packet) : Prop :=
  ring_holds size (impl c) (ring c) (head (env c)) pending /\
  List.filter deliverable (arrived (env c)) = delivered ++ List.filter deliverable pending /\
  counts (impl_stats (impl c)) delivered.

Lemma queue_kernel c delivered pending r e log :
  queue_state c delivered pending -> kernel_run size (ring c, head (env c)) log (r, head e) ->
  arrived e = arrived (env c) ++ log -> queue_state (mkCapture (impl c) r e) delivered (pending ++ log).
Proof.
  intros (Hr & Ha & Hc) Hrun He. split; [exact (kernel_run_holds size _ _ _ _ _ Hrun Hr)|]. split; [|exact Hc].
  cbn [env]. rewrite He, !List.filter_app, Ha, app_assoc. reflexivity.
Qed.

(** Taking the first packet of the queue. *)
Lemma queue_take c delivered p pending :
  queue_state c delivered (p :: pending) ->
  exists c', take_frame c = Done (deliver p, c') /\ queue_state c' (delivered ++ option_list (deliver p)) pending.
Proof.
  intros (Hr & Ha & Hc). destruct (take_frame_spec size c p pending delivered _ Hr Hc) as (c' & Ht & He & Hr' & Hc').
  exists c'. split; [exact Ht|]. split; [rewrite He; exact Hr'|]. split; [|exact Hc'].
  rewrite He, Ha. cbn [List.filter]. unfold deliver.
  destruct (deliverable p); cbn [option_list]; rewrite <- ?app_assoc, ?app_nil_r; reflexivity.
Qed.

(** A call on any queue: the first packet if there is one, else the first to arrive
    while the session waits, if any does. *)
Lemma queue_call c delivered pending t :
  queue_state c delivered pending ->
  exists out c' pending', next_packet_v2 t c = Done (out, c') /\
    queue_state c' (delivered ++ option_list out) pending' /\
    match pending with p :: rest => out = deliver p /\ pending' = rest | [] => True end.
Proof.
  intros Hq. destruct pending as [|p pending].
  - pose proof Hq as (Hr & _). destruct (ring_holds_front _ _ _ _ _ Hr) as (f & Hf & Hnr).
    destruct (poll_runs (size := size) t (ring c) (env c)) as (log & Hrun & Harr).
    pose proof (queue_kernel c delivered [] _ _ log Hq Hrun Harr) as Hq'. cbn [app] in Hq'.
    change (mkCapture _ _ _) with (wait t c).2 in Hq'.
    unfold next_packet_v2. replace (frame_at c) with (Done (E:=Unfinished) f) by (unfold frame_at; rewrite Hf; reflexivity).
    rewrite bind_Done, Hnr. cbv zeta.
    destruct ((wait t c).1 <=? 0).
    + exists None, (wait t c).2, log. rewrite app_nil_r. auto.
    + pose proof Hq' as (Hr' & _). destruct (ring_holds_front _ _ _ _ _ Hr') as (f' & Hf' & Hfront).
      replace (frame_at (wait t c).2) with (Done (E:=Unfinished) f') by (unfold frame_at; rewrite Hf'; reflexivity).
      rewrite bind_Done. destruct log as [|p log].
      * rewrite Hfront. exists None, (wait t c).2, []. rewrite app_nil_r. auto.
      * rewrite (holds_ready _ _ _ Hfront). destruct (queue_take _ _ _ _ Hq') as (c' & Ht & Hq'').
        exists (deliver p), c', log. auto.
  - pose proof Hq as (Hr & _). rewrite (next_packet_v2_ready size c t p pending _ Hr).
    destruct (queue_take _ _ _ _ Hq) as (c' & Ht & Hq'). exists (deliver p), c', pending. auto.
Qed.

(** [C24] The V2 ring implements a bounded queue.  Whatever the kernel writes between and
    during the calls, as long as it writes packets that fit their frames at its own
    cursor and drops those for which the session has left no frame, every call
    returns without reading outside the ring; the packets returned are, in order and
    once each, the packets with data that the kernel has put into the ring, up to
    those that the ring still holds; a call takes the oldest of these; and the
    statistics count what has been returned, modulo 2^64. *)
Theorem ring_v2_fifo (c : Capture E) (delivered : list Packet) (Hc : capture_history c delivered) :
  exists pending,
    ring_holds size (impl c) (ring c) (head (env c)) pending /\
    List.filter deliverable (arrived (env c)) = delivered ++ List.filter deliverable pending /\
    counts (impl_stats (impl c)) delivered /\
    forall t, exists out c', next_packet_v2 t c = Done (out, c') /\
      match pending with p :: _ => out = deliver p | [] => True end.
Proof.
  assert (Hq : exists pending, queue_state c delivered pending).
  { induction Hc as [i r e Hr Hs Ha|c delivered r e log _ [pending IH] Hrun He|c delivered t out c' _ [pending IH] Hcall].
    - exists []. split; [exact Hr|]. split; [cbn [env]; rewrite Ha; reflexivity|].
      cbn [impl]. rewrite Hs. split; reflexivity.
    - exists (pending ++ log). apply queue_kernel with (c := c); assumption.
    - destruct (queue_call c delivered pending t IH) as (out' & c1 & pending' & Hcall' & Hq' & _).
      rewrite Hcall in Hcall'. apply Done_pair_inj in Hcall' as [-> ->]. exists pending'. exact Hq'. }
  destruct Hq as [pending Hq]. exists pending. pose proof Hq as (Hr & Ha & Hcnt).
  split; [exact Hr|]. split; [exact Ha|]. split; [exact Hcnt|]. intros t.
  destruct (queue_call c delivered pending t Hq) as (out & c' & pending' & Hcall & _ & Hout).
  exists out, c'. split; [exact Hcall|]. destruct pending; [exact I | apply Hout].
Qed.
End fifo_refinement.

(** ** A kernel

    One that writes at most one of the packets it has ready while the session waits,
    into frames of 64 bytes, with the data behind 32 bytes of header. *)
Record SampleKernel := mkSampleKernel { k_head : nat; k_arrived : list Packet; k_incoming : list Packet }.

Definition sample_frame (p : Packet) : Frame :=
  mkFrame TP_STATUS_USER (zlen (pk_data p)) 32 (pk_timestamp p / SECOND) (pk_timestamp p mod SECOND)
    (replicate 32 x00 ++ pk_data p ++ replicate (32 - length (pk_data p)) x00).

Definition sample_fits (p : Packet) : bool :=
  (zlen (pk_data p) <=? 32) && (0 <=? pk_timestamp p) && (pk_timestamp p <? 2 ^ 32 * SECOND).

Definition sample_poll (r : Ring) (k : SampleKernel) : Z * (Ring * SampleKernel) :=
  match k_incoming k, frames r !! k_head k with
  | p :: rest, Some old =>
      if sample_fits p && negb (frame_ready old)
      then (1, (mkRing (<[k_head k := sample_frame p]> (frames r)) (blocks r),
                mkSampleKernel (S (k_head k) mod length (frames r))%nat (k_arrived k ++ [p]) rest))
      else (0, (r, mkSampleKernel (k_head k) (k_arrived k) rest))
  | _, _ => (0, (r, k))
  end.

#[local] Instance sample_kernel : Kernel SampleKernel := {
  poll t r k := sample_poll r k;
  recvfrom k := (None, k);
  now k := (0, k);
  stopped k := (false, k);
  packet_header_size := 28;
  packet_header b := mkTpacket3 0 0 0 (zlen b) 0
}.

Lemma sample_frame_holds p : sample_fits p = true -> holds 64 p (sample_frame p) /\ zlen (frame_memory (sample_frame p)) = 64.
Proof.
  unfold sample_fits. intros H. bool_to_prop. assert (Hl : (length (pk_data p) <= 32)%nat) by lia. unfold sample_frame. split.
  - split; cbn [tp_snaplen tp_sec tp_nsec tp_mac frame_memory]; try reflexivity; unfold MAX_PACKET_LEN, fits, SECOND in *;
      try lia.
    change (Z.to_nat 32) with 32%nat. rewrite drop_app_length' by (rewrite length_replicate; reflexivity).
    rewrite take_app_length. reflexivity.
  - cbn [frame_memory]. rewrite !length_app, !length_replicate. lia.
Qed.

#[local] Instance sample_kernel_laws : KernelLaws SampleKernel 64.
Proof.
  refine {| head := k_head; arrived := k_arrived |}. intros t r k. cbn [poll sample_kernel]. unfold sample_poll.
  destruct (k_incoming k) as [|p rest]; [exists []; rewrite app_nil_r; split; [apply kernel_idle | reflexivity]|].
  destruct (frames r !! k_head k) as [old|] eqn:Ho; [|exists []; rewrite app_nil_r; split; [apply kernel_idle | reflexivity]].
  destruct (sample_fits p && negb (frame_ready old)) eqn:E.
  - bool_to_prop. exists [p]. split; [|reflexivity]. rewrite <- (app_nil_r [p]).
    eapply kernel_more; [|apply kernel_idle]. cbn [fst snd k_head].
    destruct (sample_frame_holds p) as [Hh Hm]; [assumption|].
    eapply kernel_fills; eassumption.
  - exists []. rewrite app_nil_r. split; [apply kernel_idle | reflexivity].
Defined.

Definition sample_packet : Packet := mkPacket [xde; xad; xbe; xef] 1700000000000000001.

(** A session on two free frames, and a packet on its way. *)
Definition sample_capture : Capture SampleKernel :=
  mkCapture (mkImpl 3 true 128 64 2 0 V2 0 0 0 0 0 no_stats false)
    (mkRing (replicate 2 (mkFrame 0 0 0 0 0 (replicate 64 x00))) []) (mkSampleKernel 0 [] [sample_packet]).

Lemma ring_v2_fifo_witness :
  exists c', next_packet_v2 100 sample_capture = Done (Some sample_packet, c') /\
    packets_received (impl_stats (impl c')) = 1 /\
    exists pending, List.filter deliverable (arrived (size := 64) (env c')) =
      [sample_packet] ++ List.filter deliverable pending.
Proof.
  destruct (next_packet_v2 100 sample_capture) as [[out c']|u|] eqn:E; [|exfalso; revert E; vm_compute; discriminate ..].
  assert (Hout : out = Some sample_packet).
  { apply (f_equal (fun m => match m with Done (o, _) => o | _ => None end)) in E. revert E. vm_compute. congruence. }
  subst out. exists c'. split; [reflexivity|].
  destruct (ring_v2_fifo 64 c' [sample_packet]) as (pending & _ & Ha & (Hn & _) & _).
  - apply (history_call 64 sample_capture [] 100 (Some sample_packet) c'); [|exact E].
    apply history_start; [|reflexivity | reflexivity].
    split; try reflexivity; try (cbn; lia); [repeat constructor|].
    exists [], (frames (ring sample_capture)). split; [reflexivity|]. repeat constructor.
  - split; [exact Hn | exists pending; exact Ha].
Defined.

(** ** The V3 ring returns whole blocks *)

Section blocks_read.
Context {E : Type} `{!Kernel E}.

(** In the bytes of a block, a packet behind its header at [pos]. *)
Record packet_at (memory : list byte) (pos : Z) (h : tpacket3_hdr) (p : Packet) : Prop := {
  at_pos : 0 <= pos;
  at_header_size : 0 <= packet_header_size;
  at_header_room : pos + packet_header_size <= zlen memory;
  at_header : packet_header (take (Z.to_nat packet_header_size) (drop (Z.to_nat pos) memory)) = h;
  at_length : tp3_snaplen h = zlen (pk_data p);
  at_not_empty : 0 < zlen (pk_data p);
  at_mac : 0 < tp3_mac h;
  at_room : pos + tp3_mac h + zlen (pk_data p) <= zlen memory;
  at_data : take (length (pk_data p)) (drop (Z.to_nat (pos + tp3_mac h)) memory) = pk_data p;
  at_sec : fits 32 (tp3_sec h);
  at_nsec : fits 32 (tp3_nsec h);
  at_time : pk_timestamp p = tp3_sec h * SECOND + tp3_nsec h
}.

(** Packets linked by the offsets in their headers, the last of which may be anything. *)
Inductive chain (memory : list byte) : Z -> list Packet -> Prop :=
| chain_last pos h p : packet_at memory pos h p -> chain memory pos [p]
| chain_more pos h p p' ps :
    packet_at memory pos h p -> tp3_next_offset h <> 0 -> chain memory (pos + tp3_next_offset h) (p' :: ps) ->
    chain memory pos (p :: p' :: ps).

(** A ring of blocks of the size that the session was told, and the current one. *)
Record wf_blocks (c : Capture E) (b : Block) : Prop := {
  wfb_count : block_count (impl c) = zlen (blocks (ring c));
  wfb_current : 0 <= current_block (impl c) < block_count (impl c);
  wfb_size : Forall (fun b => zlen (block_memory b) = block_size (impl c)) (blocks (ring c));
  wfb_block : blocks (ring c) !! Z.to_nat (current_block (impl c)) = Some b
}.

(** The block given back, and the session at the start of the next one, with [ps] counted. *)
Definition block_done (c c' : Capture E) (delivered ps : list Packet) : Prop :=
  blocks (ring c') = alter release_block (Z.to_nat (current_block (impl c))) (blocks (ring c)) /\
  frames (ring c') = frames (ring c) /\ env c' = env c /\
  current_block (impl c') = (current_block (impl c) + 1) mod block_count (impl c) /\
  packets_remaining_in_block (impl c') = 0 /\ block_count (impl c') = block_count (impl c) /\
  block_size (impl c') = block_size (impl c) /\
  counts (impl_stats (impl c')) (delivered ++ ps).

Lemma header_at_block c b pos h p :
  wf_blocks c b -> packet_at (block_memory b) pos h p ->
  current_packet_in_block (impl c) = current_block (impl c) * block_size (impl c) + pos ->
  header_at c = Done h.
Proof.
  intros [Hc Hcur Hsz Hb] [Hp Hhs Hhr Hh _ _ _ _ _ _ _ _] Hptr.
  pose proof (proj1 (Forall_lookup _ _) Hsz _ _ Hb) as Hl. cbv beta in Hl.
  unfold header_at, blocks_memory. rewrite Hptr, (read_memory block_memory _ _ b) by (assumption || lia).
  rewrite bind_Done, Hh. reflexivity.
Qed.

Lemma data_at_block c b pos h p :
  wf_blocks c b -> packet_at (block_memory b) pos h p ->
  current_packet_in_block (impl c) = current_block (impl c) * block_size (impl c) + pos ->
  subspan_count (E:=Unfinished) (blocks_memory (ring c)) (current_packet_in_block (impl c) + tp3_mac h) (tp3_snaplen h) =
    Done (pk_data p).
Proof.
  intros [Hc Hcur Hsz Hb] [Hp _ _ _ Hlen Hne Hm Hr Hd _ _ _] Hptr.
  pose proof (proj1 (Forall_lookup _ _) Hsz _ _ Hb) as Hl. cbv beta in Hl.
  unfold blocks_memory. rewrite Hptr, <- Z.add_assoc, Hlen, (read_memory block_memory _ _ b) by (assumption || lia).
  rewrite Nat2Z.id, Hd. reflexivity.
Qed.

(** One packet of a chain. *)
Lemma take_packet_chain c b pos p ps delivered :
  wf_blocks c b -> chain (block_memory b) pos (p :: ps) ->
  current_packet_in_block (impl c) = current_block (impl c) * block_size (impl c) + pos ->
  packets_remaining_in_block (impl c) = zlen (p :: ps) -> counts (impl_stats (impl c)) delivered ->
  exists c', take_packet c = Done (Some p, c') /\
    match ps with
    | [] => block_done c c' delivered [p]
    | p' :: ps' => ring c' = ring c /\ env c' = env c /\ wf_blocks c' b /\ current_block (impl c') = current_block (impl c) /\
        block_count (impl c') = block_count (impl c) /\ block_size (impl c') = block_size (impl c) /\
        packets_remaining_in_block (impl c') = zlen (p' :: ps') /\ counts (impl_stats (impl c')) (delivered ++ [p]) /\
        exists pos', chain (block_memory b) pos' (p' :: ps') /\
          current_packet_in_block (impl c') = current_block (impl c) * block_size (impl c) + pos'
    end.
Proof.
  intros Hwf Hchain Hptr Hrem Hcount.
  assert (Hat : exists h, packet_at (block_memory b) pos h p /\
    match ps with [] => True | _ => tp3_next_offset h <> 0 /\ chain (block_memory b) (pos + tp3_next_offset h) ps end)
    by (inversion Hchain; subst; eauto).
  destruct Hat as (h & Hat & Hmore). unfold take_packet.
  rewrite (header_at_block c b pos h p Hwf Hat Hptr), bind_Done. cbv zeta.
  pose proof (data_at_block c b pos h p Hwf Hat Hptr) as Hdata.
  pose proof Hwf as [Hc Hcur Hsz Hb]. pose proof (proj1 (Forall_lookup _ _) Hsz _ _ Hb) as Hl. cbv beta in Hl.
  destruct Hat as [Hp _ _ _ Hlen Hne Hm Hr _ Hs Hns Ht].
  rewrite (proj2 (Z.eqb_neq (tp3_snaplen h) 0)), (proj2 (Z.ltb_ge (block_size (impl c)) _)),
    (proj2 (Z.eqb_neq (tp3_mac h) 0)) by lia. cbn [orb].
  rewrite from_unix_small, bind_Done, Hdata, bind_Done, <- Ht, Hlen by assumption.
  cbn [count_packet packets_remaining_in_block]. rewrite Hrem. destruct ps as [|p' ps].
  - change (0 <? zlen [p] - 1) with false. cbn [andb]. unfold next_block.
    cbn [set_impl impl count_packet block_count]. rewrite (proj2 (Z.eqb_neq (block_count (impl c)) 0)), bind_Done by lia.
    eexists. split; [destruct p; reflexivity|]. unfold block_done.
    cbn [impl ring env blocks frames set_block current_block packets_remaining_in_block block_count block_size count_packet].
    split_and!; try reflexivity; apply (counts_snoc _ _ _ Hcount).
  - destruct Hmore as [Hno Hchain']. rewrite (proj2 (Z.ltb_lt 0 _)), (proj2 (Z.eqb_neq _ _) Hno) by (cbn [length]; lia).
    cbn [andb negb]. eexists. split; [destruct p; reflexivity|].
    cbn [set_impl impl ring env set_block count_packet current_block block_count block_size
      packets_remaining_in_block current_packet_in_block].
    split_and!; try reflexivity; try (cbn [length]; lia); try apply (counts_snoc _ _ _ Hcount).
    + split; assumption.
    + exists (pos + tp3_next_offset h). split; [exact Hchain' | lia].
Qed.

(** Successive calls. *)
Fixpoint next_packets (n fuel : nat) (timeout_ms : Z) (c : Capture E) : run (list (option Packet) * Capture E) :=
  match n with
  | O => Done ([], c)
  | S n' =>
      out ← next_packet_v3 fuel timeout_ms c;
      rest ← next_packets n' fuel timeout_ms out.2;
      Done (out.1 :: rest.1, rest.2)
  end.

Lemma find_block_inside fuel t c :
  (0 < fuel)%nat -> packets_remaining_in_block (impl c) <> 0 -> find_block fuel t c = Done (true, c).
Proof. intros Hf Hr. destruct fuel; [lia|]. cbn [find_block]. rewrite (proj2 (Z.eqb_neq _ _) Hr). reflexivity. Qed.

(** The rest of a block that has been entered. *)
Lemma next_packets_chain ps fuel t c b pos p delivered :
  (0 < fuel)%nat -> wf_blocks c b -> chain (block_memory b) pos (p :: ps) ->
  current_packet_in_block (impl c) = current_block (impl c) * block_size (impl c) + pos ->
  packets_remaining_in_block (impl c) = zlen (p :: ps) -> counts (impl_stats (impl c)) delivered ->
  exists c', next_packets (length (p :: ps)) fuel t c = Done (Some <$> p :: ps, c') /\ block_done c c' delivered (p :: ps).
Proof.
  intros Hf. revert c pos p delivered.
  induction ps as [|p' ps IH]; intros c pos p delivered Hwf Hchain Hptr Hrem Hcount;
    destruct (take_packet_chain c b pos p _ delivered Hwf Hchain Hptr Hrem Hcount) as (c1 & Ht & H1);
    cbn [length next_packets]; unfold next_packet_v3;
    rewrite find_block_inside, bind_Done by (assumption || (cbn [length] in Hrem; lia)); cbn [fst snd]; rewrite Ht, bind_Done;
    cbn [fst snd].
  - cbn [next_packets]. rewrite bind_Done. exists c1. split; [reflexivity | exact H1].
  - destruct H1 as (Hring & Henv & Hwf1 & Hcb & Hbc & Hbs & Hrem1 & Hcount1 & pos' & Hchain1 & Hptr1).
    destruct (IH c1 pos' p' (delivered ++ [p]) Hwf1 Hchain1) as (c2 & Hn & Hdone); try assumption; [congruence|].
    exists c2. change (next_packets (length (p' :: ps)) fuel t c1) with (next_packets (S (length ps)) fuel t c1) in Hn.
    cbn [next_packets] in Hn. unfold next_packet_v3 in Hn. rewrite Hn, bind_Done. split; [reflexivity|].
    destruct Hdone as (Hb & Hfr & He & Hcb2 & Hr2 & Hbc2 & Hbs2 & Hc2). unfold block_done.
    rewrite <- app_assoc in Hc2. cbn [app] in Hc2. rewrite Hring in Hb, Hfr. rewrite Hcb, ?Hbc in *.
    split_and!; congruence.
Qed.

(** A block of the V3 ring is returned whole.  When the session is between blocks and
    the current block is ready, with packets linked by the offsets in their headers,
    each behind its header and inside the block, as many calls as there are packets
    return them in order, without waiting and without reading outside the ring; then
    the block, and no other, has been given back, the next block is the current one,
    and the packets are counted. *)
Theorem ring_v3_block (c : Capture E) (b : Block) (fuel : nat) (t : Z) (p : Packet) (ps delivered : list Packet)
    (Hf : (2 <= fuel)%nat) (Hwf : wf_blocks c b) (Hready : block_ready b = true)
    (Hnum : num_pkts b = zlen (p :: ps)) (Hchain : chain (block_memory b) (offset_to_first_pkt b) (p :: ps))
    (Hrem : packets_remaining_in_block (impl c) = 0) (Hcount : counts (impl_stats (impl c)) delivered) :
  exists c', next_packets (length (p :: ps)) fuel t c = Done (Some <$> p :: ps, c') /\
             block_done c c' delivered (p :: ps).
Proof.
  set (c1 := set_impl (set_block (current_block (impl c))
    (current_block (impl c) * block_size (impl c) + offset_to_first_pkt b) (num_pkts b) (impl c)) c).
  assert (Hwf1 : wf_blocks c1 b) by (destruct Hwf; split; assumption).
  destruct (next_packets_chain ps fuel t c1 b (offset_to_first_pkt b) p delivered) as (c' & Hn & Hdone);
    try assumption; try reflexivity; [lia|].
  exists c'. split; [|exact Hdone]. rewrite <- Hn. cbn [length next_packets]. unfold next_packet_v3.
  rewrite (find_block_inside fuel t c1) by (lia || (cbn [c1 set_impl impl set_block packets_remaining_in_block]; rewrite Hnum; cbn [length]; lia)).
  replace (find_block fuel t c) with (Done (E:=Unfinished) (true, c1)); [reflexivity|].
  destruct fuel as [|[|fuel]]; [lia | lia|]. cbn [find_block]. rewrite Hrem. cbn [Z.eqb negb].
  assert (Hb : block_at c = Done b) by (unfold block_at; rewrite (wfb_block _ _ Hwf); reflexivity).
  rewrite Hb, bind_Done. cbv beta zeta. rewrite Hready, bind_Done.
  rewrite (proj2 (Z.eqb_neq (num_pkts b) 0)) by (rewrite Hnum; cbn [length]; lia). cbv zeta. fold c1.
  cbn [c1 set_impl impl set_block packets_remaining_in_block]. rewrite Hnum. reflexivity.
Qed.
End blocks_read.

(** ** Ends and errors *)

Definition ready_blocks (r : Ring) : nat := length (List.filter block_ready (blocks r)).

Lemma release_ready (l : list Block) n b :
  l !! n = Some b -> block_ready b = true ->
  length (List.filter block_ready l) = S (length (List.filter block_ready (alter release_block n l))).
Proof.
  revert n. induction l as [|b0 l IH]; intros n Hb Hr; [discriminate|]. destruct n as [|n].
  - injection Hb as ->. cbn. rewrite Hr. reflexivity.
  - cbn in Hb |- *. destruct (block_ready b0); cbn [length]; rewrite (IH n Hb Hr); reflexivity.
Qed.

Section ends.
Context {E : Type} `{!Kernel E}.

(** [count] blocks, the current one among them. *)
Definition in_ring (c : Capture E) : Prop :=
  block_count (impl c) = zlen (blocks (ring c)) /\ 0 <= current_block (impl c) < block_count (impl c).

Lemma block_at_in_ring c : in_ring c -> exists b, blocks (ring c) !! Z.to_nat (current_block (impl c)) = Some b /\ block_at c = Done b.
Proof.
  intros [Hc Hcur]. destruct (lookup_in_range (blocks (ring c)) (current_block (impl c)) ltac:(lia)) as [b Hb].
  exists b. unfold block_at. rewrite Hb. auto.
Qed.

Lemma next_block_in_ring c b :
  in_ring c -> blocks (ring c) !! Z.to_nat (current_block (impl c)) = Some b -> block_ready b = true ->
  exists c', next_block c = Done c' /\ in_ring c' /\ S (ready_blocks (ring c')) = ready_blocks (ring c).
Proof.
  intros [Hc Hcur] Hb Hr. unfold next_block. rewrite (proj2 (Z.eqb_neq _ _)) by lia.
  eexists. split; [reflexivity|]. split.
  - split; cbn [impl ring blocks set_block block_count current_block]; rewrite ?length_alter; [exact Hc|].
    apply Z.mod_pos_bound. lia.
  - unfold ready_blocks. cbn [ring blocks]. symmetry. apply (release_ready _ _ _ Hb Hr).
Qed.

(** The search for a block with packets ends.  It gives every ready block without
    packets back to the kernel, so unless the kernel makes blocks ready while the
    session waits, as many rounds as there are ready blocks, and two more, are
    enough; the search stays inside the ring. *)
Theorem ring_v3_search_ends (quiet : forall t r e, (poll t r e).2.1 = r) (c : Capture E) (t : Z) (fuel : nat) :
  in_ring c -> (ready_blocks (ring c) + 2 <= fuel)%nat -> total (find_block fuel t c).
Proof.
  revert c. induction fuel as [|fuel IH]; intros c Hin Hfuel; [lia|]. cbn [find_block].
  destruct (packets_remaining_in_block (impl c) =? 0) eqn:Hrem; cbn [negb]; [|apply total_Done].
  destruct (block_at_in_ring c Hin) as (b & Hl & Hb). rewrite Hb, bind_Done. cbv zeta beta.
  assert (Huse : forall c', ring c' = ring c -> impl c' = impl c -> block_ready b = true ->
    total (bd_hdr ← block_at c';
           if num_pkts bd_hdr =? 0 then c' ← next_block c'; find_block fuel t c'
           else find_block fuel t
             (set_impl (set_block (current_block (impl c')) (current_block (impl c') * block_size (impl c') + offset_to_first_pkt bd_hdr)
                (num_pkts bd_hdr) (impl c')) c'))).
  { intros c' Hr Hi Hready. unfold block_at. rewrite Hr, Hi, Hl, bind_Done.
    assert (Hin' : in_ring c') by (unfold in_ring; rewrite Hr, Hi; exact Hin).
    destruct (num_pkts b =? 0) eqn:Hn.
    - destruct (next_block_in_ring c' b) as (c2 & E2 & Hin2 & Hless); [assumption | rewrite Hr, Hi; assumption | assumption|].
      rewrite E2, bind_Done. apply IH; [exact Hin2|]. rewrite Hr in Hless. lia.
    - rewrite find_block_inside; [apply total_Done | |].
      + lia.
      + cbn [set_impl impl set_block packets_remaining_in_block]. bool_to_prop. assumption. }
  destruct (block_ready b) eqn:Hready.
  { specialize (Huse c eq_refl eq_refl eq_refl). rewrite Hb in Huse. exact Huse. }
  destruct ((wait t c).1 <=? 0); [apply total_Done|].
  assert (Hw : block_at (wait t c).2 = Done b).
  { unfold block_at, wait. cbn [snd impl ring]. rewrite quiet, Hl. reflexivity. }
  rewrite Hw, bind_Done, Hready. apply total_Done.
Qed.

(** A header without data, with more data than a block holds or without an offset to
    it ends its block: the session gives the block back with all packets that are
    still in it, and returns none. *)
Theorem ring_v3_bad_header (c : Capture E) (h : tpacket3_hdr) (delivered : list Packet) :
  header_at c = Done h -> in_ring c -> counts (impl_stats (impl c)) delivered ->
  tp3_snaplen h = 0 \/ block_size (impl c) < tp3_snaplen h \/ tp3_mac h = 0 ->
  exists c', take_packet c = Done (None, c') /\ block_done c c' delivered [].
Proof.
  intros Hh [Hc Hcur] Hcount Hbad. unfold take_packet. rewrite Hh, bind_Done. cbv zeta.
  replace (_ || _) with true.
  - unfold next_block. rewrite (proj2 (Z.eqb_neq _ _)), bind_Done by lia.
    eexists. split; [reflexivity|]. unfold block_done. rewrite app_nil_r. split_and!; try reflexivity; apply Hcount.
  - symmetry. destruct Hbad as [-> | [Hbad | ->]]; [reflexivity | | rewrite Z.eqb_refl, orb_true_r; reflexivity].
    rewrite (proj2 (Z.ltb_lt _ _) Hbad), orb_true_r. reflexivity.
Qed.

Lemma capture_rounds_count (callback : Packet -> E -> E) fuel ring_fuel t max count (c : Capture E) ps c' :
  capture_rounds callback fuel ring_fuel t max count c = Done (ps, c') -> 0 < max < 2 ^ 64 -> 0 <= count <= max ->
  count + zlen ps <= max /\ (count + zlen ps = max \/ exists e, stopped e = (true, env c')).
Proof.
  revert count c ps c'. induction fuel as [|fuel IH]; intros count c ps c' H Hmax Hcount; [discriminate|].
  cbn [capture_rounds] in H. cbv zeta in H. destruct (stopped (env c)) as [flag e] eqn:Es. cbn [fst snd] in H.
  destruct flag; [|rewrite (proj2 (Z.eqb_neq max 0)) in H by lia; cbn [orb] in H].
  { apply Done_pair_inj in H as [<- <-]. cbn [length set_env env]. split; [lia|]. right. exists (env c). exact Es. }
  destruct (count <? max) eqn:Hlt; cbn [negb] in H; bool_to_prop.
  - apply bind_inv in H as ([out c1] & Hn & H). cbn [fst snd] in H. destruct out as [p|].
    + apply bind_inv in H as ([rest c2] & Hrest & H). apply Done_pair_inj in H as [<- <-].
      rewrite uint_small in Hrest by (unfold fits; lia).
      destruct (IH _ _ _ _ Hrest Hmax) as [Hle Hend]; [lia|]. cbn [length fst snd].
      split; [lia|]. destruct Hend as [Hend|Hend]; [left; lia | right; exact Hend].
    + apply (IH _ _ _ _ H Hmax). lia.
  - apply Done_pair_inj in H as [<- <-]. cbn [length]. split; [lia | left; lia].
Qed.

(** A capture loop with a limit calls back at most that often, returns the number of
    its calls, and returns below the limit only when it has read that it was stopped. *)
Theorem capture_loop_limit (callback : Packet -> E -> E) fuel ring_fuel t max (c : Capture E) n c' :
  capture_loop callback fuel ring_fuel t max c = Done (n, c') -> 0 < max < 2 ^ 64 ->
  0 <= n <= max /\ (n < max -> exists e, stopped e = (true, env c')) /\
  exists ps, capture_rounds callback fuel ring_fuel t max 0 c = Done (ps, c') /\ zlen ps = n.
Proof.
  intros H Hmax. unfold capture_loop in H. apply bind_inv in H as ([ps c1] & Hr & H).
  apply Done_pair_inj in H as [<- <-].
  destruct (capture_rounds_count _ _ _ _ _ _ _ _ _ Hr Hmax) as [Hle Hend]; [lia|].
  cbn [fst snd] in *. rewrite uint_small by (unfold fits; lia).
  split; [lia|]. split; [intros Hlt; destruct Hend; [lia | assumption]|]. exists ps. auto.
Qed.
End ends.
