(* ===== verification/World.v ===== *)
(** * Computations on a world

    The parts of the program that talk to the operating system and to libpcap are
    functions on a world [W], whose operations are parameters.  [io] is the monad of
    such functions, which may be undefined; [outcome] is [Result<T>] of
    include/wadjet/core/result.hpp, an error or a value. *)

From Stdlib Require Import ZArith Lia.
From Stdlib Require Import Strings.Byte.
From stdpp Require Import base numbers list strings.
From S2P Require Import Prelude.
From S2P Require Import Pcap.

(** ** The monad *)

Abbreviation defined_or := (res Empty_set).
Definition io (W A : Type) : Type := W -> defined_or (A * W).
#[global] Instance io_ret {W} : MRet (io W) := fun A a w => Done (a, w).
#[global] Instance io_bind {W} : MBind (io W) := fun A B k m w =>
  match m w with Done (a, w) => k a w | Fail e => Fail e | Undef => Undef end.

Section io.
Context {W : Type}.

Definition call {A} (f : W -> A * W) : io W A := fun w => Done (f w).
Definition undefined {A} : io W A := fun _ => Undef.

(** [*p] and [p->x] of a pointer that may be null. *)
Definition deref {A} (p : option A) : io W A := match p with Some a => mret a | None => undefined end.

(** A computation that may be undefined for other reasons. *)
Definition lift {A} (m : defined_or A) : io W A := fun w => a ← m; Done (a, w).

Lemma bind_call {A B} (f : W -> A * W) (k : A -> io W B) w : (call f ≫= k) w = k (f w).1 (f w).2.
Proof. unfold mbind, io_bind, call. destruct (f w); reflexivity. Qed.

Lemma bind_ret {A B} (a : A) (k : A -> io W B) w : (mret a ≫= k) w = k a w.
Proof. reflexivity. Qed.

Lemma bind_undefined {A B} (k : A -> io W B) w : (undefined ≫= k) w = Undef.
Proof. reflexivity. Qed.

Lemma bind_undef {A B} (m : io W A) (k : A -> io W B) w : m w = Undef -> (m ≫= k) w = Undef.
Proof. intros H. unfold mbind, io_bind. rewrite H. reflexivity. Qed.

Lemma bind_done {A B} (m : io W A) (k : A -> io W B) w a w' : m w = Done (a, w') -> (m ≫= k) w = k a w'.
Proof. intros H. unfold mbind, io_bind. rewrite H. reflexivity. Qed.

Lemma bind_done_inv {A B} (m : io W A) (k : A -> io W B) w b w' :
  (m ≫= k) w = Done (b, w') -> exists a w1, m w = Done (a, w1) /\ k a w1 = Done (b, w').
Proof. unfold mbind, io_bind. destruct (m w) as [[a w1]|e|]; intros H; [eauto | discriminate | discriminate]. Qed.

Lemma deref_inv {A} (p : option A) (w : W) a w' : deref p w = Done (a, w') -> p = Some a /\ w' = w.
Proof. destruct p; [|discriminate]. cbn [deref]. intros H. apply Done_pair_inj in H as [-> ->]. auto. Qed.

Lemma call_inv {A} (f : W -> A * W) w a w' : call f w = Done (a, w') -> f w = (a, w').
Proof. intros H. injection H as H. exact H. Qed.

Lemma lift_inv {A} (m : defined_or A) (w : W) a w' : lift m w = Done (a, w') -> m = Done a /\ w' = w.
Proof. unfold lift. destruct m; [|discriminate|discriminate]. intros H. apply Done_pair_inj in H as [-> ->]. auto. Qed.
End io.

(** ** Results *)

Definition outcome (A : Type) : Type := Error + A.
Definition err {A} (code : Z) (message : string) : outcome A := inl (mkError code message).
Definition ok {A} (a : A) : outcome A := inr a.

(** ** The operating system *)

(** [AF_PACKET] raw sockets, and [AF_INET] datagram sockets for the queries. *)
Inductive SocketKind := PacketSocket | DatagramSocket.

(** File descriptors. *)
Class Descriptors (W : Type) := {
  errno : W -> Z * W;
  socket : SocketKind -> W -> Z * W;
  close : Z -> W -> unit * W
}.

(** [std::strncpy(ifr.ifr_name, name.c_str(), IFNAMSIZ - 1)] into zeros: the name up to
    its first NUL, and no more than 15 characters of it. *)
Fixpoint ifr_name_go (room : nat) (name : string) : string :=
  match room, name with
  | S room', String c name' => if Ascii.eqb c Ascii.zero then "" else String c (ifr_name_go room' name')
  | _, _ => ""
  end.
Definition ifr_name : string -> string := ifr_name_go 15.

(** ** libpcap *)

(** [pcap_pkthdr]; what the field [tv_usec] counts depends on the precision of the handle. *)
Record pcap_pkthdr := mkPkthdr { tv_sec : Z; tv_usec : Z; caplen : Z }.

(** The settings that a handle takes before it is activated. *)
Inductive Setting := Snaplen (n : Z) | Promisc (n : Z) | Timeout (n : Z) | BufferSize (n : Z) | TstampPrecision (n : Z).
Definition PCAP_TSTAMP_PRECISION_NANO : Z := 1.

Record pcap_stat := mkPcapStat { ps_drop : Z; ps_ifdrop : Z }.

(** Handles are numbers, compiled programs have a type of their own.  [is_open] is
    whether a handle may be used; [pcap_loop] calls back with the packets. *)
Class Libpcap (W : Type) := {
  bpf_program : Type;
  is_open : Z -> W -> bool;
  pcap_create : string -> W -> (string + Z) * W;
  pcap_open_offline : string -> W -> (string + Z) * W;
  pcap_open_offline_with_tstamp_precision : string -> Z -> W -> (string + Z) * W;
  pcap_set : Z -> Setting -> W -> Z * W;
  pcap_activate : Z -> W -> Z * W;
  pcap_compile : Z -> string -> W -> option bpf_program * W;
  pcap_setfilter : Z -> bpf_program -> W -> Z * W;
  pcap_freecode : bpf_program -> W -> unit * W;
  pcap_geterr : Z -> W -> string * W;
  pcap_next_ex : Z -> W -> (Z * option (pcap_pkthdr * list byte)) * W;
  pcap_get_tstamp_precision : Z -> W -> Z * W;
  pcap_loop : forall S, Z -> Z -> (pcap_pkthdr -> list byte -> S -> io W S) -> S -> io W S;
  pcap_breakloop : Z -> W -> unit * W;
  pcap_inject : Z -> list byte -> W -> Z * W;
  pcap_stats : Z -> W -> option pcap_stat * W;
  pcap_datalink : Z -> W -> Z * W;
  pcap_close : Z -> W -> unit * W;
  pcap_findalldevs : W -> (string + list string) * W;
  pcap_open_dead : Z -> Z -> W -> option Z * W;
  pcap_offline_filter : bpf_program -> Z -> list byte -> Z;
  bf_len : bpf_program -> Z
}.
Arguments pcap_loop {W _ S}.
