(* ===== verification/PcapCapture.v ===== *)
(** * Capture with libpcap (src/io/pcap_capture_session.cpp, include/wadjet/io/pcap_capture_session.hpp)

    The session as an object with a lifetime: [impl] is the [std::unique_ptr], which a
    move empties, and [destroy] is the destructor, which runs for every session object,
    also for a moved-from one.  libpcap is a parameter ([Libpcap]): its functions act on
    a world [W].  Passing a closed handle to it, and dereferencing the empty pointer,
    are undefined.  [LibpcapLaws] states what the manual pages of libpcap promise. *)

From Stdlib Require Import ZArith Lia.
From Stdlib Require Import Strings.Byte.
From stdpp Require Import base numbers list strings.
From S2P Require Import Prelude Decoder Timestamp.
From S2P Require Import Pcap World.

(** ** The session *)

Record PcapCaptureStats := mkPcapCaptureStats {
  stats_packets_received : Z;
  stats_packets_dropped : Z;
  stats_packets_if_dropped : Z;
  stats_bytes_received : Z
}.

Record PcapCaptureOptions := mkPcapCaptureOptions {
  snaplen : Z;
  promiscuous : bool;
  immediate_mode : bool;
  timeout_ms : Z;
  buffer_size : Z;
  timestamp_nano : bool
}.
Definition default_options : PcapCaptureOptions := mkPcapCaptureOptions 65535 true true 100 (2 * 1024 * 1024) true.

Section session.
Context {W : Type} `{!Libpcap W}.

(** [Impl]: a null handle is [None], and [filter] is [Some] while [filter_set]. *)
Record Impl := mkImpl {
  handle : option Z;
  filter : option bpf_program;
  packets_received : Z;
  bytes_received : Z;
  max_packets : Z;
  captured_count : Z;
  stop_requested : bool
}.
Definition new_impl : Impl := mkImpl None None 0 0 0 0 false.

Definition set_filter_program (p : option bpf_program) (i : Impl) : Impl :=
  mkImpl (handle i) p (packets_received i) (bytes_received i) (max_packets i) (captured_count i) (stop_requested i).
Definition set_stop_requested (b : bool) (i : Impl) : Impl :=
  mkImpl (handle i) (filter i) (packets_received i) (bytes_received i) (max_packets i) (captured_count i) b.
Definition start_count (max : Z) (i : Impl) : Impl :=
  mkImpl (handle i) (filter i) (packets_received i) (bytes_received i) max 0 false.
Definition count_packet (len : Z) (i : Impl) : Impl :=
  mkImpl (handle i) (filter i) (uint 64 (packets_received i + 1)) (uint 64 (bytes_received i + len)) (max_packets i)
    (captured_count i) (stop_requested i).
Definition count_captured (i : Impl) : Impl :=
  mkImpl (handle i) (filter i) (packets_received i) (bytes_received i) (max_packets i) (uint 64 (captured_count i + 1))
    (stop_requested i).

Record PcapCaptureSession := mkSession {
  impl : option Impl;
  interface_ : string;
  options_ : PcapCaptureOptions;
  running_ : bool;
  activated_ : bool;
  is_offline_ : bool
}.
Implicit Types s : PcapCaptureSession.

Definition set_impl (i : option Impl) s : PcapCaptureSession :=
  mkSession i (interface_ s) (options_ s) (running_ s) (activated_ s) (is_offline_ s).
Definition set_running (b : bool) s : PcapCaptureSession :=
  mkSession (impl s) (interface_ s) (options_ s) b (activated_ s) (is_offline_ s).
Definition set_activated s : PcapCaptureSession :=
  mkSession (impl s) (interface_ s) (options_ s) (running_ s) true (is_offline_ s).

(** What the defaulted move constructor leaves of its argument. *)
Definition moved_from s : PcapCaptureSession := set_impl None s.

(** A call of libpcap with a handle. *)
Definition on {A} (h : Z) (f : Z -> W -> A * W) : io W A := fun w => if is_open h w then Done (f h w) else Undef.

Definition stop s : io W PcapCaptureSession :=
  i ← deref (impl s);
  done ← match handle i with Some h => on h pcap_breakloop | None => mret tt end;
  mret (set_running false (set_impl (Some (set_stop_requested true i)) s)).

(** The destructor. *)
Definition destroy s : io W unit :=
  s ← stop s;
  match impl s with
  | None => mret tt
  | Some i =>
      freed ← match filter i with Some p => call (pcap_freecode p) | None => mret tt end;
      match handle i with Some h => on h pcap_close | None => mret tt end
  end.

(** [return Result::err(...)]: the local session is destroyed. *)
Definition return_err {A} s (code : Z) (message : string) : io W (outcome A) :=
  done ← destroy s; mret (err code message).

(** [return Result::ok(std::move(session))]: the parameter of [ok], that of the
    constructor and the local session have been moved from when they are destroyed. *)
Definition return_ok s : io W (outcome PcapCaptureSession) :=
  parameter ← destroy (moved_from s);
  value ← destroy (moved_from s);
  local ← destroy (moved_from s);
  mret (ok s).

Definition close_and_err s (h : Z) (message : string) : io W (outcome PcapCaptureSession) :=
  closed ← on h pcap_close; return_err s (-1) message.

Definition of_bool (b : bool) : Z := if b then 1 else 0.

(** [create]; the macro that guards the immediate mode is not one of libpcap's. *)
Definition create (interface : string) (options : PcapCaptureOptions) : io W (outcome PcapCaptureSession) :=
  let session h := mkSession (Some (mkImpl h None 0 0 0 0 false)) interface options false false false in
  made ← call (pcap_create interface);
  match made with
  | inl errbuf => return_err (session None) (-1) ("Failed to create pcap handle: " +:+ errbuf)
  | inr h =>
      let s := session (Some h) in
      r ← on h (fun h => pcap_set h (Snaplen (sint 32 (snaplen options))));
      if negb (r =? 0) then close_and_err s h "Failed to set snaplen"
      else r ← on h (fun h => pcap_set h (Promisc (of_bool (promiscuous options))));
      if negb (r =? 0) then close_and_err s h "Failed to set promiscuous mode"
      else r ← on h (fun h => pcap_set h (Timeout (timeout_ms options)));
      if negb (r =? 0) then close_and_err s h "Failed to set timeout"
      else r ← on h (fun h => pcap_set h (BufferSize (sint 32 (buffer_size options))));
      if negb (r =? 0) then close_and_err s h "Failed to set buffer size"
      else
        r ← (if timestamp_nano options then on h (fun h => pcap_set h (TstampPrecision PCAP_TSTAMP_PRECISION_NANO)) else mret 0);
        return_ok s
  end.

Definition open_offline (path : string) : io W (outcome PcapCaptureSession) :=
  let session h active := mkSession (Some (mkImpl h None 0 0 0 0 false)) path default_options false active true in
  nano ← call (pcap_open_offline_with_tstamp_precision path PCAP_TSTAMP_PRECISION_NANO);
  opened ← match nano with inr h => mret (inr h) | inl errbuf => call (pcap_open_offline path) end;
  match opened with
  | inl errbuf => return_err (session None false) (-1) ("Failed to open pcap file: " +:+ errbuf)
  | inr h => return_ok (session (Some h) true)
  end.

(** The text of the last error of a handle. *)
Definition pcap_error {A} (h : Z) (code : Z) (message : string) : io W (outcome A) :=
  text ← on h pcap_geterr; mret (err code (message +:+ text)).

(** ** Filters and activation *)

Definition set_filter (expression : string) s : io W (outcome unit * PcapCaptureSession) :=
  i ← deref (impl s);
  match handle i with
  | None => mret (err (-1) "Handle not initialized", s)
  | Some h =>
      freed ← match filter i with Some p => call (pcap_freecode p) | None => mret tt end;
      compiled ← on h (fun h => pcap_compile h expression);
      let s := set_impl (Some (set_filter_program compiled i)) s in
      match compiled with
      | None => e ← pcap_error h (-1) "Failed to compile filter: "; mret (e, s)
      | Some p =>
          if activated_ s then
            r ← on h (fun h => pcap_setfilter h p);
            if r =? 0 then mret (ok tt, s)
            else e ← pcap_error h (-1) "Failed to set filter: "; mret (e, s)
          else mret (ok tt, s)
      end
  end.

Definition activate s : io W (outcome unit * PcapCaptureSession) :=
  if activated_ s then mret (ok tt, s)
  else if is_offline_ s then mret (ok tt, set_activated s)
  else
    i ← deref (impl s);
    h ← deref (handle i);
    result ← on h pcap_activate;
    if result <? 0 then e ← pcap_error h result "Failed to activate: "; mret (e, s)
    else
      match filter i with
      | None => mret (ok tt, set_activated s)
      | Some p =>
          r ← on h (fun h => pcap_setfilter h p);
          if r =? 0 then mret (ok tt, set_activated s)
          else e ← pcap_error h (-1) "Failed to set filter: "; mret (e, s)
      end.

Definition start s : io W (outcome unit * PcapCaptureSession) :=
  result ← (if activated_ s then mret (ok tt, s) else activate s);
  match result.1 with
  | inl e => mret (inl e, result.2)
  | inr _ => mret (ok tt, set_running true result.2)
  end.

(** ** Packets *)

(** [ByteSpan(data, header->caplen)]. *)
Definition captured (header : pcap_pkthdr) (data : list byte) : defined_or (list byte) := subspan_count data 0 (caplen header).

Definition next_packet_impl s : io W (option Packet * PcapCaptureSession) :=
  i ← deref (impl s);
  match handle i with
  | None => mret (None, s)
  | Some h =>
      active ← (if activated_ s then mret (ok tt, s) else activate s);
      let s := active.2 in
      match active.1 with
      | inl _ => mret (None, s)
      | inr _ =>
          next ← on h pcap_next_ex;
          match next with
          | (1, Some (header, data)) =>
              i ← deref (impl s);
              precision ← on h pcap_get_tstamp_precision;
              ts ← lift (if precision =? PCAP_TSTAMP_PRECISION_NANO then from_unix (tv_sec header) (tv_usec header)
                         else from_unix_usec (tv_sec header) (tv_usec header));
              bytes ← lift (captured header data);
              mret (Some (mkPacket bytes ts), set_impl (Some (count_packet (caplen header) i)) s)
          | (result, _) => mret (None, if result =? -2 then set_running false s else s)
          end
      end
  end.

(** The view that the capture loop makes of a packet. *)
Definition loop_view (header : pcap_pkthdr) (data : list byte) : defined_or Packet :=
  ts ← from_unix_usec (tv_sec header) (tv_usec header);
  bytes ← captured header data;
  Done (mkPacket bytes ts).

(** [if (impl->max_packets > 0 && impl->captured_count >= impl->max_packets)]. *)
Definition check_limit (i : Impl) : Impl :=
  if (0 <? max_packets i) && (max_packets i <=? captured_count i) then set_stop_requested true i else i.

(** The lambda of [capture_loop].  The callback of the caller acts on the world and
    says whether it has called [stop()]; the views it is called with are collected. *)
Definition loop_callback (callback : Packet -> W -> bool * W) (header : pcap_pkthdr) (data : list byte)
    (st : PcapCaptureSession * list Packet) : io W (PcapCaptureSession * list Packet) :=
  i ← deref (impl st.1);
  if stop_requested i then mret st
  else
    view ← lift (loop_view header data);
    stops ← call (callback view);
    let s := set_impl (Some (count_packet (caplen header) i)) st.1 in
    s ← (if stops : bool then stop s else mret s);
    i ← deref (impl s);
    mret (set_impl (Some (check_limit (count_captured i))) s, st.2 ++ [view]).

Definition capture_loop (callback : Packet -> W -> bool * W) (max : Z) s : io W (Z * (PcapCaptureSession * list Packet)) :=
  i ← deref (impl s);
  match handle i with
  | None => mret (0, (s, []))
  | Some h =>
      active ← (if activated_ s then mret (ok tt, s) else activate s);
      match active.1 with
      | inl _ => mret (0, (active.2, []))
      | inr _ =>
          i ← deref (impl active.2);
          let s := set_running true (set_impl (Some (start_count max i)) active.2) in
          let count := if 0 <? max then sint 32 max else -1 in
          opened ← on h (fun _ w => (tt, w));
          out ← pcap_loop h count (loop_callback callback) (s, []);
          i ← deref (impl out.1);
          mret (captured_count i, (set_running false out.1, out.2))
      end
  end.

(** ** The other operations *)

Definition stats s : io W PcapCaptureStats :=
  i ← deref (impl s);
  match handle i with
  | Some h =>
      if activated_ s && negb (is_offline_ s) then
        ps ← on h pcap_stats;
        match ps with
        | Some ps => mret (mkPcapCaptureStats (packets_received i) (ps_drop ps) (ps_ifdrop ps) (bytes_received i))
        | None => mret (mkPcapCaptureStats (packets_received i) 0 0 (bytes_received i))
        end
      else mret (mkPcapCaptureStats (packets_received i) 0 0 (bytes_received i))
  | None => mret (mkPcapCaptureStats (packets_received i) 0 0 (bytes_received i))
  end.

Definition datalink s : io W Z :=
  i ← deref (impl s);
  match handle i with None => mret (-1) | Some h => on h pcap_datalink end.

Definition has_more s : bool := running_ s || is_offline_ s.

Definition inject (data : list byte) s : io W (outcome unit) :=
  i ← deref (impl s);
  match handle i with
  | None => mret (err (-1) "Handle not initialized")
  | Some h =>
      if negb (activated_ s) then mret (err (-1) "Session not activated")
      else
        result ← on h (fun h => pcap_inject h data);
        if result <? 0 then pcap_error h (-1) "Failed to inject packet: "
        else if negb (result =? zlen data) then mret (err (-1) "Partial packet injection")
        else mret (ok tt)
  end.

Definition list_devices : io W (outcome (list string)) :=
  found ← call pcap_findalldevs;
  match found with
  | inl errbuf => mret (err (-1) ("Failed to list devices: " +:+ errbuf))
  | inr devices => mret (ok devices)
  end.
End session.
Arguments Impl W {_}.
Arguments PcapCaptureSession W {_}.

(** ** Sessions are never handed out *)

(** A closed handle may not be used. *)
Class ClosedHandles (W : Type) `{!Libpcap W} : Prop := {
  closed_is_not_open h w : is_open h (pcap_close h w).2 = false
}.

Section creation.
Context {W : Type} `{!Libpcap W}.
Implicit Types s : PcapCaptureSession W.

Lemma on_undef {A B} h (f : Z -> W -> A * W) (k : A -> io W B) w : (forall a w', k a w' = Undef) -> (on h f ≫= k) w = Undef.
Proof. intros Hk. unfold on, mbind, io_bind. destruct (is_open h w); [|reflexivity]. destruct (f h w). apply Hk. Qed.

Lemma destroy_moved_from s w : destroy (moved_from s) w = Undef.
Proof. reflexivity. Qed.

Lemma return_ok_undef s w : return_ok s w = Undef.
Proof. apply bind_undef, destroy_moved_from. Qed.

Context {Hclosed : ClosedHandles W}.

Lemma destroy_closed s i h w : impl s = Some i -> handle i = Some h -> is_open h w = false -> destroy s w = Undef.
Proof.
  intros Hi Hh Hw. apply bind_undef. unfold stop. rewrite Hi. cbn [deref]. rewrite bind_ret, Hh.
  apply bind_undef. unfold on. rewrite Hw. reflexivity.
Qed.

Lemma close_and_err_undef s i h message w : impl s = Some i -> handle i = Some h -> close_and_err s h message w = Undef.
Proof.
  intros Hi Hh. unfold close_and_err, on, mbind, io_bind at 1. destruct (is_open h w); [|reflexivity].
  destruct (pcap_close h w) as [u w'] eqn:Hc. apply bind_undef, (destroy_closed s i h); [assumption..|].
  pose proof (closed_is_not_open h w) as H. rewrite Hc in H. exact H.
Qed.

(** [C26] No session is ever created.  When libpcap cannot create or open a handle, the
    caller gets that error; in every other case the call is undefined: after a success
    the destructor of the moved-from session stops it through its empty pointer, and
    after a failed setting it uses, and closes, the handle that was closed before. *)
Theorem pcap_sessions_undefined interface options path w :
  create interface options w =
    match pcap_create interface w with
    | (inl errbuf, w') => Done (err (-1) ("Failed to create pcap handle: " +:+ errbuf), w')
    | (inr h, w') => Undef
    end /\
  open_offline path w =
    match pcap_open_offline_with_tstamp_precision path PCAP_TSTAMP_PRECISION_NANO w with
    | (inl _, w') =>
        match pcap_open_offline path w' with
        | (inl errbuf, w') => Done (err (-1) ("Failed to open pcap file: " +:+ errbuf), w')
        | (inr h, w') => Undef
        end
    | (inr h, w') => Undef
    end.
Proof.
  split.
  - unfold create. cbv zeta. rewrite bind_call. destruct (pcap_create interface w) as [[e|h] w'] eqn:Hc; cbn [fst snd]; [reflexivity|].
    do 4 (apply on_undef; intros; case_match; [eapply close_and_err_undef; reflexivity|]).
    destruct (timestamp_nano options); [apply on_undef; intros|rewrite bind_ret]; apply return_ok_undef.
  - unfold open_offline. cbv zeta. rewrite bind_call.
    destruct (pcap_open_offline_with_tstamp_precision path PCAP_TSTAMP_PRECISION_NANO w) as [[e|h] w']; cbn [fst snd].
    + rewrite bind_call. destruct (pcap_open_offline path w') as [[e'|h] w'']; cbn [fst snd]; [reflexivity|]. apply return_ok_undef.
    + rewrite bind_ret. apply return_ok_undef.
Qed.
End creation.

(** A library with one device and one handle, which refuses buffers above 1 MiB. *)
Record SampleLib := mkSampleLib { lib_open : bool; lib_active : bool; lib_filter : option unit }.

Definition sample_set (h : Z) (setting : Setting) (l : SampleLib) : Z * SampleLib :=
  match setting with BufferSize n => (if 2 ^ 20 <? n then -1 else 0, l) | _ => (0, l) end.
Definition sample_activate (h : Z) (l : SampleLib) : Z * SampleLib :=
  if lib_active l then (-4, l) else (0, mkSampleLib (lib_open l) true (lib_filter l)).

#[local] Instance sample_libpcap : Libpcap SampleLib := {|
  bpf_program := unit;
  is_open h l := (h =? 1) && lib_open l;
  pcap_create name l := if String.eqb name "lo" then (inr 1, mkSampleLib true false None) else (inl "No such device", l);
  pcap_open_offline path l := (inl "No such file", l);
  pcap_open_offline_with_tstamp_precision path precision l := (inl "No such file", l);
  pcap_set := sample_set;
  pcap_activate := sample_activate;
  pcap_compile h text l := (Some tt, l);
  pcap_setfilter h p l := (0, mkSampleLib (lib_open l) (lib_active l) (Some p));
  pcap_freecode p l := (tt, l);
  pcap_geterr h l := ("error", l);
  pcap_next_ex h l := ((0, None), l);
  pcap_get_tstamp_precision h l := (PCAP_TSTAMP_PRECISION_NANO, l);
  pcap_loop S h count f s := mret s;
  pcap_breakloop h l := (tt, l);
  pcap_inject h data l := (zlen data, l);
  pcap_stats h l := (None, l);
  pcap_datalink h l := (1, l);
  pcap_close h l := (tt, mkSampleLib false (lib_active l) (lib_filter l));
  pcap_findalldevs l := (inr ["lo"], l);
  pcap_open_dead link snap l := (Some 1, l);
  pcap_offline_filter p len data := 1;
  bf_len p := 1
|}.
#[local] Instance sample_closed_handles : ClosedHandles SampleLib.
Proof. constructor. intros h l. apply andb_false_r. Qed.

Lemma pcap_sessions_undefined_witness :
  let nothing := mkSampleLib false false None in
  create "lo" default_options nothing = Undef /\
  create "eth9" default_options nothing = Done (err (-1) "Failed to create pcap handle: No such device", nothing) /\
  open_offline "a.pcap" nothing = Done (err (-1) "Failed to open pcap file: No such file", nothing).
Proof.
  pose proof (pcap_sessions_undefined "lo" default_options "a.pcap" (mkSampleLib false false None)) as [H1 H2].
  pose proof (pcap_sessions_undefined "eth9" default_options "a.pcap" (mkSampleLib false false None)) as [H3 _].
  cbv zeta. rewrite H1, H2, H3. repeat split; reflexivity.
Defined.

(** ** The capture loop *)

(** What [pcap_loop] does with a callback: it calls it with one packet after the other;
    between the calls the world changes. *)
Inductive loop_runs {W S} (f : pcap_pkthdr -> list byte -> S -> io W S) : S -> W -> list (pcap_pkthdr * list byte) -> S -> W -> Prop :=
| loop_ends s w w' : loop_runs f s w [] s w'
| loop_packet s w header data w1 s2 w2 packets s3 w3 :
    f header data s w1 = Done (s2, w2) -> loop_runs f s2 w2 packets s3 w3 -> loop_runs f s w ((header, data) :: packets) s3 w3.

(** At most [count] packets, if [count] is positive. *)
Class LoopCalls (W : Type) `{!Libpcap W} : Prop := {
  loop_calls S h count (f : pcap_pkthdr -> list byte -> S -> io W S) s w s' w' :
    pcap_loop h count f s w = Done (s', w') ->
    exists packets, loop_runs f s w packets s' w' /\ (0 < count -> zlen packets <= count)
}.

#[local] Instance sample_loop_calls : LoopCalls SampleLib.
Proof.
  constructor. intros S h count f s l s' l' H. apply Done_pair_inj in H as [-> ->]. exists []. split; [constructor | cbn; lia].
Qed.

Section loop.
Context {W : Type} `{!Libpcap W}.
Implicit Types s : PcapCaptureSession W.

Lemma on_inv {A} h (f : Z -> W -> A * W) w a w' : on h f w = Done (a, w') -> is_open h w = true /\ f h w = (a, w').
Proof. unfold on. destruct (is_open h w); [|discriminate]. intros H. split; [reflexivity|]. injection H as H. exact H. Qed.

Lemma stop_inv s w s' w' :
  stop s w = Done (s', w') -> exists i, impl s = Some i /\ impl s' = Some (set_stop_requested true i) /\ running_ s' = false.
Proof.
  intros H. apply bind_done_inv in H as (i & w1 & Hi & H). apply deref_inv in Hi as [Hi ->].
  apply bind_done_inv in H as (u & w2 & _ & H). apply Done_pair_inj in H as [<- ->]. exists i. auto.
Qed.

(** One call of the lambda: ignored once a stop has been requested, counted otherwise. *)
Lemma loop_callback_inv callback header data s seen w s' seen' w' i :
  loop_callback callback header data (s, seen) w = Done ((s', seen'), w') -> impl s = Some i ->
  exists i', impl s' = Some i' /\ max_packets i' = max_packets i /\
    ((stop_requested i = true /\ i' = i /\ seen' = seen) \/
     (stop_requested i = false /\ exists view stops, loop_view header data = Done view /\ seen' = seen ++ [view] /\
        captured_count i' = uint 64 (captured_count i + 1) /\
        packets_received i' = uint 64 (packets_received i + 1) /\ bytes_received i' = uint 64 (bytes_received i + caplen header) /\
        stop_requested i' = stops || ((0 <? max_packets i) && (max_packets i <=? captured_count i')) /\
        exists w1 w2, callback view w1 = (stops, w2))).
Proof.
  intros H Hi. unfold loop_callback in H. cbn [fst snd] in H. apply bind_done_inv in H as (i0 & w1 & Hi0 & H).
  apply deref_inv in Hi0 as [Hi0 ->]. rewrite Hi in Hi0. apply (inj Some) in Hi0 as <-.
  destruct (stop_requested i) eqn:Hstop.
  { apply Done_pair_inj in H as [[= <- <-] ->]. exists i. split; [exact Hi|]. split; [reflexivity | left; auto]. }
  apply bind_done_inv in H as (view & w2 & Hview & H). apply lift_inv in Hview as [Hview ->].
  apply bind_done_inv in H as (stops & w3 & Hstops & H). apply call_inv in Hstops. cbv zeta in H.
  apply bind_done_inv in H as (s1 & w4 & Hs1 & H).
  assert (Hi1 : impl s1 = Some (set_stop_requested stops (count_packet (caplen header) i))).
  { destruct stops.
    - apply stop_inv in Hs1 as (i1 & Hi1 & -> & _). cbn [set_impl impl] in Hi1. apply (inj Some) in Hi1 as <-. reflexivity.
    - apply Done_pair_inj in Hs1 as [<- ->]. cbn [set_impl impl]. f_equal. unfold count_packet, set_stop_requested.
      cbn [stop_requested]. rewrite <- Hstop. reflexivity. }
  apply bind_done_inv in H as (i1 & w5 & Hi1' & H). apply deref_inv in Hi1' as [Hi1' ->]. rewrite Hi1 in Hi1'.
  apply (inj Some) in Hi1' as <-. apply Done_pair_inj in H as [[= <- <-] ->].
  exists (check_limit (count_captured (set_stop_requested stops (count_packet (caplen header) i)))).
  split; [reflexivity|]. unfold check_limit, count_captured, set_stop_requested, count_packet.
  cbn [max_packets captured_count handle filter packets_received bytes_received stop_requested].
  split; [destruct (_ && _); reflexivity|]. right. split; [reflexivity|]. exists view, stops.
  destruct (_ && _) eqn:E; cbn [max_packets captured_count packets_received bytes_received stop_requested];
    rewrite ?E, ?orb_true_r, ?orb_false_r; eauto 12.
Qed.

Lemma loop_runs_stopped callback packets s seen w s' seen' w' i :
  loop_runs (loop_callback callback) (s, seen) w packets (s', seen') w' -> impl s = Some i -> stop_requested i = true ->
  impl s' = Some i /\ seen' = seen.
Proof.
  remember (s, seen) as st eqn:Est. remember (s', seen') as st' eqn:Est'. intros Hrun. revert s seen i Est.
  induction Hrun as [st w w'|st w header data w1 [s2 seen2] w2 packets st3 w3 Hcall _ IH]; intros s seen i -> Hi Hstop.
  - injection Est' as <- <-. auto.
  - pose proof (loop_callback_inv _ _ _ _ _ _ _ _ _ _ Hcall Hi) as (i2 & Hi2 & _ & [(_ & -> & ->)|(Hgo & _)]); [|congruence].
    apply (IH Est' s2 seen i eq_refl Hi2 Hstop).
Qed.

(** [seen] are the views of [packets]. *)
Definition views (packets : list (pcap_pkthdr * list byte)) (seen : list Packet) : Prop :=
  Forall2 (fun p view => loop_view p.1 p.2 = Done view) packets seen.

(** The callback is called with the first packets; not with all of them only after the
    limit, or after a call that stopped the session. *)
Definition delivered (callback : Packet -> W -> bool * W) (max count : Z) packets (seen : list Packet) : Prop :=
  exists taken rest, packets = taken ++ rest /\ views taken seen /\ (0 < max -> count + zlen seen <= max) /\
    (rest = [] \/ 0 < max /\ count + zlen seen = max \/ exists view w w', callback view w = (true, w')).

Lemma loop_runs_exact callback packets s seen w s' seen' w' i :
  loop_runs (loop_callback callback) (s, seen) w packets (s', seen') w' -> impl s = Some i -> stop_requested i = false ->
  fits 64 (captured_count i) -> fits 64 (max_packets i) -> (0 < max_packets i -> captured_count i < max_packets i) ->
  exists i' new, impl s' = Some i' /\ seen' = seen ++ new /\ captured_count i' = uint 64 (captured_count i + zlen new) /\
    delivered callback (max_packets i) (captured_count i) packets new.
Proof.
  remember (s, seen) as st eqn:Est. remember (s', seen') as st' eqn:Est'. intros Hrun. revert s seen i Est.
  induction Hrun as [st w w'|st w header data w1 [s2 seen2] w2 packets st3 w3 Hcall Hrun IH];
    intros s seen i -> Hi Hgo Hfit Hmax64 Hroom.
  - injection Est' as <- <-. exists i, []. rewrite app_nil_r, Z.add_0_r, uint_small by exact Hfit. split_and!; auto.
    exists [], []. split_and!; auto; [constructor | cbn; lia].
  - pose proof (loop_callback_inv _ _ _ _ _ _ _ _ _ _ Hcall Hi) as (i2 & Hi2 & Hmax & [(Hstop & _)|Hcase]); [congruence|].
    destruct Hcase as (_ & view & stops & Hview & -> & Hcount & _ & _ & Hstop2 & w1' & w2' & Hcb).
    destruct (stop_requested i2) eqn:E2; symmetry in Hstop2.
    + subst st3. pose proof (loop_runs_stopped _ _ _ _ _ _ _ _ _ Hrun Hi2 E2) as [Hi' ->].
      exists i2, [view]. split_and!; auto. exists [(header, data)], packets. unfold views.
      split_and!; [reflexivity | repeat constructor; exact Hview | cbn; lia|]. right.
      apply orb_true_iff in Hstop2 as [->|Hlim]; [right; eauto | left]. 
      apply andb_true_iff in Hlim as [Hl1 Hl2]. apply Z.ltb_lt in Hl1. apply Z.leb_le in Hl2. specialize (Hroom Hl1).
      rewrite Hcount, uint_small in Hl2 by (unfold fits in *; lia). cbn. lia.
    + apply orb_false_iff in Hstop2 as [-> Hlim].
      destruct (IH Est' s2 (seen ++ [view]) i2 eq_refl Hi2 E2) as (i' & new & Hi' & -> & Hc & taken & rest & -> & Hv & Hle & Hwhy);
        [rewrite Hcount; apply uint_fits; lia | rewrite Hmax; exact Hmax64
        |rewrite Hmax; intros; apply andb_false_iff in Hlim; destruct Hlim; bool_to_prop; lia|].
      rewrite Hmax in *. exists i', (view :: new). rewrite <- app_assoc. split_and!; auto.
      { rewrite Hc, Hcount. unfold uint. rewrite Z.add_mod_idemp_l by lia. f_equal. cbn [length]. lia. }
      assert (Hsmall : 0 < max_packets i -> uint 64 (captured_count i + 1) = captured_count i + 1)
        by (intros H; apply uint_small; unfold fits in *; specialize (Hroom H); lia).
      exists ((header, data) :: taken), rest. cbn [length]. split; [reflexivity|]. split; [constructor; assumption|].
      split; [intros H; specialize (Hsmall H); specialize (Hle H); lia|].
      destruct Hwhy as [?|[[H ?]|?]]; [left; assumption | right; left; specialize (Hsmall H); lia | right; right; assumption].
Qed.

(** A capture loop calls back with the packets that libpcap hands to it, in order and
    at most as many as the caller allows, and returns their number; it drops packets
    only after the limit or when the callback has stopped the session. *)
Theorem pcap_capture_loop_exact `{!LoopCalls W} callback max s w n s' seen w'
    (Hout : capture_loop callback max s w = Done ((n, (s', seen)), w')) (Hmax : fits 64 max) :
  n = uint 64 (zlen seen) /\
  (seen = [] \/ exists packets, delivered callback max 0 packets seen /\ running_ s' = false).
Proof.
  unfold capture_loop in Hout. apply bind_done_inv in Hout as (i & w1 & Hi & Hout). apply deref_inv in Hi as [Hi ->].
  destruct (handle i) as [h|]; [|apply Done_pair_inj in Hout as [[= <- <- <-] _]; auto].
  apply bind_done_inv in Hout as ([[e|done] s1] & w2 & _ & Hout); cbn [fst snd] in Hout.
  { apply Done_pair_inj in Hout as [[= <- <- <-] _]. auto. }
  apply bind_done_inv in Hout as (i1 & w3 & Hi1 & Hout). apply deref_inv in Hi1 as [Hi1 ->]. cbv zeta in Hout.
  apply bind_done_inv in Hout as (u & w3 & _ & Hout). apply bind_done_inv in Hout as ([s2 seen2] & w4 & Hloop & Hout).
  cbn [fst snd] in Hout. apply bind_done_inv in Hout as (i2 & w5 & Hi2 & Hout). apply deref_inv in Hi2 as [Hi2 ->].
  apply Done_pair_inj in Hout as [[= <- <- <-] _].
  apply loop_calls in Hloop as (packets & Hrun & _).
  edestruct (loop_runs_exact callback packets _ [] _ _ _ _ (start_count max i1) Hrun) as (i' & new & Hi' & -> & Hc & Hd);
    cbn [start_count stop_requested captured_count max_packets impl set_running set_impl]; try reflexivity;
    [unfold fits; lia | exact Hmax | lia|].
  rewrite Hi2 in Hi'. apply (inj Some) in Hi' as <-. cbn [start_count captured_count max_packets] in Hc, Hd.
  split; [exact Hc|]. right. exists packets. split; [exact Hd | reflexivity].
Qed.

(** The two ways to capture read the time of a packet differently: on a handle that
    counts nanoseconds [next_packet] returns the time of the packet, and the capture
    loop a time that is off by 999 times its fraction. *)
Theorem pcap_loop_time s i h w header data w1 w2 bytes
    (Hi : impl s = Some i) (Hh : handle i = Some h) (Ha : activated_ s = true)
    (Hopen : is_open h w = true) (Hnext : pcap_next_ex h w = ((1, Some (header, data)), w1))
    (Hopen1 : is_open h w1 = true) (Hnano : pcap_get_tstamp_precision h w1 = (PCAP_TSTAMP_PRECISION_NANO, w2))
    (Hsec : fits 32 (tv_sec header)) (Hfrac : fits 32 (tv_usec header)) (Hdata : captured header data = Done bytes) :
  exists p s' v, next_packet_impl s w = Done ((Some p, s'), w2) /\ loop_view header data = Done v /\
    pk_timestamp p = tv_sec header * SECOND + tv_usec header /\
    pk_timestamp v = pk_timestamp p + 999 * tv_usec header /\ pk_data v = pk_data p.
Proof.
  exists (mkPacket bytes (tv_sec header * SECOND + tv_usec header)), (set_impl (Some (count_packet (caplen header) i)) s),
    (mkPacket bytes (tv_sec header * SECOND + tv_usec header * 1000)).
  split; [|split; [|cbn [pk_timestamp pk_data]; repeat split; lia]].
  - unfold next_packet_impl. rewrite Hi. cbn [deref]. rewrite bind_ret, Hh, Ha, bind_ret. unfold ok. cbv beta zeta. cbn [fst snd]. cbv iota.
    rewrite (bind_done _ _ w (1, Some (header, data)) w1) by (unfold on; rewrite Hopen, Hnext; reflexivity).
    rewrite Hi. cbn [deref]. rewrite bind_ret.
    rewrite (bind_done _ _ w1 PCAP_TSTAMP_PRECISION_NANO w2) by (unfold on; rewrite Hopen1, Hnano; reflexivity).
    rewrite Z.eqb_refl, from_unix_small by assumption.
    rewrite (bind_done _ _ w2 (tv_sec header * SECOND + tv_usec header) w2) by reflexivity.
    rewrite (bind_done _ _ w2 bytes w2) by (unfold lift; rewrite Hdata; reflexivity). reflexivity.
  - unfold loop_view. rewrite from_unix_usec_small, bind_Done, Hdata, bind_Done by assumption. reflexivity.
Qed.
End loop.

(** ** Filters and activation *)

(** The state of a handle as far as the manual pages describe it: an activation that
    succeeds happens once, and a filter that was set without error is installed. *)
Class HandleLaws (W : Type) `{!Libpcap W} := {
  is_activated : Z -> W -> bool;
  installed : Z -> W -> option bpf_program;
  activate_activates h w : 0 <= (pcap_activate h w).1 -> is_activated h (pcap_activate h w).2 = true;
  activate_once h w : is_activated h w = true -> (pcap_activate h w).1 < 0 /\ is_activated h (pcap_activate h w).2 = true;
  setfilter_installs h p w : (pcap_setfilter h p w).1 = 0 -> installed h (pcap_setfilter h p w).2 = Some p;
  setfilter_activated h p w : is_activated h (pcap_setfilter h p w).2 = is_activated h w;
  geterr_activated h w : is_activated h (pcap_geterr h w).2 = is_activated h w
}.

#[local] Instance sample_handle_laws : HandleLaws SampleLib.
Proof.
  refine {| is_activated h l := lib_active l; installed h l := lib_filter l : option bpf_program |}; try reflexivity.
  - intros h l. cbn. unfold sample_activate. destruct (lib_active l) eqn:E; cbn; lia.
  - intros h l. cbn. unfold sample_activate. intros E. rewrite E. cbn. split; [lia | exact E].
Qed.

Section filters.
Context {W : Type} `{!Libpcap W, !HandleLaws W}.
Implicit Types s : PcapCaptureSession W.

(** The session uses the handle [h]. *)
Definition live s (h : Z) (i : Impl W) : Prop := impl s = Some i /\ handle i = Some h.

Lemma on_bind_inv {A B} h (f : Z -> W -> A * W) (k : A -> io W B) w b w' :
  (on h f ≫= k) w = Done (b, w') -> k (f h w).1 (f h w).2 = Done (b, w').
Proof.
  intros H. apply bind_done_inv in H as (a & w1 & Hf & Hk). apply on_inv in Hf as [_ Hf]. rewrite Hf. exact Hk.
Qed.

Lemma pcap_error_inv {A} h code message w (r : outcome A) w' :
  pcap_error h code message w = Done (r, w') -> (exists e, r = inl e) /\ w' = (pcap_geterr h w).2.
Proof. intros H. apply on_bind_inv in H. apply Done_pair_inj in H as [<- <-]. split; [eexists|]; reflexivity. Qed.

(** A filter that is set successfully is kept, and installed on an active session. *)
Lemma set_filter_installs expression s h i w u s' w' :
  live s h i -> set_filter expression s w = Done ((ok u, s'), w') ->
  exists p w1, (pcap_compile h expression w1).1 = Some p /\ live s' h (set_filter_program (Some p) i) /\
    activated_ s' = activated_ s /\ is_offline_ s' = is_offline_ s /\
    (activated_ s = true -> installed h w' = Some p).
Proof.
  intros [Hi Hh] H. unfold set_filter in H. apply bind_done_inv in H as (i0 & w1 & Hi0 & H).
  apply deref_inv in Hi0 as [Hi0 ->]. rewrite Hi in Hi0. apply (inj Some) in Hi0 as <-. rewrite Hh in H.
  apply bind_done_inv in H as (x & w1 & _ & H). apply on_bind_inv in H.
  destruct (pcap_compile h expression w1) as [[p|] w2] eqn:Hc; cbn [fst snd] in H; cbv zeta in H.
  - exists p, w1. rewrite Hc. split; [reflexivity|]. cbn [set_impl activated_] in H. destruct (activated_ s) eqn:Ha.
    + apply on_bind_inv in H. destruct ((pcap_setfilter h p w2).1 =? 0) eqn:Hr; bool_to_prop.
      * apply Done_pair_inj in H as [[= _ <-] <-]. repeat split; try assumption. intros _. apply setfilter_installs, Hr.
      * apply bind_done_inv in H as (e & w3 & He & H). apply pcap_error_inv in He as [[e' ->] _].
        apply Done_pair_inj in H as [[= ?] _].
    + apply Done_pair_inj in H as [[= _ <-] <-]. repeat split; try assumption. congruence.
  - apply bind_done_inv in H as (e & w3 & He & H). apply pcap_error_inv in He as [[e' ->] _].
    apply Done_pair_inj in H as [[= ?] _].
Qed.

Lemma start_installs s h i w u s' w' :
  live s h i -> is_offline_ s = false -> start s w = Done ((ok u, s'), w') ->
  live s' h i /\ activated_ s' = true /\ running_ s' = true /\
  (activated_ s = false -> is_activated h w' = true /\ forall p, filter i = Some p -> installed h w' = Some p).
Proof.
  intros [Hi Hh] Hoff H. unfold start in H. destruct (activated_ s) eqn:Ha.
  { rewrite bind_ret in H. apply Done_pair_inj in H as [[= _ <-] <-]. repeat split; auto; congruence. }
  unfold activate in H. rewrite Ha, Hoff in H. apply bind_done_inv in H as ([r s1] & w1 & Hact & H).
  cbn [fst snd] in H. destruct r as [e|[]]; apply Done_pair_inj in H as [[= Hr <-] <-].
  apply bind_done_inv in Hact as (i0 & w2 & Hi0 & Hact). apply deref_inv in Hi0 as [Hi0 ->]. rewrite Hi in Hi0.
  apply (inj Some) in Hi0 as <-. rewrite Hh in Hact. cbn [deref] in Hact. rewrite bind_ret in Hact.
  apply on_bind_inv in Hact. destruct ((pcap_activate h w).1 <? 0) eqn:Hneg; [|apply Z.ltb_ge in Hneg].
  { apply bind_done_inv in Hact as (e & w3 & He & Hact). apply pcap_error_inv in He as [[e' ->] _].
    apply Done_pair_inj in Hact as [[= ?] _]. }
  pose proof (activate_activates h w Hneg) as Hon. destruct (filter i) as [p|].
  - apply on_bind_inv in Hact. destruct (_ =? 0) eqn:Hset in Hact; bool_to_prop.
    + apply Done_pair_inj in Hact as [[= <-] <-]. repeat split; auto; [rewrite setfilter_activated; exact Hon|].
      intros p' [= <-]. apply setfilter_installs, Hset.
    + apply bind_done_inv in Hact as (e & w3 & He & Hact). apply pcap_error_inv in He as [[e' ->] _].
      apply Done_pair_inj in Hact as [[= ?] _].
  - apply Done_pair_inj in Hact as [[= <-] <-]. repeat split; auto. discriminate.
Qed.

(** It does not matter whether the filter is set before or after the start: when both
    calls succeed, the session is active and the filter compiled from the expression is
    installed on its handle. *)
Theorem pcap_filter_order expression s h i w u1 u2 s1 w1 s2 w2
    (Hlive : live s h i) (Hoff : is_offline_ s = false) (Ha : activated_ s = false)
    (Hcalls : set_filter expression s w = Done ((ok u1, s1), w1) /\ start s1 w1 = Done ((ok u2, s2), w2) \/
              start s w = Done ((ok u1, s1), w1) /\ set_filter expression s1 w1 = Done ((ok u2, s2), w2)) :
  exists p w0, (pcap_compile h expression w0).1 = Some p /\ live s2 h (set_filter_program (Some p) i) /\
    activated_ s2 = true /\ installed h w2 = Some p.
Proof.
  destruct Hcalls as [[H1 H2]|[H1 H2]].
  - destruct (set_filter_installs _ _ _ _ _ _ _ _ Hlive H1) as (p & w0 & Hp & Hl & Ha1 & Ho1 & _).
    destruct (start_installs _ _ _ _ _ _ _ Hl ltac:(congruence) H2) as (Hl2 & Ha2 & _ & Hin).
    exists p, w0. repeat split; try assumption; try apply Hl2. apply (proj2 (Hin ltac:(congruence))). reflexivity.
  - destruct (start_installs _ _ _ _ _ _ _ Hlive Hoff H1) as (Hl1 & Ha1 & _ & _).
    destruct (set_filter_installs _ _ _ _ _ _ _ _ Hl1 H2) as (p & w0 & Hp & Hl & Ha2 & _ & Hin).
    exists p, w0. repeat split; try assumption; try apply Hl; [congruence | apply Hin, Ha1].
Qed.

(** An activation that fails because of the filter is final: the handle is active and
    the session is not, so this and every later attempt report an error. *)
Theorem pcap_activation_final s h i w r s' w' (Hlive : live s h i) (Hoff : is_offline_ s = false) (Ha : activated_ s = false)
    (Hon : is_activated h w = true) (Hcall : activate s w = Done ((r, s'), w')) :
  (exists e, r = inl e) /\ s' = s /\ is_activated h w' = true.
Proof.
  destruct Hlive as [Hi Hh]. unfold activate in Hcall. rewrite Ha, Hoff, Hi in Hcall. cbn [deref] in Hcall.
  rewrite bind_ret, Hh in Hcall. cbn [deref] in Hcall. rewrite bind_ret in Hcall. apply on_bind_inv in Hcall.
  pose proof (activate_once h w Hon) as [Hneg Hstill]. rewrite (proj2 (Z.ltb_lt _ _) Hneg) in Hcall.
  apply bind_done_inv in Hcall as (e & w1 & He & Hcall). apply pcap_error_inv in He as [He ->].
  apply Done_pair_inj in Hcall as [[= <- <-] <-]. split; [exact He|]. split; [reflexivity|].
  rewrite geterr_activated. exact Hstill.
Qed.
End filters.
