(* ===== verification/Devices.v ===== *)
(** * Devices and filters (src/io/device.cpp, src/io/frame_filter.cpp)

    The enumeration of the network interfaces, which lists every name once, the lookups
    on it, and compiled filters.  The system calls and libpcap are parameters. *)

From Stdlib Require Import ZArith Lia.
From Stdlib Require Import Strings.Byte.
From stdpp Require Import base numbers list strings.
From S2P Require Import Prelude.
From S2P Require Import Address Pcap World.

(** ** Network interfaces *)

Record NetworkDevice := mkNetworkDevice {
  name : string;
  description : string;
  mac : list byte;
  index : Z;
  mtu : Z;
  is_up : bool;
  is_running : bool;
  is_loopback : bool;
  supports_promiscuous : bool
}.

(** The list of interfaces and the queries on one; an entry of the list without a name
    is [None], and so is the answer to a query that fails. *)
Class Interfaces (W : Type) := {
  getifaddrs : W -> option (list (option string)) * W;
  freeifaddrs : W -> unit * W;
  if_nametoindex : string -> W -> Z * W;
  siocgifflags : Z -> string -> W -> option Z * W;
  siocgifmtu : Z -> string -> W -> option Z * W;
  siocgifhwaddr : Z -> string -> W -> option (list byte) * W
}.

Definition IFF_UP : Z := 0x1.
Definition IFF_LOOPBACK : Z := 0x8.
Definition IFF_RUNNING : Z := 0x40.

Section devices.
Context {W : Type} `{!Descriptors W, !Interfaces W}.

(** One interface. *)
Definition query_device (sock : Z) (n : string) : io W NetworkDevice :=
  idx ← call (if_nametoindex n);
  flags ← call (siocgifflags sock (ifr_name n));
  let flag bit := match flags with Some f => negb (Z.land f bit =? 0) | None => false end in
  ifr_mtu ← call (siocgifmtu sock (ifr_name n));
  hwaddr ← call (siocgifhwaddr sock (ifr_name n));
  mret (mkNetworkDevice n "" (match hwaddr with Some sa_data => take 6 sa_data | None => MacAddress_zero end) idx
          (match ifr_mtu with Some m => uint 32 m | None => 0 end)
          (flag IFF_UP) (flag IFF_RUNNING) (flag IFF_LOOPBACK) (match flags with Some _ => true | None => false end)).

(** The loop over the list; [seen] are the names that have been processed. *)
Fixpoint devices_loop (sock : Z) (seen : list string) (l : list (option string)) : io W (list NetworkDevice) :=
  match l with
  | [] => mret []
  | None :: l' => devices_loop sock seen l'
  | Some n :: l' =>
      if existsb (String.eqb n) seen then devices_loop sock seen l'
      else
        dev ← query_device sock n;
        devices ← devices_loop sock (seen ++ [n]) l';
        mret (dev :: devices)
  end.

Definition enumerate_devices : io W (outcome (list NetworkDevice)) :=
  ifaddr ← call getifaddrs;
  match ifaddr with
  | None => e ← call errno; mret (err e "Failed to enumerate network interfaces")
  | Some l =>
      sock ← call (socket DatagramSocket);
      if sock <? 0 then
        freed ← call freeifaddrs;
        e ← call errno;
        mret (err e "Failed to create socket")
      else
        devices ← devices_loop sock [] l;
        closed ← call (close sock);
        freed ← call freeifaddrs;
        mret (ok devices)
  end.

Definition find_device (suitable : NetworkDevice -> bool) (message : string) : io W (outcome NetworkDevice) :=
  result ← enumerate_devices;
  match result with
  | inl e => mret (inl e)
  | inr devices =>
      match List.find suitable devices with Some dev => mret (ok dev) | None => mret (err (-1) message) end
  end.

Definition get_device (n : string) : io W (outcome NetworkDevice) :=
  find_device (fun dev => String.eqb (name dev) n) ("Device not found: " +:+ n).

Definition get_default_device : io W (outcome NetworkDevice) :=
  find_device (fun dev => negb (is_loopback dev) && is_up dev && is_running dev) "No suitable network device found".

(** ** Every interface once *)

(** The names of a list, each at its first occurrence. *)
Fixpoint distinct (l : list (option string)) : list string :=
  match l with
  | [] => []
  | None :: l' => distinct l'
  | Some n :: l' => n :: List.filter (fun n' => negb (String.eqb n n')) (distinct l')
  end.

Lemma query_device_name sock n w : exists dev w', query_device sock n w = Done (dev, w') /\ name dev = n.
Proof. unfold query_device. rewrite !bind_call. eexists _, _. split; reflexivity. Qed.

Lemma filter_twice {A} (f g : A -> bool) l : List.filter f (List.filter g l) = List.filter (fun x => g x && f x) l.
Proof. induction l as [|x l IH]; [reflexivity|]. cbn. destruct (g x); cbn; [destruct (f x)|]; rewrite ?IH; reflexivity. Qed.

Lemma devices_loop_names sock l seen w :
  exists devices w', devices_loop sock seen l w = Done (devices, w') /\
    map name devices = List.filter (fun n => negb (existsb (String.eqb n) seen)) (distinct l).
Proof.
  revert seen w. induction l as [|[n|] l IH]; intros seen w; cbn [devices_loop distinct].
  - eexists _, _. split; reflexivity.
  - cbn [List.filter]. destruct (existsb (String.eqb n) seen) eqn:Hs; cbn [negb].
    + destruct (IH seen w) as (devices & w' & Hl & Hn). exists devices, w'. split; [exact Hl|].
      rewrite Hn, filter_twice. apply List.filter_ext. intros x. destruct (String.eqb_spec n x) as [<-|]; cbn [negb andb];
        [rewrite Hs; reflexivity | reflexivity].
    + destruct (query_device_name sock n w) as (dev & w1 & Hq & Hd). rewrite (bind_done _ _ _ _ _ Hq).
      destruct (IH (seen ++ [n]) w1) as (devices & w' & Hl & Hn). rewrite (bind_done _ _ _ _ _ Hl).
      eexists _, _. split; [reflexivity|]. cbn [map]. rewrite Hd, Hn, filter_twice. f_equal. apply List.filter_ext.
      intros x. rewrite existsb_app. cbn [existsb]. rewrite orb_false_r, negb_orb, andb_comm, String.eqb_sym. reflexivity.
  - apply IH.
Qed.

Lemma distinct_spec l : List.NoDup (distinct l) /\ forall n, In n (distinct l) <-> In (Some n) l.
Proof.
  induction l as [|[n|] l [IHd IHi]]; cbn [distinct].
  - split; [constructor | intros n; split; intros []].
  - split.
    + constructor; [|apply List.NoDup_filter, IHd]. rewrite filter_In, String.eqb_refl. intros [_ [=]].
    + intros n'. cbn [In]. rewrite filter_In, IHi. destruct (String.eqb_spec n n') as [->|Hne]; cbn [negb]; [tauto|].
      split; [intros [->|[H _]]; auto; congruence | intros [[= ->]|H]; [congruence | auto]].
  - split; [exact IHd|]. intros n'. cbn [In]. rewrite IHi. split; [auto | intros [[=]|H]; exact H].
Qed.

(** The enumeration fails only when the list or a socket cannot be had; otherwise it
    returns one device for every name in the list, in the order in which the names
    first occur, with whatever the queries answer. *)
Theorem devices_once l w :
  (getifaddrs w).1 = Some l ->
  exists devices w', enumerate_devices w = Done (devices, w') /\
    match devices with
    | inr devices => map name devices = distinct l /\ List.NoDup (map name devices)
    | inl _ => (socket DatagramSocket (getifaddrs w).2).1 < 0
    end.
Proof.
  intros Hl. unfold enumerate_devices. rewrite bind_call, Hl, bind_call.
  destruct (_ <? 0) eqn:Hs; bool_to_prop; [rewrite !bind_call; eexists _, _; split; [reflexivity | exact Hs]|].
  destruct (devices_loop_names (socket DatagramSocket (getifaddrs w).2).1 l [] (socket DatagramSocket (getifaddrs w).2).2)
    as (devices & w' & Hd & Hn).
  rewrite (bind_done _ _ _ _ _ Hd), !bind_call. eexists _, _. split; [reflexivity|].
  unfold ok. rewrite Hn. replace (List.filter _ (distinct l)) with (distinct l) by (clear; induction (distinct l) as [|n d IH]; cbn in *; congruence).
  split; [reflexivity | apply distinct_spec].
Qed.

Lemma map_once {A B} (f : A -> B) l x y : List.NoDup (map f l) -> In x l -> In y l -> f x = f y -> x = y.
Proof.
  induction l as [|z l IH]; [intros _ []|]. cbn [map]. intros Hd. inversion_clear Hd as [|? ? Hz Hl].
  intros [<-|Hx] [<-|Hy] E; auto; exfalso; apply Hz; [rewrite E | rewrite <- E]; apply in_map; assumption.
Qed.

(** A lookup by name returns the device of that name of the enumeration, and there is
    only one; it fails when no interface has the name. *)
Theorem get_device_exact n l w :
  (getifaddrs w).1 = Some l -> 0 <= (socket DatagramSocket (getifaddrs w).2).1 ->
  exists result w' devices, get_device n w = Done (result, w') /\ enumerate_devices w = Done (ok devices, w') /\
    match result with
    | inr dev => In dev devices /\ name dev = n /\ forall dev', In dev' devices -> name dev' = n -> dev' = dev
    | inl e => e = mkError (-1) ("Device not found: " +:+ n) /\ ~ In (Some n) l
    end.
Proof.
  intros Hl Hs. destruct (devices_once l w Hl) as (r & w' & He & Hr). destruct r as [e|devices]; [lia|].
  destruct Hr as [Hn Hd]. unfold get_device, find_device. rewrite (bind_done _ _ _ _ _ He). cbv iota beta.
  destruct (List.find _ devices) as [dev|] eqn:Hf; eexists _, w', devices; (split; [reflexivity|]; split; [exact He|]); unfold ok, err.
  - apply find_some in Hf as [Hin Hname]. apply String.eqb_eq in Hname. split; [exact Hin|]. split; [exact Hname|].
    intros dev' Hin' Hname'. apply (map_once name devices); [exact Hd | assumption..| congruence].
  - split; [reflexivity|]. intros Hin. apply distinct_spec in Hin. rewrite <- Hn in Hin. apply in_map_iff in Hin as (dev & Hdev & Hin).
    apply (find_none _ _ Hf) in Hin. rewrite Hdev, String.eqb_refl in Hin. discriminate.
Qed.

(** ** Filters *)

Context `{!Libpcap W}.

(** [impl_] is null in a moved-from filter; the program is [Some] when it is valid. *)
Record FrameFilter := mkFrameFilter { impl_ : option (option bpf_program); expression_ : string }.

Definition empty_filter : FrameFilter := mkFrameFilter (Some None) "".

Definition compile (expression : string) (link_type : Z) : io W (outcome FrameFilter) :=
  pcap ← call (pcap_open_dead link_type 65535);
  match pcap with
  | None => mret (err (-1) "Failed to create pcap handle for filter compilation")
  | Some pcap =>
      program ← call (pcap_compile pcap expression);
      match program with
      | None =>
          error_msg ← call (pcap_geterr pcap);
          closed ← call (pcap_close pcap);
          mret (err (-1) ("Failed to compile BPF filter: " +:+ error_msg))
      | Some p => closed ← call (pcap_close pcap); mret (ok (mkFrameFilter (Some (Some p)) expression))
      end
  end.

(** The destructor. *)
Definition destroy_filter (f : FrameFilter) : io W unit :=
  match impl_ f with Some (Some p) => call (pcap_freecode p) | _ => mret tt end.

Definition accept_all : io W FrameFilter :=
  result ← compile "" 1;
  match result with inr f => mret f | inl _ => mret empty_filter end.

Definition program (f : FrameFilter) : option bpf_program := match impl_ f with Some (Some p) => Some p | _ => None end.
Definition program_length (f : FrameFilter) : Z := match program f with Some p => bf_len p | None => 0 end.

Definition matches (f : FrameFilter) (data : list byte) : bool :=
  match program f with None => true | Some p => negb (pcap_offline_filter p (uint 32 (zlen data)) data =? 0) end.

(** A filter that compiles has the program of its expression and matches what this
    program accepts; without a program every packet matches. *)
Lemma compiled_filter expression link w f w' :
  compile expression link w = Done (ok f, w') ->
  exists p h w1, (pcap_compile h expression w1).1 = Some p /\ program f = Some p /\ expression_ f = expression.
Proof.
  unfold compile. rewrite bind_call. destruct (pcap_open_dead link 65535 w) as [[h|] w1]; cbn [fst snd].
  - rewrite bind_call. destruct (pcap_compile h expression w1) as [[p|] w2] eqn:Hc; cbn [fst snd]; rewrite !bind_call.
    + intros H. apply Done_pair_inj in H as [[= <-] _]. exists p, h, w1. rewrite Hc. auto.
    + intros H. apply Done_pair_inj in H as [[=] _].
  - intros H. apply Done_pair_inj in H as [[=] _].
Qed.

(** [accept_all] accepts every packet, if the program of the empty expression does. *)
Theorem accept_all_matches w f w' data :
  (forall h w p n d, (pcap_compile h "" w).1 = Some p -> pcap_offline_filter p n d <> 0) ->
  accept_all w = Done (f, w') -> matches f data = true.
Proof.
  intros Hempty H. unfold accept_all in H. apply bind_done_inv in H as ([e|f1] & w1 & Hc & H); apply Done_pair_inj in H as [<- _].
  - reflexivity.
  - destruct (compiled_filter _ _ _ _ _ Hc) as (p & h & w2 & Hp & Hprog & _). unfold matches. rewrite Hprog.
    rewrite (proj2 (Z.eqb_neq _ 0)); [reflexivity|]. apply (Hempty h w2). exact Hp.
Qed.
End devices.
Arguments FrameFilter W {_}.
