(* ===== verification/CaptureSetup.v ===== *)
(** * Capture sessions (src/io/capture_session.cpp, the part around the ring)

    The lifetime of a session: the socket, the ring, the filter, the time stamps, the
    statistics and the destructor.  Reading packets is in Capture.v, whose [Impl] this
    file fills in.  The system calls are parameters ([PacketSockets]). *)

From Stdlib Require Import ZArith Lia.
From Stdlib Require Import Strings.Byte.
From stdpp Require Import base numbers list strings.
From S2P Require Import Prelude.
From S2P Require Import Pcap World Devices Capture.

(** ** The system calls *)

Record tpacket_req3 := mkTpacketReq3 {
  tp3_block_size : Z;
  tp3_block_nr : Z;
  tp3_frame_size : Z;
  tp3_frame_nr : Z;
  tp3_retire_blk_tov : Z
}.
Record tpacket_req := mkTpacketReq { tp_block_size : Z; tp_block_nr : Z; tp_frame_size : Z; tp_frame_nr : Z }.

(** The options that the session sets on its socket. *)
Inductive SocketOption :=
| PACKET_ADD_MEMBERSHIP (if_index : Z)
| PACKET_VERSION (version : TpacketVersion)
| PACKET_RX_RING_V3 (req : tpacket_req3)
| PACKET_RX_RING (req : tpacket_req)
| SO_TIMESTAMPING (flags : Z).

(** The remaining system calls.  [siocgifindex] and [siocshwtstamp] are [ioctl] calls
    on an interface name; [mmap] is whether a mapping of that many bytes succeeds;
    [ethtool_ts_info] are the flags [so_timestamping] of an interface, and
    [packet_statistics] the field [tp_drops]. *)
Class PacketSockets (W : Type) `{!Libpcap W} := {
  siocgifindex : Z -> string -> W -> option Z * W;
  bind : Z -> Z -> W -> Z * W;
  setsockopt : Z -> SocketOption -> W -> Z * W;
  attach_filter : Z -> Z -> bpf_program -> W -> Z * W;
  fionbio : Z -> W -> Z * W;
  mmap : Z -> Z -> W -> bool * W;
  munmap : Z -> W -> unit * W;
  packet_statistics : Z -> W -> option Z * W;
  ethtool_ts_info : Z -> string -> W -> option Z * W;
  siocshwtstamp : Z -> string -> W -> Z * W
}.

(** ** The session *)

Inductive TimestampSource := Software | Hardware | System | Auto.
#[global] Instance TimestampSource_eq_dec : EqDecision TimestampSource.
Proof. solve_decision. Defined.

Record HardwareTimestampCaps := mkCaps {
  supports_tx_hardware : bool;
  supports_tx_software : bool;
  supports_rx_hardware : bool;
  supports_rx_software : bool;
  supports_raw_hardware : bool
}.

Record CaptureSessionOptions := mkOptions {
  snaplen : Z;
  promiscuous : bool;
  immediate_mode : bool;
  buffer_size : Z;
  timeout_ms : Z;
  timestamp_source : TimestampSource;
  use_tpacket_v3 : bool;
  opt_block_size : Z;
  retire_timeout_ms : Z;
  use_ring_buffer : bool
}.
Definition default_options : CaptureSessionOptions :=
  mkOptions 65535 true true (2 * 1024 * 1024) 100 Auto false (128 * 1024) 100 true.

(** [impl_] is null in a moved-from session. *)
Record CaptureSession := mkCaptureSession {
  impl_ : option Impl;
  interface_ : string;
  options_ : CaptureSessionOptions;
  running_ : bool;
  in_capture_loop_ : bool;
  active_ts_source_ : TimestampSource
}.

Definition with_impl (i : Impl) (s : CaptureSession) : CaptureSession :=
  mkCaptureSession (Some i) (interface_ s) (options_ s) (running_ s) (in_capture_loop_ s) (active_ts_source_ s).
Definition with_running (b : bool) (s : CaptureSession) : CaptureSession :=
  mkCaptureSession (impl_ s) (interface_ s) (options_ s) b (in_capture_loop_ s) (active_ts_source_ s).
Definition with_ts_source (t : TimestampSource) (s : CaptureSession) : CaptureSession :=
  mkCaptureSession (impl_ s) (interface_ s) (options_ s) (running_ s) (in_capture_loop_ s) t.

(** What the move constructor leaves of its argument. *)
Definition moved_from (s : CaptureSession) : CaptureSession :=
  mkCaptureSession None (interface_ s) (options_ s) (running_ s) (in_capture_loop_ s) (active_ts_source_ s).

Definition new_session (interface : string) (options : CaptureSessionOptions) (fd : Z) : CaptureSession :=
  mkCaptureSession (Some (mkImpl fd false 0 0 0 0 V2 0 0 0 0 0 no_stats false)) interface options false false Software.

Definition set_ring_buffer (b : bool) (i : Impl) : Impl :=
  mkImpl (socket_fd i) b (ring_size i) (frame_size i) (frame_count i) (current_frame i) (tpacket_version i)
    (block_size i) (block_count i) (current_block i) (current_packet_in_block i) (packets_remaining_in_block i)
    (impl_stats i) (hw_timestamp_enabled i).
Definition set_frames (req : tpacket_req) (i : Impl) : Impl :=
  mkImpl (socket_fd i) (ring_buffer i) (tp_block_size req * tp_block_nr req) (tp_frame_size req) (tp_frame_nr req)
    (current_frame i) V2 (block_size i) (block_count i) (current_block i) (current_packet_in_block i)
    (packets_remaining_in_block i) (impl_stats i) (hw_timestamp_enabled i).
Definition set_blocks (req : tpacket_req3) (i : Impl) : Impl :=
  mkImpl (socket_fd i) (ring_buffer i) (tp3_block_size req * tp3_block_nr req) (frame_size i) (frame_count i)
    (current_frame i) V3 (tp3_block_size req) (tp3_block_nr req) (current_block i) (current_packet_in_block i)
    (packets_remaining_in_block i) (impl_stats i) (hw_timestamp_enabled i).
Definition set_hw_timestamp_enabled (i : Impl) : Impl :=
  mkImpl (socket_fd i) (ring_buffer i) (ring_size i) (frame_size i) (frame_count i) (current_frame i) (tpacket_version i)
    (block_size i) (block_count i) (current_block i) (current_packet_in_block i) (packets_remaining_in_block i)
    (impl_stats i) true.

(** The two requests; [unsigned int] fields wrap. *)
Definition v3_request (o : CaptureSessionOptions) : tpacket_req3 :=
  let size := uint 32 (opt_block_size o) in
  let nr := uint 32 (buffer_size o / opt_block_size o) in
  mkTpacketReq3 size nr 2048 (uint 32 (size / 2048 * nr)) (uint 32 (retire_timeout_ms o)).
Definition v2_request (o : CaptureSessionOptions) : tpacket_req :=
  let size := 4096 * 16 in
  let nr := uint 32 (buffer_size o / size) in
  mkTpacketReq size nr 2048 (uint 32 (size / 2048 * nr)).

Section session.
Context {W : Type} `{!Descriptors W, !Libpcap W, !PacketSockets W}.
Implicit Types s : CaptureSession.

(** The destructor.  The capture loop runs in the thread that owns the session or has
    been joined, so there is nothing to wait for. *)
Definition destroy s : io W unit :=
  match impl_ s with
  | None => mret tt
  | Some i =>
      closed ← (if 0 <=? socket_fd i then call (close (socket_fd i)) else mret tt);
      (if ring_buffer i then call (munmap (ring_size i)) else mret tt)
  end.

(** [return Result::err(...)] and [return Result::ok(std::move(session))]. *)
Definition return_err {A} s (code : Z) (message : string) : io W (outcome A) :=
  done ← destroy s; mret (err code message).
Definition return_ok s : io W (outcome CaptureSession) :=
  parameter ← destroy (moved_from s);
  value ← destroy (moved_from s);
  local ← destroy (moved_from s);
  mret (ok s).

(** ** The ring *)

(** Whether the TPACKET_V3 ring could be set up; its geometry stays in the session also
    when it cannot be mapped. *)
Definition setup_v3 s : io W (bool * CaptureSession) :=
  i ← deref (impl_ s);
  r ← call (setsockopt (socket_fd i) (PACKET_VERSION V3));
  if negb (r =? 0) then mret (false, s)
  else if opt_block_size (options_ s) =? 0 then undefined
  else
    let req3 := v3_request (options_ s) in
    r ← call (setsockopt (socket_fd i) (PACKET_RX_RING_V3 req3));
    if negb (r =? 0) then mret (false, s)
    else
      let i := set_blocks req3 i in
      mapped ← call (mmap (socket_fd i) (ring_size i));
      mret (mapped, with_impl (set_ring_buffer mapped i) s).

Definition setup_v2 s : io W CaptureSession :=
  i ← deref (impl_ s);
  reset ← call (setsockopt (socket_fd i) (PACKET_VERSION V2));
  let req := v2_request (options_ s) in
  r ← call (setsockopt (socket_fd i) (PACKET_RX_RING req));
  if negb (r =? 0) then mret s
  else
    let i := set_frames req i in
    mapped ← call (mmap (socket_fd i) (ring_size i));
    mret (with_impl (set_ring_buffer mapped i) s).

Definition setup_ring s : io W CaptureSession :=
  if use_ring_buffer (options_ s) then
    v3 ← (if use_tpacket_v3 (options_ s) then setup_v3 s else mret (false, s));
    if v3.1 : bool then mret v3.2 else setup_v2 v3.2
  else mret s.

(** ** Time stamps *)

Definition SOF_TIMESTAMPING_TX_HARDWARE : Z := Z.shiftl 1 0.
Definition SOF_TIMESTAMPING_TX_SOFTWARE : Z := Z.shiftl 1 1.
Definition SOF_TIMESTAMPING_RX_HARDWARE : Z := Z.shiftl 1 2.
Definition SOF_TIMESTAMPING_RX_SOFTWARE : Z := Z.shiftl 1 3.
Definition SOF_TIMESTAMPING_SOFTWARE : Z := Z.shiftl 1 4.
Definition SOF_TIMESTAMPING_RAW_HARDWARE : Z := Z.shiftl 1 6.

Definition no_caps : HardwareTimestampCaps := mkCaps false false false false false.
Definition caps_of (so_timestamping : Z) : HardwareTimestampCaps :=
  let has flag := negb (Z.land so_timestamping flag =? 0) in
  mkCaps (has SOF_TIMESTAMPING_TX_HARDWARE) (has SOF_TIMESTAMPING_TX_SOFTWARE) (has SOF_TIMESTAMPING_RX_HARDWARE)
    (has SOF_TIMESTAMPING_RX_SOFTWARE) (has SOF_TIMESTAMPING_RAW_HARDWARE).

Definition query_hw_timestamp_caps (interface : string) : io W (outcome HardwareTimestampCaps) :=
  sock ← call (socket DatagramSocket);
  if sock <? 0 then e ← call errno; mret (err e "Failed to create socket for timestamp query")
  else
    info ← call (ethtool_ts_info sock (ifr_name interface));
    closed ← call (close sock);
    mret (ok (match info with Some flags => caps_of flags | None => no_caps end)).

Definition hardware_flags : Z := Z.lor SOF_TIMESTAMPING_RX_HARDWARE SOF_TIMESTAMPING_RAW_HARDWARE.
Definition software_flags : Z := Z.lor SOF_TIMESTAMPING_RX_SOFTWARE SOF_TIMESTAMPING_SOFTWARE.

(** [return Result<void>::err(Error{errno, message})] of a session that lives on. *)
Definition errno_err (message : string) s : io W (outcome unit * CaptureSession) :=
  e ← call errno; mret (err e message, s).

(** The last step of [configure_timestamps]. *)
Definition set_timestamping (fd flags : Z) s : io W (outcome unit * CaptureSession) :=
  r ← call (setsockopt fd (SO_TIMESTAMPING flags));
  if negb (r <? 0) then mret (ok tt, s)
  else if decide (timestamp_source (options_ s) = Auto) then mret (ok tt, with_ts_source Software s)
  else errno_err "Failed to set SO_TIMESTAMPING" s.

(** The hardware is asked to stamp packets. *)
Definition enable_hardware (i : Impl) s : io W (outcome unit * CaptureSession) :=
  r ← call (siocshwtstamp (socket_fd i) (ifr_name (interface_ s)));
  if negb (r <? 0) then set_timestamping (socket_fd i) hardware_flags (with_impl (set_hw_timestamp_enabled i) s)
  else if decide (timestamp_source (options_ s) = Auto)
  then set_timestamping (socket_fd i) software_flags (with_ts_source Software s)
  else errno_err "Failed to enable hardware timestamping" s.

Definition configure_timestamps s : io W (outcome unit * CaptureSession) :=
  i ← deref (impl_ s);
  if socket_fd i <? 0 then mret (err (-1) "Socket not initialized", s)
  else
    let source := timestamp_source (options_ s) in
    let s := with_ts_source Software s in
    if decide (source = Software) then mret (ok tt, s)
    else
      caps ← query_hw_timestamp_caps (interface_ s);
      match caps with
      | inl e => mret (if decide (source = Auto) then ok tt else inl e, s)
      | inr caps =>
          let want_hardware := bool_decide (source = Hardware) || (bool_decide (source = Auto) && supports_rx_hardware caps) in
          if want_hardware && supports_rx_hardware caps then enable_hardware i (with_ts_source Hardware s)
          else if supports_rx_software caps then set_timestamping (socket_fd i) software_flags s
          else mret (ok tt, s)
      end.

(** ** Creation *)

(** [close(fd); return Result::err(Error{errno, message})]. *)
Definition close_and_err (fd : Z) (message : string) s : io W (outcome CaptureSession) :=
  closed ← call (close fd); e ← call errno; return_err s e message.

Definition create (interface : string) (options : CaptureSessionOptions) : io W (outcome CaptureSession) :=
  fd ← call (socket PacketSocket);
  let s := new_session interface options fd in
  if fd <? 0 then e ← call errno; return_err s e "Failed to create AF_PACKET socket (need root?)"
  else
    if_index ← call (siocgifindex fd (ifr_name interface));
    match if_index with
    | None => close_and_err fd ("Failed to get interface index for: " +:+ interface) s
    | Some if_index =>
        r ← call (bind fd if_index);
        if r <? 0 then close_and_err fd ("Failed to bind to interface: " +:+ interface) s
        else
          r ← (if promiscuous options then call (setsockopt fd (PACKET_ADD_MEMBERSHIP if_index)) else mret 0);
          s ← setup_ring s;
          r ← call (fionbio fd);
          ts_result ← configure_timestamps s;
          return_ok (match ts_result.1 with inr _ => ts_result.2 | inl _ => with_ts_source Software ts_result.2 end)
    end.

(** ** The other operations *)

Definition set_filter (f : FrameFilter W) s : io W (outcome unit) :=
  match program f with
  | None => mret (ok tt)
  | Some bpf_prog =>
      if bf_len bpf_prog =? 0 then mret (ok tt)
      else
        i ← deref (impl_ s);
        r ← call (attach_filter (socket_fd i) (uint 16 (bf_len bpf_prog)) bpf_prog);
        if r <? 0 then e ← call errno; mret (err e "Failed to attach BPF filter") else mret (ok tt)
  end.

Definition set_filter_expression (expression : string) s : io W (outcome unit) :=
  f ← compile expression 1;
  match f with
  | inl e => mret (inl e)
  | inr f => result ← set_filter f s; freed ← destroy_filter f; mret result
  end.

Definition start s : outcome unit * CaptureSession := (ok tt, with_running true s).
Definition stop s : CaptureSession := with_running false s.
Definition is_running s : bool := running_ s.
Definition has_more s : bool := running_ s.
Definition fd s : Z := match impl_ s with Some i => socket_fd i | None => -1 end.

Definition stats s : io W CaptureStats :=
  i ← deref (impl_ s);
  let r := impl_stats i in
  if socket_fd i <? 0 then mret r
  else
    tp_drops ← call (packet_statistics (socket_fd i));
    match tp_drops with
    | Some drops => mret (mkCaptureStats (packets_received r) drops (packets_filtered r) (bytes_received r))
    | None => mret r
    end.
End session.

(** ** What a created session is *)

(** The kernel accepts a ring without blocks, or one whose frames fill its blocks
    ([packet_mmap.txt]), and maps no empty ring. *)
Class RingLaws (W : Type) `{!Libpcap W, !PacketSockets W} : Prop := {
  mmap_empty fd w : (mmap fd 0 w).1 = false;
  rx_ring_frames fd req w :
    (setsockopt fd (PACKET_RX_RING req) w).1 = 0 -> tp_frame_nr req = tp_block_size req / tp_frame_size req * tp_block_nr req
}.

Section created.
Context {W : Type} `{!Descriptors W, !Libpcap W, !PacketSockets W}.
Implicit Types s : CaptureSession.

(** [i] is a fresh [Impl] for [fd], apart from the ring and the hardware flag. *)
Definition fresh (fd : Z) (i : Impl) : Prop :=
  socket_fd i = fd /\ current_frame i = 0 /\ current_block i = 0 /\ packets_remaining_in_block i = 0 /\ impl_stats i = no_stats.

(** The ring that is mapped has the geometry that the session goes by. *)
Definition ring_geometry (o : CaptureSessionOptions) (i : Impl) : Prop :=
  ring_buffer i = true ->
  match tpacket_version i with
  | V2 => frame_size i = 2048 /\ 0 < frame_count i /\ frame_count i * frame_size i = ring_size i /\ ring_size i <= buffer_size o
  | V3 => use_tpacket_v3 o = true /\ 0 < block_size i /\ 0 < block_count i /\ block_count i * block_size i = ring_size i
  end.

(** Two sessions that differ in the time stamp source and the hardware flag only. *)
Definition same_ring (i i' : Impl) : Prop := i' = i \/ i' = set_hw_timestamp_enabled i.

Lemma set_timestamping_inv fd flags s w r s' w' :
  set_timestamping fd flags s w = Done ((r, s'), w') ->
  (s' = s \/ timestamp_source (options_ s) = Auto /\ s' = with_ts_source Software s) /\
  (timestamp_source (options_ s) = Auto -> r = ok tt).
Proof.
  unfold set_timestamping. rewrite bind_call. destruct (negb _); [|destruct (decide _)]; intros H.
  - apply Done_pair_inj in H as [[= <- <-] _]. auto.
  - apply Done_pair_inj in H as [[= <- <-] _]. auto.
  - unfold errno_err in H. rewrite bind_call in H. apply Done_pair_inj in H as [[= _ <-] _]. split; [auto | congruence].
Qed.

Lemma query_caps_defined interface w : exists r w', query_hw_timestamp_caps interface w = Done (r, w').
Proof. unfold query_hw_timestamp_caps. rewrite bind_call. destruct (_ <? 0); rewrite ?bind_call; eauto. Qed.

(** The active source is software or hardware stamps; hardware stamps only if the
    caller did not ask for another source and the interface was told to produce them. *)
Definition source_chosen (o : CaptureSessionOptions) s (i : Impl) : Prop :=
  active_ts_source_ s = Software \/
  active_ts_source_ s = Hardware /\ hw_timestamp_enabled i = true /\
    (timestamp_source o = Hardware \/ timestamp_source o = Auto).

Lemma enable_hardware_inv i s w r s' w' :
  enable_hardware i s w = Done ((r, s'), w') -> impl_ s = Some i -> active_ts_source_ s = Hardware ->
  timestamp_source (options_ s) = Hardware \/ timestamp_source (options_ s) = Auto ->
  exists i', impl_ s' = Some i' /\ same_ring i i' /\ options_ s' = options_ s /\
    (r = ok tt -> source_chosen (options_ s) s' i') /\ (timestamp_source (options_ s) = Auto -> r = ok tt).
Proof.
  intros H Hi Hh Hsrc. unfold enable_hardware in H. rewrite bind_call in H. destruct (negb _) eqn:Hr.
  - apply set_timestamping_inv in H as [[-> | [_ ->]] Hok]; exists (set_hw_timestamp_enabled i);
      (split; [reflexivity|]; split; [right; reflexivity|]; split; [reflexivity|]; split; [|exact Hok]);
      intros _; [right; auto | left; reflexivity].
  - destruct (decide _) as [Ha|Ha].
    + apply set_timestamping_inv in H as [[-> | [_ ->]] Hok]; exists i;
        (split; [exact Hi|]; split; [left; reflexivity|]; split; [reflexivity|]; split; [|exact Hok]);
        intros _; left; reflexivity.
    + unfold errno_err in H. rewrite bind_call in H. apply Done_pair_inj in H as [[= <- <-] _]. exists i.
      split; [exact Hi|]. split; [left; reflexivity|]. split; [reflexivity|]. split; [discriminate | congruence].
Qed.

Lemma configure_inv s i w r s' w' :
  configure_timestamps s w = Done ((r, s'), w') -> impl_ s = Some i -> 0 <= socket_fd i ->
  exists i', impl_ s' = Some i' /\ same_ring i i' /\ options_ s' = options_ s /\
    (r = ok tt -> source_chosen (options_ s) s' i') /\ (timestamp_source (options_ s) = Auto -> r = ok tt).
Proof.
  intros H Hi Hfd. unfold configure_timestamps in H. rewrite Hi in H. cbn [deref] in H. rewrite bind_ret in H.
  rewrite (proj2 (Z.ltb_ge _ _) Hfd) in H. cbv zeta in H.
  assert (Hsoft : forall r, Done ((r, with_ts_source Software s), w') = Done (E:=Empty_set) ((r, s'), w') ->
    (timestamp_source (options_ s) = Auto -> r = ok tt) ->
    exists i', impl_ s' = Some i' /\ same_ring i i' /\ options_ s' = options_ s /\
      (r = ok tt -> source_chosen (options_ s) s' i') /\ (timestamp_source (options_ s) = Auto -> r = ok tt)).
  { intros r' H' Hr'. apply Done_pair_inj in H' as [[= <-] _]. exists i. split; [exact Hi|].
    split; [left; reflexivity|]. split; [reflexivity|]. split; [intros _; left; reflexivity | exact Hr']. }
  destruct (decide _) as [Hs|Hs] in H.
  { apply Done_pair_inj in H as [[= <- Hs'] Hw]. apply Hsoft; [congruence | reflexivity]. }
  destruct (query_caps_defined (interface_ s) w) as (caps & w1 & Hq). rewrite (bind_done _ _ _ _ _ Hq) in H.
  destruct caps as [e|caps].
  { apply Done_pair_inj in H as [[= Hr Hs'] Hw]. apply Hsoft; [congruence|]. intros Ha. rewrite <- Hr, decide_True by exact Ha. reflexivity. }
  destruct (_ && _) eqn:Hwant in H; [|destruct (supports_rx_software caps)].
  - apply (enable_hardware_inv i (with_ts_source Hardware s)) in H; [exact H | exact Hi | reflexivity|].
    apply andb_true_iff in Hwant as [Hwant _]. apply orb_true_iff in Hwant as [Hw|Hw]; [left | right; apply andb_true_iff in Hw as [Hw _]];
      apply bool_decide_eq_true in Hw; exact Hw.
  - pose proof H as H2. apply set_timestamping_inv in H as [Hs' Hok]. apply Hsoft; [|exact Hok].
    destruct Hs' as [-> | [_ ->]]; reflexivity.
  - apply Done_pair_inj in H as [[= <- Hs'] Hw]. apply Hsoft; [congruence | reflexivity].
Qed.
End created.

Section created_rings.
Context {W : Type} `{!Descriptors W, !Libpcap W, !PacketSockets W, !RingLaws W}.
Implicit Types s : CaptureSession.

Lemma mapped_not_empty fd size w : (mmap fd size w).1 = true -> size <> 0.
Proof. intros H ->. rewrite mmap_empty in H. discriminate. Qed.

(** No fewer than no bytes, and no more than the caller wants. *)
Definition fits_options (o : CaptureSessionOptions) : Prop := 0 <= buffer_size o /\ 0 <= opt_block_size o.

Lemma v3_geometry o i fd w :
  fits_options o -> use_tpacket_v3 o = true -> opt_block_size o <> 0 ->
  ring_geometry o (set_ring_buffer (mmap fd (ring_size (set_blocks (v3_request o) i)) w).1 (set_blocks (v3_request o) i)) /\
  ring_size (set_blocks (v3_request o) i) <= buffer_size o.
Proof.
  intros [Hb Hs] Hv3 Hne. unfold v3_request. cbv zeta. cbn [set_blocks ring_size tp3_block_size tp3_block_nr].
  pose proof (uint_fits 32 (opt_block_size o) ltac:(lia)) as Hf1.
  pose proof (uint_fits 32 (buffer_size o / opt_block_size o) ltac:(lia)) as Hf2.
  unfold fits in Hf1, Hf2. split.
  - intros Hmap. cbn [set_ring_buffer ring_buffer set_blocks tpacket_version block_size block_count ring_size tp3_block_size tp3_block_nr] in *.
    apply mapped_not_empty in Hmap. split; [exact Hv3|].
    set (a := uint 32 (opt_block_size o)) in *. set (b := uint 32 (buffer_size o / opt_block_size o)) in *.
    assert (a <> 0 /\ b <> 0) by (split; intros E; rewrite E in Hmap; lia).
    unfold a, b in *. lia.
  - assert (uint 32 (opt_block_size o) <= opt_block_size o) by (unfold uint; apply Z.mod_le; lia).
    assert (0 <= buffer_size o / opt_block_size o) by (apply Z.div_pos; lia).
    assert (uint 32 (buffer_size o / opt_block_size o) <= buffer_size o / opt_block_size o) by (unfold uint; apply Z.mod_le; lia).
    pose proof (Z.mul_div_le (buffer_size o) (opt_block_size o) ltac:(lia)). nia.
Qed.

Lemma v2_geometry o i fd w w' :
  fits_options o -> (setsockopt fd (PACKET_RX_RING (v2_request o)) w').1 = 0 ->
  ring_geometry o (set_ring_buffer (mmap fd (ring_size (set_frames (v2_request o) i)) w).1 (set_frames (v2_request o) i)).
Proof.
  intros [Hb _] Hset Hmap. apply rx_ring_frames in Hset.
  unfold v2_request in *. cbv zeta in *.
  cbn [set_ring_buffer ring_buffer set_frames tpacket_version frame_size frame_count ring_size tp_block_size tp_block_nr
    tp_frame_size tp_frame_nr] in *.
  rewrite Hset. apply mapped_not_empty in Hmap.
  pose proof (uint_fits 32 (buffer_size o / (4096 * 16)) ltac:(lia)) as Hf. unfold fits in Hf.
  assert (uint 32 (buffer_size o / (4096 * 16)) <= buffer_size o / (4096 * 16)) by (unfold uint; apply Z.mod_le; lia).
  change (4096 * 16 / 2048) with 32. split; [reflexivity|]. lia.
Qed.

Lemma no_ring_geometry o i : ring_buffer i = false -> ring_geometry o i.
Proof. intros H H'. congruence. Qed.

(** A session whose ring is set up or absent. *)
Definition ring_state (o : CaptureSessionOptions) (fd : Z) s : Prop :=
  exists i, impl_ s = Some i /\ fresh fd i /\ ring_geometry o i /\ options_ s = o.

Lemma setup_v2_inv s i fd w s' w' :
  setup_v2 s w = Done (s', w') -> impl_ s = Some i -> fresh fd i -> ring_buffer i = false -> fits_options (options_ s) ->
  ring_state (options_ s) fd s'.
Proof.
  intros H Hi Hfresh Hnone Hfit. unfold setup_v2 in H. rewrite Hi in H. cbn [deref] in H. rewrite bind_ret, bind_call in H.
  cbv zeta in H. rewrite bind_call in H. destruct (negb _) eqn:Hr in H.
  - apply Done_pair_inj in H as [<- _]. exists i. split_and!; try apply Hfresh; auto. apply no_ring_geometry, Hnone.
  - rewrite bind_call in H. apply Done_pair_inj in H as [<- _]. eexists. split; [reflexivity|].
    split; [exact Hfresh|]. split; [|reflexivity]. apply negb_false_iff, Z.eqb_eq in Hr. eapply v2_geometry; [exact Hfit | exact Hr].
Qed.

Lemma setup_v3_inv s i fd w b s' w' :
  setup_v3 s w = Done ((b, s'), w') -> impl_ s = Some i -> fresh fd i -> ring_buffer i = false ->
  use_tpacket_v3 (options_ s) = true -> fits_options (options_ s) ->
  ring_state (options_ s) fd s' /\ (b = false -> exists i', impl_ s' = Some i' /\ ring_buffer i' = false).
Proof.
  intros H Hi Hfresh Hnone Hv3 Hfit. unfold setup_v3 in H. rewrite Hi in H. cbn [deref] in H. rewrite bind_ret, bind_call in H.
  assert (Hsame : ring_state (options_ s) fd s)
    by (exists i; split_and!; try apply Hfresh; auto; apply no_ring_geometry, Hnone).
  destruct (negb _) eqn:Hr in H; [apply Done_pair_inj in H as [[= <- <-] _]; eauto|].
  destruct (opt_block_size (options_ s) =? 0) eqn:Hz; bool_to_prop; [discriminate|].
  cbv zeta in H. rewrite bind_call in H. destruct (negb _) eqn:Hr2 in H; [apply Done_pair_inj in H as [[= <- <-] _]; eauto|].
  rewrite bind_call in H. apply Done_pair_inj in H as [[= <- <-] _]. split.
  - eexists. split; [reflexivity|]. split; [exact Hfresh|]. split; [|reflexivity]. apply v3_geometry; assumption.
  - intros ->. eexists. split; reflexivity.
Qed.

Lemma setup_ring_inv s i fd w s' w' :
  setup_ring s w = Done (s', w') -> impl_ s = Some i -> fresh fd i -> ring_buffer i = false -> fits_options (options_ s) ->
  ring_state (options_ s) fd s'.
Proof.
  intros H Hi Hfresh Hnone Hfit. unfold setup_ring in H.
  destruct (use_ring_buffer (options_ s)).
  - apply bind_done_inv in H as ([b s1] & w1 & Hv3 & H). cbn [fst snd] in H.
    assert (H1 : ring_state (options_ s) fd s1 /\ (b = false -> exists i', impl_ s1 = Some i' /\ ring_buffer i' = false)).
    { destruct (use_tpacket_v3 (options_ s)) eqn:Huse.
      - apply (setup_v3_inv s i fd w b s1 w1); assumption.
      - apply Done_pair_inj in Hv3 as [[= <- <-] _]. split; [|eauto].
        exists i. split_and!; try apply Hfresh; auto. apply no_ring_geometry, Hnone. }
    destruct H1 as [(i1 & Hi1 & Hf1 & Hg1 & Ho1) Hb]. destruct b.
    + apply Done_pair_inj in H as [<- _]. exists i1. auto.
    + destruct (Hb eq_refl) as (i2 & Hi2 & Hn2). rewrite Hi1 in Hi2. apply (inj Some) in Hi2 as <-.
      rewrite <- Ho1. eapply setup_v2_inv; try eassumption. congruence.
  - apply Done_pair_inj in H as [<- _]. exists i. split_and!; try apply Hfresh; auto. apply no_ring_geometry, Hnone.
Qed.

Lemma return_ok_inv s w r w' : return_ok s w = Done (r, w') -> r = ok s.
Proof. intros H. apply Done_pair_inj in H as [<- _]. reflexivity. Qed.

Lemma return_err_inv {A} s code message w (r : outcome A) w' : return_err s code message w = Done (r, w') -> r = err code message.
Proof. intros H. apply bind_done_inv in H as (u & w1 & _ & H). apply Done_pair_inj in H as [<- _]. reflexivity. Qed.

End created_rings.

(** ** From a created session to the queue of Capture.v *)

(** A created session with a V2 ring and a ring of free frames of the size and number
    that it goes by start a history of captures, so that [ring_v2_fifo] holds of it. *)
Lemma created_ring_starts {E} `{!Kernel E, !KernelLaws E 2048} (o : CaptureSessionOptions) (i : Impl) (r : Ring) (e : E) fd :
  fresh fd i -> ring_geometry o i -> ring_buffer i = true -> tpacket_version i = V2 ->
  zlen (frames r) = frame_count i -> Forall (fun f => zlen (frame_memory f) = 2048 /\ frame_ready f = false) (frames r) ->
  head (size := 2048) e = 0%nat -> arrived (size := 2048) e = [] -> capture_history 2048 (mkCapture i r e) [].
Proof.
  intros (_ & Hcur & _ & _ & Hstats) Hgeo Hring Hv Hcount Hfree Hhead Harr. specialize (Hgeo Hring). rewrite Hv in Hgeo.
  destruct Hgeo as (Hsize & Hpos & _). apply history_start; [|exact Hstats | exact Harr].
  split; rewrite ?Hcur; try assumption; try lia.
  - eapply Forall_impl; [exact Hfree|]. intros f [H _]. exact H.
  - exists [], (frames r). split; [|split; [constructor|]].
    + unfold rotate. rewrite Nat.Div0.mod_0_l, drop_0, take_0, app_nil_r. reflexivity.
    + eapply Forall_impl; [exact Hfree|]. intros f [_ H]. exact H.
Qed.

(** ** Errors *)

Section errors.
Context {W : Type} `{!Descriptors W, !Libpcap W, !PacketSockets W}.

(** What the caller sees when the session gives up with its socket open: the error that
    is read after the socket was closed, and the world after it was closed again. *)
Definition closed_twice (fd : Z) (message : string) (w : W) : defined_or (outcome CaptureSession * W) :=
  let e := errno (close fd w).2 in Done (err e.1 message, (close fd e.2).2).

Lemma close_and_err_twice fd message interface options w :
  0 <= fd -> close_and_err fd message (new_session interface options fd) w = closed_twice fd message w.
Proof.
  intros Hfd. unfold close_and_err, return_err, destroy, closed_twice. rewrite !bind_call. unfold new_session. cbn [impl_ socket_fd ring_buffer].
  rewrite (proj2 (Z.leb_le _ _) Hfd). cbv zeta. unfold mbind, io_bind, call, mret, io_ret.
  destruct (close fd (errno (close fd w).2).2) as [[] w']. reflexivity.
Qed.

(** When the interface does not exist or cannot be bound, the descriptor is closed
    twice, the second time by the destructor, so that a descriptor that another thread
    has opened in between is closed; nothing else is left behind.  Without a socket
    nothing is closed. *)
Theorem capture_create_errors interface options w fd w1 (Hs : socket PacketSocket w = (fd, w1)) :
  (fd < 0 -> create interface options w =
     Done (err (errno w1).1 "Failed to create AF_PACKET socket (need root?)", (errno w1).2)) /\
  (0 <= fd -> forall w2, siocgifindex fd (ifr_name interface) w1 = (None, w2) ->
     create interface options w = closed_twice fd ("Failed to get interface index for: " +:+ interface) w2) /\
  (0 <= fd -> forall idx w2 r w3, siocgifindex fd (ifr_name interface) w1 = (Some idx, w2) -> bind fd idx w2 = (r, w3) -> r < 0 ->
     create interface options w = closed_twice fd ("Failed to bind to interface: " +:+ interface) w3).
Proof.
  unfold create. rewrite bind_call, Hs. cbn [fst snd]. cbv zeta. split; [|split].
  - intros Hfd. rewrite (proj2 (Z.ltb_lt _ _) Hfd), bind_call. unfold return_err, destroy, new_session. cbn [impl_ socket_fd ring_buffer].
    rewrite (proj2 (Z.leb_gt _ _) Hfd). reflexivity.
  - intros Hfd w2 Hi. rewrite (proj2 (Z.ltb_ge _ _) Hfd), bind_call, Hi. cbn [fst snd]. apply close_and_err_twice, Hfd.
  - intros Hfd idx w2 r w3 Hi Hb Hr. rewrite (proj2 (Z.ltb_ge _ _) Hfd), bind_call, Hi. cbn [fst snd]. rewrite bind_call, Hb.
    cbn [fst snd]. rewrite (proj2 (Z.ltb_lt _ _) Hr). apply close_and_err_twice, Hfd.
Qed.
End errors.

(** ** A machine with one interface *)

(** The world is the list of the descriptors that have been closed; the socket is 3. *)
#[local] Instance sample_descriptors : Descriptors (list Z) := {|
  errno log := (19, log);
  socket kind log := (3, log);
  close fd log := (tt, log ++ [fd])
|}.
#[local] Instance absent_libpcap {W} : Libpcap W := {|
  bpf_program := unit;
  is_open h w := false;
  pcap_create name w := (inl "", w);
  pcap_open_offline path w := (inl "", w);
  pcap_open_offline_with_tstamp_precision path precision w := (inl "", w);
  pcap_set h setting w := (-1, w);
  pcap_activate h w := (-1, w);
  pcap_compile h text w := (None, w);
  pcap_setfilter h p w := (-1, w);
  pcap_freecode p w := (tt, w);
  pcap_geterr h w := ("", w);
  pcap_next_ex h w := ((-1, None), w);
  pcap_get_tstamp_precision h w := (0, w);
  pcap_loop S h count f s := mret s;
  pcap_breakloop h w := (tt, w);
  pcap_inject h data w := (-1, w);
  pcap_stats h w := (None, w);
  pcap_datalink h w := (-1, w);
  pcap_close h w := (tt, w);
  pcap_findalldevs w := (inl "", w);
  pcap_open_dead link snap w := (None, w);
  pcap_offline_filter p len data := 0;
  bf_len p := 0
|}.
#[local] Instance sample_sockets : PacketSockets (list Z) := {|
  siocgifindex fd n log := (if String.eqb n "eth0" then Some 2 else None, log);
  bind fd idx log := (0, log);
  setsockopt fd o log :=
    (match o with
     | PACKET_RX_RING req =>
         if tp_frame_nr req =? tp_block_size req / tp_frame_size req * tp_block_nr req then 0 else -1
     | PACKET_VERSION V3 | PACKET_RX_RING_V3 _ => -1
     | _ => 0
     end, log);
  attach_filter fd len p log := (0, log);
  fionbio fd log := (0, log);
  mmap fd size log := (negb (size =? 0), log);
  munmap size log := (tt, log);
  packet_statistics fd log := (Some 0, log);
  ethtool_ts_info fd n log := (Some (Z.lor SOF_TIMESTAMPING_RX_HARDWARE SOF_TIMESTAMPING_RX_SOFTWARE), log);
  siocshwtstamp fd n log := (-1, log)
|}.
#[local] Instance sample_ring_laws : RingLaws (list Z).
Proof.
  constructor; [reflexivity|]. intros fd req log. cbn [setsockopt sample_sockets fst].
  destruct (_ =? _) eqn:E; bool_to_prop; [intros _; exact E | discriminate].
Qed.

Lemma capture_create_errors_witness :
  create "eth9" default_options [] = Done (err 19 "Failed to get interface index for: eth9", [3; 3]).
Proof.
  assert (Hs : socket PacketSocket [] = (3, []) :> Z * list Z) by reflexivity.
  destruct (capture_create_errors "eth9" default_options [] 3 [] Hs) as (_ & H & _).
  rewrite (H ltac:(lia) [] ltac:(reflexivity)). reflexivity.
Defined.

