(* ===== verification/ScenarioDocument.v ===== *)
(** * Scenario documents (what src/scenario/json_parser.cpp and src/scenario/yaml_parser.cpp share)

    Both parsers walk a document that a library has parsed: nlohmann::json or yaml-cpp.
    A document is a parameter here ([Document]), and the functions that the two files
    have in common, name by name, are written once over it.  An exception of the library
    is [Fail] with its text. *)

From Stdlib Require Import ZArith Lia.
From Stdlib Require Import Strings.Byte Strings.Ascii.
From stdpp Require Import base numbers list strings pretty.
From S2P Require Import Prelude.
From S2P Require Import Address Scenario ScenarioRunner.

(** ** Documents *)

Abbreviation fallible := (res string).

(** [lookup_key] is [contains] and [operator[]] of a json value, or the test of
    [node[key]] in YAML; [get_uint w] converts to an unsigned integer of [w] bits. *)
Class Document (D : Type) := {
  lookup_key : D -> string -> fallible (option D);
  is_null : D -> bool;
  is_sequence : D -> bool;
  elements : D -> list D;
  get_string : D -> fallible string;
  get_bool : D -> fallible bool;
  get_uint : Z -> D -> fallible Z;
  get_int64 : D -> fallible Z
}.

(** ** Text *)

(** The digits in front, and the rest. *)
Fixpoint leading_number (str : list ascii) (value : Z) : Z * list ascii :=
  match str with
  | c :: str' =>
      match digit c with Some d => leading_number str' (uint 64 (uint 64 (value * 10) + d)) | None => (value, str) end
  | [] => (value, [])
  end.

(** The text of a duration in milliseconds; [micro] are the units of microseconds. *)
Definition text_duration (micro : list string) (str : string) : Z :=
  let (value, rest) := leading_number (String.list_ascii_of_string str) 0 in
  let unit := String.string_of_list_ascii (trim_front rest) in
  if String.eqb unit "" || String.eqb unit "ms" then sint 64 value
  else if String.eqb unit "s" then sint 64 (uint 64 (value * 1000))
  else if existsb (String.eqb unit) micro then sint 64 (value / 1000)
  else sint 64 value.

(** [parse_hex_bytes]: [pending] is the digit that waits for a second one. *)
Fixpoint hex_pairs (pending : option Z) (str : list ascii) : list byte :=
  match str with
  | [] => []
  | c :: str' =>
      match hex_nibble (Ascii.byte_of_ascii c), pending with
      | None, _ => hex_pairs pending str'
      | Some d, None => hex_pairs (Some d) str'
      | Some d, Some h => to_byte (h * 16 + d) :: hex_pairs None str'
      end
  end.
Definition parse_hex_bytes (str : string) : list byte := hex_pairs None (String.list_ascii_of_string str).

Definition parse_someip_message_type (str : string) : SomeIpMessageTypeExpect :=
  if String.eqb str "request" then SomeIpRequest
  else if String.eqb str "request_no_return" then SomeIpRequestNoReturn
  else if String.eqb str "notification" then SomeIpNotification
  else if String.eqb str "response" then SomeIpResponse
  else if String.eqb str "error" then SomeIpError
  else SomeIpAny.

Definition parse_sd_entry_type (str : string) : SdEntryTypeExpect :=
  if String.eqb str "find" || String.eqb str "find_service" then SdFindService
  else if String.eqb str "offer" || String.eqb str "offer_service" then SdOfferService
  else if String.eqb str "subscribe" then SdSubscribe
  else if String.eqb str "subscribe_ack" then SdSubscribeAck
  else SdAny.

Definition parse_doip_payload_type (str : string) : DoIpPayloadTypeExpect :=
  if String.eqb str "vehicle_identification_request" then ExpectIdentificationRequest
  else if String.eqb str "vehicle_identification_response" then ExpectIdentificationResponse
  else if String.eqb str "routing_activation_request" then ExpectActivationRequest
  else if String.eqb str "routing_activation_response" then ExpectActivationResponse
  else if String.eqb str "diagnostic_message" || String.eqb str "diagnostic" then ExpectDiagnosticMessage
  else if String.eqb str "diagnostic_positive_ack" || String.eqb str "positive_ack" then ExpectPositiveAck
  else if String.eqb str "diagnostic_negative_ack" || String.eqb str "negative_ack" then ExpectNegativeAck
  else DoIpAny.

(** ** Fields *)

Section fields.
Context {D : Type} `{!Document D}.
Implicit Types j : D.

(** [get_optional<T>(j, key)]. *)
Definition get_optional {A} (get : D -> fallible A) j (key : string) : fallible (option A) :=
  field ← lookup_key j key;
  match field with
  | Some v => if is_null v then Done None else a ← get v; Done (Some a)
  | None => Done None
  end.

(** [if (!field && j.contains(key)) field = j[key].get<T>()]. *)
Definition or_else {A} (get : D -> fallible A) j (key : string) (field : option A) : fallible (option A) :=
  match field with
  | Some a => Done (Some a)
  | None => v ← lookup_key j key; match v with Some v => a ← get v; Done (Some a) | None => Done None end
  end.

(** The value of the first of the keys that is there. *)
Fixpoint first_key j (keys : list string) : fallible (option D) :=
  match keys with
  | [] => Done None
  | key :: keys' => v ← lookup_key j key; match v with Some v => Done (Some v) | None => first_key j keys' end
  end.

(** [if (j.contains(key)) field = parse(j[key])], with alternatives for the key. *)
Definition parse_field {A} (parse : D -> fallible A) j (keys : list string) : fallible (option A) :=
  v ← first_key j keys; match v with Some v => a ← parse v; Done (Some a) | None => Done None end.

(** The values of a list, in order. *)
Fixpoint get_all {A} (get : D -> fallible A) (l : list D) : fallible (list A) :=
  match l with
  | [] => Done []
  | v :: l' => a ← get v; rest ← get_all get l'; Done (a :: rest)
  end.

(** An array of numbers, or a text of hexadecimal digits. *)
Definition parse_bytes j : fallible (list byte) :=
  if is_sequence j then bytes ← get_all (get_uint 8) (elements j); Done (map to_byte bytes)
  else text ← get_string j; Done (parse_hex_bytes text).

(** ** Expectations *)

Definition parse_ethernet_expect j : fallible EthernetExpect :=
  src_mac ← get_optional get_string j "src_mac";
  dst_mac ← get_optional get_string j "dst_mac";
  ethertype ← get_optional (get_uint 16) j "ethertype";
  vlan_id ← get_optional (get_uint 16) j "vlan_id";
  src_mac ← or_else get_string j "source" src_mac;
  dst_mac ← or_else get_string j "destination" dst_mac;
  ethertype ← or_else (get_uint 16) j "type" ethertype;
  vlan_id ← or_else (get_uint 16) j "vlan" vlan_id;
  Done (mkEthernetExpect src_mac dst_mac ethertype vlan_id).

Definition parse_ipv4_expect j : fallible IPv4Expect :=
  src_ip ← get_optional get_string j "src_ip";
  dst_ip ← get_optional get_string j "dst_ip";
  protocol ← get_optional (get_uint 8) j "protocol";
  ttl ← get_optional (get_uint 8) j "ttl";
  src_ip ← or_else get_string j "source" src_ip;
  dst_ip ← or_else get_string j "destination" dst_ip;
  Done (mkIPv4Expect src_ip dst_ip protocol ttl).

Definition parse_udp_expect j : fallible UDPExpect :=
  src_port ← get_optional (get_uint 16) j "src_port";
  dst_port ← get_optional (get_uint 16) j "dst_port";
  src_port ← or_else (get_uint 16) j "source" src_port;
  dst_port ← or_else (get_uint 16) j "destination" dst_port;
  dst_port ← or_else (get_uint 16) j "port" dst_port;
  Done (mkUDPExpect src_port dst_port).

Definition parse_tcp_expect j : fallible TCPExpect :=
  src_port ← get_optional (get_uint 16) j "src_port";
  dst_port ← get_optional (get_uint 16) j "dst_port";
  syn ← get_optional get_bool j "syn";
  ack ← get_optional get_bool j "ack";
  fin ← get_optional get_bool j "fin";
  rst ← get_optional get_bool j "rst";
  src_port ← or_else (get_uint 16) j "source" src_port;
  dst_port ← or_else (get_uint 16) j "destination" dst_port;
  dst_port ← or_else (get_uint 16) j "port" dst_port;
  Done (mkTCPExpect src_port dst_port syn ack fin rst).

Definition parse_text {A} (parse : string -> A) j : fallible A := text ← get_string j; Done (parse text).

Definition parse_someip_expect j : fallible SomeIpExpect :=
  service_id ← get_optional (get_uint 16) j "service_id";
  method_id ← get_optional (get_uint 16) j "method_id";
  client_id ← get_optional (get_uint 16) j "client_id";
  session_id ← get_optional (get_uint 16) j "session_id";
  return_code ← get_optional (get_uint 8) j "return_code";
  service_id ← or_else (get_uint 16) j "service" service_id;
  method_id ← or_else (get_uint 16) j "method" method_id;
  method_id ← or_else (get_uint 16) j "event" method_id;
  message_type ← parse_field (parse_text parse_someip_message_type) j ["message_type"; "type"];
  Done (mkSomeIpExpect service_id method_id client_id session_id message_type return_code).

Definition parse_someip_sd_expect j : fallible SomeIpSdExpect :=
  service_id ← get_optional (get_uint 16) j "service_id";
  instance_id ← get_optional (get_uint 16) j "instance_id";
  major_version ← get_optional (get_uint 8) j "major_version";
  service_id ← or_else (get_uint 16) j "service" service_id;
  instance_id ← or_else (get_uint 16) j "instance" instance_id;
  entry_type ← parse_field (parse_text parse_sd_entry_type) j ["entry_type"; "type"];
  Done (mkSomeIpSdExpect service_id instance_id entry_type major_version).

Definition parse_doip_expect j : fallible DoIpExpect :=
  source_address ← get_optional (get_uint 16) j "source_address";
  target_address ← get_optional (get_uint 16) j "target_address";
  source_address ← or_else (get_uint 16) j "source" source_address;
  target_address ← or_else (get_uint 16) j "target" target_address;
  payload_type ← parse_field (parse_text parse_doip_payload_type) j ["payload_type"; "type"; "message_type"];
  Done (mkDoIpExpect payload_type source_address target_address).

Definition parse_payload_expect j : fallible PayloadExpect :=
  contains ← parse_field parse_bytes j ["contains"];
  equals ← parse_field parse_bytes j ["equals"];
  min_size ← get_optional (get_uint 64) j "min_size";
  max_size ← get_optional (get_uint 64) j "max_size";
  Done (mkPayloadExpect contains equals min_size max_size).

(** [parse_step]: the kinds of a step are tried in order; without any the step is an expectation. *)
Fixpoint parse_kinds (parse_default : D -> fallible Step) (kinds : list (string * (D -> fallible Step))) j : fallible Step :=
  match kinds with
  | [] => parse_default j
  | (key, parse) :: kinds' =>
      v ← lookup_key j key; match v with Some v => parse v | None => parse_kinds parse_default kinds' j end
  end.
End fields.

(** ** Scenarios as documents *)

(** The documents that are written for a scenario, without nulls and fractions. *)
#[local] Unset Elimination Schemes.
Inductive tree :=
| TInt (n : Z)
| TBool (b : bool)
| TText (text : string)
| TSeq (l : list tree)
| TMap (l : list (string * tree)).
#[local] Set Elimination Schemes.

Fixpoint assoc (k : string) (l : list (string * tree)) : option tree :=
  match l with
  | [] => None
  | (k', t) :: l' => if String.eqb k' k then Some t else assoc k l'
  end.

(** A map of the fields that are there. *)
Fixpoint present (l : list (string * option tree)) : list (string * tree) :=
  match l with
  | [] => []
  | (k, Some t) :: l' => (k, t) :: present l'
  | (k, None) :: l' => present l'
  end.
Definition fields (l : list (string * option tree)) : tree := TMap (present l).

Fixpoint pick (k : string) (l : list (string * option tree)) : option tree :=
  match l with
  | [] => None
  | (k', o) :: l' => if String.eqb k' k then o else pick k l'
  end.

(** No key comes twice. *)
Fixpoint distinct_keys (l : list (string * option tree)) : bool :=
  match l with
  | [] => true
  | (k, _) :: l' => negb (existsb (fun p => String.eqb (fst p) k) l') && distinct_keys l'
  end.

Lemma assoc_present k l : distinct_keys l = true -> assoc k (present l) = pick k l.
Proof.
  induction l as [|[k' o] l IH]; intros Hd; [reflexivity|]. cbn [distinct_keys] in Hd. apply andb_true_iff in Hd as [Hn Hd].
  specialize (IH Hd). cbn [present pick]. destruct (String.eqb_spec k' k) as [->|Hne].
  - destruct o as [t|]; cbn [assoc]; [rewrite String.eqb_refl; reflexivity|]. rewrite IH. clear - Hn.
    induction l as [|[k' o] l IHl]; [reflexivity|]. cbn [existsb fst pick] in *.
    destruct (String.eqb k' k); [discriminate | apply IHl, Hn].
  - destruct o as [t|]; cbn [assoc]; [|exact IH]. rewrite (proj2 (String.eqb_neq _ _) Hne). exact IH.
Qed.

(** What a library promises of the documents that represent trees. *)
Class DocumentLaws (D : Type) `{!Document D} := {
  represents : tree -> D -> Prop;
  map_lookup l d k : represents (TMap l) d -> exists r, lookup_key d k = Done r /\ option_Forall2 represents (assoc k l) r;
  represents_not_null t d : represents t d -> is_null d = false;
  int_uint n d w : represents (TInt n) d -> fits w n -> get_uint w d = Done n;
  int_int64 n d : represents (TInt n) d -> - 2 ^ 63 <= n < 2 ^ 63 -> get_int64 d = Done n;
  text_string s d : represents (TText s) d -> get_string d = Done s;
  bool_bool b d : represents (TBool b) d -> get_bool d = Done b;
  seq_elements l d : represents (TSeq l) d -> is_sequence d = true /\ Forall2 represents l (elements d)
}.

Section reading.
Context {D : Type} `{!Document D, !DocumentLaws D}.
Implicit Types d : D.

(** [get] reads what [enc] has written. *)
Definition reads {A} (get : D -> fallible A) (enc : A -> tree) (a : A) : Prop :=
  forall d, represents (enc a) d -> get d = Done a.

Lemma lookup_fields l d k :
  represents (fields l) d -> distinct_keys l = true ->
  exists r, lookup_key d k = Done r /\ option_Forall2 represents (pick k l) r.
Proof. intros H Hd. destruct (map_lookup _ _ k H) as (r & Hl & Hr). rewrite assoc_present in Hr by exact Hd. eauto. Qed.

Lemma get_optional_field {A} (get : D -> fallible A) (enc : A -> tree) l d k (x : option A) :
  represents (fields l) d -> distinct_keys l = true -> pick k l = enc <$> x -> (forall a, x = Some a -> reads get enc a) ->
  get_optional get d k = Done x.
Proof.
  intros H Hd Hp Hr. destruct (lookup_fields l d k H Hd) as (r & Hl & Hf). unfold get_optional. rewrite Hl, bind_Done, Hp in *.
  destruct x as [a|]; inversion Hf; subst; [|reflexivity].
  rewrite (represents_not_null (enc a)), (Hr a eq_refl) by assumption. reflexivity.
Qed.

Lemma or_else_absent {A} (get : D -> fallible A) l d k (x : option A) :
  represents (fields l) d -> distinct_keys l = true -> pick k l = None -> or_else get d k x = Done x.
Proof.
  intros H Hd Hp. destruct (lookup_fields l d k H Hd) as (r & Hl & Hf). unfold or_else. destruct x; [reflexivity|].
  rewrite Hl, bind_Done, Hp in *. inversion Hf. reflexivity.
Qed.

Fixpoint first_pick (keys : list string) (l : list (string * option tree)) : option tree :=
  match keys with
  | [] => None
  | k :: keys' => match pick k l with Some t => Some t | None => first_pick keys' l end
  end.

Lemma parse_field_first {A} (parse : D -> fallible A) (enc : A -> tree) l d keys (x : option A) :
  represents (fields l) d -> distinct_keys l = true -> first_pick keys l = enc <$> x -> (forall a, x = Some a -> reads parse enc a) ->
  parse_field parse d keys = Done x.
Proof.
  intros H Hd Hp Hr.
  assert (Hf : exists r, first_key d keys = Done r /\ option_Forall2 represents (first_pick keys l) r).
  { clear Hp. induction keys as [|k keys IH]; cbn [first_key first_pick]; [exists None; split; constructor|].
    destruct (lookup_fields l d k H Hd) as (r & Hl & Hf). rewrite Hl, bind_Done. inversion Hf; [eexists; split; [reflexivity|]; constructor; assumption|].
    exact IH. }
  destruct Hf as (r & Hk & Hf). unfold parse_field. rewrite Hk, bind_Done, Hp in *.
  destruct x as [a|]; inversion Hf; subst; [|reflexivity]. rewrite (Hr a eq_refl) by assumption. reflexivity.
Qed.

Lemma get_all_seq {A} (get : D -> fallible A) (enc : A -> tree) l ds :
  Forall2 represents (map enc l) ds -> Forall (reads get enc) l -> get_all get ds = Done l.
Proof.
  revert ds. induction l as [|a l IH]; intros ds Hd Hr; cbn [map] in Hd.
  - apply Forall2_nil_inv_l in Hd as ->. reflexivity.
  - apply Forall2_cons_inv_l in Hd as (d & ds' & Hd & Hds & ->). apply Forall_cons in Hr as [Ha Hl].
    cbn [get_all]. rewrite (Ha _ Hd), bind_Done, (IH _ Hds Hl), bind_Done. reflexivity.
Qed.

(** ** Expectations read back *)

Definition all_fit (w : Z) (o : option Z) : Prop := forall n, o = Some n -> fits w n.

Lemma reads_uint w n : fits w n -> reads (get_uint w) TInt n.
Proof. intros H d Hd. apply int_uint; assumption. Qed.
Lemma reads_text s : reads get_string TText s.
Proof. intros d. apply text_string. Qed.
Lemma reads_bool b : reads get_bool TBool b.
Proof. intros d. apply bool_bool. Qed.

Lemma reads_parse_text {A} (parse : string -> A) (print : A -> string) a :
  parse (print a) = a -> reads (parse_text parse) (fun a => TText (print a)) a.
Proof. intros E d Hd. unfold parse_text. rewrite (text_string _ _ Hd), bind_Done, E. reflexivity. Qed.

Definition bytes_tree (l : list byte) : tree := TSeq (map (fun b => TInt (u8 b)) l).

Lemma reads_bytes l : reads parse_bytes bytes_tree l.
Proof.
  intros d Hd. apply seq_elements in Hd as [Hs He]. unfold parse_bytes. rewrite Hs.
  rewrite <- (map_map u8 TInt) in He.
  rewrite (get_all_seq (get_uint 8) TInt (map u8 l)), bind_Done; [| exact He |].
  - rewrite map_map, (map_ext _ id), map_id; [reflexivity | apply to_byte_u8].
  - apply Forall_forall. intros n Hn. apply list_elem_of_In, in_map_iff in Hn as (b & <- & _). apply reads_uint. apply u8_range.
Qed.

(** The texts of the enumerations. *)
Definition someip_type_text (t : SomeIpMessageTypeExpect) : string :=
  match t with
  | SomeIpRequest => "request" | SomeIpRequestNoReturn => "request_no_return" | SomeIpNotification => "notification"
  | SomeIpResponse => "response" | SomeIpError => "error" | SomeIpAny => "any"
  end.
Definition sd_entry_text (t : SdEntryTypeExpect) : string :=
  match t with
  | SdFindService => "find_service" | SdOfferService => "offer_service" | SdSubscribe => "subscribe"
  | SdSubscribeAck => "subscribe_ack" | SdAny => "any"
  end.
Definition doip_type_text (t : DoIpPayloadTypeExpect) : string :=
  match t with
  | ExpectIdentificationRequest => "vehicle_identification_request"
  | ExpectIdentificationResponse => "vehicle_identification_response"
  | ExpectActivationRequest => "routing_activation_request"
  | ExpectActivationResponse => "routing_activation_response"
  | ExpectDiagnosticMessage => "diagnostic_message"
  | ExpectPositiveAck => "diagnostic_positive_ack"
  | ExpectNegativeAck => "diagnostic_negative_ack"
  | DoIpAny => "any"
  end.

Lemma someip_type_text_read t : parse_someip_message_type (someip_type_text t) = t.
Proof. destruct t; reflexivity. Qed.
Lemma sd_entry_text_read t : parse_sd_entry_type (sd_entry_text t) = t.
Proof. destruct t; reflexivity. Qed.
Lemma doip_type_text_read t : parse_doip_payload_type (doip_type_text t) = t.
Proof. destruct t; reflexivity. Qed.

Definition ethernet_tree (e : EthernetExpect) : tree :=
  fields [("src_mac", TText <$> src_mac e); ("dst_mac", TText <$> dst_mac e); ("ethertype", TInt <$> ethertype e);
          ("vlan_id", TInt <$> vlan_id e)].
Definition ipv4_tree (e : IPv4Expect) : tree :=
  fields [("src_ip", TText <$> src_ip e); ("dst_ip", TText <$> dst_ip e); ("protocol", TInt <$> protocol e);
          ("ttl", TInt <$> ttl e)].
Definition udp_tree (e : UDPExpect) : tree := fields [("src_port", TInt <$> udp_src e); ("dst_port", TInt <$> udp_dst e)].
Definition tcp_tree (e : TCPExpect) : tree :=
  fields [("src_port", TInt <$> tcp_src e); ("dst_port", TInt <$> tcp_dst e); ("syn", TBool <$> e_syn e);
          ("ack", TBool <$> e_ack e); ("fin", TBool <$> e_fin e); ("rst", TBool <$> e_rst e)].
Definition someip_tree (e : SomeIpExpect) : tree :=
  fields [("service_id", TInt <$> service_id e); ("method_id", TInt <$> method_id e); ("client_id", TInt <$> client_id e);
          ("session_id", TInt <$> session_id e); ("return_code", TInt <$> return_code e);
          ("message_type", (fun t => TText (someip_type_text t)) <$> message_type e)].
Definition someip_sd_tree (e : SomeIpSdExpect) : tree :=
  fields [("service_id", TInt <$> sd_service_id e); ("instance_id", TInt <$> sd_instance_id e);
          ("major_version", TInt <$> sd_major_version e); ("entry_type", (fun t => TText (sd_entry_text t)) <$> entry_type e)].
Definition doip_tree (e : DoIpExpect) : tree :=
  fields [("source_address", TInt <$> source_address e); ("target_address", TInt <$> target_address e);
          ("payload_type", (fun t => TText (doip_type_text t)) <$> payload_type e)].
Definition payload_tree (e : PayloadExpect) : tree :=
  fields [("contains", bytes_tree <$> contains e); ("equals", bytes_tree <$> equals e); ("min_size", TInt <$> min_size e);
          ("max_size", TInt <$> max_size e)].
(** The value of a key that is in the map. *)
Lemma lookup_present l d k t :
  represents (fields l) d -> distinct_keys l = true -> pick k l = Some t -> exists v, lookup_key d k = Done (Some v) /\ represents t v.
Proof.
  intros H Hd Hp. destruct (lookup_fields l d k H Hd) as (r & Hl & Hr). rewrite Hp in Hr. inversion Hr; subst. eauto.
Qed.

(** A map with one key, which is the kind of a step. *)
Fixpoint kind_of (key : string) (kinds : list (string * (D -> fallible Step))) : option (D -> fallible Step) :=
  match kinds with
  | [] => None
  | (k, parse) :: kinds' => if String.eqb key k then Some parse else kind_of key kinds'
  end.

Lemma parse_kinds_single parse_default kinds d key t :
  represents (fields [(key, Some t)]) d ->
  exists v, represents t v /\
    parse_kinds parse_default kinds d = match kind_of key kinds with Some parse => parse v | None => parse_default d end.
Proof.
  intros H. destruct (lookup_present _ d key t H eq_refl) as (v & Hl & Hv); [cbn; rewrite String.eqb_refl; reflexivity|].
  exists v. split; [exact Hv|]. induction kinds as [|[k parse] kinds IH]; [reflexivity|]. cbn [parse_kinds kind_of].
  destruct (String.eqb_spec key k) as [<-|Hne]; [rewrite Hl; reflexivity|].
  destruct (lookup_fields _ d k H eq_refl) as (r & Hlk & Hr). cbn [pick] in Hr. rewrite (proj2 (String.eqb_neq _ _) Hne) in Hr.
  inversion Hr; subst. rewrite Hlk, bind_Done. exact IH.
Qed.
End reading.

(** Reads the fields of a document that represents [fields l], one after the other. *)
Ltac field_conditions :=
  first [reflexivity
        |intros; first [apply reads_text | apply reads_bool | apply reads_bytes | apply reads_uint; unfold all_fit in *; eauto]].
Lemma bind_eq {E A B} (m : res E A) (k : A -> res E B) a r : m = Done a -> k a = r -> (m ≫= k) = r.
Proof. intros -> <-. reflexivity. Qed.

Ltac read_field H :=
  eapply bind_eq;
  [first
     [ eapply (get_optional_field get_string TText _ _ _ _ H); field_conditions
     | eapply (get_optional_field get_bool TBool _ _ _ _ H); field_conditions
     | eapply (get_optional_field (get_uint _) TInt _ _ _ _ H); field_conditions
     | eapply (or_else_absent _ _ _ _ _ H); reflexivity ]
  |].

(** The part [x] of a document that is parsed by a function of its own. *)
Ltac read_part H enc x :=
  eapply bind_eq; [eapply (parse_field_first _ enc _ _ _ x H); [reflexivity | cbn; destruct x; reflexivity | intros]|].

Section expectations.
Context {D : Type} `{!Document D, !DocumentLaws D}.

Lemma reads_ethernet e : all_fit 16 (ethertype e) -> all_fit 16 (vlan_id e) -> reads parse_ethernet_expect ethernet_tree e.
Proof. intros H1 H2 d H. unfold parse_ethernet_expect. do 8 read_field H. destruct e. reflexivity. Qed.

Lemma reads_ipv4 e : all_fit 8 (protocol e) -> all_fit 8 (ttl e) -> reads parse_ipv4_expect ipv4_tree e.
Proof. intros H1 H2 d H. unfold parse_ipv4_expect. do 6 read_field H. destruct e. reflexivity. Qed.

Lemma reads_udp e : all_fit 16 (udp_src e) -> all_fit 16 (udp_dst e) -> reads parse_udp_expect udp_tree e.
Proof. intros H1 H2 d H. unfold parse_udp_expect. do 5 read_field H. destruct e. reflexivity. Qed.

Lemma reads_tcp e : all_fit 16 (tcp_src e) -> all_fit 16 (tcp_dst e) -> reads parse_tcp_expect tcp_tree e.
Proof. intros H1 H2 d H. unfold parse_tcp_expect. do 9 read_field H. destruct e. reflexivity. Qed.

Definition wf_someip (e : SomeIpExpect) : Prop :=
  all_fit 16 (service_id e) /\ all_fit 16 (method_id e) /\ all_fit 16 (client_id e) /\ all_fit 16 (session_id e) /\
  all_fit 8 (return_code e).

Lemma reads_someip e : wf_someip e -> reads parse_someip_expect someip_tree e.
Proof.
  intros (H1 & H2 & H3 & H4 & H5) d H. unfold parse_someip_expect. do 8 read_field H.
  read_part H (fun t => TText (someip_type_text t)) (message_type e); [apply reads_parse_text; apply someip_type_text_read|].
  destruct e. reflexivity.
Qed.

Definition wf_someip_sd (e : SomeIpSdExpect) : Prop :=
  all_fit 16 (sd_service_id e) /\ all_fit 16 (sd_instance_id e) /\ all_fit 8 (sd_major_version e).

Lemma reads_someip_sd e : wf_someip_sd e -> reads parse_someip_sd_expect someip_sd_tree e.
Proof.
  intros (H1 & H2 & H3) d H. unfold parse_someip_sd_expect. do 5 read_field H.
  read_part H (fun t => TText (sd_entry_text t)) (entry_type e); [apply reads_parse_text; apply sd_entry_text_read|].
  destruct e. reflexivity.
Qed.

Lemma reads_doip e : all_fit 16 (source_address e) -> all_fit 16 (target_address e) -> reads parse_doip_expect doip_tree e.
Proof.
  intros H1 H2 d H. unfold parse_doip_expect. do 4 read_field H.
  read_part H (fun t => TText (doip_type_text t)) (payload_type e); [apply reads_parse_text; apply doip_type_text_read|].
  destruct e. reflexivity.
Qed.

Lemma reads_payload e : all_fit 64 (min_size e) -> all_fit 64 (max_size e) -> reads parse_payload_expect payload_tree e.
Proof.
  intros H1 H2 d H. unfold parse_payload_expect.
  read_part H bytes_tree (contains e); [apply reads_bytes|]. read_part H bytes_tree (equals e); [apply reads_bytes|].
  do 2 read_field H. destruct e. reflexivity.
Qed.
End expectations.

(** ** Steps and scenarios *)

(** The fields fit their types, durations are not negative, and there is no part for
    UDS, which cannot be written. *)
Definition each {A} (P : A -> Prop) (o : option A) : Prop := forall a, o = Some a -> P a.
Definition wf_duration (d : Z) : Prop := 0 <= d < 2 ^ 63.

Record wf_expect (e : ExpectStep) : Prop := {
  wfe_ethernet : each (fun x => all_fit 16 (ethertype x) /\ all_fit 16 (vlan_id x)) (ethernet e);
  wfe_ipv4 : each (fun x => all_fit 8 (protocol x) /\ all_fit 8 (ttl x)) (ipv4 e);
  wfe_udp : each (fun x => all_fit 16 (udp_src x) /\ all_fit 16 (udp_dst x)) (udp e);
  wfe_tcp : each (fun x => all_fit 16 (tcp_src x) /\ all_fit 16 (tcp_dst x)) (tcp e);
  wfe_someip : each wf_someip (someip e);
  wfe_sd : each wf_someip_sd (someip_sd e);
  wfe_doip : each (fun x => all_fit 16 (source_address x) /\ all_fit 16 (target_address x)) (doip e);
  wfe_uds : uds e = None;
  wfe_payload : each (fun x => all_fit 64 (min_size x) /\ all_fit 64 (max_size x)) (payload_expect e);
  wfe_within : wf_duration (within e);
  wfe_count : fits 64 (value (count e))
}.

Definition wf_step (s : Step) : Prop :=
  match s with
  | CaptureStep c => wf_duration (capture_timeout c)
  | Send s => wf_duration (delay s)
  | WaitStep d => wf_duration d
  | Expect e => wf_expect e
  | LogStep _ _ => True
  end.
Definition wf_scenario (sc : Scenario) : Prop := wf_duration (scenario_timeout sc) /\ Forall wf_step (steps sc).

Definition capture_tree (c : CaptureConfig) : tree :=
  fields [("interface", Some (TText (interface c))); ("filter", Some (TText (filter c))); ("pcap_file", TText <$> pcap_file c);
          ("timeout", Some (TInt (capture_timeout c))); ("promiscuous", Some (TBool (promiscuous c)))].
Definition send_tree (s : SendStep) : tree :=
  fields [("interface", Some (TText (send_interface s))); ("pcap_file", TText <$> send_pcap s);
          ("delay", Some (TInt (delay s))); ("raw", bytes_tree <$> raw_data s)].
Definition expect_tree (e : ExpectStep) : tree :=
  fields [("ethernet", ethernet_tree <$> ethernet e); ("ipv4", ipv4_tree <$> ipv4 e); ("udp", udp_tree <$> udp e);
          ("tcp", tcp_tree <$> tcp e); ("someip", someip_tree <$> someip e); ("someip_sd", someip_sd_tree <$> someip_sd e);
          ("doip", doip_tree <$> doip e); ("payload", payload_tree <$> payload_expect e);
          ("within", Some (TInt (within e))); ("count", Some (TText (count_expr_string (count e))));
          ("description", Some (TText (description e))); ("required", Some (TBool (required e)))].
Definition log_tree (message level : string) : tree :=
  fields [("message", Some (TText message)); ("level", Some (TText level))].

(** A step is a map with the kind of the step as its only key. *)
Definition step_tree (s : Step) : tree :=
  match s with
  | CaptureStep c => fields [("capture", Some (capture_tree c))]
  | Send s => fields [("send", Some (send_tree s))]
  | WaitStep d => fields [("wait", Some (TInt d))]
  | Expect e => fields [("expect", Some (expect_tree e))]
  | LogStep message level => fields [("log", Some (log_tree message level))]
  end.
Definition scenario_tree (sc : Scenario) : tree :=
  fields [("name", Some (TText (name sc))); ("description", Some (TText (scenario_description sc)));
          ("version", Some (TText (version sc))); ("timeout", Some (TInt (scenario_timeout sc)));
          ("tags", Some (TSeq (map TText (tags sc)))); ("steps", Some (TSeq (map step_tree (steps sc))))].

(** ** The texts of durations and bytes *)

Lemma leading_number_parse ds rest v x :
  parse_number ds v = Some x -> match rest with [] => True | c :: _ => digit c = None end -> leading_number (ds ++ rest) v = (x, rest).
Proof.
  intros Hp Hr. revert v Hp. induction ds as [|c ds IH]; intros v Hp; cbn [parse_number app leading_number] in *.
  - injection Hp as <-. destruct rest as [|c rest]; [reflexivity|]. cbn [leading_number]. rewrite Hr. reflexivity.
  - destruct (digit c); [apply IH, Hp | discriminate].
Qed.

(** Milliseconds of a number with a unit; a unit that is not known is that of milliseconds. *)
Definition unit_duration (micro : list string) (n : Z) (unit : string) : Z :=
  if String.eqb unit "s" then sint 64 (uint 64 (n * 1000))
  else if existsb (String.eqb unit) micro then sint 64 (n / 1000)
  else sint 64 n.

(** The text of a duration is a number, white space and a unit: seconds are multiplied,
    microseconds divided by 1000, and any other unit, known or not, is ignored. *)
Theorem duration_text_exact (micro : list string) (n : Z) (w : list ascii) (unit : string) :
  0 <= n < 2 ^ 64 -> spaces w -> match chars unit with [] => True | c :: _ => digit c = None /\ isspace c = false end ->
  existsb (String.eqb "") micro = false -> existsb (String.eqb "ms") micro = false ->
  text_duration micro (pretty n +:+ String.string_of_list_ascii w +:+ unit) = unit_duration micro n unit.
Proof.
  intros Hn Hw Hu Hm1 Hm2. destruct (pretty_number n) as (c & l & Ep & _ & Hp); [lia|].
  rewrite uint_small in Hp by exact Hn. unfold text_duration. change String.list_ascii_of_string with chars.
  assert (Ec : chars (String.string_of_list_ascii w) = w) by apply String.list_ascii_of_string_of_list_ascii.
  rewrite !chars_app, Ep, Ec, (leading_number_parse _ _ _ _ Hp).
  - rewrite trim_front_spaces by exact Hw.
    replace (trim_front (chars unit)) with (chars unit) by (destruct (chars unit); [reflexivity|]; symmetry; apply trim_front_word, Hu).
    change (String.string_of_list_ascii (chars unit)) with (String.string_of_list_ascii (String.list_ascii_of_string unit)).
    rewrite String.string_of_list_ascii_of_string. cbv zeta. unfold unit_duration.
    destruct (String.eqb_spec unit "") as [->|_]; [rewrite Hm1; reflexivity|].
    destruct (String.eqb_spec unit "ms") as [->|_]; [rewrite Hm2; reflexivity|]. cbn [orb].
    destruct (String.eqb unit "s"); [reflexivity|]. destruct (existsb _ micro); reflexivity.
  - unfold spaces in Hw. destruct Hw as [|c' w Hc Hw]; [destruct (chars unit); [exact I | apply Hu]|]. cbn [app].
    unfold isspace in Hc. unfold digit. set (m := Ascii.N_of_ascii c') in *. clearbody m.
    destruct ((48 <=? Z.of_N m) && (Z.of_N m <=? 57)) eqn:E; [|reflexivity]. apply andb_true_iff in E as [E1 E2].
    apply Z.leb_le in E1, E2. exfalso.
    apply orb_true_iff in Hc as [Hc|Hc]; [apply N.eqb_eq in Hc; lia|].
    apply andb_true_iff in Hc as [H1 H2]. apply N.leb_le in H1, H2. lia.
Qed.

Lemma duration_text_exact_witness :
  text_duration ["us"] "1500 us" = 1 /\ text_duration ["us"] "2 s" = 2000 /\ text_duration ["us"] "5 min" = 5.
Proof.
  pose proof (duration_text_exact ["us"] 5 [" "%char] "min") as H.
  split; [reflexivity|]. split; [reflexivity|].
  change (text_duration ["us"] (pretty 5 +:+ String.string_of_list_ascii [" "%char] +:+ "min") = unit_duration ["us"] 5 "min").
  apply H; [lia | repeat constructor | split; reflexivity | reflexivity | reflexivity].
Defined.

(** A fraction loses what follows its point, with the unit. *)
Example fraction_of_a_second : text_duration ["us"] "1.5s" = 1.
Proof. reflexivity. Qed.

(** Two hexadecimal digits for every byte, each pair followed by separators. *)
Definition hex_char (lowercase : bool) (n : Z) : ascii := Ascii.ascii_of_byte (hex_digit lowercase n).
Fixpoint hex_text (lowercase : bool) (l : list (byte * list ascii)) : list ascii :=
  match l with
  | [] => []
  | (b, separators) :: l' => hex_char lowercase (u8 b / 16) :: hex_char lowercase (u8 b mod 16) :: separators ++ hex_text lowercase l'
  end.
Definition no_digit (c : ascii) : Prop := hex_nibble (Ascii.byte_of_ascii c) = None.

Lemma hex_pairs_skip pending w l : Forall no_digit w -> hex_pairs pending (w ++ l) = hex_pairs pending l.
Proof. induction 1 as [|c w Hc _ IH]; [reflexivity|]. cbn [app hex_pairs]. rewrite Hc. exact IH. Qed.

Lemma hex_char_nibble lowercase n : 0 <= n < 16 -> hex_nibble (Ascii.byte_of_ascii (hex_char lowercase n)) = Some n.
Proof.
  intros H. unfold hex_char. rewrite Ascii.byte_of_ascii_of_byte.
  assert (Hall : Forall (fun n => hex_nibble (hex_digit lowercase n) = Some n) (seqZ 0 16)).
  { destruct lowercase; repeat (constructor; [reflexivity|]); constructor. }
  rewrite Forall_forall in Hall. apply Hall. rewrite elem_of_seqZ. lia.
Qed.

(** The bytes of a text are the pairs of its hexadecimal digits, whatever separates them. *)
Theorem hex_bytes_exact lowercase (l : list (byte * list ascii)) :
  Forall (fun p => Forall no_digit p.2) l ->
  parse_hex_bytes (String.string_of_list_ascii (hex_text lowercase l)) = map fst l.
Proof.
  unfold parse_hex_bytes. rewrite String.list_ascii_of_string_of_list_ascii.
  induction 1 as [|[b w] l Hw _ IH]; [reflexivity|]. cbn [hex_text hex_pairs map fst]. pose proof (u8_range b).
  rewrite !hex_char_nibble by lia. rewrite hex_pairs_skip by exact Hw. rewrite IH. f_equal.
  replace (u8 b / 16 * 16 + u8 b mod 16) with (u8 b) by lia. apply to_byte_u8.
Qed.

(** The prefix of a hexadecimal number is read as the digit 0, which shifts the pairs. *)
Example hex_prefix_shifts : parse_hex_bytes "0x12 0x34" = [x01; x20; x34].
Proof. reflexivity. Qed.
