(* ===== verification/JsonParser.v ===== *)
(** * The JSON parser of scenarios (src/scenario/json_parser.cpp)

    The steps and the scenario, over the functions of ScenarioDocument.v; nlohmann::json
    is a parameter ([Json]).  The file also has the choice of the parser by the
    extension of a file. *)

From Stdlib Require Import ZArith Lia.
From Stdlib Require Import Strings.Byte Strings.Ascii.
From stdpp Require Import base numbers list strings pretty.
From S2P Require Import Prelude.
From S2P Require Import Scenario ScenarioRunner ScenarioDocument.

(** ** nlohmann::json *)

(** What a failed [json::parse] throws: the text and the position of the byte. *)
Record JsonError := mkJsonError { what : string; byte_position : Z }.

(** [value_error] is the text of the exception that [value] throws when its receiver is
    not an object. *)
Class Json (D : Type) := {
  json_document :: Document D;
  is_object : D -> bool;
  is_string : D -> bool;
  is_number : D -> bool;
  value_error : D -> string;
  json_parse : string -> JsonError + D
}.

Record ParseError := mkParseError { message : string; line : Z; column : Z }.
Abbreviation ParseResult := (res ParseError Scenario).

Definition error_text (e : ParseError) : string :=
  if 0 <? line e then message e +:+ " at line " +:+ pretty (line e) +:+ ", column " +:+ pretty (column e) else message e.

Section json.
Context {D : Type} `{!Json D}.
Implicit Types j : D.

(** [j.value(key, default)]. *)
Definition json_value {A} (get : D -> fallible A) j (key : string) (default_value : A) : fallible A :=
  if is_object j then
    v ← lookup_key j key;
    match v with Some v => get v | None => Done default_value end
  else Fail (value_error j).

Definition parse_duration j : fallible Z :=
  if is_null j then Done 0
  else if is_string j then text ← get_string j; Done (text_duration ["us"] text)
  else get_int64 j.

(** [j.contains(key) ? parse_duration(j[key]) : default]. *)
Definition duration_field j (key : string) (default_value : Z) : fallible Z :=
  v ← lookup_key j key; match v with Some v => parse_duration v | None => Done default_value end.

(** ** Steps *)

Definition parse_capture_config j : fallible CaptureConfig :=
  interface ← json_value get_string j "interface" "eth0";
  filter ← json_value get_string j "filter" "";
  pcap_file ← get_optional get_string j "pcap_file";
  timeout ← duration_field j "timeout" 5000;
  promiscuous ← json_value get_bool j "promiscuous" true;
  pcap_file ← or_else get_string j "pcap" pcap_file;
  pcap_file ← or_else get_string j "file" pcap_file;
  Done (mkCaptureConfig interface filter pcap_file timeout promiscuous).

Definition parse_send_step j : fallible SendStep :=
  interface ← json_value get_string j "interface" "eth0";
  pcap_file ← get_optional get_string j "pcap_file";
  delay ← duration_field j "delay" 0;
  raw_data ← parse_field parse_bytes j ["raw"; "data"];
  Done (mkSendStep interface pcap_file raw_data delay).

Definition parse_wait_step j : fallible Z :=
  if is_number j then get_int64 j
  else if is_string j then parse_duration j
  else duration_field j "duration" 1000.

Definition parse_within j : fallible Z :=
  within ← lookup_key j "within";
  match within with
  | Some v => parse_duration v
  | None =>
      within_ms ← lookup_key j "within_ms";
      match within_ms with Some v => get_int64 v | None => duration_field j "timeout" 1000 end
  end.

Definition default_count : CountExpression := mkCount GreaterEqual 1.

Definition parse_count_field j : fallible CountExpression :=
  v ← lookup_key j "count";
  match v with
  | None => Done default_count
  | Some v =>
      if is_string v then text ← get_string v; Done (default default_count (parse_count text))
      else if is_number v then n ← get_uint 64 v; Done (mkCount GreaterEqual n)
      else Done default_count
  end.

(** The expectations of UDS are in the type of a step, and no parser fills them. *)
Definition parse_expect_step j : fallible ExpectStep :=
  ethernet ← parse_field parse_ethernet_expect j ["ethernet"];
  ipv4 ← parse_field parse_ipv4_expect j ["ipv4"; "ip"];
  udp ← parse_field parse_udp_expect j ["udp"];
  tcp ← parse_field parse_tcp_expect j ["tcp"];
  someip ← parse_field parse_someip_expect j ["someip"];
  someip_sd ← parse_field parse_someip_sd_expect j ["someip_sd"; "sd"];
  doip ← parse_field parse_doip_expect j ["doip"];
  payload ← parse_field parse_payload_expect j ["payload"];
  within ← parse_within j;
  count ← parse_count_field j;
  description ← json_value get_string j "description" "";
  required ← json_value get_bool j "required" true;
  Done (mkExpectStep ethernet ipv4 udp tcp someip someip_sd doip None payload within count description required).

Definition parse_log_step j : fallible Step :=
  if is_string j then text ← get_string j; Done (LogStep text "info")
  else
    text ← json_value get_string j "message" "";
    level ← json_value get_string j "level" "info";
    Done (LogStep text level).

(** The kinds of a step in the order in which they are tried. *)
Definition step_kinds : list (string * (D -> fallible Step)) :=
  [("capture", fun j => c ← parse_capture_config j; Done (CaptureStep c));
   ("send", fun j => s ← parse_send_step j; Done (Send s));
   ("wait", fun j => d ← parse_wait_step j; Done (WaitStep d));
   ("expect", fun j => e ← parse_expect_step j; Done (Expect e));
   ("log", parse_log_step)].

Definition parse_step : D -> fallible Step :=
  parse_kinds (fun j => e ← parse_expect_step j; Done (Expect e)) step_kinds.

(** ** Scenarios *)

(** [if (root.contains(key) && root[key].is_array())] *)
Definition list_field {A} (get : D -> fallible A) j (key : string) : fallible (list A) :=
  v ← lookup_key j key;
  match v with
  | Some v => if is_sequence v then get_all get (elements v) else Done []
  | None => Done []
  end.

Definition parse_scenario j : fallible Scenario :=
  name ← json_value get_string j "name" "Unnamed Scenario";
  description ← json_value get_string j "description" "";
  version ← json_value get_string j "version" "1.0";
  timeout ← duration_field j "timeout" 30000;
  tags ← list_field get_string j "tags";
  steps ← list_field parse_step j "steps";
  Done (mkScenario name description version tags timeout steps).

(** [JsonParser::parse]: every exception becomes an error; the byte is reported as the line. *)
Definition parse_json (content : string) : ParseResult :=
  match json_parse content with
  | inl e => Fail (mkParseError (what e) (byte_position e) 0)
  | inr root =>
      match parse_scenario root with
      | Done sc => Done sc
      | Fail text => Fail (mkParseError text 0 0)
      | Undef => Undef
      end
  end.
End json.

(** ** What the parser reads *)

(** The types of the values that represent a tree. *)
Class JsonLaws (D : Type) `{!Json D} := {
  json_laws :: DocumentLaws D;
  json_map l d : represents (TMap l) d -> is_object d = true /\ is_string d = false /\ is_number d = false;
  json_int n d : represents (TInt n) d -> is_string d = false /\ is_number d = true;
  json_text s d : represents (TText s) d -> is_string d = true /\ is_number d = false
}.

Section round_trip.
Context {D : Type} `{!Json D, !JsonLaws D}.
Implicit Types d : D.

Lemma json_value_present {A} (get : D -> fallible A) (enc : A -> tree) l d k a dflt :
  represents (fields l) d -> distinct_keys l = true -> pick k l = Some (enc a) -> reads get enc a -> json_value get d k dflt = Done a.
Proof.
  intros H Hd Hp Hr. destruct (lookup_present l d k _ H Hd Hp) as (v & Hl & Hv). unfold json_value.
  rewrite (proj1 (json_map _ _ H)), Hl, bind_Done. apply Hr, Hv.
Qed.

Lemma reads_duration n : wf_duration n -> reads parse_duration TInt n.
Proof.
  intros Hn d Hd. unfold parse_duration. rewrite (represents_not_null _ _ Hd), (proj1 (json_int _ _ Hd)).
  apply int_int64; [exact Hd | unfold wf_duration in Hn; lia].
Qed.

Lemma duration_present l d k n dflt :
  represents (fields l) d -> distinct_keys l = true -> pick k l = Some (TInt n) -> wf_duration n -> duration_field d k dflt = Done n.
Proof.
  intros H Hd Hp Hn. destruct (lookup_present l d k _ H Hd Hp) as (v & Hl & Hv). unfold duration_field.
  rewrite Hl, bind_Done. apply reads_duration; assumption.
Qed.

Ltac read_value H :=
  eapply bind_eq;
  [first
     [ eapply (json_value_present get_string TText _ _ _ _ _ H); [reflexivity | reflexivity | apply reads_text]
     | eapply (json_value_present get_bool TBool _ _ _ _ _ H); [reflexivity | reflexivity | apply reads_bool]
     | eapply (duration_present _ _ _ _ _ H); [reflexivity | reflexivity | assumption] ]
  |].

Lemma reads_capture c : wf_duration (capture_timeout c) -> reads parse_capture_config capture_tree c.
Proof.
  intros Hn d H. unfold parse_capture_config. do 2 read_value H. read_field H. do 2 read_value H. do 2 read_field H.
  destruct c. reflexivity.
Qed.

Lemma reads_send s : wf_duration (delay s) -> reads parse_send_step send_tree s.
Proof.
  intros Hn d H. unfold parse_send_step. read_value H. read_field H. read_value H.
  read_part H bytes_tree (raw_data s); [apply reads_bytes|]. destruct s. reflexivity.
Qed.

Lemma count_present l d c :
  represents (fields l) d -> distinct_keys l = true -> pick "count" l = Some (TText (count_expr_string c)) -> fits 64 (value c) ->
  parse_count_field d = Done c.
Proof.
  intros H Hd Hp Hc. destruct (lookup_present l d _ _ H Hd Hp) as (v & Hl & Hv). unfold parse_count_field.
  rewrite Hl, bind_Done, (proj1 (json_text _ _ Hv)), (text_string _ _ Hv), bind_Done, count_round_trip by exact Hc. reflexivity.
Qed.

Lemma within_present l d n :
  represents (fields l) d -> distinct_keys l = true -> pick "within" l = Some (TInt n) -> wf_duration n -> parse_within d = Done n.
Proof.
  intros H Hd Hp Hn. destruct (lookup_present l d _ _ H Hd Hp) as (v & Hl & Hv). unfold parse_within. rewrite Hl, bind_Done.
  apply reads_duration; assumption.
Qed.

Lemma reads_expect e : wf_expect e -> reads parse_expect_step expect_tree e.
Proof.
  intros [] d H. unfold parse_expect_step.
  read_part H ethernet_tree (ethernet e); [apply reads_ethernet; eapply wfe_ethernet; eassumption|].
  read_part H ipv4_tree (ipv4 e); [apply reads_ipv4; eapply wfe_ipv4; eassumption|].
  read_part H udp_tree (udp e); [apply reads_udp; eapply wfe_udp; eassumption|].
  read_part H tcp_tree (tcp e); [apply reads_tcp; eapply wfe_tcp; eassumption|].
  read_part H someip_tree (someip e); [apply reads_someip; eapply wfe_someip; eassumption|].
  read_part H someip_sd_tree (someip_sd e); [apply reads_someip_sd; eapply wfe_sd; eassumption|].
  read_part H doip_tree (doip e); [apply reads_doip; eapply wfe_doip; eassumption|].
  read_part H payload_tree (payload_expect e); [apply reads_payload; eapply wfe_payload; eassumption|].
  eapply bind_eq; [eapply (within_present _ _ _ H); [reflexivity | reflexivity | assumption]|].
  eapply bind_eq; [eapply (count_present _ _ _ H); [reflexivity | reflexivity | assumption]|].
  do 2 read_value H. destruct e. cbn in wfe_uds. subst. reflexivity.
Qed.

Lemma reads_step s : wf_step s -> reads parse_step step_tree s.
Proof.
  intros Hs d H. unfold parse_step.
  destruct s as [c|s|n|e|m l]; cbn [step_tree wf_step] in *;
    destruct (parse_kinds_single (fun j => e ← parse_expect_step j; Done (Expect e)) step_kinds _ _ _ H) as (v & Hv & ->);
    cbv [kind_of step_kinds String.eqb Ascii.eqb Bool.eqb].
  - rewrite (reads_capture c Hs v Hv). reflexivity.
  - rewrite (reads_send s Hs v Hv). reflexivity.
  - unfold parse_wait_step. rewrite (proj2 (json_int _ _ Hv)), (int_int64 n v Hv); [reflexivity | unfold wf_duration in Hs; lia].
  - rewrite (reads_expect e Hs v Hv). reflexivity.
  - unfold parse_log_step. rewrite (proj1 (proj2 (json_map _ _ Hv))). do 2 read_value Hv. reflexivity.
Qed.

Lemma list_present {A} (get : D -> fallible A) (enc : A -> tree) l d k xs :
  represents (fields l) d -> distinct_keys l = true -> pick k l = Some (TSeq (map enc xs)) -> Forall (reads get enc) xs ->
  list_field get d k = Done xs.
Proof.
  intros H Hd Hp Hr. destruct (lookup_present l d k _ H Hd Hp) as (v & Hl & Hv). unfold list_field. rewrite Hl, bind_Done.
  destruct (seq_elements _ _ Hv) as [-> He]. apply (get_all_seq get enc); assumption.
Qed.

(** A scenario that is written to a document is read back. *)
Theorem json_scenario_round_trip sc d :
  wf_scenario sc -> represents (scenario_tree sc) d -> parse_scenario d = Done sc.
Proof.
  intros [Ht Hs] H. unfold parse_scenario. do 4 read_value H.
  eapply bind_eq; [eapply (list_present get_string TText _ _ _ _ H);
    [reflexivity | reflexivity | apply Forall_true; intros; apply reads_text]|].
  eapply bind_eq; [eapply (list_present parse_step step_tree _ _ _ _ H);
    [reflexivity | reflexivity | eapply Forall_impl; [exact Hs | intros s; apply reads_step]]|].
  destruct sc. reflexivity.
Qed.
End round_trip.

(** What a UDS expectation says is lost: no step that is parsed has one. *)
Theorem json_reads_no_uds {D} `{!Json D} (d : D) e : parse_expect_step d = Done e -> uds e = None.
Proof.
  intros H. unfold parse_expect_step in H.
  repeat (apply bind_inv in H; destruct H as (? & _ & H)). apply Done_inj in H as <-. reflexivity.
Qed.
