(* ===== verification/YamlParser.v ===== *)
(** * The YAML parser of scenarios (src/scenario/yaml_parser.cpp)

    The steps and the scenario, over the functions of ScenarioDocument.v, which the file
    repeats word for word; yaml-cpp is a parameter ([Yaml]).  Reading an empty
    [std::optional] is undefined. *)

From Stdlib Require Import ZArith Lia.
From Stdlib Require Import Strings.Byte Strings.Ascii.
From stdpp Require Import base numbers list strings pretty.
From S2P Require Import Prelude.
From S2P Require Import Scenario ScenarioRunner ScenarioDocument JsonParser.

(** ** yaml-cpp *)

(** What [YAML::Load] throws: an exception with a mark, or another one. *)
Inductive YamlError :=
| ParserException (what : string) (mark_line mark_column : Z)
| OtherException (what : string).

Class Yaml (D : Type) := {
  yaml_document :: Document D;
  is_scalar : D -> bool;
  yaml_load : string -> YamlError + D
}.

Section yaml.
Context {D : Type} `{!Yaml D}.
Implicit Types node : D.

(** [node[key].as<T>(default)]: the default also replaces a value that does not convert. *)
Definition as_or {A} (get : D -> fallible A) node (key : string) (default_value : A) : fallible A :=
  v ← lookup_key node key;
  Done (match v with
        | Some v => match get v with Done a => a | _ => default_value end
        | None => default_value
        end).

(** [get_optional<T>(node, key).value_or(default)]. *)
Definition optional_or {A} (get : D -> fallible A) node (key : string) (default_value : A) : fallible A :=
  v ← get_optional get node key; Done (default default_value v).

(** The duration of a node that need not be there. *)
Definition parse_duration (node : option D) (default_val : Z) : fallible Z :=
  match node with
  | None => Done default_val
  | Some node =>
      if is_null node then Done default_val
      else if is_scalar node then
        text ← get_string node;
        Done (text_duration ["us"; String "194" (String "181" "s")] text)
      else get_int64 node
  end.

Definition duration_field node (key : string) (default_val : Z) : fallible Z :=
  v ← lookup_key node key; parse_duration v default_val.

(** ** Expectations *)

(** These functions of the file are those of json_parser.cpp, on nodes. *)
Definition parse_ethernet_expect : D -> fallible EthernetExpect := ScenarioDocument.parse_ethernet_expect.
Definition parse_ipv4_expect : D -> fallible IPv4Expect := ScenarioDocument.parse_ipv4_expect.
Definition parse_udp_expect : D -> fallible UDPExpect := ScenarioDocument.parse_udp_expect.
Definition parse_tcp_expect : D -> fallible TCPExpect := ScenarioDocument.parse_tcp_expect.
Definition parse_someip_expect : D -> fallible SomeIpExpect := ScenarioDocument.parse_someip_expect.
Definition parse_someip_sd_expect : D -> fallible SomeIpSdExpect := ScenarioDocument.parse_someip_sd_expect.
Definition parse_doip_expect : D -> fallible DoIpExpect := ScenarioDocument.parse_doip_expect.
Definition parse_payload_expect : D -> fallible PayloadExpect := ScenarioDocument.parse_payload_expect.

(** ** Steps *)

(** [if (config.pcap_file->empty() && node[key]) config.pcap_file = node[key].as<std::string>()] *)
Definition alternative_file node (key : string) (pcap_file : option string) : fallible (option string) :=
  match pcap_file with
  | None => Undef
  | Some file =>
      if String.eqb file "" then
        v ← lookup_key node key;
        match v with Some v => file ← get_string v; Done (Some file) | None => Done pcap_file end
      else Done pcap_file
  end.

Definition parse_capture_config node : fallible CaptureConfig :=
  interface ← as_or get_string node "interface" "eth0";
  filter ← optional_or get_string node "filter" "";
  pcap_file ← get_optional get_string node "pcap_file";
  timeout ← duration_field node "timeout" 5000;
  promiscuous ← as_or get_bool node "promiscuous" true;
  pcap_file ← alternative_file node "pcap" pcap_file;
  pcap_file ← alternative_file node "file" pcap_file;
  Done (mkCaptureConfig interface filter pcap_file timeout promiscuous).

Definition parse_send_step node : fallible SendStep :=
  interface ← as_or get_string node "interface" "eth0";
  pcap_file ← get_optional get_string node "pcap_file";
  delay ← duration_field node "delay" 0;
  raw_data ← parse_field parse_bytes node ["raw"; "data"];
  Done (mkSendStep interface pcap_file raw_data delay).

Definition parse_wait_step node : fallible Z :=
  if is_scalar node then parse_duration (Some node) 0 else duration_field node "duration" 1000.

Definition parse_within node : fallible Z :=
  within ← lookup_key node "within";
  match within with
  | Some v => parse_duration (Some v) 1000
  | None =>
      within_ms ← lookup_key node "within_ms";
      ms ← match within_ms with Some v => get_int64 v | None => Done 1000 end;
      timeout ← lookup_key node "timeout";
      match timeout with Some v => parse_duration (Some v) 1000 | None => Done ms end
  end.

Definition parse_count_field node : fallible CountExpression :=
  v ← lookup_key node "count";
  match v with
  | Some v =>
      if is_scalar v then text ← get_string v; Done (default default_count (parse_count text)) else Done default_count
  | None => Done default_count
  end.

Definition parse_expect_step node : fallible ExpectStep :=
  ethernet ← parse_field parse_ethernet_expect node ["ethernet"];
  ipv4 ← parse_field parse_ipv4_expect node ["ipv4"; "ip"];
  udp ← parse_field parse_udp_expect node ["udp"];
  tcp ← parse_field parse_tcp_expect node ["tcp"];
  someip ← parse_field parse_someip_expect node ["someip"];
  someip_sd ← parse_field parse_someip_sd_expect node ["someip_sd"; "sd"];
  doip ← parse_field parse_doip_expect node ["doip"];
  payload ← parse_field parse_payload_expect node ["payload"];
  within ← parse_within node;
  count ← parse_count_field node;
  description ← optional_or get_string node "description" "";
  required ← as_or get_bool node "required" true;
  Done (mkExpectStep ethernet ipv4 udp tcp someip someip_sd doip None payload within count description required).

Definition parse_log_step node : fallible Step :=
  if is_scalar node then text ← get_string node; Done (LogStep text "info")
  else
    text ← as_or get_string node "message" "";
    level ← as_or get_string node "level" "info";
    Done (LogStep text level).

Definition step_kinds : list (string * (D -> fallible Step)) :=
  [("capture", fun j => c ← parse_capture_config j; Done (CaptureStep c));
   ("send", fun j => s ← parse_send_step j; Done (Send s));
   ("wait", fun j => d ← parse_wait_step j; Done (WaitStep d));
   ("expect", fun j => e ← parse_expect_step j; Done (Expect e));
   ("log", parse_log_step)].

Definition parse_step : D -> fallible Step :=
  parse_kinds (fun node => e ← parse_expect_step node; Done (Expect e)) step_kinds.

(** ** Scenarios *)

Definition list_field {A} (get : D -> fallible A) node (key : string) : fallible (list A) :=
  v ← lookup_key node key; match v with Some v => get_all get (elements v) | None => Done [] end.

Definition parse_scenario root : fallible Scenario :=
  name ← as_or get_string root "name" "Unnamed Scenario";
  description ← optional_or get_string root "description" "";
  version ← as_or get_string root "version" "1.0";
  timeout ← duration_field root "timeout" 30000;
  tags ← list_field get_string root "tags";
  steps ← list_field parse_step root "steps";
  Done (mkScenario name description version tags timeout steps).

(** [YamlParser::parse]; the [std::size_t] of the mark wraps. *)
Definition parse_yaml (content : string) : ParseResult :=
  match yaml_load content with
  | inl (ParserException text l c) => Fail (mkParseError text (uint 64 (l + 1)) (uint 64 (c + 1)))
  | inl (OtherException text) => Fail (mkParseError text 0 0)
  | inr root =>
      match parse_scenario root with
      | Done sc => Done sc
      | Fail text => Fail (mkParseError text 0 0)
      | Undef => Undef
      end
  end.
End yaml.

(** ** Files *)

Section files.
Context {J Y : Type} `{!Json J, !Yaml Y} (read_file : string -> option string).

(** [JsonParser::parse_file] and [YamlParser::parse_file]. *)
Definition parse_file (parse : string -> ParseResult) (path : string) : ParseResult :=
  match read_file path with
  | None => Fail (mkParseError ("Failed to open file: " +:+ path) 0 0)
  | Some content => parse content
  end.

(** [parse_scenario_file]; a stream that could not be opened has no content. *)
Definition parse_scenario_file (path : string) : ParseResult :=
  let ext := lower (extension path) in
  if String.eqb ext ".yaml" || String.eqb ext ".yml" then parse_yaml (D := Y) (default "" (read_file path))
  else if String.eqb ext ".json" then parse_file (parse_json (D := J)) path
  else Fail (mkParseError ("Unsupported file extension: " +:+ ext +:+ " (supported: .yaml, .yml, .json)") 0 0).
End files.

(** ** What the parser reads *)

(** Scalars are texts; a number is the text of its digits. *)
Class YamlLaws (D : Type) `{!Yaml D} := {
  yaml_laws :: DocumentLaws D;
  yaml_map l d : represents (TMap l) d -> is_scalar d = false;
  yaml_int n d : represents (TInt n) d -> is_scalar d = true /\ get_string d = Done (pretty n);
  yaml_text s d : represents (TText s) d -> is_scalar d = true
}.

Lemma append_empty s : s +:+ "" = s.
Proof. induction s as [|c s IH]; [reflexivity|]. change (String c (s +:+ "") = String c s). rewrite IH. reflexivity. Qed.

Section yaml_round_trip.
Context {D : Type} `{!Yaml D, !YamlLaws D}.
Implicit Types d : D.

Lemma as_or_present {A} (get : D -> fallible A) (enc : A -> tree) l d k a dflt :
  represents (fields l) d -> distinct_keys l = true -> pick k l = Some (enc a) -> reads get enc a -> as_or get d k dflt = Done a.
Proof.
  intros H Hd Hp Hr. destruct (lookup_fields l d k H Hd) as (r & Hl & Hf). rewrite Hp in Hf.
  inversion Hf as [? v Hv|]; subst. unfold as_or. rewrite Hl, bind_Done, (Hr v Hv). reflexivity.
Qed.

Lemma optional_or_present {A} (get : D -> fallible A) (enc : A -> tree) l d k a dflt :
  represents (fields l) d -> distinct_keys l = true -> pick k l = Some (enc a) -> reads get enc a ->
  optional_or get d k dflt = Done a.
Proof.
  intros H Hd Hp Hr. unfold optional_or.
  rewrite (get_optional_field get enc l d k (Some a) H Hd Hp), bind_Done; [reflexivity|]. intros ? [= <-]. exact Hr.
Qed.

Lemma reads_yaml_duration n dflt : wf_duration n -> reads (fun d => parse_duration (Some d) dflt) TInt n.
Proof.
  intros Hn d Hd. destruct (yaml_int _ _ Hd) as [Hs Ht]. unfold parse_duration.
  rewrite (represents_not_null _ _ Hd), Hs, Ht, bind_Done. f_equal. unfold wf_duration in Hn.
  pose proof (duration_text_exact ["us"; String "194" (String "181" "s")] n [] "") as E.
  cbn [String.string_of_list_ascii] in E. change ("" +:+ "") with "" in E. rewrite append_empty in E.
  rewrite E; [|lia | constructor | exact I | reflexivity | reflexivity].
  change (sint 64 n = n). rewrite <- (uint_small 64 n) at 1 by (unfold fits; lia). apply sint_uint; [lia | unfold fits_signed; lia].
Qed.

Lemma yaml_duration_present l d k n dflt :
  represents (fields l) d -> distinct_keys l = true -> pick k l = Some (TInt n) -> wf_duration n -> duration_field d k dflt = Done n.
Proof.
  intros H Hd Hp Hn. destruct (lookup_fields l d k H Hd) as (r & Hl & Hf). rewrite Hp in Hf.
  inversion Hf as [? v Hv|]; subst. unfold duration_field. rewrite Hl, bind_Done. apply (reads_yaml_duration n dflt Hn v Hv).
Qed.

Ltac read_or H :=
  eapply bind_eq;
  [first
     [ eapply (as_or_present get_string TText _ _ _ _ _ H); [reflexivity | reflexivity | apply reads_text]
     | eapply (as_or_present get_bool TBool _ _ _ _ _ H); [reflexivity | reflexivity | apply reads_bool]
     | eapply (optional_or_present get_string TText _ _ _ _ _ H); [reflexivity | reflexivity | apply reads_text]
     | eapply (yaml_duration_present _ _ _ _ _ H); [reflexivity | reflexivity | assumption] ]
  |].

(** A capture step has to name a file: without one an empty optional is read. *)
Lemma yaml_capture c d :
  wf_duration (capture_timeout c) -> represents (capture_tree c) d ->
  parse_capture_config d = match pcap_file c with Some _ => Done c | None => Undef end.
Proof.
  intros Hn H. unfold parse_capture_config. do 2 read_or H. read_field H. do 2 read_or H.
  destruct (pcap_file c) as [file|] eqn:Hf; [|reflexivity].
  assert (Hsame : forall k, pick k [("interface", Some (TText (interface c))); ("filter", Some (TText (filter c)));
      ("pcap_file", TText <$> pcap_file c); ("timeout", Some (TInt (capture_timeout c)));
      ("promiscuous", Some (TBool (promiscuous c)))] = None -> alternative_file d k (Some file) = Done (Some file)).
  { intros k Hk. unfold alternative_file. destruct (String.eqb file ""); [|reflexivity].
    destruct (lookup_fields _ d k H eq_refl) as (r & Hl & Hr). rewrite Hk in Hr. inversion Hr; subst. rewrite Hl. reflexivity. }
  pose proof (Hsame "pcap" eq_refl) as H1. pose proof (Hsame "file" eq_refl) as H2.
  rewrite H1, bind_Done, H2, bind_Done, <- Hf. destruct c. reflexivity.
Qed.

Lemma reads_yaml_send s : wf_duration (delay s) -> reads parse_send_step send_tree s.
Proof.
  intros Hn d H. unfold parse_send_step. read_or H. read_field H. read_or H.
  read_part H bytes_tree (raw_data s); [apply reads_bytes|]. destruct s. reflexivity.
Qed.

Lemma yaml_within_present l d n :
  represents (fields l) d -> distinct_keys l = true -> pick "within" l = Some (TInt n) -> wf_duration n -> parse_within d = Done n.
Proof.
  intros H Hd Hp Hn. destruct (lookup_fields l d "within" H Hd) as (r & Hl & Hf). rewrite Hp in Hf. inversion Hf as [? v Hv|]; subst.
  unfold parse_within. rewrite Hl, bind_Done. apply (reads_yaml_duration n 1000 Hn v Hv).
Qed.

Lemma yaml_count_present l d c :
  represents (fields l) d -> distinct_keys l = true -> pick "count" l = Some (TText (count_expr_string c)) -> fits 64 (value c) ->
  parse_count_field d = Done c.
Proof.
  intros H Hd Hp Hc. destruct (lookup_fields l d "count" H Hd) as (r & Hl & Hf). rewrite Hp in Hf. inversion Hf as [? v Hv|]; subst.
  unfold parse_count_field. rewrite Hl, bind_Done, (yaml_text _ _ Hv), (text_string _ _ Hv), bind_Done, count_round_trip by exact Hc.
  reflexivity.
Qed.

Lemma reads_yaml_expect e : wf_expect e -> reads parse_expect_step expect_tree e.
Proof.
  intros [] d H. unfold parse_expect_step.
  read_part H ethernet_tree (ethernet e); [apply reads_ethernet; eapply wfe_ethernet; eassumption|].
  read_part H ipv4_tree (ipv4 e); [apply reads_ipv4; eapply wfe_ipv4; eassumption|].
  read_part H udp_tree (udp e); [apply reads_udp; eapply wfe_udp; eassumption|].
  read_part H tcp_tree (tcp e); [apply reads_tcp; eapply wfe_tcp; eassumption|].
  read_part H someip_tree (someip e); [apply reads_someip; eapply wfe_someip; eassumption|].
  read_part H someip_sd_tree (someip_sd e); [apply reads_someip_sd; eapply wfe_sd; eassumption|].
  read_part H doip_tree (doip e); [apply reads_doip; eapply wfe_doip; eassumption|].
  read_part H payload_tree (payload_expect e); [apply reads_payload; eapply wfe_payload; eassumption|].
  eapply bind_eq; [eapply (yaml_within_present _ _ _ H); [reflexivity | reflexivity | assumption]|].
  eapply bind_eq; [eapply (yaml_count_present _ _ _ H); [reflexivity | reflexivity | assumption]|].
  do 2 read_or H. destruct e. cbn in wfe_uds. subst. reflexivity.
Qed.

(** Whether a step can be read from YAML at all. *)
Definition names_file (s : Step) : bool :=
  match s with CaptureStep c => match pcap_file c with Some _ => true | None => false end | _ => true end.

Lemma yaml_step s d :
  wf_step s -> represents (step_tree s) d -> parse_step d = if names_file s then Done s else Undef.
Proof.
  intros Hs H. unfold parse_step.
  destruct s as [c|s|n|e|m l]; cbn [step_tree wf_step names_file] in *;
    destruct (parse_kinds_single (fun node => e ← parse_expect_step node; Done (Expect e)) step_kinds _ _ _ H) as (v & Hv & ->);
    cbv [kind_of step_kinds String.eqb Ascii.eqb Bool.eqb].
  - rewrite (yaml_capture c v Hs Hv). destruct (pcap_file c); reflexivity.
  - rewrite (reads_yaml_send s Hs v Hv). reflexivity.
  - unfold parse_wait_step. rewrite (proj1 (yaml_int _ _ Hv)), (reads_yaml_duration n 0 Hs v Hv). reflexivity.
  - rewrite (reads_yaml_expect e Hs v Hv). reflexivity.
  - unfold parse_log_step. rewrite (yaml_map _ _ Hv). do 2 read_or Hv. reflexivity.
Qed.

Lemma yaml_steps l ds :
  Forall wf_step l -> Forall2 represents (map step_tree l) ds ->
  get_all parse_step ds = if forallb names_file l then Done l else Undef.
Proof.
  intros Hl. revert ds. induction Hl as [|s l Hs Hl IH]; intros ds Hd; cbn [map] in Hd.
  - apply Forall2_nil_inv_l in Hd as ->. reflexivity.
  - apply Forall2_cons_inv_l in Hd as (d & ds' & Hd & Hds & ->). cbn [get_all forallb].
    rewrite (yaml_step s d Hs Hd), (IH _ Hds). destruct (names_file s), (forallb names_file l); reflexivity.
Qed.

Lemma yaml_scenario sc d :
  wf_scenario sc -> represents (scenario_tree sc) d ->
  parse_scenario d = if forallb names_file (steps sc) then Done sc else Undef.
Proof.
  intros [Ht Hs] H. unfold parse_scenario. do 4 read_or H.
  destruct (lookup_present _ d "tags" _ H eq_refl eq_refl) as (v & Hl & Hv).
  eapply bind_eq; [unfold list_field; rewrite Hl, bind_Done; apply (get_all_seq get_string TText);
    [apply (seq_elements _ _ Hv) | apply Forall_true; intros; apply reads_text]|].
  destruct (lookup_present _ d "steps" _ H eq_refl eq_refl) as (v' & Hl' & Hv').
  unfold list_field. rewrite Hl', bind_Done, (yaml_steps _ _ Hs (proj2 (seq_elements _ _ Hv'))).
  destruct sc. cbn. destruct (forallb names_file steps); reflexivity.
Qed.
End yaml_round_trip.

(** [C30] The two parsers agree.  A scenario whose fields fit their types, written as a JSON and
    as a YAML document with the same keys and values, is what the JSON parser returns, and
    what the YAML parser returns if all its capture steps name a file; with a capture on
    an interface only, the YAML parser reads an empty optional. *)
Theorem scenario_parsers_agree {J Y} `{!Json J, !JsonLaws J, !Yaml Y, !YamlLaws Y} (sc : Scenario) (j : J) (y : Y)
    (Hsc : wf_scenario sc) (Hj : represents (scenario_tree sc) j) (Hy : represents (scenario_tree sc) y) :
  JsonParser.parse_scenario j = Done sc /\
  parse_scenario y = if forallb names_file (steps sc) then Done sc else Undef.
Proof. split; [apply json_scenario_round_trip; assumption | apply yaml_scenario; assumption]. Qed.

(** A YAML file that cannot be opened is an empty scenario, and no error, when the empty
    text loads as a document without keys; a JSON file is an error. *)
Theorem missing_scenario_file {J Y} `{!Json J, !Yaml Y} (read_file : string -> option string) (path : string) (root : Y)
    (Hmissing : read_file path = None) (Hload : yaml_load "" = inr root) (Hempty : forall key, lookup_key root key = Done None) :
  parse_scenario_file (J := J) (Y := Y) read_file path =
    let ext := lower (extension path) in
    if String.eqb ext ".yaml" || String.eqb ext ".yml" then Done (mkScenario "Unnamed Scenario" "" "1.0" [] 30000 [])
    else if String.eqb ext ".json" then Fail (mkParseError ("Failed to open file: " +:+ path) 0 0)
    else Fail (mkParseError ("Unsupported file extension: " +:+ ext +:+ " (supported: .yaml, .yml, .json)") 0 0).
Proof.
  unfold parse_scenario_file. cbv zeta. rewrite Hmissing. cbn [default].
  destruct (_ || _); [|destruct (String.eqb _ ".json"); [unfold parse_file; rewrite Hmissing; reflexivity | reflexivity]].
  unfold parse_yaml. rewrite Hload. unfold parse_scenario, as_or, optional_or, get_optional, duration_field, list_field.
  rewrite !Hempty, !bind_Done. reflexivity.
Qed.

(** ** Documents that are trees *)

Definition tree_lookup (t : tree) (k : string) : fallible (option tree) :=
  Done (match t with TMap l => assoc k l | _ => None end).
Definition tree_elements (t : tree) : list tree := match t with TSeq l => l | _ => [] end.
Definition tree_is_seq (t : tree) : bool := match t with TSeq _ => true | _ => false end.
Definition tree_bool (t : tree) : fallible bool := match t with TBool b => Done b | _ => Fail "not a boolean" end.
Definition tree_int (t : tree) : fallible Z := match t with TInt n => Done n | _ => Fail "not a number" end.

#[local] Instance tree_json : Json tree := {|
  json_document := {|
    lookup_key := tree_lookup;
    is_null t := false;
    is_sequence := tree_is_seq;
    elements := tree_elements;
    get_string t := match t with TText s => Done s | _ => Fail "not a string" end;
    get_bool := tree_bool;
    get_uint w := tree_int;
    get_int64 := tree_int
  |};
  is_object t := match t with TMap _ => true | _ => false end;
  is_string t := match t with TText _ => true | _ => false end;
  is_number t := match t with TInt _ => true | _ => false end;
  value_error t := "cannot use value()";
  json_parse text := inl (mkJsonError "no parser" 1)
|}.

(** The same for YAML, where the type needs a name of its own. *)
Record yaml_tree := mkYamlTree { the_tree : tree }.
#[local] Instance tree_yaml : Yaml yaml_tree := {|
  yaml_document := {|
    lookup_key t k := Done (match the_tree t with TMap l => option_map mkYamlTree (assoc k l) | _ => None end);
    is_null t := false;
    is_sequence t := tree_is_seq (the_tree t);
    elements t := map mkYamlTree (tree_elements (the_tree t));
    get_string t := match the_tree t with TText s => Done s | TInt n => Done (pretty n) | _ => Fail "bad conversion" end;
    get_bool t := tree_bool (the_tree t);
    get_uint w t := tree_int (the_tree t);
    get_int64 t := tree_int (the_tree t)
  |};
  is_scalar t := match the_tree t with TSeq _ | TMap _ => false | _ => true end;
  yaml_load text := inr (mkYamlTree (TMap []))
|}.

#[local] Instance tree_json_laws : JsonLaws tree.
Proof.
  unshelve refine {| json_laws := {| represents := eq |} |}; try (cbn; intros; subst; repeat split; reflexivity).
  - intros l d k <-. exists (assoc k l). split; [reflexivity|]. destruct (assoc k l); constructor. reflexivity.
Defined.

#[local] Instance tree_yaml_laws : YamlLaws yaml_tree.
Proof.
  unshelve refine {| yaml_laws := {| represents t d := d = mkYamlTree t |} |}; try (cbn; intros; subst; repeat split; reflexivity).
  - intros l d k ->. exists (option_map mkYamlTree (assoc k l)). split; [reflexivity|]. destruct (assoc k l); constructor. reflexivity.
  - intros l d ->. split; [reflexivity|]. change (Forall2 (fun t d => d = mkYamlTree t) l (map mkYamlTree l)). clear. induction l; constructor; auto.
Defined.

Definition sample_expect : ExpectStep :=
  mkExpectStep None (Some (mkIPv4Expect (Some "10.0.0.1") None (Some 17) None)) (Some (mkUDPExpect None (Some 30490))) None
    (Some (mkSomeIpExpect (Some 0x1234) None None None (Some SomeIpRequest) None)) None None None
    (Some (mkPayloadExpect (Some [x01; x02]) None None (Some 1400))) 500 (mkCount LessEqual 3) "three requests" true.
Definition sample_scenario (pcap : option string) : Scenario :=
  mkScenario "sample" "" "1.0" ["smoke"] 30000
    [CaptureStep (mkCaptureConfig "eth0" "udp" pcap 5000 true); WaitStep 250; Expect sample_expect; LogStep "done" "info"].

Lemma sample_scenario_wf pcap : wf_scenario (sample_scenario pcap).
Proof.
  split; [unfold wf_duration; cbn; lia|]. repeat constructor; cbn; unfold wf_duration, each, all_fit, wf_someip, fits; cbn;
    intros; simplify_eq/=; repeat split; intros; simplify_eq/=; lia.
Qed.

Lemma scenario_parsers_agree_witness :
  JsonParser.parse_scenario (scenario_tree (sample_scenario None)) = Done (sample_scenario None) /\
  parse_scenario (mkYamlTree (scenario_tree (sample_scenario None))) = Undef /\
  parse_scenario (mkYamlTree (scenario_tree (sample_scenario (Some "a.pcap")))) = Done (sample_scenario (Some "a.pcap")).
Proof.
  set (t := fun pcap => scenario_tree (sample_scenario pcap)).
  assert (Hj : forall pcap, represents (D := tree) (scenario_tree (sample_scenario pcap)) (t pcap)) by (intros; reflexivity).
  assert (Hy : forall pcap, represents (D := yaml_tree) (scenario_tree (sample_scenario pcap)) (mkYamlTree (t pcap)))
    by (intros; reflexivity).
  destruct (scenario_parsers_agree (sample_scenario None) _ _ (sample_scenario_wf None) (Hj None) (Hy None)) as [H1 H2].
  destruct (scenario_parsers_agree _ _ _ (sample_scenario_wf (Some "a.pcap")) (Hj _) (Hy _)) as [_ H3].
  split; [exact H1 | split; [exact H2 | exact H3]].
Defined.
