(* ===== verification/Matchers.v ===== *)
(** * Packet matchers for tests (include/wadjet/testing/matchers.hpp)

    One definition per matcher class, [MatchAndExplain] without its explanation, and the
    shorthands.  Packet matchers decode the packet with the dispatcher behind
    [protocols::decode_packet]; UDS matchers look at a diagnostic message.  The theorems
    say what each matcher accepts in terms of the decoded layers, and compare the matchers
    with the expectations of scenarios (Scenario.v). *)

From Stdlib Require Import ZArith Lia.
From Stdlib Require Import Strings.Byte.
From stdpp Require Import base numbers list strings.
From S2P Require Import Prelude Decoder.
From S2P Require Ethernet Ipv4 Udp Tcp SomeIp DoIP Gptp Rtps Uds UdsTables Address.
From S2P Require Import Dispatcher.
From S2P Require Scenario.
Import Ethernet (EthernetHeader, eth_ethertype, eth_src_mac, eth_dst_mac).

(** ** Packets *)

(** [MatchAndExplain] of a matcher that decodes the packet. *)
Abbreviation matcher := (ProtocolDispatcher -> list byte -> run (bool * ProtocolDispatcher)).
Definition on_decoded (check : DecodeStackResult -> bool) : matcher :=
  fun d data => rd ← decode d data; Done (check rd.1, rd.2).
(** Of one that does not. *)
Definition on_bytes (check : list byte -> bool) : matcher := fun d data => Done (check data, d).

Definition as_rtps (l : DecodedHeader) := match l with RtpsLayer h => Some h | _ => None end.

Definition HasEthertypeMatcher (expected : Z) : matcher :=
  on_decoded (on_layer Scenario.as_ethernet (fun eth => eth_ethertype eth =? expected)).
Definition HasSourceMacMatcher (expected : list byte) : matcher :=
  on_decoded (on_layer Scenario.as_ethernet (fun eth => bool_decide (eth_src_mac eth = expected))).
Definition HasDestMacMatcher (expected : list byte) : matcher :=
  on_decoded (on_layer Scenario.as_ethernet (fun eth => bool_decide (eth_dst_mac eth = expected))).
Definition HasVlanMatcher : matcher := on_decoded (on_layer Scenario.as_ethernet Ethernet.has_vlan).

(** [(data[i] << 8) | data[i + 1]], for indices that are known to be in range. *)
Definition word_at (data : list byte) (i : nat) : Z :=
  Z.lor (Z.shiftl (u8 (nth i data x00)) 8) (u8 (nth (S i) data x00)).

Definition HasVlanIdMatcher (expected : Z) : matcher :=
  on_bytes (fun data =>
    if zlen data <? 16 then false
    else
      let ethertype := word_at data 12 in
      if negb (ethertype =? 0x8100) && negb (ethertype =? 0x88A8) then false
      else Z.land (word_at data 14) 0x0FFF =? expected).

Definition HasSourceIPMatcher (expected : list byte) : matcher :=
  on_decoded (on_layer as_ipv4 (fun ip => bool_decide (Ipv4.ip_src ip = expected))).
Definition HasDestIPMatcher (expected : list byte) : matcher :=
  on_decoded (on_layer as_ipv4 (fun ip => bool_decide (Ipv4.ip_dst ip = expected))).
(** [HasSourceIP] and [HasDestIP] of a text and of a number. *)
Definition HasSourceIP_string (ip : list byte) : matcher := HasSourceIPMatcher (Address.IPv4Address_from_string ip).
Definition HasSourceIP_uint32 (ip : Z) : matcher := HasSourceIPMatcher (Address.IPv4Address_from_uint32 ip).
Definition HasDestIP_string (ip : list byte) : matcher := HasDestIPMatcher (Address.IPv4Address_from_string ip).
Definition HasDestIP_uint32 (ip : Z) : matcher := HasDestIPMatcher (Address.IPv4Address_from_uint32 ip).
Definition HasIPProtocolMatcher (expected : Z) : matcher :=
  on_decoded (on_layer as_ipv4 (fun ip => Ipv4.ip_protocol ip =? expected)).
Definition IsUDP : matcher := HasIPProtocolMatcher 17.
Definition IsTCP : matcher := HasIPProtocolMatcher 6.

(** The UDP layer if there is one, the TCP layer otherwise. *)
Definition on_transport (on_udp : Udp.UdpHeader -> bool) (on_tcp : Tcp.TcpHeader -> bool) (r : DecodeStackResult) : bool :=
  match get_layer as_udp (layers r) with
  | Some h => on_udp h
  | None => match get_layer as_tcp (layers r) with Some h => on_tcp h | None => false end
  end.
Definition HasSourcePortMatcher (expected : Z) : matcher :=
  on_decoded (on_transport (fun udp => Udp.udp_src_port udp =? expected) (fun tcp => Tcp.tcp_src_port tcp =? expected)).
Definition HasDestPortMatcher (expected : Z) : matcher :=
  on_decoded (on_transport (fun udp => Udp.udp_dst_port udp =? expected) (fun tcp => Tcp.tcp_dst_port tcp =? expected)).

Definition HasSOMEIPServiceIdMatcher (expected : Z) : matcher :=
  on_decoded (on_layer as_someip (fun someip => SomeIp.service_id someip =? expected)).
Definition HasSOMEIPMethodIdMatcher (expected : Z) : matcher :=
  on_decoded (on_layer as_someip (fun someip => SomeIp.method_id someip =? expected)).
Definition HasSOMEIPMessageTypeMatcher (expected : Z) : matcher :=
  on_decoded (on_layer as_someip (fun someip => SomeIp.message_type someip =? expected)).
Definition IsSOMEIPRequest : matcher := HasSOMEIPMessageTypeMatcher SomeIp.Request.
Definition IsSOMEIPResponse : matcher := HasSOMEIPMessageTypeMatcher SomeIp.Response.
Definition IsSOMEIPNotification : matcher := HasSOMEIPMessageTypeMatcher SomeIp.Notification.
Definition IsSOMEIPRequestNoReturn : matcher := HasSOMEIPMessageTypeMatcher SomeIp.RequestNoReturn.

Definition HasDoIPPayloadTypeMatcher (expected : Z) : matcher :=
  on_decoded (on_layer as_doip (fun doip => DoIP.payload_type doip =? expected)).
Definition IsDoIPDiagnosticMessage : matcher := HasDoIPPayloadTypeMatcher DoIP.DiagnosticMessage.
Definition IsDoIPRoutingActivationRequest : matcher := HasDoIPPayloadTypeMatcher DoIP.RoutingActivationRequest_t.
Definition IsDoIPRoutingActivationResponse : matcher := HasDoIPPayloadTypeMatcher DoIP.RoutingActivationResponse_t.
Definition IsDoIPVehicleIdentificationRequest : matcher := HasDoIPPayloadTypeMatcher DoIP.VehicleIdentificationRequest.
Definition IsDoIPVehicleIdentificationResponse : matcher :=
  HasDoIPPayloadTypeMatcher DoIP.VehicleAnnouncementOrIdentificationResponse.

Definition IsGptpMatcher : matcher := on_decoded (has_protocol as_gptp).
Definition HasGptpMessageTypeMatcher (expected : Z) : matcher :=
  on_decoded (on_layer as_gptp (fun gptp => Gptp.message_type gptp =? expected)).
Definition IsGptpSync : matcher := HasGptpMessageTypeMatcher Gptp.Sync.
Definition IsGptpFollowUp : matcher := HasGptpMessageTypeMatcher Gptp.Follow_Up.
Definition IsGptpPdelayReq : matcher := HasGptpMessageTypeMatcher Gptp.Pdelay_Req.
Definition IsGptpPdelayResp : matcher := HasGptpMessageTypeMatcher Gptp.Pdelay_Resp.
Definition IsGptpPdelayRespFollowUp : matcher := HasGptpMessageTypeMatcher Gptp.Pdelay_Resp_Follow_Up.
Definition IsGptpAnnounce : matcher := HasGptpMessageTypeMatcher Gptp.Announce.
Definition IsGptpSignaling : matcher := HasGptpMessageTypeMatcher Gptp.Signaling.
Definition HasGptpDomainMatcher (expected : Z) : matcher :=
  on_decoded (on_layer as_gptp (fun gptp => Gptp.domain_number gptp =? expected)).
Definition HasGptpSequenceIdMatcher (expected : Z) : matcher :=
  on_decoded (on_layer as_gptp (fun gptp => Gptp.sequence_id gptp =? expected)).
Definition GptpFromPortMatcher (expected : Gptp.PortIdentity) : matcher :=
  on_decoded (on_layer as_gptp (fun gptp =>
    let src := Gptp.source_port_identity gptp in
    bool_decide (Gptp.clock_identity src = Gptp.clock_identity expected) &&
    (Gptp.port_number src =? Gptp.port_number expected))).
Definition GptpFromClockMatcher (expected : Gptp.ClockIdentity) : matcher :=
  on_decoded (on_layer as_gptp (fun gptp => bool_decide (Gptp.clock_identity (Gptp.source_port_identity gptp) = expected))).
Definition IsGptpEventMessageMatcher : matcher :=
  on_decoded (on_layer as_gptp (fun gptp => Gptp.is_event_message (Gptp.message_type gptp))).
Definition IsGptpTwoStepMatcher : matcher := on_decoded (on_layer as_gptp Gptp.is_two_step).

Definition PayloadContainsMatcher (pattern : list byte) : matcher :=
  on_bytes (fun data => negb (Scenario.search data pattern =? length data)%nat).
Definition PayloadSizeMatcher (expected : Z) : matcher := on_bytes (fun data => zlen data =? expected).

Definition DecodesSuccessfullyMatcher : matcher :=
  on_decoded (fun r => match error r with Some _ => false | None => true end).

(** *** RTPS *)

Definition IsRtpsMatcher : matcher := on_decoded (has_protocol as_rtps).
Definition HasRtpsVersionMatcher (major minor : Z) : matcher :=
  on_decoded (on_layer as_rtps (fun rtps =>
    (Rtps.major (Rtps.version rtps) =? major) && (Rtps.minor (Rtps.version rtps) =? minor))).

(** [VendorIdValue::to_enum], for the two bytes of a decoded header. *)
Definition to_enum (v : Rtps.VendorIdValue) : Z := uint 16 (word_at v 0).
Definition VendorId_RTI : Z := 0x0101.
Definition VendorId_OCI : Z := 0x0103.
Definition VendorId_Eprosima : Z := 0x010F.
Definition VendorId_Eclipse : Z := 0x0120.
Definition HasRtpsVendorMatcher (expected : Z) : matcher :=
  on_decoded (on_layer as_rtps (fun rtps => to_enum (Rtps.vendor_id rtps) =? expected)).
Definition IsFromFastDDS : matcher := HasRtpsVendorMatcher VendorId_Eprosima.
Definition IsFromRTI : matcher := HasRtpsVendorMatcher VendorId_RTI.
Definition IsFromCycloneDDS : matcher := HasRtpsVendorMatcher VendorId_Eclipse.
Definition IsFromOpenDDS : matcher := HasRtpsVendorMatcher VendorId_OCI.

Definition HasRtpsGuidPrefixMatcher (expected : Rtps.GuidPrefix) : matcher :=
  on_decoded (on_layer as_rtps (fun rtps => bool_decide (Rtps.guid_prefix rtps = expected))).
Definition HasRtpsSubmessageMatcher (expected : Z) : matcher :=
  on_decoded (on_layer as_rtps (fun rtps => existsb (fun submsg => Rtps.sub_kind submsg =? expected) (Rtps.submessages rtps))).
Definition HasRtpsData : matcher := HasRtpsSubmessageMatcher Rtps.DATA.
Definition HasRtpsHeartbeat : matcher := HasRtpsSubmessageMatcher Rtps.HEARTBEAT.
Definition HasRtpsAckNack : matcher := HasRtpsSubmessageMatcher Rtps.ACKNACK.
Definition HasRtpsGap : matcher := HasRtpsSubmessageMatcher Rtps.GAP.
Definition HasRtpsInfoTs : matcher := HasRtpsSubmessageMatcher Rtps.INFO_TS.
Definition HasRtpsInfoDst : matcher := HasRtpsSubmessageMatcher Rtps.INFO_DST.
Definition HasRtpsSubmessageCountMatcher (min_count : Z) : matcher :=
  on_decoded (on_layer as_rtps (fun rtps => min_count <=? zlen (Rtps.submessages rtps))).

Definition BuiltinWriterWithKey : Z := 0xC2.
Definition is_builtin_writer (writer_id : Rtps.EntityId) (entity_key : list byte) : bool :=
  (Rtps.kind writer_id =? BuiltinWriterWithKey) && bool_decide (Rtps.entity_key writer_id = entity_key).
(** The test of one submessage: the writers of SPDP, of SEDP publications and of SEDP subscriptions. *)
Definition is_discovery_submessage (submsg : Rtps.Submessage) : bool :=
  if Rtps.sub_kind submsg =? Rtps.DATA then
    match Rtps.sub_body submsg with
    | Rtps.DataBody data_submsg =>
        is_builtin_writer (Rtps.d_writer_id data_submsg) [x00; x01; x00] ||
        is_builtin_writer (Rtps.d_writer_id data_submsg) [x00; x00; x03] ||
        is_builtin_writer (Rtps.d_writer_id data_submsg) [x00; x00; x04]
    | _ => false
    end
  else false.
Definition IsRtpsDiscoveryMatcher : matcher :=
  on_decoded (on_layer as_rtps (fun rtps => existsb is_discovery_submessage (Rtps.submessages rtps))).

(** ** Diagnostic messages *)

Definition IsUdsRequestMatcher (data : list byte) : bool := Uds.is_request data.
Definition IsUdsPositiveResponseMatcher (data : list byte) : bool := Uds.is_positive_response data.
Definition IsUdsResponseMatcher (data : list byte) : bool := Uds.is_positive_response data || Uds.is_negative_response data.
Definition IsUdsNegativeResponseMatcher (data : list byte) : bool := Uds.is_negative_response data.

(** [decoder.decode(span)]; a message that does not decode does not match. *)
Definition on_uds (check : Uds.UdsDecodeResult -> run bool) (data : list byte) : run bool :=
  match Uds.decode data with Done r => check r | Fail _ => Done false | Undef => Undef end.

Definition HasUdsServiceMatcher (expected : Z) : list byte -> run bool :=
  on_uds (fun result => Done (Uds.service_id (Uds.header result) =? expected)).
Definition IsUdsDiagnosticSessionControl := HasUdsServiceMatcher Uds.DiagnosticSessionControl.
Definition IsUdsECUReset := HasUdsServiceMatcher Uds.ECUReset.
Definition IsUdsSecurityAccess := HasUdsServiceMatcher Uds.SecurityAccess.
Definition IsUdsTesterPresent := HasUdsServiceMatcher Uds.TesterPresent.
Definition IsUdsReadDataByIdentifier := HasUdsServiceMatcher Uds.ReadDataByIdentifier.
Definition IsUdsWriteDataByIdentifier := HasUdsServiceMatcher Uds.WriteDataByIdentifier.
Definition IsUdsRoutineControl := HasUdsServiceMatcher Uds.RoutineControl.
Definition IsUdsRequestDownload := HasUdsServiceMatcher Uds.RequestDownload.
Definition IsUdsTransferData := HasUdsServiceMatcher Uds.TransferData.

Definition HasUdsDIDMatcher (expected : Z) : list byte -> run bool :=
  on_uds (fun result => Done
    match Uds.message result with
    | Uds.ReadDataByIdentifierRequest data_identifiers => existsb (fun did => did =? expected) data_identifiers
    | Uds.ReadDataByIdentifierResponse records => existsb (fun record => record.1 =? expected) records
    | Uds.WriteDataByIdentifierRequest data_identifier _ => data_identifier =? expected
    | Uds.WriteDataByIdentifierResponse data_identifier => data_identifier =? expected
    | _ => false
    end).
Definition DID_VIN : Z := 0xF190.
Definition HasUdsVinDID := HasUdsDIDMatcher DID_VIN.

(** The response code is dereferenced without a test. *)
Definition HasUdsNRCMatcher (expected : Z) : list byte -> run bool :=
  on_uds (fun result =>
    match Uds.direction (Uds.header result) with
    | Uds.NegativeResponse =>
        match Uds.negative_response_code (Uds.header result) with Some nrc => Done (nrc =? expected) | None => Undef end
    | _ => Done false
    end).
Definition HasUdsServiceNotSupported := HasUdsNRCMatcher UdsTables.ServiceNotSupported.
Definition HasUdsSecurityAccessDenied := HasUdsNRCMatcher UdsTables.SecurityAccessDenied.
Definition HasUdsRequestOutOfRange := HasUdsNRCMatcher UdsTables.RequestOutOfRange.
Definition HasUdsConditionsNotCorrect := HasUdsNRCMatcher UdsTables.ConditionsNotCorrect.
Definition HasUdsResponsePending := HasUdsNRCMatcher UdsTables.RequestCorrectlyReceivedResponsePending.

Definition HasUdsSessionTypeMatcher (expected : Z) : list byte -> run bool :=
  on_uds (fun result => Done
    match Uds.message result with
    | Uds.DiagnosticSessionControlRequest session_type _ => session_type =? expected
    | Uds.DiagnosticSessionControlResponse session_type _ _ => session_type =? expected
    | _ => false
    end).
Definition IsUdsDefaultSession := HasUdsSessionTypeMatcher UdsTables.DefaultSession.
Definition IsUdsProgrammingSession := HasUdsSessionTypeMatcher UdsTables.ProgrammingSession.
Definition IsUdsExtendedSession := HasUdsSessionTypeMatcher UdsTables.ExtendedDiagnosticSession.

(** * Properties *)

(** ** What the packet matchers accept *)

(** The packet matchers as data. *)
Inductive PacketMatcher :=
| HasEthertype (t : Z) | HasSourceMac (a : list byte) | HasDestMac (a : list byte) | HasVlan | HasVlanId (v : Z)
| HasSourceIP (a : list byte) | HasDestIP (a : list byte) | HasIPProtocol (p : Z)
| HasSourcePort (p : Z) | HasDestPort (p : Z)
| HasSOMEIPServiceId (s : Z) | HasSOMEIPMethodId (m : Z) | HasSOMEIPMessageType (t : Z)
| HasDoIPPayloadType (t : Z)
| IsGptp | HasGptpMessageType (t : Z) | HasGptpDomain (n : Z) | HasGptpSequenceId (n : Z)
| GptpFromPort (p : Gptp.PortIdentity) | GptpFromClock (c : Gptp.ClockIdentity) | IsGptpEventMessage | IsGptpTwoStep
| PayloadContains (p : list byte) | HasPayloadSize (n : Z) | DecodesSuccessfully
| IsRtps | HasRtpsVersion (major minor : Z) | HasRtpsVendor (v : Z) | HasRtpsGuidPrefix (p : Rtps.GuidPrefix)
| HasRtpsSubmessage (k : Z) | HasRtpsSubmessageCount (n : Z) | IsRtpsDiscovery.

Definition MatchAndExplain (m : PacketMatcher) : matcher :=
  match m with
  | HasEthertype t => HasEthertypeMatcher t
  | HasSourceMac a => HasSourceMacMatcher a
  | HasDestMac a => HasDestMacMatcher a
  | HasVlan => HasVlanMatcher
  | HasVlanId v => HasVlanIdMatcher v
  | HasSourceIP a => HasSourceIPMatcher a
  | HasDestIP a => HasDestIPMatcher a
  | HasIPProtocol p => HasIPProtocolMatcher p
  | HasSourcePort p => HasSourcePortMatcher p
  | HasDestPort p => HasDestPortMatcher p
  | HasSOMEIPServiceId s => HasSOMEIPServiceIdMatcher s
  | HasSOMEIPMethodId m => HasSOMEIPMethodIdMatcher m
  | HasSOMEIPMessageType t => HasSOMEIPMessageTypeMatcher t
  | HasDoIPPayloadType t => HasDoIPPayloadTypeMatcher t
  | IsGptp => IsGptpMatcher
  | HasGptpMessageType t => HasGptpMessageTypeMatcher t
  | HasGptpDomain n => HasGptpDomainMatcher n
  | HasGptpSequenceId n => HasGptpSequenceIdMatcher n
  | GptpFromPort p => GptpFromPortMatcher p
  | GptpFromClock c => GptpFromClockMatcher c
  | IsGptpEventMessage => IsGptpEventMessageMatcher
  | IsGptpTwoStep => IsGptpTwoStepMatcher
  | PayloadContains p => PayloadContainsMatcher p
  | HasPayloadSize n => PayloadSizeMatcher n
  | DecodesSuccessfully => DecodesSuccessfullyMatcher
  | IsRtps => IsRtpsMatcher
  | HasRtpsVersion major minor => HasRtpsVersionMatcher major minor
  | HasRtpsVendor v => HasRtpsVendorMatcher v
  | HasRtpsGuidPrefix p => HasRtpsGuidPrefixMatcher p
  | HasRtpsSubmessage k => HasRtpsSubmessageMatcher k
  | HasRtpsSubmessageCount n => HasRtpsSubmessageCountMatcher n
  | IsRtpsDiscovery => IsRtpsDiscoveryMatcher
  end.

(** A layer of the packet with a property. *)
Definition has {H} (layer : H -> DecodedHeader) (P : H -> Prop) (r : DecodeStackResult) : Prop :=
  exists h, layer h ∈ layers r /\ P h.

(** The built-in writers of discovery: SPDP, and SEDP publications and subscriptions. *)
Definition discovery_writers : list Rtps.EntityId :=
  [Rtps.mkEntityId [x00; x01; x00] 0xC2; Rtps.mkEntityId [x00; x00; x03] 0xC2; Rtps.mkEntityId [x00; x00; x04] 0xC2].

Definition announces_discovery (h : Rtps.RtpsHeader) : Prop :=
  exists s m, s ∈ Rtps.submessages h /\ Rtps.sub_kind s = Rtps.DATA /\ Rtps.sub_body s = Rtps.DataBody m /\
    Rtps.d_writer_id m ∈ discovery_writers.

(** The bytes begin with two addresses and a VLAN tag with this identifier. *)
Definition tagged (v : Z) (data : list byte) : Prop :=
  exists addresses t rest, length addresses = 12%nat /\ data = addresses ++ Ethernet.encode_tag t ++ rest /\
    Ethernet.wf_tag t /\ Ethernet.vid t = v.

(** What a matcher asks of a packet and its decoded layers. *)
Definition satisfies (m : PacketMatcher) (data : list byte) (r : DecodeStackResult) : Prop :=
  match m with
  | HasEthertype t => has EthernetLayer (fun h => eth_ethertype h = t) r
  | HasSourceMac a => has EthernetLayer (fun h => eth_src_mac h = a) r
  | HasDestMac a => has EthernetLayer (fun h => eth_dst_mac h = a) r
  | HasVlan => has EthernetLayer (fun h => is_Some (Ethernet.eth_vlan h)) r
  | HasVlanId v => tagged v data
  | HasSourceIP a => has IPv4Layer (fun h => Ipv4.ip_src h = a) r
  | HasDestIP a => has IPv4Layer (fun h => Ipv4.ip_dst h = a) r
  | HasIPProtocol p => has IPv4Layer (fun h => Ipv4.ip_protocol h = p) r
  | HasSourcePort p => exists l ports, l ∈ layers r /\ ports_of l = Some ports /\ ports.1 = p
  | HasDestPort p => exists l ports, l ∈ layers r /\ ports_of l = Some ports /\ ports.2 = p
  | HasSOMEIPServiceId s => has SomeIpLayer (fun h => SomeIp.service_id h = s) r
  | HasSOMEIPMethodId m => has SomeIpLayer (fun h => SomeIp.method_id h = m) r
  | HasSOMEIPMessageType t => has SomeIpLayer (fun h => SomeIp.message_type h = t) r
  | HasDoIPPayloadType t => has DoIPLayer (fun h => DoIP.payload_type h = t) r
  | IsGptp => has GptpLayer (fun _ => True) r
  | HasGptpMessageType t => has GptpLayer (fun h => Gptp.message_type h = t) r
  | HasGptpDomain n => has GptpLayer (fun h => Gptp.domain_number h = n) r
  | HasGptpSequenceId n => has GptpLayer (fun h => Gptp.sequence_id h = n) r
  | GptpFromPort p => has GptpLayer (fun h => Gptp.source_port_identity h = p) r
  | GptpFromClock c => has GptpLayer (fun h => Gptp.clock_identity (Gptp.source_port_identity h) = c) r
  | IsGptpEventMessage =>
      has GptpLayer (fun h => Gptp.message_type h ∈ [Gptp.Sync; Gptp.Delay_Req; Gptp.Pdelay_Req; Gptp.Pdelay_Resp]) r
  | IsGptpTwoStep => has GptpLayer (fun h => Gptp.two_step (Gptp.flags h) = true) r
  | PayloadContains p => data <> [] /\ exists before after, data = before ++ p ++ after
  | HasPayloadSize n => zlen data = n
  | DecodesSuccessfully => error r = None
  | IsRtps => has RtpsLayer (fun _ => True) r
  | HasRtpsVersion major minor => has RtpsLayer (fun h => Rtps.version h = Rtps.mkProtocolVersion major minor) r
  | HasRtpsVendor v => has RtpsLayer (fun h => to_enum (Rtps.vendor_id h) = v) r
  | HasRtpsGuidPrefix p => has RtpsLayer (fun h => Rtps.guid_prefix h = p) r
  | HasRtpsSubmessage k => has RtpsLayer (fun h => exists s, s ∈ Rtps.submessages h /\ Rtps.sub_kind s = k) r
  | HasRtpsSubmessageCount n => has RtpsLayer (fun h => n <= zlen (Rtps.submessages h)) r
  | IsRtpsDiscovery => has RtpsLayer announces_discovery r
  end.

Lemma on_layer_has {H} (as_header : DecodedHeader -> option H) (layer : H -> DecodedHeader) k p P first d rest r :
  one_rank as_header k -> (forall l h, as_header l = Some h <-> l = layer h) -> (forall h, p h = true <-> P h) ->
  stack first d (layers r) rest -> on_layer as_header p r = true <-> has layer P r.
Proof.
  intros Hk Hl Hp Hst. rewrite (on_layer_stack as_header k _ _ _ _ _ Hk Hst). unfold has. split.
  - intros (l & h & Hin & Ha & Hh). apply Hl in Ha as ->. apply Hp in Hh. eauto.
  - intros (h & Hin & Hh). exists (layer h), h. split_and!; [exact Hin | apply Hl; reflexivity | apply Hp, Hh].
Qed.

Lemma has_protocol_has {H} (as_header : DecodedHeader -> option H) (layer : H -> DecodedHeader) r :
  (forall l h, as_header l = Some h <-> l = layer h) -> has_protocol as_header r = true <-> has layer (fun _ => True) r.
Proof.
  intros Hl. unfold has_protocol, has_layer, has. rewrite existsb_exists. split.
  - intros (l & Hin & Hs). destruct (as_header l) as [h|] eqn:E; [|discriminate Hs]. apply Hl in E as ->.
    exists h. rewrite list_elem_of_In. auto.
  - intros (h & Hin & _). exists (layer h). rewrite <- list_elem_of_In. split; [exact Hin|].
    rewrite (proj2 (Hl _ _) eq_refl). reflexivity.
Qed.

Lemma on_transport_ports p q f first d rest r :
  (forall h, p h = f (Udp.udp_src_port h, Udp.udp_dst_port h)) -> (forall h, q h = f (Tcp.tcp_src_port h, Tcp.tcp_dst_port h)) ->
  stack first d (layers r) rest ->
  on_transport p q r = true <-> exists l ports, l ∈ layers r /\ ports_of l = Some ports /\ f ports = true.
Proof.
  intros Hp Hq Hst. pose proof (on_layer_stack ports_of 2 f _ _ _ _ ports_of_rank Hst) as Hall. rewrite <- Hall. clear Hall.
  unfold on_transport, on_layer.
  destruct (get_layer as_udp (layers r)) as [h|] eqn:Eu; [|destruct (get_layer as_tcp (layers r)) as [h|] eqn:Et].
  - apply (get_layer_stack _ 2 _ _ _ _ _ as_udp_rank Hst) in Eu as (l & Hin & Hl). destruct l; try discriminate Hl. injection Hl as ->.
    rewrite (proj2 (get_layer_stack ports_of 2 _ _ _ _ (Udp.udp_src_port h, Udp.udp_dst_port h) ports_of_rank Hst)) by eauto.
    rewrite Hp. reflexivity.
  - apply (get_layer_stack _ 2 _ _ _ _ _ as_tcp_rank Hst) in Et as (l & Hin & Hl). destruct l; try discriminate Hl. injection Hl as ->.
    rewrite (proj2 (get_layer_stack ports_of 2 _ _ _ _ (Tcp.tcp_src_port h, Tcp.tcp_dst_port h) ports_of_rank Hst)) by eauto.
    rewrite Hq. reflexivity.
  - destruct (get_layer ports_of (layers r)) as [ports|] eqn:Ep; [exfalso|reflexivity].
    apply (get_layer_stack _ 2 _ _ _ _ _ ports_of_rank Hst) in Ep as (l & Hin & Hl). destruct l; try discriminate Hl.
    + rewrite (proj2 (get_layer_stack as_udp 2 _ _ _ _ h as_udp_rank Hst)) in Eu; [discriminate | eauto].
    + rewrite (proj2 (get_layer_stack as_tcp 2 _ _ _ _ h as_tcp_rank Hst)) in Et; [discriminate | eauto].
Qed.

(** The bytes behind the addresses. *)
Lemma word_at_be16 (l : list byte) b0 b1 rest : word_at (l ++ b0 :: b1 :: rest) (length l) = ByteOrder.be16 b0 b1.
Proof. unfold word_at. rewrite app_nth2, Nat.sub_diag, app_nth2 by lia. replace (S (length l) - length l)%nat with 1%nat by lia. apply ByteOrder.be16_lor. Qed.

Lemma write_be16_inv v b0 b1 : fits 16 v -> ByteOrder.write_be16 v = [b0; b1] <-> v = ByteOrder.be16 b0 b1.
Proof.
  intros Hv. split; [|intros ->; apply ByteOrder.write_be16_be16]. intros E.
  pose proof (ByteOrder.read_write_be16 v [] Hv) as H. rewrite E in H. cbn [app] in H.
  rewrite ByteOrder.read_be16_cons in H. congruence.
Qed.

Lemma vlan_id_tagged v data d : HasVlanIdMatcher v d data = Done (true, d) <-> tagged v data.
Proof.
  assert (Hl : forall a b0 b1 b2 b3 rest, length a = 12%nat -> data = a ++ [b0; b1; b2; b3] ++ rest ->
    (HasVlanIdMatcher v d data = Done (true, d) <->
     Ethernet.is_vlan_type (ByteOrder.be16 b0 b1) = true /\ Z.land (ByteOrder.be16 b2 b3) 0x0FFF = v)).
  { intros a b0 b1 b2 b3 rest Ha ->. unfold HasVlanIdMatcher, on_bytes.
    rewrite (proj2 (Z.ltb_ge _ _)) by (rewrite !length_app, Ha; cbn [length]; lia).
    replace (word_at (a ++ [b0; b1; b2; b3] ++ rest) 12) with (ByteOrder.be16 b0 b1)
      by (rewrite <- Ha; symmetry; apply word_at_be16).
    replace (word_at (a ++ [b0; b1; b2; b3] ++ rest) 14) with (ByteOrder.be16 b2 b3).
    2:{ symmetry. pose proof (word_at_be16 (a ++ [b0; b1]) b2 b3 rest) as E. rewrite length_app, Ha, <- app_assoc in E. exact E. }
    unfold Ethernet.is_vlan_type, Ethernet.EtherType_VLAN, Ethernet.ETHERTYPE_QINQ.
    destruct (ByteOrder.be16 b0 b1 =? 0x8100), (ByteOrder.be16 b0 b1 =? 0x88A8); cbn [negb andb orb];
      (split; [intros [=H]; bool_to_prop; auto | intros [Ht H]; try discriminate Ht; rewrite <- H, Z.eqb_refl; reflexivity]). }
  split.
  - intros H. assert (Hz : 16 <= zlen data).
    { unfold HasVlanIdMatcher, on_bytes in H. destruct (Z.ltb_spec (zlen data) 16); [discriminate H | lia]. }
    pose proof (take_drop 12 data) as Etd. assert (Ha : length (take 12 data) = 12%nat) by (rewrite length_take; lia).
    pose proof (length_drop data 12) as Hd.
    destruct (drop 12 data) as [|b0 [|b1 [|b2 [|b3 rest]]]] eqn:E; cbn [length] in Hd; try lia.
    apply (Hl (take 12 data) b0 b1 b2 b3 rest Ha) in H as [Ht Hv]; [|symmetry; exact Etd].
    exists (take 12 data), (Ethernet.mkVlanTag (ByteOrder.be16 b0 b1) (ByteOrder.be16 b2 b3)), rest.
    split_and!; [exact Ha | | constructor; [exact Ht | apply ByteOrder.be16_fits] | exact Hv].
    unfold Ethernet.encode_tag. cbn [Ethernet.tpid Ethernet.tci]. rewrite !ByteOrder.write_be16_be16. symmetry. exact Etd.
  - intros (a & [tp tc] & rest & Ha & E & [Htp Htc] & Hv).
    unfold Ethernet.encode_tag, Ethernet.is_valid in *. cbn [Ethernet.tpid Ethernet.tci] in *.
    assert (Hw : forall w, fits 16 w -> exists b0 b1, ByteOrder.write_be16 w = [b0; b1] /\ w = ByteOrder.be16 b0 b1).
    { intros w Hw. eexists _, _. split; [reflexivity|]. apply write_be16_inv; [exact Hw | reflexivity]. }
    destruct (Hw tp (Ethernet.is_vlan_type_fits tp Htp)) as (b0 & b1 & E0 & ->). destruct (Hw tc Htc) as (b2 & b3 & E2 & ->).
    apply (Hl a b0 b1 b2 b3 rest Ha); [rewrite E, E0, E2; reflexivity | split; [exact Htp | exact Hv]].
Qed.

Local Ltac projection := intros [] ?; cbn; split; intros [= ->]; reflexivity.
Local Ltac ranked := intros [] ? [=]; reflexivity.

Lemma Z_eqb_iff (a b : Z) : (a =? b) = true <-> a = b.
Proof. apply Z.eqb_eq. Qed.
Lemma decide_iff {A} `{EqDecision A} (a b : A) : bool_decide (a = b) = true <-> a = b.
Proof. apply bool_decide_eq_true. Qed.
Create HintDb checks.
#[local] Hint Resolve Z_eqb_iff decide_iff Z.leb_le : checks.

Lemma is_event_exact h : Gptp.is_event_message (Gptp.message_type h) = true <->
  Gptp.message_type h ∈ [Gptp.Sync; Gptp.Delay_Req; Gptp.Pdelay_Req; Gptp.Pdelay_Resp].
Proof.
  unfold Gptp.is_event_message. rewrite !orb_true_iff, !Z.eqb_eq, !elem_of_cons, elem_of_nil. tauto.
Qed.

Lemma has_vlan_exact h : Ethernet.has_vlan h = true <-> is_Some (Ethernet.eth_vlan h).
Proof. apply bool_decide_eq_true. Qed.

Lemma port_identity_exact (p q : Gptp.PortIdentity) :
  bool_decide (Gptp.clock_identity p = Gptp.clock_identity q) && (Gptp.port_number p =? Gptp.port_number q) = true <-> p = q.
Proof.
  rewrite andb_true_iff, bool_decide_eq_true, Z.eqb_eq. destruct p, q; cbn. split; [intros [-> ->]; reflexivity | intros [= -> ->]; auto].
Qed.

Lemma rtps_version_exact (v : Rtps.ProtocolVersion) major minor :
  (Rtps.major v =? major) && (Rtps.minor v =? minor) = true <-> v = Rtps.mkProtocolVersion major minor.
Proof. rewrite andb_true_iff, !Z.eqb_eq. destruct v; cbn. split; [intros [-> ->]; reflexivity | intros [= -> ->]; auto]. Qed.

Lemma submessage_exact k h : existsb (fun submsg => Rtps.sub_kind submsg =? k) (Rtps.submessages h) = true <->
  exists s, s ∈ Rtps.submessages h /\ Rtps.sub_kind s = k.
Proof. rewrite existsb_exists. setoid_rewrite list_elem_of_In. setoid_rewrite Z.eqb_eq. reflexivity. Qed.

Lemma is_builtin_writer_exact w key : is_builtin_writer w key = true <-> w = Rtps.mkEntityId key 0xC2.
Proof.
  unfold is_builtin_writer, BuiltinWriterWithKey. rewrite andb_true_iff, Z.eqb_eq, bool_decide_eq_true.
  destruct w; cbn. split; [intros [-> ->]; reflexivity | intros [= -> ->]; auto].
Qed.

Lemma discovery_exact h : existsb is_discovery_submessage (Rtps.submessages h) = true <-> announces_discovery h.
Proof.
  unfold announces_discovery, discovery_writers. rewrite existsb_exists.
  setoid_rewrite elem_of_cons. setoid_rewrite elem_of_cons. setoid_rewrite elem_of_cons. setoid_rewrite elem_of_nil. split.
  - intros (s & Hin & Hs). unfold is_discovery_submessage in Hs. destruct (Z.eqb_spec (Rtps.sub_kind s) Rtps.DATA); [|discriminate Hs].
    destruct (Rtps.sub_body s) as [|m| | | | | | | |] eqn:E; try discriminate Hs.
    rewrite !orb_true_iff, !is_builtin_writer_exact in Hs. exists s, m. rewrite list_elem_of_In. tauto.
  - intros (s & m & Hin & Hk & Hb & Hw). exists s. rewrite <- list_elem_of_In. split; [exact Hin|].
    unfold is_discovery_submessage. rewrite Hk, Hb, Z.eqb_refl, !orb_true_iff, !is_builtin_writer_exact. tauto.
Qed.
#[local] Hint Resolve is_event_exact has_vlan_exact port_identity_exact rtps_version_exact submessage_exact discovery_exact : checks.

Lemma on_decoded_Done check d data r d1 : decode d data = Done (r, d1) -> on_decoded check d data = Done (check r, d1).
Proof. intros H. unfold on_decoded. rewrite H. reflexivity. Qed.

Lemma on_ethernet_has p P first d rest r : (forall h, p h = true <-> P h) -> stack first d (layers r) rest ->
  on_layer Scenario.as_ethernet p r = true <-> has EthernetLayer P r.
Proof. apply (on_layer_has Scenario.as_ethernet EthernetLayer 0); [ranked | projection]. Qed.
Lemma on_ipv4_has p P first d rest r : (forall h, p h = true <-> P h) -> stack first d (layers r) rest ->
  on_layer as_ipv4 p r = true <-> has IPv4Layer P r.
Proof. apply (on_layer_has as_ipv4 IPv4Layer 1); [ranked | projection]. Qed.
Lemma on_someip_has p P first d rest r : (forall h, p h = true <-> P h) -> stack first d (layers r) rest ->
  on_layer as_someip p r = true <-> has SomeIpLayer P r.
Proof. apply (on_layer_has as_someip SomeIpLayer 3); [ranked | projection]. Qed.
Lemma on_doip_has p P first d rest r : (forall h, p h = true <-> P h) -> stack first d (layers r) rest ->
  on_layer as_doip p r = true <-> has DoIPLayer P r.
Proof. apply (on_layer_has as_doip DoIPLayer 4); [ranked | projection]. Qed.
Lemma on_gptp_has p P first d rest r : (forall h, p h = true <-> P h) -> stack first d (layers r) rest ->
  on_layer as_gptp p r = true <-> has GptpLayer P r.
Proof. apply (on_layer_has as_gptp GptpLayer 4); [ranked | projection]. Qed.
Lemma on_rtps_has p P first d rest r : (forall h, p h = true <-> P h) -> stack first d (layers r) rest ->
  on_layer as_rtps p r = true <-> has RtpsLayer P r.
Proof. apply (on_layer_has as_rtps RtpsLayer 4); [ranked | projection]. Qed.

(** The matchers that decode the packet, on its layers. *)
Lemma decoded_exact m d data r d1 :
  decode d data = Done (r, d1) ->
  match m with HasVlanId _ | PayloadContains _ | HasPayloadSize _ => False | _ => True end ->
  exists check, MatchAndExplain m = on_decoded check /\ (check r = true <-> satisfies m data r).
Proof.
  intros Hd Hm. assert (Hst : exists rest, stack is_ethernet data (layers r) rest).
  { apply bind_inv in Hd as ([r0 st] & H & Hr). apply Done_pair_inj in Hr as [<- _].
    apply decode_ethernet_stack in H as (rest & H & _). eauto. }
  destruct Hst as (rest & Hst).
  destruct m; try contradiction Hm; (eexists; split; [reflexivity|]); cbn [satisfies].
  all: first [ apply (on_ethernet_has _ _ _ _ _ _) with (2 := Hst) | apply (on_ipv4_has _ _ _ _ _ _) with (2 := Hst)
             | apply (on_someip_has _ _ _ _ _ _) with (2 := Hst) | apply (on_doip_has _ _ _ _ _ _) with (2 := Hst)
             | apply (on_gptp_has _ _ _ _ _ _) with (2 := Hst) | apply (on_rtps_has _ _ _ _ _ _) with (2 := Hst) | idtac ].
  all: auto with checks.
  - setoid_rewrite <- Z.eqb_eq. apply (on_transport_ports _ _ (fun ports => ports.1 =? p) _ _ _ _ (fun _ => eq_refl) (fun _ => eq_refl) Hst).
  - setoid_rewrite <- Z.eqb_eq. apply (on_transport_ports _ _ (fun ports => ports.2 =? p) _ _ _ _ (fun _ => eq_refl) (fun _ => eq_refl) Hst).
  - apply has_protocol_has. projection.
  - destruct (error r); split; congruence.
  - apply has_protocol_has. projection.
Qed.

(** [C33] On every packet that can be decoded, each matcher returns, and accepts exactly the
    packets whose decoded layers, or whose bytes, have what its name says; the verdict does
    not depend on the packets that the shared dispatcher saw before. *)
Theorem packet_matcher_exact (m : PacketMatcher) (d d1 : ProtocolDispatcher) (data : list byte) (r : DecodeStackResult) :
  decode d data = Done (r, d1) ->
  exists b, (b = true <-> satisfies m data r) /\
    forall st, exists d', MatchAndExplain m (with_reassembler d st) data = Done (b, d').
Proof.
  intros Hd.
  assert (Hst : forall st, exists r' d', decode (with_reassembler d st) data = Done (r', d') /\ r' = r).
  { intros st. pose proof (decode_state_irrelevant d st data) as H. rewrite Hd in H.
    destruct (decode (with_reassembler d st) data) as [[r' d']| |]; try contradiction H. exists r', d'. cbn in H. auto. }
  assert (Hbytes : match m with HasVlanId _ | PayloadContains _ | HasPayloadSize _ => False | _ => True end \/
                   exists f, MatchAndExplain m = on_bytes f /\ (f data = true <-> satisfies m data r)).
  { destruct m; try (left; exact I); right; eexists; (split; [reflexivity|]); cbn [satisfies].
    - rewrite <- (vlan_id_tagged v data d). unfold HasVlanIdMatcher, on_bytes. split; [intros ->; reflexivity | intros [=]; assumption].
    - rewrite negb_true_iff, Nat.eqb_neq. apply Scenario.search_exact.
    - apply Z.eqb_eq. }
  destruct Hbytes as [Hm|(f & Hf & Hex)].
  - destruct (decoded_exact m d data r d1 Hd Hm) as (check & Hc & Hex). exists (check r). split; [exact Hex|].
    intros st. destruct (Hst st) as (r' & d' & Hd' & ->). rewrite Hc. exists d'. apply on_decoded_Done, Hd'.
  - exists (f data). split; [exact Hex|]. intros st. rewrite Hf. eexists. reflexivity.
Qed.

(** ** VLAN identifiers *)

Lemma tag_prefix_inj (a a' : list byte) t t' rest rest' :
  length a = 12%nat -> length a' = 12%nat -> Ethernet.wf_tag t -> Ethernet.wf_tag t' ->
  a ++ Ethernet.encode_tag t ++ rest = a' ++ Ethernet.encode_tag t' ++ rest' -> t = t'.
Proof.
  intros Ha Ha' [Hp Hc] [Hp' Hc'] E. apply app_inj_1 in E as [_ E]; [|congruence].
  unfold Ethernet.encode_tag in E. rewrite <- !app_assoc in E.
  pose proof (ByteOrder.read_write_be16 _ (ByteOrder.write_be16 (Ethernet.tci t) ++ rest) (Ethernet.is_vlan_type_fits _ Hp)) as H1.
  pose proof (ByteOrder.read_write_be16 _ (ByteOrder.write_be16 (Ethernet.tci t') ++ rest') (Ethernet.is_vlan_type_fits _ Hp')) as H1'.
  rewrite E, H1' in H1. injection H1 as E1.
  apply app_inj_1 in E as [_ E]; [|reflexivity].
  pose proof (ByteOrder.read_write_be16 _ rest Hc) as H2. pose proof (ByteOrder.read_write_be16 _ rest' Hc') as H2'.
  rewrite E, H2' in H2. injection H2 as E2. destruct t, t'; cbn in *. congruence.
Qed.

(** The matcher of the VLAN identifier reads the bytes of the packet.  When the Ethernet
    header can be decoded it agrees with the outer tag of the header. *)
Theorem vlan_id_exact (v : Z) (d d1 : ProtocolDispatcher) (data : list byte) (r : DecodeStackResult) (h : EthernetHeader) :
  decode d data = Done (r, d1) -> EthernetLayer h ∈ layers r ->
  HasVlanIdMatcher v d data = Done (true, d) <-> exists t, Ethernet.eth_vlan h = Some t /\ Ethernet.vid t = v.
Proof.
  intros Hd Hin. rewrite vlan_id_tagged.
  assert (Hh : exists rest, Ethernet.wf_header h /\ data = Ethernet.encode_header h ++ rest).
  { apply bind_inv in Hd as ([r0 st] & H & Hr). apply Done_pair_inj in Hr as [<- _].
    apply decode_ethernet_stack in H as (rest & Hst & _). cbn [fst] in *.
    destruct (layers r0) as [|l ls]; [apply elem_of_nil in Hin; contradiction|].
    inversion Hst as [|? ? d' ? ? Hl Hat Hrest]; subst. apply elem_of_cons in Hin as [<-|Hin].
    - destruct Hat as (ctx & <- & next & Hdec & _). apply Ethernet.ethernet_decode_sound in Hdec as [Hwf Hdata]. eauto.
    - exfalso. pose proof (stack_ranks _ _ _ _ (rank l) (follows_rank l) Hrest) as Hranks. rewrite Forall_forall in Hranks.
      specialize (Hranks _ Hin). destruct l; try contradiction Hl. cbn in Hranks. lia. }
  destruct Hh as (rest & Hwf & ->). unfold Ethernet.encode_header. split.
  - intros (a & t & rest' & Ha & E & Ht & Hv). destruct (Ethernet.eth_vlan h) as [t'|] eqn:Eo.
    + exists t'. split; [reflexivity|]. rewrite <- Hv. f_equal. symmetry. cbn [from_option] in E.
      apply (tag_prefix_inj a (eth_dst_mac h ++ eth_src_mac h) t t' rest'
               ((from_option Ethernet.encode_tag [] (Ethernet.eth_vlan_inner h) ++ ByteOrder.write_be16 (eth_ethertype h)) ++ rest)).
      * exact Ha.
      * rewrite length_app, (Ethernet.wf_dst _ Hwf), (Ethernet.wf_src _ Hwf). reflexivity.
      * exact Ht.
      * apply (Ethernet.wf_outer _ Hwf t' Eo).
      * rewrite <- E, <- !app_assoc. reflexivity.
    + exfalso. pose proof (Ethernet.wf_nesting _ Hwf Eo) as Ei. rewrite Ei in E. cbn [from_option app] in E.
      rewrite <- !app_assoc, app_assoc in E. apply app_inj_1 in E as [_ E].
      2:{ rewrite length_app, (Ethernet.wf_dst _ Hwf), (Ethernet.wf_src _ Hwf), Ha. reflexivity. }
      unfold Ethernet.encode_tag in E. rewrite <- app_assoc in E.
      pose proof (ByteOrder.read_write_be16 _ rest (Ethernet.wf_type _ Hwf)) as H1.
      pose proof (ByteOrder.read_write_be16 _ (ByteOrder.write_be16 (Ethernet.tci t) ++ rest')
                    (Ethernet.is_vlan_type_fits _ (Ethernet.wf_tag_tpid _ Ht))) as H2.
      rewrite E, H2 in H1. injection H1 as E1. pose proof (Ethernet.wf_last _ Hwf Ei) as Hlast.
      pose proof (Ethernet.wf_tag_tpid _ Ht) as Hv'. unfold Ethernet.is_valid in Hv'. rewrite E1 in Hv'. congruence.
  - intros (t & Eo & Hv). rewrite Eo. exists (eth_dst_mac h ++ eth_src_mac h), t,
      ((from_option Ethernet.encode_tag [] (Ethernet.eth_vlan_inner h) ++ ByteOrder.write_be16 (eth_ethertype h)) ++ rest).
    split_and!; [| | apply (Ethernet.wf_outer _ Hwf t Eo) | exact Hv].
    + rewrite length_app, (Ethernet.wf_dst _ Hwf), (Ethernet.wf_src _ Hwf). reflexivity.
    + cbn [from_option]. rewrite <- !app_assoc. reflexivity.
Qed.

(** ** Diagnostic messages *)

(** A message that names an identifier. *)
Definition names_did (did : Z) (m : Uds.UdsServiceMessage) : Prop :=
  (exists l, m = Uds.ReadDataByIdentifierRequest l /\ did ∈ l) \/
  (exists l value, m = Uds.ReadDataByIdentifierResponse l /\ (did, value) ∈ l) \/
  (exists value, m = Uds.WriteDataByIdentifierRequest did value) \/
  m = Uds.WriteDataByIdentifierResponse did.

Definition names_session (t : Z) (m : Uds.UdsServiceMessage) : Prop :=
  (exists suppress, m = Uds.DiagnosticSessionControlRequest t suppress) \/
  (exists p2 p2_star, m = Uds.DiagnosticSessionControlResponse t p2 p2_star).

Lemma on_uds_exact check (P : Uds.UdsDecodeResult -> Prop) data :
  (forall r, Uds.decode data = Done r -> exists b, check r = Done b /\ (b = true <-> P r)) ->
  exists b, on_uds check data = Done b /\ (b = true <-> exists r, Uds.decode data = Done r /\ P r).
Proof.
  intros H. unfold on_uds. pose proof (Uds.uds_decode_exact data) as Hd.
  destruct (Uds.decode data) as [r|e|]; [|exists false; split; [reflexivity|]|contradiction Hd].
  - destruct (H r eq_refl) as (b & Hb & Hp). exists b. split; [exact Hb|]. rewrite Hp. split; [eauto|].
    intros (r' & E & Hr). apply Done_inj in E as <-. exact Hr.
  - split; [discriminate | intros (r & E & _); discriminate E].
Qed.

Lemma did_check_exact did m :
  match m with
  | Uds.ReadDataByIdentifierRequest l => existsb (fun x => x =? did) l
  | Uds.ReadDataByIdentifierResponse l => existsb (fun x => x.1 =? did) l
  | Uds.WriteDataByIdentifierRequest x _ => x =? did
  | Uds.WriteDataByIdentifierResponse x => x =? did
  | _ => false
  end = true <-> names_did did m.
Proof.
  unfold names_did. destruct m;
    try (split; [discriminate | intros [(? & [=] & _)|[(? & ? & [=] & _)|[(? & [=])|[=]]]]]);
    rewrite ?existsb_exists, ?Z.eqb_eq; split.
  - intros (x & Hin & E). apply Z.eqb_eq in E as ->. left. exists data_identifiers. rewrite list_elem_of_In. auto.
  - intros [(l & [= <-] & Hin)|[(? & ? & [=] & _)|[(? & [=])|[=]]]]. exists did. rewrite <- list_elem_of_In, Z.eqb_refl. auto.
  - intros ([x value] & Hin & E). cbn in E. apply Z.eqb_eq in E as ->. right; left. exists records, value.
    rewrite list_elem_of_In. auto.
  - intros [(? & [=] & _)|[(l & value & [= <-] & Hin)|[(? & [=])|[=]]]]. exists (did, value). cbn.
    rewrite <- list_elem_of_In, Z.eqb_refl. auto.
  - intros ->. right; right; left. eauto.
  - intros [(? & [=] & _)|[(? & ? & [=] & _)|[(? & [=])|[=]]]]. assumption.
  - intros ->. auto.
  - intros [(? & [=] & _)|[(? & ? & [=] & _)|[(? & [=])|[=]]]]. assumption.
Qed.

Lemma session_check_exact t m :
  match m with
  | Uds.DiagnosticSessionControlRequest x _ => x =? t
  | Uds.DiagnosticSessionControlResponse x _ _ => x =? t
  | _ => false
  end = true <-> names_session t m.
Proof.
  unfold names_session.
  destruct m; try (split; [discriminate | intros [(? & [=])|(? & ? & [=])]]); rewrite Z.eqb_eq; split;
    first [intros ->; eauto | intros [(? & [=])|(? & ? & [=])]; assumption].
Qed.

Lemma nrc_of_bytes data r :
  Uds.decode data = Done r ->
  Uds.direction (Uds.header r) = Uds.NegativeResponse ->
  exists sid code rest, data = x7f :: sid :: code :: rest /\ Uds.negative_response_code (Uds.header r) = Some (u8 code).
Proof.
  intros Hd Hn. pose proof (Uds.uds_decode_exact data) as He. rewrite Hd in He. destruct He as [Hb Hl].
  pose proof (Uds.hb_direction _ _ Hb) as Hdir. rewrite Hn in Hdir.
  destruct (Uds.is_negative_response data) eqn:Ei; [|destruct (Uds.is_positive_response data); discriminate Hdir].
  specialize (Hl eq_refl). destruct (Uds.hb_rejected _ _ Hb Hn) as [_ Hc].
  destruct data as [|b [|sid [|code rest]]]; cbn [length] in Hl; try lia.
  exists sid, code, rest. split; [|exact Hc]. f_equal. cbn in Ei. apply Z.eqb_eq in Ei. apply u8_inj. exact Ei.
Qed.

Lemma negative_response_decodes sid code rest : exists r, Uds.decode (x7f :: sid :: code :: rest) = Done r.
Proof.
  pose proof (Uds.uds_decode_exact (x7f :: sid :: code :: rest)) as H.
  destruct (Uds.decode _) as [r|e|]; [eauto | | contradiction H].
  destruct H as [_ [[[=] _]|(_ & H & _)]]. cbn [length] in H. lia.
Qed.

(** Every UDS matcher returns on every message, without reading outside of it.  A
    nonempty message is one of request, positive response and negative response; a
    matcher of a field accepts the messages that decode and have the field, and the
    response code is the third byte of a negative response. *)
Theorem uds_matchers_exact (data : list byte) :
  (data <> [] ->
   (IsUdsRequestMatcher data = true <-> IsUdsResponseMatcher data = false) /\
   (IsUdsResponseMatcher data = true <-> xorb (IsUdsPositiveResponseMatcher data) (IsUdsNegativeResponseMatcher data) = true)) /\
  (forall s, exists b, HasUdsServiceMatcher s data = Done b /\
     (b = true <-> exists r, Uds.decode data = Done r /\ Uds.service_id (Uds.header r) = s)) /\
  (forall did, exists b, HasUdsDIDMatcher did data = Done b /\
     (b = true <-> exists r, Uds.decode data = Done r /\ names_did did (Uds.message r))) /\
  (forall t, exists b, HasUdsSessionTypeMatcher t data = Done b /\
     (b = true <-> exists r, Uds.decode data = Done r /\ names_session t (Uds.message r))) /\
  (forall n, exists b, HasUdsNRCMatcher n data = Done b /\
     (b = true <-> exists sid code rest, data = x7f :: sid :: code :: rest /\ u8 code = n)).
Proof.
  split_and!.
  - intros Hne. unfold IsUdsRequestMatcher, IsUdsResponseMatcher, IsUdsPositiveResponseMatcher, IsUdsNegativeResponseMatcher.
    destruct data as [|b data]; [contradiction Hne; reflexivity|]. cbn.
    destruct (u8 b =? Uds.NEGATIVE_RESPONSE_SID), (Z.land (u8 b) 0x40 =? 0); cbn; split; split; congruence.
  - intros s. apply on_uds_exact. intros r _. eexists. split; [reflexivity | apply Z.eqb_eq].
  - intros did. apply on_uds_exact. intros r _. eexists. split; [reflexivity | apply did_check_exact].
  - intros t. apply on_uds_exact. intros r _. eexists. split; [reflexivity | apply session_check_exact].
  - intros n. destruct (on_uds_exact
      (fun result => match Uds.direction (Uds.header result) with
        | Uds.NegativeResponse => match Uds.negative_response_code (Uds.header result) with
                                  | Some nrc => Done (nrc =? n) | None => Undef end
        | _ => Done false end)
      (fun r => exists sid code rest, data = x7f :: sid :: code :: rest /\ u8 code = n) data) as (b & Hb & Hex).
    + intros r Hr. pose proof (nrc_of_bytes data r Hr) as Hn. pose proof (Uds.uds_decode_exact data) as He. rewrite Hr in He.
      destruct He as [Hh _]. pose proof (Uds.hb_direction _ _ Hh) as Hdir.
      destruct (Uds.direction (Uds.header r)) eqn:Ed.
      3:{ destruct (Hn eq_refl) as (sid & code & rest & E & ->). eexists. split; [reflexivity|]. rewrite Z.eqb_eq. split.
          - intros H. exists sid, code, rest. auto.
          - intros (sid' & code' & rest' & E' & Hc). rewrite E in E'. injection E' as <- <- <-. exact Hc. }
      all: eexists; (split; [reflexivity|]); split; [discriminate|]; intros (sid & code & rest & -> & _); discriminate Hdir.
    + exists b. split; [exact Hb|]. rewrite Hex. split; [intros (r & _ & H); exact H|].
      intros (sid & code & rest & -> & Hc). destruct (negative_response_decodes sid code rest) as [r Hr]. exists r. eauto 10.
Qed.

(** ** Examples *)

Definition sample_frame : list byte := udp_frame sample_eth sample_ip sample_udp (SomeIp.encode_header sample_someip).

Lemma packet_matcher_exact_witness :
  let d := new_dispatcher DispatcherOptions_default in
  exists r d1, decode d sample_frame = Done (r, d1) /\
    (exists d', MatchAndExplain (HasSOMEIPServiceId 0x1234) d sample_frame = Done (true, d')) /\
    ~ satisfies (HasDestPort 80) sample_frame r.
Proof.
  cbn zeta.
  assert (exists r d1, decode (new_dispatcher DispatcherOptions_default) sample_frame = Done (r, d1)) as (r & d1 & H)
    by (eexists _, _; vm_compute; reflexivity).
  exists r, d1. split; [exact H|]. split; [eexists; vm_compute; reflexivity|].
  destruct (packet_matcher_exact (HasDestPort 80) _ _ _ _ H) as (b & Hb & Hm).
  destruct (Hm (tp_reassembler (new_dispatcher DispatcherOptions_default))) as [d' E].
  assert (b = false) as ->; [|intros Hs; apply Hb in Hs; discriminate Hs].
  change (with_reassembler _ _) with (new_dispatcher DispatcherOptions_default) in E.
  assert (E' : exists d2, MatchAndExplain (HasDestPort 80) (new_dispatcher DispatcherOptions_default) sample_frame = Done (false, d2))
    by (eexists; vm_compute; reflexivity).
  destruct E' as [d2 E']. rewrite E in E'. apply Done_pair_inj in E' as [-> _]. reflexivity.
Defined.

(** The verdict of a matcher and of a step of a scenario on a packet. *)
Definition accepts (m : matcher) (data : list byte) : bool :=
  match m (new_dispatcher DispatcherOptions_default) data with Done (b, _) => b | _ => false end.
Definition expects (e : Scenario.ExpectStep) (data : list byte) : bool :=
  match Scenario.matches e (new_dispatcher DispatcherOptions_default) data with Done (b, _) => b | _ => false end.

(** A request without response is a request for scenarios, and not for the matcher. *)
Definition fire_and_forget : list byte :=
  udp_frame sample_eth sample_ip sample_udp
    (SomeIp.encode_header (SomeIp.mkSomeIpHeader 0x1234 0x0001 8 1 1 1 1 SomeIp.RequestNoReturn 0)).
Definition expect_request : Scenario.ExpectStep :=
  Scenario.mkExpectStep None None None None
    (Some (Scenario.mkSomeIpExpect None None None None (Some Scenario.SomeIpRequest) None)) None None None None
    1000 (Scenario.mkCount Scenario.GreaterEqual 1) "" true.
Example request_differs :
  accepts IsSOMEIPRequest sample_frame = true /\ expects expect_request sample_frame = true /\
  accepts IsSOMEIPRequest fire_and_forget = false /\ expects expect_request fire_and_forget = true.
Proof. vm_compute. auto. Qed.

(** The payload matchers look at the whole packet, addresses included. *)
Example payload_is_packet :
  accepts (PayloadContainsMatcher (eth_dst_mac sample_eth)) sample_frame = true /\
  accepts (PayloadSizeMatcher (zlen sample_frame)) sample_frame = true.
Proof. vm_compute. auto. Qed.

(** No data contains the empty pattern: the search returns the end of empty data. *)
Example empty_pattern : accepts (PayloadContainsMatcher []) [] = false /\ accepts (PayloadContainsMatcher []) [x00] = true.
Proof. vm_compute. auto. Qed.
