(* ===== verification/PacketSource.v ===== *)
(** * Packet sources and sinks (include/wadjet/core/packet_source.hpp)

    The abstract interfaces as classes, of which the PCAP reader and writer (Pcap.v) are
    instances, and the two utilities that are written against them: copying the packets
    of a source to a sink, and filtering them.  Descriptions and default methods without
    effect are left out. *)

From Stdlib Require Import ZArith Lia.
From Stdlib Require Import Strings.Byte.
From stdpp Require Import base numbers list.
From S2P Require Import Prelude Pcap.
From S2P Require Dispatcher ScenarioRunner Timestamp.
Import Dispatcher (run).
Import ScenarioRunner (step_run, finished, OutOfFuel).

Class IPacketSource (Source : Type) := {
  source_next_packet : Source -> run (option Packet * Source);
  source_has_more : Source -> bool
}.

(** [write_packet] says whether it succeeded. *)
Class IPacketSink (Sink : Type) := {
  sink_write_packet : Packet -> Sink -> bool * Sink;
  sink_flush : Sink -> Sink;
  sink_packet_count : Sink -> Z
}.

(** ** The utilities *)

Section utilities.
Context {Source Sink : Type} `{!IPacketSource Source, !IPacketSink Sink}.

(** The loop ends with the source, at a failing write, or at [max_packets] if it is not 0. *)
Fixpoint copy_loop (fuel : nat) (max_packets count : Z) (source : Source) (sink : Sink) : step_run (Z * Source * Sink) :=
  match fuel with
  | O => Fail OutOfFuel
  | S fuel =>
      pr ← finished (source_next_packet source);
      let (pkt, source) := pr : option Packet * Source in
      match pkt with
      | None => Done (count, source, sink)
      | Some pkt =>
          let (ok, sink) := sink_write_packet pkt sink in
          if negb ok then Done (count, source, sink)
          else
            let count := uint 64 (count + 1) in
            if (0 <? max_packets) && (max_packets <=? count) then Done (count, source, sink)
            else copy_loop fuel max_packets count source sink
      end
  end.
Definition copy_packets (fuel : nat) (max_packets : Z) (source : Source) (sink : Sink) : step_run (Z * Source * Sink) :=
  o ← copy_loop fuel max_packets 0 source sink;
  let '(count, source, sink) := o in Done (count, source, sink_flush sink).

(** The callback acts on a state of its own. *)
Context {A : Type}.
Fixpoint filter_loop (pred : Packet -> bool) (callback : Packet -> A -> A) (fuel : nat) (count : Z) (source : Source) (a : A)
    : step_run (Z * Source * A) :=
  match fuel with
  | O => Fail OutOfFuel
  | S fuel =>
      pr ← finished (source_next_packet source);
      let (pkt, source) := pr : option Packet * Source in
      match pkt with
      | None => Done (count, source, a)
      | Some pkt =>
          if pred pkt then filter_loop pred callback fuel (uint 64 (count + 1)) source (callback pkt a)
          else filter_loop pred callback fuel count source a
      end
  end.
Definition filter_packets (pred : Packet -> bool) (callback : Packet -> A -> A) (fuel : nat) (source : Source) (a : A) :=
  filter_loop pred callback fuel 0 source a.
End utilities.

(** ** Files as sources and sinks *)

Section pcap.
Context (big : bool).

(** [Pcap.next_packet] has no error to return. *)
#[export] Instance PcapReader_source : IPacketSource PcapReader := {
  source_next_packet := fun r => match Pcap.next_packet big r with Done pr => Done pr | _ => Undef end;
  source_has_more := has_more
}.
(** A file that does not fail. *)
#[export] Instance PcapWriter_sink : IPacketSink PcapWriter := {
  sink_write_packet := fun p w => (true, Pcap.write_packet big p w);
  sink_flush := fun w => w;
  sink_packet_count := Pcap.packet_count
}.
End pcap.

(** * Properties *)

Section laws.
Context {Source Sink : Type} `{!IPacketSource Source, !IPacketSink Sink}.

(** The source returns these packets, and then none. *)
Inductive delivers : Source -> list Packet -> Source -> Prop :=
| delivers_end s s' : source_next_packet s = Done (None, s') -> delivers s [] s'
| delivers_packet s p s1 ps s' : source_next_packet s = Done (Some p, s1) -> delivers s1 ps s' -> delivers s (p :: ps) s'.

(** The sink takes every packet. *)
Context (accepts : forall p k, (sink_write_packet p k).1 = true).
Definition written (ps : list Packet) (sink : Sink) : Sink := fold_left (fun k p => (sink_write_packet p k).2) ps sink.

(** The number of packets to copy. *)
Definition limit (max_packets : Z) (ps : list Packet) : Z :=
  if 0 <? max_packets then Z.min max_packets (zlen ps) else zlen ps.

Lemma limit_nil max_packets : limit max_packets [] = 0.
Proof. unfold limit. cbn [length]. destruct (Z.ltb_spec 0 max_packets); lia. Qed.

Lemma limit_pos max_packets ps : 0 <= limit max_packets ps.
Proof. unfold limit. destruct (Z.ltb_spec 0 max_packets); lia. Qed.

Lemma limit_cons max_packets p ps :
  0 <= max_packets -> max_packets <> 1 -> limit max_packets (p :: ps) = 1 + limit (Z.max 0 (max_packets - 1)) ps.
Proof.
  intros H0 H1. unfold limit. cbn [length].
  destruct (Z.ltb_spec 0 max_packets), (Z.ltb_spec 0 (Z.max 0 (max_packets - 1))); lia.
Qed.

Lemma copy_loop_exact ps fuel max_packets count source sink s' :
  delivers source ps s' -> (length ps < fuel)%nat -> 0 <= max_packets -> 0 <= count -> count + zlen ps < 2 ^ 64 ->
  (max_packets = 0 \/ count < max_packets) ->
  exists s1, copy_loop fuel max_packets count source sink =
    let n := limit (if max_packets =? 0 then 0 else max_packets - count) ps in
    Done (count + n, s1, written (take (Z.to_nat n) ps) sink).
Proof.
  intros Hd. revert fuel count sink. induction Hd as [s s' Hn|s p s1 ps s' Hn _ IH]; intros fuel count sink Hf H0 Hc Hb Hm;
    destruct fuel as [|fuel]; [lia| |cbn in Hf; lia|]; cbn [copy_loop]; rewrite Hn; cbn [finished mbind res_bind].
  - exists s'. cbv zeta. rewrite limit_nil, Z.add_0_r. reflexivity.
  - pose proof (accepts p sink) as Ha. destruct (sink_write_packet p sink) as [ok k1] eqn:Ew. cbn in Ha. subst ok. cbn [negb].
    cbn [length] in Hf, Hb. rewrite uint_small by (unfold fits; lia).
    assert (Hw : forall qs, written (p :: qs) sink = written qs k1) by (intros qs; unfold written; cbn; rewrite Ew; reflexivity).
    destruct ((0 <? max_packets) && (max_packets <=? count + 1)) eqn:E.
    + bool_to_prop. exists s1. cbv zeta. rewrite (proj2 (Z.eqb_neq _ _)) by lia.
      replace (limit _ _) with 1 by (unfold limit; cbn [length]; rewrite (proj2 (Z.ltb_lt _ _)) by lia; lia).
      change (take (Z.to_nat 1) (p :: ps)) with (p :: take 0 ps). rewrite Hw, take_0. reflexivity.
    + assert (Hlim : max_packets = 0 \/ count + 1 < max_packets).
      { apply andb_false_iff in E as [E|E]; bool_to_prop; lia. }
      destruct (IH fuel (count + 1) k1) as [s2 Es]; [lia.. | exact Hlim |]. exists s2. rewrite Es. cbv zeta.
      set (m := if max_packets =? 0 then 0 else max_packets - count).
      assert (Em : (if max_packets =? 0 then 0 else max_packets - (count + 1)) = Z.max 0 (m - 1)).
      { unfold m. destruct (Z.eqb_spec max_packets 0); lia. }
      assert (Hm1 : 0 <= m /\ m <> 1) by (unfold m; destruct (Z.eqb_spec max_packets 0); lia).
      rewrite Em, (limit_cons m p ps) by apply Hm1.
      pose proof (limit_pos (Z.max 0 (m - 1)) ps) as Hl.
      replace (Z.to_nat (1 + limit (Z.max 0 (m - 1)) ps)) with (S (Z.to_nat (limit (Z.max 0 (m - 1)) ps))) by lia.
      cbn [take]. rewrite Hw. f_equal. f_equal. f_equal. lia.
Qed.

(** Copying from a source that ends to a sink that takes everything returns, and has
    written the packets of the source in order, all of them or as many as asked for. *)
Lemma copy_packets_exact ps fuel max_packets source sink s' :
  delivers source ps s' -> (length ps < fuel)%nat -> 0 <= max_packets -> zlen ps < 2 ^ 64 ->
  exists s1, copy_packets fuel max_packets source sink =
    Done (limit max_packets ps, s1, sink_flush (written (take (Z.to_nat (limit max_packets ps)) ps) sink)).
Proof.
  intros Hd Hf H0 Hb. destruct (copy_loop_exact ps fuel max_packets 0 source sink s') as [s1 H]; try assumption; try lia.
  exists s1. unfold copy_packets. rewrite H. cbv zeta. rewrite bind_Done, Z.sub_0_r, Z.add_0_l.
  replace (if max_packets =? 0 then 0 else max_packets) with max_packets by (destruct (Z.eqb_spec max_packets 0); lia). reflexivity.
Qed.

(** Filtering hands the packets that satisfy the predicate to the callback, in order. *)
Theorem filter_packets_exact {A} (pred : Packet -> bool) (callback : Packet -> A -> A) ps fuel source a s' :
  delivers source ps s' -> (length ps < fuel)%nat ->
  filter_packets pred callback fuel source a =
    Done (uint 64 (zlen (List.filter pred ps)), s', fold_left (fun x p => callback p x) (List.filter pred ps) a).
Proof.
  intros Hd Hf. unfold filter_packets.
  enough (forall n, filter_loop pred callback fuel (uint 64 n) source a =
            Done (uint 64 (n + zlen (List.filter pred ps)), s', fold_left (fun x p => callback p x) (List.filter pred ps) a)) as H
    by apply (H 0).
  revert fuel a Hf. induction Hd as [s s' Hn|s p s1 ps s' Hn _ IH]; intros fuel a Hf n; (destruct fuel as [|fuel]; [lia|]);
    cbn [filter_loop List.filter]; rewrite Hn; cbn [finished mbind res_bind].
  - cbn. rewrite Z.add_0_r. reflexivity.
  - cbn [length] in Hf. destruct (pred p); [rewrite uint_add|]; rewrite IH by lia; cbn [length fold_left]; [|reflexivity].
    replace (n + 1 + zlen (List.filter pred ps)) with (n + Z.of_nat (S (length (List.filter pred ps)))) by lia. reflexivity.
Qed.
End laws.

(** ** Copying a capture file *)

Lemma reader_delivers (order nano : bool) (snap : Z) big rest ps :
  records order nano snap rest ps ->
  forall r, reading order nano snap big r rest -> exists r', delivers (IPacketSource0 := PcapReader_source big) r ps r'.
Proof.
  induction 1 as [rest Hno|h d rest ps Ha Hl _ IH]; intros r Hr.
  - destruct (next_packet_end order nano snap big r rest Hr Hno) as (r' & H & _). exists r'. constructor. cbn. rewrite H. reflexivity.
  - destruct (next_packet_record order nano snap big r h d rest Hr Ha Hl) as (r1 & H & Hr1).
    destruct (IH r1 Hr1) as [r' Hd]. exists r'. econstructor; [cbn; rewrite H; reflexivity | exact Hd].
Qed.

(** The same packets are kept when they are written again. *)
Lemma kept_again opts opts2 view :
  in_range view -> short_enough opts view -> in_range (kept opts view) /\ short_enough opts2 (kept opts view).
Proof.
  intros [H0 Ht] Hs. unfold in_range, short_enough, kept in *. cbn [pk_data pk_timestamp]. split.
  - destruct (nanosecond_precision opts); lia.
  - rewrite length_take. unfold MAX_FRAME_SIZE in *. lia.
Qed.

Lemma written_all big ps w : written (IPacketSink0 := PcapWriter_sink big) ps w = write_all big ps w.
Proof. unfold written. revert w. induction ps as [|p ps IH]; intros w; cbn; [reflexivity | apply IH]. Qed.

(** A capture file of one host is opened on another and copied with [copy_packets]
    to a new file: the copy can be opened on any host, and holds the packets of the
    original in order, all of them or the first [max_packets], each cut and timed as its
    two writers keep it. *)
Theorem copied_file_reads_back (big1 big2 big3 : bool) (opts opts2 : PcapWriterOptions) (views : list Packet) (max_packets : Z) :
  fits 32 (w_snaplen opts) -> fits 32 (w_link_type opts) -> fits 32 (w_snaplen opts2) -> fits 32 (w_link_type opts2) ->
  Forall in_range views -> Forall (short_enough opts) views -> 0 <= max_packets -> zlen views < 2 ^ 64 ->
  exists r r1 copy r2,
    from_memory big2 (file (write_all big1 views (create big1 opts))) = Done r /\
    copy_packets (Source := PcapReader) (Sink := PcapWriter) (IPacketSource0 := PcapReader_source big2) (IPacketSink0 := PcapWriter_sink big2)
      (S (length views)) max_packets r (create big2 opts2) = Done (limit max_packets views, r1, copy) /\
    packet_count copy = limit max_packets views /\
    exists r3, from_memory big3 (file copy) = Done r2 /\
    read_all big3 r2 = Done (map (fun v => kept opts2 (kept opts v)) (take (Z.to_nat (limit max_packets views)) views), r3).
Proof.
  intros Hs1 Hl1 Hs2 Hl2 Hv Hse H0 Hlen.
  destruct (created_file big1 opts views Hs1 Hl1 Hv) as (h & Hf & Hnet & Hsnap).
  set (d := file (write_all big1 views (create big1 opts))) in *.
  assert (Hps : records big1 (nanosecond_precision opts) (fh_snaplen h) (all_records big1 opts views) (map (kept opts) views)).
  { rewrite Hsnap. apply written_records; assumption. }
  pose proof (opened_reading d big2 big1 (nanosecond_precision opts) h _ Hf) as Hr.
  apply reader_delivers with (big := big2) (1 := Hps) in Hr as [r' Hd].
  eexists. destruct (@copy_packets_exact _ _ (PcapReader_source big2) (PcapWriter_sink big2) (fun _ _ => eq_refl)
    _ (S (length views)) max_packets _ (create big2 opts2) _ Hd) as [r1 Hc]; [rewrite length_map; lia | exact H0 | rewrite length_map; lia|].
  assert (Hlim : limit max_packets (map (kept opts) views) = limit max_packets views) by (unfold limit; rewrite length_map; reflexivity).
  rewrite Hlim, written_all, <- fmap_take in Hc.
  set (n := Z.to_nat (limit max_packets views)) in *.
  assert (Hk : Forall in_range (map (kept opts) (take n views)) /\ Forall (short_enough opts2) (map (kept opts) (take n views))).
  { rewrite !Forall_map, <- Forall_and. apply Forall_take. eapply Forall_impl; [apply Forall_and; split; [exact Hv | exact Hse]|].
    intros v [Hv1 Hv2]. apply kept_again; assumption. }
  destruct (written_file_read big2 big3 opts2 (map (kept opts) (take n views)) Hs2 Hl2 (proj1 Hk) (proj2 Hk))
    as (r2 & r3 & Hm & _ & _ & _ & _ & Ha & _).
  destruct (write_all_file big2 (map (kept opts) (take n views)) (create big2 opts2) (proj1 Hk) Hs2) as (_ & Hcount & _).
  exists r1, (write_all big2 (map (kept opts) (take n views)) (create big2 opts2)), r2.
  split; [apply (from_memory_opens _ _ _ _ _ _ Hf)|]. split; [exact Hc|]. split.
  - cbv zeta in Hcount. rewrite Hcount. cbn [create packet_count]. rewrite length_map, length_take. unfold n.
    pose proof (limit_pos max_packets views). assert (limit max_packets views <= zlen views) by (unfold limit; destruct (0 <? max_packets); lia). lia.
  - exists r3. rewrite Ha, map_map. auto.
Qed.

Lemma copied_file_reads_back_witness :
  let original := file (write_all true example_views (create true PcapWriterOptions_default)) in
  exists r r1 copy,
    from_memory false original = Done r /\
    copy_packets (Source := PcapReader) (Sink := PcapWriter)
      (IPacketSource0 := PcapReader_source false) (IPacketSink0 := PcapWriter_sink false)
      3 1 r (create false PcapWriterOptions_default) = Done (1, r1, copy) /\ packet_count copy = 1.
Proof.
  cbn zeta.
  destruct (copied_file_reads_back true false true PcapWriterOptions_default PcapWriterOptions_default example_views 1)
    as (r & r1 & copy & r2 & Hm & Hc & Hn & _);
    [unfold fits; cbn; lia | unfold fits; cbn; lia | unfold fits; cbn; lia | unfold fits; cbn; lia | | | lia | cbn; lia |].
  - unfold example_views, in_range, Timestamp.SECOND. rewrite !Forall_cons, Forall_nil. cbn. lia.
  - unfold example_views, short_enough, MAX_FRAME_SIZE. rewrite !Forall_cons, Forall_nil. cbn. lia.
  - exists r, r1, copy. auto.
Defined.
