(* ===== verification/LiveCapture.v ===== *)
(** * Test fixtures on a live capture (include/wadjet/testing/live_capture_fixture.hpp)

    The capture session as the helpers for tests see it, the loop they all run on it
    until a deadline, and the fixture: set-up, tear-down, and the ways to wait for packets
    and to collect them.  RecordReplay.v and LiveAssert.v use the same session and loop.
    The loopback fixture, which only opens sockets, is left out. *)

From Stdlib Require Import ZArith Lia.
From Stdlib Require Import Strings.Byte.
From stdpp Require Import base numbers list strings pretty.
From S2P Require Import Prelude Pcap.
From S2P Require CaptureSetup ScenarioRunner.
Import CaptureSetup (CaptureSessionOptions, default_options).
Import ScenarioRunner (step_run, OutOfFuel, millisecond).

(** [io::CaptureSession]: [create] and the operations that can fail return the message of
    their error. *)
Class CaptureSession (Session : Type) := {
  create : string -> CaptureSessionOptions -> string + Session;
  set_filter : string -> Session -> option string * Session;
  start : Session -> option string * Session;
  stop : Session -> Session;
  next_packet : Z -> Session -> option Packet * Session
}.

(** What the helpers share with their surroundings: how often the clocks were read, and
    the files that were written. *)
Record World := mkWorld { ticks : nat; saved : list (string * list byte) }.
Definition set_ticks (t : nat) (w : World) : World := mkWorld t (saved w).

(** What the helpers that own a session do first: create it, set the filter if there is
    one, and start it. *)
Inductive PrepareError := CreateFailed (message : string) | FilterFailed (message : string) | StartFailed (message : string).
Definition prepare {Session} `{!CaptureSession Session} (interface filter : string) (opts : CaptureSessionOptions)
    : PrepareError + Session :=
  match create interface opts with
  | inl e => inl (CreateFailed e)
  | inr c =>
      let (filter_error, c) := if negb (String.eqb filter "") then set_filter filter c else (None, c) in
      match filter_error with
      | Some e => inl (FilterFailed e)
      | None =>
          let (start_error, c) := start c in
          match start_error with Some e => inl (StartFailed e) | None => inr c end
      end
  end.

(** ** The loop *)

Section loop.
(** The readings of [std::chrono::steady_clock] in nanoseconds. *)
Context (steady : nat -> Z) {Session : Type} `{!CaptureSession Session}.
(** What is done with a packet, and whether the loop is left after it. *)
Context {A : Type} (body : Packet -> A -> A * bool).

(** [while (now() < deadline)] with the time that remains in whole milliseconds; no
    session is a null pointer. *)
Fixpoint capture_loop (fuel : nat) (deadline : Z) (session : option Session) (a : A) (t : nat)
    : step_run (A * bool * option Session * nat) :=
  match fuel with
  | O => Fail OutOfFuel
  | S fuel =>
      if deadline <=? steady t then Done (a, false, session, S t)
      else
        let remaining := Z.quot (deadline - steady (S t)) millisecond in
        let t := S (S t) in
        if remaining <=? 0 then Done (a, false, session, t)
        else
          match session with
          | None => Undef
          | Some c =>
              let (packet, c) := next_packet remaining c in
              match packet with
              | None => capture_loop fuel deadline (Some c) a t
              | Some p =>
                  let (a, leave) := body p a in
                  if leave then Done (a, true, Some c, t) else capture_loop fuel deadline (Some c) a t
              end
          end
  end.
End loop.

(** ** The fixture *)

Record LiveCaptureConfig := mkLiveCaptureConfig {
  interface : string;
  filter : string;
  save_on_failure : bool;
  failure_dir : string;
  max_stored_packets : Z;
  session_options : CaptureSessionOptions
}.
Definition default_config : LiveCaptureConfig :=
  mkLiveCaptureConfig "lo" "" true "/tmp/wadjet_failures" 1000 default_options.

(** The setters of the fixture. *)
Definition set_interface (iface : string) (c : LiveCaptureConfig) : LiveCaptureConfig :=
  mkLiveCaptureConfig iface (filter c) (save_on_failure c) (failure_dir c) (max_stored_packets c) (session_options c).
Definition set_config_filter (f : string) (c : LiveCaptureConfig) : LiveCaptureConfig :=
  mkLiveCaptureConfig (interface c) f (save_on_failure c) (failure_dir c) (max_stored_packets c) (session_options c).
Definition set_save_on_failure (save : bool) (c : LiveCaptureConfig) : LiveCaptureConfig :=
  mkLiveCaptureConfig (interface c) (filter c) save (failure_dir c) (max_stored_packets c) (session_options c).
Definition set_failure_dir (dir : string) (c : LiveCaptureConfig) : LiveCaptureConfig :=
  mkLiveCaptureConfig (interface c) (filter c) (save_on_failure c) dir (max_stored_packets c) (session_options c).

Record Fixture (Session : Type) := mkFixture {
  config : LiveCaptureConfig;
  session_ : option Session;
  captured_packets_ : list Packet
}.
Arguments mkFixture {Session} config session_ captured_packets_.
Arguments config {Session} f.
Arguments session_ {Session} f.
Arguments captured_packets_ {Session} f.

(** How [SetUp] ends: the test is skipped, has failed, or is run. *)
Inductive SetUpOutcome := Skipped (reason : string) | Failed (reason : string) | Ready.

Section fixture.
(** The byte order of the host, the files that can be created, and the clocks
    ([time_since_epoch().count()] of the system clock). *)
Context (big : bool) (creatable : string -> bool) (steady system : nat -> Z).
Context {Session : Type} `{!CaptureSession Session}.
Local Abbreviation Fixture := (Fixture Session).

Definition set_session (c : option Session) (f : Fixture) : Fixture := mkFixture (config f) c (captured_packets_ f).
Definition set_captured (ps : list Packet) (f : Fixture) : Fixture := mkFixture (config f) (session_ f) ps.

Definition SetUp (has_capture_capability : bool) (f : Fixture) : SetUpOutcome * Fixture :=
  if negb has_capture_capability then
    (Skipped "Skipping: requires CAP_NET_RAW capability or root privileges", f)
  else
    match create (interface (config f)) (session_options (config f)) with
    | inl e => (Failed ("Failed to create capture session on " +:+ interface (config f) +:+ ": " +:+ e), f)
    | inr c =>
        let (filter_error, c) :=
          if negb (String.eqb (filter (config f)) "") then set_filter (filter (config f)) c else (None, c) in
        match filter_error with
        | Some e => (Failed ("Failed to set BPF filter '" +:+ filter (config f) +:+ "': " +:+ e), set_session (Some c) f)
        | None =>
            let (start_error, c) := start c in
            match start_error with
            | Some e => (Failed ("Failed to start capture session: " +:+ e), set_session (Some c) f)
            | None => (Ready, set_captured [] (set_session (Some c) f))
            end
        end
    end.

(** The file of a capture; a file that cannot be created is not written. *)
Definition save_pcap (path : string) (packets : list Packet) (w : World) : World :=
  if creatable path
  then mkWorld (ticks w) (saved w ++ [(path, Pcap.file (write_all big packets (Pcap.create big PcapWriterOptions_default)))])
  else w.

Definition save_failure_pcap (suite test : string) (f : Fixture) (w : World) : World :=
  let filename := suite +:+ "_" +:+ test +:+ "_" +:+ pretty (system (ticks w)) +:+ ".pcap" in
  save_pcap (failure_dir (config f) +:+ "/" +:+ filename) (captured_packets_ f) (set_ticks (S (ticks w)) w).

(** The session is stopped, and destroyed. *)
Definition TearDown (has_failure : bool) (suite test : string) (f : Fixture) (w : World) : Fixture * World :=
  let w :=
    if save_on_failure (config f) && has_failure && negb (zlen (captured_packets_ f) =? 0)
    then save_failure_pcap suite test f w else w in
  (mkFixture (config f) None [], w).

Definition store_packet (p : Packet) (f : Fixture) : Fixture :=
  if zlen (captured_packets_ f) <? max_stored_packets (config f)
  then set_captured (captured_packets_ f ++ [p]) f else f.

(** A loop of the fixture that begins now; the timeout is in milliseconds. *)
Definition run_loop {A} (body : Packet -> Fixture * A -> (Fixture * A) * bool) (fuel : nat) (timeout : Z)
    (f : Fixture) (a : A) (w : World) : step_run (A * Fixture * World) :=
  let deadline := steady (ticks w) + timeout * millisecond in
  o ← capture_loop steady body fuel deadline (session_ f) (f, a) (S (ticks w));
  let '(f, a, _, c, t) := o in
  Done (a, set_session c f, set_ticks t w).

(** Predicates may have a state of their own. *)
Section predicate.
Context {P : Type} (predicate : Packet -> P -> bool * P).

Definition wait_body (p : Packet) (s : Fixture * (option Packet * P)) : (Fixture * (option Packet * P)) * bool :=
  let f := store_packet p s.1 in
  let (b, st) := predicate p s.2.2 in
  if b then ((f, (Some p, st)), true) else ((f, (None, st)), false).
Definition wait_for_packet (fuel : nat) (timeout : Z) (f : Fixture) (st : P) (w : World)
    : step_run (option Packet * P * Fixture * World) :=
  run_loop wait_body fuel timeout f (None, st) w.

Definition any_packet_matches (fuel : nat) (timeout : Z) (f : Fixture) (st : P) (w : World)
    : step_run (bool * Fixture * World) :=
  o ← wait_for_packet fuel timeout f st w;
  let '(p, _, f, w) := o in Done (match p with Some _ => true | None => false end, f, w).

Definition collect_until_body (p : Packet) (s : Fixture * (list Packet * P)) : (Fixture * (list Packet * P)) * bool :=
  let f := store_packet p s.1 in
  let packets := s.2.1 ++ [p] in
  let (b, st) := predicate p s.2.2 in ((f, (packets, st)), b).
Definition collect_until (fuel : nat) (timeout : Z) (f : Fixture) (st : P) (w : World)
    : step_run (list Packet * P * Fixture * World) :=
  run_loop collect_until_body fuel timeout f ([], st) w.

Fixpoint count_loop (packets : list Packet) (count : Z) (st : P) : Z * P :=
  match packets with
  | [] => (count, st)
  | pkt :: packets' => let (b, st) := predicate pkt st in count_loop packets' (if b then uint 64 (count + 1) else count) st
  end.
End predicate.

Definition wait_for_match (matcher : Packet -> bool) (fuel : nat) (timeout : Z) (f : Fixture) (w : World) :=
  wait_for_packet (fun p (_ : unit) => (matcher p, tt)) fuel timeout f tt w.

Definition collect_body (p : Packet) (s : Fixture * list Packet) : (Fixture * list Packet) * bool :=
  ((store_packet p s.1, s.2 ++ [p]), false).
Definition collect_packets (fuel : nat) (duration : Z) (f : Fixture) (w : World)
    : step_run (list Packet * Fixture * World) :=
  run_loop collect_body fuel duration f [] w.

Definition count_packets {P} (predicate : Packet -> P -> bool * P) (fuel : nat) (duration : Z) (f : Fixture) (st : P) (w : World)
    : step_run (Z * P * Fixture * World) :=
  o ← collect_packets fuel duration f w;
  let '(packets, f, w) := o in Done (count_loop predicate packets 0 st, f, w).
End fixture.

(** * Properties *)

(** ** The loop *)

Section loop_spec.
Context (steady : nat -> Z) {Session : Type} `{!CaptureSession Session}.

(** The session delivers packets: calls of [next_packet], each with time left. *)
Inductive receives : Session -> list Packet -> Session -> Prop :=
| receives_end c : receives c [] c
| receives_timeout c ms c1 ps c' : 0 < ms -> next_packet ms c = (None, c1) -> receives c1 ps c' -> receives c ps c'
| receives_packet c ms p c1 ps c' : 0 < ms -> next_packet ms c = (Some p, c1) -> receives c1 ps c' -> receives c (p :: ps) c'.

(** The clock is less than a millisecond before the deadline, or past it. *)
Definition timed_out (deadline : Z) (t : nat) : Prop := exists k, t = S k /\ deadline - steady k < millisecond.

Context {A : Type} (body : Packet -> A -> A * bool).

(** The body is run on packets, and asks to leave the loop after the last one or not at all. *)
Fixpoint handles (ps : list Packet) (a : A) (a' : A) (left : bool) : Prop :=
  match ps with
  | [] => a' = a /\ left = false
  | p :: ps' => if (body p a).2 then ps' = [] /\ a' = (body p a).1 /\ left = true else handles ps' (body p a).1 a' left
  end.

Local Abbreviation capture_loop := (capture_loop steady body).

Lemma capture_loop_exact fuel deadline c a t a' left s' t' :
  capture_loop fuel deadline (Some c) a t = Done (a', left, s', t') ->
  exists ps c', s' = Some c' /\ receives c ps c' /\ handles ps a a' left /\ (left = false -> timed_out deadline t').
Proof.
  revert c a t. induction fuel as [|fuel IH]; intros c a t H; [discriminate H|]. cbn [LiveCapture.capture_loop] in H.
  assert (Hend : forall k, deadline - steady k < millisecond -> Done (E:=ScenarioRunner.Unfinished) (a, false, Some c, S k) = Done (a', left, s', t') ->
            exists ps c', s' = Some c' /\ receives c ps c' /\ handles ps a a' left /\ (left = false -> timed_out deadline t')).
  { intros k Hk E. injection E as <- <- <- <-. exists [], c. split; [reflexivity|]. split; [constructor|].
    split; [split; reflexivity|]. intros _. exists k. split; [reflexivity | exact Hk]. }
  destruct (Z.leb_spec deadline (steady t)); [apply (Hend t); [unfold millisecond; lia | exact H]|].
  destruct (Z.leb_spec (Z.quot (deadline - steady (S t)) millisecond) 0) as [Hr|Hr].
  { apply (Hend (S t)); [|exact H]. unfold millisecond in *. lia. }
  destruct (next_packet _ c) as [[p|] c1] eqn:En.
  - destruct (body p a) as [a1 b] eqn:Eb. destruct b.
    + injection H as <- <- <- <-. exists [p], c1. split; [reflexivity|].
      split; [eapply receives_packet; [exact Hr | exact En | constructor]|]. cbn. rewrite Eb. cbn. split; [auto | discriminate].
    + apply IH in H as (ps & c' & -> & Hrec & Hh & Ht). exists (p :: ps), c'. split; [reflexivity|].
      split; [eapply receives_packet; eassumption|]. cbn. rewrite Eb. auto.
  - apply IH in H as (ps & c' & -> & Hrec & Hh & Ht). exists ps, c'. split; [reflexivity|].
    split; [eapply receives_timeout; eassumption|]. auto.
Qed.

(** The loop ends once the clock stays past the deadline; every round reads it twice. *)
Lemma capture_loop_ends K fuel deadline c a t :
  (forall k, (K <= k)%nat -> deadline <= steady k) -> (K < t + 2 * fuel)%nat -> (0 < fuel)%nat ->
  exists o, capture_loop fuel deadline (Some c) a t = Done o.
Proof.
  intros HK. revert c a t. induction fuel as [|fuel IH]; intros c a t Hf H0; [lia|]. cbn [LiveCapture.capture_loop].
  destruct (Z.leb_spec deadline (steady t)) as [|Hlt]; [eauto|].
  destruct (Z.leb_spec (Z.quot (deadline - steady (S t)) millisecond) 0) as [|Hr]; [eauto|].
  assert (Hd : 0 < deadline - steady (S t)) by (unfold millisecond in Hr; lia).
  assert (HS : (S t < K)%nat).
  { destruct (Nat.lt_ge_cases (S t) K); [assumption|]. specialize (HK (S t)). lia. }
  destruct (next_packet _ c) as [[p|] c1]; [destruct (body p a) as [a1 b]; destruct b; [eauto|]|]; apply IH; lia.
Qed.

Lemma handles_app ps qs a a1 a2 left :
  handles ps a a1 false -> handles qs a1 a2 left -> handles (ps ++ qs) a a2 left.
Proof.
  revert a. induction ps as [|p ps IH]; intros a; cbn; [intros [-> _]; auto|].
  destruct (body p a).2; [intros (_ & _ & [=])|]. eauto.
Qed.
End loop_spec.

(** ** The fixture *)

Section fixture_spec.
Context (steady : nat -> Z) {Session : Type} `{!CaptureSession Session}.
Local Abbreviation Fixture := (Fixture Session).

(** The fixture after it has stored packets: the first ones, as many as there is room for. *)
Definition storing (ps : list Packet) (f : Fixture) : Fixture :=
  set_captured (captured_packets_ f ++ take (Z.to_nat (max_stored_packets (config f) - zlen (captured_packets_ f))) ps) f.

Lemma storing_nil f : storing [] f = f.
Proof. destruct f. unfold storing, set_captured. cbn. rewrite take_nil, app_nil_r. reflexivity. Qed.

Lemma storing_cons p ps f : storing ps (store_packet p f) = storing (p :: ps) f.
Proof.
  destruct f as [cf c l]. unfold store_packet, storing, set_captured. cbn [config session_ captured_packets_].
  destruct (Z.ltb_spec (zlen l) (max_stored_packets cf)); cbn [config session_ captured_packets_].
  - rewrite length_app, <- app_assoc. cbn [length app].
    replace (Z.to_nat (max_stored_packets cf - zlen l)) with (S (Z.to_nat (max_stored_packets cf - Z.of_nat (length l + 1)))) by lia.
    reflexivity.
  - replace (Z.to_nat (max_stored_packets cf - zlen l)) with O by lia. reflexivity.
Qed.

(** What every loop of the fixture does. *)
Definition fixture_loop {A} (body : Packet -> Fixture * A -> (Fixture * A) * bool) (timeout : Z)
    (f : Fixture) (a : A) (w : World) (a' : A) (f' : Fixture) (w' : World) : Prop :=
  exists ps c c' left f1, session_ f = Some c /\ receives c ps c' /\
    handles body ps (f, a) (f1, a') left /\ f' = set_session (Some c') f1 /\ saved w' = saved w /\
    (left = false -> timed_out steady (steady (ticks w) + timeout * millisecond) (ticks w')).

Lemma run_loop_exact {A} (body : Packet -> Fixture * A -> (Fixture * A) * bool) fuel timeout f a w a' f' w' c :
  session_ f = Some c -> run_loop steady body fuel timeout f a w = Done (a', f', w') ->
  fixture_loop body timeout f a w a' f' w'.
Proof.
  intros Hc H. apply bind_inv in H as ([[[[f1 a1] left] s] t] & H & E). rewrite Hc in H.
  apply capture_loop_exact in H as (ps & c' & -> & Hr & Hh & Ht). injection E as <- <- <-.
  exists ps, c, c', left, f1. auto 10.
Qed.

Section predicate.
Context {P : Type} (predicate : Packet -> P -> bool * P).

(** The answers of a predicate to packets, and its state after them. *)
Fixpoint answers (ps : list Packet) (st : P) : list bool * P :=
  match ps with
  | [] => ([], st)
  | p :: ps' => let (b, st) := predicate p st in let (bs, st) := answers ps' st in (b :: bs, st)
  end.

(** The first packet that the predicate accepts, if it is the last one. *)
Definition first_accepted (ps : list Packet) (st : P) (found : option Packet) : Prop :=
  match found with
  | Some p => exists qs, ps = qs ++ [p] /\ (answers ps st).1 = repeat false (length qs) ++ [true]
  | None => (answers ps st).1 = repeat false (length ps)
  end.

Lemma first_accepted_cons p ps st found :
  (predicate p st).1 = false -> first_accepted ps (predicate p st).2 found -> first_accepted (p :: ps) st found.
Proof.
  unfold first_accepted. cbn [answers]. destruct (predicate p st) as [b st1]. cbn [fst snd]. intros ->.
  destruct (answers ps st1) as [bs st2]. destruct found as [q|]; cbn [fst].
  - intros (qs & -> & ->). exists (p :: qs). split; reflexivity.
  - intros ->. reflexivity.
Qed.

Lemma wait_body_handles ps f st f1 found st' left :
  handles (wait_body predicate) ps (f, (None, st)) (f1, (found, st')) left ->
  f1 = storing ps f /\ first_accepted ps st found /\ st' = (answers ps st).2 /\ (left = false <-> found = None).
Proof.
  revert f st. induction ps as [|p ps IH]; intros f st; cbn [handles].
  - intros [E ->]. injection E as -> -> ->. rewrite storing_nil. split_and!; reflexivity || tauto.
  - assert (Eb : wait_body predicate p (f, (None, st)) = (store_packet p f, (if (predicate p st).1 then Some p else None, (predicate p st).2), (predicate p st).1))
      by (unfold wait_body; cbn; destruct (predicate p st) as [[] st1]; reflexivity).
    rewrite Eb. destruct (predicate p st) as [b st1] eqn:Ep. destruct b; cbn [fst snd].
    + intros (-> & E & ->). injection E as -> -> ->. rewrite <- storing_cons, storing_nil.
      split; [reflexivity|]. split; [|split; [cbn; rewrite Ep; reflexivity | split; discriminate]].
      exists []. split; [reflexivity|]. cbn. rewrite Ep. reflexivity.
    + intros H. apply IH in H as (-> & Hf & -> & Hl). rewrite storing_cons. split; [reflexivity|]. split; [|split; [|exact Hl]].
      * apply first_accepted_cons; rewrite Ep; [reflexivity | exact Hf].
      * cbn. rewrite Ep. destruct (answers ps st1). reflexivity.
Qed.

(** [wait_for_packet] returns the first packet that the predicate accepts, which is the
    last one that it takes from the session, or nothing at the deadline. *)
Theorem wait_for_packet_exact fuel timeout f c st w found st' f' w' :
  session_ f = Some c -> wait_for_packet steady predicate fuel timeout f st w = Done (found, st', f', w') ->
  exists ps c', receives c ps c' /\ f' = set_session (Some c') (storing ps f) /\ saved w' = saved w /\
    first_accepted ps st found /\ st' = (answers ps st).2 /\
    (found = None -> timed_out steady (steady (ticks w) + timeout * millisecond) (ticks w')).
Proof.
  intros Hc H. apply run_loop_exact with (1 := Hc) in H as (ps & c1 & c' & left & f1 & E & Hr & Hh & -> & Hs & Ht).
  rewrite Hc in E. injection E as <-. apply wait_body_handles in Hh as (-> & Hf & Hst & Hl).
  exists ps, c'. split_and!; try assumption; [reflexivity|]. intros E. apply Ht, Hl, E.
Qed.

Lemma collect_until_handles ps f l st f1 l' st' left :
  handles (collect_until_body predicate) ps (f, (l, st)) (f1, (l', st')) left ->
  f1 = storing ps f /\ l' = l ++ ps /\ st' = (answers ps st).2 /\
  first_accepted ps st (if left then last ps else None) /\ (left = true -> ps <> []).
Proof.
  revert f l st. induction ps as [|p ps IH]; intros f l st; cbn [handles].
  - intros [E ->]. injection E as -> -> ->. rewrite storing_nil, app_nil_r. split_and!; [reflexivity.. | discriminate].
  - assert (Eb : collect_until_body predicate p (f, (l, st)) = (store_packet p f, (l ++ [p], (predicate p st).2), (predicate p st).1))
      by (unfold collect_until_body; cbn; destruct (predicate p st); reflexivity).
    rewrite Eb. destruct (predicate p st) as [b st1] eqn:Ep. destruct b; cbn [fst snd].
    + intros (-> & E & ->). injection E as -> -> ->. rewrite <- storing_cons, storing_nil.
      split_and!; [reflexivity | reflexivity | cbn; rewrite Ep; reflexivity | | discriminate].
      exists []. split; [reflexivity|]. cbn. rewrite Ep. reflexivity.
    + intros H. apply IH in H as (-> & -> & -> & Hf & Hne). rewrite storing_cons, <- app_assoc.
      split_and!; [reflexivity | reflexivity | cbn; rewrite Ep; destruct (answers ps st1); reflexivity | | discriminate].
      apply first_accepted_cons; rewrite Ep; [reflexivity|]. destruct left; [|exact Hf].
      cbn [snd]. destruct ps; [contradiction (Hne eq_refl eq_refl) | exact Hf].
Qed.

(** [collect_until] returns the packets up to the first one that the predicate accepts. *)
Theorem collect_until_exact fuel timeout f c st w packets st' f' w' :
  session_ f = Some c -> collect_until steady predicate fuel timeout f st w = Done (packets, st', f', w') ->
  exists c', receives c packets c' /\ f' = set_session (Some c') (storing packets f) /\ saved w' = saved w /\
    st' = (answers packets st).2 /\
    (first_accepted packets st (last packets) /\ packets <> [] \/
     first_accepted packets st None /\ timed_out steady (steady (ticks w) + timeout * millisecond) (ticks w')).
Proof.
  intros Hc H. apply run_loop_exact with (1 := Hc) in H as (ps & c1 & c' & left & f1 & E & Hr & Hh & -> & Hs & Ht).
  rewrite Hc in E. injection E as <-. apply collect_until_handles in Hh as (-> & -> & Hst & Hf & Hne).
  exists c'. split_and!; try assumption; [reflexivity|]. destruct left; [left|right]; auto.
Qed.

(** [count_packets] counts the packets that the predicate accepts until the deadline. *)
Lemma count_loop_exact ps n st :
  count_loop predicate ps (uint 64 n) st =
    (uint 64 (n + zlen (List.filter id (answers ps st).1)), (answers ps st).2).
Proof.
  revert n st. induction ps as [|p ps IH]; intros n st; cbn; [rewrite Z.add_0_r; reflexivity|].
  destruct (predicate p st) as [b st1]. specialize (IH (if b then n + 1 else n) st1).
  replace (if b then uint 64 (uint 64 n + 1) else uint 64 n) with (uint 64 (if b then n + 1 else n))
    by (destruct b; [rewrite uint_add|]; reflexivity).
  rewrite IH. destruct (answers ps st1) as [bs st2]. destruct b; cbn [fst snd List.filter id length]; [|reflexivity].
  f_equal. f_equal. lia.
Qed.
End predicate.

Lemma collect_handles ps f l f1 l' left :
  handles collect_body ps (f, l) (f1, l') left -> f1 = storing ps f /\ l' = l ++ ps /\ left = false.
Proof.
  revert f l. induction ps as [|p ps IH]; intros f l; cbn.
  - intros [E ->]. injection E as -> ->. rewrite storing_nil, app_nil_r. auto.
  - intros H. apply IH in H as (-> & -> & ->). rewrite storing_cons, <- app_assoc. auto.
Qed.

(** [collect_packets] returns all packets until the deadline, and stores the first ones. *)
Theorem collect_packets_exact fuel duration f c w packets f' w' :
  session_ f = Some c -> collect_packets steady fuel duration f w = Done (packets, f', w') ->
  exists c', receives c packets c' /\ f' = set_session (Some c') (storing packets f) /\ saved w' = saved w /\
    timed_out steady (steady (ticks w) + duration * millisecond) (ticks w').
Proof.
  intros Hc H. apply run_loop_exact with (1 := Hc) in H as (ps & c1 & c' & left & f1 & E & Hr & Hh & -> & Hs & Ht).
  rewrite Hc in E. injection E as <-. apply collect_handles in Hh as (-> & -> & ->). exists c'. auto 10.
Qed.

Theorem count_packets_exact {P} (predicate : Packet -> P -> bool * P) fuel duration f c st w n st' f' w' :
  session_ f = Some c -> count_packets steady predicate fuel duration f st w = Done (n, st', f', w') ->
  exists ps c', receives c ps c' /\ n = uint 64 (zlen (List.filter id (answers predicate ps st).1)) /\
    timed_out steady (steady (ticks w) + duration * millisecond) (ticks w').
Proof.
  intros Hc H. apply bind_inv in H as ([[packets f1] w1] & H & E). apply collect_packets_exact with (1 := Hc) in H as (c' & Hr & _ & _ & Ht).
  change (count_loop predicate packets 0 st) with (count_loop predicate packets (uint 64 0) st) in E.
  rewrite count_loop_exact in E. injection E as <- <- _ <-. exists packets, c'. auto.
Qed.
End fixture_spec.

(** ** Examples *)

(** A session that has the packets ready, and whose clock advances by 10 ms at each reading. *)
#[export] Instance list_session : CaptureSession (list Packet) := {
  create := fun iface _ => if String.eqb iface "" then inl "No such device" else inr [mkPacket [x01] 1; mkPacket [x02] 2; mkPacket [x03] 3];
  set_filter := fun f c => if String.eqb f "bad" then (Some "syntax error", c) else (None, c);
  start := fun c => (None, c);
  stop := fun c => c;
  next_packet := fun _ c => match c with [] => (None, []) | p :: c' => (Some p, c') end
}.
Definition sample_clock (k : nat) : Z := Z.of_nat k * 10000000.
Definition starts_with (b : byte) (p : Packet) : bool := match pk_data p with b' :: _ => Byte.eqb b b' | [] => false end.

Example fixture_run :
  let (outcome, f) := SetUp true (mkFixture default_config None []) in
  outcome = Ready /\
  match wait_for_match sample_clock (starts_with x02) 10 100 f (mkWorld 0 []) with
  | Done (Some p, _, f, w) => p = mkPacket [x02] 2 /\ captured_packets_ f = [mkPacket [x01] 1; mkPacket [x02] 2]
  | _ => False
  end.
Proof. vm_compute. auto. Qed.

(** No session: the test that goes on after a failed set-up dereferences a null pointer. *)
Example no_session :
  let (outcome, f) := SetUp (Session := list Packet) true (mkFixture (set_interface "" default_config) None []) in
  outcome = Failed "Failed to create capture session on : No such device" /\
  collect_packets sample_clock 10 100 f (mkWorld 0 []) = Undef.
Proof. vm_compute. auto. Qed.
