(* ===== verification/RecordReplay.v ===== *)
(** * Recording packets and asserting on the record (include/wadjet/testing/record_replay.hpp)

    [RecordedStream]: queries, slices, the assertion that packets appear in a sequence, and
    the way to a file and back.  [RecordSession]: recording from a live capture for a time,
    until a predicate holds, or until enough packets match.  The macros, which call these
    functions, are left out. *)

From Stdlib Require Import ZArith Lia.
From Stdlib Require Import Strings.Byte.
From stdpp Require Import base numbers list strings.
From S2P Require Import Prelude Pcap LiveCapture.
From S2P Require CaptureSetup ScenarioRunner Dispatcher.
Import CaptureSetup (default_options).
Import ScenarioRunner (step_run).
Import Dispatcher (run).

(** ** Recorded streams *)

(** The only member is the vector of packets. *)
Abbreviation RecordedStream := (list Packet).

Module Stream.
Definition size (s : RecordedStream) : Z := zlen s.
Definition empty (s : RecordedStream) : bool := size s =? 0.

(** [operator[]], and [at], which throws. *)
Definition get (s : RecordedStream) (idx : nat) : run Packet :=
  match s !! idx with Some p => Done p | None => Undef end.
Definition at_ (s : RecordedStream) (idx : nat) : option Packet := s !! idx.
Definition first (s : RecordedStream) : option Packet := head s.
Definition last (s : RecordedStream) : option Packet := last s.

Definition filter (predicate : Packet -> bool) (s : RecordedStream) : RecordedStream := List.filter predicate s.
Definition any_matches (predicate : Packet -> bool) (s : RecordedStream) : bool := existsb predicate s.
Definition all_match (predicate : Packet -> bool) (s : RecordedStream) : bool := forallb predicate s.
Definition none_match (predicate : Packet -> bool) (s : RecordedStream) : bool := negb (existsb predicate s).
Definition count_matches (predicate : Packet -> bool) (s : RecordedStream) : Z := zlen (List.filter predicate s).
Definition find_first (predicate : Packet -> bool) (s : RecordedStream) : option Packet := List.find predicate s.
Fixpoint find_index (predicate : Packet -> bool) (s : RecordedStream) : option nat :=
  match s with
  | [] => None
  | p :: s' => if predicate p then Some O else S <$> find_index predicate s'
  end.

Definition take (n : nat) (s : RecordedStream) : RecordedStream := firstn (Nat.min n (length s)) s.
Definition skip (n : nat) (s : RecordedStream) : RecordedStream :=
  if (length s <=? n)%nat then [] else skipn n s.
Fixpoint take_while (predicate : Packet -> bool) (s : RecordedStream) : RecordedStream :=
  match s with
  | [] => []
  | p :: s' => if negb (predicate p) then [] else p :: take_while predicate s'
  end.
Fixpoint skip_while (predicate : Packet -> bool) (s : RecordedStream) : RecordedStream :=
  match s with
  | [] => []
  | p :: s' => if negb (predicate p) then p :: s' else skip_while predicate s'
  end.
Definition slice (start stop : nat) (s : RecordedStream) : RecordedStream :=
  let start := Nat.min start (length s) in
  let stop := Nat.min stop (length s) in
  if (stop <=? start)%nat then [] else firstn (stop - start) (skipn start s).

(** The loop of [has_sequence]: the number of checks that have been met. *)
Fixpoint sequence_loop (checks : list (Packet -> bool)) (matcher_idx : nat) (s : RecordedStream) : nat :=
  match s with
  | [] => matcher_idx
  | pkt :: s' =>
      sequence_loop checks
        (match nth_error checks matcher_idx with
         | Some check => if check pkt then S matcher_idx else matcher_idx
         | None => matcher_idx
         end) s'
  end.
Definition has_sequence (checks : list (Packet -> bool)) (s : RecordedStream) : bool :=
  (sequence_loop checks 0 s =? length checks)%nat.

Fixpoint all_consecutive_satisfy (pred : Packet -> Packet -> bool) (s : RecordedStream) : bool :=
  match s with
  | p :: ((q :: _) as s') => if negb (pred p q) then false else all_consecutive_satisfy pred s'
  | _ => true
  end.

(** The result, and the contents of the file if it could be created. *)
Definition save_to_pcap (big creatable : bool) (s : RecordedStream) : bool * option (list byte) :=
  if negb creatable then (false, None)
  else (true, Some (Pcap.file (write_all big s (Pcap.create big PcapWriterOptions_default)))).

(** [None] is a file that cannot be opened; the loop reads until there is no packet. *)
Definition load_from_pcap (big : bool) (contents : option (list byte)) : run (option RecordedStream) :=
  match contents with
  | None => Done None
  | Some d =>
      match from_memory big d with
      | Fail _ => Done None
      | Undef => Undef
      | Done reader => match read_all big reader with Done out => Done (Some out.1) | _ => Undef end
      end
  end.

Definition add (packet : Packet) (s : RecordedStream) : RecordedStream := s ++ [packet].
Definition add_all (packets : list Packet) (s : RecordedStream) : RecordedStream := s ++ packets.
Definition clear (s : RecordedStream) : RecordedStream := [].
Definition append (s other : RecordedStream) : RecordedStream := s ++ other.
End Stream.

(** ** Recording *)

Record RecordSession := mkRecordSession {
  interface_ : string;
  filter_ : string;
  stream_ : RecordedStream
}.
Definition new_session (interface : string) : RecordSession := mkRecordSession interface "" [].
Definition set_filter (f : string) (s : RecordSession) : RecordSession := mkRecordSession (interface_ s) f (stream_ s).
Definition set_stream (st : RecordedStream) (s : RecordSession) : RecordSession :=
  mkRecordSession (interface_ s) (filter_ s) st.

Section recording.
Context (big : bool) (steady : nat -> Z) {Session : Type} `{!CaptureSession Session}.

(** Durations are in nanoseconds; the state that is threaded is the number of readings of
    the clock.  The session is stopped and destroyed at the end. *)
Definition record_body (p : Packet) (st : RecordedStream) : RecordedStream * bool := (Stream.add p st, false).
Definition record_for (fuel : nat) (duration : Z) (s : RecordSession) (t : nat) : step_run (bool * RecordSession * nat) :=
  match prepare (interface_ s) (filter_ s) default_options with
  | inl _ => Done (false, s, t)
  | inr session =>
      o ← capture_loop steady record_body fuel (steady t + duration) (Some session) (stream_ s) (S t);
      let '(st, _, _, t) := o in Done (true, set_stream st s, t)
  end.

(** A predicate may have a state of its own. *)
Definition until_body {P} (predicate : Packet -> P -> bool * P) (p : Packet) (a : RecordedStream * P)
    : (RecordedStream * P) * bool :=
  let st := Stream.add p a.1 in
  let (b, x) := predicate p a.2 in ((st, x), b).
Definition record_until {P} (predicate : Packet -> P -> bool * P) (fuel : nat) (timeout : Z) (s : RecordSession)
    (x : P) (t : nat) : step_run (bool * P * RecordSession * nat) :=
  match prepare (interface_ s) (filter_ s) default_options with
  | inl _ => Done (false, x, s, t)
  | inr session =>
      o ← capture_loop steady (until_body predicate) fuel (steady t + timeout) (Some session) (stream_ s, x) (S t);
      let '((st, x), found, _, t) := o in Done (found, x, set_stream st s, t)
  end.

(** The predicate of [record_n_matching]: it counts, and compares the count. *)
Definition counting {P} (count : Z) (predicate : Packet -> P -> bool * P) (p : Packet) (m : Z * P) : bool * (Z * P) :=
  let (b, x) := predicate p m.2 in
  let matches := if b then uint 64 (m.1 + 1) else m.1 in
  (count <=? matches, (matches, x)).
Definition record_n_matching {P} (count : Z) (predicate : Packet -> P -> bool * P) (fuel : nat) (timeout : Z)
    (s : RecordSession) (x : P) (t : nat) : step_run (bool * (Z * P) * RecordSession * nat) :=
  record_until (counting count predicate) fuel timeout s (0, x) t.

Definition load_from_pcap (contents : option (list byte)) (s : RecordSession) : run (bool * RecordSession) :=
  loaded ← Stream.load_from_pcap big contents;
  Done (match loaded with Some st => (true, set_stream st s) | None => (false, s) end).

(** [get_stream] moves the vector out of the session. *)
Definition get_stream (s : RecordSession) : RecordedStream * RecordSession := (stream_ s, set_stream [] s).
Definition clear (s : RecordSession) : RecordSession := set_stream (Stream.clear (stream_ s)) s.
Definition save_to_pcap (creatable : bool) (s : RecordSession) : bool * option (list byte) :=
  Stream.save_to_pcap big creatable (stream_ s).
End recording.

(** * Properties *)

(** ** Queries and slices *)

Section queries.
Implicit Types (s : RecordedStream) (f : Packet -> bool).

Lemma find_index_exact f s i :
  Stream.find_index f s = Some i <->
  (exists p, s !! i = Some p /\ f p = true) /\ forall j q, (j < i)%nat -> s !! j = Some q -> f q = false.
Proof.
  revert i. induction s as [|p s IH]; intros i; cbn; [split; [discriminate | intros [(p & [=] & _) _]]|].
  destruct (f p) eqn:Ef.
  - split.
    + intros [= <-]. split; [exists p; split; [reflexivity | exact Ef] | lia].
    + intros [_ Hj]. destruct i as [|i]; [reflexivity|]. specialize (Hj O p ltac:(lia) eq_refl). congruence.
  - destruct i as [|i].
    + split; [destruct (Stream.find_index f s); discriminate | intros [(q & [= <-] & E) _]; congruence].
    + transitivity (Stream.find_index f s = Some i).
      { destruct (Stream.find_index f s); cbn; split; congruence. }
      rewrite IH. cbn. split; intros [He Hj]; (split; [exact He|]).
      * intros [|j] q Hlt E; [injection E as <-; exact Ef | apply (Hj j q); [lia | exact E]].
      * intros j q Hlt E. apply (Hj (S j) q); [lia | exact E].
Qed.

Lemma find_first_head f s : Stream.find_first f s = head (Stream.filter f s).
Proof.
  unfold Stream.find_first, Stream.filter. induction s as [|p s IH]; cbn; [reflexivity|].
  destruct (f p); [reflexivity | exact IH].
Qed.

Lemma find_first_index f s : Stream.find_first f s = (i ← Stream.find_index f s; s !! i).
Proof.
  unfold Stream.find_first. induction s as [|p s IH]; cbn; [reflexivity|]. destruct (f p); [reflexivity|].
  rewrite IH. destruct (Stream.find_index f s); reflexivity.
Qed.

Lemma count_complement f s :
  Stream.count_matches f s + Stream.count_matches (fun p => negb (f p)) s = Stream.size s.
Proof.
  unfold Stream.count_matches, Stream.size. induction s as [|p s IH]; cbn; [reflexivity|]. destruct (f p); cbn [negb length]; lia.
Qed.

Lemma any_matches_count f s : Stream.any_matches f s = (0 <? Stream.count_matches f s).
Proof.
  unfold Stream.any_matches, Stream.count_matches. induction s as [|p s IH]; cbn; [reflexivity|].
  destruct (f p); cbn [orb length]; [symmetry; apply Z.ltb_lt; lia | exact IH].
Qed.

Lemma all_match_count f s : Stream.all_match f s = (Stream.count_matches f s =? Stream.size s).
Proof.
  pose proof (count_complement f s) as H. unfold Stream.all_match. symmetry. apply eq_true_iff_eq.
  rewrite Z.eqb_eq, forallb_forall. split.
  - intros E p Hin. destruct (f p) eqn:Ef; [reflexivity|]. exfalso.
    assert (Ha : Stream.any_matches (fun p => negb (f p)) s = true)
      by (apply existsb_exists; exists p; rewrite Ef; auto).
    rewrite any_matches_count in Ha. apply Z.ltb_lt in Ha. lia.
  - intros Hall. enough (Stream.any_matches (fun p => negb (f p)) s = false) as Ha.
    { rewrite any_matches_count in Ha. apply Z.ltb_ge in Ha. unfold Stream.count_matches in *. lia. }
    apply not_true_iff_false. intros Ha. apply existsb_exists in Ha as (p & Hin & E). rewrite (Hall p Hin) in E. discriminate E.
Qed.

Lemma take_skip n s : Stream.take n s ++ Stream.skip n s = s.
Proof.
  unfold Stream.take, Stream.skip. destruct (Nat.leb_spec (length s) n).
  - rewrite Nat.min_r by assumption. rewrite take_ge by lia. apply app_nil_r.
  - rewrite Nat.min_l by lia. apply take_drop.
Qed.

Lemma take_while_split f s :
  Stream.take_while f s ++ Stream.skip_while f s = s /\ Forall (fun p => f p = true) (Stream.take_while f s) /\
  forall p, head (Stream.skip_while f s) = Some p -> f p = false.
Proof.
  induction s as [|p s (IHs & IHf & IHh)]; cbn; [split_and!; [reflexivity | constructor | discriminate]|].
  destruct (f p) eqn:Ef; cbn.
  - rewrite IHs. split_and!; [reflexivity | constructor; assumption | exact IHh].
  - split_and!; [reflexivity | constructor | intros q [= <-]; exact Ef].
Qed.

Lemma slice_lookup start stop s i :
  Stream.slice start stop s !! i = if (start + i <? stop)%nat then s !! (start + i)%nat else None.
Proof.
  unfold Stream.slice. destruct (Nat.leb_spec (Nat.min stop (length s)) (Nat.min start (length s))) as [Hle|Hlt].
  - destruct (Nat.ltb_spec (start + i) stop); [|reflexivity]. symmetry. apply lookup_ge_None. lia.
  - rewrite (Nat.min_l start) by lia. destruct (Nat.ltb_spec (start + i) stop) as [Hi|Hi].
    + destruct (Nat.lt_ge_cases (start + i) (length s)).
      * rewrite lookup_take_lt by lia. apply lookup_drop.
      * rewrite lookup_take_ge by lia. symmetry. apply lookup_ge_None. lia.
    + apply lookup_take_ge. lia.
Qed.

Lemma all_consecutive_exact pred s :
  Stream.all_consecutive_satisfy pred s = true <->
  forall i p q, s !! i = Some p -> s !! S i = Some q -> pred p q = true.
Proof.
  induction s as [|p [|q s] IH].
  - split; [discriminate 2 | reflexivity].
  - split; [intros _ [|i] a b E E'; discriminate E' | reflexivity].
  - cbn [Stream.all_consecutive_satisfy]. destruct (pred p q) eqn:Ep; cbn [negb].
    + rewrite IH. split; intros H; [intros [|i] a b; cbn; [intros [= <-] [= <-]; exact Ep | apply H]|].
      intros i a b. apply (H (S i)).
    + split; [discriminate|]. intros H. specialize (H O p q eq_refl eq_refl). congruence.
Qed.
End queries.

(** ** Sequences *)

(** Packets of the stream, in their order, that meet the checks one by one. *)
Definition in_sequence (checks : list (Packet -> bool)) (s : RecordedStream) : Prop :=
  exists l, l `sublist_of` s /\ Forall2 (fun check p => check p = true) checks l.

Lemma in_sequence_nil s : in_sequence [] s.
Proof. exists []. split; [apply sublist_nil_l | constructor]. Qed.

Lemma in_sequence_skip checks p s : in_sequence checks s -> in_sequence checks (p :: s).
Proof. intros (l & Hl & H). exists l. split; [apply sublist_cons, Hl | exact H]. Qed.

Lemma in_sequence_here check checks p s :
  check p = true -> in_sequence checks s -> in_sequence (check :: checks) (p :: s).
Proof. intros Hc (l & Hl & H). exists (p :: l). split; [apply sublist_skip, Hl | constructor; assumption]. Qed.

(** The first packet that meets the first check may as well be taken for it. *)
Lemma in_sequence_cons check checks p s :
  in_sequence (check :: checks) (p :: s) <->
  if check p then in_sequence checks s else in_sequence (check :: checks) s.
Proof.
  split.
  - intros (l & Hl & H). apply Forall2_cons_inv_l in H as (q & l' & Hq & H & ->).
    apply sublist_cons_r in Hl as [Hl|(l2 & E & Hl)].
    + destruct (check p).
      * exists l'. split; [etransitivity; [apply sublist_cons; reflexivity | exact Hl] | exact H].
      * exists (q :: l'). split; [exact Hl | constructor; assumption].
    + injection E as <- <-. rewrite Hq. exists l'. split; assumption.
  - destruct (check p) eqn:Ec; [apply in_sequence_here, Ec | apply in_sequence_skip].
Qed.

Lemma nth_error_lookup {A} (l : list A) i : nth_error l i = l !! i.
Proof. revert i. induction l as [|x l IH]; intros [|i]; cbn; [reflexivity.. | apply IH]. Qed.

Lemma sequence_loop_exact checks idx s :
  (idx <= length checks)%nat ->
  (Stream.sequence_loop checks idx s <= length checks)%nat /\
  (Stream.sequence_loop checks idx s = length checks <-> in_sequence (drop idx checks) s).
Proof.
  revert idx. induction s as [|p s IH]; intros idx Hi; cbn [Stream.sequence_loop].
  - split; [exact Hi|]. split.
    + intros ->. rewrite drop_all. apply in_sequence_nil.
    + intros (l & Hl & H). apply sublist_nil_r in Hl as ->. apply Forall2_nil_inv_r in H.
      apply (f_equal length) in H. rewrite length_drop in H. cbn in H. lia.
  - destruct (nth_error checks idx) as [check|] eqn:En.
    + pose proof (proj1 (nth_error_Some checks idx) ltac:(congruence)) as Hlt.
      assert (Ed : drop idx checks = check :: drop (S idx) checks)
        by (apply drop_S; rewrite <- nth_error_lookup; exact En).
      destruct (IH (if check p then S idx else idx) ltac:(destruct (check p); lia)) as [Hle He].
      split; [exact Hle|]. rewrite He, Ed, in_sequence_cons. destruct (check p); [|rewrite <- Ed]; reflexivity.
    + apply nth_error_None in En. assert (idx = length checks) as -> by lia.
      destruct (IH (length checks) ltac:(lia)) as [Hle He]. split; [exact Hle|]. rewrite He, !drop_all.
      split; intros _; apply in_sequence_nil.
Qed.

(** The greedy loop decides whether the stream has packets, in this order but not
    necessarily next to each other, that match the matchers one by one; no matchers are
    a sequence of every stream. *)
Theorem has_sequence_exact (checks : list (Packet -> bool)) (s : RecordedStream) :
  Stream.has_sequence checks s = true <-> in_sequence checks s.
Proof. unfold Stream.has_sequence. rewrite Nat.eqb_eq. apply (sequence_loop_exact checks 0 s). lia. Qed.

(** ** Recording *)

Section recording_spec.
Context (steady : nat -> Z) {Session : Type} `{!CaptureSession Session}.

(** [record_for] appends the packets that arrive until the deadline; without a session
    it fails and records nothing. *)
Theorem record_for_exact fuel duration s t b s' t' :
  record_for steady fuel duration s t = Done (b, s', t') ->
  match prepare (interface_ s) (filter_ s) default_options with
  | inl _ => b = false /\ s' = s
  | inr c => b = true /\ exists ps c', receives c ps c' /\ s' = set_stream (stream_ s ++ ps) s /\
      timed_out steady (steady t + duration) t'
  end.
Proof.
  unfold record_for. destruct (prepare _ _ _) as [e|c]; [intros [= <- <- <-]; auto|].
  intros H. apply bind_inv in H as ([[[st left] c1] t1] & H & E). injection E as <- <- <-. split; [reflexivity|].
  apply capture_loop_exact in H as (ps & c' & _ & Hr & Hh & Ht).
  assert (Hb : forall ps st0, handles record_body ps st0 st left -> st = st0 ++ ps /\ left = false).
  { clear. induction ps as [|p ps IH]; intros st0; cbn; [intros [-> ->]; rewrite app_nil_r; auto|].
    intros H. apply IH in H as [-> ->]. unfold Stream.add. rewrite <- app_assoc. auto. }
  apply Hb in Hh as [-> ->]. exists ps, c'. auto.
Qed.

Section predicate.
Context {P : Type} (predicate : Packet -> P -> bool * P).

Lemma until_handles ps st x st' x' left :
  handles (until_body predicate) ps (st, x) (st', x') left ->
  st' = st ++ ps /\ x' = (answers predicate ps x).2 /\
  first_accepted predicate ps x (if left then last ps else None) /\ (left = true -> ps <> []).
Proof.
  revert st x. induction ps as [|p ps IH]; intros st x; cbn [handles].
  - intros [E ->]. injection E as -> ->. rewrite app_nil_r. split_and!; [reflexivity.. | discriminate].
  - assert (Eb : until_body predicate p (st, x) = ((st ++ [p], (predicate p x).2), (predicate p x).1))
      by (unfold until_body; cbn; destruct (predicate p x); reflexivity).
    rewrite Eb. destruct (predicate p x) as [b x1] eqn:Ep. destruct b; cbn [fst snd].
    + intros (-> & E & ->). injection E as -> ->. split_and!; [reflexivity | cbn; rewrite Ep; reflexivity | | discriminate].
      exists []. split; [reflexivity|]. cbn. rewrite Ep. reflexivity.
    + intros H. apply IH in H as (-> & -> & Hf & Hne). rewrite <- app_assoc.
      split_and!; [reflexivity | cbn; rewrite Ep; destruct (answers predicate ps x1); reflexivity | | discriminate].
      apply first_accepted_cons; rewrite Ep; [reflexivity|]. destruct left; [|exact Hf].
      cbn [snd]. destruct ps; [contradiction (Hne eq_refl eq_refl) | exact Hf].
Qed.

(** [record_until] records the packets up to the first one that the predicate accepts. *)
Theorem record_until_exact fuel timeout s x t b x' s' t' :
  record_until steady predicate fuel timeout s x t = Done (b, x', s', t') ->
  match prepare (interface_ s) (filter_ s) default_options with
  | inl _ => b = false /\ s' = s /\ x' = x
  | inr c => exists ps c', receives c ps c' /\ s' = set_stream (stream_ s ++ ps) s /\ x' = (answers predicate ps x).2 /\
      if b then ps <> [] /\ first_accepted predicate ps x (last ps)
      else first_accepted predicate ps x None /\ timed_out steady (steady t + timeout) t'
  end.
Proof.
  unfold record_until. destruct (prepare _ _ _) as [e|c]; [intros [= <- <- <- <-]; auto|].
  intros H. apply bind_inv in H as ([[[[st x1] left] c1] t1] & H & E). injection E as <- <- <- <-.
  apply capture_loop_exact in H as (ps & c' & _ & Hr & Hh & Ht). apply until_handles in Hh as (-> & -> & Hf & Hne).
  exists ps, c'. split_and!; [exact Hr | reflexivity | reflexivity|]. destruct left; auto.
Qed.
End predicate.

(** *** Counting *)

Definition pure (f : Packet -> bool) (p : Packet) (u : unit) : bool * unit := (f p, u).

Section counting.
Context (count : Z) (f : Packet -> bool) (Hcount : 0 < count < 2 ^ 64).
Local Abbreviation counted := (answers (counting count (pure f))).

(** One packet: no wrap, as the count so far is below the one wanted. *)
Lemma counting_step p m :
  0 <= m < count -> counting count (pure f) p (m, tt) = (count <=? m + Stream.count_matches f [p], (m + Stream.count_matches f [p], tt)).
Proof.
  intros Hm. unfold counting, pure, Stream.count_matches. cbn. destruct (f p); cbn [length].
  - rewrite uint_small by (unfold fits; lia). reflexivity.
  - rewrite Z.add_0_r. reflexivity.
Qed.

Lemma count_matches_cons p s :
  Stream.count_matches f (p :: s) = Stream.count_matches f [p] + Stream.count_matches f s.
Proof. unfold Stream.count_matches. cbn. destruct (f p); cbn [length]; lia. Qed.

Lemma count_matches_one p : Stream.count_matches f [p] = if f p then 1 else 0.
Proof. unfold Stream.count_matches. cbn. destruct (f p); reflexivity. Qed.

Lemma counted_cons p ps m :
  0 <= m < count ->
  (counted (p :: ps) (m, tt)).1 =
    (count <=? m + Stream.count_matches f [p]) :: (counted ps (m + Stream.count_matches f [p], tt)).1.
Proof. intros Hm. cbn [answers]. rewrite (counting_step p m Hm). destruct (counted ps _). reflexivity. Qed.

Lemma counted_none ps m :
  0 <= m < count -> (counted ps (m, tt)).1 = repeat false (length ps) -> m + Stream.count_matches f ps < count.
Proof.
  revert m. induction ps as [|p ps IH]; intros m Hm; [unfold Stream.count_matches; cbn; lia|].
  rewrite (counted_cons p ps m Hm), (count_matches_cons p ps). cbn [length repeat]. intros [= H0 H].
  apply Z.leb_gt in H0. apply IH in H; [lia|]. rewrite count_matches_one in *. destruct (f p); lia.
Qed.

Lemma counted_some qs p m :
  0 <= m < count -> (counted (qs ++ [p]) (m, tt)).1 = repeat false (length qs) ++ [true] ->
  m + Stream.count_matches f (qs ++ [p]) = count /\ f p = true.
Proof.
  revert m. induction qs as [|q qs IH]; intros m Hm.
  - cbn [app length repeat]. rewrite (counted_cons p [] m Hm), !count_matches_one. intros [= H]. apply Z.leb_le in H.
    destruct (f p); [split; [lia | reflexivity] | lia].
  - cbn [app length repeat]. rewrite (counted_cons q _ m Hm), (count_matches_cons q (qs ++ [p])). intros [= H0 H]. apply Z.leb_gt in H0.
    apply IH in H; [|rewrite count_matches_one in *; destruct (f q); lia]. split; [lia | apply H].
Qed.

(** [record_n_matching] records until the wanted number of matching packets have arrived:
    exactly this number, the last packet among them. *)
Theorem record_n_matching_exact fuel timeout s t b x' s' t' c :
  prepare (interface_ s) (filter_ s) default_options = inr c ->
  record_n_matching steady count (pure f) fuel timeout s tt t = Done (b, x', s', t') ->
  exists ps, stream_ s' = stream_ s ++ ps /\
    if b then Stream.count_matches f ps = count /\ exists p, last ps = Some p /\ f p = true
    else Stream.count_matches f ps < count /\ timed_out steady (steady t + timeout) t'.
Proof.
  intros Hc H. apply record_until_exact in H. rewrite Hc in H. destruct H as (ps & c' & _ & -> & _ & H).
  exists ps. split; [reflexivity|]. destruct b.
  - destruct H as [Hne Hf]. destruct (last ps) as [p|] eqn:El; [|apply last_None in El; contradiction].
    destruct Hf as (qs & -> & Hf). apply counted_some in Hf as [Hn Hp]; [|lia]. split; [lia | eauto].
  - destruct H as [Hf Ht]. apply counted_none in Hf; [|lia]. split; [lia | exact Ht].
Qed.
End counting.
End recording_spec.

(** ** Files *)

(** A stream that is saved can be loaded on any host, and every packet that is not longer
    than ten frames is there, in order, with its time to the microsecond. *)
Theorem saved_stream_loads (writer_big reader_big : bool) (s : RecordedStream) :
  Forall in_range s -> Forall (short_enough PcapWriterOptions_default) s ->
  exists contents, Stream.save_to_pcap writer_big true s = (true, Some contents) /\
    Stream.load_from_pcap reader_big (Some contents) = Done (Some (map (kept PcapWriterOptions_default) s)).
Proof.
  intros Hr Hs. eexists. split; [reflexivity|]. unfold Stream.load_from_pcap.
  destruct (written_file_read writer_big reader_big PcapWriterOptions_default s) as (r & r' & Hm & _ & _ & _ & _ & Ha & _);
    [cbn; unfold fits; lia | cbn; unfold fits; lia | exact Hr | exact Hs|].
  rewrite Hm, Ha. reflexivity.
Qed.

(** ** Examples *)

Example sequence_of_frames :
  let s := [mkPacket [x01] 1; mkPacket [x02] 2; mkPacket [x01] 3; mkPacket [x03] 4] in
  Stream.has_sequence [starts_with x01; starts_with x01; starts_with x03] s = true /\
  Stream.has_sequence [starts_with x03; starts_with x01] s = false.
Proof. vm_compute. auto. Qed.

(** Zero matching packets still take one packet to be noticed, and time out without one. *)
Example zero_matching :
  match record_n_matching sample_clock 0 (pure (starts_with x09)) 10 50000000 (new_session "lo") tt 0 with
  | Done (b, _, s, _) => b = true /\ stream_ s = [mkPacket [x01] 1]
  | _ => False
  end.
Proof. vm_compute. auto. Qed.

Example recorded_until_second :
  match record_n_matching sample_clock 2 (pure (fun _ => true)) 10 500000000 (new_session "lo") tt 0 with
  | Done (b, _, s, _) => b = true /\ Stream.size (stream_ s) = 2
  | _ => False
  end.
Proof. vm_compute. auto. Qed.
