(* ===== verification/LiveAssert.v ===== *)
(** * Assertions on live packets (include/wadjet/testing/live_assert.hpp)

    Rules that every packet must meet, that no packet may meet, that hold under a
    condition, or that some packet must meet; the session that checks them as packets
    arrive, for a time or until a condition; and the trace that is saved on failure.  The
    macros, which call these functions, and the notice on stderr are left out. *)

From Stdlib Require Import ZArith Lia.
From Stdlib Require Import Strings.Byte.
From stdpp Require Import base numbers list strings pretty.
From S2P Require Import Prelude Pcap LiveCapture.
From S2P Require CaptureSetup ScenarioRunner.
Import CaptureSetup (default_options).
Import ScenarioRunner (step_run).

Record AssertionResult := mkAssertionResult {
  passed : bool;
  description : string;
  violating_packet : option Packet;
  packet_index : Z
}.

(** ** Rules *)

Inductive Type_ := ASSERT_ALL | ASSERT_NEVER | ASSERT_WHEN | EXPECT_WITHIN.

Definition PacketPredicate : Type := Packet -> bool.

Record AssertionRule := mkAssertionRule {
  type_ : Type_;
  description_ : string;
  predicate_ : PacketPredicate;
  condition_ : option PacketPredicate;
  satisfied_ : bool
}.
Definition new_rule (t : Type_) (desc : string) (predicate : PacketPredicate) (condition : option PacketPredicate) :=
  mkAssertionRule t desc predicate condition false.

Definition check (rule : AssertionRule) (packet : Packet) (index : Z) : AssertionResult :=
  let ok := mkAssertionResult true (description_ rule) None index in
  let violated := mkAssertionResult false (description_ rule) (Some packet) index in
  match type_ rule with
  | ASSERT_ALL => if negb (predicate_ rule packet) then violated else ok
  | ASSERT_NEVER => if predicate_ rule packet then violated else ok
  | ASSERT_WHEN =>
      match condition_ rule with
      | Some condition => if condition packet then if negb (predicate_ rule packet) then violated else ok else ok
      | None => ok
      end
  | EXPECT_WITHIN => ok
  end.

Definition set_satisfied (b : bool) (rule : AssertionRule) : AssertionRule :=
  mkAssertionRule (type_ rule) (description_ rule) (predicate_ rule) (condition_ rule) b.
Definition mark_satisfied (rule : AssertionRule) : AssertionRule := set_satisfied true rule.
Definition reset_satisfied (rule : AssertionRule) : AssertionRule := set_satisfied false rule.

(** [rule.type() == EXPECT_WITHIN]. *)
Definition is_expect_within (rule : AssertionRule) : bool :=
  match type_ rule with EXPECT_WITHIN => true | _ => false end.

(** ** The session *)

Record LiveAssertSession := mkLiveAssertSession {
  interface_ : string;
  filter_ : string;
  rules_ : list AssertionRule;
  captured_packets_ : list Packet;
  save_on_failure_ : bool;
  failure_dir_ : string
}.
Definition new_session (interface : string) : LiveAssertSession :=
  mkLiveAssertSession interface "" [] [] false "/tmp/wadjet_failures".

Definition set_filter (f : string) (s : LiveAssertSession) : LiveAssertSession :=
  mkLiveAssertSession (interface_ s) f (rules_ s) (captured_packets_ s) (save_on_failure_ s) (failure_dir_ s).
Definition save_on_failure (dir : string) (s : LiveAssertSession) : LiveAssertSession :=
  mkLiveAssertSession (interface_ s) (filter_ s) (rules_ s) (captured_packets_ s) true dir.
Definition set_rules (rules : list AssertionRule) (s : LiveAssertSession) : LiveAssertSession :=
  mkLiveAssertSession (interface_ s) (filter_ s) rules (captured_packets_ s) (save_on_failure_ s) (failure_dir_ s).
Definition set_captured (ps : list Packet) (s : LiveAssertSession) : LiveAssertSession :=
  mkLiveAssertSession (interface_ s) (filter_ s) (rules_ s) ps (save_on_failure_ s) (failure_dir_ s).

(** [rules_.emplace_back]. *)
Definition add_rule (rule : AssertionRule) (s : LiveAssertSession) : LiveAssertSession := set_rules (rules_ s ++ [rule]) s.

(** The builders for matchers, whose description may be empty, and for predicates. *)
Definition described (desc fallback : string) : string := if String.eqb desc "" then fallback else desc.
Definition assert_all (matcher : PacketPredicate) (desc : string) (s : LiveAssertSession) : LiveAssertSession :=
  add_rule (new_rule ASSERT_ALL (described desc "All packets must match") matcher None) s.
Definition assert_all_predicate (predicate : PacketPredicate) (desc : string) (s : LiveAssertSession) : LiveAssertSession :=
  add_rule (new_rule ASSERT_ALL desc predicate None) s.
Definition assert_never (matcher : PacketPredicate) (desc : string) (s : LiveAssertSession) : LiveAssertSession :=
  add_rule (new_rule ASSERT_NEVER (described desc "No packet should match") matcher None) s.
Definition assert_never_predicate (predicate : PacketPredicate) (desc : string) (s : LiveAssertSession) : LiveAssertSession :=
  add_rule (new_rule ASSERT_NEVER desc predicate None) s.
Definition expect_within (matcher : PacketPredicate) (desc : string) (s : LiveAssertSession) : LiveAssertSession :=
  add_rule (new_rule EXPECT_WITHIN (described desc "At least one packet must match") matcher None) s.
(** [when(condition, condition_desc).assert_that(...)]. *)
Definition assert_that (condition : PacketPredicate) (condition_desc : string) (matcher : PacketPredicate)
    (s : LiveAssertSession) : LiveAssertSession :=
  add_rule (new_rule ASSERT_WHEN ("When [" +:+ condition_desc +:+ "] then must match assertion") matcher (Some condition)) s.
Definition assert_that_predicate (condition : PacketPredicate) (condition_desc : string) (predicate : PacketPredicate)
    (desc : string) (s : LiveAssertSession) : LiveAssertSession :=
  add_rule (new_rule ASSERT_WHEN ("When [" +:+ condition_desc +:+ "] then " +:+ desc) predicate (Some condition)) s.

Definition reset (s : LiveAssertSession) : LiveAssertSession :=
  set_rules (map reset_satisfied (rules_ s)) (set_captured [] s).
Definition rule_count (s : LiveAssertSession) : Z := zlen (rules_ s).

(** The loop of [check_packet] over the rules: it ends at the first rule that fails, and
    marks the expectations before it that the packet meets. *)
Fixpoint check_rules (packet : Packet) (index : Z) (rules : list AssertionRule) : AssertionResult * list AssertionRule :=
  match rules with
  | [] => (mkAssertionResult true "" None 0, [])
  | rule :: rules' =>
      let result := check rule packet index in
      if negb (passed result) then (result, rules)
      else
        let rule := if is_expect_within rule && predicate_ rule packet then mark_satisfied rule else rule in
        let (result, rules') := check_rules packet index rules' in (result, rule :: rules')
  end.
Definition check_packet (packet : Packet) (index : Z) (s : LiveAssertSession) : AssertionResult * LiveAssertSession :=
  let (result, rules) := check_rules packet index (rules_ s) in (result, set_rules rules s).

(** The first expectation that no packet has met. *)
Definition unsatisfied (rules : list AssertionRule) : option AssertionRule :=
  List.find (fun rule => is_expect_within rule && negb (satisfied_ rule)) rules.

Section run.
(** The byte order of the host, the files that can be created, and the clocks. *)
Context (big : bool) (creatable : string -> bool) (steady system : nat -> Z).
Context {Session : Type} `{!CaptureSession Session}.

(** A file that cannot be created is not written. *)
Definition save_failure_trace (s : LiveAssertSession) (w : World) : World :=
  if negb (save_on_failure_ s) || (zlen (captured_packets_ s) =? 0) then w
  else
    let path := failure_dir_ s +:+ "/live_assert_failure_" +:+ pretty (system (ticks w)) +:+ ".pcap" in
    let w := set_ticks (S (ticks w)) w in
    if creatable path
    then mkWorld (ticks w)
           (saved w ++ [(path, Pcap.file (write_all big (captured_packets_ s) (Pcap.create big PcapWriterOptions_default)))])
    else w.

Definition failure (desc : string) : AssertionResult := mkAssertionResult false desc None 0.

(** The session, [packet_count] and the result with which the loop was left. *)
Definition for_body (p : Packet) (a : LiveAssertSession * Z * option AssertionResult)
    : (LiveAssertSession * Z * option AssertionResult) * bool :=
  let '(s, packet_count, _) := a in
  let (result, s) := check_packet p packet_count (set_captured (captured_packets_ s ++ [p]) s) in
  if negb (passed result) then ((s, packet_count, Some result), true)
  else ((s, uint 64 (packet_count + 1), None), false).

(** Durations are in nanoseconds.  The capture session is stopped before each return. *)
Definition run_for (fuel : nat) (duration : Z) (s : LiveAssertSession) (w : World)
    : step_run (AssertionResult * LiveAssertSession * World) :=
  match prepare (interface_ s) (filter_ s) default_options with
  | inl (CreateFailed e) => Done (failure ("Failed to create capture session: " +:+ e), s, w)
  | inl (FilterFailed e) => Done (failure ("Failed to set filter: " +:+ e), s, w)
  | inl (StartFailed e) => Done (failure ("Failed to start capture: " +:+ e), s, w)
  | inr session =>
      let deadline := steady (ticks w) + duration in
      o ← capture_loop steady for_body fuel deadline (Some session) (s, 0, None) (S (ticks w));
      let '((s, packet_count, violation), _, _, t) := o in
      let w := set_ticks t w in
      match violation with
      | Some result => Done (result, s, save_failure_trace s w)
      | None =>
          match unsatisfied (rules_ s) with
          | Some rule => Done (failure ("Expected packet not found: " +:+ description_ rule), s, save_failure_trace s w)
          | None =>
              Done (mkAssertionResult true ("All assertions passed (" +:+ pretty packet_count +:+ " packets)") None 0, s, w)
          end
      end
  end.

(** A stop condition may have a state of its own. *)
Inductive Leave := Violated (result : AssertionResult) | Stopped.
Definition until_body {P} (stop_condition : Packet -> P -> bool * P) (p : Packet)
    (a : LiveAssertSession * Z * P * option Leave) : (LiveAssertSession * Z * P * option Leave) * bool :=
  let '(s, packet_count, x, _) := a in
  let (result, s) := check_packet p packet_count (set_captured (captured_packets_ s ++ [p]) s) in
  if negb (passed result) then ((s, packet_count, x, Some (Violated result)), true)
  else
    let (b, x) := stop_condition p x in
    if b then ((s, packet_count, x, Some Stopped), true) else ((s, uint 64 (packet_count + 1), x, None), false).

Definition run_until {P} (stop_condition : Packet -> P -> bool * P) (fuel : nat) (timeout : Z) (s : LiveAssertSession)
    (x : P) (w : World) : step_run (AssertionResult * P * LiveAssertSession * World) :=
  match prepare (interface_ s) (filter_ s) default_options with
  | inl (CreateFailed _) => Done (failure "Failed to create capture session", x, s, w)
  | inl (FilterFailed _) => Done (failure "Failed to set filter", x, s, w)
  | inl (StartFailed _) => Done (failure "Failed to start capture", x, s, w)
  | inr session =>
      let deadline := steady (ticks w) + timeout in
      o ← capture_loop steady (until_body stop_condition) fuel deadline (Some session) (s, 0, x, None) (S (ticks w));
      let '((s, packet_count, x, leave), _, _, t) := o in
      let w := set_ticks t w in
      match leave with
      | Some (Violated result) => Done (result, x, s, save_failure_trace s w)
      | Some Stopped =>
          match unsatisfied (rules_ s) with
          | Some rule => Done (failure ("Expected packet not found: " +:+ description_ rule), x, s, save_failure_trace s w)
          | None => Done (mkAssertionResult true "Stop condition met, all assertions passed" None 0, x, s, w)
          end
      | None => Done (failure "Timeout before stop condition was met", x, s, save_failure_trace s w)
      end
  end.
End run.

(** * Properties *)

(** ** Rules *)

(** What a rule asks of one packet. *)
Definition holds (rule : AssertionRule) (p : Packet) : Prop :=
  match type_ rule with
  | ASSERT_ALL => predicate_ rule p = true
  | ASSERT_NEVER => predicate_ rule p = false
  | ASSERT_WHEN => forall condition, condition_ rule = Some condition -> condition p = true -> predicate_ rule p = true
  | EXPECT_WITHIN => True
  end.
Definition all_hold (rules : list AssertionRule) (ps : list Packet) : Prop :=
  Forall (fun p => Forall (fun rule => holds rule p) rules) ps.

Definition violation (rule : AssertionRule) (p : Packet) (index : Z) : AssertionResult :=
  mkAssertionResult false (description_ rule) (Some p) index.

Lemma check_exact rule p index :
  if passed (check rule p index) then holds rule p
  else ~ holds rule p /\ check rule p index = violation rule p index.
Proof.
  unfold check, holds. destruct (type_ rule); cbn.
  - destruct (predicate_ rule p); cbn; auto.
  - destruct (predicate_ rule p); cbn; [split; [discriminate | reflexivity] | reflexivity].
  - destruct (condition_ rule) as [condition|]; cbn; [|discriminate].
    destruct (condition p) eqn:Ec; cbn; [destruct (predicate_ rule p); cbn; [auto|]|].
    + split; [|reflexivity]. intros H. specialize (H condition eq_refl Ec). discriminate H.
    + intros c [= <-] H. congruence.
  - exact I.
Qed.

(** A rule after packets have been seen: an expectation that one of them meets is marked. *)
Definition marked (ps : list Packet) (rule : AssertionRule) : AssertionRule :=
  if is_expect_within rule && existsb (predicate_ rule) ps then mark_satisfied rule else rule.

Lemma marked_nil rule : marked [] rule = rule.
Proof. unfold marked. cbn. rewrite andb_false_r. reflexivity. Qed.

Lemma marked_parts ps rule :
  type_ (marked ps rule) = type_ rule /\ description_ (marked ps rule) = description_ rule /\
  predicate_ (marked ps rule) = predicate_ rule /\ condition_ (marked ps rule) = condition_ rule.
Proof. unfold marked. destruct (_ && _); auto. Qed.

Lemma marked_cons p ps rule : marked ps (marked [p] rule) = marked (p :: ps) rule.
Proof.
  unfold marked at 1. destruct (marked_parts [p] rule) as (Ht & _ & Hp & _). unfold is_expect_within. rewrite Ht, Hp.
  unfold marked, is_expect_within. cbn [existsb]. rewrite orb_false_r. destruct rule as [t d q c b]. cbn.
  destruct t; cbn; [reflexivity.. |]. destruct (q p), (existsb q ps); reflexivity.
Qed.

Lemma holds_marked ps rule p : holds (marked ps rule) p <-> holds rule p.
Proof. destruct (marked_parts ps rule) as (Ht & _ & Hp & Hc). unfold holds. rewrite Ht, Hp, Hc. reflexivity. Qed.

Lemma all_hold_marked qs rules ps : all_hold (map (marked qs) rules) ps <-> all_hold rules ps.
Proof.
  unfold all_hold. rewrite !Forall_forall. setoid_rewrite Forall_forall. setoid_rewrite list_elem_of_fmap.
  split; intros H p Hp rule Hr.
  - apply (holds_marked qs), H; eauto.
  - destruct Hr as (rule0 & -> & Hr). apply holds_marked, H; assumption.
Qed.

(** The first rule that a packet violates. *)
Definition violates (rules : list AssertionRule) (p : Packet) (index : Z) (result : AssertionResult) : Prop :=
  exists before rule after, rules = before ++ rule :: after /\ Forall (fun rule => holds rule p) before /\
    ~ holds rule p /\ result = violation rule p index.

Lemma check_rules_exact p index rules result rules' :
  check_rules p index rules = (result, rules') ->
  if passed result then Forall (fun rule => holds rule p) rules /\ rules' = map (marked [p]) rules
  else violates rules p index result.
Proof.
  revert result rules'. induction rules as [|rule rules IH]; intros result rules'; cbn [check_rules].
  - intros [= <- <-]. cbn. auto.
  - pose proof (check_exact rule p index) as Hc. destruct (passed (check rule p index)) eqn:Ep; cbn [negb].
    + destruct (check_rules p index rules) as [result1 rules1]. intros [= <- <-]. specialize (IH _ _ eq_refl).
      destruct (passed result1).
      * destruct IH as [Hf ->]. split; [constructor; assumption|]. cbn [map]. unfold marked at 2. cbn [existsb].
        rewrite orb_false_r. reflexivity.
      * destruct IH as (before & r & after & -> & Hf & Hn & ->). exists (rule :: before), r, after.
        split; [reflexivity|]. split; [constructor; assumption|]. split; [exact Hn | reflexivity].
    + destruct Hc as [Hn Hv]. intros [= <- <-]. rewrite Ep. exists [], rule, rules. cbn. auto.
Qed.

(** ** Runs *)

(** The last packet is the first one that violates a rule. *)
Definition first_violation (start : Z) (rules : list AssertionRule) (ps : list Packet) (result : AssertionResult) : Prop :=
  exists qs p, ps = qs ++ [p] /\ all_hold rules qs /\ violates rules p (uint 64 (start + zlen qs)) result.

Lemma first_violation_not_hold start rules ps result :
  first_violation start rules ps result -> ~ all_hold rules ps /\ passed result = false.
Proof.
  intros (qs & p & -> & _ & before & rule & after & -> & _ & Hn & ->). split; [|reflexivity]. intros H.
  apply Forall_app in H as [_ H]. apply Forall_cons in H as [H _]. apply Forall_app in H as [_ H].
  apply Forall_cons in H as [H _]. contradiction.
Qed.

Lemma violates_marked qs rules p index result :
  violates (map (marked qs) rules) p index result -> violates rules p index result.
Proof.
  intros (before & rule & after & E & Hb & Hn & ->). apply map_eq_app in E as (b0 & ra & -> & <- & E).
  destruct ra as [|r0 a0]; [discriminate E|]. injection E as <- <-. exists b0, r0, a0. split; [reflexivity|].
  split; [rewrite Forall_map in Hb; eapply Forall_impl; [exact Hb|]; intros r; apply holds_marked|].
  split; [rewrite holds_marked in Hn; exact Hn|]. unfold violation.
  destruct (marked_parts qs r0) as (_ & -> & _ & _). reflexivity.
Qed.

Lemma first_violation_cons start p rules ps result :
  Forall (fun rule => holds rule p) rules -> first_violation (start + 1) (map (marked [p]) rules) ps result ->
  first_violation start rules (p :: ps) result.
Proof.
  intros Hf (qs & q & -> & Ha & Hv). exists (p :: qs), q. split; [reflexivity|]. apply all_hold_marked in Ha.
  split; [constructor; assumption|]. apply violates_marked in Hv.
  replace (start + zlen (p :: qs)) with (start + 1 + zlen qs) by (cbn [length]; lia). exact Hv.
Qed.

(** What a run leaves alone. *)
Definition same_options (s s' : LiveAssertSession) : Prop :=
  interface_ s' = interface_ s /\ filter_ s' = filter_ s /\
  save_on_failure_ s' = save_on_failure_ s /\ failure_dir_ s' = failure_dir_ s.

Section stop_condition.
Context {P : Type} (stop_condition : Packet -> P -> bool * P).

(** What the packets of a run did. *)
Definition checked (start : Z) (s : LiveAssertSession) (x : P) (ps : list Packet)
    (s' : LiveAssertSession) (x' : P) (n' : Z) (leave : option Leave) : Prop :=
  captured_packets_ s' = captured_packets_ s ++ ps /\ same_options s s' /\
  match leave with
  | Some (Violated result) => first_violation start (rules_ s) ps result
  | _ =>
      all_hold (rules_ s) ps /\ rules_ s' = map (marked ps) (rules_ s) /\ x' = (answers stop_condition ps x).2 /\
      match leave with
      | None => n' = uint 64 (start + zlen ps) /\ first_accepted stop_condition ps x None
      | Some _ => ps <> [] /\ first_accepted stop_condition ps x (last ps)
      end
  end.

Lemma until_body_handles ps start s x s' n' x' leave left :
  handles (until_body stop_condition) ps (s, uint 64 start, x, None) (s', n', x', leave) left ->
  checked start s x ps s' x' n' leave /\ (left = false <-> leave = None).
Proof.
  revert start s x. induction ps as [|p ps IH]; intros start s x; cbn [handles].
  - intros [E ->]. injection E as -> -> -> ->. split; [|tauto]. split; [rewrite app_nil_r; reflexivity|].
    split; [repeat split|]. split; [constructor|]. split; [|split; [reflexivity|]; split; [rewrite Z.add_0_r; reflexivity | reflexivity]].
    symmetry. rewrite <- (map_id (rules_ s)) at 2. apply map_ext, marked_nil.
  - destruct (until_body stop_condition p (s, uint 64 start, x, None)) as [[[[s1 n1] x1] l1] b1] eqn:Eb.
    unfold until_body, check_packet in Eb. cbn [rules_ set_captured] in Eb.
    destruct (check_rules p (uint 64 start) (rules_ s)) as [result rules1] eqn:Ec. apply check_rules_exact in Ec.
    destruct (passed result) eqn:Ep; cbn [negb] in Eb.
    + destruct Ec as [Hf ->]. destruct (stop_condition p x) as [b x2] eqn:Es. destruct b; injection Eb as <- <- <- <- <-; cbn [fst snd].
      * intros (-> & E & ->). injection E as -> -> -> ->. split; [|split; discriminate].
        split; [reflexivity|]. split; [repeat split|]. split; [repeat constructor; exact Hf|]. split; [reflexivity|].
        cbn. rewrite Es. split; [reflexivity|]. split; [discriminate|]. exists []. cbn. auto.
      * rewrite uint_add. intros H. apply IH in H as ((Hc & Ho & H) & Hl). split; [|exact Hl]. cbn in Hc.
        rewrite <- app_assoc in Hc. split; [exact Hc|]. split; [exact Ho|]. cbn [rules_ set_rules] in H.
        assert (Hrest : all_hold (map (marked [p]) (rules_ s)) ps /\ rules_ s' = map (marked ps) (map (marked [p]) (rules_ s)) /\
                  x' = (answers stop_condition ps x2).2 ->
                all_hold (rules_ s) (p :: ps) /\ rules_ s' = map (marked (p :: ps)) (rules_ s) /\
                  x' = (answers stop_condition (p :: ps) x).2).
        { intros (Ha & -> & ->). apply all_hold_marked in Ha. split; [constructor; assumption|].
          rewrite map_map. split; [apply map_ext; intros; apply marked_cons|]. cbn. rewrite Es.
          destruct (answers stop_condition ps x2). reflexivity. }
        assert (Hacc : forall found, first_accepted stop_condition ps x2 found -> first_accepted stop_condition (p :: ps) x found).
        { intros found Hfound. apply first_accepted_cons; rewrite Es; [reflexivity | exact Hfound]. }
        destruct leave as [[r|]|].
        -- apply (first_violation_cons start p); [exact Hf | exact H].
        -- destruct H as (Ha & Hr & Hx & Hne & Hfa). destruct (Hrest (conj Ha (conj Hr Hx))) as (H1 & H2 & H3).
           split; [exact H1|]. split; [exact H2|]. split; [exact H3|]. split; [discriminate|].
           destruct ps; [contradiction (Hne eq_refl)|]. apply Hacc, Hfa.
        -- destruct H as (Ha & Hr & Hx & -> & Hfa). destruct (Hrest (conj Ha (conj Hr Hx))) as (H1 & H2 & H3).
           split; [exact H1|]. split; [exact H2|]. split; [exact H3|]. split; [f_equal; cbn [length]; lia | apply Hacc, Hfa].
    + injection Eb as <- <- <- <- <-. cbn [fst snd]. intros (-> & E & ->). injection E as -> -> -> ->.
      split; [|split; discriminate]. split; [reflexivity|]. split; [repeat split|].
      exists [], p. split; [reflexivity|]. split; [constructor|]. rewrite Z.add_0_r. exact Ec.
Qed.
End stop_condition.

(** [run_for] checks like [run_until] with a condition that never holds. *)
Definition never (p : Packet) (x : unit) : bool * unit := (false, x).

Lemma for_body_handles ps s n s' n' v left :
  handles for_body ps (s, n, None) (s', n', v) left ->
  handles (until_body never) ps (s, n, tt, None) (s', n', tt, Violated <$> v) left.
Proof.
  revert s n. induction ps as [|p ps IH]; intros s n; cbn [handles].
  - intros [E ->]. injection E as -> -> ->. auto.
  - destruct (for_body p (s, n, None)) as [[[s1 n1] v1] b1] eqn:Ef.
    assert (Eu : until_body never p (s, n, tt, None) = (s1, n1, tt, Violated <$> v1, b1)).
    { unfold for_body in Ef. unfold until_body. destruct (check_packet _ _ _) as [result s2].
      destruct (passed result); injection Ef as <- <- <- <-; reflexivity. }
    assert (Hv : b1 = false -> v1 = None).
    { unfold for_body in Ef. destruct (check_packet _ _ _) as [result s2].
      destruct (passed result); injection Ef as <- <- <- <-; [reflexivity | discriminate]. }
    rewrite Eu. destruct b1; cbn [fst snd]; [|rewrite (Hv eq_refl); apply IH]. intros (-> & E & ->). injection E as -> -> ->. auto.
Qed.

(** The expectations that are met by packets of this run or of an earlier one. *)
Definition met (rule : AssertionRule) (ps : list Packet) : Prop :=
  type_ rule = EXPECT_WITHIN -> satisfied_ rule = true \/ exists p, p ∈ ps /\ predicate_ rule p = true.

Lemma marked_unsatisfied ps rule :
  is_expect_within (marked ps rule) && negb (satisfied_ (marked ps rule)) = false <-> met rule ps.
Proof.
  unfold met, marked, is_expect_within. destruct rule as [t d q c b]. cbn.
  destruct t; cbn; try (split; [discriminate 2 | reflexivity]).
  assert (He : existsb q ps = true <-> exists p, p ∈ ps /\ q p = true).
  { rewrite existsb_exists. setoid_rewrite list_elem_of_In. reflexivity. }
  rewrite <- He. destruct b, (existsb q ps); cbn; split; try tauto; try discriminate; intros H; destruct (H eq_refl) as [[=]|[=]].
Qed.

Lemma unsatisfied_exact ps rules :
  match unsatisfied (map (marked ps) rules) with
  | None => Forall (fun rule => met rule ps) rules
  | Some rule => ~ Forall (fun rule => met rule ps) rules
  end.
Proof.
  unfold unsatisfied. destruct (List.find _ _) as [rule|] eqn:E.
  - apply find_some in E as [Hin E]. apply in_map_iff in Hin as (rule0 & <- & Hin). intros H.
    rewrite Forall_forall in H. apply list_elem_of_In, H, marked_unsatisfied in Hin. congruence.
  - rewrite Forall_forall. intros rule Hin. apply marked_unsatisfied, (find_none _ _ E), in_map, list_elem_of_In, Hin.
Qed.

Section runs.
Context (big : bool) (creatable : string -> bool) (steady system : nat -> Z).
Context {Session : Type} `{!CaptureSession Session}.

(** The trace of a failure: all packets captured since the last reset. *)
Definition trace_saved (s : LiveAssertSession) (w w' : World) : Prop :=
  save_on_failure_ s = true -> captured_packets_ s <> [] -> (forall path, creatable path = true) ->
  exists path, saved w' = saved w ++
    [(path, Pcap.file (write_all big (captured_packets_ s) (Pcap.create big PcapWriterOptions_default)))].

Lemma save_failure_trace_saved s w : trace_saved s w (save_failure_trace big creatable system s w).
Proof.
  intros Hs Hne Hc. unfold save_failure_trace. rewrite Hs. cbn [negb orb].
  destruct (Z.eqb_spec (zlen (captured_packets_ s)) 0); [destruct (captured_packets_ s); [contradiction | discriminate]|].
  rewrite Hc. eexists. reflexivity.
Qed.


(** [run_until] passes exactly if it ended at its first packet that meets the stop
    condition, all packets so far meet all rules, and every expectation has been met. *)
Theorem run_until_exact {P} (stop_condition : Packet -> P -> bool * P) fuel timeout s x w c r x' s' w' :
  prepare (interface_ s) (filter_ s) default_options = inr c ->
  run_until big creatable steady system stop_condition fuel timeout s x w = Done (r, x', s', w') ->
  exists ps c', receives c ps c' /\ captured_packets_ s' = captured_packets_ s ++ ps /\
    (passed r = true ->
     all_hold (rules_ s) ps /\ Forall (fun rule => met rule ps) (rules_ s) /\
     ps <> [] /\ first_accepted stop_condition ps x (last ps)) /\
    (passed r = false ->
     trace_saved s' w w' /\
     (first_violation 0 (rules_ s) ps r \/
      all_hold (rules_ s) ps /\ ~ Forall (fun rule => met rule ps) (rules_ s) \/
      first_accepted stop_condition ps x None /\ exists t, timed_out steady (steady (ticks w) + timeout) t)).
Proof.
  intros Hp H. unfold run_until in H. rewrite Hp in H. apply bind_inv in H as ([[[[[[s1 n] x1] v] left] c1] t] & H & E).
  apply capture_loop_exact in H as (ps & c' & -> & Hr & Hh & Ht).
  apply (until_body_handles stop_condition ps 0) in Hh as ((Hc & Ho & Hv) & Hl). exists ps, c'.
  assert (Hsave : trace_saved s1 w (save_failure_trace big creatable system s1 (set_ticks t w))) by exact (save_failure_trace_saved s1 (set_ticks t w)).
  destruct v as [[result|]|].
  - injection E as <- <- <- <-. pose proof (first_violation_not_hold _ _ _ _ Hv) as [_ Hpass]. rewrite Hpass.
    split; [exact Hr|]. split; [exact Hc|]. split; [discriminate | auto].
  - destruct Hv as (Ha & Hru & _ & Hne & Hf). pose proof (unsatisfied_exact ps (rules_ s)) as Hu. rewrite <- Hru in Hu.
    destruct (unsatisfied (rules_ s1)) as [rule|]; injection E as <- <- <- <-; cbn [passed failure];
      (split; [exact Hr|]); (split; [exact Hc|]); (split; [|]); first [discriminate | auto].
  - destruct Hv as (Ha & Hru & _ & -> & Hf). injection E as <- <- <- <-; cbn [passed failure].
    split; [exact Hr|]. split; [exact Hc|]. split; [discriminate|]. intros _. split; [exact Hsave|]. right; right.
    split; [exact Hf|]. exists t. apply Ht, Hl. reflexivity.
Qed.
End runs.

(** ** Examples *)

Definition sample_session : LiveAssertSession :=
  save_on_failure "out"
    (expect_within (starts_with x02) "" (assert_never (starts_with x09) "" (new_session "lo"))).


(** A second run starts with the expectations that the first one met, and with its packets,
    unless the session is reset. *)
Example second_run :
  let s := expect_within (starts_with x02) "" (new_session "lo") in
  match run_for false (fun _ => true) sample_clock (fun k => Z.of_nat k) 10 200000000 s (mkWorld 0 []) with
  | Done (_, s1, _) =>
      unsatisfied (rules_ s1) = None /\ unsatisfied (rules_ (reset s1)) <> None /\ captured_packets_ (reset s1) = []
  | _ => False
  end.
Proof. vm_compute. split_and!; [reflexivity | discriminate | reflexivity]. Qed.

Example violation_reported :
  match run_for false (fun _ => true) sample_clock (fun k => Z.of_nat k) 10 200000000
          (save_on_failure "out" (assert_all (starts_with x01) "" (new_session "lo"))) (mkWorld 0 []) with
  | Done (r, s, w) =>
      r = mkAssertionResult false "All packets must match" (Some (mkPacket [x02] 2)) 1 /\
      map fst (saved w) = ["out/live_assert_failure_5.pcap"]
  | _ => False
  end.
Proof. vm_compute. auto. Qed.
