(* ===== verification/DiagnosticMatchers.v ===== *)
(** * Matchers for diagnostic traffic (include/wadjet/testing/diagnostic_matchers.hpp)

    Matchers of request and response pairs (Correlator.v), of the session of an ECU
    (DiagnosticSession.v), of UDS headers (Uds.v) and of the counters of the correlator,
    and the assertion macros, as the tests that they make.  The match rate is a
    floating-point number and left out. *)

From Stdlib Require Import ZArith Lia.
From Stdlib Require Import Strings.Byte.
From stdpp Require Import base numbers list gmap.
From S2P Require Import Prelude Diagnostic Correlator.
From S2P Require Uds DiagnosticSession UdsTables.

(** ** Pairs *)

Definition IsComplete (arg : RequestResponsePair) : bool := is_complete arg.
Definition IsPositiveResponse (arg : RequestResponsePair) : bool := is_complete arg && is_positive arg.
Definition IsNegativeResponse (arg : RequestResponsePair) : bool := is_complete arg && is_negative arg.
Definition HasNRC (expected_nrc : Z) (arg : RequestResponsePair) : bool :=
  match get_nrc arg with Some nrc => nrc =? expected_nrc | None => false end.
(** [max_time] is in milliseconds. *)
Definition ArrivesWithin (max_time : Z) (arg : RequestResponsePair) : bool :=
  if negb (is_complete arg) then false
  else match response_time arg with Some rt => rt <=? max_time | None => false end.
Definition WithinP2Timeout (timing : DiagnosticTiming) (arg : RequestResponsePair) : bool := pair_within_p2 arg timing.
Definition WithinP2StarTimeout (timing : DiagnosticTiming) (arg : RequestResponsePair) : bool := pair_within_p2_star arg timing.
Definition HadPendingResponse (arg : RequestResponsePair) : bool :=
  match response arg with Some r => 0 <? rs_pending_count r | None => false end.
Definition HasPendingCount (expected : Z) (arg : RequestResponsePair) : bool :=
  match response arg with Some r => rs_pending_count r =? uint 32 expected | None => false end.
Definition HasRequestService (service : Z) (arg : RequestResponsePair) : bool :=
  Uds.service_id (rq_header (request arg)) =? service.
Definition SentToAddress (address : Z) (arg : RequestResponsePair) : bool :=
  target_address (rq_transport (request arg)) =? address.

(** ** Sessions *)

Module Session.
Import DiagnosticSession.
Definition IsSessionActive (arg : DiagnosticSessionState) : bool := session_active arg.
Definition IsRoutingActive (arg : DiagnosticSessionState) : bool := routing_active arg.
Definition HasSessionType (type : Z) (arg : DiagnosticSessionState) : bool := session_type arg =? type.
Definition IsInProgrammingSession (arg : DiagnosticSessionState) : bool := is_programming arg.
Definition IsInExtendedSession (arg : DiagnosticSessionState) : bool := is_extended arg.
Definition HasSecurityLevel (level : Z) (arg : DiagnosticSessionState) : bool := level <=? security_level arg.
Definition IsSecurityUnlocked (arg : DiagnosticSessionState) : bool := 0 <? security_level arg.
Definition IsPotentiallyTimedOut (now : Z) (arg : DiagnosticSessionState) : bool := is_potentially_timed_out now arg.
Definition HasP2Within (max_p2 : Z) (arg : DiagnosticSessionState) : bool := p2_server_max (timing arg) <=? max_p2.
Definition HasP2StarWithin (max_p2_star : Z) (arg : DiagnosticSessionState) : bool :=
  p2_star_server_max (timing arg) <=? max_p2_star.
Definition HasS3Timeout (s3_timeout : Z) (arg : DiagnosticSessionState) : bool := s3_server (timing arg) =? s3_timeout.

(** [ASSERT_DIAGNOSTIC_SESSION] and [ASSERT_SECURITY_ACCESS]. *)
Definition ASSERT_DIAGNOSTIC_SESSION (arg : DiagnosticSessionState) (expected_type : Z) : bool :=
  session_active arg && (session_type arg =? expected_type).
Definition ASSERT_SECURITY_ACCESS (arg : DiagnosticSessionState) (expected_level : Z) : bool :=
  expected_level <=? security_level arg.
End Session.

(** ** Headers *)

Definition HasServiceId (sid : Z) (arg : Uds.UdsHeader) : bool := Uds.service_id arg =? sid.
Definition HasSubFunction (arg : Uds.UdsHeader) : bool := bool_decide (is_Some (Uds.sub_function arg)).
Definition HasSubFunctionValue (value : Z) (arg : Uds.UdsHeader) : bool :=
  match Uds.sub_function arg with Some f => f =? value | None => false end.
Definition SuppressesPositiveResponse (arg : Uds.UdsHeader) : bool := Uds.suppress_positive_response arg.

(** ** Counters and assertions *)

Definition HasNoTimeouts (arg : Statistics) : bool := pending_timeouts arg =? 0.
Definition HasNoNegativeResponses (arg : Statistics) : bool := negative_responses arg =? 0.

Definition ASSERT_NO_DIAGNOSTIC_ERRORS (stats : Statistics) : bool :=
  (negative_responses stats =? 0) && (pending_timeouts stats =? 0).
Definition ASSERT_RESPONSE_TIMING (pair : RequestResponsePair) (timing : DiagnosticTiming) : bool :=
  match response pair, response_time pair with
  | Some r, Some rt =>
      if 0 <? rs_pending_count r then rt <=? p2_star_server_max timing else rt <=? p2_server_max timing
  | _, _ => false
  end.
Definition EXPECT_NEGATIVE_RESPONSE_NRC (pair : RequestResponsePair) (nrc : Z) : bool :=
  IsNegativeResponse pair && HasNRC nrc pair.

(** * Properties *)

(** Every pair is incomplete, positive or negative, and only one of them; a pair with a
    response code is negative, so the test for it adds nothing. *)
Theorem pair_kinds (p : RequestResponsePair) :
  (if IsComplete p then xorb (IsPositiveResponse p) (IsNegativeResponse p) = true
   else IsPositiveResponse p = false /\ IsNegativeResponse p = false) /\
  (forall nrc, EXPECT_NEGATIVE_RESPONSE_NRC p nrc = HasNRC nrc p).
Proof.
  unfold EXPECT_NEGATIVE_RESPONSE_NRC, HasNRC, get_nrc, IsComplete, IsPositiveResponse, IsNegativeResponse,
    is_complete, is_positive, is_negative.
  destruct (response p) as [r|]; [|rewrite bool_decide_eq_false_2 by (intros [? [=]]); auto].
  rewrite bool_decide_eq_true_2 by eauto. destruct (is_negative_header (rs_header r)); cbn; auto.
Qed.

(** A response of a time in nanoseconds is within [max_time] up to the last nanosecond of
    this millisecond. *)
Definition response_within (max_time : Z) (p : RequestResponsePair) : Prop :=
  exists r, response p = Some r /\ rs_timestamp r - rq_timestamp (request p) < (max_time + 1) * MILLISECOND.

Lemma truncated_le d m : 0 <= m -> (Z.quot d MILLISECOND <=? m) = true <-> d < (m + 1) * MILLISECOND.
Proof. intros Hm. rewrite Z.leb_le. unfold MILLISECOND. lia. Qed.

(** The timing matchers compare whole milliseconds, so each accepts responses that arrive
    less than one millisecond after its bound; the timing assertion is the matcher of the
    bound that applies, P2* after a pending response and P2 otherwise. *)
Theorem timing_matchers_exact (p : RequestResponsePair) (t : DiagnosticTiming) :
  0 <= p2_server_max t -> 0 <= p2_star_server_max t ->
  (forall m, 0 <= m -> (ArrivesWithin m p = true <-> response_within m p)) /\
  (WithinP2Timeout t p = true <-> response_within (p2_server_max t) p) /\
  (WithinP2StarTimeout t p = true <-> response_within (p2_star_server_max t) p) /\
  ASSERT_RESPONSE_TIMING p t = (if HadPendingResponse p then WithinP2StarTimeout t p else WithinP2Timeout t p).
Proof.
  intros H2 Hs.
  unfold ArrivesWithin, WithinP2Timeout, WithinP2StarTimeout, ASSERT_RESPONSE_TIMING, HadPendingResponse, pair_within_p2,
    pair_within_p2_star, within_p2, within_p2_star, response_time, is_complete, response_within.
  destruct (response p) as [r|].
  - rewrite bool_decide_eq_true_2 by eauto. cbn [negb mbind option_bind]. cbn.
    assert (He : forall m, 0 <= m -> (Z.quot (rs_timestamp r - rq_timestamp (request p)) MILLISECOND <=? m) = true <->
                   exists r0, Some r = Some r0 /\ rs_timestamp r0 - rq_timestamp (request p) < (m + 1) * MILLISECOND).
    { intros m Hm. rewrite (truncated_le _ _ Hm). split; [eauto | intros (r0 & [= <-] & H); exact H]. }
    split; [exact He|]. split; [apply He, H2|]. split; [apply He, Hs|]. destruct (0 <? rs_pending_count r); reflexivity.
  - rewrite bool_decide_eq_false_2 by (intros [? [=]]). cbn.
    split; [|split; [|split; [|reflexivity]]]; intros; (split; [discriminate | intros (r & [=] & _)]).
Qed.

Definition sample_pair (sent received : Z) : RequestResponsePair :=
  let transport := mkTransportInfo TransportDoIP 0 0 0 None in
  let header := Uds.mkUdsHeader 0x10 Uds.Request None false None None [] [] in
  mkPair (mkRequest header Uds.Unparsed transport sent) (Some (mkResponse header Uds.Unparsed transport received 0)).

Lemma timing_matchers_exact_witness :
  WithinP2Timeout timing_defaults (sample_pair 0 50999999) = true /\
  WithinP2Timeout timing_defaults (sample_pair 0 51000000) = false.
Proof.
  split.
  - destruct (timing_matchers_exact (sample_pair 0 50999999) timing_defaults ltac:(cbn; lia) ltac:(cbn; lia)) as (_ & H & _).
    apply H. eexists. split; [reflexivity|]. cbn. unfold MILLISECOND. lia.
  - reflexivity.
Defined.

(** A session at level 3 has the security levels 1 and 0 as well. *)
Example security_level_lower :
  let s := DiagnosticSession.mkState true 0 0 1 true 0 0 3 timing_defaults 0 0 0 0 in
  Session.HasSecurityLevel 1 s = true /\ Session.HasSecurityLevel 0 s = true /\ Session.HasSecurityLevel 5 s = false.
Proof. auto. Qed.
