(* ===== verification/Report.v ===== *)
(** * Reports on scenarios (src/scenario/report.cpp)

    The four report generators as functions to text.  The clock, the time zone and the
    name of the host are parameters.  ReportReaders.v has readers of the formats and what
    they find in the reports. *)

From Stdlib Require Import ZArith Lia.
From Stdlib Require Import Floats.SpecFloat.
From Stdlib Require Import Strings.Byte Strings.Ascii.
From stdpp Require Import base numbers list strings pretty.
From S2P Require Import Prelude.
From S2P Require Import Scenario ScenarioRunner Replay.

(** ** Text *)

(** [out << a << b << ...]. *)
Definition cat (pieces : list string) : string := foldr String.append "" pieces.
Definition quote : string := String (Ascii.ascii_of_nat 34) "".
Definition nl : string := String (Ascii.ascii_of_nat 10) "".
Definition quoted (s : string) : string := cat [quote; s; quote].

Definition map_chars (f : ascii -> string) (s : string) : string := cat (map f (String.list_ascii_of_string s)).

Definition code (c : ascii) : Z := Z.of_N (Ascii.N_of_ascii c).

Definition escape_xml_char (c : ascii) : string :=
  if code c =? 38 then "&amp;"
  else if code c =? 60 then "&lt;"
  else if code c =? 62 then "&gt;"
  else if code c =? 34 then "&quot;"
  else if code c =? 39 then "&apos;"
  else String c "".
Definition escape_xml (str : string) : string := map_chars escape_xml_char str.

(** [std::hex] with [std::setfill('0') << std::setw(4)], for a value below 256. *)
Definition hex_char (n : Z) : ascii := Ascii.ascii_of_N (Z.to_N (if n <? 10 then 48 + n else 87 + n)).
Definition hex4 (n : Z) : string :=
  String "0"%char (String "0"%char (String (hex_char (n / 16)) (String (hex_char (n mod 16)) ""))).

(** A [char] is signed: bytes from 128 on are negative and copied. *)
Definition escape_json_char (c : ascii) : string :=
  if code c =? 34 then cat ["\"; quote]
  else if code c =? 92 then "\\"
  else if code c =? 8 then "\b"
  else if code c =? 12 then "\f"
  else if code c =? 10 then "\n"
  else if code c =? 13 then "\r"
  else if code c =? 9 then "\t"
  else if code c <? 32 then cat ["\u"; hex4 (code c)]
  else String c "".
Definition escape_json (str : string) : string := map_chars escape_json_char str.

(** ** Floating-point numbers

    [out << x] for a [double], which prints what [printf] prints for [%g]: six significant
    digits, correctly rounded, without trailing zeros, and an exponent when it is below
    -4 or above 5. *)

(** The value of a positive finite double as a fraction. *)
Definition fraction (m : positive) (e : Z) : Z * Z := if 0 <=? e then (Z.pos m * 2 ^ e, 1) else (Z.pos m, 2 ^ (- e)).

(** The exponent of the first decimal digit of [num / den]. *)
Fixpoint count_up (fuel : nat) (num den : Z) (x : Z) : Z :=
  match fuel with
  | O => x
  | S fuel => if num <? den * 10 then x else count_up fuel num (den * 10) (x + 1)
  end.
Fixpoint count_down (fuel : nat) (num den : Z) (x : Z) : Z :=
  match fuel with
  | O => x
  | S fuel => if den <=? num then x else count_down fuel (num * 10) den (x - 1)
  end.
Definition decimal_exponent (num den : Z) : Z :=
  if den <=? num then count_up 310 num den 0 else count_down 330 num den 0.

(** [num / den] to the nearest integer, ties to even. *)
Definition round_even (num den : Z) : Z :=
  let q := num / den in
  let r := 2 * (num mod den) in
  if (den <? r) || ((den =? r) && Z.odd q) then q + 1 else q.

Definition scaled (num den k : Z) : Z := if 0 <=? k then round_even (num * 10 ^ k) den else round_even num (den * 10 ^ (- k)).

(** A number of [n] digits, padded with zeros in front. *)
Fixpoint padded (n : nat) (v : Z) : list ascii :=
  match n with
  | O => []
  | S n => padded n (v / 10) ++ [Ascii.ascii_of_N (Z.to_N (48 + v mod 10))]
  end.
Fixpoint drop_zeros (l : list ascii) : list ascii :=
  match l with c :: l' => if code c =? 48 then drop_zeros l' else l | [] => [] end.
(** The decimals, without trailing zeros, and the point if there are any. *)
Definition decimals (n : nat) (v : Z) : string :=
  match drop_zeros (rev (padded n v)) with
  | [] => ""
  | l => String.string_of_list_ascii ("."%char :: rev l)
  end.

Definition print_positive (m : positive) (e : Z) : string :=
  let (num, den) := fraction m e in
  let x := decimal_exponent num den in
  let d := scaled num den (5 - x) in
  let (d, x) := if 1000000 <=? d then (100000, x + 1) else (d, x) in
  if (-4 <=? x) && (x <? 6) then
    let n := 5 - x in
    pretty (d / 10 ^ n) +:+ decimals (Z.to_nat n) (d mod 10 ^ n)
  else
    cat [pretty (d / 100000); decimals 5 (d mod 100000); "e"; if x <? 0 then "-" else "+";
         if Z.abs x <? 10 then "0" else ""; pretty (Z.abs x)].

Definition print_double (x : double) : string :=
  match x with
  | S754_zero s => if s then "-0" else "0"
  | S754_infinity s => if s then "-inf" else "inf"
  | S754_nan => "nan"
  | S754_finite s m e => (if s then "-" else "") +:+ print_positive m e
  end.

Definition duration_seconds (d : Z) : double := divide (double_of_int d) (double_of_int 1000).
Definition seconds_text (d : Z) : string := print_double (duration_seconds d).

(** ** Environment and options *)

(** What [localtime_r] returns. *)
Record Tm := mkTm { tm_year : Z; tm_mon : Z; tm_mday : Z; tm_hour : Z; tm_min : Z; tm_sec : Z }.

Definition two_digits (v : Z) : string := String.string_of_list_ascii (padded 2 v).
(** [std::put_time] with the format [%Y-%m-%dT%H:%M:%S]. *)
Definition get_timestamp (now : Tm) : string :=
  cat [pretty (tm_year now + 1900); "-"; two_digits (tm_mon now + 1); "-"; two_digits (tm_mday now); "T";
       two_digits (tm_hour now); ":"; two_digits (tm_min now); ":"; two_digits (tm_sec now)].

(** The argument is what [gethostname] wrote, if it succeeded. *)
Definition get_hostname (name : option string) : string := default "localhost" name.

Inductive ReportFormat := JUnitXML | JSON | Text | TAP.

Record ReportOptions := mkReportOptions {
  include_timestamps : bool;
  include_pcap_paths : bool;
  pretty_print : bool;
  suite_name : string;
  hostname : string
}.
Definition ReportOptions_default : ReportOptions := mkReportOptions true true true "wadjet" "".

(** ** JUnit *)

Definition attribute (name value : string) : string := cat [" "; name; "="; quoted value].

Definition junit_case (class_name : string) (e : ExpectResult) : string :=
  cat ["    <testcase"; attribute "name" (escape_xml (er_description e));
       attribute "classname" (escape_xml class_name); attribute "time" (seconds_text (elapsed e));
       if er_passed e then cat ["/>"; nl]
       else cat [">"; nl; "      <failure"; attribute "message" (escape_xml (failure_reason e)); ">Matched ";
                 pretty (packets_matched e); " packets</failure>"; nl; "    </testcase>"; nl]].

(** The test case of a scenario without expectations. *)
Definition junit_scenario_case (opts : ReportOptions) (r : ScenarioResult) : string :=
  cat ["    <testcase"; attribute "name" (escape_xml (scenario_name r));
       attribute "classname" (escape_xml (suite_name opts)); attribute "time" (seconds_text (total_elapsed r));
       if passed r then cat ["/>"; nl]
       else cat [">"; nl; "      <failure"; attribute "message" (escape_xml (error_message r)); "/>"; nl;
                 "    </testcase>"; nl]].

Definition junit_tests (r : ScenarioResult) : Z := if zlen (expect_results r) =? 0 then 1 else zlen (expect_results r).

Definition junit_suite (opts : ReportOptions) (host timestamp : string) (r : ScenarioResult) : string :=
  cat ["  <testsuite"; attribute "name" (escape_xml (scenario_name r)); attribute "tests" (pretty (junit_tests r));
       attribute "failures" (pretty (failed_count r)); attribute "errors" "0"; attribute "skipped" "0";
       if include_timestamps opts then attribute "timestamp" timestamp else "";
       attribute "hostname" (escape_xml host); attribute "time" (seconds_text (total_elapsed r)); ">"; nl;
       if zlen (expect_results r) =? 0 then junit_scenario_case opts r
       else cat (map (junit_case (scenario_name r)) (expect_results r));
       match include_pcap_paths opts, failure_pcap r with
       | true, Some file => cat ["    <system-out>PCAP saved: "; escape_xml file; "</system-out>"; nl]
       | _, _ => ""
       end;
       "  </testsuite>"; nl].

Definition junit_report (host_name : option string) (now : Tm) (results : BatchResult) (opts : ReportOptions) : string :=
  let host := if String.eqb (hostname opts) "" then get_hostname host_name else hostname opts in
  let timestamp := get_timestamp now in
  cat ["<?xml"; attribute "version" "1.0"; attribute "encoding" "UTF-8"; "?>"; nl;
       "<testsuites"; attribute "name" (escape_xml (suite_name opts)); attribute "tests" (pretty (total results));
       attribute "failures" (pretty (batch_failed results)); attribute "errors" "0";
       attribute "skipped" (pretty (batch_skipped results)); attribute "time" (seconds_text (batch_elapsed results)); ">"; nl;
       cat (map (junit_suite opts host timestamp) (batch_results results));
       "</testsuites>"; nl].

(** ** JSON *)

(** [first] is the flag that leaves out the comma before the first element. *)
Fixpoint separated {A} (newline : string) (item : A -> string) (first : bool) (l : list A) : string :=
  match l with
  | [] => ""
  | a :: l' => cat [if first then "" else cat [","; newline]; item a; separated newline item false l']
  end.

Definition key (name : string) : string := cat [quoted name; ": "].
Definition bool_text (b : bool) : string := if b then "true" else "false".
Definition json_text (s : string) : string := quoted (escape_json s).

(** An array that ends on a line of its own. *)
Definition json_array {A} (newline margin : string) (item : A -> string) (l : list A) : string :=
  cat ["["; newline; separated newline item true l; newline; margin; "]"].

Definition json_expectation (indent newline : string) (e : ExpectResult) : string :=
  let margin := cat [indent; indent; indent; indent; indent] in
  cat [indent; indent; indent; indent; "{"; newline;
       margin; key "description"; json_text (er_description e); ","; newline;
       margin; key "passed"; bool_text (er_passed e); ","; newline;
       margin; key "packets_matched"; pretty (packets_matched e); ","; newline;
       margin; key "duration_ms"; pretty (elapsed e);
       if negb (er_passed e) && negb (String.eqb (failure_reason e) "")
       then cat [","; newline; margin; key "failure_reason"; json_text (failure_reason e)] else "";
       newline; indent; indent; indent; indent; "}"].

Definition json_scenario (opts : ReportOptions) (indent newline : string) (r : ScenarioResult) : string :=
  let margin := cat [indent; indent; indent] in
  cat [indent; indent; "{"; newline;
       margin; key "name"; json_text (scenario_name r); ","; newline;
       margin; key "passed"; bool_text (passed r); ","; newline;
       margin; key "duration_ms"; pretty (total_elapsed r); ","; newline;
       if negb (String.eqb (error_message r) "")
       then cat [margin; key "error"; json_text (error_message r); ","; newline] else "";
       match include_pcap_paths opts, failure_pcap r with
       | true, Some file => cat [margin; key "pcap_file"; json_text file; ","; newline]
       | _, _ => ""
       end;
       margin; key "expectations"; json_array newline margin (json_expectation indent newline) (expect_results r); newline;
       indent; indent; "}"].

Definition json_summary (indent newline : string) (results : BatchResult) : string :=
  cat ["{"; newline;
       indent; indent; key "total"; pretty (total results); ","; newline;
       indent; indent; key "passed"; pretty (batch_passed results); ","; newline;
       indent; indent; key "failed"; pretty (batch_failed results); ","; newline;
       indent; indent; key "skipped"; pretty (batch_skipped results); ","; newline;
       indent; indent; key "duration_ms"; pretty (batch_elapsed results); newline;
       indent; "}"].

Definition json_document (now : Tm) (results : BatchResult) (opts : ReportOptions) (indent newline : string) : string :=
  cat ["{"; newline;
       indent; key "suite"; json_text (suite_name opts); ","; newline;
       indent; key "timestamp"; quoted (get_timestamp now); ","; newline;
       indent; key "summary"; json_summary indent newline results; ","; newline;
       indent; key "scenarios"; json_array newline indent (json_scenario opts indent newline) (batch_results results); newline;
       "}"].

Definition json_report (now : Tm) (results : BatchResult) (opts : ReportOptions) : string :=
  let indent := if pretty_print opts then "  " else "" in
  let newline := if pretty_print opts then nl else "" in
  cat [json_document now results opts indent newline; newline].

(** ** Plain text *)

Definition text_expectation (e : ExpectResult) : string :=
  cat [if er_passed e then "  [PASS]" else "  [FAIL]"; " "; er_description e; " ("; pretty (packets_matched e);
       " packets, "; pretty (elapsed e); "ms)"; nl;
       if negb (er_passed e) && negb (String.eqb (failure_reason e) "")
       then cat ["    Reason: "; failure_reason e; nl] else ""].

Definition text_scenario (opts : ReportOptions) (r : ScenarioResult) : string :=
  cat [if passed r then "[PASS]" else "[FAIL]"; " "; scenario_name r; " ("; pretty (total_elapsed r); "ms)"; nl;
       if negb (String.eqb (error_message r) "") then cat ["  Error: "; error_message r; nl] else "";
       cat (map text_expectation (expect_results r));
       match include_pcap_paths opts, failure_pcap r with
       | true, Some file => cat ["  PCAP: "; file; nl]
       | _, _ => ""
       end;
       nl].

Definition text_report (results : BatchResult) (opts : ReportOptions) : string :=
  cat ["=== "; suite_name opts; " Test Results ==="; nl; nl;
       cat (map (text_scenario opts) (batch_results results));
       "---"; nl; "Total: "; pretty (total results); " | Passed: "; pretty (batch_passed results);
       " | Failed: "; pretty (batch_failed results); " | Skipped: "; pretty (batch_skipped results); nl;
       "Duration: "; pretty (batch_elapsed results); "ms"; nl].

(** ** TAP *)

(** [test_num] is the number of the next test; the loops return it with their text. *)
Definition tap_scenario_case (test_num : Z) (r : ScenarioResult) : string :=
  if passed r then cat ["ok "; pretty test_num; " - "; scenario_name r; nl]
  else cat ["not ok "; pretty test_num; " - "; scenario_name r; nl;
            if negb (String.eqb (error_message r) "")
            then cat ["  ---"; nl; "  message: "; error_message r; nl; "  ..."; nl] else ""].

Definition tap_case (test_num : Z) (scenario : string) (e : ExpectResult) : string :=
  let name := cat [scenario; ": "; er_description e] in
  if er_passed e then cat ["ok "; pretty test_num; " - "; name; nl]
  else cat ["not ok "; pretty test_num; " - "; name; nl; "  ---"; nl; "  message: "; failure_reason e; nl;
            "  packets_matched: "; pretty (packets_matched e); nl; "  ..."; nl].

Fixpoint tap_cases (test_num : Z) (scenario : string) (l : list ExpectResult) : string * Z :=
  match l with
  | [] => ("", test_num)
  | e :: l' => let (rest, n) := tap_cases (test_num + 1) scenario l' in (tap_case test_num scenario e +:+ rest, n)
  end.

Definition tap_scenario (test_num : Z) (r : ScenarioResult) : string * Z :=
  if zlen (expect_results r) =? 0 then (tap_scenario_case test_num r, test_num + 1)
  else tap_cases test_num (scenario_name r) (expect_results r).

Fixpoint tap_scenarios (test_num : Z) (l : list ScenarioResult) : string :=
  match l with
  | [] => ""
  | r :: l' => let (text, n) := tap_scenario test_num r in text +:+ tap_scenarios n l'
  end.

Definition total_tests (l : list ScenarioResult) : Z := foldr (fun r n => junit_tests r + n) 0 l.

Definition tap_report (results : BatchResult) : string :=
  cat ["TAP version 13"; nl; "1.."; pretty (total_tests (batch_results results)); nl;
       tap_scenarios 1 (batch_results results)].

(** ** The generators *)

(** [create_report_generator(format)->generate(out, results, opts)]. *)
Definition generate (host_name : option string) (now : Tm) (format : ReportFormat) (results : BatchResult)
    (opts : ReportOptions) : string :=
  match format with
  | JUnitXML => junit_report host_name now results opts
  | JSON => json_report now results opts
  | Text => text_report results opts
  | TAP => tap_report results
  end.

(** The report on one scenario is the report on a batch of it. *)
Definition single (r : ScenarioResult) : BatchResult :=
  mkBatch [r] (total_elapsed r) (if passed r then 1 else 0) (if passed r then 0 else 1) 0.
Definition generate_single (host_name : option string) (now : Tm) (format : ReportFormat) (r : ScenarioResult)
    (opts : ReportOptions) : string := generate host_name now format (single r) opts.

(** The contents of the file, or the exception when it cannot be opened. *)
Definition generate_report (host_name : option string) (now : Tm) (path : string) (creatable : bool)
    (results : BatchResult) (format : ReportFormat) (opts : ReportOptions) : string + string :=
  if negb creatable then inl (cat ["Failed to open report file: "; path])
  else inr (generate host_name now format results opts).
Definition generate_report_string := generate.
