(* ===== verification/ReportReaders.v ===== *)
(** * Readers of the report formats

    A reader of TAP (version 13) and of JSON (RFC 8259), written from the descriptions of
    the formats, and what they find in the reports of Report.v. *)

From Stdlib Require Import ZArith Lia.
From Stdlib Require Import Strings.Byte Strings.Ascii.
From stdpp Require Import base numbers list strings pretty.
From S2P Require Import Prelude.
From S2P Require Import Scenario ScenarioRunner Report.

(** ** Text *)

Lemma append_assoc (a b c : string) : (a +:+ b) +:+ c = a +:+ (b +:+ c).
Proof.
  induction a as [|x a IH]; [reflexivity|].
  change (String x ((a +:+ b) +:+ c) = String x (a +:+ (b +:+ c))). rewrite IH. reflexivity.
Qed.

Lemma append_nil (a : string) : a +:+ "" = a.
Proof. induction a as [|x a IH]; [reflexivity|]. change (String x (a +:+ "") = String x a). rewrite IH. reflexivity. Qed.

Lemma append_cons c a b : String c a +:+ b = String c (a +:+ b).
Proof. reflexivity. Qed.

Lemma append_length (a b : string) : String.length (a +:+ b) = (String.length a + String.length b)%nat.
Proof. induction a as [|x a IH]; [reflexivity|]. change (S (String.length (a +:+ b)) = S (String.length a + String.length b)). rewrite IH. reflexivity. Qed.

Lemma cat_cons a l : cat (a :: l) = a +:+ cat l.
Proof. reflexivity. Qed.

(** [out << a << b] writes the pieces one behind the other, however they are grouped. *)
Lemma cat_app l k : cat (l ++ k) = cat l +:+ cat k.
Proof.
  induction l as [|a l IH]; [reflexivity|].
  change ((a :: l) ++ k) with (a :: (l ++ k)). rewrite !cat_cons, IH, append_assoc. reflexivity.
Qed.

(** ** Decimal numbers *)

Fixpoint read_digits (v : Z) (s : string) : Z * string :=
  match s with
  | String c s' => match digit c with Some d => read_digits (v * 10 + d) s' | None => (v, s) end
  | "" => (v, "")
  end.

(** A text that does not go on with a digit. *)
Definition starts_digit (s : string) : bool :=
  match s with String c _ => match digit c with Some _ => true | None => false end | "" => false end.
Definition no_digit_first (s : string) : Prop := starts_digit s = false.

Lemma read_digits_stop v s : no_digit_first s -> read_digits v s = (v, s).
Proof.
  destruct s as [|c s]; [reflexivity|]. unfold no_digit_first. cbn. destruct (digit c); [discriminate|]. reflexivity.
Qed.

Lemma pretty_go_append x s t : pretty_N_go x s +:+ t = pretty_N_go x (s +:+ t).
Proof.
  revert s. induction (N.lt_wf_0 x) as [x _ IH]. intros s.
  destruct (N.eq_dec x 0%N) as [->|Hx]; [rewrite !pretty_N_go_0; reflexivity|].
  rewrite !(pretty_N_go_step x) by lia. apply IH, N.div_lt; lia.
Qed.

Lemma read_pretty_go x s : read_digits 0 (pretty_N_go x s) = read_digits (Z.of_N x) s.
Proof.
  revert s. induction (N.lt_wf_0 x) as [x _ IH]. intros s.
  destruct (N.eq_dec x 0%N) as [->|Hx]; [rewrite pretty_N_go_0; reflexivity|].
  rewrite pretty_N_go_step, IH by (try apply N.div_lt; lia).
  cbn [read_digits]. rewrite ten_digits by (apply N.mod_lt; lia). f_equal.
  rewrite N2Z.inj_div, N2Z.inj_mod. pose proof (Z.div_mod (Z.of_N x) 10 ltac:(lia)). lia.
Qed.

Lemma read_pretty_N x s : no_digit_first s -> read_digits 0 (pretty x +:+ s) = (Z.of_N x, s).
Proof.
  intros Hs. unfold pretty, pretty_N. case_decide as E.
  - subst x. rewrite append_cons. change ("" +:+ s) with s. cbn [read_digits]. change (digit "0") with (Some 0). cbv iota.
    rewrite read_digits_stop by exact Hs. reflexivity.
  - rewrite pretty_go_append, read_pretty_go. apply read_digits_stop, Hs.
Qed.

Lemma read_pretty n s : 0 <= n -> no_digit_first s -> read_digits 0 (pretty n +:+ s) = (n, s).
Proof.
  intros Hn Hs. destruct n as [|p|p]; [| |lia].
  - apply (read_pretty_N 0 s Hs).
  - apply (read_pretty_N (Npos p) s Hs).
Qed.


Lemma pretty_go_first x s : (x <> 0)%N -> exists c t d, pretty_N_go x s = String c t /\ digit c = Some d /\ 0 < d.
Proof.
  revert s. induction (N.lt_wf_0 x) as [x _ IH]. intros s Hx. rewrite pretty_N_go_step by lia.
  destruct (N.eq_dec (x / 10)%N 0%N) as [E|E].
  - rewrite E, pretty_N_go_0. eexists _, _, _. split; [reflexivity|].
    rewrite ten_digits by (apply N.mod_lt; lia). split; [reflexivity|].
    assert (Hs : (x < 10)%N) by (apply N.div_small_iff; lia). rewrite N.mod_small by exact Hs. lia.
  - apply IH; [apply N.div_lt; lia | exact E].
Qed.

(** ** JSON

    Numbers are integers, and an escape [\u] stands for a character below 128: the reports
    hold no others, and the reader refuses them. *)

Inductive json :=
| JNull
| JBool (b : bool)
| JNumber (n : Z)
| JString (s : string)
| JArray (l : list json)
| JObject (l : list (string * json)).

(** What follows the character with this code, if [s] begins with it. *)
Definition after (n : Z) (s : string) : option string :=
  match s with String c s' => if code c =? n then Some s' else None | "" => None end.

Definition is_blank (c : ascii) : bool := (code c =? 32) || (code c =? 9) || (code c =? 10) || (code c =? 13).
Fixpoint skip_blank (s : string) : string :=
  match s with String c s' => if is_blank c then skip_blank s' else s | "" => "" end.

Fixpoint after_word (w s : string) : option string :=
  match w with String c w' => s' ← after (code c) s; after_word w' s' | "" => Some s end.

(** The character that an escape of one letter stands for. *)
Definition escaped (c : ascii) : option Z :=
  let n := code c in
  if n =? 34 then Some 34 else if n =? 92 then Some 92 else if n =? 47 then Some 47
  else if n =? 98 then Some 8 else if n =? 102 then Some 12 else if n =? 110 then Some 10
  else if n =? 114 then Some 13 else if n =? 116 then Some 9 else None.

Definition hex_value (a b c d : ascii) : option Z :=
  w ← Address.hex_nibble (Ascii.byte_of_ascii a); x ← Address.hex_nibble (Ascii.byte_of_ascii b);
  y ← Address.hex_nibble (Ascii.byte_of_ascii c); z ← Address.hex_nibble (Ascii.byte_of_ascii d);
  Some (((w * 16 + x) * 16 + y) * 16 + z).

Definition add_char (n : Z) (r : option (string * string)) : option (string * string) :=
  match r with Some (s, rest) => Some (String (Ascii.ascii_of_N (Z.to_N n)) s, rest) | None => None end.

(** The rest of a string, behind its opening quote. *)
Fixpoint read_string (s : string) : option (string * string) :=
  match s with
  | "" => None
  | String c s1 =>
      if code c =? 34 then Some ("", s1)
      else if code c <? 32 then None
      else if code c =? 92 then
        match s1 with
        | "" => None
        | String e s2 =>
            if code e =? 117 then
              match s2 with
              | String h1 (String h2 (String h3 (String h4 s3))) =>
                  match hex_value h1 h2 h3 h4 with
                  | Some n => if n <? 128 then add_char n (read_string s3) else None
                  | None => None
                  end
              | _ => None
              end
            else match escaped e with Some n => add_char n (read_string s2) | None => None end
        end
      else add_char (code c) (read_string s1)
  end.

(** No digit follows a leading zero. *)
Definition read_natural (s : string) : option (Z * string) :=
  match s with
  | String c s' =>
      d ← digit c;
      if d =? 0 then (if starts_digit s' then None else Some (0, s')) else Some (read_digits 0 s)
  | "" => None
  end.

Definition read_number (s : string) : option (json * string) :=
  match after 45 s with
  | Some s' => nr ← read_natural s'; Some (JNumber (- nr.1), nr.2)
  | None => nr ← read_natural s; Some (JNumber nr.1, nr.2)
  end.

Definition read_word (s : string) : option (json * string) :=
  match after_word "true" s, after_word "false" s, after_word "null" s with
  | Some r, _, _ => Some (JBool true, r)
  | _, Some r, _ => Some (JBool false, r)
  | _, _, Some r => Some (JNull, r)
  | _, _, _ => None
  end.

Fixpoint read_value (fuel : nat) (s : string) {struct fuel} : option (json * string) :=
  match fuel with
  | O => None
  | S fuel =>
      let s := skip_blank s in
      match after 34 s, after 123 s, after 91 s with
      | Some s', _, _ => tr ← read_string s'; Some (JString tr.1, tr.2)
      | _, Some s', _ =>
          match after 125 (skip_blank s') with
          | Some r => Some (JObject [], r)
          | None => lr ← read_members fuel s'; Some (JObject lr.1, lr.2)
          end
      | _, _, Some s' =>
          match after 93 (skip_blank s') with
          | Some r => Some (JArray [], r)
          | None => lr ← read_elements fuel s'; Some (JArray lr.1, lr.2)
          end
      | _, _, _ => match read_word s with Some r => Some r | None => read_number s end
      end
  end
with read_members (fuel : nat) (s : string) {struct fuel} : option (list (string * json) * string) :=
  match fuel with
  | O => None
  | S fuel =>
      s1 ← after 34 (skip_blank s);
      kr ← read_string s1;
      s2 ← after 58 (skip_blank kr.2);
      vr ← read_value fuel s2;
      let s3 := skip_blank vr.2 in
      match after 44 s3 with
      | Some s4 => lr ← read_members fuel s4; Some ((kr.1, vr.1) :: lr.1, lr.2)
      | None => r ← after 125 s3; Some ([(kr.1, vr.1)], r)
      end
  end
with read_elements (fuel : nat) (s : string) {struct fuel} : option (list json * string) :=
  match fuel with
  | O => None
  | S fuel =>
      vr ← read_value fuel s;
      let s1 := skip_blank vr.2 in
      match after 44 s1 with
      | Some s2 => lr ← read_elements fuel s2; Some (vr.1 :: lr.1, lr.2)
      | None => r ← after 93 s1; Some ([vr.1], r)
      end
  end.

(** The value of a JSON text.  A value is longer than the values in it, so the length is
    fuel enough. *)
Definition read_json (s : string) : option json :=
  match read_value (String.length s) s with
  | Some (v, r) => if String.eqb (skip_blank r) "" then Some v else None
  | None => None
  end.

(** *** What the reader does *)

Fixpoint blank (w : string) : Prop := match w with String c w' => is_blank c = true /\ blank w' | "" => True end.

Lemma blank_append a b : blank a -> blank b -> blank (a +:+ b).
Proof. induction a as [|c a IH]; [auto|]. intros [Hc Ha] Hb. split; [exact Hc | exact (IH Ha Hb)]. Qed.

Lemma skip_blank_append w s : blank w -> skip_blank (w +:+ s) = skip_blank s.
Proof. induction w as [|c w IH]; [reflexivity|]. intros [Hc Hw]. rewrite append_cons. cbn. rewrite Hc. exact (IH Hw). Qed.

(** [t] is read as [v], whatever follows that does not continue a number. *)
Definition reads (t : string) (v : json) : Prop :=
  forall rest fuel, (String.length t <= fuel)%nat -> no_digit_first rest -> read_value fuel (t +:+ rest) = Some (v, rest).
Definition reads_members (t : string) (l : list (string * json)) : Prop :=
  forall rest fuel, (String.length t <= fuel)%nat -> read_members fuel (t +:+ rest) = Some (l, rest).
Definition reads_elements (t : string) (l : list json) : Prop :=
  forall rest fuel, (String.length t <= fuel)%nat -> read_elements fuel (t +:+ rest) = Some (l, rest).

(** White space and a closing character. *)
Definition closing (c : ascii) (t : string) : Prop := exists w, blank w /\ t = w +:+ String c "".

Lemma closing_here c : closing c (String c "").
Proof. exists "". split; [exact I | reflexivity]. Qed.
Lemma closing_blank c w t : blank w -> closing c t -> closing c (w +:+ t).
Proof. intros Hw (w' & Hw' & ->). exists (w +:+ w'). split; [apply blank_append; assumption | symmetry; apply append_assoc]. Qed.

Lemma read_value_skip fuel s s' : skip_blank s = skip_blank s' -> read_value fuel s = read_value fuel s'.
Proof. destruct fuel; [reflexivity|]. cbn [read_value]. intros ->. reflexivity. Qed.
Lemma read_members_skip fuel s s' : skip_blank s = skip_blank s' -> read_members fuel s = read_members fuel s'.
Proof. destruct fuel; [reflexivity|]. cbn [read_members]. intros ->. reflexivity. Qed.
Lemma read_elements_skip fuel s s' : skip_blank s = skip_blank s' -> read_elements fuel s = read_elements fuel s'.
Proof. destruct fuel; [reflexivity|]. cbn [read_elements]. intros E. rewrite (read_value_skip _ _ _ E). reflexivity. Qed.

Lemma reads_blank w t v : blank w -> reads t v -> reads (w +:+ t) v.
Proof.
  intros Hw Ht rest fuel Hf Hr. rewrite append_length in Hf. rewrite append_assoc.
  rewrite (read_value_skip _ _ (t +:+ rest)) by apply skip_blank_append, Hw. apply Ht; [lia | exact Hr].
Qed.
Lemma members_blank w t l : blank w -> reads_members t l -> reads_members (w +:+ t) l.
Proof.
  intros Hw Ht rest fuel Hf. rewrite append_length in Hf. rewrite append_assoc.
  rewrite (read_members_skip _ _ (t +:+ rest)) by apply skip_blank_append, Hw. apply Ht. lia.
Qed.
Lemma elements_blank w t l : blank w -> reads_elements t l -> reads_elements (w +:+ t) l.
Proof.
  intros Hw Ht rest fuel Hf. rewrite append_length in Hf. rewrite append_assoc.
  rewrite (read_elements_skip _ _ (t +:+ rest)) by apply skip_blank_append, Hw. apply Ht. lia.
Qed.

Lemma read_escaped_char c t : read_string (escape_json_char c +:+ t) = add_char (code c) (read_string t).
Proof. destruct c as [[] [] [] [] [] [] [] []]; reflexivity. Qed.

Lemma code_char c : Ascii.ascii_of_N (Z.to_N (code c)) = c.
Proof. unfold code. rewrite N2Z.id. apply Ascii.ascii_N_embedding. Qed.

Lemma read_escaped s rest : read_string (escape_json s +:+ (quote +:+ rest)) = Some (s, rest).
Proof.
  induction s as [|c s IH]; [reflexivity|].
  change (escape_json (String c s)) with (escape_json_char c +:+ escape_json s).
  rewrite append_assoc, read_escaped_char, IH. cbn [add_char]. rewrite code_char. reflexivity.
Qed.

Lemma reads_string s : reads (json_text s) (JString s).
Proof.
  intros rest [|fuel] Hf _; [inversion Hf|].
  change (json_text s) with (quote +:+ (escape_json s +:+ quote +:+ "")). rewrite !append_assoc.
  change (quote +:+ ?x) with (String (Ascii.ascii_of_nat 34) x) at 1.
  cbn [read_value skip_blank]. change (is_blank (Ascii.ascii_of_nat 34)) with false. cbv iota.
  cbn [after]. change (code (Ascii.ascii_of_nat 34) =? 34) with true. cbv iota.
  rewrite read_escaped. reflexivity.
Qed.

Lemma reads_json_bool b : reads (bool_text b) (JBool b).
Proof. intros rest [|fuel] Hf _; [destruct b; inversion Hf|]. destruct b; reflexivity. Qed.

Lemma read_natural_pretty n rest : 0 <= n -> no_digit_first rest ->
  read_natural (pretty n +:+ rest) = Some (n, rest) /\ exists c t, pretty n = String c t /\ is_Some (digit c).
Proof.
  intros Hn Hr. destruct n as [|p|p]; [| |lia].
  - split; [|exists "0"%char, ""; split; [reflexivity | exists 0; reflexivity]].
    change (pretty 0 +:+ rest) with (String "0" rest). cbn. change (digit "0") with (Some 0). cbn.
    unfold no_digit_first in Hr. rewrite Hr. reflexivity.
  - destruct (pretty_go_first (N.pos p) "" ltac:(discriminate)) as (c & t & d & E & Hc & Hd).
    pose proof (read_pretty (Z.pos p) rest Hn Hr) as Hp.
    change (pretty (Z.pos p)) with (pretty_N_go (N.pos p) "") in *. rewrite E in *.
    split; [|exists c, t; split; [reflexivity | eexists; exact Hc]]. rewrite append_cons in *.
    cbn [read_natural]. rewrite Hc. change (Some d ≫= ?f) with (f d). cbv beta.
    replace (d =? 0) with false by (symmetry; apply Z.eqb_neq; lia). rewrite Hp. reflexivity.
Qed.

(** A character that starts a number starts nothing else. *)
Lemma number_start c s : is_Some (digit c) \/ c = "-"%char ->
  skip_blank (String c s) = String c s /\ after 34 (String c s) = None /\ after 123 (String c s) = None /\
  after 91 (String c s) = None /\ read_word (String c s) = None.
Proof.
  intros [[d Hd]| ->]; [|split_and!; reflexivity].
  unfold digit in Hd. case_match eqn:E; [|discriminate]. bool_to_prop. fold (code c) in *.
  assert (Hn : forall n, ((48 <=? n) && (n <=? 57))%bool = false -> (code c =? n) = false).
  { intros n Hn. apply Z.eqb_neq. intros <-. apply andb_false_iff in Hn as [Hn|Hn]; bool_to_prop; unfold code in *; lia. }
  cbn [skip_blank after]. unfold is_blank, read_word. cbn [after_word after]. rewrite !Hn by reflexivity.
  split_and!; reflexivity.
Qed.

Lemma reads_number n : reads (pretty n) (JNumber n).
Proof.
  intros rest fuel Hf Hr. destruct (Z.leb_spec 0 n) as [Hn|Hn].
  - destruct (read_natural_pretty n rest Hn Hr) as (Hp & c & t & E & Hc). rewrite E in *. rewrite append_cons in *.
    destruct (number_start c (t +:+ rest) (or_introl Hc)) as (E0 & E1 & E2 & E3 & E4).
    destruct fuel as [|fuel]; [inversion Hf|]. cbn [read_value]. rewrite E0, E1, E2, E3, E4.
    unfold read_number. cbn [after].
    replace (code c =? 45) with false; [|destruct Hc as [d Hc]; destruct (Z.eqb_spec (code c) 45) as [Ec|]; [|reflexivity]].
    + rewrite Hp. reflexivity.
    + exfalso. rewrite <- (code_char c), Ec in Hc. discriminate Hc.
  - destruct n as [|p|p]; [lia|lia|].
    destruct (read_natural_pretty (Z.pos p) rest ltac:(lia) Hr) as (Hp & _).
    change (pretty (Z.neg p) +:+ rest) with (String "-" (pretty (Z.pos p) +:+ rest)).
    destruct (number_start "-"%char (pretty (Z.pos p) +:+ rest) (or_intror eq_refl)) as (E0 & E1 & E2 & E3 & E4).
    destruct fuel as [|fuel]; [inversion Hf|]. cbn [read_value]. rewrite E0, E1, E2, E3, E4.
    unfold read_number. cbn [after]. change (code "-" =? 45) with true. cbv iota. rewrite Hp. reflexivity.
Qed.

(** The punctuation behind a value. *)
Lemma closing_read c w rest : is_blank c = false -> blank w -> skip_blank ((w +:+ String c "") +:+ rest) = String c rest.
Proof. intros Hc Hw. rewrite append_assoc, skip_blank_append by exact Hw. rewrite append_cons. cbn [skip_blank]. rewrite Hc. reflexivity. Qed.

Lemma closing_no_digit c t rest : digit c = None -> closing c t -> no_digit_first (t +:+ rest).
Proof.
  intros Hc (w & Hw & ->). rewrite append_assoc. unfold no_digit_first. destruct w as [|b w].
  { change ("" +:+ ?x) with x. rewrite append_cons. cbn [starts_digit]. rewrite Hc. reflexivity. }
  rewrite append_cons. cbn [starts_digit].
  destruct Hw as [Hb _]. destruct (digit b) eqn:Hd; [|reflexivity]. exfalso.
  destruct (number_start b "" (or_introl (ex_intro _ _ Hd))) as (E & _). cbn in E. rewrite Hb in E. discriminate E.
Qed.

(** A key that needs no escapes. *)
Definition plain (k : string) : Prop := escape_json k = k.

Lemma key_read k rest : plain k ->
  exists r, after 34 (skip_blank (key k +:+ rest)) = Some r /\ read_string r = Some (k, String ":" (String " " rest)).
Proof.
  intros Hk. unfold key, quoted. rewrite !cat_cons, !append_assoc. exists (k +:+ (quote +:+ String ":" (String " " rest))).
  split; [reflexivity|].
  pose proof (read_escaped k (String ":" (String " " rest))) as H. unfold plain in Hk. rewrite Hk in H. exact H.
Qed.

(** What is left of the fuel is enough for a part of the text. *)
Ltac measure := rewrite ?append_length in *; cbn [String.length] in *; lia.

Lemma closing_length c t : closing c t -> (1 <= String.length t)%nat.
Proof. intros (w & _ & ->). measure. Qed.

Lemma key_length k : (2 <= String.length (key k))%nat.
Proof. unfold key, quoted. rewrite !cat_cons, !append_length. cbn. lia. Qed.

Lemma member_more k tv v t l : plain k -> reads tv v -> reads_members t l ->
  reads_members (key k +:+ (tv +:+ ("," +:+ t))) ((k, v) :: l).
Proof.
  intros Hk Hv Ht rest fuel Hf. pose proof (key_length k). rewrite !append_assoc.
  destruct (key_read k (tv +:+ ("," +:+ (t +:+ rest))) Hk) as (r & Hr & Hs).
  destruct fuel as [|fuel]; [measure|]. cbn [read_members]. rewrite Hr. cbn. rewrite Hs. cbn [mbind option_bind fst snd].
  change (skip_blank (String ":" ?x)) with (String ":" x). change (after 58 (String ":" ?x)) with (Some x). cbn [mbind option_bind].
  rewrite (read_value_skip _ _ (tv +:+ ("," +:+ (t +:+ rest)))) by reflexivity. rewrite Hv; [|measure|reflexivity].
  cbn [mbind option_bind fst snd]. change (skip_blank ("," +:+ ?x)) with (String "," x). change (after 44 (String "," ?x)) with (Some x).
  cbn [mbind option_bind]. rewrite Ht by measure. reflexivity.
Qed.

Lemma member_last k tv v t : plain k -> reads tv v -> closing "}" t -> reads_members (key k +:+ (tv +:+ t)) [(k, v)].
Proof.
  intros Hk Hv Ht rest fuel Hf. pose proof (key_length k). rewrite !append_assoc.
  destruct (key_read k (tv +:+ (t +:+ rest)) Hk) as (r & Hr & Hs).
  destruct fuel as [|fuel]; [measure|]. cbn [read_members]. rewrite Hr. cbn. rewrite Hs. cbn [mbind option_bind fst snd].
  change (skip_blank (String ":" ?x)) with (String ":" x). change (after 58 (String ":" ?x)) with (Some x). cbn [mbind option_bind].
  rewrite (read_value_skip _ _ (tv +:+ (t +:+ rest))) by reflexivity.
  rewrite Hv; [|measure | apply closing_no_digit with (c := "}"%char); [reflexivity | exact Ht]].
  cbn [mbind option_bind fst snd]. destruct Ht as (w & Hw & ->). rewrite closing_read by (auto; reflexivity). reflexivity.
Qed.

Lemma element_more tv v t l : reads tv v -> reads_elements t l -> reads_elements (tv +:+ ("," +:+ t)) (v :: l).
Proof.
  intros Hv Ht rest fuel Hf. rewrite !append_assoc. destruct fuel as [|fuel]; [measure|]. cbn [read_elements].
  rewrite Hv; [|measure|reflexivity]. cbn [mbind option_bind fst snd].
  change (skip_blank ("," +:+ ?x)) with (String "," x). change (after 44 (String "," ?x)) with (Some x).
  cbn [mbind option_bind]. rewrite Ht by measure. reflexivity.
Qed.

Lemma element_last tv v t : reads tv v -> closing "]" t -> reads_elements (tv +:+ t) [v].
Proof.
  intros Hv Ht rest fuel Hf. rewrite !append_assoc. destruct fuel as [|fuel].
  { pose proof (closing_length _ _ Ht). measure. }
  pose proof (closing_length _ _ Ht). cbn [read_elements]. rewrite Hv; [|measure | apply closing_no_digit with (c := "]"%char); [reflexivity | exact Ht]].
  cbn [mbind option_bind fst snd]. destruct Ht as (w & Hw & ->). rewrite closing_read by (auto; reflexivity). reflexivity.
Qed.

Lemma reads_object t l : reads_members t l -> reads ("{" +:+ t) (JObject l).
Proof.
  intros Ht rest fuel Hf _. destruct fuel as [|fuel]; [measure|]. rewrite append_assoc. specialize (Ht rest fuel ltac:(measure)).
  change ("{" +:+ ?x) with (String "{" x). cbn [read_value skip_blank]. change (is_blank "{") with false. cbv iota.
  cbn [after]. change (code "{" =? 34) with false. change (code "{" =? 123) with true. cbv iota. rewrite Ht.
  destruct fuel as [|fuel]; [discriminate Ht|]. cbn [read_members] in Ht. revert Ht.
  destruct (skip_blank (t +:+ rest)) as [|c s]; [discriminate|]. cbn [after].
  destruct (Z.eqb_spec (code c) 34) as [E|E]; [|discriminate]. intros _. rewrite E. reflexivity.
Qed.

Lemma reads_array t l : reads_elements t l -> reads ("[" +:+ t) (JArray l).
Proof.
  intros Ht rest fuel Hf _. destruct fuel as [|fuel]; [measure|]. rewrite append_assoc. specialize (Ht rest fuel ltac:(measure)).
  change ("[" +:+ ?x) with (String "[" x). cbn [read_value skip_blank]. change (is_blank "[") with false. cbv iota.
  cbn [after]. change (code "[" =? 34) with false. change (code "[" =? 123) with false. change (code "[" =? 91) with true.
  cbv iota. rewrite Ht. destruct fuel as [|[|fuel]]; [discriminate Ht | discriminate Ht|].
  cbn [read_elements read_value] in Ht. revert Ht.
  destruct (skip_blank (t +:+ rest)) as [|c s]; [discriminate|].
  destruct (after 93 (String c s)) as [r|] eqn:E; [|reflexivity].
  cbn [after] in E. destruct (Z.eqb_spec (code c) 93) as [Ec|]; [|discriminate E].
  replace c with "]"%char by (rewrite <- (code_char c), Ec; reflexivity). discriminate.
Qed.

Lemma reads_empty t : closing "]" t -> reads ("[" +:+ t) (JArray []).
Proof.
  intros (w & Hw & ->) rest fuel Hf _. destruct fuel as [|fuel]; [measure|]. rewrite append_assoc.
  change ("[" +:+ ?x) with (String "[" x). cbn [read_value skip_blank]. change (is_blank "[") with false. cbv iota.
  cbn [after]. change (code "[" =? 34) with false. change (code "[" =? 123) with false. change (code "[" =? 91) with true.
  cbv iota. rewrite closing_read by (auto; reflexivity). reflexivity.
Qed.

(** *** What the JSON report says *)

Definition expectation_doc (e : ExpectResult) : json :=
  JObject ([("description", JString (er_description e)); ("passed", JBool (er_passed e));
            ("packets_matched", JNumber (packets_matched e)); ("duration_ms", JNumber (elapsed e))] ++
           (if negb (er_passed e) && negb (String.eqb (failure_reason e) "")
            then [("failure_reason", JString (failure_reason e))] else [])).

Definition scenario_doc (opts : ReportOptions) (r : ScenarioResult) : json :=
  JObject ([("name", JString (scenario_name r)); ("passed", JBool (passed r)); ("duration_ms", JNumber (total_elapsed r))] ++
           (if String.eqb (error_message r) "" then [] else [("error", JString (error_message r))]) ++
           (match include_pcap_paths opts, failure_pcap r with
            | true, Some file => [("pcap_file", JString file)] | _, _ => [] end) ++
           [("expectations", JArray (map expectation_doc (expect_results r)))]).

Definition summary_doc (b : BatchResult) : json :=
  JObject [("total", JNumber (total b)); ("passed", JNumber (batch_passed b)); ("failed", JNumber (batch_failed b));
           ("skipped", JNumber (batch_skipped b)); ("duration_ms", JNumber (batch_elapsed b))].

Definition report_doc (now : Tm) (b : BatchResult) (opts : ReportOptions) : json :=
  JObject [("suite", JString (suite_name opts)); ("timestamp", JString (get_timestamp now)); ("summary", summary_doc b);
           ("scenarios", JArray (map (scenario_doc opts) (batch_results b)))].

Create HintDb json_text.
#[local] Hint Resolve reads_string reads_json_bool reads_number closing_here closing_blank : json_text.
#[local] Hint Extern 1 (blank _) => first [assumption | exact I] : json_text.
#[local] Hint Extern 1 (plain _) => reflexivity : json_text.

(** Takes a text of pieces apart, piece by piece. *)
Ltac flatten := rewrite ?cat_cons, ?append_assoc; change (cat []) with ""; rewrite ?append_nil.
Ltac read_pieces :=
  repeat first
    [ apply reads_blank; [solve [auto with json_text]|]
    | apply members_blank; [solve [auto with json_text]|]
    | apply elements_blank; [solve [auto with json_text]|]
    | apply reads_object
    | apply member_more; [solve [auto with json_text] | solve [auto with json_text] |]
    | apply member_last; [solve [auto with json_text] | solve [auto with json_text] | solve [auto 20 with json_text]] ].

Section layout.
Context (indent newline : string) (Hindent : blank indent) (Hnewline : blank newline).

Lemma reads_separated {A} (item : A -> string) (doc : A -> json) a l t :
  (forall a, reads (item a) (doc a)) -> closing "]" t ->
  reads_elements (item a +:+ (separated newline item false l +:+ t)) (doc a :: map doc l).
Proof.
  intros Hitem Ht. revert a. induction l as [|b l IH]; intros a.
  - change (separated newline item false [] +:+ t) with t. apply element_last; auto.
  - change (separated newline item false (b :: l)) with (cat [cat [","; newline]; item b; separated newline item false l]).
    flatten. apply element_more; [apply Hitem|]. apply elements_blank; [exact Hnewline|].
    apply elements_blank; [exact I|]. apply IH.
Qed.

Lemma reads_json_array {A} (item : A -> string) (doc : A -> json) margin l :
  blank margin -> (forall a, reads (item a) (doc a)) -> reads (json_array newline margin item l) (JArray (map doc l)).
Proof.
  intros Hm Hitem. unfold json_array. destruct l as [|a l].
  - flatten. apply reads_empty. auto 10 with json_text.
  - change (separated newline item true (a :: l)) with (cat [""; item a; separated newline item false l]).
    flatten. apply reads_array. apply elements_blank; [exact Hnewline|]. apply elements_blank; [exact I|].
    apply reads_separated; auto 10 with json_text.
Qed.

Lemma reads_expectation e : reads (json_expectation indent newline e) (expectation_doc e).
Proof.
  unfold json_expectation, expectation_doc. destruct (negb (er_passed e) && _); flatten; read_pieces.
Qed.

Lemma reads_summary b : reads (json_summary indent newline b) (summary_doc b).
Proof. unfold json_summary, summary_doc. flatten. read_pieces. Qed.
#[local] Hint Resolve reads_summary : json_text.

Lemma reads_scenario opts r : reads (json_scenario opts indent newline r) (scenario_doc opts r).
Proof.
  unfold json_scenario, scenario_doc.
  assert (Hl : reads (json_array newline (cat [indent; indent; indent]) (json_expectation indent newline) (expect_results r))
                     (JArray (map expectation_doc (expect_results r)))).
  { apply reads_json_array; [repeat apply blank_append; auto with json_text | apply reads_expectation]. }
  cbv zeta. revert Hl. generalize (json_array newline (cat [indent; indent; indent]) (json_expectation indent newline) (expect_results r)).
  intros array Hl. destruct (String.eqb (error_message r) ""), (include_pcap_paths opts), (failure_pcap r) as [file|]; cbn [negb]; flatten; read_pieces.
Qed.
End layout.

(** Texts of digits and signs need no escapes. *)
Definition clean (c : ascii) : Prop := escape_json_char c = String c "".
Definition clean_text (s : string) : Prop := Forall clean (String.list_ascii_of_string s).

Lemma clean_plain s : clean_text s -> plain s.
Proof.
  unfold clean_text, plain. induction s as [|c s IH]; [reflexivity|]. intros Hs. inversion_clear Hs as [|? ? Hc Ht].
  change (escape_json (String c s)) with (escape_json_char c +:+ escape_json s). rewrite Hc, (IH Ht). reflexivity.
Qed.

Lemma clean_append a b : clean_text a -> clean_text b -> clean_text (a +:+ b).
Proof.
  intros Ha Hb. induction a as [|c a IH]; [exact Hb|]. inversion_clear Ha as [|? ? Hc Ht].
  constructor; [exact Hc | exact (IH Ht)].
Qed.

Lemma clean_digit c : is_Some (digit c) -> clean c.
Proof. destruct c as [[] [] [] [] [] [] [] []]; intros [d H]; first [discriminate H | reflexivity]. Qed.

Lemma clean_pretty (n : Z) : clean_text (pretty n).
Proof.
  assert (Hp : forall p, clean_text (pretty_N_go (N.pos p) "")).
  { intros p. unfold clean_text. eapply Forall_impl; [apply pretty_digits; constructor | apply clean_digit]. }
  destruct n as [|p|p].
  - repeat constructor.
  - apply Hp.
  - change (pretty (Z.neg p)) with ("-" +:+ pretty_N_go (N.pos p) ""). apply clean_append; [repeat constructor | apply Hp].
Qed.

Lemma clean_two_digits v : clean_text (two_digits v).
Proof.
  assert (Hd : forall w, clean (Ascii.ascii_of_N (Z.to_N (48 + w mod 10)))).
  { intros w. apply clean_digit. unfold digit. rewrite Ascii.N_ascii_embedding by lia. case_match eqn:E; [eauto|].
    apply andb_false_iff in E as [E|E]; bool_to_prop; lia. }
  unfold two_digits. cbn [padded app String.string_of_list_ascii]. repeat constructor; apply Hd.
Qed.

Lemma clean_timestamp now : clean_text (get_timestamp now).
Proof.
  unfold get_timestamp. rewrite !cat_cons. change (cat []) with "".
  repeat apply clean_append; try apply clean_pretty; try apply clean_two_digits; repeat constructor.
Qed.

Lemma reads_document now b opts indent newline : blank indent -> blank newline ->
  reads (json_document now b opts indent newline) (report_doc now b opts).
Proof.
  intros Hi Hn. unfold json_document, report_doc.
  replace (quoted (get_timestamp now)) with (json_text (get_timestamp now))
    by (unfold json_text; rewrite clean_plain by apply clean_timestamp; reflexivity).
  pose proof (reads_summary indent newline Hi Hn b) as Hs.
  pose proof (reads_json_array newline Hn (json_scenario opts indent newline) (scenario_doc opts) indent (batch_results b)
                Hi (reads_scenario indent newline Hi Hn opts)) as Hl.
  flatten. read_pieces.
Qed.


(** ** TAP *)

Fixpoint lines (s : string) : list string :=
  match s with
  | "" => []
  | String c s' =>
      if code c =? 10 then "" :: lines s'
      else match lines s' with [] => [String c ""] | l :: ls => String c l :: ls end
  end.

Record Test := mkTest { test_number : Z; test_ok : bool; test_name : string; directive : option string }.

(** The description of a test ends at the first number sign; a directive follows it. *)
Fixpoint split_directive (s : string) : string * option string :=
  match s with
  | "" => ("", None)
  | String c s' => if code c =? 35 then ("", Some s') else let (name, d) := split_directive s' in (String c name, d)
  end.

Definition read_test (ok : bool) (s : string) : option Test :=
  nr ← read_natural s;
  name ← after_word " - " nr.2;
  let (name, d) := split_directive name in
  Some (mkTest nr.1 ok name d).

(** Lines that are indented belong to the test above. *)
Fixpoint read_tests (ls : list string) : option (list Test) :=
  match ls with
  | [] => Some []
  | l :: ls' =>
      rest ← read_tests ls';
      match after_word "ok " l, after_word "not ok " l, after_word "  " l with
      | Some s, _, _ => t ← read_test true s; Some (t :: rest)
      | _, Some s, _ => t ← read_test false s; Some (t :: rest)
      | _, _, Some _ => Some rest
      | _, _, _ => None
      end
  end.

(** The plan, and the tests. *)
Definition read_tap (s : string) : option (Z * list Test) :=
  match lines s with
  | version :: plan :: ls =>
      if String.eqb version "TAP version 13" then
        planned ← after_word "1.." plan;
        nr ← read_natural planned;
        tests ← read_tests ls;
        if String.eqb nr.2 "" then Some (nr.1, tests) else None
      else None
  | _ => None
  end.

(** *** What the reader does *)

Definition one_line (s : string) : Prop := Forall (fun c => code c <> 10) (String.list_ascii_of_string s).
Definition text_lines (ls : list string) : string := cat (map (fun l => l +:+ nl) ls).

Lemma lines_line l t : one_line l -> lines (l +:+ (nl +:+ t)) = l :: lines t.
Proof.
  unfold one_line. induction l as [|c l IH]; intros Hl; [reflexivity|]. inversion_clear Hl as [|? ? Hc Ht].
  rewrite append_cons. cbn [lines]. rewrite (proj2 (Z.eqb_neq _ _) Hc), (IH Ht). reflexivity.
Qed.

Lemma lines_text ls t : Forall one_line ls -> lines (text_lines ls +:+ t) = ls ++ lines t.
Proof.
  unfold text_lines. induction 1 as [|l ls Hl _ IH]; [reflexivity|].
  cbn [map]. rewrite cat_cons, !append_assoc, lines_line, IH by exact Hl. reflexivity.
Qed.

Lemma read_tests_app k l tests rest :
  read_tests l = Some rest -> read_tests k = Some tests -> read_tests (k ++ l) = Some (tests ++ rest).
Proof.
  intros Hl. revert tests. induction k as [|x k IH]; intros tests Hk; [injection Hk as <-; exact Hl|].
  cbn [read_tests app] in *. destruct (read_tests k) as [ts|]; [|discriminate Hk].
  rewrite (IH ts eq_refl). cbn [mbind option_bind] in *.
  repeat case_match; simplify_eq; try reflexivity.
  - destruct (read_test true _); [|discriminate Hk]. cbn in *. injection Hk as <-. reflexivity.
  - destruct (read_test false _); [|discriminate Hk]. cbn in *. injection Hk as <-. reflexivity.
Qed.

(** ** What the TAP report says *)

Definition plain_name (s : string) : Prop :=
  Forall (fun c => code c <> 10 /\ code c <> 35) (String.list_ascii_of_string s).

Definition plain_result (e : ExpectResult) : Prop := plain_name (er_description e) /\ one_line (failure_reason e).
Definition plain_scenario (r : ScenarioResult) : Prop :=
  plain_name (scenario_name r) /\ one_line (error_message r) /\ Forall plain_result (expect_results r).

(** The tests of a scenario: its expectations, or itself when it has none. *)
Definition scenario_tests (r : ScenarioResult) : list (string * bool) :=
  match expect_results r with
  | [] => [(scenario_name r, passed r)]
  | l => map (fun e => (cat [scenario_name r; ": "; er_description e], er_passed e)) l
  end.

Fixpoint numbered (k : Z) (l : list (string * bool)) : list Test :=
  match l with [] => [] | t :: l' => mkTest k t.2 t.1 None :: numbered (k + 1) l' end.

Lemma split_plain s : plain_name s -> split_directive s = (s, None).
Proof.
  unfold plain_name. induction s as [|c s IH]; intros Hs; [reflexivity|]. inversion_clear Hs as [|? ? [_ Hc] Ht].
  cbn [split_directive]. rewrite (proj2 (Z.eqb_neq _ _) Hc), (IH Ht). reflexivity.
Qed.

Lemma plain_one_line s : plain_name s -> one_line s.
Proof. intros H. eapply Forall_impl; [exact H|]. intros c [Hc _]. exact Hc. Qed.

Lemma one_line_append a b : one_line a -> one_line b -> one_line (a +:+ b).
Proof.
  intros Ha Hb. induction a as [|c a IH]; [exact Hb|]. inversion_clear Ha as [|? ? Hc Ht]. constructor; [exact Hc | exact (IH Ht)].
Qed.
Lemma plain_name_append a b : plain_name a -> plain_name b -> plain_name (a +:+ b).
Proof.
  intros Ha Hb. induction a as [|c a IH]; [exact Hb|]. inversion_clear Ha as [|? ? Hc Ht]. constructor; [exact Hc | exact (IH Ht)].
Qed.

Lemma read_test_text ok n name : 0 <= n -> plain_name name ->
  read_test ok (cat [pretty n; " - "; name]) = Some (mkTest n ok name None).
Proof.
  intros Hn Hname. unfold read_test. flatten.
  destruct (read_natural_pretty n (" - " +:+ name) Hn eq_refl) as [E _]. rewrite E. cbn [mbind option_bind fst snd].
  change (after_word " - " (" - " +:+ name)) with (Some name). cbn [mbind option_bind].
  rewrite split_plain by exact Hname. reflexivity.
Qed.

(** The line of a test. *)
Definition test_line (ok : bool) (n : Z) (name : string) : string :=
  (if ok then "ok " else "not ok ") +:+ cat [pretty n; " - "; name].

Lemma read_test_line ok n name ls tests : 0 <= n -> plain_name name -> read_tests ls = Some tests ->
  read_tests (test_line ok n name :: ls) = Some (mkTest n ok name None :: tests).
Proof.
  intros Hn Hname Hls. cbn [read_tests]. rewrite Hls. cbn [mbind option_bind]. set (text := cat [pretty n; " - "; name]).
  destruct ok.
  - change (after_word "ok " (test_line true n name)) with (Some text). cbv iota. subst text.
    rewrite read_test_text by assumption. reflexivity.
  - change (after_word "ok " (test_line false n name)) with (@None string).
    change (after_word "not ok " (test_line false n name)) with (Some text). cbv iota. subst text.
    rewrite read_test_text by assumption. reflexivity.
Qed.

Lemma read_indented_line l ls tests : read_tests ls = Some tests -> read_tests (("  " +:+ l) :: ls) = Some tests.
Proof. intros Hls. cbn [read_tests]. rewrite Hls. reflexivity. Qed.

(** The text of a part of the report is these lines, which are read as these tests. *)
Definition tells (text : string) (tests : list Test) : Prop :=
  exists ls, text = text_lines ls /\ Forall one_line ls /\ read_tests ls = Some tests.

Lemma tells_append a b ta tb : tells a ta -> tells b tb -> tells (a +:+ b) (ta ++ tb).
Proof.
  intros (la & -> & Ha & Ra) (lb & -> & Hb & Rb). exists (la ++ lb). unfold text_lines. rewrite map_app, cat_app. split_and!.
  - reflexivity.
  - apply Forall_app. split; assumption.
  - apply read_tests_app; assumption.
Qed.

Lemma one_line_pretty (n : Z) : one_line (pretty n).
Proof.
  eapply Forall_impl; [apply clean_pretty|]. intros c Hc E. unfold clean in Hc. rewrite <- (code_char c), E in Hc. discriminate Hc.
Qed.

Create HintDb one_line.
#[local] Hint Resolve one_line_append one_line_pretty plain_one_line : one_line.
#[local] Hint Extern 1 (one_line _) => repeat constructor; discriminate : one_line.

Lemma one_line_test ok n name : plain_name name -> one_line (test_line ok n name).
Proof. intros Hname. unfold test_line. flatten. destruct ok; auto 10 with one_line. Qed.

Lemma tap_case_tells n scenario e : 0 <= n -> plain_name scenario -> plain_result e ->
  tells (tap_case n scenario e) [mkTest n (er_passed e) (cat [scenario; ": "; er_description e]) None].
Proof.
  intros Hn Hs [Hd Hr]. set (name := cat [scenario; ": "; er_description e]).
  assert (Hname : plain_name name).
  { subst name. flatten. repeat apply plain_name_append; try assumption. repeat constructor; discriminate. }
  unfold tap_case. fold name. destruct (er_passed e).
  - exists [test_line true n name]. split_and!.
    + unfold text_lines, test_line. cbn [map]. flatten. reflexivity.
    + apply Forall_singleton, one_line_test, Hname.
    + apply read_test_line; [exact Hn | exact Hname | reflexivity].
  - exists [test_line false n name; "  " +:+ "---"; "  " +:+ ("message: " +:+ failure_reason e);
            "  " +:+ ("packets_matched: " +:+ pretty (packets_matched e)); "  " +:+ "..."]. split_and!.
    + unfold text_lines, test_line. cbn [map]. flatten. reflexivity.
    + rewrite !Forall_cons, Forall_nil. split_and!; auto using one_line_test with one_line.
    + apply read_test_line; [exact Hn | exact Hname |]. repeat apply read_indented_line. reflexivity.
Qed.

Lemma tap_scenario_case_tells n r : 0 <= n -> plain_scenario r ->
  tells (tap_scenario_case n r) [mkTest n (passed r) (scenario_name r) None].
Proof.
  intros Hn (Hs & He & _). unfold tap_scenario_case. destruct (passed r).
  - exists [test_line true n (scenario_name r)]. split_and!.
    + unfold text_lines, test_line. cbn [map]. flatten. reflexivity.
    + apply Forall_singleton, one_line_test, Hs.
    + apply read_test_line; [exact Hn | exact Hs | reflexivity].
  - destruct (String.eqb (error_message r) "").
    + exists [test_line false n (scenario_name r)]. split_and!.
      * unfold text_lines, test_line. cbn [map negb]. flatten. reflexivity.
      * apply Forall_singleton, one_line_test, Hs.
      * apply read_test_line; [exact Hn | exact Hs | reflexivity].
    + exists [test_line false n (scenario_name r); "  " +:+ "---"; "  " +:+ ("message: " +:+ error_message r); "  " +:+ "..."].
      split_and!.
      * unfold text_lines, test_line. cbn [map negb]. flatten. reflexivity.
      * rewrite !Forall_cons, Forall_nil. split_and!; auto using one_line_test with one_line.
      * apply read_test_line; [exact Hn | exact Hs |]. repeat apply read_indented_line. reflexivity.
Qed.

Lemma tap_cases_tells n scenario l : 0 <= n -> plain_name scenario -> Forall plain_result l ->
  tells (tap_cases n scenario l).1 (numbered n (map (fun e => (cat [scenario; ": "; er_description e], er_passed e)) l)) /\
  (tap_cases n scenario l).2 = n + zlen l.
Proof.
  intros Hn Hs Hl. revert n Hn. induction Hl as [|e l He _ IH]; intros n Hn.
  - split; [|cbn; lia]. exists []. split_and!; [reflexivity | constructor | reflexivity].
  - specialize (IH (n + 1) ltac:(lia)). cbn [tap_cases map numbered fst snd].
    destruct (tap_cases (n + 1) scenario l) as [rest m]. destruct IH as [IH Em]. cbn [fst snd] in *. split.
    + apply (tells_append _ _ [_]); [apply tap_case_tells; assumption | exact IH].
    + rewrite Em. cbn [length]. lia.
Qed.

Lemma numbered_app n k l : numbered n (k ++ l) = numbered n k ++ numbered (n + zlen k) l.
Proof.
  revert n. induction k as [|t k IH]; intros n; [cbn; f_equal; lia|]. cbn [numbered app length]. rewrite IH. do 3 f_equal. lia.
Qed.

Lemma scenario_tests_count r : zlen (scenario_tests r) = junit_tests r.
Proof. unfold scenario_tests, junit_tests. destruct (expect_results r); [reflexivity|]. rewrite length_map. reflexivity. Qed.

Lemma tap_scenario_tells n r : 0 <= n -> plain_scenario r ->
  tells (tap_scenario n r).1 (numbered n (scenario_tests r)) /\ (tap_scenario n r).2 = n + zlen (scenario_tests r).
Proof.
  intros Hn Hr. unfold tap_scenario, scenario_tests. destruct (expect_results r) as [|e l] eqn:E.
  - split; [apply tap_scenario_case_tells; assumption | reflexivity].
  - destruct Hr as (Hs & _ & Hl). rewrite E in Hl. cbn [length]. rewrite length_map.
    destruct (tap_cases_tells n (scenario_name r) (e :: l) Hn Hs Hl) as [Ht Em]. split; [exact Ht | exact Em].
Qed.

Lemma tap_scenarios_tell n l : 0 <= n -> Forall plain_scenario l ->
  tells (tap_scenarios n l) (numbered n (concat (map scenario_tests l))).
Proof.
  intros Hn Hl. revert n Hn. induction Hl as [|r l Hr _ IH]; intros n Hn.
  - exists []. split_and!; [reflexivity | constructor | reflexivity].
  - cbn [tap_scenarios map concat]. destruct (tap_scenario_tells n r Hn Hr) as [Ht Em].
    destruct (tap_scenario n r) as [text m]. cbn [fst snd] in *. rewrite numbered_app.
    apply tells_append; [exact Ht|]. rewrite Em. apply IH. lia.
Qed.

Lemma total_tests_count l : total_tests l = zlen (concat (map scenario_tests l)).
Proof.
  induction l as [|r l IH]; [reflexivity|]. cbn [map concat]. rewrite length_app.
  change (total_tests (r :: l)) with (junit_tests r + total_tests l). rewrite IH, <- scenario_tests_count. lia.
Qed.

(** A TAP reader finds the planned number of tests in the report, numbered from one, each
    with its name and its verdict, if the texts have no line breaks and the names no
    number signs. *)
Theorem tap_report_exact (b : BatchResult) :
  Forall plain_scenario (batch_results b) ->
  let tests := concat (map scenario_tests (batch_results b)) in
  read_tap (tap_report b) = Some (zlen tests, numbered 1 tests).
Proof.
  intros Hb tests. destruct (tap_scenarios_tell 1 _ ltac:(lia) Hb) as (ls & E & Hl & Hr). fold tests in Hr.
  assert (Et : tap_report b = text_lines (["TAP version 13"; "1.." +:+ pretty (zlen tests)] ++ ls) +:+ "").
  { unfold tap_report. rewrite E, total_tests_count. unfold text_lines. rewrite map_app, cat_app. cbn [map]. flatten. reflexivity. }
  unfold read_tap. rewrite Et, lines_text.
  2:{ apply Forall_app. split; [|exact Hl]. rewrite !Forall_cons, Forall_nil. split_and!; auto with one_line. }
  cbn [lines app]. rewrite app_nil_r. change (String.eqb "TAP version 13" "TAP version 13") with true. cbv iota.
  change (after_word "1.." ("1.." +:+ ?x)) with (Some x). cbn [mbind option_bind].
  destruct (read_natural_pretty (zlen tests) "" ltac:(lia) eq_refl) as [En _]. rewrite append_nil in En. rewrite En.
  cbn [mbind option_bind fst snd]. rewrite Hr. reflexivity.
Qed.

(** ** Reports on runs *)

Section runs.
Context (big : bool) (files : string -> option (list byte)) (creatable : string -> bool).
Context (steady system : nat -> Z) (stopped : nat -> bool).
Context {Session : Type} (create_session : string -> bool -> option Session)
  (set_filter : string -> Session -> Session) (next : Z -> Session -> option Pcap.Packet * Session).
Context (opts : RunnerOptions) (callbacks : RunnerCallbacks).

Abbreviation run_scenario :=
  (ScenarioRunner.run_scenario big files creatable steady system stopped create_session set_filter next opts callbacks).
Abbreviation run_steps :=
  (ScenarioRunner.run_steps big files steady stopped create_session set_filter next opts callbacks).

(** The only error of a run is that it was stopped. *)
Lemma run_steps_error fuel i l s error s' : run_steps fuel i l s = Done (error, s') ->
  error = "" \/ error = "Execution stopped by user".
Proof.
  revert i s. induction l as [|step l IH]; intros i s H; cbn [ScenarioRunner.run_steps] in H.
  - apply Done_pair_inj in H as [<- _]. auto.
  - destruct (stopped _); [apply Done_pair_inj in H as [<- _]; auto|].
    apply bind_inv in H as (s2 & _ & H). destruct (_ && _); [apply Done_pair_inj in H as [<- _]; auto | exact (IH _ _ H)].
Qed.

(** All tests of the TAP report on a run are ok if the scenario has passed, and also if it
    was stopped after results that all hold: such a failure is not in the report. *)
Theorem tap_verdict_of_run (fuel : nat) (sc : Scenario) (w w' : World) (res : ScenarioResult)
    (host_name : option string) (now : Tm) (ropts : ReportOptions) :
  run_scenario fuel sc w = Done (res, w') -> plain_scenario res ->
  exists n tests, read_tap (generate_single host_name now TAP res ropts) = Some (n, tests) /\
    (Forall (fun t => test_ok t = true) tests <->
     passed res = true \/
     error_message res = "Execution stopped by user" /\ expect_results res <> [] /\
     Forall (fun e => er_passed e = true) (expect_results res)).
Proof.
  intros H Hplain. eexists _, _. split.
  { apply (tap_report_exact (single res)). repeat constructor; apply Hplain. }
  cbn [single batch_results map concat]. rewrite app_nil_r.
  assert (Hn : forall k l, Forall (fun t => test_ok t = true) (numbered k l) <-> Forall (fun t => t.2 = true) l).
  { intros k l. revert k. induction l as [|t l IH]; intros k; cbn [numbered]; [rewrite !Forall_nil; reflexivity|].
    rewrite !Forall_cons, IH. reflexivity. }
  rewrite Hn. unfold scenario_tests.
  assert (Hverdict : expect_results res <> [] ->
    passed res = true /\ Forall (fun e => er_passed e = true) (expect_results res) \/
    passed res = false /\ (error_message res = "" -> ~ Forall (fun e => er_passed e = true) (expect_results res)) /\
    (error_message res = "" \/ error_message res = "Execution stopped by user")).
  { intros He. destruct (dry_run opts) eqn:Hd.
    { unfold ScenarioRunner.run_scenario in H. rewrite Hd in H. apply Done_pair_inj in H as [<- _]. contradiction He; reflexivity. }
    destruct (run_scenario_inv _ _ _ _ _ _ _ _ _ _ _ _ _ _ _ _ Hd H) as (s & Hs & Hr & Hp & _).
    rewrite Hr, Hp, <- forallb_Forall_true. apply run_steps_error in Hs.
    destruct (forallb er_passed (results s)); destruct Hs as [->| ->]; cbn;
      [left; auto | right; split_and!; auto; discriminate | right; split_and!; auto..]. }
  destruct (expect_results res) as [|e l] eqn:E.
  - rewrite Forall_singleton. cbn [snd]. split; [auto | intros [Hp|(_ & He & _)]; [exact Hp | contradiction]].
  - rewrite Forall_map. specialize (Hverdict ltac:(discriminate)). cbn [snd] in *. split.
    + intros Hall. destruct Hverdict as [[Hp _]|(_ & Hno & Herr)]; [auto|]. right.
      destruct Herr as [Herr|Herr]; [destruct (Hno Herr Hall) | split_and!; [exact Herr | discriminate | exact Hall]].
    + intros [Hp|(_ & _ & Hall)]; [|exact Hall]. destruct Hverdict as [[_ Hall]|[Hp' _]]; [exact Hall | congruence].
Qed.
End runs.

Abbreviation stopped_run :=
  (ScenarioRunner.run_scenario false sample_files (fun _ => true) sample_clock (fun _ => 7) (fun k => Nat.leb 3 k)
     (fun _ _ => Some sample_packets) (fun _ c => c) sample_next sample_options sample_callbacks 0).
Definition example_time : Tm := mkTm 124 0 5 3 4 59.

(** A run that is stopped after its first expectation: the scenario has failed, and the
    report has one test, which is ok. *)
Lemma tap_verdict_of_run_witness :
  exists res w' n tests, stopped_run sample_scenario sample_world = Done (res, w') /\ passed res = false /\
    read_tap (generate_single None example_time TAP res ReportOptions_default) = Some (n, tests) /\
    Forall (fun t => test_ok t = true) tests.
Proof.
  destruct (stopped_run sample_scenario sample_world) as [[res w']|e|] eqn:E; [|vm_compute in E; discriminate E..].
  assert (Hr : passed res = false /\ error_message res = "Execution stopped by user" /\ plain_scenario res /\
               expect_results res <> [] /\ forallb er_passed (expect_results res) = true).
  { vm_compute in E. apply Done_pair_inj in E as [<- _].
    split_and!; [reflexivity | reflexivity | split_and!; repeat constructor; discriminate | discriminate | reflexivity]. }
  destruct Hr as (Hp & He & Hplain & Hne & Hall). apply forallb_Forall_true in Hall.
  destruct (tap_verdict_of_run false sample_files (fun _ => true) sample_clock (fun _ => 7) (fun k => Nat.leb 3 k)
     (fun _ _ => Some sample_packets) (fun _ c => c) sample_next sample_options sample_callbacks
     0 sample_scenario sample_world w' res None example_time ReportOptions_default E Hplain) as (n & tests & Hread & Hok).
  exists res, w', n, tests. split_and!; [reflexivity | exact Hp | exact Hread | apply Hok; auto].
Defined.

(** A number sign in the name of a scenario starts a directive: this failing test counts as
    a known problem. *)
Example tap_directive_in_name :
  read_tap (tap_report (single (mkScenarioResult "doors # TODO lock" false [] 5 "no packets" None))) =
  Some (1, [mkTest 1 false "doors " (Some " TODO lock")]).
Proof. reflexivity. Qed.

(** A line break in a reason breaks the report. *)
Example tap_line_break :
  read_tap (tap_report (single (mkScenarioResult "doors" false [] 5 (cat ["no packets"; nl; "at all"]) None))) = None.
Proof. reflexivity. Qed.

(** The JUnit suite of a failing scenario without expectations counts no failure, although
    it contains one; the total of the tests counts scenarios. *)
Example junit_failure_not_counted :
  junit_suite ReportOptions_default "host" "now" (mkScenarioResult "doors" false [] 5 "no packets" None) =
  cat ["  <testsuite"; attribute "name" "doors"; attribute "tests" "1"; attribute "failures" "0"; attribute "errors" "0";
       attribute "skipped" "0"; attribute "timestamp" "now"; attribute "hostname" "host"; attribute "time" "0.005"; ">"; nl;
       "    <testcase"; attribute "name" "doors"; attribute "classname" "wadjet"; attribute "time" "0.005"; ">"; nl;
       "      <failure"; attribute "message" "no packets"; "/>"; nl; "    </testcase>"; nl; "  </testsuite>"; nl].
Proof. reflexivity. Qed.

(** Six significant digits: the milliseconds of a long run are lost. *)
Example seconds_rounded : seconds_text 1234567 = "1234.57" /\ seconds_text 12345678 = "12345.7" /\ seconds_text 1500 = "1.5".
Proof. split_and!; reflexivity. Qed.

(** ** XML attribute values

    The value of an attribute up to its closing quote.  Tabs and line breaks are read as
    spaces; the other control characters are no characters of XML. *)

Definition entity (s : string) : option (Z * string) :=
  match after_word "amp;" s, after_word "lt;" s, after_word "gt;" s, after_word "quot;" s, after_word "apos;" s with
  | Some r, _, _, _, _ => Some (38, r)
  | _, Some r, _, _, _ => Some (60, r)
  | _, _, Some r, _, _ => Some (62, r)
  | _, _, _, Some r, _ => Some (34, r)
  | _, _, _, _, Some r => Some (39, r)
  | _, _, _, _, _ => None
  end.

Definition xml_char (c : ascii) : option ascii :=
  let n := code c in
  if (n =? 9) || (n =? 10) || (n =? 13) then Some " "%char else if n <? 32 then None else Some c.

Fixpoint read_attribute (fuel : nat) (s : string) : option (string * string) :=
  match fuel, s with
  | S fuel, String c s' =>
      if code c =? 34 then Some ("", s')
      else if code c =? 60 then None
      else if code c =? 38 then nr ← entity s'; add_char nr.1 (read_attribute fuel nr.2)
      else x ← xml_char c; add_char (code x) (read_attribute fuel s')
  | _, _ => None
  end.

Lemma read_attribute_char fuel c t : read_attribute (S fuel) (escape_xml_char c +:+ t) =
  match xml_char c with Some x => add_char (code x) (read_attribute fuel t) | None => None end.
Proof. destruct c as [[] [] [] [] [] [] [] []]; reflexivity. Qed.

(** What an XML reader makes of a text in an attribute. *)
Fixpoint xml_text (s : string) : option string :=
  match s with
  | "" => Some ""
  | String c s' => x ← xml_char c; r ← xml_text s'; Some (String x r)
  end.

(** The attributes of the JUnit report end where their texts end, and are read as these
    texts with spaces for tabs and line breaks; a text with another control character
    makes the report ill-formed. *)
Theorem xml_attribute_exact (s rest : string) (fuel : nat) :
  (String.length s < fuel)%nat ->
  read_attribute fuel (escape_xml s +:+ (quote +:+ rest)) =
  match xml_text s with Some t => Some (t, rest) | None => None end.
Proof.
  revert fuel. induction s as [|c s IH]; intros fuel Hf; (destruct fuel as [|fuel]; [inversion Hf|]); [reflexivity|].
  change (escape_xml (String c s)) with (escape_xml_char c +:+ escape_xml s). rewrite append_assoc, read_attribute_char.
  cbn [xml_text String.length] in *. destruct (xml_char c) as [x|]; [|reflexivity]. rewrite IH by lia.
  change (Some x ≫= ?f) with (f x). cbv beta. destruct (xml_text s) as [t|]; [|reflexivity].
  cbn. rewrite code_char. reflexivity.
Qed.

Lemma xml_attribute_exact_witness :
  read_attribute 9 (escape_xml (cat ["a<b"; quote; nl; "&c"]) +:+ (quote +:+ "/>")) = Some (cat ["a<b"; quote; " &c"], "/>").
Proof. apply (xml_attribute_exact (cat ["a<b"; quote; nl; "&c"]) "/>" 9). vm_compute. lia. Defined.
