(* ===== verification/WadjetRun.v ===== *)
(** * The command-line tool (src/tools/wadjet-run.cpp)

    The options of the command line, the choice and parsing of scenario files, the list
    mode, the run with its progress output, the report and the exit code, on top of the
    runner (ScenarioRunner.v) and the reports (Report.v).  Directories, the parser of
    scenario files, and what the runner and the reports ask for are parameters. *)

From Stdlib Require Import ZArith Lia.
From Stdlib Require Import Strings.Byte Strings.Ascii.
From stdpp Require Import base numbers list strings sorting pretty.
From S2P Require Import Prelude Pcap ScenarioRunner Report.

(** ** Options *)

Record Options := mkToolOptions {
  files : list string;
  directory : string;
  output_file : string;
  report_format : ReportFormat;
  pcap_dir : string;
  wanted_tags : list string;
  timeout : Z;
  opt_verbose : bool;
  quiet : bool;
  opt_dry_run : bool;
  stop_on_failure : bool;
  save_pcap : bool;
  list_only : bool;
  show_help : bool;
  show_version : bool
}.
Definition Options_default : Options :=
  mkToolOptions [] "" "" Text "." [] 60000 false false false false true false false false.

(** Assignments to the fields. *)
Definition add_file (x : string) (o : Options) : Options :=
  mkToolOptions (files o ++ [x]) (directory o) (output_file o) (report_format o) (pcap_dir o) (wanted_tags o) (timeout o)
    (opt_verbose o) (quiet o) (opt_dry_run o) (stop_on_failure o) (save_pcap o) (list_only o) (show_help o) (show_version o).
Definition set_directory (x : string) (o : Options) : Options :=
  mkToolOptions (files o) x (output_file o) (report_format o) (pcap_dir o) (wanted_tags o) (timeout o)
    (opt_verbose o) (quiet o) (opt_dry_run o) (stop_on_failure o) (save_pcap o) (list_only o) (show_help o) (show_version o).
Definition set_output_file (x : string) (o : Options) : Options :=
  mkToolOptions (files o) (directory o) x (report_format o) (pcap_dir o) (wanted_tags o) (timeout o)
    (opt_verbose o) (quiet o) (opt_dry_run o) (stop_on_failure o) (save_pcap o) (list_only o) (show_help o) (show_version o).
Definition set_report_format (x : ReportFormat) (o : Options) : Options :=
  mkToolOptions (files o) (directory o) (output_file o) x (pcap_dir o) (wanted_tags o) (timeout o)
    (opt_verbose o) (quiet o) (opt_dry_run o) (stop_on_failure o) (save_pcap o) (list_only o) (show_help o) (show_version o).
Definition set_pcap_dir (x : string) (o : Options) : Options :=
  mkToolOptions (files o) (directory o) (output_file o) (report_format o) x (wanted_tags o) (timeout o)
    (opt_verbose o) (quiet o) (opt_dry_run o) (stop_on_failure o) (save_pcap o) (list_only o) (show_help o) (show_version o).
Definition add_tag (x : string) (o : Options) : Options :=
  mkToolOptions (files o) (directory o) (output_file o) (report_format o) (pcap_dir o) (wanted_tags o ++ [x]) (timeout o)
    (opt_verbose o) (quiet o) (opt_dry_run o) (stop_on_failure o) (save_pcap o) (list_only o) (show_help o) (show_version o).
Definition set_timeout (x : Z) (o : Options) : Options :=
  mkToolOptions (files o) (directory o) (output_file o) (report_format o) (pcap_dir o) (wanted_tags o) x
    (opt_verbose o) (quiet o) (opt_dry_run o) (stop_on_failure o) (save_pcap o) (list_only o) (show_help o) (show_version o).
(** The switches in the order help, version, verbose, quiet, dry run, stop, no capture, list. *)
Inductive Switch := Help | Version | Verbose | Quiet | DryRun | StopOnFailure | NoPcap | List.
Definition switch (s : Switch) (o : Options) : Options :=
  let sets t := match s, t with
    | Help, Help | Version, Version | Verbose, Verbose | Quiet, Quiet | DryRun, DryRun
    | StopOnFailure, StopOnFailure | NoPcap, NoPcap | List, List => true
    | _, _ => false end in
  mkToolOptions (files o) (directory o) (output_file o) (report_format o) (pcap_dir o) (wanted_tags o) (timeout o)
    (sets Verbose || opt_verbose o) (sets Quiet || quiet o) (sets DryRun || opt_dry_run o) (sets StopOnFailure || stop_on_failure o)
    (negb (sets NoPcap) && save_pcap o) (sets List || list_only o) (sets Help || show_help o) (sets Version || show_version o).

Definition parse_format (str : string) : ReportFormat :=
  if String.eqb str "junit" || String.eqb str "xml" then JUnitXML
  else if String.eqb str "json" then JSON
  else if String.eqb str "tap" then TAP
  else Text.

(** [std::stoll]: white space, a sign, digits; [None] is an exception, when there are no
    digits or the number does not fit 64 bits. *)
Definition is_space (c : ascii) : bool := (code c =? 32) || ((9 <=? code c) && (code c <=? 13)).
Definition is_digit (c : ascii) : bool := (48 <=? code c) && (code c <=? 57).
Fixpoint skip_space (l : list ascii) : list ascii :=
  match l with c :: l' => if is_space c then skip_space l' else l | [] => [] end.
Fixpoint digits (n : Z) (l : list ascii) : Z :=
  match l with c :: l' => if is_digit c then digits (10 * n + (code c - 48)) l' else n | [] => n end.
Definition magnitude (l : list ascii) : option Z :=
  match l with c :: _ => if is_digit c then Some (digits 0 l) else None | [] => None end.
Definition stoll (str : string) : option Z :=
  let l := skip_space (String.list_ascii_of_string str) in
  n ← (match l with
       | c :: l' =>
           if Ascii.eqb c "-" then Z.opp <$> magnitude l'
           else if Ascii.eqb c "+" then magnitude l' else magnitude l
       | [] => None
       end);
  if (- 2 ^ 63 <=? n) && (n <? 2 ^ 63) then Some n else None.

(** The parsed options, the argument that ends the program, or an exception. *)
Inductive Parsed := ParsedOptions (o : Options) | UnknownOption (arg : string) | Thrown.

Definition any_of (arg : string) (names : list string) : bool := existsb (String.eqb arg) names.
Definition switches : list (list string * Switch) :=
  [(["-h"; "--help"], Help); (["-V"; "--version"], Version); (["-v"; "--verbose"], Verbose); (["-q"; "--quiet"], Quiet);
   (["--dry-run"], DryRun); (["--stop-on-failure"], StopOnFailure); (["--no-pcap"], NoPcap); (["-l"; "--list"], List)].
Definition find_switch (arg : string) : option Switch := snd <$> List.find (fun s => any_of arg s.1) switches.

(** The options with a value; [None] where the conversion of the value throws. *)
Definition valued (arg : string) : option (string -> Options -> option Options) :=
  if any_of arg ["--timeout"] then Some (fun v o => n ← stoll v; Some (set_timeout n o))
  else if any_of arg ["-o"; "--output"] then Some (fun v o => Some (set_output_file v o))
  else if any_of arg ["-f"; "--format"] then Some (fun v o => Some (set_report_format (parse_format v) o))
  else if any_of arg ["--pcap-dir"] then Some (fun v o => Some (set_pcap_dir v o))
  else if any_of arg ["-t"; "--tag"] then Some (fun v o => Some (add_tag v o))
  else if any_of arg ["-d"; "--dir"] then Some (fun v o => Some (set_directory v o))
  else None.

(** [arg[0] != '-'], which holds of the empty argument. *)
Definition is_file_argument (arg : string) : bool :=
  match arg with String c _ => negb (Ascii.eqb c "-") | EmptyString => true end.

(** The loop over the arguments behind the program name. *)
Fixpoint parse_args (args : list string) (o : Options) : Parsed :=
  match args with
  | [] => ParsedOptions o
  | arg :: args =>
      match find_switch arg with
      | Some s => parse_args args (switch s o)
      | None =>
          match valued arg, args with
          | Some set, v :: args => match set v o with Some o => parse_args args o | None => Thrown end
          | _, _ => if is_file_argument arg then parse_args args (add_file arg o) else UnknownOption arg
          end
      end
  end.

(** ** Texts *)

Definition print_usage (program : string) : string :=
  cat (map (fun line => cat [line; nl])
    [""; "𓆓 Wadjet-Link Scenario Runner"; ""; "Usage:";
     cat ["  "; program; " [options] <scenario-file>..."];
     cat ["  "; program; " [options] --dir <directory>"]; ""; "Options:";
     "  -h, --help              Show this help message";
     "  -V, --version           Show version information";
     "  -v, --verbose           Enable verbose output";
     "  -q, --quiet             Suppress all output except errors";
     "  --dry-run               Parse and validate scenarios without running";
     "  --stop-on-failure       Stop at first failed expectation";
     "  --timeout <ms>          Global timeout in milliseconds (default: 60000)";
     "  -o, --output <file>     Write report to file";
     "  -f, --format <fmt>      Report format: junit, json, text, tap (default: text)";
     "  --pcap-dir <dir>        Directory for failure pcap files (default: .)";
     "  --no-pcap               Don't save pcap files on failure";
     "  -t, --tag <tag>         Only run scenarios with this tag (repeatable)";
     "  -d, --dir <directory>   Run all scenarios in directory";
     "  -l, --list              List scenarios without running them"; ""; "Examples:";
     "  # Run a single scenario"; cat ["  "; program; " test.yaml"]; "";
     "  # Run all scenarios in a directory"; cat ["  "; program; " --dir scenarios/"]; "";
     "  # Run scenarios with specific tag and generate JUnit report";
     cat ["  "; program; " --tag smoke -f junit -o results.xml scenarios/"]; "";
     "  # Dry run to validate scenario files"; cat ["  "; program; " --dry-run --dir scenarios/"]]).

Definition print_version : string :=
  cat ["wadjet-run version "; "0.1.0"; nl; "Part of Wadjet-Link - Automotive Ethernet validation framework"; nl].

(** A path on a stream: in quotes, with backslashes before quotes and backslashes. *)
Definition quoted_path (path : string) : string :=
  quoted (map_chars (fun c => if (code c =? 34) || (code c =? 92) then String "\" (String c "") else String c "") path).

Definition list_scenario (sc : Scenario) : string :=
  cat ["  "; name sc; nl;
       if String.eqb (scenario_description sc) "" then "" else cat ["    Description: "; scenario_description sc; nl];
       if zlen (tags sc) =? 0 then "" else cat ["    Tags: "; String.concat ", " (tags sc); nl];
       "    Steps: "; pretty (zlen (steps sc)); nl;
       "    Expectations: "; pretty (zlen (get_expectations sc)); nl; nl].
Definition list_scenarios (scenarios : list Scenario) : string :=
  cat ["Found "; pretty (zlen scenarios); " scenario(s):"; nl; nl; cat (map list_scenario scenarios)].

(** ** The program *)

(** What a directory argument names; the entries with whether each is a regular file. *)
Inductive Directory := NotFound | NotADirectory | Entries (l : list (string * bool)).

(** The order of [std::filesystem::path] on the entries of one directory: that of their
    bytes. *)
Definition path_le (a b : string) : Prop := String.leb a b = true.
#[export] Instance path_le_dec : RelDecision path_le := fun a b => decide (String.leb a b = true).
Definition sort_paths (l : list string) : list string := merge_sort path_le l.

(** An exit code, or the end by an exception that nothing catches. *)
Inductive Exit := ExitCode (n : Z) | Uncaught.

Record Outcome := mkOutcome {
  exit : Exit;
  stdout : string;
  stderr : string;
  report : option (string * string);
  run_results : list ScenarioResult;
  end_world : World
}.

Section tool.
(** The parameters of the runner, with the capture session. *)
Context (big : bool) (captures : string -> option (list byte)) (creatable : string -> bool).
Context (steady system : nat -> Z) {Session : Type} (create_session : string -> bool -> option Session)
  (set_filter : string -> Session -> Session) (next : Z -> Session -> option Packet * Session).
(** The parser of scenario files with the text of its error, the directories, and what
    reports are stamped with. *)
Context (parse_scenario_file : string -> string + Scenario) (directories : string -> Directory).
Context (host_name : option string) (now : Tm).

(** The files of the directory, sorted, and those of the command line. *)
Definition collect (o : Options) : Exit * string + list string :=
  if String.eqb (directory o) "" then inr (files o)
  else
    match directories (directory o) with
    | NotFound => inl (ExitCode 1, cat ["Error: Directory not found: "; quoted_path (directory o); nl])
    | NotADirectory => inl (Uncaught, "")
    | Entries l => inr (sort_paths (map fst (List.filter is_scenario_file l)) ++ files o)
    end.

(** The loop that parses the files: the scenarios, whether there were errors, and the
    output on both streams. *)
Fixpoint parse_files (o : Options) (l : list string) : list Scenario * bool * string * string :=
  match l with
  | [] => ([], false, "", "")
  | file :: l' =>
      let '(scenarios, errors, out, err) := parse_files o l' in
      match parse_scenario_file file with
      | inl e => (scenarios, true, out, cat ["Error parsing "; quoted_path file; ": "; e; nl; err])
      | inr sc =>
          if negb (zlen (wanted_tags o) =? 0) && negb (has_tag (wanted_tags o) sc)
          then (scenarios, errors,
                if opt_verbose o then cat ["Skipping "; quoted_path file; " (no matching tags)"; nl; out] else out, err)
          else (sc :: scenarios, errors, out, err)
      end
  end.

Definition runner_options (o : Options) : RunnerOptions :=
  mkRunnerOptions (opt_verbose o) (save_pcap o) (pcap_dir o) (opt_dry_run o) (stop_on_failure o) (timeout o).
Definition callbacks (o : Options) : RunnerCallbacks :=
  if quiet o then mkCallbacks false false false false false false
  else mkCallbacks true true false true true false.

(** What the callbacks print, and what the runner itself writes to stderr. *)
Definition progress (verbose : bool) (e : Event) : string :=
  match e with
  | ScenarioStart n => if verbose then cat ["Running: "; n; nl] else ""
  | ScenarioEnd r => if negb verbose then cat [if passed r then "[PASS]" else "[FAIL]"; " "; scenario_name r; nl] else ""
  | ExpectDone r => if verbose then cat [if er_passed r then "  [PASS]" else "  [FAIL]"; " "; er_description r; nl] else ""
  | Log message => if verbose then cat [message; nl] else ""
  | _ => ""
  end.
Definition diagnostics (e : Event) : string := match e with Stderr line => cat [line; nl] | _ => "" end.

(** The loop that counts the results. *)
Definition count_result (b : BatchResult) (r : ScenarioResult) : BatchResult :=
  mkBatch (batch_results b) (batch_elapsed b + total_elapsed r)
    (if passed r then uint 64 (batch_passed b + 1) else batch_passed b)
    (if passed r then batch_failed b else uint 64 (batch_failed b + 1)) (batch_skipped b).
Definition batch_of (results : list ScenarioResult) : BatchResult :=
  fold_left count_result results (mkBatch results 0 0 0 0).

Definition write_report (o : Options) (batch : BatchResult) : option (string * string) * string * string :=
  if String.eqb (output_file o) "" then (None, "", "")
  else
    match generate_report host_name now (output_file o) (creatable (output_file o)) batch (report_format o) ReportOptions_default with
    | inr contents =>
        (Some (output_file o, contents),
         if quiet o then "" else cat [nl; "Report written to: "; quoted_path (output_file o); nl], "")
    | inl e => (None, "", cat ["Error writing report: "; e; nl])
    end.

Definition summary (o : Options) (batch : BatchResult) : string :=
  if quiet o then ""
  else cat [nl; "---"; nl; "Total: "; pretty (total batch); " | Passed: "; pretty (batch_passed batch);
            " | Failed: "; pretty (batch_failed batch); nl; "Duration: "; pretty (batch_elapsed batch); "ms"; nl].

(** From the configuration of the runner on; nothing stops it. *)
Definition run_scenarios (fuel : nat) (o : Options) (scenarios : list Scenario) (out err : string) (w : World)
    : step_run Outcome :=
  rw ← run_all big captures creatable steady system (fun _ => false) create_session set_filter next (runner_options o)
         (callbacks o) fuel scenarios w;
  let (results, w') := rw : list ScenarioResult * World in
  let events := skipn (length (trace w)) (trace w') in
  let batch := batch_of results in
  let '(file, report_out, report_err) := write_report o batch in
  Done (mkOutcome (ExitCode (if 0 <? batch_failed batch then 1 else 0))
          (cat [out; cat (map (progress (opt_verbose o)) events); report_out; summary o batch])
          (cat [err; cat (map diagnostics events); report_err]) file results w').

Definition main (fuel : nat) (program : string) (args : list string) (w : World) : step_run Outcome :=
  let ended code out err := Done (mkOutcome code out err None [] w) in
  match parse_args args Options_default with
  | Thrown => ended Uncaught "" ""
  | UnknownOption arg =>
      ended (ExitCode 1) "" (cat ["Unknown option: "; arg; nl; "Use --help for usage information."; nl])
  | ParsedOptions o =>
      if show_help o then ended (ExitCode 0) (print_usage program) ""
      else if show_version o then ended (ExitCode 0) print_version ""
      else
        match collect o with
        | inl (code, err) => ended code "" err
        | inr scenario_files =>
            if zlen scenario_files =? 0
            then ended (ExitCode 1) "" (cat ["Error: No scenario files specified."; nl; "Use --help for usage information."; nl])
            else
              let '(scenarios, parse_errors, out, err) := parse_files o scenario_files in
              if parse_errors && (zlen scenarios =? 0) then ended (ExitCode 1) out err
              else if list_only o then ended (ExitCode 0) (out +:+ list_scenarios scenarios) err
              else run_scenarios fuel o scenarios out err w
        end
  end.
End tool.

(** * Properties *)

Section tool_spec.
Context (big : bool) (captures : string -> option (list byte)) (creatable : string -> bool).
Context (steady system : nat -> Z) {Session : Type} (create_session : string -> bool -> option Session)
  (set_filter : string -> Session -> Session) (next : Z -> Session -> option Packet * Session).
Context (parse_scenario_file : string -> string + Scenario) (directories : string -> Directory).
Context (host_name : option string) (now : Tm).
Local Abbreviation main := (main big captures creatable steady system create_session set_filter next
  parse_scenario_file directories host_name now).
Local Abbreviation collect := (collect directories).
Local Abbreviation parse_files := (parse_files parse_scenario_file).

(** ** The scenarios that are run *)

Definition parses (file : string) : Prop := exists sc, parse_scenario_file file = inr sc.
Definition wanted (o : Options) (sc : Scenario) : bool := (zlen (wanted_tags o) =? 0) || has_tag (wanted_tags o) sc.
(** The scenario of a file, if it can be parsed and has a wanted tag. *)
Definition chosen (o : Options) (file : string) : option Scenario :=
  match parse_scenario_file file with inr sc => if wanted o sc then Some sc else None | inl _ => None end.

Lemma parse_files_exact o l scenarios errors out err :
  parse_files o l = (scenarios, errors, out, err) ->
  scenarios = omap (chosen o) l /\ (errors = false <-> Forall parses l).
Proof.
  revert scenarios errors out err. induction l as [|file l IH]; intros scenarios errors out err; cbn [WadjetRun.parse_files].
  - intros [= <- <- _ _]. split; [reflexivity|]. split; [constructor | reflexivity].
  - destruct (parse_files o l) as [[[s1 e1] o1] r1]. destruct (IH _ _ _ _ eq_refl) as [-> He].
    cbn [omap list_omap]. rewrite Forall_cons.
    assert (Ec : chosen o file = match parse_scenario_file file with inr sc => if wanted o sc then Some sc else None | inl _ => None end)
      by reflexivity.
    assert (Ep : parses file <-> exists sc, parse_scenario_file file = inr sc) by reflexivity.
    rewrite Ec, Ep. destruct (parse_scenario_file file) as [e|sc].
    + intros [= <- <- _ _]. split; [reflexivity|]. split; [discriminate | intros [[sc [=]] _]].
    + rewrite <- negb_orb. unfold wanted. destruct (_ || _); cbn [negb]; intros [= <- <- _ _]; (split; [reflexivity|]);
        rewrite He; (split; [eauto | intros [_ H]; exact H]).
Qed.

Lemma chosen_length o l : (length (omap (chosen o) l) <= length l)%nat.
Proof. induction l as [|file l IH]; cbn; [lia|]. destruct (chosen o file); cbn; lia. Qed.

(** ** Results and counts *)

Lemma tool_scenario_name opts callbacks fuel sc w r w' :
  run_scenario big captures creatable steady system (fun _ => false) create_session set_filter next opts callbacks fuel sc w =
    Done (r, w') -> scenario_name r = name sc.
Proof.
  unfold run_scenario. destruct (dry_run opts); [intros H; apply Done_pair_inj in H as [<- _]; reflexivity|].
  intros H. apply bind_inv in H as ([error s] & _ & H).
  destruct (if negb _ && _ && _ then _ else _) as [pcap w1]. apply Done_pair_inj in H as [<- _]. reflexivity.
Qed.

Lemma run_all_names opts callbacks fuel l w rs w' :
  run_all big captures creatable steady system (fun _ => false) create_session set_filter next opts callbacks fuel l w =
    Done (rs, w') -> map scenario_name rs = map name l.
Proof.
  revert w rs w'. induction l as [|sc l IH]; intros w rs w'; cbn [run_all].
  - intros H. apply Done_pair_inj in H as [<- _]. reflexivity.
  - intros H. apply bind_inv in H as ([r w1] & Hr & H). apply bind_inv in H as ([rs1 w2] & Hrs & H).
    apply Done_pair_inj in H as [<- _]. cbn [map fst snd] in *. f_equal; [eapply tool_scenario_name, Hr | eapply IH, Hrs].
Qed.

Lemma batch_of_exact results :
  zlen results < 2 ^ 64 ->
  batch_results (batch_of results) = results /\
  batch_passed (batch_of results) = zlen (List.filter passed results) /\
  batch_failed (batch_of results) = zlen (List.filter (fun r => negb (passed r)) results) /\
  total (batch_of results) = zlen results.
Proof.
  intros Hlen. unfold batch_of.
  enough (forall b, 0 <= batch_passed b -> 0 <= batch_failed b -> batch_passed b + batch_failed b + zlen results < 2 ^ 64 ->
    let b' := fold_left count_result results b in
    batch_results b' = batch_results b /\ batch_skipped b' = batch_skipped b /\
    batch_passed b' = batch_passed b + zlen (List.filter passed results) /\
    batch_failed b' = batch_failed b + zlen (List.filter (fun r => negb (passed r)) results) /\
    batch_passed b' + batch_failed b' = batch_passed b + batch_failed b + zlen results) as H.
  { destruct (H (mkBatch results 0 0 0 0)) as (H1 & H2 & H3 & H4 & H5); cbn; try lia.
    cbn in H1, H2, H3, H4, H5. unfold total. rewrite H1, H2, H3, H4. split_and!; try reflexivity. lia. }
  clear Hlen. induction results as [|r results IH]; intros b Hp Hf Hb; cbn [fold_left List.filter length];
    [cbn; split_and!; try reflexivity; lia|].
  cbn [length] in Hb.
  assert (Hs : batch_results (count_result b r) = batch_results b /\ batch_skipped (count_result b r) = batch_skipped b /\
    batch_passed (count_result b r) = batch_passed b + (if passed r then 1 else 0) /\
    batch_failed (count_result b r) = batch_failed b + (if passed r then 0 else 1)).
  { unfold count_result. destruct (passed r); cbn; rewrite uint_small by (unfold fits; lia); split_and!; try reflexivity; lia. }
  destruct Hs as (S1 & S2 & S3 & S4).
  destruct (IH (count_result b r)) as (H1 & H2 & H3 & H4 & H5); [destruct (passed r); lia .. |].
  cbv zeta. rewrite H1, H2, H3, H4, S1, S2, S3, S4. destruct (passed r); cbn [negb length]; split_and!; try reflexivity; lia.
Qed.

Lemma none_failed results :
  zlen (List.filter (fun r => negb (passed r)) results) = 0 <-> Forall (fun r => passed r = true) results.
Proof.
  induction results as [|r results IH]; cbn; [split; [constructor | reflexivity]|].
  rewrite Forall_cons. destruct (passed r); cbn [negb length]; [rewrite IH; tauto|]. split; [lia | intros [[=] _]].
Qed.

(** [C20] The exit code of a run with files.  It is 0 exactly if some file could be parsed and
    is wanted, or all could be parsed, and, unless the scenarios are only listed, every
    scenario that is wanted and could be parsed was run and passed.  So neither a file
    that cannot be parsed next to one that can, nor a tag that no scenario has, is a
    failure. *)
Theorem exit_code_exact (fuel : nat) (program : string) (args : list string) (w : World) (o : Options)
    (l : list string) (out : Outcome) :
  parse_args args Options_default = ParsedOptions o -> show_help o = false -> show_version o = false ->
  collect o = inr l -> zlen l < 2 ^ 64 ->
  main fuel program args w = Done out ->
  exit out = ExitCode 0 <->
    l <> [] /\ (omap (chosen o) l <> [] \/ Forall parses l) /\
    (list_only o = false ->
     map scenario_name (run_results out) = map name (omap (chosen o) l) /\
     Forall (fun r => passed r = true) (run_results out)).
Proof.
  intros Ho Hh Hv Hl Hlen H. unfold WadjetRun.main in H. rewrite Ho, Hh, Hv, Hl in H.
  destruct (Z.eqb_spec (zlen l) 0) as [Hz|Hz].
  { apply Done_inj in H as <-. cbn. split; [discriminate | intros [Hne _]]. destruct l; [contradiction | discriminate Hz]. }
  assert (Hne : l <> []) by (intros ->; apply Hz; reflexivity).
  destruct (parse_files o l) as [[[scenarios errors] out1] err1] eqn:Hp. apply parse_files_exact in Hp as [-> He].
  set (scenarios := omap (chosen o) l) in *.
  assert (Hemp : zlen scenarios = 0 <-> scenarios = []) by (destruct scenarios; cbn; split; (reflexivity || discriminate)).
  destruct (errors && (zlen scenarios =? 0)) eqn:Hbad.
  { apply Done_inj in H as <-. bool_to_prop. subst errors. cbn. split; [discriminate|]. intros (_ & [Hs|Hs] & _); [tauto|].
    apply He in Hs. discriminate Hs. }
  assert (Hgood : scenarios <> [] \/ Forall parses l).
  { apply andb_false_iff in Hbad as [->|Hbad]; [right; apply He; reflexivity | left]. apply Z.eqb_neq in Hbad. tauto. }
  destruct (list_only o).
  { apply Done_inj in H as <-. cbn. split; [intros _; split; [exact Hne|]; split; [exact Hgood | discriminate] | reflexivity]. }
  apply bind_inv in H as ([results w1] & Hrun & H). cbv zeta in H. destruct (write_report creatable host_name now o (batch_of results)) as [[file rout] rerr].
  apply Done_inj in H as <-. cbn [exit run_results]. pose proof (run_all_names _ _ _ _ _ _ _ Hrun) as Hnames.
  assert (Hr : zlen results < 2 ^ 64).
  { apply (f_equal length) in Hnames. rewrite !length_map in Hnames. rewrite Hnames. unfold scenarios.
    pose proof (chosen_length o l). lia. }
  destruct (batch_of_exact results Hr) as (_ & _ & Hfailed & _). rewrite Hfailed.
  pose proof (none_failed results) as Hnone. destruct (Z.ltb_spec 0 (zlen (List.filter (fun r => negb (passed r)) results))).
  - split; [discriminate|]. intros (_ & _ & Hall). destruct (Hall eq_refl) as [_ Hall']. apply Hnone in Hall'. lia.
  - split; [intros _; split; [exact Hne|]; split; [exact Hgood|]; intros _; split; [exact Hnames | apply Hnone; lia] | reflexivity].
Qed.
End tool_spec.

(** ** Examples *)

Definition passing_scenario : Scenario := mkScenario "good" "" "1.0" ["smoke"] 30000 [WaitStep 5].
Definition sample_parser (file : string) : string + Scenario :=
  if String.eqb file "a.yaml" || String.eqb file "dir/c.json" then inr passing_scenario
  else if String.eqb file "dir/b.yml" then inr (ScenarioRunner.sample_scenario) else inl "bad file".
Definition sample_directories (path : string) : Directory :=
  if String.eqb path "dir" then Entries [("dir/c.json", true); ("dir/b.yml", true); ("dir/d.txt", true)] else NotFound.
Definition sample_time : Tm := mkTm 125 0 2 3 4 5.
Definition sample_main (args : list string) : step_run Outcome :=
  main false sample_files (fun _ => true) sample_clock (fun _ => 7) (fun _ _ => Some sample_packets) (fun _ c => c) sample_next
    sample_parser sample_directories None sample_time 10 "wadjet-run" args sample_world.

(** A file that cannot be parsed is reported on stderr, and the program succeeds. *)
Lemma exit_code_exact_witness :
  exists out, sample_main ["a.yaml"; "broken.yaml"] = Done out /\ exit out = ExitCode 0 /\
    sample_parser "broken.yaml" = inl "bad file".
Proof.
  destruct (sample_main ["a.yaml"; "broken.yaml"]) as [out|e|] eqn:E; [|vm_compute in E; discriminate E ..].
  exists out. split; [reflexivity|]. split; [|reflexivity].
  apply (exit_code_exact false sample_files (fun _ => true) sample_clock (fun _ => 7) (fun _ _ => Some sample_packets) (fun _ c => c)
    sample_next sample_parser sample_directories None sample_time 10 "wadjet-run" ["a.yaml"; "broken.yaml"] sample_world
    (add_file "broken.yaml" (add_file "a.yaml" Options_default)) ["a.yaml"; "broken.yaml"] out);
    [reflexivity | reflexivity | reflexivity | reflexivity | cbn; lia | exact E |].
  split; [discriminate|]. split; [left; discriminate|]. intros _. vm_compute in E. injection E as <-.
  split; [reflexivity | repeat constructor].
Defined.

(** The files of a directory are sorted and filtered by their extension. *)
Example directory_files :
  match sample_main ["--dir"; "dir"; "-q"; "--no-pcap"] with
  | Done out => map scenario_name (run_results out) = ["a b"; "good"] /\ exit out = ExitCode 1 /\ stdout out = ""
  | _ => False
  end.
Proof. vm_compute. auto. Qed.

(** A tag that nothing has is not a failure; a number that is none ends the program. *)
Example odd_arguments :
  match sample_main ["a.yaml"; "-t"; "nightly"] with Done out => exit out = ExitCode 0 /\ run_results out = [] | _ => False end /\
  match sample_main ["--timeout"; "soon"; "a.yaml"] with Done out => exit out = Uncaught | _ => False end /\
  match sample_main ["a.yaml"; "--timeout"] with Done out => exit out = ExitCode 1 | _ => False end.
Proof. vm_compute. auto. Qed.

Example numbers : stoll " -12ms" = Some (-12) /\ stoll "9223372036854775808" = None /\ stoll "+" = None.
Proof. auto. Qed.

(** With [--verbose] the verdict of a scenario without expectations is not printed. *)
Example verbose_run :
  match sample_main ["-v"; "a.yaml"] with
  | Done out => stdout out = cat ["Running: good"; nl; nl; "---"; nl; "Total: 1 | Passed: 1 | Failed: 0"; nl; "Duration: 100ms"; nl]
  | _ => False
  end.
Proof. vm_compute. reflexivity. Qed.
