(* ===== verification/CApi.v ===== *)
(** * The C interface (bindings/c/src/wadjet_c.cpp): handles, packets, files, captures

    [wadjet_c.cpp] wraps the objects of the library in handles.  This file models the
    state behind the interface, the last error, handles and their life, and the functions
    on packets, capture files, devices, capture sessions and validators; CApiDecode.v has
    decoding, the diagnostic functions and the text of addresses, and CApiHandles.v the
    discipline that a caller has to keep.

    - A pointer is an [option], with [None] for [NULL].  An input buffer with its length is
      a list of bytes, and so is a pointer with a length that a function returns: it is
      what the caller reads there as long as the object it points into is unchanged.
    - An output parameter is a [bool], whether the pointer is not null; what a function
      writes through it is part of its result, [None] where it writes nothing.
    - A handle is an address of [heap].  Any use of an address that holds no object of the
      kind is undefined, so a use after [destroy] and a second [destroy] are.  Addresses
      are not reused.
    - [new (std::nothrow)] fails where [enough_memory] says so.  The other allocations
      succeed.
    - wadjet_c.h declares [wadjet_validation_result_t] twice with different types and does
      not compile as it is; the model takes the first declaration, on which the prototypes
      of [wadjet_validation_result_destroy] and the three validating functions agree. *)

From Stdlib Require Import ZArith Lia.
From Stdlib Require Import Strings.Byte.
From stdpp Require Import base numbers list gmap strings.
From S2P Require Import Prelude World Pcap.
From S2P Require Decoder Dispatcher Ipv4 SomeIp UdsSession DiagnosticSession Validation Devices Capture CaptureSetup.

(** ** Error codes *)

Definition WADJET_OK : Z := 0.
Definition WADJET_ERR_INVALID_ARGUMENT : Z := 1.
Definition WADJET_ERR_NOT_FOUND : Z := 2.
Definition WADJET_ERR_PERMISSION : Z := 3.
Definition WADJET_ERR_IO : Z := 4.
Definition WADJET_ERR_TIMEOUT : Z := 5.
Definition WADJET_ERR_DECODE : Z := 6.
Definition WADJET_ERR_INVALID_STATE : Z := 7.
Definition WADJET_ERR_OUT_OF_MEMORY : Z := 8.
Definition WADJET_ERR_NOT_SUPPORTED : Z := 9.
Definition WADJET_ERR_UNKNOWN : Z := 99.

Definition wadjet_error_message (error : Z) : string :=
  if error =? WADJET_OK then "Success"
  else if error =? WADJET_ERR_INVALID_ARGUMENT then "Invalid argument"
  else if error =? WADJET_ERR_NOT_FOUND then "Resource not found"
  else if error =? WADJET_ERR_PERMISSION then "Permission denied"
  else if error =? WADJET_ERR_IO then "I/O error"
  else if error =? WADJET_ERR_TIMEOUT then "Operation timed out"
  else if error =? WADJET_ERR_DECODE then "Protocol decode error"
  else if error =? WADJET_ERR_INVALID_STATE then "Invalid state"
  else if error =? WADJET_ERR_OUT_OF_MEMORY then "Memory allocation failed"
  else if error =? WADJET_ERR_NOT_SUPPORTED then "Operation not supported"
  else "Unknown error".

(** The values of errno.h on Linux. *)
Definition EPERM : Z := 1.
Definition ENOENT : Z := 2.
Definition EIO : Z := 5.
Definition EACCES : Z := 13.
Definition EINVAL : Z := 22.
Definition ETIMEDOUT : Z := 110.

(** The error codes of [handle_result]. *)
Definition error_of_errno (code : Z) : Z :=
  if code =? ENOENT then WADJET_ERR_NOT_FOUND
  else if (code =? EACCES) || (code =? EPERM) then WADJET_ERR_PERMISSION
  else if code =? EINVAL then WADJET_ERR_INVALID_ARGUMENT
  else if code =? ETIMEDOUT then WADJET_ERR_TIMEOUT
  else if code =? EIO then WADJET_ERR_IO
  else WADJET_ERR_UNKNOWN.

(** ** The rest of the library and the system *)

(** [io::CaptureSession], whose implementation Capture.v and CaptureSetup.v model. *)
Class CaptureSessions (W Session : Type) := {
  create_session : string -> CaptureSetup.CaptureSessionOptions -> io W (outcome Session);
  destroy_session : Session -> io W unit;
  session_set_filter : string -> Session -> io W (outcome unit * Session);
  session_start : Session -> io W (outcome unit * Session);
  session_stop : Session -> io W Session;
  session_is_running : Session -> bool;
  session_next_packet : Z -> Session -> io W (option Packet * Session);
  session_stats : Session -> io W Capture.CaptureStats
}.

(** Files: the contents, if the file can be opened, and whether it can be created. *)
Class Files (W : Type) := {
  read_file : string -> W -> option (list byte) * W;
  create_file : string -> W -> bool * W
}.

(** The readings of [std::chrono::steady_clock] during a call, and of the system clock in
    nanoseconds. *)
Class Clocks (W : Type) := {
  steady_clock : W -> (nat -> Z) * W;
  system_clock : W -> Z * W
}.

(** ** Handles *)

(** What the C callback of a manager received. *)
Record wadjet_diagnostic_session_state := mkSessionState {
  ss_tester_address : Z;
  ss_gateway_address : Z;
  ss_session_type : Z;
  ss_session_active : bool;
  ss_routing_active : bool;
  ss_security_level : Z;
  ss_p2_server_max_ms : Z;
  ss_p2_star_server_max_ms : Z;
  ss_requests_sent : Z;
  ss_responses_received : Z;
  ss_negative_responses : Z;
  ss_timeouts : Z
}.
Record Delivery := mkDelivery {
  dl_callback : Z;
  dl_event : DiagnosticSession.DiagnosticEvent;
  dl_state : wadjet_diagnostic_session_state;
  dl_user_data : option Z
}.

(** [struct wadjet_diagnostic_session_manager]; a callback is a number. *)
Record ManagerHandle := mkManagerHandle {
  mh_manager : DiagnosticSession.DiagnosticSessionManager;
  mh_callback : option Z;
  mh_user_data : option Z
}.

Inductive Kind :=
| CaptureKind | ReaderKind | WriterKind | PacketKind | DecodeKind | DevicesKind | DecoderKind | ValidatorKind
| SessionKind | ManagerKind.
#[export] Instance Kind_eq_dec : EqDecision Kind.
Proof. solve_decision. Defined.

(** The structures behind the handles.  A decoder has no state, and no function creates
    an object of type [wadjet_validation_result]. *)
Inductive object (Session : Type) :=
| CaptureObject (session : Session) (interface_name : string)
| ReaderObject (reader : PcapReader)
| WriterObject (writer : PcapWriter)
| PacketObject (packet : Packet)
| DecodeObject (result : Dispatcher.DecodeStackResult)
| DevicesObject (devices : list Devices.NetworkDevice)
| DecoderObject
| ValidatorObject (mode : Validation.ValidationMode)
| SessionObject (session : UdsSession.UdsSession)
| ManagerObject (manager : ManagerHandle).
Arguments CaptureObject {Session} session interface_name.
Arguments ReaderObject {Session} reader.
Arguments WriterObject {Session} writer.
Arguments PacketObject {Session} packet.
Arguments DecodeObject {Session} result.
Arguments DevicesObject {Session} devices.
Arguments DecoderObject {Session}.
Arguments ValidatorObject {Session} mode.
Arguments SessionObject {Session} session.
Arguments ManagerObject {Session} manager.

Definition kind_of {Session} (o : object Session) : Kind :=
  match o with
  | CaptureObject _ _ => CaptureKind
  | ReaderObject _ => ReaderKind
  | WriterObject _ => WriterKind
  | PacketObject _ => PacketKind
  | DecodeObject _ => DecodeKind
  | DevicesObject _ => DevicesKind
  | DecoderObject => DecoderKind
  | ValidatorObject _ => ValidatorKind
  | SessionObject _ => SessionKind
  | ManagerObject _ => ManagerKind
  end.

Abbreviation handle := (option Z).

(** The state behind the interface: [g_last_error] of the calling thread, where the empty
    string is no error; the objects with the next address and the number of allocations;
    the dispatcher that [protocols::decode_packet] keeps; what callbacks received; and the
    world of the library. *)
Record Api (W Session : Type) := mkApi {
  g_last_error : string;
  heap : gmap Z (object Session);
  next_address : Z;
  allocations : nat;
  default_dispatcher : Dispatcher.ProtocolDispatcher;
  deliveries : list Delivery;
  world : W
}.
Arguments mkApi {W Session} g_last_error heap next_address allocations default_dispatcher deliveries world.
Arguments g_last_error {W Session} a.
Arguments heap {W Session} a.
Arguments next_address {W Session} a.
Arguments allocations {W Session} a.
Arguments default_dispatcher {W Session} a.
Arguments deliveries {W Session} a.
Arguments world {W Session} a.

Section api.
Context {W Session : Type} `{!CaptureSessions W Session, !Files W, !Clocks W}.
Context `{!Descriptors W, !Devices.Interfaces W}.
(** The byte order of the host, and which allocations succeed. *)
Context (big : bool) (enough_memory : nat -> bool).
Implicit Types s : Api W Session.

Definition api (A : Type) : Type := io (Api W Session) A.

Definition set_last_error (msg : string) : api unit := call (fun s =>
  (tt, mkApi msg (heap s) (next_address s) (allocations s) (default_dispatcher s) (deliveries s) (world s))).
Definition set_heap (h : gmap Z (object Session)) s : Api W Session :=
  mkApi (g_last_error s) h (next_address s) (allocations s) (default_dispatcher s) (deliveries s) (world s).
Definition set_dispatcher (d : Dispatcher.ProtocolDispatcher) s : Api W Session :=
  mkApi (g_last_error s) (heap s) (next_address s) (allocations s) d (deliveries s) (world s).
Definition add_deliveries (l : list Delivery) s : Api W Session :=
  mkApi (g_last_error s) (heap s) (next_address s) (allocations s) (default_dispatcher s) (deliveries s ++ l) (world s).
Definition set_world (w : W) s : Api W Session :=
  mkApi (g_last_error s) (heap s) (next_address s) (allocations s) (default_dispatcher s) (deliveries s) w.

(** An operation of the library on its world. *)
Definition on_world {A} (m : io W A) : api A := fun s => aw ← m (world s); Done (aw.1, set_world aw.2 s).

(** ** The life of handles *)

(** [new (std::nothrow) T] and the initialisation of the object. *)
Definition allocate (o : object Session) : api handle := call (fun s =>
  let h := next_address s in
  if enough_memory (allocations s) then
    (Some h, mkApi (g_last_error s) (<[h := o]> (heap s)) (h + 1) (S (allocations s)) (default_dispatcher s)
               (deliveries s) (world s))
  else
    (None, mkApi (g_last_error s) (heap s) h (S (allocations s)) (default_dispatcher s) (deliveries s) (world s))).

(** [new T], which succeeds. *)
Definition allocate_or_throw (o : object Session) : api handle := call (fun s =>
  let h := next_address s in
  (Some h, mkApi (g_last_error s) (<[h := o]> (heap s)) (h + 1) (allocations s) (default_dispatcher s) (deliveries s) (world s))).

(** [p->x], for the objects of a kind. *)
Definition object_at {A} (as_kind : object Session -> option A) (p : handle) : api A := fun s =>
  match p with
  | None => Undef
  | Some a => match heap s !! a ≫= as_kind with Some x => Done (x, s) | None => Undef end
  end.
(** An assignment to an object that exists. *)
Definition store (p : handle) (o : object Session) : api unit := call (fun s =>
  (tt, match p with Some a => set_heap (<[a := o]> (heap s)) s | None => s end)).

(** [delete p], with the destructor of the object. *)
Definition delete_object {A} (as_kind : object Session -> option A) (destructor : A -> io W unit) (p : handle) : api unit :=
  match p with
  | None => mret tt
  | Some a =>
      x ← object_at as_kind p;
      u ← on_world (destructor x);
      call (fun s => (tt, set_heap (delete a (heap s)) s))
  end.
Definition no_destructor {A} (x : A) : io W unit := mret tt.

Definition as_capture (o : object Session) := match o with CaptureObject c n => Some (c, n) | _ => None end.
Definition as_reader (o : object Session) := match o with ReaderObject r => Some r | _ => None end.
Definition as_writer (o : object Session) := match o with WriterObject w => Some w | _ => None end.
Definition as_packet (o : object Session) := match o with PacketObject p => Some p | _ => None end.
Definition as_decode (o : object Session) := match o with DecodeObject r => Some r | _ => None end.
Definition as_devices (o : object Session) := match o with DevicesObject l => Some l | _ => None end.
Definition as_decoder (o : object Session) := match o with DecoderObject => Some tt | _ => None end.
Definition as_validator (o : object Session) := match o with ValidatorObject m => Some m | _ => None end.
Definition as_session (o : object Session) := match o with SessionObject x => Some x | _ => None end.
Definition as_manager (o : object Session) := match o with ManagerObject m => Some m | _ => None end.

(** ** Errors *)

Definition null {A} (p : option A) : bool := match p with None => true | Some _ => false end.

(** [set_last_error(msg); return code;], where nothing is written. *)
Definition fail_with {A} (msg : string) (code : Z) : api (Z * option A) :=
  u ← set_last_error msg; mret (code, None).
Definition invalid {A} (msg : string) : api (Z * option A) := fail_with msg WADJET_ERR_INVALID_ARGUMENT.
Definition fail_code (msg : string) (code : Z) : api Z := u ← set_last_error msg; mret code.
Definition out_of_memory {A} : api (Z * option A) := fail_with "Memory allocation failed" WADJET_ERR_OUT_OF_MEMORY.

Definition handle_result {A} (result : outcome A) : api Z :=
  match result with
  | inr _ => mret WADJET_OK
  | inl e => fail_code (error_message e) (error_of_errno (error_code e))
  end.

Definition wadjet_last_error : api (option string) := call (fun s =>
  (if String.eqb (g_last_error s) "" then None else Some (g_last_error s), s)).
Definition wadjet_clear_error : api unit := set_last_error "".

(** What every function that makes a handle does: it allocates the object, and returns
    the handle. *)
Definition new_handle (o : object Session) : api (Z * option handle) :=
  h ← allocate o;
  match h with
  | None => out_of_memory
  | Some _ => mret (WADJET_OK, Some h)
  end.

(** ** Version *)

Definition wadjet_version : string := "0.1.0".
Definition VERSION_MAJOR : Z := 0.
Definition VERSION_MINOR : Z := 1.
Definition VERSION_PATCH : Z := 0.
Definition wadjet_version_components (major minor patch : bool) : option Z * option Z * option Z :=
  (if major then Some VERSION_MAJOR else None, if minor then Some VERSION_MINOR else None,
   if patch then Some VERSION_PATCH else None).
Definition wadjet_init : Z := WADJET_OK.
Definition wadjet_cleanup : api unit := mret tt.

(** ** Capture sessions *)

Record wadjet_capture_options := mkCaptureOptions {
  co_snaplen : Z;
  co_promiscuous : bool;
  co_immediate_mode : bool;
  co_buffer_size : Z;
  co_timeout_ms : Z
}.
Definition wadjet_capture_options_default (options : bool) : option wadjet_capture_options :=
  if options then Some (mkCaptureOptions 65535 true true (2 * 1024 * 1024) 100) else None.

Definition cpp_opts (options : option wadjet_capture_options) : CaptureSetup.CaptureSessionOptions :=
  let d := CaptureSetup.default_options in
  match options with
  | None => d
  | Some o =>
      CaptureSetup.mkOptions (co_snaplen o) (co_promiscuous o) (co_immediate_mode o) (co_buffer_size o) (co_timeout_ms o)
        (CaptureSetup.timestamp_source d) (CaptureSetup.use_tpacket_v3 d) (CaptureSetup.opt_block_size d)
        (CaptureSetup.retire_timeout_ms d) (CaptureSetup.use_ring_buffer d)
  end.

Definition wadjet_capture_create (interface : option string) (options : option wadjet_capture_options) (session : bool)
    : api (Z * option handle) :=
  match interface with
  | Some i =>
      if negb session then invalid "Invalid argument: interface or session is NULL"
      else
        result ← on_world (create_session i (cpp_opts options));
        match result with
        | inl e => code ← handle_result (A := Session) (inl e); mret (code, None)
        | inr c =>
            r ← new_handle (CaptureObject c i);
            u ← (if r.1 =? WADJET_OK then mret tt else on_world (destroy_session c));
            mret r
        end
  | None => invalid "Invalid argument: interface or session is NULL"
  end.

Definition wadjet_capture_destroy (session : handle) : api unit :=
  delete_object as_capture (fun c => destroy_session c.1) session.

(** An operation on the session that returns a result. *)
Definition on_session (session : handle) (m : Session -> io W (outcome unit * Session)) : api Z :=
  c ← object_at as_capture session;
  rc ← on_world (m c.1);
  u ← store session (CaptureObject rc.2 c.2);
  handle_result rc.1.

Definition wadjet_capture_set_filter (session : handle) (filter : option string) : api Z :=
  match session, filter with
  | Some _, Some f => on_session session (session_set_filter f)
  | _, _ => fail_code "Invalid argument" WADJET_ERR_INVALID_ARGUMENT
  end.

Definition wadjet_capture_start (session : handle) : api Z :=
  if null session then fail_code "Invalid argument: session is NULL" WADJET_ERR_INVALID_ARGUMENT
  else on_session session session_start.

Definition wadjet_capture_stop (session : handle) : api unit :=
  if null session then mret tt
  else c ← object_at as_capture session; c1 ← on_world (session_stop c.1); store session (CaptureObject c1 c.2).

Definition wadjet_capture_is_running (session : handle) : api bool :=
  if null session then mret false
  else c ← object_at as_capture session; mret (session_is_running c.1).

Definition wadjet_capture_next_packet (session : handle) (timeout_ms : Z) (packet : bool) : api (Z * option handle) :=
  if null session || negb packet then invalid "Invalid argument"
  else
    c ← object_at as_capture session;
    pc ← on_world (session_next_packet timeout_ms c.1);
    u ← store session (CaptureObject pc.2 c.2);
    match pc.1 with
    | None => mret (WADJET_ERR_TIMEOUT, None)
    | Some p => new_handle (PacketObject p)
    end.

Definition wadjet_capture_stats (session : handle) (stats : bool) : api (Z * option Capture.CaptureStats) :=
  if null session || negb stats then invalid "Invalid argument"
  else
    c ← object_at as_capture session;
    cpp_stats ← on_world (session_stats c.1);
    mret (WADJET_OK, Some cpp_stats).

Definition wadjet_capture_interface (session : handle) : api (option string) :=
  if null session then mret None
  else c ← object_at as_capture session; mret (Some c.2).

(** ** Packets *)

Record wadjet_timestamp := mkTimestamp { ts_seconds : Z; ts_nanoseconds : Z }.
Definition timestamp_of (t : Timestamp.Timestamp) : wadjet_timestamp :=
  mkTimestamp (Timestamp.seconds t) (Timestamp.nanoseconds t).
Record wadjet_packet_view_t := mkPacketView { pv_data : list byte; pv_timestamp : wadjet_timestamp }.

(** [Packet(span)] has the time stamp 0. *)
Definition wadjet_packet_create (data : option (list byte)) (packet : bool) : api (Z * option handle) :=
  match data with
  | Some d => if negb packet then invalid "Invalid argument" else new_handle (PacketObject (mkPacket d 0))
  | None => invalid "Invalid argument"
  end.

Definition wadjet_packet_destroy (packet : handle) : api unit := delete_object as_packet no_destructor packet.

Definition wadjet_packet_data (packet : handle) (data length : bool) : api (Z * option (list byte)) :=
  if null packet || negb data || negb length then invalid "Invalid argument"
  else p ← object_at as_packet packet; mret (WADJET_OK, Some (pk_data p)).

Definition wadjet_packet_timestamp (packet : handle) (timestamp : bool) : api (Z * option wadjet_timestamp) :=
  if null packet || negb timestamp then invalid "Invalid argument"
  else p ← object_at as_packet packet; mret (WADJET_OK, Some (timestamp_of (pk_timestamp p))).

Definition wadjet_packet_view (packet : handle) (view : bool) : api (Z * option wadjet_packet_view_t) :=
  if null packet || negb view then invalid "Invalid argument"
  else
    p ← object_at as_packet packet;
    mret (WADJET_OK, Some (mkPacketView (pk_data p) (timestamp_of (pk_timestamp p)))).

(** ** Capture files *)

(** [PcapReader::open] and [PcapWriter::create]; files that were opened do not fail. *)
Definition open_reader (path : string) : io W (outcome PcapReader) :=
  contents ← call (read_file path);
  match contents with
  | None => mret (err (-1) ("Failed to open file: " +:+ path))
  | Some d =>
      match from_memory big d with
      | Done r => mret (ok r)
      | Fail e => mret (inl e)
      | Undef => undefined
      end
  end.
Definition create_writer (path : string) : io W (outcome PcapWriter) :=
  created ← call (create_file path);
  mret (if created : bool then ok (create big PcapWriterOptions_default) else err (-1) ("Failed to create file: " +:+ path)).

Definition wadjet_pcap_reader_open (path : option string) (reader : bool) : api (Z * option handle) :=
  match path with
  | Some p =>
      if negb reader then invalid "Invalid argument"
      else
        result ← on_world (open_reader p);
        match result with
        | inl e => code ← handle_result (A := PcapReader) (inl e); mret (code, None)
        | inr r => new_handle (ReaderObject r)
        end
  | None => invalid "Invalid argument"
  end.

Definition wadjet_pcap_reader_destroy (reader : handle) : api unit := delete_object as_reader no_destructor reader.

(** [PcapReader::next_packet] has no error to return. *)
Definition reader_next (r : PcapReader) : api (option Packet * PcapReader) :=
  match next_packet big r with Done pr => mret pr | _ => undefined end.

Definition wadjet_pcap_reader_next (reader : handle) (packet : bool) : api (Z * option handle) :=
  if null reader || negb packet then invalid "Invalid argument"
  else
    r ← object_at as_reader reader;
    pr ← reader_next r;
    u ← store reader (ReaderObject pr.2);
    match pr.1 with
    | None => mret (WADJET_ERR_NOT_FOUND, None)
    | Some p => new_handle (PacketObject p)
    end.

Definition wadjet_pcap_reader_has_more (reader : handle) : api bool :=
  if null reader then mret false else r ← object_at as_reader reader; mret (has_more r).

Definition wadjet_pcap_reader_reset (reader : handle) : api Z :=
  if null reader then fail_code "Invalid argument" WADJET_ERR_INVALID_ARGUMENT
  else r ← object_at as_reader reader; u ← store reader (ReaderObject (reset r)); mret WADJET_OK.

Definition wadjet_pcap_writer_create (path : option string) (writer : bool) : api (Z * option handle) :=
  match path with
  | Some p =>
      if negb writer then invalid "Invalid argument"
      else
        result ← on_world (create_writer p);
        match result with
        | inl e => code ← handle_result (A := PcapWriter) (inl e); mret (code, None)
        | inr w => new_handle (WriterObject w)
        end
  | None => invalid "Invalid argument"
  end.

Definition wadjet_pcap_writer_destroy (writer : handle) : api unit := delete_object as_writer no_destructor writer.

Definition wadjet_pcap_writer_write (writer packet : handle) : api Z :=
  if null writer || null packet then fail_code "Invalid argument" WADJET_ERR_INVALID_ARGUMENT
  else
    w ← object_at as_writer writer;
    p ← object_at as_packet packet;
    u ← store writer (WriterObject (write_packet big p w));
    mret WADJET_OK.

Definition wadjet_pcap_writer_write_raw (writer : handle) (data : option (list byte)) (timestamp : option wadjet_timestamp)
    : api Z :=
  match writer, data, timestamp with
  | Some _, Some d, Some t =>
      ts ← lift (Timestamp.from_unix (ts_seconds t) (ts_nanoseconds t));
      w ← object_at as_writer writer;
      u ← store writer (WriterObject (write_packet big (mkPacket d ts) w));
      mret WADJET_OK
  | _, _, _ => fail_code "Invalid argument" WADJET_ERR_INVALID_ARGUMENT
  end.

Definition wadjet_pcap_writer_flush (writer : handle) : api Z :=
  if null writer then fail_code "Invalid argument" WADJET_ERR_INVALID_ARGUMENT
  else w ← object_at as_writer writer; mret WADJET_OK.

(** ** Devices *)

Record wadjet_device_info := mkDeviceInfo {
  di_name : string;
  di_description : option string;
  di_is_up : bool;
  di_is_loopback : bool
}.

Definition wadjet_device_enumerate (list : bool) : api (Z * option handle) :=
  if negb list then invalid "Invalid argument"
  else
    h ← allocate (DevicesObject []);
    if null h then out_of_memory
    else
      result ← on_world Devices.enumerate_devices;
      match result with
      | inl e =>
          u ← delete_object as_devices no_destructor h;
          code ← handle_result (A := unit) (inl e);
          mret (code, None)
      | inr l => u ← store h (DevicesObject l); mret (WADJET_OK, Some h)
      end.

Definition wadjet_device_list_destroy (list : handle) : api unit := delete_object as_devices no_destructor list.

Definition wadjet_device_list_count (list : handle) : api Z :=
  if null list then mret 0 else l ← object_at as_devices list; mret (zlen l).

Definition wadjet_device_list_get (list : handle) (index : Z) (info : bool) : api (Z * option wadjet_device_info) :=
  if null list || negb info then invalid "Invalid argument"
  else
    l ← object_at as_devices list;
    match l !! Z.to_nat index with
    | None => invalid "Index out of range"
    | Some dev =>
        let d := Devices.description dev in
        mret (WADJET_OK, Some (mkDeviceInfo (Devices.name dev) (if String.eqb d "" then None else Some d)
                                 (Devices.is_up dev) (Devices.is_loopback dev)))
    end.

(** ** Validators *)

Definition WADJET_VALIDATION_MODE_STRICT : Z := 0.
Definition WADJET_VALIDATION_MODE_LENIENT : Z := 1.
Definition mode_enum (mode : Z) : Validation.ValidationMode :=
  if mode =? WADJET_VALIDATION_MODE_LENIENT then Validation.Lenient else Validation.Strict.

Definition wadjet_protocol_validator_create (mode : Z) (validator : bool) : api (Z * option handle) :=
  if negb validator then invalid "Invalid argument: validator cannot be null"
  else h ← allocate_or_throw (ValidatorObject (mode_enum mode)); mret (WADJET_OK, Some h).

Definition wadjet_protocol_validator_destroy (validator : handle) : api unit :=
  delete_object as_validator no_destructor validator.

(** The result is written over the pointer that [result] points to, an object of another
    type and size. *)
Definition write_validation_result (r : Validation.ValidationResult) : api Z := undefined.

Definition validating (validator : handle) (layers : option (list Validation.ProtocolLayer)) (result : bool)
    (validate : list Validation.ProtocolLayer -> Validation.ValidationMode -> res Decoder.DecodeError Validation.ValidationResult)
    : api Z :=
  match layers with
  | Some cpp_layers =>
      if null validator || negb result then fail_code "Invalid argument: null pointer" WADJET_ERR_INVALID_ARGUMENT
      else
        mode ← object_at as_validator validator;
        match validate cpp_layers mode with
        | Done r => write_validation_result r
        | _ => undefined
        end
  | None => fail_code "Invalid argument: null pointer" WADJET_ERR_INVALID_ARGUMENT
  end.

Definition wadjet_validate_layering (validator : handle) (layers : option (list Validation.ProtocolLayer)) (result : bool)
    : api Z := validating validator layers result Validation.validateLayering.
Definition wadjet_validate_lengths (validator : handle) (layers : option (list Validation.ProtocolLayer))
    (total_packet_length : Z) (result : bool) : api Z :=
  validating validator layers result (fun l => Validation.validateLengths l total_packet_length).
Definition wadjet_validate_checksums (validator : handle) (packet_data : option (list byte))
    (layers : option (list Validation.ProtocolLayer)) (result : bool) : api Z :=
  match packet_data with
  | Some d => validating validator layers result (Validation.validateChecksums d)
  | None => fail_code "Invalid argument: null pointer" WADJET_ERR_INVALID_ARGUMENT
  end.

Definition wadjet_protocol_validator_set_mode (validator : handle) (mode : Z) : api Z :=
  if null validator then fail_code "Invalid argument: validator cannot be null" WADJET_ERR_INVALID_ARGUMENT
  else m ← object_at as_validator validator; u ← store validator (ValidatorObject (mode_enum mode)); mret WADJET_OK.

Definition wadjet_protocol_validator_get_mode (validator : handle) (mode : bool) : api (Z * option Z) :=
  if null validator || negb mode then invalid "Invalid argument: null pointer"
  else
    cpp_mode ← object_at as_validator validator;
    mret (WADJET_OK, Some (match cpp_mode with
                           | Validation.Lenient => WADJET_VALIDATION_MODE_LENIENT
                           | Validation.Strict => WADJET_VALIDATION_MODE_STRICT
                           end)).

(** No function returns a handle to a result. *)
Definition wadjet_validation_result_destroy (result : handle) : api unit :=
  delete_object (A := unit) (fun _ => None) no_destructor result.
End api.
