(* ===== verification/CApiDecode.v ===== *)
(** * The C interface (bindings/c/src/wadjet_c.cpp): decoding, diagnostics, text

    Decode results with the C structures of their headers, the UDS decoder, the tracker of
    a UDS session, the diagnostic session manager with its C callback, and the functions on
    addresses and time stamps, over the state of CApi.v.  The C enumerations are integers,
    as the enumerations of the library are in this development, and the casts between them
    keep the value, or its low byte where the target is a [std::uint8_t]. *)

From Stdlib Require Import ZArith Lia.
From Stdlib Require Import Strings.Byte.
From stdpp Require Import base numbers list gmap strings.
From S2P Require Import Prelude World Pcap CApi.
From S2P Require Decoder Ethernet Ipv4 Udp Tcp SomeIp DoIP Gptp Dispatcher Scenario.
From S2P Require Uds UdsTables UdsSession Diagnostic Correlator DiagnosticSession Address Timestamp.
Import Dispatcher (get_layer, has_layer, as_ipv4, as_udp, as_tcp, as_someip, as_doip, as_gptp, DecodeStackResult, layers).
Import Scenario (as_ethernet).

(** ** Layers *)

Definition WADJET_PROTOCOL_ETHERNET : Z := 1.
Definition WADJET_PROTOCOL_IPV4 : Z := 3.
Definition WADJET_PROTOCOL_UDP : Z := 4.
Definition WADJET_PROTOCOL_TCP : Z := 5.
Definition WADJET_PROTOCOL_SOMEIP : Z := 6.
Definition WADJET_PROTOCOL_DOIP : Z := 8.
Definition WADJET_PROTOCOL_GPTP : Z := 9.

(** The [switch] of [wadjet_decode_result_has_layer] and [wadjet_decode_result_payload];
    [None] is its default. *)
Definition layer_present (r : DecodeStackResult) (protocol : Z) : option bool :=
  if protocol =? WADJET_PROTOCOL_ETHERNET then Some (has_layer as_ethernet (layers r))
  else if protocol =? WADJET_PROTOCOL_IPV4 then Some (has_layer as_ipv4 (layers r))
  else if protocol =? WADJET_PROTOCOL_UDP then Some (has_layer as_udp (layers r))
  else if protocol =? WADJET_PROTOCOL_TCP then Some (has_layer as_tcp (layers r))
  else if protocol =? WADJET_PROTOCOL_SOMEIP then Some (has_layer as_someip (layers r))
  else if protocol =? WADJET_PROTOCOL_DOIP then Some (has_layer as_doip (layers r))
  else if protocol =? WADJET_PROTOCOL_GPTP then Some (has_layer as_gptp (layers r))
  else None.

(** ** The C structures *)

Record wadjet_ethernet_header := mkEthernet {
  c_src_mac : list byte; c_dst_mac : list byte; c_ethertype : Z; c_has_vlan : bool; c_vlan_id : Z; c_vlan_priority : Z
}.
Definition ethernet_header (eth : Ethernet.EthernetHeader) : wadjet_ethernet_header :=
  mkEthernet (Ethernet.eth_src_mac eth) (Ethernet.eth_dst_mac eth) (Ethernet.eth_ethertype eth) (Ethernet.has_vlan eth)
    (Ethernet.vlan_id eth) (match Ethernet.eth_vlan eth with Some t => Ethernet.pcp t | None => 0 end).

Record wadjet_ipv4_header := mkIpv4 {
  c_src_ip : list byte; c_dst_ip : list byte; c_protocol : Z; c_ttl : Z; c_total_length : Z; c_identification : Z;
  c_dont_fragment : bool; c_more_fragments : bool; c_fragment_offset : Z
}.
Definition ipv4_header (h : Ipv4.IPv4Header) : wadjet_ipv4_header :=
  mkIpv4 (Ipv4.ip_src h) (Ipv4.ip_dst h) (Ipv4.ip_protocol h) (Ipv4.ip_ttl h) (Ipv4.ip_total_length h)
    (Ipv4.ip_identification h) (Ipv4.dont_fragment (Ipv4.ip_flags h)) (Ipv4.more_fragments (Ipv4.ip_flags h))
    (Ipv4.ip_fragment_offset h).

Record wadjet_udp_header := mkUdp { u_src_port : Z; u_dst_port : Z; u_length : Z; u_checksum : Z }.
Definition udp_header (h : Udp.UdpHeader) : wadjet_udp_header :=
  mkUdp (Udp.udp_src_port h) (Udp.udp_dst_port h) (Udp.udp_length h) (Udp.udp_checksum h).

Record wadjet_tcp_header := mkTcp {
  t_src_port : Z; t_dst_port : Z; t_sequence_number : Z; t_ack_number : Z; t_data_offset : Z;
  t_syn : bool; t_ack : bool; t_fin : bool; t_rst : bool; t_psh : bool; t_urg : bool; t_window_size : Z
}.
Definition tcp_header (h : Tcp.TcpHeader) : wadjet_tcp_header :=
  let f := Tcp.tcp_flags h in
  mkTcp (Tcp.tcp_src_port h) (Tcp.tcp_dst_port h) (Tcp.seq_num h) (Tcp.ack_num h) (Tcp.data_offset h)
    (Tcp.syn f) (Tcp.ack f) (Tcp.fin f) (Tcp.rst f) (Tcp.psh f) (Tcp.urg f) (Tcp.tcp_window h).

Record wadjet_someip_header := mkSomeip {
  s_service_id : Z; s_method_id : Z; s_length : Z; s_client_id : Z; s_session_id : Z; s_protocol_version : Z;
  s_interface_version : Z; s_message_type : Z; s_return_code : Z; s_is_service_discovery : bool
}.
Definition someip_header (h : SomeIp.SomeIpHeader) : wadjet_someip_header :=
  mkSomeip (SomeIp.service_id h) (SomeIp.method_id h) (SomeIp.sip_length h) (SomeIp.client_id h) (SomeIp.session_id h)
    (SomeIp.protocol_version h) (SomeIp.interface_version h) (SomeIp.message_type h) (SomeIp.return_code h)
    (SomeIp.is_service_discovery h).

Record wadjet_doip_header := mkDoip {
  d_protocol_version : Z; d_inverse_version : Z; d_payload_type : Z; d_payload_length : Z; d_version_valid : bool
}.
Definition doip_header (h : DoIP.DoIPHeader) : wadjet_doip_header :=
  mkDoip (DoIP.protocol_version h) (DoIP.inverse_protocol_version h) (DoIP.payload_type h) (DoIP.payload_length h)
    (DoIP.is_version_valid h).

Record wadjet_gptp_header := mkGptp {
  g_transport_specific : Z; g_message_type : Z; g_version : Z; g_message_length : Z; g_domain_number : Z;
  g_correction_field : Z; g_source_port_identity : Gptp.PortIdentity; g_sequence_id : Z; g_control : Z;
  g_log_message_interval : Z; g_two_step : bool; g_is_event : bool
}.
Definition gptp_header (h : Gptp.GptpHeader) : wadjet_gptp_header :=
  mkGptp (Gptp.transport_specific h) (Gptp.message_type h) (Gptp.version_ptp h) (Gptp.message_length h)
    (Gptp.domain_number h) (Gptp.correction_field h) (Gptp.source_port_identity h) (Gptp.sequence_id h)
    (Gptp.control_field h) (Gptp.log_message_interval h) (Gptp.is_two_step h)
    (Gptp.is_event_message (Gptp.message_type h)).

Record wadjet_uds_header := mkUds {
  x_service_id : Z; x_is_request : bool; x_is_positive_response : bool; x_is_negative_response : bool;
  x_sub_function : Z; x_suppress_positive_response : bool; x_nrc : Z; x_rejected_service_id : Z; x_data : list byte
}.
Definition uds_header (h : Uds.UdsHeader) : wadjet_uds_header :=
  mkUds (Uds.service_id h)
    (match Uds.direction h with Uds.Request => true | _ => false end)
    (match Uds.direction h with Uds.PositiveResponse => true | _ => false end)
    (match Uds.direction h with Uds.NegativeResponse => true | _ => false end)
    (default 0 (Uds.sub_function h)) (Uds.suppress_positive_response h) (default 0 (Uds.negative_response_code h))
    (default 0 (Uds.rejected_service_id h)) (Uds.service_data h).

Section decode.
Context {W Session : Type} `{!CaptureSessions W Session, !Files W, !Clocks W}.
(** The order of a [std::unordered_map], and which allocations succeed. *)
Context (iterate : forall A : Type, gmap Z A -> list (Z * A)) (enough_memory : nat -> bool).
#[local] Abbreviation api := (io (Api W Session)).
#[local] Abbreviation new_handle := (new_handle enough_memory).

(** ** Decode results *)

(** [protocols::decode_packet], on the dispatcher that the process shares. *)
Definition decode_shared (d : list byte) : api DecodeStackResult := fun s =>
  rd ← Dispatcher.decode (default_dispatcher s) d; Done (rd.1, set_dispatcher rd.2 s).

Definition wadjet_decode_packet (data : option (list byte)) (result : bool) : api (Z * option handle) :=
  match data with
  | Some d =>
      if negb result then invalid "Invalid argument"
      else
        h ← allocate enough_memory (DecodeObject (Dispatcher.mkResult [] [] None true));
        if null h then out_of_memory
        else r ← decode_shared d; u ← store h (DecodeObject r); mret (WADJET_OK, Some h)
  | None => invalid "Invalid argument"
  end.

Definition wadjet_decode_result_destroy (result : handle) : api unit := delete_object as_decode no_destructor result.

Definition wadjet_decode_result_success (result : handle) : api bool :=
  if null result then mret false
  else r ← object_at as_decode result; mret (Dispatcher.complete r && null (Dispatcher.error r)).

Definition wadjet_decode_result_has_layer (result : handle) (protocol : Z) : api bool :=
  if null result then mret false
  else r ← object_at as_decode result; mret (default false (layer_present r protocol)).

(** The functions [wadjet_decode_result_ethernet] and so on: the header of the first layer
    of the type. *)
Definition header_of {H C} (as_header : Dispatcher.DecodedHeader -> option H) (convert : H -> C) (missing : string)
    (result : handle) (header : bool) : api (Z * option C) :=
  if null result || negb header then invalid "Invalid argument"
  else
    r ← object_at as_decode result;
    if negb (has_layer as_header (layers r)) then fail_with missing WADJET_ERR_NOT_FOUND
    else h ← deref (get_layer as_header (layers r)); mret (WADJET_OK, Some (convert h)).

Definition wadjet_decode_result_ethernet := header_of as_ethernet ethernet_header "Ethernet layer not present".
Definition wadjet_decode_result_ipv4 := header_of as_ipv4 ipv4_header "IPv4 layer not present".
Definition wadjet_decode_result_udp := header_of as_udp udp_header "UDP layer not present".
Definition wadjet_decode_result_tcp := header_of as_tcp tcp_header "TCP layer not present".
Definition wadjet_decode_result_someip := header_of as_someip someip_header "SOME/IP layer not present".
Definition wadjet_decode_result_doip := header_of as_doip doip_header "DoIP layer not present".
Definition wadjet_decode_result_gptp := header_of as_gptp gptp_header "gPTP layer not present".

Definition wadjet_decode_result_payload (result : handle) (protocol : Z) (data length : bool) : api (Z * option (list byte)) :=
  if null result || negb data || negb length then invalid "Invalid argument"
  else
    r ← object_at as_decode result;
    match layer_present r protocol with
    | None => invalid "Unknown protocol"
    | Some false => fail_with "Protocol layer not present" WADJET_ERR_NOT_FOUND
    | Some true => mret (WADJET_OK, Some (Dispatcher.payload r))
    end.

Definition wadjet_decode_result_uds (result : handle) (header : bool) : api (Z * option wadjet_uds_header) :=
  if null result || negb header then invalid "Invalid argument"
  else
    r ← object_at as_decode result;
    if negb (has_layer as_doip (layers r)) then fail_with "No DoIP layer found" WADJET_ERR_NOT_FOUND
    else
      match get_layer as_doip (layers r) with
      | None => fail_with "Failed to get DoIP header" WADJET_ERR_NOT_FOUND
      | Some doip =>
          if negb (DoIP.is_diagnostic_message doip)
          then fail_with "DoIP payload is not a diagnostic message" WADJET_ERR_NOT_FOUND
          else if zlen (Dispatcher.payload r) =? 0 then fail_with "No payload after DoIP header" WADJET_ERR_NOT_FOUND
          else
            diag_opt ← lift (DiagnosticSession.parsed (DoIP.parse_diagnostic_message (Dispatcher.payload r)));
            match diag_opt with
            | None => fail_with "Failed to parse DoIP diagnostic message" WADJET_ERR_DECODE
            | Some diag =>
                match Uds.decode (DoIP.dm_user_data diag) with
                | Done uds_result => mret (WADJET_OK, Some (uds_header (Uds.header uds_result)))
                | Fail _ => fail_with "Failed to decode UDS from DoIP payload" WADJET_ERR_DECODE
                | Undef => undefined
                end
            end
      end.

(** ** UDS *)

Definition wadjet_uds_decoder_create (decoder : bool) : api (Z * option handle) :=
  if negb decoder then invalid "Invalid argument: decoder is NULL" else new_handle DecoderObject.

Definition wadjet_uds_decoder_destroy (decoder : handle) : api unit := delete_object as_decoder no_destructor decoder.

Definition wadjet_uds_decode (decoder : handle) (data : option (list byte)) (header : bool)
    : api (Z * option wadjet_uds_header) :=
  match data with
  | Some d =>
      if null decoder || negb header then invalid "Invalid argument"
      else
        x ← object_at as_decoder decoder;
        match Uds.decode d with
        | Done result => mret (WADJET_OK, Some (uds_header (Uds.header result)))
        | Fail _ => fail_with "UDS decode error" WADJET_ERR_DECODE
        | Undef => undefined
        end
  | None => invalid "Invalid argument"
  end.

(** The three tests of raw bytes. *)
Definition on_bytes (test : list byte -> bool) (data : option (list byte)) : bool :=
  match data with Some d => if zlen d =? 0 then false else test d | None => false end.
Definition wadjet_uds_is_request := on_bytes Uds.is_request.
Definition wadjet_uds_is_positive_response := on_bytes Uds.is_positive_response.
Definition wadjet_uds_is_negative_response := on_bytes Uds.is_negative_response.

Definition wadjet_uds_service_name (service_id : Z) : string := UdsTables.service_id_string (uint 8 service_id).
Definition wadjet_uds_session_type_name (session_type : Z) : string := UdsTables.session_type_string (uint 8 session_type).
Definition wadjet_uds_nrc_name (nrc : Z) : string := UdsTables.nrc_string (uint 8 nrc).
Definition wadjet_uds_nrc_description (nrc : Z) : string := UdsTables.nrc_description (uint 8 nrc).

(** The reading of the steady clock that an operation of a session makes. *)
Definition now : api Z := n ← on_world (call steady_clock); mret (n 0%nat).

Definition wadjet_uds_session_create (ecu_address : Z) (session : bool) : api (Z * option handle) :=
  if negb session then invalid "Invalid argument: session is NULL"
  else
    h ← allocate enough_memory (SessionObject (UdsSession.new_session 0 ecu_address));
    if null h then out_of_memory
    else n ← now; u ← store h (SessionObject (UdsSession.new_session n ecu_address)); mret (WADJET_OK, Some h).

Definition wadjet_uds_session_destroy (session : handle) : api unit := delete_object as_session no_destructor session.

Definition wadjet_uds_session_process (session : handle) (data : option (list byte)) (is_request : bool) : api Z :=
  match session, data with
  | Some _, Some d =>
      x ← object_at as_session session;
      n ← now;
      match UdsSession.process_message n d is_request x with
      | Done (success, x) =>
          u ← store session (SessionObject x);
          if (success : bool) then mret WADJET_OK else fail_code "Failed to process UDS message" WADJET_ERR_DECODE
      | _ => undefined
      end
  | _, _ => fail_code "Invalid argument" WADJET_ERR_INVALID_ARGUMENT
  end.

Definition WADJET_UDS_SESSION_DEFAULT : Z := 0x01.
Definition wadjet_uds_session_get_type (session : handle) : api Z :=
  if null session then mret WADJET_UDS_SESSION_DEFAULT
  else x ← object_at as_session session; mret (UdsSession.session_type x).

Definition wadjet_uds_session_is_active (session : handle) : api bool :=
  if null session then mret false
  else x ← object_at as_session session; n ← now; mret (UdsSession.is_active n x).

Definition wadjet_uds_session_security_unlocked (session : handle) (level : Z) : api bool :=
  if null session then mret false
  else x ← object_at as_session session; n ← now; mret (UdsSession.is_security_unlocked n x level).

Definition wadjet_uds_session_reset (session : handle) : api unit :=
  if null session then mret tt
  else x ← object_at as_session session; n ← now; store session (SessionObject (UdsSession.reset n x)).

(** ** The diagnostic session manager *)

Record wadjet_diagnostic_options := mkDiagnosticOptions {
  do_enable_correlation : bool;
  do_enable_timeout_detection : bool;
  do_max_ecus : Z;
  do_p2_server_max_ms : Z;
  do_p2_star_server_max_ms : Z;
  do_s3_server_ms : Z
}.
Definition wadjet_diagnostic_options_default (options : bool) : option wadjet_diagnostic_options :=
  let defaults := DiagnosticSession.Options_default in
  let t := DiagnosticSession.default_timing defaults in
  if options then
    Some (mkDiagnosticOptions (DiagnosticSession.enable_correlation defaults)
            (DiagnosticSession.enable_timeout_detection defaults) (DiagnosticSession.max_ecus defaults)
            (uint 32 (Diagnostic.p2_server_max t)) (uint 32 (Diagnostic.p2_star_server_max t))
            (uint 32 (Diagnostic.s3_server t)))
  else None.

(** The options of the library; those of the correlator keep their defaults. *)
Definition manager_options (options : option wadjet_diagnostic_options) : DiagnosticSession.Options :=
  let d := DiagnosticSession.Options_default in
  match options with
  | None => d
  | Some o =>
      let t := DiagnosticSession.default_timing d in
      DiagnosticSession.mkOptions (do_enable_correlation o) (do_enable_timeout_detection o) (do_max_ecus o)
        (Diagnostic.mkDiagnosticTiming (do_p2_server_max_ms o) (do_p2_star_server_max_ms o) (do_s3_server_ms o)
           (Diagnostic.p3_client t) (Diagnostic.p4_server t))
        (DiagnosticSession.correlator_options d)
  end.

Definition wadjet_diagnostic_manager_create (options : option wadjet_diagnostic_options) (manager : bool)
    : api (Z * option handle) :=
  if negb manager then invalid "Invalid argument"
  else
    h ← allocate_or_throw (ManagerObject (mkManagerHandle (DiagnosticSession.new_manager (manager_options options)) None None));
    mret (WADJET_OK, Some h).

Definition wadjet_diagnostic_manager_destroy (manager : handle) : api unit :=
  delete_object as_manager no_destructor manager.

(** The structure that both [get_session] and the callback fill. *)
Definition session_state (state : DiagnosticSession.DiagnosticSessionState) : wadjet_diagnostic_session_state :=
  let t := DiagnosticSession.timing state in
  mkSessionState (DiagnosticSession.tester_address state) (DiagnosticSession.gateway_address state)
    (DiagnosticSession.session_type state) (DiagnosticSession.session_active state) (DiagnosticSession.routing_active state)
    (DiagnosticSession.security_level state) (uint 32 (Diagnostic.p2_server_max t))
    (uint 32 (Diagnostic.p2_star_server_max t)) (DiagnosticSession.requests_sent state)
    (DiagnosticSession.responses_received state) (DiagnosticSession.negative_responses state)
    (DiagnosticSession.timeouts state).

(** The function that [on_event] registers with the manager. *)
Definition C_CALLBACK : nat := 0.

Definition wadjet_diagnostic_manager_on_event (manager : handle) (callback user_data : option Z) : api unit :=
  if null manager then mret tt
  else
    m ← object_at as_manager manager;
    store manager (ManagerObject (mkManagerHandle
      (if null callback then mh_manager m else DiagnosticSession.on_event C_CALLBACK (mh_manager m)) callback user_data)).

(** What the registered function does with a call. *)
Definition deliver (m : ManagerHandle) (c : DiagnosticSession.Call) : list Delivery :=
  match mh_callback m with
  | Some callback =>
      [mkDelivery callback (DiagnosticSession.call_event c) (session_state (DiagnosticSession.call_state c)) (mh_user_data m)]
  | None => []
  end.

(** The manager becomes [m]; the calls that it made on the way are delivered. *)
Definition update_manager (manager : handle) (old : ManagerHandle) (m : DiagnosticSession.DiagnosticSessionManager)
    : api unit :=
  let made := drop (length (DiagnosticSession.calls (mh_manager old))) (DiagnosticSession.calls m) in
  u ← store manager (ManagerObject (mkManagerHandle m (mh_callback old) (mh_user_data old)));
  call (fun s => (tt, add_deliveries (flat_map (deliver old) made) s)).

(** The time stamp is the first reading of the clock. *)
Definition wadjet_diagnostic_manager_process (manager : handle) (data : option (list byte)) : api Z :=
  match manager, data with
  | Some _, Some d =>
      m ← object_at as_manager manager;
      n ← on_world (call steady_clock);
      rm ← lift (DiagnosticSession.process_doip_raw (fun i => n (S i)) d (n 0%nat) (mh_manager m));
      u ← update_manager manager m rm.2;
      mret (if (rm.1 : bool) then WADJET_OK else WADJET_ERR_DECODE)
  | _, _ => fail_code "Invalid argument" WADJET_ERR_INVALID_ARGUMENT
  end.

Definition wadjet_diagnostic_manager_get_session (manager : handle) (ecu_address : Z) (state : bool)
    : api (Z * option wadjet_diagnostic_session_state) :=
  if null manager || negb state then invalid "Invalid argument"
  else
    m ← object_at as_manager manager;
    match DiagnosticSession.get_session_state ecu_address (mh_manager m) with
    | None => fail_with "Session not found" WADJET_ERR_NOT_FOUND
    | Some session => mret (WADJET_OK, Some (session_state session))
    end.

Definition wadjet_diagnostic_manager_session_count (manager : handle) : api Z :=
  if null manager then mret 0
  else m ← object_at as_manager manager; mret (zlen (DiagnosticSession.get_tracked_ecus iterate (mh_manager m))).

(** The four counters; each is only written through a pointer that is not null. *)
Definition wadjet_diagnostic_manager_statistics (manager : handle)
    (requests_recorded responses_matched responses_unmatched timeouts : bool)
    : api (option Z * option Z * option Z * option Z) :=
  if null manager then mret (None, None, None, None)
  else
    m ← object_at as_manager manager;
    let st := Correlator.stats (DiagnosticSession.correlator (mh_manager m)) in
    mret (if requests_recorded then Some (Correlator.requests_recorded st) else None,
          if responses_matched then Some (Correlator.responses_matched st) else None,
          if responses_unmatched then Some (Correlator.responses_unmatched st) else None,
          if timeouts then Some (Correlator.pending_timeouts st) else None).

Definition wadjet_diagnostic_manager_check_timeouts (manager : handle) : api Z :=
  if null manager then mret 0
  else
    m ← object_at as_manager manager;
    n ← now;
    let '(count, c) := Correlator.check_timeouts n (DiagnosticSession.correlator (mh_manager m)) in
    u ← update_manager manager m (DiagnosticSession.correlated c (mh_manager m));
    mret count.

(** ** Addresses and time stamps *)

(** [std::strcpy] of a text into a buffer of [capacity] bytes. *)
Definition strcpy (capacity : Z) (str : list byte) : api (list byte) :=
  if zlen str <? capacity then mret (str ++ [x00]) else undefined.

(** The two functions from an address to text; the buffer is given by its capacity, and
    [buffer_size] is what the caller says it is. *)
Definition address_to_string (to_string : list byte -> list byte) (least : Z) (address : option (list byte))
    (buffer : option Z) (buffer_size : Z) : api (Z * option (list byte)) :=
  match address, buffer with
  | Some bytes, Some capacity =>
      if buffer_size <? least then mret (0, None)
      else
        let str := to_string bytes in
        if buffer_size <=? zlen str then mret (0, None)
        else written ← strcpy capacity str; mret (zlen str, Some written)
  | _, _ => mret (0, None)
  end.
Definition wadjet_mac_to_string := address_to_string Address.MacAddress_to_string 18.
Definition wadjet_ipv4_to_string := address_to_string Address.IPv4Address_to_string 16.

(** [from_string] throws nothing, so the handlers of the exceptions are not reached. *)
Definition wadjet_mac_from_string (str : option (list byte)) (mac : bool) : api (Z * option (list byte)) :=
  match str with
  | Some t => if negb mac then invalid "Invalid argument" else mret (WADJET_OK, Some (Address.MacAddress_from_string t))
  | None => invalid "Invalid argument"
  end.
Definition wadjet_ipv4_from_string (str : option (list byte)) (ip : bool) : api (Z * option (list byte)) :=
  match str with
  | Some t => if negb ip then invalid "Invalid argument" else mret (WADJET_OK, Some (Address.IPv4Address_from_string t))
  | None => invalid "Invalid argument"
  end.

(** [std::snprintf] of the eight bytes in hexadecimal, which writes at most [buffer_size]
    bytes with the terminator. *)
Definition wadjet_gptp_clock_identity_to_string (clock : option (list byte)) (buffer : option Z) (buffer_size : Z)
    : api (Z * option (list byte)) :=
  match clock, buffer with
  | Some bytes, Some capacity =>
      if buffer_size <? 24 then mret (0, None)
      else
        let str := Address.format_hex bytes x3a true in
        written ← strcpy capacity (take (Z.to_nat (buffer_size - 1)) str);
        mret (zlen str, Some written)
  | _, _ => mret (0, None)
  end.

Definition wadjet_gptp_message_type_name (type : Z) : string :=
  if type =? 0x0 then "Sync"
  else if type =? 0x1 then "Delay_Req"
  else if type =? 0x2 then "Pdelay_Req"
  else if type =? 0x3 then "Pdelay_Resp"
  else if type =? 0x8 then "Follow_Up"
  else if type =? 0x9 then "Delay_Resp"
  else if type =? 0xA then "Pdelay_Resp_Follow_Up"
  else if type =? 0xB then "Announce"
  else if type =? 0xC then "Signaling"
  else if type =? 0xD then "Management"
  else "Unknown".

Definition wadjet_timestamp_now (timestamp : bool) : api (option wadjet_timestamp) :=
  if negb timestamp then mret None
  else t ← on_world (call system_clock); mret (Some (timestamp_of t)).

Definition milliseconds_of (t : wadjet_timestamp) : defined_or Z :=
  ms ← Timestamp.int64 (ts_seconds t * 1000);
  Timestamp.int64 (ms + Z.quot (ts_nanoseconds t) 1000000).
Definition wadjet_timestamp_diff_ms (start stop : option wadjet_timestamp) : defined_or Z :=
  match start, stop with
  | Some a, Some b => start_ms ← milliseconds_of a; end_ms ← milliseconds_of b; Timestamp.int64 (end_ms - start_ms)
  | _, _ => Done 0
  end.
End decode.
