(* ===== verification/CApiHandles.v ===== *)
(** * The discipline of handles of the C interface

    The contract between bindings/c and its callers: every handle is used between the call
    that returns it and the call that destroys it, with functions of its kind.  The
    specification is a machine that only knows which addresses are handles of which kind
    ([spec_step]); [effect] says of each call which handles it looks at, whether it makes
    one and whether it destroys one.  A call that is not in order is undefined; the others
    return and keep the two machines in step, except for the calls of [hazard], whose
    computation is undefined on handles that are in order. *)

From Stdlib Require Import ZArith Lia.
From Stdlib Require Import Strings.Byte.
From stdpp Require Import base numbers list gmap strings.
From S2P Require Import Prelude World Pcap CApi CApiDecode.
From S2P Require Decoder Dispatcher Validation Devices Uds UdsSession Correlator DiagnosticSession Timestamp Capture DoIP.

(** ** Calls *)

(** The functions that take, return or destroy a handle, with their arguments. *)
Inductive Call :=
| CaptureCreate (interface : option string) (options : option wadjet_capture_options) (session : bool)
| CaptureDestroy (session : handle)
| CaptureSetFilter (session : handle) (filter : option string)
| CaptureStart (session : handle)
| CaptureStop (session : handle)
| CaptureIsRunning (session : handle)
| CaptureNextPacket (session : handle) (timeout_ms : Z) (packet : bool)
| CaptureStatistics (session : handle) (stats : bool)
| CaptureInterface (session : handle)
| PacketCreate (data : option (list byte)) (packet : bool)
| PacketDestroy (packet : handle)
| PacketData (packet : handle) (data length : bool)
| PacketTimestamp (packet : handle) (timestamp : bool)
| PacketViewOf (packet : handle) (view : bool)
| ReaderOpen (path : option string) (reader : bool)
| ReaderDestroy (reader : handle)
| ReaderNext (reader : handle) (packet : bool)
| ReaderHasMore (reader : handle)
| ReaderReset (reader : handle)
| WriterCreate (path : option string) (writer : bool)
| WriterDestroy (writer : handle)
| WriterWrite (writer packet : handle)
| WriterWriteRaw (writer : handle) (data : option (list byte)) (timestamp : option wadjet_timestamp)
| WriterFlush (writer : handle)
| DeviceEnumerate (list : bool)
| DeviceListDestroy (list : handle)
| DeviceListCount (list : handle)
| DeviceListGet (list : handle) (index : Z) (info : bool)
| ValidatorCreate (mode : Z) (validator : bool)
| ValidatorDestroy (validator : handle)
| ValidateLayering (validator : handle) (layers : option (list Validation.ProtocolLayer)) (result : bool)
| ValidateLengths (validator : handle) (layers : option (list Validation.ProtocolLayer)) (total : Z) (result : bool)
| ValidateChecksums (validator : handle) (data : option (list byte)) (layers : option (list Validation.ProtocolLayer))
    (result : bool)
| ValidatorSetMode (validator : handle) (mode : Z)
| ValidatorGetMode (validator : handle) (mode : bool)
| ValidationResultDestroy (result : handle)
| DecodePacket (data : option (list byte)) (result : bool)
| DecodeResultDestroy (result : handle)
| DecodeResultSuccess (result : handle)
| DecodeResultHasLayer (result : handle) (protocol : Z)
| DecodeResultEthernet (result : handle) (header : bool)
| DecodeResultIpv4 (result : handle) (header : bool)
| DecodeResultUdp (result : handle) (header : bool)
| DecodeResultTcp (result : handle) (header : bool)
| DecodeResultSomeip (result : handle) (header : bool)
| DecodeResultDoip (result : handle) (header : bool)
| DecodeResultGptp (result : handle) (header : bool)
| DecodeResultPayload (result : handle) (protocol : Z) (data length : bool)
| DecodeResultUds (result : handle) (header : bool)
| UdsDecoderCreate (decoder : bool)
| UdsDecoderDestroy (decoder : handle)
| UdsDecode (decoder : handle) (data : option (list byte)) (header : bool)
| UdsSessionCreate (ecu_address : Z) (session : bool)
| UdsSessionDestroy (session : handle)
| UdsSessionProcess (session : handle) (data : option (list byte)) (is_request : bool)
| UdsSessionGetType (session : handle)
| UdsSessionIsActive (session : handle)
| UdsSessionSecurityUnlocked (session : handle) (level : Z)
| UdsSessionReset (session : handle)
| ManagerCreate (options : option wadjet_diagnostic_options) (manager : bool)
| ManagerDestroy (manager : handle)
| ManagerOnEvent (manager : handle) (callback user_data : option Z)
| ManagerProcess (manager : handle) (data : option (list byte))
| ManagerGetSession (manager : handle) (ecu_address : Z) (state : bool)
| ManagerSessionCount (manager : handle)
| ManagerStatistics (manager : handle) (recorded matched unmatched timeouts : bool)
| ManagerCheckTimeouts (manager : handle).

(** ** Specification *)

(** What a call does to handles.  [Nothing]: it returns before it looks at one.
    [Uses]: it reads objects.  [Creates]: it reads objects and may return a new handle.
    [Destroys]: it destroys the object, if the pointer is not null; no object is of the
    kind [None]. *)
Inductive Effect :=
| Nothing
| Uses (l : list (handle * Kind))
| Creates (l : list (handle * Kind)) (k : Kind)
| Destroys (p : handle) (k : option Kind).

(** A call that looks at [p] if all of its pointers are there. *)
Definition uses (p : handle) (k : Kind) (rest : bool) : Effect := if negb (null p) && rest then Uses [(p, k)] else Nothing.
Definition creates (l : list (handle * Kind)) (k : Kind) (pointers : bool) : Effect := if pointers then Creates l k else Nothing.
Definition given {A} (p : option A) : bool := negb (null p).

Definition effect (c : Call) : Effect :=
  match c with
  | CaptureCreate i _ out => creates [] CaptureKind (given i && out)
  | CaptureDestroy p => Destroys p (Some CaptureKind)
  | CaptureSetFilter p f => uses p CaptureKind (given f)
  | CaptureStart p | CaptureStop p | CaptureIsRunning p | CaptureInterface p => uses p CaptureKind true
  | CaptureNextPacket p _ out => creates [(p, CaptureKind)] PacketKind (given p && out)
  | CaptureStatistics p out => uses p CaptureKind out
  | PacketCreate d out => creates [] PacketKind (given d && out)
  | PacketDestroy p => Destroys p (Some PacketKind)
  | PacketData p a b => uses p PacketKind (a && b)
  | PacketTimestamp p out | PacketViewOf p out => uses p PacketKind out
  | ReaderOpen f out => creates [] ReaderKind (given f && out)
  | ReaderDestroy p => Destroys p (Some ReaderKind)
  | ReaderNext p out => creates [(p, ReaderKind)] PacketKind (given p && out)
  | ReaderHasMore p | ReaderReset p => uses p ReaderKind true
  | WriterCreate f out => creates [] WriterKind (given f && out)
  | WriterDestroy p => Destroys p (Some WriterKind)
  | WriterWrite p q => if given p && given q then Uses [(p, WriterKind); (q, PacketKind)] else Nothing
  | WriterWriteRaw p d t => uses p WriterKind (given d && given t)
  | WriterFlush p => uses p WriterKind true
  | DeviceEnumerate out => creates [] DevicesKind out
  | DeviceListDestroy p => Destroys p (Some DevicesKind)
  | DeviceListCount p => uses p DevicesKind true
  | DeviceListGet p _ out => uses p DevicesKind out
  | ValidatorCreate _ out => creates [] ValidatorKind out
  | ValidatorDestroy p => Destroys p (Some ValidatorKind)
  | ValidateLayering p l out => uses p ValidatorKind (given l && out)
  | ValidateLengths p l _ out => uses p ValidatorKind (given l && out)
  | ValidateChecksums p d l out => uses p ValidatorKind (given d && given l && out)
  | ValidatorSetMode p _ => uses p ValidatorKind true
  | ValidatorGetMode p out => uses p ValidatorKind out
  | ValidationResultDestroy p => Destroys p None
  | DecodePacket d out => creates [] DecodeKind (given d && out)
  | DecodeResultDestroy p => Destroys p (Some DecodeKind)
  | DecodeResultSuccess p | DecodeResultHasLayer p _ => uses p DecodeKind true
  | DecodeResultEthernet p out | DecodeResultIpv4 p out | DecodeResultUdp p out | DecodeResultTcp p out
  | DecodeResultSomeip p out | DecodeResultDoip p out | DecodeResultGptp p out | DecodeResultUds p out => uses p DecodeKind out
  | DecodeResultPayload p _ a b => uses p DecodeKind (a && b)
  | UdsDecoderCreate out => creates [] DecoderKind out
  | UdsDecoderDestroy p => Destroys p (Some DecoderKind)
  | UdsDecode p d out => uses p DecoderKind (given d && out)
  | UdsSessionCreate _ out => creates [] SessionKind out
  | UdsSessionDestroy p => Destroys p (Some SessionKind)
  | UdsSessionProcess p d _ => uses p SessionKind (given d)
  | UdsSessionGetType p | UdsSessionIsActive p | UdsSessionSecurityUnlocked p _ | UdsSessionReset p => uses p SessionKind true
  | ManagerCreate _ out => creates [] ManagerKind out
  | ManagerDestroy p => Destroys p (Some ManagerKind)
  | ManagerOnEvent p _ _ | ManagerSessionCount p | ManagerStatistics p _ _ _ _ | ManagerCheckTimeouts p =>
      uses p ManagerKind true
  | ManagerProcess p d => uses p ManagerKind (given d)
  | ManagerGetSession p _ out => uses p ManagerKind out
  end.

(** The handles that a caller holds, with their kinds. *)
Abbreviation Handles := (gmap Z Kind).

Definition holds (H : Handles) (pk : handle * Kind) : Prop := exists a, pk.1 = Some a /\ H !! a = Some pk.2.

(** The calls that are in order. *)
Definition in_order (H : Handles) (c : Call) : Prop :=
  match effect c with
  | Nothing => True
  | Uses l | Creates l _ => Forall (holds H) l
  | Destroys None _ => True
  | Destroys (Some a) k => exists k', k = Some k' /\ H !! a = Some k'
  end.

(** What the caller holds after a call that returned the handle [h]. *)
Inductive spec_step (H : Handles) (c : Call) : handle -> Handles -> Prop :=
| spec_uses : (match effect c with Nothing | Uses _ | Creates _ _ => True | Destroys p _ => p = None end) -> spec_step H c None H
| spec_creates l k a : effect c = Creates l k -> H !! a = None -> spec_step H c (Some a) (<[a := k]> H)
| spec_destroys a k : effect c = Destroys (Some a) k -> spec_step H c None (delete a H).

(** ** The calls of the interface *)

Section handles.
Context {W Session : Type} `{!CaptureSessions W Session, !Files W, !Clocks W}.
Context `{!Descriptors W, !Devices.Interfaces W}.
Context (big : bool) (enough_memory : nat -> bool) (iterate : forall A : Type, gmap Z A -> list (Z * A)).
#[local] Abbreviation api := (io (Api W Session)).
Implicit Types s : Api W Session.

(** A call that may return a new handle, and one that returns none. *)
Definition returning (m : api (Z * option handle)) : api handle := r ← m; mret (mjoin r.2).
Definition only {A} (m : api A) : api handle := r ← m; mret None.

Definition exec (c : Call) : api handle :=
  match c with
  | CaptureCreate i o out => returning (wadjet_capture_create enough_memory i o out)
  | CaptureDestroy p => only (wadjet_capture_destroy p)
  | CaptureSetFilter p f => only (wadjet_capture_set_filter p f)
  | CaptureStart p => only (wadjet_capture_start p)
  | CaptureStop p => only (wadjet_capture_stop p)
  | CaptureIsRunning p => only (wadjet_capture_is_running p)
  | CaptureNextPacket p t out => returning (wadjet_capture_next_packet enough_memory p t out)
  | CaptureStatistics p out => only (wadjet_capture_stats p out)
  | CaptureInterface p => only (wadjet_capture_interface p)
  | PacketCreate d out => returning (wadjet_packet_create enough_memory d out)
  | PacketDestroy p => only (wadjet_packet_destroy p)
  | PacketData p a b => only (wadjet_packet_data p a b)
  | PacketTimestamp p out => only (wadjet_packet_timestamp p out)
  | PacketViewOf p out => only (wadjet_packet_view p out)
  | ReaderOpen f out => returning (wadjet_pcap_reader_open big enough_memory f out)
  | ReaderDestroy p => only (wadjet_pcap_reader_destroy p)
  | ReaderNext p out => returning (wadjet_pcap_reader_next big enough_memory p out)
  | ReaderHasMore p => only (wadjet_pcap_reader_has_more p)
  | ReaderReset p => only (wadjet_pcap_reader_reset p)
  | WriterCreate f out => returning (wadjet_pcap_writer_create big enough_memory f out)
  | WriterDestroy p => only (wadjet_pcap_writer_destroy p)
  | WriterWrite p q => only (wadjet_pcap_writer_write big p q)
  | WriterWriteRaw p d t => only (wadjet_pcap_writer_write_raw big p d t)
  | WriterFlush p => only (wadjet_pcap_writer_flush p)
  | DeviceEnumerate out => returning (wadjet_device_enumerate enough_memory out)
  | DeviceListDestroy p => only (wadjet_device_list_destroy p)
  | DeviceListCount p => only (wadjet_device_list_count p)
  | DeviceListGet p i out => only (wadjet_device_list_get p i out)
  | ValidatorCreate m out => returning (wadjet_protocol_validator_create m out)
  | ValidatorDestroy p => only (wadjet_protocol_validator_destroy p)
  | ValidateLayering p l out => only (wadjet_validate_layering p l out)
  | ValidateLengths p l n out => only (wadjet_validate_lengths p l n out)
  | ValidateChecksums p d l out => only (wadjet_validate_checksums p d l out)
  | ValidatorSetMode p m => only (wadjet_protocol_validator_set_mode p m)
  | ValidatorGetMode p out => only (wadjet_protocol_validator_get_mode p out)
  | ValidationResultDestroy p => only (wadjet_validation_result_destroy p)
  | DecodePacket d out => returning (wadjet_decode_packet enough_memory d out)
  | DecodeResultDestroy p => only (wadjet_decode_result_destroy p)
  | DecodeResultSuccess p => only (wadjet_decode_result_success p)
  | DecodeResultHasLayer p n => only (wadjet_decode_result_has_layer p n)
  | DecodeResultEthernet p out => only (wadjet_decode_result_ethernet p out)
  | DecodeResultIpv4 p out => only (wadjet_decode_result_ipv4 p out)
  | DecodeResultUdp p out => only (wadjet_decode_result_udp p out)
  | DecodeResultTcp p out => only (wadjet_decode_result_tcp p out)
  | DecodeResultSomeip p out => only (wadjet_decode_result_someip p out)
  | DecodeResultDoip p out => only (wadjet_decode_result_doip p out)
  | DecodeResultGptp p out => only (wadjet_decode_result_gptp p out)
  | DecodeResultPayload p n a b => only (wadjet_decode_result_payload p n a b)
  | DecodeResultUds p out => only (wadjet_decode_result_uds p out)
  | UdsDecoderCreate out => returning (wadjet_uds_decoder_create enough_memory out)
  | UdsDecoderDestroy p => only (wadjet_uds_decoder_destroy p)
  | UdsDecode p d out => only (wadjet_uds_decode p d out)
  | UdsSessionCreate a out => returning (wadjet_uds_session_create enough_memory a out)
  | UdsSessionDestroy p => only (wadjet_uds_session_destroy p)
  | UdsSessionProcess p d q => only (wadjet_uds_session_process p d q)
  | UdsSessionGetType p => only (wadjet_uds_session_get_type p)
  | UdsSessionIsActive p => only (wadjet_uds_session_is_active p)
  | UdsSessionSecurityUnlocked p l => only (wadjet_uds_session_security_unlocked p l)
  | UdsSessionReset p => only (wadjet_uds_session_reset p)
  | ManagerCreate o out => returning (wadjet_diagnostic_manager_create o out)
  | ManagerDestroy p => only (wadjet_diagnostic_manager_destroy p)
  | ManagerOnEvent p f u => only (wadjet_diagnostic_manager_on_event p f u)
  | ManagerProcess p d => only (wadjet_diagnostic_manager_process p d)
  | ManagerGetSession p a out => only (wadjet_diagnostic_manager_get_session p a out)
  | ManagerSessionCount p => only (wadjet_diagnostic_manager_session_count iterate p)
  | ManagerStatistics p a b c d => only (wadjet_diagnostic_manager_statistics p a b c d)
  | ManagerCheckTimeouts p => only (wadjet_diagnostic_manager_check_timeouts p)
  end.

(** The calls whose computation is undefined: a validation that returns its result, a
    packet on which a decoder reads too far, a time that overflows. *)
Definition hazard s (c : Call) : Prop :=
  match c with
  | ValidateLayering p l out => given p && given l && out = true
  | ValidateLengths p l _ out => given p && given l && out = true
  | ValidateChecksums p d l out => given p && given d && given l && out = true
  | DecodePacket (Some d) true =>
      enough_memory (allocations s) = true /\ Dispatcher.decode (default_dispatcher s) d = Undef
  | WriterWriteRaw (Some _) (Some _) (Some t) =>
      Timestamp.from_unix (E := Empty_set) (ts_seconds t) (ts_nanoseconds t) = Undef
  | _ => False
  end.

(** The objects as the interface keeps them. *)
Definition wf_object (o : object Session) : Prop :=
  match o with
  | ReaderObject r => 0 <= memory_offset r
  | ManagerObject m => DiagnosticSession.good_correlator (mh_manager m)
  | _ => True
  end.
Record wf_api s : Prop := {
  wf_objects : map_Forall (fun _ o => wf_object o) (heap s);
  wf_addresses : forall a, next_address s <= a -> heap s !! a = None
}.

(** The handles that the caller of the interface holds. *)
Definition handles s : Handles := kind_of <$> heap s.

(** * Properties *)

(** Capture sessions return from their operations. *)
Class SessionLaws : Prop := {
  create_total i o (w : W) : total (create_session (Session := Session) i o w);
  destroy_total (c : Session) (w : W) : total (destroy_session c w);
  filter_total f (c : Session) (w : W) : total (session_set_filter f c w);
  start_total (c : Session) (w : W) : total (session_start c w);
  stop_total (c : Session) (w : W) : total (session_stop c w);
  next_total t (c : Session) (w : W) : total (session_next_packet t c w);
  stats_total (c : Session) (w : W) : total (session_stats c w)
}.
Context `{!SessionLaws}.

(** ** Computations that keep the handles *)

Definition keeps {A} (m : api A) s : Prop :=
  exists a s', m s = Done (a, s') /\ handles s' = handles s /\ wf_api s'.

Lemma keeps_ret {A} (a : A) s : wf_api s -> keeps (mret a) s.
Proof. exists a, s. auto. Qed.

Lemma keeps_bind {A B} (m : api A) (k : A -> api B) s :
  keeps m s -> (forall a s', handles s' = handles s -> wf_api s' -> keeps (k a) s') -> keeps (m ≫= k) s.
Proof.
  intros (a & s1 & Hm & Hh & Hw) Hk. destruct (Hk a s1 Hh Hw) as (b & s2 & Hb & Hh2 & Hw2).
  exists b, s2. split; [rewrite (bind_done _ _ _ _ _ Hm); exact Hb | split; [congruence | exact Hw2]].
Qed.

(** Changes that leave the heap alone. *)
Lemma wf_same_heap s s' : wf_api s -> heap s' = heap s -> next_address s' = next_address s -> wf_api s'.
Proof. intros [Ho Ha] Hh Hn. split; rewrite Hh; [exact Ho | rewrite Hn; exact Ha]. Qed.

Lemma keeps_call {A} (f : Api W Session -> A * Api W Session) s :
  heap (f s).2 = heap s -> next_address (f s).2 = next_address s -> wf_api s -> keeps (call f) s.
Proof.
  intros Hh Hn Hw. exists (f s).1, (f s).2. split; [unfold call; destruct (f s); reflexivity|].
  split; [unfold handles; rewrite Hh; reflexivity | eapply wf_same_heap; eassumption].
Qed.

Lemma keeps_fail_code msg code s : wf_api s -> keeps (fail_code msg code) s.
Proof. intros Hw. apply keeps_bind; [apply keeps_call; auto | intros; apply keeps_ret; assumption]. Qed.

Lemma keeps_fail_with {A} msg code s : wf_api s -> keeps (fail_with (A := A) msg code) s.
Proof. intros Hw. apply keeps_bind; [apply keeps_call; auto | intros; apply keeps_ret; assumption]. Qed.

Lemma keeps_invalid {A} msg s : wf_api s -> keeps (invalid (A := A) msg) s.
Proof. apply keeps_fail_with. Qed.

Lemma keeps_handle_result {A} (r : outcome A) s : wf_api s -> keeps (handle_result r) s.
Proof. destruct r; [apply keeps_fail_code | apply keeps_ret]. Qed.

Lemma keeps_on_world {A} (m : io W A) s : total (m (world s)) -> wf_api s -> keeps (on_world m) s.
Proof.
  intros [[a w] Hm] Hw. exists a, (set_world w s). unfold on_world. rewrite Hm. split; [reflexivity|].
  split; [reflexivity | eapply wf_same_heap; [exact Hw | reflexivity..]].
Qed.

Lemma keeps_lift {A} (m : defined_or A) s : total m -> wf_api s -> keeps (lift m) s.
Proof. intros [a ->] Hw. exists a, s. auto. Qed.

Lemma keeps_now s : wf_api s -> keeps now s.
Proof.
  intros Hw. apply keeps_bind; [apply keeps_on_world; [eexists; reflexivity | exact Hw]|].
  intros. apply keeps_ret. assumption.
Qed.

(** ** Objects *)

(** The objects that a projection accepts are those of the kind. *)
Definition selects {A} (as_kind : object Session -> option A) (k : Kind) : Prop :=
  forall o, is_Some (as_kind o) <-> kind_of o = k.

Lemma object_at_held {A} (as_kind : object Session -> option A) k p s :
  selects as_kind k -> holds (handles s) (p, k) -> wf_api s ->
  exists a o x, p = Some a /\ heap s !! a = Some o /\ as_kind o = Some x /\ wf_object o /\ object_at as_kind p s = Done (x, s).
Proof.
  intros Hs (a & Hp & Ha) Hw. cbn in Hp, Ha. subst p. unfold handles in Ha. rewrite lookup_fmap in Ha.
  destruct (heap s !! a) as [o|] eqn:Ho; [|discriminate]. cbn in Ha. injection Ha as Hk.
  destruct (proj2 (Hs o) Hk) as [x Hx]. exists a, o, x. split_and!; auto.
  - exact (wf_objects s Hw a o Ho).
  - unfold object_at. rewrite Ho. cbn. rewrite Hx. reflexivity.
Qed.

Lemma object_at_not_held {A} (as_kind : object Session -> option A) k p s :
  selects as_kind k -> ~ holds (handles s) (p, k) -> object_at as_kind p s = Undef.
Proof.
  intros Hs Hn. unfold object_at. destruct p as [a|]; [|reflexivity].
  destruct (heap s !! a) as [o|] eqn:Ho; cbn; [|reflexivity].
  destruct (as_kind o) as [x|] eqn:Hx; [|reflexivity]. exfalso. apply Hn. exists a. split; [reflexivity|].
  cbn. unfold handles. rewrite lookup_fmap, Ho. cbn. f_equal. apply Hs. eauto.
Qed.

Lemma keeps_object {A B} (as_kind : object Session -> option A) k p (f : A -> api B) s :
  selects as_kind k -> holds (handles s) (p, k) -> wf_api s ->
  (forall x o, as_kind o = Some x -> wf_object o -> keeps (f x) s) -> keeps (object_at as_kind p ≫= f) s.
Proof.
  intros Hs Hp Hw Hf. destruct (object_at_held as_kind k p s Hs Hp Hw) as (a & o & x & _ & _ & Hx & Ho & Hr).
  destruct (Hf x o Hx Ho) as (b & s' & Hb & Hrest). exists b, s'. rewrite (bind_done _ _ _ _ _ Hr). auto.
Qed.

Lemma keeps_store k p o s :
  holds (handles s) (p, k) -> kind_of o = k -> wf_object o -> wf_api s -> keeps (store p o) s.
Proof.
  intros (a & Hp & Ha) Hk Ho [Hobj Haddr]. cbn in Hp, Ha. subst p. eexists tt, _. split; [reflexivity|]. cbn. split.
  - unfold handles. cbn. rewrite fmap_insert, Hk. apply insert_id, Ha.
  - split; cbn; [apply map_Forall_insert_2; assumption|]. intros b Hb. rewrite lookup_insert_ne; [apply Haddr, Hb|].
    intros ->. specialize (Haddr b Hb). unfold handles in Ha. rewrite lookup_fmap, Haddr in Ha. discriminate.
Qed.

Lemma holds_same s s' pk : handles s' = handles s -> holds (handles s) pk -> holds (handles s') pk.
Proof. intros ->. auto. Qed.

(** ** Calls that use handles *)

Lemma selects_capture : selects as_capture CaptureKind.
Proof. intros []; split; try discriminate; try (intros [? [=]]); eauto. Qed.
Lemma selects_reader : selects as_reader ReaderKind.
Proof. intros []; split; try discriminate; try (intros [? [=]]); eauto. Qed.
Lemma selects_writer : selects as_writer WriterKind.
Proof. intros []; split; try discriminate; try (intros [? [=]]); eauto. Qed.
Lemma selects_packet : selects as_packet PacketKind.
Proof. intros []; split; try discriminate; try (intros [? [=]]); eauto. Qed.
Lemma selects_decode : selects as_decode DecodeKind.
Proof. intros []; split; try discriminate; try (intros [? [=]]); eauto. Qed.
Lemma selects_devices : selects as_devices DevicesKind.
Proof. intros []; split; try discriminate; try (intros [? [=]]); eauto. Qed.
Lemma selects_decoder : selects as_decoder DecoderKind.
Proof. intros []; split; try discriminate; try (intros [? [=]]); eauto. Qed.
Lemma selects_validator : selects as_validator ValidatorKind.
Proof. intros []; split; try discriminate; try (intros [? [=]]); eauto. Qed.
Lemma selects_session : selects as_session SessionKind.
Proof. intros []; split; try discriminate; try (intros [? [=]]); eauto. Qed.
Lemma selects_manager : selects as_manager ManagerKind.
Proof. intros []; split; try discriminate; try (intros [? [=]]); eauto. Qed.
#[local] Hint Resolve selects_capture selects_reader selects_writer selects_packet selects_decode selects_devices
  selects_decoder selects_validator selects_session selects_manager : wadjet.
#[local] Hint Resolve create_total destroy_total filter_total start_total stop_total next_total stats_total : wadjet.

Create HintDb c_api.
(** The functions of the interface, which proofs by case analysis unfold. *)
#[local] Hint Unfold wadjet_capture_create wadjet_capture_destroy wadjet_capture_set_filter wadjet_capture_start
  wadjet_capture_stop wadjet_capture_is_running wadjet_capture_next_packet wadjet_capture_stats
  wadjet_capture_interface wadjet_packet_create wadjet_packet_destroy wadjet_packet_data
  wadjet_packet_timestamp wadjet_packet_view wadjet_pcap_reader_open wadjet_pcap_reader_destroy
  wadjet_pcap_reader_next wadjet_pcap_reader_has_more wadjet_pcap_reader_reset wadjet_pcap_writer_create
  wadjet_pcap_writer_destroy wadjet_pcap_writer_write wadjet_pcap_writer_write_raw wadjet_pcap_writer_flush
  wadjet_device_enumerate wadjet_device_list_destroy wadjet_device_list_count wadjet_device_list_get
  wadjet_protocol_validator_create wadjet_protocol_validator_destroy wadjet_validate_layering wadjet_validate_lengths
  wadjet_validate_checksums wadjet_protocol_validator_set_mode wadjet_protocol_validator_get_mode wadjet_validation_result_destroy
  wadjet_decode_packet wadjet_decode_result_destroy wadjet_decode_result_success wadjet_decode_result_has_layer
  wadjet_decode_result_ethernet wadjet_decode_result_ipv4 wadjet_decode_result_udp wadjet_decode_result_tcp
  wadjet_decode_result_someip wadjet_decode_result_doip wadjet_decode_result_gptp wadjet_decode_result_payload
  wadjet_decode_result_uds wadjet_uds_decoder_create wadjet_uds_decoder_destroy wadjet_uds_decode
  wadjet_uds_session_create wadjet_uds_session_destroy wadjet_uds_session_process wadjet_uds_session_get_type
  wadjet_uds_session_is_active wadjet_uds_session_security_unlocked wadjet_uds_session_reset wadjet_diagnostic_manager_create
  wadjet_diagnostic_manager_destroy wadjet_diagnostic_manager_on_event wadjet_diagnostic_manager_process wadjet_diagnostic_manager_get_session
  wadjet_diagnostic_manager_session_count wadjet_diagnostic_manager_statistics wadjet_diagnostic_manager_check_timeouts : c_api.
#[local] Hint Unfold header_of on_session validating : c_api.

(** A held handle is held by states with the same handles. *)
Ltac held :=
  repeat first [eassumption | eapply holds_same; [eassumption|]].

(** One step through a computation that keeps the handles. *)
Ltac keep :=
  lazymatch goal with
  | |- keeps (mret _) _ => apply keeps_ret; assumption
  | |- keeps (fail_code _ _) _ => apply keeps_fail_code; assumption
  | |- keeps (fail_with _ _) _ => apply keeps_fail_with; assumption
  | |- keeps out_of_memory _ => apply keeps_fail_with; assumption
  | |- keeps (invalid _) _ => apply keeps_invalid; assumption
  | |- keeps (handle_result _) _ => apply keeps_handle_result; assumption
  | |- keeps now _ => apply keeps_now; assumption
  | |- keeps (store _ _) _ => eapply keeps_store; [held | reflexivity | try exact I | assumption]
  | |- keeps (call _) _ => apply keeps_call; [reflexivity | reflexivity | assumption]
  | |- keeps (on_world _) _ => apply keeps_on_world; [try (auto with wadjet; eexists; reflexivity) | assumption]
  | |- keeps (lift _) _ => apply keeps_lift; [|assumption]
  | |- keeps (object_at _ _ ≫= _) _ => eapply keeps_object; [auto with wadjet | held | assumption | intros ? ? ? ?]
  | |- keeps (_ ≫= _) _ => apply keeps_bind; [|intros ? ? ? ?]
  | |- keeps (match ?x with _ => _ end) _ => destruct x eqn:?
  end.

(** The call returns no handle. *)
Definition returns_none (m : api handle) s : Prop :=
  exists s', m s = Done (None, s') /\ handles s' = handles s /\ wf_api s'.

Lemma returns_only {A} (m : api A) s : keeps m s -> returns_none (only m) s.
Proof.
  intros (a & s' & Hm & Hrest). exists s'. unfold only. rewrite (bind_done _ _ _ _ _ Hm). auto.
Qed.

Lemma returns_invalid msg s : wf_api s -> returns_none (returning (invalid msg)) s.
Proof. intros Hw. eexists. split; [reflexivity|]. split; [reflexivity | eapply wf_same_heap; [exact Hw | reflexivity..]]. Qed.

Lemma nothing_step c s : effect c = Nothing -> wf_api s -> returns_none (exec c) s.
Proof.
  intros He Hw. destruct c; cbn [effect] in He; unfold uses, creates, given in He;
    repeat match goal with
    | p : handle |- _ => destruct p
    | p : option _ |- _ => destruct p
    | b : bool |- _ => lazymatch b with big => fail | _ => destruct b end
    end; try discriminate He; cbn [exec]; try (apply returns_invalid, Hw); apply returns_only; autounfold with c_api; cbn [null negb orb andb]; repeat keep.
Qed.

(** ** Computations of the library *)

Lemma keeps_done {A B} (m : api A) (k : A -> api B) s a s1 :
  m s = Done (a, s1) -> keeps (k a) s1 -> handles s1 = handles s -> keeps (m ≫= k) s.
Proof.
  intros Hm (b & s2 & Hb & Hh & Hw) Hs. exists b, s2. rewrite (bind_done _ _ _ _ _ Hm). split; [exact Hb|].
  split; [congruence | exact Hw].
Qed.

Lemma keeps_get_layer {T} (as_header : Dispatcher.DecodedHeader -> option T) ls s :
  Dispatcher.has_layer as_header ls = true -> wf_api s -> keeps (deref (Dispatcher.get_layer as_header ls)) s.
Proof.
  intros Hl Hw. assert (Hg : is_Some (Dispatcher.get_layer as_header ls)).
  { induction ls as [|l ls IH]; [discriminate|]. cbn in *. destruct (as_header l); eauto. }
  destruct Hg as [h ->]. exists h, s. auto.
Qed.

Lemma keeps_update_manager p old m s :
  holds (handles s) (p, ManagerKind) -> DiagnosticSession.good_correlator m -> wf_api s -> keeps (update_manager p old m) s.
Proof.
  intros Hp Hm Hw. unfold update_manager. apply keeps_bind; [|intros; repeat keep].
  eapply keeps_store; [exact Hp | reflexivity | exact Hm | exact Hw].
Qed.

(** What [as_manager] finds is well formed. *)
Lemma as_manager_good o m : as_manager o = Some m -> wf_object o -> DiagnosticSession.good_correlator (mh_manager m).
Proof. destruct o; intros [=]; subst; exact (fun Hm => Hm). Qed.

Lemma as_reader_good o r : as_reader o = Some r -> wf_object o -> 0 <= memory_offset r.
Proof. destruct o; intros [=]; subst; exact (fun Hr => Hr). Qed.

Lemma keeps_process p d s : holds (handles s) (p, ManagerKind) -> wf_api s -> keeps (wadjet_diagnostic_manager_process p (Some d)) s.
Proof.
  intros Hp Hw. pose proof Hp as (a & Ha & _). cbn in Ha. subst p. cbn [wadjet_diagnostic_manager_process].
  keep. rename x into m. pose proof (as_manager_good o m ltac:(assumption) ltac:(assumption)) as Hm.
  apply keeps_bind; [repeat keep|]. intros n s1 Hs1 Hw1.
  destruct (DiagnosticSession.raw_goes (fun i => n (S i)) d (n 0%nat) (mh_manager m) Hm) as (r & m' & Hr & Hg).
  eapply keeps_done; [unfold lift; rewrite Hr; reflexivity | | reflexivity].
  apply keeps_bind; [apply keeps_update_manager; [held | apply Hg | exact Hw1] | intros; keep].
Qed.

Lemma keeps_check_timeouts p s :
  holds (handles s) (p, ManagerKind) -> wf_api s -> keeps (wadjet_diagnostic_manager_check_timeouts p) s.
Proof.
  intros Hp Hw. unfold wadjet_diagnostic_manager_check_timeouts. destruct (null p); [keep|].
  keep. rename x into m. pose proof (as_manager_good o m ltac:(assumption) ltac:(assumption)) as Hm.
  apply keeps_bind; [keep|]. intros n s1 Hs1 Hw1.
  destruct (DiagnosticSession.correlator_step_total (Correlator.CheckTimeouts n) (mh_manager m) Hm) as (m' & Hd & Hg & _).
  unfold DiagnosticSession.correlator_step in Hd. cbn [Correlator.step] in Hd. rewrite bind_Done in Hd.
  apply Done_inj in Hd. destruct (Correlator.check_timeouts n _) as [count c]. cbn [snd] in Hd. subst m'.
  apply keeps_bind; [apply keeps_update_manager; [held | exact Hg | exact Hw1] | intros; keep].
Qed.

Lemma keeps_on_event p f u s : holds (handles s) (p, ManagerKind) -> wf_api s -> keeps (wadjet_diagnostic_manager_on_event p f u) s.
Proof.
  intros Hp Hw. unfold wadjet_diagnostic_manager_on_event. destruct (null p); [keep|].
  keep. rename x into m. pose proof (as_manager_good o m ltac:(assumption) ltac:(assumption)) as Hm.
  keep. destruct (null f); exact Hm.
Qed.

Lemma keeps_header_of {T C} (as_header : Dispatcher.DecodedHeader -> option T) (convert : T -> C) missing p out s :
  holds (handles s) (p, DecodeKind) -> wf_api s -> keeps (header_of as_header convert missing p out) s.
Proof.
  intros Hp Hw. unfold header_of. destruct (_ || _); [keep|]. keep. destruct (Dispatcher.has_layer _ _) eqn:El; cbn [negb]; [|keep].
  apply keeps_bind; [apply keeps_get_layer; assumption | intros; keep].
Qed.

Lemma keeps_uds {A} d (f : Uds.UdsDecodeResult -> api A) (g : Uds.UdsDecodeError -> api A) s :
  (forall r, keeps (f r) s) -> (forall e, keeps (g e) s) ->
  keeps (match Uds.decode d with Done r => f r | Fail e => g e | Undef => undefined end) s.
Proof. intros Hf Hg. pose proof (Uds.decode_defined d). destruct (Uds.decode d); [apply Hf | apply Hg | contradiction]. Qed.

Lemma keeps_decode_uds p out s :
  holds (handles s) (p, DecodeKind) -> wf_api s -> keeps (wadjet_decode_result_uds p out) s.
Proof.
  intros Hp Hw. unfold wadjet_decode_result_uds. destruct (_ || _); [keep|]. keep.
  destruct (negb _); [keep|]. destruct (Dispatcher.get_layer _ _); [|keep]. destruct (negb _); [keep|]. destruct (_ =? _); [keep|].
  destruct (proj1 (DiagnosticSession.parsers_total (Dispatcher.payload x))) as [diag Hd].
  apply keeps_bind; [apply keeps_lift; [rewrite Hd; eexists; reflexivity | assumption]|]. intros d1 s1 Hs1 Hw1.
  destruct d1; [|keep]. apply keeps_uds; intros; keep.
Qed.

Lemma keeps_uds_decode p d out s : holds (handles s) (p, DecoderKind) -> wf_api s -> keeps (wadjet_uds_decode p d out) s.
Proof.
  intros Hp Hw. unfold wadjet_uds_decode. destruct d; [|keep]. destruct (_ || _); [keep|]. keep.
  apply keeps_uds; intros; keep.
Qed.

Lemma keeps_session_process p d q s :
  holds (handles s) (p, SessionKind) -> wf_api s -> keeps (wadjet_uds_session_process p d q) s.
Proof.
  intros Hp Hw. unfold wadjet_uds_session_process. keep; [|keep]. keep; [|keep]. keep. keep; [keep|].
  unfold UdsSession.process_message. pose proof (Uds.decode_defined l) as Hd.
  destruct (Uds.decode l); [| |contradiction]; repeat keep.
Qed.

Lemma keeps_write_raw p d t s :
  holds (handles s) (p, WriterKind) -> ~ hazard s (WriterWriteRaw p d t) -> wf_api s ->
  keeps (wadjet_pcap_writer_write_raw big p d t) s.
Proof.
  intros Hp Hz Hw. unfold wadjet_pcap_writer_write_raw. pose proof Hp as (a & Ha & _). cbn in Ha. subst p.
  destruct d as [d|]; [|keep]. destruct t as [t|]; [|keep]. apply keeps_bind; [|intros; repeat keep].
  apply keeps_lift; [|exact Hw]. cbn [hazard] in Hz.
  destruct (Timestamp.from_unix _ _) as [ts|[]|]; [eexists; reflexivity | contradiction].
Qed.

Lemma keeps_write p q s :
  holds (handles s) (p, WriterKind) -> holds (handles s) (q, PacketKind) -> wf_api s -> keeps (wadjet_pcap_writer_write big p q) s.
Proof. intros Hp Hq Hw. unfold wadjet_pcap_writer_write. repeat keep. Qed.

Lemma keeps_reader_reset p s : holds (handles s) (p, ReaderKind) -> wf_api s -> keeps (wadjet_pcap_reader_reset p) s.
Proof.
  intros Hp Hw. unfold wadjet_pcap_reader_reset. repeat keep. cbn. unfold FILE_HEADER_SIZE. lia.
Qed.

Lemma uses_step c l s : effect c = Uses l -> Forall (holds (handles s)) l -> ~ hazard s c -> wf_api s -> returns_none (exec c) s.
Proof.
  intros He Hl Hz Hw. destruct c; cbn [effect] in He; unfold uses, creates, given in He; try discriminate He;
    match type of He with context [if ?b then _ else _] => destruct b eqn:Eb end; try discriminate He;
    injection He as <-; repeat apply Forall_cons in Hl as [? Hl]; cbn [exec]; apply returns_only;
    unfold wadjet_decode_result_ethernet, wadjet_decode_result_ipv4, wadjet_decode_result_udp, wadjet_decode_result_tcp,
      wadjet_decode_result_someip, wadjet_decode_result_doip, wadjet_decode_result_gptp;
    auto using keeps_header_of, keeps_decode_uds, keeps_uds_decode, keeps_session_process, keeps_write_raw, keeps_write,
      keeps_reader_reset, keeps_check_timeouts, keeps_on_event.
  all: try (destruct manager; [|discriminate Eb]; destruct data; [|discriminate Eb]; apply keeps_process; assumption).
  all: try (exfalso; apply Hz; cbn [hazard]; rewrite <- Eb; unfold given; rewrite ?andb_assoc; reflexivity).
  all: autounfold with c_api; repeat keep.
Qed.

(** ** Calls that destroy an object *)

Lemma delete_held {A} (as_kind : object Session -> option A) k (destructor : A -> io W unit) a s :
  selects as_kind k -> (forall x w, total (destructor x w)) -> handles s !! a = Some k -> wf_api s ->
  exists s', only (delete_object as_kind destructor (Some a)) s = Done (None, s') /\
    handles s' = delete a (handles s) /\ wf_api s'.
Proof.
  intros Hs Ht Ha Hw.
  destruct (object_at_held as_kind k (Some a) s Hs (ex_intro _ a (conj eq_refl Ha)) Hw) as (b & o & x & _ & _ & _ & _ & Hx).
  destruct (Ht x (world s)) as [[u w] Hd]. eexists. split; [|split].
  - unfold only, delete_object, mbind, io_bind. rewrite Hx. unfold on_world. rewrite Hd. reflexivity.
  - unfold handles. cbn. apply fmap_delete.
  - destruct Hw as [Ho Haddr]. split; cbn; [apply map_Forall_delete, Ho|]. intros c Hc. apply lookup_delete_None. right. apply Haddr, Hc.
Qed.

Lemma delete_null {A} (as_kind : object Session -> option A) (destructor : A -> io W unit) s :
  wf_api s -> returns_none (only (delete_object as_kind destructor None)) s.
Proof. intros Hw. exists s. auto. Qed.

Lemma no_destructor_total {A} (x : A) (w : W) : total (no_destructor x w).
Proof. eexists. reflexivity. Qed.

(** The calls that destroy a handle apply [delete] to objects of the kind of their effect. *)
Lemma destroys_delete c p k :
  effect c = Destroys p k ->
  exists A (as_kind : object Session -> option A) destructor,
    exec c = only (delete_object as_kind destructor p) /\ (forall x w, total (destructor x w)) /\
    match k with Some k => selects as_kind k | None => forall o, as_kind o = None end.
Proof.
  intros He. destruct c; cbn [effect] in He; unfold uses, creates, given in He; try discriminate He;
    try (match type of He with context [if ?b then _ else _] => destruct b end; discriminate He);
    injection He as <- <-; eexists _, _, _; (split; [reflexivity|]); split; auto using no_destructor_total with wadjet.
Qed.

(** ** Calls that are not in order *)

Lemma object_undef {A B} (as_kind : object Session -> option A) k p (f : A -> api B) s :
  selects as_kind k -> ~ holds (handles s) (p, k) -> (object_at as_kind p ≫= f) s = Undef.
Proof. intros Hs Hn. apply bind_undef. eapply object_at_not_held; eassumption. Qed.

Lemma only_undef {A} (m : api A) s : m s = Undef -> only m s = Undef.
Proof. apply bind_undef. Qed.

#[local] Instance holds_dec (Hs : Handles) pk : Decision (holds Hs pk).
Proof.
  unfold holds. destruct pk as [[a|] k]; cbn; [|right; intros (a & [=] & _)].
  destruct (decide (Hs !! a = Some k)) as [E|E]; [left; eauto | right; intros (b & [= <-] & Hb); auto].
Defined.

Lemma write_undef p q s :
  ~ Forall (holds (handles s)) [(p, WriterKind); (q, PacketKind)] -> (null p || null q) = false -> wf_api s ->
  wadjet_pcap_writer_write big p q s = Undef.
Proof.
  intros Hl Hn Hw. unfold wadjet_pcap_writer_write. rewrite Hn.
  destruct (decide (holds (handles s) (p, WriterKind))) as [Hp|Hp]; [|apply (object_undef _ WriterKind); auto with wadjet].
  destruct (object_at_held _ _ _ _ selects_writer Hp Hw) as (a & o & w & _ & _ & _ & _ & E).
  rewrite (bind_done _ _ _ _ _ E). apply (object_undef _ PacketKind); [auto with wadjet|]. intros Hq. apply Hl. auto.
Qed.

Lemma uses_undef c l s : effect c = Uses l -> ~ Forall (holds (handles s)) l -> wf_api s -> exec c s = Undef.
Proof.
  intros He Hl Hw. destruct c; cbn [effect] in He; unfold uses, creates, given in He; try discriminate He;
    match type of He with context [if ?b then _ else _] => destruct b eqn:Eb end; try discriminate He;
    injection He as <-; cbn [exec]; apply only_undef;
    [.. | idtac];
    try (apply write_undef; [exact Hl | destruct writer, packet; [reflexivity | discriminate Eb ..] | exact Hw]);
    (assert (Hn : forall pk, ~ Forall (holds (handles s)) [pk] -> ~ holds (handles s) pk)
       by (intros pk Hx Hy; apply Hx; auto)); apply Hn in Hl; clear Hn;
    repeat match goal with
    | p : option _ |- _ => destruct p; try discriminate Eb; []
    | b : bool |- _ => lazymatch b with big => fail | _ => destruct b; try discriminate Eb; [] end
    end; autounfold with c_api.
  all: try (eapply object_undef; [auto with wadjet | exact Hl]).
  destruct (Timestamp.from_unix (E:=Empty_set) (ts_seconds w) (ts_nanoseconds w)) as [ts|[]|] eqn:E; [|apply bind_undef; reflexivity].
  rewrite (bind_done _ _ s ts s) by reflexivity. eapply object_undef; [auto with wadjet | exact Hl].
Qed.

(** ** Calls that create an object *)

(** The computation returns a new handle to an object of the kind, or none. *)
Definition gives (k : Kind) (m : api (Z * option handle)) s : Prop :=
  exists r s', m s = Done (r, s') /\ wf_api s' /\
    match mjoin r.2 with
    | None => handles s' = handles s
    | Some a => handles s !! a = None /\ handles s' = <[a := k]> (handles s)
    end.

Lemma gives_keeps k (f : api Z) s :
  keeps f s -> gives k (code ← f; mret (code, None)) s.
Proof. intros (a & s' & Hf & Hh & Hw). exists (a, None), s'. rewrite (bind_done _ _ _ _ _ Hf). split; [reflexivity | auto]. Qed.

Lemma gives_fail k msg code s : wf_api s -> gives k (fail_with msg code) s.
Proof.
  intros Hw. eexists (code, None), _. split; [reflexivity|]. split; [|reflexivity].
  eapply wf_same_heap; [exact Hw | reflexivity..].
Qed.

Lemma gives_code k code s : wf_api s -> gives k (mret (code, None)) s.
Proof. intros Hw. exists (code, None), s. split; [reflexivity|]. split; [exact Hw | reflexivity]. Qed.

Lemma gives_bind {A} k (m : api A) (f : A -> api (Z * option handle)) s :
  keeps m s -> (forall a s', handles s' = handles s -> wf_api s' -> gives k (f a) s') -> gives k (m ≫= f) s.
Proof.
  intros (a & s1 & Hm & Hh & Hw) Hf. destruct (Hf a s1 Hh Hw) as (r & s2 & Hr & Hw2 & Hrest).
  exists r, s2. rewrite (bind_done _ _ _ _ _ Hm), <- Hh. auto.
Qed.

(** An allocation that fails, and one that succeeds. *)
Lemma allocate_cases o s :
  wf_object o -> wf_api s ->
  (enough_memory (allocations s) = false /\
   exists s', allocate enough_memory o s = Done (None, s') /\ handles s' = handles s /\ wf_api s') \/
  (enough_memory (allocations s) = true /\
   exists a s', allocate enough_memory o s = Done (Some a, s') /\ handles s !! a = None /\
     handles s' = <[a := kind_of o]> (handles s) /\ default_dispatcher s' = default_dispatcher s /\ wf_api s').
Proof.
  intros Ho [Hobj Haddr]. unfold allocate, call. destruct (enough_memory (allocations s)); [right | left].
  - split; [reflexivity|]. eexists _, _. split; [reflexivity|]. split_and!; cbn.
    + unfold handles. rewrite lookup_fmap, Haddr by lia. reflexivity.
    + unfold handles. cbn. apply fmap_insert.
    + reflexivity.
    + split; cbn; [apply map_Forall_insert_2; assumption|].
      intros a Ha. rewrite lookup_insert_ne by lia. apply Haddr. lia.
  - split; [reflexivity|]. eexists. split; [reflexivity|]. split; [reflexivity|]. split; assumption.
Qed.

Lemma gives_new_handle o s : wf_object o -> wf_api s -> gives (kind_of o) (new_handle enough_memory o) s.
Proof.
  intros Ho Hw. unfold new_handle. destruct (allocate_cases o s Ho Hw) as [(_ & s1 & Ha & Hh & Hw1)|(_ & a & s1 & Ha & Hf & Hh & _ & Hw1)].
  - destruct (gives_fail (kind_of o) "Memory allocation failed" WADJET_ERR_OUT_OF_MEMORY s1 Hw1) as (r & s2 & Hr & Hrest).
    exists r, s2. rewrite (bind_done _ _ _ _ _ Ha), <- Hh. auto.
  - exists (WADJET_OK, Some (Some a)), s1. rewrite (bind_done _ _ _ _ _ Ha). split; [reflexivity | cbn; auto].
Qed.

(** The computation returns [r] and keeps the handles. *)
Definition ends {A} (r : A) (m : api A) s : Prop := exists s', m s = Done (r, s') /\ handles s' = handles s /\ wf_api s'.

Lemma ends_ret {A} (r : A) s : wf_api s -> ends r (mret r) s.
Proof. exists s. split; [reflexivity | auto]. Qed.

Lemma ends_bind {A B} (m : api A) (k : A -> api B) r s :
  keeps m s -> (forall a s', handles s' = handles s -> wf_api s' -> ends r (k a) s') -> ends r (m ≫= k) s.
Proof.
  intros (a & s1 & Hm & Hh & Hw) Hk. destruct (Hk a s1 Hh Hw) as (s2 & Hb & Hh2 & Hw2).
  exists s2. rewrite (bind_done _ _ _ _ _ Hm). split; [exact Hb | split; [congruence | exact Hw2]].
Qed.

(** What is done with a new handle before it is returned. *)
Lemma gives_initialised o (f : handle -> api (Z * option handle)) s :
  wf_object o -> wf_api s ->
  (forall a s1, enough_memory (allocations s) = true -> default_dispatcher s1 = default_dispatcher s ->
     holds (handles s1) (Some a, kind_of o) -> wf_api s1 -> ends (WADJET_OK, Some (Some a)) (f (Some a)) s1) ->
  gives (kind_of o) (h ← allocate enough_memory o; if null h then out_of_memory else f h) s.
Proof.
  intros Ho Hw Hk. destruct (allocate_cases o s Ho Hw) as [(_ & s1 & Ha & Hh & Hw1)|(He & a & s1 & Ha & Hf & Hh & Hd & Hw1)].
  - destruct (gives_fail (kind_of o) "Memory allocation failed" WADJET_ERR_OUT_OF_MEMORY s1 Hw1) as (r & s2 & Hr & Hrest).
    exists r, s2. rewrite (bind_done _ _ _ _ _ Ha), <- Hh. auto.
  - destruct (Hk a s1 He Hd) as (s2 & Hu & Hh2 & Hw2); [|exact Hw1|].
    { exists a. cbn. rewrite Hh. split; [reflexivity | apply lookup_insert_eq]. }
    exists (WADJET_OK, Some (Some a)), s2. rewrite (bind_done _ _ _ _ _ Ha). split; [exact Hu|]. split; [exact Hw2|].
    cbn. rewrite Hh2. auto.
Qed.

(** ** The calls that create *)

Lemma returning_gives k m s : gives k m s -> exists h s', returning m s = Done (h, s') /\ wf_api s' /\
  match h with None => handles s' = handles s | Some a => handles s !! a = None /\ handles s' = <[a := k]> (handles s) end.
Proof.
  intros (r & s' & Hm & Hrest). exists (mjoin r.2), s'. unfold returning. rewrite (bind_done _ _ _ _ _ Hm). auto.
Qed.

Lemma gives_capture_create i o s : wf_api s -> gives CaptureKind (wadjet_capture_create enough_memory (Some i) o true) s.
Proof.
  intros Hw. cbn [wadjet_capture_create negb]. apply gives_bind; [repeat keep|]. intros r s1 Hs1 Hw1. destruct r as [e|c].
  - apply gives_keeps. keep.
  - destruct (gives_new_handle (CaptureObject c i) s1 I Hw1) as (r & s2 & Hr & Hw2 & Hrest).
    assert (Hk : keeps (if r.1 =? WADJET_OK then mret tt else on_world (destroy_session c)) s2).
    { destruct (_ =? _); repeat keep. }
    destruct Hk as ([] & s3 & Hs3 & Hh3 & Hw3). exists r, s3. rewrite (bind_done _ _ _ _ _ Hr), (bind_done _ _ _ _ _ Hs3), Hh3.
    auto.
Qed.

Lemma gives_capture_next p t s :
  holds (handles s) (p, CaptureKind) -> wf_api s -> gives PacketKind (wadjet_capture_next_packet enough_memory p t true) s.
Proof.
  intros Hp Hw. unfold wadjet_capture_next_packet. pose proof Hp as (a & Ha & _). cbn in Ha. subst p. cbn [null negb orb].
  destruct (object_at_held _ _ _ _ selects_capture Hp Hw) as (b & o & c & _ & _ & _ & _ & Hc).
  apply gives_bind; [eexists c, s; auto|]. intros c1 s1 Hs1 Hw1.
  apply gives_bind; [repeat keep|]. intros pc s2 Hs2 Hw2. apply gives_bind; [repeat keep|]. intros u s3 Hs3 Hw3.
  destruct pc.1 as [pkt|]; [apply (gives_new_handle (PacketObject pkt)); [exact I | assumption] | apply gives_code; assumption].
Qed.

(** A record that is read leaves the offset of the reader in range. *)
Lemma next_packet_total r :
  0 <= memory_offset r -> exists p r', next_packet big r = Done (p, r') /\ 0 <= memory_offset r'.
Proof.
  intros Ho. unfold next_packet. destruct (eof r); [eauto|].
  destruct (read_bytes PACKET_HEADER_SIZE r) as [[b r1]|] eqn:E1; [|do 2 eexists; split; [reflexivity | exact Ho]].
  unfold read_bytes in E1. destruct (_ <? _) eqn:El; [discriminate|]. bool_to_prop. injection E1 as Hb <-.
  assert (Hlen : length b = 16%nat).
  { rewrite <- Hb, length_take, length_drop. unfold PACKET_HEADER_SIZE in *. lia. }
  set (h := if is_swapped _ then _ else _). assert (Hwf : wf_packet_header h).
  { assert (Hx : is_swapped (set_offset (memory_offset r + PACKET_HEADER_SIZE) r) = xorb big (xorb big (is_swapped r)))
      by (cbn; destruct big, (is_swapped r); reflexivity).
    subst h. rewrite Hx, header_read by exact Hlen. apply packet_header_image, Hlen. }
  clearbody h. destruct Hwf as [Hsec Husec Hincl _]. destruct (_ || _).
  { do 2 eexists. split; [reflexivity|]. cbn. unfold PACKET_HEADER_SIZE. lia. }
  set (r2 := set_offset _ r). assert (H2 : 0 <= memory_offset r2) by (cbn; unfold PACKET_HEADER_SIZE; lia).
  destruct (read_bytes (incl_len h) r2) as [[d r3]|] eqn:E2; [|do 2 eexists; split; [reflexivity | exact H2]].
  unfold read_bytes in E2. destruct (_ <? _); [discriminate|]. injection E2 as _ <-.
  destruct (is_nanosecond _); [rewrite Timestamp.from_unix_small | rewrite Timestamp.from_unix_usec_small]; try assumption;
    (do 2 eexists; split; [reflexivity|]; cbn in H2 |- *; destruct Hincl; lia).
Qed.

Lemma gives_object {A} (as_kind : object Session -> option A) k k' p (f : A -> api (Z * option handle)) s :
  selects as_kind k -> holds (handles s) (p, k) -> wf_api s ->
  (forall x o, as_kind o = Some x -> wf_object o -> gives k' (f x) s) -> gives k' (object_at as_kind p ≫= f) s.
Proof.
  intros Hs Hp Hw Hf. destruct (object_at_held as_kind k p s Hs Hp Hw) as (a & o & x & _ & _ & Hx & Ho & Hr).
  destruct (Hf x o Hx Ho) as (b & s' & Hb & Hrest). exists b, s'. rewrite (bind_done _ _ _ _ _ Hr). auto.
Qed.

Lemma gives_done {A} k (m : api A) (f : A -> api (Z * option handle)) s a s1 :
  m s = Done (a, s1) -> handles s1 = handles s -> gives k (f a) s1 -> gives k (m ≫= f) s.
Proof. intros Hm Hs (r & s2 & Hr & Hrest). exists r, s2. rewrite (bind_done _ _ _ _ _ Hm), <- Hs. auto. Qed.

Lemma gives_reader_next p s :
  holds (handles s) (p, ReaderKind) -> wf_api s -> gives PacketKind (wadjet_pcap_reader_next big enough_memory p true) s.
Proof.
  intros Hp Hw. unfold wadjet_pcap_reader_next. pose proof Hp as (a & Ha & _). cbn in Ha. subst p. cbn [null negb orb].
  apply (gives_object _ ReaderKind); [auto with wadjet | exact Hp | exact Hw|]. intros r o Hr Ho.
  destruct (next_packet_total r (as_reader_good o r Hr Ho)) as (p & r' & Hn & Hr').
  eapply gives_done; [unfold reader_next; rewrite Hn; reflexivity | reflexivity|]. cbn [fst snd].
  apply gives_bind; [eapply keeps_store; [exact Hp | reflexivity | exact Hr' | exact Hw]|]. intros u s1 Hs1 Hw1.
  destruct p as [p|]; [apply (gives_new_handle (PacketObject p)); [exact I | exact Hw1] | apply gives_code, Hw1].
Qed.

Lemma open_reader_good path (w : W) :
  exists result w', open_reader big path w = Done (result, w') /\ match result with inr r => 0 <= memory_offset r | inl _ => True end.
Proof.
  unfold open_reader. rewrite bind_call. destruct (read_file path w).1 as [d|]; [|do 2 eexists; split; [reflexivity | exact I]].
  pose proof (from_memory_defined big d) as Hd. destruct (from_memory big d) as [r|e|] eqn:E; [| |contradiction].
  - do 2 eexists. split; [reflexivity|]. cbn. revert E. unfold from_memory, read_header.
    destruct (read_bytes _ _) as [[b r1]|] eqn:Eb; [|discriminate].
    unfold read_bytes in Eb. destruct (_ <? _); [discriminate|]. injection Eb as _ <-.
    destruct (magic_kind _) as [[x y]|]; [|discriminate]. destruct (_ || _); [discriminate|].
    intros E. apply Done_inj in E as <-. cbn. unfold FILE_HEADER_SIZE. lia.
  - do 2 eexists. split; [reflexivity | exact I].
Qed.

Lemma gives_reader_open path s : wf_api s -> gives ReaderKind (wadjet_pcap_reader_open big enough_memory (Some path) true) s.
Proof.
  intros Hw. cbn [wadjet_pcap_reader_open negb]. destruct (open_reader_good path (world s)) as (result & w' & Hr & Hg).
  assert (Hd : on_world (open_reader big path) s = Done (result, set_world w' s)) by (unfold on_world; rewrite Hr; reflexivity).
  assert (Hw1 : wf_api (set_world w' s)) by (eapply wf_same_heap; [exact Hw | reflexivity..]).
  eapply gives_done; [exact Hd | reflexivity|].
  destruct result as [e|r]; [apply gives_keeps; keep | apply (gives_new_handle (ReaderObject r)); assumption].
Qed.

Lemma gives_writer_create path s : wf_api s -> gives WriterKind (wadjet_pcap_writer_create big enough_memory (Some path) true) s.
Proof.
  intros Hw. cbn [wadjet_pcap_writer_create negb]. apply gives_bind; [|intros [e|w] s1 Hs1 Hw1].
  - apply keeps_on_world; [|exact Hw]. unfold create_writer. eexists. rewrite bind_call. reflexivity.
  - apply gives_keeps. keep.
  - apply (gives_new_handle (WriterObject w)); [exact I | assumption].
Qed.

Lemma enumerate_total (w : W) : total (Devices.enumerate_devices w).
Proof.
  destruct (Devices.getifaddrs w).1 as [l|] eqn:E.
  - destruct (Devices.devices_once l w E) as (d & w' & Hd & _). eexists. exact Hd.
  - eexists. unfold Devices.enumerate_devices. rewrite bind_call, E, bind_call. reflexivity.
Qed.

Lemma gives_device_enumerate s : wf_api s -> gives DevicesKind (wadjet_device_enumerate enough_memory true) s.
Proof.
  intros Hw. unfold wadjet_device_enumerate. cbn [negb].
  destruct (allocate_cases (DevicesObject []) s I Hw) as [(_ & s1 & Ha & Hh & Hw1)|(_ & a & s1 & Ha & Hf & Hh & _ & Hw1)].
  { eapply gives_done; [exact Ha | exact Hh|]. apply gives_fail, Hw1. }
  destruct (keeps_on_world Devices.enumerate_devices s1 (enumerate_total _) Hw1) as (result & s2 & He & Hh2 & Hw2).
  assert (Ha2 : handles s2 !! a = Some DevicesKind) by (rewrite Hh2, Hh; apply lookup_insert_eq).
  unfold gives. rewrite (bind_done _ _ _ _ _ Ha). cbn [null]. rewrite (bind_done _ _ _ _ _ He). destruct result as [e|l].
  - destruct (delete_held as_devices DevicesKind no_destructor a s2 selects_devices no_destructor_total Ha2 Hw2)
      as (s3 & Hd & Hh3 & Hw3).
    apply bind_done_inv in Hd as ([] & s4 & Hd & H4). apply Done_pair_inj in H4 as [_ ->]. rewrite (bind_done _ _ _ _ _ Hd).
    destruct (keeps_handle_result (A := unit) (inl e) s3 Hw3) as (code & s5 & Hc & Hh5 & Hw5).
    rewrite (bind_done _ _ _ _ _ Hc). eexists _, _. split; [reflexivity|]. split; [exact Hw5|]. cbn.
    rewrite Hh5, Hh3, Hh2, Hh. apply delete_insert_id, Hf.
  - destruct (keeps_store DevicesKind (Some a) (DevicesObject l) s2 (ex_intro _ a (conj eq_refl Ha2)) eq_refl I Hw2)
      as (u & s3 & Hs & Hh3 & Hw3).
    rewrite (bind_done _ _ _ _ _ Hs). eexists _, _. split; [reflexivity|]. split; [exact Hw3|]. cbn.
    rewrite Hh3, Hh2, Hh. auto.
Qed.

Lemma gives_decode_packet d s :
  ~ hazard s (DecodePacket (Some d) true) -> wf_api s -> gives DecodeKind (wadjet_decode_packet enough_memory (Some d) true) s.
Proof.
  intros Hz Hw. cbn [wadjet_decode_packet negb]. apply (gives_initialised (DecodeObject _)); [exact I | exact Hw|].
  intros a s1 He Hd Hp Hw1. cbn [hazard] in Hz. apply ends_bind; [|intros; apply ends_bind; [repeat keep | intros; apply ends_ret; assumption]].
  unfold keeps, decode_shared. rewrite Hd.
  destruct (Dispatcher.decode (default_dispatcher s) d) as [[r dispatcher]|[]|] eqn:E; [|exfalso; apply Hz; auto].
  eexists _, _. split; [reflexivity|]. split; [reflexivity|]. eapply wf_same_heap; [exact Hw1 | reflexivity..].
Qed.

Lemma gives_session_create a s : wf_api s -> gives SessionKind (wadjet_uds_session_create enough_memory a true) s.
Proof.
  intros Hw. unfold wadjet_uds_session_create. cbn [negb]. apply (gives_initialised (SessionObject _)); [exact I | exact Hw|].
  intros b s1 _ _ Hp Hw1. apply ends_bind; [keep|]. intros n s2 Hs2 Hw2.
  apply ends_bind; [repeat keep | intros; apply ends_ret; assumption].
Qed.

(** [new], which does not fail. *)
Lemma gives_thrown o s :
  wf_object o -> wf_api s -> gives (kind_of o) (h ← allocate_or_throw o; mret (WADJET_OK, Some h)) s.
Proof.
  intros Ho [Hobj Haddr]. eexists _, _. split; [reflexivity|]. split.
  - split; cbn; [apply map_Forall_insert_2; assumption|]. intros a Ha. rewrite lookup_insert_ne by lia. apply Haddr. lia.
  - cbn. split; [unfold handles; rewrite lookup_fmap, Haddr by lia; reflexivity | unfold handles; cbn; apply fmap_insert].
Qed.

Lemma created_manager_good o : DiagnosticSession.good_correlator (DiagnosticSession.new_manager (manager_options o)).
Proof. apply DiagnosticSession.new_manager_good. destruct o; cbn; lia. Qed.

Lemma creates_step c l k s :
  effect c = Creates l k -> Forall (holds (handles s)) l -> ~ hazard s c -> wf_api s ->
  exists h s', exec c s = Done (h, s') /\ wf_api s' /\
    match h with None => handles s' = handles s | Some a => handles s !! a = None /\ handles s' = <[a := k]> (handles s) end.
Proof.
  intros He Hl Hz Hw. destruct c; cbn [effect] in He; unfold uses, creates, given in He; try discriminate He;
    match type of He with context [if ?b then _ else _] => destruct b eqn:Eb end; try discriminate He;
    injection He as <- <-; cbn [exec]; apply returning_gives;
    repeat match goal with
    | p : option _ |- _ => destruct p; try discriminate Eb; []
    | b : bool |- _ => lazymatch b with big => fail | _ => destruct b; try discriminate Eb; [] end
    end;
    try (apply Forall_cons in Hl as [Hp _]);
    auto using gives_capture_create, gives_capture_next, gives_reader_open, gives_reader_next, gives_writer_create,
      gives_device_enumerate, gives_decode_packet, gives_session_create.
  - apply (gives_new_handle (PacketObject _)); [exact I | exact Hw].
  - apply (gives_thrown (ValidatorObject _)); [exact I | exact Hw].
  - apply (gives_new_handle DecoderObject); [exact I | exact Hw].
  - apply (gives_thrown (ManagerObject _)); [apply created_manager_good | exact Hw].
Qed.

(** ** The refinement *)

(** A call that is in order and computes something defined returns; it takes the handles
    that the caller holds to those of the specification. *)
Lemma in_order_step c s :
  wf_api s -> in_order (handles s) c -> ~ hazard s c ->
  exists h s', exec c s = Done (h, s') /\ spec_step (handles s) c h (handles s') /\ wf_api s'.
Proof.
  intros Hw Ho Hz. unfold in_order in Ho. destruct (effect c) as [|l|l k|p k] eqn:He.
  - destruct (nothing_step c s He Hw) as (s' & Hs & Hh & Hw'). exists None, s'. rewrite Hh.
    split; [exact Hs|]. split; [apply spec_uses; rewrite He; exact I | exact Hw'].
  - destruct (uses_step c l s He Ho Hz Hw) as (s' & Hs & Hh & Hw'). exists None, s'. rewrite Hh.
    split; [exact Hs|]. split; [apply spec_uses; rewrite He; exact I | exact Hw'].
  - destruct (creates_step c l k s He Ho Hz Hw) as ([a|] & s' & Hs & Hw' & Hh); eexists _, s'; (split; [exact Hs|]);
      (split; [|exact Hw']).
    + destruct Hh as [Hn ->]. eapply spec_creates; eassumption.
    + rewrite Hh. apply spec_uses. rewrite He. exact I.
  - destruct (destroys_delete c p k He) as (A & as_kind & destructor & -> & Ht & Hk). destruct p as [a|].
    + destruct Ho as (k' & -> & Ha). destruct (delete_held as_kind k' destructor a s Hk Ht Ha Hw) as (s' & Hs & Hh & Hw').
      exists None, s'. rewrite Hh. split; [exact Hs|]. split; [eapply spec_destroys, He | exact Hw'].
    + destruct (delete_null as_kind destructor s Hw) as (s' & Hs & Hh & Hw'). exists None, s'. rewrite Hh.
      split; [exact Hs|]. split; [apply spec_uses; rewrite He; reflexivity | exact Hw'].
Qed.

Lemma in_order_dec (held : Handles) c : in_order held c \/ ~ in_order held c.
Proof.
  unfold in_order. destruct (effect c) as [|l|l k|[a|] k]; [left; exact I | | | | left; exact I].
  - destruct (decide (Forall (holds held) l)); auto.
  - destruct (decide (Forall (holds held) l)); auto.
  - destruct k as [k|]; [|right; intros (k & [=] & _)].
    destruct (decide (held !! a = Some k)) as [E|E]; [left; eauto | right; intros (k' & [= <-] & Hk); auto].
Qed.

Lemma hazard_dec s c : hazard s c \/ ~ hazard s c.
Proof.
  destruct c; cbn [hazard]; try (right; tauto); try (destruct (_ && _); [left; reflexivity | right; discriminate]).
  - destruct writer as [p|]; [|right; tauto]. destruct data as [d|]; [|right; tauto]. destruct timestamp as [t|]; [|right; tauto].
    destruct (Timestamp.from_unix _ _); [right; discriminate | right; discriminate | left; reflexivity].
  - destruct data as [d|]; [|right; tauto]. destruct result; [|right; tauto].
    destruct (enough_memory _); [|right; intros [[=] _]].
    destruct (Dispatcher.decode _ _); [right; intros [_ [=]] | right; intros [_ [=]] | left; auto].
Qed.

(** A computation that starts with an undefined one, and one that starts with one that
    leaves the state. *)
Lemma object_first {A B} (as_kind : object Session -> option A) k p (f : A -> api B) s :
  selects as_kind k -> holds (handles s) (p, k) -> wf_api s -> (forall x, f x s = Undef) -> (object_at as_kind p ≫= f) s = Undef.
Proof.
  intros Hs Hp Hw Hf. destruct (object_at_held as_kind k p s Hs Hp Hw) as (a & o & x & _ & _ & _ & _ & Hx).
  rewrite (bind_done _ _ _ _ _ Hx). apply Hf.
Qed.

Lemma validating_undef p l out validate s :
  given p && given l && out = true -> holds (handles s) (p, ValidatorKind) -> wf_api s -> validating p l out validate s = Undef.
Proof.
  intros Hg Hp Hw. destruct p as [a|], l as [l|], out; try discriminate Hg. cbn [validating null negb orb].
  apply (object_first _ ValidatorKind); auto with wadjet. intros m. destruct (validate l m); reflexivity.
Qed.

Lemma uses_held c p k r s :
  in_order (handles s) c -> effect c = uses p k r -> given p && r = true -> holds (handles s) (p, k).
Proof.
  intros Ho He Hr. unfold in_order in Ho. rewrite He in Ho. unfold uses in Ho. unfold given in Hr. rewrite Hr in Ho.
  apply Forall_cons in Ho as [Hp _]. exact Hp.
Qed.

Lemma hazard_undef c s : wf_api s -> in_order (handles s) c -> hazard s c -> exec c s = Undef.
Proof.
  intros Hw Ho Hz. destruct c; cbn [hazard] in Hz; try contradiction; cbn [exec].
  - destruct writer as [p|]; [|contradiction]. destruct data as [d|]; [|contradiction]. destruct timestamp as [t|]; [|contradiction].
    apply only_undef. cbn [wadjet_pcap_writer_write_raw]. apply bind_undef. unfold lift. rewrite Hz. reflexivity.
  - apply only_undef, validating_undef; [exact Hz | | exact Hw].
    eapply uses_held; [exact Ho | reflexivity|]. rewrite andb_assoc. exact Hz.
  - apply only_undef, validating_undef; [exact Hz | | exact Hw].
    eapply uses_held; [exact Ho | reflexivity|]. rewrite andb_assoc. exact Hz.
  - destruct data as [d|]; [|destruct (given validator); discriminate Hz].
    apply only_undef. cbn [wadjet_validate_checksums]. apply validating_undef; [| |exact Hw].
    + destruct (given validator), (given layers), result; try discriminate Hz; reflexivity.
    + eapply uses_held; [exact Ho | reflexivity|]. rewrite !andb_assoc. exact Hz.
  - destruct data as [d|]; [|contradiction]. destruct result; [|contradiction]. destruct Hz as [He Hd].
    unfold returning. apply bind_undef. cbn [wadjet_decode_packet negb].
    destruct (allocate_cases (DecodeObject (Dispatcher.mkResult [] [] None true)) s I Hw)
      as [[Hx _]|(_ & a & s1 & Ha & _ & _ & Hs1 & _)]; [congruence|].
    rewrite (bind_done _ _ _ _ _ Ha). cbn [null]. apply bind_undef. unfold decode_shared. rewrite Hs1, Hd. reflexivity.
Qed.

Lemma creates_undef c l k s : effect c = Creates l k -> ~ Forall (holds (handles s)) l -> exec c s = Undef.
Proof.
  intros He Hl. destruct c; cbn [effect] in He; unfold uses, creates, given in He; try discriminate He;
    match type of He with context [if ?b then _ else _] => destruct b eqn:Eb end; try discriminate He;
    injection He as <- <-; try solve [exfalso; apply Hl; apply Forall_nil_2]; cbn [exec]; unfold returning; apply bind_undef;
    (assert (Hn : forall pk, ~ Forall (holds (handles s)) [pk] -> ~ holds (handles s) pk)
       by (intros pk Hx Hy; apply Hx; auto)); apply Hn in Hl; clear Hn.
  - destruct session; [|discriminate Eb]. destruct packet; [|discriminate Eb]. eapply object_undef; [auto with wadjet | exact Hl].
  - destruct reader; [|discriminate Eb]. destruct packet; [|discriminate Eb]. eapply object_undef; [auto with wadjet | exact Hl].
Qed.

Lemma not_in_order_undef c s : wf_api s -> ~ in_order (handles s) c -> exec c s = Undef.
Proof.
  intros Hw Ho. unfold in_order in Ho. destruct (effect c) as [|l|l k|p k] eqn:He.
  - destruct (Ho I).
  - eapply uses_undef; eassumption.
  - eapply creates_undef; eassumption.
  - destruct p as [a|]; [|destruct (Ho I)].
    destruct (destroys_delete c (Some a) k He) as (A & as_kind & destructor & -> & _ & Hk).
    apply only_undef. cbn [delete_object]. destruct k as [k|].
    + apply (object_undef _ k); [exact Hk|]. intros (b & Hb & Hh). cbn in Hb, Hh. injection Hb as <-. apply Ho. eauto.
    + apply bind_undef. unfold object_at. destruct (heap s !! a) as [o|]; cbn; [rewrite Hk|]; reflexivity.
Qed.

(** The state of a process that has not called the interface. *)
Definition initial (w : W) : Api W Session :=
  mkApi "" ∅ 0 0 (Dispatcher.new_dispatcher Dispatcher.DispatcherOptions_default) [] w.

(** Histories of calls with the handles they returned, of the interface and of the
    specification. *)
Inductive calls : Api W Session -> list (Call * handle) -> Api W Session -> Prop :=
| calls_nil s : calls s [] s
| calls_cons s c h s1 cs s2 : exec c s = Done (h, s1) -> calls s1 cs s2 -> calls s ((c, h) :: cs) s2.
Inductive spec_calls : Handles -> list (Call * handle) -> Handles -> Prop :=
| spec_nil held : spec_calls held [] held
| spec_cons held c h held1 cs held2 :
    in_order held c -> spec_step held c h held1 -> spec_calls held1 cs held2 -> spec_calls held ((c, h) :: cs) held2.

Lemma wf_initial w : wf_api (initial w).
Proof. split; [apply map_Forall_empty | intros a _; apply lookup_empty]. Qed.

Lemma exec_cases c s :
  wf_api s ->
  (in_order (handles s) c /\ ~ hazard s c /\
   exists h s', exec c s = Done (h, s') /\ spec_step (handles s) c h (handles s') /\ wf_api s') \/
  ((~ in_order (handles s) c \/ hazard s c) /\ exec c s = Undef).
Proof.
  intros Hw. destruct (in_order_dec (handles s) c) as [Ho|Ho]; [|right; auto using not_in_order_undef].
  destruct (hazard_dec s c) as [Hz|Hz]; [right; auto using hazard_undef | left; auto using in_order_step].
Qed.

Lemma calls_refine s cs s' : calls s cs s' -> wf_api s -> spec_calls (handles s) cs (handles s') /\ wf_api s'.
Proof.
  induction 1 as [s|s c h s1 cs s2 He _ IH]; intros Hw; [split; [constructor | exact Hw]|].
  destruct (exec_cases c s Hw) as [(Ho & _ & h' & s1' & He' & Hs & Hw1)|[_ Hu]]; [|congruence].
  rewrite He in He'. apply Done_pair_inj in He' as [<- <-]. destruct (IH Hw1) as [Hcs Hw2].
  split; [econstructor; eassumption | exact Hw2].
Qed.

(** [C22] Whatever a process has called, the handles that are alive are those of the
    specification, which follows only the results of the calls.  The next call returns,
    with the handles that the specification then allows, if and only if it is in order,
    that is, every handle that it looks at is alive and of its kind, and it is none of the
    calls of [hazard]; any other call is undefined. *)
Theorem api_handles_exact w cs s c :
  calls (initial w) cs s ->
  spec_calls ∅ cs (handles s) /\
  ((in_order (handles s) c /\ ~ hazard s c /\ exists h s', exec c s = Done (h, s') /\ spec_step (handles s) c h (handles s')) \/
   ((~ in_order (handles s) c \/ hazard s c) /\ exec c s = Undef)).
Proof.
  intros Hc. destruct (calls_refine _ _ _ Hc (wf_initial w)) as [Hs Hw].
  assert (He : handles (initial w) = ∅) by apply fmap_empty. rewrite He in Hs. split; [exact Hs|].
  destruct (exec_cases c s Hw) as [(Ho & Hz & h & s' & Hd & Ht & _)|Hu]; [left; eauto 6 | right; exact Hu].
Qed.
End handles.

(** ** Samples *)

(** A system with one capture file, in which the clock stands at the number that is the
    world, and sessions that receive nothing. *)
Definition sample_file : list byte := file (write_packet false (mkPacket [x01; x02] 5000) (create false PcapWriterOptions_default)).
#[local] Instance sample_descriptors : Descriptors Z := {|
  errno w := (2, w);
  socket _ w := (3, w);
  close _ w := (tt, w)
|}.
#[local] Instance sample_interfaces : Devices.Interfaces Z := {|
  Devices.getifaddrs w := (None, w);
  Devices.freeifaddrs w := (tt, w);
  Devices.if_nametoindex _ w := (0, w);
  Devices.siocgifflags _ _ w := (None, w);
  Devices.siocgifmtu _ _ w := (None, w);
  Devices.siocgifhwaddr _ _ w := (None, w)
|}.
#[local] Instance sample_files : Files Z := {|
  read_file path w := (if String.eqb path "capture.pcap" then Some sample_file else None, w);
  create_file _ w := (true, w)
|}.
#[local] Instance sample_clocks : Clocks Z := {| steady_clock w := (fun _ => w, w); system_clock w := (w, w) |}.
#[local] Instance sample_sessions : CaptureSessions Z unit := {|
  create_session _ _ := mret (ok tt);
  destroy_session _ := mret tt;
  session_set_filter _ _ := mret (ok tt, tt);
  session_start _ := mret (ok tt, tt);
  session_stop _ := mret tt;
  session_is_running _ := false;
  session_next_packet _ _ := mret (None, tt);
  session_stats _ := mret Capture.no_stats
|}.
#[local] Instance sample_laws : SessionLaws (W := Z) (Session := unit).
Proof. split; intros; eexists; reflexivity. Qed.

Definition sample_exec : Call -> io (Api Z unit) handle := exec false (fun _ => true) (fun A m => map_to_list m).
Definition sample_calls : Api Z unit -> list (Call * handle) -> Api Z unit -> Prop :=
  calls false (fun _ => true) (fun A m => map_to_list m).

(** The state after calls, of which each returned. *)
Fixpoint after (cs : list Call) (s : Api Z unit) : Api Z unit :=
  match cs with
  | [] => s
  | c :: cs' => match sample_exec c s with Done (_, s') => after cs' s' | _ => s end
  end.

(** A packet is read from a file, written to another one, and destroyed. *)
Definition sample_history : list (Call * handle) :=
  [(ReaderOpen (Some "capture.pcap") true, Some 0); (ReaderNext (Some 0) true, Some 1);
   (WriterCreate (Some "copy.pcap") true, Some 2); (WriterWrite (Some 2) (Some 1), None); (PacketDestroy (Some 1), None)].

Lemma api_handles_exact_witness :
  let s := after (map fst sample_history) (initial 0) in
  sample_calls (initial 0) sample_history s /\
  spec_calls ∅ sample_history (handles s) /\
  ((in_order (handles s) (PacketData (Some 1) true true) /\ ~ hazard (fun _ => true) s (PacketData (Some 1) true true) /\
    exists h s', sample_exec (PacketData (Some 1) true true) s = Done (h, s') /\
      spec_step (handles s) (PacketData (Some 1) true true) h (handles s')) \/
   ((~ in_order (handles s) (PacketData (Some 1) true true) \/ hazard (fun _ => true) s (PacketData (Some 1) true true)) /\
    sample_exec (PacketData (Some 1) true true) s = Undef)).
Proof.
  cbv zeta. assert (Hc : sample_calls (initial 0) sample_history (after (map fst sample_history) (initial 0))).
  { vm_compute after. repeat (eapply calls_cons; [vm_compute; reflexivity|]). apply calls_nil. }
  split; [exact Hc|]. exact (api_handles_exact false (fun _ => true) _ 0 sample_history _ (PacketData (Some 1) true true) Hc).
Defined.

(** The packet of the witness is gone: its data cannot be asked for. *)
Example use_after_destroy :
  sample_exec (PacketData (Some 1) true true) (after (map fst sample_history) (initial 0)) = Undef.
Proof. vm_compute. reflexivity. Qed.

(** A validation on a handle that is in order is undefined where it should return. *)
Example validation_result_overwrites :
  sample_exec (ValidateLayering (Some 0) (Some []) true) (after [ValidatorCreate 0 true] (initial 0)) = Undef.
Proof. vm_compute. reflexivity. Qed.
