(* ===== verification/CApiResults.v ===== *)
(** * What the C interface returns

    The text of addresses in the caller's buffers, the error codes of files that cannot be
    opened, the callback and the timeouts of a diagnostic manager, and the results of
    decoding, on the definitions of CApi.v and CApiDecode.v. *)

From Stdlib Require Import ZArith Lia.
From Stdlib Require Import Strings.Byte.
From stdpp Require Import base numbers list gmap strings pretty.
From S2P Require Import Prelude World Pcap CApi CApiDecode.
From S2P Require Address Dispatcher Scenario Ethernet Ipv4 Udp Correlator DiagnosticSession Diagnostic Uds UdsSession CApiHandles.

(** ** Addresses *)

Lemma zlen_decimal b : zlen (Address.std_to_string (u8 b)) <= 3.
Proof. destruct b; vm_compute; discriminate. Qed.

Lemma zlen_ipv4_text a : length a = 4%nat -> zlen (Address.IPv4Address_to_string a) <= 15.
Proof.
  destruct a as [|b0 [|b1 [|b2 [|b3 [|]]]]]; try discriminate. intros _. unfold Address.IPv4Address_to_string.
  cbn [Address.format_decimal]. repeat (rewrite length_app; cbn [length]).
  pose proof (zlen_decimal b0). pose proof (zlen_decimal b1). pose proof (zlen_decimal b2). pose proof (zlen_decimal b3). lia.
Qed.

Section results.
Context {W Session : Type}.
Implicit Types s : Api W Session.

(** A text that fits its buffer is written with its terminator; nothing is written into a
    buffer that the caller says is smaller than the function asks for. *)
Lemma address_to_string_exact to_string least bytes capacity size s :
  size <= capacity -> zlen (to_string bytes) < least ->
  address_to_string to_string least (Some bytes) (Some capacity) size s =
    Done (if size <? least then (0, None) else (zlen (to_string bytes), Some (to_string bytes ++ [x00])), s).
Proof.
  intros Hs Hl. unfold address_to_string. destruct (size <? least) eqn:E; [reflexivity|]. bool_to_prop.
  rewrite (proj2 (Z.leb_gt _ _)) by lia. unfold strcpy. rewrite (proj2 (Z.ltb_lt _ _)) by lia. reflexivity.
Qed.

(** In a buffer of the documented size the text of an address is complete, terminated and
    inside the buffer, and the parsers return the address that was written. *)
Theorem address_buffers mac ip mac_size ip_size s :
  length mac = 6%nat -> length ip = 4%nat -> 18 <= mac_size -> 16 <= ip_size ->
  exists mac_text ip_text,
    wadjet_mac_to_string (Some mac) (Some mac_size) mac_size s = Done ((17, Some (mac_text ++ [x00])), s) /\
    zlen (mac_text ++ [x00]) <= mac_size /\
    wadjet_mac_from_string (Some mac_text) true s = Done ((WADJET_OK, Some mac), s) /\
    wadjet_ipv4_to_string (Some ip) (Some ip_size) ip_size s = Done ((zlen ip_text, Some (ip_text ++ [x00])), s) /\
    zlen (ip_text ++ [x00]) <= ip_size /\
    wadjet_ipv4_from_string (Some ip_text) true s = Done ((WADJET_OK, Some ip), s).
Proof.
  intros Hm Hi Hms His. exists (Address.MacAddress_to_string mac), (Address.IPv4Address_to_string ip).
  assert (Lm : zlen (Address.MacAddress_to_string mac) = 17) by (unfold Address.MacAddress_to_string; rewrite Address.length_format_hex; lia).
  pose proof (zlen_ipv4_text ip Hi) as Li.
  unfold wadjet_mac_to_string, wadjet_ipv4_to_string. rewrite !address_to_string_exact by lia.
  rewrite (proj2 (Z.ltb_ge _ _)), (proj2 (Z.ltb_ge ip_size _)), Lm by lia. rewrite !length_app. cbn [length].
  unfold wadjet_mac_from_string, wadjet_ipv4_from_string. cbn [negb].
  destruct (Address.address_text_round_trip mac ip Hm Hi) as (-> & _ & ->).
  split_and!; try reflexivity; lia.
Qed.

(** Every text is accepted as an address. *)
Theorem address_parsers_accept_all text s :
  exists mac ip,
    wadjet_mac_from_string (Some text) true s = Done ((WADJET_OK, Some mac), s) /\
    wadjet_ipv4_from_string (Some text) true s = Done ((WADJET_OK, Some ip), s).
Proof. do 2 eexists. split; reflexivity. Qed.

(** The eight bytes of a clock identity take 23 characters. *)
Theorem clock_identity_buffer clock size s :
  length clock = 8%nat -> 24 <= size ->
  exists text, wadjet_gptp_clock_identity_to_string (Some clock) (Some size) size s = Done ((23, Some (text ++ [x00])), s) /\
    zlen text = 23.
Proof.
  intros Hc Hs. exists (Address.format_hex clock x3a true).
  assert (Hl : zlen (Address.format_hex clock x3a true) = 23) by (rewrite Address.length_format_hex; lia).
  split; [|exact Hl]. unfold wadjet_gptp_clock_identity_to_string. rewrite (proj2 (Z.ltb_ge _ _)) by lia.
  rewrite take_ge by lia. unfold strcpy. rewrite Hl, (proj2 (Z.ltb_lt _ _)) by lia. reflexivity.
Qed.

(** ** Decode results *)

(** A getter returns the header of the first layer of its type, or that there is none. *)
Theorem header_of_exact {T C} (as_header : Dispatcher.DecodedHeader -> option T) (convert : T -> C) missing a r s :
  heap s !! a = Some (DecodeObject r) ->
  header_of as_header convert missing (Some a) true s =
    match Dispatcher.get_layer as_header (Dispatcher.layers r) with
    | Some h => Done ((WADJET_OK, Some (convert h)), s)
    | None => fail_with missing WADJET_ERR_NOT_FOUND s
    end.
Proof.
  intros Ha. unfold header_of, mbind, io_bind, object_at. cbn [null negb orb]. rewrite Ha. cbn.
  assert (Hl : Dispatcher.has_layer as_header (Dispatcher.layers r) =
    match Dispatcher.get_layer as_header (Dispatcher.layers r) with Some _ => true | None => false end).
  { induction (Dispatcher.layers r) as [|l ls IH]; [reflexivity|]. cbn. destruct (as_header l); [reflexivity | exact IH]. }
  rewrite Hl. destruct (Dispatcher.get_layer _ _); reflexivity.
Qed.

Context (enough_memory : nat -> bool).

(** A packet that the shared dispatcher decodes is kept behind a new handle, and the
    dispatcher goes on with what it learned from the packet. *)
Lemma decode_packet_exact d r dispatcher s :
  Dispatcher.decode (default_dispatcher s) d = Done (r, dispatcher) -> enough_memory (allocations s) = true ->
  exists s', wadjet_decode_packet enough_memory (Some d) true s = Done ((WADJET_OK, Some (Some (next_address s))), s') /\
    heap s' = <[next_address s := DecodeObject r]> (heap s) /\ default_dispatcher s' = dispatcher /\
    g_last_error s' = g_last_error s.
Proof.
  intros Hd Hm. eexists. split.
  - unfold wadjet_decode_packet, mbind, io_bind, allocate, call. cbn [negb]. rewrite Hm. cbn [null].
    unfold decode_shared. cbn [default_dispatcher]. rewrite Hd. reflexivity.
  - cbn. split; [apply insert_insert_eq | auto].
Qed.

(** A UDP frame on ports of no application: the getters return its three headers, and the
    payload is everything behind them. *)
Theorem udp_frame_through_interface eth ip udp p s :
  let d := default_dispatcher s in
  let frame := Dispatcher.udp_frame eth ip udp p in
  Dispatcher.wf_udp_frame d eth ip udp -> Dispatcher.decode_app (Dispatcher.options d) = false ->
  enough_memory (allocations s) = true ->
  exists h s', wadjet_decode_packet enough_memory (Some frame) true s = Done ((WADJET_OK, Some h), s') /\
    wadjet_decode_result_success h s' = Done (true, s') /\
    wadjet_decode_result_ethernet h true s' = Done ((WADJET_OK, Some (ethernet_header eth)), s') /\
    wadjet_decode_result_ipv4 h true s' = Done ((WADJET_OK, Some (ipv4_header ip)), s') /\
    wadjet_decode_result_udp h true s' = Done ((WADJET_OK, Some (udp_header udp)), s') /\
    wadjet_decode_result_payload h WADJET_PROTOCOL_UDP true true s' = Done ((WADJET_OK, Some p), s').
Proof.
  intros d frame Hwf Happ Hm.
  destruct (decode_packet_exact frame _ _ s (proj1 (Dispatcher.dispatcher_udp_frame d eth ip udp p Hwf) Happ) Hm)
    as (s' & Hs & Hh & _).
  exists (Some (next_address s)), s'. split; [exact Hs|].
  assert (Ha : heap s' !! next_address s = Some (DecodeObject (Dispatcher.mkResult (Dispatcher.udp_layers eth ip udp) p None true)))
    by (rewrite Hh; apply lookup_insert_eq).
  unfold wadjet_decode_result_ethernet, wadjet_decode_result_ipv4, wadjet_decode_result_udp.
  rewrite !(header_of_exact _ _ _ _ _ _ Ha).
  assert (Ho : object_at as_decode (Some (next_address s)) s' =
    Done (Dispatcher.mkResult (Dispatcher.udp_layers eth ip udp) p None true, s')) by (unfold object_at; rewrite Ha; reflexivity).
  unfold wadjet_decode_result_success, wadjet_decode_result_payload. cbn [null negb orb]. rewrite !(bind_done _ _ _ _ _ Ho).
  split_and!; reflexivity.
Qed.
End results.

(** ** Files *)

(** A file that cannot be opened is an unknown error, whatever the reason: the errors of
    the readers and writers of files have the code -1, which is no [errno]. *)
Theorem unopened_file_unknown {W Session} `{!Files W} big enough_memory path (s : Api W Session) :
  (read_file path (world s)).1 = None ->
  exists s', wadjet_pcap_reader_open big enough_memory (Some path) true s = Done ((WADJET_ERR_UNKNOWN, None), s') /\
    g_last_error s' = "Failed to open file: " +:+ path.
Proof.
  intros Hf. eexists. split.
  - unfold wadjet_pcap_reader_open, mbind, io_bind, on_world, open_reader. cbn [negb]. rewrite bind_call, Hf. reflexivity.
  - reflexivity.
Qed.

(** ** Samples *)

#[local] Existing Instances CApiHandles.sample_descriptors CApiHandles.sample_interfaces CApiHandles.sample_files
  CApiHandles.sample_clocks CApiHandles.sample_sessions.
Import CApiHandles (Call, DecodePacket, ManagerCreate, ManagerOnEvent, ManagerProcess, after, initial).

Definition doip_udp : Udp.UdpHeader := Udp.mkUdpHeader 40000 13400 8 0 true.
(** TesterPresent from 0x0e00 to 0x1000, and four bytes that are not part of it. *)
Definition padded_tester_present : list byte :=
  Dispatcher.udp_frame Dispatcher.sample_eth Dispatcher.sample_ip doip_udp
    [x02; xfd; x80; x01; x00; x00; x00; x06; x0e; x00; x10; x00; x3e; x00; xaa; xaa; xaa; xaa].

(** What the interface takes for the service data is the padding: the payload of a decode
    result is not cut at the length of the DoIP message.  The diagnostic decoder cuts. *)
Example padding_is_service_data :
  match wadjet_decode_result_uds (Some 0) true (after [DecodePacket (Some padded_tester_present) true] (initial 0)) with
  | Done ((code, Some h), _) => code = WADJET_OK /\ x_service_id h = 0x3E /\ x_data h = [xaa; xaa; xaa; xaa]
  | _ => False
  end.
Proof. vm_compute. auto. Qed.

(** A manager whose P2 is a second counts a request as timed out after a tenth of it: the
    timing of the options does not reach the correlator. *)
Definition slow_options : wadjet_diagnostic_options := mkDiagnosticOptions true true 256 1000 5000 5000.
Definition slow_manager : Api Z unit :=
  after [ManagerCreate (Some slow_options) true; ManagerProcess (Some 0) (Some DiagnosticSession.example_request_packet)] (initial 0).
Example timing_option_ignored :
  match wadjet_diagnostic_manager_check_timeouts (Some 0) (set_world 100000000 slow_manager) with
  | Done (count, _) => count = 1
  | _ => False
  end.
Proof. vm_compute. reflexivity. Qed.

(** A callback that is registered again is called twice for each event. *)
Example registered_twice :
  map dl_callback (deliveries (after [ManagerCreate None true; ManagerOnEvent (Some 0) (Some 7) None; ManagerOnEvent (Some 0) (Some 8) None;
    ManagerProcess (Some 0) (Some DiagnosticSession.example_request_packet)] (initial 0))) = [8; 8].
Proof. vm_compute. reflexivity. Qed.
