(* ===== verification/RtpsTypes.v ===== *)
(** * The value types of RTPS (include/wadjet/protocols/dds/)

    [rtps_types.hpp] with the operations on versions, vendors, GUIDs, sequence numbers,
    locators, times and ports; the flags and accessors of [rtps_messages.hpp] and
    [rtps.hpp]; the names and descriptions of [discovery.hpp].  The data types are those of
    Rtps.v and Discovery.v.  The conversions of a time to [double] and to nanoseconds
    through [double] are left out. *)

From Stdlib Require Import ZArith Lia.
From Stdlib Require Import Strings.Byte.
From stdpp Require Import base numbers list strings pretty.
From S2P Require Import Prelude World Rtps.
From S2P Require Discovery Dispatcher Matchers ScenarioDocument ReportReaders.

(** ** Text *)

(** [%02x] of a byte. *)
Definition hex2 (v : Z) : string :=
  String (ScenarioDocument.hex_char true (v / 16)) (String (ScenarioDocument.hex_char true (v mod 16)) "").

(** [%0<width>lu]. *)
Fixpoint zeros (n : nat) : string := match n with O => "" | S n' => String (Ascii.ascii_of_nat 48) (zeros n') end.
Definition zero_padded (width : nat) (n : Z) : string := zeros (width - String.length (pretty n)) +:+ pretty n.

(** A [std::string] of bytes. *)
Definition text_of (bytes : list byte) : string := String.string_of_list_byte bytes.

(** ** Versions and vendors *)

Definition ProtocolVersion_to_string (v : ProtocolVersion) : string := pretty (major v) +:+ "." +:+ pretty (minor v).
Definition ProtocolVersion_eqb (a b : ProtocolVersion) : bool := (major a =? major b) && (minor a =? minor b).
Definition v2_1 : ProtocolVersion := mkProtocolVersion 2 1.
Definition v2_2 : ProtocolVersion := mkProtocolVersion 2 2.
Definition v2_3 : ProtocolVersion := mkProtocolVersion 2 3.
Definition v2_4 : ProtocolVersion := mkProtocolVersion 2 4.

Definition vendor_id_string (id : Z) : string :=
  if id =? 0x0000 then "Unknown"
  else if id =? 0x0101 then "RTI"
  else if id =? 0x0102 then "ADLink"
  else if id =? 0x0103 then "OCI"
  else if id =? 0x0104 then "MilSOFT"
  else if id =? 0x0105 then "Gallium"
  else if id =? 0x0106 then "TwinOaks"
  else if id =? 0x0107 then "Lakota"
  else if id =? 0x0108 then "ICOUP"
  else if id =? 0x0109 then "ETRI"
  else if id =? 0x010A then "RTI_Micro"
  else if id =? 0x010B then "ADLink_Lite"
  else if id =? 0x010C then "Technicolor"
  else if id =? 0x010F then "eProsima"
  else if id =? 0x0120 then "Eclipse"
  else "Unknown".
Definition VendorIdValue_to_string (v : VendorIdValue) : string := vendor_id_string (Matchers.to_enum v).

(** ** GUIDs *)

(** [operator<] of [std::array]. *)
Fixpoint array_lt (a b : list byte) : bool :=
  match a, b with
  | _, [] => false
  | [], _ :: _ => true
  | x :: a', y :: b' => if u8 x <? u8 y then true else if u8 y <? u8 x then false else array_lt a' b'
  end.

Definition GuidPrefix_eqb (a b : GuidPrefix) : bool := bool_decide (a = b).
Definition GuidPrefix_lt (a b : GuidPrefix) : bool := array_lt a b.
Definition GuidPrefix_is_unknown (p : GuidPrefix) : bool := forallb (fun b => u8 b =? 0) p.
Definition GuidPrefix_unknown : GuidPrefix := replicate 12 x00.
(** The loop of [GuidPrefix::to_string] from index [i]. *)
Fixpoint prefix_text (i : Z) (value : list byte) : string :=
  match value with
  | [] => ""
  | b :: value' => (if (0 <? i) && (i mod 4 =? 0) then ":" else "") +:+ hex2 (u8 b) +:+ prefix_text (i + 1) value'
  end.
Definition GuidPrefix_to_string (p : GuidPrefix) : string := prefix_text 0 p.

Definition EntityId_eqb (a b : EntityId) : bool := bool_decide (entity_key a = entity_key b) && (kind a =? kind b).
Definition EntityId_lt (a b : EntityId) : bool :=
  if negb (bool_decide (entity_key a = entity_key b)) then array_lt (entity_key a) (entity_key b) else kind a <? kind b.
Definition EntityId_to_string (e : EntityId) : string :=
  foldr (fun b text => hex2 (u8 b) +:+ text) ("." +:+ hex2 (kind e)) (entity_key e).

Definition BuiltinWriterWithKey : Z := 0xC2.
Definition BuiltinReaderWithKey : Z := 0xC7.
Definition spdp_builtin_participant_writer : EntityId := mkEntityId [x00; x01; x00] BuiltinWriterWithKey.
Definition spdp_builtin_participant_reader : EntityId := mkEntityId [x00; x01; x00] BuiltinReaderWithKey.
Definition sedp_builtin_publications_writer : EntityId := mkEntityId [x00; x00; x03] BuiltinWriterWithKey.
Definition sedp_builtin_publications_reader : EntityId := mkEntityId [x00; x00; x03] BuiltinReaderWithKey.
Definition sedp_builtin_subscriptions_writer : EntityId := mkEntityId [x00; x00; x04] BuiltinWriterWithKey.
Definition sedp_builtin_subscriptions_reader : EntityId := mkEntityId [x00; x00; x04] BuiltinReaderWithKey.
Definition sedp_builtin_topics_writer : EntityId := mkEntityId [x00; x00; x02] BuiltinWriterWithKey.
Definition sedp_builtin_topics_reader : EntityId := mkEntityId [x00; x00; x02] BuiltinReaderWithKey.

Definition GUID_eqb (a b : GUID) : bool := GuidPrefix_eqb (prefix a) (prefix b) && EntityId_eqb (entity_id a) (entity_id b).
Definition GUID_lt (a b : GUID) : bool :=
  if negb (GuidPrefix_eqb (prefix a) (prefix b)) then GuidPrefix_lt (prefix a) (prefix b)
  else EntityId_lt (entity_id a) (entity_id b).
Definition GUID_to_string (g : GUID) : string := GuidPrefix_to_string (prefix g) +:+ "|" +:+ EntityId_to_string (entity_id g).
Definition GUID_is_unknown (g : GUID) : bool :=
  GuidPrefix_is_unknown (prefix g) && EntityId_eqb (entity_id g) Discovery.EntityId_unknown.
Definition GUID_is_builtin (g : GUID) : bool := is_builtin (entity_id g).

(** ** Sequence numbers *)

Definition sn_eqb (a b : SequenceNumber) : bool := (high a =? high b) && (low a =? low b).
Definition sn_lt (a b : SequenceNumber) : bool := sn_value a <? sn_value b.
Definition sn_le (a b : SequenceNumber) : bool := sn_value a <=? sn_value b.
Definition sn_to_string (sn : SequenceNumber) : string := pretty (sn_value sn).
Definition sn_min : SequenceNumber := mkSequenceNumber 0 1.
Definition sn_max : SequenceNumber := mkSequenceNumber 0x7FFFFFFF 0xFFFFFFFF.
Definition sn_unknown : SequenceNumber := mkSequenceNumber (-1) 0.

(** ** Locators *)

Definition LocatorKind_Invalid : Z := -1.
Definition LocatorKind_UDPv4 : Z := 1.
Definition LocatorKind_UDPv6 : Z := 2.
Definition Locator_eqb (a b : Locator) : bool :=
  (loc_kind a =? loc_kind b) && (loc_port a =? loc_port b) && bool_decide (loc_address a = loc_address b).
Definition is_valid (l : Locator) : bool := negb (loc_kind l =? LocatorKind_Invalid).
Definition is_udp_v4 (l : Locator) : bool := loc_kind l =? LocatorKind_UDPv4.
Definition is_udp_v6 (l : Locator) : bool := loc_kind l =? LocatorKind_UDPv6.
(** [address[12]] and the three bytes behind it, of an array of 16 bytes. *)
Definition ipv4_address (l : Locator) : list byte := take 4 (drop 12 (loc_address l)).
Definition Locator_to_string (l : Locator) : string :=
  if loc_kind l =? LocatorKind_UDPv4 then
    let octet i := pretty (default 0 (u8 <$> ipv4_address l !! i)) in
    octet 0%nat +:+ "." +:+ octet 1%nat +:+ "." +:+ octet 2%nat +:+ "." +:+ octet 3%nat +:+ ":" +:+ pretty (loc_port l)
  else "Locator{kind=" +:+ pretty (loc_kind l) +:+ ",port=" +:+ pretty (loc_port l) +:+ "}".
Definition Locator_invalid : Locator := mkLocator LocatorKind_Invalid 0 (replicate 16 x00).

(** ** Times *)

Definition Time_eqb (a b : Time) : bool := (time_seconds a =? time_seconds b) && (fraction a =? fraction b).
Definition Time_nanoseconds (t : Time) : Z := uint 64 (fraction t * 1000000000) / 4294967296.
Definition Time_to_string (t : Time) : string := pretty (time_seconds t) +:+ "." +:+ zero_padded 9 (Time_nanoseconds t).
Definition is_infinite (t : Time) : bool := (time_seconds t =? 0x7FFFFFFF) && (fraction t =? 0xFFFFFFFF).
Definition Time_invalid : Time := mkTime (-1) 0xFFFFFFFF.
Definition Time_zero : Time := mkTime 0 0.

(** A signed 32-bit subtraction, whose overflow is undefined. *)
Definition sub32 (a b : Z) : defined_or Z :=
  if (- 2 ^ 31 <=? a - b) && (a - b <? 2 ^ 31) then Done (a - b) else Undef.
Definition time_minus (a b : Time) : defined_or Time :=
  seconds ← sub32 (time_seconds a) (time_seconds b);
  if fraction b <=? fraction a then Done (mkTime seconds (fraction a - fraction b))
  else
    seconds ← sub32 seconds 1;
    Done (mkTime seconds (uint 32 (0x100000000 + fraction a - fraction b))).

(** ** Built-in endpoints *)

Definition has_participant_announcer (value : Z) : bool := flag_bit value (Z.shiftl 1 0).
Definition has_participant_detector (value : Z) : bool := flag_bit value (Z.shiftl 1 1).
Definition has_publication_announcer (value : Z) : bool := flag_bit value (Z.shiftl 1 2).
Definition has_publication_detector (value : Z) : bool := flag_bit value (Z.shiftl 1 3).
Definition has_subscription_announcer (value : Z) : bool := flag_bit value (Z.shiftl 1 4).
Definition has_subscription_detector (value : Z) : bool := flag_bit value (Z.shiftl 1 5).

(** ** Ports *)

Definition RTPS_USER_MULTICAST_PORT_OFFSET : Z := 1.
Definition RTPS_USER_UNICAST_PORT_OFFSET : Z := 11.
Definition discovery_multicast_port (domain_id : Z) : Z :=
  uint 16 (RTPS_PORT_BASE + RTPS_PORT_DOMAIN_GAIN * domain_id + RTPS_DISCOVERY_MULTICAST_PORT_OFFSET).
Definition discovery_unicast_port (domain_id participant_id : Z) : Z :=
  uint 16 (RTPS_PORT_BASE + RTPS_PORT_DOMAIN_GAIN * domain_id + RTPS_DISCOVERY_UNICAST_PORT_OFFSET + participant_id).
Definition user_multicast_port (domain_id : Z) : Z :=
  uint 16 (RTPS_PORT_BASE + RTPS_PORT_DOMAIN_GAIN * domain_id + RTPS_USER_MULTICAST_PORT_OFFSET).
Definition user_unicast_port (domain_id participant_id : Z) : Z :=
  uint 16 (RTPS_PORT_BASE + RTPS_PORT_DOMAIN_GAIN * domain_id + RTPS_USER_UNICAST_PORT_OFFSET + participant_id).

(** ** Submessages *)

Record DataFlags := mkDataFlags { df_endianness : bool; df_inline_qos : bool; df_data_present : bool; df_key_present : bool }.
Definition DataFlags_from_byte (byte : Z) : DataFlags :=
  mkDataFlags (flag_bit byte 0x01) (flag_bit byte 0x02) (flag_bit byte 0x04) (flag_bit byte 0x08).
Record HeartbeatFlags := mkHeartbeatFlags { hf_endianness : bool; hf_final_flag : bool; hf_liveliness_flag : bool }.
Definition HeartbeatFlags_from_byte (byte : Z) : HeartbeatFlags :=
  mkHeartbeatFlags (flag_bit byte 0x01) (flag_bit byte 0x02) (flag_bit byte 0x04).
Record AckNackFlags := mkAckNackFlags { af_endianness : bool; af_final_flag : bool }.
Definition AckNackFlags_from_byte (byte : Z) : AckNackFlags := mkAckNackFlags (flag_bit byte 0x01) (flag_bit byte 0x02).
Record InfoTimestampFlags := mkInfoTimestampFlags { if_endianness : bool; if_invalidate_flag : bool }.
Definition InfoTimestampFlags_from_byte (byte : Z) : InfoTimestampFlags :=
  mkInfoTimestampFlags (flag_bit byte 0x01) (flag_bit byte 0x02).
Record InfoReplyFlags := mkInfoReplyFlags { rf_endianness : bool; rf_multicast_flag : bool }.
Definition InfoReplyFlags_from_byte (byte : Z) : InfoReplyFlags := mkInfoReplyFlags (flag_bit byte 0x01) (flag_bit byte 0x02).
Record SubmessageFlags := mkSubmessageFlags { endianness_flag : bool; raw_flags : Z }.
Definition SubmessageFlags_from_byte (byte : Z) : SubmessageFlags := mkSubmessageFlags (flag_bit byte 0x01) byte.
Definition is_big_endian (f : SubmessageFlags) : bool := negb (endianness_flag f).

(** The accessors of the bodies, whose flags are kept as a byte. *)
Definition is_discovery_data (m : DataSubmessage) : bool := is_builtin (d_writer_id m).
Definition is_user_data (m : DataSubmessage) : bool := negb (is_builtin (d_writer_id m)).
Definition is_key_only (m : DataSubmessage) : bool :=
  let flags := DataFlags_from_byte (d_flags m) in df_key_present flags && negb (df_data_present flags).
Definition sequence_range (first_sn last_sn : SequenceNumber) : defined_or Z :=
  d ← sub64 (sn_value last_sn) (sn_value first_sn); sub64 d (-1).
Definition missing_count (reader_sn_state : SequenceNumberSet) : Z := Rtps.count reader_sn_state.
Definition has_timestamp (timestamp : option Time) (flags : Z) : bool :=
  match timestamp with
  | Some _ => negb (if_invalidate_flag (InfoTimestampFlags_from_byte flags))
  | None => false
  end.

Definition is_valid_submessage_kind (kind : Z) : bool :=
  (kind =? PAD) || (kind =? ACKNACK) || (kind =? HEARTBEAT) || (kind =? GAP) || (kind =? INFO_TS) || (kind =? INFO_SRC) ||
  (kind =? INFO_REPLY_IP4) || (kind =? INFO_DST) || (kind =? INFO_REPLY) || (kind =? NACK_FRAG) ||
  (kind =? HEARTBEAT_FRAG) || (kind =? DATA) || (kind =? DATA_FRAG).
Definition has_body (s : Submessage) : bool := match sub_body s with Unparsed => false | _ => true end.

(** ** Messages *)

Definition summary (h : RtpsHeader) : string :=
  "RTPS v" +:+ ProtocolVersion_to_string (version h) +:+ " from " +:+ VendorIdValue_to_string (vendor_id h) +:+ " (" +:+
  pretty (zlen (submessages h)) +:+ " submessages)".
Definition header_participant_guid (h : RtpsHeader) : GUID := mkGUID (guid_prefix h) EntityId_participant.
Definition message_has_data (h : RtpsHeader) : bool :=
  existsb (fun sub => (sub_kind sub =? DATA) || (sub_kind sub =? DATA_FRAG)) (submessages h).

(** ** Discovery *)

Definition durability_kind_string (kind : Z) : string :=
  if kind =? 0 then "VOLATILE"
  else if kind =? 1 then "TRANSIENT_LOCAL"
  else if kind =? 2 then "TRANSIENT"
  else if kind =? 3 then "PERSISTENT"
  else "UNKNOWN".
Definition reliability_kind_string (kind : Z) : string :=
  if kind =? 1 then "BEST_EFFORT" else if kind =? 2 then "RELIABLE" else "UNKNOWN".
Definition liveliness_kind_string (kind : Z) : string :=
  if kind =? 0 then "AUTOMATIC"
  else if kind =? 1 then "MANUAL_BY_PARTICIPANT"
  else if kind =? 2 then "MANUAL_BY_TOPIC"
  else "UNKNOWN".
Definition PID_LIVELINESS : Z := 0x001B.
Definition PID_DEADLINE : Z := 0x0023.
Definition parameter_id_string (id : Z) : string :=
  if id =? Discovery.PID_PAD then "PID_PAD"
  else if id =? PID_SENTINEL then "PID_SENTINEL"
  else if id =? Discovery.PID_PARTICIPANT_GUID then "PID_PARTICIPANT_GUID"
  else if id =? Discovery.PID_TOPIC_NAME then "PID_TOPIC_NAME"
  else if id =? Discovery.PID_TYPE_NAME then "PID_TYPE_NAME"
  else if id =? Discovery.PID_PROTOCOL_VERSION then "PID_PROTOCOL_VERSION"
  else if id =? Discovery.PID_VENDOR_ID then "PID_VENDOR_ID"
  else if id =? Discovery.PID_ENDPOINT_GUID then "PID_ENDPOINT_GUID"
  else if id =? Discovery.PID_BUILTIN_ENDPOINT_SET then "PID_BUILTIN_ENDPOINT_SET"
  else if id =? Discovery.PID_DURABILITY then "PID_DURABILITY"
  else if id =? Discovery.PID_RELIABILITY then "PID_RELIABILITY"
  else if id =? PID_LIVELINESS then "PID_LIVELINESS"
  else if id =? PID_DEADLINE then "PID_DEADLINE"
  else if id =? Discovery.PID_USER_DATA then "PID_USER_DATA"
  else if id =? Discovery.PID_ENTITY_NAME then "PID_ENTITY_NAME"
  else "PID_UNKNOWN".

Definition participant_to_string (p : Discovery.ParticipantBuiltinTopicData) : string :=
  "Participant{guid=" +:+ GUID_to_string (Discovery.participant_guid p) +:+
  (match Discovery.participant_name p with [] => "" | name => ",name=" +:+ text_of name end) +:+
  ",vendor=" +:+ VendorIdValue_to_string (Discovery.p_vendor_id p) +:+ "}".
(** The texts of a publication and a subscription differ in their first word. *)
Definition endpoint_to_string (word : string) (p : Discovery.EndpointBuiltinTopicData) : string :=
  word +:+ "{guid=" +:+ GUID_to_string (Discovery.endpoint_guid p) +:+ ",topic=" +:+ text_of (Discovery.topic_name p) +:+
  ",type=" +:+ text_of (Discovery.type_name p) +:+ "}".
Definition publication_to_string := endpoint_to_string "Publication".
Definition subscription_to_string := endpoint_to_string "Subscription".

(** * Properties *)

(** ** Orders *)

(** What an [operator<] has to be for the keys of a [std::map]. *)
Class Ordered {A} (lt : A -> A -> bool) : Prop := {
  lt_irreflexive a : lt a a = false;
  lt_transitive a b c : lt a b = true -> lt b c = true -> lt a c = true;
  lt_total a b : lt a b = true \/ a = b \/ lt b a = true
}.

#[export] Instance array_lt_ordered : Ordered array_lt.
Proof.
  split.
  - induction a as [|x a IH]; [reflexivity|]. cbn. rewrite Z.ltb_irrefl. exact IH.
  - induction a as [|x a IH]; intros [|y b] [|z c]; cbn; try congruence.
    intros H1 H2. repeat case_match; bool_to_prop; try congruence; try lia. eapply IH; eassumption.
  - induction a as [|x a IH]; intros [|y b]; cbn; auto.
    destruct (Z.ltb_spec (u8 x) (u8 y)); [auto|]. destruct (Z.ltb_spec (u8 y) (u8 x)); [auto|].
    assert (x = y) as -> by (apply u8_inj; lia). destruct (IH b) as [Hl | [-> | Hl]]; auto.
Qed.

#[export] Instance Zltb_ordered : Ordered Z.ltb.
Proof.
  split; [exact Z.ltb_irrefl | intros a b c; rewrite !Z.ltb_lt; lia|].
  intros a b. rewrite !Z.ltb_lt. lia.
Qed.

(** Comparing two fields one after the other. *)
Lemma ordered_fields {A B C} `{!EqDecision A} (f : C -> A) (g : C -> B) (lt1 : A -> A -> bool) (lt2 : B -> B -> bool) :
  Ordered lt1 -> Ordered lt2 -> (forall a b, f a = f b -> g a = g b -> a = b) ->
  Ordered (fun a b => if negb (bool_decide (f a = f b)) then lt1 (f a) (f b) else lt2 (g a) (g b)).
Proof.
  intros O1 O2 Hfg. split.
  - intros a. rewrite bool_decide_true by reflexivity. apply lt_irreflexive.
  - intros a b c. destruct (decide (f a = f b)) as [E1|E1]; destruct (decide (f b = f c)) as [E2|E2];
      repeat first [rewrite (bool_decide_true (f a = f b)) by assumption | rewrite (bool_decide_false (f a = f b)) by assumption
        | rewrite (bool_decide_true (f b = f c)) by assumption | rewrite (bool_decide_false (f b = f c)) by assumption]; cbn.
    + rewrite bool_decide_true by congruence. apply lt_transitive.
    + rewrite E1, bool_decide_false by assumption. auto.
    + rewrite <- E2, bool_decide_false by assumption. auto.
    + intros H1 H2. destruct (decide (f a = f c)) as [E3|E3].
      * rewrite E3 in H1. pose proof (lt_transitive _ _ _ H1 H2) as H3. rewrite lt_irreflexive in H3. discriminate.
      * rewrite bool_decide_false by assumption. exact (lt_transitive _ _ _ H1 H2).
  - intros a b. destruct (decide (f a = f b)) as [E|E].
    + rewrite !bool_decide_true by congruence. cbn. destruct (lt_total (lt := lt2) (g a) (g b)) as [H | [H | H]]; auto.
    + rewrite !bool_decide_false by congruence. cbn. destruct (lt_total (lt := lt1) (f a) (f b)) as [H | [H | H]]; auto.
Qed.

#[export] Instance EntityId_ordered : Ordered EntityId_lt.
Proof.
  apply (ordered_fields entity_key kind array_lt Z.ltb _ _). intros [] []; cbn. congruence.
Qed.

(** [operator<] on GUIDs is a strict total order whose ties are the equal GUIDs, so GUIDs
    can be the keys of a [std::map]; [operator==] is equality. *)
Theorem guid_order : Ordered GUID_lt /\ forall a b, GUID_eqb a b = true <-> a = b.
Proof.
  split.
  - apply (ordered_fields prefix entity_id array_lt EntityId_lt _ _). intros [] []; cbn. congruence.
  - intros [p [k n]] [q [l m]]. unfold GUID_eqb, GuidPrefix_eqb, EntityId_eqb. cbn.
    rewrite !andb_true_iff, !bool_decide_eq_true, Z.eqb_eq. split; [intros (-> & -> & ->); reflexivity | intros [= -> -> ->]; auto].
Qed.

(** ** Sequence numbers *)

Lemma sn_value_sum sn : wf_sn sn -> sn_value sn = high sn * 2 ^ 32 + low sn.
Proof. intros [_ Hl]. unfold sn_value. apply lor_shiftl_add; [lia | exact Hl]. Qed.

(** The order and the equality of sequence numbers are those of their 64-bit values. *)
Theorem sequence_order a b :
  wf_sn a -> wf_sn b ->
  sn_lt a b = (sn_value a <? sn_value b) /\
  sn_eqb a b = (sn_value a =? sn_value b) /\
  sn_le a b = sn_lt a b || sn_eqb a b /\
  sn_lt sn_max a = false /\
  fits_signed 64 (sn_value a).
Proof.
  intros Ha Hb. pose proof (sn_value_sum a Ha) as Va. pose proof (sn_value_sum b Hb) as Vb.
  destruct Ha as [Ah Al], Hb as [Bh Bl]. unfold fits, fits_signed in *.
  assert (He : sn_eqb a b = (sn_value a =? sn_value b)).
  { unfold sn_eqb. apply eq_true_iff_eq. rewrite andb_true_iff, !Z.eqb_eq, Va, Vb. lia. }
  split; [reflexivity|]. split; [exact He|]. split.
  - rewrite He. unfold sn_le, sn_lt. apply eq_true_iff_eq. rewrite orb_true_iff, Z.leb_le, Z.ltb_lt, Z.eqb_eq. lia.
  - split; [|lia]. apply Z.ltb_ge. rewrite Va. change (sn_value sn_max) with (2 ^ 63 - 1). lia.
Qed.

(** The number of sequence numbers that a heartbeat announces is computed without
    overflow unless the first one is so much smaller that it does not fit. *)
Theorem sequence_range_exact first_sn last_sn :
  sequence_range first_sn last_sn =
  (let n := sn_value last_sn - sn_value first_sn in
   if (- 2 ^ 63 <=? n) && (n + 1 <? 2 ^ 63) then Done (n + 1) else Undef).
Proof.
  unfold sequence_range, sub64. cbv zeta. set (n := sn_value last_sn - sn_value first_sn).
  destruct (Z.leb_spec (- 2 ^ 63) n) as [H1|H1]; [|reflexivity]. cbn [andb].
  destruct (Z.ltb_spec n (2 ^ 63)) as [H2|H2].
  - rewrite bind_Done. replace (n - -1) with (n + 1) by lia. rewrite (proj2 (Z.leb_le _ _)) by lia. reflexivity.
  - rewrite (proj2 (Z.ltb_ge (n + 1) _)) by lia. reflexivity.
Qed.

(** [contains] and [count] agree with the set that the bitmap stands for: the numbers
    [base + i] whose bit [i] is set. *)
Definition members (s : SequenceNumberSet) : list Z := filter (fun i => bitmap_bit (bitmap s) i = true) (seqZ 0 (num_bits s)).

Lemma count_bits_filter words n :
  count_bits words n = zlen (filter (fun i => bitmap_bit words i = true) (seqZ 0 (Z.of_nat n))).
Proof.
  induction n as [|n IH]; [reflexivity|]. cbn [count_bits]. rewrite IH, Nat2Z.inj_succ, <- Z.add_1_r, seqZ_app by lia.
  replace (seqZ (0 + Z.of_nat n) 1) with [Z.of_nat n] by (cbn; f_equal; lia).
  rewrite filter_app, filter_cons, filter_nil.
  rewrite length_app, Nat2Z.inj_add. f_equal.
  destruct (decide (bitmap_bit words (Z.of_nat n) = true)) as [E|E]; [rewrite E | rewrite (not_true_is_false _ E)]; reflexivity.
Qed.

Theorem sequence_set_exact s sn :
  0 <= num_bits s -> fits_signed 64 (sn_value sn - sn_value (base s)) ->
  (contains s sn = Done true <-> exists i, i ∈ members s /\ sn_value sn = sn_value (base s) + i) /\
  missing_count s = zlen (members s).
Proof.
  unfold fits_signed. intros Hn Hd. split.
  - unfold contains, sub64. rewrite (proj2 (Z.leb_le _ _)), (proj2 (Z.ltb_lt _ _)) by lia. cbn [andb]. rewrite bind_Done.
    set (offset := sn_value sn - sn_value (base s)) in *.
    transitivity (offset ∈ members s).
    + unfold members. rewrite list_elem_of_filter, elem_of_seqZ.
      destruct (Z.ltb_spec offset 0); cbn; [split; [congruence | lia]|].
      destruct (Z.leb_spec (num_bits s) offset); [split; [congruence | lia]|].
      split; [intros [= ->]; split; [reflexivity | lia] | intros [-> _]; reflexivity].
    + split; [intros Hm; exists offset; split; [exact Hm | lia] | intros (i & Hm & Hi); replace offset with i by lia; exact Hm].
  - unfold missing_count, count, members. rewrite count_bits_filter, Z2Nat.id by exact Hn. reflexivity.
Qed.

(** ** Times *)

(** A time in units of 2^-32 seconds. *)
Definition ticks (t : Time) : Z := time_seconds t * 2 ^ 32 + fraction t.

(** The difference of two times is exact whenever it is defined, and it is defined
    exactly if neither the difference of the seconds nor the result leaves 32 bits. *)
Theorem time_minus_exact a b :
  wf_time a -> wf_time b ->
  (exists c, time_minus a b = Done c /\ wf_time c /\ ticks c = ticks a - ticks b /\
             fits_signed 32 (time_seconds a - time_seconds b)) \/
  time_minus a b = Undef /\
    (~ fits_signed 32 (time_seconds a - time_seconds b) \/
     forall c, wf_time c -> ticks c <> ticks a - ticks b).
Proof.
  intros [As Af] [Bs Bf]. unfold fits, fits_signed in *. unfold time_minus, sub32, ticks.
  destruct ((- 2 ^ 31 <=? time_seconds a - time_seconds b) && (time_seconds a - time_seconds b <? 2 ^ 31)) eqn:E1;
    bool_to_prop; [|right; split; [reflexivity | left; lia]].
  rewrite bind_Done. destruct (Z.leb_spec (fraction b) (fraction a)).
  - left. eexists. split; [reflexivity|]. split; [split; cbn; unfold fits, fits_signed; lia|]. cbn. lia.
  - destruct ((- 2 ^ 31 <=? time_seconds a - time_seconds b - 1) && (time_seconds a - time_seconds b - 1 <? 2 ^ 31)) eqn:E2;
      bool_to_prop.
    + left. rewrite bind_Done. eexists. split; [reflexivity|]. rewrite uint_small by (unfold fits; lia).
      split; [split; cbn; unfold fits, fits_signed; lia|]. cbn. lia.
    + right. split; [reflexivity|]. right. intros c [Cs Cf]. unfold fits, fits_signed in *. lia.
Qed.

Example time_minus_half :
  time_minus (mkTime 5 0) (mkTime 3 0x80000000) = Done (mkTime 1 0x80000000).
Proof. reflexivity. Qed.

(** ** Text *)

Lemma zero_padded_read width n s : 0 <= n -> ReportReaders.no_digit_first s ->
  ReportReaders.read_digits 0 (zero_padded width n +:+ s) = (n, s).
Proof.
  intros Hn Hs. unfold zero_padded. induction (width - String.length (pretty n))%nat as [|k IH].
  - apply (ReportReaders.read_pretty n s Hn Hs).
  - exact IH.
Qed.

Lemma length_pretty_go k x s : (x < 10 ^ N.of_nat k)%N -> (String.length (pretty_N_go x s) <= k + String.length s)%nat.
Proof.
  revert x s. induction k as [|k IH]; intros x s Hx.
  - assert (x = 0%N) as -> by lia. rewrite pretty_N_go_0. reflexivity.
  - destruct (N.eq_dec x 0%N) as [->|Hx0]; [rewrite pretty_N_go_0; lia|].
    rewrite pretty_N_go_step by lia. rewrite IH; [cbn; lia|].
    rewrite Nat2N.inj_succ, N.pow_succ_r' in Hx. apply N.Div0.div_lt_upper_bound. lia.
Qed.

Lemma length_pretty k n : (0 < k)%nat -> 0 <= n < 10 ^ Z.of_nat k -> (String.length (pretty n) <= k)%nat.
Proof.
  intros Hk Hn. destruct n as [|p|p]; [cbn; lia| |lia].
  unfold pretty, pretty_Z, pretty, pretty_positive, pretty, pretty_N. case_decide; [cbn; lia|].
  etransitivity; [apply (length_pretty_go k)|cbn; lia].
  apply N2Z.inj_lt. rewrite N2Z.inj_pow, nat_N_Z. exact (proj2 Hn).
Qed.

Lemma length_zero_padded width n :
  (0 < width)%nat -> 0 <= n < 10 ^ Z.of_nat width -> String.length (zero_padded width n) = width.
Proof.
  intros Hw Hn. unfold zero_padded. rewrite ReportReaders.append_length.
  assert (Hz : forall k, String.length (zeros k) = k) by (induction k; cbn; congruence).
  rewrite Hz. pose proof (length_pretty width n Hw Hn). lia.
Qed.

(** The text of a time that is not negative is its seconds, a point and nine digits, the
    number of whole nanoseconds in the fraction. *)
Theorem time_text t rest :
  wf_time t -> 0 <= time_seconds t ->
  exists nanoseconds,
    Time_to_string t = pretty (time_seconds t) +:+ "." +:+ nanoseconds /\
    String.length nanoseconds = 9%nat /\
    (ReportReaders.no_digit_first rest ->
     ReportReaders.read_digits 0 (nanoseconds +:+ rest) = (fraction t * 10 ^ 9 / 2 ^ 32, rest)).
Proof.
  intros [_ Hf] Hs. unfold fits in Hf. exists (zero_padded 9 (Time_nanoseconds t)).
  assert (Hn : Time_nanoseconds t = fraction t * 10 ^ 9 / 2 ^ 32).
  { unfold Time_nanoseconds. rewrite uint_small by (unfold fits; lia). reflexivity. }
  assert (Hb : 0 <= fraction t * 10 ^ 9 / 2 ^ 32 < 10 ^ 9) by lia.
  split; [reflexivity|]. rewrite Hn. split; [apply length_zero_padded; [lia | exact Hb]|].
  apply zero_padded_read. lia.
Qed.

Lemma time_text_witness :
  wf_time (mkTime 7 0x80000000) /\ 0 <= time_seconds (mkTime 7 0x80000000) /\
  exists nanoseconds,
    Time_to_string (mkTime 7 0x80000000) = "7" +:+ "." +:+ nanoseconds /\ String.length nanoseconds = 9%nat.
Proof.
  assert (Hw : wf_time (mkTime 7 0x80000000)) by (split; cbn; unfold fits_signed, fits; lia).
  split; [exact Hw|]. split; [cbn; lia|].
  destruct (time_text (mkTime 7 0x80000000) "" Hw ltac:(cbn; lia)) as (n & H1 & H2 & _). exists n. auto.
Defined.

(** Half a second before the epoch is written like a time one second earlier. *)
Example time_text_negative : Time_to_string (mkTime (-1) 0x80000000) = "-1.500000000" /\ ticks (mkTime (-1) 0x80000000) = - 2 ^ 31.
Proof. split; reflexivity. Qed.

(** *** Texts of GUIDs *)

Lemma append_split a b s t : String.length a = String.length b -> a +:+ s = b +:+ t -> a = b /\ s = t.
Proof.
  revert b. induction a as [|c a IH]; intros [|d b] Hl He; try discriminate; [auto|].
  rewrite !ReportReaders.append_cons in He. injection He as -> He. destruct (IH b) as [-> ->]; auto.
Qed.

Lemma hex2_inj a b : hex2 (u8 a) = hex2 (u8 b) -> a = b.
Proof.
  pose proof (u8_range a). pose proof (u8_range b). intros [= H1 H2]. apply u8_inj.
  apply (f_equal Ascii.byte_of_ascii), (f_equal Address.hex_nibble) in H1, H2.
  rewrite !ScenarioDocument.hex_char_nibble in H1, H2 by lia. injection H1. injection H2. lia.
Qed.

Lemma prefix_text_inj n : forall i a b s t, length a = n -> length b = n ->
  prefix_text i a +:+ s = prefix_text i b +:+ t -> a = b /\ s = t.
Proof.
  induction n as [|n IH]; intros i [|x a] [|y b] s t Ha Hb He; try discriminate; [auto|].
  cbn [prefix_text] in He. rewrite !ReportReaders.append_assoc in He.
  apply append_split in He as [_ He]; [|reflexivity].
  apply append_split in He as [Hx He]; [|reflexivity]. apply hex2_inj in Hx as ->.
  destruct (IH (i + 1) a b s t) as [-> ->]; auto.
Qed.

Lemma EntityId_text_inj a b : wf_entity a -> wf_entity b -> EntityId_to_string a = EntityId_to_string b -> a = b.
Proof.
  destruct a as [[|x [|y [|z []]]] n], b as [[|x' [|y' [|z' []]]] m]; intros [Ha Hn] [Hb Hm] He; try discriminate.
  unfold EntityId_to_string in He. cbn [foldr entity_key kind] in He, Hn, Hm.
  apply append_split in He as [Hx He]; [|reflexivity]. apply append_split in He as [Hy He]; [|reflexivity].
  apply append_split in He as [Hz He]; [|reflexivity]. apply append_split in He as [_ He]; [|reflexivity].
  apply hex2_inj in Hx as ->. apply hex2_inj in Hy as ->. apply hex2_inj in Hz as ->.
  assert (to_byte n = to_byte m) as Hk.
  { apply hex2_inj. rewrite !u8_to_byte, !Z.mod_small by (unfold fits in *; lia). exact He. }
  apply (f_equal u8) in Hk. rewrite !u8_to_byte, !Z.mod_small in Hk by (unfold fits in *; lia). congruence.
Qed.

(** The text of a GUID identifies it. *)
Theorem guid_text_injective a b :
  length (prefix a) = 12%nat -> length (prefix b) = 12%nat -> wf_entity (entity_id a) -> wf_entity (entity_id b) ->
  GUID_to_string a = GUID_to_string b -> a = b.
Proof.
  intros La Lb Ha Hb He. unfold GUID_to_string, GuidPrefix_to_string in He.
  apply (prefix_text_inj 12) in He as [Hp He]; [|exact La | exact Lb].
  apply append_split in He as [_ He]; [|reflexivity]. apply EntityId_text_inj in He; [|exact Ha | exact Hb].
  destruct a, b. cbn in *. congruence.
Qed.

Lemma guid_text_injective_witness :
  GUID_to_string (mkGUID (replicate 12 xab) EntityId_participant) = "abababab:abababab:abababab|000001.c1" /\
  mkGUID (replicate 12 xab) EntityId_participant = mkGUID (replicate 12 xab) (mkEntityId [x00; x00; x01] 193).
Proof.
  split; [reflexivity|].
  apply guid_text_injective; try reflexivity; split; try reflexivity; unfold fits; cbn; lia.
Defined.

(** ** Ports *)

(** In the domains up to 232 nothing wraps for the first hundred participants, the port
    of a domain tells the domain, but the user port of a participant is the discovery
    port of the next one. *)
Theorem rtps_ports d p :
  0 <= d <= 232 -> 0 <= p <= 100 ->
  discovery_multicast_port d = 7400 + 250 * d /\
  user_multicast_port d = 7401 + 250 * d /\
  discovery_unicast_port d p = 7410 + 250 * d + p /\
  user_unicast_port d p = discovery_unicast_port d (p + 1).
Proof.
  intros Hd Hp. unfold discovery_multicast_port, user_multicast_port, discovery_unicast_port, user_unicast_port.
  unfold RTPS_PORT_BASE, RTPS_PORT_DOMAIN_GAIN, RTPS_DISCOVERY_MULTICAST_PORT_OFFSET, RTPS_DISCOVERY_UNICAST_PORT_OFFSET,
    RTPS_USER_MULTICAST_PORT_OFFSET, RTPS_USER_UNICAST_PORT_OFFSET.
  rewrite !uint_small by (unfold fits; lia). lia.
Qed.

Lemma rtps_ports_witness :
  discovery_multicast_port 0 = 7400 /\ user_multicast_port 0 = 7401 /\ user_unicast_port 0 0 = 7411 /\
  discovery_unicast_port 0 1 = 7411.
Proof. destruct (rtps_ports 0 0) as (H1 & H2 & H3 & H4); [lia | lia|]. repeat split; first [exact H1 | exact H2 | reflexivity]. Defined.

(** From domain 233 on the ports wrap around into the range of other services. *)
Example rtps_port_wraps : discovery_multicast_port 233 = 114.
Proof. reflexivity. Qed.

(** Which of these ports [is_likely_rtps_port] accepts: the discovery ports of the
    domains up to 230, except the multicast port of domain 24, which is the port of DoIP, but
    no user multicast port. *)
Theorem likely_ports d p :
  0 <= d <= 230 -> 0 <= p <= 9 ->
  is_likely_rtps_port (discovery_multicast_port d) = negb (d =? 24) /\
  is_likely_rtps_port (discovery_unicast_port d p) = true /\
  is_likely_rtps_port (user_unicast_port d p) = true /\
  is_likely_rtps_port (user_multicast_port d) = false.
Proof.
  intros Hd Hp. destruct (rtps_ports d p) as (-> & -> & -> & ->); [lia | lia|].
  destruct (rtps_ports d (p + 1)) as (_ & _ & -> & _); [lia | lia|].
  unfold is_likely_rtps_port, RTPS_PORT_BASE, RTPS_PORT_DOMAIN_GAIN, RTPS_DISCOVERY_MULTICAST_PORT_OFFSET,
    RTPS_DISCOVERY_UNICAST_PORT_OFFSET.
  repeat split; apply eq_true_iff_eq || idtac;
    repeat match goal with |- context [if ?b then _ else _] => destruct b eqn:? end; bool_to_prop; try lia.
Qed.

(** ** Kinds and bodies *)

(** The valid kinds are those that have a name. *)
Theorem kinds_named kind : is_valid_submessage_kind kind = true <-> submessage_kind_string kind <> "UNKNOWN".
Proof.
  unfold is_valid_submessage_kind, submessage_kind_string.
  repeat match goal with |- context [?a =? ?b] => destruct (a =? b); [split; [discriminate | reflexivity]|] end.
  split; [discriminate | congruence].
Qed.

(** Four valid kinds, among them the fragments of data, have no parser. *)
Theorem unparsed_kinds kind flags mem size :
  kind ∈ [INFO_REPLY_IP4; NACK_FRAG; HEARTBEAT_FRAG; DATA_FRAG] ->
  is_valid_submessage_kind kind = true /\ parse_submessage_body kind flags mem size = Done Unparsed.
Proof. rewrite !elem_of_cons, elem_of_nil. intros [-> | [-> | [-> | [-> | []]]]]; split; reflexivity. Qed.

Lemma unparsed_kinds_witness : parse_submessage_body DATA_FRAG 1 [] 0 = Done Unparsed.
Proof. apply unparsed_kinds. rewrite !elem_of_cons. auto. Defined.

(** A body of time stamps has one exactly when the invalidate flag is clear and there
    are eight bytes; its accessor says so. *)
Theorem timestamp_present flags mem size timestamp flags' :
  parse_submessage_body INFO_TS flags mem size = Done (InfoTimestampBody timestamp flags') ->
  has_timestamp timestamp flags' = bool_decide (is_Some timestamp) /\
  has_timestamp timestamp flags' = negb (flag_bit flags 0x02) && (8 <=? size).
Proof.
  unfold parse_submessage_body. cbn -[read_time flag_bit]. intros H. apply bind_inv in H as (ts & Ht & [= <- <-]).
  unfold has_timestamp, InfoTimestampFlags_from_byte, if_invalidate_flag.
  destruct (negb (flag_bit flags 2) && (8 <=? size)) eqn:E.
  - apply bind_inv in Ht as (t & _ & [= <-]). apply andb_true_iff in E as [-> _]. split; reflexivity.
  - injection Ht as <-. split; reflexivity.
Qed.

Lemma timestamp_present_witness :
  parse_submessage_body INFO_TS 0x01 (replicate 8 x00) 8 = Done (InfoTimestampBody (Some Time_zero) 0x01) /\
  has_timestamp (Some Time_zero) 0x01 = true.
Proof.
  assert (H : parse_submessage_body INFO_TS 0x01 (replicate 8 x00) 8 = Done (InfoTimestampBody (Some Time_zero) 0x01)) by reflexivity.
  split; [exact H | rewrite (proj2 (timestamp_present _ _ _ _ _ H)); reflexivity].
Defined.

(** The well-known entities are built-in and different from each other. *)
Theorem builtin_entities :
  let known := [EntityId_participant; spdp_builtin_participant_writer; spdp_builtin_participant_reader;
                sedp_builtin_publications_writer; sedp_builtin_publications_reader;
                sedp_builtin_subscriptions_writer; sedp_builtin_subscriptions_reader;
                sedp_builtin_topics_writer; sedp_builtin_topics_reader] in
  Forall (fun e => is_builtin e = true) known /\ NoDup (EntityId_to_string <$> known) /\
  is_builtin Discovery.EntityId_unknown = false.
Proof.
  cbv zeta. split; [repeat constructor|]. split; [|reflexivity].
  apply (bool_decide_unpack _). vm_compute. exact I.
Qed.

Example summary_text :
  summary (mkRtpsHeader v2_3 [x01; x0f] (replicate 12 x00) []) = "RTPS v2.3 from eProsima (0 submessages)".
Proof. reflexivity. Qed.

(** An RTPS message to the user multicast port is not decoded as RTPS, unless the port it
    comes from is a likely one. *)
Definition rtps_to (src_port dst_port : Z) : list byte :=
  Dispatcher.udp_frame Dispatcher.sample_eth Dispatcher.sample_ip (Udp.mkUdpHeader src_port dst_port 8 0 true)
    ([x52; x54; x50; x53; x02; x03; x01; x0f] ++ replicate 12 xab).
Definition decoded_as_rtps (d : list byte) : option bool :=
  match Dispatcher.decode (Dispatcher.new_dispatcher Dispatcher.DispatcherOptions_default) d with
  | Done (r, _) => Some (existsb (fun l => match l with Dispatcher.RtpsLayer _ => true | _ => false end) (Dispatcher.layers r))
  | _ => None
  end.
Example user_multicast_not_decoded :
  decoded_as_rtps (rtps_to 65000 (discovery_multicast_port 0)) = Some true /\
  decoded_as_rtps (rtps_to 65000 (user_multicast_port 0)) = Some false /\
  decoded_as_rtps (rtps_to (user_unicast_port 0 0) (user_multicast_port 0)) = Some true.
Proof. vm_compute. repeat split. Qed.
