(* ===== verification/UdsServices.v ===== *)
(** * The messages of UDS services (include/wadjet/protocols/uds/uds_services.hpp)

    The structures of requests and responses, with their static members and accessors, and
    the variant that holds one of them.  Uds.v has the alternatives that the decoder
    returns; [of_decoded] is the structure that it fills for each.  The static members
    [service_id()] and [min_size()] are the interface of a structure to code that is
    generic in it: classes, whose laws say that the decoder keeps to them.  Fields of type
    [DataFormatIdentifier] and [AddressAndLengthFormatIdentifier] are their two nibbles. *)

From Stdlib Require Import ZArith Lia.
From Stdlib Require Import Strings.Byte.
From stdpp Require Import base numbers list strings.
From S2P Require Import Prelude.
From S2P Require Uds UdsTables UdsSession.

(** [CommunicationType] of uds_types.hpp. *)
Record CommunicationType := mkCommunicationType { normal_communication : bool; network_management : bool }.
Definition CommunicationType_from_byte (byte : Z) : CommunicationType :=
  mkCommunicationType (negb (Z.land byte 0x01 =? 0)) (negb (Z.land byte 0x02 =? 0)).
Definition CommunicationType_to_byte (ct : CommunicationType) : Z :=
  Z.lor (if normal_communication ct then 0x01 else 0) (if network_management ct then 0x02 else 0).

(** ** Structures *)

Record DiagnosticSessionControlRequest := mkDiagnosticSessionControlRequest {
  dscq_session_type : Z;
  dscq_suppress_positive_response : bool
}.
Definition DiagnosticSessionControlRequest_service_id : Z := Uds.DiagnosticSessionControl.
Definition DiagnosticSessionControlRequest_min_size : Z := 2.
Record DiagnosticSessionControlResponse := mkDiagnosticSessionControlResponse {
  dscr_session_type : Z;
  dscr_p2_server_max_ms : Z;
  dscr_p2_star_server_max_ms : Z
}.
Definition DiagnosticSessionControlResponse_service_id : Z := Uds.DiagnosticSessionControl.
Record ECUResetRequest := mkECUResetRequest { erq_reset_type : Z; erq_suppress_positive_response : bool }.
Definition ECUResetRequest_service_id : Z := Uds.ECUReset.
Definition ECUResetRequest_min_size : Z := 2.
Record ECUResetResponse := mkECUResetResponse { err_reset_type : Z; err_power_down_time : option Z }.
Definition ECUResetResponse_service_id : Z := Uds.ECUReset.
Record SecurityAccessRequest := mkSecurityAccessRequest {
  saq_access_type : Z;
  saq_suppress_positive_response : bool;
  saq_security_key : list byte
}.
Definition SecurityAccessRequest_service_id : Z := Uds.SecurityAccess.
Definition SecurityAccessRequest_min_size : Z := 2.
Record SecurityAccessResponse := mkSecurityAccessResponse { sar_access_type : Z; sar_security_seed : list byte }.
Definition SecurityAccessResponse_service_id : Z := Uds.SecurityAccess.
Record CommunicationControlRequest := mkCommunicationControlRequest {
  ccq_control_type : Z;
  ccq_communication_type : CommunicationType;
  ccq_suppress_positive_response : bool;
  ccq_node_identification_number : option Z
}.
Definition CommunicationControlRequest_service_id : Z := Uds.CommunicationControl.
Definition CommunicationControlRequest_min_size : Z := 3.
Record CommunicationControlResponse := mkCommunicationControlResponse { ccr_control_type : Z }.
Definition CommunicationControlResponse_service_id : Z := Uds.CommunicationControl.
Record TesterPresentRequest := mkTesterPresentRequest { tpq_sub_function : Z; tpq_suppress_positive_response : bool }.
Definition TesterPresentRequest_service_id : Z := Uds.TesterPresent.
Definition TesterPresentRequest_min_size : Z := 2.
Record TesterPresentResponse := mkTesterPresentResponse { tpr_sub_function : Z }.
Definition TesterPresentResponse_service_id : Z := Uds.TesterPresent.
Record ControlDTCSettingRequest := mkControlDTCSettingRequest {
  cdsq_dtc_setting_type : Z;
  cdsq_suppress_positive_response : bool;
  cdsq_dtc_setting_control_option_record : list byte
}.
Definition ControlDTCSettingRequest_service_id : Z := Uds.ControlDTCSetting.
Definition ControlDTCSettingRequest_min_size : Z := 2.
Record ControlDTCSettingResponse := mkControlDTCSettingResponse { cdsr_dtc_setting_type : Z }.
Definition ControlDTCSettingResponse_service_id : Z := Uds.ControlDTCSetting.
Record ReadDataByIdentifierRequest := mkReadDataByIdentifierRequest { rdbiq_data_identifiers : list Z }.
Definition ReadDataByIdentifierRequest_service_id : Z := Uds.ReadDataByIdentifier.
Definition ReadDataByIdentifierRequest_min_size : Z := 3.
Record DataRecord := mkDataRecord { dr_did : Z; dr_data : list byte }.
Record ReadDataByIdentifierResponse := mkReadDataByIdentifierResponse { rdbir_records : list DataRecord }.
Definition ReadDataByIdentifierResponse_service_id : Z := Uds.ReadDataByIdentifier.
Record WriteDataByIdentifierRequest := mkWriteDataByIdentifierRequest {
  wdbiq_data_identifier : Z;
  wdbiq_data_record : list byte
}.
Definition WriteDataByIdentifierRequest_service_id : Z := Uds.WriteDataByIdentifier.
Definition WriteDataByIdentifierRequest_min_size : Z := 4.
Record WriteDataByIdentifierResponse := mkWriteDataByIdentifierResponse { wdbir_data_identifier : Z }.
Definition WriteDataByIdentifierResponse_service_id : Z := Uds.WriteDataByIdentifier.
Record ReadDTCInformationRequest := mkReadDTCInformationRequest {
  rdiq_sub_function : Z;
  rdiq_suppress_positive_response : bool;
  rdiq_dtc_status_mask : option Z;
  rdiq_dtc_mask_record : option UdsTables.DTC;
  rdiq_dtc_snapshot_record_number : option Z;
  rdiq_dtc_extended_data_record_number : option Z;
  rdiq_dtc_severity_mask : option Z;
  rdiq_memory_selection : option Z
}.
Definition ReadDTCInformationRequest_service_id : Z := Uds.ReadDTCInformation.
Definition ReadDTCInformationRequest_min_size : Z := 2.
Record DTCAndStatus := mkDTCAndStatus { das_dtc : UdsTables.DTC; das_status : UdsTables.DTCStatusMask }.
Record ReadDTCInformationResponse := mkReadDTCInformationResponse {
  rdir_sub_function : Z;
  rdir_dtc_status_availability_mask : option Z;
  rdir_dtc_format_identifier : option Z;
  rdir_dtc_count : option Z;
  rdir_dtc_list : list DTCAndStatus;
  rdir_dtc_record_data : list byte
}.
Definition ReadDTCInformationResponse_service_id : Z := Uds.ReadDTCInformation.
Record ClearDiagnosticInformationRequest := mkClearDiagnosticInformationRequest { cdiq_group_of_dtc : Z }.
Definition ClearDiagnosticInformationRequest_service_id : Z := Uds.ClearDiagnosticInformation.
Definition ClearDiagnosticInformationRequest_min_size : Z := 4.
Record ClearDiagnosticInformationResponse := mkClearDiagnosticInformationResponse {}.
Definition ClearDiagnosticInformationResponse_service_id : Z := Uds.ClearDiagnosticInformation.
Record RoutineControlRequest := mkRoutineControlRequest {
  rcq_routine_control_type : Z;
  rcq_routine_identifier : Z;
  rcq_routine_option_record : list byte;
  rcq_suppress_positive_response : bool
}.
Definition RoutineControlRequest_service_id : Z := Uds.RoutineControl.
Definition RoutineControlRequest_min_size : Z := 4.
Record RoutineControlResponse := mkRoutineControlResponse {
  rcr_routine_control_type : Z;
  rcr_routine_identifier : Z;
  rcr_routine_info : list byte;
  rcr_routine_status_record : list byte
}.
Definition RoutineControlResponse_service_id : Z := Uds.RoutineControl.
Record InputOutputControlByIdentifierRequest := mkInputOutputControlByIdentifierRequest {
  ioq_data_identifier : Z;
  ioq_control_parameter : Z;
  ioq_control_state : list byte;
  ioq_control_enable_mask : list byte
}.
Definition InputOutputControlByIdentifierRequest_service_id : Z := Uds.InputOutputControlByIdentifier.
Definition InputOutputControlByIdentifierRequest_min_size : Z := 4.
Record InputOutputControlByIdentifierResponse := mkInputOutputControlByIdentifierResponse {
  ior_data_identifier : Z;
  ior_control_parameter : Z;
  ior_control_status_record : list byte
}.
Definition InputOutputControlByIdentifierResponse_service_id : Z := Uds.InputOutputControlByIdentifier.
Record RequestDownloadRequest := mkRequestDownloadRequest {
  rdq_data_format : (Z * Z);
  rdq_address_and_length_format : (Z * Z);
  rdq_memory_address : Z;
  rdq_memory_size : Z
}.
Definition RequestDownloadRequest_service_id : Z := Uds.RequestDownload.
Definition RequestDownloadRequest_min_size : Z := 4.
Record RequestDownloadResponse := mkRequestDownloadResponse {
  rdr_length_format_identifier : Z;
  rdr_max_number_of_block_length : Z
}.
Definition RequestDownloadResponse_service_id : Z := Uds.RequestDownload.
Record RequestUploadRequest := mkRequestUploadRequest {
  ruq_data_format : (Z * Z);
  ruq_address_and_length_format : (Z * Z);
  ruq_memory_address : Z;
  ruq_memory_size : Z
}.
Definition RequestUploadRequest_service_id : Z := Uds.RequestUpload.
Definition RequestUploadRequest_min_size : Z := 4.
Record RequestUploadResponse := mkRequestUploadResponse {
  rur_length_format_identifier : Z;
  rur_max_number_of_block_length : Z
}.
Definition RequestUploadResponse_service_id : Z := Uds.RequestUpload.
Record TransferDataRequest := mkTransferDataRequest {
  tdq_block_sequence_counter : Z;
  tdq_transfer_request_parameter_record : list byte
}.
Definition TransferDataRequest_service_id : Z := Uds.TransferData.
Definition TransferDataRequest_min_size : Z := 2.
Record TransferDataResponse := mkTransferDataResponse {
  tdr_block_sequence_counter : Z;
  tdr_transfer_response_parameter_record : list byte
}.
Definition TransferDataResponse_service_id : Z := Uds.TransferData.
Record RequestTransferExitRequest := mkRequestTransferExitRequest {
  rteq_transfer_request_parameter_record : list byte
}.
Definition RequestTransferExitRequest_service_id : Z := Uds.RequestTransferExit.
Definition RequestTransferExitRequest_min_size : Z := 1.
Record RequestTransferExitResponse := mkRequestTransferExitResponse {
  rter_transfer_response_parameter_record : list byte
}.
Definition RequestTransferExitResponse_service_id : Z := Uds.RequestTransferExit.
Record ReadMemoryByAddressRequest := mkReadMemoryByAddressRequest {
  rmaq_address_and_length_format : (Z * Z);
  rmaq_memory_address : Z;
  rmaq_memory_size : Z
}.
Definition ReadMemoryByAddressRequest_service_id : Z := Uds.ReadMemoryByAddress.
Definition ReadMemoryByAddressRequest_min_size : Z := 4.
Record ReadMemoryByAddressResponse := mkReadMemoryByAddressResponse { rmar_data_record : list byte }.
Definition ReadMemoryByAddressResponse_service_id : Z := Uds.ReadMemoryByAddress.
Record WriteMemoryByAddressRequest := mkWriteMemoryByAddressRequest {
  wmaq_address_and_length_format : (Z * Z);
  wmaq_memory_address : Z;
  wmaq_memory_size : Z;
  wmaq_data_record : list byte
}.
Definition WriteMemoryByAddressRequest_service_id : Z := Uds.WriteMemoryByAddress.
Definition WriteMemoryByAddressRequest_min_size : Z := 5.
Record WriteMemoryByAddressResponse := mkWriteMemoryByAddressResponse {
  wmar_address_and_length_format : (Z * Z);
  wmar_memory_address : Z;
  wmar_memory_size : Z
}.
Definition WriteMemoryByAddressResponse_service_id : Z := Uds.WriteMemoryByAddress.
Record NegativeResponseMessage := mkNegativeResponseMessage {
  nr_rejected_service_id : Z;
  nr_negative_response_code : Z
}.

(** ** The variant *)

Inductive UdsServiceMessage :=
| Monostate
| DiagnosticSessionControlRequest_alternative (m : DiagnosticSessionControlRequest)
| DiagnosticSessionControlResponse_alternative (m : DiagnosticSessionControlResponse)
| ECUResetRequest_alternative (m : ECUResetRequest)
| ECUResetResponse_alternative (m : ECUResetResponse)
| SecurityAccessRequest_alternative (m : SecurityAccessRequest)
| SecurityAccessResponse_alternative (m : SecurityAccessResponse)
| CommunicationControlRequest_alternative (m : CommunicationControlRequest)
| CommunicationControlResponse_alternative (m : CommunicationControlResponse)
| TesterPresentRequest_alternative (m : TesterPresentRequest)
| TesterPresentResponse_alternative (m : TesterPresentResponse)
| ControlDTCSettingRequest_alternative (m : ControlDTCSettingRequest)
| ControlDTCSettingResponse_alternative (m : ControlDTCSettingResponse)
| ReadDataByIdentifierRequest_alternative (m : ReadDataByIdentifierRequest)
| ReadDataByIdentifierResponse_alternative (m : ReadDataByIdentifierResponse)
| WriteDataByIdentifierRequest_alternative (m : WriteDataByIdentifierRequest)
| WriteDataByIdentifierResponse_alternative (m : WriteDataByIdentifierResponse)
| ReadDTCInformationRequest_alternative (m : ReadDTCInformationRequest)
| ReadDTCInformationResponse_alternative (m : ReadDTCInformationResponse)
| ClearDiagnosticInformationRequest_alternative (m : ClearDiagnosticInformationRequest)
| ClearDiagnosticInformationResponse_alternative (m : ClearDiagnosticInformationResponse)
| RoutineControlRequest_alternative (m : RoutineControlRequest)
| RoutineControlResponse_alternative (m : RoutineControlResponse)
| InputOutputControlByIdentifierRequest_alternative (m : InputOutputControlByIdentifierRequest)
| InputOutputControlByIdentifierResponse_alternative (m : InputOutputControlByIdentifierResponse)
| RequestDownloadRequest_alternative (m : RequestDownloadRequest)
| RequestDownloadResponse_alternative (m : RequestDownloadResponse)
| RequestUploadRequest_alternative (m : RequestUploadRequest)
| RequestUploadResponse_alternative (m : RequestUploadResponse)
| TransferDataRequest_alternative (m : TransferDataRequest)
| TransferDataResponse_alternative (m : TransferDataResponse)
| RequestTransferExitRequest_alternative (m : RequestTransferExitRequest)
| RequestTransferExitResponse_alternative (m : RequestTransferExitResponse)
| ReadMemoryByAddressRequest_alternative (m : ReadMemoryByAddressRequest)
| ReadMemoryByAddressResponse_alternative (m : ReadMemoryByAddressResponse)
| WriteMemoryByAddressRequest_alternative (m : WriteMemoryByAddressRequest)
| WriteMemoryByAddressResponse_alternative (m : WriteMemoryByAddressResponse)
| NegativeResponseMessage_alternative (m : NegativeResponseMessage).

Class ServiceMessage (T : Type) := {
  service_id : Z;
  get_if : UdsServiceMessage -> option T
}.
Arguments service_id T {_}.
Class ServiceRequest (T : Type) `{!ServiceMessage T} := min_size : Z.
Arguments min_size T {_ _}.

#[export] Instance DiagnosticSessionControlRequest_message : ServiceMessage DiagnosticSessionControlRequest := {|
  service_id := DiagnosticSessionControlRequest_service_id;
  get_if m := match m with DiagnosticSessionControlRequest_alternative x => Some x | _ => None end
|}.
#[export] Instance DiagnosticSessionControlRequest_request : ServiceRequest DiagnosticSessionControlRequest := DiagnosticSessionControlRequest_min_size.
#[export] Instance DiagnosticSessionControlResponse_message : ServiceMessage DiagnosticSessionControlResponse := {|
  service_id := DiagnosticSessionControlResponse_service_id;
  get_if m := match m with DiagnosticSessionControlResponse_alternative x => Some x | _ => None end
|}.
#[export] Instance ECUResetRequest_message : ServiceMessage ECUResetRequest := {|
  service_id := ECUResetRequest_service_id;
  get_if m := match m with ECUResetRequest_alternative x => Some x | _ => None end
|}.
#[export] Instance ECUResetRequest_request : ServiceRequest ECUResetRequest := ECUResetRequest_min_size.
#[export] Instance ECUResetResponse_message : ServiceMessage ECUResetResponse := {|
  service_id := ECUResetResponse_service_id;
  get_if m := match m with ECUResetResponse_alternative x => Some x | _ => None end
|}.
#[export] Instance SecurityAccessRequest_message : ServiceMessage SecurityAccessRequest := {|
  service_id := SecurityAccessRequest_service_id;
  get_if m := match m with SecurityAccessRequest_alternative x => Some x | _ => None end
|}.
#[export] Instance SecurityAccessRequest_request : ServiceRequest SecurityAccessRequest := SecurityAccessRequest_min_size.
#[export] Instance SecurityAccessResponse_message : ServiceMessage SecurityAccessResponse := {|
  service_id := SecurityAccessResponse_service_id;
  get_if m := match m with SecurityAccessResponse_alternative x => Some x | _ => None end
|}.
#[export] Instance CommunicationControlRequest_message : ServiceMessage CommunicationControlRequest := {|
  service_id := CommunicationControlRequest_service_id;
  get_if m := match m with CommunicationControlRequest_alternative x => Some x | _ => None end
|}.
#[export] Instance CommunicationControlRequest_request : ServiceRequest CommunicationControlRequest := CommunicationControlRequest_min_size.
#[export] Instance CommunicationControlResponse_message : ServiceMessage CommunicationControlResponse := {|
  service_id := CommunicationControlResponse_service_id;
  get_if m := match m with CommunicationControlResponse_alternative x => Some x | _ => None end
|}.
#[export] Instance TesterPresentRequest_message : ServiceMessage TesterPresentRequest := {|
  service_id := TesterPresentRequest_service_id;
  get_if m := match m with TesterPresentRequest_alternative x => Some x | _ => None end
|}.
#[export] Instance TesterPresentRequest_request : ServiceRequest TesterPresentRequest := TesterPresentRequest_min_size.
#[export] Instance TesterPresentResponse_message : ServiceMessage TesterPresentResponse := {|
  service_id := TesterPresentResponse_service_id;
  get_if m := match m with TesterPresentResponse_alternative x => Some x | _ => None end
|}.
#[export] Instance ControlDTCSettingRequest_message : ServiceMessage ControlDTCSettingRequest := {|
  service_id := ControlDTCSettingRequest_service_id;
  get_if m := match m with ControlDTCSettingRequest_alternative x => Some x | _ => None end
|}.
#[export] Instance ControlDTCSettingRequest_request : ServiceRequest ControlDTCSettingRequest := ControlDTCSettingRequest_min_size.
#[export] Instance ControlDTCSettingResponse_message : ServiceMessage ControlDTCSettingResponse := {|
  service_id := ControlDTCSettingResponse_service_id;
  get_if m := match m with ControlDTCSettingResponse_alternative x => Some x | _ => None end
|}.
#[export] Instance ReadDataByIdentifierRequest_message : ServiceMessage ReadDataByIdentifierRequest := {|
  service_id := ReadDataByIdentifierRequest_service_id;
  get_if m := match m with ReadDataByIdentifierRequest_alternative x => Some x | _ => None end
|}.
#[export] Instance ReadDataByIdentifierRequest_request : ServiceRequest ReadDataByIdentifierRequest := ReadDataByIdentifierRequest_min_size.
#[export] Instance ReadDataByIdentifierResponse_message : ServiceMessage ReadDataByIdentifierResponse := {|
  service_id := ReadDataByIdentifierResponse_service_id;
  get_if m := match m with ReadDataByIdentifierResponse_alternative x => Some x | _ => None end
|}.
#[export] Instance WriteDataByIdentifierRequest_message : ServiceMessage WriteDataByIdentifierRequest := {|
  service_id := WriteDataByIdentifierRequest_service_id;
  get_if m := match m with WriteDataByIdentifierRequest_alternative x => Some x | _ => None end
|}.
#[export] Instance WriteDataByIdentifierRequest_request : ServiceRequest WriteDataByIdentifierRequest := WriteDataByIdentifierRequest_min_size.
#[export] Instance WriteDataByIdentifierResponse_message : ServiceMessage WriteDataByIdentifierResponse := {|
  service_id := WriteDataByIdentifierResponse_service_id;
  get_if m := match m with WriteDataByIdentifierResponse_alternative x => Some x | _ => None end
|}.
#[export] Instance ReadDTCInformationRequest_message : ServiceMessage ReadDTCInformationRequest := {|
  service_id := ReadDTCInformationRequest_service_id;
  get_if m := match m with ReadDTCInformationRequest_alternative x => Some x | _ => None end
|}.
#[export] Instance ReadDTCInformationRequest_request : ServiceRequest ReadDTCInformationRequest := ReadDTCInformationRequest_min_size.
#[export] Instance ReadDTCInformationResponse_message : ServiceMessage ReadDTCInformationResponse := {|
  service_id := ReadDTCInformationResponse_service_id;
  get_if m := match m with ReadDTCInformationResponse_alternative x => Some x | _ => None end
|}.
#[export] Instance ClearDiagnosticInformationRequest_message : ServiceMessage ClearDiagnosticInformationRequest := {|
  service_id := ClearDiagnosticInformationRequest_service_id;
  get_if m := match m with ClearDiagnosticInformationRequest_alternative x => Some x | _ => None end
|}.
#[export] Instance ClearDiagnosticInformationRequest_request : ServiceRequest ClearDiagnosticInformationRequest := ClearDiagnosticInformationRequest_min_size.
#[export] Instance ClearDiagnosticInformationResponse_message : ServiceMessage ClearDiagnosticInformationResponse := {|
  service_id := ClearDiagnosticInformationResponse_service_id;
  get_if m := match m with ClearDiagnosticInformationResponse_alternative x => Some x | _ => None end
|}.
#[export] Instance RoutineControlRequest_message : ServiceMessage RoutineControlRequest := {|
  service_id := RoutineControlRequest_service_id;
  get_if m := match m with RoutineControlRequest_alternative x => Some x | _ => None end
|}.
#[export] Instance RoutineControlRequest_request : ServiceRequest RoutineControlRequest := RoutineControlRequest_min_size.
#[export] Instance RoutineControlResponse_message : ServiceMessage RoutineControlResponse := {|
  service_id := RoutineControlResponse_service_id;
  get_if m := match m with RoutineControlResponse_alternative x => Some x | _ => None end
|}.
#[export] Instance InputOutputControlByIdentifierRequest_message : ServiceMessage InputOutputControlByIdentifierRequest := {|
  service_id := InputOutputControlByIdentifierRequest_service_id;
  get_if m := match m with InputOutputControlByIdentifierRequest_alternative x => Some x | _ => None end
|}.
#[export] Instance InputOutputControlByIdentifierRequest_request : ServiceRequest InputOutputControlByIdentifierRequest := InputOutputControlByIdentifierRequest_min_size.
#[export] Instance InputOutputControlByIdentifierResponse_message : ServiceMessage InputOutputControlByIdentifierResponse := {|
  service_id := InputOutputControlByIdentifierResponse_service_id;
  get_if m := match m with InputOutputControlByIdentifierResponse_alternative x => Some x | _ => None end
|}.
#[export] Instance RequestDownloadRequest_message : ServiceMessage RequestDownloadRequest := {|
  service_id := RequestDownloadRequest_service_id;
  get_if m := match m with RequestDownloadRequest_alternative x => Some x | _ => None end
|}.
#[export] Instance RequestDownloadRequest_request : ServiceRequest RequestDownloadRequest := RequestDownloadRequest_min_size.
#[export] Instance RequestDownloadResponse_message : ServiceMessage RequestDownloadResponse := {|
  service_id := RequestDownloadResponse_service_id;
  get_if m := match m with RequestDownloadResponse_alternative x => Some x | _ => None end
|}.
#[export] Instance RequestUploadRequest_message : ServiceMessage RequestUploadRequest := {|
  service_id := RequestUploadRequest_service_id;
  get_if m := match m with RequestUploadRequest_alternative x => Some x | _ => None end
|}.
#[export] Instance RequestUploadRequest_request : ServiceRequest RequestUploadRequest := RequestUploadRequest_min_size.
#[export] Instance RequestUploadResponse_message : ServiceMessage RequestUploadResponse := {|
  service_id := RequestUploadResponse_service_id;
  get_if m := match m with RequestUploadResponse_alternative x => Some x | _ => None end
|}.
#[export] Instance TransferDataRequest_message : ServiceMessage TransferDataRequest := {|
  service_id := TransferDataRequest_service_id;
  get_if m := match m with TransferDataRequest_alternative x => Some x | _ => None end
|}.
#[export] Instance TransferDataRequest_request : ServiceRequest TransferDataRequest := TransferDataRequest_min_size.
#[export] Instance TransferDataResponse_message : ServiceMessage TransferDataResponse := {|
  service_id := TransferDataResponse_service_id;
  get_if m := match m with TransferDataResponse_alternative x => Some x | _ => None end
|}.
#[export] Instance RequestTransferExitRequest_message : ServiceMessage RequestTransferExitRequest := {|
  service_id := RequestTransferExitRequest_service_id;
  get_if m := match m with RequestTransferExitRequest_alternative x => Some x | _ => None end
|}.
#[export] Instance RequestTransferExitRequest_request : ServiceRequest RequestTransferExitRequest := RequestTransferExitRequest_min_size.
#[export] Instance RequestTransferExitResponse_message : ServiceMessage RequestTransferExitResponse := {|
  service_id := RequestTransferExitResponse_service_id;
  get_if m := match m with RequestTransferExitResponse_alternative x => Some x | _ => None end
|}.
#[export] Instance ReadMemoryByAddressRequest_message : ServiceMessage ReadMemoryByAddressRequest := {|
  service_id := ReadMemoryByAddressRequest_service_id;
  get_if m := match m with ReadMemoryByAddressRequest_alternative x => Some x | _ => None end
|}.
#[export] Instance ReadMemoryByAddressRequest_request : ServiceRequest ReadMemoryByAddressRequest := ReadMemoryByAddressRequest_min_size.
#[export] Instance ReadMemoryByAddressResponse_message : ServiceMessage ReadMemoryByAddressResponse := {|
  service_id := ReadMemoryByAddressResponse_service_id;
  get_if m := match m with ReadMemoryByAddressResponse_alternative x => Some x | _ => None end
|}.
#[export] Instance WriteMemoryByAddressRequest_message : ServiceMessage WriteMemoryByAddressRequest := {|
  service_id := WriteMemoryByAddressRequest_service_id;
  get_if m := match m with WriteMemoryByAddressRequest_alternative x => Some x | _ => None end
|}.
#[export] Instance WriteMemoryByAddressRequest_request : ServiceRequest WriteMemoryByAddressRequest := WriteMemoryByAddressRequest_min_size.
#[export] Instance WriteMemoryByAddressResponse_message : ServiceMessage WriteMemoryByAddressResponse := {|
  service_id := WriteMemoryByAddressResponse_service_id;
  get_if m := match m with WriteMemoryByAddressResponse_alternative x => Some x | _ => None end
|}.

(** The structure that the decoder fills; [routine_info] keeps its default. *)
Definition of_decoded (m : Uds.UdsServiceMessage) : UdsServiceMessage :=
  match m with
  | Uds.Unparsed => Monostate
  | Uds.DiagnosticSessionControlRequest t s => DiagnosticSessionControlRequest_alternative (mkDiagnosticSessionControlRequest t s)
  | Uds.DiagnosticSessionControlResponse t p2 p2_star =>
      DiagnosticSessionControlResponse_alternative (mkDiagnosticSessionControlResponse t p2 p2_star)
  | Uds.ECUResetRequest t s => ECUResetRequest_alternative (mkECUResetRequest t s)
  | Uds.ECUResetResponse t p => ECUResetResponse_alternative (mkECUResetResponse t p)
  | Uds.SecurityAccessRequest t s key => SecurityAccessRequest_alternative (mkSecurityAccessRequest t s key)
  | Uds.SecurityAccessResponse t seed => SecurityAccessResponse_alternative (mkSecurityAccessResponse t seed)
  | Uds.TesterPresentRequest t s => TesterPresentRequest_alternative (mkTesterPresentRequest t s)
  | Uds.TesterPresentResponse t => TesterPresentResponse_alternative (mkTesterPresentResponse t)
  | Uds.ReadDataByIdentifierRequest l => ReadDataByIdentifierRequest_alternative (mkReadDataByIdentifierRequest l)
  | Uds.ReadDataByIdentifierResponse l =>
      ReadDataByIdentifierResponse_alternative (mkReadDataByIdentifierResponse ((fun r => mkDataRecord r.1 r.2) <$> l))
  | Uds.WriteDataByIdentifierRequest did d => WriteDataByIdentifierRequest_alternative (mkWriteDataByIdentifierRequest did d)
  | Uds.WriteDataByIdentifierResponse did => WriteDataByIdentifierResponse_alternative (mkWriteDataByIdentifierResponse did)
  | Uds.RoutineControlRequest t s rid d => RoutineControlRequest_alternative (mkRoutineControlRequest t rid d s)
  | Uds.RoutineControlResponse t rid d => RoutineControlResponse_alternative (mkRoutineControlResponse t rid [] d)
  | Uds.RequestDownloadRequest c e size_len addr_len a n =>
      RequestDownloadRequest_alternative (mkRequestDownloadRequest (c, e) (size_len, addr_len) a n)
  | Uds.RequestDownloadResponse l n => RequestDownloadResponse_alternative (mkRequestDownloadResponse l n)
  | Uds.TransferDataRequest c d => TransferDataRequest_alternative (mkTransferDataRequest c d)
  | Uds.TransferDataResponse c d => TransferDataResponse_alternative (mkTransferDataResponse c d)
  | Uds.RequestTransferExitRequest d => RequestTransferExitRequest_alternative (mkRequestTransferExitRequest d)
  | Uds.RequestTransferExitResponse d => RequestTransferExitResponse_alternative (mkRequestTransferExitResponse d)
  | Uds.NegativeResponseMessage sid nrc => NegativeResponseMessage_alternative (mkNegativeResponseMessage sid nrc)
  end.

(** ** Accessors *)

Definition p2_star_ms (r : DiagnosticSessionControlResponse) : Z := UdsSession.p2_star_ms (dscr_p2_star_server_max_ms r).
Definition is_request_seed (q : SecurityAccessRequest) : bool := negb (Z.land (saq_access_type q) 0x01 =? 0).
Definition is_send_key (q : SecurityAccessRequest) : bool := Uds.is_send_key (saq_access_type q).
Definition security_level (q : SecurityAccessRequest) : Z := uint 8 ((saq_access_type q + 1) / 2).
Definition is_already_unlocked (r : SecurityAccessResponse) : bool := forallb (fun b => u8 b =? 0) (sar_security_seed r).
Definition find_did (r : ReadDataByIdentifierResponse) (did : Z) : option DataRecord :=
  List.find (fun record => dr_did record =? did) (rdbir_records r).
Definition is_clear_all (q : ClearDiagnosticInformationRequest) : bool := cdiq_group_of_dtc q =? 0xFFFFFF.

Definition nrc_byte (m : NegativeResponseMessage) : Z := nr_negative_response_code m.
Definition is_response_pending (m : NegativeResponseMessage) : bool := nr_negative_response_code m =? 0x78.
Definition is_temporary (m : NegativeResponseMessage) : bool := UdsTables.is_temporary_nrc (nr_negative_response_code m).
Definition nrc_string (m : NegativeResponseMessage) : string := UdsTables.nrc_string (nr_negative_response_code m).
Definition nrc_description (m : NegativeResponseMessage) : string := UdsTables.nrc_description (nr_negative_response_code m).
Definition service_specific_description (m : NegativeResponseMessage) : string :=
  UdsTables.service_specific_nrc_description (nr_rejected_service_id m) (nr_negative_response_code m).
Definition response_sid : Z := Uds.NEGATIVE_RESPONSE_SID.
Definition negative_response_size : Z := 3.

Definition service_supports_suppress_response (sid : Z) : bool := Uds.service_has_sub_function sid.

(** * Properties *)

(** ** The decoder keeps to the static members *)

Class RequestLaws (T : Type) `{ServiceRequest T} : Prop := request_law d r (x : T) :
  Uds.decode d = Done r -> get_if (of_decoded (Uds.message r)) = Some x ->
  Uds.direction (Uds.header r) = Uds.Request /\ Uds.service_id (Uds.header r) = service_id T /\ min_size T <= zlen d.

Class ResponseLaws (T : Type) `{ServiceMessage T} : Prop := response_law d r (x : T) :
  Uds.decode d = Done r -> get_if (of_decoded (Uds.message r)) = Some x ->
  Uds.direction (Uds.header r) = Uds.PositiveResponse /\ Uds.service_id (Uds.header r) = service_id T.

(** The sizes that the parsers of requests ask for. *)
Definition least_size (m : UdsServiceMessage) : Z :=
  match m with
  | DiagnosticSessionControlRequest_alternative _ => min_size DiagnosticSessionControlRequest
  | ECUResetRequest_alternative _ => min_size ECUResetRequest
  | SecurityAccessRequest_alternative _ => min_size SecurityAccessRequest
  | TesterPresentRequest_alternative _ => min_size TesterPresentRequest
  | ReadDataByIdentifierRequest_alternative _ => min_size ReadDataByIdentifierRequest
  | WriteDataByIdentifierRequest_alternative _ => min_size WriteDataByIdentifierRequest
  | RoutineControlRequest_alternative _ => min_size RoutineControlRequest
  | RequestDownloadRequest_alternative _ => min_size RequestDownloadRequest
  | TransferDataRequest_alternative _ => min_size TransferDataRequest
  | _ => 1
  end.

Lemma request_least_size sid d m : 1 <= zlen d -> Uds.request_message sid d = Done m -> least_size (of_decoded m) <= zlen d.
Proof.
  unfold Uds.request_message, Uds.parse_diagnostic_session_control_request, Uds.parse_ecu_reset_request,
    Uds.parse_security_access_request, Uds.parse_tester_present_request, Uds.parse_read_data_by_identifier_request,
    Uds.parse_write_data_by_identifier_request, Uds.parse_routine_control_request, Uds.parse_request_download_request,
    Uds.parse_transfer_data_request, Uds.parse_request_transfer_exit_request.
  intros Hd H. Uds.follow H; bool_to_prop; subst; cbn; try assumption.
Qed.

Lemma decoded_shape d r :
  Uds.decode d = Done r ->
  (Uds.message r = Uds.Unparsed \/
   Uds.message_service (Uds.message r) = Some (Uds.direction (Uds.header r), Uds.service_id (Uds.header r))) /\
  (Uds.direction (Uds.header r) = Uds.Request -> least_size (of_decoded (Uds.message r)) <= zlen d).
Proof.
  unfold Uds.decode, Uds.MIN_MESSAGE_SIZE. intros H. destruct (Z.ltb_spec (zlen d) 1) as [Hd|Hd]; [discriminate|].
  apply bind_inv in H as (sid & _ & H). destruct (sid =? Uds.NEGATIVE_RESPONSE_SID); [|destruct (negb (Z.land sid 64 =? 0))].
  - destruct (Uds.parse_negative_response_typed d r H) as (_ & Hs & _). split; [exact Hs|].
    unfold Uds.parse_negative_response in H. Uds.follow H; subst; discriminate.
  - destruct (Uds.parse_positive_response_typed d r H) as (_ & Hs & _). split; [exact Hs|].
    unfold Uds.parse_positive_response in H. Uds.follow H. Uds.follow Ha0; subst; discriminate.
  - destruct (Uds.parse_request_typed d r H) as (_ & Hs & _). split; [exact Hs|]. intros _.
    unfold Uds.parse_request in H. apply bind_inv in H as (sid' & _ & H). apply bind_inv in H as (h & _ & H).
    apply bind_inv in H as (m & Hm & [= <-]). exact (request_least_size _ _ _ Hd Hm).
Qed.

(** A structure that the decoder fills comes from a message of its service and length;
    the others it never fills. *)
Ltac keeps_law :=
  intros d r x Hd Hx; destruct (decoded_shape d r Hd) as [Hs Hl];
  destruct (Uds.message r) eqn:Em; try discriminate Hx;
  destruct Hs as [?|[= Ed Es]]; try discriminate; rewrite <- ?Ed, <- ?Es; auto.
#[export] Instance DiagnosticSessionControlRequest_laws : RequestLaws DiagnosticSessionControlRequest.
Proof. keeps_law. Qed.
#[export] Instance DiagnosticSessionControlResponse_laws : ResponseLaws DiagnosticSessionControlResponse.
Proof. keeps_law. Qed.
#[export] Instance ECUResetRequest_laws : RequestLaws ECUResetRequest.
Proof. keeps_law. Qed.
#[export] Instance ECUResetResponse_laws : ResponseLaws ECUResetResponse.
Proof. keeps_law. Qed.
#[export] Instance SecurityAccessRequest_laws : RequestLaws SecurityAccessRequest.
Proof. keeps_law. Qed.
#[export] Instance SecurityAccessResponse_laws : ResponseLaws SecurityAccessResponse.
Proof. keeps_law. Qed.
#[export] Instance CommunicationControlRequest_laws : RequestLaws CommunicationControlRequest.
Proof. keeps_law. Qed.
#[export] Instance CommunicationControlResponse_laws : ResponseLaws CommunicationControlResponse.
Proof. keeps_law. Qed.
#[export] Instance TesterPresentRequest_laws : RequestLaws TesterPresentRequest.
Proof. keeps_law. Qed.
#[export] Instance TesterPresentResponse_laws : ResponseLaws TesterPresentResponse.
Proof. keeps_law. Qed.
#[export] Instance ControlDTCSettingRequest_laws : RequestLaws ControlDTCSettingRequest.
Proof. keeps_law. Qed.
#[export] Instance ControlDTCSettingResponse_laws : ResponseLaws ControlDTCSettingResponse.
Proof. keeps_law. Qed.
#[export] Instance ReadDataByIdentifierRequest_laws : RequestLaws ReadDataByIdentifierRequest.
Proof. keeps_law. Qed.
#[export] Instance ReadDataByIdentifierResponse_laws : ResponseLaws ReadDataByIdentifierResponse.
Proof. keeps_law. Qed.
#[export] Instance WriteDataByIdentifierRequest_laws : RequestLaws WriteDataByIdentifierRequest.
Proof. keeps_law. Qed.
#[export] Instance WriteDataByIdentifierResponse_laws : ResponseLaws WriteDataByIdentifierResponse.
Proof. keeps_law. Qed.
#[export] Instance ReadDTCInformationRequest_laws : RequestLaws ReadDTCInformationRequest.
Proof. keeps_law. Qed.
#[export] Instance ReadDTCInformationResponse_laws : ResponseLaws ReadDTCInformationResponse.
Proof. keeps_law. Qed.
#[export] Instance ClearDiagnosticInformationRequest_laws : RequestLaws ClearDiagnosticInformationRequest.
Proof. keeps_law. Qed.
#[export] Instance ClearDiagnosticInformationResponse_laws : ResponseLaws ClearDiagnosticInformationResponse.
Proof. keeps_law. Qed.
#[export] Instance RoutineControlRequest_laws : RequestLaws RoutineControlRequest.
Proof. keeps_law. Qed.
#[export] Instance RoutineControlResponse_laws : ResponseLaws RoutineControlResponse.
Proof. keeps_law. Qed.
#[export] Instance InputOutputControlByIdentifierRequest_laws : RequestLaws InputOutputControlByIdentifierRequest.
Proof. keeps_law. Qed.
#[export] Instance InputOutputControlByIdentifierResponse_laws : ResponseLaws InputOutputControlByIdentifierResponse.
Proof. keeps_law. Qed.
#[export] Instance RequestDownloadRequest_laws : RequestLaws RequestDownloadRequest.
Proof. keeps_law. Qed.
#[export] Instance RequestDownloadResponse_laws : ResponseLaws RequestDownloadResponse.
Proof. keeps_law. Qed.
#[export] Instance RequestUploadRequest_laws : RequestLaws RequestUploadRequest.
Proof. keeps_law. Qed.
#[export] Instance RequestUploadResponse_laws : ResponseLaws RequestUploadResponse.
Proof. keeps_law. Qed.
#[export] Instance TransferDataRequest_laws : RequestLaws TransferDataRequest.
Proof. keeps_law. Qed.
#[export] Instance TransferDataResponse_laws : ResponseLaws TransferDataResponse.
Proof. keeps_law. Qed.
#[export] Instance RequestTransferExitRequest_laws : RequestLaws RequestTransferExitRequest.
Proof. keeps_law. Qed.
#[export] Instance RequestTransferExitResponse_laws : ResponseLaws RequestTransferExitResponse.
Proof. keeps_law. Qed.
#[export] Instance ReadMemoryByAddressRequest_laws : RequestLaws ReadMemoryByAddressRequest.
Proof. keeps_law. Qed.
#[export] Instance ReadMemoryByAddressResponse_laws : ResponseLaws ReadMemoryByAddressResponse.
Proof. keeps_law. Qed.
#[export] Instance WriteMemoryByAddressRequest_laws : RequestLaws WriteMemoryByAddressRequest.
Proof. keeps_law. Qed.
#[export] Instance WriteMemoryByAddressResponse_laws : ResponseLaws WriteMemoryByAddressResponse.
Proof. keeps_law. Qed.

(** The law of requests in one statement: what the decoder takes for a request has the
    service, and at least the minimal length, of its structure. *)
Theorem decoded_request {T} `{RequestLaws T} d r (x : T) :
  Uds.decode d = Done r -> get_if (of_decoded (Uds.message r)) = Some x ->
  Uds.service_id (Uds.header r) = service_id T /\ min_size T <= zlen d.
Proof. intros Hd Hx. destruct (request_law d r x Hd Hx) as (_ & Hs & Hl). split; assumption. Qed.

Lemma decoded_request_witness :
  exists r, Uds.decode [x3e; x80] = Done r /\
    Uds.service_id (Uds.header r) = TesterPresentRequest_service_id /\ TesterPresentRequest_min_size <= 2.
Proof.
  eexists. split; [reflexivity|].
  exact (decoded_request (T := TesterPresentRequest) [x3e; x80] _ (mkTesterPresentRequest 0 true) eq_refl eq_refl).
Defined.

(** Whether the decoder fills the structure [T] from these bytes. *)
Definition fills (T : Type) `{ServiceMessage T} (d : list byte) : bool :=
  match Uds.decode d with
  | Done r => match get_if (T := T) (of_decoded (Uds.message r)) with Some _ => true | None => false end
  | _ => false
  end.

(** The minimal lengths are attained by the ten services that are parsed; the requests of
    the other services are decoded without a message. *)
Definition smallest (T : Type) `{ServiceRequest T} (rest : list byte) : bool :=
  (zlen rest + 1 =? min_size T) && fills T (to_byte (service_id T) :: rest).
Theorem min_sizes_attained :
  smallest DiagnosticSessionControlRequest [x01] = true /\ smallest ECUResetRequest [x01] = true /\
  smallest SecurityAccessRequest [x01] = true /\ smallest TesterPresentRequest [x00] = true /\
  smallest ReadDataByIdentifierRequest [xf1; x90] = true /\ smallest WriteDataByIdentifierRequest [xf1; x90; x00] = true /\
  smallest RoutineControlRequest [x01; x02; x03] = true /\ smallest RequestDownloadRequest [x00; x00; x00] = true /\
  smallest TransferDataRequest [x01] = true /\ smallest RequestTransferExitRequest [] = true.
Proof. vm_compute. repeat split. Qed.

(** ** Accessors *)

(** The two sub-functions of a security level. *)
Theorem security_levels k s key :
  1 <= k <= 63 ->
  let seed := mkSecurityAccessRequest (2 * k - 1) s key in
  let send := mkSecurityAccessRequest (2 * k) s key in
  is_request_seed seed = true /\ is_send_key seed = false /\ security_level seed = k /\
  is_request_seed send = false /\ is_send_key send = true /\ security_level send = k.
Proof.
  intros Hk seed send. unfold is_request_seed, is_send_key, Uds.is_send_key, security_level, seed, send. cbn [saq_access_type].
  assert (Hodd : Z.land (2 * k - 1) 1 = 1) by (change 1 with (Z.ones 1) at 2; rewrite Z.land_ones; lia).
  assert (Heven : Z.land (2 * k) 1 = 0) by (change 1 with (Z.ones 1); rewrite Z.land_ones; lia).
  rewrite Hodd, Heven, !uint_small by (unfold fits; lia). repeat split; lia.
Qed.

Lemma security_levels_witness : security_level (mkSecurityAccessRequest (2 * 3) false []) = 3.
Proof. destruct (security_levels 3 false [] ltac:(lia)) as (_ & _ & _ & _ & _ & H). exact H. Defined.

(** [find_did] returns the first record of an identifier, if there is one. *)
Theorem find_did_exact r did :
  match find_did r did with
  | Some record => exists before after, rdbir_records r = before ++ record :: after /\ dr_did record = did /\
                     Forall (fun x => dr_did x <> did) before
  | None => Forall (fun x => dr_did x <> did) (rdbir_records r)
  end.
Proof.
  unfold find_did. induction (rdbir_records r) as [|x l IH]; cbn; [constructor|].
  destruct (Z.eqb_spec (dr_did x) did) as [E|E]; [exists [], l; auto|].
  destruct (List.find _ l) as [y|]; [|constructor; assumption].
  destruct IH as (before & after & -> & Hy & Hb). exists (x :: before), after. auto.
Qed.

Lemma one_record d r l :
  Uds.decode d = Done r -> Uds.message r = Uds.ReadDataByIdentifierResponse l ->
  exists did v, Uds.message r = Uds.ReadDataByIdentifierResponse [(did, v)].
Proof.
  unfold Uds.decode. intros H Hl. destruct (zlen d <? _); [discriminate|].
  apply bind_inv in H as (sid & _ & H). destruct (sid =? _); [|destruct (negb _)].
  - unfold Uds.parse_negative_response in H. Uds.follow H; subst; discriminate.
  - unfold Uds.parse_positive_response in H. apply bind_inv in H as (b & _ & H). apply bind_inv in H as (h & _ & H).
    apply bind_inv in H as (m & Hm & [= <-]). cbn in Hl. subst m.
    unfold Uds.response_message, Uds.parse_diagnostic_session_control_response, Uds.parse_ecu_reset_response,
      Uds.parse_security_access_response, Uds.parse_tester_present_response, Uds.parse_read_data_by_identifier_response,
      Uds.parse_write_data_by_identifier_response, Uds.parse_routine_control_response, Uds.parse_request_download_response,
      Uds.parse_transfer_data_response, Uds.parse_request_transfer_exit_response in Hm.
    Uds.follow Hm; try discriminate; injection Hm as <-; eauto.
  - unfold Uds.parse_request in H. apply bind_inv in H as (b & _ & H). apply bind_inv in H as (h & _ & H).
    apply bind_inv in H as (m & Hm & [= <-]). cbn in Hl. subst m.
    apply Uds.request_message_service in Hm as [?|?]; discriminate.
Qed.

(** The decoder puts the whole answer into one record, so only the first identifier of a
    response is ever found. *)
Theorem only_first_did_found d r x :
  Uds.decode d = Done r -> get_if (of_decoded (Uds.message r)) = Some x ->
  exists first, forall did, find_did x did = if dr_did first =? did then Some first else None.
Proof.
  intros Hd Hx. destruct (Uds.message r) eqn:Em; try discriminate Hx.
  destruct (one_record d r _ Hd Em) as (did & v & E). rewrite Em in E. injection E as ->. injection Hx as <-.
  exists (mkDataRecord did v). intros q. reflexivity.
Qed.

Lemma only_first_did_found_witness :
  exists r x, Uds.decode [x62; xf1; x90; x41; xf1; x8c; x42] = Done r /\ get_if (of_decoded (Uds.message r)) = Some x /\
    find_did x 0xf190 = Some (mkDataRecord 0xf190 [x41; xf1; x8c; x42]) /\ find_did x 0xf18c = None /\
    exists first, forall did, find_did x did = if dr_did first =? did then Some first else None.
Proof.
  do 2 eexists. split; [reflexivity|]. split; [reflexivity|]. split; [reflexivity|]. split; [reflexivity|].
  exact (only_first_did_found [x62; xf1; x90; x41; xf1; x8c; x42] _ _ eq_refl eq_refl).
Defined.

(** The response to a key carries no seed and counts as already unlocked, as if it were the
    answer to a request for a seed. *)
Example key_response_already_unlocked : is_already_unlocked (mkSecurityAccessResponse 2 []) = true.
Proof. reflexivity. Qed.

Theorem communication_type_round_trip ct : CommunicationType_from_byte (CommunicationType_to_byte ct) = ct.
Proof. destruct ct as [[] []]; reflexivity. Qed.
